(* ===== verification/_CoqProject ===== *)
-Q . S2P
Prelude.v
IvList.v
ISeq.v
Avl.v
AvlPath.v
AvlSpec.v
Task.v
Timer.v
TimerRadix.v
TimerHeap.v
TimerOps.v
TimerSpec.v
Sys.v
Fd.v
PmState.v
FdPoll.v
FdEpoll.v
FdKqueue.v
FdDevPoll.v
FdPort.v
FdSpec.v
FdCore.v
FdDeferred.v
FdKqueueSpec.v
FdDevPollSpec.v
FdPortSpec.v
FdEpollSpec.v
FdPollSpec.v
FdMethods.v
FdSim.v
FdTimeout.v
FdProps.v
FdExact.v
Pump.v
PumpSpec.v
PumpSim.v
PumpProps.v
Tls.v
Main.v
MainThread.v
Conc.v
Event.v
EventSpec.v
EventProps.v
EventRaw.v
EventRawSpec.v
Work.v
WorkSpec.v
WorkProps.v
WorkLocal.v
AvlSearch.v
Signal.v
SignalSpec.v
SignalProps.v
SignalRaw.v
Wait.v
WaitSpec.v
WaitProps.v
Inotify.v
InotifyProps.v
Popen.v
PopenProps.v
Thread.v
ThreadSpec.v
ThreadProps.v
