(* ===== verification/Prelude.v ===== *)
(** * A verification library for ivykis

    ivykis (src/) is a C library for asynchronous I/O: a thread calls [iv_init],
    registers objects (descriptors, timers, tasks, events), and [iv_main] calls their
    handlers until [iv_quit] or until no object is left.  This library is a shallow
    embedding of its core in Rocq and the proof that the core does what its manual pages
    promise.

    ** How code becomes definitions

    A C function over the state [S] is a function [M S A := S -> res (A * S)] (below).
    [Fatal] is a call of [iv_fatal], [Undef] what C leaves undefined (a NULL or dangling
    dereference, an index outside of an array, a list cell used while on no list, an
    over-wide shift), [OutOfFuel] a loop that went on longer than its bound.  Loops that
    are not structural take fuel computed from the state where the function is called;
    that it suffices is part of every theorem, which state results with [wp]: a [wp] or an
    equation [= Ok _] leaves no room for [Undef] or [OutOfFuel], and none for [Fatal]
    except where it says so (its first argument is the set of messages allowed).
    Statements of the code keep their order; a definition that stands for a part of a C
    function is named after what the part does.  Integers are [Z]; where the code depends
    on their width (8-bit tree heights, 31-bit limits, 32-bit sequence numbers, the shifts
    of the timers' radix tree) the wrap-around or the bound is written out.  Objects are
    addresses [loc] in maps; [None] is NULL.

    What is not under src/ (the kernel, malloc, clocks, the client's handlers) is a
    parameter: a class of operations on an opaque world [W], with a class of laws that the
    manual pages state.  Handlers are functions from what has run so far to the calls the
    handler makes, so that theorems speak of handlers that register, unregister and free
    objects while lists are being walked.  The client's half of the contract is [requires]
    (or the [legal] predicates): what it forbids ends the run, as a breach.  Theorems with
    such parameters have witnesses on concrete kernels and clients ([sim] of FdSim.v, and
    others next to the theorems).

    Components that several threads share (Conc.v) are programs of atomic actions; a
    section that runs with a lock held is one action, a signal handler is a program that may
    start between any two actions, and theorems are about every interleaving.

    ** Parts

    - Lists: IvList.v has iv_list.h on a heap of cells; ISeq.v the sequences other files
      keep instead, with the proof that the cells implement them.
    - Trees: Avl.v has iv_avl.c on a heap of nodes; AvlPath.v and AvlSpec.v prove the
      height invariant and that inserting, deleting and walking refine sorted sequences;
      AvlSearch.v the searches of iv_signal.c, iv_wait.c, iv_fd_dev_poll.c and
      iv_inotify.c, and that a tree with keys is a finite map.
    - Tasks: Task.v (iv_task.c), on linked lists, refines an abstract machine.
    - Timers: Timer.v (iv_timer.c, iv_time_posix.c), a heap whose array is a radix
      tree of 128-way nodes: TimerRadix.v the radix tree, TimerHeap.v the heap order,
      TimerOps.v the operations, TimerSpec.v programs of timer calls and runs.
    - Descriptors: Fd.v (iv_fd.c) over a record of operations, [struct
      iv_fd_poll_method]; FdSpec.v the interface [PollMethod] between the two, FdCore.v
      the proofs of iv_fd.c against it.  The methods: FdPoll.v and FdPollSpec.v
      (iv_fd_poll.c), FdEpoll.v and FdEpollSpec.v (iv_fd_epoll.c), FdDevPoll.v and
      FdDevPollSpec.v (iv_fd_dev_poll.c), FdKqueue.v and FdKqueueSpec.v (iv_fd_kqueue.c),
      FdPort.v and FdPortSpec.v (iv_fd_port.c); FdDeferred.v is what the methods that put
      off their changes to the next poll share, PmState.v the parts of iv_private_posix.h
      they keep.  FdMethods.v plugs them together (the candidates of Linux, BSD and
      Solaris), FdProps.v, FdTimeout.v and FdExact.v have the theorems, FdSim.v kernels of
      the three systems to run on.
    - Pumps: Pump.v (iv_fd_pump.c), PumpSpec.v its invariant, PumpProps.v the theorems,
      PumpSim.v a kernel.
    - The main loop: Tls.v (iv_tls.c), Main.v (iv_main_posix.c) over a class of what
      the components do in a turn, MainThread.v that class for tasks, timers and
      descriptors, and the life of a thread from [iv_init] to [iv_deinit].
    - Events between threads: Event.v (iv_event.c) over a class of wakeups, EventSpec.v
      the invariant, EventProps.v the theorems; EventRaw.v (iv_event_raw_posix.c,
      eventfd-linux.h) and EventRawSpec.v, which shows raw events to be such wakeups.
    - Work pools: Work.v (iv_work.c), WorkSpec.v, WorkProps.v; WorkLocal.v the items
      without a pool.
    - Signals: Signal.v (iv_signal.c), SignalSpec.v, SignalProps.v; SignalRaw.v plugs the raw
      events of EventRaw.v into it.
    - Child processes: Wait.v (iv_wait.c), WaitSpec.v, WaitProps.v; Popen.v
      (iv_popen.c) and PopenProps.v, over what iv_wait.c and iv_timer.c ask of their caller.
    - Threads: Thread.v (iv_thread_posix.c), ThreadSpec.v, ThreadProps.v.
    - Inotify: Inotify.v (iv_inotify.c) and InotifyProps.v, with the events as the bytes
      of the kernel's buffer.
    Sys.v has the error numbers and the retry loop, Prelude.v (this file) the monad, its
    [wp] calculus and generic lemmas.

    ** What the theorems show

    - Safety: programs of calls within the contract never run into undefined behaviour:
      [InotifyProps.iv_inotify_programs_safe], [PopenProps.iv_popen_programs_safe],
      [FdProps.iv_fd_programs_safe], [TimerSpec.iv_timer_programs_safe],
      [MainThread.iv_thread_life], [PumpProps.iv_fd_pump_safe], and for every
      interleaving [WorkProps.iv_work_pool_safe], [SignalProps.iv_signal_safe],
      [WaitProps.iv_wait_safe], [ThreadProps.iv_thread_safe].
    - Nothing is lost and nothing runs twice: [EventProps.iv_event_no_lost_wakeup],
      [EventProps.iv_event_in_order], [WorkProps.iv_work_exactly_once],
      [WorkProps.iv_work_no_stall], [SignalProps.iv_signal_no_lost],
      [WaitProps.iv_wait_in_order], [ThreadProps.iv_thread_reference],
      [PumpProps.iv_fd_pump_streams]; a child whose request was closed is signalled until it is
      gone, and not later ([PopenProps.iv_popen_signals]).
    - Refinement: of sequences by lists and trees ([IvList.iv_list_refines_sequences],
      [AvlSpec.iv_avl_refines_sorted_sequences]), of an abstract machine by tasks
      ([Task.iv_task_refines]), of the searches ([AvlSearch.iv_signal_do_wake_refines]),
      of finite maps by keyed trees ([AvlSearch.iv_fd_avl_is_map]), of the events the kernel
      wrote by the walk over its buffer ([InotifyProps.iv_inotify_got_event_dispatches]), and
      of wakeups by raw events ([EventRawSpec.iv_event_over_raw_events]).
    - What rounds do: [TimerSpec.iv_run_timers_correct], [Task.iv_run_tasks_round],
      [FdProps.iv_fd_poll_and_run_order], [MainThread.iv_main_turns].
    - What calls do that the programs of the safety theorems may leave out or that undo others:
      [WaitProps.iv_wait_unregister_early], [ThreadProps.iv_thread_deinit_detaches],
      [EventRawSpec.iv_event_raw_roundtrip].
    - What the kernel is asked for is exact: [FdProps.iv_fd_epoll_flush_exact],
      [FdExact.iv_fd_dev_poll_flush_exact], [PopenProps.iv_popen_child_descriptors],
      [FdProps.iv_fd_poll_array_exact], [FdTimeout.iv_fd_timeout_check_never_late],
      [TimerSpec.to_msec_correct].
    - Where the code falls short of its manual pages: [FdProps.iv_fd_poll_register_no_handlers],
      [TimerSpec.iv_timer_get_node_shift_overflow], [EventProps.iv_event_register_failure],
      [WorkProps.iv_work_put_loses_items], [WorkProps.iv_work_seq_overflow],
      [SignalProps.iv_signal_register_ignores_failure], [WaitProps.iv_wait_unknown_child],
      [FdExact.iv_fd_kqueue_register_try_one_band],
      [InotifyProps.iv_inotify_term_not_initialised], [PopenProps.iv_popen_child_pipe_zero],
      [ThreadProps.iv_thread_detached_post], [ThreadProps.iv_thread_unregistered_post].

    ** Not modelled

    iv_fatal.c (formatting and logging); the Win32 port (glue to the Win32 API); the
    contributed libraries (clients of this one); the set-up and destruction of mutexes,
    [pthread_atfork] and constructors, other than the order in which modules register
    their thread state (Tls.v).  Memory is not modelled below the objects:
    a read of an uninitialised field is visible only where the field or cell is absent. *)

From stdpp Require Export base option numbers strings gmap sets list.
From stdpp Require Export list_basics list_relations list_monad list_misc list_tactics list_numbers.

#[global] Set Default Goal Selector "!".
#[global] Set Warnings "-clear-no-such-hyp,-level-tolerance".

(** ** Outcomes

    [Fatal] is a call of [iv_fatal] (the process aborts), [Undef] is C
    undefined behaviour (a NULL or dangling dereference, an over-wide shift)
    and [OutOfFuel] is a loop whose bound was too small. *)
Inductive res (A : Type) : Type :=
  | Ok (a : A)
  | Fatal (msg : string)
  | Undef
  | OutOfFuel.
Arguments Ok {_} _.
Arguments Fatal {_} _.
Arguments Undef {_}.
Arguments OutOfFuel {_}.

(** A C function over the state [S]. *)
Definition M (S A : Type) : Type := S -> res (A * S).

#[global] Instance M_ret S : MRet (M S) := fun A a s => Ok (a, s).
#[global] Instance M_bind S : MBind (M S) := fun A B k m s =>
  match m s with
  | Ok (a, s') => k a s'
  | Fatal e => Fatal e
  | Undef => Undef
  | OutOfFuel => OutOfFuel
  end.

Definition get {S} : M S S := fun s => Ok (s, s).
Definition put {S} (s : S) : M S unit := fun _ => Ok (tt, s).
Definition gets {S A} (f : S -> A) : M S A := fun s => Ok (f s, s).
Definition modify {S} (f : S -> S) : M S unit := fun s => Ok (tt, f s).
Definition iv_fatal {S A} (msg : string) : M S A := fun _ => Fatal msg.
Definition undef {S A} : M S A := fun _ => Undef.
(** What the interface asks of the client, or a law of the environment; not in the code. *)
Definition requires {S} (b : bool) : M S unit := if b then mret tt else iv_fatal "outside of the interface".
Definition out_of_fuel {S A} : M S A := fun _ => OutOfFuel.

(** Dereferencing a possibly NULL or dangling pointer. *)
Definition deref {S A} (o : option A) : M S A :=
  match o with Some a => mret a | None => undef end.

(** [if (b) m;] *)
Definition when {S} (b : bool) (m : M S unit) : M S unit :=
  if b then m else mret tt.

(** Addresses of C objects; NULL is [None]. *)
Abbreviation loc := positive.
Abbreviation ptr := (option positive).

Definition ptr_eqb (p q : ptr) : bool := bool_decide (p = q).
Definition is_null (p : ptr) : bool := bool_decide (p = None).

Lemma ptr_eqb_refl p : ptr_eqb p p = true.
Proof. by apply bool_decide_eq_true. Qed.
Lemma ptr_eqb_ne p q : p <> q -> ptr_eqb p q = false.
Proof. by apply bool_decide_eq_false. Qed.

(** [flags & mask] as a truth value. *)
Definition has (flags mask : Z) : bool := negb (Z.land flags mask =? 0)%Z.

(** ** Running monadic code *)
Lemma bind_Ok {S A B} (m : M S A) (k : A -> M S B) s a s' :
  m s = Ok (a, s') -> (m ≫= k) s = k a s'.
Proof. intros H. unfold mbind, M_bind. by rewrite H. Qed.

Lemma bind_Ok_inv {S A B} (m : M S A) (k : A -> M S B) s b s2 :
  (m ≫= k) s = Ok (b, s2) ->
  exists a s1, m s = Ok (a, s1) /\ k a s1 = Ok (b, s2).
Proof.
  unfold mbind, M_bind. destruct (m s) as [[a s1]| | |] eqn:E; naive_solver.
Qed.

Lemma bind_head {S A B} (m m' : M S A) (k : A -> M S B) s : m s = m' s -> (m ≫= k) s = (m' ≫= k) s.
Proof. intros H. unfold mbind, M_bind. by rewrite H. Qed.
Lemma deref_Some {S A} (a : A) (s : S) : deref (Some a) s = Ok (a, s).
Proof. done. Qed.

Lemma bind_assoc {S A B C} (m : M S A) (k : A -> M S B) (k' : B -> M S C) s :
  ((m ≫= k) ≫= k') s = (m ≫= (fun a => k a ≫= k')) s.
Proof. unfold mbind, M_bind. by destruct (m s) as [[]| | |]. Qed.

Lemma bind_ext {S A B} (m : M S A) (k k' : A -> M S B) s :
  (forall a s', k a s' = k' a s') -> (m ≫= k) s = (m ≫= k') s.
Proof. intros E. unfold mbind, M_bind. by destruct (m s) as [[]| | |]. Qed.

(** [monad_eq]: two blocks that differ in how their statements are grouped. *)
Ltac monad_eq :=
  repeat first [ reflexivity
    | match goal with |- context [((?m ≫= ?k) ≫= ?k') ?s] => rewrite (bind_assoc m k k' s) end
    | apply bind_ext; intros ? ?
    | match goal with |- context [if ?b then _ else _] => destruct b end ].

Create Rewrite HintDb mexec.
#[global] Hint Rewrite @deref_Some ptr_eqb_refl : mexec.

(** [mrun H] runs the first statement of a block with the equation [H]. *)
Ltac mrun H := first [ erewrite (bind_Ok _ _ _ _ _ H) | rewrite H ].
Ltac msimpl := unfold mbind, M_bind, mret, M_ret, get, gets, put, modify,
  when, deref, undef, out_of_fuel, iv_fatal in *; cbn in *.

(** [dec_simpl] resolves every [decide] of the goal whose answer is known. *)
Ltac dec_simpl :=
  repeat match goal with
  | |- context [if @decide ?P ?D then ?x else ?y] =>
      first [ rewrite (@decide_True _ P D x y) by (done || congruence)
            | rewrite (@decide_False _ P D x y) by (done || congruence) ]
  end.

(** ** Refinement

    [refines R c a]: the concrete outcome [c] implements the abstract outcome
    [a]; an abstract [Undef] is a breach of the client's contract, about which
    nothing is promised. *)
Definition refines {S T A} (R : S -> T -> Prop) (c : res (A * S)) (a : res (A * T)) : Prop :=
  match a with
  | Ok (x, t) => exists s, c = Ok (x, s) /\ R s t
  | Fatal m => c = Fatal m
  | Undef => True
  | OutOfFuel => c = OutOfFuel
  end.

Lemma refines_bind {S T A B} (R R' : S -> T -> Prop) (m : M S A) (m' : M T A)
    (k : A -> M S B) (k' : A -> M T B) s t :
  refines R (m s) (m' t) ->
  (forall x s' t', m' t = Ok (x, t') -> R s' t' -> refines R' (k x s') (k' x t')) ->
  refines R' ((m ≫= k) s) ((m' ≫= k') t).
Proof.
  unfold refines, mbind, M_bind. destruct (m' t) as [[x t']| | |].
  - intros (s'&->&HR) Hk. by apply Hk.
  - intros -> _. done.
  - done.
  - intros -> _. done.
Qed.

Lemma refines_ret {S T A} (R : S -> T -> Prop) (x : A) s t :
  R s t -> refines R ((mret x : M S A) s) ((mret x : M T A) t).
Proof. intros. by exists s. Qed.

(** ** Weakest preconditions

    [wp F m s Q]: run from [s], [m] ends in a state and result satisfying [Q],
    or aborts with a message allowed by [F]; it neither runs into undefined
    behaviour nor out of fuel. *)
Definition wp {S A} (F : string -> Prop) (m : M S A) (s : S) (Q : A -> S -> Prop) : Prop :=
  match m s with
  | Ok (a, s') => Q a s'
  | Fatal e => F e
  | Undef | OutOfFuel => False
  end.

(** Calls may abort; they never run into undefined behaviour. *)
Definition any (e : string) : Prop := True.

Lemma wp_bind {S A B} F (m : M S A) (k : A -> M S B) s Q :
  wp F (m ≫= k) s Q <-> wp F m s (fun a s' => wp F (k a) s' Q).
Proof. unfold wp, mbind, M_bind. by destruct (m s) as [[]| | |]. Qed.
Lemma wp_mono {S A} F (m : M S A) s (Q Q' : A -> S -> Prop) :
  wp F m s Q -> (forall a s', Q a s' -> Q' a s') -> wp F m s Q'.
Proof. unfold wp. destruct (m s) as [[]| | |]; naive_solver. Qed.
Lemma requires_spec {S} F b (s : S) Q : F "outside of the interface"%string -> (b = true -> Q tt s) -> wp F (requires b) s Q.
Proof. destruct b; intros HF H; [by apply H|exact HF]. Qed.
Lemma wp_Ok {S A} F (m : M S A) s a s' (Q : A -> S -> Prop) : m s = Ok (a, s') -> Q a s' -> wp F m s Q.
Proof. unfold wp. by intros ->. Qed.
Lemma wp_inv {S A} F (m : M S A) s Q : wp F m s Q ->
  (exists e, m s = Fatal e /\ F e) \/ (exists a s', m s = Ok (a, s') /\ Q a s').
Proof. unfold wp. destruct (m s) as [[]| | |]; naive_solver. Qed.
Lemma wp_result {S A} F (m : M S A) s (Q : A -> S -> Prop) a s' : wp F m s Q -> m s = Ok (a, s') -> Q a s'.
Proof. unfold wp. intros H E. by rewrite E in H. Qed.
Lemma wp_results {S A} F (m : M S A) s (Q Q' : A -> S -> Prop) :
  wp F m s Q -> (forall a s', m s = Ok (a, s') -> Q' a s') -> wp F m s Q'.
Proof. unfold wp. destruct (m s) as [[]| | |]; naive_solver. Qed.
Lemma wp_conj {S A} F (m : M S A) s (Q Q' : A -> S -> Prop) :
  wp F m s Q -> wp F m s Q' -> wp F m s (fun a s' => Q a s' /\ Q' a s').
Proof. unfold wp. destruct (m s) as [[]| | |]; naive_solver. Qed.

Lemma wp_assoc {S A B C} F (m : M S A) (k : A -> M S B) (k' : B -> M S C) s Q :
  wp F ((m ≫= k) ≫= k') s Q <-> wp F (m ≫= (fun a => k a ≫= k')) s Q.
Proof. unfold wp. by rewrite bind_assoc. Qed.
(** [wgroup]: read the first two statements of a block as one. *)
Ltac wgroup :=
  lazymatch goal with
  | |- wp ?F (mbind (fun a => mbind ?k' (@?k a)) ?m) ?s ?Q => apply (proj1 (wp_assoc F m k k' s Q))
  end.

(** [wbind]: expose the first statement of a block. *)
Ltac wbind :=
  lazymatch goal with |- wp ?F (?m ≫= ?k) ?s ?Q => apply (proj2 (wp_bind F m k s Q)) end.
(** [wuse H]: run the first statement by its specification [H]. *)
Ltac wuse H := try wbind; eapply wp_mono; [eapply H | cbv beta; intros].
(** [wrun H]: run the first statement by the equation [H]. *)
Ltac wrun H := try wbind; eapply wp_Ok; [eapply H | cbv beta].
(** [wprim]: run a first statement that is a primitive of the monad. *)
Ltac wprim := try wbind; eapply wp_Ok; [reflexivity | cbv beta].

(** ** Lists *)
Definition remove (t : loc) (l : list loc) : list loc := filter (fun x => x <> t) l.

Lemma list_filter_all {A} (l : list A) (P : A -> Prop) `{!forall x, Decision (P x)} :
  (forall x, x ∈ l -> P x) -> filter P l = l.
Proof.
  induction l as [|b l IH]; intros Hl; [done|].
  rewrite filter_cons_True by (apply Hl; set_solver). rewrite IH; [done|]. intros ??. apply Hl. set_solver.
Qed.
Lemma remove_split (l1 : list loc) a l2 : NoDup (l1 ++ a :: l2) -> remove a (l1 ++ a :: l2) = l1 ++ l2.
Proof.
  intros Hnd. unfold remove. rewrite filter_app, filter_cons_False by auto.
  apply NoDup_app in Hnd as (_&H1&[H2 _]%NoDup_cons).
  rewrite !list_filter_all; [done|intros x Hx ->..]; [done|]. eapply H1; [done|set_solver].
Qed.
Lemma remove_notin a l : a ∉ l -> remove a l = l.
Proof. intros Ha. apply list_filter_all. by intros x Hx ->. Qed.
Lemma elem_of_remove a x l : x ∈ remove a l <-> x <> a /\ x ∈ l.
Proof. unfold remove. by rewrite list_elem_of_filter. Qed.
Lemma length_remove a l : length (remove a l) <= length l.
Proof. apply length_filter. Qed.
Lemma NoDup_remove a l : NoDup l -> NoDup (remove a l).
Proof. apply NoDup_filter. Qed.

Lemma remove_sublist t l : sublist (remove t l) l.
Proof.
  unfold remove. induction l as [|x l IH]; [constructor|]. rewrite filter_cons.
  case_decide; [by apply sublist_skip|by apply sublist_cons].
Qed.

(** ** Fixed-width integers of C *)
Definition u8 (z : Z) : Z := z `mod` 256.
Definition u32 (z : Z) : Z := z `mod` 2 ^ 32.
(** Reading a 32-bit pattern as a signed [int32_t]. *)
Definition s32 (z : Z) : Z :=
  let u := u32 z in if decide (u < 2 ^ 31)%Z then u else (u - 2 ^ 32)%Z.

Lemma u8_small z : (0 <= z < 256)%Z -> u8 z = z.
Proof. apply Z.mod_small. Qed.
Lemma u32_small z : (0 <= z < 2 ^ 32)%Z -> u32 z = z.
Proof. apply Z.mod_small. Qed.
Lemma u32_range z : (0 <= u32 z < 2 ^ 32)%Z.
Proof. by apply Z.mod_pos_bound. Qed.

(** [1] and [0] as C truth values. *)
Definition b2z (b : bool) : Z := if b then 1%Z else 0%Z.
