(* ===== verification/IvList.v ===== *)
(** * The intrusive circular lists of src/src/include/iv_list.h

    [struct iv_list_head] cells live in a heap [lheap]; each inline function
    of the header is a definition over that heap.  [lrep h head l] says that
    [head] is the head of a well-formed circular list whose members are, in
    order, [l]; the lemmas give every operation's effect on [lrep], and on
    everything else (frames). *)

From S2P Require Import Prelude.

(** ** Cells and the heap *)

(** [struct iv_list_head] *)
Record iv_list_head := mk_head { next : ptr; prev : ptr }.

Abbreviation lheap := (gmap loc iv_list_head).

Definition get_next (a : loc) : M lheap ptr :=
  h ← get; c ← deref (h !! a); mret (next c).
Definition get_prev (a : loc) : M lheap ptr :=
  h ← get; c ← deref (h !! a); mret (prev c).
Definition set_next (a : loc) (v : ptr) : M lheap unit :=
  h ← get; c ← deref (h !! a); put (<[a := mk_head v (prev c)]> h).
Definition set_prev (a : loc) (v : ptr) : M lheap unit :=
  h ← get; c ← deref (h !! a); put (<[a := mk_head (next c) v]> h).

(** ** The operations of the header *)

Definition INIT_IV_LIST_HEAD (ilh : loc) : M lheap unit :=
  set_next ilh (Some ilh);;
  set_prev ilh (Some ilh).

Definition iv_list_add (ilh head : loc) : M lheap unit :=
  n ← get_next head;
  set_next ilh n;;
  set_prev ilh (Some head);;
  n ← get_next head; n ← deref n; set_prev n (Some ilh);;
  set_next head (Some ilh).

Definition iv_list_add_tail (ilh head : loc) : M lheap unit :=
  set_next ilh (Some head);;
  p ← get_prev head; set_prev ilh p;;
  p ← get_prev head; p ← deref p; set_next p (Some ilh);;
  set_prev head (Some ilh).

Definition iv_list_del (ilh : loc) : M lheap unit :=
  n ← get_next ilh; p ← get_prev ilh; p ← deref p; set_next p n;;
  p ← get_prev ilh; n ← get_next ilh; n ← deref n; set_prev n p;;
  set_prev ilh None;;
  set_next ilh None.

Definition iv_list_del_init (ilh : loc) : M lheap unit :=
  n ← get_next ilh; p ← get_prev ilh; p ← deref p; set_next p n;;
  p ← get_prev ilh; n ← get_next ilh; n ← deref n; set_prev n p;;
  INIT_IV_LIST_HEAD ilh.

Definition iv_list_empty (head : loc) : M lheap bool :=
  n ← get_next head; mret (ptr_eqb n (Some head)).

Definition __iv_list_splice (ilh : loc) (prv nxt : loc) : M lheap unit :=
  first ← get_next ilh;
  last ← get_prev ilh;
  first ← deref first;
  last ← deref last;
  set_prev first (Some prv);;
  set_next prv (Some first);;
  set_next last (Some nxt);;
  set_prev nxt (Some last).

Definition iv_list_splice (ilh head : loc) : M lheap unit :=
  e ← iv_list_empty ilh;
  when (negb e) (n ← get_next head; n ← deref n; __iv_list_splice ilh head n).

Definition iv_list_splice_init (ilh head : loc) : M lheap unit :=
  e ← iv_list_empty ilh;
  when (negb e) (
    (n ← get_next head; n ← deref n; __iv_list_splice ilh head n);;
    INIT_IV_LIST_HEAD ilh).

Definition iv_list_splice_tail (ilh head : loc) : M lheap unit :=
  e ← iv_list_empty ilh;
  when (negb e) (p ← get_prev head; p ← deref p; __iv_list_splice ilh p head).

Definition iv_list_splice_tail_init (ilh head : loc) : M lheap unit :=
  e ← iv_list_empty ilh;
  when (negb e) (
    (p ← get_prev head; p ← deref p; __iv_list_splice ilh p head);;
    INIT_IV_LIST_HEAD ilh).

(** [__iv_list_steal_elements] of src/src/iv_private.h *)
Definition __iv_list_steal_elements (oldh newh : loc) : M lheap unit :=
  first ← get_next oldh;
  last ← get_prev oldh;
  first ← deref first;
  last ← deref last;
  set_next last (Some newh);;
  set_prev first (Some newh);;
  n ← get_next oldh; set_next newh n;;
  p ← get_prev oldh; set_prev newh p;;
  set_next oldh (Some oldh);;
  set_prev oldh (Some oldh).

(** [iv_list_for_each]: the members met when following [next] from [head]. *)
Fixpoint iv_list_walk (fuel : nat) (ilh head : loc) : M lheap (list loc) :=
  match fuel with
  | O => out_of_fuel
  | S fuel =>
      if decide (ilh = head) then mret []
      else n ← get_next ilh; n ← deref n;
           rest ← iv_list_walk fuel n head; mret (ilh :: rest)
  end.
Definition iv_list_for_each (fuel : nat) (head : loc) : M lheap (list loc) :=
  n ← get_next head; n ← deref n; iv_list_walk fuel n head.

(** ** Well-formed circular lists *)

Definition next_of (h : lheap) (a : loc) : ptr := h !! a ≫= next.
Definition prev_of (h : lheap) (a : loc) : ptr := h !! a ≫= prev.

(** Consecutive members of [xs] point at each other. *)
Fixpoint links (h : lheap) (xs : list loc) : Prop :=
  match xs with
  | a :: (b :: _) as ys => next_of h a = Some b /\ prev_of h b = Some a /\ links h ys
  | _ => True
  end.

Definition lrep (h : lheap) (head : loc) (l : list loc) : Prop :=
  NoDup (head :: l) /\ links h (head :: l ++ [head]).

(** ** Heap updates seen through [next_of] and [prev_of] *)

Definition hsn (a : loc) (v : ptr) (h : lheap) : lheap :=
  <[a := mk_head v (prev_of h a)]> h.
Definition hsp (a : loc) (v : ptr) (h : lheap) : lheap :=
  <[a := mk_head (next_of h a) v]> h.

Definition alloc (h : lheap) (a : loc) : Prop := is_Some (h !! a).

Section heap_lemmas.
Context (h : lheap).
Implicit Types (a b : loc) (v : ptr).

Lemma next_hsn a b v :
  next_of (hsn a v h) b = if decide (a = b) then v else next_of h b.
Proof. unfold next_of, hsn. rewrite lookup_insert. by case_decide. Qed.
Lemma next_hsp a b v : next_of (hsp a v h) b = next_of h b.
Proof. unfold next_of, hsp. rewrite lookup_insert. case_decide; by subst. Qed.
Lemma prev_hsn a b v : prev_of (hsn a v h) b = prev_of h b.
Proof. unfold prev_of, hsn. rewrite lookup_insert. case_decide; by subst. Qed.
Lemma prev_hsp a b v :
  prev_of (hsp a v h) b = if decide (a = b) then v else prev_of h b.
Proof. unfold prev_of, hsp. rewrite lookup_insert. by case_decide. Qed.

Lemma lookup_hsn a b v : a <> b -> hsn a v h !! b = h !! b.
Proof. apply lookup_insert_ne. Qed.
Lemma lookup_hsp a b v : a <> b -> hsp a v h !! b = h !! b.
Proof. apply lookup_insert_ne. Qed.

Lemma alloc_hsn a b v : alloc h b -> alloc (hsn a v h) b.
Proof. unfold alloc, hsn. intros. apply lookup_insert_is_Some'. by right. Qed.
Lemma alloc_hsp a b v : alloc h b -> alloc (hsp a v h) b.
Proof. unfold alloc, hsp. intros. apply lookup_insert_is_Some'. by right. Qed.
Lemma alloc_next a b : next_of h a = Some b -> alloc h a.
Proof. unfold next_of, alloc. by destruct (h !! a); eauto. Qed.
Lemma alloc_prev a b : prev_of h a = Some b -> alloc h a.
Proof. unfold prev_of, alloc. by destruct (h !! a); eauto. Qed.

(** Running the four accessors. *)
Lemma get_next_Ok a : alloc h a -> get_next a h = Ok (next_of h a, h).
Proof. unfold alloc, get_next, next_of. intros [c E]. msimpl. by rewrite E. Qed.
Lemma get_prev_Ok a : alloc h a -> get_prev a h = Ok (prev_of h a, h).
Proof. unfold alloc, get_prev, prev_of. intros [c E]. msimpl. by rewrite E. Qed.
Lemma set_next_Ok a v : alloc h a -> set_next a v h = Ok (tt, hsn a v h).
Proof.
  unfold alloc, set_next, hsn, prev_of. intros [c E]. msimpl. by rewrite E.
Qed.
Lemma set_prev_Ok a v : alloc h a -> set_prev a v h = Ok (tt, hsp a v h).
Proof.
  unfold alloc, set_prev, hsp, next_of. intros [c E]. msimpl. by rewrite E.
Qed.
End heap_lemmas.

Create Rewrite HintDb hview.
#[global] Hint Rewrite next_hsn next_hsp prev_hsn prev_hsp : hview.
Create HintDb halloc.
#[global] Hint Resolve alloc_hsn alloc_hsp alloc_next alloc_prev : halloc.

(** [hview] normalises every [next_of]/[prev_of] of an updated heap. *)
Ltac hview := repeat (progress (autorewrite with hview; dec_simpl)).

Ltac hdec := hview; split_and?; repeat case_decide; subst; first [done | congruence].

(** [lstep] runs the next primitive list statement. *)
Ltac lstep :=
  first
    [ erewrite bind_Ok by (apply get_next_Ok; eauto 12 with halloc)
    | erewrite bind_Ok by (apply get_prev_Ok; eauto 12 with halloc)
    | erewrite bind_Ok by (apply set_next_Ok; eauto 12 with halloc)
    | erewrite bind_Ok by (apply set_prev_Ok; eauto 12 with halloc)
    | erewrite set_next_Ok by eauto 12 with halloc
    | erewrite set_prev_Ok by eauto 12 with halloc
    | erewrite bind_Ok by (apply deref_Some) ];
  hview.

(** ** Segments *)

Lemma links_app h xs a ys :
  links h (xs ++ a :: ys) <-> links h (xs ++ [a]) /\ links h (a :: ys).
Proof.
  induction xs as [|x xs IH]; cbn [app].
  - split; [intros H; split; [done|exact H] | by intros [_ H]].
  - destruct xs as [|y xs]; cbn in *; [tauto|]. rewrite IH. tauto.
Qed.

Lemma links_two h a b :
  links h [a; b] <-> next_of h a = Some b /\ prev_of h b = Some a.
Proof. cbn. tauto. Qed.

(** A segment survives any update that keeps the [next] of all but its last
    member and the [prev] of all but its first. *)
Lemma links_frame h h' x xs y :
  links h (x :: xs ++ [y]) ->
  (forall a, a ∈ x :: xs -> next_of h' a = next_of h a) ->
  (forall a, a ∈ xs ++ [y] -> prev_of h' a = prev_of h a) ->
  links h' (x :: xs ++ [y]).
Proof.
  revert x. induction xs as [|z xs IH]; intros x Hl Hn Hp.
  - cbn in *. rewrite Hn, Hp by set_solver. tauto.
  - change (links h (x :: z :: xs ++ [y])) in Hl. cbn [links] in Hl.
    destruct Hl as (?&?&Hl).
    change (links h' (x :: z :: xs ++ [y])). cbn [links].
    rewrite Hn, Hp by set_solver. split_and!; [done..|].
    apply IH; [done|set_solver..].
Qed.

Lemma lrep_frame h h' head l :
  lrep h head l -> (forall a, a ∈ head :: l -> h' !! a = h !! a) -> lrep h' head l.
Proof.
  intros [Hnd Hl] Hf. split; [done|].
  eapply links_frame; [done|..]; intros a Ha; unfold next_of, prev_of;
    rewrite Hf; [done|set_solver|done|set_solver].
Qed.

Lemma lrep_NoDup h head l : lrep h head l -> NoDup (head :: l).
Proof. by intros []. Qed.

(** First and last member, as [head->next] and [head->prev] see them. *)
Definition hd_or (l : list loc) (d : loc) : loc := match l with x :: _ => x | [] => d end.
Fixpoint last_or (l : list loc) (d : loc) : loc :=
  match l with [] => d | x :: l => last_or l x end.

Lemma last_or_snoc l x d : last_or (l ++ [x]) d = x.
Proof. revert d. induction l; intros; cbn; auto. Qed.
Lemma last_or_elem l d : last_or l d ∈ d :: l.
Proof. revert d. induction l as [|x l IH]; intros d; cbn; [set_solver|]. specialize (IH x). set_solver. Qed.
Lemma hd_or_elem l d : hd_or l d ∈ d :: l.
Proof. destruct l; set_solver. Qed.
(** Membership goals about the ends of a list. *)
Ltac gen_ends :=
  repeat match goal with
  | _ : context [last_or ?l ?d] |- _ =>
      pose proof (last_or_elem l d);
      let z := fresh "z" in set (z := last_or l d) in *; clearbody z
  | |- context [last_or ?l ?d] =>
      pose proof (last_or_elem l d);
      let z := fresh "z" in set (z := last_or l d) in *; clearbody z
  | _ : context [hd_or ?l ?d] |- _ =>
      pose proof (hd_or_elem l d);
      let z := fresh "z" in set (z := hd_or l d) in *; clearbody z
  | |- context [hd_or ?l ?d] =>
      pose proof (hd_or_elem l d);
      let z := fresh "z" in set (z := hd_or l d) in *; clearbody z
  end.
Ltac ends_solver := gen_ends; set_solver.

Lemma snoc_last d l : exists xs, d :: l = xs ++ [last_or l d] /\
  (l <> [] -> exists ys, xs = d :: ys).
Proof.
  revert d. induction l as [|x l IH]; intros d; [by exists [] |].
  destruct (IH x) as (xs&E&_). exists (d :: xs). cbn. rewrite E. eauto.
Qed.

Lemma lrep_next h head l : lrep h head l -> next_of h head = Some (hd_or l head).
Proof. intros [_ H]. destruct l; cbn in *; tauto. Qed.
Lemma lrep_prev h head l : lrep h head l -> prev_of h head = Some (last_or l head).
Proof.
  intros [_ H]. destruct l as [|x l] using rev_ind; [cbn in *; tauto|].
  rewrite last_or_snoc. rewrite <-app_assoc in H. cbn [app] in H.
  change (head :: l ++ [x; head]) with ((head :: l) ++ x :: [head]) in H.
  rewrite links_app in H. destruct H as [_ H]. cbn in H. tauto.
Qed.

Lemma lrep_alloc h head l a : lrep h head l -> a ∈ head :: l -> alloc h a.
Proof.
  intros [_ H] Ha. apply list_elem_of_split in Ha as (l1&l2&E).
  change (head :: l ++ [head]) with ((head :: l) ++ [head]) in H. rewrite E in H.
  destruct l2 as [|b l2]; rewrite <-app_assoc in H; cbn [app] in H;
    rewrite links_app in H; destruct H as [_ H]; cbn in H;
    eapply alloc_next; apply H.
Qed.
#[global] Hint Resolve lrep_alloc : halloc.

(** ** Effect of each operation on well-formed lists *)

(** Everything outside the cells [A] is untouched. *)
Definition same_outside (A : list loc) (h h' : lheap) : Prop :=
  (forall y, y ∉ A -> h' !! y = h !! y) /\ (forall y, alloc h y -> alloc h' y).

Lemma same_outside_frame A h h' head l :
  same_outside A h h' -> (forall a, a ∈ head :: l -> a ∉ A) ->
  lrep h head l -> lrep h' head l.
Proof. intros [H _] Hd Hr. eapply lrep_frame; eauto. Qed.

Ltac frame_outside :=
  split; [ intros ? ?;
           repeat first [rewrite lookup_hsn by ends_solver | rewrite lookup_hsp by ends_solver];
           done
         | eauto 10 with halloc ].

(** A circle is cut between [l1] and [l2] into two segments and the pair that
    joins them. *)
Lemma links_cut h head l1 l2 :
  links h (head :: l1 ++ l2 ++ [head]) <->
  links h (head :: l1) /\
  (next_of h (last_or l1 head) = Some (hd_or l2 head) /\
   prev_of h (hd_or l2 head) = Some (last_or l1 head)) /\
  links h (l2 ++ [head]).
Proof.
  destruct (snoc_last head l1) as (xs&E&_).
  change (head :: l1 ++ l2 ++ [head]) with ((head :: l1) ++ l2 ++ [head]).
  rewrite E at 1. rewrite E at 1. rewrite <-app_assoc. cbn [app]. rewrite links_app.
  destruct l2 as [|b l2]; cbn [hd_or app]; [cbn; tauto|].
  set (p := last_or l1 head).
  change (p :: b :: l2 ++ [head]) with ([p] ++ b :: l2 ++ [head]).
  rewrite (links_app h [p]). cbn [app]. rewrite links_two. tauto.
Qed.

Lemma links_left_frame h h' head l1 :
  links h (head :: l1) -> NoDup (head :: l1) ->
  (forall a, a ∈ head :: l1 -> a <> last_or l1 head -> next_of h' a = next_of h a) ->
  (forall a, a ∈ l1 -> prev_of h' a = prev_of h a) ->
  links h' (head :: l1).
Proof.
  destruct l1 as [|y l1 _] using rev_ind; [done|]. rewrite last_or_snoc.
  intros Hl Hnd Hn Hp. eapply links_frame; [done| |done].
  intros a Ha. apply Hn; [set_solver|]. intros ->.
  change (head :: l1 ++ [y]) with ((head :: l1) ++ [y]) in Hnd.
  apply NoDup_app in Hnd as (_&Hnd&_). eapply Hnd; [done|set_solver].
Qed.

Lemma links_right_frame h h' head l2 :
  links h (l2 ++ [head]) -> NoDup (head :: l2) ->
  (forall a, a ∈ l2 -> next_of h' a = next_of h a) ->
  (forall a, a ∈ head :: l2 -> a <> hd_or l2 head -> prev_of h' a = prev_of h a) ->
  links h' (l2 ++ [head]).
Proof.
  destruct l2 as [|y l2]; [done|]. cbn [hd_or].
  intros Hl Hnd Hn Hp. eapply links_frame; [done|done|].
  intros a Ha. apply NoDup_cons in Hnd as [? Hnd]. apply NoDup_cons in Hnd as [? Hnd].
  apply Hp; [set_solver|]. intros ->. set_solver.
Qed.

(** Relinking a circle [head :: l1 ++ l2] so that the segment [m] lies
    between [l1] and [l2]: covers insertion, deletion ([m = []]) and splicing. *)
Lemma links_relink h h' head l1 m l2 :
  links h (head :: l1) -> links h (l2 ++ [head]) -> NoDup (head :: l1 ++ l2) ->
  (forall a, a ∈ head :: l1 ++ l2 -> a <> last_or l1 head -> next_of h' a = next_of h a) ->
  (forall a, a ∈ head :: l1 ++ l2 -> a <> hd_or l2 head -> prev_of h' a = prev_of h a) ->
  links h' (last_or l1 head :: m ++ [hd_or l2 head]) ->
  links h' (head :: l1 ++ m ++ l2 ++ [head]).
Proof.
  intros Hl1 Hl2 Hnd Hn Hp Hm.
  assert (NoDup (head :: l1) /\ NoDup (head :: l2) /\ (head ∉ l2) /\
          (forall a, a ∈ l1 -> a ∉ head :: l2)) as (Hnd1&Hnd2&Hh&Hd).
  { rewrite NoDup_cons, NoDup_app in *. rewrite !NoDup_cons.
    destruct Hnd as (?&?&?&?). set_solver. }
  assert (links h' (head :: l1)) as Hl1'.
  { eapply links_left_frame; [done..| |]; intros a Ha.
    - intros ?. apply Hn; set_solver.
    - apply Hp; [set_solver|]. intros ->. eapply Hd; [done|apply hd_or_elem]. }
  assert (links h' (l2 ++ [head])) as Hl2'.
  { eapply links_right_frame; [done..| |]; intros a Ha.
    - apply Hn; [set_solver|]. intros ->. ends_solver.
    - intros ?. apply Hp; set_solver. }
  destruct (snoc_last head l1) as (xs&E&_).
  change (head :: l1 ++ m ++ l2 ++ [head]) with ((head :: l1) ++ m ++ l2 ++ [head]).
  rewrite E in Hl1' |- *. rewrite <-app_assoc. cbn [app].
  rewrite links_app. split; [done|].
  destruct l2 as [|b l2]; [done|]. cbn [hd_or app] in *.
  change (links h' ((last_or l1 head :: m) ++ b :: l2 ++ [head])).
  rewrite links_app. done.
Qed.

(** The cut of a well-formed circle. *)
Lemma lrep_cut h head l1 l2 :
  lrep h head (l1 ++ l2) ->
  links h (head :: l1) /\ links h (l2 ++ [head]) /\ NoDup (head :: l1 ++ l2) /\
  next_of h (last_or l1 head) = Some (hd_or l2 head) /\
  prev_of h (hd_or l2 head) = Some (last_or l1 head).
Proof. intros [Hnd Hl]. rewrite <-app_assoc, links_cut in Hl. tauto. Qed.

(** [head], the last of [l1] and the first of [l2] are cells of the circle. *)
Lemma last_or_in_circle head (l1 l2 : list loc) : last_or l1 head ∈ head :: l1 ++ l2.
Proof. ends_solver. Qed.
Lemma hd_or_in_circle head (l1 l2 : list loc) : hd_or l2 head ∈ head :: l1 ++ l2.
Proof. ends_solver. Qed.

(** Linking [x] between the neighbours [last_or l1] and [hd_or l2]. *)
Lemma lrep_insert h h' head l1 x l2 :
  lrep h head (l1 ++ l2) -> x ∉ head :: l1 ++ l2 ->
  (forall a, next_of h' a = if decide (a = last_or l1 head) then Some x
             else if decide (a = x) then Some (hd_or l2 head) else next_of h a) ->
  (forall a, prev_of h' a = if decide (a = hd_or l2 head) then Some x
             else if decide (a = x) then Some (last_or l1 head) else prev_of h a) ->
  lrep h' head (l1 ++ x :: l2).
Proof.
  intros Hr Hx Hn Hp. pose proof (last_or_in_circle head l1 l2).
  pose proof (hd_or_in_circle head l1 l2).
  apply lrep_cut in Hr as (Hl1&Hl2&Hnd&_). split.
  - rewrite NoDup_cons, NoDup_app, NoDup_cons in *. destruct Hnd as (?&?&?&?). set_solver.
  - rewrite <-app_assoc. apply (links_relink h h' head l1 [x] l2); [done..| | |].
    + intros a Ha Hne. rewrite Hn, !decide_False; [done|set_solver|done].
    + intros a Ha Hne. rewrite Hp, !decide_False; [done|set_solver|done].
    + assert (x <> last_or l1 head) by congruence.
      assert (x <> hd_or l2 head) by congruence.
      cbn. rewrite !Hn, !Hp. split_and!; repeat case_decide; (done || congruence).
Qed.

Lemma lrep_remove h h' head l1 x l2 :
  lrep h head (l1 ++ x :: l2) ->
  (forall a, a ∈ head :: l1 ++ l2 -> next_of h' a =
      if decide (a = last_or l1 head) then Some (hd_or l2 head) else next_of h a) ->
  (forall a, a ∈ head :: l1 ++ l2 -> prev_of h' a =
      if decide (a = hd_or l2 head) then Some (last_or l1 head) else prev_of h a) ->
  lrep h' head (l1 ++ l2).
Proof.
  intros [Hnd Hl] Hn Hp. pose proof (last_or_in_circle head l1 l2).
  pose proof (hd_or_in_circle head l1 l2).
  assert (NoDup (head :: l1 ++ l2)) as Hnd'.
  { rewrite NoDup_cons, NoDup_app, NoDup_cons in *. destruct Hnd as (?&?&?&?&?). set_solver. }
  split; [done|]. rewrite <-app_assoc in Hl. rewrite links_cut in Hl.
  destruct Hl as (Hl1&_&Hl2).
  assert (links h (l2 ++ [head])) as Hl2' by (destruct l2; [done|apply Hl2]).
  rewrite <-app_assoc. apply (links_relink h h' head l1 [] l2); [done..| | |].
  - intros a Ha Hne. by rewrite Hn, decide_False.
  - intros a Ha Hne. by rewrite Hp, decide_False.
  - cbn. by rewrite Hn, Hp, !decide_True.
Qed.

Section operations.
Context (h : lheap).
Implicit Types (x head : loc) (l : list loc).

Lemma INIT_IV_LIST_HEAD_spec x : alloc h x ->
  exists h', INIT_IV_LIST_HEAD x h = Ok (tt, h') /\ lrep h' x [] /\ same_outside [x] h h'.
Proof.
  intros Hx. unfold INIT_IV_LIST_HEAD. do 2 lstep. eexists; split; [done|].
  split; [split; [apply NoDup_singleton|cbn [links app]; hdec]|frame_outside].
Qed.

Lemma iv_list_empty_spec head l : lrep h head l ->
  iv_list_empty head h = Ok (bool_decide (l = []), h).
Proof.
  intros Hr. pose proof (lrep_next _ _ _ Hr) as Hn. unfold iv_list_empty.
  lstep. rewrite Hn. unfold mret, M_ret, ptr_eqb. do 2 f_equal.
  apply bool_decide_ext. split; [|by intros ->].
  destruct l; [done|]. intros [= ->]. apply lrep_NoDup, NoDup_cons in Hr as [? _]. set_solver.
Qed.

Lemma iv_list_add_tail_spec x head l :
  lrep h head l -> alloc h x -> x ∉ head :: l ->
  exists h', iv_list_add_tail x head h = Ok (tt, h') /\ lrep h' head (l ++ [x]) /\
             same_outside (x :: head :: l) h h'.
Proof.
  intros Hr Hx Hin. pose proof (lrep_prev _ _ _ Hr) as Hp.
  pose proof (last_or_elem l head) as Hlast.
  assert (alloc h head) by eauto with halloc.
  assert (alloc h (last_or l head)) by eauto with halloc.
  assert (x <> last_or l head) by set_solver. assert (x <> head) by set_solver.
  unfold iv_list_add_tail. do 3 lstep. rewrite Hp. lstep. rewrite Hp. do 3 lstep.
  eexists; split; [done|]. split; [|frame_outside].
  rewrite <-(app_nil_r l) in Hr, Hin.
  eapply lrep_insert; [done|done|..]; intros a; hview; cbn [hd_or].
  - hdec.
  - hdec.
Qed.

Lemma iv_list_add_spec x head l :
  lrep h head l -> alloc h x -> x ∉ head :: l ->
  exists h', iv_list_add x head h = Ok (tt, h') /\ lrep h' head (x :: l) /\
             same_outside (x :: head :: l) h h'.
Proof.
  intros Hr Hx Hin. pose proof (lrep_next _ _ _ Hr) as Hn.
  pose proof (hd_or_elem l head) as Hhd.
  assert (alloc h head) by eauto with halloc.
  assert (alloc h (hd_or l head)) by eauto with halloc.
  assert (x <> hd_or l head) by set_solver. assert (x <> head) by set_solver.
  unfold iv_list_add. do 4 lstep. rewrite Hn. do 3 lstep.
  eexists; split; [done|]. split; [|frame_outside].
  eapply (lrep_insert h _ head []); [done|done|..]; intros a; cbn [last_or]; hdec.
Qed.

(** What both deletions do before they reset the deleted cell. *)
Lemma unlink_facts x head l1 l2 :
  lrep h head (l1 ++ x :: l2) ->
  next_of h x = Some (hd_or l2 head) /\ prev_of h x = Some (last_or l1 head) /\
  alloc h x /\ alloc h (last_or l1 head) /\ alloc h (hd_or l2 head) /\
  x <> last_or l1 head /\ x <> hd_or l2 head /\ x ∉ head :: l1 ++ l2.
Proof.
  intros Hr. pose proof (lrep_cut _ _ _ _ Hr) as (_&Hl2&Hnd&_&Hp). cbn in Hp.
  assert (next_of h x = Some (hd_or l2 head)) as Hn.
  { destruct l2; cbn in *; tauto. }
  assert (x ∉ head :: l1 ++ l2) as Hx.
  { rewrite NoDup_cons, NoDup_app, NoDup_cons in Hnd. destruct Hnd as (?&?&?&?&?). set_solver. }
  pose proof (last_or_in_circle head l1 l2). pose proof (hd_or_in_circle head l1 l2).
  split_and!; try done; try congruence; eapply lrep_alloc; try done; set_solver.
Qed.

Lemma iv_list_del_spec x head l1 l2 :
  lrep h head (l1 ++ x :: l2) ->
  exists h', iv_list_del x h = Ok (tt, h') /\ lrep h' head (l1 ++ l2) /\
             h' !! x = Some (mk_head None None) /\
             same_outside (head :: l1 ++ x :: l2) h h'.
Proof.
  intros Hr. pose proof (unlink_facts _ _ _ _ Hr) as (Hn&Hp&?&?&?&?&?&Hx).
  unfold iv_list_del. do 2 lstep. rewrite Hn, Hp. do 4 lstep. rewrite Hn, Hp. do 4 lstep.
  eexists; split; [done|]. split_and!.
  - eapply lrep_remove; [done|..]; intros a Ha; assert (a <> x) by congruence; hdec.
  - unfold hsn at 1. rewrite lookup_insert_eq. do 2 f_equal. hdec.
  - frame_outside.
Qed.

Lemma iv_list_del_init_spec x head l1 l2 :
  lrep h head (l1 ++ x :: l2) ->
  exists h', iv_list_del_init x h = Ok (tt, h') /\ lrep h' head (l1 ++ l2) /\
             lrep h' x [] /\ same_outside (head :: l1 ++ x :: l2) h h'.
Proof.
  intros Hr. pose proof (unlink_facts _ _ _ _ Hr) as (Hn&Hp&?&?&?&?&?&Hx).
  unfold iv_list_del_init, INIT_IV_LIST_HEAD.
  do 2 lstep. rewrite Hn, Hp. do 4 lstep. rewrite Hn, Hp. do 4 lstep.
  eexists; split; [done|]. split_and!.
  - eapply lrep_remove; [done|..]; intros a Ha; assert (a <> x) by congruence; hdec.
  - split; [apply NoDup_singleton|]. cbn [links app]. hdec.
  - frame_outside.
Qed.

(** Deleting a cell that is on no list is harmless when it is re-initialised. *)
Lemma iv_list_del_init_single x :
  lrep h x [] ->
  exists h', iv_list_del_init x h = Ok (tt, h') /\ lrep h' x [] /\ same_outside [x] h h'.
Proof.
  intros Hr. pose proof (lrep_next _ _ _ Hr) as Hn. pose proof (lrep_prev _ _ _ Hr) as Hp.
  cbn in Hn, Hp. assert (alloc h x) by eauto with halloc.
  unfold iv_list_del_init, INIT_IV_LIST_HEAD.
  do 2 lstep. rewrite Hn, Hp. do 4 lstep. rewrite Hp. do 4 lstep.
  eexists; split; [done|]. split; [|frame_outside].
  split; [apply NoDup_singleton|]. cbn [links app]. hdec.
Qed.
End operations.

(** ** Moving whole lists *)

Lemma links_cons_cons h a b ys :
  links h (a :: b :: ys) <-> (next_of h a = Some b /\ prev_of h b = Some a) /\ links h (b :: ys).
Proof. cbn. tauto. Qed.

(** A segment between two outer cells. *)
Lemma links_between h p b l n :
  links h (p :: (b :: l) ++ [n]) <->
  (next_of h p = Some b /\ prev_of h b = Some p) /\ links h (b :: l) /\
  (next_of h (last_or l b) = Some n /\ prev_of h n = Some (last_or l b)).
Proof.
  cbn [app]. rewrite links_cons_cons.
  destruct (snoc_last b l) as (xs&E&_).
  change (b :: l ++ [n]) with ((b :: l) ++ [n]). rewrite E at 1. rewrite E.
  rewrite <-app_assoc. cbn [app]. rewrite links_app, links_two. tauto.
Qed.

(** A segment keeps its inner links under updates at its two ends. *)
Lemma links_inner_frame h h' b l :
  links h (b :: l) -> NoDup (b :: l) ->
  (forall a, a ∈ b :: l -> a <> last_or l b -> next_of h' a = next_of h a) ->
  (forall a, a ∈ b :: l -> a <> b -> prev_of h' a = prev_of h a) ->
  links h' (b :: l).
Proof.
  intros Hl Hnd Hn Hp. eapply links_left_frame; [done..|].
  intros a Ha. apply Hp; [set_solver|]. apply NoDup_cons in Hnd. set_solver.
Qed.

Lemma steal_spec h oldh newh l :
  lrep h oldh l -> alloc h newh -> newh ∉ oldh :: l ->
  exists h', __iv_list_steal_elements oldh newh h = Ok (tt, h') /\
             lrep h' newh l /\ lrep h' oldh [] /\ same_outside (newh :: oldh :: l) h h'.
Proof.
  intros Hr Hnew Hin. pose proof (lrep_next _ _ _ Hr) as Hn. pose proof (lrep_prev _ _ _ Hr) as Hp.
  assert (alloc h oldh) by eauto with halloc.
  assert (alloc h (hd_or l oldh)). { eapply lrep_alloc; [done|apply hd_or_elem]. }
  assert (alloc h (last_or l oldh)). { eapply lrep_alloc; [done|apply last_or_elem]. }
  assert (oldh <> newh) by set_solver.
  assert (newh <> hd_or l oldh) by ends_solver. assert (newh <> last_or l oldh) by ends_solver.
  unfold __iv_list_steal_elements. do 2 lstep. rewrite Hn, Hp. do 4 lstep.
  destruct l as [|b l]; cbn [hd_or last_or] in *.
  { do 6 lstep. eexists; split; [done|].
    split_and!; [split; [apply NoDup_singleton|cbn [links app]; hdec]..|frame_outside]. }
  pose proof (lrep_NoDup _ _ _ Hr) as Hnd. apply NoDup_cons in Hnd as [Hold Hnd].
  assert (oldh <> b) by set_solver.
  assert (oldh <> last_or l b) by ends_solver.
  lstep. rewrite Hn. do 2 lstep. rewrite Hp. do 3 lstep.
  destruct Hr as [_ Hl]. rewrite (links_between h oldh b l oldh) in Hl. destruct Hl as (_&Hl&_).
  eexists; split; [done|]. split_and!; [| |frame_outside].
  - split; [apply NoDup_cons; set_solver|].
    apply links_between. split_and!; try hdec.
    eapply links_inner_frame; [done..| |]; intros a Ha ?;
      assert (a <> newh) by set_solver; assert (a <> oldh) by set_solver; hdec.
  - split; [apply NoDup_singleton|]. cbn [links app]. hdec.
Qed.

Lemma splice_spec h ilh m head l1 l2 :
  lrep h ilh m -> m <> [] -> lrep h head (l1 ++ l2) ->
  (forall a, a ∈ ilh :: m -> a ∉ head :: l1 ++ l2) ->
  exists h', __iv_list_splice ilh (last_or l1 head) (hd_or l2 head) h = Ok (tt, h') /\
             lrep h' head (l1 ++ m ++ l2) /\ h' !! ilh = h !! ilh /\
             same_outside (ilh :: m ++ head :: l1 ++ l2) h h'.
Proof.
  intros Hm Hne Hr Hd. destruct m as [|b m]; [done|].
  pose proof (lrep_next _ _ _ Hm) as Hn. pose proof (lrep_prev _ _ _ Hm) as Hp.
  cbn [hd_or last_or] in *.
  pose proof (last_or_in_circle head l1 l2) as Hl1. pose proof (hd_or_in_circle head l1 l2) as Hl2.
  assert (alloc h ilh /\ alloc h b /\ alloc h (last_or m b)) as (?&?&?).
  { pose proof (last_or_elem m b) as Hlm.
    split_and!; (eapply lrep_alloc; [exact Hm|]); set_solver +Hlm. }
  assert (alloc h (last_or l1 head)) by (eapply lrep_alloc; done).
  assert (alloc h (hd_or l2 head)) by (eapply lrep_alloc; done).
  set (p := last_or l1 head) in *. set (n := hd_or l2 head) in *.
  pose proof (lrep_NoDup _ _ _ Hm) as Hndm. apply NoDup_cons in Hndm as [Him Hndm].
  assert (p ∉ ilh :: b :: m) as Hpm by (intros ?; eapply Hd; eauto).
  assert (n ∉ ilh :: b :: m) as Hnm by (intros ?; eapply Hd; eauto).
  assert (last_or m b ∈ b :: m) as Hlast by apply last_or_elem.
  assert (ilh <> last_or m b) by congruence.
  assert (p <> b /\ p <> ilh /\ n <> b /\ n <> ilh /\ ilh <> b) as (?&?&?&?&?) by set_solver.
  assert (p <> last_or m b) by (intros E; apply Hpm; rewrite E; apply elem_of_cons; by right).
  assert (n <> last_or m b) by (intros E; apply Hnm; rewrite E; apply elem_of_cons; by right).
  assert (forall a, a ∈ head :: l1 ++ l2 -> a <> last_or m b /\ a <> b) as Hsep.
  { intros a Ha. split; intros ->; eapply Hd; try exact Ha; set_solver +Hlast. }
  unfold __iv_list_splice. do 2 lstep. rewrite Hn, Hp. do 6 lstep.
  eexists; split; [done|]. split_and!.
  - pose proof (lrep_cut _ _ _ _ Hr) as (Hs1&Hs2&Hnd&_).
    split.
    + rewrite NoDup_cons, NoDup_app in Hnd. destruct Hnd as (Hhd&?&Hnd12&?).
      rewrite NoDup_cons, !NoDup_app. split_and!; try done.
      * set_solver +Hhd Hd.
      * set_solver +Hnd12 Hd.
      * set_solver +Hd.
    + rewrite <-!app_assoc. eapply (links_relink h); [done..| | |].
      * intros a Ha ?. destruct (Hsep a Ha). hdec.
      * intros a Ha ?. destruct (Hsep a Ha). hdec.
      * apply links_between. split_and!; try hdec.
        destruct Hm as [_ Hm]. rewrite (links_between h ilh b m ilh) in Hm.
        destruct Hm as (_&Hm&_).
        eapply links_inner_frame; [done..| |]; intros a Ha ?.
        -- assert (a <> p) by (intros ->; set_solver +Ha Hpm). hdec.
        -- assert (a <> n) by (intros ->; set_solver +Ha Hnm). hdec.
  - repeat first [rewrite lookup_hsn by congruence | rewrite lookup_hsp by congruence]. done.
  - split; [|eauto 10 with halloc]. intros y Hy.
    assert (y <> last_or m b) by (intros ->; set_solver +Hy Hlast).
    assert (y <> p) by (intros ->; set_solver +Hy Hl1).
    assert (y <> n) by (intros ->; set_solver +Hy Hl2).
    assert (y <> b) by (intros ->; set_solver +Hy).
    repeat first [rewrite lookup_hsn by congruence | rewrite lookup_hsp by congruence]. done.
Qed.

(** [iv_list_for_each] visits exactly the members, in order. *)
Lemma iv_list_for_each_spec h head l fuel :
  lrep h head l -> length l < fuel -> iv_list_for_each fuel head h = Ok (l, h).
Proof.
  intros Hr Hf. unfold iv_list_for_each. pose proof (lrep_next _ _ _ Hr) as Hn.
  assert (alloc h head) by eauto with halloc. lstep. rewrite Hn. lstep.
  assert (forall l1 l2 fuel, l = l1 ++ l2 -> length l2 < fuel ->
    iv_list_walk fuel (hd_or l2 head) head h = Ok (l2, h)) as Hw; [|by apply (Hw [])].
  clear fuel Hf Hn. intros l1 l2 fuel. revert l1 fuel.
  induction l2 as [|x l2 IH]; intros l1 [|fuel] E Hf; cbn [length] in Hf; try lia.
  { cbn. by rewrite decide_True. }
  subst l. pose proof (unlink_facts _ _ _ _ _ Hr) as (Hn&_&?&_&_&_&_&Hx).
  cbn [iv_list_walk hd_or]. rewrite decide_False by set_solver.
  lstep. rewrite Hn. lstep. rewrite (bind_Ok _ _ _ l2 h); [done|].
  apply (IH (l1 ++ [x])); [by rewrite <-app_assoc|lia].
Qed.

(** ** Worlds: several lists over one heap

    [W] maps every initialised head to its members (an initialised cell that
    is on no list is the head of an empty one); [R] is the set of raw cells:
    allocated, possibly holding stale pointers, and on no list. *)

Definition own (W : gmap loc (list loc)) (a hd : loc) : Prop :=
  exists l, W !! hd = Some l /\ a ∈ hd :: l.

Record world (h : lheap) (W : gmap loc (list loc)) (R : gset loc) : Prop := {
  w_rep : forall hd l, W !! hd = Some l -> lrep h hd l;
  w_own : forall a h1 h2, own W a h1 -> own W a h2 -> h1 = h2;
  w_raw : forall x, x ∈ R -> alloc h x;
  w_raw_own : forall x hd, x ∈ R -> ~ own W x hd }.

(** One step that touches only [A]. *)
Lemma world_step h h' W W' R R' A :
  world h W R -> same_outside A h h' ->
  (forall hd l, W' !! hd = Some l ->
     lrep h' hd l \/ (W !! hd = Some l /\ forall a, a ∈ hd :: l -> a ∉ A)) ->
  (forall a h1 h2, own W' a h1 -> own W' a h2 -> h1 = h2) ->
  (forall x, x ∈ R' -> alloc h x /\ forall hd, ~ own W' x hd) ->
  world h' W' R'.
Proof.
  intros Hw Ho Hr Hd Hraw. split.
  - intros hd l Hl. destruct (Hr hd l Hl) as [?|[Hl' Ha]]; [done|].
    eapply same_outside_frame; [done..|]. by eapply w_rep.
  - done.
  - intros x Hx. destruct (Hraw x Hx). by apply Ho.
  - intros x hd Hx. by apply Hraw.
Qed.

Section worlds.
Context (h : lheap) (W : gmap loc (list loc)) (R : gset loc).
Context (Hw : world h W R).
Implicit Types (x head : loc) (l : list loc).

(** A circle other than [head]'s shares no cell with it. *)
Lemma world_disjoint head l hd l' a :
  W !! head = Some l -> W !! hd = Some l' -> hd <> head ->
  a ∈ hd :: l' -> a ∉ head :: l.
Proof. intros H1 H2 Hne Ha Ha'. apply Hne. eapply (w_own _ _ _ Hw a); by eexists. Qed.

Lemma world_raw_disjoint x head l : x ∈ R -> W !! head = Some l -> x ∉ head :: l.
Proof. intros Hx Hl Ha. eapply (w_raw_own _ _ _ Hw x head Hx). by eexists. Qed.

Lemma own_insert_inv a hd head l :
  own (<[head := l]> W) a hd -> (hd = head /\ a ∈ head :: l) \/ (hd <> head /\ own W a hd).
Proof.
  intros (l'&Hl&Ha). rewrite lookup_insert in Hl. case_decide; subst.
  - left. by simplify_eq.
  - right. split; [done|by eexists].
Qed.

(** The list of [head] becomes [l'], made of its old members and raw cells. *)
Lemma world_put h' head l l' R' A :
  W !! head = Some l -> same_outside A h h' ->
  (forall a, a ∈ A -> a ∈ head :: l \/ a ∈ R) ->
  lrep h' head l' -> (forall a, a ∈ l' -> a ∈ l \/ a ∈ R) ->
  (forall x, x ∈ R' -> (x ∈ R \/ x ∈ l) /\ (x ∉ l')) ->
  world h' (<[head := l']> W) R'.
Proof.
  intros Hl Ho HA Hr Hl' HR.
  assert (forall a hd, hd <> head -> own W a hd -> (a ∉ head :: l) /\ (a ∉ R)) as Hout.
  { intros a hd Hne (m&Hm&Ha). split.
    - by eapply world_disjoint.
    - intros Ha'. by eapply (world_raw_disjoint a hd m). }
  assert (forall a, a ∈ head :: l' -> a ∈ head :: l \/ a ∈ R) as Hsub.
  { intros a Ha. specialize (Hl' a). set_solver +Ha Hl'. }
  eapply world_step; [exact Hw|exact Ho|..].
  - intros hd m Hm. rewrite lookup_insert in Hm. case_decide as E.
    + left. by simplify_eq.
    + right. split; [done|]. intros a Ha HaA.
      destruct (Hout a hd); [congruence|by exists m|]. destruct (HA a HaA); done.
  - intros a h1 h2 H1 H2. apply own_insert_inv in H1, H2.
    destruct H1 as [[-> H1]|[Hn1 H1]], H2 as [[-> H2]|[Hn2 H2]]; try done.
    + exfalso. destruct (Hout a h2); [done..|]. destruct (Hsub a H1); done.
    + exfalso. destruct (Hout a h1); [done..|]. destruct (Hsub a H2); done.
    + by eapply (w_own _ _ _ Hw).
  - intros x Hx. destruct (HR x Hx) as [Hx1 Hx2].
    pose proof (w_rep _ _ _ Hw _ _ Hl) as Hrl. split.
    + destruct Hx1; [by eapply w_raw|]. eapply lrep_alloc; [exact Hrl|set_solver].
    + intros hd Ho'. apply own_insert_inv in Ho' as [[-> Ha]|[Hne Ha]].
      * apply elem_of_cons in Ha as [->|Ha]; [|done]. destruct Hx1 as [Hx1|Hx1].
        -- eapply (world_raw_disjoint head head l); [done..|by left].
        -- apply lrep_NoDup, NoDup_cons in Hrl. tauto.
      * destruct (Hout x hd); [done..|]. set_solver.
Qed.

Lemma world_raw_subset R' : (forall x, x ∈ R' -> x ∈ R) -> world h W R'.
Proof.
  intros Hs. split; [apply Hw|apply Hw|intros; eapply w_raw; eauto|].
  intros x hd Hx. eapply (w_raw_own _ _ _ Hw). auto.
Qed.

(** Raw cells that form a circle become a list of the world. *)
Lemma world_promote x l R' :
  x ∈ R -> (forall a, a ∈ l -> a ∈ R) -> lrep h x l ->
  (forall a, a ∈ R' -> a ∈ R /\ a ∉ x :: l) ->
  world h (<[x := l]> W) R'.
Proof.
  intros Hx Hl Hr HR.
  assert (forall a hd, own W a hd -> a ∉ x :: l) as Hout.
  { intros a hd Ho Ha. eapply (w_raw_own _ _ _ Hw); [|done].
    apply elem_of_cons in Ha as [->|Ha]; auto. }
  eapply (world_step h h W _ R _ []); [exact Hw|by split|..].
  - intros hd m Hm. rewrite lookup_insert in Hm. case_decide; simplify_eq; [by left|].
    right. split; [done|]. set_solver.
  - intros a h1 h2 H1 H2. apply own_insert_inv in H1, H2.
    destruct H1 as [[-> H1]|[Hn1 H1]], H2 as [[-> H2]|[Hn2 H2]]; try done.
    + by destruct (Hout a h2).
    + by destruct (Hout a h1).
    + by eapply (w_own _ _ _ Hw).
  - intros a Ha. destruct (HR a Ha) as [Ha1 Ha2]. split; [by eapply w_raw|].
    intros hd Ho. apply own_insert_inv in Ho as [[-> ?]|[? ?]]; [done|].
    by eapply (w_raw_own _ _ _ Hw).
Qed.

(** A list of the world may be given up: its cells become raw. *)
Lemma world_forget x l :
  W !! x = Some l -> world h (delete x W) ({[x]} ∪ list_to_set l ∪ R).
Proof.
  intros Hx.
  assert (forall a hd, own (delete x W) a hd -> hd <> x /\ own W a hd) as Hinv.
  { intros a hd (l'&Hl&Ha). apply lookup_delete_Some in Hl as [??]. split; [done|by exists l']. }
  eapply (world_step h h W _ R _ []); [exact Hw|by split|..].
  - intros hd l' Hl. apply lookup_delete_Some in Hl as [??]. right. set_solver.
  - intros a h1 h2 H1 H2. apply Hinv in H1, H2.
    eapply (w_own _ _ _ Hw a); [apply H1|apply H2].
  - intros a Ha. assert (a ∈ x :: l \/ a ∈ R) as [Ha'|Ha'] by set_solver +Ha.
    + split; [eapply lrep_alloc; [by eapply w_rep|done]|].
      intros hd Ho. apply Hinv in Ho as [Hne Ho]. apply Hne.
      eapply (w_own _ _ _ Hw a); [done|by exists l].
    + split; [by eapply w_raw|]. intros hd Ho. apply Hinv in Ho as [_ Ho].
      by eapply (w_raw_own _ _ _ Hw).
Qed.
End worlds.

(** ** Each operation, in a world *)
Section world_operations.
Context (h : lheap) (W : gmap loc (list loc)) (R : gset loc).
Context (Hw : world h W R).
Implicit Types (x head : loc) (l : list loc).

Lemma world_init x : x ∈ R ->
  exists h', INIT_IV_LIST_HEAD x h = Ok (tt, h') /\ world h' (<[x := []]> W) (R ∖ {[x]}).
Proof.
  intros Hx. destruct (INIT_IV_LIST_HEAD_spec h x) as (h'&He&Hr&Ho); [by eapply w_raw|].
  exists h'. split; [done|]. assert (world h' W R) as Hw'.
  { eapply world_step; [exact Hw|exact Ho|..].
    - intros hd l Hl. right. split; [done|]. intros a Ha Ha'.
      apply list_elem_of_singleton in Ha' as ->. by eapply world_raw_disjoint.
    - apply (w_own _ _ _ Hw).
    - intros y Hy. split; [by eapply w_raw|]. intros hd. by eapply w_raw_own. }
  eapply world_promote; [exact Hw'|done|set_solver|done|set_solver].
Qed.

Lemma world_empty head l : W !! head = Some l ->
  iv_list_empty head h = Ok (bool_decide (l = []), h).
Proof. intros Hl. apply iv_list_empty_spec. by eapply w_rep. Qed.

(** A cell that is on a list is not "empty". *)
Lemma world_member_not_empty head l x : W !! head = Some l -> x ∈ l ->
  iv_list_empty x h = Ok (false, h).
Proof.
  intros Hl Hx. apply list_elem_of_split in Hx as (l1&l2&->).
  pose proof (w_rep _ _ _ Hw _ _ Hl) as Hr.
  pose proof (unlink_facts _ _ _ _ _ Hr) as (Hn&_&?&_&_&_&?&_).
  unfold iv_list_empty. lstep. rewrite Hn. unfold mret, M_ret.
  rewrite ptr_eqb_ne; [done|congruence].
Qed.

(** Side condition of the two additions. *)
Lemma raw_minus_add x head l l' : W !! head = Some l -> (forall y, y ∈ l' -> y ∈ x :: l) ->
  forall y, y ∈ R ∖ {[x]} -> (y ∈ R \/ y ∈ l) /\ (y ∉ l').
Proof.
  intros Hl Hl' y Hy. assert (y ∉ head :: l) as Hn.
  { eapply world_raw_disjoint; [exact Hw|set_solver +Hy|done]. }
  split; [set_solver +Hy|]. intros Hy'. apply Hl' in Hy'. set_solver +Hy Hy' Hn.
Qed.

Lemma world_add_tail x head l : W !! head = Some l -> x ∈ R ->
  exists h', iv_list_add_tail x head h = Ok (tt, h') /\
             world h' (<[head := l ++ [x]]> W) (R ∖ {[x]}).
Proof.
  intros Hl Hx. destruct (iv_list_add_tail_spec h x head l) as (h'&He&Hr&Ho);
    [by eapply w_rep|by eapply w_raw|by eapply world_raw_disjoint|].
  exists h'. split; [done|].
  eapply world_put; [exact Hw|exact Hl|exact Ho| |done| |]; [set_solver..|].
  apply raw_minus_add with (head := head); [done|set_solver].
Qed.

Lemma world_add x head l : W !! head = Some l -> x ∈ R ->
  exists h', iv_list_add x head h = Ok (tt, h') /\
             world h' (<[head := x :: l]> W) (R ∖ {[x]}).
Proof.
  intros Hl Hx. destruct (iv_list_add_spec h x head l) as (h'&He&Hr&Ho);
    [by eapply w_rep|by eapply w_raw|by eapply world_raw_disjoint|].
  exists h'. split; [done|].
  eapply world_put; [exact Hw|exact Hl|exact Ho| |done| |]; [set_solver..|].
  apply raw_minus_add with (head := head); [done|set_solver].
Qed.

Lemma member_removed x head l1 l2 : W !! head = Some (l1 ++ x :: l2) -> (x ∉ l1 ++ l2) /\ (x ∉ R).
Proof.
  intros Hl. split.
  - pose proof (unlink_facts _ _ _ _ _ (w_rep _ _ _ Hw _ _ Hl)) as (_&_&_&_&_&_&_&Hx).
    set_solver +Hx.
  - intros Hx. eapply (world_raw_disjoint _ _ _ Hw x); [done..|]. set_solver.
Qed.

Lemma world_del x head l1 l2 : W !! head = Some (l1 ++ x :: l2) ->
  exists h', iv_list_del x h = Ok (tt, h') /\ h' !! x = Some (mk_head None None) /\
             world h' (<[head := l1 ++ l2]> W) ({[x]} ∪ R).
Proof.
  intros Hl. destruct (member_removed _ _ _ _ Hl) as [Hx HxR].
  destruct (iv_list_del_spec h x head l1 l2) as (h'&He&Hr&Hc&Ho); [by eapply w_rep|].
  exists h'. split_and!; [done..|].
  eapply world_put; [exact Hw|exact Hl|exact Ho| |done| |]; [set_solver..|].
  intros y Hy. apply elem_of_union in Hy as [Hy|Hy]; [set_solver|]. split; [by left|].
  intros Hy'. eapply (world_raw_disjoint _ _ _ Hw y); [done..|]. set_solver.
Qed.

Lemma world_del_init x head l1 l2 : W !! head = Some (l1 ++ x :: l2) ->
  exists h', iv_list_del_init x h = Ok (tt, h') /\
             world h' (<[x := []]> (<[head := l1 ++ l2]> W)) R.
Proof.
  intros Hl. destruct (member_removed _ _ _ _ Hl) as [Hx HxR].
  destruct (iv_list_del_init_spec h x head l1 l2) as (h'&He&Hr&Hc&Ho); [by eapply w_rep|].
  exists h'. split; [done|].
  assert (world h' (<[head := l1 ++ l2]> W) ({[x]} ∪ R)) as Hw'.
  { eapply world_put; [exact Hw|exact Hl|exact Ho| |done| |]; [set_solver..|].
    intros y Hy. apply elem_of_union in Hy as [Hy|Hy]; [set_solver|]. split; [by left|].
    intros Hy'. eapply (world_raw_disjoint _ _ _ Hw y); [done..|]. set_solver. }
  eapply world_promote; [exact Hw'|set_solver..| |set_solver]. done.
Qed.

Lemma world_del_init_single x : W !! x = Some [] ->
  exists h', iv_list_del_init x h = Ok (tt, h') /\ world h' W R.
Proof.
  intros Hl. destruct (iv_list_del_init_single h x) as (h'&He&Hr&Ho); [by eapply w_rep|].
  exists h'. split; [done|]. rewrite <-(insert_id W x []) by done.
  eapply world_put; [exact Hw|exact Hl|exact Ho| |done| |]; set_solver.
Qed.

Lemma world_steal oldh newh l : W !! oldh = Some l -> newh ∈ R ->
  exists h', __iv_list_steal_elements oldh newh h = Ok (tt, h') /\
             world h' (<[newh := l]> (<[oldh := []]> W)) (R ∖ {[newh]}).
Proof.
  intros Hl Hx. pose proof (world_raw_disjoint _ _ _ Hw _ _ _ Hx Hl) as Hdj.
  destruct (steal_spec h oldh newh l) as (h'&He&Hr&Hr0&Ho);
    [by eapply w_rep|by eapply w_raw|done|].
  exists h'. split; [done|].
  assert (world h' (<[oldh := []]> W) (list_to_set l ∪ R)) as Hw'.
  { eapply world_put; [exact Hw|exact Hl|exact Ho| |done| |]; set_solver. }
  eapply world_promote; [exact Hw'|set_solver..|done|].
  intros a Ha. split; [set_solver|]. assert (a ∉ oldh :: l); [|set_solver].
  apply elem_of_difference in Ha as [Ha _].
  by eapply (world_raw_disjoint _ _ _ Hw).
Qed.
End world_operations.

(** ** List programs refine operations on sequences *)

(** The calls a client makes on its list heads. *)
Inductive lcmd :=
  | CInit (x : loc)
  | CAdd (x head : loc)
  | CAddTail (x head : loc)
  | CDel (x : loc)
  | CDelInit (x : loc)
  | CSteal (oldh newh : loc)
  | CSplice (ilh head : loc)
  | CSpliceInit (ilh head : loc)
  | CSpliceTail (ilh head : loc)
  | CSpliceTailInit (ilh head : loc).

Definition lcmd_run (c : lcmd) : M lheap unit :=
  match c with
  | CInit x => INIT_IV_LIST_HEAD x
  | CAdd x head => iv_list_add x head
  | CAddTail x head => iv_list_add_tail x head
  | CDel x => iv_list_del x
  | CDelInit x => iv_list_del_init x
  | CSteal o n => __iv_list_steal_elements o n
  | CSplice i head => iv_list_splice i head
  | CSpliceInit i head => iv_list_splice_init i head
  | CSpliceTail i head => iv_list_splice_tail i head
  | CSpliceTailInit i head => iv_list_splice_tail_init i head
  end.

Fixpoint lprog_run (cs : list lcmd) : M lheap unit :=
  match cs with [] => mret tt | c :: cs => lcmd_run c;; lprog_run cs end.

(** What is left of a head whose elements were spliced away without initialising it: if it
    had elements it still points to them, and may only be initialised again. *)
Definition spliced_from (i : loc) (m : list loc) (s : gmap loc (list loc) * gset loc) : gmap loc (list loc) * gset loc :=
  match m with [] => s | _ => (delete i s.1, {[i]} ∪ s.2) end.

(** What each call means on sequences; raw cells are those a client may link. *)
Inductive lspec : gmap loc (list loc) * gset loc -> lcmd -> gmap loc (list loc) * gset loc -> Prop :=
  | spec_init W R x : x ∈ R -> lspec (W, R) (CInit x) (<[x := []]> W, R ∖ {[x]})
  | spec_add W R x head l : W !! head = Some l -> x ∈ R ->
      lspec (W, R) (CAdd x head) (<[head := x :: l]> W, R ∖ {[x]})
  | spec_add_tail W R x head l : W !! head = Some l -> x ∈ R ->
      lspec (W, R) (CAddTail x head) (<[head := l ++ [x]]> W, R ∖ {[x]})
  | spec_del W R x head l1 l2 : W !! head = Some (l1 ++ x :: l2) ->
      lspec (W, R) (CDel x) (<[head := l1 ++ l2]> W, {[x]} ∪ R)
  | spec_del_init W R x head l1 l2 : W !! head = Some (l1 ++ x :: l2) ->
      lspec (W, R) (CDelInit x) (<[x := []]> (<[head := l1 ++ l2]> W), R)
  | spec_del_init_single W R x : W !! x = Some [] -> lspec (W, R) (CDelInit x) (W, R)
  | spec_steal W R o n l : W !! o = Some l -> n ∈ R ->
      lspec (W, R) (CSteal o n) (<[n := l]> (<[o := []]> W), R ∖ {[n]})
  | spec_splice W R i head m l : W !! i = Some m -> W !! head = Some l -> i <> head ->
      lspec (W, R) (CSplice i head) (spliced_from i m (<[head := m ++ l]> W, R))
  | spec_splice_tail W R i head m l : W !! i = Some m -> W !! head = Some l -> i <> head ->
      lspec (W, R) (CSpliceTail i head) (spliced_from i m (<[head := l ++ m]> W, R))
  | spec_splice_init W R i head m l : W !! i = Some m -> W !! head = Some l -> i <> head ->
      lspec (W, R) (CSpliceInit i head) (<[i := []]> (<[head := m ++ l]> W), R)
  | spec_splice_tail_init W R i head m l : W !! i = Some m -> W !! head = Some l -> i <> head ->
      lspec (W, R) (CSpliceTailInit i head) (<[i := []]> (<[head := l ++ m]> W), R).

Inductive lspecs : gmap loc (list loc) * gset loc -> list lcmd -> gmap loc (list loc) * gset loc -> Prop :=
  | specs_nil s : lspecs s [] s
  | specs_cons s1 c s2 cs s3 : lspec s1 c s2 -> lspecs s2 cs s3 -> lspecs s1 (c :: cs) s3.

Lemma world_splice h W R ilh m head l1 l2 :
  world h W R -> W !! ilh = Some m -> m <> [] -> W !! head = Some (l1 ++ l2) -> ilh <> head ->
  exists h', __iv_list_splice ilh (last_or l1 head) (hd_or l2 head) h = Ok (tt, h') /\
             world h' (<[head := l1 ++ m ++ l2]> (delete ilh W)) ({[ilh]} ∪ R).
Proof.
  intros Hw Hm E Hl Hne.
  pose proof (w_rep _ _ _ Hw _ _ Hm) as Hrm. pose proof (w_rep _ _ _ Hw _ _ Hl) as Hrl.
  assert (forall a, a ∈ ilh :: m -> a ∉ head :: l1 ++ l2) as Hd.
  { intros a. by eapply world_disjoint. }
  destruct (splice_spec h ilh m head l1 l2) as (h1&He&Hr&_&Ho); [done..|]. exists h1. split; [done|].
  pose proof (world_forget _ _ _ Hw _ _ Hm) as Hw0.
  assert (world h1 (<[head := l1 ++ m ++ l2]> (delete ilh W)) ({[ilh]} ∪ R)) as Hw1.
  { eapply world_put; [exact Hw0|by rewrite lookup_delete_ne|exact Ho|set_solver|done|set_solver|].
    intros x Hx. split; [set_solver +Hx|]. intros Hx'.
    assert (x ∈ head :: l1 ++ l2 \/ x ∈ m) as Hin by set_solver +Hx'.
    assert (x = ilh \/ x ∈ R) as [->|HxR] by set_solver +Hx.
    - destruct Hin as [Hin|Hin]; [eapply Hd; [by left|done]|].
      apply lrep_NoDup, NoDup_cons in Hrm. tauto.
    - destruct Hin as [Hin|Hin].
      + eapply (world_raw_disjoint _ _ _ Hw x head (l1 ++ l2)); done.
      + eapply (world_raw_disjoint _ _ _ Hw x ilh m); [done..|by right]. }
  exact Hw1.
Qed.
(** The head that was spliced away is initialised. *)
Lemma world_splice_init h W R ilh m head l :
  world h (<[head := l]> (delete ilh W)) ({[ilh]} ∪ R) -> ilh <> head -> ilh ∉ R ->
  exists h', INIT_IV_LIST_HEAD ilh h = Ok (tt, h') /\ world h' (<[ilh := []]> (<[head := l]> (<[ilh := m]> W))) R.
Proof.
  intros Hw Hne Hi. destruct (world_init _ _ _ Hw ilh) as (h2&He2&Hw2); [set_solver|].
  exists h2. split; [done|].
  rewrite insert_insert_ne, insert_delete_eq in Hw2 by done.
  rewrite (insert_insert_ne _ head ilh) by done. rewrite insert_insert_eq. rewrite insert_insert_ne by done.
  eapply world_raw_subset; [exact Hw2|]. intros x Hx. assert (x <> ilh); [congruence|set_solver].
Qed.

(** The four calls. *)
Section splices.
Context (h : lheap) (W : gmap loc (list loc)) (R : gset loc) (ilh head : loc) (m l : list loc).
Context (Hw : world h W R) (Hm : W !! ilh = Some m) (Hl : W !! head = Some l) (Hne : ilh <> head).

Lemma spliced_away h1 l' : m <> [] -> world h1 (<[head := l']> (delete ilh W)) ({[ilh]} ∪ R) ->
  world h1 (spliced_from ilh m (<[head := l']> W, R)).1 (spliced_from ilh m (<[head := l']> W, R)).2.
Proof. intros E. destruct m; [done|]. cbn. by rewrite delete_insert_ne. Qed.
Lemma splice_raw : ilh ∉ R.
Proof. intros Hx. eapply (world_raw_disjoint _ _ _ Hw ilh ilh m); [done..|by left]. Qed.
Lemma world_at_front : m <> [] -> exists h1, (n ← get_next head; n ← deref n; __iv_list_splice ilh head n) h = Ok (tt, h1) /\
  world h1 (<[head := m ++ l]> (delete ilh W)) ({[ilh]} ∪ R).
Proof.
  intros E. pose proof (w_rep _ _ _ Hw _ _ Hl) as Hrl. pose proof (lrep_next _ _ _ Hrl) as Hn. assert (alloc h head) by eauto with halloc.
  destruct (world_splice h W R ilh m head [] l Hw Hm E Hl Hne) as (h1&He&Hw1). exists h1. split; [|done]. lstep. rewrite Hn. lstep. exact He.
Qed.
Lemma world_at_tail : m <> [] -> exists h1, (p ← get_prev head; p ← deref p; __iv_list_splice ilh p head) h = Ok (tt, h1) /\
  world h1 (<[head := l ++ m]> (delete ilh W)) ({[ilh]} ∪ R).
Proof.
  intros E. pose proof (w_rep _ _ _ Hw _ _ Hl) as Hrl. pose proof (lrep_prev _ _ _ Hrl) as Hp. assert (alloc h head) by eauto with halloc.
  destruct (world_splice h W R ilh m head l [] Hw Hm E) as (h1&He&Hw1); [by rewrite app_nil_r|done|]. rewrite app_nil_r in Hw1. exists h1. split; [|done]. lstep. rewrite Hp. lstep. exact He.
Qed.

Ltac splice_empty := pose proof (w_rep _ _ _ Hw _ _ Hm) as Hrm; mrun (iv_list_empty_spec h _ _ Hrm); case_bool_decide as E; cbn [negb when].
Lemma world_splice_head : exists h', iv_list_splice ilh head h = Ok (tt, h') /\
  world h' (spliced_from ilh m (<[head := m ++ l]> W, R)).1 (spliced_from ilh m (<[head := m ++ l]> W, R)).2.
Proof.
  unfold iv_list_splice. splice_empty.
  - exists h. split; [done|]. rewrite E. cbn. by rewrite (insert_id W head).
  - destruct (world_at_front E) as (h1&He&Hw1). exists h1. split; [exact He|]. by apply spliced_away.
Qed.
Lemma world_splice_tail : exists h', iv_list_splice_tail ilh head h = Ok (tt, h') /\
  world h' (spliced_from ilh m (<[head := l ++ m]> W, R)).1 (spliced_from ilh m (<[head := l ++ m]> W, R)).2.
Proof.
  unfold iv_list_splice_tail. splice_empty.
  - exists h. split; [done|]. rewrite E. cbn. rewrite app_nil_r. by rewrite (insert_id W head).
  - destruct (world_at_tail E) as (h1&He&Hw1). exists h1. split; [exact He|]. by apply spliced_away.
Qed.
Lemma world_splice_front_init : exists h', iv_list_splice_init ilh head h = Ok (tt, h') /\ world h' (<[ilh := []]> (<[head := m ++ l]> W)) R.
Proof.
  unfold iv_list_splice_init. splice_empty.
  - exists h. split; [done|]. rewrite E in *. cbn. rewrite (insert_id W head) by done. by rewrite (insert_id W ilh).
  - destruct (world_at_front E) as (h1&He&Hw1). destruct (world_splice_init h1 W R ilh m head (m ++ l) Hw1 Hne splice_raw) as (h2&He2&Hw2).
    rewrite (insert_id W ilh) in Hw2 by done. exists h2. split; [|done]. by rewrite (bind_Ok _ _ _ _ _ He).
Qed.
Lemma world_splice_tail_init : exists h', iv_list_splice_tail_init ilh head h = Ok (tt, h') /\ world h' (<[ilh := []]> (<[head := l ++ m]> W)) R.
Proof.
  unfold iv_list_splice_tail_init. splice_empty.
  - exists h. split; [done|]. rewrite E in *. rewrite app_nil_r. rewrite (insert_id W head) by done. by rewrite (insert_id W ilh).
  - destruct (world_at_tail E) as (h1&He&Hw1). destruct (world_splice_init h1 W R ilh m head (l ++ m) Hw1 Hne splice_raw) as (h2&He2&Hw2).
    rewrite (insert_id W ilh) in Hw2 by done. exists h2. split; [|done]. by rewrite (bind_Ok _ _ _ _ _ He).
Qed.
End splices.

Lemma lcmd_refines h s c s' :
  world h s.1 s.2 -> lspec s c s' ->
  exists h', lcmd_run c h = Ok (tt, h') /\ world h' s'.1 s'.2.
Proof.
  intros Hw Hs. destruct Hs; cbn in *.
  - by apply world_init.
  - by apply world_add.
  - by apply world_add_tail.
  - edestruct world_del as (h'&?&_&?); eauto.
  - by eapply world_del_init.
  - by apply world_del_init_single.
  - by apply world_steal.
  - by eapply world_splice_head.
  - by eapply world_splice_tail.
  - by eapply world_splice_front_init.
  - by eapply world_splice_tail_init.
Qed.

(** C29. Every program of list calls that is meaningful on sequences runs on the
    pointer structure without touching a dangling cell, and the pointer
    structure it leaves represents exactly the sequences of the abstract run. *)
Theorem iv_list_refines_sequences h W R cs W' R' :
  world h W R -> lspecs (W, R) cs (W', R') ->
  exists h', lprog_run cs h = Ok (tt, h') /\ world h' W' R' /\
    (forall head l, W' !! head = Some l -> iv_list_for_each (S (length l)) head h' = Ok (l, h')).
Proof.
  intros Hw Hs. remember (W, R) as s1 eqn:E1. remember (W', R') as s2 eqn:E2.
  revert h W R Hw E1. induction Hs as [s|s1 c s2' cs s3 Hc Hs IH]; intros h W R Hw E1; subst.
  - simplify_eq. exists h. split_and!; [done..|]. intros head l Hl.
    apply iv_list_for_each_spec; [by eapply w_rep|lia].
  - destruct (lcmd_refines h (W, R) c s2') as (h1&He&Hw1); [done..|].
    destruct s2' as [W1 R1]. destruct (IH eq_refl h1 W1 R1) as (h2&He2&?); [done..|].
    exists h2. cbn [lprog_run]. by mrun He.
Qed.

(** Four raw cells; list 1 receives 3, then 4 in front, is moved to 2, loses 3, and
    is spliced back to 1. *)
Definition demo_heap : lheap :=
  list_to_map ((fun a => (a, mk_head None None)) <$> [1; 2; 3; 4]%positive).
Definition demo_prog : list lcmd :=
  [CInit 1; CAddTail 3 1; CAdd 4 1; CSteal 1 2; CDelInit 3; CSplice 2 1]%positive.

Lemma demo_world : world demo_heap ∅ {[1; 2; 3; 4]}%positive.
Proof.
  split.
  - intros hd l Hl. by rewrite lookup_empty in Hl.
  - intros a h1 h2 (l&Hl&_). by rewrite lookup_empty in Hl.
  - intros x Hx. unfold alloc.
    assert (x = 1 \/ x = 2 \/ x = 3 \/ x = 4)%positive as Hc by set_solver.
      destruct Hc as [-> | [-> | [-> | ->]]]; by eexists.
  - intros x hd _ (l&Hl&_). by rewrite lookup_empty in Hl.
Qed.

Lemma iv_list_refines_sequences_witness :
  exists h', lprog_run demo_prog demo_heap = Ok (tt, h') /\
    iv_list_for_each 2 1%positive h' = Ok ([4%positive], h').
Proof.
  edestruct (iv_list_refines_sequences demo_heap ∅ {[1; 2; 3; 4]}%positive demo_prog)
    as (h'&Hrun&Hw&Hwalk); [apply demo_world| |].
  - unfold demo_prog. econstructor; [apply spec_init; set_solver|].
    econstructor; [eapply spec_add_tail; [apply lookup_insert_eq|set_solver]|].
    econstructor; [eapply spec_add; [apply lookup_insert_eq|set_solver]|].
    econstructor; [eapply spec_steal; [apply lookup_insert_eq|set_solver]|].
    econstructor; [eapply (spec_del_init _ _ 3 2 [4%positive] []); apply lookup_insert_eq|].
    econstructor; [|constructor].
    apply (spec_splice _ _ 2 1 [4%positive] []); [reflexivity|reflexivity|done].
  - exists h'. split; [exact Hrun|]. apply (Hwalk 1%positive [4%positive]).
    reflexivity.
Defined.
