(* ===== verification/ISeq.v ===== *)
(** * Intrusive lists with one head, as sequences

    Most parts of ivykis keep one list head and link objects on it through an
    [iv_list_head] inside the object (iv_list.h).  The model of such a list is the
    sequence of its members, plus the set of objects whose own cell is
    initialised but on no list ([idle]): [iv_list_empty] on the cell of an
    object is how the code asks whether it is listed.  Any other cell is raw:
    uninitialised, or left dangling by [iv_list_del].  Each operation is
    partial: [None] is a use the C code does not define. *)

From S2P Require Import Prelude IvList.

Record iseq := mk_iseq { members : list loc; idle : gset loc }.

Definition iseq_empty : iseq := mk_iseq [] ∅.

Definition iq_init (x : loc) (q : iseq) : option iseq :=
  if decide (x ∈ members q) then None else Some (mk_iseq (members q) ({[x]} ∪ idle q)).
(** [iv_list_empty] on the head, and on the cell of [x]. *)
Definition iq_empty (q : iseq) : bool := bool_decide (members q = []).
Definition iq_unlinked (x : loc) (q : iseq) : option bool :=
  if decide (x ∈ members q) then Some false
  else if decide (x ∈ idle q) then Some true else None.
Definition iq_add (x : loc) (q : iseq) : option iseq :=
  if decide (x ∈ members q) then None else Some (mk_iseq (x :: members q) (idle q ∖ {[x]})).
Definition iq_add_tail (x : loc) (q : iseq) : option iseq :=
  if decide (x ∈ members q) then None else Some (mk_iseq (members q ++ [x]) (idle q ∖ {[x]})).
Definition iq_del (x : loc) (q : iseq) : option iseq :=
  if decide (x ∈ members q) then Some (mk_iseq (remove x (members q)) (idle q))
  else if decide (x ∈ idle q) then Some (mk_iseq (members q) (idle q ∖ {[x]})) else None.
Definition iq_del_init (x : loc) (q : iseq) : option iseq :=
  if decide (x ∈ members q) then Some (mk_iseq (remove x (members q)) ({[x]} ∪ idle q))
  else if decide (x ∈ idle q) then Some q else None.

(** A well-formed list: no member twice, members and idle cells apart. *)
Record iq_ok (q : iseq) : Prop := {
  iq_nodup : NoDup (members q);
  iq_apart : forall x, x ∈ members q -> x ∉ idle q }.

Lemma iq_ok_empty : iq_ok iseq_empty.
Proof. split; [apply NoDup_nil_2|by intros x ?%not_elem_of_nil]. Qed.
Lemma iq_init_ok x q q' : iq_ok q -> iq_init x q = Some q' -> iq_ok q'.
Proof.
  intros [Hn Ha]. unfold iq_init. case_decide; [done|]. intros [= <-]. split; cbn; [done|]. set_solver.
Qed.
Lemma iq_add_tail_ok x q q' : iq_ok q -> iq_add_tail x q = Some q' -> iq_ok q'.
Proof.
  intros [Hn Ha]. unfold iq_add_tail. case_decide; [done|]. intros [= <-]. split; cbn; [|set_solver].
  apply NoDup_app. split_and!; [done| |apply NoDup_singleton]. set_solver.
Qed.
Lemma iq_add_ok x q q' : iq_ok q -> iq_add x q = Some q' -> iq_ok q'.
Proof.
  intros [Hn Ha]. unfold iq_add. case_decide; [done|]. intros [= <-]. split; cbn; [|set_solver].
  by apply NoDup_cons.
Qed.
Lemma iq_del_ok x q q' : iq_ok q -> iq_del x q = Some q' -> iq_ok q'.
Proof.
  intros [Hn Ha]. unfold iq_del. repeat case_decide; try done; intros [= <-]; split; cbn.
  - by apply NoDup_remove.
  - intros y [_ ?]%elem_of_remove. auto.
  - done.
  - set_solver.
Qed.
Lemma iq_del_init_ok x q q' : iq_ok q -> iq_del_init x q = Some q' -> iq_ok q'.
Proof.
  intros [Hn Ha]. unfold iq_del_init. repeat case_decide; try done; intros [= <-]; split; cbn.
  - by apply NoDup_remove.
  - intros y [Hy Hym]%elem_of_remove. pose proof (Ha _ Hym). set_solver.
  - done.
  - done.
Qed.

Lemma iq_del_sublist x q q' : iq_del x q = Some q' -> sublist (members q') (members q).
Proof.
  unfold iq_del. repeat case_decide; try done; intros [= <-]; cbn; [apply remove_sublist|reflexivity].
Qed.

(** ** The sequences are what iv_list.h keeps

    [hd] is the head, [U] the cells that may be linked to it. *)
Definition iq_world (hd : loc) (q : iseq) : gmap loc (list loc) :=
  <[hd := members q]> (gset_to_gmap [] (idle q)).
Definition iq_raw (U : gset loc) (q : iseq) : gset loc :=
  U ∖ (list_to_set (members q) ∪ idle q).
Record iq_in (U : gset loc) (hd : loc) (q : iseq) : Prop := {
  iqi_ok : iq_ok q; iqi_hd : hd ∉ U;
  iqi_members : forall x, x ∈ members q -> x ∈ U;
  iqi_idle : idle q ⊆ U }.

Inductive iq_cmd := QInit (x : loc) | QAdd (x : loc) | QAddTail (x : loc) | QDel (x : loc) | QDelInit (x : loc).
Definition iq_step (c : iq_cmd) : iseq -> option iseq :=
  match c with
  | QInit x => iq_init x | QAdd x => iq_add x | QAddTail x => iq_add_tail x
  | QDel x => iq_del x | QDelInit x => iq_del_init x
  end.
Definition iq_run (hd : loc) (c : iq_cmd) : M lheap unit :=
  match c with
  | QInit x => INIT_IV_LIST_HEAD x | QAdd x => iv_list_add x hd | QAddTail x => iv_list_add_tail x hd
  | QDel x => iv_list_del x | QDelInit x => iv_list_del_init x
  end.
Definition iq_arg (c : iq_cmd) : loc :=
  match c with QInit x | QAdd x | QAddTail x | QDel x | QDelInit x => x end.
Fixpoint iq_steps (cs : list iq_cmd) (q : iseq) : option iseq :=
  match cs with [] => Some q | c :: cs => q' ← iq_step c q; iq_steps cs q' end.
Fixpoint iq_runs (hd : loc) (cs : list iq_cmd) : M lheap unit :=
  match cs with [] => mret tt | c :: cs => iq_run hd c;; iq_runs hd cs end.

Lemma iv_list_del_single h x : lrep h x [] ->
  exists h', iv_list_del x h = Ok (tt, h') /\ same_outside [x] h h'.
Proof.
  intros Hr. pose proof (lrep_next _ _ _ Hr) as Hn. pose proof (lrep_prev _ _ _ Hr) as Hp.
  cbn in Hn, Hp. assert (alloc h x) by eauto with halloc.
  unfold iv_list_del. do 2 lstep. rewrite Hn, Hp. do 4 lstep. rewrite Hp. do 4 lstep.
  eexists; split; [done|frame_outside].
Qed.

Section simulation.
Context (U : gset loc) (hd : loc).
Implicit Types (q : iseq) (x : loc).

Lemma iq_lookup_hd q : iq_world hd q !! hd = Some (members q).
Proof. apply lookup_insert_eq. Qed.
Lemma iq_lookup_idle q x : x <> hd -> x ∈ idle q -> iq_world hd q !! x = Some [].
Proof.
  intros Hne Hx. unfold iq_world. rewrite lookup_insert_ne by done.
  by apply lookup_gset_to_gmap_Some.
Qed.

(** A cell that is on no list can be taken as raw. *)
Lemma iq_make_raw h q x :
  iq_in U hd q -> world h (iq_world hd q) (iq_raw U q) -> x ∈ U -> x ∉ members q ->
  let q' := mk_iseq (members q) (idle q ∖ {[x]}) in
  world h (iq_world hd q') (iq_raw U q') /\ x ∈ iq_raw U q' /\ iq_in U hd q'.
Proof.
  intros [Hok Hhd Hm Hi] Hw HxU Hx q'.
  assert (x <> hd) as Hne by set_solver.
  split; [|split].
  - destruct (decide (x ∈ idle q)) as [Hxi|Hxi].
    + pose proof (world_forget _ _ _ Hw x [] (iq_lookup_idle _ _ Hne Hxi)) as Hw'.
      assert (delete x (iq_world hd q) = iq_world hd q') as <-.
      { unfold iq_world, q'. cbn. rewrite delete_insert_ne by done. f_equal.
        apply map_eq. intros y. destruct (decide (y = x)) as [->|Hy].
        - rewrite lookup_delete_eq. symmetry. apply lookup_gset_to_gmap_None. set_solver.
        - rewrite lookup_delete_ne by done. apply option_eq. intros l.
          rewrite !lookup_gset_to_gmap_Some. set_solver. }
      eapply world_raw_subset; [exact Hw'|]. unfold iq_raw, q'. cbn.
      intros y Hy. destruct (decide (y = x)) as [->|Hyx]; set_solver.
    + assert (idle q ∖ {[x]} = idle q) as E by set_solver.
      unfold q'. rewrite E. by destruct q.
  - unfold iq_raw, q'. cbn. set_solver.
  - split; cbn; [|done..|set_solver]. split; cbn; [by destruct Hok|]. destruct Hok. set_solver.
Qed.

Lemma iq_world_insert q l : <[hd := l]> (iq_world hd q) = iq_world hd (mk_iseq l (idle q)).
Proof. unfold iq_world. by rewrite insert_insert_eq. Qed.

Lemma iq_world_idle q x : x <> hd ->
  <[x := []]> (iq_world hd q) = iq_world hd (mk_iseq (members q) ({[x]} ∪ idle q)).
Proof.
  intros Hne. unfold iq_world. cbn. rewrite insert_insert_ne by done. f_equal.
  by rewrite gset_to_gmap_union_singleton.
Qed.

Lemma iq_step_refines h q q' c :
  iq_in U hd q -> world h (iq_world hd q) (iq_raw U q) -> iq_arg c ∈ U ->
  iq_step c q = Some q' ->
  exists h', iq_run hd c h = Ok (tt, h') /\ world h' (iq_world hd q') (iq_raw U q') /\ iq_in U hd q'.
Proof.
  intros Hin Hw HU Hs. assert (iq_arg c <> hd) as Hne by (destruct Hin; set_solver).
  destruct c as [x|x|x|x|x]; cbn in HU, Hs, Hne; cbn [iq_run].
  - unfold iq_init in Hs. case_decide as Hx; simplify_eq.
    destruct (iq_make_raw h q x Hin Hw HU Hx) as (Hw1&Hr&Hin1).
    destruct (world_init _ _ _ Hw1 x Hr) as (h'&He&Hw2). exists h'. split; [done|].
    rewrite iq_world_idle in Hw2 by done. cbn in Hw2.
    assert ({[x]} ∪ idle q ∖ {[x]} = {[x]} ∪ idle q) as E.
    { apply set_eq. intros y. destruct (decide (y = x)); set_solver. }
    rewrite E in Hw2. split.
    + eapply world_raw_subset; [exact Hw2|]. unfold iq_raw. cbn. set_solver.
    + destruct Hin as [[]]; split; cbn; [split; cbn|..]; set_solver.
  - unfold iq_add in Hs. case_decide as Hx; simplify_eq.
    destruct (iq_make_raw h q x Hin Hw HU Hx) as (Hw1&Hr&Hin1).
    destruct (world_add _ _ _ Hw1 x hd _ (iq_lookup_hd _) Hr) as (h'&He&Hw2). exists h'. split; [done|].
    rewrite iq_world_insert in Hw2. cbn in Hw2. split.
    + eapply world_raw_subset; [exact Hw2|]. unfold iq_raw. cbn. set_solver.
    + destruct Hin as [[]]; split; cbn; [split; cbn|..]; [by apply NoDup_cons|set_solver..].
  - unfold iq_add_tail in Hs. case_decide as Hx; simplify_eq.
    destruct (iq_make_raw h q x Hin Hw HU Hx) as (Hw1&Hr&Hin1).
    destruct (world_add_tail _ _ _ Hw1 x hd _ (iq_lookup_hd _) Hr) as (h'&He&Hw2). exists h'. split; [done|].
    rewrite iq_world_insert in Hw2. cbn in Hw2. split.
    + eapply world_raw_subset; [exact Hw2|]. unfold iq_raw. cbn. set_solver.
    + destruct Hin as [Hok]; split; cbn; [|set_solver..].
      eapply (iq_add_tail_ok x q); [done|]. unfold iq_add_tail. by rewrite decide_False.
  - unfold iq_del in Hs. case_decide as Hx; simplify_eq.
    + pose proof Hx as Hsp. apply list_elem_of_split in Hsp as (l1&l2&El).
      assert (remove x (members q) = l1 ++ l2) as Er.
      { rewrite El. apply remove_split. rewrite <-El. apply (iqi_ok _ _ _ Hin). }
      destruct (world_del _ _ _ Hw x hd l1 l2) as (h'&He&_&Hw2); [by rewrite iq_lookup_hd, El|].
      exists h'. split; [done|]. rewrite iq_world_insert in Hw2. rewrite Er. split.
      * eapply world_raw_subset; [exact Hw2|]. unfold iq_raw. cbn. rewrite El.
        clear. intros y Hy. set_unfold. destruct (decide (y = x)); tauto.
      * destruct Hin as [Hok ? Hm ?]; split; cbn; [|done|intros y Hy; apply Hm; rewrite El; set_solver +Hy|set_solver].
        rewrite <-Er. eapply (iq_del_ok x q); [done|]. unfold iq_del. by rewrite decide_True.
    + case_decide as Hxi; simplify_eq.
      destruct (iq_make_raw h q x Hin Hw HU Hx) as (Hw1&Hr&Hin1).
      destruct (iv_list_del_single h x) as (h'&He&Ho).
      { eapply w_rep; [exact Hw|]. by apply iq_lookup_idle. }
      exists h'. split_and!; [done| |done].
      eapply world_step; [exact Hw1|exact Ho| |apply Hw1|].
      * intros hd' l Hl. right. split; [done|]. intros a Ha ->%list_elem_of_singleton.
        by eapply (world_raw_disjoint _ _ _ Hw1).
      * intros y Hy. split; [by eapply w_raw|]. intros hd' Ho'. by eapply (w_raw_own _ _ _ Hw1).
  - unfold iq_del_init in Hs. case_decide as Hx; simplify_eq.
    + pose proof Hx as Hsp. apply list_elem_of_split in Hsp as (l1&l2&El).
      assert (remove x (members q) = l1 ++ l2) as Er.
      { rewrite El. apply remove_split. rewrite <-El. apply (iqi_ok _ _ _ Hin). }
      destruct (world_del_init _ _ _ Hw x hd l1 l2) as (h'&He&Hw2); [by rewrite iq_lookup_hd, El|].
      exists h'. split; [done|]. rewrite iq_world_insert, iq_world_idle in Hw2 by done. rewrite Er. split.
      * eapply world_raw_subset; [exact Hw2|]. unfold iq_raw. cbn. rewrite El.
        clear. intros y Hy. set_unfold. destruct (decide (y = x)); tauto.
      * destruct Hin as [Hok ? Hm ?]; split; cbn; [|done|intros y Hy; apply Hm; rewrite El; set_solver +Hy|set_solver].
        rewrite <-Er. eapply (iq_del_init_ok x q); [done|]. unfold iq_del_init. by rewrite decide_True.
    + case_decide as Hxi; simplify_eq.
      destruct (world_del_init_single _ _ _ Hw x) as (h'&He&Hw2); [by apply iq_lookup_idle|].
      by exists h'.
Qed.
End simulation.

(** The sequences the components below keep are what iv_list.h keeps: a
    program of list calls that is defined on sequences runs on the cells without
    touching a dangling one, and afterwards a walk of the list, [iv_list_empty]
    of the head and [iv_list_empty] of an object's own cell tell what the
    sequence tells. *)
Theorem iseq_refines_iv_list U hd h q q' cs :
  iq_in U hd q -> world h (iq_world hd q) (iq_raw U q) ->
  (forall c, c ∈ cs -> iq_arg c ∈ U) -> iq_steps cs q = Some q' ->
  exists h', iq_runs hd cs h = Ok (tt, h') /\ world h' (iq_world hd q') (iq_raw U q') /\
    iv_list_for_each (S (length (members q'))) hd h' = Ok (members q', h') /\
    iv_list_empty hd h' = Ok (iq_empty q', h') /\
    (forall x b, iq_unlinked x q' = Some b -> iv_list_empty x h' = Ok (b, h')).
Proof.
  revert h q. induction cs as [|c cs IH]; intros h q Hin Hw Hcs Hs; cbn in Hs.
  - injection Hs as <-. exists h. split_and!; [done|done| | |].
    + apply iv_list_for_each_spec; [|lia]. eapply w_rep; [exact Hw|apply iq_lookup_hd].
    + by eapply world_empty; [|apply iq_lookup_hd].
    + intros x b. unfold iq_unlinked. repeat case_decide; intros [= <-].
      * by eapply world_member_not_empty; [|apply iq_lookup_hd|].
      * eapply (world_empty _ _ _ Hw x []). apply iq_lookup_idle; [|done].
        destruct Hin. set_solver.
  - destruct (iq_step c q) as [q1|] eqn:E1; [|done].
    destruct (iq_step_refines U hd h q q1 c) as (h1&He&Hw1&Hin1); [done|done|apply Hcs; by left|done|].
    destruct (IH h1 q1) as (h'&?&?); [done|done|intros; apply Hcs; by right|exact Hs|].
    exists h'. cbn. by mrun He.
Qed.

Lemma iseq_refines_iv_list_witness :
  exists h', iq_runs 1%positive [QInit 3; QAddTail 3; QAdd 4; QDelInit 3]%positive
      (hsp 1 (Some 1%positive) (hsn 1 (Some 1%positive) demo_heap)) = Ok (tt, h') /\
    iv_list_empty 3%positive h' = Ok (true, h').
Proof.
  destruct (iseq_refines_iv_list {[2; 3; 4]}%positive 1%positive
    (hsp 1 (Some 1%positive) (hsn 1 (Some 1%positive) demo_heap)) iseq_empty
    (mk_iseq [4%positive] ({[3%positive]} ∪ ({[3%positive]} ∪ ∅) ∖ {[3%positive]} ∖ {[4%positive]}))
    [QInit 3; QAddTail 3; QAdd 4; QDelInit 3]%positive) as (h'&He&_&_&_&Hu).
  - split; [apply iq_ok_empty|set_solver|by intros x ?%not_elem_of_nil|set_solver].
  - destruct (world_init _ _ _ demo_world 1%positive ltac:(set_solver)) as (h1&He&Hw1).
    replace h1 with (hsp 1 (Some 1%positive) (hsn 1 (Some 1%positive) demo_heap)) in Hw1
      by (apply (f_equal (fun r => match r with Ok (_, s) => s | _ => ∅ end)) in He; exact He).
    replace (iq_world 1%positive iseq_empty) with (<[1%positive := []]> (∅ : gmap loc (list loc))) by reflexivity.
    eapply world_raw_subset; [exact Hw1|]. unfold iq_raw. cbn. set_solver.
  - intros c. cbn. set_solver.
  - reflexivity.
  - exists h'. split; [exact He|]. apply Hu. reflexivity.
Defined.
