(* ===== verification/Avl.v ===== *)
(** * The AVL trees of src/src/iv_avl.c and src/src/include/iv_avl.h

    Part one is the C code over a heap of nodes with parent pointers; part
    two is the algebra of trees and of contexts ("the tree with a hole");
    part three proves that the former implements the latter, and that the
    latter keeps search order and balance. *)

From S2P Require Import Prelude.

(** ** Nodes, trees, references *)

(** [struct iv_avl_node]; [height] is a [uint8_t]. *)
Record iv_avl_node := mk_node {
  an_left : ptr; an_right : ptr; an_parent : ptr; an_height : Z }.

(** [struct iv_avl_tree], with the heap its nodes live in. *)
Record iv_avl_tree := mk_tree { root : ptr; nodes : gmap loc iv_avl_node }.

(** [struct iv_avl_node **]: the cells that can hold a child pointer. *)
Inductive ref := RefRoot | RefLeft (a : loc) | RefRight (a : loc).

Definition load (a : loc) : M iv_avl_tree iv_avl_node :=
  t ← get; deref (nodes t !! a).
Definition store (a : loc) (f : iv_avl_node -> iv_avl_node) : M iv_avl_tree unit :=
  t ← get; n ← deref (nodes t !! a); put (mk_tree (root t) (<[a := f n]> (nodes t))).

Definition get_left (a : loc) := n ← load a; mret (an_left n).
Definition get_right (a : loc) := n ← load a; mret (an_right n).
Definition get_parent (a : loc) := n ← load a; mret (an_parent n).
Definition get_height (a : loc) := n ← load a; mret (an_height n).
Definition set_left (a : loc) (v : ptr) :=
  store a (fun n => mk_node v (an_right n) (an_parent n) (an_height n)).
Definition set_right (a : loc) (v : ptr) :=
  store a (fun n => mk_node (an_left n) v (an_parent n) (an_height n)).
Definition set_parent (a : loc) (v : ptr) :=
  store a (fun n => mk_node (an_left n) (an_right n) v (an_height n)).
Definition set_height (a : loc) (v : Z) :=
  store a (fun n => mk_node (an_left n) (an_right n) (an_parent n) v).

(** [if (c != NULL) c->parent = v;] *)
Definition set_parent_if (c : ptr) (v : ptr) : M iv_avl_tree unit :=
  match c with Some c => set_parent c v | None => mret tt end.

Definition read_ref (r : ref) : M iv_avl_tree ptr :=
  match r with
  | RefRoot => gets root
  | RefLeft a => get_left a
  | RefRight a => get_right a
  end.
Definition write_ref (r : ref) (v : ptr) : M iv_avl_tree unit :=
  match r with
  | RefRoot => modify (fun t => mk_tree v (nodes t))
  | RefLeft a => set_left a v
  | RefRight a => set_right a v
  end.

(** ** iv_avl.c *)

Definition height (an : ptr) : M iv_avl_tree Z :=
  match an with Some a => get_height a | None => mret 0%Z end.

Definition recalc_height (an : loc) : M iv_avl_tree unit :=
  l ← get_left an; hl ← height l;
  r ← get_right an; hr ← height r;
  set_height an (u8 (1 + if (hr <? hl)%Z then hl else hr)).

Definition rotate_left (rt : ref) : M iv_avl_tree unit :=
  b ← read_ref rt; b ← deref b;
  d ← get_right b; d ← deref d;
  c ← get_left d;
  set_right b c;;
  set_parent_if c (Some b);;
  recalc_height b;;
  set_left d (Some b);;
  p ← get_parent b; set_parent d p;;
  set_parent b (Some d);;
  recalc_height d;;
  write_ref rt (Some d).

Definition rotate_right (rt : ref) : M iv_avl_tree unit :=
  d ← read_ref rt; d ← deref d;
  b ← get_left d; b ← deref b;
  c ← get_right b;
  set_left d c;;
  set_parent_if c (Some d);;
  recalc_height d;;
  set_right b (Some d);;
  p ← get_parent d; set_parent b p;;
  set_parent d (Some b);;
  recalc_height b;;
  write_ref rt (Some b).

Definition rotate_left_right (rt : ref) : M iv_avl_tree unit :=
  f ← read_ref rt; f ← deref f;
  b ← get_left f; b ← deref b;
  d ← get_right b; d ← deref d;
  c ← get_left d;
  set_right b c;;
  set_parent_if c (Some b);;
  recalc_height b;;
  e ← get_right d;
  set_left f e;;
  set_parent_if e (Some f);;
  recalc_height f;;
  set_left d (Some b);;
  set_right d (Some f);;
  p ← get_parent f; set_parent d p;;
  set_parent b (Some d);;
  set_parent f (Some d);;
  recalc_height d;;
  write_ref rt (Some d).

Definition rotate_right_left (rt : ref) : M iv_avl_tree unit :=
  b ← read_ref rt; b ← deref b;
  f ← get_right b; f ← deref f;
  d ← get_left f; d ← deref d;
  c ← get_left d;
  set_right b c;;
  set_parent_if c (Some b);;
  recalc_height b;;
  e ← get_right d;
  set_left f e;;
  set_parent_if e (Some f);;
  recalc_height f;;
  set_left d (Some b);;
  set_right d (Some f);;
  p ← get_parent b; set_parent d p;;
  set_parent b (Some d);;
  set_parent f (Some d);;
  recalc_height d;;
  write_ref rt (Some d).

Definition balance (an : ptr) : M iv_avl_tree Z :=
  a ← deref an;
  r ← get_right a; hr ← height r;
  l ← get_left a; hl ← height l;
  mret (hr - hl)%Z.

Definition rebalance_node (_root : ref) : M iv_avl_tree unit :=
  rt ← read_ref _root;
  bal ← balance rt;
  rt ← deref rt;
  if (bal =? -2)%Z then
    l ← get_left rt; bl ← balance l;
    if (bl <=? 0)%Z then rotate_right _root else rotate_left_right _root
  else if (bal =? 2)%Z then
    r ← get_right rt; br ← balance r;
    if (br <? 0)%Z then rotate_right_left _root else rotate_left _root
  else mret tt.

Definition find_reference (an : loc) : M iv_avl_tree ref :=
  p ← get_parent an;
  match p with
  | Some p =>
      l ← get_left p;
      mret (if ptr_eqb l (Some an) then RefLeft p else RefRight p)
  | None => mret RefRoot
  end.

Definition replace_reference (an : loc) (new_child : ptr) : M iv_avl_tree unit :=
  r ← find_reference an; write_ref r new_child.

Fixpoint rebalance_path_loop (fuel : nat) (an : ptr) : M iv_avl_tree unit :=
  match fuel with
  | O => out_of_fuel
  | S fuel =>
      match an with
      | None => mret tt
      | Some an =>
          old_height ← get_height an;
          recalc_height an;;
          rf ← find_reference an;
          rebalance_node rf;;
          an ← read_ref rf; an ← deref an;
          h ← get_height an;
          if (old_height =? h)%Z then mret tt
          else p ← get_parent an; rebalance_path_loop fuel p
      end
  end.

(** Every loop of the file moves along one path, so the number of nodes of
    the heap bounds its iterations. *)
Definition loop_bound : M iv_avl_tree nat := gets (fun t => S (S (size (nodes t)))).

Definition rebalance_path (an : ptr) : M iv_avl_tree unit :=
  fuel ← loop_bound; rebalance_path_loop fuel an.

Section compare.
(** [tree->compare], a callback of the tree's owner. *)
Context (compare : loc -> loc -> Z).

(** The descent of [iv_avl_tree_insert]: [None] when an equal node is met. *)
Fixpoint insert_descend (fuel : nat) (an : loc) (p : ptr) (pp : ref) :
    M iv_avl_tree (option (ptr * ref)) :=
  match fuel with
  | O => out_of_fuel
  | S fuel =>
      c ← read_ref pp;
      match c with
      | None => mret (Some (p, pp))
      | Some q =>
          let ret := compare an q in
          if (ret <? 0)%Z then insert_descend fuel an (Some q) (RefLeft q)
          else if (0 <? ret)%Z then insert_descend fuel an (Some q) (RefRight q)
          else mret None
      end
  end.

Definition iv_avl_tree_insert (an : loc) : M iv_avl_tree Z :=
  fuel ← loop_bound;
  place ← insert_descend fuel an None RefRoot;
  match place with
  | None => mret (-1)%Z
  | Some (p, pp) =>
      set_left an None;;
      set_right an None;;
      set_parent an p;;
      set_height an 1;;
      write_ref pp (Some an);;
      rebalance_path p;;
      mret 0%Z
  end.
End compare.

Definition iv_avl_tree_delete_leaf (an : loc) : M iv_avl_tree ptr :=
  replace_reference an None;;
  get_parent an.

Fixpoint rightmost (fuel : nat) (an : loc) : M iv_avl_tree loc :=
  match fuel with
  | O => out_of_fuel
  | S fuel =>
      r ← get_right an;
      match r with Some r => rightmost fuel r | None => mret an end
  end.
Fixpoint leftmost (fuel : nat) (an : loc) : M iv_avl_tree loc :=
  match fuel with
  | O => out_of_fuel
  | S fuel =>
      l ← get_left an;
      match l with Some l => leftmost fuel l | None => mret an end
  end.

Definition iv_avl_tree_delete_nonleaf (an : loc) : M iv_avl_tree ptr :=
  fuel ← loop_bound;
  l ← get_left an; hl ← height l;
  r ← get_right an; hr ← height r;
  victim ← (if (hr <? hl)%Z then
      victim ← deref l;
      victim ← rightmost fuel victim;
      vl ← get_left victim;
      replace_reference victim vl;;
      vl ← get_left victim; vp ← get_parent victim;
      set_parent_if vl vp;;
      mret victim
    else
      victim ← deref r;
      victim ← leftmost fuel victim;
      vr ← get_right victim;
      replace_reference victim vr;;
      vr ← get_right victim; vp ← get_parent victim;
      set_parent_if vr vp;;
      mret victim);
  p ← get_parent victim;
  let p := if ptr_eqb p (Some an) then Some victim else p in
  replace_reference an (Some victim);;
  al ← get_left an; set_left victim al;;
  ar ← get_right an; set_right victim ar;;
  ap ← get_parent an; set_parent victim ap;;
  ah ← get_height an; set_height victim ah;;
  vl ← get_left victim; set_parent_if vl (Some victim);;
  vr ← get_right victim; set_parent_if vr (Some victim);;
  mret p.

Definition iv_avl_tree_delete (an : loc) : M iv_avl_tree unit :=
  l ← get_left an; r ← get_right an;
  p ← (if is_null l && is_null r then iv_avl_tree_delete_leaf an
       else iv_avl_tree_delete_nonleaf an);
  rebalance_path p.

(** The upward walks of [iv_avl_tree_next] and [iv_avl_tree_prev]. *)
Fixpoint up_while_right (fuel : nat) (an : loc) (p : ptr) : M iv_avl_tree ptr :=
  match fuel with
  | O => out_of_fuel
  | S fuel =>
      match p with
      | None => mret None
      | Some q =>
          r ← get_right q;
          if ptr_eqb (Some an) r then p ← get_parent q; up_while_right fuel q p
          else mret (Some q)
      end
  end.
Fixpoint up_while_left (fuel : nat) (an : loc) (p : ptr) : M iv_avl_tree ptr :=
  match fuel with
  | O => out_of_fuel
  | S fuel =>
      match p with
      | None => mret None
      | Some q =>
          l ← get_left q;
          if ptr_eqb (Some an) l then p ← get_parent q; up_while_left fuel q p
          else mret (Some q)
      end
  end.

Definition iv_avl_tree_next (an : loc) : M iv_avl_tree ptr :=
  fuel ← loop_bound;
  r ← get_right an;
  match r with
  | Some r => a ← leftmost fuel r; mret (Some a)
  | None => p ← get_parent an; up_while_right fuel an p
  end.

Definition iv_avl_tree_prev (an : loc) : M iv_avl_tree ptr :=
  fuel ← loop_bound;
  l ← get_left an;
  match l with
  | Some l => a ← rightmost fuel l; mret (Some a)
  | None => p ← get_parent an; up_while_left fuel an p
  end.

(** ** iv_avl.h *)

Definition INIT_IV_AVL_TREE : M iv_avl_tree unit := write_ref RefRoot None.

Definition iv_avl_tree_empty : M iv_avl_tree bool := r ← read_ref RefRoot; mret (is_null r).

Definition iv_avl_tree_min : M iv_avl_tree ptr :=
  fuel ← loop_bound; r ← read_ref RefRoot;
  match r with Some r => a ← leftmost fuel r; mret (Some a) | None => mret None end.
Definition iv_avl_tree_max : M iv_avl_tree ptr :=
  fuel ← loop_bound; r ← read_ref RefRoot;
  match r with Some r => a ← rightmost fuel r; mret (Some a) | None => mret None end.

(** [iv_avl_tree_for_each]: the nodes visited, in order. *)
Fixpoint avl_for_each_loop (fuel : nat) (an : ptr) : M iv_avl_tree (list loc) :=
  match fuel with
  | O => out_of_fuel
  | S fuel =>
      match an with
      | None => mret []
      | Some an => nx ← iv_avl_tree_next an; rest ← avl_for_each_loop fuel nx; mret (an :: rest)
      end
  end.
Definition iv_avl_tree_for_each : M iv_avl_tree (list loc) :=
  fuel ← loop_bound; an ← iv_avl_tree_min; avl_for_each_loop fuel an.

(** ** The heap through field views *)

Abbreviation tree_st := iv_avl_tree.

Definition dflt : iv_avl_node := mk_node None None None 0.
Definition nd (s : tree_st) (a : loc) : iv_avl_node := default dflt (nodes s !! a).
Definition lft (s : tree_st) (a : loc) : ptr := an_left (nd s a).
Definition rgt (s : tree_st) (a : loc) : ptr := an_right (nd s a).
Definition par (s : tree_st) (a : loc) : ptr := an_parent (nd s a).
Definition hgt (s : tree_st) (a : loc) : Z := an_height (nd s a).
Definition alloc (s : tree_st) (a : loc) : Prop := is_Some (nodes s !! a).
Definition hv (s : tree_st) (p : ptr) : Z := match p with Some a => hgt s a | None => 0%Z end.
Definition alloc_opt (s : tree_st) (p : ptr) : Prop := match p with Some a => alloc s a | None => True end.

Definition upd (a : loc) (n : iv_avl_node) (s : tree_st) : tree_st :=
  mk_tree (root s) (<[a := n]> (nodes s)).
Definition ss_left (a : loc) (v : ptr) (s : tree_st) := upd a (mk_node v (rgt s a) (par s a) (hgt s a)) s.
Definition ss_right (a : loc) (v : ptr) (s : tree_st) := upd a (mk_node (lft s a) v (par s a) (hgt s a)) s.
Definition ss_parent (a : loc) (v : ptr) (s : tree_st) := upd a (mk_node (lft s a) (rgt s a) v (hgt s a)) s.
Definition ss_height (a : loc) (v : Z) (s : tree_st) := upd a (mk_node (lft s a) (rgt s a) (par s a) v) s.
Definition ss_parent_if (c v : ptr) (s : tree_st) :=
  match c with Some c => ss_parent c v s | None => s end.
Definition ss_ref (r : ref) (v : ptr) (s : tree_st) : tree_st :=
  match r with
  | RefRoot => mk_tree v (nodes s)
  | RefLeft a => ss_left a v s
  | RefRight a => ss_right a v s
  end.
Definition ref_view (r : ref) (s : tree_st) : ptr :=
  match r with RefRoot => root s | RefLeft a => lft s a | RefRight a => rgt s a end.
Definition ref_alloc (r : ref) (s : tree_st) : Prop :=
  match r with RefRoot => True | RefLeft a | RefRight a => alloc s a end.

Section views.
Context (s : tree_st).
Implicit Types (a b : loc) (v : ptr) (z : Z).

Lemma nd_upd a n b : nd (upd a n s) b = if decide (a = b) then n else nd s b.
Proof. unfold nd, upd. cbn. rewrite lookup_insert. by case_decide. Qed.
Lemma alloc_upd a n b : alloc s b -> alloc (upd a n s) b.
Proof. unfold alloc, upd. cbn. intros. apply lookup_insert_is_Some'. by right. Qed.

Ltac view := intros; unfold lft, rgt, par, hgt, ss_left, ss_right, ss_parent, ss_height;
  rewrite nd_upd; case_decide; by subst.

Lemma lft_left a v b : lft (ss_left a v s) b = if decide (a = b) then v else lft s b.
Proof. view. Qed.
Lemma lft_right a v b : lft (ss_right a v s) b = lft s b.
Proof. view. Qed.
Lemma lft_parent a v b : lft (ss_parent a v s) b = lft s b.
Proof. view. Qed.
Lemma lft_height a z b : lft (ss_height a z s) b = lft s b.
Proof. view. Qed.
Lemma rgt_left a v b : rgt (ss_left a v s) b = rgt s b.
Proof. view. Qed.
Lemma rgt_right a v b : rgt (ss_right a v s) b = if decide (a = b) then v else rgt s b.
Proof. view. Qed.
Lemma rgt_parent a v b : rgt (ss_parent a v s) b = rgt s b.
Proof. view. Qed.
Lemma rgt_height a z b : rgt (ss_height a z s) b = rgt s b.
Proof. view. Qed.
Lemma par_left a v b : par (ss_left a v s) b = par s b.
Proof. view. Qed.
Lemma par_right a v b : par (ss_right a v s) b = par s b.
Proof. view. Qed.
Lemma par_parent a v b : par (ss_parent a v s) b = if decide (a = b) then v else par s b.
Proof. view. Qed.
Lemma par_height a z b : par (ss_height a z s) b = par s b.
Proof. view. Qed.
Lemma hgt_left a v b : hgt (ss_left a v s) b = hgt s b.
Proof. view. Qed.
Lemma hgt_right a v b : hgt (ss_right a v s) b = hgt s b.
Proof. view. Qed.
Lemma hgt_parent a v b : hgt (ss_parent a v s) b = hgt s b.
Proof. view. Qed.
Lemma hgt_height a z b : hgt (ss_height a z s) b = if decide (a = b) then z else hgt s b.
Proof. view. Qed.

Lemma lft_parent_if c v b : lft (ss_parent_if c v s) b = lft s b.
Proof. destruct c; [apply lft_parent|done]. Qed.
Lemma rgt_parent_if c v b : rgt (ss_parent_if c v s) b = rgt s b.
Proof. destruct c; [apply rgt_parent|done]. Qed.
Lemma hgt_parent_if c v b : hgt (ss_parent_if c v s) b = hgt s b.
Proof. destruct c; [apply hgt_parent|done]. Qed.
Lemma par_parent_if c v b :
  par (ss_parent_if c v s) b = if decide (c = Some b) then v else par s b.
Proof. destruct c; cbn; [rewrite par_parent|]; repeat case_decide; congruence. Qed.

Lemma root_left a v : root (ss_left a v s) = root s. Proof. done. Qed.
Lemma root_right a v : root (ss_right a v s) = root s. Proof. done. Qed.
Lemma root_parent a v : root (ss_parent a v s) = root s. Proof. done. Qed.
Lemma root_height a z : root (ss_height a z s) = root s. Proof. done. Qed.
Lemma root_parent_if c v : root (ss_parent_if c v s) = root s. Proof. by destruct c. Qed.

(** [hv] only sees heights. *)
Lemma hv_left a v p : hv (ss_left a v s) p = hv s p.
Proof. destruct p; [apply hgt_left|done]. Qed.
Lemma hv_right a v p : hv (ss_right a v s) p = hv s p.
Proof. destruct p; [apply hgt_right|done]. Qed.
Lemma hv_parent a v p : hv (ss_parent a v s) p = hv s p.
Proof. destruct p; [apply hgt_parent|done]. Qed.
Lemma hv_parent_if c v p : hv (ss_parent_if c v s) p = hv s p.
Proof. destruct p; [apply hgt_parent_if|done]. Qed.
Lemma hv_height a z p : hv (ss_height a z s) p = if decide (p = Some a) then z else hv s p.
Proof. destruct p; cbn; [rewrite hgt_height|]; repeat case_decide; congruence. Qed.

Lemma alloc_left a v b : alloc s b -> alloc (ss_left a v s) b. Proof. apply alloc_upd. Qed.
Lemma alloc_right a v b : alloc s b -> alloc (ss_right a v s) b. Proof. apply alloc_upd. Qed.
Lemma alloc_parent a v b : alloc s b -> alloc (ss_parent a v s) b. Proof. apply alloc_upd. Qed.
Lemma alloc_height a z b : alloc s b -> alloc (ss_height a z s) b. Proof. apply alloc_upd. Qed.
Lemma alloc_parent_if c v b : alloc s b -> alloc (ss_parent_if c v s) b.
Proof. destruct c; [apply alloc_parent|done]. Qed.
Lemma alloc_ref r v b : alloc s b -> alloc (ss_ref r v s) b.
Proof. destruct r; [done|apply alloc_left|apply alloc_right]. Qed.
End views.

Create Rewrite HintDb aview.
#[global] Hint Rewrite lft_left lft_right lft_parent lft_height rgt_left rgt_right rgt_parent
  rgt_height par_left par_right par_parent par_height hgt_left hgt_right hgt_parent hgt_height
  lft_parent_if rgt_parent_if hgt_parent_if par_parent_if root_left root_right root_parent
  root_height root_parent_if hv_left hv_right hv_parent hv_parent_if hv_height : aview.
Create HintDb aalloc.
#[global] Hint Resolve alloc_left alloc_right alloc_parent alloc_height alloc_parent_if alloc_ref : aalloc.

Ltac aview := repeat (progress (autorewrite with aview; dec_simpl)).
Ltac adec := aview; split_and?; repeat case_decide; subst; first [done | congruence].

(** *** Running the accessors *)
Section running.
Context (s : tree_st).
Implicit Types (a : loc) (v : ptr) (z : Z).

Lemma load_Ok a : alloc s a -> load a s = Ok (nd s a, s).
Proof. intros [n E]. unfold load, nd. msimpl. by rewrite E. Qed.
Lemma store_Ok a f : alloc s a -> store a f s = Ok (tt, upd a (f (nd s a)) s).
Proof. intros [n E]. unfold store, nd, upd. msimpl. by rewrite E. Qed.

Lemma get_left_Ok a : alloc s a -> get_left a s = Ok (lft s a, s).
Proof. intros H. unfold get_left. by mrun (load_Ok a H). Qed.
Lemma get_right_Ok a : alloc s a -> get_right a s = Ok (rgt s a, s).
Proof. intros H. unfold get_right. by mrun (load_Ok a H). Qed.
Lemma get_parent_Ok a : alloc s a -> get_parent a s = Ok (par s a, s).
Proof. intros H. unfold get_parent. by mrun (load_Ok a H). Qed.
Lemma get_height_Ok a : alloc s a -> get_height a s = Ok (hgt s a, s).
Proof. intros H. unfold get_height. by mrun (load_Ok a H). Qed.
Lemma set_left_Ok a v : alloc s a -> set_left a v s = Ok (tt, ss_left a v s).
Proof. intros H. unfold set_left. by mrun (store_Ok a (fun n => mk_node v (an_right n) (an_parent n) (an_height n)) H). Qed.
Lemma set_right_Ok a v : alloc s a -> set_right a v s = Ok (tt, ss_right a v s).
Proof. intros H. unfold set_right. by mrun (store_Ok a (fun n => mk_node (an_left n) v (an_parent n) (an_height n)) H). Qed.
Lemma set_parent_Ok a v : alloc s a -> set_parent a v s = Ok (tt, ss_parent a v s).
Proof. intros H. unfold set_parent. by mrun (store_Ok a (fun n => mk_node (an_left n) (an_right n) v (an_height n)) H). Qed.
Lemma set_height_Ok a z : alloc s a -> set_height a z s = Ok (tt, ss_height a z s).
Proof. intros H. unfold set_height. by mrun (store_Ok a (fun n => mk_node (an_left n) (an_right n) (an_parent n) z) H). Qed.
Lemma set_parent_if_Ok c v : alloc_opt s c -> set_parent_if c v s = Ok (tt, ss_parent_if c v s).
Proof. destruct c; [apply set_parent_Ok|done]. Qed.
Lemma read_ref_Ok r : ref_alloc r s -> read_ref r s = Ok (ref_view r s, s).
Proof. destruct r; [done|apply get_left_Ok|apply get_right_Ok]. Qed.
Lemma write_ref_Ok r v : ref_alloc r s -> write_ref r v s = Ok (tt, ss_ref r v s).
Proof. destruct r; [done|apply set_left_Ok|apply set_right_Ok]. Qed.
Lemma height_Ok p : alloc_opt s p -> height p s = Ok (hv s p, s).
Proof. destruct p; [apply get_height_Ok|done]. Qed.

Lemma recalc_height_Ok a :
  alloc s a -> alloc_opt s (lft s a) -> alloc_opt s (rgt s a) ->
  recalc_height a s =
    Ok (tt, ss_height a (u8 (1 + Z.max (hv s (lft s a)) (hv s (rgt s a)))) s).
Proof.
  intros Ha Hl Hr. unfold recalc_height.
  mrun (get_left_Ok a Ha). mrun (height_Ok _ Hl). mrun (get_right_Ok a Ha).
  mrun (height_Ok _ Hr). rewrite set_height_Ok by done. do 5 f_equal.
  case_match; lia.
Qed.

Lemma balance_Ok a :
  alloc s a -> alloc_opt s (lft s a) -> alloc_opt s (rgt s a) ->
  balance (Some a) s = Ok ((hv s (rgt s a) - hv s (lft s a))%Z, s).
Proof.
  intros Ha Hl Hr. unfold balance. mrun (@deref_Some tree_st _ a s).
  mrun (get_right_Ok a Ha). mrun (height_Ok _ Hr). mrun (get_left_Ok a Ha).
  by mrun (height_Ok _ Hl).
Qed.
End running.

Lemma alloc_opt_mono s s' p :
  (forall a, alloc s a -> alloc s' a) -> alloc_opt s p -> alloc_opt s' p.
Proof. destruct p; cbn; auto. Qed.
Lemma alloc_opt_left s a v p : alloc_opt s p -> alloc_opt (ss_left a v s) p.
Proof. apply alloc_opt_mono. eauto with aalloc. Qed.
Lemma alloc_opt_right s a v p : alloc_opt s p -> alloc_opt (ss_right a v s) p.
Proof. apply alloc_opt_mono. eauto with aalloc. Qed.
Lemma alloc_opt_parent s a v p : alloc_opt s p -> alloc_opt (ss_parent a v s) p.
Proof. apply alloc_opt_mono. eauto with aalloc. Qed.
Lemma alloc_opt_height s a z p : alloc_opt s p -> alloc_opt (ss_height a z s) p.
Proof. apply alloc_opt_mono. eauto with aalloc. Qed.
Lemma alloc_opt_parent_if s c v p : alloc_opt s p -> alloc_opt (ss_parent_if c v s) p.
Proof. apply alloc_opt_mono. eauto with aalloc. Qed.
Lemma alloc_opt_Some s a : alloc s a -> alloc_opt s (Some a).
Proof. done. Qed.
#[global] Hint Resolve alloc_opt_left alloc_opt_right alloc_opt_parent alloc_opt_height
  alloc_opt_parent_if alloc_opt_Some : aalloc.

(** [vrw] rewrites views of the initial state with the known equations. *)
Ltac vrw := repeat match goal with
  | H : lft ?s ?a = _ |- context [lft ?s ?a] => rewrite H
  | H : rgt ?s ?a = _ |- context [rgt ?s ?a] => rewrite H
  | H : par ?s ?a = _ |- context [par ?s ?a] => rewrite H
  end.
Ltac aal := aview; vrw; eauto 20 with aalloc.
(** [astep] runs the next primitive statement on tree nodes. *)
Ltac astep :=
  first
    [ erewrite bind_Ok by (apply get_left_Ok; aal)
    | erewrite bind_Ok by (apply get_right_Ok; aal)
    | erewrite bind_Ok by (apply get_parent_Ok; aal)
    | erewrite bind_Ok by (apply get_height_Ok; aal)
    | erewrite bind_Ok by (apply set_left_Ok; aal)
    | erewrite bind_Ok by (apply set_right_Ok; aal)
    | erewrite bind_Ok by (apply set_parent_Ok; aal)
    | erewrite bind_Ok by (apply set_height_Ok; aal)
    | erewrite bind_Ok by (apply set_parent_if_Ok; aal)
    | erewrite bind_Ok by (apply recalc_height_Ok; aal)
    | erewrite bind_Ok by (apply deref_Some) ];
  aview; vrw.

(** ** Trees and contexts *)

(** A tree of node addresses with their stored heights. *)
Inductive tree := Leaf | Node (l : tree) (n : loc) (h : Z) (r : tree).

Definition root_of (t : tree) : ptr := match t with Leaf => None | Node _ n _ _ => Some n end.
Definition ht (t : tree) : Z := match t with Leaf => 0%Z | Node _ _ h _ => h end.
Fixpoint elems (t : tree) : list loc :=
  match t with Leaf => [] | Node l n _ r => elems l ++ n :: elems r end.

(** One level of a context: the hole is the left (right) child of [n]. *)
Inductive frame := FL (n : loc) (h : Z) (r : tree) | FR (l : tree) (n : loc) (h : Z).

Definition plug1 (f : frame) (t : tree) : tree :=
  match f with FL n h r => Node t n h r | FR l n h => Node l n h t end.
(** Innermost frame first. *)
Fixpoint plug (fs : list frame) (t : tree) : tree :=
  match fs with [] => t | f :: fs => plug fs (plug1 f t) end.

Definition fnode (f : frame) : loc := match f with FL n _ _ | FR _ n _ => n end.
Definition fheight (f : frame) : Z := match f with FL _ h _ | FR _ _ h => h end.
Definition fsub (f : frame) : tree := match f with FL _ _ r => r | FR l _ _ => l end.
Definition par_of (fs : list frame) : ptr := match fs with [] => None | f :: _ => Some (fnode f) end.
Definition ref_of (fs : list frame) : ref :=
  match fs with [] => RefRoot | FL n _ _ :: _ => RefLeft n | FR _ n _ :: _ => RefRight n end.
Definition felems (f : frame) : list loc := fnode f :: elems (fsub f).
Definition celems (fs : list frame) : list loc := fs ≫= felems.

Lemma plug_app fs1 fs2 t : plug (fs1 ++ fs2) t = plug fs2 (plug fs1 t).
Proof. revert t. induction fs1; intros; cbn; auto. Qed.

Lemma elems_plug fs t : elems (plug fs t) ≡ₚ elems t ++ celems fs.
Proof.
  revert t. induction fs as [|f fs IH]; intros t; cbn [plug].
  - cbn. by rewrite app_nil_r.
  - rewrite IH. change (celems (f :: fs)) with (felems f ++ celems fs).
    destruct f; cbn; solve_Permutation.
Qed.

(** *** The functional reading of iv_avl.c *)

Definition mk (l : tree) (n : loc) (r : tree) : tree :=
  Node l n (u8 (1 + Z.max (ht l) (ht r))) r.
Definition bal (t : tree) : Z :=
  match t with Leaf => 0%Z | Node l _ _ r => (ht r - ht l)%Z end.

Definition f_rotate_left (t : tree) : tree :=
  match t with
  | Node a b _ (Node c d _ e) => mk (mk a b c) d e
  | _ => t
  end.
Definition f_rotate_right (t : tree) : tree :=
  match t with
  | Node (Node a b _ c) d _ e => mk a b (mk c d e)
  | _ => t
  end.
Definition f_rotate_left_right (t : tree) : tree :=
  match t with
  | Node (Node a b _ (Node c d _ e)) f _ g => mk (mk a b c) d (mk e f g)
  | _ => t
  end.
Definition f_rotate_right_left (t : tree) : tree :=
  match t with
  | Node a b _ (Node (Node c d _ e) f _ g) => mk (mk a b c) d (mk e f g)
  | _ => t
  end.

Definition f_rebalance_node (t : tree) : tree :=
  match t with
  | Leaf => Leaf
  | Node l _ _ r =>
      if (bal t =? -2)%Z then
        if (bal l <=? 0)%Z then f_rotate_right t else f_rotate_left_right t
      else if (bal t =? 2)%Z then
        if (bal r <? 0)%Z then f_rotate_right_left t else f_rotate_left t
      else t
  end.

Definition refill (f : frame) (t : tree) : tree :=
  match f with FL n _ r => mk t n r | FR l n _ => mk l n t end.

(** Rebalancing from the parent of the hole that now holds [t]. *)
Fixpoint f_rebalance_path (t : tree) (fs : list frame) : tree :=
  match fs with
  | [] => t
  | f :: fs =>
      let t' := f_rebalance_node (refill f t) in
      if (fheight f =? ht t')%Z then plug fs t' else f_rebalance_path t' fs
  end.

Section f_insert.
Context (compare : loc -> loc -> Z).
Fixpoint f_descend (an : loc) (t : tree) (fs : list frame) : option (list frame) :=
  match t with
  | Leaf => Some fs
  | Node l n h r =>
      let ret := compare an n in
      if (ret <? 0)%Z then f_descend an l (FL n h r :: fs)
      else if (0 <? ret)%Z then f_descend an r (FR l n h :: fs)
      else None
  end.
Definition f_insert (an : loc) (t : tree) : Z * tree :=
  match f_descend an t [] with
  | None => ((-1)%Z, t)
  | Some fs => (0%Z, f_rebalance_path (Node Leaf an 1 Leaf) fs)
  end.
End f_insert.

(** The rightmost (leftmost) node of [Node l n h r]: the frames down to it,
    the node, its height and the child that takes its place. *)
Fixpoint f_rightmost (l : tree) (n : loc) (h : Z) (r : tree) (fs : list frame) :
    list frame * loc * Z * tree :=
  match r with
  | Leaf => (fs, n, h, l)
  | Node l' n' h' r' => f_rightmost l' n' h' r' (FR l n h :: fs)
  end.
Fixpoint f_leftmost (l : tree) (n : loc) (h : Z) (r : tree) (fs : list frame) :
    list frame * loc * Z * tree :=
  match l with
  | Leaf => (fs, n, h, r)
  | Node l' n' h' r' => f_leftmost l' n' h' r' (FL n h r :: fs)
  end.

Definition f_delete (fs : list frame) (l : tree) (h : Z) (r : tree) : tree :=
  match l, r with
  | Leaf, Leaf => f_rebalance_path Leaf fs
  | _, _ =>
      if (ht r <? ht l)%Z then
        match l with
        | Leaf => plug fs Leaf
        | Node l' n' h' r' =>
            let '(path, v, _, child) := f_rightmost l' n' h' r' [] in
            f_rebalance_path child (path ++ FL v h r :: fs)
        end
      else
        match r with
        | Leaf => plug fs Leaf
        | Node l' n' h' r' =>
            let '(path, v, _, child) := f_leftmost l' n' h' r' [] in
            f_rebalance_path child (path ++ FR l v h :: fs)
        end
  end.

(** ** Representation *)

(** The values of a [uint8_t]. *)
Definition u8_ok (z : Z) : Prop := (0 <= z < 256)%Z.

Fixpoint rep (s : tree_st) (p : ptr) (t : tree) : Prop :=
  match t with
  | Leaf => True
  | Node l n h r =>
      (alloc s n /\ lft s n = root_of l /\ rgt s n = root_of r /\ par s n = p /\ hgt s n = h /\
       u8_ok h) /\
      rep s (Some n) l /\ rep s (Some n) r
  end.

Fixpoint rctx (s : tree_st) (fs : list frame) (p : ptr) : Prop :=
  match fs with
  | [] => root s = p
  | f :: fs =>
      (alloc s (fnode f) /\
       lft s (fnode f) = match f with FL _ _ _ => p | FR l _ _ => root_of l end /\
       rgt s (fnode f) = match f with FL _ _ r => root_of r | FR _ _ _ => p end /\
       par s (fnode f) = par_of fs /\ hgt s (fnode f) = fheight f /\ u8_ok (fheight f)) /\
      rep s (Some (fnode f)) (fsub f) /\ rctx s fs (Some (fnode f))
  end.

(** [s] stores exactly the tree [t]. *)
Definition tree_rep (s : tree_st) (t : tree) : Prop :=
  root s = root_of t /\ rep s None t /\ NoDup (elems t).

Lemma rep_plug s fs t :
  root s = root_of (plug fs t) /\ rep s None (plug fs t) <->
  rctx s fs (root_of t) /\ rep s (par_of fs) t.
Proof.
  revert t. induction fs as [|f fs IH]; intros t; cbn [plug rctx par_of]; [tauto|].
  rewrite IH. destruct f; cbn; tauto.
Qed.

(** The two states agree on every node outside [A] and on the root. *)
Definition agree (A : list loc) (s s' : tree_st) : Prop :=
  root s' = root s /\ (forall a, alloc s a -> alloc s' a) /\
  forall a, a ∉ A -> lft s' a = lft s a /\ rgt s' a = rgt s a /\
                     par s' a = par s a /\ hgt s' a = hgt s a.

Lemma u8_range z : u8_ok (u8 z).
Proof. by apply Z.mod_pos_bound. Qed.
#[global] Hint Resolve u8_range : aalloc.

Lemma rep_reparent s s' p p' t :
  rep s p t -> NoDup (elems t) -> (forall a, alloc s a -> alloc s' a) ->
  (forall a, a ∈ elems t -> lft s' a = lft s a /\ rgt s' a = rgt s a /\ hgt s' a = hgt s a) ->
  (forall a, a ∈ elems t -> par s' a = if decide (root_of t = Some a) then p' else par s a) ->
  rep s' p' t.
Proof.
  revert p p'. induction t as [|l IHl n h r IHr]; intros p p' Hr Hnd Ha Hf Hp; [done|].
  cbn in *. destruct Hr as ((?&?&?&?&?&?)&Hl&Hr).
  apply NoDup_app in Hnd as (Hndl&Hnl&Hndr). apply NoDup_cons in Hndr as [Hnr Hndr].
  assert (forall (q : tree) x, rep s (Some n) q -> root_of q = Some x -> par s x = Some n) as Hpar.
  { intros [|] x Hq [= <-]. cbn in Hq. tauto. }
  destruct (Hf n) as (?&?&?); [set_solver|].
  split; [split_and?; try congruence; eauto|split].
  - rewrite Hp, decide_True by (done || set_solver). done.
  - apply (IHl (Some n)); [done..| |]; intros a Hin; [apply Hf; set_solver|].
    rewrite Hp by set_solver. rewrite decide_False by (intros [= ->]; set_solver).
    case_decide; eauto.
  - apply (IHr (Some n)); [done..| |]; intros a Hin; [apply Hf; set_solver|].
    rewrite Hp by set_solver. rewrite decide_False by (intros [= ->]; set_solver).
    case_decide; eauto.
Qed.

Lemma rep_agree A s s' p t :
  rep s p t -> agree A s s' -> (forall a, a ∈ elems t -> a ∉ A) -> rep s' p t.
Proof.
  intros Hr (_&Ha&Hg) Hd. revert p Hr. induction t as [|l IHl n h r IHr]; intros p Hr; [done|].
  cbn in *. destruct Hr as ((?&?&?&?&?&?)&Hl&Hr).
  destruct (Hg n) as (?&?&?&?); [apply Hd; set_solver|].
  split; [split_and?; try congruence; eauto|split]; [apply IHl|apply IHr]; try done;
    intros a ?; apply Hd; set_solver.
Qed.

(** Facts about the root of a represented subtree. *)
Lemma rep_root_alloc s p t : rep s p t -> alloc_opt s (root_of t).
Proof. destruct t; cbn; tauto. Qed.
Lemma rep_hv s p t : rep s p t -> hv s (root_of t) = ht t.
Proof. destruct t; cbn; tauto. Qed.
Lemma rep_ht s p t : rep s p t -> u8_ok (ht t).
Proof. destruct t; cbn; [unfold u8_ok; lia|tauto]. Qed.
Lemma root_of_elem t a : root_of t = Some a -> a ∈ elems t.
Proof. destruct t; cbn; [done|]. intros [= ->]. set_solver. Qed.
Lemma root_of_ne t a : a ∉ elems t -> root_of t <> Some a.
Proof. intros Ha E. by apply Ha, root_of_elem. Qed.
#[global] Hint Resolve rep_root_alloc : aalloc.

Definition ref_outside (r : ref) (A : list loc) : Prop :=
  match r with RefRoot => True | RefLeft a | RefRight a => a ∉ A end.

Lemma ref_alloc_mono r s s' :
  (forall a, alloc s a -> alloc s' a) -> ref_alloc r s -> ref_alloc r s'.
Proof. destruct r; cbn; auto. Qed.

Lemma agree_ss_ref A r v s s' : agree A s s' -> agree A (ss_ref r v s) (ss_ref r v s').
Proof.
  intros (Hr&Ha&Hg). split_and!.
  - destruct r; cbn; congruence.
  - destruct r as [|x|x]; cbn; [done|..]; intros y Hy; unfold alloc, upd in *; cbn in *;
      rewrite lookup_insert_is_Some in *; destruct Hy as [->|[? Hy]]; auto.
  - intros a Hin. destruct (Hg a Hin) as (?&?&?&?).
    destruct r as [|x|x]; cbn [ss_ref]; [done|..]; aview; split_and!; try done;
      by case_decide.
Qed.

Lemma rep_ss_ref r v s p t : ref_outside r (elems t) -> rep s p t -> rep (ss_ref r v s) p t.
Proof.
  intros Ho Hr. destruct r as [|x|x].
  - clear Ho. revert p Hr. induction t; cbn; [done|]. intros p (Hn&?&?). split; [exact Hn|auto].
  - eapply (rep_agree [x]); [done| |set_solver]. split_and!; [done|eauto with aalloc|].
    intros a Ha. cbn [ss_ref]. assert (x <> a) by set_solver. split_and!; adec.
  - eapply (rep_agree [x]); [done| |set_solver]. split_and!; [done|eauto with aalloc|].
    intros a Ha. cbn [ss_ref]. assert (x <> a) by set_solver. split_and!; adec.
Qed.

(** The last statement of every rotation. *)
Lemma write_ref_rep rf x s s1 p A t :
  rep s1 p t -> agree A s s1 -> (forall a, a ∈ elems t -> a ∈ A) ->
  ref_alloc rf s -> ref_outside rf A ->
  exists s', write_ref rf (Some x) s1 = Ok (tt, s') /\ rep s' p t /\
             agree A (ss_ref rf (Some x) s) s'.
Proof.
  intros Hr Hg Hin Hra Hout. rewrite write_ref_Ok by (eapply ref_alloc_mono; [apply Hg|done]).
  eexists; split; [done|]. split; [|by apply agree_ss_ref].
  apply rep_ss_ref; [|done]. destruct rf; cbn in *; [done|intros ?; auto..].
Qed.

(** Permutations of the nodes of a tree keep the side conditions of [write_ref_rep]. *)
Ltac elems_in := let Ha := fresh in intros ? Ha; cbn in Ha |- *; set_solver +Ha.

(** *** Disjointness facts of a tree, from [NoDup] of its nodes *)
Definition disj (l1 l2 : list loc) : Prop := forall x, x ∈ l1 -> x ∉ l2.

Lemma NoDup_node l n r : NoDup (l ++ n :: r) ->
  NoDup l /\ NoDup r /\ (n ∉ l) /\ (n ∉ r) /\ disj l r /\ disj r l.
Proof.
  rewrite NoDup_app, NoDup_cons. intros (?&Hx&?&?). unfold disj. split_and!; try done.
  all: set_solver +Hx.
Qed.
Lemma disj_node_r l a n b : disj l (a ++ n :: b) -> disj l a /\ (n ∉ l) /\ disj l b.
Proof. unfold disj. set_solver. Qed.
Lemma disj_node_l l a n b : disj (a ++ n :: b) l -> disj a l /\ (n ∉ l) /\ disj b l.
Proof. unfold disj. set_solver. Qed.
Lemma nin_node (x n : loc) a b : x ∉ a ++ n :: b -> (x ∉ a) /\ x <> n /\ (x ∉ b).
Proof. set_solver. Qed.

Ltac nodup_facts :=
  repeat match goal with
  | H : NoDup (_ ++ _ :: _) |- _ => apply NoDup_node in H; destruct_and! H
  | H : disj _ (_ ++ _ :: _) |- _ => apply disj_node_r in H; destruct_and! H
  | H : disj (_ ++ _ :: _) _ |- _ => apply disj_node_l in H; destruct_and! H
  | H : _ ∉ _ ++ _ :: _ |- _ => apply nin_node in H; destruct_and! H
  end;
  repeat match goal with
  | H : ?x ∉ elems ?t |- _ =>
      lazymatch goal with
      | _ : root_of t <> Some x |- _ => fail
      | _ => pose proof (root_of_ne t x H)
      end
  end.

Lemma rep_root_par s p t a : rep s p t -> root_of t = Some a -> par s a = p.
Proof. destruct t; cbn; [done|]. intros (?&_) [= ->]. tauto. Qed.

(** [sub_frame H]: a subtree that the code left alone, up to its parent pointer. *)
Ltac sub_frame :=
  match goal with H : rep ?s _ ?t |- rep _ _ ?t =>
    eapply rep_reparent; [exact H|done|eauto 20 with aalloc|..];
    let a := fresh "a" in let Ha := fresh "Ha" in intros a Ha;
    pose proof (rep_root_par s _ t a H);
    repeat match goal with
    | Hn : ?x ∉ elems t |- _ =>
        lazymatch goal with
        | _ : x <> a |- _ => fail
        | _ => assert (x <> a) by (intros ->; exact (Hn Ha))
        end
    | Hn : disj (elems t) (elems ?u) |- _ =>
        lazymatch goal with
        | _ : root_of u <> Some a |- _ => fail
        | _ => pose proof (root_of_ne u a (Hn a Ha))
        end
    end;
    aview; first [ by split_and! | by repeat case_decide; auto ]
  end.

(** [rot_rep]: the state after a rotation represents the rotated tree. *)
Ltac rot_rep :=
  cbn [mk rep];
  repeat lazymatch goal with |- _ /\ _ => split end;
  lazymatch goal with
  | |- rep _ _ _ => sub_frame
  | |- _ => cbn [ht mk root_of]; aal; done
  end.

(** What a rotation at [rf] must do. *)
Definition rot_spec (op : ref -> M tree_st unit) (t t' : tree) : Prop :=
  forall s rf p, ref_view rf s = root_of t -> ref_alloc rf s -> rep s p t ->
    NoDup (elems t) -> ref_outside rf (elems t) ->
    exists s', op rf s = Ok (tt, s') /\ rep s' p t' /\
      agree (elems t) (ss_ref rf (root_of t') s) s'.

Ltac rot_start :=
  intros s rf p Hrf Hra Hrep Hnd Hout; cbn in Hrf, Hrep, Hnd, Hout; destruct_and! Hrep;
  subst; nodup_facts.

(** The nodes outside the rotated tree are untouched. *)
Ltac rot_agree :=
  split_and!; [ by aview | eauto 20 with aalloc
  | let y := fresh "y" in let Hy := fresh "Hy" in intros y Hy; cbn [elems] in Hy;
    nodup_facts; aview; by split_and! ].
Ltac rot_end :=
  repeat match goal with H : rep ?s _ ?t |- context [hv ?s (root_of ?t)] =>
    rewrite (rep_hv _ _ _ H) end;
  eapply write_ref_rep;
  [ rot_rep | rot_agree | elems_in | done | done ].

Lemma rotate_left_rep a b hb c d hd e :
  rot_spec rotate_left (Node a b hb (Node c d hd e)) (mk (mk a b c) d e).
Proof.
  rot_start. unfold rotate_left. mrun (read_ref_Ok _ _ Hra). rewrite Hrf.
  do 12 astep. rot_end.
Qed.

Lemma rotate_right_rep a b hb c d hd e :
  rot_spec rotate_right (Node (Node a b hb c) d hd e) (mk a b (mk c d e)).
Proof.
  rot_start. unfold rotate_right. mrun (read_ref_Ok _ _ Hra). rewrite Hrf.
  do 12 astep. rot_end.
Qed.

Lemma rotate_left_right_rep a b hb c d hd e f hf g :
  rot_spec rotate_left_right (Node (Node a b hb (Node c d hd e)) f hf g)
    (mk (mk a b c) d (mk e f g)).
Proof.
  rot_start. unfold rotate_left_right. mrun (read_ref_Ok _ _ Hra). rewrite Hrf.
  do 20 astep. rot_end.
Qed.

Lemma rotate_right_left_rep a b hb c d hd e f hf g :
  rot_spec rotate_right_left (Node a b hb (Node (Node c d hd e) f hf g))
    (mk (mk a b c) d (mk e f g)).
Proof.
  rot_start. unfold rotate_right_left. mrun (read_ref_Ok _ _ Hra). rewrite Hrf.
  do 20 astep. rot_end.
Qed.
