(* ===== verification/AvlPath.v ===== *)
(** * Rebalancing, insertion and deletion of iv_avl.c on the heap

    The loops of iv_avl.c follow parent pointers; here each is shown to
    compute the function of Avl.v on the represented tree. *)

From S2P Require Import Prelude Avl.

(** ** The node the rotations are chosen at *)

Lemma agree_ref_same A r v s :
  ref_view r s = v -> ref_alloc r s -> agree A (ss_ref r v s) s.
Proof.
  intros <- Hra. destruct r as [|a|a]; cbn [ss_ref ref_view ref_alloc] in *.
  - by split_and!.
  - split_and!; [done| |].
    + intros b. unfold alloc, ss_left, upd. cbn. rewrite lookup_insert_is_Some.
      intros [->|[]]; done.
    + intros b _. aview. split_and!; try done. case_decide; congruence.
  - split_and!; [done| |].
    + intros b. unfold alloc, ss_right, upd. cbn. rewrite lookup_insert_is_Some.
      intros [->|[]]; done.
    + intros b _. aview. split_and!; try done. case_decide; congruence.
Qed.

Lemma rep_balance s p l n h r :
  rep s p (Node l n h r) -> balance (Some n) s = Ok (bal (Node l n h r), s).
Proof.
  cbn [rep]. intros ((?&Hl&Hr&?)&Hrl&Hrr).
  rewrite balance_Ok; [|done|rewrite Hl; eauto with aalloc|rewrite Hr; eauto with aalloc].
  by rewrite Hl, Hr, (rep_hv _ _ _ Hrl), (rep_hv _ _ _ Hrr).
Qed.

Lemma rebalance_node_rep l n h r :
  rot_spec rebalance_node (Node l n h r) (f_rebalance_node (Node l n h r)).
Proof.
  intros s rf p Hrf Hra Hrep Hnd Hout. unfold rebalance_node.
  mrun (read_ref_Ok _ _ Hra). rewrite Hrf. cbn [root_of].
  mrun (rep_balance _ _ _ _ _ _ Hrep). mrun (@deref_Some tree_st _ n s).
  pose proof Hrep as ((?&Hl&Hr&_)&Hrl&Hrr).
  pose proof (rep_ht _ _ _ Hrl) as Hhl. pose proof (rep_ht _ _ _ Hrr) as Hhr.
  unfold u8_ok in Hhl, Hhr. cbn [f_rebalance_node].
  destruct (Z.eqb_spec (bal (Node l n h r)) (-2)) as [Hb|_].
  { cbn [bal] in Hb. destruct l as [|a b hb c]; [cbn in *; lia|].
    mrun (get_left_Ok s n ltac:(done)). rewrite Hl. cbn [root_of].
    mrun (rep_balance _ _ _ _ _ _ Hrl). destruct (Z.leb_spec (bal (Node a b hb c)) 0) as [?|Hb2].
    - by apply rotate_right_rep.
    - destruct c as [|c d hd e].
      { pose proof Hrl as (_&Hra'&_). pose proof (rep_ht _ _ _ Hra'). unfold u8_ok in *. cbn in *. lia. }
      by apply rotate_left_right_rep. }
  destruct (Z.eqb_spec (bal (Node l n h r)) 2) as [Hb|_].
  { cbn [bal] in Hb. destruct r as [|a b hb c]; [cbn in *; lia|].
    mrun (get_right_Ok s n ltac:(done)). rewrite Hr. cbn [root_of].
    mrun (rep_balance _ _ _ _ _ _ Hrr). destruct (Z.ltb_spec (bal (Node a b hb c)) 0) as [Hb2|?].
    - destruct a as [|a d hd e].
      { pose proof Hrr as (_&_&Hra'). pose proof (rep_ht _ _ _ Hra'). unfold u8_ok in *. cbn in *. lia. }
      by apply rotate_right_left_rep.
    - by apply rotate_left_rep. }
  exists s. split_and!; [done|done|]. by apply agree_ref_same.
Qed.

(** ** In-order contents are untouched *)

Lemma elems_mk l n r : elems (mk l n r) = elems l ++ n :: elems r.
Proof. done. Qed.

Lemma elems_f_rebalance_node t : elems (f_rebalance_node t) = elems t.
Proof.
  destruct t as [|l n h r]; [done|]. cbn [f_rebalance_node].
  repeat case_match; try done; cbn [f_rotate_right f_rotate_left f_rotate_left_right
    f_rotate_right_left]; repeat case_match; try done; subst; cbn [elems mk]; rewrite <-?app_assoc; cbn [app];
    rewrite <-?app_assoc; done.
Qed.

Lemma elems_refill f t : elems (refill f t) = elems (plug1 f t).
Proof. by destruct f. Qed.

Lemma elems_plug_eq fs t t' : elems t = elems t' -> elems (plug fs t) = elems (plug fs t').
Proof.
  revert t t'. induction fs as [|f fs IH]; intros t t' E; cbn; [done|].
  apply IH. destruct f; cbn; by rewrite E.
Qed.

Lemma elems_f_rebalance_path t fs : elems (f_rebalance_path t fs) = elems (plug fs t).
Proof.
  revert t. induction fs as [|f fs IH]; intros t; cbn [f_rebalance_path plug]; [done|].
  case_match; [|rewrite IH]; apply elems_plug_eq;
    by rewrite elems_f_rebalance_node, elems_refill.
Qed.

(** ** Contexts on the heap *)

Lemma rctx_agree A s s' fs p :
  rctx s fs p -> agree A s s' -> (forall a, a ∈ celems fs -> a ∉ A) -> rctx s' fs p.
Proof.
  revert p. induction fs as [|f fs IH]; intros p Hr Hg Hd; cbn [rctx] in *.
  - destruct Hg as [-> _]. done.
  - change (celems (f :: fs)) with (felems f ++ celems fs) in Hd. unfold felems in Hd.
    destruct Hr as ((?&?&?&?&?&?)&Hs&Hr). pose proof Hg as (_&Ha&Hv).
    destruct (Hv (fnode f)) as (?&?&?&?); [apply Hd; set_solver|].
    split; [split_and!; try congruence; auto|split].
    + eapply rep_agree; [done..|]. intros a ?. apply Hd. set_solver.
    + apply IH; [done..|]. intros a ?. apply Hd. set_solver.
Qed.

(** Writing the child pointer that the context's hole stands for. *)
Lemma rctx_write A s s' fs p p' :
  rctx s fs p -> agree A (ss_ref (ref_of fs) p' s) s' -> NoDup (celems fs) ->
  (forall a, a ∈ celems fs -> a ∉ A) -> rctx s' fs p'.
Proof.
  destruct fs as [|f fs]; cbn [rctx].
  { intros _ (Hr&_) _ _. by rewrite Hr. }
  change (celems (f :: fs)) with (felems f ++ celems fs). unfold felems. cbn [app].
  intros ((?&Hl&Hr&?&?&?)&Hs&Hc) Hg Hnd Hd.
  assert (agree (fnode f :: A) s s') as Hg'.
  { destruct Hg as (Hr0&Ha&Hv). split_and!.
    - destruct f; cbn in *; congruence.
    - intros a Ha'. apply Ha, alloc_ref, Ha'.
    - intros a Ha'. assert (fnode f <> a) by set_solver. assert (a ∉ A) as HaA by set_solver.
      destruct (Hv a HaA) as (->&->&->&->).
      destruct f; cbn [ref_of ss_ref fnode] in *; aview; by split_and!. }
  apply NoDup_cons in Hnd as [Hn _].
  assert (forall a, a ∈ fnode f :: A -> a = fnode f \/ a ∈ A) as Hout.
  { intros a Ha'. by apply elem_of_cons in Ha'. }
  destruct Hg as (_&Ha&Hv). destruct (Hv (fnode f)) as (Hv1&Hv2&Hv3&Hv4); [apply Hd; set_solver|].
  split; [|split].
  - rewrite Hv1, Hv2, Hv3, Hv4.
    destruct f; cbn [ref_of ss_ref fnode fheight] in *; aview; split_and!; try done;
      apply Ha; eauto with aalloc.
  - eapply rep_agree; [done..|]. intros a Ha' Hin. apply Hout in Hin as [->|Hin].
    + apply Hn. set_solver +Ha'.
    + eapply Hd; [|done]. set_solver +Ha'.
  - eapply rctx_agree; [done..|]. intros a Ha' Hin. apply Hout in Hin as [->|Hin].
    + apply Hn. set_solver +Ha'.
    + eapply Hd; [|done]. set_solver +Ha'.
Qed.

Lemma rctx_ref s fs p : rctx s fs p -> ref_view (ref_of fs) s = p /\ ref_alloc (ref_of fs) s.
Proof. destruct fs as [|[] fs]; cbn; tauto. Qed.

Lemma rctx_find_reference s fs t n :
  rctx s fs (root_of t) -> rep s (par_of fs) t -> root_of t = Some n ->
  NoDup (elems (plug fs t)) -> find_reference n s = Ok (ref_of fs, s).
Proof.
  intros Hc Hr Hn Hnd. pose proof (rep_root_par _ _ _ _ Hr Hn) as Hp.
  pose proof (rep_root_alloc _ _ _ Hr) as Ha. rewrite Hn in Ha. cbn in Ha.
  unfold find_reference. mrun (get_parent_Ok s n Ha). rewrite Hp.
  destruct fs as [|f fs]; cbn [par_of]; [done|].
  cbn [rctx] in Hc. destruct Hc as ((?&Hl&_)&_).
  mrun (get_left_Ok s (fnode f) ltac:(done)). rewrite Hl.
  rewrite elems_plug in Hnd. change (celems (f :: fs)) with (felems f ++ celems fs) in Hnd.
  destruct f as [m h r|l m h]; cbn [fnode ref_of] in *.
  - by rewrite Hn, ptr_eqb_refl.
  - rewrite ptr_eqb_ne; [done|]. intros E%root_of_elem. apply root_of_elem in Hn.
    apply NoDup_app in Hnd as (_&Hd&_). eapply Hd; [done|]. cbn. set_solver.
Qed.

Lemma recalc_height_rep s p l n h r :
  rep s p (Node l n h r) -> NoDup (elems (Node l n h r)) ->
  exists s', recalc_height n s = Ok (tt, s') /\ rep s' p (mk l n r) /\ agree [n] s s'.
Proof.
  intros Hrep Hnd. pose proof Hrep as ((?&Hl&Hr&?&?&?)&Hrl&Hrr).
  rewrite recalc_height_Ok; [|done|rewrite Hl; eauto with aalloc|rewrite Hr; eauto with aalloc].
  rewrite Hl, Hr, (rep_hv _ _ _ Hrl), (rep_hv _ _ _ Hrr).
  eexists; split; [done|].
  assert (agree [n] s (ss_height n (u8 (1 + ht l `max` ht r)) s)) as Hg.
  { split_and!; [done|eauto with aalloc|]. intros a Ha. assert (n <> a) by set_solver.
    split_and!; adec. }
  split; [|done]. cbn [elems] in Hnd. apply NoDup_node in Hnd as (_&_&?&?&_).
  cbn [mk rep]. split; [split_and!; aal|split]; (eapply rep_agree; [done..|]);
    intros a Ha ->%list_elem_of_singleton; done.
Qed.

Lemma root_of_nonempty t : elems t <> [] -> exists n, root_of t = Some n.
Proof. destruct t; cbn; [done|eauto]. Qed.

(** Nothing but the nodes of the tree changes. *)
Definition agree_nodes (A : list loc) (s s' : tree_st) : Prop :=
  (forall a, alloc s a -> alloc s' a) /\
  forall a, a ∉ A -> lft s' a = lft s a /\ rgt s' a = rgt s a /\
                     par s' a = par s a /\ hgt s' a = hgt s a.

Lemma agree_nodes_trans A B C s1 s2 s3 :
  agree_nodes A s1 s2 -> agree_nodes B s2 s3 ->
  (forall a, a ∈ A \/ a ∈ B -> a ∈ C) -> agree_nodes C s1 s3.
Proof.
  intros [Ha1 Hv1] [Ha2 Hv2] Hi. split; [auto|]. intros a Ha.
  destruct (Hv1 a) as (<-&<-&<-&<-); [intros ?; apply Ha; auto|].
  apply Hv2. intros ?. apply Ha. auto.
Qed.
Lemma agree_agree_nodes A s s' : agree A s s' -> agree_nodes A s s'.
Proof. intros (_&?&?). by split. Qed.
Lemma agree_nodes_refl A s : agree_nodes A s s.
Proof. by split. Qed.

Lemma agree_ref_nodes A r p s s' :
  agree A (ss_ref r p s) s' -> (forall a, r = RefLeft a \/ r = RefRight a -> a ∈ A) ->
  agree_nodes A s s'.
Proof.
  intros (_&Ha&Hv) Hr. split; [eauto with aalloc|]. intros a Hin.
  destruct (Hv a Hin) as (->&->&->&->).
  destruct r as [|x|x]; cbn [ss_ref]; [done|..];
    (assert (x <> a) by (intros ->; apply Hin, Hr; auto)); aview; by split_and!.
Qed.

Lemma agree_weaken A B s s' : agree A s s' -> (forall a, a ∈ A -> a ∈ B) -> agree B s s'.
Proof. intros (?&?&Hv) Hi. split_and!; [done..|]. intros a Ha. apply Hv. auto. Qed.

Lemma ref_of_celems fs a : ref_of fs = RefLeft a \/ ref_of fs = RefRight a -> a ∈ celems fs.
Proof. destruct fs as [|[] fs]; cbn; intros [|]; simplify_eq; set_solver. Qed.
Lemma ref_of_outside fs A : (forall a, a ∈ celems fs -> a ∉ A) -> ref_outside (ref_of fs) A.
Proof. destruct fs as [|[] fs]; cbn; [done|..]; intros H; apply H; set_solver. Qed.

Lemma agree_nodes_weaken A B s s' :
  agree_nodes A s s' -> (forall a, a ∈ A -> a ∈ B) -> agree_nodes B s s'.
Proof. intros [? Hv] Hi. split; [done|]. intros a Ha. apply Hv. auto. Qed.

Lemma celems_cons f fs : celems (f :: fs) = felems f ++ celems fs.
Proof. done. Qed.

(** The nodes of a plugged tree, split between the hole and the context. *)
Lemma NoDup_plug fs t : NoDup (elems (plug fs t)) ->
  NoDup (elems t) /\ NoDup (celems fs) /\ (forall a, a ∈ celems fs -> a ∉ elems t).
Proof.
  rewrite elems_plug, NoDup_app. intros (?&Hd&?). split_and!; [done..|].
  intros a Hc Ht. by eapply Hd.
Qed.
Lemma elem_of_plug fs t a : a ∈ elems (plug fs t) <-> a ∈ elems t \/ a ∈ celems fs.
Proof. rewrite elems_plug. apply elem_of_app. Qed.

(** ** The loop of [rebalance_path] *)

(** One turn of the loop: the node [n] is recomputed and rebalanced. *)
Lemma rebalance_turn s fs l n h r :
  let t := Node l n h r in let t' := f_rebalance_node (mk l n r) in
  rctx s fs (Some n) -> rep s (par_of fs) t -> NoDup (elems (plug fs t)) ->
  exists s1 s' m,
    recalc_height n s = Ok (tt, s1) /\ find_reference n s1 = Ok (ref_of fs, s1) /\
    rebalance_node (ref_of fs) s1 = Ok (tt, s') /\
    root_of t' = Some m /\ rctx s' fs (Some m) /\ rep s' (par_of fs) t' /\
    agree_nodes (elems (plug fs t)) s s'.
Proof.
  intros t t' Hc Hr Hnd. destruct (NoDup_plug _ _ Hnd) as (Hndt&Hndc&Hd).
  assert (elems (mk l n r) = elems t) as Ee by done.
  destruct (recalc_height_rep s (par_of fs) l n h r) as (s1&He1&Hr1&Hg1); [done..|].
  assert (rctx s1 fs (Some n)) as Hc1.
  { eapply rctx_agree; [done..|]. intros a Ha ->%list_elem_of_singleton.
    eapply Hd; [done|]. cbn. set_solver. }
  assert (find_reference n s1 = Ok (ref_of fs, s1)) as Hf.
  { apply (rctx_find_reference s1 fs (mk l n r) n); try done.
    by rewrite (elems_plug_eq fs (mk l n r) t). }
  destruct (rctx_ref _ _ _ Hc1) as [Hrv Hra].
  destruct (rebalance_node_rep l n (u8 (1 + Z.max (ht l) (ht r))) r s1 (ref_of fs) (par_of fs))
    as (s'&He2&Hr2&Hg2); [done..|by apply ref_of_outside|].
  destruct (root_of_nonempty t') as [m Hm].
  { unfold t'. rewrite elems_f_rebalance_node. cbn. by destruct (elems l). }
  exists s1, s', m. split_and!; try done.
  - eapply (rctx_write (elems (mk l n r))); [exact Hc1| |done|done]. by rewrite <-Hm.
  - eapply (agree_nodes_trans [n] (elems t ++ celems fs)).
    + by apply agree_agree_nodes.
    + eapply agree_ref_nodes; [eapply agree_weaken; [exact Hg2|]|].
      * intros a Ha. apply elem_of_app. by left.
      * intros a Ha. apply elem_of_app. right. by apply ref_of_celems.
    + intros a Ha. rewrite elem_of_plug. rewrite elem_of_app in Ha.
      destruct Ha as [->%list_elem_of_singleton|]; [|done]. left. cbn. set_solver.
Qed.

Lemma rebalance_path_loop_refines fs t fuel s :
  rctx s fs (root_of t) -> rep s (par_of fs) t -> NoDup (elems (plug fs t)) ->
  length fs < fuel ->
  exists s', rebalance_path_loop fuel (par_of fs) s = Ok (tt, s') /\
    tree_rep s' (f_rebalance_path t fs) /\ agree_nodes (elems (plug fs t)) s s'.
Proof.
  revert t fuel s. induction fs as [|f fs IH]; intros t fuel s Hc Hr Hnd Hf;
    (destruct fuel as [|fuel]; [cbn in Hf; lia|]); cbn [rebalance_path_loop par_of].
  { exists s. split_and!; [done| |apply agree_nodes_refl]. by split_and!. }
  pose proof (proj2 (rep_plug s (f :: fs) t) (conj Hc Hr)) as Hp.
  cbn [plug] in Hp. apply rep_plug in Hp as [Hc0 Hr0].
  assert (exists l r, plug1 f t = Node l (fnode f) (fheight f) r /\ refill f t = mk l (fnode f) r)
    as (l&r&E1&E2) by (destruct f; cbn; eauto).
  change (elems (plug (f :: fs) t)) with (elems (plug fs (plug1 f t))) in *. rewrite E1 in *.
  destruct (rebalance_turn s fs l (fnode f) (fheight f) r)
    as (s1&s2&m&He1&Hf1&He2&Hm&Hc2&Hr2&Hg2); [done..|].
  pose proof Hr0 as ((Halloc&_&_&_&Hh&_)&_&_).
  mrun (get_height_Ok s (fnode f) Halloc). rewrite Hh. mrun He1. mrun Hf1. mrun He2.
  destruct (rctx_ref _ _ _ Hc2) as [Hrv Hra]. mrun (read_ref_Ok _ _ Hra). rewrite Hrv.
  mrun (@deref_Some tree_st _ m s2).
  pose proof (rep_root_alloc _ _ _ Hr2) as Hma. rewrite Hm in Hma.
  mrun (get_height_Ok s2 m Hma).
  pose proof (rep_hv _ _ _ Hr2) as Hhm. rewrite Hm in Hhm. cbn [hv] in Hhm. rewrite Hhm.
  cbn [f_rebalance_path]. rewrite E2. set (t' := f_rebalance_node (mk l (fnode f) r)) in *.
  assert (elems (plug fs t') = elems (plug fs (Node l (fnode f) (fheight f) r))) as Ee.
  { apply elems_plug_eq. unfold t'. by rewrite elems_f_rebalance_node. }
  destruct (fheight f =? ht t')%Z.
  - exists s2. split_and!; [done| |done]. rewrite <-Hm in Hc2.
    pose proof (proj2 (rep_plug s2 fs t') (conj Hc2 Hr2)) as [? ?].
    split_and!; [done..|]. by rewrite Ee.
  - mrun (get_parent_Ok s2 m Hma). rewrite (rep_root_par _ _ _ _ Hr2 Hm).
    rewrite <-Hm in Hc2.
    destruct (IH t' fuel s2) as (s3&He3&Ht3&Hg3); [done..|by rewrite Ee|cbn in Hf; lia|].
    exists s3. split_and!; [done..|]. rewrite Ee in Hg3.
    eapply agree_nodes_trans; [done..|]. tauto.
Qed.

(** The number of nodes bounds the depth. *)
Lemma length_nodes s p t : rep s p t -> NoDup (elems t) -> length (elems t) <= size (nodes s).
Proof.
  intros Hr Hnd. transitivity (size (list_to_set (elems t) : gset loc)).
  { by rewrite size_list_to_set. }
  rewrite <-size_dom. apply subseteq_size. intros a Ha%elem_of_list_to_set.
  apply elem_of_dom. revert p Hr Ha. clear. induction t as [|l IHl n h r IHr]; cbn; [set_solver|].
  intros p ((?&_)&?&?) [?|[->|?]%elem_of_cons]%elem_of_app; eauto.
Qed.

Lemma length_ctx fs : length fs <= length (celems fs).
Proof.
  induction fs as [|f fs IH]; [done|]. rewrite celems_cons, length_app. cbn in *. lia.
Qed.

Lemma ctx_bound s fs t :
  rctx s fs (root_of t) -> rep s (par_of fs) t -> NoDup (elems (plug fs t)) ->
  length fs + length (elems t) <= size (nodes s).
Proof.
  intros Hc Hr Hnd. pose proof (proj2 (rep_plug s fs t) (conj Hc Hr)) as [_ Hp].
  pose proof (length_nodes _ _ _ Hp Hnd) as Hl. pose proof (length_ctx fs).
  rewrite elems_plug, length_app in Hl. lia.
Qed.

Lemma rebalance_path_refines fs t s :
  rctx s fs (root_of t) -> rep s (par_of fs) t -> NoDup (elems (plug fs t)) ->
  exists s', rebalance_path (par_of fs) s = Ok (tt, s') /\
    tree_rep s' (f_rebalance_path t fs) /\ agree_nodes (elems (plug fs t)) s s'.
Proof.
  intros Hc Hr Hnd. unfold rebalance_path, loop_bound.
  pose proof (ctx_bound _ _ _ Hc Hr Hnd).
  destruct (rebalance_path_loop_refines fs t (S (S (size (nodes s)))) s) as (s'&?&?&?);
    [done..|lia|]. by exists s'.
Qed.

(** ** In-order contents of a plugged tree *)
Fixpoint cleft (fs : list frame) : list loc :=
  match fs with
  | [] => []
  | FL _ _ _ :: fs => cleft fs
  | FR l n _ :: fs => cleft fs ++ elems l ++ [n]
  end.
Fixpoint cright (fs : list frame) : list loc :=
  match fs with
  | [] => []
  | FL n _ r :: fs => n :: elems r ++ cright fs
  | FR _ _ _ :: fs => cright fs
  end.

Lemma elems_plug_lr fs t : elems (plug fs t) = cleft fs ++ elems t ++ cright fs.
Proof.
  revert t. induction fs as [|[n h r|l n h] fs IH]; intros t; cbn [plug cleft cright];
    [by rewrite app_nil_r|..]; rewrite IH; cbn [plug1 elems];
    rewrite <-!app_assoc; cbn [app]; by rewrite <-?app_assoc.
Qed.

(** ** Insertion *)
Section insert.
Context (compare : loc -> loc -> Z).

Lemma f_descend_plug an t fs fs' :
  f_descend compare an t fs = Some fs' -> plug fs' Leaf = plug fs t.
Proof.
  revert fs. induction t as [|l IHl n h r IHr]; intros fs; cbn [f_descend]; [by intros [= ->]|].
  repeat case_match; intros E; [by apply IHl in E|by apply IHr in E|done].
Qed.

Lemma insert_descend_refines an t fs fuel s :
  rctx s fs (root_of t) -> rep s (par_of fs) t -> length (elems t) < fuel ->
  insert_descend compare fuel an (par_of fs) (ref_of fs) s =
    Ok ((fun fs' => (par_of fs', ref_of fs')) <$> f_descend compare an t fs, s).
Proof.
  revert fs fuel. induction t as [|l IHl n h r IHr]; intros fs [|fuel] Hc Hr Hf; cbn in Hf; try lia;
    destruct (rctx_ref _ _ _ Hc) as [Hv Ha]; cbn [insert_descend f_descend];
    mrun (read_ref_Ok _ _ Ha); rewrite Hv; cbn [root_of]; [done|].
  rewrite length_app in Hf. cbn in Hf.
  case_match.
  - apply (IHl (FL n h r :: fs) fuel); [| |lia]; cbn in *; tauto.
  - case_match; [|done]. apply (IHr (FR l n h :: fs) fuel); [| |lia]; cbn in *; tauto.
Qed.

(** Linking the new leaf below the place that was found. *)
Lemma insert_link s fs an :
  rctx s fs None -> alloc s an -> NoDup (celems fs) -> an ∉ celems fs ->
  exists s', (set_left an None;; set_right an None;; set_parent an (par_of fs);;
              set_height an 1;; write_ref (ref_of fs) (Some an)) s = Ok (tt, s') /\
    rctx s' fs (Some an) /\ rep s' (par_of fs) (Node Leaf an 1 Leaf) /\
    agree_nodes (an :: celems fs) s s'.
Proof.
  intros Hc Han Hnd Hin. destruct (rctx_ref _ _ _ Hc) as [_ Hra].
  do 4 astep.
  rewrite write_ref_Ok by (eapply ref_alloc_mono; [|exact Hra]; eauto 10 with aalloc).
  eexists; split; [done|].
  assert (agree [an] s (ss_height an 1 (ss_parent an (par_of fs) (ss_right an None (ss_left an None s)))))
    as Hg.
  { split_and!; [done|eauto 10 with aalloc|]. intros a Ha. assert (an <> a) by set_solver.
    split_and!; adec. }
  split_and!.
  - eapply (rctx_write [an]); [exact Hc|by apply agree_ss_ref|done|set_solver].
  - apply rep_ss_ref; [apply ref_of_outside; cbn; set_solver|].
    cbn. split; [split_and!; aal; done|done].
  - eapply agree_ref_nodes with (p := Some an) (r := ref_of fs).
    + eapply agree_weaken; [by apply agree_ss_ref|set_solver].
    + intros a Ha%ref_of_celems. set_solver.
Qed.

Lemma iv_avl_tree_insert_refines an t s :
  tree_rep s t -> alloc s an -> an ∉ elems t ->
  exists s', iv_avl_tree_insert compare an s = Ok ((f_insert compare an t).1, s') /\
    tree_rep s' (f_insert compare an t).2 /\ agree_nodes (an :: elems t) s s' /\
    ((f_insert compare an t).1 = (-1)%Z -> s' = s).
Proof.
  intros Ht Han Hin. pose proof Ht as (Hroot&Hrep&Hnd). unfold iv_avl_tree_insert, loop_bound.
  pose proof (length_nodes _ _ _ Hrep Hnd).
  set (fuel := S (S (size (nodes s)))).
  assert (insert_descend compare fuel an None RefRoot s =
    Ok ((fun fs' => (par_of fs', ref_of fs')) <$> f_descend compare an t [], s)) as He.
  { apply (insert_descend_refines an t []); [done..|lia]. }
  mrun (eq_refl : gets (fun t => S (S (size (nodes t)))) s = Ok (fuel, s)).
  mrun He. unfold f_insert. destruct (f_descend compare an t []) as [fs|] eqn:Ed; cbn [fmap option_fmap option_map].
  2: { exists s. split_and!; [done|done|by split|done]. }
  pose proof (f_descend_plug _ _ _ _ Ed) as Ep. cbn [plug] in Ep. rewrite <-Ep in *.
  destruct (NoDup_plug _ _ Hnd) as (_&Hndc&_).
  pose proof (proj1 (rep_plug s fs Leaf) (conj Hroot Hrep)) as [Hc _].
  rewrite elem_of_plug in Hin.
  destruct (insert_link s fs an) as (s1&He1&Hc1&Hr1&Hg1); [done|done|done|tauto|].
  destruct (rebalance_path_refines fs (Node Leaf an 1 Leaf) s1) as (s2&He2&Ht2&Hg2);
    [done|done| |].
  { rewrite elems_plug. cbn. constructor; [tauto|done]. }
  exists s2. split_and!; [|done| |done].
  - revert He1. rewrite <-!bind_assoc. intros He1.
    rewrite (bind_Ok _ _ _ tt s2); [done|]. by rewrite (bind_Ok _ _ _ tt s1).
  - eapply agree_nodes_trans; [done..|]. intros a.
    rewrite !elem_of_cons, !elem_of_plug. cbn [elems app]. set_solver.
Qed.
End insert.

(** ** Deletion *)

#[global] Instance ref_eq_dec : EqDecision ref.
Proof. solve_decision. Defined.

Lemma lft_ref s r v b : lft (ss_ref r v s) b = if decide (r = RefLeft b) then v else lft s b.
Proof. destruct r; cbn [ss_ref]; aview; repeat case_decide; (done || congruence). Qed.
Lemma rgt_ref s r v b : rgt (ss_ref r v s) b = if decide (r = RefRight b) then v else rgt s b.
Proof. destruct r; cbn [ss_ref]; aview; repeat case_decide; (done || congruence). Qed.
Lemma par_ref s r v b : par (ss_ref r v s) b = par s b.
Proof. destruct r; cbn [ss_ref]; aview; done. Qed.
Lemma hgt_ref s r v b : hgt (ss_ref r v s) b = hgt s b.
Proof. destruct r; cbn [ss_ref]; aview; done. Qed.
#[global] Hint Rewrite lft_ref rgt_ref par_ref hgt_ref : aview.
Lemma alloc_opt_ref s r v p : alloc_opt s p -> alloc_opt (ss_ref r v s) p.
Proof. apply alloc_opt_mono. eauto with aalloc. Qed.
#[global] Hint Resolve alloc_opt_ref : aalloc.

Lemma ref_of_ne_left fs a : a ∉ celems fs -> ref_of fs <> RefLeft a.
Proof. intros Ha E. apply Ha, ref_of_celems. auto. Qed.
Lemma ref_of_ne_right fs a : a ∉ celems fs -> ref_of fs <> RefRight a.
Proof. intros Ha E. apply Ha, ref_of_celems. auto. Qed.

Lemma replace_reference_Ok s fs t n q :
  rctx s fs (root_of t) -> rep s (par_of fs) t -> root_of t = Some n ->
  NoDup (elems (plug fs t)) -> replace_reference n q s = Ok (tt, ss_ref (ref_of fs) q s).
Proof.
  intros Hc Hr Hn Hnd. unfold replace_reference.
  mrun (rctx_find_reference s fs t n Hc Hr Hn Hnd).
  apply write_ref_Ok. by destruct (rctx_ref _ _ _ Hc).
Qed.

(** The victim, which has at most one child, is cut out of the tree. *)
Lemma unlink_victim s gs v hv child t :
  (t = Node child v hv Leaf \/ t = Node Leaf v hv child) ->
  rctx s gs (Some v) -> rep s (par_of gs) t -> NoDup (elems (plug gs t)) ->
  exists s1,
    (replace_reference v (root_of child);; set_parent_if (root_of child) (par s v)) s = Ok (tt, s1) /\
    s1 = ss_parent_if (root_of child) (par s v) (ss_ref (ref_of gs) (root_of child) s) /\
    rctx s1 gs (root_of child) /\ rep s1 (par_of gs) child /\
    agree_nodes (elems child ++ celems gs) s s1.
Proof.
  intros Ht Hc Hr Hnd. destruct (NoDup_plug _ _ Hnd) as (Hndt&Hndc&Hd).
  assert (root_of t = Some v /\ rep s (Some v) child /\ NoDup (elems child) /\ v ∉ elems child /\
          par s v = par_of gs /\ (forall a, a ∈ elems child -> a ∈ elems t)) as (Hrt&Hrc&Hndch&Hv&Hp&Hsub).
  { destruct Ht as [-> | ->]; cbn [rep elems root_of app] in *.
    - apply NoDup_node in Hndt as (?&?&?&_). destruct Hr as ((?&?&?&?&?&?)&?&?).
      split_and!; try done. set_solver.
    - apply NoDup_cons in Hndt as [??]. destruct Hr as ((?&?&?&?&?&?)&?&?).
      split_and!; try done. set_solver. }
  rewrite <-Hrt in Hc. mrun (replace_reference_Ok s gs t v (root_of child) Hc Hr Hrt Hnd).
  rewrite Hrt in Hc. rewrite set_parent_if_Ok by eauto with aalloc.
  eexists; split; [done|]. split; [done|].
  assert (agree (elems child) (ss_ref (ref_of gs) (root_of child) s)
    (ss_parent_if (root_of child) (par s v) (ss_ref (ref_of gs) (root_of child) s))) as Hg.
  { split_and!; [by aview|eauto with aalloc|]. intros a Ha.
    pose proof (root_of_ne _ _ Ha). generalize (ss_ref (ref_of gs) (root_of child) s).
    intros s'. aview. by split_and!. }
  split_and!.
  - eapply rctx_write; [exact Hc|exact Hg|done|]. intros a Ha Hc'. eapply Hd; eauto.
  - eapply rep_reparent; [exact Hrc|done|eauto with aalloc|..]; intros a Ha.
    + assert (a ∉ celems gs) as Hn by (intros ?; eapply Hd; eauto).
      pose proof (ref_of_ne_left _ _ Hn). pose proof (ref_of_ne_right _ _ Hn).
      aview. by split_and!.
    + aview. rewrite Hp. done.
  - eapply agree_ref_nodes; [eapply agree_weaken; [exact Hg|]|]; intros a Ha; rewrite elem_of_app;
      [auto|right; by apply ref_of_celems].
Qed.

(** The victim takes the place of the deleted node. *)
Definition transplant (an victim : loc) : M tree_st unit :=
  replace_reference an (Some victim);;
  al ← get_left an; set_left victim al;;
  ar ← get_right an; set_right victim ar;;
  ap ← get_parent an; set_parent victim ap;;
  ah ← get_height an; set_height victim ah;;
  vl ← get_left victim; set_parent_if vl (Some victim);;
  vr ← get_right victim; set_parent_if vr (Some victim).

Lemma transplant_refines s fs l an h r v :
  let t := Node l an h r in
  rctx s fs (Some an) -> rep s (par_of fs) t -> NoDup (elems (plug fs t)) ->
  alloc s v -> v ∉ elems (plug fs t) ->
  exists s', transplant an v s = Ok (tt, s') /\ rctx s' fs (Some v) /\
    rep s' (par_of fs) (Node l v h r) /\ agree_nodes (v :: elems (plug fs t)) s s'.
Proof.
  intros t Hc Hrep Hnd Hav Hv. subst t. destruct (NoDup_plug _ _ Hnd) as (Hndt&Hndc&Hd).
  rewrite elem_of_plug in Hv. cbn [elems] in Hv, Hndt, Hd.
  assert ((v ∉ elems l ++ an :: elems r) /\ v ∉ celems fs) as [Hvt Hvc] by tauto.
  unfold transplant.
  mrun (replace_reference_Ok s fs (Node l an h r) an (Some v) Hc Hrep eq_refl Hnd).
  set (s0 := ss_ref (ref_of fs) (Some v) s).
  assert (rep s0 (par_of fs) (Node l an h r)) as Hrep0.
  { apply rep_ss_ref; [by apply ref_of_outside|done]. }
  assert (alloc s0 v) as Hav0 by (unfold s0; eauto with aalloc).
  assert (forall s', agree (v :: elems l ++ elems r) s0 s' ->
    rctx s' fs (Some v) /\ agree_nodes (v :: elems (plug fs (Node l an h r))) s s') as Hout.
  { intros s' Hg. split.
    - eapply rctx_write; [exact Hc|exact Hg|done|]. intros a Ha.
      specialize (Hd a Ha). rewrite elem_of_cons, elem_of_app. set_solver.
    - eapply agree_ref_nodes; [eapply agree_weaken; [exact Hg|]|]; intros a Ha;
        rewrite elem_of_cons, elem_of_plug; cbn [elems]; [set_solver +Ha|].
      right. right. by apply ref_of_celems. }
  clearbody s0. clear Hd Hnd Hc Hrep.
  pose proof Hrep0 as ((Haan&Hl&Hr&Hp&Hh&Hu)&Hrl&Hrr). nodup_facts.
  do 11 astep. rewrite set_parent_if_Ok by aal.
  eexists; split; [done|]. rewrite Hh.
  match goal with |- rctx ?s' _ _ /\ _ => destruct (Hout s') as [Hout1 Hout2] end.
  { split_and!; [by aview|eauto 20 with aalloc|]. intros y Hy.
    assert (y ∉ elems l /\ y ∉ elems r /\ y <> v) as (?&?&?) by set_solver +Hy.
    pose proof (root_of_ne l y ltac:(done)). pose proof (root_of_ne r y ltac:(done)).
    aview. by split_and!. }
  split_and!; [done| |done]. cbn [rep]. split; [split_and!; aal|split]; sub_frame.
Qed.

(** *** Finding the victim *)

Lemma f_rightmost_plug l n h r fs path v hv child :
  f_rightmost l n h r fs = (path, v, hv, child) ->
  plug path (Node child v hv Leaf) = plug fs (Node l n h r).
Proof.
  revert l n h fs. induction r as [|rl IHl rn rh rr IHr]; intros l n h fs; cbn [f_rightmost].
  - by intros [= <- <- <- <-].
  - intros E. by apply IHr in E.
Qed.
Lemma f_leftmost_plug l n h r fs path v hv child :
  f_leftmost l n h r fs = (path, v, hv, child) ->
  plug path (Node Leaf v hv child) = plug fs (Node l n h r).
Proof.
  revert r n h fs. induction l as [|ll IHl ln lh lr IHr]; intros r n h fs; cbn [f_leftmost].
  - by intros [= <- <- <- <-].
  - intros E. by apply IHl in E.
Qed.

Lemma rightmost_refines l n h r fs fuel s p :
  rep s p (Node l n h r) -> length (elems (Node l n h r)) < fuel ->
  rightmost fuel n s = Ok ((f_rightmost l n h r fs).1.1.2, s).
Proof.
  revert l n h fs fuel p. induction r as [|rl IHl rn rh rr IHr]; intros l n h fs [|fuel] p Hr Hf;
    cbn [elems] in Hf; repeat (rewrite length_app in Hf; cbn [length] in Hf); try lia;
    destruct Hr as ((Ha&_&Hrn&_)&_&Hrr); cbn [rightmost f_rightmost];
    mrun (get_right_Ok s n Ha); rewrite Hrn; cbn [root_of]; [done|].
  eapply IHr; [exact Hrr|]. cbn [elems]. rewrite length_app. cbn [length]. lia.
Qed.
Lemma leftmost_refines l n h r fs fuel s p :
  rep s p (Node l n h r) -> length (elems (Node l n h r)) < fuel ->
  leftmost fuel n s = Ok ((f_leftmost l n h r fs).1.1.2, s).
Proof.
  revert r n h fs fuel p. induction l as [|ll IHl ln lh lr IHr]; intros r n h fs [|fuel] p Hr Hf;
    cbn [elems] in Hf; repeat (rewrite length_app in Hf; cbn [length] in Hf); try lia;
    destruct Hr as ((Ha&Hln&_)&Hrl&_); cbn [leftmost f_leftmost];
    mrun (get_left_Ok s n Ha); rewrite Hln; cbn [root_of]; [done|].
  eapply IHl; [exact Hrl|]. cbn [elems]. rewrite length_app. cbn [length]. lia.
Qed.

Lemma par_of_app path f fs : par_of (path ++ f :: fs) = Some (fnode (hd f path)).
Proof. by destruct path. Qed.

(** Where rebalancing starts: the victim's old parent, or the victim itself
    when that parent was the deleted node. *)
Lemma start_parent path fs f f' an v :
  fnode f = an -> fnode f' = v -> an ∉ celems path ->
  (if ptr_eqb (par_of (path ++ f :: fs)) (Some an) then Some v else par_of (path ++ f :: fs)) =
  par_of (path ++ f' :: fs).
Proof.
  intros <- <- Hin. destruct path as [|g path]; cbn [app par_of].
  - by rewrite ptr_eqb_refl.
  - rewrite ptr_eqb_ne; [done|]. intros [= E]. apply Hin. cbn. set_solver.
Qed.

(** From the cut victim to the rebuilt context. *)
Lemma move_victim s1 path fs f f' an v child h l' r' :
  plug1 f (plug path child) = Node l' an h r' -> plug1 f' (plug path child) = Node l' v h r' ->
  rctx s1 (path ++ f :: fs) (root_of child) -> rep s1 (par_of (path ++ f :: fs)) child ->
  NoDup (elems (plug (path ++ f :: fs) child)) -> alloc s1 v ->
  v ∉ elems (plug (path ++ f :: fs) child) ->
  exists s2, transplant an v s1 = Ok (tt, s2) /\
    rctx s2 (path ++ f' :: fs) (root_of child) /\ rep s2 (par_of (path ++ f' :: fs)) child /\
    agree_nodes (v :: elems (plug (path ++ f :: fs) child)) s1 s2.
Proof.
  intros E E' Hc Hr Hnd Ha Hv.
  pose proof (proj2 (rep_plug s1 (path ++ f :: fs) child) (conj Hc Hr)) as Hp.
  rewrite plug_app in Hp, Hnd, Hv |- *. cbn [plug] in *. rewrite E in *.
  apply rep_plug in Hp as [Hc1 Hr1].
  destruct (transplant_refines s1 fs l' an h r' v) as (s2&He&Hc2&Hr2&Hg); [done..|].
  exists s2. split; [done|].
  pose proof (proj2 (rep_plug s2 fs (Node l' v h r')) (conj Hc2 Hr2)) as Hp2.
  rewrite <-E' in Hp2. change (plug fs (plug1 f' (plug path child))) with (plug (f' :: fs) (plug path child)) in Hp2.
  rewrite <-plug_app in Hp2. apply rep_plug in Hp2 as [Hc3 Hr3]. done.
Qed.

Definition victim_tree (v : loc) (hv : Z) (child t : tree) : Prop :=
  t = Node child v hv Leaf \/ t = Node Leaf v hv child.

Lemma victim_elems v hv child t : victim_tree v hv child t -> elems t ≡ₚ v :: elems child.
Proof. intros [-> | ->]; cbn; solve_Permutation. Qed.

Lemma plug_Permutation fs t x t' :
  elems t ≡ₚ x :: elems t' -> elems (plug fs t) ≡ₚ x :: elems (plug fs t').
Proof. intros E. by rewrite !elems_plug, E. Qed.

Lemma elems_hole path f fs child :
  elems (plug (path ++ f :: fs) child) ≡ₚ
  fnode f :: elems child ++ celems path ++ elems (fsub f) ++ celems fs.
Proof.
  rewrite elems_plug. unfold celems. rewrite bind_app, bind_cons. unfold felems. cbn [app].
  solve_Permutation.
Qed.

(** Both halves of the deletion of an inner node, once the victim is known. *)
Lemma delete_victim s path fs f f' an v hv child tv h l' r' :
  victim_tree v hv child tv -> fnode f = an -> fnode f' = v -> fsub f' = fsub f ->
  plug1 f (plug path child) = Node l' an h r' -> plug1 f' (plug path child) = Node l' v h r' ->
  tree_rep s (plug (path ++ f :: fs) tv) ->
  exists s1 s2,
    (replace_reference v (root_of child);; set_parent_if (root_of child) (par s v)) s = Ok (tt, s1) /\
    alloc s1 v /\ par s1 v = par_of (path ++ f :: fs) /\ an ∉ celems path /\
    lft s1 v = lft s v /\ rgt s1 v = rgt s v /\ par s1 v = par s v /\
    transplant an v s1 = Ok (tt, s2) /\
    rctx s2 (path ++ f' :: fs) (root_of child) /\ rep s2 (par_of (path ++ f' :: fs)) child /\
    NoDup (elems (plug (path ++ f' :: fs) child)) /\
    agree_nodes (elems (plug (path ++ f :: fs) tv)) s s2.
Proof.
  intros Ht Hf Hf' Hsub E E' (Hroot&Hrep&Hnd).
  pose proof (victim_elems _ _ _ _ Ht) as Hve.
  pose proof (plug_Permutation (path ++ f :: fs) _ _ _ Hve) as Hpe.
  assert (root_of tv = Some v) as Hrt by (by destruct Ht as [-> | ->]).
  pose proof (proj1 (rep_plug s _ tv) (conj Hroot Hrep)) as [Hc Hr]. rewrite Hrt in Hc.
  destruct (unlink_victim s _ v hv child tv Ht Hc Hr Hnd) as (s1&He1&_&Hc1&Hr1&Hg1).
  rewrite Hpe in Hnd. apply NoDup_cons in Hnd as [Hv Hnd].
  assert (v ∉ elems child ++ celems (path ++ f :: fs)) as Hv1.
  { rewrite elem_of_plug in Hv. rewrite elem_of_app. tauto. }
  assert (alloc s v) as Hav. { pose proof (rep_root_alloc _ _ _ Hr) as Ha. by rewrite Hrt in Ha. }
  pose proof Hg1 as [Ha1 Hv2]. destruct (Hv2 v Hv1) as (Hlv&Hrv&Hpv&_).
  destruct (move_victim s1 path fs f f' an v child h l' r') as (s2&He2&Hc2&Hr2&Hg2); auto.
  exists s1, s2. split_and!; auto.
  - rewrite Hpv. by apply (rep_root_par _ _ _ _ Hr).
  - apply NoDup_plug in Hnd as (_&Hnd&_). unfold celems in *. rewrite bind_app in Hnd.
    apply NoDup_app in Hnd as (_&Hnd&_). intros Ha. eapply Hnd; [exact Ha|].
    rewrite bind_cons. subst an. cbn. set_solver.
  - rewrite elems_hole in Hnd, Hv |- *. rewrite Hsub, Hf'. rewrite NoDup_cons in Hnd |- *.
    rewrite not_elem_of_cons in Hv. tauto.
  - eapply agree_nodes_trans; [done..|]. intros a. rewrite Hpe, !elem_of_cons, elem_of_app, elem_of_plug.
    tauto.
Qed.

(** The statements of the code that cut the victim out, on either side. *)
Lemma unlink_left_code s gs v hv child :
  let t := Node child v hv Leaf in
  rctx s gs (Some v) -> rep s (par_of gs) t -> NoDup (elems (plug gs t)) ->
  (vl ← get_left v; replace_reference v vl;; vl ← get_left v; vp ← get_parent v;
   set_parent_if vl vp) s =
  (replace_reference v (root_of child);; set_parent_if (root_of child) (par s v)) s.
Proof.
  intros t Hc Hr Hnd. pose proof Hr as ((Ha&Hl&_)&_).
  mrun (get_left_Ok s v Ha). rewrite Hl.
  pose proof (replace_reference_Ok s gs t v (root_of child) Hc Hr eq_refl Hnd) as He.
  mrun He. mrun He. set (s0 := ss_ref (ref_of gs) (root_of child) s).
  assert (ref_of gs <> RefLeft v).
  { apply ref_of_ne_left. intros Hin. apply NoDup_plug in Hnd as (_&_&Hd).
    apply (Hd v Hin). cbn. set_solver. }
  assert (alloc s0 v) as Ha0 by (unfold s0; eauto with aalloc).
  mrun (get_left_Ok s0 v Ha0). mrun (get_parent_Ok s0 v Ha0). unfold s0. aview. by rewrite Hl.
Qed.

Lemma unlink_right_code s gs v hv child :
  let t := Node Leaf v hv child in
  rctx s gs (Some v) -> rep s (par_of gs) t -> NoDup (elems (plug gs t)) ->
  (vr ← get_right v; replace_reference v vr;; vr ← get_right v; vp ← get_parent v;
   set_parent_if vr vp) s =
  (replace_reference v (root_of child);; set_parent_if (root_of child) (par s v)) s.
Proof.
  intros t Hc Hr Hnd. pose proof Hr as ((Ha&_&Hl&_)&_).
  mrun (get_right_Ok s v Ha). rewrite Hl.
  pose proof (replace_reference_Ok s gs t v (root_of child) Hc Hr eq_refl Hnd) as He.
  mrun He. mrun He. set (s0 := ss_ref (ref_of gs) (root_of child) s).
  assert (ref_of gs <> RefRight v).
  { apply ref_of_ne_right. intros Hin. apply NoDup_plug in Hnd as (_&_&Hd).
    apply (Hd v Hin). cbn. set_solver. }
  assert (alloc s0 v) as Ha0 by (unfold s0; eauto with aalloc).
  mrun (get_right_Ok s0 v Ha0). mrun (get_parent_Ok s0 v Ha0). unfold s0. aview. by rewrite Hl.
Qed.

(** The two halves of [iv_avl_tree_delete_nonleaf]: choosing and cutting the
    victim, then transplanting it. *)
Definition take_victim (an : loc) : M tree_st loc :=
  fuel ← loop_bound;
  l ← get_left an; hl ← height l;
  r ← get_right an; hr ← height r;
  if (hr <? hl)%Z then
    victim ← deref l; victim ← rightmost fuel victim;
    (vl ← get_left victim; replace_reference victim vl;;
     vl ← get_left victim; vp ← get_parent victim; set_parent_if vl vp);;
    mret victim
  else
    victim ← deref r; victim ← leftmost fuel victim;
    (vr ← get_right victim; replace_reference victim vr;;
     vr ← get_right victim; vp ← get_parent victim; set_parent_if vr vp);;
    mret victim.

Lemma delete_nonleaf_split an s :
  iv_avl_tree_delete_nonleaf an s =
  (victim ← take_victim an; p ← get_parent victim;
   let p := if ptr_eqb p (Some an) then Some victim else p in
   transplant an victim;; mret p) s.
Proof.
  unfold iv_avl_tree_delete_nonleaf, take_victim, transplant. monad_eq.
Qed.

(** What [iv_avl_tree_delete_*] leave for [rebalance_path]. *)
Definition cut_spec (s : tree_st) (t t' : tree) (p : ptr) (s' : tree_st) : Prop :=
  exists fs2 child, p = par_of fs2 /\ t' = f_rebalance_path child fs2 /\
    rctx s' fs2 (root_of child) /\ rep s' (par_of fs2) child /\
    NoDup (elems (plug fs2 child)) /\ agree_nodes (elems t) s s' /\
    (forall a, a ∈ elems (plug fs2 child) -> a ∈ elems t).

(** The common part of both sides. *)
Lemma delete_nonleaf_finish s path fs f f' an v hv child tv h l' r' :
  victim_tree v hv child tv -> fnode f = an -> fnode f' = v -> fsub f' = fsub f ->
  plug1 f (plug path child) = Node l' an h r' -> plug1 f' (plug path child) = Node l' v h r' ->
  tree_rep s (plug (path ++ f :: fs) tv) ->
  (forall s1, (replace_reference v (root_of child);; set_parent_if (root_of child) (par s v)) s =
     Ok (tt, s1) -> take_victim an s = Ok (v, s1)) ->
  exists p s', iv_avl_tree_delete_nonleaf an s = Ok (p, s') /\
    cut_spec s (plug (path ++ f :: fs) tv) (f_rebalance_path child (path ++ f' :: fs)) p s'.
Proof.
  intros Hv Hf Hf' Hs E E' Ht Htake.
  destruct (delete_victim s path fs f f' an v hv child tv h l' r')
    as (s1&s2&He1&Ha1&Hp1&Hn&_&_&_&He2&Hc&Hr&Hnd&Hg); auto.
  exists (par_of (path ++ f' :: fs)), s2. split.
  - rewrite delete_nonleaf_split. mrun (Htake s1 He1). mrun (get_parent_Ok s1 v Ha1).
    rewrite Hp1. rewrite (start_parent path fs f f' an v) by done. cbv zeta. by mrun He2.
  - exists (path ++ f' :: fs), child. split_and!; [done..|].
    intros a. rewrite (plug_Permutation _ _ _ _ (victim_elems _ _ _ _ Hv)), !elems_hole, Hf', Hs.
    rewrite !elem_of_cons. tauto.
Qed.

Lemma delete_nonleaf_refines s fs l an h r :
  (r = Leaf -> (0 < ht l)%Z) -> tree_rep s (plug fs (Node l an h r)) ->
  exists p s', iv_avl_tree_delete_nonleaf an s = Ok (p, s') /\
    cut_spec s (plug fs (Node l an h r)) (f_delete fs l h r) p s'.
Proof.
  intros Hne Ht. pose proof Ht as (Hroot&Hrep&Hnd).
  pose proof (length_nodes _ _ _ Hrep Hnd) as Hlen.
  rewrite elems_plug, length_app in Hlen. cbn [elems] in Hlen. rewrite length_app in Hlen. cbn [length] in Hlen.
  pose proof (proj1 (rep_plug s fs _) (conj Hroot Hrep)) as [_ Hr].
  pose proof Hr as ((Ha&Hl&Hr0&_)&Hrl&Hrr).
  assert (f_delete fs l h r = if (ht r <? ht l)%Z then
      match l with Leaf => plug fs Leaf | Node l' n' h' r' =>
        let '(path, v, _, child) := f_rightmost l' n' h' r' [] in
        f_rebalance_path child (path ++ FL v h r :: fs) end
    else match r with Leaf => plug fs Leaf | Node l' n' h' r' =>
        let '(path, v, _, child) := f_leftmost l' n' h' r' [] in
        f_rebalance_path child (path ++ FR l v h :: fs) end) as ->.
  { destruct l, r; try done. by specialize (Hne eq_refl). }
  assert (forall s1 v (m : nat -> ptr -> Z -> ptr -> Z -> M tree_st loc), (fuel ← loop_bound; l ← get_left an; hl ← height l; r ← get_right an;
     hr ← height r; m fuel l hl r hr) s = Ok (v, s1) <->
     m (S (S (size (nodes s)))) (root_of l) (ht l) (root_of r) (ht r) s = Ok (v, s1)) as Hm.
  { intros s1 v m. unfold loop_bound.
    mrun (eq_refl : gets (fun t => S (S (size (nodes t)))) s = Ok (S (S (size (nodes s))), s)).
    mrun (get_left_Ok s an Ha). rewrite Hl. mrun (height_Ok s (root_of l) ltac:(eauto with aalloc)).
    mrun (get_right_Ok s an Ha). rewrite Hr0. mrun (height_Ok s (root_of r) ltac:(eauto with aalloc)).
    by rewrite (rep_hv _ _ _ Hrl), (rep_hv _ _ _ Hrr). }
  destruct (Z.ltb_spec (ht r) (ht l)) as [Hlt|Hge].
  - destruct l as [|l' n' h' r'].
    { pose proof (rep_ht _ _ _ Hrr). unfold u8_ok in *. cbn in *. lia. }
    destruct (f_rightmost l' n' h' r' []) as [[[path v] hv'] child] eqn:E.
    pose proof (f_rightmost_plug _ _ _ _ _ _ _ _ _ E) as Ep. cbn [plug] in Ep.
    assert (plug fs (Node (Node l' n' h' r') an h r) =
            plug (path ++ FL an h r :: fs) (Node child v hv' Leaf)) as Eq.
    { by rewrite plug_app, Ep. }
    rewrite Eq in *.
    eapply delete_nonleaf_finish with (f := FL an h r) (f' := FL v h r);
      [by left|done..| |]; [done|].
    intros s1 He1. unfold take_victim. apply Hm. rewrite (proj2 (Z.ltb_lt _ _)) by done.
    cbn [root_of]. mrun (@deref_Some tree_st _ n' s).
    mrun (rightmost_refines l' n' h' r' [] (S (S (size (nodes s)))) s _ Hrl
            ltac:(cbn [elems] in *; lia)).
    rewrite E. cbn [fst snd].
    pose proof (proj1 (rep_plug s _ _) (conj Hroot Hrep)) as [Hc Hrv].
    by mrun (eq_trans (unlink_left_code s _ v hv' child Hc Hrv Hnd) He1).
  - destruct r as [|l' n' h' r'].
    { specialize (Hne eq_refl). cbn in Hge. lia. }
    destruct (f_leftmost l' n' h' r' []) as [[[path v] hv'] child] eqn:E.
    pose proof (f_leftmost_plug _ _ _ _ _ _ _ _ _ E) as Ep. cbn [plug] in Ep.
    assert (plug fs (Node l an h (Node l' n' h' r')) =
            plug (path ++ FR l an h :: fs) (Node Leaf v hv' child)) as Eq.
    { by rewrite plug_app, Ep. }
    rewrite Eq in *.
    eapply delete_nonleaf_finish with (f := FR l an h) (f' := FR l v h);
      [by right|done..| |]; [done|].
    intros s1 He1. unfold take_victim. apply Hm. rewrite (proj2 (Z.ltb_ge _ _)) by done.
    cbn [root_of]. mrun (@deref_Some tree_st _ n' s).
    mrun (leftmost_refines l' n' h' r' [] (S (S (size (nodes s)))) s _ Hrr
            ltac:(cbn [elems] in *; lia)).
    rewrite E. cbn [fst snd].
    pose proof (proj1 (rep_plug s _ _) (conj Hroot Hrep)) as [Hc Hrv].
    by mrun (eq_trans (unlink_right_code s _ v hv' child Hc Hrv Hnd) He1).
Qed.

(** Deleting the node [an] of a tree, in its context [fs]. *)
Lemma iv_avl_tree_delete_refines s fs l an h r :
  (r = Leaf -> l <> Leaf -> (0 < ht l)%Z) -> tree_rep s (plug fs (Node l an h r)) ->
  exists s', iv_avl_tree_delete an s = Ok (tt, s') /\ tree_rep s' (f_delete fs l h r) /\
    agree_nodes (elems (plug fs (Node l an h r))) s s'.
Proof.
  intros Hh Ht. pose proof Ht as (Hroot&Hrep&Hnd).
  pose proof (proj1 (rep_plug s fs _) (conj Hroot Hrep)) as [Hc Hr].
  pose proof Hr as ((Ha&Hl&Hr0&Hp&_)&Hrl&Hrr). destruct (NoDup_plug _ _ Hnd) as (Hndt&Hndc&Hd).
  assert (exists p s', (if is_null (root_of l) && is_null (root_of r) then iv_avl_tree_delete_leaf an
       else iv_avl_tree_delete_nonleaf an) s = Ok (p, s') /\
    cut_spec s (plug fs (Node l an h r)) (f_delete fs l h r) p s') as (p&s1&He1&(fs2&child&->&->&Hc1&Hr1&Hnd1&Hg1&Hi1)).
  { assert ((l = Leaf /\ r = Leaf) \/ ~ (l = Leaf /\ r = Leaf)) as [[-> ->]|Hn].
    { destruct l, r; (by left) || (right; by intros []). }
    - exists (par_of fs), (ss_ref (ref_of fs) None s). cbn [root_of is_null].
      unfold iv_avl_tree_delete_leaf. split.
      + cbn. mrun (replace_reference_Ok s fs _ an None Hc Hr eq_refl Hnd).
        rewrite get_parent_Ok by eauto with aalloc. aview. by rewrite Hp.
      + assert (agree [] (ss_ref (ref_of fs) None s) (ss_ref (ref_of fs) None s)) as Hg by by split_and!.
        exists fs, Leaf. split_and!; [done|done| |done| | |].
        * eapply (rctx_write []); [exact Hc|exact Hg|done|set_solver].
        * rewrite elems_plug. done.
        * eapply agree_ref_nodes; [eapply agree_weaken; [exact Hg|set_solver]|].
          intros a Hin%ref_of_celems. apply elem_of_plug. by right.
        * intros a. rewrite !elem_of_plug. cbn. set_solver.
    - assert ((is_null (root_of l) && is_null (root_of r)) = false) as ->.
      { destruct l, r; try done. by destruct Hn. }
      apply delete_nonleaf_refines; [|done]. intros ->. apply Hh; [done|]. intros ->. by apply Hn. }
  destruct (rebalance_path_refines fs2 child s1 Hc1 Hr1 Hnd1) as (s2&He2&Ht2&Hg2).
  exists s2. split_and!; [|done|].
  - unfold iv_avl_tree_delete. mrun (get_left_Ok s an Ha). mrun (get_right_Ok s an Ha).
    rewrite Hl, Hr0. by mrun He1.
  - eapply agree_nodes_trans; [done..|]. intros a [|]; auto.
Qed.
