(* ===== verification/AvlSpec.v ===== *)
(** * What the AVL trees of ivykis promise

    Balance with exact heights, search order with respect to the owner's
    [compare], and the in-order iterators; the theorems of the component. *)

From Stdlib Require Export Sorted.
From stdpp Require Export sorting.
From S2P Require Import Prelude Avl AvlPath.

Local Open Scope Z_scope.

(** ** Balance *)
Fixpoint avl (t : tree) : Prop :=
  match t with
  | Leaf => True
  | Node l n h r => h = 1 + Z.max (ht l) (ht r) /\ -1 <= ht r - ht l <= 1 /\ avl l /\ avl r
  end.

(** The context of a balanced tree, around a hole of height [h]. *)
Fixpoint actx (fs : list frame) (h : Z) : Prop :=
  match fs with
  | [] => True
  | f :: fs => fheight f = 1 + Z.max h (ht (fsub f)) /\ -1 <= ht (fsub f) - h <= 1 /\
               avl (fsub f) /\ actx fs (fheight f)
  end.

Lemma ht_nonneg t : avl t -> 0 <= ht t.
Proof.
  induction t as [|l IHl n h r IHr]; cbn; [lia|]. intros (?&?&Hl&Hr).
  specialize (IHl Hl). specialize (IHr Hr). lia.
Qed.

Lemma avl_plug fs t : avl (plug fs t) <-> avl t /\ actx fs (ht t).
Proof.
  revert t. induction fs as [|f fs IH]; intros t; cbn [plug actx]; [tauto|].
  rewrite IH. destruct f; cbn; split; intros; destruct_and!; split_and!; first [done | lia].
Qed.

(** The tallest node of the context. *)
Definition top (fs : list frame) (h : Z) : Z := ht (plug fs (Node Leaf 1%positive h Leaf)).

Lemma top_ht fs t : t <> Leaf -> ht (plug fs t) = top fs (ht t).
Proof.
  unfold top. intros Ht. destruct fs as [|f fs]; cbn [plug]; [by destruct t|].
  clear Ht. assert (ht (plug1 f t) = ht (plug1 f (Node Leaf 1%positive (ht t) Leaf))) as E by by destruct f.
  revert E. generalize (plug1 f t), (plug1 f (Node Leaf 1%positive (ht t) Leaf)).
  induction fs as [|g fs IH]; intros t1 t2 E; cbn [plug]; [done|]. apply IH. by destruct g.
Qed.

Lemma actx_top fs h : actx fs h -> 0 <= h -> h <= top fs h.
Proof.
  unfold top. revert h. induction fs as [|f fs IH]; intros h Ha Hh; [by cbn|]. cbn [plug].
  destruct Ha as (Hf&?&Hs&Ha). pose proof (ht_nonneg _ Hs).
  assert (fheight f = ht (plug1 f (Node Leaf 1%positive h Leaf))) as E by by destruct f.
  rewrite top_ht by by destruct f. rewrite <-E. etransitivity; [|by apply IH; [done|lia]]. lia.
Qed.

Lemma avl_mk l n r : avl l -> avl r -> -1 <= ht r - ht l <= 1 -> Z.max (ht l) (ht r) < 255 ->
  avl (mk l n r) /\ ht (mk l n r) = 1 + Z.max (ht l) (ht r).
Proof.
  intros Hl Hr ??. pose proof (ht_nonneg _ Hl). pose proof (ht_nonneg _ Hr).
  cbn. rewrite u8_small by lia. auto.
Qed.

(** A node whose subtrees are balanced and differ by at most two. *)
Lemma f_rebalance_node_avl l n r :
  avl l -> avl r -> -2 <= ht r - ht l <= 2 -> Z.max (ht l) (ht r) < 250 ->
  let t' := f_rebalance_node (mk l n r) in
  avl t' /\
  (if decide (-1 <= ht r - ht l <= 1) then ht t' = 1 + Z.max (ht l) (ht r)
   else Z.max (ht l) (ht r) <= ht t' <= 1 + Z.max (ht l) (ht r)).
Proof.
  intros Hl Hr Hb Hm t'. pose proof (ht_nonneg _ Hl). pose proof (ht_nonneg _ Hr).
  subst t'. unfold mk. cbn [f_rebalance_node bal].
  destruct (Z.eqb_spec (ht r - ht l) (-2)) as [E|].
  - rewrite decide_False by lia. destruct l as [|a b hb c]; [cbn in *; lia|].
    destruct Hl as (Hhb&?&Ha&Hc). cbn [ht] in *. pose proof (ht_nonneg _ Ha). pose proof (ht_nonneg _ Hc).
    cbn [bal]. destruct (Z.leb_spec (ht c - ht a) 0); cbn [f_rotate_right f_rotate_left_right].
    + destruct (avl_mk c n r) as [? E1]; [done..|lia|lia|].
      destruct (avl_mk a b (mk c n r)) as [? E2]; [done..|lia|lia|]. rewrite E2. split; [done|lia].
    + destruct c as [|c d hd e]; [cbn in *; lia|]. destruct Hc as (Hhd&?&Hc&He). cbn [ht] in *.
      pose proof (ht_nonneg _ Hc). pose proof (ht_nonneg _ He).
      destruct (avl_mk a b c) as [? E1]; [done..|lia|lia|].
      destruct (avl_mk e n r) as [? E2]; [done..|lia|lia|].
      destruct (avl_mk (mk a b c) d (mk e n r)) as [? E3]; [done..|lia|lia|]. rewrite E3. split; [done|lia].
  - destruct (Z.eqb_spec (ht r - ht l) 2) as [E|].
    + rewrite decide_False by lia. destruct r as [|a b hb c]; [cbn in *; lia|].
      destruct Hr as (Hhb&?&Ha&Hc). cbn [ht] in *. pose proof (ht_nonneg _ Ha). pose proof (ht_nonneg _ Hc).
      cbn [bal]. destruct (Z.ltb_spec (ht c - ht a) 0); cbn [f_rotate_left f_rotate_right_left].
      * destruct a as [|c' d hd e]; [cbn in *; lia|]. destruct Ha as (Hhd&?&Hc'&He). cbn [ht] in *.
        pose proof (ht_nonneg _ Hc'). pose proof (ht_nonneg _ He).
        destruct (avl_mk l n c') as [? E1]; [done..|lia|lia|].
        destruct (avl_mk e b c) as [? E2]; [done..|lia|lia|].
        destruct (avl_mk (mk l n c') d (mk e b c)) as [? E3]; [done..|lia|lia|]. rewrite E3. split; [done|lia].
      * destruct (avl_mk l n a) as [? E1]; [done..|lia|lia|].
        destruct (avl_mk (mk l n a) b c) as [? E2]; [done..|lia|lia|]. rewrite E2. split; [done|lia].
    + rewrite decide_True by lia. by apply avl_mk; [..|lia|lia].
Qed.

Lemma f_rebalance_path_avl t fs h :
  avl t -> actx fs h -> 0 <= h -> -1 <= ht t - h <= 1 -> top fs h < 240 ->
  avl (f_rebalance_path t fs).
Proof.
  revert t h. induction fs as [|f fs IH]; intros t h Ht Ha Hh Hd Htop; [done|].
  pose proof (ht_nonneg _ Ht) as Ht0.
  pose proof Ha as (Hf&Hbal&Hs&Ha'). pose proof (ht_nonneg _ Hs).
  assert (top (f :: fs) h = top fs (fheight f)) as Etop.
  { unfold top at 1. cbn [plug]. rewrite top_ht by by destruct f. by destruct f. }
  rewrite Etop in Htop. pose proof (actx_top _ _ Ha' ltac:(lia)).
  cbn [f_rebalance_path].
  assert (avl (f_rebalance_node (refill f t)) /\
    -1 <= ht (f_rebalance_node (refill f t)) - fheight f <= 1) as [Hav Hht].
  { destruct f as [n fh r|l n fh]; cbn [fsub refill fheight] in *.
    - destruct (f_rebalance_node_avl t n r) as [Hav Hht]; [done|done|lia|lia|].
      split; [done|]. revert Hht. generalize (ht (f_rebalance_node (mk t n r))).
      intros z Hz. case_decide; lia.
    - destruct (f_rebalance_node_avl l n t) as [Hav Hht]; [done|done|lia|lia|].
      split; [done|]. revert Hht. generalize (ht (f_rebalance_node (mk l n t))).
      intros z Hz. case_decide; lia. }
  destruct (Z.eqb_spec (fheight f) (ht (f_rebalance_node (refill f t)))) as [E|_].
  - apply avl_plug. by rewrite <-E.
  - apply (IH _ (fheight f)); [done|done|lia|lia|done].
Qed.

(** Few nodes mean a low tree: [2 ^ (h / 2) <= n + 1]. *)
Lemma avl_size t : avl t -> 2 ^ (ht t `div` 2) <= Z.of_nat (length (elems t)) + 1.
Proof.
  assert (forall h t, avl t -> ht t = Z.of_nat h ->
    2 ^ (Z.of_nat h `div` 2) <= Z.of_nat (length (elems t)) + 1) as Hgen.
  { intros h. induction h as [h IH] using lt_wf_ind. intros [|l n h' r] Ht Hh; cbn [ht] in Hh.
    { assert (h = 0)%nat as -> by lia. done. }
    destruct Ht as (->&?&Hl&Hr). pose proof (ht_nonneg _ Hl). pose proof (ht_nonneg _ Hr).
    cbn [elems]. rewrite length_app. cbn [length].
    destruct (decide (h < 2)%nat).
    { replace (Z.of_nat h `div` 2) with 0 by (symmetry; apply Z.div_small; lia). lia. }
    assert (Z.of_nat h - 2 <= ht l /\ Z.of_nat h - 2 <= ht r) as [??] by lia.
    replace (Z.of_nat h `div` 2) with ((Z.of_nat h - 2) `div` 2 + 1).
    2: { rewrite <-(Z.div_add _ 1) by lia. f_equal; lia. }
    rewrite Z.pow_add_r, Z.pow_1_r by (try apply Z.div_pos; lia).
    assert (forall u, avl u -> Z.of_nat h - 2 <= ht u < Z.of_nat h ->
      2 ^ ((Z.of_nat h - 2) `div` 2) <= Z.of_nat (length (elems u)) + 1) as Hsub.
    { intros u Hu ?. etransitivity; [|apply (IH (Z.to_nat (ht u))); [lia|done|lia]].
      apply Z.pow_le_mono_r; [lia|]. apply Z.div_le_mono; lia. }
    pose proof (Hsub l Hl ltac:(lia)). pose proof (Hsub r Hr ltac:(lia)). lia. }
  intros Ht. pose proof (ht_nonneg _ Ht). pose proof (Hgen (Z.to_nat (ht t)) t Ht ltac:(lia)) as Hs.
  by rewrite Z2Nat.id in Hs.
Qed.

(** No memory holds [2 ^ 64] nodes. *)
Definition few (l : list loc) : Prop := Z.of_nat (length l) + 1 < 2 ^ 64.

Lemma avl_low t : avl t -> few (elems t) -> ht t < 200.
Proof.
  intros Ht Hf. pose proof (avl_size _ Ht). unfold few in Hf.
  destruct (Z.lt_ge_cases (ht t) 200) as [|Hge]; [done|].
  assert (2 ^ 64 <= 2 ^ (ht t `div` 2)); [|lia].
  apply Z.pow_le_mono_r; [lia|]. apply Z.div_le_lower_bound; lia.
Qed.

(** ** Deletion keeps the tree balanced *)

Lemma actx_rename path f f' fs h :
  fheight f' = fheight f -> fsub f' = fsub f ->
  actx (path ++ f :: fs) h -> actx (path ++ f' :: fs) h.
Proof.
  intros Eh Es. revert h. induction path as [|g path IH]; intros h; cbn [app actx].
  - by rewrite Eh, Es.
  - intros (?&[]&?&?). split_and!; auto.
Qed.

Lemma top_app path f fs h : top (path ++ f :: fs) h = top fs (fheight f).
Proof.
  unfold top at 1. rewrite plug_app. cbn [plug]. rewrite top_ht by by destruct f. by destruct f.
Qed.

(** The victim's subtree shrinks by one. *)
Lemma f_rebalance_victim_avl path f f' fs tv v hv child :
  fheight f' = fheight f -> fsub f' = fsub f -> victim_tree v hv child tv ->
  avl (plug (path ++ f :: fs) tv) -> ht (plug (path ++ f :: fs) tv) < 200 ->
  avl (f_rebalance_path child (path ++ f' :: fs)).
Proof.
  intros Eh Es Hv [Ht Hc]%avl_plug Hlow.
  assert (ht tv = hv /\ hv = 1 + ht child /\ avl child /\ 0 <= ht child /\ tv <> Leaf) as (Ev&Ehv&Hch&?&?).
  { pose proof (ht_nonneg child) as Hc0.
    destruct Hv as [-> | ->]; cbn in Ht |- *; destruct Ht as (?&?&?&?);
      (assert (0 <= ht child) by by apply Hc0); split_and!; first [done | lia]. }
  rewrite Ev in Hc. rewrite top_ht in Hlow by done. rewrite Ev, top_app in Hlow.
  apply (f_rebalance_path_avl _ _ hv); [done|by eapply actx_rename|lia|lia|].
  rewrite top_app, Eh. lia.
Qed.

Lemma f_delete_avl fs l an h r :
  avl (plug fs (Node l an h r)) -> ht (plug fs (Node l an h r)) < 200 -> avl (f_delete fs l h r).
Proof.
  intros Hav Hlow. pose proof Hav as [(Hh&?&Hl&Hr) Hc]%avl_plug. cbn [ht] in Hc.
  assert (l = Leaf /\ r = Leaf \/ ~ (l = Leaf /\ r = Leaf)) as [[-> ->]|Hne]
    by (destruct l, r; (by left) || (right; by intros [])).
  { rewrite top_ht in Hlow by done. cbn [ht] in Hh, Hlow. replace h with 1 in * by lia.
    apply (f_rebalance_path_avl Leaf fs 1); [done|done|lia|cbn; lia|lia]. }
  unfold f_delete. destruct (Z.ltb_spec (ht r) (ht l)).
  - destruct l as [|l' n' h' r'].
    { pose proof (ht_nonneg _ Hr). cbn in *. lia. }
    destruct (f_rightmost l' n' h' r' []) as [[[path v] hv'] child] eqn:E.
    pose proof (f_rightmost_plug _ _ _ _ _ _ _ _ _ E) as Ep. cbn [plug] in Ep.
    eapply (f_rebalance_victim_avl path (FL an h r)); [done|done|by left| |];
      rewrite plug_app, Ep; done.
  - destruct r as [|l' n' h' r'].
    { destruct l; [by destruct Hne|]. exfalso. destruct Hl as (->&?&Hl1&Hl2).
      pose proof (ht_nonneg _ Hl1). cbn in *. lia. }
    destruct (f_leftmost l' n' h' r' []) as [[[path v] hv'] child] eqn:E.
    pose proof (f_leftmost_plug _ _ _ _ _ _ _ _ _ E) as Ep. cbn [plug] in Ep.
    destruct l;
    (eapply (f_rebalance_victim_avl path (FR _ an h)); [done|done|by right| |];
      rewrite plug_app, Ep; done).
Qed.

Lemma f_rightmost_cright l n h r fs path v hv child :
  f_rightmost l n h r fs = (path, v, hv, child) -> cright path = cright fs.
Proof.
  revert l n h fs. induction r as [|rl IHl rn rh rr IHr]; intros l n h fs; cbn [f_rightmost].
  - by intros [= <- <- <- <-].
  - intros E. by apply IHr in E.
Qed.
Lemma f_leftmost_cleft l n h r fs path v hv child :
  f_leftmost l n h r fs = (path, v, hv, child) -> cleft path = cleft fs.
Proof.
  revert r n h fs. induction l as [|ll IHl ln lh lr IHr]; intros r n h fs; cbn [f_leftmost].
  - by intros [= <- <- <- <-].
  - intros E. by apply IHl in E.
Qed.

Lemma elems_f_delete fs l an h r :
  avl (plug fs (Node l an h r)) ->
  elems (f_delete fs l h r) = (cleft fs ++ elems l) ++ elems r ++ cright fs.
Proof.
  intros [(Hh&?&Hl&Hr) _]%avl_plug.
  assert (l = Leaf /\ r = Leaf \/ ~ (l = Leaf /\ r = Leaf)) as [[-> ->]|Hne]
    by (destruct l, r; (by left) || (right; by intros [])).
  { cbn. rewrite elems_f_rebalance_path, elems_plug_lr. by rewrite app_nil_r. }
  unfold f_delete. destruct (Z.ltb_spec (ht r) (ht l)).
  - destruct l as [|l' n' h' r'].
    { pose proof (ht_nonneg _ Hr). cbn in *. lia. }
    destruct (f_rightmost l' n' h' r' []) as [[[path v] hv'] child] eqn:E.
    pose proof (f_rightmost_plug _ _ _ _ _ _ _ _ _ E) as Ep. cbn [plug] in Ep. rewrite <-Ep.
    rewrite elems_f_rebalance_path, plug_app. cbn [plug plug1].
    rewrite !(elems_plug_lr fs), !(elems_plug_lr path). cbn [elems].
    rewrite !(elems_plug_lr path), (f_rightmost_cright _ _ _ _ _ _ _ _ _ E). cbn [elems cright].
    rewrite <-!app_assoc. cbn [app]. done.
  - destruct r as [|l' n' h' r'].
    { destruct l; [by destruct Hne|]. exfalso. destruct Hl as (->&?&Hl1&Hl2).
      pose proof (ht_nonneg _ Hl1). cbn in *. lia. }
    destruct (f_leftmost l' n' h' r' []) as [[[path v] hv'] child] eqn:E.
    pose proof (f_leftmost_plug _ _ _ _ _ _ _ _ _ E) as Ep. cbn [plug] in Ep. rewrite <-Ep.
    destruct l; rewrite elems_f_rebalance_path, plug_app; cbn [plug plug1];
    rewrite !(elems_plug_lr fs); cbn [elems]; rewrite !(elems_plug_lr path),
      (f_leftmost_cleft _ _ _ _ _ _ _ _ _ E); cbn [elems cleft];
    rewrite <-!app_assoc; cbn [app]; rewrite <-?app_assoc; done.
Qed.

(** ** Search order *)

(** What the owner's [compare] must be: the sign of a total preorder. *)
Class CompareOk (compare : loc -> loc -> Z) : Prop := {
  compare_opp a b : Z.sgn (compare b a) = - Z.sgn (compare a b);
  compare_le_trans a b c : compare a b <= 0 -> compare b c <= 0 -> compare a c <= 0 }.

Section order.
Context (compare : loc -> loc -> Z) `{!CompareOk compare}.

Definition before (a b : loc) : Prop := compare a b < 0.

Lemma before_flip a b : before a b <-> 0 < compare b a.
Proof. unfold before. pose proof (compare_opp a b). lia. Qed.
Lemma le_before a b c : compare a b <= 0 -> before b c -> before a c.
Proof.
  unfold before. intros Hab Hbc. destruct (Z.lt_ge_cases (compare a c) 0) as [|Hn]; [done|].
  pose proof (compare_opp a c). assert (compare c a <= 0) by lia.
  pose proof (compare_le_trans c a b ltac:(done) Hab). pose proof (compare_opp b c). lia.
Qed.
Lemma before_le a b c : before a b -> compare b c <= 0 -> before a c.
Proof.
  unfold before. intros Hab Hbc. destruct (Z.lt_ge_cases (compare a c) 0) as [|Hn]; [done|].
  pose proof (compare_opp a c). assert (compare c a <= 0) by lia.
  pose proof (compare_le_trans b c a Hbc ltac:(done)). pose proof (compare_opp a b). lia.
Qed.
#[export] Instance before_trans : Transitive before.
Proof. intros a b c ??. eapply le_before; [|done]. unfold before in *. lia. Qed.

Lemma sorted_split l1 a l2 : StronglySorted before (l1 ++ a :: l2) <->
  StronglySorted before (l1 ++ l2) /\ (forall x, x ∈ l1 -> before x a) /\
  (forall x, x ∈ l2 -> before a x).
Proof.
  rewrite !StronglySorted_app, StronglySorted_cons, Forall_forall. split.
  - intros (H1&H2&H3&H4). split_and!; try done.
    + intros x y Hx Hy. apply H1; set_solver.
    + intros x Hx. apply H1; set_solver.
  - intros ((H1&H2&H3)&H4&H5). split_and!; try done.
    intros x y Hx [->|Hy]%elem_of_cons; eauto.
Qed.

(** The place the descent finds. *)
Lemma f_descend_some an t fs fs' :
  f_descend compare an t fs = Some fs' ->
  StronglySorted before (elems (plug fs t)) ->
  (forall x, x ∈ cleft fs -> before x an) -> (forall x, x ∈ cright fs -> before an x) ->
  (forall x, x ∈ cleft fs' -> before x an) /\ (forall x, x ∈ cright fs' -> before an x).
Proof.
  revert fs. induction t as [|l IHl n h r IHr]; intros fs; cbn [f_descend].
  { intros [= <-]. done. }
  intros Hd Hs Hl Hr. pose proof Hs as Hs'.
  rewrite elems_plug_lr in Hs'. cbn [elems] in Hs'.
  rewrite <-app_assoc in Hs'. cbn [app] in Hs'. rewrite app_assoc in Hs'.
  apply sorted_split in Hs' as (_&Hlt&Hgt).
  destruct (Z.ltb_spec (compare an n) 0) as [E|E].
  - apply (IHl (FL n h r :: fs)); try done. cbn [cright].
    intros x [->|Hx]%elem_of_cons; [done|]. transitivity n; [done|]. by apply Hgt.
  - destruct (Z.ltb_spec 0 (compare an n)) as [E'|]; [|done].
    apply before_flip in E'.
    apply (IHr (FR l n h :: fs)); try done. cbn [cleft].
    intros x. rewrite app_assoc. intros [Hx| ->%list_elem_of_singleton]%elem_of_app; [|done].
    transitivity n; [|done]. by apply Hlt.
Qed.
Lemma f_descend_none an t fs :
  f_descend compare an t fs = None -> exists b, b ∈ elems t /\ compare an b = 0.
Proof.
  revert fs. induction t as [|l IHl n h r IHr]; intros fs; cbn [f_descend elems]; [done|].
  destruct (Z.ltb_spec (compare an n) 0); [intros (b&?&?)%IHl; exists b; set_solver|].
  destruct (Z.ltb_spec 0 (compare an n)); [intros (b&?&?)%IHr; exists b; set_solver|].
  intros _. exists n. split; [set_solver|lia].
Qed.

(** ** The abstraction: a tree stands for a sorted sequence of nodes *)
Definition is_avl (s : tree_st) (l : list loc) : Prop :=
  exists t, tree_rep s t /\ avl t /\ elems t = l /\ StronglySorted before l.

(** The specification of insertion and deletion on sequences. *)
Fixpoint seq_insert (an : loc) (l : list loc) : Z * list loc :=
  match l with
  | [] => (0, [an])
  | b :: l' =>
      if compare an b <? 0 then (0, an :: l)
      else if 0 <? compare an b then let '(r, l'') := seq_insert an l' in (r, b :: l'')
      else (-1, l)
  end.

Lemma seq_insert_place an l1 l2 :
  (forall x, x ∈ l1 -> before x an) -> (forall x, x ∈ l2 -> before an x) ->
  seq_insert an (l1 ++ l2) = (0, l1 ++ an :: l2).
Proof.
  intros H1 H2. induction l1 as [|b l1 IH]; cbn [app seq_insert].
  - destruct l2 as [|b l2]; [done|]. cbn. by rewrite (proj2 (Z.ltb_lt _ _)) by (apply H2; set_solver).
  - assert (0 < compare an b) by (apply before_flip, H1; set_solver).
    rewrite (proj2 (Z.ltb_ge _ _)), (proj2 (Z.ltb_lt 0 _)) by lia.
    rewrite IH; [done|]. intros ??. apply H1. set_solver.
Qed.
Lemma seq_insert_dup an b l :
  StronglySorted before l -> b ∈ l -> compare an b = 0 -> seq_insert an l = (-1, l).
Proof.
  intros Hs Hb E. induction l as [|c l IH]; [set_solver|].
  apply StronglySorted_cons in Hs as [Hc Hs]. rewrite Forall_forall in Hc. cbn.
  apply elem_of_cons in Hb as [->|Hb].
  - by rewrite E.
  - assert (before c an) as Hca.
    { eapply before_le; [by apply Hc|]. pose proof (compare_opp an b). lia. }
    apply before_flip in Hca. rewrite (proj2 (Z.ltb_ge _ _)), (proj2 (Z.ltb_lt 0 _)) by lia.
    by rewrite IH.
Qed.

(** ** Insertion and deletion *)
Lemma is_avl_insert s l an :
  is_avl s l -> few l -> alloc s an -> an ∉ l ->
  exists s', iv_avl_tree_insert compare an s = Ok ((seq_insert an l).1, s') /\
    is_avl s' (seq_insert an l).2 /\ agree_nodes (an :: l) s s' /\
    ((seq_insert an l).1 = -1 -> s' = s).
Proof.
  intros (t&Ht&Hav&<-&Hs) Hfew Ha Hin.
  destruct (iv_avl_tree_insert_refines compare an t s Ht Ha Hin) as (s'&He&Ht'&Hg&Hd).
  exists s'. revert He Ht' Hd. unfold f_insert. destruct (f_descend compare an t []) as [fs|] eqn:E.
  - pose proof (f_descend_plug _ _ _ _ _ E) as Ep. cbn [plug] in Ep.
    destruct (f_descend_some _ _ _ _ E) as [Hl Hr]; [done|set_solver..|].
    assert (elems t = cleft fs ++ cright fs) as Et by by rewrite <-Ep, elems_plug_lr.
    rewrite Et, (seq_insert_place an _ _ Hl Hr). cbn [fst snd]. intros He Ht' Hd.
    split_and!; [done| |by rewrite <-Et|done].
    exists (f_rebalance_path (Node Leaf an 1 Leaf) fs). split_and!; [done| | |].
    + pose proof (avl_low t Hav Hfew) as Hlow. rewrite <-Ep in Hav, Hlow.
      pose proof Hav as [_ Hc]%avl_plug. cbn [ht] in Hc.
      apply (f_rebalance_path_avl _ _ 0); [by cbn|done|lia|cbn; lia|].
      destruct fs as [|f fs]; [done|]. unfold top. cbn [plug] in *.
      rewrite top_ht in Hlow |- * by by destruct f. destruct f; cbn in *; lia.
    + by rewrite elems_f_rebalance_path, elems_plug_lr.
    + apply sorted_split. by rewrite <-Et.
  - destruct (f_descend_none _ _ _ E) as (b&Hb&Hb0). rewrite (seq_insert_dup an b) by done.
    cbn [fst snd]. intros He Ht' Hd. split_and!; try done. by exists t.
Qed.

Lemma tree_focus t an : an ∈ elems t -> exists fs l h r, t = plug fs (Node l an h r).
Proof.
  assert (forall t fs, an ∈ elems t -> exists fs' l h r, plug fs t = plug fs' (Node l an h r)) as H.
  { clear t. induction t as [|l IHl n h r IHr]; intros fs Ha; [by apply not_elem_of_nil in Ha|].
    cbn in Ha. apply elem_of_app in Ha as [Ha|[->|Ha]%elem_of_cons].
    - by apply (IHl (FL n h r :: fs)).
    - by exists fs, l, h, r.
    - by apply (IHr (FR l n h :: fs)). }
  intros Ha. destruct (H t [] Ha) as (fs&l&h&r&?). by exists fs, l, h, r.
Qed.

Lemma elems_focus t an l1 l2 fs l h r :
  NoDup (elems t) -> elems t = l1 ++ an :: l2 -> t = plug fs (Node l an h r) ->
  l1 = cleft fs ++ elems l /\ l2 = elems r ++ cright fs.
Proof.
  intros Hnd Ht ->. rewrite elems_plug_lr in Ht, Hnd. cbn [elems] in *.
  rewrite <-app_assoc in Ht, Hnd. cbn [app] in *. rewrite app_assoc in Ht, Hnd.
  apply NoDup_app in Hnd as (_&Hn1&Hnd2). rewrite NoDup_cons in Hnd2.
  destruct (app_eq_inv _ _ _ _ Ht) as [(k&E1&E2)|(k&E1&E2)]; destruct k as [|x k]; cbn in E2;
    rewrite ?app_nil_r in E1.
  - by simplify_eq.
  - exfalso. injection E2 as <- E2. eapply (Hn1 an); [rewrite E1|]; set_solver +.
  - by simplify_eq.
  - exfalso. injection E2 as <- E2. apply (proj1 Hnd2). rewrite E2. set_solver +.
Qed.

Lemma is_avl_delete s l1 an l2 :
  is_avl s (l1 ++ an :: l2) -> few (l1 ++ an :: l2) ->
  exists s', iv_avl_tree_delete an s = Ok (tt, s') /\ is_avl s' (l1 ++ l2) /\
    agree_nodes (l1 ++ an :: l2) s s'.
Proof.
  intros (t&Ht&Hav&El&Hs) Hfew. pose proof Ht as (_&_&Hnd).
  destruct (tree_focus t an) as (fs&l&h&r&Et); [rewrite El; set_solver|].
  destruct (elems_focus t an l1 l2 fs l h r Hnd El Et) as [-> ->]. subst t.
  pose proof (avl_low _ Hav ltac:(by rewrite El)) as Hlow.
  pose proof Hav as [Hn Hc]%avl_plug. pose proof Hn as (Hh&?&Hl&Hr). cbn [ht] in Hc.
  pose proof (ht_nonneg _ Hl). pose proof (ht_nonneg _ Hr).
  destruct (iv_avl_tree_delete_refines s fs l an h r) as (s'&He&Ht'&Hg).
  { intros -> Hlne. destruct l; [done|]. cbn in *. destruct Hl as (->&?&Hl1&Hl2).
    pose proof (ht_nonneg _ Hl1). lia. }
  { done. }
  exists s'. split_and!; [done| |by rewrite El in Hg].
  assert (elems (f_delete fs l h r) = (cleft fs ++ elems l) ++ elems r ++ cright fs /\
    avl (f_delete fs l h r)) as [Ee Hav'].
  { split; [by apply (elems_f_delete _ _ an)|by apply (f_delete_avl _ _ an)]. }
  exists (f_delete fs l h r). split_and!; try done. by apply sorted_split in Hs as (?&_).
Qed.

(** ** Iteration *)
Lemma f_leftmost_hd l n h r fs : head (elems (Node l n h r)) = Some (f_leftmost l n h r fs).1.1.2.
Proof.
  revert r n h fs. induction l as [|ll IHl ln lh lr IHr]; intros r n h fs; cbn [f_leftmost]; [done|].
  rewrite <-IHl. cbn [elems]. by destruct (elems ll).
Qed.
Lemma f_rightmost_last l n h r fs : last (elems (Node l n h r)) = Some (f_rightmost l n h r fs).1.1.2.
Proof.
  revert l n h fs. induction r as [|rl IHl rn rh rr IHr]; intros l n h fs; cbn [f_rightmost].
  - cbn [elems]. by rewrite last_snoc.
  - rewrite <-IHr. cbn [elems]. rewrite last_app, last_cons.
    destruct (last (elems rl ++ rn :: elems rr)) eqn:E; [done|].
    apply last_None in E. by destruct (elems rl).
Qed.

Lemma up_while_right_spec fs t n fuel s :
  rctx s fs (Some n) -> rep s (par_of fs) t -> root_of t = Some n -> NoDup (elems (plug fs t)) ->
  (length fs < fuel)%nat -> up_while_right fuel n (par_of fs) s = Ok (head (cright fs), s).
Proof.
  revert t n fuel. induction fs as [|f fs IH]; intros t n [|fuel] Hc Hr Hn Hnd Hf; cbn in Hf; try lia;
    cbn [up_while_right par_of]; [done|].
  pose proof Hc as ((Ha&Hl&Hr'&Hp&Hh&Hu)&Hs&Hc0).
  mrun (get_right_Ok s (fnode f) Ha). rewrite Hr'. destruct f as [m h r|l m h]; cbn [fnode cright] in *.
  - rewrite ptr_eqb_ne; [done|]. intros E.
    assert (n ∈ elems r) as Hin by (apply root_of_elem; congruence).
    apply root_of_elem in Hn. rewrite elems_plug in Hnd. apply NoDup_app in Hnd as (_&Hd&_).
    eapply Hd; [done|]. cbn. set_solver +Hin.
  - rewrite ptr_eqb_refl. mrun (get_parent_Ok s m Ha). rewrite Hp.
    apply (IH (Node l m h t)); [done| |done|done|lia].
    cbn. rewrite Hn. split_and!; done.
Qed.
Lemma up_while_left_spec fs t n fuel s :
  rctx s fs (Some n) -> rep s (par_of fs) t -> root_of t = Some n -> NoDup (elems (plug fs t)) ->
  (length fs < fuel)%nat -> up_while_left fuel n (par_of fs) s = Ok (last (cleft fs), s).
Proof.
  revert t n fuel. induction fs as [|f fs IH]; intros t n [|fuel] Hc Hr Hn Hnd Hf; cbn in Hf; try lia;
    cbn [up_while_left par_of]; [done|].
  pose proof Hc as ((Ha&Hl&Hr'&Hp&Hh&Hu)&Hs&Hc0).
  mrun (get_left_Ok s (fnode f) Ha). rewrite Hl. destruct f as [m h r|l m h]; cbn [fnode cleft] in *.
  - rewrite ptr_eqb_refl. mrun (get_parent_Ok s m Ha). rewrite Hp.
    apply (IH (Node t m h r)); [done| |done|done|lia].
    cbn. rewrite Hn. split_and!; done.
  - rewrite ptr_eqb_ne; [by rewrite app_assoc, last_snoc|]. intros E.
    assert (n ∈ elems l) as Hin by (apply root_of_elem; congruence).
    apply root_of_elem in Hn. rewrite elems_plug in Hnd. apply NoDup_app in Hnd as (_&Hd&_).
    eapply Hd; [done|]. cbn. set_solver +Hin.
Qed.

Lemma next_spec s l1 an l2 :
  is_avl s (l1 ++ an :: l2) -> iv_avl_tree_next an s = Ok (head l2, s).
Proof.
  intros (t&Ht&Hav&El&Hs). pose proof Ht as (Hroot&Hrep&Hnd).
  destruct (tree_focus t an) as (fs&l&h&r&Et); [rewrite El; set_solver|].
  destruct (elems_focus t an l1 l2 fs l h r Hnd El Et) as [-> ->]. subst t.
  pose proof (proj1 (rep_plug s fs _) (conj Hroot Hrep)) as [Hc Hr].
  pose proof (ctx_bound _ _ _ Hc Hr Hnd) as Hb. cbn [elems] in Hb. rewrite length_app in Hb. cbn in Hb.
  unfold iv_avl_tree_next, loop_bound.
  mrun (eq_refl : gets (fun t => S (S (size (nodes t)))) s = Ok (S (S (size (nodes s))), s)).
  pose proof Hr as ((Ha&_&Hr'&Hp&_)&_&Hrr). mrun (get_right_Ok s an Ha). rewrite Hr'.
  destruct r as [|rl rn rh rr]; cbn [root_of].
  - mrun (get_parent_Ok s an Ha). rewrite Hp. by eapply up_while_right_spec; [..|lia].
  - mrun (leftmost_refines rl rn rh rr [] (S (S (size (nodes s)))) s _ Hrr ltac:(lia)).
    rewrite head_app, (f_leftmost_hd _ _ _ _ []). done.
Qed.

Lemma prev_spec s l1 an l2 :
  is_avl s (l1 ++ an :: l2) -> iv_avl_tree_prev an s = Ok (last l1, s).
Proof.
  intros (t&Ht&Hav&El&Hs). pose proof Ht as (Hroot&Hrep&Hnd).
  destruct (tree_focus t an) as (fs&l&h&r&Et); [rewrite El; set_solver|].
  destruct (elems_focus t an l1 l2 fs l h r Hnd El Et) as [-> ->]. subst t.
  pose proof (proj1 (rep_plug s fs _) (conj Hroot Hrep)) as [Hc Hr].
  pose proof (ctx_bound _ _ _ Hc Hr Hnd) as Hb. cbn [elems] in Hb. rewrite length_app in Hb. cbn in Hb.
  unfold iv_avl_tree_prev, loop_bound.
  mrun (eq_refl : gets (fun t => S (S (size (nodes t)))) s = Ok (S (S (size (nodes s))), s)).
  pose proof Hr as ((Ha&Hl'&_&Hp&_)&Hrl&_). mrun (get_left_Ok s an Ha). rewrite Hl'.
  destruct l as [|rl rn rh rr]; cbn [root_of].
  - mrun (get_parent_Ok s an Ha). rewrite Hp, app_nil_r. by eapply up_while_left_spec; [..|lia].
  - mrun (rightmost_refines rl rn rh rr [] (S (S (size (nodes s)))) s _ Hrl ltac:(lia)).
    rewrite last_app, (f_rightmost_last _ _ _ _ []). done.
Qed.

Lemma min_spec s l : is_avl s l -> iv_avl_tree_min s = Ok (head l, s).
Proof.
  intros (t&(Hroot&Hrep&Hnd)&Hav&<-&Hs). pose proof (length_nodes _ _ _ Hrep Hnd).
  unfold iv_avl_tree_min, loop_bound.
  mrun (eq_refl : gets (fun t => S (S (size (nodes t)))) s = Ok (S (S (size (nodes s))), s)).
  mrun (read_ref_Ok s RefRoot I). cbn [ref_view]. rewrite Hroot.
  destruct t as [|l n h r]; [done|]. cbn [root_of].
  mrun (leftmost_refines l n h r [] (S (S (size (nodes s)))) s _ Hrep ltac:(lia)).
  by rewrite (f_leftmost_hd _ _ _ _ []).
Qed.
Lemma max_spec s l : is_avl s l -> iv_avl_tree_max s = Ok (last l, s).
Proof.
  intros (t&(Hroot&Hrep&Hnd)&Hav&<-&Hs). pose proof (length_nodes _ _ _ Hrep Hnd).
  unfold iv_avl_tree_max, loop_bound.
  mrun (eq_refl : gets (fun t => S (S (size (nodes t)))) s = Ok (S (S (size (nodes s))), s)).
  mrun (read_ref_Ok s RefRoot I). cbn [ref_view]. rewrite Hroot.
  destruct t as [|l n h r]; [done|]. cbn [root_of].
  mrun (rightmost_refines l n h r [] (S (S (size (nodes s)))) s _ Hrep ltac:(lia)).
  by rewrite (f_rightmost_last _ _ _ _ []).
Qed.

Lemma for_each_loop_spec s l1 l2 fuel :
  is_avl s (l1 ++ l2) -> (length l2 < fuel)%nat ->
  avl_for_each_loop fuel (head l2) s = Ok (l2, s).
Proof.
  revert l1 fuel. induction l2 as [|a l2 IH]; intros l1 [|fuel] Hs Hf; cbn in Hf; try lia; [done|].
  cbn [avl_for_each_loop head]. mrun (next_spec _ _ _ _ Hs).
  rewrite (cons_middle a l1 l2), app_assoc in Hs. mrun (IH _ fuel Hs ltac:(lia)). done.
Qed.
Lemma for_each_spec s l : is_avl s l -> iv_avl_tree_for_each s = Ok (l, s).
Proof.
  intros Hs. pose proof Hs as (t&(Hroot&Hrep&Hnd)&_&El&_). pose proof (length_nodes _ _ _ Hrep Hnd).
  unfold iv_avl_tree_for_each, loop_bound.
  mrun (eq_refl : gets (fun t => S (S (size (nodes t)))) s = Ok (S (S (size (nodes s))), s)).
  mrun (min_spec _ _ Hs). apply (for_each_loop_spec s []); [done|]. rewrite <-El. lia.
Qed.

Lemma seq_insert_cases an l : StronglySorted before l ->
  (seq_insert an l = (-1, l) /\ exists b, b ∈ l /\ compare an b = 0) \/
  exists l1 l2, l = l1 ++ l2 /\ seq_insert an l = (0, l1 ++ an :: l2) /\
    (forall b, b ∈ l1 -> before b an) /\ (forall b, b ∈ l2 -> before an b).
Proof.
  induction l as [|c l IH]; intros Hs.
  { right. exists [], []. split_and!; try done; by intros b ?%not_elem_of_nil. }
  apply StronglySorted_cons in Hs as [Hc Hs]. rewrite Forall_forall in Hc. cbn [seq_insert].
  destruct (Z.ltb_spec (compare an c) 0) as [Hlt|Hge].
  { right. exists [], (c :: l). split_and!; try done; [by intros b ?%not_elem_of_nil|].
    intros b [->|Hb]%elem_of_cons; [done|]. transitivity c; [done|]. by apply Hc. }
  destruct (Z.ltb_spec 0 (compare an c)) as [Hgt|Hle].
  - apply before_flip in Hgt. destruct (IH Hs) as [(E&b&Hb&Hb0)|(l1&l2&->&E&H1&H2)]; rewrite E.
    + left. split; [done|]. exists b. split; [by constructor|done].
    + right. exists (c :: l1), l2. split_and!; try done.
      intros b [->|Hb]%elem_of_cons; auto.
  - left. split; [done|]. exists c. split; [by constructor|lia].
Qed.
End order.

(** ** Programs over one tree *)

Inductive avl_cmd :=
  | CInsert (a : loc) | CDelete (a : loc) | CNext (a : loc) | CPrev (a : loc)
  | CMin | CMax | CEmpty | CForEach.
Inductive avl_out := OInt (z : Z) | OPtr (p : ptr) | OBool (b : bool) | OList (l : list loc).

Section programs.
Context (compare : loc -> loc -> Z).

Definition run_avl_cmd (c : avl_cmd) : M tree_st avl_out :=
  match c with
  | CInsert a => r ← iv_avl_tree_insert compare a; mret (OInt r)
  | CDelete a => iv_avl_tree_delete a;; mret (OInt 0)
  | CNext a => p ← iv_avl_tree_next a; mret (OPtr p)
  | CPrev a => p ← iv_avl_tree_prev a; mret (OPtr p)
  | CMin => p ← iv_avl_tree_min; mret (OPtr p)
  | CMax => p ← iv_avl_tree_max; mret (OPtr p)
  | CEmpty => b ← iv_avl_tree_empty; mret (OBool b)
  | CForEach => l ← iv_avl_tree_for_each; mret (OList l)
  end.
Fixpoint run_avl (cs : list avl_cmd) : M tree_st (list avl_out) :=
  match cs with
  | [] => mret []
  | c :: cs => o ← run_avl_cmd c; os ← run_avl cs; mret (o :: os)
  end.

(** The neighbours of [a] in a sequence. *)
Fixpoint succ_in (a : loc) (l : list loc) : ptr :=
  match l with
  | [] => None
  | b :: l' => if decide (a = b) then head l' else succ_in a l'
  end.
Fixpoint pred_in (a : loc) (p : ptr) (l : list loc) : ptr :=
  match l with
  | [] => None
  | b :: l' => if decide (a = b) then p else pred_in a (Some b) l'
  end.

(** The same program on sorted sequences of nodes; [None] when it breaks
    the contract of the interface (inserting a node that is in the tree,
    deleting or following one that is not). *)
Definition spec_avl_cmd (alive : gset loc) (c : avl_cmd)
    (l : list loc) : option (avl_out * list loc) :=
  match c with
  | CInsert a => if decide (a ∈ alive /\ (a ∉ l) /\ few (a :: l))
      then let '(r, l') := seq_insert compare a l in Some (OInt r, l') else None
  | CDelete a => if decide (a ∈ l) then Some (OInt 0, remove a l) else None
  | CNext a => if decide (a ∈ l) then Some (OPtr (succ_in a l), l) else None
  | CPrev a => if decide (a ∈ l) then Some (OPtr (pred_in a None l), l) else None
  | CMin => Some (OPtr (head l), l)
  | CMax => Some (OPtr (last l), l)
  | CEmpty => Some (OBool (bool_decide (l = [])), l)
  | CForEach => Some (OList l, l)
  end.
Fixpoint spec_avl (alive : gset loc) (cs : list avl_cmd)
    (l : list loc) : option (list avl_out * list loc) :=
  match cs with
  | [] => Some ([], l)
  | c :: cs =>
      '(o, l) ← spec_avl_cmd alive c l; '(os, l) ← spec_avl alive cs l; Some (o :: os, l)
  end.

Lemma succ_in_split l1 a l2 : NoDup (l1 ++ a :: l2) -> succ_in a (l1 ++ a :: l2) = head l2.
Proof.
  induction l1 as [|b l1 IH]; cbn [app succ_in]; [by rewrite decide_True|].
  intros [Hn Hnd]%NoDup_cons. rewrite decide_False by set_solver. auto.
Qed.
Lemma pred_in_split l1 a l2 p :
  NoDup (l1 ++ a :: l2) -> pred_in a p (l1 ++ a :: l2) = match last l1 with Some b => Some b | None => p end.
Proof.
  revert p. induction l1 as [|b l1 IH]; intros p; cbn [app pred_in]; [by rewrite decide_True|].
  intros [Hn Hnd]%NoDup_cons. rewrite decide_False by set_solver. rewrite IH by done.
  rewrite last_cons. by destruct (last l1).
Qed.
Context `{!CompareOk compare}.

Lemma empty_spec s l : is_avl compare s l -> iv_avl_tree_empty s = Ok (bool_decide (l = []), s).
Proof.
  intros (t&(Hroot&_)&_&<-&_). unfold iv_avl_tree_empty. mrun (read_ref_Ok s RefRoot I).
  cbn [ref_view]. rewrite Hroot. destruct t as [|l n h r]; [done|]. cbn.
  by rewrite bool_decide_false by by destruct (elems l).
Qed.

Lemma seq_insert_keeps a l :
  (seq_insert compare a l).2 ⊆ a :: l /\ (length (seq_insert compare a l).2 <= S (length l))%nat.
Proof.
  induction l as [|b l [IH1 IH2]]; cbn [seq_insert]; [by cbn; auto|].
  repeat case_match; cbn [fst snd length] in *; split; first [lia | set_solver].
Qed.

Lemma run_avl_cmd_refines alive c s l o l' :
  is_avl compare s l -> few l -> (forall a, a ∈ alive -> alloc s a) ->
  spec_avl_cmd alive c l = Some (o, l') ->
  exists s', run_avl_cmd c s = Ok (o, s') /\ is_avl compare s' l' /\ few l' /\
    (forall a, a ∈ alive -> alloc s' a).
Proof.
  intros Hs Hfew Hal Hc. assert (NoDup l) as Hnd by by destruct Hs as (?&(?&?&?)&?&<-&?).
  destruct c as [a|a|a|a| | | |]; cbn [spec_avl_cmd run_avl_cmd] in *.
  - case_decide as Hd; [|done]. destruct Hd as (Ha&Hn&Hf).
    destruct (seq_insert compare a l) as [r l0] eqn:E. injection Hc as <- <-.
    destruct (is_avl_insert compare s l a) as (s'&He&Hs'&[Hg _]&_); [auto..|].
    pose proof (seq_insert_keeps a l) as [_ Hlen]. rewrite E in *. cbn [fst snd] in *.
    exists s'. split_and!; [by mrun He|done| |auto]. unfold few in *. cbn in Hf. lia.
  - case_decide as Hd; [|done]. injection Hc as <- <-.
    apply list_elem_of_split in Hd as (l1&l2&->). rewrite remove_split by done.
    destruct (is_avl_delete compare s l1 a l2) as (s'&He&Hs'&[Hg _]); [done..|].
    exists s'. split_and!; [by mrun He|done| |auto]. unfold few in *.
    rewrite !length_app in *. cbn in Hfew. lia.
  - case_decide as Hd; [|done]. injection Hc as <- <-.
    apply list_elem_of_split in Hd as (l1&l2&->). rewrite succ_in_split by done.
    exists s. split_and!; auto. by mrun (next_spec compare s l1 a l2 Hs).
  - case_decide as Hd; [|done]. injection Hc as <- <-.
    apply list_elem_of_split in Hd as (l1&l2&->). rewrite pred_in_split by done.
    exists s. split_and!; auto. mrun (prev_spec compare s l1 a l2 Hs). by destruct (last l1).
  - injection Hc as <- <-. exists s. split_and!; auto. by mrun (min_spec compare s l Hs).
  - injection Hc as <- <-. exists s. split_and!; auto. by mrun (max_spec compare s l Hs).
  - injection Hc as <- <-. exists s. split_and!; auto. by mrun (empty_spec s l Hs).
  - injection Hc as <- <-. exists s. split_and!; auto. by mrun (for_each_spec compare s l Hs).
Qed.

Lemma init_spec s : is_avl compare (mk_tree None (nodes s)) [].
Proof.
  exists Leaf. split; [|split_and!; [done|done|constructor]].
  split; [done|]. split; [done|]. constructor.
Qed.

Lemma run_avl_refines s cs os l :
  spec_avl (dom (nodes s)) cs [] = Some (os, l) ->
  exists s', (INIT_IV_AVL_TREE;; run_avl cs) s = Ok (os, s') /\ is_avl compare s' l.
Proof.
  intros Hc. unfold INIT_IV_AVL_TREE. mrun (write_ref_Ok s RefRoot None I). cbn [ss_ref].
  assert (forall a, a ∈ dom (nodes s) -> alloc (mk_tree None (nodes s)) a) as Hal.
  { intros a Ha. by apply elem_of_dom in Ha. }
  assert (few []) as Hfew by done. pose proof (init_spec s) as Hs.
  revert os l Hc Hs Hal Hfew. generalize (mk_tree None (nodes s)) (dom (nodes s)) ([] : list loc).
  intros s1 A. revert s1. induction cs as [|c cs IH]; intros s1 l0 os l Hc Hs Hal Hfew;
    cbn [spec_avl run_avl] in *.
  - simplify_eq. by exists s1.
  - destruct (spec_avl_cmd A c l0) as [[o l1]|] eqn:E; [|done]. cbn in Hc.
    destruct (spec_avl A cs l1) as [[os' l2]|] eqn:E2; [|done]. cbn in Hc. simplify_eq.
    destruct (run_avl_cmd_refines A c s1 l0 o l1) as (s2&He&Hs2&Hf2&Ha2); [done..|].
    destruct (IH s2 l1 os' l) as (s3&He3&?); [done..|]. exists s3. split; [|done].
    mrun He. by mrun He3.
Qed.
End programs.

(** The number of levels of a tree. *)
Fixpoint depth (t : tree) : Z :=
  match t with Leaf => 0 | Node l _ _ r => 1 + Z.max (depth l) (depth r) end.
(** Every node's [height] field is the height of its subtree. *)
Fixpoint heights_exact (t : tree) : Prop :=
  match t with
  | Leaf => True
  | Node l _ h r => h = depth t /\ heights_exact l /\ heights_exact r
  end.

Lemma avl_depth t : avl t -> depth t = ht t /\ heights_exact t.
Proof.
  induction t as [|l IHl n h r IHr]; [done|]. cbn. intros (->&_&Hl&Hr).
  destruct (IHl Hl) as [-> ?], (IHr Hr) as [-> ?]. done.
Qed.

(** A concrete [compare], for the witnesses. *)
Definition compare_addr (a b : loc) : Z := Z.pos a - Z.pos b.
#[global] Instance compare_addr_ok : CompareOk compare_addr.
Proof. split; unfold compare_addr; lia. Qed.

(** [n] freshly allocated nodes. *)
Definition fresh_nodes (n : nat) : tree_st :=
  mk_tree None (list_to_map ((fun i => (Pos.of_nat (S i), dflt)) <$> seq 0 n)).

(** ** Correctness of the AVL trees *)

(** C14. The AVL tree implementation refines sorted sequences: any program of
    insertions, deletions, successor/predecessor queries, min, max, emptiness
    tests and for-each loops, started on a freshly initialised tree and
    respecting the interface (which [spec_avl] decides), terminates without
    undefined behaviour and returns exactly what the same program returns on
    a sorted sequence of nodes: insertion returns -1 and changes nothing
    precisely when an equal node is present, deletion removes exactly its
    node, iteration is in order. *)
Theorem iv_avl_refines_sorted_sequences compare `{!CompareOk compare} s cs os l :
  spec_avl compare (dom (nodes s)) cs [] = Some (os, l) ->
  exists s', (INIT_IV_AVL_TREE;; run_avl compare cs) s = Ok (os, s') /\ is_avl compare s' l.
Proof. exact (run_avl_refines compare s cs os l). Qed.

Lemma iv_avl_refines_sorted_sequences_witness :
  let cs := [CInsert 5; CInsert 2; CInsert 8; CInsert 1; CInsert 3; CInsert 2; CForEach;
             CDelete 5; CNext 3; CPrev 3; CMin; CMax; CEmpty; CForEach]%positive in
  exists s', (INIT_IV_AVL_TREE;; run_avl compare_addr (take 5 cs ++ drop 6 cs)) (fresh_nodes 9) =
    Ok ([OInt 0; OInt 0; OInt 0; OInt 0; OInt 0; OList [1; 2; 3; 5; 8]; OInt 0;
         OPtr (Some 8); OPtr (Some 2); OPtr (Some 1); OPtr (Some 8); OBool false;
         OList [1; 2; 3; 8]]%positive, s') /\ is_avl compare_addr s' [1; 2; 3; 8]%positive.
Proof.
  intros cs. apply iv_avl_refines_sorted_sequences; [exact compare_addr_ok|].
  vm_compute. reflexivity.
Defined.

(** Insertion into an AVL tree whose nodes, in order, are [l]: it always
    terminates; if a node equal to [an] is present it returns -1 and leaves
    the whole heap as it was, otherwise it returns 0, the tree then holds [an]
    at its place in the order, and no object outside the tree is written. *)
Theorem iv_avl_tree_insert_correct compare `{!CompareOk compare} s l an :
  is_avl compare s l -> few l -> alloc s an -> an ∉ l ->
  exists s', agree_nodes (an :: l) s s' /\
    ((iv_avl_tree_insert compare an s = Ok (-1, s') /\ s' = s /\
      exists b, b ∈ l /\ compare an b = 0) \/
     (iv_avl_tree_insert compare an s = Ok (0, s') /\
      exists l1 l2, l = l1 ++ l2 /\ is_avl compare s' (l1 ++ an :: l2) /\
        (forall b, b ∈ l1 -> compare b an < 0) /\ (forall b, b ∈ l2 -> compare an b < 0))).
Proof.
  intros Hs Hf Ha Hn. destruct (is_avl_insert compare s l an) as (s'&He&Hs'&Hg&Hd); [done..|].
  exists s'. split; [done|].
  destruct (seq_insert_cases compare an l) as [(E&b&Hb&Hb0)|(l1&l2&->&E&Hl1&Hl2)];
    [by destruct Hs as (?&?&?&?&?)|..]; rewrite E in *; cbn [fst snd] in *.
  - left. split_and!; eauto.
  - right. split; [done|]. by exists l1, l2.
Qed.

Lemma iv_avl_tree_insert_correct_witness :
  exists s', agree_nodes [1]%positive (fresh_nodes 1) s' /\
    ((iv_avl_tree_insert compare_addr 1 (fresh_nodes 1) = Ok (-1, s') /\ s' = fresh_nodes 1 /\
      exists b, b ∈ ([] : list loc) /\ compare_addr 1 b = 0) \/
     (iv_avl_tree_insert compare_addr 1 (fresh_nodes 1) = Ok (0, s') /\
      exists l1 l2, [] = l1 ++ l2 /\ is_avl compare_addr s' (l1 ++ 1%positive :: l2) /\
        (forall b, b ∈ l1 -> compare_addr b 1 < 0) /\ (forall b, b ∈ l2 -> compare_addr 1 b < 0))).
Proof.
  apply (iv_avl_tree_insert_correct compare_addr (fresh_nodes 1) []).
  - exact (init_spec compare_addr (fresh_nodes 1)).
  - reflexivity.
  - exists dflt. reflexivity.
  - apply not_elem_of_nil.
Defined.

(** Both subtrees of every node are equally high, or differ by one level. *)
Fixpoint balanced (t : tree) : Prop :=
  match t with
  | Leaf => True
  | Node l _ _ r => -1 <= depth r - depth l <= 1 /\ balanced l /\ balanced r
  end.
Lemma avl_balanced t : avl t -> balanced t.
Proof.
  induction t as [|l IHl a h r IHr]; [done|]. intros Ht. assert (Ht' := Ht). destruct Ht as (_&Hb&Hl&Hr). cbn [balanced].
  rewrite (proj1 (avl_depth l Hl)), (proj1 (avl_depth r Hr)). split_and!; [lia|lia|by apply IHl|by apply IHr].
Qed.

(** The least number of nodes of balanced trees with [h] and [h + 1] levels. *)
Fixpoint fewest (h : nat) : Z * Z := match h with O => (0, 1) | S h => let '(a, b) := fewest h in (b, a + b + 1) end.
Definition min_nodes (h : nat) : Z := (fewest h).1.
Lemma min_nodes_SS h : min_nodes (S (S h)) = min_nodes (S h) + min_nodes h + 1.
Proof. unfold min_nodes. cbn. destruct (fewest h) as [a b]. cbn. lia. Qed.
Lemma min_nodes_S h : 0 <= min_nodes h <= min_nodes (S h).
Proof.
  assert (forall h, 0 <= min_nodes h <= min_nodes (S h) /\ 0 <= min_nodes (S h) <= min_nodes (S (S h))) as H; [|by apply H].
  clear h. induction h as [|h [IH1 IH2]]; [by vm_compute|]. split; [done|]. rewrite (min_nodes_SS (S h)). lia.
Qed.
Lemma min_nodes_mono h h' : (h <= h')%nat -> min_nodes h <= min_nodes h'.
Proof. induction 1 as [|h' _ IH]; [lia|]. pose proof (min_nodes_S h'). lia. Qed.
Lemma avl_min_nodes t : avl t -> min_nodes (Z.to_nat (ht t)) <= Z.of_nat (length (elems t)).
Proof.
  induction t as [|l IHl a h r IHr]; intros Ht; [by vm_compute|]. assert (Ht' := Ht). destruct Ht as (->&Hb&Hl&Hr). pose proof (ht_nonneg _ Hl). pose proof (ht_nonneg _ Hr).
  specialize (IHl Hl). specialize (IHr Hr). cbn [ht elems]. rewrite length_app. cbn [length].
  assert (forall x y : Z, 0 <= x -> 0 <= y -> -1 <= y - x <= 1 -> min_nodes (Z.to_nat (1 + Z.max x y)) <= min_nodes (Z.to_nat x) + min_nodes (Z.to_nat y) + 1) as Hmin.
  { intros x y Hx Hy Hxy. assert (exists n m, x = Z.of_nat n /\ y = Z.of_nat m) as (n&m&->&->) by (exists (Z.to_nat x), (Z.to_nat y); lia).
    replace (Z.to_nat (1 + Z.max (Z.of_nat n) (Z.of_nat m))) with (S (Nat.max n m)) by lia. rewrite !Nat2Z.id.
    destruct (decide (n = m)) as [->|]; [rewrite Nat.max_id; destruct m as [|m]; [by vm_compute|]; rewrite min_nodes_SS; pose proof (min_nodes_S m); lia|].
    destruct (decide (m = S n)) as [->|]; [rewrite Nat.max_r by lia; rewrite min_nodes_SS; lia|]. assert (n = S m) as -> by lia. rewrite Nat.max_l by lia. rewrite min_nodes_SS. lia. }
  specialize (Hmin (ht l) (ht r)). lia.
Qed.

(** C30. Balance: whatever program of insertions and deletions ran, every stored
    [uint8_t] height is the exact height of its subtree (no wrap-around), the two
    subtrees of every node differ by at most one level, and a tree with [d] levels has at
    least the Fibonacci-like number [min_nodes d] of nodes: with fewer than 2^32 nodes it
    has at most 45 levels. *)
Theorem iv_avl_stays_balanced compare `{!CompareOk compare} s cs os l :
  spec_avl compare (dom (nodes s)) cs [] = Some (os, l) ->
  exists s' t, (INIT_IV_AVL_TREE;; run_avl compare cs) s = Ok (os, s') /\
    tree_rep s' t /\ elems t = l /\ heights_exact t /\ balanced t /\
    min_nodes (Z.to_nat (depth t)) <= Z.of_nat (length l) /\ (Z.of_nat (length l) < 2 ^ 32 -> depth t <= 45).
Proof.
  intros Hc. destruct (run_avl_refines compare s cs os l Hc) as (s'&He&t&Ht&Hav&<-&_).
  destruct (avl_depth t Hav) as [Ed ?]. pose proof (avl_min_nodes t Hav) as Hm. rewrite <-Ed in Hm.
  exists s', t. split_and!; try done; try apply Ht; [by apply avl_balanced|]. intros Hlt.
  destruct (Z.le_gt_cases (depth t) 45) as [|Hgt]; [done|]. pose proof (min_nodes_mono 46 (Z.to_nat (depth t)) ltac:(lia)) as Hmono.
  assert (min_nodes 46 = 4807526975) as E46 by (vm_compute; reflexivity). lia.
Qed.

Lemma iv_avl_stays_balanced_witness :
  let cs := CInsert <$> [1; 2; 3; 4; 5; 6; 7]%positive in
  exists s' t, (INIT_IV_AVL_TREE;; run_avl compare_addr cs) (fresh_nodes 7) =
      Ok (repeat (OInt 0) 7, s') /\
    tree_rep s' t /\ elems t = [1; 2; 3; 4; 5; 6; 7]%positive /\ heights_exact t /\ balanced t /\
    min_nodes (Z.to_nat (depth t)) <= Z.of_nat (length [1; 2; 3; 4; 5; 6; 7]%positive) /\
    (Z.of_nat (length [1; 2; 3; 4; 5; 6; 7]%positive) < 2 ^ 32 -> depth t <= 45).
Proof.
  intros cs. apply iv_avl_stays_balanced; [exact compare_addr_ok|]. vm_compute. reflexivity.
Defined.
