(* ===== verification/Task.v ===== *)
(** * Tasks: src/src/iv_task.c

    The queue [st->tasks], the queue of the round being run
    ([st->tasks_current], a list head on the stack of [iv_run_tasks]) and the
    membership test of each task are real [iv_list_head] cells.  Handlers are
    arbitrary programs over the task interface, chosen from the state; an
    abstract machine over two sequences says what a round must do. *)

From S2P Require Import Prelude IvList.

Local Open Scope Z_scope.

(** The task fields of [struct iv_state], with the heap of [iv_list_head]
    cells and the [epoch] field of each [struct iv_task_].  [ran] records the
    handlers called, most recent last. *)
Record task_state := mk_ts {
  ts_lists : lheap;
  ts_epochs : gmap loc Z;
  ts_current : ptr;
  ts_epoch : Z;
  ts_numobjs : Z;
  ts_ran : list loc }.

(** Task interface calls a handler may make. *)
Inductive task_call := TInit (t : loc) | TRegister (t : loc) | TUnregister (t : loc).

Definition on_lists {A} (m : M lheap A) : M task_state A := fun s =>
  match m (ts_lists s) with
  | Ok (a, h) => Ok (a, mk_ts h (ts_epochs s) (ts_current s) (ts_epoch s) (ts_numobjs s) (ts_ran s))
  | Fatal e => Fatal e
  | Undef => Undef
  | OutOfFuel => OutOfFuel
  end.
Definition set_epoch_of (t : loc) (e : Z) : M task_state unit := modify (fun s =>
  mk_ts (ts_lists s) (<[t := e]> (ts_epochs s)) (ts_current s) (ts_epoch s) (ts_numobjs s) (ts_ran s)).
Definition set_current (p : ptr) : M task_state unit := modify (fun s =>
  mk_ts (ts_lists s) (ts_epochs s) p (ts_epoch s) (ts_numobjs s) (ts_ran s)).
Definition set_task_epoch (e : Z) : M task_state unit := modify (fun s =>
  mk_ts (ts_lists s) (ts_epochs s) (ts_current s) e (ts_numobjs s) (ts_ran s)).
Definition add_numobjs (d : Z) : M task_state unit := modify (fun s =>
  mk_ts (ts_lists s) (ts_epochs s) (ts_current s) (ts_epoch s) (ts_numobjs s + d) (ts_ran s)).
Definition log_run (t : loc) : M task_state unit := modify (fun s =>
  mk_ts (ts_lists s) (ts_epochs s) (ts_current s) (ts_epoch s) (ts_numobjs s) (ts_ran s ++ [t])).

Section task.
(** The addresses of [st->tasks] and of the stack variable [tasks]; the
    [handler]s: the calls made by the handler that was called last, as a
    function of the handlers called so far. *)
Context (st_tasks tasks : loc) (handler : list loc -> list task_call).

Definition iv_task_init : M task_state unit := on_lists (INIT_IV_LIST_HEAD st_tasks).

Definition IV_TASK_INIT (t : loc) : M task_state unit :=
  on_lists (INIT_IV_LIST_HEAD t);;
  e ← gets ts_epoch; set_epoch_of t e.

Definition iv_task_register (t : loc) : M task_state unit :=
  e ← on_lists (iv_list_empty t);
  if negb e then iv_fatal "iv_task_register: called with task still on a list"
  else
    add_numobjs 1;;
    cur ← gets ts_current; te ← gets ts_epochs; te ← deref (te !! t); ep ← gets ts_epoch;
    match cur with
    | None => on_lists (iv_list_add_tail t st_tasks)
    | Some cur =>
        if te =? ep then on_lists (iv_list_add_tail t st_tasks)
        else on_lists (iv_list_add_tail t cur)
    end.

Definition iv_task_unregister (t : loc) : M task_state unit :=
  e ← on_lists (iv_list_empty t);
  if (e : bool) then iv_fatal "iv_task_unregister: called with task not on a list"
  else add_numobjs (-1);; on_lists (iv_list_del_init t).

Definition iv_task_registered (t : loc) : M task_state bool :=
  e ← on_lists (iv_list_empty t); mret (negb e).

Definition iv_pending_tasks : M task_state bool :=
  e ← on_lists (iv_list_empty st_tasks); mret (negb e).

(** What the interface asks of a client: it initialises a task before using it,
    and not while it is registered. *)
Definition legal_task_call (c : task_call) (s : task_state) : bool :=
  match c with
  | TInit t =>
      match ts_epochs s !! t with
      | None => true
      | Some _ => match on_lists (iv_list_empty t) s with Ok (e, _) => e | _ => false end
      end
  | TRegister t | TUnregister t => bool_decide (is_Some (ts_epochs s !! t))
  end.
Definition run_call (c : task_call) : M task_state unit :=
  s ← get; requires (legal_task_call c s);;
  match c with
  | TInit t => IV_TASK_INIT t
  | TRegister t => iv_task_register t
  | TUnregister t => iv_task_unregister t
  end.
Fixpoint run_calls (cs : list task_call) : M task_state unit :=
  match cs with [] => mret tt | c :: cs => run_call c;; run_calls cs end.

(** [t->handler(t->cookie)] *)
Definition call_handler (t : loc) : M task_state unit :=
  log_run t;; ran ← gets ts_ran; run_calls (handler ran).

Fixpoint run_tasks_loop (fuel : nat) (epoch : Z) : M task_state unit :=
  match fuel with
  | O => out_of_fuel
  | S fuel =>
      e ← on_lists (iv_list_empty tasks);
      if (e : bool) then mret tt
      else
        t ← on_lists (get_next tasks); t ← deref t;
        on_lists (iv_list_del_init t);;
        add_numobjs (-1);;
        set_epoch_of t epoch;;
        call_handler t;;
        run_tasks_loop fuel epoch
  end.

Definition iv_run_tasks (fuel : nat) : M task_state unit :=
  on_lists (__iv_list_steal_elements st_tasks tasks);;
  e ← gets ts_epoch; set_task_epoch (u32 (e + 1));;
  epoch ← gets ts_epoch;
  set_current (Some tasks);;
  run_tasks_loop fuel epoch;;
  set_current None.
End task.

(** ** The abstract machine *)

(** [am_queue] is the queue of the next round, [am_round] that of the round
    being run ([None] outside [iv_run_tasks]), [am_epochs] every initialised
    task's epoch, [am_raw] the tasks that were never initialised. *)
Record task_am := mk_am {
  am_queue : list loc;
  am_round : option (list loc);
  am_raw : gset loc;
  am_epochs : gmap loc Z;
  am_epoch : Z;
  am_numobjs : Z;
  am_ran : list loc }.

Definition am_listed (a : task_am) (t : loc) : bool :=
  bool_decide (t ∈ am_queue a) || bool_decide (t ∈ default [] (am_round a)).

(** One call of the interface; initialising a task that is on a list, or using
    a task that was never initialised, is outside the contract, and so is
    initialising what is not memory of a task. *)
Definition am_call (c : task_call) : M task_am unit := fun a =>
  match c with
  | TInit t =>
      if am_listed a t then Fatal "outside of the interface"
      else if decide (t ∈ dom (am_epochs a) ∪ am_raw a)
      then Ok (tt, mk_am (am_queue a) (am_round a) (am_raw a ∖ {[t]}) (<[t := am_epoch a]> (am_epochs a))
                     (am_epoch a) (am_numobjs a) (am_ran a))
      else Undef
  | TRegister t =>
      match am_epochs a !! t with
      | None => Fatal "outside of the interface"
      | Some te =>
          if am_listed a t then Fatal "iv_task_register: called with task still on a list"
          else
            let defer := mk_am (am_queue a ++ [t]) (am_round a) (am_raw a) (am_epochs a) (am_epoch a)
                           (am_numobjs a + 1) (am_ran a) in
            match am_round a with
            | None => Ok (tt, defer)
            | Some r =>
                if te =? am_epoch a then Ok (tt, defer)
                else Ok (tt, mk_am (am_queue a) (Some (r ++ [t])) (am_raw a) (am_epochs a) (am_epoch a)
                               (am_numobjs a + 1) (am_ran a))
            end
      end
  | TUnregister t =>
      match am_epochs a !! t with
      | None => Fatal "outside of the interface"
      | Some _ =>
          if am_listed a t
          then Ok (tt, mk_am (remove t (am_queue a)) (remove t <$> am_round a) (am_raw a) (am_epochs a)
                         (am_epoch a) (am_numobjs a - 1) (am_ran a))
          else Fatal "iv_task_unregister: called with task not on a list"
      end
  end.
Fixpoint am_calls (cs : list task_call) : M task_am unit :=
  match cs with [] => mret tt | c :: cs => am_call c;; am_calls cs end.

Section am.
Context (handler : list loc -> list task_call).

Fixpoint am_loop (fuel : nat) : M task_am unit := fun a =>
  match fuel with
  | O => OutOfFuel
  | S fuel =>
      match am_round a with
      | Some (t :: r) =>
          let a := mk_am (am_queue a) (Some r) (am_raw a) (<[t := am_epoch a]> (am_epochs a)) (am_epoch a)
                     (am_numobjs a - 1) (am_ran a ++ [t]) in
          (am_calls (handler (am_ran a));; am_loop fuel) a
      | _ => Ok (tt, a)
      end
  end.

(** A round: what was queued becomes the round, the epoch moves on, the
    round is emptied from the front. *)
Definition am_run_tasks (fuel : nat) : M task_am unit := fun a =>
  (am_loop fuel;; modify (fun a => mk_am (am_queue a) None (am_raw a) (am_epochs a) (am_epoch a)
                                 (am_numobjs a) (am_ran a)))
    (mk_am [] (Some (am_queue a)) (am_raw a) (am_epochs a) (u32 (am_epoch a + 1)) (am_numobjs a) (am_ran a)).
End am.

(** ** The code implements the abstract machine *)
Section refinement.
Context (st_tasks tasks : loc) (handler : list loc -> list task_call).

Record task_rel (s : task_state) (a : task_am) : Prop := {
  tr_world : exists W R, world (ts_lists s) W R /\
    W !! st_tasks = Some (am_queue a) /\
    (forall r, am_round a = Some r -> W !! tasks = Some r) /\
    (forall t, t ∈ dom (am_epochs a) -> am_listed a t = false -> W !! t = Some []) /\
    am_raw a ⊆ R /\ (am_round a = None -> tasks ∈ R);
  tr_current : ts_current s = (fun _ => tasks) <$> am_round a;
  tr_known : forall t, am_listed a t = true -> t ∈ dom (am_epochs a);
  tr_heads : st_tasks <> tasks /\ (forall x, x = st_tasks \/ x = tasks -> x ∉ dom (am_epochs a) ∪ am_raw a);
  tr_epochs : ts_epochs s = am_epochs a;
  tr_epoch : ts_epoch s = am_epoch a;
  tr_numobjs : ts_numobjs s = am_numobjs a;
  tr_ran : ts_ran s = am_ran a }.

Lemma listed_true a t : am_listed a t = true <-> t ∈ am_queue a \/ t ∈ default [] (am_round a).
Proof. unfold am_listed. rewrite orb_true_iff, !bool_decide_eq_true. done. Qed.
Lemma listed_false a t :
  am_listed a t = false <-> (t ∉ am_queue a) /\ (t ∉ default [] (am_round a)).
Proof. unfold am_listed. rewrite orb_false_iff, !bool_decide_eq_false. done. Qed.

Lemma on_lists_Ok {A} (m : M lheap A) s x h :
  m (ts_lists s) = Ok (x, h) ->
  on_lists m s = Ok (x, mk_ts h (ts_epochs s) (ts_current s) (ts_epoch s) (ts_numobjs s) (ts_ran s)).
Proof. unfold on_lists. by intros ->. Qed.

Lemma on_lists_read {A} (m : M lheap A) s x :
  m (ts_lists s) = Ok (x, ts_lists s) -> on_lists m s = Ok (x, s).
Proof. intros H. rewrite (on_lists_Ok _ _ _ _ H). by destruct s. Qed.

Lemma empty_refines s a t : task_rel s a -> t ∈ dom (am_epochs a) ->
  on_lists (iv_list_empty t) s = Ok (negb (am_listed a t), s).
Proof.
  intros [(W&R&Hw&Hq&Hr&Hu&_) Hcur Hk Hh _ _ _ _] Ht. apply on_lists_read.
  destruct (am_listed a t) eqn:E.
  - apply listed_true in E as [E|E]; [by eapply world_member_not_empty|].
    destruct (am_round a) as [r|]; [|by apply not_elem_of_nil in E].
    eapply world_member_not_empty; [done|by apply Hr|done].
  - rewrite (world_empty _ _ _ Hw t [] (Hu t Ht E)). done.
Qed.

(** Linking an unlisted task at the tail of a queue. *)
Lemma link_world h W R t hd l :
  world h W R -> W !! t = Some [] -> W !! hd = Some l -> t <> hd ->
  exists h', iv_list_add_tail t hd h = Ok (tt, h') /\
    world h' (<[hd := l ++ [t]]> (delete t W)) R.
Proof.
  intros Hw Ht Hl Hne. pose proof (world_forget _ _ _ Hw _ _ Ht) as Hw'.
  destruct (world_add_tail _ _ _ Hw' t hd l) as (h'&He&Hw2);
    [by rewrite lookup_delete_ne|set_solver|].
  exists h'. split; [done|]. eapply world_raw_subset; [exact Hw2|].
  intros x Hx. assert (x <> t); [|set_solver].
  intros ->. eapply (world_raw_disjoint _ _ _ Hw t t []); [done..|by left].
Qed.

Lemma head_ne s a t x : task_rel s a -> t ∈ dom (am_epochs a) ∪ am_raw a ->
  x = st_tasks \/ x = tasks -> t <> x.
Proof. intros Hr Ht Hx ->. by apply (proj2 (tr_heads _ _ Hr) x Hx). Qed.

Lemma register_refines s a t : task_rel s a -> is_Some (am_epochs a !! t) ->
  refines task_rel (iv_task_register st_tasks t s) (am_call (TRegister t) a).
Proof.
  intros Hr [te Et]. cbn [am_call]. rewrite Et.
  assert (t ∈ dom (am_epochs a)) as Ht by (apply elem_of_dom; eauto).
  unfold iv_task_register. mrun (empty_refines s a t Hr Ht).
  destruct (am_listed a t) eqn:E; cbn [negb]; [done|].
  assert (t <> st_tasks /\ t <> tasks) as [Hn1 Hn2].
  { split; eapply head_ne; try done; set_solver. }
  pose proof E as [Eq Er]%listed_false.
  destruct Hr as [(W&R&Hw&Hq&Hro&Hu&Hraw&Hloc) Hcur Hk Hh Hep He Hno Hran].
  msimpl. rewrite Hep, Et. cbn. rewrite Hcur, He.
  set (s1 := mk_ts (ts_lists s) _ _ _ _ _).
  assert (exists s', on_lists (iv_list_add_tail t st_tasks) s1 = Ok (tt, s') /\
    task_rel s' (mk_am (am_queue a ++ [t]) (am_round a) (am_raw a) (am_epochs a) (am_epoch a)
                   (am_numobjs a + 1) (am_ran a))) as Hdefer.
  { destruct (link_world _ W R t st_tasks (am_queue a) Hw) as (h'&Ha&Hw'); [auto..|].
    rewrite (on_lists_Ok _ s1 tt h' Ha). eexists; split; [done|]. split; cbn; try done; [|..].
    - exists (<[st_tasks := am_queue a ++ [t]]> (delete t W)), R. split_and!; try done.
      + by rewrite lookup_insert_eq.
      + intros r Hrr. rewrite lookup_insert_ne, lookup_delete_ne by naive_solver. auto.
      + intros t' Ht' [Hl1 Hl2]%listed_false. cbn in *. rewrite lookup_insert_ne, lookup_delete_ne.
        * apply Hu; [done|]. apply listed_false. set_solver.
        * set_solver.
        * intros <-. apply (proj2 Hh st_tasks); [by left|set_solver].
    - intros t' [Hl|Hl]%listed_true; cbn in Hl; [|by apply Hk, listed_true; right].
      apply elem_of_app in Hl as [Hl| ->%list_elem_of_singleton]; [|done].
      by apply Hk, listed_true; left.
    - by rewrite Hno. }
  destruct (am_round a) as [r|] eqn:Erd; cbn [fmap option_fmap option_map]; [|exact Hdefer].
  destruct (te =? am_epoch a); [exact Hdefer|]. clear Hdefer.
  destruct (link_world _ W R t tasks r Hw) as (h'&Ha&Hw'); [auto..|].
  rewrite (on_lists_Ok _ s1 tt h' Ha). eexists; split; [done|]. split; cbn; try done; [|..].
  - exists (<[tasks := r ++ [t]]> (delete t W)), R. split_and!; try done.
    + rewrite lookup_insert_ne, lookup_delete_ne by naive_solver. auto.
    + intros r' [= <-]. by rewrite lookup_insert_eq.
    + intros t' Ht' [Hl1 Hl2]%listed_false. cbn in *. rewrite lookup_insert_ne, lookup_delete_ne.
      * apply Hu; [done|]. apply listed_false. rewrite Erd. cbn. set_solver.
      * set_solver.
      * intros <-. apply (proj2 Hh tasks); [by right|set_solver].
  - intros t' [Hl|Hl]%listed_true; cbn in Hl; [by apply Hk, listed_true; left|].
    apply elem_of_app in Hl as [Hl| ->%list_elem_of_singleton]; [|done].
    apply Hk, listed_true; right. by rewrite Erd.
  - by rewrite Hno.
Qed.

Lemma round_disjoint s a t : task_rel s a -> t ∈ am_queue a -> t ∉ default [] (am_round a).
Proof.
  intros [(W&R&Hw&Hq&Hro&_) _ _ [Hne _] _ _ _ _] Ht Ht'.
  destruct (am_round a) as [r|]; [|by apply not_elem_of_nil in Ht'].
  apply Hne. eapply (w_own _ _ _ Hw t); [by exists (am_queue a); split; [|by right]|].
  exists r. split; [by apply Hro|by right].
Qed.

Lemma queue_NoDup s a : task_rel s a -> NoDup (am_queue a) /\ NoDup (default [] (am_round a)).
Proof.
  intros [(W&R&Hw&Hq&Hro&_) _ _ _ _ _ _ _]. split.
  - apply (w_rep _ _ _ Hw), lrep_NoDup, NoDup_cons in Hq. tauto.
  - destruct (am_round a) as [r|]; [|constructor]. cbn.
    pose proof (Hro r eq_refl) as Hr. apply (w_rep _ _ _ Hw), lrep_NoDup, NoDup_cons in Hr. tauto.
Qed.

Lemma unregister_refines s a t : task_rel s a -> is_Some (am_epochs a !! t) ->
  refines task_rel (iv_task_unregister t s) (am_call (TUnregister t) a).
Proof.
  intros Hr [te Et]. cbn [am_call]. rewrite Et.
  assert (t ∈ dom (am_epochs a)) as Ht by (apply elem_of_dom; eauto).
  unfold iv_task_unregister. mrun (empty_refines s a t Hr Ht).
  destruct (am_listed a t) eqn:E; cbn [negb]; [|done].
  assert (t <> st_tasks /\ t <> tasks) as [Hn1 Hn2].
  { split; eapply head_ne; try done; set_solver. }
  pose proof (queue_NoDup _ _ Hr) as [Hnd1 Hnd2]. pose proof (round_disjoint s a t Hr) as Hdj.
  destruct Hr as [(W&R&Hw&Hq&Hro&Hu&Hraw&Hloc) Hcur Hk Hh Hep He Hno Hran].
  assert (forall W', W' !! st_tasks = Some (remove t (am_queue a)) ->
    (forall r, am_round a = Some r -> W' !! tasks = Some (remove t r)) ->
    W' !! t = Some [] -> (forall x, x <> t -> x <> st_tasks -> x <> tasks -> W' !! x = W !! x) ->
    forall h', world h' W' R ->
    task_rel (mk_ts h' (ts_epochs s) (ts_current s) (ts_epoch s) (ts_numobjs s + -1) (ts_ran s))
      (mk_am (remove t (am_queue a)) (remove t <$> am_round a) (am_raw a) (am_epochs a)
             (am_epoch a) (am_numobjs a - 1) (am_ran a))) as Hclose.
  { intros W' H1 H2 H3 H4 h' Hw'. split; cbn; try done; [|..].
    - exists W', R. split_and!; try done.
      + intros r. destruct (am_round a) as [r0|]; [|done]. intros [= <-]. by apply H2.
      + intros t' Ht' [Hl1 Hl2]%listed_false. cbn in Hl1, Hl2. destruct (decide (t' = t)) as [->|Hne]; [done|].
        rewrite H4; [|done|..].
        * apply Hu; [done|]. apply listed_false. rewrite elem_of_remove in Hl1. split; [tauto|].
          destruct (am_round a); cbn in *; [rewrite elem_of_remove in Hl2; tauto|done].
        * intros ->. apply (proj2 Hh st_tasks); [by left|set_solver +Ht'].
        * intros ->. apply (proj2 Hh tasks); [by right|set_solver +Ht'].
      + intros Hn. apply Hloc. by destruct (am_round a).
    - rewrite Hcur. by destruct (am_round a).
    - intros t' Hl. apply Hk, listed_true. apply listed_true in Hl as [Hl|Hl]; cbn in Hl.
      + left. apply elem_of_remove in Hl. tauto.
      + right. destruct (am_round a); cbn in *; [|done]. apply elem_of_remove in Hl. tauto.
    - by rewrite Hno. }
  unfold add_numobjs, modify. erewrite bind_Ok by reflexivity.
  apply listed_true in E as [E|E].
  - pose proof E as (l1&l2&El)%list_elem_of_split. rewrite El in Hq.
    destruct (world_del_init _ _ _ Hw t _ _ _ Hq) as (h'&Ha&Hw').
    set (s1 := mk_ts _ _ _ _ _ _). rewrite (on_lists_Ok _ s1 tt h' Ha). eexists; split; [done|].
    eapply Hclose; [..|exact Hw'].
    + rewrite lookup_insert_ne, lookup_insert_eq by done. rewrite El, remove_split; [done|by rewrite <-El].
    + intros r Hrr. destruct Hh. rewrite !lookup_insert_ne by done. rewrite remove_notin; [auto|].
      specialize (Hdj E). by rewrite Hrr in Hdj.
    + by rewrite lookup_insert_eq.
    + intros x ???. by rewrite !lookup_insert_ne by done.
  - assert (t ∉ am_queue a) as Hnq by (intros ?; by apply Hdj).
    destruct (am_round a) as [r|] eqn:Erd; [|by apply not_elem_of_nil in E]. cbn in E, Hnd2.
    pose proof E as (l1&l2&El)%list_elem_of_split. pose proof (Hro r eq_refl) as Hro'.
    rewrite El in Hro'.
    destruct (world_del_init _ _ _ Hw t _ _ _ Hro') as (h'&Ha&Hw').
    set (s1 := mk_ts _ _ _ _ _ _). rewrite (on_lists_Ok _ s1 tt h' Ha). eexists; split; [done|].
    eapply Hclose; [..|exact Hw'].
    + destruct Hh. rewrite !lookup_insert_ne by done. by rewrite remove_notin.
    + intros r' [= <-]. rewrite lookup_insert_ne, lookup_insert_eq by done.
      rewrite El, remove_split; [done|by rewrite <-El].
    + by rewrite lookup_insert_eq.
    + intros x ???. by rewrite !lookup_insert_ne by done.
Qed.

Lemma init_refines s a t : task_rel s a -> am_listed a t = false ->
  refines task_rel (IV_TASK_INIT t s) (am_call (TInit t) a).
Proof.
  intros Hr E. cbn [am_call]. rewrite E. case_decide as Ht; [|done].
  assert (t <> st_tasks /\ t <> tasks) as [Hn1 Hn2] by (split; eapply head_ne; eauto).
  destruct Hr as [(W&R&Hw&Hq&Hro&Hu&Hraw&Hloc) Hcur Hk Hh Hep He Hno Hran].
  assert (exists W0 R0, world (ts_lists s) W0 R0 /\ t ∈ R0 /\
    (forall x, x <> t -> W0 !! x = W !! x) /\ (forall x, x <> t -> x ∈ R -> x ∈ R0))
    as (W0&R0&Hw0&Ht0&HW0&HR0).
  { destruct (decide (t ∈ dom (am_epochs a))) as [Hd|Hd].
    - exists (delete t W), ({[t]} ∪ list_to_set [] ∪ R). split_and!; [|set_solver|..|set_solver].
      + apply world_forget; auto.
      + intros x ?. by rewrite lookup_delete_ne.
    - exists W, R. split_and!; [done| |done..]. set_solver. }
  destruct (world_init _ _ _ Hw0 t Ht0) as (h'&Hi&Hw').
  unfold IV_TASK_INIT. mrun (on_lists_Ok _ s tt h' Hi). eexists; split; [done|].
  split; cbn; try done; [|..].
  - exists (<[t := []]> W0), (R0 ∖ {[t]}). split_and!; try done.
    + rewrite lookup_insert_ne, HW0 by done. done.
    + intros r Hrr. rewrite lookup_insert_ne, HW0 by done. auto.
    + intros t' Ht' Hl. destruct (decide (t' = t)) as [->|Hne]; [by rewrite lookup_insert_eq|].
      rewrite lookup_insert_ne, HW0 by done. apply Hu; [|done]. set_solver.
    + intros x Hx. apply elem_of_difference. split; [|set_solver]. apply HR0; set_solver.
    + intros Hn. apply elem_of_difference. split; [|set_solver]. apply HR0; auto.
  - intros t' Hl. rewrite dom_insert. apply elem_of_union. right. by apply Hk.
  - split; [apply Hh|]. intros x Hx. pose proof (proj2 Hh x Hx). rewrite dom_insert.
    assert (x <> t) by naive_solver. set_solver.
  - by rewrite Hep, He.
Qed.

Lemma call_refines s a c : task_rel s a -> refines task_rel (run_call st_tasks c s) (am_call c a).
Proof.
  intros Hr. unfold run_call. erewrite bind_Ok by reflexivity. pose proof (tr_epochs _ _ Hr) as Ee.
  unfold requires. destruct c as [t|t|t]; cbn [legal_task_call]; rewrite Ee.
  - assert (match am_epochs a !! t with None => true
      | Some _ => match on_lists (iv_list_empty t) s with Ok (e, _) => e | _ => false end end = negb (am_listed a t)) as ->.
    { destruct (am_epochs a !! t) eqn:Et.
      - rewrite (empty_refines s a t Hr) by by apply elem_of_dom. done.
      - destruct (am_listed a t) eqn:El; [|done]. apply (tr_known _ _ Hr), elem_of_dom in El. rewrite Et in El. by destruct El. }
    destruct (am_listed a t) eqn:El; cbn [negb]; [cbn [am_call]; by rewrite El|]. erewrite bind_Ok by reflexivity. by apply init_refines.
  - case_bool_decide as Et; [erewrite bind_Ok by reflexivity; by apply register_refines|]. cbn [am_call].
    destruct (am_epochs a !! t); [destruct Et; eauto|done].
  - case_bool_decide as Et; [erewrite bind_Ok by reflexivity; by apply unregister_refines|]. cbn [am_call].
    destruct (am_epochs a !! t); [destruct Et; eauto|done].
Qed.
Lemma calls_refine cs s a : task_rel s a ->
  refines task_rel (run_calls st_tasks cs s) (am_calls cs a).
Proof.
  revert s a. induction cs as [|c cs IH]; intros s a Hr; [by exists s|].
  eapply refines_bind; [by apply call_refines|]. intros [] s' a' _ Hr'. by apply IH.
Qed.

(** Taking the first task of the round off its list. *)
Lemma pop_refines s a t r : task_rel s a -> am_round a = Some (t :: r) ->
  exists s', (p ← on_lists (get_next tasks); p ← deref p; on_lists (iv_list_del_init p);;
              add_numobjs (-1);; set_epoch_of p (am_epoch a);; log_run p) s = Ok (tt, s') /\
    task_rel s' (mk_am (am_queue a) (Some r) (am_raw a) (<[t := am_epoch a]> (am_epochs a))
                   (am_epoch a) (am_numobjs a - 1) (am_ran a ++ [t])).
Proof.
  intros Hr Erd. pose proof (round_disjoint s a t Hr) as Hdj. rewrite Erd in Hdj. cbn in Hdj.
  assert (t ∈ dom (am_epochs a)) as Ht.
  { apply (tr_known _ _ Hr), listed_true. right. rewrite Erd. by left. }
  assert (t <> st_tasks /\ t <> tasks) as [Hn1 Hn2] by (split; eapply head_ne; eauto; set_solver).
  pose proof (queue_NoDup _ _ Hr) as [_ Hnd]. rewrite Erd in Hnd. cbn in Hnd.
  destruct Hr as [(W&R&Hw&Hq&Hro&Hu&Hraw&Hloc) Hcur Hk Hh Hep He Hno Hran].
  pose proof (Hro _ Erd) as Hro'. pose proof (w_rep _ _ _ Hw _ _ Hro') as Hrep.
  assert (get_next tasks (ts_lists s) = Ok (Some t, ts_lists s)) as Hg.
  { pose proof (lrep_next _ _ _ Hrep) as Hnx. unfold next_of in Hnx.
    unfold get_next, get. msimpl. destruct (ts_lists s !! tasks) as [c|]; [|done]. cbn in *. by rewrite Hnx. }
  mrun (on_lists_read _ s _ Hg). mrun (@deref_Some task_state _ t s).
  destruct (world_del_init _ _ _ Hw t tasks [] r Hro') as (h'&Ha&Hw').
  mrun (on_lists_Ok _ s tt h' Ha). eexists; split; [done|]. cbn [app] in Hw'.
  split; cbn; try done; [|..].
  - exists (<[t := []]> (<[tasks := r]> W)), R. destruct Hh as [Hh1 Hh2]. split_and!; try done.
    + by rewrite !lookup_insert_ne by done.
    + intros r' [= <-]. by rewrite lookup_insert_ne, lookup_insert_eq by done.
    + intros t' Ht' [Hl1 Hl2]%listed_false. cbn in Hl1, Hl2.
      destruct (decide (t' = t)) as [->|Hne]; [by rewrite lookup_insert_eq|].
      assert (t' ∈ dom (am_epochs a)) by set_solver.
      rewrite !lookup_insert_ne; [|intros <-; apply (Hh2 tasks); [by right|set_solver]|done].
      apply Hu; [done|]. apply listed_false. rewrite Erd. set_solver.
  - by rewrite Hcur, Erd.
  - intros t' Hl. rewrite dom_insert. apply elem_of_union. right. apply Hk, listed_true.
    rewrite Erd. apply listed_true in Hl as [Hl|Hl]; cbn in Hl; [by left|]. right. by right.
  - split; [apply Hh|]. intros x Hx. pose proof (proj2 Hh x Hx). rewrite dom_insert.
    assert (x <> t) by naive_solver. set_solver.
  - by rewrite Hep.
  - by rewrite Hno.
  - by rewrite Hran.
Qed.

Lemma am_call_epoch c a a' : am_call c a = Ok (tt, a') -> am_epoch a' = am_epoch a.
Proof. destruct c; cbn; intros; repeat case_match; by simplify_eq. Qed.
Lemma am_calls_epoch cs a a' : am_calls cs a = Ok (tt, a') -> am_epoch a' = am_epoch a.
Proof.
  revert a. induction cs as [|c cs IH]; intros a; cbn [am_calls]; [by intros [= <-]|].
  intros ([]&a1&H1&H2)%bind_Ok_inv. rewrite (IH _ H2). by eapply am_call_epoch.
Qed.

Lemma am_call_round c a a' :
  am_call c a = Ok (tt, a') -> is_Some (am_round a) -> is_Some (am_round a').
Proof.
  destruct c; cbn; intros H [r Hr]; rewrite ?Hr in H; repeat case_match; simplify_eq; cbn;
    rewrite ?Hr; by eexists.
Qed.
Lemma am_calls_round cs a a' :
  am_calls cs a = Ok (tt, a') -> is_Some (am_round a) -> is_Some (am_round a').
Proof.
  revert a. induction cs as [|c cs IH]; intros a; cbn [am_calls]; [by intros [= <-]|].
  intros ([]&a1&H1&H2)%bind_Ok_inv Hr. eapply IH; [done|]. by eapply am_call_round.
Qed.

Lemma am_calls_no_round cs a a' : am_round a = None -> am_calls cs a = Ok (tt, a') -> am_round a' = None.
Proof.
  revert a. induction cs as [|c cs IH]; intros a Hr; cbn [am_calls]; [by intros [= <-]|].
  intros ([]&a1&H1&H2)%bind_Ok_inv. eapply IH; [|done].
  destruct c; cbn in H1; rewrite ?Hr in H1; repeat case_match; by simplify_eq.
Qed.

(** The body of the loop, regrouped. *)
Lemma pop_split k e s :
  (t ← on_lists (get_next tasks); t ← deref t; on_lists (iv_list_del_init t);;
   add_numobjs (-1);; set_epoch_of t e;; call_handler st_tasks handler t;; k) s =
  ((t ← on_lists (get_next tasks); t ← deref t; on_lists (iv_list_del_init t);;
    add_numobjs (-1);; set_epoch_of t e;; log_run t);;
   ran ← gets ts_ran; run_calls st_tasks (handler ran);; (k : M task_state unit)) s.
Proof. unfold call_handler. monad_eq. Qed.

Lemma loop_refines fuel s a : task_rel s a -> is_Some (am_round a) ->
  refines (fun s a => task_rel s a /\ am_round a = Some []) (run_tasks_loop st_tasks tasks handler fuel (am_epoch a) s)
    (am_loop handler fuel a).
Proof.
  revert s a. induction fuel as [|fuel IH]; intros s a Hr [r Erd]; [done|].
  cbn [am_loop run_tasks_loop]. rewrite Erd.
  assert (on_lists (iv_list_empty tasks) s = Ok (bool_decide (r = []), s)) as Hemp.
  { destruct Hr as [(W&R&Hw&Hq&Hro&_) _ _ _ _ _ _ _]. apply on_lists_read.
    eapply world_empty; [done|]. by apply Hro. }
  mrun Hemp. destruct r as [|t r]; cbn [bool_decide].
  { rewrite bool_decide_true by done. exists s. split; [done|]. by split. }
  rewrite bool_decide_false by done.
  destruct (pop_refines s a t r Hr Erd) as (s1&He1&Hr1).
  rewrite pop_split. mrun He1.
  assert (forall k : list loc -> M task_state unit, (ran ← gets ts_ran; k ran) s1 = k (ts_ran s1) s1) as Hg
    by done.
  rewrite Hg. clear Hg. rewrite (tr_ran _ _ Hr1). cbn [am_ran].
  eapply refines_bind; [by apply calls_refine|]. intros [] s2 a2 Ha2 Hr2.
  apply am_calls_epoch in Ha2 as Ee. cbn in Ee. rewrite <-Ee. apply IH; [done|].
  apply am_calls_round in Ha2; [done|]. by eexists.
Qed.

(** A whole round. *)
Lemma run_tasks_refines fuel s a : task_rel s a -> am_round a = None ->
  refines task_rel (iv_run_tasks st_tasks tasks handler fuel s) (am_run_tasks handler fuel a).
Proof.
  intros Hr Hn. unfold iv_run_tasks, am_run_tasks.
  assert (exists s', (on_lists (__iv_list_steal_elements st_tasks tasks);;
      e ← gets ts_epoch; set_task_epoch (u32 (e + 1));; set_current (Some tasks)) s = Ok (tt, s') /\
    task_rel s' (mk_am [] (Some (am_queue a)) (am_raw a) (am_epochs a) (u32 (am_epoch a + 1))
                   (am_numobjs a) (am_ran a))) as (s1&He1&Hr1).
  { destruct Hr as [(W&R&Hw&Hq&Hro&Hu&Hraw&Hloc) Hcur Hk [Hne Hh] Hep He Hno Hran].
    destruct (world_steal _ _ _ Hw st_tasks tasks (am_queue a) Hq) as (h'&Ha&Hw'); [auto|].
    mrun (on_lists_Ok _ s tt h' Ha). eexists; split; [done|]. split; cbn; try done; [|..].
    - exists (<[tasks := am_queue a]> (<[st_tasks := []]> W)), (R ∖ {[tasks]}).
      split_and!; try done.
      + by rewrite lookup_insert_ne, lookup_insert_eq by done.
      + intros r [= <-]. by rewrite lookup_insert_eq.
      + intros t' Ht' [Hl1 Hl2]%listed_false. cbn in Hl1, Hl2.
        rewrite !lookup_insert_ne.
        * apply Hu; [done|]. apply listed_false. by rewrite Hn.
        * intros <-. apply (Hh st_tasks); [by left|set_solver +Ht'].
        * intros <-. apply (Hh tasks); [by right|set_solver +Ht'].
      + intros x Hx. pose proof (Hh tasks ltac:(by right)). assert (x <> tasks) by set_solver.
        set_solver.
    - intros t [Hl|Hl]%listed_true; cbn in Hl; [by apply not_elem_of_nil in Hl|].
      apply Hk, listed_true. by left.
    - by rewrite He. }
  assert (forall k, (on_lists (__iv_list_steal_elements st_tasks tasks);;
      e ← gets ts_epoch; set_task_epoch (u32 (e + 1));; epoch ← gets ts_epoch;
      set_current (Some tasks);; k epoch) s = (k (ts_epoch s1) : M task_state unit) s1) as ->.
  { intros k. revert He1. intros (u1&s2&H1&H2)%bind_Ok_inv. mrun H1.
    unfold set_current in H2. msimpl. by simplify_eq. }
  rewrite (tr_epoch _ _ Hr1). cbn [am_epoch].
  eapply refines_bind; [apply (loop_refines fuel s1 _ Hr1); by eexists|].
  intros [] s2 a2 _ [Hr2 Hrd]. eexists; split; [done|].
  destruct Hr2 as [(W&R&Hw&Hq&Hro&Hu&Hraw&Hloc) Hcur Hk Hh Hep He Hno Hran].
  pose proof (Hro _ Hrd) as Ht. split; cbn; try done; [|..].
  - exists (delete tasks W), ({[tasks]} ∪ list_to_set [] ∪ R). split_and!; try done.
    + by apply world_forget.
    + rewrite lookup_delete_ne; [done|]. destruct Hh. done.
    + intros t Htk [Hl1 Hl2]%listed_false. cbn in Hl1.
      rewrite lookup_delete_ne; [|intros <-; apply (proj2 Hh tasks); [by right|set_solver +Htk]].
      apply Hu; [done|]. apply listed_false. rewrite Hrd. done.
    + set_solver +Hraw.
    + set_solver +.
  - intros t [Hl|Hl]%listed_true; cbn in Hl; [|by apply not_elem_of_nil in Hl].
    apply Hk, listed_true. by left.
Qed.
End refinement.

(** ** Properties of the abstract machine *)

(** Lists hold initialised tasks, each once. *)
Definition am_ok (a : task_am) : Prop :=
  NoDup (am_queue a ++ default [] (am_round a)) /\
  forall t, am_listed a t = true -> t ∈ dom (am_epochs a).

(** The tasks that can still run in the current round. *)
Definition pending (a : task_am) : gset loc :=
  filter (fun t => am_epochs a !! t <> Some (am_epoch a) \/ t ∈ default [] (am_round a))
    (dom (am_epochs a)).

Lemma elem_of_pending a t : t ∈ pending a <->
  (am_epochs a !! t <> Some (am_epoch a) \/ t ∈ default [] (am_round a)) /\ t ∈ dom (am_epochs a).
Proof. unfold pending. by rewrite elem_of_filter. Qed.

Lemma am_ok_listed a t : am_ok a -> t ∈ am_queue a -> t ∉ default [] (am_round a).
Proof. intros [Hnd _] Ht. apply NoDup_app in Hnd as (_&Hd&_). by apply Hd. Qed.

Definition balance_of (a : task_am) : Z :=
  am_numobjs a - Z.of_nat (length (am_queue a ++ default [] (am_round a))).

Lemma length_remove_in t l : NoDup l -> t ∈ l -> S (length (remove t l)) = length l.
Proof.
  intros Hnd (l1&l2&->)%list_elem_of_split. rewrite remove_split by done.
  rewrite !length_app. cbn. lia.
Qed.

Lemma am_call_ok c a a' : am_ok a -> am_call c a = Ok (tt, a') ->
  am_ok a' /\ pending a' ⊆ pending a /\ balance_of a' = balance_of a /\ am_ran a' = am_ran a.
Proof.
  intros Hok. pose proof Hok as [Hnd Hk]. destruct c as [t|t|t]; cbn [am_call].
  - destruct (am_listed a t) eqn:E; [done|]. case_decide; [|done]. intros [= <-].
    apply listed_false in E as [E1 E2]. split_and!; try done.
    + split; [done|]. intros t' Ht'. cbn. rewrite dom_insert. apply elem_of_union. right. by apply Hk.
    + intros t'. rewrite !elem_of_pending. cbn. rewrite dom_insert, elem_of_union, elem_of_singleton.
      destruct (decide (t' = t)) as [->|Hne]; [rewrite lookup_insert_eq|rewrite lookup_insert_ne by done];
        intros [[?|?] [?|?]]; try done; auto.
  - destruct (am_epochs a !! t) as [te|] eqn:Et; [|done].
    assert (t ∈ dom (am_epochs a)) as Ht by (apply elem_of_dom; eauto).
    destruct (am_listed a t) eqn:E; [done|]. apply listed_false in E as [E1 E2].
    assert (forall q r, (forall x, x ∈ q ++ default [] r <-> x = t \/ x ∈ am_queue a ++ default [] (am_round a)) ->
      q ++ default [] r ≡ₚ t :: am_queue a ++ default [] (am_round a) ->
      (forall x, x ∈ default [] r -> x ∈ default [] (am_round a) \/ (x = t /\ te <> am_epoch a)) ->
      let a' := mk_am q r (am_raw a) (am_epochs a) (am_epoch a) (am_numobjs a + 1) (am_ran a) in
      am_ok a' /\ pending a' ⊆ pending a /\ balance_of a' = balance_of a /\ am_ran a' = am_ran a) as H.
    { intros q r Hin Hp Hr a0. split_and!; [split|..]; cbn; try done.
      - rewrite Hp. apply NoDup_cons. split; [|done]. rewrite elem_of_app. tauto.
      - intros x Hx. apply listed_true in Hx. cbn in Hx. rewrite <-elem_of_app, Hin in Hx.
        destruct Hx as [->|Hx]; [done|]. apply Hk, listed_true. by apply elem_of_app.
      - intros x. rewrite !elem_of_pending. cbn. intros [[?|Hx] ?]; [tauto|].
        apply Hr in Hx as [?|[-> ?]]; [tauto|]. split; [|done]. left. rewrite Et. congruence.
      - unfold balance_of. cbn. rewrite Hp. cbn. lia. }
    destruct (am_round a) as [r|] eqn:Er; [destruct (Z.eqb_spec te (am_epoch a)) as [Hte|Hte]|];
      intros [= <-]; apply H; cbn; try (intros x; first [set_solver + | set_solver +Hte]); try solve_Permutation.
  - destruct (am_epochs a !! t) as [te|] eqn:Et; [|done].
    destruct (am_listed a t) eqn:E; [|done]. intros [= <-]. cbn.
    assert (default [] (remove t <$> am_round a) = remove t (default [] (am_round a))) as Er by by destruct (am_round a).
    assert (remove t (am_queue a) ++ remove t (default [] (am_round a)) =
            remove t (am_queue a ++ default [] (am_round a))) as Ea by by (unfold remove; rewrite filter_app).
    split_and!; [split|..]; cbn; try done.
    + rewrite Er, Ea. by apply NoDup_remove.
    + intros x Hx. apply Hk, listed_true. apply listed_true in Hx. cbn in Hx.
      rewrite Er, !elem_of_remove in Hx. tauto.
    + intros x. rewrite !elem_of_pending. cbn. rewrite Er, elem_of_remove. tauto.
    + unfold balance_of. cbn. rewrite Er, Ea. apply listed_true in E. rewrite <-elem_of_app in E.
      pose proof (length_remove_in t _ Hnd E). lia.
Qed.

Lemma am_calls_ok cs a a' : am_ok a -> am_calls cs a = Ok (tt, a') ->
  am_ok a' /\ pending a' ⊆ pending a /\ balance_of a' = balance_of a /\ am_ran a' = am_ran a.
Proof.
  revert a. induction cs as [|c cs IH]; intros a Hok; cbn [am_calls]; [by intros [= <-]|].
  intros ([]&a1&H1&H2)%bind_Ok_inv. destruct (am_call_ok _ _ _ Hok H1) as (Hok1&Hp1&Hb1&Hr1).
  destruct (IH a1 Hok1 H2) as (?&?&?&?). split_and!; [done|by etransitivity|congruence|congruence].
Qed.

Lemma am_calls_fuel cs a : am_calls cs a <> OutOfFuel.
Proof.
  revert a. induction cs as [|c cs IH]; intros a; cbn [am_calls]; [discriminate|].
  unfold mbind, M_bind. destruct (am_call c a) as [[[] a2]| | |] eqn:E; try discriminate; [apply IH|].
  intros _. destruct c; cbn in E; repeat case_match; discriminate.
Qed.

Definition no_unregister (c : task_call) : Prop :=
  match c with TUnregister _ => False | _ => True end.

Lemma am_calls_extend cs a a' r : Forall no_unregister cs -> am_calls cs a = Ok (tt, a') ->
  am_round a = Some r -> exists r', am_round a' = Some (r ++ r').
Proof.
  revert a r. induction cs as [|c cs IH]; intros a r Hn; cbn [am_calls].
  { intros [= <-] ->. exists []. by rewrite app_nil_r. }
  apply Forall_cons in Hn as [Hc Hn]. intros ([]&a1&H1&H2)%bind_Ok_inv Hr.
  assert (exists r1, am_round a1 = Some (r ++ r1)) as [r1 Hr1].
  { destruct c as [t|t|t]; [| |done]; cbn in H1; rewrite ?Hr in H1; repeat case_match;
      simplify_eq; cbn; rewrite ?Hr; try (exists []; by rewrite app_nil_r). by eexists. }
  destruct (IH a1 _ Hn H2 Hr1) as [r' ->]. exists (r1 ++ r'). by rewrite app_assoc.
Qed.

Section rounds.
Context (handler : list loc -> list task_call).

Definition am_pop (a : task_am) (t : loc) (r : list loc) : task_am :=
  mk_am (am_queue a) (Some r) (am_raw a) (<[t := am_epoch a]> (am_epochs a)) (am_epoch a)
    (am_numobjs a - 1) (am_ran a ++ [t]).

Lemma am_pop_ok a t r : am_ok a -> am_round a = Some (t :: r) ->
  am_ok (am_pop a t r) /\ pending (am_pop a t r) ⊆ pending a ∖ {[t]} /\ t ∈ pending a /\
  balance_of (am_pop a t r) = balance_of a.
Proof.
  intros [Hnd Hk] Er. rewrite Er in Hnd. cbn in Hnd.
  assert (t ∈ dom (am_epochs a)) as Ht.
  { apply Hk, listed_true. right. rewrite Er. by left. }
  rewrite <-Permutation_middle in Hnd. apply NoDup_cons in Hnd as [Hn Hnd].
  split_and!; [split|..]; cbn; try done.
  - intros x Hx. rewrite dom_insert, elem_of_union. right. apply Hk, listed_true. rewrite Er.
    apply listed_true in Hx. cbn in *. set_solver.
  - intros x. rewrite elem_of_difference, !elem_of_pending, elem_of_singleton. cbn.
    rewrite dom_insert, Er. cbn. destruct (decide (x = t)) as [->|Hne].
    + rewrite lookup_insert_eq. intros [[?|?] _]; [done|]. set_solver.
    + rewrite lookup_insert_ne by done. set_solver.
  - apply elem_of_pending. split; [|done]. right. rewrite Er. by left.
  - unfold balance_of. cbn. rewrite Er. cbn. rewrite !length_app. cbn. lia.
Qed.

(** A round visits each pending task at most once, and ends. *)
Lemma am_loop_ok fuel a : am_ok a -> (size (pending a) < fuel)%nat -> is_Some (am_round a) ->
  match am_loop handler fuel a with
  | Ok (_, a') => am_ok a' /\ am_round a' = Some [] /\ balance_of a' = balance_of a /\
      exists l, am_ran a' = am_ran a ++ l /\ NoDup l /\ (forall t, t ∈ l -> t ∈ pending a) /\
        ((forall h, Forall no_unregister (handler h)) ->
         exists l', l = default [] (am_round a) ++ l')
  | OutOfFuel => False
  | _ => True
  end.
Proof.
  revert a. induction fuel as [|fuel IH]; intros a Hok Hf [r Er]; [lia|].
  cbn [am_loop]. rewrite Er. destruct r as [|t r].
  { split_and!; try done. exists []. rewrite app_nil_r. split_and!; [done|apply NoDup_nil_2|by intros t ?%not_elem_of_nil|].
    intros _. by exists []. }
  destruct (am_pop_ok a t r Hok Er) as (Hok1&Hp1&Ht&Hb1).
  change (mk_am _ _ _ _ _ _ _) with (am_pop a t r).
  set (a1 := am_pop a t r) in *. unfold mbind, M_bind.
  destruct (am_calls (handler (am_ran a1)) a1) as [[[] a2]| | |] eqn:E2; try done.
  - destruct (am_calls_ok _ _ _ Hok1 E2) as (Hok2&Hp2&Hb2&Hr2).
    assert (size (pending a2) < size (pending a))%nat as Hlt by (apply subset_size; set_solver +Hp1 Hp2 Ht).
    specialize (IH a2 Hok2 ltac:(lia) (am_calls_round _ _ _ E2 ltac:(by eexists))).
    destruct (am_loop handler fuel a2) as [[[] a3]| | |]; try done.
    destruct IH as (Hok3&Hr3&Hb3&l&Hl&Hndl&Hinl&Hpre). split_and!; [done|done|congruence|].
    exists (t :: l). split_and!.
    + rewrite Hl, Hr2. cbn. by rewrite <-app_assoc.
    + apply NoDup_cons. split; [|done]. intros Hin. apply Hinl in Hin. set_solver +Hin Hp1 Hp2.
    + intros x [->|Hx]%elem_of_cons; [done|]. apply Hinl in Hx. set_solver +Hx Hp1 Hp2.
    + intros Hnu. destruct (am_calls_extend _ _ _ r (Hnu _) E2 eq_refl) as [r' Er'].
      destruct (Hpre Hnu) as [l' ->]. rewrite Er'. cbn. exists (r' ++ l').
      cbn. by rewrite <-app_assoc.
  - by apply am_calls_fuel in E2.
Qed.
End rounds.

(** ** The memory of the client's tasks

    Calls that name tasks in it never lead outside of the abstract machine. *)
Definition task_of (c : task_call) : loc := match c with TInit t | TRegister t | TUnregister t => t end.
Definition task_memory (a : task_am) : gset loc := dom (am_epochs a) ∪ am_raw a.

Lemma am_call_memory c a : task_of c ∈ task_memory a ->
  am_call c a <> Undef /\ forall a', am_call c a = Ok (tt, a') -> task_memory a' = task_memory a.
Proof.
  unfold task_memory. intros Ht. destruct c as [t|t|t]; cbn in Ht |- *; [|by repeat case_match; split; intros; simplify_eq..].
  destruct (am_listed a t); [done|]. rewrite decide_True by done. split; [done|]. intros a' [= <-]. cbn.
  rewrite dom_insert_L. apply leibniz_equiv. intros x. destruct (decide (x = t)); set_solver.
Qed.
Lemma am_calls_memory cs : forall a, (forall c, c ∈ cs -> task_of c ∈ task_memory a) ->
  am_calls cs a <> Undef /\ forall a', am_calls cs a = Ok (tt, a') -> task_memory a' = task_memory a.
Proof.
  induction cs as [|c cs IH]; intros a Hc; cbn [am_calls]; [by split; [|intros a' [= <-]]|].
  destruct (am_call_memory c a ltac:(apply Hc; by left)) as [Hu Hm]. unfold mbind, M_bind.
  destruct (am_call c a) as [[[] a1]| | |]; try done. specialize (Hm a1 eq_refl). rewrite <-Hm. apply IH.
  intros c' Hc'. rewrite Hm. apply Hc. by right.
Qed.
Lemma am_loop_memory handler m fuel : (forall h c, c ∈ handler h -> task_of c ∈ m) -> forall a, am_ok a ->
  task_memory a = m -> am_loop handler fuel a <> Undef /\ forall a', am_loop handler fuel a = Ok (tt, a') -> task_memory a' = m.
Proof.
  intros Hh. induction fuel as [|fuel IH]; intros a Hok Hm; cbn [am_loop]; [done|].
  destruct (am_round a) as [[|t r]|] eqn:Er; [by split; [|intros a' [= <-]]| |by split; [|intros a' [= <-]]].
  change (mk_am _ _ _ _ _ _ _) with (am_pop a t r). destruct (am_pop_ok handler a t r Hok Er) as (Hok1&_&Ht&_).
  assert (task_memory (am_pop a t r) = m) as Hm1.
  { rewrite <-Hm. unfold task_memory. cbn. 
    destruct Hok as [_ Hk]. assert (t ∈ dom (am_epochs a)) as Hd by (apply Hk, listed_true; right; rewrite Er; by left).
    rewrite dom_insert_L. set_solver +Hd. }
  set (a1 := am_pop a t r) in *.
  destruct (am_calls_memory (handler (am_ran a1)) a1 ltac:(rewrite Hm1; apply Hh)) as [Hu Hm2]. unfold mbind, M_bind.
  destruct (am_calls (handler (am_ran a1)) a1) as [[[] a2]| | |] eqn:E2; try done.
  apply IH; [by destruct (am_calls_ok _ _ _ Hok1 E2)|by rewrite (Hm2 a2 eq_refl)].
Qed.
Lemma am_run_tasks_memory handler m fuel a : (forall h c, c ∈ handler h -> task_of c ∈ m) -> am_ok a ->
  am_round a = None -> task_memory a = m ->
  am_run_tasks handler fuel a <> Undef /\ forall a', am_run_tasks handler fuel a = Ok (tt, a') -> task_memory a' = m.
Proof.
  intros Hh [Hnd Hk] Hn Hm. unfold am_run_tasks. set (a1 := mk_am _ _ _ _ _ _ _).
  assert (am_ok a1) as Hok1.
  { rewrite Hn in Hnd. cbn in Hnd. rewrite app_nil_r in Hnd. split; [exact Hnd|].
    intros t [Hl|Hl]%listed_true; cbn in Hl; [by apply not_elem_of_nil in Hl|]. apply Hk, listed_true. by left. }
  destruct (am_loop_memory handler m fuel Hh a1 Hok1 Hm) as [Hu Hm1]. unfold mbind, M_bind.
  destruct (am_loop handler fuel a1) as [[[] a2]| | |]; try done. split; [done|]. intros a' [= <-]. by apply (Hm1 a2).
Qed.

(** ** Correctness of tasks *)

(** C18. [iv_task.c] implements the two-queue machine: from related states,
    any sequence of interface calls on tasks in the client's memory, and a whole
    [iv_run_tasks] whose handlers make any such calls, end in related states or
    abort with the same message; the pointer structure is never corrupted. *)
Theorem iv_task_refines st_tasks tasks handler s a :
  task_rel st_tasks tasks s a ->
  (forall cs, refines (task_rel st_tasks tasks) (run_calls st_tasks cs s) (am_calls cs a)) /\
  (am_round a = None -> forall fuel,
     refines (task_rel st_tasks tasks) (iv_run_tasks st_tasks tasks handler fuel s)
       (am_run_tasks handler fuel a)).
Proof.
  intros Hr. split; [intros cs; by apply calls_refine|]. intros Hn fuel. by apply run_tasks_refines.
Qed.

(** The state before any task exists. *)
Definition task_boot (n : nat) : task_state :=
  mk_ts (list_to_map ((fun i => (Pos.of_nat (S i), mk_head None None)) <$> seq 0 n)) ∅ None 0 0 [].
Definition am_boot (raw : gset loc) : task_am := mk_am [] None raw ∅ 0 0 [].

Lemma task_init_rel st_tasks tasks s R :
  world (ts_lists s) ∅ R -> st_tasks ∈ R -> tasks ∈ R -> st_tasks <> tasks ->
  ts_current s = None -> ts_epochs s = ∅ ->
  exists s', iv_task_init st_tasks s = Ok (tt, s') /\
    task_rel st_tasks tasks s' (mk_am [] None (R ∖ {[st_tasks]} ∖ {[tasks]}) ∅ (ts_epoch s) (ts_numobjs s) (ts_ran s)).
Proof.
  intros Hw Hs Ht Hne Hc He. destruct (world_init _ _ _ Hw st_tasks Hs) as (h'&Hi&Hw').
  unfold iv_task_init. rewrite (on_lists_Ok _ s tt h' Hi). eexists; split; [done|].
  split; cbn; try done; [|..].
  - exists (<[st_tasks := []]> ∅), (R ∖ {[st_tasks]}). split_and!; try done.
    + by rewrite lookup_insert_eq.
    + set_solver +.
    + intros _. set_solver +Ht Hne.
  - split; [done|]. intros x Hx Hin. apply elem_of_union in Hin as [Hin|Hin].
    + apply elem_of_dom in Hin as [? Hin]. by rewrite lookup_empty in Hin.
    + destruct Hx as [-> | ->]; set_solver +Hin.
Qed.

Definition boot_raw : gset loc := {[1; 2; 3; 4; 5]}%positive.
Lemma boot_world : world (ts_lists (task_boot 5)) ∅ boot_raw.
Proof.
  split.
  - intros hd l Hl. by rewrite lookup_empty in Hl.
  - intros a h1 h2 (l&Hl&_). by rewrite lookup_empty in Hl.
  - intros x Hx. unfold alloc, boot_raw in *.
    assert (x = 1 \/ x = 2 \/ x = 3 \/ x = 4 \/ x = 5)%positive as Hc by set_solver +Hx.
    destruct Hc as [-> | [-> | [-> | [-> | ->]]]]; by eexists.
  - intros x hd _ (l&Hl&_). by rewrite lookup_empty in Hl.
Qed.

(** Tasks 3, 4 and 5; the handler of 3 re-registers 3, that of 4 registers 5. *)
Definition demo_handler (ran : list loc) : list task_call :=
  match last ran with
  | Some 3%positive => [TRegister 3%positive]
  | Some 4%positive => [TRegister 5%positive]
  | _ => []
  end.
Definition am_demo : task_am :=
  mk_am [] None (boot_raw ∖ {[1]} ∖ {[2]})%positive ∅ 0 0 [].
Definition am_demo_queued : task_am :=
  mk_am [3; 4]%positive None (boot_raw ∖ {[1]} ∖ {[2]} ∖ {[3]} ∖ {[4]} ∖ {[5]})%positive
    (<[5 := 0%Z]> (<[4 := 0%Z]> (<[3 := 0%Z]> ∅)))%positive 0 2 [].

Lemma iv_task_refines_witness :
  exists s, iv_task_init 1 (task_boot 5) = Ok (tt, s) /\
    (forall cs, refines (task_rel 1 2) (run_calls 1 cs s) (am_calls cs am_demo)) /\
    (am_round am_demo = None -> forall fuel,
       refines (task_rel 1 2) (iv_run_tasks 1 2 demo_handler fuel s)
         (am_run_tasks demo_handler fuel am_demo)).
Proof.
  destruct (task_init_rel 1 2 (task_boot 5) boot_raw) as (s&Hs&Hr);
    [exact boot_world|set_solver +|set_solver +|discriminate|reflexivity|reflexivity|].
  exists s. split; [exact Hs|]. apply iv_task_refines. exact Hr.
Defined.

Lemma run_tasks_round st_tasks tasks handler fuel s a :
  task_rel st_tasks tasks s a -> am_ok a -> am_round a = None ->
  (size (dom (am_epochs a)) < fuel)%nat ->
  am_run_tasks handler fuel a = Undef \/
  (exists msg, iv_run_tasks st_tasks tasks handler fuel s = Fatal msg) \/
  exists s' a' l, iv_run_tasks st_tasks tasks handler fuel s = Ok (tt, s') /\
    am_run_tasks handler fuel a = Ok (tt, a') /\
    task_rel st_tasks tasks s' a' /\ am_ok a' /\ am_round a' = None /\ ts_current s' = None /\
    ts_ran s' = ts_ran s ++ l /\ NoDup l /\
    ts_numobjs s' - Z.of_nat (length (am_queue a')) =
      ts_numobjs s - Z.of_nat (length (am_queue a)) /\
    ((forall h, Forall no_unregister (handler h)) -> exists l', l = am_queue a ++ l').
Proof.
  intros Hr [Hnd Hk] Hn Hf. pose proof (run_tasks_refines st_tasks tasks handler fuel s a Hr Hn) as Href.
  rewrite Hn in Hnd. cbn in Hnd. rewrite app_nil_r in Hnd.
  unfold am_run_tasks in *. set (a1 := mk_am [] _ _ _ _ _ _) in *.
  assert (am_ok a1) as Hok1.
  { split; [exact Hnd|]. intros t [Hl|Hl]%listed_true; cbn in Hl; [by apply not_elem_of_nil in Hl|].
    apply Hk, listed_true. by left. }
  assert (size (pending a1) < fuel)%nat as Hf1.
  { eapply Nat.le_lt_trans; [|exact Hf]. apply subseteq_size. intros t. rewrite elem_of_pending. tauto. }
  pose proof (am_loop_ok handler fuel a1 Hok1 Hf1 ltac:(by eexists)) as Hl.
  unfold mbind, M_bind in Href |- *.
  destruct (am_loop handler fuel a1) as [[[] a2]|msg| |]; [|by right; left; exists msg|by left|done].
  right; right. destruct Href as (s'&He&Hr'). destruct Hl as (Hok2&Hrd2&Hb&l&Hran&Hndl&_&Hpre).
  eexists s', _, l. split_and!; [exact He|reflexivity|exact Hr'| |done|..].
  - destruct Hok2 as [Hnd2 Hk2]. rewrite Hrd2 in Hnd2. split; [exact Hnd2|].
    intros t [Ht|Ht]%listed_true; cbn in Ht; [|by apply not_elem_of_nil in Ht]. apply Hk2, listed_true. by left.
  - by rewrite (tr_current _ _ _ _ Hr').
  - by rewrite (tr_ran _ _ _ _ Hr'), (tr_ran _ _ _ _ Hr).
  - done.
  - rewrite (tr_numobjs _ _ _ _ Hr'), (tr_numobjs _ _ _ _ Hr). unfold balance_of in Hb. cbn in Hb |- *.
    rewrite Hrd2 in Hb. cbn in Hb. rewrite app_nil_r in Hb. exact Hb.
  - exact Hpre.
Qed.

(** A round of [iv_run_tasks] ends (with fuel for one more than the
    number of initialised tasks, however the handlers re-register tasks), runs
    every task at most once, and keeps [numobjs] equal to the number of
    registered tasks plus the objects of other kinds.  If no handler
    unregisters a task, exactly the tasks queued at the start run first, in
    the order they were registered. *)
Theorem iv_run_tasks_round st_tasks tasks handler fuel s a :
  task_rel st_tasks tasks s a -> am_ok a -> am_round a = None ->
  (size (dom (am_epochs a)) < fuel)%nat ->
  am_run_tasks handler fuel a = Undef \/
  (exists msg, iv_run_tasks st_tasks tasks handler fuel s = Fatal msg) \/
  exists s' a' l, iv_run_tasks st_tasks tasks handler fuel s = Ok (tt, s') /\
    task_rel st_tasks tasks s' a' /\ ts_current s' = None /\
    ts_ran s' = ts_ran s ++ l /\ NoDup l /\
    ts_numobjs s' - Z.of_nat (length (am_queue a')) =
      ts_numobjs s - Z.of_nat (length (am_queue a)) /\
    ((forall h, Forall no_unregister (handler h)) -> exists l', l = am_queue a ++ l').
Proof.
  intros Hr Hok Hn Hf. destruct (run_tasks_round st_tasks tasks handler fuel s a Hr Hok Hn Hf)
    as [?|[?|(s'&a'&l&?&_&?&_&_&?)]]; [by left|by right; left|]. right; right. by exists s', a', l.
Qed.

Lemma iv_run_tasks_round_witness :
  exists s, (iv_task_init 1;; run_calls 1 [TInit 3; TInit 4; TInit 5; TRegister 3; TRegister 4]) (task_boot 5) = Ok (tt, s) /\
  (am_run_tasks demo_handler 4 am_demo_queued = Undef \/
  (exists msg, iv_run_tasks 1 2 demo_handler 4 s = Fatal msg) \/
  exists s' a' l, iv_run_tasks 1 2 demo_handler 4 s = Ok (tt, s') /\
    task_rel 1 2 s' a' /\ ts_current s' = None /\
    ts_ran s' = ts_ran s ++ l /\ NoDup l /\
    ts_numobjs s' - Z.of_nat (length (am_queue a')) =
      ts_numobjs s - Z.of_nat (length (am_queue am_demo_queued)) /\
    ((forall h, Forall no_unregister (demo_handler h)) -> exists l', l = am_queue am_demo_queued ++ l')).
Proof.
  destruct (task_init_rel 1 2 (task_boot 5) boot_raw) as (s0&Hs0&Hr0);
    [exact boot_world|set_solver +|set_solver +|discriminate|reflexivity|reflexivity|].
  pose proof (calls_refine 1 2 demo_handler [TInit 3; TInit 4; TInit 5; TRegister 3; TRegister 4]%positive _ _ Hr0) as Hc.
  assert (am_calls [TInit 3; TInit 4; TInit 5; TRegister 3; TRegister 4]%positive am_demo =
    Ok (tt, am_demo_queued)) as Ha by (vm_compute; reflexivity).
  unfold refines in Hc. change (ts_epoch (task_boot 5)) with 0 in Hc.
  change (mk_am [] None _ ∅ 0 _ _) with am_demo in Hc. rewrite Ha in Hc.
  destruct Hc as (s&Hs&Hr). exists s. split; [by mrun Hs0|].
  apply iv_run_tasks_round; [exact Hr| |reflexivity|apply Nat.ltb_lt; vm_compute; reflexivity].
  split; [apply (bool_decide_unpack _); vm_compute; exact I|].
  intros t Ht. apply listed_true in Ht. cbn in Ht. set_solver +Ht.
Defined.

