(* ===== verification/Timer.v ===== *)
(** * Timers: src/src/iv_timer.c and src/src/iv_time_posix.c

    The timers of a thread form a binary heap whose array is spread over a
    128-ary radix tree of [struct iv_timer_ratnode]; the first leaf lives in
    [struct iv_state], where it shares its first word with the root pointer.
    This file is the C code over a heap of radix nodes; TimerRadix.v and
    TimerHeap.v prove it correct. *)

From S2P Require Import Prelude.

Local Open Scope Z_scope.

(** ** Time *)
Record timespec := mk_tsp { tv_sec : Z; tv_nsec : Z }.

#[global] Instance timespec_eq_dec : EqDecision timespec.
Proof. solve_decision. Defined.

Definition timespec_gt (a b : timespec) : bool :=
  (tv_sec b <? tv_sec a) || ((tv_sec a =? tv_sec b) && (tv_nsec b <? tv_nsec a)).

(** The clocks of [clock_gettime], in the order [iv_time_get] tries them. *)
Inductive clockid := CLOCK_MONOTONIC_FAST | CLOCK_MONOTONIC | CLOCK_REALTIME.

(** ** State *)

(** [struct iv_timer_]: [t_index] is -1 off the heap, 0 on the list of expired
    timers, and a position in the heap otherwise. *)
Record timer := mk_timer { t_expires : timespec; t_index : Z }.

(** The timer fields of [struct iv_state].  [tm_nodes] is the memory of the
    radix nodes (an absent slot holds NULL); [tm_expired] is the list
    [timers] on the stack of [iv_run_timers]; [tm_readings] counts the clock
    readings so far and [tm_ran] lists the handlers called. *)
Record timer_state := mk_tms {
  tm_nodes : gmap loc (gmap Z loc);
  tm_depth : Z;
  tm_num : Z;
  tm_timers : gmap loc timer;
  tm_expired : list loc;
  tm_numobjs : Z;
  tm_time : timespec;
  tm_time_valid : bool;
  tm_clock_source : Z;
  tm_readings : nat;
  tm_ran : list loc }.

Definition set_nodes (n : gmap loc (gmap Z loc)) : M timer_state unit := modify (fun s =>
  mk_tms n (tm_depth s) (tm_num s) (tm_timers s) (tm_expired s) (tm_numobjs s) (tm_time s)
    (tm_time_valid s) (tm_clock_source s) (tm_readings s) (tm_ran s)).
Definition set_depth (d : Z) : M timer_state unit := modify (fun s =>
  mk_tms (tm_nodes s) d (tm_num s) (tm_timers s) (tm_expired s) (tm_numobjs s) (tm_time s)
    (tm_time_valid s) (tm_clock_source s) (tm_readings s) (tm_ran s)).
Definition set_num (n : Z) : M timer_state unit := modify (fun s =>
  mk_tms (tm_nodes s) (tm_depth s) n (tm_timers s) (tm_expired s) (tm_numobjs s) (tm_time s)
    (tm_time_valid s) (tm_clock_source s) (tm_readings s) (tm_ran s)).
Definition set_timers (t : gmap loc timer) : M timer_state unit := modify (fun s =>
  mk_tms (tm_nodes s) (tm_depth s) (tm_num s) t (tm_expired s) (tm_numobjs s) (tm_time s)
    (tm_time_valid s) (tm_clock_source s) (tm_readings s) (tm_ran s)).
Definition set_expired (l : list loc) : M timer_state unit := modify (fun s =>
  mk_tms (tm_nodes s) (tm_depth s) (tm_num s) (tm_timers s) l (tm_numobjs s) (tm_time s)
    (tm_time_valid s) (tm_clock_source s) (tm_readings s) (tm_ran s)).
Definition set_numobjs (n : Z) : M timer_state unit := modify (fun s =>
  mk_tms (tm_nodes s) (tm_depth s) (tm_num s) (tm_timers s) (tm_expired s) n (tm_time s)
    (tm_time_valid s) (tm_clock_source s) (tm_readings s) (tm_ran s)).
Definition set_time (t : timespec) (v : bool) : M timer_state unit := modify (fun s =>
  mk_tms (tm_nodes s) (tm_depth s) (tm_num s) (tm_timers s) (tm_expired s) (tm_numobjs s) t
    v (tm_clock_source s) (tm_readings s) (tm_ran s)).
Definition set_clock_source (c : Z) : M timer_state unit := modify (fun s =>
  mk_tms (tm_nodes s) (tm_depth s) (tm_num s) (tm_timers s) (tm_expired s) (tm_numobjs s) (tm_time s)
    (tm_time_valid s) c (tm_readings s) (tm_ran s)).
Definition count_reading : M timer_state nat := fun s =>
  Ok (tm_readings s, mk_tms (tm_nodes s) (tm_depth s) (tm_num s) (tm_timers s) (tm_expired s)
    (tm_numobjs s) (tm_time s) (tm_time_valid s) (tm_clock_source s) (S (tm_readings s)) (tm_ran s)).
Definition log_ran (t : loc) : M timer_state unit := modify (fun s =>
  mk_tms (tm_nodes s) (tm_depth s) (tm_num s) (tm_timers s) (tm_expired s) (tm_numobjs s) (tm_time s)
    (tm_time_valid s) (tm_clock_source s) (tm_readings s) (tm_ran s ++ [t])).

(** [t->expires], [t->index] *)
Definition load_timer (t : loc) : M timer_state timer :=
  ts ← gets tm_timers; deref (ts !! t).
Definition set_index (t : loc) (i : Z) : M timer_state unit :=
  tm ← load_timer t; ts ← gets tm_timers; set_timers (<[t := mk_timer (t_expires tm) i]> ts).

(** A slot of a radix node: [&node->child[k]]. *)
Definition slot : Type := loc * Z.
#[global] Instance slot_eq_dec : EqDecision slot := _.
Definition IV_TIMER_SPLIT_BITS : Z := 7.
Definition IV_TIMER_SPLIT_NODES : Z := Z.shiftl 1 IV_TIMER_SPLIT_BITS.

Definition load_slot (p : slot) : M timer_state ptr :=
  ns ← gets tm_nodes; n ← deref (ns !! p.1);
  if decide (0 <= p.2 < IV_TIMER_SPLIT_NODES) then mret (n !! p.2) else undef.
Definition store_slot (p : slot) (v : ptr) : M timer_state unit :=
  ns ← gets tm_nodes; n ← deref (ns !! p.1);
  if decide (0 <= p.2 < IV_TIMER_SPLIT_NODES)
  then set_nodes (<[p.1 := partial_alter (fun _ => v) p.2 n]> ns) else undef.

(** [x >> n] on a 32-bit [int]: shifting by 32 or more is undefined. *)
Definition c_shr (x n : Z) : M timer_state Z :=
  if decide (0 <= n < 32) then mret (Z.shiftr x n) else undef.

Inductive timer_call :=
  | TmInit (t : loc) | TmExpires (t : loc) (ts : timespec)
  | TmRegister (t : loc) | TmUnregister (t : loc)
  | TmValidate | TmInvalidate.

Section timer.
(** [st_first_leaf] is the address of [st->ratnode]; [calloc] is the
    allocator (NULL or a block that is not in use); the clocks; and the
    calls made by the handler that was called last. *)
Context (st_first_leaf : loc) (calloc : gset loc -> option loc).
Context (clock_gettime : nat -> clockid -> option timespec) (gettimeofday : nat -> Z * Z).
Context (handler : list loc -> list timer_call).

(** ** iv_time_posix.c *)
Definition iv_time_get : M timer_state timespec :=
  n ← count_reading;
  let try (source : Z) (id : clockid) (rest : M timer_state timespec) :=
    c ← gets tm_clock_source;
    if c <? source then
      match clock_gettime n id with
      | Some ts => mret ts
      | None => set_clock_source source;; rest
      end
    else rest in
  try 1 CLOCK_MONOTONIC_FAST (try 2 CLOCK_MONOTONIC (try 3 CLOCK_REALTIME
    (let '(sec, usec) := gettimeofday n in mret (mk_tsp sec (1000 * usec))))).

(** ** Time caching *)
Definition iv_invalidate_now : M timer_state unit :=
  t ← gets tm_time; set_time t false.

Definition iv_validate_now : M timer_state unit :=
  v ← gets tm_time_valid;
  when (negb v) (t ← gets tm_time; set_time t true;; now ← iv_time_get; set_time now true).

Definition __iv_now_location_valid : M timer_state timespec :=
  iv_validate_now;; gets tm_time.

(** ** Timeouts (iv_private.h) *)
Definition to_relative (abs : option timespec) : M timer_state (option timespec) :=
  match abs with
  | Some abs =>
      iv_validate_now;;
      now ← gets tm_time;
      if timespec_gt abs now then
        let sec := tv_sec abs - tv_sec now in
        let nsec := tv_nsec abs - tv_nsec now in
        mret (Some (if nsec <? 0 then mk_tsp (sec - 1) (nsec + 1000000000) else mk_tsp sec nsec))
      else mret (Some (mk_tsp 0 0))
  | None => mret None
  end.

Definition to_msec (abs : option timespec) : M timer_state Z :=
  match abs with
  | Some _ =>
      rel ← to_relative abs; rel ← deref rel;
      mret (if tv_sec rel <? 86400
            then 1000 * tv_sec rel + (tv_nsec rel + 999999) / 1000000
            else 86400000)
  | None => mret (-1)
  end.

(** ** The radix tree *)

(** [st->ratnode.timer_root] is the first word of the first leaf. *)
Definition get_timer_root : M timer_state ptr := load_slot (st_first_leaf, 0).
Definition set_timer_root (p : ptr) : M timer_state unit := store_slot (st_first_leaf, 0) p.

Definition iv_timer_init : M timer_state unit := set_timer_root (Some st_first_leaf).

Definition free (a : loc) : M timer_state unit :=
  ns ← gets tm_nodes;
  if decide (is_Some (ns !! a) /\ a <> st_first_leaf) then set_nodes (delete a ns) else undef.

Definition iv_timer_allocate_ratnode : M timer_state loc :=
  ns ← gets tm_nodes;
  match calloc (dom ns) with
  | Some a => set_nodes (<[a := ∅]> ns);; mret a
  | None => iv_fatal "iv_timer_allocate_ratnode: out of memory"
  end.

(** [for (i = first; i < 128; i++) { if (node->child[i] == NULL) break; f(child[i]); }],
    with [n] slots left. *)
Fixpoint for_children (n : nat) (node : loc) (i : Z) (f : loc -> M timer_state unit) :
    M timer_state unit :=
  match n with
  | O => mret tt
  | S n =>
      c ← load_slot (node, i);
      match c with
      | None => mret tt
      | Some c => f c;; for_children n node (i + 1) f
      end
  end.

Fixpoint iv_timer_free_ratnode (depth : nat) (node : loc) : M timer_state unit :=
  (match depth with
   | O => mret tt
   | S depth => for_children 128 node 0 (iv_timer_free_ratnode depth)
   end);;
  free node.

Definition iv_timer_radix_tree_remove_level : M timer_state unit :=
  d ← gets tm_depth; set_depth (d - 1);;
  root ← get_timer_root; root ← deref root;
  d ← gets tm_depth;
  for_children 127 root 1 (iv_timer_free_ratnode (Z.to_nat d));;
  c ← load_slot (root, 0); set_timer_root c;;
  free root.

Fixpoint deinit_loop (fuel : nat) : M timer_state unit :=
  match fuel with
  | O => out_of_fuel
  | S fuel =>
      d ← gets tm_depth;
      if d =? 0 then mret tt else iv_timer_radix_tree_remove_level;; deinit_loop fuel
  end.
Definition iv_timer_deinit : M timer_state unit :=
  d ← gets tm_depth; deinit_loop (S (Z.to_nat d));; set_timer_root None.

(** [for (i = st->rat_depth; i > 0; i--)] *)
Fixpoint get_node_loop (i : nat) (index : Z) (r : loc) : M timer_state loc :=
  match i with
  | O => mret r
  | S i' =>
      sh ← c_shr index (Z.of_nat i * IV_TIMER_SPLIT_BITS);
      let bits := Z.land sh (IV_TIMER_SPLIT_NODES - 1) in
      c ← load_slot (r, bits);
      when (is_null c) (a ← iv_timer_allocate_ratnode; store_slot (r, bits) (Some a));;
      c ← load_slot (r, bits); c ← deref c;
      get_node_loop i' index c
  end.

Definition iv_timer_get_node (index : Z) : M timer_state slot :=
  d ← gets tm_depth;
  sh ← c_shr index ((d + 1) * IV_TIMER_SPLIT_BITS);
  when (negb (sh =? 0)) (
    set_depth (d + 1);;
    r ← iv_timer_allocate_ratnode;
    root ← get_timer_root; store_slot (r, 0) root;;
    set_timer_root (Some r));;
  r ← get_timer_root; r ← deref r;
  d ← gets tm_depth;
  r ← get_node_loop (Z.to_nat d) index r;
  mret (r, Z.land index (IV_TIMER_SPLIT_NODES - 1)).

(** ** The heap *)
Definition timer_ptr_gt (a b : ptr) : M timer_state bool :=
  a ← deref a; a ← load_timer a; b ← deref b; b ← load_timer b;
  mret (timespec_gt (t_expires a) (t_expires b)).

(** Exchange the timers of two slots and refresh their [index] fields. *)
Definition exchange (i : slot) (index : Z) (p : slot) (parent : Z) : M timer_state unit :=
  et ← load_slot i;
  pv ← load_slot p; store_slot i pv;;
  store_slot p et;;
  x ← load_slot i; x ← deref x; set_index x index;;
  x ← load_slot p; x ← deref x; set_index x parent.

Fixpoint pull_up (fuel : nat) (index : Z) (i : slot) : M timer_state unit :=
  match fuel with
  | O => out_of_fuel
  | S fuel =>
      if index =? 1 then mret tt
      else
        let parent := index / 2 in
        p ← iv_timer_get_node parent;
        a ← load_slot p; b ← load_slot i;
        gt ← timer_ptr_gt a b;
        if negb gt then mret tt
        else exchange i index p parent;; pull_up fuel parent p
  end.

Fixpoint push_down (fuel : nat) (index : Z) (i : slot) : M timer_state unit :=
  match fuel with
  | O => out_of_fuel
  | S fuel =>
      n ← gets tm_num;
      '(index_min, imin) ← (
        if 2 * index <=? n then
          p ← iv_timer_get_node (2 * index);
          a ← load_slot i; b ← load_slot p;
          gt ← timer_ptr_gt a b;
          let '(index_min, imin) := if (gt : bool) then (2 * index, p) else (index, i) in
          let p1 := (p.1, p.2 + 1) in
          c ← load_slot p1;
          match c with
          | None => mret (index_min, imin)
          | Some _ =>
              a ← load_slot imin;
              gt ← timer_ptr_gt a c;
              mret (if (gt : bool) then (2 * index + 1, p1) else (index_min, imin))
          end
        else mret (index, i));
      if index =? index_min then mret tt
      else exchange i index imin index_min;; push_down fuel index_min imin
  end.

(** The heap has at most [n] levels for [n] timers. *)
Definition heap_fuel : M timer_state nat := gets (fun s => S (Z.to_nat (tm_num s))).

Definition iv_timer_register (t : loc) : M timer_state unit :=
  tm ← load_timer t;
  if negb (t_index tm =? -1) then
    iv_fatal "iv_timer_register: called with timer still on the heap"
  else
    o ← gets tm_numobjs; set_numobjs (o + 1);;
    n ← gets tm_num; set_num (n + 1);;
    let index := n + 1 in
    p ← iv_timer_get_node index;
    store_slot p (Some t);;
    set_index t index;;
    fuel ← heap_fuel;
    pull_up fuel index p.

Definition iv_timer_unregister (t : loc) : M timer_state unit :=
  tm ← load_timer t;
  if t_index tm =? -1 then
    iv_fatal "iv_timer_unregister: called with timer not on the heap"
  else
    (if negb (t_index tm =? 0) then
      n ← gets tm_num;
      if n <? t_index tm then iv_fatal "iv_timer_unregister: timer index %d > %d"
      else
        p ← iv_timer_get_node (t_index tm);
        pv ← load_slot p;
        if negb (ptr_eqb pv (Some t)) then
          iv_fatal "iv_timer_unregister: unregistered timer index belonging to other timer"
        else
          m ← iv_timer_get_node n;
          mv ← load_slot m; store_slot p mv;;
          x ← load_slot p; x ← deref x; tm ← load_timer t; set_index x (t_index tm);;
          store_slot m None;;
          d ← gets tm_depth;
          when ((0 <? d) && (n =? Z.shiftl 1 (d * IV_TIMER_SPLIT_BITS)))
            iv_timer_radix_tree_remove_level;;
          n ← gets tm_num; set_num (n - 1);;
          fuel ← heap_fuel;
          when (negb (bool_decide (p = m))) (
            x ← load_slot p; x ← deref x; tx ← load_timer x; pull_up fuel (t_index tx) p;;
            x ← load_slot p; x ← deref x; tx ← load_timer x; push_down fuel (t_index tx) p);;
          o ← gets tm_numobjs; set_numobjs (o - 1)
    else
      l ← gets tm_expired; set_expired (remove t l));;
    set_index t (-1).

Definition IV_TIMER_INIT (t : loc) : M timer_state unit := set_index t (-1).

Definition iv_timer_registered (t : loc) : M timer_state bool :=
  tm ← load_timer t; mret (negb (t_index tm =? -1)).

Definition iv_get_soonest_timeout : M timer_state (option timespec) :=
  n ← gets tm_num;
  if negb (n =? 0) then
    t ← load_slot (st_first_leaf, 1); t ← deref t; tm ← load_timer t;
    mret (Some (t_expires tm))
  else mret None.

(** [t->expires = ts;], by the owner of the timer. *)
Definition set_expires (t : loc) (ts : timespec) : M timer_state unit :=
  tm ← load_timer t; tms ← gets tm_timers; set_timers (<[t := mk_timer ts (t_index tm)]> tms).

(** What the interface asks of its callers: timers are initialised before
    use, registered only while they are unregistered and the reverse, their
    expiry time is only changed while they are unregistered, and fewer than
    [2 ^ 28] timers are registered at once.  A call that breaks this ends the
    program with a message of its own, which no call that keeps it gives. *)
Definition timer_limit : Z := 2 ^ 28.
Definition legal_call (c : timer_call) (s : timer_state) : bool :=
  match c with
  | TmInit t | TmExpires t _ =>
      match tm_timers s !! t with Some tm => t_index tm =? -1 | None => false end
  | TmRegister t =>
      match tm_timers s !! t with Some tm => (t_index tm =? -1) && (tm_num s + 1 <? timer_limit) | None => false end
  | TmUnregister t =>
      match tm_timers s !! t with Some tm => negb (t_index tm =? -1) | None => false end
  | TmValidate | TmInvalidate => true
  end.

Definition run_timer_call (c : timer_call) : M timer_state unit :=
  s ← get; requires (legal_call c s);;
  match c with
  | TmInit t => IV_TIMER_INIT t
  | TmExpires t ts => set_expires t ts
  | TmRegister t => iv_timer_register t
  | TmUnregister t => iv_timer_unregister t
  | TmValidate => iv_validate_now
  | TmInvalidate => iv_invalidate_now
  end.
Fixpoint run_timer_calls (cs : list timer_call) : M timer_state unit :=
  match cs with [] => mret tt | c :: cs => run_timer_call c;; run_timer_calls cs end.

(** The first loop of [iv_run_timers]: expired timers leave the heap. *)
Fixpoint collect_loop (fuel : nat) : M timer_state unit :=
  match fuel with
  | O => out_of_fuel
  | S fuel =>
      n ← gets tm_num;
      if n =? 0 then mret tt
      else
        t ← load_slot (st_first_leaf, 1); t ← deref t; tm ← load_timer t;
        if negb (t_index tm =? 1) then iv_fatal "iv_run_timers: root timer has heap index %d"
        else
          now ← gets tm_time;
          if timespec_gt (t_expires tm) now then mret tt
          else
            iv_timer_unregister t;;
            l ← gets tm_expired; set_expired (l ++ [t]);;
            set_index t 0;;
            collect_loop fuel
  end.

(** The second loop: their handlers run. *)
Fixpoint dispatch_loop (fuel : nat) : M timer_state unit :=
  match fuel with
  | O => out_of_fuel
  | S fuel =>
      l ← gets tm_expired;
      match l with
      | [] => mret tt
      | t :: l =>
          set_expired l;;
          set_index t (-1);;
          log_ran t;; ran ← gets tm_ran; run_timer_calls (handler ran);;
          dispatch_loop fuel
      end
  end.

Definition iv_run_timers : M timer_state unit :=
  n ← gets tm_num;
  if n =? 0 then mret tt
  else
    set_expired [];;
    iv_validate_now;;
    collect_loop (S (Z.to_nat n));;
    l ← gets tm_expired;
    dispatch_loop (S (length l)).
End timer.
