(* ===== verification/TimerRadix.v ===== *)
(** * The radix tree of iv_timer.c represents an array

    [radix ns d hwl A H] says that the nodes [ns] form a tree of depth [d]
    whose node covering the [q]-th block of level [k] is [A k q], present for
    the blocks up to the level's high-water mark [hwl k], and whose leaves
    hold the array [H].  Looking up an index yields its slot, allocating at
    most the nodes on its path; dropping a level frees exactly the blocks
    above it. *)

From S2P Require Import Prelude Timer.

Local Open Scope Z_scope.

(** The number of timers below a node of level [k]. *)
Definition width (k : nat) : Z := 128 ^ (Z.of_nat k + 1).

Lemma width_pos k : 0 < width k.
Proof. unfold width. apply Z.pow_pos_nonneg; lia. Qed.
Lemma width_0 : width 0 = 128.
Proof. done. Qed.
Lemma width_S k : width (S k) = 128 * width k.
Proof.
  unfold width. replace (Z.of_nat (S k) + 1) with (Z.succ (Z.of_nat k + 1)) by lia.
  by rewrite Z.pow_succ_r by lia.
Qed.
Lemma width_le k k' : (k <= k')%nat -> width k <= width k'.
Proof. intros. unfold width. apply Z.pow_le_mono_r; lia. Qed.
Lemma width_divides k k' : (k <= k')%nat -> exists c, width k' = c * width k.
Proof.
  intros. exists (128 ^ (Z.of_nat k' - Z.of_nat k)). unfold width.
  rewrite <-Z.pow_add_r by lia. f_equal. lia.
Qed.
Lemma width_shift x k : Z.shiftr x ((Z.of_nat k + 1) * 7) = x / width k.
Proof.
  rewrite Z.shiftr_div_pow2 by lia. unfold width.
  replace 128 with (2 ^ 7) by done. by rewrite <-Z.pow_mul_r, Z.mul_comm by lia.
Qed.
Lemma div_width_S x k : x / width (S k) = x / width k / 128.
Proof. pose proof (width_pos k). rewrite width_S, Z.mul_comm, Zdiv_Zdiv by lia. done. Qed.

Definition upd2 (A : nat -> Z -> loc) (k : nat) (q : Z) (a : loc) : nat -> Z -> loc :=
  fun k' q' => if decide (k' = k /\ q' = q) then a else A k' q'.
Definition upd_at (H : Z -> ptr) (i : Z) (v : ptr) : Z -> ptr :=
  fun j => if decide (j = i) then v else H j.
Definition upd_lvl (hwl : nat -> Z) (k : nat) (h : Z) : nat -> Z :=
  fun j => if decide (j = k) then h else hwl j.

Abbreviation ratnodes := (gmap loc (gmap Z loc)).

(** Which blocks of level [k] have a node. *)
Definition present (hwl : nat -> Z) (d k : nat) (q : Z) : Prop :=
  (k <= d)%nat /\ 0 <= q /\ q * width k <= hwl k.
#[global] Instance present_dec hwl d k q : Decision (present hwl d k q).
Proof. unfold present. apply _. Defined.

Section radix.
Context (fl : loc).

(** The contents of the node [(k, q)]. *)
Definition node_ok (ns : ratnodes) (d : nat) (hwl : nat -> Z) (A : nat -> Z -> loc) (H : Z -> ptr)
    (k : nat) (q : Z) : Prop :=
  exists m, ns !! A k q = Some m /\
    forall b, 0 <= b < 128 -> m !! b =
      match k with
      | O => if decide (q * 128 + b = 0) then Some (A d 0) else H (q * 128 + b)
      | S k => if decide (present hwl d k (q * 128 + b)) then Some (A k (q * 128 + b)) else None
      end.

Record radix (ns : ratnodes) (d : nat) (hwl : nat -> Z) (A : nat -> Z -> loc) (H : Z -> ptr) : Prop := {
  r_hw : forall k, (k <= d)%nat -> 0 <= hwl k;
  r_mono : forall k, (k < d)%nat -> hwl k <= hwl (S k);
  r_first : A 0%nat 0 = fl;
  r_inj : forall k q k' q', present hwl d k q -> present hwl d k' q' -> A k q = A k' q' -> k = k' /\ q = q';
  r_dom : forall a, is_Some (ns !! a) -> exists k q, present hwl d k q /\ A k q = a;
  r_node : forall k q, present hwl d k q -> node_ok ns d hwl A H k q;
  r_array : forall i, H i <> None -> 1 <= i <= hwl 0%nat }.

Context {ns : ratnodes} {d : nat} {hwl : nat -> Z} {A : nat -> Z -> loc} {H : Z -> ptr}.
Context (Hr : radix ns d hwl A H).

Lemma radix_first_present k : (k <= d)%nat -> present hwl d k 0.
Proof. intros. split_and!; [done|lia|]. pose proof (r_hw _ _ _ _ _ Hr k ltac:(done)). lia. Qed.

Lemma radix_root : exists m, ns !! fl = Some m /\ m !! 0 = Some (A d 0).
Proof.
  destruct (r_node _ _ _ _ _ Hr 0 0) as (m&Hm&Hb); [apply radix_first_present; lia|].
  rewrite (r_first _ _ _ _ _ Hr) in Hm. exists m. split; [done|]. rewrite (Hb 0) by lia. done.
Qed.

(** The slot of index [i]. *)
Definition slot_of (i : Z) : slot := (A 0%nat (i / 128), i mod 128).

Lemma slot_block i : i / 128 * 128 + i mod 128 = i.
Proof. pose proof (Z.div_mod i 128). lia. Qed.

Lemma radix_slot i : 1 <= i -> present hwl d 0 (i / 128) ->
  exists m, ns !! (slot_of i).1 = Some m /\ m !! (slot_of i).2 = H i.
Proof.
  intros Hi Hp. destruct (r_node _ _ _ _ _ Hr 0 _ Hp) as (m&Hm&Hb). exists m. split; [done|].
  cbn. rewrite Hb by (apply Z.mod_pos_bound; lia). rewrite slot_block.
  by rewrite decide_False by lia.
Qed.

Lemma slot_of_inj i j : present hwl d 0 (i / 128) -> present hwl d 0 (j / 128) ->
  slot_of i = slot_of j -> i = j.
Proof.
  intros Hi Hj [= E1 E2]. destruct (r_inj _ _ _ _ _ Hr _ _ _ _ Hi Hj E1) as [_ E].
  rewrite <-(slot_block i), <-(slot_block j). lia.
Qed.

(** Writing an element of the array. *)
Lemma radix_store i v m : 1 <= i -> present hwl d 0 (i / 128) -> (v <> None -> i <= hwl 0%nat) ->
  ns !! (slot_of i).1 = Some m ->
  radix (<[(slot_of i).1 := partial_alter (fun _ => v) (slot_of i).2 m]> ns) d hwl A (upd_at H i v).
Proof.
  intros Hi Hp Hv Hm. cbn in *. split; try apply Hr.
  - intros a. rewrite lookup_insert_is_Some. intros [<-|[_ Ha]]; [by exists 0%nat, (i / 128)|].
    by eapply r_dom.
  - intros k q Hpq. destruct (r_node _ _ _ _ _ Hr k q Hpq) as (m'&Hm'&Hb).
    destruct (decide (A k q = A 0%nat (i / 128))) as [E|Hne].
    + destruct (r_inj _ _ _ _ _ Hr _ _ _ _ Hpq Hp E) as [-> ->].
      exists (partial_alter (fun _ => v) (i mod 128) m). split; [by rewrite lookup_insert_eq|].
      rewrite Hm in Hm'. injection Hm' as <-.
      intros b Hb0. rewrite lookup_partial_alter. unfold upd_at.
      destruct (decide (i mod 128 = b)) as [<-|Hnb].
      * rewrite slot_block, decide_False by lia. by rewrite decide_True.
      * rewrite Hb by done. case_decide; [done|]. rewrite decide_False; [done|].
        intros E2. apply Hnb. rewrite <-E2, Z.add_comm, Z.mod_add by lia. apply Z.mod_small. lia.
    + exists m'. split; [by rewrite lookup_insert_ne by done|]. intros b Hb0. rewrite (Hb b Hb0).
      destruct k as [|k]; [|done]. case_decide; [done|]. unfold upd_at.
      rewrite decide_False; [done|]. intros E2. apply Hne. f_equal.
      rewrite <-E2, Z.add_comm, Z.div_add by lia. rewrite Z.div_small; lia.
  - intros j. unfold upd_at. case_decide; [subst|apply Hr]. intros ?. split; [done|auto].
Qed.
End radix.

Arguments slot_of A i : clear implicits.

(** ** Growing the tree *)
Section grow.
Context (fl : loc) {ns : ratnodes} {d : nat} {hwl : nat -> Z} {A : nat -> Z -> loc} {H : Z -> ptr}.
Context (Hr : radix fl ns d hwl A H).

(** Block [h / width k] of level [k], when [h] is at most one past the mark. *)
Lemma absent_next k h : (k <= d)%nat -> 0 <= h -> h - 1 <= hwl k ->
  ~ present hwl d k (h / width k) -> h / width k * width k = h /\ hwl k = h - 1.
Proof.
  intros Hk Hh Hm Hn. pose proof (width_pos k). unfold present in Hn.
  assert (0 <= h / width k) by (apply Z.div_pos; lia).
  pose proof (Z.div_mod h (width k) ltac:(lia)). pose proof (Z.mod_pos_bound h (width k) ltac:(lia)).
  assert (hwl k < h / width k * width k); [|nia].
  apply Z.nle_gt. intros ?. apply Hn. done.
Qed.

(** Raising the mark of a level to [h] changes only block [h / width k]. *)
Lemma present_raise k h k' q : (k <= d)%nat -> 0 <= h -> hwl k <= h -> h - 1 <= hwl k ->
  present (upd_lvl hwl k h) d k' q <-> present hwl d k' q \/ (k' = k /\ q = h / width k).
Proof.
  intros Hk Hh H1 H2. unfold present, upd_lvl. pose proof (width_pos k).
  pose proof (Z.div_mod h (width k) ltac:(lia)). pose proof (Z.mod_pos_bound h (width k) ltac:(lia)).
  assert (0 <= h / width k) by (apply Z.div_pos; lia).
  destruct (decide (k' = k)) as [->|Hne]; [|naive_solver].
  split.
  - intros (?&?&?). destruct (decide (q * width k <= hwl k)); [by left|]. right. split; [done|]. nia.
  - intros [(?&?&?)|[_ ->]]; split_and!; try done; nia.
Qed.

(** Marks move, nodes do not. *)
Lemma radix_raise k h : (k <= d)%nat -> 0 <= h -> h - 1 <= hwl k -> hwl k <= h ->
  ((k < d)%nat -> h <= hwl (S k)) -> present hwl d k (h / width k) ->
  radix fl ns d (upd_lvl hwl k h) A H.
Proof.
  intros Hk Hh H1 H2 H3 Hp.
  assert (forall k' q, present (upd_lvl hwl k h) d k' q <-> present hwl d k' q) as Hpr.
  { intros k' q. rewrite present_raise by done. naive_solver. }
  split.
  - intros k' ?. unfold upd_lvl. case_decide; [lia|by apply (r_hw _ _ _ _ _ _ Hr)].
  - intros k' ?. pose proof (r_mono _ _ _ _ _ _ Hr k' ltac:(done)). unfold upd_lvl.
    repeat case_decide; subst; try lia; auto.
  - apply Hr.
  - intros k1 q1 k2 q2. rewrite !Hpr. apply (r_inj _ _ _ _ _ _ Hr).
  - intros a Ha. destruct (r_dom _ _ _ _ _ _ Hr a Ha) as (k'&q&?&?). exists k', q. by rewrite Hpr.
  - intros k' q Hq. apply Hpr in Hq. destruct (r_node _ _ _ _ _ _ Hr _ _ Hq) as (m&Hm&Hb).
    exists m. split; [done|]. intros b Hb0. rewrite (Hb b Hb0). destruct k' as [|k']; [done|].
    apply decide_ext, iff_sym, Hpr.
  - intros i Hi. pose proof (r_array _ _ _ _ _ _ Hr i Hi). unfold upd_lvl. case_decide; subst; lia.
Qed.

(** A node for block [q] of level [k] is linked below its parent. *)
Lemma radix_grow k q a m h :
  (k < d)%nat -> q * width k = h -> 0 < h -> hwl k = h - 1 -> h <= hwl (S k) ->
  ns !! a = None -> ns !! A (S k) (q / 128) = Some m ->
  present hwl d (S k) (q / 128) ->
  radix fl (<[A (S k) (q / 128) := partial_alter (fun _ => Some a) (q mod 128) m]> (<[a := ∅]> ns))
    d (upd_lvl hwl k h) (upd2 A k q a) H.
Proof.
  intros Hk Hq Hh Hhw HS Ha Hm Hpp.
  pose proof (width_pos k). assert (0 < q) by nia.
  assert (h / width k = q) as Eq by (subst h; apply Z.div_mul; lia).
  assert (~ present hwl d k q) as Hnp by (unfold present; lia).
  assert (forall k' q', present (upd_lvl hwl k h) d k' q' <-> present hwl d k' q' \/ (k' = k /\ q' = q)) as Hpr.
  { intros k' q'. rewrite present_raise, Eq by lia. done. }
  assert (forall k' q', present hwl d k' q' -> upd2 A k q a k' q' = A k' q') as HA.
  { intros k' q' Hp. unfold upd2. rewrite decide_False; [done|]. intros [-> ->]. done. }
  assert (forall k' q', present hwl d k' q' -> A k' q' <> a) as Hna.
  { intros k' q' Hp E. destruct (r_node _ _ _ _ _ _ Hr _ _ Hp) as (m'&Hm'&_). congruence. }
  split.
  - intros k' ?. unfold upd_lvl. case_decide; [lia|by apply (r_hw _ _ _ _ _ _ Hr)].
  - intros k' ?. pose proof (r_mono _ _ _ _ _ _ Hr k' ltac:(done)). unfold upd_lvl.
    repeat case_decide; subst; lia.
  - rewrite HA; [apply Hr|]. apply (radix_first_present fl Hr). lia.
  - intros k1 q1 k2 q2. rewrite !Hpr. intros [Hx1|[-> ->]] [Hx2|[-> ->]].
    + rewrite !HA by done. by apply (r_inj _ _ _ _ _ _ Hr).
    + rewrite (HA k1 q1) by done. unfold upd2. rewrite decide_True by done. intros ?. by destruct (Hna k1 q1).
    + rewrite (HA k2 q2) by done. unfold upd2. rewrite decide_True by done. intros ?. by destruct (Hna k2 q2).
    + done.
  - intros x. rewrite !lookup_insert_is_Some. intros [<-|[_ [<-|[_ Hx]]]].
    + exists (S k), (q / 128). split; [apply Hpr; by left|by apply HA].
    + exists k, q. split; [apply Hpr; by right|]. unfold upd2. by rewrite decide_True.
    + destruct (r_dom _ _ _ _ _ _ Hr x Hx) as (k'&q'&Hp&<-). exists k', q'.
      split; [apply Hpr; by left|by apply HA].
  - assert (upd2 A k q a d 0 = A d 0) as Hroot.
    { unfold upd2. rewrite decide_False; [done|]. intros [? ?]. lia. }
    intros k' q' Hp. apply Hpr in Hp as [Hp|[-> ->]].
    + unfold node_ok. rewrite (HA k' q' Hp), Hroot.
      destruct (r_node _ _ _ _ _ _ Hr _ _ Hp) as (m'&Hm'&Hb).
      destruct (decide (A k' q' = A (S k) (q / 128))) as [E|Hne].
      * destruct (r_inj _ _ _ _ _ _ Hr _ _ _ _ Hp Hpp E) as [-> ->].
        eexists; split; [by rewrite lookup_insert_eq|]. intros b Hb0.
        rewrite Hm in Hm'. injection Hm' as <-. rewrite lookup_partial_alter.
        destruct (decide (q mod 128 = b)) as [<-|Hnb].
        -- rewrite slot_block. rewrite decide_True by (apply Hpr; by right).
           unfold upd2. by rewrite decide_True.
        -- rewrite (Hb b Hb0). assert (q / 128 * 128 + b <> q) as Hnq.
           { intros E2. apply Hnb. rewrite <-E2, Z.add_comm, Z.mod_add by lia. apply Z.mod_small; lia. }
           case_decide as Hd.
           ++ rewrite decide_True by (apply Hpr; by left). by rewrite HA.
           ++ rewrite decide_False; [done|]. rewrite Hpr. intros [?|[_ ?]]; done.
      * exists m'. split.
        { rewrite lookup_insert_ne by done. rewrite lookup_insert_ne; [done|]. intros E. by apply (Hna k' q'). }
        intros b Hb0. rewrite (Hb b Hb0). destruct k' as [|k'].
        { destruct (decide (q' * 128 + b = 0)); done. }
        case_decide as Hd.
        -- rewrite decide_True by (apply Hpr; by left). by rewrite HA.
        -- rewrite decide_False; [done|]. rewrite Hpr. intros [?|[-> E2]]; [done|].
           apply Hne. f_equal. rewrite <-E2, Z.add_comm, Z.div_add by lia. rewrite Z.div_small; lia.
    + exists ∅. split.
      { unfold upd2. rewrite decide_True by done. rewrite lookup_insert_ne, lookup_insert_eq; [done|].
        by apply Hna. }
      intros b Hb0. rewrite lookup_empty. destruct k as [|k].
      * rewrite decide_False by lia. destruct (H (q * 128 + b)) eqn:E; [|done].
        pose proof (r_array _ _ _ _ _ _ Hr (q * 128 + b) ltac:(congruence)).
        rewrite width_0 in Hq. lia.
      * rewrite decide_False; [done|]. rewrite Hpr. intros [(?&?&?)|[? ?]]; [|lia].
        pose proof (r_mono _ _ _ _ _ _ Hr k ltac:(lia)). rewrite width_S in Hq.
        pose proof (width_pos k). nia.
  - intros i Hi. pose proof (r_array _ _ _ _ _ _ Hr i Hi). unfold upd_lvl. case_decide; subst; lia.
Qed.
End grow.

(** ** Looking an index up *)
Definition oom (e : string) : Prop := e = "iv_timer_allocate_ratnode: out of memory".

Definition with_nodes (s : timer_state) (ns : ratnodes) (d : Z) : timer_state :=
  mk_tms ns d (tm_num s) (tm_timers s) (tm_expired s) (tm_numobjs s) (tm_time s)
    (tm_time_valid s) (tm_clock_source s) (tm_readings s) (tm_ran s).

Lemma load_slot_Ok s p m : tm_nodes s !! p.1 = Some m -> 0 <= p.2 < 128 ->
  load_slot p s = Ok (m !! p.2, s).
Proof.
  intros Hm Hp. unfold load_slot. msimpl. rewrite Hm. cbn.
  by rewrite decide_True.
Qed.
Lemma store_slot_Ok s p v m : tm_nodes s !! p.1 = Some m -> 0 <= p.2 < 128 ->
  store_slot p v s =
    Ok (tt, with_nodes s (<[p.1 := partial_alter (fun _ => v) p.2 m]> (tm_nodes s)) (tm_depth s)).
Proof.
  intros Hm Hp. unfold store_slot, set_nodes. msimpl. rewrite Hm. cbn.
  by rewrite decide_True.
Qed.
Lemma c_shr_Ok x n s : 0 <= n < 32 -> c_shr x n s = Ok (Z.shiftr x n, s).
Proof. intros. unfold c_shr. by rewrite decide_True. Qed.
Lemma land_127 x : Z.land x (IV_TIMER_SPLIT_NODES - 1) = x mod 128.
Proof. change (IV_TIMER_SPLIT_NODES - 1) with (Z.ones 7). by rewrite Z.land_ones by lia. Qed.
Lemma mod128_range x : 0 <= x mod 128 < 128.
Proof. apply Z.mod_pos_bound. lia. Qed.

Section lookup.
Context (fl : loc) (calloc : gset loc -> option loc).
Context (Hcalloc : forall D a, calloc D = Some a -> a ∉ D).

Lemma allocate_spec s Q :
  (forall a, tm_nodes s !! a = None -> Q a (with_nodes s (<[a := ∅]> (tm_nodes s)) (tm_depth s))) ->
  wp oom (iv_timer_allocate_ratnode calloc) s Q.
Proof.
  intros HQ. unfold iv_timer_allocate_ratnode, set_nodes. unfold wp. msimpl.
  destruct (calloc (dom (tm_nodes s))) as [a|] eqn:E; [|done].
  apply HQ. apply Hcalloc in E. by apply not_elem_of_dom.
Qed.

Lemma present_index hwl d k index : (k <= d)%nat -> 0 <= index -> index <= hwl k ->
  present hwl d k (index / width k).
Proof.
  intros. pose proof (width_pos k). split_and!; [done|by apply Z.div_pos; lia|].
  pose proof (Z.mul_div_le index (width k)). lia.
Qed.

Lemma get_node_loop_spec d H index k : forall s hwl A,
  radix fl (tm_nodes s) d hwl A H -> (k <= d)%nat -> (k <= 4)%nat -> 0 < index ->
  (forall j, (j <= d)%nat -> index - 1 <= hwl j) ->
  (forall j, (k <= j <= d)%nat -> index <= hwl j) ->
  wp oom (get_node_loop calloc k index (A k (index / width k))) s (fun a s' =>
    exists ns' hwl' A', s' = with_nodes s ns' (tm_depth s) /\ radix fl ns' d hwl' A' H /\
      a = A' 0%nat (index / 128) /\
      forall j, (j <= d)%nat -> hwl j <= hwl' j /\ index <= hwl' j /\ hwl' j <= Z.max (hwl j) index).
Proof.
  induction k as [|k IH]; intros s hwl A Hr Hk Hk4 Hi Hlow Hup; cbn [get_node_loop].
  { eapply wp_Ok; [reflexivity|]. exists (tm_nodes s), hwl, A. split_and!; [by destruct s|done..|].
    intros j ?. specialize (Hup j ltac:(lia)). lia. }
  unfold IV_TIMER_SPLIT_BITS. wrun c_shr_Ok; [lia|].
  replace (Z.of_nat (S k) * 7) with ((Z.of_nat k + 1) * 7) by lia.
  rewrite width_shift, land_127. set (q := index / width k). rewrite div_width_S. fold q.
  assert (present hwl d (S k) (q / 128)) as Hpp.
  { unfold q. rewrite <-div_width_S. apply present_index; [lia|lia|]. apply Hup. lia. }
  destruct (r_node _ _ _ _ _ _ Hr _ _ Hpp) as (m&Hm&Hb).
  assert (m !! (q mod 128) = if decide (present hwl d k q) then Some (A k q) else None) as Hbq.
  { rewrite (Hb _ (mod128_range q)), slot_block. done. }
  wrun load_slot_Ok; [exact Hm|apply mod128_range|]. cbn [fst snd]. rewrite Hbq.
  case_decide as Hd.
  - change (is_null (Some (A k q))) with false. cbn [when]. wprim.
    wrun load_slot_Ok; [exact Hm|apply mod128_range|]. cbn [fst snd]. rewrite Hbq.
    wprim. destruct (decide (index <= hwl k)) as [Hle|Hgt].
    + apply (IH s hwl A); [done|lia|lia|done|done|]. intros j Hj.
      destruct (decide (j = k)) as [->|]; [done|apply Hup; lia].
    + assert (radix fl (tm_nodes s) d (upd_lvl hwl k index) A H) as Hr'.
      { apply (radix_raise fl Hr); [lia|lia|apply Hlow; lia|lia|intros; apply Hup; lia|done]. }
      eapply wp_mono; [apply (IH s (upd_lvl hwl k index) A Hr')|]; [lia|lia|done|..].
      * intros j Hj. unfold upd_lvl. case_decide; [lia|auto].
      * intros j Hj. unfold upd_lvl. case_decide; [lia|apply Hup; lia].
      * intros a s' (ns'&hwl'&A'&?&?&?&Hj). exists ns', hwl', A'. split_and!; [done..|].
        intros j Hjd. specialize (Hj j Hjd). specialize (Hlow j Hjd). unfold upd_lvl in Hj. case_decide; subst; lia.
  - change (is_null None) with true. cbn [when]. wbind.
    destruct (@absent_next d hwl k index) as [Eq Ehw]; [lia|lia|apply Hlow; lia|done|].
    wbind. apply allocate_spec. intros a Ha. set (s1 := with_nodes s _ _).
    assert (tm_nodes s1 !! A (S k) (q / 128) = Some m) as Hm1.
    { unfold s1. cbn. rewrite lookup_insert_ne; [done|]. intros ->. congruence. }
    eapply wp_Ok; [apply store_slot_Ok; [exact Hm1|apply mod128_range]|].
    set (s2 := with_nodes s1 _ _). cbn [fst snd] in s2.
    assert (radix fl (tm_nodes s2) d (upd_lvl hwl k index) (upd2 A k q a) H) as Hr'.
    { apply (radix_grow fl Hr); [lia|done|lia|done|apply Hup; lia|done|done|done]. }
    wrun load_slot_Ok; [cbn; by rewrite lookup_insert_eq|apply mod128_range|].
    cbn [fst snd]. rewrite lookup_partial_alter_eq. wprim.
    assert (a = upd2 A k q a k q) as Ea by (unfold upd2; by rewrite decide_True).
    rewrite Ea at 1.
    eapply wp_mono; [apply (IH s2 (upd_lvl hwl k index) (upd2 A k q a) Hr')|]; [lia|lia|done|..].
    * intros j Hj. unfold upd_lvl. case_decide; [lia|auto].
    * intros j Hj. unfold upd_lvl. case_decide; [lia|apply Hup; lia].
    * intros b s' (ns'&hwl'&A'&->&?&?&Hj). exists ns', hwl', A'. split_and!; [done..|].
      intros j Hjd. specialize (Hj j Hjd). specialize (Hlow j Hjd). unfold upd_lvl in Hj. case_decide; subst; lia.
Qed.
End lookup.

(** ** The array *)

(** A tree of depth [d] all of whose levels reach up to index [hw]. *)
Definition array (fl : loc) (ns : ratnodes) (d : nat) (hw : Z) (A : nat -> Z -> loc) (H : Z -> ptr) : Prop :=
  exists hwl, (forall j, (j <= d)%nat -> hwl j = hw) /\ radix fl ns d hwl A H /\
    hw < width d /\ match d with O => True | S d' => width d' <= hw end.

(** Pushing a new root on top of a full tree. *)
Lemma radix_new_root fl ns d hwl A H hw a m :
  radix fl ns d hwl A H -> (forall j, (j <= d)%nat -> hwl j = hw) -> hw < width d ->
  ns !! a = None -> ns !! fl = Some m ->
  radix fl (<[fl := <[0 := a]> m]> (<[a := <[0 := A d 0]> ∅]> ns)) (S d)
    (upd_lvl hwl (S d) hw) (upd2 A (S d) 0 a) H.
Proof.
  intros Hr Hhw Hlt Ha Hm. pose proof (r_hw _ _ _ _ _ _ Hr 0%nat ltac:(lia)) as Hhw0.
  rewrite Hhw in Hhw0 by lia. pose proof (width_pos d).
  assert (forall k q, present (upd_lvl hwl (S d) hw) (S d) k q <->
    present hwl d k q \/ (k = S d /\ q = 0)) as Hpr.
  { intros k q. unfold present, upd_lvl. destruct (decide (k = S d)) as [->|Hne].
    - rewrite width_S. split; [|intros [?|[_ ->]]; lia]. intros (_&?&?). right. split; [done|]. nia.
    - split; [intros (?&?&?); left; split_and!; (done || lia)|].
      intros [(?&?&?)|[-> ?]]; [|done]. split_and!; (done || lia). }
  assert (forall k q, present hwl d k q -> upd2 A (S d) 0 a k q = A k q) as HA.
  { intros k q (?&_). unfold upd2. rewrite decide_False; [done|]. intros [-> _]. lia. }
  assert (upd2 A (S d) 0 a (S d) 0 = a) as Haa by (unfold upd2; by rewrite decide_True).
  assert (forall k q, present hwl d k q -> A k q <> a) as Hna.
  { intros k q Hp E. destruct (r_node _ _ _ _ _ _ Hr _ _ Hp) as (m'&Hm'&_). congruence. }
  assert (a <> fl) as Hafl by congruence.
  pose proof (radix_first_present fl Hr 0 ltac:(lia)) as Hp00.
  pose proof (radix_first_present fl Hr d ltac:(lia)) as Hpd0.
  split.
  - intros k ?. unfold upd_lvl. case_decide; [done|]. rewrite Hhw by lia. done.
  - intros k ?. unfold upd_lvl. repeat case_decide; subst; rewrite ?Hhw by lia; lia.
  - rewrite HA by done. apply Hr.
  - intros k1 q1 k2 q2. rewrite !Hpr. intros [Hx1|[-> ->]] [Hx2|[-> ->]]; rewrite ?Haa.
    + rewrite !HA by done. by apply (r_inj _ _ _ _ _ _ Hr).
    + rewrite HA by done. intros ?. by destruct (Hna k1 q1).
    + rewrite HA by done. intros ?. by destruct (Hna k2 q2).
    + done.
  - intros x. rewrite !lookup_insert_is_Some. intros [<-|[_ [<-|[_ Hx]]]].
    + exists 0%nat, 0. split; [apply Hpr; by left|]. rewrite HA by done. apply Hr.
    + exists (S d), 0. split; [apply Hpr; by right|done].
    + destruct (r_dom _ _ _ _ _ _ Hr x Hx) as (k&q&Hp&<-). exists k, q.
      split; [apply Hpr; by left|by apply HA].
  - intros k q Hp. apply Hpr in Hp as [Hp|[-> ->]].
    + unfold node_ok. rewrite (HA k q Hp), Haa.
      destruct (r_node _ _ _ _ _ _ Hr _ _ Hp) as (m'&Hm'&Hb).
      destruct (decide (A k q = fl)) as [E|Hne].
      * rewrite <-(r_first _ _ _ _ _ _ Hr) in E.
        destruct (r_inj _ _ _ _ _ _ Hr _ _ _ _ Hp Hp00 E) as [-> ->].
        rewrite (r_first _ _ _ _ _ _ Hr) in *. eexists; split; [by rewrite lookup_insert_eq|].
        rewrite Hm in Hm'. injection Hm' as <-. intros b Hb0. rewrite lookup_insert.
        destruct (decide (0 = b)) as [<-|Hnb]; [by rewrite decide_True|].
        rewrite (Hb b Hb0), !decide_False by lia. done.
      * exists m'. split; [rewrite lookup_insert_ne, lookup_insert_ne by (done || by intros E; apply (Hna k q)); done|].
        intros b Hb0. rewrite (Hb b Hb0). destruct k as [|k].
        -- rewrite !decide_False; [done|..]; intros E; apply Hne;
             rewrite <-(r_first _ _ _ _ _ _ Hr); f_equal; lia.
        -- destruct (decide (present hwl d k (q * 128 + b))) as [Hd|Hd].
           ++ rewrite decide_True by (apply Hpr; by left). by rewrite HA.
           ++ rewrite decide_False; [done|]. rewrite Hpr. intros [?|[-> ?]]; [done|].
              destruct Hp as (?&_). lia.
    + unfold node_ok. rewrite Haa. eexists; split; [rewrite lookup_insert_ne, lookup_insert_eq by done; done|].
      intros b Hb0. rewrite lookup_insert, lookup_empty. replace (0 * 128 + b) with b by lia.
      destruct (decide (0 = b)) as [<-|Hnb].
      * rewrite decide_True by (apply Hpr; by left). by rewrite HA.
      * rewrite decide_False; [done|]. rewrite Hpr. intros [(?&?&Hw)|[? ?]]; [|lia].
        rewrite Hhw in Hw by lia. nia.
  - intros i Hi. pose proof (r_array _ _ _ _ _ _ Hr i Hi). unfold upd_lvl. by case_decide.
Qed.

Section get_node.
Context (fl : loc) (calloc : gset loc -> option loc).
Context (Hcalloc : forall D a, calloc D = Some a -> a ∉ D).

Lemma get_node_lookup s d hwl A H index hw :
  radix fl (tm_nodes s) d hwl A H -> tm_depth s = Z.of_nat d -> (d <= 4)%nat ->
  (forall j, (j < d)%nat -> hwl j = hw) -> hw <= hwl d -> index <= hwl d <= Z.max hw index ->
  0 < index <= hw + 1 ->
  index < width d -> hw < width d -> match d with O => True | S d' => width d' <= Z.max hw index end ->
  wp oom (r ← get_timer_root fl; r ← deref r; d ← gets tm_depth;
          r ← get_node_loop calloc (Z.to_nat d) index r;
          mret (r, Z.land index (IV_TIMER_SPLIT_NODES - 1))) s
    (fun p s' => exists ns' A', s' = with_nodes s ns' (Z.of_nat d) /\
       array fl ns' d (Z.max hw index) A' H /\ p = slot_of A' index).
Proof.
  intros Hr Hd Hd4 Hhw Hhd1 Hhd2 Hi Hw1 Hw2 Hdd.
  destruct (radix_root fl Hr) as (m&Hm&Hm0).
  unfold get_timer_root. wrun load_slot_Ok; [exact Hm|done|]. cbn [fst snd]. rewrite Hm0.
  wprim. wprim. rewrite Hd, Nat2Z.id.
  assert (index / width d = 0) as E0 by (apply Z.div_small; lia).
  wbind. rewrite <-E0 at 1.
  assert (forall j, (j <= d)%nat -> index - 1 <= hwl j) as Hl1.
  { intros j Hj. destruct (decide (j = d)) as [->|]; [lia|]. rewrite Hhw by lia. lia. }
  assert (forall j, (d <= j <= d)%nat -> index <= hwl j) as Hl2.
  { intros j ?. replace j with d by lia. lia. }
  eapply wp_mono; [apply (get_node_loop_spec fl calloc Hcalloc d H index d s hwl A Hr); [lia|lia|lia|exact Hl1|exact Hl2]|].
  intros a s' (ns'&hwl'&A'&->&Hr'&->&Hj). wprim. exists ns', A'. split_and!; [by rewrite Hd| |].
  - exists hwl'. split_and!; [|done|lia|destruct d; [done|lia]].
    intros j Hjd. specialize (Hj j Hjd). destruct (decide (j = d)) as [->|].
    + lia.
    + rewrite Hhw in Hj by lia. lia.
  - unfold slot_of. by rewrite land_127.
Qed.

Lemma iv_timer_get_node_spec s d hw A H index :
  array fl (tm_nodes s) d hw A H -> tm_depth s = Z.of_nat d ->
  0 < index <= hw + 1 -> index < 2 ^ 28 -> hw < 2 ^ 28 ->
  wp oom (iv_timer_get_node fl calloc index) s (fun p s' =>
    exists ns' d' A', s' = with_nodes s ns' (Z.of_nat d') /\
      array fl ns' d' (Z.max hw index) A' H /\ p = slot_of A' index).
Proof.
  intros (hwl&Hhw&Hr&Hw&Hdd) Hd Hi Hi28 Hhw28.
  assert (forall k, width k < 2 ^ 28 -> (k <= 2)%nat) as Hk.
  { intros k Hk. destruct (decide (k <= 2)%nat) as [|Hn]; [done|].
    pose proof (width_le 3 k ltac:(lia)) as Hk3. change (width 3) with (2 ^ 28) in Hk3. lia. }
  assert (d <= 3)%nat as Hd3.
  { destruct d as [|d']; [lia|]. pose proof (Hk d' ltac:(lia)). lia. }
  unfold iv_timer_get_node. wprim. rewrite Hd. unfold IV_TIMER_SPLIT_BITS.
  wrun c_shr_Ok; [lia|]. rewrite width_shift. wbind.
  pose proof (width_pos d).
  assert (0 <= hw) as Hhw0 by (rewrite <-(Hhw 0%nat) by lia; apply (r_hw _ _ _ _ _ _ Hr); lia).
  destruct (Z.eqb_spec (index / width d) 0) as [E|E]; cbn [negb when].
  - wprim. assert (index < width d).
    { pose proof (Z.div_mod index (width d) ltac:(lia)).
      pose proof (Z.mod_pos_bound index (width d) ltac:(lia)). nia. }
    assert (radix fl (tm_nodes s) d (upd_lvl hwl d (Z.max hw index)) A H) as Hr'.
    { apply (radix_raise fl Hr); rewrite ?Hhw by lia; try lia.
      rewrite Z.div_small by lia. apply (radix_first_present fl Hr). lia. }
    eapply wp_mono; [apply (get_node_lookup s d _ A H index hw Hr' Hd)|].
    + lia.
    + intros j ?. unfold upd_lvl. rewrite decide_False by lia. apply Hhw. lia.
    + unfold upd_lvl. rewrite decide_True by done. lia.
    + unfold upd_lvl. rewrite decide_True by done. lia.
    + lia.
    + done.
    + done.
    + destruct d; [done|lia].
    + intros p s' (ns'&A'&->&Ha&->). by exists ns', d, A'.
  - assert (width d <= index).
    { destruct (Z.lt_ge_cases index (width d)); [|done]. by rewrite Z.div_small in E by lia. }
    assert (d <= 2)%nat by (apply Hk; lia).
    unfold set_depth. wprim. wbind. apply (allocate_spec calloc Hcalloc).
    intros a Ha. cbn in Ha. set (s1 := with_nodes _ _ _).
    destruct (radix_root fl Hr) as (m&Hm&Hm0).
    assert (tm_nodes s1 !! fl = Some m) as Hm1.
    { cbn. rewrite lookup_insert_ne; [done|]. intros ->. congruence. }
    unfold get_timer_root, set_timer_root. wrun load_slot_Ok; [exact Hm1|done|].
    cbn [fst snd]. rewrite Hm0. wrun store_slot_Ok; [cbn; by rewrite lookup_insert_eq|done|].
    set (s2 := with_nodes s1 _ _).
    assert (tm_nodes s2 !! fl = Some m) as Hm2.
    { cbn. rewrite !lookup_insert_ne; [done|intros ->; congruence..]. }
    wrun store_slot_Ok; [exact Hm2|done|]. set (s3 := with_nodes s2 _ _).
    pose proof (radix_new_root fl (tm_nodes s) d hwl A H hw a m Hr Hhw Hw Ha Hm) as Hr1.
    assert (tm_nodes s3 = <[fl := <[0 := a]> m]> (<[a := <[0 := A d 0]> ∅]> (tm_nodes s))) as Es3.
    { cbn. rewrite insert_insert_eq. done. }
    assert (radix fl (tm_nodes s3) (S d) (upd_lvl (upd_lvl hwl (S d) hw) (S d) index)
              (upd2 A (S d) 0 a) H) as Hr'.
    { rewrite Es3. apply (radix_raise fl Hr1); unfold upd_lvl; rewrite ?decide_True by done; try lia.
      rewrite Z.div_small by (rewrite width_S; lia). apply (radix_first_present fl Hr1). lia. }
    eapply wp_mono; [apply (get_node_lookup s3 (S d) _ _ H index hw Hr')|].
    + cbn. lia.
    + lia.
    + intros j ?. unfold upd_lvl. rewrite !decide_False by lia. apply Hhw. lia.
    + unfold upd_lvl. rewrite decide_True by done. lia.
    + unfold upd_lvl. rewrite decide_True by done. lia.
    + lia.
    + rewrite width_S. lia.
    + rewrite width_S. lia.
    + lia.
    + intros p s' (ns'&A'&->&Ha'&->). exists ns', (S d), A'. split_and!; done.
Qed.
End get_node.

(** Looking up an index that was reached before changes nothing. *)
Section existing.
Context (fl : loc) (calloc : gset loc -> option loc).

Lemma get_node_loop_existing d hwl A H index k s :
  radix fl (tm_nodes s) d hwl A H -> (k <= d)%nat -> (k <= 4)%nat -> 0 < index ->
  (forall j, (j <= d)%nat -> index <= hwl j) ->
  get_node_loop calloc k index (A k (index / width k)) s = Ok (A 0%nat (index / 128), s).
Proof.
  intros Hr. induction k as [|k IH]; intros Hk Hk4 Hi Hup; cbn [get_node_loop]; [done|].
  unfold IV_TIMER_SPLIT_BITS. mrun (c_shr_Ok index (Z.of_nat (S k) * 7) s ltac:(lia)).
  replace (Z.of_nat (S k) * 7) with ((Z.of_nat k + 1) * 7) by lia.
  rewrite width_shift, land_127. set (q := index / width k). rewrite div_width_S. fold q.
  assert (present hwl d (S k) (q / 128)) as Hpp.
  { unfold q. rewrite <-div_width_S. apply present_index; [lia|lia|]. apply Hup. lia. }
  destruct (r_node _ _ _ _ _ _ Hr _ _ Hpp) as (m&Hm&Hb).
  assert (m !! (q mod 128) = Some (A k q)) as Hbq.
  { rewrite (Hb _ (mod128_range q)), slot_block. rewrite decide_True; [done|].
    apply present_index; [lia|lia|]. apply Hup. lia. }
  pose proof (load_slot_Ok s (A (S k) (q / 128), q mod 128) m Hm (mod128_range q)) as Hl.
  cbn [fst snd] in Hl. rewrite Hbq in Hl. mrun Hl. cbn [is_null when].
  change (is_null (Some (A k q))) with false. cbn [when].
  mrun (eq_refl : (mret tt : M timer_state unit) s = Ok (tt, s)). mrun Hl.
  mrun (@deref_Some timer_state _ (A k q) s). apply IH; [lia|lia|done|done].
Qed.

Lemma array_depth_bound ns d hw A H : array fl ns d hw A H -> hw < 2 ^ 28 -> (d <= 3)%nat.
Proof.
  intros (hwl&_&_&_&Hd) Hhw. destruct d as [|d']; [lia|].
  destruct (decide (d' <= 2)%nat); [lia|]. pose proof (width_le 3 d' ltac:(lia)) as Hw.
  change (width 3) with (2 ^ 28) in Hw. lia.
Qed.

Lemma get_node_existing s d hw A H index :
  array fl (tm_nodes s) d hw A H -> tm_depth s = Z.of_nat d ->
  0 < index <= hw -> hw < 2 ^ 28 ->
  iv_timer_get_node fl calloc index s = Ok (slot_of A index, s).
Proof.
  intros Ha Hd Hi Hhw28. pose proof (array_depth_bound _ _ _ _ _ Ha Hhw28) as Hd3.
  destruct Ha as (hwl&Hhw&Hr&Hw&_). unfold iv_timer_get_node.
  mrun (eq_refl : gets tm_depth s = Ok (tm_depth s, s)). rewrite Hd. unfold IV_TIMER_SPLIT_BITS.
  mrun (c_shr_Ok index ((Z.of_nat d + 1) * 7) s ltac:(lia)). rewrite width_shift.
  assert (index / width d = 0) as E0 by (apply Z.div_small; lia). rewrite E0. cbn [negb when Z.eqb].
  mrun (eq_refl : (mret tt : M timer_state unit) s = Ok (tt, s)).
  destruct (radix_root fl Hr) as (m&Hm&Hm0).
  pose proof (load_slot_Ok s (fl, 0) m Hm ltac:(cbn; lia)) as Hl. cbn [fst snd] in Hl. rewrite Hm0 in Hl.
  unfold get_timer_root. mrun Hl. mrun (@deref_Some timer_state _ (A d 0) s).
  mrun (eq_refl : gets tm_depth s = Ok (tm_depth s, s)). rewrite Hd, Nat2Z.id.
  assert (forall j, (j <= d)%nat -> index <= hwl j) as Hup by (intros j ?; rewrite Hhw by done; lia).
  pose proof (get_node_loop_existing d hwl A H index d s Hr ltac:(lia) ltac:(lia) ltac:(lia) Hup) as He.
  rewrite E0 in He. mrun He. unfold slot_of. by rewrite land_127.
Qed.
End existing.

(** ** Elements of the array *)
Section elements.
Context (fl : loc) {s : timer_state} {d : nat} {hw : Z} {A : nat -> Z -> loc} {H : Z -> ptr}.
Context (Ha : array fl (tm_nodes s) d hw A H).

Lemma array_present hwl i j : (forall k, (k <= d)%nat -> hwl k = hw) -> 0 <= j <= hw -> i / 128 = j / 128 ->
  present hwl d 0 (i / 128).
Proof.
  intros Hhw Hj ->. split_and!; [lia|apply Z.div_pos; lia|]. rewrite Hhw by lia.
  pose proof (Z.mul_div_le j 128). rewrite width_0. lia.
Qed.

Lemma load_elem i j : 1 <= i -> 0 <= j <= hw -> i / 128 = j / 128 ->
  load_slot (slot_of A i) s = Ok (H i, s).
Proof.
  intros Hi Hj E. destruct Ha as (hwl&Hhw&Hr&_).
  destruct (radix_slot fl Hr i Hi (array_present hwl i j Hhw Hj E)) as (m&Hm&Hv).
  rewrite (load_slot_Ok _ _ m Hm (mod128_range i)). cbn [slot_of snd] in *. by rewrite Hv.
Qed.

Lemma store_elem i v : 1 <= i <= hw ->
  exists ns', store_slot (slot_of A i) v s = Ok (tt, with_nodes s ns' (tm_depth s)) /\
    array fl ns' d hw A (upd_at H i v).
Proof.
  intros Hi. destruct Ha as (hwl&Hhw&Hr&Hw&Hd).
  pose proof (array_present hwl i i Hhw ltac:(lia) eq_refl) as Hp.
  destruct (radix_slot fl Hr i ltac:(lia) Hp) as (m&Hm&Hv).
  rewrite (store_slot_Ok _ _ v m Hm (mod128_range i)). eexists; split; [done|].
  exists hwl. split_and!; [done| |done|done].
  apply (radix_store fl Hr); [lia|done|intros _; rewrite Hhw by lia; lia|done].
Qed.

Lemma slot_of_eq i j : 1 <= i <= hw -> 1 <= j <= hw -> slot_of A i = slot_of A j -> i = j.
Proof.
  intros Hi Hj. destruct Ha as (hwl&Hhw&Hr&_). apply (slot_of_inj fl Hr);
    eapply array_present; [done|split; [|apply Hi]; lia|done|done|split; [|apply Hj]; lia|done].
Qed.
End elements.

(** ** Dropping the top level *)
Lemma free_Ok fl a s : is_Some (tm_nodes s !! a) -> a <> fl ->
  free fl a s = Ok (tt, with_nodes s (delete a (tm_nodes s)) (tm_depth s)).
Proof. intros Ha Hn. unfold free, set_nodes. msimpl. by rewrite decide_True. Qed.

Section remove.
Context (fl : loc) {ns0 : ratnodes} {d : nat} {hwl : nat -> Z} {A : nat -> Z -> loc} {H : Z -> ptr}.
Context (Hr : radix fl ns0 d hwl A H).

(** The present blocks of level at most [k] inside [lo, hi). *)
Definition region (k : nat) (lo hi : Z) (k' : nat) (q' : Z) : Prop :=
  present hwl d k' q' /\ (k' <= k)%nat /\ lo <= q' * width k' < hi.
(** [ns'] is [ns] with the region freed. *)
Definition freed (k : nat) (lo hi : Z) (ns ns' : ratnodes) : Prop :=
  (forall k' q', region k lo hi k' q' -> ns' !! A k' q' = None) /\
  forall a, (forall k' q', region k lo hi k' q' -> A k' q' <> a) -> ns' !! a = ns !! a.
Definition intact (k : nat) (lo hi : Z) (ns : ratnodes) : Prop :=
  forall k' q', region k lo hi k' q' -> ns !! A k' q' = ns0 !! A k' q'.

Lemma region_ne k1 lo1 hi1 k2 lo2 hi2 ka qa kb qb :
  region k1 lo1 hi1 ka qa -> region k2 lo2 hi2 kb qb -> (hi1 <= lo2 \/ hi2 <= lo1 \/ (k2 < ka)%nat) ->
  A ka qa <> A kb qb.
Proof.
  intros (Hp1&?&?) (Hp2&?&?) Hd E. destruct (r_inj _ _ _ _ _ _ Hr _ _ _ _ Hp1 Hp2 E) as [-> ->]. lia.
Qed.

Lemma freed_intact k lo hi k2 lo2 hi2 ns ns' :
  freed k lo hi ns ns' -> intact k2 lo2 hi2 ns -> (hi <= lo2 \/ hi2 <= lo) -> intact k2 lo2 hi2 ns'.
Proof.
  intros [_ Hf] Hi Hd k' q' Hreg. rewrite Hf; [by apply Hi|].
  intros k1 q1 Hreg1. eapply region_ne; [exact Hreg1|exact Hreg|lia].
Qed.

Lemma freed_trans k lo mid hi ns1 ns2 ns3 : lo <= mid <= hi ->
  freed k lo mid ns1 ns2 -> freed k mid hi ns2 ns3 -> freed k lo hi ns1 ns3.
Proof.
  intros Hm [H1 H2] [H3 H4]. split.
  - intros k' q' (?&?&?). destruct (decide (mid <= q' * width k')).
    + apply H3. split_and!; (done || lia).
    + rewrite H4; [apply H1; split_and!; (done || lia)|].
      intros k1 q1 Hreg. apply (region_ne k mid hi k lo mid); [exact Hreg|split_and!; (done || lia)|lia].
  - intros a Ha. rewrite H4, H2; [done|..]; intros k1 q1 (?&?&?); apply Ha; split_and!; (done || lia).
Qed.

Lemma freed_refl k lo ns : freed k lo lo ns ns.
Proof. split; [|done]. intros k' q' (_&_&?). lia. Qed.

Lemma first_not_in_region k lo hi k' q' : 0 < lo -> region k lo hi k' q' -> A k' q' <> fl.
Proof.
  intros Hlo (Hp&?&?) E. rewrite <-(r_first _ _ _ _ _ _ Hr) in E.
  pose proof (radix_first_present fl Hr 0 ltac:(lia)) as Hp0.
  destruct (r_inj _ _ _ _ _ _ Hr _ _ _ _ Hp Hp0 E) as [-> ->]. lia.
Qed.

Lemma marks_le j k : (j <= k)%nat -> (k <= d)%nat -> hwl j <= hwl k.
Proof.
  intros Hj Hk. induction Hj as [|k Hj IH]; [done|].
  etransitivity; [apply IH; lia|]. apply (r_mono _ _ _ _ _ _ Hr). lia.
Qed.

(** Freeing one block and everything below it. *)
Definition frees F (k : nat) : Prop := forall q s, 0 < q -> present hwl d k q ->
  intact k (q * width k) ((q + 1) * width k) (tm_nodes s) ->
  wp F (iv_timer_free_ratnode fl k (A k q)) s (fun _ s' => exists ns',
    s' = with_nodes s ns' (tm_depth s) /\ freed k (q * width k) ((q + 1) * width k) (tm_nodes s) ns').

Lemma for_children_spec F k q m : frees F k -> present hwl d (S k) q ->
  ns0 !! A (S k) q = Some m -> forall n b s, Z.of_nat n = 128 - b -> 0 <= b -> 0 < q * 128 + b ->
  tm_nodes s !! A (S k) q = Some m ->
  intact k ((q * 128 + b) * width k) ((q + 1) * width (S k)) (tm_nodes s) ->
  wp F (for_children n (A (S k) q) b (iv_timer_free_ratnode fl k)) s (fun _ s' => exists ns',
    s' = with_nodes s ns' (tm_depth s) /\
    freed k ((q * 128 + b) * width k) ((q + 1) * width (S k)) (tm_nodes s) ns').
Proof.
  intros IH Hp Hm. pose proof (width_pos k) as Hwk. pose proof (width_S k) as HwS.
  destruct (r_node _ _ _ _ _ _ Hr _ _ Hp) as (m'&Hm'&Hb).
  rewrite Hm in Hm'. injection Hm' as <-.
  assert (region (S k) (q * width (S k)) ((q + 1) * width (S k)) (S k) q) as Hself.
  { split_and!; (done || nia). }
  intros n. induction n as [|n IHn]; intros b s1 Hn Hb0 Hq Hm1 Hi1; cbn [for_children].
  - eapply wp_Ok; [reflexivity|]. exists (tm_nodes s1). split; [by destruct s1|].
    replace ((q * 128 + b) * width k) with ((q + 1) * width (S k)) by (rewrite HwS; nia). apply freed_refl.
  - wrun load_slot_Ok; [exact Hm1|cbn; lia|]. cbn [fst snd]. rewrite (Hb b) by lia.
    destruct (decide (present hwl d k (q * 128 + b))) as [Hpb|Hpb].
    + wbind. eapply wp_mono; [apply (IH (q * 128 + b)); [lia|done|]|].
      * intros k' q' (?&?&?). apply Hi1. split_and!; [done|done|lia|rewrite HwS; nia].
      * intros _ s2 (ns2&->&Hf2). eapply wp_mono; [apply (IHn (b + 1)); [lia|lia|lia|..]|].
        -- cbn. destruct Hf2 as [_ Hf2]. rewrite Hf2; [done|].
           intros k1 q1 Hreg1. symmetry. eapply region_ne; [exact Hself|exact Hreg1|lia].
        -- eapply freed_intact; [exact Hf2| |left; lia].
           intros k' q' (?&?&?). apply Hi1. split_and!; (done || nia).
        -- intros _ s3 (ns3&->&Hf3). exists ns3. split; [done|].
           eapply freed_trans; [|exact Hf2|]; [rewrite HwS; nia|].
           replace ((q * 128 + b + 1) * width k) with ((q * 128 + (b + 1)) * width k) by nia. done.
    + eapply wp_Ok; [reflexivity|]. exists (tm_nodes s1). split; [by destruct s1|].
      split; [|done]. intros k' q' ((?&?&Hqh)&Hkk&Hlo&?). exfalso. apply Hpb.
      destruct Hp as (?&?&?). split_and!; [lia|lia|].
      pose proof (marks_le k' k Hkk ltac:(lia)). lia.
Qed.

Lemma free_block_spec F k : frees F k.
Proof.
  induction k as [|k IH]; intros q s Hq Hp Hi; cbn [iv_timer_free_ratnode].
  - wprim. assert (region 0 (q * width 0) ((q + 1) * width 0) 0 q) as Hreg.
    { pose proof (width_pos 0). split_and!; (done || nia). }
    eapply wp_Ok; [apply free_Ok|].
    + rewrite (Hi _ _ Hreg). destruct (r_node _ _ _ _ _ _ Hr _ _ Hp) as (m&->&_). done.
    + eapply first_not_in_region; [|exact Hreg]. pose proof (width_pos 0). nia.
    + eexists; split; [done|]. split.
      * intros k' q' (?&?&?). assert (k' = 0)%nat as -> by lia.
        pose proof (width_pos 0). assert (q' = q) as -> by nia. by rewrite lookup_delete_eq.
      * intros a Ha. rewrite lookup_delete_ne; [done|]. by apply (Ha 0%nat q).
  - pose proof (width_pos k) as Hwk. pose proof (width_S k) as HwS.
    destruct (r_node _ _ _ _ _ _ Hr _ _ Hp) as (m&Hm&_).
    assert (region (S k) (q * width (S k)) ((q + 1) * width (S k)) (S k) q) as Hself.
    { split_and!; (done || nia). }
    wbind. eapply wp_mono; [apply (for_children_spec F k q m IH Hp Hm 128%nat 0); [lia|lia|lia|..]|].
    + rewrite (Hi _ _ Hself). done.
    + intros k' q' (?&?&?). apply Hi. split_and!; [done|lia|..]; rewrite ?HwS; nia.
    + intros _ s1 (ns1&->&Hf1). eapply wp_Ok; [apply free_Ok|].
      * cbn. destruct Hf1 as [_ Hf1]. rewrite Hf1, (Hi _ _ Hself), Hm; [done|].
        intros k1 q1 Hreg1. symmetry. eapply region_ne; [exact Hself|exact Hreg1|lia].
      * eapply first_not_in_region; [|exact Hself]. nia.
      * eexists; split; [done|]. cbn. destruct Hf1 as [Hf1 Hf2]. split.
        -- intros k' q' (?&?&?). destruct (decide (k' = S k)) as [->|].
           ++ assert (q' = q) as -> by nia. by rewrite lookup_delete_eq.
           ++ rewrite lookup_delete_ne.
              ** apply Hf1. split_and!; [done|lia|..]; rewrite ?HwS in *; nia.
              ** eapply (region_ne _ _ _ k' (q' * width k') (q' * width k' + 1));
                   [exact Hself|split_and!; (done || lia)|lia].
        -- intros a Ha. rewrite lookup_delete_ne by by apply (Ha (S k) q). apply Hf2.
           intros k1 q1 (?&?&?). apply Ha. split_and!; [done|lia|..]; rewrite ?HwS in *; nia.
Qed.
End remove.

(** The part of an array below [n]. *)
Definition clip (n : Z) (H : Z -> ptr) : Z -> ptr := fun i => if decide (i < n) then H i else None.

(** Dropping the root keeps the blocks below its first child and frees every
    other node of the tree. *)
Lemma remove_level_clip F fl s d hw A H :
  array fl (tm_nodes s) (S d) hw A H -> tm_depth s = Z.of_nat (S d) ->
  wp F (iv_timer_radix_tree_remove_level fl) s (fun _ s' => exists ns',
    s' = with_nodes s ns' (Z.of_nat d) /\ array fl ns' d (width d - 1) A (clip (width d) H)).
Proof.
  intros (hwl&Hhw&Hr&Hw&Hdd) Hd. pose proof (width_pos d) as Hwd. pose proof (width_S d) as HwS.
  unfold iv_timer_radix_tree_remove_level, set_depth. wprim. wprim. unfold get_timer_root.
  set (s0 := mk_tms _ _ _ _ _ _ _ _ _ _ _).
  assert (tm_nodes s0 = tm_nodes s) as Es0 by done.
  destruct (radix_root fl Hr) as (mf&Hmf&Hmf0).
  wrun load_slot_Ok; [exact Hmf|done|]. cbn [fst snd]. rewrite Hmf0. wprim. wprim.
  replace (tm_depth s0) with (Z.of_nat d) by (cbn; lia). rewrite Nat2Z.id.
  pose proof (radix_first_present fl Hr (S d) ltac:(lia)) as Hpr.
  destruct (r_node _ _ _ _ _ _ Hr _ _ Hpr) as (m&Hm&Hb).
  wbind. eapply wp_mono;
    [apply (for_children_spec fl Hr F d 0 m (free_block_spec fl Hr F d) Hpr Hm 127%nat 1); [lia|lia|lia|exact Hm|done]|].
  intros _ s1 (ns1&->&Hf1&Hf2). replace ((0 * 128 + 1) * width d) with (width d) in * by lia.
  replace ((0 + 1) * width (S d)) with (width (S d)) in * by lia.
  assert (forall k q, present hwl (S d) k q -> q * width k < width d \/ k = S d -> ns1 !! A k q = tm_nodes s !! A k q) as Hkeep.
  { intros k q Hp Hk. apply Hf2. intros k1 q1 (Hp1&?&?) E.
    destruct (r_inj _ _ _ _ _ _ Hr _ _ _ _ Hp1 Hp E) as [-> ->]. lia. }
  assert (forall k, (k <= S d)%nat -> present hwl (S d) k 0) as Hp0 by by apply (radix_first_present fl Hr).
  set (s1 := with_nodes s0 _ _).
  wrun load_slot_Ok; [cbn; rewrite Hkeep by auto; exact Hm|done|]. cbn [fst snd].
  rewrite (Hb 0) by lia. rewrite decide_True by (apply Hp0; lia). cbn [Z.mul Z.add].
  assert (tm_nodes s1 !! fl = Some mf) as Hfl1.
  { rewrite <-(r_first _ _ _ _ _ _ Hr). cbn. rewrite Hkeep; [|apply Hp0; lia|left; lia].
    by rewrite (r_first _ _ _ _ _ _ Hr). }
  unfold set_timer_root. wrun store_slot_Ok; [exact Hfl1|done|]. set (s2 := with_nodes s1 _ _).
  assert (A (S d) 0 <> fl) as Hrne.
  { rewrite <-(r_first _ _ _ _ _ _ Hr). intros E.
    by destruct (r_inj _ _ _ _ _ _ Hr _ _ _ _ (Hp0 (S d) ltac:(lia)) (Hp0 0%nat ltac:(lia)) E). }
  eapply wp_Ok; [apply free_Ok; [|exact Hrne]|].
  { cbn. rewrite lookup_insert_ne by done. rewrite Hkeep by auto. by rewrite Hm. }
  eexists; split; [unfold with_nodes; cbn; by replace (tm_depth s - 1) with (Z.of_nat d) by lia|].
  cbn. set (ns' := delete _ _).
  assert (forall k q, present (fun _ => width d - 1) d k q <->
    present hwl (S d) k q /\ (k <= d)%nat /\ q * width k < width d) as Hpr'.
  { intros k q. unfold present. pose proof (width_pos k). split.
    - intros (?&?&?). rewrite Hhw by lia. split_and!; lia.
    - intros ((?&?&?)&?&?). split_and!; lia. }
  assert (forall k q, present hwl (S d) k q -> (k <= d)%nat -> A k q <> A (S d) 0) as Hnroot.
  { intros k q Hp ? E. destruct (r_inj _ _ _ _ _ _ Hr _ _ _ _ Hp Hpr E). lia. }
  assert (forall k q, present hwl (S d) k q -> (k <= d)%nat -> A k q = fl -> k = 0%nat /\ q = 0) as Hfirst.
  { intros k q Hp ? E. rewrite <-(r_first _ _ _ _ _ _ Hr) in E.
    apply (r_inj _ _ _ _ _ _ Hr _ _ _ _ Hp (Hp0 0%nat ltac:(lia)) E). }
  exists (fun _ => width d - 1). split_and!; [done| |lia|].
  2: { destruct d as [|d']; [done|]. pose proof (width_S d'). pose proof (width_pos d'). lia. }
  split.
  - intros. lia.
  - done.
  - apply Hr.
  - intros k1 q1 k2 q2 [? _]%Hpr' [? _]%Hpr'. by apply (r_inj _ _ _ _ _ _ Hr).
  - intros a Ha. unfold ns' in Ha. apply lookup_delete_is_Some in Ha as [Hna Ha].
    apply lookup_insert_is_Some in Ha. destruct Ha as [<-|[_ Ha]].
    { exists 0%nat, 0. split; [|apply Hr]. apply Hpr'. split_and!; [apply Hp0|..]; lia. }
    assert (exists k q, present hwl (S d) k q /\ A k q = a) as (k&q&Hp&<-).
    { destruct (decide (is_Some (tm_nodes s !! a))) as [?|Hn]; [by apply (r_dom _ _ _ _ _ _ Hr)|].
      exfalso. apply Hn. rewrite <-Hf2; [done|]. intros k1 q1 Hreg1 <-.
      by rewrite (Hf1 _ _ Hreg1) in Ha; destruct Ha. }
    exists k, q. split; [|done]. apply Hpr'.
    assert (k <= d)%nat.
    { destruct Hp as (?&?&Hq). destruct (decide (k = S d)) as [->|]; [|lia]. exfalso. apply Hna.
      rewrite Hhw, HwS in * by lia. assert (q = 0) as -> by nia. done. }
    split_and!; [done|done|]. apply Z.nle_gt. intros ?.
    assert (is_Some (@None (gmap Z loc))) as [? ?]; [|done]. rewrite <-(Hf1 k q); [done|].
    pose proof Hp as (?&?&Hq). rewrite Hhw in Hq by lia. split_and!; (done || lia).
  - intros k q (Hp&Hk&Hq)%Hpr'. destruct (r_node _ _ _ _ _ _ Hr _ _ Hp) as (m'&Hm'&Hb').
    assert (ns' !! A k q = if decide (A k q = fl) then Some (<[0 := A d 0]> mf) else Some m') as E'.
    { unfold ns'. rewrite lookup_delete_ne by (intros E; by apply (Hnroot k q)).
      case_decide as E; [by rewrite E, lookup_insert_eq|].
      rewrite lookup_insert_ne by done. rewrite Hkeep by auto. done. }
    case_decide as E.
    + destruct (Hfirst k q Hp Hk E) as [-> ->].
      eexists; split; [exact E'|]. intros b Hb0. rewrite lookup_insert.
      assert (m' = mf) as ->.
      { rewrite (r_first _ _ _ _ _ _ Hr) in Hm'. congruence. }
      destruct (decide (0 = b)) as [<-|Hnb]; [by rewrite decide_True|].
      rewrite (Hb' b Hb0), !decide_False by lia. unfold clip. rewrite decide_True; [done|].
      pose proof (width_le 0 d ltac:(lia)) as Hw0. rewrite width_0 in Hw0. lia.
    + exists m'. split; [done|]. intros b Hb0. rewrite (Hb' b Hb0). destruct k as [|k].
      { assert (q * 128 + b <> 0).
        { intros E2. apply E. rewrite <-(r_first _ _ _ _ _ _ Hr). f_equal. lia. }
        rewrite !decide_False by done. unfold clip. rewrite decide_True; [done|].
        destruct (width_divides 0 d ltac:(lia)) as [c Ec]. rewrite width_0 in *. lia. }
      apply decide_ext. rewrite Hpr'. split; [|tauto]. intros Hpc. split_and!; [done|lia|].
      assert ((q + 1) * width (S k) <= width d).
      { destruct (width_divides (S k) d ltac:(lia)) as [c Ec]. pose proof (width_pos (S k)).
        rewrite Ec in Hq |- *. apply Z.mul_le_mono_nonneg_r; [lia|]. assert (q < c); [|lia].
        by apply (Z.mul_lt_mono_pos_r (width (S k))). }
      eapply Z.lt_le_trans; [|done]. rewrite width_S. pose proof (width_pos k). nia.
  - intros i. unfold clip. case_decide; [|done]. intros Hi. pose proof (r_array _ _ _ _ _ _ Hr i Hi). lia.
Qed.

Lemma array_ext fl ns d hw A H H' : (forall i, H i = H' i) -> array fl ns d hw A H -> array fl ns d hw A H'.
Proof.
  intros E (hwl&Hhw&Hr&Hw&Hd). exists hwl. split_and!; [done| |done|done]. split; try apply Hr.
  - intros k q Hp. destruct (r_node _ _ _ _ _ _ Hr k q Hp) as (m&Hm&Hb). exists m. split; [done|].
    intros b Hb0. rewrite (Hb b Hb0). destruct k; [by rewrite E|done].
  - intros i. rewrite <-E. apply Hr.
Qed.

(** When the timers all fit below the first child, the array is unchanged. *)
Lemma remove_level_spec F fl s d hw A H :
  array fl (tm_nodes s) (S d) hw A H -> tm_depth s = Z.of_nat (S d) ->
  (forall i, width d <= i -> H i = None) ->
  wp F (iv_timer_radix_tree_remove_level fl) s (fun _ s' => exists ns',
    s' = with_nodes s ns' (Z.of_nat d) /\ array fl ns' d (width d - 1) A H).
Proof.
  intros Ha Hd HH. eapply wp_mono; [by apply (remove_level_clip F fl s d hw A H)|].
  intros _ s' (ns'&->&Ha'). exists ns'. split; [done|]. eapply array_ext; [|exact Ha'].
  intros i. unfold clip. case_decide; [done|]. symmetry. apply HH. lia.
Qed.

(** ** Tearing the tree down *)
Lemma deinit_loop_spec F fl fuel : forall s d hw A H,
  array fl (tm_nodes s) d hw A H -> tm_depth s = Z.of_nat d -> (d < fuel)%nat ->
  wp F (deinit_loop fl fuel) s (fun _ s' => exists ns' hw' A' H',
    s' = with_nodes s ns' 0 /\ array fl ns' 0 hw' A' H').
Proof.
  induction fuel as [|fuel IH]; intros s d hw A H Ha Hd Hf; [lia|]. cbn [deinit_loop]. wprim.
  destruct (Z.eqb_spec (tm_depth s) 0) as [E|E].
  - assert (d = 0)%nat as -> by lia. eapply wp_Ok; [reflexivity|]. exists (tm_nodes s), hw, A, H.
    split; [|done]. unfold with_nodes. rewrite <-E. by destruct s.
  - destruct d as [|d]; [lia|]. wbind. eapply wp_mono; [by apply (remove_level_clip F fl s d hw A H)|].
    intros _ s1 (ns1&->&Ha1). eapply wp_mono; [eapply (IH (with_nodes s ns1 (Z.of_nat d)) d); [exact Ha1|done|lia]|].
    intros _ s2 (ns2&hw2&A2&H2&->&Ha2). by exists ns2, hw2, A2, H2.
Qed.

Lemma deinit_spec F fl s d hw A H :
  array fl (tm_nodes s) d hw A H -> tm_depth s = Z.of_nat d ->
  wp F (iv_timer_deinit fl) s (fun _ s' => dom (tm_nodes s') = {[fl]} /\ tm_depth s' = 0).
Proof.
  intros Ha Hd. unfold iv_timer_deinit. wprim. rewrite Hd, Nat2Z.id.
  wbind. eapply wp_mono; [apply (deinit_loop_spec F fl (S d) s d hw A H Ha Hd); lia|].
  intros _ s1 (ns1&hw1&A1&H1&->&(hwl&Hhw&Hr&Hw&_)). unfold set_timer_root.
  destruct (radix_root fl Hr) as (m&Hm&_).
  eapply wp_Ok; [apply (store_slot_Ok _ (fl, 0) None m); [exact Hm|cbn; lia]|].
  split; [|done]. cbn. rewrite dom_insert_L. apply set_eq. intros a.
  rewrite elem_of_union, elem_of_singleton, elem_of_dom. split; [|by left].
  intros [?|Ha']; [done|]. destruct (r_dom _ _ _ _ _ _ Hr a Ha') as (k&q&(Hk&Hq0&Hq)&<-).
  assert (k = 0)%nat as -> by lia. rewrite Hhw in Hq by lia. rewrite width_0 in Hq, Hw.
  assert (q = 0) as -> by lia. apply Hr.
Qed.
