(* ===== verification/TimerHeap.v ===== *)
(** * The binary heap of iv_timer.c

    Over the array of TimerRadix.v, [pull_up] and [push_down] restore the
    heap order and keep every timer's [index] equal to its position; hence
    registration and unregistration are correct, and the root is a timer that
    expires first. *)

From S2P Require Import Prelude Timer TimerRadix.

Local Open Scope Z_scope.

(** ** The order on expiry times *)
Definition tle (a b : timespec) : Prop := timespec_gt a b = false.

Lemma timespec_gt_spec a b : timespec_gt a b = true <->
  tv_sec b < tv_sec a \/ (tv_sec a = tv_sec b /\ tv_nsec b < tv_nsec a).
Proof. unfold timespec_gt. rewrite orb_true_iff, andb_true_iff, !Z.ltb_lt, Z.eqb_eq. done. Qed.
Lemma tle_spec a b : tle a b <-> tv_sec a < tv_sec b \/ (tv_sec a = tv_sec b /\ tv_nsec a <= tv_nsec b).
Proof.
  unfold tle. rewrite <-not_true_iff_false, timespec_gt_spec. lia.
Qed.
Lemma tle_refl a : tle a a.
Proof. apply tle_spec. lia. Qed.
Lemma tle_trans a b c : tle a b -> tle b c -> tle a c.
Proof. rewrite !tle_spec. lia. Qed.
Lemma tgt_tle a b : timespec_gt a b = true -> tle b a.
Proof. rewrite timespec_gt_spec, tle_spec. lia. Qed.
Lemma tle_total a b : tle a b \/ tle b a.
Proof. rewrite !tle_spec. lia. Qed.

(** ** The state seen as an array of timers *)
Definition with_heap (s : timer_state) (ns : ratnodes) (tms : gmap loc timer) : timer_state :=
  mk_tms ns (tm_depth s) (tm_num s) tms (tm_expired s) (tm_numobjs s) (tm_time s)
    (tm_time_valid s) (tm_clock_source s) (tm_readings s) (tm_ran s).

(** Every timer of the array has its position as [index]. *)
Definition indexed (tms : gmap loc timer) (H : Z -> ptr) : Prop :=
  forall i t, H i = Some t -> exists tm, tms !! t = Some tm /\ t_index tm = i.

Lemma indexed_inj tms H i j t : indexed tms H -> H i = Some t -> H j = Some t -> i = j.
Proof. intros Hx Hi Hj. destruct (Hx _ _ Hi) as (?&?&<-), (Hx _ _ Hj) as (?&?&<-). congruence. Qed.

Definition swap (H : Z -> ptr) (i j : Z) : Z -> ptr := upd_at (upd_at H i (H j)) j (H i).

Lemma swap_l H i j : i <> j -> swap H i j i = H j.
Proof. intros. unfold swap, upd_at. rewrite decide_False by done. by rewrite decide_True. Qed.
Lemma swap_r H i j : swap H i j j = H i.
Proof. unfold swap, upd_at. by rewrite decide_True. Qed.
Lemma swap_o H i j k : k <> i -> k <> j -> swap H i j k = H k.
Proof. intros. unfold swap, upd_at. by rewrite !decide_False by done. Qed.

Definition expires_of (tms : gmap loc timer) (t : loc) : timespec :=
  match tms !! t with Some tm => t_expires tm | None => mk_tsp 0 0 end.

(** [tms'] differs from [tms] in the positions of the timers of [H] at most. *)
Definition same_timers (H : Z -> ptr) (tms tms' : gmap loc timer) : Prop :=
  (forall t, t_expires <$> tms' !! t = t_expires <$> tms !! t) /\
  (forall t, (forall i, H i <> Some t) -> tms' !! t = tms !! t).
(** [H'] holds the timers of [H], in the same positions up to their order. *)
Definition same_values (H H' : Z -> ptr) : Prop :=
  (forall i, H' i = None <-> H i = None) /\
  (forall t, (exists i, H' i = Some t) <-> (exists i, H i = Some t)).

Lemma same_timers_expires H tms tms' t : same_timers H tms tms' -> expires_of tms' t = expires_of tms t.
Proof.
  intros [He _]. specialize (He t). unfold expires_of.
  destruct (tms' !! t), (tms !! t); cbn in He; congruence.
Qed.
Lemma same_values_refl H : same_values H H.
Proof. by split. Qed.
Lemma same_timers_refl H tms : same_timers H tms tms.
Proof. by split. Qed.
Lemma same_values_trans H1 H2 H3 : same_values H1 H2 -> same_values H2 H3 -> same_values H1 H3.
Proof. intros [A1 B1] [A2 B2]. split; intros; [rewrite A2; apply A1|rewrite B2; apply B1]. Qed.
Lemma same_timers_trans H1 H2 a b c :
  same_values H1 H2 -> same_timers H1 a b -> same_timers H2 b c -> same_timers H1 a c.
Proof.
  intros [_ Hv] [A1 B1] [A2 B2]. split; [congruence|].
  intros t Ht. rewrite B2; [by apply B1|]. intros i Hi.
  destruct (proj1 (Hv t) (ex_intro _ i Hi)) as [j Hj]. by apply (Ht j).
Qed.

Lemma swap_same_values H i j : H i <> None -> H j <> None -> same_values H (swap H i j).
Proof.
  intros Hi Hj. split.
  - intros k. destruct (decide (k = j)) as [->|Hkj]; [rewrite swap_r; tauto|].
    destruct (decide (k = i)) as [->|Hki]; [rewrite swap_l by done; tauto|]. by rewrite swap_o.
  - intros t. split; intros [k Hk].
    + destruct (decide (k = j)) as [->|Hkj]; [rewrite swap_r in Hk; by exists i|].
      destruct (decide (k = i)) as [->|Hki]; [rewrite swap_l in Hk by done; by exists j|].
      rewrite swap_o in Hk by done. by exists k.
    + destruct (decide (k = j)) as [->|Hkj].
      { destruct (decide (i = j)) as [->|Hn]; [exists j; by rewrite swap_r|]. exists i. by rewrite swap_l. }
      destruct (decide (k = i)) as [->|Hki]; [exists j; by rewrite swap_r|]. exists k. by rewrite swap_o.
Qed.

(** The heap order at position [i]. *)
Definition ordered_at (tms : gmap loc timer) (H : Z -> ptr) (i : Z) : Prop :=
  forall a b, 2 <= i -> H (i / 2) = Some a -> H i = Some b -> tle (expires_of tms a) (expires_of tms b).
(** The parent of [i] against the children of [i]. *)
Definition bridged (tms : gmap loc timer) (H : Z -> ptr) (i : Z) : Prop :=
  forall j a b, 2 <= i -> j / 2 = i -> H (i / 2) = Some a -> H j = Some b ->
    tle (expires_of tms a) (expires_of tms b).

Lemma ordered_at_same H0 tms tms' H i : same_timers H0 tms tms' ->
  ordered_at tms H i -> ordered_at tms' H i.
Proof.
  intros Hs Ho a b Hi Ha Hb. rewrite !(same_timers_expires _ _ _ _ Hs). by apply Ho.
Qed.

Section heap.
Context (fl : loc) (calloc : gset loc -> option loc).
Context (d : nat) (hw : Z) (A : nat -> Z -> loc) (Hhw : hw < 2 ^ 28).

(** A state whose array is [H], over nodes that are all there. *)
Record heap_st (s : timer_state) (H : Z -> ptr) : Prop := {
  hs_array : array fl (tm_nodes s) d hw A H;
  hs_depth : tm_depth s = Z.of_nat d;
  hs_num : 0 <= tm_num s <= hw;
  hs_full : forall i, H i = None <-> ~ (1 <= i <= tm_num s);
  hs_indexed : indexed (tm_timers s) H }.

Lemma heap_get s H i : heap_st s H -> 1 <= i <= tm_num s ->
  iv_timer_get_node fl calloc i s = Ok (slot_of A i, s).
Proof.
  intros Hs Hi. pose proof (hs_num _ _ Hs). eapply get_node_existing; [apply Hs|apply Hs|lia|done].
Qed.
Lemma heap_load s H i : heap_st s H -> 1 <= i <= tm_num s -> load_slot (slot_of A i) s = Ok (H i, s).
Proof.
  intros Hs Hi. pose proof (hs_num _ _ Hs).
  apply (load_elem fl (hs_array _ _ Hs) i i); [lia|lia|done].
Qed.
Lemma heap_some s H i : heap_st s H -> 1 <= i <= tm_num s -> exists t, H i = Some t.
Proof.
  intros Hs Hi. destruct (H i) as [t|] eqn:E; [by exists t|].
  apply (hs_full _ _ Hs) in E. lia.
Qed.

Lemma set_index_Ok s t i tm : tm_timers s !! t = Some tm ->
  set_index t i s = Ok (tt, with_heap s (tm_nodes s) (<[t := mk_timer (t_expires tm) i]> (tm_timers s))).
Proof. intros Ht. unfold set_index, load_timer, set_timers. msimpl. rewrite Ht. cbn. done. Qed.

Lemma exchange_spec s H i p a b :
  heap_st s H -> 1 <= i <= tm_num s -> 1 <= p <= tm_num s -> i <> p -> H i = Some a -> H p = Some b ->
  exists ns' tms', let s' := with_heap s ns' tms' in
    exchange (slot_of A i) i (slot_of A p) p s = Ok (tt, s') /\ heap_st s' (swap H i p) /\
    same_timers H (tm_timers s) tms'.
Proof.
  intros Hs Hi Hp Hne Ha Hb. pose proof (hs_num _ _ Hs) as Hn. pose proof (hs_indexed _ _ Hs) as Hix.
  destruct (Hix _ _ Ha) as (ta&Hta&Hia), (Hix _ _ Hb) as (tb&Htb&Hib).
  assert (a <> b) as Hab by congruence.
  unfold exchange. mrun (heap_load s H i Hs Hi). mrun (heap_load s H p Hs Hp).
  destruct (store_elem fl (hs_array _ _ Hs) i (H p) ltac:(lia)) as (ns1&He1&Ha1). mrun He1.
  set (s1 := with_nodes s ns1 _).
  destruct (@store_elem fl s1 d hw A _ Ha1 p (H i) ltac:(lia)) as (ns2&He2&Ha2). mrun He2.
  set (s2 := with_nodes s1 ns2 _). fold (swap H i p) in Ha2.
  mrun (@load_elem fl s2 d hw A _ Ha2 i i ltac:(lia) ltac:(lia) eq_refl).
  rewrite swap_l, Hb by done. mrun (@deref_Some timer_state _ b s2).
  mrun (set_index_Ok s2 b i tb Htb). set (s3 := with_heap s2 _ _).
  mrun (@load_elem fl s3 d hw A _ Ha2 p p ltac:(lia) ltac:(lia) eq_refl).
  rewrite swap_r, Ha. mrun (@deref_Some timer_state _ a s3).
  rewrite (set_index_Ok s3 a p ta) by (cbn; by rewrite lookup_insert_ne).
  eexists ns2, _. split; [reflexivity|]. split; [split|].
  - exact Ha2.
  - apply Hs.
  - apply Hs.
  - intros k. cbn. rewrite <-(hs_full _ _ Hs). apply swap_same_values; congruence.
  - intros k t Hk. cbn. destruct (decide (t = a)) as [->|Hta'].
    { rewrite lookup_insert_eq. eexists; split; [done|]. cbn.
      destruct (decide (k = p)) as [->|Hkp]; [done|].
      destruct (decide (k = i)) as [->|Hki]; [rewrite swap_l in Hk by done; congruence|].
      rewrite swap_o in Hk by done. exfalso. apply Hki. by eapply indexed_inj. }
    rewrite lookup_insert_ne by done. destruct (decide (t = b)) as [->|Htb'].
    { rewrite lookup_insert_eq. eexists; split; [done|]. cbn.
      destruct (decide (k = p)) as [->|Hkp]; [rewrite swap_r in Hk; congruence|].
      destruct (decide (k = i)) as [->|Hki]; [done|].
      rewrite swap_o in Hk by done. exfalso. apply Hkp. by eapply indexed_inj. }
    rewrite lookup_insert_ne by done. apply Hix.
    destruct (decide (k = p)) as [->|Hkp]; [rewrite swap_r in Hk; congruence|].
    destruct (decide (k = i)) as [->|Hki]; [rewrite swap_l in Hk by done; congruence|].
    by rewrite swap_o in Hk.
  - split.
    + intros t. cbn. destruct (decide (t = a)) as [->|]; [rewrite lookup_insert_eq, Hta; done|].
      rewrite lookup_insert_ne by done.
      destruct (decide (t = b)) as [->|]; [rewrite lookup_insert_eq, Htb; done|].
      by rewrite lookup_insert_ne.
    + intros t Ht. cbn. rewrite !lookup_insert_ne; [done|..]; intros <-; eapply Ht; eauto.
Qed.

Lemma timer_ptr_gt_Ok s a b ta tb : tm_timers s !! a = Some ta -> tm_timers s !! b = Some tb ->
  timer_ptr_gt (Some a) (Some b) s =
    Ok (timespec_gt (expires_of (tm_timers s) a) (expires_of (tm_timers s) b), s).
Proof.
  intros Ha Hb. unfold timer_ptr_gt, load_timer, expires_of. msimpl. rewrite Ha. cbn. by rewrite Hb.
Qed.

(** What the two loops leave: the same timers, in heap order at [ok]. *)
Definition sifted (s : timer_state) (H : Z -> ptr) (s' : timer_state) (H' : Z -> ptr) : Prop :=
  (exists ns' tms', s' = with_heap s ns' tms' /\ same_timers H (tm_timers s) tms') /\
  heap_st s' H' /\ same_values H H'.

Lemma sifted_refl s H : heap_st s H -> sifted s H s H.
Proof.
  intros Hs. split_and!; [|done|apply same_values_refl].
  exists (tm_nodes s), (tm_timers s). split; [by destruct s|apply same_timers_refl].
Qed.
Lemma sifted_trans s1 H1 s2 H2 s3 H3 :
  sifted s1 H1 s2 H2 -> sifted s2 H2 s3 H3 -> sifted s1 H1 s3 H3.
Proof.
  intros ((ns2&tms2&->&Ht2)&_&Hv2) ((ns3&tms3&->&Ht3)&Hs3&Hv3). split_and!; [|done|].
  - exists ns3, tms3. split; [done|]. by eapply same_timers_trans.
  - by eapply same_values_trans.
Qed.
Lemma sifted_num s H s' H' : sifted s H s' H' -> tm_num s' = tm_num s.
Proof. by intros ((?&?&->&_)&_). Qed.
Lemma sifted_expires s H s' H' t : sifted s H s' H' ->
  expires_of (tm_timers s') t = expires_of (tm_timers s) t.
Proof. intros ((?&?&->&Ht)&_). by eapply same_timers_expires. Qed.

Lemma exchange_sifted s H i p a b :
  heap_st s H -> 1 <= i <= tm_num s -> 1 <= p <= tm_num s -> i <> p -> H i = Some a -> H p = Some b ->
  exists s', exchange (slot_of A i) i (slot_of A p) p s = Ok (tt, s') /\ sifted s H s' (swap H i p).
Proof.
  intros Hs Hi Hp Hne Ha Hb. destruct (exchange_spec s H i p a b) as (ns'&tms'&He&Hs'&Ht); [done..|].
  eexists; split; [exact He|]. split_and!; [by exists ns', tms'|done|].
  apply swap_same_values; congruence.
Qed.

(** ** Moving a timer up *)
Lemma pull_up_spec fuel : forall s H i,
  heap_st s H -> 1 <= i <= tm_num s -> (Z.to_nat i < fuel)%nat ->
  (forall j, j <> i -> j / 2 <> i -> ordered_at (tm_timers s) H j) -> bridged (tm_timers s) H i ->
  exists s' H', pull_up fl calloc fuel i (slot_of A i) s = Ok (tt, s') /\ sifted s H s' H' /\
    ((s' = s /\ H' = H /\ ordered_at (tm_timers s) H i) \/ forall j, ordered_at (tm_timers s') H' j).
Proof.
  induction fuel as [|fuel IH]; intros s H i Hs Hi Hf Hord Hbr; [lia|]. cbn [pull_up].
  destruct (Z.eqb_spec i 1) as [->|Hi1].
  { exists s, H. split_and!; [done|by apply sifted_refl|]. left. split_and!; [done..|].
    intros a b ?. lia. }
  set (p := i / 2). assert (1 <= p < i) as Hp.
  { unfold p. split; [apply Z.div_le_lower_bound; lia|apply Z.div_lt; lia]. }
  assert (1 <= p <= tm_num s) as Hpn by lia.
  mrun (heap_get s H p Hs Hpn). mrun (heap_load s H p Hs Hpn). mrun (heap_load s H i Hs Hi).
  destruct (heap_some s H i Hs Hi) as [x Hx], (heap_some s H p Hs Hpn) as [y Hy]. rewrite Hx, Hy.
  destruct (hs_indexed _ _ Hs _ _ Hx) as (tx&Htx&_), (hs_indexed _ _ Hs _ _ Hy) as (ty&Hty&_).
  mrun (timer_ptr_gt_Ok s y x ty tx Hty Htx).
  destruct (timespec_gt _ _) eqn:Hgt; cbn [negb].
  2: { exists s, H. split_and!; [done|by apply sifted_refl|]. left. split_and!; [done..|].
       intros a b _ Ea Eb. fold p in Ea. by simplify_eq. }
  apply tgt_tle in Hgt.
  destruct (exchange_sifted s H i p x y) as (s1&He&Hsf); [done|done|done|lia|done|done|].
  mrun He. pose proof Hsf as (_&Hs1&_). pose proof (sifted_num _ _ _ _ Hsf) as En.
  assert (forall t, expires_of (tm_timers s1) t = expires_of (tm_timers s) t) as Eex.
  { intros t. by eapply sifted_expires. }
  set (H1 := swap H i p) in *.
  assert (H1 i = Some y) as H1i by (unfold H1; rewrite swap_l by lia; done).
  assert (H1 p = Some x) as H1p by (unfold H1; by rewrite swap_r).
  assert (forall j, j <> i -> j <> p -> H1 j = H j) as H1o by (intros; by apply swap_o).
  assert (forall j, j <> p -> ordered_at (tm_timers s1) H1 j) as Hord1.
  { intros j Hjp a b Hj Ea Eb. rewrite !Eex.
    destruct (decide (j = i)) as [->|Hji]; [fold p in Ea; by simplify_eq|].
    rewrite H1o in Eb by done. destruct (decide (j / 2 = i)) as [Ej|Ej].
    - rewrite Ej, H1i in Ea. injection Ea as <-. apply (Hbr j); [lia|done|done|done].
    - destruct (decide (j / 2 = p)) as [Ep|Ep].
      + rewrite Ep, H1p in Ea. injection Ea as <-. eapply tle_trans; [exact Hgt|].
        apply (Hord j); [done|done|done|by rewrite Ep|done].
      + rewrite H1o in Ea by done. by apply (Hord j). }
  destruct (IH s1 H1 p) as (s2&H2&He2&Hsf2&Hcase); [done|lia|lia|..].
  - intros j ? _. by apply Hord1.
  - intros j a b Hp2 Ej Ea Eb. rewrite !Eex.
    assert (p / 2 < p) by (apply Z.div_lt; lia).
    rewrite H1o in Ea by lia.
    assert (tle (expires_of (tm_timers s) a) (expires_of (tm_timers s) y)) as Hay.
    { apply (Hord p); [lia|lia|lia|done|done]. }
    destruct (decide (j = i)) as [->|Hji]; [by simplify_eq|].
    assert (j <> p) by (intros ->; lia). rewrite H1o in Eb by done.
    eapply tle_trans; [exact Hay|]. apply (Hord j); [done|lia|Z.to_euclidean_division_equations; lia|by rewrite Ej|done].
  - exists s2, H2. split_and!; [done|by eapply sifted_trans|]. right.
    destruct Hcase as [(->&->&Hop)|Hall]; [|done].
    intros j. destruct (decide (j = p)) as [->|]; [done|by apply Hord1].
Qed.

(** ** Moving a timer down *)

(** [p + 1] is the slot of the second child. *)
Lemma slot_succ i : slot_of A (2 * i + 1) = ((slot_of A (2 * i)).1, (slot_of A (2 * i)).2 + 1).
Proof.
  unfold slot_of. cbn [fst snd].
  assert ((2 * i + 1) / 128 = 2 * i / 128 /\ (2 * i + 1) mod 128 = 2 * i mod 128 + 1) as [-> ->]; [|done].
  Z.to_euclidean_division_equations. lia.
Qed.

Lemma load_sibling s H i : heap_st s H -> 1 <= i -> 2 * i <= tm_num s ->
  load_slot ((slot_of A (2 * i)).1, (slot_of A (2 * i)).2 + 1) s = Ok (H (2 * i + 1), s).
Proof.
  intros Hs Hi Hn. rewrite <-slot_succ. pose proof (hs_num _ _ Hs).
  apply (load_elem fl (hs_array _ _ Hs) (2 * i + 1) (2 * i)); [lia|lia|].
  Z.to_euclidean_division_equations. lia.
Qed.

(** The choice [push_down] makes at [i]: where the smallest of the timer and
    its children is. *)
Definition smallest (tms : gmap loc timer) (H : Z -> ptr) (i c : Z) : Prop :=
  (c = i \/ ((c = 2 * i \/ c = 2 * i + 1) /\
     forall x y, H i = Some x -> H c = Some y -> timespec_gt (expires_of tms x) (expires_of tms y) = true)) /\
  forall j x y, j / 2 = i -> 2 <= j -> H c = Some x -> H j = Some y ->
    tle (expires_of tms x) (expires_of tms y).

Lemma children i j : j / 2 = i <-> j = 2 * i \/ j = 2 * i + 1.
Proof. Z.to_euclidean_division_equations. lia. Qed.

Lemma push_down_choice s H i (k : Z * slot -> M timer_state unit) :
  heap_st s H -> 1 <= i <= tm_num s ->
  exists c, smallest (tm_timers s) H i c /\ 1 <= c <= tm_num s /\
    (r ← (if 2 * i <=? tm_num s then
            p ← iv_timer_get_node fl calloc (2 * i);
            a ← load_slot (slot_of A i); b ← load_slot p; gt ← timer_ptr_gt a b;
            let '(index_min, imin) := if (gt : bool) then (2 * i, p) else (i, slot_of A i) in
            let p1 := (p.1, p.2 + 1) in
            c ← load_slot p1;
            match c with
            | None => mret (index_min, imin)
            | Some _ => a ← load_slot imin; gt ← timer_ptr_gt a c;
                mret (if (gt : bool) then (2 * i + 1, p1) else (index_min, imin))
            end
          else mret (i, slot_of A i)); k r) s = k (c, slot_of A c) s.
Proof.
  intros Hs Hi. destruct (Z.leb_spec (2 * i) (tm_num s)) as [Hle|Hgt].
  2: { exists i. split_and!; [split; [by left|]|lia|lia|done].
       intros j x y Ej%children Hj _ Hy.
       assert (H j = None) as Hn; [|congruence]. apply (hs_full _ _ Hs). lia. }
  assert (1 <= 2 * i <= tm_num s) as Hc0 by lia.
  rewrite bind_assoc. mrun (heap_get s H (2 * i) Hs Hc0).
  rewrite bind_assoc. mrun (heap_load s H i Hs Hi).
  rewrite bind_assoc. mrun (heap_load s H (2 * i) Hs Hc0).
  destruct (heap_some s H i Hs Hi) as [x Hx], (heap_some s H (2 * i) Hs Hc0) as [y Hy]. rewrite Hx, Hy.
  destruct (hs_indexed _ _ Hs _ _ Hx) as (tx&Htx&_), (hs_indexed _ _ Hs _ _ Hy) as (ty&Hty&_).
  rewrite bind_assoc. mrun (timer_ptr_gt_Ok s x y tx ty Htx Hty).
  set (g := timespec_gt _ _).
  assert (exists c z, (if g then (2 * i, slot_of A (2 * i)) else (i, slot_of A i)) = (c, slot_of A c) /\
    (c = i \/ c = 2 * i) /\ H c = Some z /\ (c = 2 * i -> g = true) /\
    tle (expires_of (tm_timers s) z) (expires_of (tm_timers s) x) /\
    tle (expires_of (tm_timers s) z) (expires_of (tm_timers s) y)) as (c&z&Ec&Hc&Hz&Hcg&Hzx&Hzy).
  { destruct g eqn:Eg; [exists (2 * i), y|exists i, x]; split_and!; auto using tle_refl; [|lia].
    by apply tgt_tle. }
  rewrite Ec. cbv zeta. rewrite bind_assoc. mrun (load_sibling s H i Hs ltac:(lia) Hle).
  assert (1 <= c <= tm_num s) as Hcn by lia.
  destruct (H (2 * i + 1)) as [w|] eqn:Hw.
  - rewrite bind_assoc. mrun (heap_load s H c Hs Hcn). rewrite Hz.
    destruct (hs_indexed _ _ Hs _ _ Hz) as (tz&Htz&_), (hs_indexed _ _ Hs _ _ Hw) as (tw&Htw&_).
    rewrite bind_assoc. mrun (timer_ptr_gt_Ok s z w tz tw Htz Htw).
    destruct (timespec_gt (expires_of (tm_timers s) z) _) eqn:Eg2.
    + exists (2 * i + 1). split_and!; [split|..].
      * right. split; [by right|]. intros x' y' Hx' Hy'. simplify_eq.
        apply timespec_gt_spec in Eg2. apply tle_spec in Hzx. apply timespec_gt_spec. lia.
      * apply tgt_tle in Eg2. intros j x' y' [-> | ->]%children Hj Hx' Hy'; simplify_eq; [|apply tle_refl].
        eapply tle_trans; eauto.
      * lia.
      * destruct (Z.le_gt_cases (2 * i + 1) (tm_num s)); [done|].
        assert (H (2 * i + 1) = None) by (apply (hs_full _ _ Hs); lia). congruence.
      * rewrite slot_succ. done.
    + exists c. split_and!; [split|lia|lia|done].
      * destruct Hc as [->|Hc]; [by left|]. right. split; [by left|].
        intros x' y' Hx' Hy'. rewrite Hc in *. simplify_eq. apply Hcg. lia.
      * intros j x' y' [-> | ->]%children Hj Hx' Hy'; simplify_eq; done.
  - exists c. split_and!; [split|lia|lia|done].
    + destruct Hc as [->|Hc]; [by left|]. right. split; [by left|].
      intros x' y' Hx' Hy'. rewrite Hc in *. simplify_eq. apply Hcg. lia.
    + intros j x' y' [-> | ->]%children Hj Hx' Hy'; simplify_eq; done.
Qed.

Lemma push_down_spec fuel : forall s H i,
  heap_st s H -> 1 <= i <= tm_num s -> (Z.to_nat (tm_num s - i) < fuel)%nat ->
  (forall j, j / 2 <> i -> ordered_at (tm_timers s) H j) -> bridged (tm_timers s) H i ->
  exists s' H', push_down fl calloc fuel i (slot_of A i) s = Ok (tt, s') /\ sifted s H s' H' /\
    forall j, ordered_at (tm_timers s') H' j.
Proof.
  induction fuel as [|fuel IH]; intros s H i Hs Hi Hf Hord Hbr; [lia|]. cbn [push_down].
  mrun (eq_refl : gets tm_num s = Ok (tm_num s, s)).
  destruct (push_down_choice s H i (fun r => let '(index_min, imin) := r in
    if i =? index_min then mret tt
    else exchange (slot_of A i) i imin index_min;; push_down fl calloc fuel index_min imin) Hs Hi)
    as (c&[Hc Hmin]&Hcn&Ec).
  cut (exists s' H', (if i =? c then mret tt
      else exchange (slot_of A i) i (slot_of A c) c;; push_down fl calloc fuel c (slot_of A c)) s = Ok (tt, s') /\
    sifted s H s' H' /\ forall j, ordered_at (tm_timers s') H' j).
  { intros (s'&H'&He&?). exists s', H'. split; [exact (eq_trans Ec He)|done]. }
  clear Ec. destruct (Z.eqb_spec i c) as [->|Hic].
  { exists s, H. split_and!; [done|by apply sifted_refl|].
    intros j. destruct (decide (j / 2 = c)) as [Ej|]; [|by apply Hord].
    intros a b Hj Ea Eb. rewrite Ej in Ea. by apply (Hmin j). }
  destruct Hc as [->|[Hc Hgt]]; [done|].
  destruct (heap_some s H i Hs Hi) as [x Hx], (heap_some s H c Hs Hcn) as [y Hy].
  specialize (Hgt x y Hx Hy). apply tgt_tle in Hgt.
  destruct (exchange_sifted s H i c x y) as (s1&He&Hsf); [done..|]. mrun He.
  pose proof Hsf as (_&Hs1&_). pose proof (sifted_num _ _ _ _ Hsf) as En.
  assert (forall t, expires_of (tm_timers s1) t = expires_of (tm_timers s) t) as Eex.
  { intros t. by eapply sifted_expires. }
  set (H1 := swap H i c) in *.
  assert (H1 i = Some y) as H1i by (unfold H1; by rewrite swap_l by lia).
  assert (H1 c = Some x) as H1c by (unfold H1; by rewrite swap_r).
  assert (forall j, j <> i -> j <> c -> H1 j = H j) as H1o by (intros; by apply swap_o).
  assert (c / 2 = i) as Hci by (apply children; lia).
  destruct (IH s1 H1 c) as (s2&H2&He2&Hsf2&Hall); [done|lia|lia|..].
  - intros j Hj a b Hj2 Ea Eb. rewrite !Eex.
    destruct (decide (j = c)) as [->|Hjc].
    { rewrite Hci, H1i in Ea. rewrite H1c in Eb. by simplify_eq. }
    destruct (decide (j = i)) as [->|Hji].
    { rewrite H1i in Eb. injection Eb as <-. assert (i / 2 < i) by (apply Z.div_lt; lia).
      rewrite H1o in Ea by lia. apply (Hbr c); [lia|done|done|done]. }
    rewrite H1o in Eb by done. destruct (decide (j / 2 = i)) as [Ej|Ej].
    + rewrite Ej, H1i in Ea. injection Ea as <-. apply (Hmin j); [done|done|done|done].
    + rewrite H1o in Ea by done. by apply (Hord j).
  - intros j a b Hc2 Ej Ea Eb. rewrite !Eex. rewrite Hci, H1i in Ea. injection Ea as <-.
    assert (2 <= j /\ j <> c /\ j <> i) as (?&?&?) by (apply children in Ej; lia).
    rewrite H1o in Eb by done. apply (Hord j); [lia|lia|by rewrite Ej|done].
  - exists s2, H2. split_and!; [done|by eapply sifted_trans|done].
Qed.
End heap.
