(* ===== verification/TimerOps.v ===== *)
(** * The operations of iv_timer.c

    Abstractly, the timers of a thread are a map from timers to an expiry
    time and a kind: -1 (unregistered), 0 (expired, handler due) or 1
    (registered).  Each operation of iv_timer.c is shown to be the obvious one
    on this view, whatever the shape of the heap and of the radix tree. *)

From Stdlib Require Import Sorted.
From stdpp Require Import sorting.
From S2P Require Import Prelude Timer TimerRadix TimerHeap.

Local Open Scope Z_scope.

(** ** The abstract view *)
Definition kind (tm : timer) : Z := Z.min 1 (t_index tm).
Definition view_of (tms : gmap loc timer) : gmap loc (timespec * Z) :=
  (fun tm => (t_expires tm, kind tm)) <$> tms.
Definition view (s : timer_state) := view_of (tm_timers s).

(** Everything but the heap, the timers and the counters. *)
Definition same_rest (s s' : timer_state) : Prop :=
  tm_expired s' = tm_expired s /\ tm_time s' = tm_time s /\ tm_time_valid s' = tm_time_valid s /\
  tm_clock_source s' = tm_clock_source s /\ tm_readings s' = tm_readings s /\ tm_ran s' = tm_ran s.

(** Simplify the fields of an explicit state. *)
Ltac tmc := cbn [tm_nodes tm_depth tm_num tm_timers tm_expired tm_numobjs tm_time tm_time_valid
  tm_clock_source tm_readings tm_ran with_heap with_nodes].

Section ops.
Context (fl : loc) (calloc : gset loc -> option loc).
Context (Hcalloc : forall D a, calloc D = Some a -> a ∉ D).

(** The heap is well formed; [H] is its array. *)
Definition heap_ok (s : timer_state) (H : Z -> ptr) : Prop :=
  exists d hw A, hw < 2 ^ 28 /\ heap_st fl d hw A s H /\
    match d with O => True | S d' => width d' <= tm_num s end /\
    (forall j, ordered_at (tm_timers s) H j) /\
    forall t tm, tm_timers s !! t = Some tm -> -1 <= t_index tm /\
      (1 <= t_index tm -> H (t_index tm) = Some t).

Lemma array_depth_unique ns d hw A H ns2 d2 A2 H2 :
  array fl ns d hw A H -> array fl ns2 d2 hw A2 H2 -> d = d2.
Proof.
  intros (hwl&_&_&Hlt&Hd) (hwl2&_&_&Hlt2&Hd2).
  assert (forall x y, hw < width x -> match y with O => True | S y' => width y' <= hw end -> (y <= x)%nat) as Hx.
  { intros x y Hwx Hwy. destruct y as [|y]; [lia|]. destruct (decide (S y <= x)%nat); [done|].
    pose proof (width_le x y ltac:(lia)). lia. }
  pose proof (Hx d d2 Hlt Hd2). pose proof (Hx d2 d Hlt2 Hd). lia.
Qed.

(** Sifting does not change the view. *)
Lemma same_timers_view H H' tms tms' :
  same_timers H tms tms' -> same_values H H' -> indexed tms H -> indexed tms' H' ->
  (forall i, H i <> None -> 1 <= i) -> view_of tms' = view_of tms.
Proof.
  intros [He Hs] [Hv1 Hv2] Hi Hi' Hpos. apply map_eq. intros t. unfold view_of. rewrite !lookup_fmap.
  specialize (He t). destruct (tms !! t) as [tm|] eqn:E, (tms' !! t) as [tm'|] eqn:E'; cbn in *; try done.
  injection He as He. do 2 f_equal; [done|]. unfold kind.
  assert ((exists i, H i = Some t) \/ ~ (exists i, H i = Some t)) as [[i Ht]|Hn].
  { destruct (decide (H (t_index tm) = Some t)) as [?|Hne]; [left; by eexists|].
    right. intros [i Hit]. destruct (Hi _ _ Hit) as (?&?&<-). congruence. }
  - destruct (Hi _ _ Ht) as (tm0&Hl&Hix). rewrite Hl in E. injection E as ->.
    destruct (proj2 (Hv2 t)) as [j Hj]; [by exists i|].
    destruct (Hi' _ _ Hj) as (tm1&Hl'&Hix'). rewrite Hl' in E'. injection E' as ->.
    assert (1 <= i) by (apply Hpos; congruence).
    assert (1 <= j) by (apply Hpos; intros Ej; apply Hv1 in Ej; congruence). lia.
  - rewrite Hs in E' by naive_solver. congruence.
Qed.

Lemma heap_st_pos d hw A s H i : heap_st fl d hw A s H -> H i <> None -> 1 <= i <= tm_num s.
Proof.
  intros Hs Hi. destruct (decide (1 <= i <= tm_num s)); [done|].
  exfalso. apply Hi. by apply (hs_full _ _ _ _ _ _ Hs).
Qed.

Lemma sifted_view d hw A s H s' H' :
  heap_st fl d hw A s H -> sifted fl d hw A s H s' H' -> view s' = view s /\ same_rest s s' /\
    tm_num s' = tm_num s /\ tm_numobjs s' = tm_numobjs s.
Proof.
  intros Hs ((ns'&tms'&->&Ht)&Hs'&Hv). split; [|by split_and!].
  eapply same_timers_view; [exact Ht|exact Hv|apply Hs|apply Hs'|].
  intros i Hi. apply (heap_st_pos _ _ _ _ _ _ Hs Hi).
Qed.

(** Sifting keeps every timer's link to the array. *)
Lemma sifted_linked d hw A s H s' H' :
  heap_st fl d hw A s H -> sifted fl d hw A s H s' H' ->
  forall t, (forall tm, tm_timers s !! t = Some tm -> -1 <= t_index tm /\ (1 <= t_index tm -> H (t_index tm) = Some t)) ->
  forall tm, tm_timers s' !! t = Some tm -> -1 <= t_index tm /\ (1 <= t_index tm -> H' (t_index tm) = Some t).
Proof.
  intros Hs ((ns'&tms'&->&[_ Hoff])&Hs'&[Hv1 Hv2]) t Hl tm Ht. cbn in Ht.
  assert ((exists i, H' i = Some t) \/ ~ (exists i, H' i = Some t)) as [[i Hi]|Hn].
  { destruct (decide (H' (t_index tm) = Some t)) as [?|Hne]; [left; by eexists|].
    right. intros [i Hit]. destruct (hs_indexed _ _ _ _ _ _ Hs' _ _ Hit) as (?&?&<-). cbn in *. congruence. }
  - destruct (hs_indexed _ _ _ _ _ _ Hs' _ _ Hi) as (tm'&Htm'&<-). cbn in Htm'.
    assert (tm = tm') as <- by congruence. split; [|done].
    pose proof (heap_st_pos _ _ _ _ _ _ Hs' ltac:(by rewrite Hi)). lia.
  - assert (forall i, H i <> Some t) as Hno.
    { intros i Hi. apply Hn. apply Hv2. by exists i. }
    rewrite Hoff in Ht by done. destruct (Hl tm Ht) as [? Hlk]. split; [done|].
    intros Hi. exfalso. by apply (Hno _ (Hlk Hi)).
Qed.

(** ** Registration *)
Lemma view_insert tms t tm : view_of (<[t := tm]> tms) = <[t := (t_expires tm, kind tm)]> (view_of tms).
Proof. unfold view_of. by rewrite fmap_insert. Qed.

Lemma view_lookup s t e k : view s !! t = Some (e, k) ->
  exists tm, tm_timers s !! t = Some tm /\ t_expires tm = e /\ kind tm = k.
Proof.
  unfold view, view_of. rewrite lookup_fmap. destruct (tm_timers s !! t) as [tm|]; [|done].
  cbn. intros [= <- <-]. by exists tm.
Qed.

Lemma register_spec s H t e :
  heap_ok s H -> view s !! t = Some (e, -1) -> tm_num s + 1 < 2 ^ 28 ->
  wp oom (iv_timer_register fl calloc t) s (fun _ s' =>
    (exists H', heap_ok s' H') /\ view s' = <[t := (e, 1)]> (view s) /\ same_rest s s' /\
    tm_num s' = tm_num s + 1 /\ tm_numobjs s' = tm_numobjs s + 1).
Proof.
  intros (d&hw&A&Hhw&Hs&Hd&Hord&Hlink) Hv Hlim.
  destruct (view_lookup _ _ _ _ Hv) as (tm&Ht&<-&Hk). unfold kind in Hk.
  pose proof (hs_num _ _ _ _ _ _ Hs) as Hn. set (n := tm_num s) in *.
  assert (forall i, H i <> Some t) as Hnot.
  { intros i Hi. destruct (hs_indexed _ _ _ _ _ _ Hs _ _ Hi) as (tm'&Htm'&Hix).
    pose proof (heap_st_pos _ _ _ _ _ _ Hs ltac:(by rewrite Hi)). assert (tm = tm') as <- by congruence. lia. }
  unfold iv_timer_register, load_timer. wbind. wprim.
  eapply wp_Ok; [unfold deref; by rewrite Ht|]. destruct (Z.eqb_spec (t_index tm) (-1)); [|lia]. cbn [negb].
  wprim. unfold set_numobjs, set_num. do 3 wprim. tmc. fold n.
  set (s1 := mk_tms _ _ _ _ _ _ _ _ _ _ _).
  assert (tm_timers s1 = tm_timers s) as E1 by done.
  wbind. eapply wp_mono; [apply (iv_timer_get_node_spec fl calloc Hcalloc s1 d hw A H (n + 1));
    [apply Hs|apply Hs|lia|lia|lia]|].
  intros p s2 (ns2&d2&A2&->&Ha2&->). set (s2 := with_nodes s1 ns2 (Z.of_nat d2)).
  destruct (@store_elem fl s2 d2 _ A2 H Ha2 (n + 1) (Some t) ltac:(lia)) as (ns3&He3&Ha3).
  wrun He3. set (s3 := with_nodes s2 ns3 _).
  wrun (set_index_Ok s3 t (n + 1) tm); [exact Ht|]. set (s4 := with_heap s3 _ _). wprim.
  set (H4 := upd_at H (n + 1) (Some t)) in *.
  assert (heap_st fl d2 (Z.max hw (n + 1)) A2 s4 H4) as Hs4.
  { split; [exact Ha3|done|cbn; lia|..].
    - intros i. cbn. unfold H4, upd_at. destruct (decide (i = n + 1)) as [->|]; [split; [done|lia]|].
      rewrite (hs_full _ _ _ _ _ _ Hs). fold n. lia.
    - intros i u. unfold H4, upd_at. destruct (decide (i = n + 1)) as [->|Hi].
      + intros [= <-]. cbn. rewrite lookup_insert_eq. by eexists.
      + intros Hu. cbn. rewrite lookup_insert_ne by (intros ->; by apply (Hnot i)).
        by apply (hs_indexed _ _ _ _ _ _ Hs). }
  assert (forall u, expires_of (tm_timers s4) u = expires_of (tm_timers s) u) as Eex.
  { intros u. unfold expires_of. cbn. destruct (decide (u = t)) as [->|];
      [by rewrite lookup_insert_eq, Ht|by rewrite lookup_insert_ne]. }
  assert (forall j, 1 <= j <= n -> H4 j = H j) as Hold.
  { intros j ?. unfold H4, upd_at. by rewrite decide_False by lia. }
  assert (forall j, n + 1 < j -> H4 j = None) as Hnone.
  { intros j ?. apply (hs_full _ _ _ _ _ _ Hs4). cbn. lia. }
  destruct (pull_up_spec fl calloc d2 (Z.max hw (n + 1)) A2 ltac:(lia) (S (Z.to_nat (tm_num s4))) s4 H4 (n + 1) Hs4)
    as (s5&H5&He5&Hsf&Hcase).
  { cbn. lia. }
  { cbn. lia. }
  { intros j Hj _ a b Hj2 Ea Eb. rewrite !Eex.
    destruct (decide (j <= n)); [|rewrite Hnone in Eb by lia; done].
    assert (1 <= j / 2 <= n) by (Z.to_euclidean_division_equations; lia).
    rewrite Hold in Ea, Eb by lia. by apply (Hord j). }
  { intros j a b _ Ej _ Eb. rewrite Hnone in Eb; [done|]. Z.to_euclidean_division_equations; lia. }
  eapply wp_Ok; [exact He5|]. destruct (sifted_view _ _ _ _ _ _ _ Hs4 Hsf) as (Hv5&Hr5&Hn5&Ho5).
  split_and!.
  - exists H5, d2, (Z.max hw (n + 1)), A2. split_and!; [lia|apply Hsf|..].
    + destruct d2 as [|d2']; [done|]. rewrite Hn5. cbn.
      destruct (decide (n + 1 <= hw)).
      * rewrite Z.max_l in Ha2 by lia.
        rewrite (array_depth_unique _ _ _ _ _ _ _ _ _ (hs_array _ _ _ _ _ _ Hs) Ha2) in Hd. fold n in Hd. lia.
      * destruct Ha2 as (?&_&_&_&Hw). lia.
    + destruct Hcase as [(->&->&Hop)|]; [|done]. intros j a b Hj2 Ea Eb.
      destruct (decide (j = n + 1)) as [->|]; [by apply Hop|].
      destruct (decide (j <= n)); [|rewrite Hnone in Eb by lia; done].
      assert (1 <= j / 2 <= n) by (Z.to_euclidean_division_equations; lia).
      rewrite Hold in Ea, Eb by lia. rewrite !Eex. by apply (Hord j).
    + intros u. eapply sifted_linked; [exact Hs4|exact Hsf|].
      intros tu. cbn. destruct (decide (u = t)) as [->|Hut].
      * rewrite lookup_insert_eq. intros [= <-]. cbn. split; [lia|]. intros _. unfold H4, upd_at. by rewrite decide_True.
      * rewrite lookup_insert_ne by done. intros Hu. destruct (Hlink _ _ Hu) as [? Hl]. split; [done|].
        intros Hi. rewrite Hold; [auto|]. pose proof (heap_st_pos _ _ _ _ _ _ Hs ltac:(by rewrite Hl)). lia.
  - rewrite Hv5. unfold view. cbn. rewrite view_insert. unfold kind. cbn. do 2 f_equal. lia.
  - done.
  - by rewrite Hn5.
  - by rewrite Ho5.
Qed.

(** ** Unregistration *)

(** Dropping a level when the last timer of the upper half goes. *)
Lemma shrink_spec F s d hw A H n :
  hw < 2 ^ 28 -> array fl (tm_nodes s) d hw A H -> tm_depth s = Z.of_nat d -> tm_num s = n ->
  1 <= n <= hw -> match d with O => True | S d' => width d' <= n end ->
  (forall i, n <= i -> H i = None) ->
  wp F (when ((0 <? tm_depth s) && (n =? Z.shiftl 1 (tm_depth s * IV_TIMER_SPLIT_BITS)))
          (iv_timer_radix_tree_remove_level fl)) s (fun _ s' => exists ns' d' hw',
    s' = with_nodes s ns' (Z.of_nat d') /\ array fl ns' d' hw' A H /\ n - 1 <= hw' < 2 ^ 28 /\
    match d' with O => True | S d'' => width d'' <= n - 1 end).
Proof.
  intros Hhw Ha Hd Hn Hn1 Hdn Hnone. rewrite Hd.
  destruct d as [|d'].
  { cbn [Z.of_nat Z.ltb andb when]. eapply wp_Ok; [reflexivity|].
    exists (tm_nodes s), 0%nat, hw. split_and!; try done; try lia. unfold with_nodes. rewrite <-Hd. by destruct s. }
  rewrite (proj2 (Z.ltb_lt 0 (Z.of_nat (S d')))) by lia. cbn [andb].
  replace (Z.shiftl 1 (Z.of_nat (S d') * IV_TIMER_SPLIT_BITS)) with (width d').
  2: { unfold width, IV_TIMER_SPLIT_BITS. rewrite Z.shiftl_mul_pow2 by lia.
       replace (Z.of_nat (S d')) with (Z.of_nat d' + 1) by lia.
       change 128 with (2 ^ 7). rewrite <-Z.pow_mul_r by lia. rewrite Z.mul_comm. lia. }
  destruct (Z.eqb_spec n (width d')) as [E|E]; cbn [when].
  - eapply wp_mono; [apply (remove_level_spec F fl s d' hw A H Ha Hd)|].
    { intros i ?. apply Hnone. lia. }
    intros _ s' (ns'&->&Ha'). exists ns', d', (width d' - 1). split_and!; [done|done|lia| |].
    + destruct (decide (d' <= 3)%nat); [|].
      * lia.
      * destruct Ha as (?&_&_&_&Hw). lia.
    + destruct d' as [|d'']; [done|]. pose proof (width_S d''). pose proof (width_pos d''). lia.
  - eapply wp_Ok; [reflexivity|]. exists (tm_nodes s), (S d'), hw. split_and!; try done; try lia.
    unfold with_nodes. rewrite <-Hd. by destruct s.
Qed.

Lemma unregister_heap_spec s H t e :
  heap_ok s H -> view s !! t = Some (e, 1) ->
  wp oom (iv_timer_unregister fl calloc t) s (fun _ s' =>
    (exists H', heap_ok s' H') /\ view s' = <[t := (e, -1)]> (view s) /\ same_rest s s' /\
    tm_num s' = tm_num s - 1 /\ tm_numobjs s' = tm_numobjs s - 1).
Proof.
  intros (d&hw&A&Hhw&Hs&Hd&Hord&Hlink) Hv.
  destruct (view_lookup _ _ _ _ Hv) as (tm&Ht&<-&Hk). unfold kind in Hk.
  pose proof (hs_num _ _ _ _ _ _ Hs) as Hn. set (n := tm_num s) in *. set (i := t_index tm) in *.
  assert (1 <= i) as Hi1 by lia. pose proof (proj2 (Hlink _ _ Ht) Hi1) as Hit. fold i in Hit.
  pose proof (heap_st_pos _ _ _ _ _ _ Hs ltac:(by rewrite Hit)) as Hi. fold n in Hi.
  assert (1 <= n) as Hn1 by lia.
  destruct (heap_some _ _ _ _ _ _ n Hs ltac:(unfold n in *; lia)) as [x Hx].
  destruct (hs_indexed _ _ _ _ _ _ Hs _ _ Hx) as (tx&Htx&Hxi).
  unfold iv_timer_unregister, load_timer. wbind. wprim.
  eapply wp_Ok; [unfold deref; by rewrite Ht|]. fold i.
  rewrite (proj2 (Z.eqb_neq i (-1))) by lia. rewrite (proj2 (Z.eqb_neq i 0)) by lia. cbn [negb].
  wbind. wprim. fold n. rewrite (proj2 (Z.ltb_ge n i)) by lia.
  wrun (heap_get fl calloc d hw A Hhw s H i Hs); [lia|].
  wrun (heap_load fl d hw A s H i Hs); [lia|]. rewrite Hit, ptr_eqb_refl. cbn [negb].
  wrun (heap_get fl calloc d hw A Hhw s H n Hs); [unfold n in *; lia|].
  wrun (heap_load fl d hw A s H n Hs); [unfold n in *; lia|].
  destruct (store_elem fl (hs_array _ _ _ _ _ _ Hs) i (H n) ltac:(lia)) as (ns1&He1&Ha1). wrun He1.
  set (s1 := with_nodes s ns1 _).
  wrun (@load_elem fl s1 d hw A _ Ha1 i i); [lia|lia|done|].
  assert (upd_at H i (H n) i = Some x) as -> by (unfold upd_at; by rewrite decide_True).
  wprim. wbind. wprim. eapply wp_Ok; [unfold deref; cbn; by rewrite Ht|].
  wrun (set_index_Ok s1 x i tx); [exact Htx|]. set (s2 := with_heap s1 _ _).
  destruct (@store_elem fl s2 d hw A _ Ha1 n None ltac:(lia)) as (ns3&He3&Ha3). wrun He3.
  set (s3 := with_nodes s2 ns3 _). set (H3 := upd_at (upd_at H i (H n)) n None) in *.
  wprim. change (tm_depth s3) with (tm_depth s).
  wbind. eapply wp_mono; [apply (shrink_spec oom s3 d hw A H3 n Hhw Ha3); [apply Hs|done|lia|done|]|].
  { intros j Hj. unfold H3, upd_at. destruct (decide (j = n)) as [|]; [done|].
    rewrite decide_False by lia. apply (hs_full _ _ _ _ _ _ Hs). fold n. lia. }
  intros _ s4 (ns4&d4&hw4&->&Ha4&Hhw4&Hd4). wprim. unfold set_num. wprim. tmc.
  change (tm_num s3) with n. unfold heap_fuel. wprim. tmc.
  set (s5 := mk_tms ns4 _ _ _ _ _ _ _ _ _ _).
  (* the array without its last element, which now sits at [i] *)
  assert (forall j, j <> i -> j < n -> H3 j = H j) as H3o.
  { intros j ??. unfold H3, upd_at. by rewrite !decide_False by lia. }
  assert (i < n -> H3 i = Some x) as H3i.
  { intros ?. unfold H3, upd_at. rewrite decide_False, decide_True by lia. done. }
  assert (forall j, n <= j -> H3 j = None) as H3n.
  { intros j Hj. unfold H3, upd_at. destruct (decide (j = n)) as [|]; [done|].
    rewrite decide_False by lia. apply (hs_full _ _ _ _ _ _ Hs). fold n. lia. }
  assert (tm_timers s5 = <[x := mk_timer (t_expires tx) i]> (tm_timers s)) as Etm by done.
  assert (i = n -> x = t) as Hxt by (intros E; rewrite E in Hit; congruence).
  assert (forall u, expires_of (tm_timers s5) u = expires_of (tm_timers s) u) as Eex.
  { intros u. rewrite Etm. unfold expires_of. destruct (decide (u = x)) as [->|];
      [by rewrite lookup_insert_eq, Htx|by rewrite lookup_insert_ne]. }
  assert (heap_st fl d4 hw4 A s5 H3) as Hs5.
  { split; [exact Ha4|done|cbn; lia|..].
    - intros j. cbn. destruct (decide (n <= j)); [rewrite H3n by done; split; [lia|done]|].
      destruct (decide (j = i)) as [->|]; [rewrite H3i by lia; split; [done|lia]|].
      rewrite H3o by lia. rewrite (hs_full _ _ _ _ _ _ Hs). fold n. lia.
    - intros j u Hu. rewrite Etm. destruct (decide (n <= j)); [by rewrite H3n in Hu|].
      destruct (decide (j = i)) as [->|Hji].
      + rewrite H3i in Hu by lia. injection Hu as <-. rewrite lookup_insert_eq. by eexists.
      + rewrite H3o in Hu by lia. rewrite lookup_insert_ne.
        * by apply (hs_indexed _ _ _ _ _ _ Hs).
        * intros ->. assert (j = n); [|lia]. eapply indexed_inj; [apply Hs|done|done]. }
  assert (forall j, j <> i -> j / 2 <> i -> ordered_at (tm_timers s5) H3 j) as Hord5.
  { intros j Hji Hj2i a b Hj2 Ea Eb. rewrite !Eex. destruct (decide (n <= j)); [by rewrite H3n in Eb|].
    rewrite H3o in Eb by lia. rewrite H3o in Ea by (Z.to_euclidean_division_equations; lia).
    by apply (Hord j). }
  assert (forall u tu, u <> t -> tm_timers s5 !! u = Some tu ->
    -1 <= t_index tu /\ (1 <= t_index tu -> H3 (t_index tu) = Some u)) as Hlink5.
  { intros u tu Hut. rewrite Etm. destruct (decide (u = x)) as [->|Hux].
    - rewrite lookup_insert_eq. intros [= <-]. cbn. split; [lia|]. intros _. apply H3i.
      destruct (decide (i = n)); [by destruct Hut; apply Hxt|lia].
    - rewrite lookup_insert_ne by done. intros Hu. destruct (Hlink _ _ Hu) as [? Hl]. split; [done|].
      intros Htu. specialize (Hl Htu). pose proof (heap_st_pos _ _ _ _ _ (t_index tu) Hs ltac:(by rewrite Hl)) as Hp.
      fold n in Hp. rewrite H3o; [done| |].
      + intros E. rewrite E in Hl. congruence.
      + destruct (decide (t_index tu = n)) as [E|]; [|lia]. rewrite E in Hl. congruence. }
  (* sifting *)
  assert (exists s6 H6, (when (negb (bool_decide (slot_of A i = slot_of A n))) (
      x ← load_slot (slot_of A i); x ← deref x; tx ← load_timer x;
        pull_up fl calloc (S (Z.to_nat (n - 1))) (t_index tx) (slot_of A i);;
      x ← load_slot (slot_of A i); x ← deref x; tx ← load_timer x;
        push_down fl calloc (S (Z.to_nat (n - 1))) (t_index tx) (slot_of A i))) s5 = Ok (tt, s6) /\
    sifted fl d4 hw4 A s5 H3 s6 H6 /\ forall j, ordered_at (tm_timers s6) H6 j) as (s6&H6&He6&Hsf&Hord6).
  { destruct (decide (i = n)) as [Ein|Hin].
    - rewrite bool_decide_true by by rewrite Ein. cbn [negb when]. exists s5, H3. split; [done|].
      split; [by apply sifted_refl|]. intros j. destruct (decide (j = i)) as [->|Hji].
      { intros a b _ _ Eb. rewrite H3n in Eb by lia. done. }
      destruct (decide (j / 2 = i)) as [Ej|]; [|by apply Hord5].
      intros a b _ _ Eb. rewrite H3n in Eb; [done|]. Z.to_euclidean_division_equations; lia.
    - assert (1 <= i <= tm_num s5) as Hi5 by (cbn; lia).
      rewrite bool_decide_false.
      2: { intros E. apply Hin. eapply (slot_of_eq fl (hs_array _ _ _ _ _ _ Hs)); [lia|lia|done]. }
      cbn [negb when].
      assert (bridged (tm_timers s5) H3 i) as Hbr5.
      { intros j a b Hi2 Ej Ea Eb. rewrite !Eex.
        assert (i / 2 < i) by (apply Z.div_lt; lia).
        destruct (decide (n <= j)); [by rewrite H3n in Eb|].
        assert (j <> i) by (intros ->; lia).
        rewrite H3o in Eb by lia. rewrite H3o in Ea by lia.
        eapply tle_trans; [apply (Hord i a t); [lia|done|done]|].
        apply (Hord j); [Z.to_euclidean_division_equations; lia|by rewrite Ej|done]. }
      mrun (heap_load fl d4 hw4 A s5 H3 i Hs5 Hi5). rewrite H3i by lia.
      mrun (@deref_Some timer_state _ x s5).
      assert (load_timer x s5 = Ok (mk_timer (t_expires tx) i, s5)) as Hlt.
      { unfold load_timer. msimpl. by rewrite lookup_insert_eq. }
      mrun Hlt. cbn [t_index].
      destruct (pull_up_spec fl calloc d4 hw4 A ltac:(lia) (S (Z.to_nat (n - 1))) s5 H3 i Hs5 Hi5)
        as (s6&H6&He6&Hsf6&Hcase); [cbn in Hi5; lia|done|done|].
      mrun He6. pose proof Hsf6 as (_&Hs6&_). pose proof (sifted_num _ _ _ _ _ _ _ _ Hsf6) as En6.
      assert (1 <= i <= tm_num s6) as Hi6 by lia.
      destruct (heap_some _ _ _ _ _ _ i Hs6 Hi6) as [y Hy].
      destruct (hs_indexed _ _ _ _ _ _ Hs6 _ _ Hy) as (ty&Hty&Hyi).
      mrun (heap_load fl d4 hw4 A s6 H6 i Hs6 Hi6). rewrite Hy.
      mrun (@deref_Some timer_state _ y s6).
      assert (load_timer y s6 = Ok (ty, s6)) as Hlt6 by (unfold load_timer; msimpl; by rewrite Hty).
      mrun Hlt6. rewrite Hyi.
      destruct (push_down_spec fl calloc d4 hw4 A ltac:(lia) (S (Z.to_nat (n - 1))) s6 H6 i Hs6 Hi6)
        as (s7&H7&He7&Hsf7&Hall).
      + rewrite En6. cbn. lia.
      + destruct Hcase as [(->&->&Hop)|Hall]; [|by intros].
        intros j Hj. destruct (decide (j = i)) as [->|]; [done|by apply Hord5].
      + destruct Hcase as [(->&->&_)|Hall]; [done|].
        intros j a b Hi2 Ej Ea Eb. destruct (decide (j = i)) as [->|Hji].
        { assert (i / 2 < i) by (apply Z.div_lt; lia). lia. }
        eapply tle_trans; [by apply (Hall i a y)|].
        apply (Hall j); [Z.to_euclidean_division_equations; lia|by rewrite Ej|done].
      + exists s7, H7. split_and!; [done|by eapply sifted_trans|done]. }
  destruct (sifted_view _ _ _ _ _ _ _ Hs5 Hsf) as (Hv6&Hr6&Hn6&Ho6).
  assert (forall u, H6 u <> Some t) as Hgone.
  { intros j Hj. destruct Hsf as (_&_&_&Hval).
    destruct (proj1 (Hval t) (ex_intro _ j Hj)) as [k Hk3].
    destruct (decide (n <= k)); [by rewrite H3n in Hk3|].
    destruct (decide (k = i)) as [->|].
    - rewrite H3i in Hk3 by lia. injection Hk3 as ->.
      assert (i = n); [|lia]. eapply indexed_inj; [apply Hs|done|done].
    - rewrite H3o in Hk3 by lia. assert (k = i); [|done]. eapply indexed_inj; [apply Hs|done|done]. }
  wrun He6. wprim. unfold set_numobjs. wprim. tmc. set (s7 := mk_tms _ _ _ _ _ _ _ _ _ _ _).
  assert (exists t6, tm_timers s6 !! t = Some t6 /\ t_expires t6 = t_expires tm) as (t6&Ht6&Et6).
  { assert (is_Some (view s6 !! t)) as Hvt.
    { rewrite Hv6. unfold view, view_of. rewrite Etm, lookup_fmap.
      destruct (decide (t = x)) as [->|]; [by rewrite lookup_insert_eq|by rewrite lookup_insert_ne, Ht]. }
    destruct Hvt as [[e6 k6] Hvt]. destruct (view_lookup _ _ _ _ Hvt) as (t6&Ht6&_). exists t6. split; [done|].
    pose proof (sifted_expires _ _ _ _ _ _ _ _ t Hsf) as Ex. rewrite Eex in Ex.
    unfold expires_of in Ex. by rewrite Ht6, Ht in Ex. }
  eapply wp_Ok; [apply (set_index_Ok s7 t (-1) t6); exact Ht6|]. destruct Hr6 as (?&?&?&?&?&?).
  split_and!.
  - exists H6, d4, hw4, A. destruct Hsf as (Hsf1&Hs6&Hsv). split_and!; [lia| |..].
    + split; [apply Hs6|apply Hs6|cbn; apply Hs6|intros j; cbn; apply Hs6|].
      intros j u Hu. cbn. rewrite lookup_insert_ne by (intros ->; by apply (Hgone j)). by apply Hs6.
    + cbn. rewrite Hn6. exact Hd4.
    + intros j a b Hj Ea Eb. cbn.
      assert (forall u, expires_of (<[t := mk_timer (t_expires t6) (-1)]> (tm_timers s6)) u =
        expires_of (tm_timers s6) u) as Ex.
      { intros u. unfold expires_of. destruct (decide (u = t)) as [->|];
          [by rewrite lookup_insert_eq, Ht6|by rewrite lookup_insert_ne]. }
      rewrite !Ex. by apply (Hord6 j).
    + intros u tu. cbn. destruct (decide (u = t)) as [->|Hut].
      { rewrite lookup_insert_eq. intros [= <-]. cbn. lia. }
      rewrite lookup_insert_ne by done.
      apply (sifted_linked d4 hw4 A s5 H3 s6 H6); [done| |intros tv; by apply Hlink5].
      split; [exact Hsf1|]. by split.
  - unfold view. cbn. rewrite view_insert. change (view_of (tm_timers s6)) with (view s6).
    rewrite Hv6. unfold view. rewrite Etm, view_insert, Et6. unfold kind at 1 2. cbn [t_index t_expires].
    destruct (decide (t = x)) as [->|Htx'].
    { rewrite insert_insert_eq. done. }
    rewrite (insert_id (view_of (tm_timers s)) x); [done|].
    unfold view_of. rewrite lookup_fmap, Htx. cbn. unfold kind. do 2 f_equal. lia.
  - by split_and!.
  - cbn. by rewrite Hn6.
  - cbn. by rewrite Ho6.
Qed.

(** ** The root of the heap *)
Lemma root_minimal tms H n : (forall j, ordered_at tms H j) ->
  (forall i, H i = None <-> ~ (1 <= i <= n)) ->
  forall i t u, 1 <= i <= n -> H 1 = Some t -> H i = Some u -> tle (expires_of tms t) (expires_of tms u).
Proof.
  intros Hord Hfull i. remember (Z.to_nat i) as k eqn:Ek. revert i Ek.
  induction k as [k IH] using lt_wf_ind. intros i Ek t u Hi Ht Hu.
  destruct (decide (i = 1)) as [->|Hi1]; [simplify_eq; apply tle_refl|].
  assert (1 <= i / 2 < i) by (Z.to_euclidean_division_equations; lia).
  destruct (H (i / 2)) as [w|] eqn:Ew.
  2: { apply Hfull in Ew. lia. }
  eapply tle_trans; [eapply (IH (Z.to_nat (i / 2))); [lia|done|lia|done|done]|].
  apply (Hord i); [lia|done|done].
Qed.

Lemma first_slot d hw A s H : heap_st fl d hw A s H -> slot_of A 1 = (fl, 1).
Proof.
  intros Hs. destruct (hs_array _ _ _ _ _ _ Hs) as (?&_&Hr&_).
  unfold slot_of. change (1 / 128) with 0. change (1 mod 128) with 1. by rewrite (r_first _ _ _ _ _ _ Hr).
Qed.

(** The first slot holds a timer that expires first. *)
Lemma heap_root s H : heap_ok s H -> tm_num s <> 0 ->
  exists t tm, load_slot (fl, 1) s = Ok (Some t, s) /\ tm_timers s !! t = Some tm /\ t_index tm = 1 /\
    forall u e, view s !! u = Some (e, 1) -> tle (t_expires tm) e.
Proof.
  intros (d&hw&A&Hhw&Hs&Hd&Hord&Hlink) Hnz. pose proof (hs_num _ _ _ _ _ _ Hs) as Hn.
  destruct (heap_some _ _ _ _ _ _ 1 Hs ltac:(lia)) as [t Ht].
  destruct (hs_indexed _ _ _ _ _ _ Hs _ _ Ht) as (tm&Htm&Hix).
  exists t, tm. split_and!; [|done|done|].
  - rewrite <-(first_slot _ _ _ _ _ Hs). rewrite (heap_load fl d hw A s H 1 Hs) by lia. by rewrite Ht.
  - intros u e Hu. destruct (view_lookup _ _ _ _ Hu) as (tu&Htu&<-&Hk). unfold kind in Hk.
    destruct (Hlink _ _ Htu) as [_ Hl]. specialize (Hl ltac:(lia)).
    pose proof (heap_st_pos _ _ _ _ _ (t_index tu) Hs ltac:(by rewrite Hl)) as Hp.
    pose proof (root_minimal _ _ _ Hord (hs_full _ _ _ _ _ _ Hs) _ _ _ Hp Ht Hl) as Hle.
    unfold expires_of in Hle. by rewrite Htm, Htu in Hle.
Qed.

Lemma heap_empty s H : heap_ok s H -> tm_num s = 0 -> forall u e, view s !! u <> Some (e, 1).
Proof.
  intros (d&hw&A&Hhw&Hs&Hd&Hord&Hlink) Hnz u e Hu.
  destruct (view_lookup _ _ _ _ Hu) as (tu&Htu&<-&Hk). unfold kind in Hk.
  destruct (Hlink _ _ Htu) as [_ Hl]. specialize (Hl ltac:(lia)).
  pose proof (heap_st_pos _ _ _ _ _ (t_index tu) Hs ltac:(by rewrite Hl)). lia.
Qed.

Lemma heap_num_nonneg s H : heap_ok s H -> 0 <= tm_num s.
Proof. intros (d&hw&A&Hhw&Hs&_). pose proof (hs_num _ _ _ _ _ _ Hs). lia. Qed.

Lemma view_kinds s H t e k : heap_ok s H -> view s !! t = Some (e, k) -> k = -1 \/ k = 0 \/ k = 1.
Proof.
  intros (d&hw&A&Hhw&Hs&Hd&Hord&Hlink) Hv. destruct (view_lookup _ _ _ _ Hv) as (tm&Ht&_&Hk).
  unfold kind in Hk. destruct (Hlink _ _ Ht) as [? _]. lia.
Qed.

(** Changing a timer that is off the heap, or the fields the heap does not
    look at, leaves the heap well formed. *)
Lemma heap_ok_off s H s' t tm tm' : heap_ok s H ->
  tm_timers s !! t = Some tm -> t_index tm <= 0 -> -1 <= t_index tm' <= 0 ->
  tm_nodes s' = tm_nodes s -> tm_depth s' = tm_depth s -> tm_num s' = tm_num s ->
  tm_timers s' = <[t := tm']> (tm_timers s) -> heap_ok s' H.
Proof.
  intros (d&hw&A&Hhw&Hs&Hd&Hord&Hlink) Ht Hoff Hoff' En Ed Enum Etm.
  assert (forall i, H i <> Some t) as Hnot.
  { intros i Hi. destruct (hs_indexed _ _ _ _ _ _ Hs _ _ Hi) as (tm0&Htm0&Hix).
    pose proof (heap_st_pos _ _ _ _ _ _ Hs ltac:(by rewrite Hi)). assert (tm0 = tm) as -> by congruence. lia. }
  exists d, hw, A. rewrite Enum. split_and!; [done| |done|..].
  - split; rewrite ?En, ?Ed, ?Enum; try apply Hs. intros i u Hu. rewrite Etm, lookup_insert_ne.
    + by apply (hs_indexed _ _ _ _ _ _ Hs).
    + intros ->. by apply (Hnot i).
  - intros j a b Hj Ea Eb. rewrite Etm.
    assert (forall u, u <> t -> expires_of (<[t := tm']> (tm_timers s)) u = expires_of (tm_timers s) u) as Ex.
    { intros u ?. unfold expires_of. by rewrite lookup_insert_ne. }
    rewrite !Ex; [by apply (Hord j)|..]; intros ->; by eapply Hnot.
  - intros u tu. rewrite Etm. destruct (decide (u = t)) as [->|Hut].
    + rewrite lookup_insert_eq. intros [= <-]. lia.
    + rewrite lookup_insert_ne by done. apply Hlink.
Qed.
Lemma heap_ok_rest s H s' : heap_ok s H ->
  tm_nodes s' = tm_nodes s -> tm_depth s' = tm_depth s -> tm_num s' = tm_num s ->
  tm_timers s' = tm_timers s -> heap_ok s' H.
Proof.
  intros (d&hw&A&Hhw&Hs&Hd&Hord&Hlink) En Ed Enum Etm.
  exists d, hw, A. rewrite Enum, Etm. split_and!; try done.
  split; rewrite ?En, ?Ed, ?Enum, ?Etm; apply Hs.
Qed.

(** ** Collecting the timers that are due *)
Definition due (s : timer_state) (t : loc) : Prop :=
  exists e, view s !! t = Some (e, 1) /\ tle e (tm_time s).
Definition by_expiry (s : timer_state) (a b : loc) : Prop :=
  tle (expires_of (tm_timers s) a) (expires_of (tm_timers s) b).

(** [l] moved from the heap to the list of expired timers. *)
Record collected (s : timer_state) (l : list loc) (s' : timer_state) : Prop := {
  cl_expired : tm_expired s' = tm_expired s ++ l;
  cl_nodup : NoDup l;
  cl_due : forall t, t ∈ l <-> due s t;
  cl_sorted : StronglySorted (by_expiry s) l;
  cl_view : forall t, view s' !! t =
    if decide (t ∈ l) then (fun '(e, _) => (e, 0)) <$> view s !! t else view s !! t;
  cl_num : tm_num s' = tm_num s - Z.of_nat (length l);
  cl_numobjs : tm_numobjs s' = tm_numobjs s - Z.of_nat (length l);
  cl_rest : tm_time s' = tm_time s /\ tm_time_valid s' = tm_time_valid s /\
    tm_clock_source s' = tm_clock_source s /\ tm_readings s' = tm_readings s /\ tm_ran s' = tm_ran s }.

Lemma expires_of_view s t e k : view s !! t = Some (e, k) -> expires_of (tm_timers s) t = e.
Proof. intros Hv. destruct (view_lookup _ _ _ _ Hv) as (tm&Ht&<-&_). unfold expires_of. by rewrite Ht. Qed.

Lemma collect_stop s : (forall t, ~ due s t) -> collected s [] s.
Proof.
  intros Hn. split; cbn; try (by rewrite ?app_nil_r); try lia; try constructor; try done.
  - by intros ?%not_elem_of_nil.
  - by intros ?%Hn.
Qed.

Lemma collect_loop_spec fuel : forall s H, heap_ok s H -> (Z.to_nat (tm_num s) < fuel)%nat ->
  wp oom (collect_loop fl calloc fuel) s (fun _ s' => (exists H', heap_ok s' H') /\ exists l, collected s l s').
Proof.
  induction fuel as [|fuel IH]; intros s H Hs Hf; [lia|]. cbn [collect_loop]. wprim.
  destruct (Z.eqb_spec (tm_num s) 0) as [E0|Hnz].
  { eapply wp_Ok; [reflexivity|]. split; [by exists H|]. exists []. apply collect_stop.
    intros t (e&Hv&_). by eapply heap_empty. }
  destruct (heap_root s H Hs Hnz) as (t&tm&Hl&Ht&Hix&Hmin). wrun Hl. wprim.
  unfold load_timer at 1. wbind. wprim. eapply wp_Ok; [unfold deref; by rewrite Ht|].
  rewrite Hix. cbn [Z.eqb negb Pos.eqb]. wprim.
  assert (view s !! t = Some (t_expires tm, 1)) as Hvt.
  { unfold view, view_of. rewrite lookup_fmap, Ht. cbn. unfold kind. by rewrite Hix. }
  destruct (timespec_gt (t_expires tm) (tm_time s)) eqn:Egt.
  { eapply wp_Ok; [reflexivity|]. split; [by exists H|]. exists []. apply collect_stop.
    intros u (e&Hv&Hle). pose proof (Hmin _ _ Hv) as Hm.
    pose proof (tle_trans _ _ _ Hm Hle) as Hn. unfold tle in Hn. congruence. }
  wbind. eapply wp_mono; [apply (unregister_heap_spec s H t _ Hs Hvt)|].
  intros _ s1 ((H1&Hs1)&Hv1&(Ee&Et&Etv&Ecs&Er&Eran)&En1&Eo1). wprim. unfold set_expired. wprim. tmc.
  set (s2 := mk_tms _ _ _ _ _ _ _ _ _ _ _).
  assert (exists tm1, tm_timers s1 !! t = Some tm1 /\ t_expires tm1 = t_expires tm /\ t_index tm1 = -1) as (tm1&Ht1&Ee1&Ei1).
  { assert (view s1 !! t = Some (t_expires tm, -1)) as Hvt1 by by rewrite Hv1, lookup_insert_eq.
    destruct (view_lookup _ _ _ _ Hvt1) as (tm1&?&?&Hk). exists tm1. unfold kind in Hk. split_and!; [done|done|lia]. }
  wrun (set_index_Ok s2 t 0 tm1); [exact Ht1|]. set (s3 := with_heap s2 _ _).
  assert (heap_ok s3 H1) as Hs3.
  { eapply (heap_ok_off s1 H1 s3 t tm1); [done|done|lia| |done|done|done|reflexivity]. cbn. lia. }
  assert (view s3 = <[t := (t_expires tm, 0)]> (view s)) as Hv3.
  { unfold view at 1. cbn. rewrite view_insert. fold (view s1). rewrite Hv1, insert_insert_eq.
    unfold kind. cbn. by rewrite Ee1. }
  assert (0 < tm_num s) by (pose proof (heap_num_nonneg _ _ Hs); lia).
  eapply wp_mono; [apply (IH s3 H1 Hs3); cbn; lia|].
  intros _ s4 (Hs4&l&Hc). split; [done|]. exists (t :: l).
  assert (forall u, due s3 u <-> due s u /\ u <> t) as Hdue.
  { intros u. unfold due. rewrite Hv3. change (tm_time s3) with (tm_time s1). rewrite Et.
    destruct (decide (u = t)) as [->|Hut].
    - rewrite lookup_insert_eq. split; [intros (e&[=]&_)|intros [_ []]; done].
    - rewrite lookup_insert_ne by done. tauto. }
  assert (forall u, u <> t -> expires_of (tm_timers s3) u = expires_of (tm_timers s) u) as Eex.
  { intros u Hu. destruct (view s !! u) as [[e k]|] eqn:Ev.
    - rewrite (expires_of_view s u e k Ev). apply (expires_of_view s3 u e k). by rewrite Hv3, lookup_insert_ne.
    - assert (view s3 !! u = None) as Ev3 by by rewrite Hv3, lookup_insert_ne.
      unfold view, view_of in Ev, Ev3. rewrite lookup_fmap in Ev, Ev3.
      unfold expires_of. by destruct (tm_timers s !! u), (tm_timers s3 !! u). }
  destruct Hc as [Cex Cnd Cdue Csort Cview Cnum Cno Crest].
  assert (t ∉ l) as Htl by (intros [_ Hn]%Cdue%Hdue; done).
  split.
  - rewrite Cex. cbn. rewrite Ee, <-app_assoc. done.
  - by apply NoDup_cons.
  - intros u. rewrite elem_of_cons, Cdue, Hdue. split.
    + intros [->|[? _]]; [|done]. exists (t_expires tm). done.
    + intros Hd. destruct (decide (u = t)); auto.
  - apply StronglySorted_cons. split.
    + apply Forall_forall. intros u [Hd _]%Cdue%Hdue. destruct Hd as (e&Hv&_).
      unfold by_expiry. rewrite (expires_of_view _ _ _ _ Hv), (expires_of_view _ _ _ _ Hvt). by eapply Hmin.
    + assert (forall u, u ∈ l -> u <> t) as Hne by (intros u Hu ->; done).
      clear -Csort Eex Hne. induction l as [|u l IHl]; [constructor|].
      apply StronglySorted_cons in Csort as [Hu Hl]. apply StronglySorted_cons. split.
      * rewrite Forall_forall in Hu |- *. intros v Hv. specialize (Hu v Hv). unfold by_expiry in *.
        rewrite !Eex in Hu; [done|apply Hne; by right|apply Hne; by left].
      * apply IHl; [done|]. intros v ?. apply Hne. by right.
  - intros u. rewrite Cview, Hv3. destruct (decide (u = t)) as [->|Hut].
    + rewrite decide_False by done. rewrite lookup_insert_eq, decide_True by by left. by rewrite Hvt.
    + rewrite lookup_insert_ne by done. apply decide_ext. rewrite elem_of_cons. naive_solver.
  - rewrite Cnum. cbn. lia.
  - rewrite Cno. cbn. lia.
  - destruct Crest as (?&?&?&?&?). cbn in *. split_and!; congruence.
Qed.
End ops.
