(* ===== verification/TimerSpec.v ===== *)
(** * What the timers of ivykis promise

    The theorems about iv_timer.c, on the abstract view of TimerOps.v. *)

From Stdlib Require Import Sorted.
From stdpp Require Import sorting.
From S2P Require Import Prelude Timer TimerRadix TimerHeap TimerOps.

Local Open Scope Z_scope.

Section spec.
Context (fl : loc) (calloc : gset loc -> option loc).
Context (Hcalloc : forall D a, calloc D = Some a -> a ∉ D).
Context (clock_gettime : nat -> clockid -> option timespec) (gettimeofday : nat -> Z * Z).
Context (handler : list loc -> list timer_call).

(** The heap is well formed and the list of expired timers holds exactly the
    timers of kind 0. *)
Definition timers_ok (s : timer_state) : Prop :=
  (exists H, heap_ok fl s H) /\ NoDup (tm_expired s) /\
  forall t, t ∈ tm_expired s <-> exists e, view s !! t = Some (e, 0).

Lemma wp_any {A} F (m : M timer_state A) s Q : wp F m s Q -> wp any m s Q.
Proof. unfold wp. by destruct (m s) as [[]| | |]. Qed.

(** ** Time *)

(** What reading [n] of the clock gives: the first of the clocks after the last
    one known not to work that works, or the time of day. *)
Definition clock_reading (n : nat) (source : Z) : timespec :=
  default (let '(sec, usec) := gettimeofday n in mk_tsp sec (1000 * usec))
    (head (omap (fun '(k, id) => if source <? k then clock_gettime n id else None)
      [(1, CLOCK_MONOTONIC_FAST); (2, CLOCK_MONOTONIC); (3, CLOCK_REALTIME)])).
(** The time a thread goes by: the cached one, or else a reading of the clock. *)
Definition time_now (s : timer_state) : timespec :=
  if tm_time_valid s then tm_time s else clock_reading (tm_readings s) (tm_clock_source s).

Lemma iv_time_get_spec s : exists c, iv_time_get clock_gettime gettimeofday s =
  Ok (clock_reading (tm_readings s) (tm_clock_source s),
    mk_tms (tm_nodes s) (tm_depth s) (tm_num s) (tm_timers s) (tm_expired s)
      (tm_numobjs s) (tm_time s) (tm_time_valid s) c (S (tm_readings s)) (tm_ran s)).
Proof.
  unfold iv_time_get, count_reading, set_clock_source, clock_reading. msimpl. cbn [omap list_omap].
  destruct (gettimeofday (tm_readings s)) as [sec usec], s as [? ? ? ? ? ? ? ? c n ?]; cbn.
  repeat (case_match; simplify_eq; cbn in *); try lia; eexists; reflexivity.
Qed.

Lemma validate_spec s : exists c r, iv_validate_now clock_gettime gettimeofday s =
  Ok (tt, mk_tms (tm_nodes s) (tm_depth s) (tm_num s) (tm_timers s) (tm_expired s)
    (tm_numobjs s) (time_now s) true c r (tm_ran s)).
Proof.
  unfold iv_validate_now, time_now. mrun (eq_refl : gets tm_time_valid s = Ok (tm_time_valid s, s)).
  destruct (tm_time_valid s) eqn:Ev; cbn [negb when].
  - exists (tm_clock_source s), (tm_readings s). rewrite <-Ev. by destruct s.
  - unfold set_time. mrun (eq_refl : gets tm_time s = Ok (tm_time s, s)).
    erewrite bind_Ok by reflexivity. set (s1 := mk_tms _ _ _ _ _ _ _ _ _ _ _).
    destruct (iv_time_get_spec s1) as (c&He). mrun He. eexists c, _. reflexivity.
Qed.

(** ** Calls made by handlers *)
Lemma timers_ok_rest s s' : timers_ok s -> tm_nodes s' = tm_nodes s -> tm_depth s' = tm_depth s ->
  tm_num s' = tm_num s -> tm_timers s' = tm_timers s -> tm_expired s' = tm_expired s -> timers_ok s'.
Proof.
  intros ((H&Hs)&Hnd&Hex) ?????. split_and!.
  - exists H. by eapply heap_ok_rest.
  - congruence.
  - intros t. unfold view. rewrite H4, H3. apply Hex.
Qed.

(** How calls may end the program: the allocator has nothing left, or the
    client does not keep to the interface. *)
Definition tmfatal (e : string) : Prop := oom e \/ e = "outside of the interface"%string.
Lemma wp_oom {A} (m : M timer_state A) s Q : wp oom m s Q -> wp tmfatal m s Q.
Proof. unfold wp. destruct (m s) as [[]| | |]; try done. by left. Qed.

(** The timers that calls unregister. *)
Definition cancels (cs : list timer_call) : list loc :=
  omap (fun c => match c with TmUnregister t => Some t | _ => None end) cs.

(** What calls change for [iv_run_timers]: those they unregister leave its list,
    and a thread has as many objects as registered timers and objects of other kinds. *)
Record progress (cs : list timer_call) (s s' : timer_state) : Prop := {
  pr_ok : timers_ok s';
  pr_ran : tm_ran s' = tm_ran s;
  pr_expired : tm_expired s' = filter (fun t => t ∉ cancels cs) (tm_expired s);
  pr_numobjs : tm_numobjs s' - tm_num s' = tm_numobjs s - tm_num s }.

Lemma filter_keep (l : list loc) : filter (fun t => t ∉ ([] : list loc)) l = l.
Proof. apply list_filter_all. intros x _. by apply not_elem_of_nil. Qed.

Lemma off_heap_call s t tm tm' :
  timers_ok s -> tm_timers s !! t = Some tm -> t_index tm = -1 -> t_index tm' = -1 ->
  timers_ok (with_heap s (tm_nodes s) (<[t := tm']> (tm_timers s))).
Proof.
  intros ((H&Hs)&Hnd&Hex) Ht Hi Hi'. split_and!.
  - exists H. eapply (heap_ok_off fl s H _ t tm); try done; lia.
  - done.
  - intros u. cbn [with_heap tm_expired]. rewrite Hex. unfold view. cbn [with_heap tm_timers].
    rewrite view_insert. destruct (decide (u = t)) as [->|Hut]; [|by rewrite lookup_insert_ne].
    rewrite lookup_insert_eq. unfold view_of. rewrite lookup_fmap, Ht. cbn. unfold kind. rewrite Hi, Hi'.
    cbn. split; intros [e [=]].
Qed.

Lemma unregister_spec s t e k : timers_ok s -> view s !! t = Some (e, k) -> k <> -1 ->
  wp oom (iv_timer_unregister fl calloc t) s (fun _ s' =>
    timers_ok s' /\ view s' = <[t := (e, -1)]> (view s) /\ tm_ran s' = tm_ran s /\
    tm_expired s' = (if decide (k = 0) then remove t (tm_expired s) else tm_expired s) /\
    tm_num s' = tm_num s - k /\ tm_numobjs s' = tm_numobjs s - k).
Proof.
  intros ((H&Hs)&Hnd&Hex) Hv Hk1. destruct (view_lookup _ _ _ _ Hv) as (tm&Ht&Ee&Hk).
  destruct (view_kinds fl s H t _ _ Hs Hv) as [-> | [-> | ->]]; [done|..].
  - assert (t_index tm = 0) as Hi by (unfold kind in Hk; lia).
    unfold iv_timer_unregister, load_timer. wbind. wprim. eapply wp_Ok; [unfold deref; by rewrite Ht|].
    rewrite Hi. cbn [Z.eqb negb]. wbind. wprim. unfold set_expired.
    eapply wp_Ok; [reflexivity|]. cbv beta. cbn [tm_expired].
    set (s1 := mk_tms _ _ _ _ _ _ _ _ _ _ _). set (tm' := mk_timer (t_expires tm) (-1)).
    set (s2 := with_heap s1 (tm_nodes s1) (<[t := tm']> (tm_timers s1))).
    assert (view s2 = <[t := (e, -1)]> (view s)) as Hv2.
    { unfold view at 1. cbn. rewrite view_insert. unfold tm', kind. cbn. by rewrite Ee. }
    eapply wp_Ok; [apply (set_index_Ok s1 t (-1) tm Ht)|]. fold tm' s2.
    rewrite decide_True by done. split_and!; [split_and!|done|done|done|cbn; lia|cbn; lia].
    + exists H. eapply (heap_ok_off fl s H s2 t tm); try reflexivity; try done; cbn; lia.
    + cbn. by apply NoDup_remove.
    + intros u. rewrite Hv2. cbn. rewrite elem_of_remove, Hex. destruct (decide (u = t)) as [->|Hut].
      * rewrite lookup_insert_eq. split; [tauto|]. intros [e' [=]].
      * rewrite lookup_insert_ne by done. tauto.
  - eapply wp_mono; [apply (unregister_heap_spec fl calloc s H t _ Hs Hv)|].
    intros _ s' (Hs'&Hv'&(Ex&_&_&_&_&Er)&En&Eo). rewrite decide_False by done.
    split_and!; try done. split_and!; [done|by rewrite Ex|].
    intros u. rewrite Ex, Hex, Hv'. destruct (decide (u = t)) as [->|Hut].
    + rewrite lookup_insert_eq, Hv. split; intros [e' [=]].
    + by rewrite lookup_insert_ne.
Qed.

Lemma unregister_unregistered s t e : view s !! t = Some (e, -1) -> (exists H, heap_ok fl s H) ->
  exists msg, iv_timer_unregister fl calloc t s = Fatal msg.
Proof.
  intros Hv [H (?&?&?&_&_&_&_&Hlink)]. destruct (view_lookup _ _ _ _ Hv) as (tm&Ht&_&Hk).
  destruct (Hlink _ _ Ht). unfold kind in Hk. unfold iv_timer_unregister, load_timer. msimpl. rewrite Ht. cbn.
  rewrite (proj2 (Z.eqb_eq (t_index tm) (-1))) by lia. by eexists.
Qed.

Lemma call_spec s c : timers_ok s ->
  wp tmfatal (run_timer_call fl calloc clock_gettime gettimeofday c) s (fun _ s' => progress [c] s s').
Proof.
  intros Hok. unfold run_timer_call. wprim. wbind. apply requires_spec; [by right|].
  intros Hleg. destruct c as [t|t ts|t|t| |]; cbn [legal_call] in *.
  - destruct (tm_timers s !! t) as [tm|] eqn:Ht; [|done]. apply Z.eqb_eq in Hleg.
    eapply wp_Ok; [apply (set_index_Ok s t (-1) tm Ht)|]. split; [|done|by rewrite filter_keep|done].
    apply (off_heap_call s t tm); done.
  - destruct (tm_timers s !! t) as [tm|] eqn:Ht; [|done]. apply Z.eqb_eq in Hleg.
    unfold set_expires, load_timer, set_timers. wbind. wprim. eapply wp_Ok; [unfold deref; by rewrite Ht|].
    wprim. eapply wp_Ok; [reflexivity|]. split; [|done|by rewrite filter_keep|done].
    apply (off_heap_call s t tm (mk_timer ts (t_index tm))); done.
  - destruct (tm_timers s !! t) as [tm|] eqn:Ht; [|done].
    apply andb_true_iff in Hleg as [Hi%Z.eqb_eq Hlim%Z.ltb_lt]. pose proof Hok as ((H&Hs)&Hnd&Hex).
    assert (view s !! t = Some (t_expires tm, -1)) as Hv.
    { unfold view, view_of. rewrite lookup_fmap, Ht. cbn. unfold kind. by rewrite Hi. }
    eapply wp_oom, wp_mono; [apply (register_spec fl calloc Hcalloc s H t _ Hs Hv Hlim)|].
    intros _ s' (Hs'&Hv'&(Ee&_&_&_&_&Er)&En&Eo). split; [|done|by rewrite filter_keep|lia]. split_and!; [done|by rewrite Ee|].
    intros u. rewrite Ee, Hex, Hv'. destruct (decide (u = t)) as [->|Hut].
    + rewrite lookup_insert_eq, Hv. split; intros [e [=]].
    + by rewrite lookup_insert_ne.
  - destruct (tm_timers s !! t) as [tm|] eqn:Ht; [|done]. apply negb_true_iff, Z.eqb_neq in Hleg.
    assert (view s !! t = Some (t_expires tm, kind tm)) as Hv by (unfold view, view_of; by rewrite lookup_fmap, Ht).
    assert (kind tm <> -1) as Hk by (unfold kind; lia).
    eapply wp_oom, wp_mono; [by eapply unregister_spec|]. cbv beta.
    intros _ s' (Hok'&_&Er&Ee&En&Eo). split; [done|done| |lia].
    pose proof Hok as (_&_&Hex). rewrite Ee. unfold cancels, remove. cbn [omap list_omap].
    case_decide as Hk0; [|symmetry; apply list_filter_all; intros u Hu ->%list_elem_of_singleton; apply Hex in Hu as [e Hu]; congruence].
    apply list_filter_iff. intros u. by rewrite list_elem_of_singleton.
  - destruct (validate_spec s) as (c1&r1&He). eapply wp_Ok; [exact He|].
    split; [by eapply timers_ok_rest|done|by rewrite filter_keep|done].
  - unfold iv_invalidate_now, set_time. wprim. eapply wp_Ok; [reflexivity|].
    split; [by eapply timers_ok_rest|done|by rewrite filter_keep|done].
Qed.

Lemma cancels_cons c cs t : t ∈ cancels (c :: cs) <-> t ∈ cancels [c] \/ t ∈ cancels cs.
Proof. unfold cancels. cbn. destruct c; rewrite ?elem_of_cons; set_solver. Qed.
Lemma filter_twice (P Q R : loc -> Prop) `{!forall x, Decision (P x), !forall x, Decision (Q x), !forall x, Decision (R x)} (l : list loc) :
  (forall x, R x <-> P x /\ Q x) -> filter Q (filter P l) = filter R l.
Proof. intros HR. rewrite list_filter_filter. apply list_filter_iff. intros x. rewrite HR. tauto. Qed.
Lemma progress_trans c cs s1 s2 s3 : progress [c] s1 s2 -> progress cs s2 s3 -> progress (c :: cs) s1 s3.
Proof.
  intros [_ E1 X1 N1] [? E2 X2 N2]. split; [done|congruence| |lia].
  rewrite X2, X1. apply filter_twice. intros t. rewrite cancels_cons. tauto.
Qed.

Lemma calls_spec cs : forall s, timers_ok s ->
  wp tmfatal (run_timer_calls fl calloc clock_gettime gettimeofday cs) s (fun _ s' => progress cs s s').
Proof.
  induction cs as [|c cs IH]; intros s Hok; cbn [run_timer_calls].
  { eapply wp_Ok; [reflexivity|]. split; [done|done|by rewrite filter_keep|done]. }
  wbind. eapply wp_mono; [by apply call_spec|]. cbv beta. intros _ s1 Hp1.
  eapply wp_mono; [apply IH; apply Hp1|]. cbv beta. intros _ s2 Hp2. by eapply progress_trans.
Qed.

(** ** Dispatching *)

(** The handlers a round calls for the due timers [l]: each in turn, less those
    that the handlers called before it ([cancelled]) unregistered. *)
Fixpoint runs (cancelled hist : list loc) (l : list loc) : list loc :=
  match l with
  | [] => []
  | t :: l =>
      if decide (t ∈ cancelled) then runs cancelled hist l
      else t :: runs (cancels (handler (hist ++ [t])) ++ cancelled) (hist ++ [t]) l
  end.
Lemma runs_filter (c cancelled hist l : list loc) : (forall t, t ∈ c -> t ∈ cancelled) ->
  runs cancelled hist l = runs cancelled hist (filter (fun t => t ∉ c) l).
Proof.
  revert cancelled hist. induction l as [|t l IH]; intros cancelled hist Hc; [done|].
  destruct (decide (t ∈ c)) as [Ht|Ht].
  - rewrite filter_cons_False by tauto. cbn [runs]. rewrite decide_True by auto. by apply IH.
  - rewrite filter_cons_True by done. cbn [runs]. case_decide; [by apply IH|].
    f_equal. apply IH. intros u Hu. apply elem_of_app. auto.
Qed.
Lemma runs_ext c1 c2 hist l : (forall t, t ∈ l -> t ∈ c1 <-> t ∈ c2) -> runs c1 hist l = runs c2 hist l.
Proof.
  revert c1 c2 hist. induction l as [|t l IH]; intros c1 c2 hist Hc; [done|]. cbn [runs].
  assert (forall u, u ∈ l -> u ∈ c1 <-> u ∈ c2) as Hl by (intros u Hu; apply Hc; by right).
  rewrite (decide_ext (t ∈ c1) (t ∈ c2)) by (apply Hc; by left).
  case_decide; [by apply IH|]. f_equal. apply IH. intros u Hu. rewrite !elem_of_app. by rewrite Hl.
Qed.

Lemma dispatch_spec fuel : forall s, timers_ok s -> (length (tm_expired s) < fuel)%nat ->
  wp tmfatal (dispatch_loop fl calloc clock_gettime gettimeofday handler fuel) s (fun _ s' =>
    timers_ok s' /\ tm_expired s' = [] /\ tm_ran s' = tm_ran s ++ runs [] (tm_ran s) (tm_expired s) /\
    tm_numobjs s' - tm_num s' = tm_numobjs s - tm_num s).
Proof.
  induction fuel as [|fuel IH]; intros s Hok Hf; [lia|]. cbn [dispatch_loop]. wprim.
  destruct (tm_expired s) as [|t l] eqn:El.
  { eapply wp_Ok; [reflexivity|]. split_and!; [done|done|by rewrite app_nil_r|done]. }
  cbn in Hf. unfold set_expired. wprim. set (s1 := mk_tms _ _ _ _ _ _ _ _ _ _ _).
  pose proof Hok as ((H&Hs)&Hnd&Hex). rewrite El in Hnd, Hex. apply NoDup_cons in Hnd as [Htl Hnd].
  destruct (proj1 (Hex t) ltac:(by left)) as [e Hv]. destruct (view_lookup s t e 0 Hv) as (tm&Ht&_&Hk).
  assert (t_index tm = 0) as Hi by (unfold kind in Hk; lia).
  wrun (set_index_Ok s1 t (-1) tm); [exact Ht|]. unfold log_ran. wprim. wprim.
  set (s2 := mk_tms _ _ _ _ _ _ _ _ _ _ _).
  assert (timers_ok s2) as Hok2.
  { split_and!.
    - exists H. eapply (heap_ok_off fl s H s2 t tm); try reflexivity; try done; cbn; lia.
    - done.
    - intros u. unfold s2. cbn [tm_expired with_heap s1]. unfold view. cbn [tm_timers with_heap s1].
      rewrite view_insert. unfold kind. cbn. destruct (decide (u = t)) as [->|Hut].
      + rewrite lookup_insert_eq. split; [done|]. intros [e' [=]].
      + rewrite lookup_insert_ne by done. rewrite <-Hex. rewrite elem_of_cons. naive_solver. }
  wbind. eapply wp_mono; [by apply calls_spec|]. cbv beta.
  intros _ s3 [Hok3 Er3 Ee3 En3]. cbn [tm_expired tm_ran tm_num tm_numobjs s2 s1 with_heap] in Er3, Ee3, En3.
  eapply wp_mono; [apply (IH s3 Hok3)|].
  { rewrite Ee3. pose proof (length_filter (fun x => x ∉ cancels (handler (tm_ran s ++ [t]))) l). cbn. lia. }
  intros _ s4 (Hok4&Ee4&Er4&En4). split_and!; [done|done| |lia].
  rewrite Er4, Er3, Ee3, <-app_assoc. cbn [app]. do 2 f_equal. cbn [runs]. rewrite decide_False by apply not_elem_of_nil.
  f_equal. rewrite app_nil_r, (runs_filter (cancels (handler (tm_ran s ++ [t]))) (cancels _)) by done. apply runs_ext. intros u [Hu _]%list_elem_of_filter.
  split; [by intros ?%not_elem_of_nil|done].
Qed.

Lemma run_timers_spec s : timers_ok s -> tm_expired s = [] ->
  wp tmfatal (iv_run_timers fl calloc clock_gettime gettimeofday handler) s (fun _ s' =>
    timers_ok s' /\ tm_expired s' = [] /\ tm_numobjs s' - tm_num s' = tm_numobjs s - tm_num s /\
    exists l, NoDup l /\ (forall t, t ∈ l <-> exists e, view s !! t = Some (e, 1) /\ tle e (time_now s)) /\
      StronglySorted (by_expiry s) l /\ tm_ran s' = tm_ran s ++ runs [] (tm_ran s) l).
Proof.
  intros Hok He0. pose proof Hok as ((H&Hs)&Hnd&Hex). unfold iv_run_timers. wprim.
  destruct (Z.eqb_spec (tm_num s) 0) as [E0|Hnz].
  { eapply wp_Ok; [reflexivity|]. split_and!; [done|done|done|]. exists [].
    split_and!; try done; try constructor.
    - by intros ?%not_elem_of_nil.
    - intros (e&Hv&_). by eapply heap_empty in Hv.
    - by rewrite app_nil_r. }
  unfold set_expired. wprim. set (s1 := mk_tms _ _ _ _ _ _ _ _ _ _ _).
  destruct (validate_spec s1) as (c&r&He). wrun He. set (s2 := mk_tms _ _ _ _ _ _ _ _ _ _ _).
  assert (heap_ok fl s2 H) as Hs2 by by eapply heap_ok_rest.
  pose proof (heap_num_nonneg fl s H Hs).
  wbind. eapply wp_oom, wp_mono; [apply (collect_loop_spec fl calloc (S (Z.to_nat (tm_num s))) s2 H Hs2); cbn; lia|].
  intros _ s3 ((H3&Hs3)&l&Hc). wprim.
  assert (tm_expired s3 = l) as El.
  { rewrite (cl_expired _ _ _ Hc). unfold s2. cbn. done. }
  assert (timers_ok s3) as Hok3.
  { split_and!; [by exists H3|by rewrite El; apply Hc|]. intros t. rewrite El, (cl_view _ _ _ Hc).
    case_decide as Hd.
    - pose proof Hd as (e&Hv&_)%(cl_due _ _ _ Hc). rewrite Hv. cbn. split; [by eexists|done].
    - split; [done|]. intros Hv. apply Hex in Hv. rewrite He0 in Hv. by apply not_elem_of_nil in Hv. }
  rewrite El. eapply wp_mono; [apply dispatch_spec; [done|rewrite El; lia]|].
  intros _ s4 (Hok4&Ee4&Hran&Hno). rewrite El in Hran.
  pose proof (cl_num _ _ _ Hc) as E1. pose proof (cl_numobjs _ _ _ Hc) as E2. cbn in E1, E2.
  split_and!; [done|done|lia|]. exists l. split_and!; try apply Hc.
  rewrite Hran. destruct (cl_rest _ _ _ Hc) as (_&_&_&_&->). done.
Qed.

(** ** Programs over the timer interface *)
Inductive timer_step := TCall (c : timer_call) | TRun | TSoonest.

Definition run_step (st : timer_step) : M timer_state unit :=
  match st with
  | TCall c => run_timer_call fl calloc clock_gettime gettimeofday c
  | TRun => iv_run_timers fl calloc clock_gettime gettimeofday handler
  | TSoonest => o ← iv_get_soonest_timeout fl; mret tt
  end.
Fixpoint run_steps (l : list timer_step) : M timer_state unit :=
  match l with [] => mret tt | st :: l => run_step st;; run_steps l end.

Lemma soonest_spec s H : heap_ok fl s H ->
  exists o, iv_get_soonest_timeout fl s = Ok (o, s) /\
    match o with
    | None => forall t e, view s !! t <> Some (e, 1)
    | Some e => (exists t, view s !! t = Some (e, 1)) /\ forall t e', view s !! t = Some (e', 1) -> tle e e'
    end.
Proof.
  intros Hs. unfold iv_get_soonest_timeout. mrun (eq_refl : gets tm_num s = Ok (tm_num s, s)).
  destruct (Z.eqb_spec (tm_num s) 0) as [E|E]; cbn [negb].
  - exists None. split; [done|]. intros t e. by eapply heap_empty.
  - destruct (heap_root fl s H Hs E) as (t&tm&Hl&Ht&Hi&Hmin). mrun Hl.
    mrun (@deref_Some timer_state _ t s).
    assert (load_timer t s = Ok (tm, s)) as Hlt by (unfold load_timer; msimpl; by rewrite Ht).
    mrun Hlt. exists (Some (t_expires tm)). split_and!; [done| |done]. exists t.
    unfold view, view_of. rewrite lookup_fmap, Ht. cbn. unfold kind. by rewrite Hi.
Qed.

(** The thread state as [iv_init] leaves it, and initialised timers. *)
Record fresh_timers (s : timer_state) : Prop := {
  ft_nodes : tm_nodes s = {[fl := ∅]};
  ft_depth : tm_depth s = 0;
  ft_num : tm_num s = 0;
  ft_expired : tm_expired s = [];
  ft_timers : forall t tm, tm_timers s !! t = Some tm -> t_index tm = -1 }.

Lemma timer_init_spec s : fresh_timers s ->
  exists s', iv_timer_init fl s = Ok (tt, s') /\ timers_ok s' /\ tm_expired s' = [] /\
    tm_timers s' = tm_timers s /\ tm_num s' = 0 /\ tm_numobjs s' = tm_numobjs s.
Proof.
  intros [Hns Hd Hn He Ht]. unfold iv_timer_init, set_timer_root.
  rewrite (store_slot_Ok s (fl, 0) (Some fl) ∅); [|cbn; rewrite Hns; by rewrite lookup_singleton_eq|cbn; lia].
  eexists; split; [done|]. cbn [fst snd].
  assert (forall t e k, view_of (tm_timers s) !! t = Some (e, k) -> k = -1) as Hk.
  { intros t e k. unfold view_of. rewrite lookup_fmap. destruct (tm_timers s !! t) as [tm|] eqn:E; [|done].
    intros [= <- <-]. unfold kind. by rewrite (Ht t tm E). }
  split; [|done]. split_and!.
  - exists (fun _ => None), 0%nat, 0, (fun _ _ => fl). split_and!; [lia| |done|done|].
    + split; cbn; [|by rewrite Hd|lia|intros i; rewrite Hn; split; [lia|done]|done].
      exists (fun _ => 0). rewrite Hns, insert_singleton_eq. split_and!; [done| |rewrite width_0; lia|done].
      assert (forall k q, present (fun _ => 0) 0 k q -> k = 0%nat /\ q = 0) as Hp0.
      { intros k q (?&?&?). assert (k = 0)%nat as -> by lia. rewrite width_0 in *. lia. }
      split; try done.
      * intros k1 q1 k2 q2 [-> ->]%Hp0 [-> ->]%Hp0 _. done.
      * intros a Ha. exists 0%nat, 0. split; [by split_and!|].
        apply lookup_singleton_is_Some in Ha. done.
      * intros k q [-> ->]%Hp0. eexists. rewrite lookup_singleton_eq. split; [done|].
        intros b Hb. rewrite lookup_partial_alter, lookup_empty.
        destruct (decide (0 = b)) as [<-|]; [by rewrite decide_True|]. by rewrite decide_False by lia.
    + intros t tm Htm. rewrite (Ht t tm Htm). lia.
  - cbn. rewrite He. constructor.
  - intros t. cbn. rewrite He. split; [by intros ?%not_elem_of_nil|].
    intros [e Hv]. by apply Hk in Hv.
Qed.

Lemma steps_spec l : forall s, timers_ok s -> tm_expired s = [] ->
  wp tmfatal (run_steps l) s (fun _ s' =>
    timers_ok s' /\ tm_expired s' = [] /\ tm_numobjs s' - tm_num s' = tm_numobjs s - tm_num s).
Proof.
  induction l as [|st l IH]; intros s Hok He; cbn [run_steps].
  { eapply wp_Ok; [reflexivity|]. done. }
  wbind. apply (wp_mono _ _ _ (fun _ s1 => timers_ok s1 /\ tm_expired s1 = [] /\ tm_numobjs s1 - tm_num s1 = tm_numobjs s - tm_num s)).
  - destruct st as [c| |]; cbn [run_step].
    + eapply wp_mono; [by apply call_spec|]. cbv beta. intros _ s1 [Hok1 _ Ee1 En1]. split_and!; [done|by rewrite Ee1, He|done].
    + eapply wp_mono; [by apply run_timers_spec|]. cbv beta. intros _ s1 (Hok1&He1&En1&_). done.
    + pose proof Hok as ((H&Hs)&_). destruct (soonest_spec s H Hs) as (o&Ho&_). wrun Ho. by eapply wp_Ok.
  - intros _ s1 (Hok1&He1&En1). eapply wp_mono; [by apply IH|]. cbv beta. intros _ s2 (?&?&?). split_and!; [done|done|lia].
Qed.
End spec.

(** ** Correctness of timers *)


(** Timers 2, 3 and 4, an allocator and a clock, for the witnesses. *)
Definition demo_calloc (D : gset loc) : option loc := Some (fresh D).
Lemma demo_calloc_fresh D a : demo_calloc D = Some a -> a ∉ D.
Proof. intros [= <-]. apply is_fresh. Qed.
Definition demo_clock (n : nat) (c : clockid) : option timespec :=
  match c with CLOCK_MONOTONIC => Some (mk_tsp (10 + Z.of_nat n) 0) | _ => None end.
Definition demo_timeofday (n : nat) : Z * Z := (0, 0).
Definition demo_timers : timer_state :=
  mk_tms {[1%positive := ∅]} 0 0
    (list_to_map [(2%positive, mk_timer (mk_tsp 9 0) (-1)); (3%positive, mk_timer (mk_tsp 5 0) (-1));
                  (4%positive, mk_timer (mk_tsp 99 0) (-1))])
    [] 0 (mk_tsp 0 0) false 0 0 [].
(** The handler of timer 3 registers it again. *)
Definition demo_timer_handler (ran : list loc) : list timer_call :=
  match last ran with Some 3%positive => [TmExpires 3 (mk_tsp 50 0); TmRegister 3] | _ => [] end.
Lemma demo_timers_fresh : fresh_timers 1 demo_timers.
Proof.
  split; try reflexivity. intros t tm Ht. apply elem_of_list_to_map_2 in Ht.
  assert (tm = mk_timer (mk_tsp 9 0) (-1) \/ tm = mk_timer (mk_tsp 5 0) (-1) \/ tm = mk_timer (mk_tsp 99 0) (-1))
    as [-> | [-> | ->]] by set_solver +Ht; reflexivity.
Qed.
Definition demo_prog : list timer_step :=
  [TCall (TmRegister 2); TCall (TmRegister 3); TCall (TmRegister 4); TSoonest; TRun; TCall (TmUnregister 4)].


(** C16. [iv_run_timers], unless an allocation fails or a handler breaks the
    contract: with [l] the registered timers whose expiry time is not after
    [time_now] - the cached time if it was valid, the first working clock's
    reading otherwise - in nondecreasing order of expiry, it calls the handlers
    of exactly those of [l] that the handlers before them did not unregister
    ([runs]), in that order, leaves no timer expired, and counts the objects. *)
Theorem iv_run_timers_correct fl calloc clock_gettime gettimeofday handler s :
  (forall D a, calloc D = Some a -> a ∉ D) -> timers_ok fl s -> tm_expired s = [] ->
  wp tmfatal (iv_run_timers fl calloc clock_gettime gettimeofday handler) s (fun _ s' =>
    timers_ok fl s' /\ tm_expired s' = [] /\ tm_numobjs s' - tm_num s' = tm_numobjs s - tm_num s /\
    exists l, NoDup l /\
      (forall t, t ∈ l <-> exists e, view s !! t = Some (e, 1) /\ tle e (time_now clock_gettime gettimeofday s)) /\
      StronglySorted (by_expiry s) l /\ tm_ran s' = tm_ran s ++ runs handler [] (tm_ran s) l).
Proof. intros Hc Hok He. by apply run_timers_spec. Qed.

(** The state with timers 2, 3 and 4 registered. *)
Lemma demo_registered : exists s, (iv_timer_init 1;;
    run_steps 1 demo_calloc demo_clock demo_timeofday demo_timer_handler (take 3 demo_prog)) demo_timers = Ok (tt, s) /\
  timers_ok 1 s /\ tm_expired s = [].
Proof.
  destruct (timer_init_spec 1 demo_timers demo_timers_fresh) as (s1&Hi&Hok&He&Ht&Hn&_).
  destruct (wp_inv _ _ _ _ (steps_spec 1 demo_calloc demo_calloc_fresh demo_clock demo_timeofday
    demo_timer_handler (take 3 demo_prog) s1 Hok He)) as [(msg&Hf&_)|([]&s2&Hr&Hok2&He2&_)].
  - exfalso. assert ((iv_timer_init 1;; run_steps 1 demo_calloc demo_clock demo_timeofday
      demo_timer_handler (take 3 demo_prog)) demo_timers = Fatal msg) as E by (by mrun Hi).
    vm_compute in E. discriminate.
  - exists s2. split; [by mrun Hi|done].
Qed.

Lemma iv_run_timers_correct_witness : exists s, tm_ran s = [] /\
  wp tmfatal (iv_run_timers 1 demo_calloc demo_clock demo_timeofday demo_timer_handler) s (fun _ s' =>
    timers_ok 1 s' /\ tm_expired s' = [] /\ tm_numobjs s' - tm_num s' = tm_numobjs s - tm_num s /\
    exists l, NoDup l /\
      (forall t, t ∈ l <-> exists e, view s !! t = Some (e, 1) /\ tle e (time_now demo_clock demo_timeofday s)) /\
      StronglySorted (by_expiry s) l /\ tm_ran s' = tm_ran s ++ runs demo_timer_handler [] (tm_ran s) l).
Proof.
  destruct demo_registered as (s&Hr&Hok&He). exists s. split; [vm_compute in Hr; injection Hr as <-; reflexivity|].
  apply iv_run_timers_correct; [exact demo_calloc_fresh|exact Hok|exact He].
Defined.

(** Registering a timer: it is inserted in the heap and nothing else
    changes; the only way out is an allocation failure. *)
Theorem iv_timer_register_correct fl calloc s t e :
  (forall D a, calloc D = Some a -> a ∉ D) -> timers_ok fl s ->
  view s !! t = Some (e, -1) -> tm_num s + 1 < 2 ^ 28 ->
  (exists msg, iv_timer_register fl calloc t s = Fatal msg /\ oom msg) \/
  exists s', iv_timer_register fl calloc t s = Ok (tt, s') /\ timers_ok fl s' /\
    view s' = <[t := (e, 1)]> (view s) /\ same_rest s s' /\
    tm_num s' = tm_num s + 1 /\ tm_numobjs s' = tm_numobjs s + 1.
Proof.
  intros Hc ((H&Hs)&Hnd&Hex) Hv Hlim.
  destruct (wp_inv _ _ _ _ (register_spec fl calloc Hc s H t e Hs Hv Hlim))
    as [Hf|([]&s'&Hr&Hs'&Hv'&Hrest&Hn&Ho)]; [by left|right].
  exists s'. split_and!; try done; try apply Hrest. destruct Hrest as (Ee&_). split_and!; [done|by rewrite Ee|].
  intros u. rewrite Ee, Hex, Hv'. destruct (decide (u = t)) as [->|Hut].
  - rewrite lookup_insert_eq, Hv. split; intros [e' [=]].
  - by rewrite lookup_insert_ne.
Qed.

(** Unregistering a timer, whether it is on the heap, already expired and
    waiting for its handler, or not registered at all (which aborts). *)
Theorem iv_timer_unregister_correct fl calloc s t e k :
  timers_ok fl s -> view s !! t = Some (e, k) ->
  (exists msg, iv_timer_unregister fl calloc t s = Fatal msg /\ (k = -1 \/ oom msg)) \/
  exists s', iv_timer_unregister fl calloc t s = Ok (tt, s') /\ k <> -1 /\ timers_ok fl s' /\
    view s' = <[t := (e, -1)]> (view s) /\
    tm_expired s' = (if decide (k = 0) then remove t (tm_expired s) else tm_expired s) /\
    tm_num s' = tm_num s - k /\ tm_numobjs s' = tm_numobjs s - k.
Proof.
  intros Hok Hv. destruct (decide (k = -1)) as [->|Hk].
  { left. destruct (unregister_unregistered fl calloc s t e Hv (proj1 Hok)) as [msg Hf].
    exists msg. auto. }
  destruct (wp_inv _ _ _ _ (unregister_spec fl calloc s t e k Hok Hv Hk))
    as [(msg&Hf&Ho)|([]&s'&Hr&Hok'&Hv'&Hran&Hex'&Hn'&Ho')].
  - left. exists msg. auto.
  - right. by exists s'.
Qed.

Lemma demo_registered_view : exists s, timers_ok 1 s /\ view s !! 2%positive = Some (mk_tsp 9 0, 1) /\
  tm_num s = 3.
Proof.
  destruct demo_registered as (s&Hr&Hok&_). exists s. split; [exact Hok|].
  vm_compute in Hr. injection Hr as <-. split; reflexivity.
Qed.

Lemma iv_timer_unregister_correct_witness : exists s,
  (exists msg, iv_timer_unregister 1 demo_calloc 2 s = Fatal msg /\ (1 = -1 \/ oom msg)) \/
  exists s', iv_timer_unregister 1 demo_calloc 2 s = Ok (tt, s') /\ 1 <> -1 /\ timers_ok 1 s' /\
    view s' = <[2%positive := (mk_tsp 9 0, -1)]> (view s) /\
    tm_expired s' = (if decide (1 = 0) then remove 2 (tm_expired s) else tm_expired s) /\
    tm_num s' = tm_num s - 1 /\ tm_numobjs s' = tm_numobjs s - 1.
Proof.
  destruct demo_registered_view as (s&Hok&Hv&_). exists s.
  exact (iv_timer_unregister_correct 1 demo_calloc s 2 (mk_tsp 9 0) 1 Hok Hv).
Defined.

Lemma iv_timer_register_correct_witness : exists s,
  (exists msg, iv_timer_register 1 demo_calloc 2 s = Fatal msg /\ oom msg) \/
  exists s', iv_timer_register 1 demo_calloc 2 s = Ok (tt, s') /\ timers_ok 1 s' /\
    view s' = <[2%positive := (mk_tsp 9 0, 1)]> (view s) /\ same_rest s s' /\
    tm_num s' = tm_num s + 1 /\ tm_numobjs s' = tm_numobjs s + 1.
Proof.
  destruct (timer_init_spec 1 demo_timers demo_timers_fresh) as (s&Hi&Hok&He&Ht&Hn&_). exists s.
  apply iv_timer_register_correct; [exact demo_calloc_fresh|exact Hok| |rewrite Hn; reflexivity].
  unfold view. rewrite Ht. reflexivity.
Defined.

(** [iv_get_soonest_timeout] returns NULL exactly when no timer is
    registered, and otherwise the least expiry time of the registered ones. *)
Theorem iv_get_soonest_timeout_correct fl s : timers_ok fl s ->
  exists o, iv_get_soonest_timeout fl s = Ok (o, s) /\
    match o with
    | None => forall t e, view s !! t <> Some (e, 1)
    | Some e => (exists t, view s !! t = Some (e, 1)) /\ forall t e', view s !! t = Some (e', 1) -> tle e e'
    end.
Proof. intros ((H&Hs)&_). by eapply soonest_spec. Qed.

Lemma iv_get_soonest_timeout_correct_witness : exists s o, iv_get_soonest_timeout 1 s = Ok (o, s) /\
    match o with
    | None => forall t e, view s !! t <> Some (e, 1)
    | Some e => (exists t, view s !! t = Some (e, 1)) /\ forall t e', view s !! t = Some (e', 1) -> tle e e'
    end.
Proof.
  destruct demo_registered as (s&_&Hok&_). exists s.
  exact (iv_get_soonest_timeout_correct 1 s Hok).
Defined.

(** [iv_timer_deinit], with any timers still registered, frees every
    radix node that was allocated, each once, and only those. *)
Theorem iv_timer_deinit_frees fl s : timers_ok fl s ->
  exists s', iv_timer_deinit fl s = Ok (tt, s') /\ dom (tm_nodes s') = {[fl]} /\ tm_depth s' = 0.
Proof.
  intros ((H&d&hw&A&_&Hs&_)&_).
  pose proof (deinit_spec (fun _ => False) fl s d hw A H (hs_array _ _ _ _ _ _ Hs) (hs_depth _ _ _ _ _ _ Hs)) as Hw.
  destruct (wp_inv _ _ _ _ Hw) as [(?&_&[])|([]&s'&Hr&?)]. by exists s'.
Qed.

Lemma iv_timer_deinit_frees_witness : exists s s', iv_timer_deinit 1 s = Ok (tt, s') /\
  dom (tm_nodes s') = {[1%positive]} /\ tm_depth s' = 0.
Proof.
  destruct demo_registered as (s&_&Hok&_). exists s. exact (iv_timer_deinit_frees 1 s Hok).
Defined.

(** The monadic operations below leave the depth of the radix tree alone. *)
Definition keeps_depth {A} (m : M timer_state A) : Prop :=
  forall s a s', m s = Ok (a, s') -> tm_depth s' = tm_depth s.
Lemma keeps_depth_bind A B (m : M timer_state A) (f : A -> M timer_state B) :
  keeps_depth m -> (forall a, keeps_depth (f a)) -> keeps_depth (x ← m; f x).
Proof.
  intros Hm Hf s b s' H. destruct (bind_Ok_inv _ _ _ _ _ H) as (a&s1&H1&H2).
  rewrite (Hf _ _ _ _ H2). exact (Hm _ _ _ H1).
Qed.
Lemma keeps_depth_allocate calloc : keeps_depth (iv_timer_allocate_ratnode calloc).
Proof.
  intros s a s'. unfold iv_timer_allocate_ratnode. msimpl.
  destruct (calloc _); [|done]. msimpl. by intros [= _ <-].
Qed.
Lemma keeps_depth_load p : keeps_depth (load_slot p).
Proof.
  intros s a s'. unfold load_slot. msimpl. destruct (tm_nodes s !! p.1); [|done]. msimpl.
  case_decide; [|done]. by intros [= _ <-].
Qed.
Lemma keeps_depth_store p v : keeps_depth (store_slot p v).
Proof.
  intros s a s'. unfold store_slot. msimpl. destruct (tm_nodes s !! p.1); [|done]. msimpl.
  case_decide; [|done]. by intros [= _ <-].
Qed.
Lemma keeps_depth_ret A (a : A) : keeps_depth (mret a).
Proof. by intros s b s' [= _ <-]. Qed.
Lemma keeps_depth_gets A (f : timer_state -> A) : keeps_depth (gets f).
Proof. by intros s b s' [= _ <-]. Qed.
Lemma keeps_depth_deref A (o : option A) : keeps_depth (deref o).
Proof. destruct o; [apply keeps_depth_ret|done]. Qed.
Lemma keeps_depth_shr x n : keeps_depth (c_shr x n).
Proof. unfold c_shr. case_decide; [apply keeps_depth_ret|done]. Qed.
#[local] Hint Resolve keeps_depth_allocate keeps_depth_load keeps_depth_store keeps_depth_ret
  keeps_depth_gets keeps_depth_deref keeps_depth_shr : core.
Ltac keeps := repeat first [solve [eauto] | apply keeps_depth_bind; [solve [eauto]|intros ?]].
Lemma keeps_depth_get_node_loop calloc i index r : keeps_depth (get_node_loop calloc i index r).
Proof.
  revert r. induction i as [|i IH]; intros r; [by intros s a s' [= _ <-]|].
  cbn [get_node_loop]. keeps.
  apply keeps_depth_bind; [|intros ?; keeps]. unfold when. case_match; keeps.
Qed.

(** The tree can hold only [2^28 - 1] timers: asked for element [2^28]
    of a tree of depth 3, [iv_timer_get_node] grows it to depth 4, and from then on
    every call of it, for whatever index, shifts a 32-bit [int] by 35. *)
Theorem iv_timer_get_node_shift_overflow fl calloc s p s' :
  tm_depth s = 3 -> iv_timer_get_node fl calloc timer_limit s = Ok (p, s') ->
  tm_depth s' = 4 /\ forall index, iv_timer_get_node fl calloc index s' = Undef.
Proof.
  intros Hd H. assert (tm_depth s' = 4) as H4.
  { unfold iv_timer_get_node in H. destruct (bind_Ok_inv _ _ _ _ _ H) as (d&s1&[= <- <-]&H1).
    rewrite Hd in H1. destruct (bind_Ok_inv _ _ _ _ _ H1) as (sh&s2&Hsh&H2).
    vm_compute in Hsh. injection Hsh as <- <-. destruct (bind_Ok_inv _ _ _ _ _ H2) as ([]&s3&H3&H5).
    assert (tm_depth s3 = 4) as E3.
    { cbn in H3. destruct (bind_Ok_inv _ _ _ _ _ H3) as ([]&s4&[= <-]&H6).
      unfold get_timer_root, set_timer_root in H6.
      match type of H6 with ?m ?st = _ => enough (keeps_depth m) as K by exact (K _ _ _ H6) end. keeps. }
    rewrite <-E3. unfold get_timer_root in H5. pose proof (keeps_depth_get_node_loop calloc).
    match type of H5 with ?m ?st = _ => enough (keeps_depth m) as K by exact (K _ _ _ H5) end. keeps. }
  split; [done|]. intros index. unfold iv_timer_get_node, c_shr, IV_TIMER_SPLIT_BITS. msimpl.
  rewrite H4. cbn. by rewrite decide_False by lia.
Qed.

Lemma iv_timer_get_node_shift_overflow_witness :
  exists p s', iv_timer_get_node 1 demo_calloc timer_limit
    (mk_tms {[1%positive := {[0 := 1%positive]}]} 3 0 ∅ [] 0 (mk_tsp 0 0) false 0 0 []) = Ok (p, s') /\
  tm_depth s' = 4 /\ forall index, iv_timer_get_node 1 demo_calloc index s' = Undef.
Proof.
  eexists _, _. split; [vm_compute; reflexivity|].
  eapply (iv_timer_get_node_shift_overflow 1 demo_calloc
    (mk_tms {[1%positive := {[0 := 1%positive]}]} 3 0 ∅ [] 0 (mk_tsp 0 0) false 0 0 [])); vm_compute; reflexivity.
Defined.

(** A [timespec] as nanoseconds. *)
Definition ns_of (t : timespec) : Z := tv_sec t * 1000000000 + tv_nsec t.
Definition normal (t : timespec) : Prop := 0 <= tv_nsec t < 1000000000.

(** C31. [to_msec] never makes a poll return early nor more than a millisecond
    late: for a deadline [abs] it returns the time left until then rounded up to
    the next millisecond, 0 when the deadline has passed, one day for anything
    longer, and -1 for no deadline; the result always fits an [int].  The time
    left is counted from the cached time if it is valid and from a new reading of
    the clock otherwise, which it caches.  The deadline and that time are
    normalised, with [tv_nsec] from 0 to 999999999. *)
Theorem to_msec_correct clock_gettime gettimeofday s abs :
  (forall t, abs = Some t -> normal t /\ normal (time_now clock_gettime gettimeofday s)) ->
  exists m s', to_msec clock_gettime gettimeofday abs s = Ok (m, s') /\ -1 <= m <= 86400000 /\
    match abs with
    | None => m = -1 /\ s' = s
    | Some t =>
        let now := time_now clock_gettime gettimeofday s in
        let left := ns_of t - ns_of now in
        tm_time s' = now /\ tm_time_valid s' = true /\
        if decide (left <= 0) then m = 0
        else if decide (left < 86400 * 1000000000) then left <= m * 1000000 < left + 1000000
        else m = 86400000
    end.
Proof.
  intros Ha. unfold to_msec. destruct abs as [t|]; [|by exists (-1), s].
  destruct (Ha t eq_refl) as [Ht Hn]. unfold to_relative.
  destruct (validate_spec clock_gettime gettimeofday s) as (c&r&He).
  set (now := time_now clock_gettime gettimeofday s) in *. clearbody now.
  rewrite bind_assoc. mrun He. set (s1 := mk_tms _ _ _ _ _ _ _ _ _ _ _). rewrite bind_assoc.
  mrun (eq_refl : gets tm_time s1 = Ok (now, s1)).
  unfold normal, ns_of in *. destruct t as [ts tns], now as [ns nns]. cbn in Ht, Hn |- *. cbv zeta.
  destruct (timespec_gt (mk_tsp ts tns) (mk_tsp ns nns)) eqn:Egt.
  - apply timespec_gt_spec in Egt. cbn in Egt.
    set (rel := if tns - nns <? 0 then mk_tsp (ts - ns - 1) (tns - nns + 1000000000) else mk_tsp (ts - ns) (tns - nns)).
    mrun (eq_refl : (mret (Some rel) : M timer_state _) s1 = Ok (Some rel, s1)).
    mrun (@deref_Some timer_state _ rel s1).
    assert (0 <= tv_sec rel /\ 0 <= tv_nsec rel < 1000000000 /\
      tv_sec rel * 1000000000 + tv_nsec rel = ts * 1000000000 + tns - (ns * 1000000000 + nns)) as (?&?&Erel).
    { unfold rel. destruct (Z.ltb_spec (tns - nns) 0); cbn; lia. }
    do 2 eexists; split; [reflexivity|]. rewrite <-Erel. rewrite decide_False by lia.
    destruct (Z.ltb_spec (tv_sec rel) 86400).
    + rewrite decide_True by lia.
      clearbody rel. clear Erel He. generalize dependent rel. intros [a b]. cbn. intros.
      assert (0 <= (b + 999999) / 1000000 <= 1000 /\
        b <= (b + 999999) / 1000000 * 1000000 < b + 1000000) as [??]
        by (Z.to_euclidean_division_equations; lia).
      generalize dependent ((b + 999999) / 1000000). intros q Hq1 Hq2. clear -H H0 H1 Hq1 Hq2.
      split_and!; try done; lia.
    + rewrite decide_False by lia. split_and!; try done; lia.
  - assert (~ (ns < ts \/ (ts = ns /\ nns < tns))) as Hle.
    { intros Hc. apply not_true_iff_false in Egt. apply Egt, timespec_gt_spec. exact Hc. }
    do 2 eexists; split; [reflexivity|]. rewrite decide_True by lia. done.
Qed.

(** The cached time 3 is out of date; the clock says 10 seconds. *)
Lemma to_msec_correct_witness :
  let s := mk_tms ∅ 0 0 ∅ [] 0 (mk_tsp 3 999999999) false 0 0 [] in
  time_now demo_clock demo_timeofday s = mk_tsp 10 0 /\
  exists m s', to_msec demo_clock demo_timeofday (Some (mk_tsp 12 1)) s = Ok (m, s') /\ -1 <= m <= 86400000 /\
    let now := time_now demo_clock demo_timeofday s in
    let left := ns_of (mk_tsp 12 1) - ns_of now in
    tm_time s' = now /\ tm_time_valid s' = true /\
    if decide (left <= 0) then m = 0
    else if decide (left < 86400 * 1000000000) then left <= m * 1000000 < left + 1000000
    else m = 86400000.
Proof.
  intros s. split; [reflexivity|]. apply (to_msec_correct demo_clock demo_timeofday s (Some (mk_tsp 12 1))).
  intros t [= <-]. unfold normal. cbn. lia.
Defined.
