(* ===== verification/Sys.v ===== *)
(** * System calls

    What the components share about the kernel: error numbers, results, and the
    [do { ret = call(); } while (ret < 0 && errno == EINTR)] idiom.  The kernel
    itself is not modelled: each component takes the calls it makes as
    operations on an opaque world [W], with laws that state what the manual
    pages promise. *)

From S2P Require Import Prelude.

Inductive errno := EINTR | EAGAIN | ENOSYS | EPERM | EINVAL | EOTHER.
#[global] Instance errno_eq_dec : EqDecision errno.
Proof. solve_decision. Defined.

(** A call returns a result or fails with an [errno]. *)
Abbreviation sysres A := (A + errno)%type.

Definition failed {A} (r : sysres A) : bool := match r with inl _ => false | inr _ => true end.

(** The retry loop; [fuel] bounds the signals that can interrupt it. *)
Fixpoint retry {S A} (fuel : nat) (call : M S (sysres A)) : M S (sysres A) :=
  match fuel with
  | O => out_of_fuel
  | Datatypes.S fuel =>
      r ← call;
      match r with
      | inr EINTR => retry fuel call
      | _ => mret r
      end
  end.

(** A call that an interruption leaves with fewer signals to come returns from
    the loop, with a result other than [EINTR]. *)
Lemma retry_spec {S A} F (P : S -> Prop) (signals : S -> nat) (call : M S (sysres A)) Q fuel s :
  (forall s, P s -> wp F call s (fun r s' =>
     match r with inr EINTR => P s' /\ signals s' < signals s | _ => Q r s' end)) ->
  P s -> signals s < fuel -> wp F (retry fuel call) s Q.
Proof.
  intros Hc. revert s. induction fuel as [|fuel IH]; intros s HP Hf; [lia|]. cbn [retry].
  wbind. eapply wp_mono; [by apply Hc|]. cbv beta.
  intros [a|[]] s'; try (intros HQ; exact HQ). intros [HP' Hlt]. apply IH; [done|lia].
Qed.
