(* ===== verification/Fd.v ===== *)
(** * File descriptors (iv_fd.c)

    The core of the event library: the objects a client registers, the choice of
    a poll method, and the round that polls and runs the handlers.  A poll
    method is a record of operations, as [struct iv_fd_poll_method] is; the
    kernel and the handlers are parameters. *)

From Stdlib Require Import Ascii.
From S2P Require Import Prelude ISeq Timer Sys.

Local Open Scope Z_scope.

Definition MASKIN : Z := 1.
Definition MASKOUT : Z := 2.
Definition MASKERR : Z := 4.

(** Function pointers. *)
Abbreviation fn := positive.

(** [struct iv_fd_], less the two list cells, which are in [fs_active] and [fs_notify]. *)
Record iv_fd_ := mk_fd {
  fd_fd : Z;
  handler_in : option fn;
  handler_out : option fn;
  handler_err : option fn;
  ready_bands : Z;
  registered : bool;
  wanted_bands : Z;
  registered_bands : Z;
  u_index : Z }.
Definition set_fd_fd (v : Z) (s : iv_fd_) : iv_fd_ :=
  mk_fd v (handler_in s) (handler_out s) (handler_err s) (ready_bands s) (registered s) (wanted_bands s) (registered_bands s) (u_index s).
Definition set_handler_in (v : option fn) (s : iv_fd_) : iv_fd_ :=
  mk_fd (fd_fd s) v (handler_out s) (handler_err s) (ready_bands s) (registered s) (wanted_bands s) (registered_bands s) (u_index s).
Definition set_handler_out (v : option fn) (s : iv_fd_) : iv_fd_ :=
  mk_fd (fd_fd s) (handler_in s) v (handler_err s) (ready_bands s) (registered s) (wanted_bands s) (registered_bands s) (u_index s).
Definition set_handler_err (v : option fn) (s : iv_fd_) : iv_fd_ :=
  mk_fd (fd_fd s) (handler_in s) (handler_out s) v (ready_bands s) (registered s) (wanted_bands s) (registered_bands s) (u_index s).
Definition set_ready_bands (v : Z) (s : iv_fd_) : iv_fd_ :=
  mk_fd (fd_fd s) (handler_in s) (handler_out s) (handler_err s) v (registered s) (wanted_bands s) (registered_bands s) (u_index s).
Definition set_registered (v : bool) (s : iv_fd_) : iv_fd_ :=
  mk_fd (fd_fd s) (handler_in s) (handler_out s) (handler_err s) (ready_bands s) v (wanted_bands s) (registered_bands s) (u_index s).
Definition set_wanted_bands (v : Z) (s : iv_fd_) : iv_fd_ :=
  mk_fd (fd_fd s) (handler_in s) (handler_out s) (handler_err s) (ready_bands s) (registered s) v (registered_bands s) (u_index s).
Definition set_registered_bands (v : Z) (s : iv_fd_) : iv_fd_ :=
  mk_fd (fd_fd s) (handler_in s) (handler_out s) (handler_err s) (ready_bands s) (registered s) (wanted_bands s) v (u_index s).
Definition set_u_index (v : Z) (s : iv_fd_) : iv_fd_ :=
  mk_fd (fd_fd s) (handler_in s) (handler_out s) (handler_err s) (ready_bands s) (registered s) (wanted_bands s) (registered_bands s) v.

(** The methods, in the order [iv_fd_init] considers them. *)
Inductive method_name := MPortTimer | MPort | MDevPoll | MEpollTimerfd | MEpoll | MKqueue | MPpoll | MPoll.
#[global] Instance method_name_eq_dec : EqDecision method_name.
Proof. solve_decision. Defined.

(** What the client observes: a handler of an object runs ([o] is the object as
    it is then), or the handlers of pending events run (iv_event.c). *)
Inductive activation := ARun (f : loc) (band : Z) (o : iv_fd_) | AEvents.

(** The calls a client makes: from its own code between rounds, or from handlers. *)
Inductive fd_call :=
  | FInit (f : loc)
  | FAssign (f : loc) (num : Z) (hin hout herr : option fn)
  | FFree (f : loc)
  | FRegister (f : loc)
  | FRegisterTry (f : loc)
  | FUnregister (f : loc)
  | FSetIn (f : loc) (h : option fn)
  | FSetOut (f : loc) (h : option fn)
  | FSetErr (f : loc) (h : option fn).

(** The parts of [struct iv_state] this file uses; [P] is the private state of
    the poll methods, [W] the kernel. *)
Record fd_state (P W : Type) := mk_fs {
  fs_fds : gmap loc iv_fd_;
  fs_active : iseq;
  fs_notify : iseq;
  fs_numobjs : Z;
  fs_numfds : Z;
  fs_handled : ptr;
  fs_last_abs : timespec;
  fs_last_count : Z;
  fs_method : option method_name;
  fs_pm : P;
  fs_timer : timer_state;
  fs_w : W;
  fs_ran : list activation }.
Arguments mk_fs {_} {_}.
Arguments fs_fds {_} {_} _.
Arguments fs_active {_} {_} _.
Arguments fs_notify {_} {_} _.
Arguments fs_numobjs {_} {_} _.
Arguments fs_numfds {_} {_} _.
Arguments fs_handled {_} {_} _.
Arguments fs_last_abs {_} {_} _.
Arguments fs_last_count {_} {_} _.
Arguments fs_method {_} {_} _.
Arguments fs_pm {_} {_} _.
Arguments fs_timer {_} {_} _.
Arguments fs_w {_} {_} _.
Arguments fs_ran {_} {_} _.
Definition set_fs_fds {P W : Type} (v : gmap loc iv_fd_) (s : fd_state P W) : fd_state P W :=
  mk_fs v (fs_active s) (fs_notify s) (fs_numobjs s) (fs_numfds s) (fs_handled s) (fs_last_abs s) (fs_last_count s) (fs_method s) (fs_pm s) (fs_timer s) (fs_w s) (fs_ran s).
Definition set_fs_active {P W : Type} (v : iseq) (s : fd_state P W) : fd_state P W :=
  mk_fs (fs_fds s) v (fs_notify s) (fs_numobjs s) (fs_numfds s) (fs_handled s) (fs_last_abs s) (fs_last_count s) (fs_method s) (fs_pm s) (fs_timer s) (fs_w s) (fs_ran s).
Definition set_fs_notify {P W : Type} (v : iseq) (s : fd_state P W) : fd_state P W :=
  mk_fs (fs_fds s) (fs_active s) v (fs_numobjs s) (fs_numfds s) (fs_handled s) (fs_last_abs s) (fs_last_count s) (fs_method s) (fs_pm s) (fs_timer s) (fs_w s) (fs_ran s).
Definition set_fs_numobjs {P W : Type} (v : Z) (s : fd_state P W) : fd_state P W :=
  mk_fs (fs_fds s) (fs_active s) (fs_notify s) v (fs_numfds s) (fs_handled s) (fs_last_abs s) (fs_last_count s) (fs_method s) (fs_pm s) (fs_timer s) (fs_w s) (fs_ran s).
Definition set_fs_numfds {P W : Type} (v : Z) (s : fd_state P W) : fd_state P W :=
  mk_fs (fs_fds s) (fs_active s) (fs_notify s) (fs_numobjs s) v (fs_handled s) (fs_last_abs s) (fs_last_count s) (fs_method s) (fs_pm s) (fs_timer s) (fs_w s) (fs_ran s).
Definition set_fs_handled {P W : Type} (v : ptr) (s : fd_state P W) : fd_state P W :=
  mk_fs (fs_fds s) (fs_active s) (fs_notify s) (fs_numobjs s) (fs_numfds s) v (fs_last_abs s) (fs_last_count s) (fs_method s) (fs_pm s) (fs_timer s) (fs_w s) (fs_ran s).
Definition set_fs_last_abs {P W : Type} (v : timespec) (s : fd_state P W) : fd_state P W :=
  mk_fs (fs_fds s) (fs_active s) (fs_notify s) (fs_numobjs s) (fs_numfds s) (fs_handled s) v (fs_last_count s) (fs_method s) (fs_pm s) (fs_timer s) (fs_w s) (fs_ran s).
Definition set_fs_last_count {P W : Type} (v : Z) (s : fd_state P W) : fd_state P W :=
  mk_fs (fs_fds s) (fs_active s) (fs_notify s) (fs_numobjs s) (fs_numfds s) (fs_handled s) (fs_last_abs s) v (fs_method s) (fs_pm s) (fs_timer s) (fs_w s) (fs_ran s).
Definition set_fs_method {P W : Type} (v : option method_name) (s : fd_state P W) : fd_state P W :=
  mk_fs (fs_fds s) (fs_active s) (fs_notify s) (fs_numobjs s) (fs_numfds s) (fs_handled s) (fs_last_abs s) (fs_last_count s) v (fs_pm s) (fs_timer s) (fs_w s) (fs_ran s).
Definition set_fs_pm {P W : Type} (v : P) (s : fd_state P W) : fd_state P W :=
  mk_fs (fs_fds s) (fs_active s) (fs_notify s) (fs_numobjs s) (fs_numfds s) (fs_handled s) (fs_last_abs s) (fs_last_count s) (fs_method s) v (fs_timer s) (fs_w s) (fs_ran s).
Definition set_fs_timer {P W : Type} (v : timer_state) (s : fd_state P W) : fd_state P W :=
  mk_fs (fs_fds s) (fs_active s) (fs_notify s) (fs_numobjs s) (fs_numfds s) (fs_handled s) (fs_last_abs s) (fs_last_count s) (fs_method s) (fs_pm s) v (fs_w s) (fs_ran s).
Definition set_fs_w {P W : Type} (v : W) (s : fd_state P W) : fd_state P W :=
  mk_fs (fs_fds s) (fs_active s) (fs_notify s) (fs_numobjs s) (fs_numfds s) (fs_handled s) (fs_last_abs s) (fs_last_count s) (fs_method s) (fs_pm s) (fs_timer s) v (fs_ran s).
Definition set_fs_ran {P W : Type} (v : list activation) (s : fd_state P W) : fd_state P W :=
  mk_fs (fs_fds s) (fs_active s) (fs_notify s) (fs_numobjs s) (fs_numfds s) (fs_handled s) (fs_last_abs s) (fs_last_count s) (fs_method s) (fs_pm s) (fs_timer s) (fs_w s) v.

(** ** The calls of iv_fd.c into the kernel

    [configured] says which methods the library was built with ([HAVE_EPOLL_CREATE]
    and the like); poll is always there. *)
Class FdKernel (W : Type) := {
  configured : method_name -> bool;
  sys_close : Z -> W -> W;
  sys_getfd : Z -> W -> Z * W;
  sys_setfd : Z -> Z -> W -> W;
  sys_getfl : Z -> W -> Z * W;
  sys_setfl : Z -> Z -> W -> W;
  FD_CLOEXEC : Z;
  O_NONBLOCK : Z;
  sys_oobinline : Z -> W -> W;
  sys_getrlimit : W -> Z * Z;
  sys_setrlimit : Z * Z -> W -> bool * W;
  sys_geteuid : W -> Z;
  sys_getuid : W -> Z;
  sys_getenv : W -> option (list ascii);
  sys_ignore_signals : W -> W }.

(** ** Poll methods: [struct iv_fd_poll_method] *)
Record iv_fd_poll_method (St : Type) := mk_pm {
  pm_name : list ascii;
  pm_init : M St bool;
  pm_set_poll_timeout : option (option timespec -> M St bool);
  pm_clear_poll_timeout : M St unit;
  pm_poll : option timespec -> M St bool;
  pm_register_fd : option (loc -> M St unit);
  pm_unregister_fd : option (loc -> M St unit);
  pm_notify_fd : loc -> M St unit;
  pm_notify_fd_sync : loc -> M St Z;
  pm_deinit : M St unit }.
Arguments mk_pm {_}.
Arguments pm_name {_} _.
Arguments pm_init {_} _.
Arguments pm_set_poll_timeout {_} _.
Arguments pm_clear_poll_timeout {_} _.
Arguments pm_poll {_} _.
Arguments pm_register_fd {_} _.
Arguments pm_unregister_fd {_} _.
Arguments pm_notify_fd {_} _.
Arguments pm_notify_fd_sync {_} _.
Arguments pm_deinit {_} _.

(** ** The environment variable IV_EXCLUDE_POLL_METHOD *)
Definition is_space (c : ascii) : bool :=
  bool_decide (c ∈ [" "; "009"; "010"; "011"; "012"; "013"]%char).
Fixpoint skip_space (s : list ascii) : list ascii :=
  match s with c :: s' => if is_space c then skip_space s' else s | [] => [] end.
(** Up to [n] characters that are not white space, and the rest. *)
Fixpoint span_word (n : nat) (s : list ascii) : list ascii * list ascii :=
  match n, s with
  | Datatypes.S n, c :: s' =>
      if is_space c then ([], s) else let '(w, r) := span_word n s' in (c :: w, r)
  | _, _ => ([], s)
  end.
(** [sscanf(exclude, "%63s%n", method_name, &len)]: the word read and what is left. *)
Definition sscanf_word (s : list ascii) : option (list ascii * list ascii) :=
  match span_word 63 (skip_space s) with ([], _) => None | wr => Some wr end.

Fixpoint excluded_loop (fuel : nat) (exclude name : list ascii) : bool :=
  match fuel with
  | O => false
  | Datatypes.S fuel =>
      match sscanf_word exclude with
      | None => false
      | Some (w, rest) => if bool_decide (name = w) then true else excluded_loop fuel rest name
      end
  end.
Definition method_is_excluded (exclude : option (list ascii)) (name : list ascii) : bool :=
  match exclude with None => false | Some e => excluded_loop (Datatypes.S (length e)) e name end.

Section fd.
Context {P W : Type} `{!FdKernel W}.
Abbreviation St := (fd_state P W).
Abbreviation method := (iv_fd_poll_method St).

(** What the names in [fs_method] stand for, and the handlers of the client:
    the calls the next handler makes, given what has run before. *)
Context (method_of : method_name -> method) (handler : list activation -> list fd_call).
(** Extra conditions of the client's contract (see [legal_fd_call]). *)
Context (legal : fd_call -> St -> bool).

(** *** State access *)
Definition load_fd (f : loc) : M St iv_fd_ := fs ← gets fs_fds; deref (fs !! f).
Definition upd_fd (f : loc) (g : iv_fd_ -> iv_fd_) : M St unit :=
  o ← load_fd f; modify (fun s => set_fs_fds (<[f := g o]> (fs_fds s)) s).
Definition kernel {A} (call : W -> A * W) : M St A := fun s =>
  let '(a, w) := call (fs_w s) in Ok (a, set_fs_w w s).
Definition kernel_ (call : W -> W) : M St unit := kernel (fun w => (tt, call w)).
Definition on_timer {A} (m : M timer_state A) : M St A := fun s =>
  match m (fs_timer s) with
  | Ok (a, t) => Ok (a, set_fs_timer t s)
  | Fatal e => Fatal e | Undef => Undef | OutOfFuel => OutOfFuel
  end.
Definition on_active (step : iseq -> option iseq) : M St unit :=
  q ← gets fs_active; q ← deref (step q); modify (set_fs_active q).
Definition on_notify (step : iseq -> option iseq) : M St unit :=
  q ← gets fs_notify; q ← deref (step q); modify (set_fs_notify q).
Definition log_ran (a : activation) : M St unit :=
  modify (fun s => set_fs_ran (fs_ran s ++ [a]) s).
(** [while (!iv_list_empty(&st->u.<method>.notify)) one(first);] every turn takes one off. *)
Fixpoint drain_notify {B} (one : B -> loc -> M St B) (fuel : nat) (b : B) : M St B :=
  match fuel with
  | O => out_of_fuel
  | Datatypes.S fuel =>
      q ← gets fs_notify;
      match members q with
      | [] => mret b
      | f :: _ => b ← one b f; drain_notify one fuel b
      end
  end.
Definition the_method : M St method :=
  m ← gets fs_method; m ← deref m; mret (method_of m).

(** *** Internal use *)
Fixpoint setrlimit_loop (fuel : nat) (rlim_initial cur max : Z) : M St unit :=
  match fuel with
  | O => out_of_fuel
  | Datatypes.S fuel =>
      if negb (rlim_initial <? cur) then mret tt
      else
        ok ← kernel (sys_setrlimit (cur, max));
        if ok : bool then mret tt else setrlimit_loop fuel rlim_initial (cur / 2) (max / 2)
  end.

Definition sanitise_nofile_rlimit (euid : Z) : M St unit :=
  lim ← gets (fun s => sys_getrlimit (fs_w s));
  let '(cur, max) := lim : Z * Z in
  if 2 ^ 31 - 1 <=? cur then mret tt
  else if euid =? 0 then setrlimit_loop 20 cur 131072 131072
  else if cur <? max then
    let cur := Z.land max 0x7fffffff in
    let cur := if 131072 <? cur then 131072 else cur in
    kernel (sys_setrlimit (cur, max));; mret tt
  else mret tt.

Definition consider_poll_method (exclude : option (list ascii)) (m : method_name) : M St unit :=
  cur ← gets fs_method;
  when (bool_decide (cur = None) && negb (method_is_excluded exclude (pm_name (method_of m)))) (
    ok ← pm_init (method_of m);
    when ok (modify (set_fs_method (Some m)))).

Definition iv_fd_init_first_thread : M St unit :=
  euid ← gets (fun s => sys_geteuid (fs_w s));
  kernel_ sys_ignore_signals;;
  sanitise_nofile_rlimit euid;;
  exclude ← gets (fun s => sys_getenv (fs_w s));
  uid ← gets (fun s => sys_getuid (fs_w s));
  let exclude := if negb (uid =? euid) then None else exclude in
  when (configured MPortTimer) (consider_poll_method exclude MPortTimer);;
  when (configured MPort) (consider_poll_method exclude MPort);;
  when (configured MDevPoll) (consider_poll_method exclude MDevPoll);;
  when (configured MEpollTimerfd) (consider_poll_method exclude MEpollTimerfd);;
  when (configured MEpoll) (consider_poll_method exclude MEpoll);;
  when (configured MKqueue) (consider_poll_method exclude MKqueue);;
  when (configured MPpoll) (consider_poll_method exclude MPpoll);;
  consider_poll_method exclude MPoll;;
  m ← gets fs_method;
  if bool_decide (m = None) then iv_fatal "iv_init: can't find suitable event dispatcher" else mret tt.

Definition iv_fd_init : M St unit :=
  m ← gets fs_method;
  match m with
  | None => iv_fd_init_first_thread
  | Some m =>
      ok ← pm_init (method_of m);
      if negb ok then iv_fatal "iv_init: can't initialize event dispatcher" else mret tt
  end;;
  modify (set_fs_handled None).

Definition iv_fd_deinit : M St unit := m ← the_method; pm_deinit m.

Definition iv_fd_make_ready (f : loc) (bands : Z) : M St unit :=
  q ← gets fs_active;
  unlinked ← deref (iq_unlinked f q);
  when unlinked (
    upd_fd f (set_ready_bands 0);;
    on_active (iq_add_tail f));;
  upd_fd f (fun o => set_ready_bands (Z.lor (ready_bands o) bands) o).

Definition iv_fd_set_cloexec (fd : Z) : M St unit :=
  flags ← kernel (sys_getfd fd);
  when (Z.land flags FD_CLOEXEC =? 0) (kernel_ (sys_setfd fd (Z.lor flags FD_CLOEXEC))).
Definition iv_fd_set_nonblock (fd : Z) : M St unit :=
  flags ← kernel (sys_getfl fd);
  when (Z.land flags O_NONBLOCK =? 0) (kernel_ (sys_setfl fd (Z.lor flags O_NONBLOCK))).

(** *** Public use *)
Definition iv_poll_method_name : M St (option (list ascii)) :=
  m ← gets fs_method; mret ((fun m => pm_name (method_of m)) <$> m).

Definition IV_FD_INIT (f : loc) : M St unit :=
  modify (fun s => set_fs_fds (<[f := mk_fd (-1) None None None 0 false 0 0 0]> (fs_fds s)) s).

Definition wanted_flags (o : iv_fd_) : Z :=
  if registered o then
    Z.lor (Z.lor (if handler_in o is Some _ then MASKIN else 0) (if handler_out o is Some _ then MASKOUT else 0))
      (if handler_err o is Some _ then MASKERR else 0)
  else 0.
Definition recompute_wanted_flags (f : loc) : M St unit :=
  upd_fd f (fun o => set_wanted_bands (wanted_flags o) o).

Definition notify_fd (f : loc) : M St unit :=
  recompute_wanted_flags f;; m ← the_method; pm_notify_fd m f.

Definition iv_fd_register_prologue (f : loc) : M St unit :=
  o ← load_fd f;
  if registered o then iv_fatal "iv_fd_register: called with fd which is still registered"
  else if fd_fd o <? 0 then iv_fatal "iv_fd_register: called with invalid fd"
  else
    upd_fd f (set_registered true);;
    on_active (iq_init f);;
    upd_fd f (set_ready_bands 0);;
    upd_fd f (set_registered_bands 0);;
    on_notify (iq_init f);;
    m ← the_method;
    match pm_register_fd m with Some register_fd => register_fd f | None => mret tt end.

Definition iv_fd_register_epilogue (f : loc) : M St unit :=
  modify (fun s => set_fs_numobjs (fs_numobjs s + 1) s);;
  modify (fun s => set_fs_numfds (fs_numfds s + 1) s);;
  o ← load_fd f;
  iv_fd_set_cloexec (fd_fd o);;
  iv_fd_set_nonblock (fd_fd o);;
  kernel_ (sys_oobinline (fd_fd o)).

Definition iv_fd_register (f : loc) : M St unit :=
  iv_fd_register_prologue f;; notify_fd f;; iv_fd_register_epilogue f.

Definition iv_fd_register_try (f : loc) : M St Z :=
  iv_fd_register_prologue f;;
  recompute_wanted_flags f;;
  o ← load_fd f;
  let orig_wanted_bands := wanted_bands o in
  when (orig_wanted_bands =? 0) (upd_fd f (set_wanted_bands (Z.lor MASKIN MASKOUT)));;
  ret ← (m ← the_method; pm_notify_fd_sync m f);
  if negb (ret =? 0) then
    upd_fd f (set_registered false);;
    (m ← the_method;
     match pm_unregister_fd m with Some unregister_fd => unregister_fd f | None => mret tt end);;
    mret ret
  else
    when (orig_wanted_bands =? 0)
      (upd_fd f (set_wanted_bands 0);; m ← the_method; pm_notify_fd m f);;
    iv_fd_register_epilogue f;;
    mret 0.

Definition iv_fd_unregister (f : loc) : M St unit :=
  o ← load_fd f;
  if negb (registered o) then iv_fatal "iv_fd_unregister: called with fd which is not registered"
  else
    upd_fd f (set_registered false);;
    on_active (iq_del f);;
    notify_fd f;;
    (m ← the_method;
     match pm_unregister_fd m with Some unregister_fd => unregister_fd f | None => mret tt end);;
    modify (fun s => set_fs_numobjs (fs_numobjs s - 1) s);;
    modify (fun s => set_fs_numfds (fs_numfds s - 1) s);;
    h ← gets fs_handled;
    when (ptr_eqb h (Some f)) (modify (set_fs_handled None)).

Definition iv_fd_registered (f : loc) : M St bool := o ← load_fd f; mret (registered o).

Definition iv_fd_set_handler_in (f : loc) (h : option fn) : M St unit :=
  o ← load_fd f;
  if negb (registered o) then iv_fatal "iv_fd_set_handler_in: called with fd which is not registered"
  else upd_fd f (set_handler_in h);; notify_fd f.
Definition iv_fd_set_handler_out (f : loc) (h : option fn) : M St unit :=
  o ← load_fd f;
  if negb (registered o) then iv_fatal "iv_fd_set_handler_out: called with fd which is not registered"
  else upd_fd f (set_handler_out h);; notify_fd f.
Definition iv_fd_set_handler_err (f : loc) (h : option fn) : M St unit :=
  o ← load_fd f;
  if negb (registered o) then iv_fatal "iv_fd_set_handler_err: called with fd which is not registered"
  else upd_fd f (set_handler_err h);; notify_fd f.

(** *** The client

    The client initialises, fills in, and may free its objects.  What the API
    forbids (touching a registered object directly, using memory that is not an
    object, and what [legal] adds) ends the run, as a breach of contract. *)
Definition legal_fd_call (c : fd_call) (s : St) : bool :=
  match c with
  | FInit f => match fs_fds s !! f with Some o => negb (registered o) | None => true end
  | FAssign f _ _ _ _ | FFree f =>
      match fs_fds s !! f with Some o => negb (registered o) | None => false end
  | FRegister f | FRegisterTry f | FUnregister f | FSetIn f _ | FSetOut f _ | FSetErr f _ =>
      bool_decide (is_Some (fs_fds s !! f))
  end && legal c s.

(** [free(f)]: the cells of the object go with it. *)
Definition free_fd (f : loc) : M St unit :=
  modify (fun s => set_fs_fds (delete f (fs_fds s)) s);;
  on_active (fun q => if decide (f ∈ members q) then None else Some (mk_iseq (members q) (idle q ∖ {[f]})));;
  on_notify (fun q => if decide (f ∈ members q) then None else Some (mk_iseq (members q) (idle q ∖ {[f]}))).

Definition run_fd_call (c : fd_call) : M St unit :=
  ok ← gets (legal_fd_call c);
  if negb ok then iv_fatal "breach of the client's contract" else
  match c with
  | FInit f => IV_FD_INIT f
  | FAssign f num hin hout herr =>
      upd_fd f (fun o => mk_fd num hin hout herr (ready_bands o) (registered o) (wanted_bands o)
                           (registered_bands o) (u_index o))
  | FFree f => free_fd f
  | FRegister f => iv_fd_register f
  | FRegisterTry f => iv_fd_register_try f;; mret tt
  | FUnregister f => iv_fd_unregister f
  | FSetIn f h => iv_fd_set_handler_in f h
  | FSetOut f h => iv_fd_set_handler_out f h
  | FSetErr f h => iv_fd_set_handler_err f h
  end.
Fixpoint run_fd_calls (cs : list fd_call) : M St unit :=
  match cs with [] => mret tt | c :: cs => run_fd_call c;; run_fd_calls cs end.

(** A handler runs: it is recorded, and makes its calls. *)
Definition activate (a : activation) : M St unit :=
  ran ← gets fs_ran; log_ran a;; run_fd_calls (handler ran).

(** *** Polling *)
Definition timespec_cmp (a : option timespec) (b : timespec) : Z :=
  match a with
  | Some a =>
      if tv_sec a <? tv_sec b then -1
      else if tv_sec b <? tv_sec a then 1
      else if tv_nsec a <? tv_nsec b then -1
      else if tv_nsec b <? tv_nsec a then 1
      else 0
  | None => 1
  end.

Definition iv_fd_timeout_check (abs : option timespec) : M St bool :=
  m ← the_method;
  last ← gets fs_last_abs;
  let cmp := timespec_cmp abs last in
  count ← gets fs_last_count;
  if (count =? 5) && (0 <=? cmp) then mret true
  else
    when (count =? 5) (pm_clear_poll_timeout m);;
    if cmp =? 0 then
      when (count <? 5) (modify (set_fs_last_count (count + 1)));;
      count ← gets fs_last_count;
      if count =? 5 then
        set_poll_timeout ← deref (pm_set_poll_timeout m);
        set_poll_timeout abs
      else mret false
    else
      match abs with
      | Some a => modify (set_fs_last_count 1);; modify (set_fs_last_abs a);; mret false
      | None => modify (set_fs_last_count 0);; mret false
      end.

(** One band of one object: [if (fd->ready_bands & mask) if (handler != NULL) handler(cookie);] *)
Definition run_band (f : loc) (mask : Z) (handler_of : iv_fd_ -> option fn) : M St unit :=
  o ← load_fd f;
  when (has (ready_bands o) mask)
    (when (bool_decide (is_Some (handler_of o))) (activate (ARun f mask o))).
(** The same under [st->handled_fd != NULL]. *)
Definition run_band_handled (f : loc) (mask : Z) (handler_of : iv_fd_ -> option fn) : M St unit :=
  h ← gets fs_handled;
  when (negb (is_null h)) (run_band f mask handler_of).

Fixpoint active_loop (fuel : nat) : M St unit :=
  match fuel with
  | O => out_of_fuel
  | Datatypes.S fuel =>
      q ← gets fs_active;
      match members q with
      | [] => mret tt
      | f :: _ =>
          on_active (iq_del_init f);;
          modify (set_fs_handled (Some f));;
          run_band f MASKERR handler_err;;
          run_band_handled f MASKIN handler_in;;
          run_band_handled f MASKOUT handler_out;;
          active_loop fuel
      end
  end.

Definition iv_fd_poll_and_run (abs : option timespec) : M St bool :=
  modify (fun s => set_fs_active (mk_iseq [] (idle (fs_active s))) s);;
  m ← the_method;
  armed ← match pm_set_poll_timeout m with
          | Some _ => iv_fd_timeout_check abs
          | None => mret false
          end;
  run_timers ← (if armed : bool then
      run_timers ← (m ← the_method; pm_poll m None);
      when run_timers (modify (set_fs_last_count 0));;
      mret run_timers
    else m ← the_method; pm_poll m abs);
  q ← gets fs_active;
  active_loop (Datatypes.S (length (members q)));;
  mret run_timers.
End fd.
