(* ===== verification/PmState.v ===== *)
(** * The private state of the poll methods

    The union [u] of [struct iv_state] (iv_private_posix.h) and the static
    variables of the poll method files. *)

From S2P Require Import Prelude Timer Sys.

Local Open Scope Z_scope.

(** [struct pollfd] *)
Record pollfd := mk_pfd {
  pfd_fd : Z;
  pfd_events : Z;
  pfd_revents : Z }.
Definition set_pfd_fd (v : Z) (s : pollfd) : pollfd :=
  mk_pfd v (pfd_events s) (pfd_revents s).
Definition set_pfd_events (v : Z) (s : pollfd) : pollfd :=
  mk_pfd (pfd_fd s) v (pfd_revents s).
Definition set_pfd_revents (v : Z) (s : pollfd) : pollfd :=
  mk_pfd (pfd_fd s) (pfd_events s) v.

(** [u.poll]: the two arrays, by index, and the number of entries in use. *)
Record poll_state := mk_ps {
  pfds : gmap Z pollfd;
  fds : gmap Z loc;
  num_regd_fds : Z }.
Definition set_pfds (v : gmap Z pollfd) (s : poll_state) : poll_state :=
  mk_ps v (fds s) (num_regd_fds s).
Definition set_fds (v : gmap Z loc) (s : poll_state) : poll_state :=
  mk_ps (pfds s) v (num_regd_fds s).
Definition set_num_regd_fds (v : Z) (s : poll_state) : poll_state :=
  mk_ps (pfds s) (fds s) v.

(** [u.epoll] *)
Record epoll_state := mk_es {
  epoll_fd : Z;
  timer_fd : Z }.
Definition set_epoll_fd (v : Z) (s : epoll_state) : epoll_state :=
  mk_es v (timer_fd s).
Definition set_timer_fd (v : Z) (s : epoll_state) : epoll_state :=
  mk_es (epoll_fd s) v.

(** [u.kqueue]; the [timeout] field is a deadline of the caller's, or NULL. *)
Record kqueue_state := mk_kq {
  kqueue_fd : Z;
  timeout_pending : bool;
  kq_timeout : option timespec }.
Definition set_kqueue_fd (v : Z) (s : kqueue_state) : kqueue_state :=
  mk_kq v (timeout_pending s) (kq_timeout s).
Definition set_timeout_pending (v : bool) (s : kqueue_state) : kqueue_state :=
  mk_kq (kqueue_fd s) v (kq_timeout s).
Definition set_kq_timeout (v : option timespec) (s : kqueue_state) : kqueue_state :=
  mk_kq (kqueue_fd s) (timeout_pending s) v.

(** [u.dev_poll]: the descriptor, and the AVL tree of objects by descriptor, as the map
    that AvlSearch.v shows it to be ([iv_fd_avl_is_map]). *)
Record dev_poll_state := mk_dp {
  dp_poll_fd : Z;
  dp_fds : gmap Z loc }.
Definition set_dp_poll_fd (v : Z) (s : dev_poll_state) : dev_poll_state :=
  mk_dp v (dp_fds s).
Definition set_dp_fds (v : gmap Z loc) (s : dev_poll_state) : dev_poll_state :=
  mk_dp (dp_poll_fd s) v.

(** [u.port] *)
Record port_state := mk_port {
  port_fd : Z;
  timer_id : Z }.
Definition set_port_fd (v : Z) (s : port_state) : port_state :=
  mk_port v (timer_id s).
Definition set_timer_id (v : Z) (s : port_state) : port_state :=
  mk_port (port_fd s) v.

(** The union: at any time the state of one kind of method. *)
Inductive pm_union := UNone | UPoll (p : poll_state) | UEpoll (e : epoll_state)
  | UKqueue (k : kqueue_state) | UDevPoll (d : dev_poll_state) | UPort (p : port_state).

(** The static variables of iv_fd_epoll.c and of the eventfd-linux.h it includes. *)
Record epoll_static := mk_eg {
  epoll_support : Z;
  epoll_pwait2_support : bool;
  iv_active_fd_refcount : Z;
  iv_active_fd : Z;
  eventfd_in_use : Z }.
Definition set_epoll_support (v : Z) (s : epoll_static) : epoll_static :=
  mk_eg v (epoll_pwait2_support s) (iv_active_fd_refcount s) (iv_active_fd s) (eventfd_in_use s).
Definition set_epoll_pwait2_support (v : bool) (s : epoll_static) : epoll_static :=
  mk_eg (epoll_support s) v (iv_active_fd_refcount s) (iv_active_fd s) (eventfd_in_use s).
Definition set_iv_active_fd_refcount (v : Z) (s : epoll_static) : epoll_static :=
  mk_eg (epoll_support s) (epoll_pwait2_support s) v (iv_active_fd s) (eventfd_in_use s).
Definition set_iv_active_fd (v : Z) (s : epoll_static) : epoll_static :=
  mk_eg (epoll_support s) (epoll_pwait2_support s) (iv_active_fd_refcount s) v (eventfd_in_use s).
Definition set_eventfd_in_use (v : Z) (s : epoll_static) : epoll_static :=
  mk_eg (epoll_support s) (epoll_pwait2_support s) (iv_active_fd_refcount s) (iv_active_fd s) v.

Record pm_state := mk_pms {
  pm_u : pm_union;
  pm_static : epoll_static }.
Definition set_pm_u (v : pm_union) (s : pm_state) : pm_state :=
  mk_pms v (pm_static s).
Definition set_pm_static (v : epoll_static) (s : pm_state) : pm_state :=
  mk_pms (pm_u s) v.

(** The initial values of the static variables. *)
Definition pm_boot : pm_state := mk_pms UNone (mk_eg 2 true 0 0 2).
