(* ===== verification/FdPoll.v ===== *)
(** * The poll and ppoll methods (iv_fd_poll.c)

    The set of descriptors to wait for is an array of [struct pollfd], and a
    parallel array of the objects they stand for; an object knows its index. *)

From Stdlib Require Import Ascii String.
From S2P Require Import Prelude ISeq Timer Sys Fd PmState.

Local Open Scope Z_scope.

Definition IV_FD_POLL_MAXFD : Z := 65536.

(** The event bits of poll(2). *)
Definition POLLIN : Z := 1.
Definition POLLOUT : Z := 4.
Definition POLLERR : Z := 8.
Definition POLLHUP : Z := 16.
Definition POLLNVAL : Z := 32.

(** The calls into the kernel: an array of (descriptor, events), and the
    [revents] of each entry. *)
Class PollKernel (W : Type) := {
  sys_malloc : W -> bool * W;
  sys_poll : list (Z * Z) -> Z -> W -> sysres (list Z) * W;
  sys_ppoll : list (Z * Z) -> option timespec -> W -> sysres (list Z) * W;
  poll_signals : W -> nat }.

Section poll.
Context {W : Type} `{!FdKernel W, !PollKernel W}.
Context (clock_gettime : nat -> clockid -> option timespec) (gettimeofday : nat -> Z * Z).
Abbreviation St := (fd_state pm_state W).

Definition load_ps : M St poll_state :=
  u ← gets (fun s => pm_u (fs_pm s)); match u with UPoll p => mret p | _ => undef end.
Definition store_u (u : pm_union) : M St unit :=
  modify (fun s => set_fs_pm (set_pm_u u (fs_pm s)) s).
Definition upd_ps (g : poll_state -> poll_state) : M St unit := p ← load_ps; store_u (UPoll (g p)).

(** Accesses of the arrays, with their bounds: malloc'ed memory that was not
    written yet holds no element. *)
Definition in_array (i : Z) : M St unit :=
  if decide (0 <= i < IV_FD_POLL_MAXFD) then mret tt else undef.
Definition load_pfd (i : Z) : M St pollfd := in_array i;; p ← load_ps; deref (pfds p !! i).
Definition load_pobj (i : Z) : M St loc := in_array i;; p ← load_ps; deref (fds p !! i).
Definition upd_pfd (i : Z) (g : pollfd -> pollfd) : M St unit :=
  in_array i;;
  upd_ps (fun p => set_pfds (<[i := g (default (mk_pfd 0 0 0) (pfds p !! i))]> (pfds p)) p).
Definition store_pobj (i : Z) (f : loc) : M St unit :=
  in_array i;; upd_ps (fun p => set_fds (<[i := f]> (fds p)) p).

Definition iv_fd_poll_init : M St bool :=
  ok ← kernel sys_malloc;
  if negb ok then mret false
  else
    ok ← kernel sys_malloc;
    if negb ok then mret false
    else store_u (UPoll (mk_ps ∅ ∅ 0));; mret true.

Fixpoint activate_loop (n : nat) (i : Z) : M St unit :=
  match n with
  | O => mret tt
  | Datatypes.S n =>
      f ← load_pobj i;
      e ← load_pfd i;
      let revents := pfd_revents e in
      when (has revents (Z.lor (Z.lor POLLIN POLLERR) POLLHUP)) (iv_fd_make_ready f MASKIN);;
      when (has revents (Z.lor (Z.lor POLLOUT POLLERR) POLLHUP)) (iv_fd_make_ready f MASKOUT);;
      when (has revents (Z.lor POLLERR POLLHUP)) (iv_fd_make_ready f MASKERR);;
      activate_loop n (i + 1)
  end.
Definition iv_fd_poll_activate_fds : M St unit :=
  p ← load_ps; activate_loop (Z.to_nat (num_regd_fds p)) 0.

(** The array handed to the kernel, and the [revents] it stores. *)
Fixpoint read_array (n : nat) (i : Z) : M St (list (Z * Z)) :=
  match n with
  | O => mret []
  | Datatypes.S n =>
      e ← load_pfd i; l ← read_array n (i + 1); mret ((pfd_fd e, pfd_events e) :: l)
  end.
Fixpoint store_revents (i : Z) (l : list Z) : M St unit :=
  match l with
  | [] => mret tt
  | r :: l => upd_pfd i (set_pfd_revents r);; store_revents (i + 1) l
  end.

(** What follows the system call in both poll functions, [EINTR] included. *)
Definition iv_fd_poll_poll (abs : option timespec) : M St bool :=
  p ← load_ps;
  a ← read_array (Z.to_nat (num_regd_fds p)) 0;
  msec ← on_timer (to_msec clock_gettime gettimeofday abs);
  ret ← kernel (sys_poll a msec);
  on_timer iv_invalidate_now;;
  match ret with
  | inr EINTR => mret true
  | inr _ => iv_fatal "iv_fd_poll_poll: got error"
  | inl revents => store_revents 0 revents;; iv_fd_poll_activate_fds;; mret true
  end.

Definition iv_fd_poll_ppoll (abs : option timespec) : M St bool :=
  p ← load_ps;
  a ← read_array (Z.to_nat (num_regd_fds p)) 0;
  rel ← on_timer (to_relative clock_gettime gettimeofday abs);
  ret ← kernel (sys_ppoll a rel);
  on_timer iv_invalidate_now;;
  match ret with
  | inr EINTR => mret true
  | inr ENOSYS => modify (set_fs_method (Some MPoll));; iv_fd_poll_poll abs
  | inr _ => iv_fatal "iv_fd_poll_ppoll: got error"
  | inl revents => store_revents 0 revents;; iv_fd_poll_activate_fds;; mret true
  end.

Definition iv_fd_poll_register_fd (f : loc) : M St unit :=
  o ← load_fd f;
  if IV_FD_POLL_MAXFD <=? fd_fd o then iv_fatal "iv_fd_poll_register_fd: called with too large an fd"
  else upd_fd f (set_u_index (-1)).

Definition bits_to_poll_mask (bits : Z) : Z :=
  let mask := 0 in
  let mask := if has bits MASKIN then Z.lor mask (Z.lor POLLIN POLLHUP) else mask in
  let mask := if has bits MASKOUT then Z.lor mask (Z.lor POLLOUT POLLHUP) else mask in
  if has bits MASKERR then Z.lor mask POLLHUP else mask.

Definition iv_fd_poll_notify_fd (f : loc) : M St unit :=
  o ← load_fd f;
  if (u_index o =? -1) && negb (wanted_bands o =? 0) then
    p ← load_ps;
    upd_fd f (set_u_index (num_regd_fds p));;
    upd_ps (fun p => set_num_regd_fds (num_regd_fds p + 1) p);;
    o ← load_fd f;
    upd_pfd (u_index o) (set_pfd_fd (fd_fd o));;
    upd_pfd (u_index o) (set_pfd_events (bits_to_poll_mask (wanted_bands o)));;
    store_pobj (u_index o) f
  else if negb (u_index o =? -1) && (wanted_bands o =? 0) then
    upd_ps (fun p => set_num_regd_fds (num_regd_fds p - 1) p);;
    p ← load_ps;
    when (negb (u_index o =? num_regd_fds p)) (
      e ← load_pfd (num_regd_fds p);
      upd_pfd (u_index o) (fun _ => e);;
      last ← load_pobj (num_regd_fds p);
      upd_fd last (set_u_index (u_index o));;
      store_pobj (u_index o) last);;
    upd_fd f (set_u_index (-1))
  else upd_pfd (u_index o) (set_pfd_events (bits_to_poll_mask (wanted_bands o))).

Definition iv_fd_poll_notify_fd_sync (f : loc) : M St Z :=
  o ← load_fd f;
  fuel ← gets (fun s => Datatypes.S (poll_signals (fs_w s)));
  ret ← retry fuel (kernel (sys_poll [(fd_fd o, Z.lor (Z.lor POLLIN POLLOUT) POLLHUP)] 0));
  match ret with
  | inr _ => mret (-1)
  | inl revents =>
      r ← deref (head revents);
      if has r POLLNVAL then mret (-1) else iv_fd_poll_notify_fd f;; mret 0
  end.

Definition iv_fd_poll_deinit : M St unit := load_ps;; store_u UNone.

Definition iv_fd_poll_method_poll : iv_fd_poll_method St := {|
  pm_name := list_ascii_of_string "poll";
  pm_init := iv_fd_poll_init;
  pm_set_poll_timeout := None;
  pm_clear_poll_timeout := undef;
  pm_poll := iv_fd_poll_poll;
  pm_register_fd := Some iv_fd_poll_register_fd;
  pm_unregister_fd := None;
  pm_notify_fd := iv_fd_poll_notify_fd;
  pm_notify_fd_sync := iv_fd_poll_notify_fd_sync;
  pm_deinit := iv_fd_poll_deinit |}.

Definition iv_fd_poll_method_ppoll : iv_fd_poll_method St := {|
  pm_name := list_ascii_of_string "ppoll";
  pm_init := iv_fd_poll_init;
  pm_set_poll_timeout := None;
  pm_clear_poll_timeout := undef;
  pm_poll := iv_fd_poll_ppoll;
  pm_register_fd := Some iv_fd_poll_register_fd;
  pm_unregister_fd := None;
  pm_notify_fd := iv_fd_poll_notify_fd;
  pm_notify_fd_sync := iv_fd_poll_notify_fd_sync;
  pm_deinit := iv_fd_poll_deinit |}.
End poll.
