(* ===== verification/FdEpoll.v ===== *)
(** * The epoll and epoll-timerfd methods (iv_fd_epoll.c)

    Changes of the wanted bands are queued on the notify list and told to the
    kernel when the next poll begins; unregistering tells it at once. *)

From Stdlib Require Import Ascii String.
From S2P Require Import Prelude ISeq Timer Sys Fd PmState.

Local Open Scope Z_scope.

Definition EPOLLIN : Z := 1.
Definition EPOLLOUT : Z := 4.
Definition EPOLLERR : Z := 8.
Definition EPOLLHUP : Z := 16.
Definition EPOLLONESHOT : Z := Z.shiftl 1 30.

Inductive ctl_op := EPOLL_CTL_ADD | EPOLL_CTL_DEL | EPOLL_CTL_MOD.
#[global] Instance ctl_op_eq_dec : EqDecision ctl_op.
Proof. solve_decision. Defined.

(** What [event.data.ptr] points to: an object, the thread's [iv_state], or its
    [time] field, which stands for the timer descriptor. *)
Inductive edata := DFd (f : loc) | DState | DTime.
#[global] Instance edata_eq_dec : EqDecision edata.
Proof. solve_decision. Defined.

(** The calls into the kernel, and two observations of it: the interest list of
    an epoll instance, and how many signals can still interrupt a call. *)
Class EpollKernel (W : Type) := {
  sys_epoll_create1 : W -> sysres Z * W;
  sys_epoll_create : W -> sysres Z * W;
  sys_epoll_ctl : Z -> ctl_op -> Z -> edata * Z -> W -> sysres unit * W;
  sys_epoll_wait : Z -> Z -> Z -> W -> sysres (list (edata * Z)) * W;
  sys_epoll_pwait2 : Z -> Z -> option timespec -> W -> sysres (list (edata * Z)) * W;
  sys_timerfd_create : W -> sysres Z * W;
  sys_timerfd_settime : Z -> timespec -> W -> sysres unit * W;
  sys_timerfd_read : Z -> W -> sysres unit * W;
  sys_eventfd2 : W -> sysres Z * W;
  sys_eventfd : W -> sysres Z * W;
  sys_write_one : Z -> W -> sysres Z * W;
  sys_pipe : W -> sysres (Z * Z) * W;
  epoll_interest : Z -> W -> gmap Z (edata * Z);
  epoll_signals : W -> nat }.

Section epoll.
Context {W : Type} `{!FdKernel W, !EpollKernel W}.
Context (clock_gettime : nat -> clockid -> option timespec) (gettimeofday : nat -> Z * Z).
(** [iv_event_run_pending_events] (iv_event.c). *)
Context (run_pending_events : M (fd_state pm_state W) unit).
Abbreviation St := (fd_state pm_state W).

Definition load_es : M St epoll_state :=
  u ← gets (fun s => pm_u (fs_pm s)); match u with UEpoll e => mret e | _ => undef end.
Definition store_pm_u (u : pm_union) : M St unit :=
  modify (fun s => set_fs_pm (set_pm_u u (fs_pm s)) s).
Definition gets_static {A} (g : epoll_static -> A) : M St A :=
  gets (fun s => g (pm_static (fs_pm s))).
Definition upd_static (g : epoll_static -> epoll_static) : M St unit :=
  modify (fun s => set_fs_pm (set_pm_static (g (pm_static (fs_pm s))) (fs_pm s)) s).

(** [do ret = epoll_ctl(epfd, op, fd, &event); while (ret < 0 && errno == EINTR);] *)
Definition epoll_ctl (op : ctl_op) (fd : Z) (event : edata * Z) : M St (sysres unit) :=
  e ← load_es;
  fuel ← gets (fun s => Datatypes.S (epoll_signals (fs_w s)));
  retry fuel (kernel (sys_epoll_ctl (epoll_fd e) op fd event)).

Definition epollfd_grab : M St (option Z) :=
  support ← gets_static epoll_support;
  first ← (if support =? 2 then
      ret ← kernel sys_epoll_create1;
      match ret with
      | inl fd => mret (Some (Some fd))
      | inr ENOSYS => upd_static (set_epoll_support 1);; mret None
      | inr _ => mret (Some None)
      end
    else mret None);
  match first with
  | Some ret => mret ret
  | None =>
      support ← gets_static epoll_support;
      if negb (support =? 0) then
        ret ← kernel sys_epoll_create;
        match ret with
        | inl fd => iv_fd_set_cloexec fd;; mret (Some fd)
        | inr ENOSYS => upd_static (set_epoll_support 0);; mret None
        | inr _ => mret None
        end
      else mret None
  end.

Definition iv_fd_epoll_init : M St bool :=
  fd ← epollfd_grab;
  match fd with
  | None => mret false
  | Some fd =>
      modify (fun s => set_fs_notify (mk_iseq [] (idle (fs_notify s))) s);;
      store_pm_u (UEpoll (mk_es fd (-1)));;
      mret true
  end.

Definition epoll_mask (bits : Z) : Z :=
  let mask := 0 in
  let mask := if has bits MASKIN then Z.lor mask EPOLLIN else mask in
  if has bits MASKOUT then Z.lor mask EPOLLOUT else mask.

Definition __iv_fd_epoll_flush_one (f : loc) : M St (sysres unit) :=
  on_notify (iq_del_init f);;
  o ← load_fd f;
  if registered_bands o =? wanted_bands o then mret (inl tt)
  else
    let op := if (registered_bands o =? 0) && negb (wanted_bands o =? 0) then EPOLL_CTL_ADD
              else if negb (registered_bands o =? 0) && (wanted_bands o =? 0) then EPOLL_CTL_DEL
              else EPOLL_CTL_MOD in
    ret ← epoll_ctl op (fd_fd o) (DFd f, epoll_mask (wanted_bands o));
    when (negb (failed ret)) (upd_fd f (fun o => set_registered_bands (wanted_bands o) o));;
    mret ret.

Definition iv_fd_epoll_flush_one (f : loc) : M St unit :=
  ret ← __iv_fd_epoll_flush_one f;
  if failed ret then iv_fatal "iv_fd_epoll_flush_one: got error" else mret tt.

(** [while (!iv_list_empty(&notify)) flush_one(first);] every turn takes one off. *)
Fixpoint flush_loop (fuel : nat) : M St unit :=
  match fuel with
  | O => out_of_fuel
  | Datatypes.S fuel =>
      q ← gets fs_notify;
      match members q with
      | [] => mret tt
      | f :: _ => iv_fd_epoll_flush_one f;; flush_loop fuel
      end
  end.
Definition iv_fd_epoll_flush_pending : M St unit :=
  q ← gets fs_notify; flush_loop (Datatypes.S (length (members q))).

Definition iv_fd_epoll_wait (maxevents : Z) (abs : option timespec) :
    M St (sysres (list (edata * Z))) :=
  e ← load_es;
  let epfd := epoll_fd e in
  support ← gets_static epoll_pwait2_support;
  first ← (if support : bool then
      rel ← on_timer (to_relative clock_gettime gettimeofday abs);
      ret ← kernel (sys_epoll_pwait2 epfd maxevents rel);
      match ret with
      | inr EPERM | inr ENOSYS => upd_static (set_epoll_pwait2_support false);; mret None
      | _ => mret (Some ret)
      end
    else mret None);
  match first with
  | Some ret => mret ret
  | None =>
      msec ← on_timer (to_msec clock_gettime gettimeofday abs);
      kernel (sys_epoll_wait epfd maxevents msec)
  end.

(** The three tests on the events of one object. *)
Definition make_ready_events (f : loc) (events : Z) : M St unit :=
  when (has events (Z.lor (Z.lor EPOLLIN EPOLLERR) EPOLLHUP)) (iv_fd_make_ready f MASKIN);;
  when (has events (Z.lor (Z.lor EPOLLOUT EPOLLERR) EPOLLHUP)) (iv_fd_make_ready f MASKOUT);;
  when (has events (Z.lor EPOLLERR EPOLLHUP)) (iv_fd_make_ready f MASKERR).

(** The loop over the batch; returns [run_events]. *)
Fixpoint epoll_batch (batch : list (edata * Z)) (run_events : bool) : M St bool :=
  match batch with
  | [] => mret run_events
  | (DFd f, events) :: batch => make_ready_events f events;; epoll_batch batch run_events
  | (DTime, _) :: _ => undef
  | (DState, _) :: batch => epoll_batch batch true
  end.

Definition iv_fd_epoll_poll (abs : option timespec) : M St bool :=
  numfds ← gets fs_numfds;
  let maxevents := if numfds =? 0 then 1 else numfds in
  iv_fd_epoll_flush_pending;;
  ret ← iv_fd_epoll_wait maxevents abs;
  on_timer iv_invalidate_now;;
  match ret with
  | inr EINTR => mret true
  | inr _ => iv_fatal "iv_fd_epoll_poll: got error"
  | inl batch =>
      run_events ← epoll_batch batch false;
      when run_events run_pending_events;;
      mret true
  end.

Definition iv_fd_epoll_unregister_fd (f : loc) : M St unit :=
  q ← gets fs_notify;
  unlinked ← deref (iq_unlinked f q);
  when (negb unlinked) (iv_fd_epoll_flush_one f).

Definition iv_fd_epoll_notify_fd (f : loc) : M St unit :=
  on_notify (iq_del_init f);;
  o ← load_fd f;
  when (negb (registered_bands o =? wanted_bands o)) (on_notify (iq_add_tail f)).

Definition iv_fd_epoll_notify_fd_sync (f : loc) : M St Z :=
  ret ← __iv_fd_epoll_flush_one f; mret (if failed ret then -1 else 0).

Definition iv_fd_epoll_deinit : M St unit :=
  e ← load_es;
  when (negb (timer_fd e =? -1)) (kernel_ (sys_close (timer_fd e)));;
  kernel_ (sys_close (epoll_fd e));;
  store_pm_u UNone.

(** ** The descriptor that wakes other threads up *)

(** [eventfd_grab] (eventfd-linux.h): a descriptor, or an error. *)
Definition eventfd_grab : M St (sysres Z) :=
  use ← gets_static eventfd_in_use;
  first ← (if use =? 2 then
      ret ← kernel sys_eventfd2;
      match ret with
      | inl fd => mret (Some (inl fd))
      | inr EINVAL | inr ENOSYS => upd_static (set_eventfd_in_use 1);; mret None
      | inr e => mret (Some (inr e))
      end
    else mret None);
  match first with
  | Some ret => mret ret
  | None =>
      use ← gets_static eventfd_in_use;
      second ← (if negb (use =? 0) then
          ret ← kernel sys_eventfd;
          match ret with
          | inl fd => mret (Some (inl fd))
          | inr ENOSYS => mret None
          | inr e => mret (Some (inr e))
          end
        else mret None);
      match second with
      | Some ret => mret ret
      | None => upd_static (set_eventfd_in_use 0);; mret (inr ENOSYS)
      end
  end.

Definition iv_fd_epoll_create_active_fd : M St Z :=
  fd ← eventfd_grab;
  match fd with
  | inl fd =>
      ret ← kernel (sys_write_one fd);
      match ret with
      | inr _ => iv_fatal "iv_fd_epoll_create_active_fd: eventfd write returned error"
      | inl n => if negb (n =? 8) then iv_fatal "iv_fd_epoll_create_active_fd: eventfd write returned short"
                 else mret fd
      end
  | inr _ =>
      ret ← kernel sys_pipe;
      match ret with
      | inr _ => iv_fatal "iv_fd_epoll_create_active_fd: pipe() returned error"
      | inl (r, w) => kernel_ (sys_close w);; mret r
      end
  end.

Definition iv_fd_epoll_event_rx_on : M St bool :=
  n ← gets_static iv_active_fd_refcount;
  upd_static (set_iv_active_fd_refcount (n + 1));;
  when (n =? 0) (fd ← iv_fd_epoll_create_active_fd; upd_static (set_iv_active_fd fd));;
  fd ← gets_static iv_active_fd;
  ret ← epoll_ctl EPOLL_CTL_ADD fd (DState, 0);
  when (negb (failed ret)) (modify (fun s => set_fs_numobjs (fs_numobjs s + 1) s));;
  mret (negb (failed ret)).

Definition iv_fd_epoll_event_rx_off : M St unit :=
  fd ← gets_static iv_active_fd;
  ret ← epoll_ctl EPOLL_CTL_DEL fd (DState, 0);
  if failed ret then iv_fatal "iv_fd_epoll_event_rx_off: epoll_ctl returned error"
  else
    n ← gets_static iv_active_fd_refcount;
    upd_static (set_iv_active_fd_refcount (n - 1));;
    when (n - 1 =? 0) (fd ← gets_static iv_active_fd; kernel_ (sys_close fd));;
    modify (fun s => set_fs_numobjs (fs_numobjs s - 1) s).

(** [dest] is this thread's own state; another thread's differs in its epoll instance. *)
Definition iv_fd_epoll_event_send : M St unit :=
  fd ← gets_static iv_active_fd;
  ret ← epoll_ctl EPOLL_CTL_MOD fd (DState, Z.lor EPOLLIN EPOLLONESHOT);
  if failed ret then iv_fatal "iv_fd_epoll_event_send: epoll_ctl returned error" else mret tt.

Definition iv_fd_poll_method_epoll : iv_fd_poll_method St := {|
  pm_name := list_ascii_of_string "epoll";
  pm_init := iv_fd_epoll_init;
  pm_set_poll_timeout := None;
  pm_clear_poll_timeout := undef;
  pm_poll := iv_fd_epoll_poll;
  pm_register_fd := None;
  pm_unregister_fd := Some iv_fd_epoll_unregister_fd;
  pm_notify_fd := iv_fd_epoll_notify_fd;
  pm_notify_fd_sync := iv_fd_epoll_notify_fd_sync;
  pm_deinit := iv_fd_epoll_deinit |}.

(** ** epoll-timerfd *)
Definition iv_fd_epoll_timerfd_create : M St bool :=
  ret ← kernel sys_timerfd_create;
  match ret with
  | inr ENOSYS => mret false
  | inr _ => iv_fatal "iv_fd_epoll_timerfd_create: got error"
  | inl fd =>
      e ← load_es; store_pm_u (UEpoll (set_timer_fd fd e));;
      ret ← epoll_ctl EPOLL_CTL_ADD fd (DTime, EPOLLIN);
      if failed ret then iv_fatal "iv_fd_epoll_timerfd_create: got error" else mret true
  end.

Definition iv_fd_epoll_timerfd_set_poll_timeout (abs : option timespec) : M St bool :=
  e ← load_es;
  created ← (if timer_fd e =? -1 then iv_fd_epoll_timerfd_create else mret true);
  if negb created then modify (set_fs_method (Some MEpoll));; mret false
  else
    it_value ← deref abs;
    let it_value := if (tv_sec it_value =? 0) && (tv_nsec it_value =? 0)
                    then mk_tsp 0 1 else it_value in
    e ← load_es;
    ret ← kernel (sys_timerfd_settime (timer_fd e) it_value);
    if failed ret then iv_fatal "iv_fd_epoll_timerfd_set_poll_timeout: got error" else mret true.

Definition iv_fd_epoll_timerfd_clear_poll_timeout : M St unit :=
  e ← load_es;
  ret ← kernel (sys_timerfd_settime (timer_fd e) (mk_tsp 0 0));
  if failed ret then iv_fatal "iv_fd_epoll_timerfd_clear_poll_timeout: got error" else mret tt.

(** The loop over the batch; returns [run_timers] and [run_events]. *)
Fixpoint epoll_timerfd_batch (batch : list (edata * Z)) (run_timers run_events : bool) :
    M St (bool * bool) :=
  match batch with
  | [] => mret (run_timers, run_events)
  | (DState, _) :: batch => epoll_timerfd_batch batch run_timers true
  | (DTime, _) :: batch =>
      e ← load_es;
      ret ← kernel (sys_timerfd_read (timer_fd e));
      if failed ret then iv_fatal "iv_fd_epoll_timerfd_poll: got timerfd read error"
      else epoll_timerfd_batch batch true run_events
  | (DFd f, events) :: batch =>
      make_ready_events f events;; epoll_timerfd_batch batch run_timers run_events
  end.

Definition iv_fd_epoll_timerfd_poll (abs : option timespec) : M St bool :=
  numfds ← gets fs_numfds;
  iv_fd_epoll_flush_pending;;
  let run_timers := bool_decide (is_Some abs) in
  ret ← iv_fd_epoll_wait (numfds + 1) abs;
  on_timer iv_invalidate_now;;
  match ret with
  | inr EINTR => mret run_timers
  | inr _ => iv_fatal "iv_fd_epoll_timerfd_poll: got error"
  | inl batch =>
      r ← epoll_timerfd_batch batch run_timers false;
      let '(run_timers, run_events) := r : bool * bool in
      when run_events run_pending_events;;
      mret run_timers
  end.

Definition iv_fd_poll_method_epoll_timerfd : iv_fd_poll_method St := {|
  pm_name := list_ascii_of_string "epoll-timerfd";
  pm_init := iv_fd_epoll_init;
  pm_set_poll_timeout := Some iv_fd_epoll_timerfd_set_poll_timeout;
  pm_clear_poll_timeout := iv_fd_epoll_timerfd_clear_poll_timeout;
  pm_poll := iv_fd_epoll_timerfd_poll;
  pm_register_fd := None;
  pm_unregister_fd := Some iv_fd_epoll_unregister_fd;
  pm_notify_fd := iv_fd_epoll_notify_fd;
  pm_notify_fd_sync := iv_fd_epoll_notify_fd_sync;
  pm_deinit := iv_fd_epoll_deinit |}.
End epoll.
