(* ===== verification/FdKqueue.v ===== *)
(** * The kqueue method (iv_fd_kqueue.c)

    Changes of the wanted bands are queued on the notify list and handed to kevent(2) by
    the next poll, together with the changes to the kernel timer; unregistering an
    object hands over the whole list at once. *)

From Stdlib Require Import Ascii String.
From S2P Require Import Prelude ISeq Timer Sys Fd PmState.

Local Open Scope Z_scope.

Definition EVFILT_READ : Z := -1.
Definition EVFILT_WRITE : Z := -2.
Definition EVFILT_TIMER : Z := -7.
Definition EVFILT_USER : Z := -11.
Definition EV_ADD : Z := 1.
Definition EV_DELETE : Z := 2.
Definition EV_ENABLE : Z := 4.
Definition EV_ONESHOT : Z := 16.
Definition EV_CLEAR : Z := 32.
Definition EV_ERROR : Z := 0x4000.
Definition NOTE_TRIGGER : Z := 0x01000000.
Definition UPLOAD_BATCH : nat := 1024.

(** [struct kevent], as [EV_SET] fills it in. *)
Record kevent := EV_SET {
  kv_ident : Z;
  kv_filter : Z;
  kv_flags : Z;
  kv_fflags : Z;
  kv_data : Z;
  kv_udata : ptr }.

(** The calls into the kernel; the addresses that serve as identifiers of the timer and
    of the user event; and two observations: the registered filters of a queue, by
    filter and identifier, and how many signals can still interrupt a call. *)
Class KqueueKernel (W : Type) := {
  sys_kqueue : W -> sysres Z * W;
  sys_kevent : Z -> list kevent -> Z -> option timespec -> W -> sysres (list kevent) * W;
  addr_timeout : Z;
  addr_state : Z;
  kq_knotes : Z -> W -> gmap (Z * Z) ptr;
  kq_signals : W -> nat }.

Section kqueue.
Context {W : Type} `{!FdKernel W, !KqueueKernel W}.
Context (clock_gettime : nat -> clockid -> option timespec) (gettimeofday : nat -> Z * Z).
(** [iv_event_run_pending_events] (iv_event.c). *)
Context (run_pending_events : M (fd_state pm_state W) unit).
Abbreviation St := (fd_state pm_state W).

Definition load_kq : M St kqueue_state :=
  u ← gets (fun s => pm_u (fs_pm s)); match u with UKqueue k => mret k | _ => undef end.
Definition store_kq (u : pm_union) : M St unit := modify (fun s => set_fs_pm (set_pm_u u (fs_pm s)) s).
Definition upd_kq (g : kqueue_state -> kqueue_state) : M St unit := k ← load_kq; store_kq (UKqueue (g k)).

Definition iv_fd_kqueue_init : M St bool :=
  ret ← kernel sys_kqueue;
  match ret with
  | inr _ => mret false
  | inl fd =>
      iv_fd_set_cloexec fd;;
      modify (fun s => set_fs_notify (mk_iseq [] (idle (fs_notify s))) s);;
      store_kq (UKqueue (mk_kq fd false None));;
      mret true
  end.

(** Storing at the end of an array of [UPLOAD_BATCH] entries, of which the first
    [length kev] are in use. *)
Definition store_kev (kev l : list kevent) : M St (list kevent) :=
  if (length (kev ++ l) <=? UPLOAD_BATCH)%nat then mret (kev ++ l) else undef.

(** The change for one of the two filters. *)
Definition band_change (filter mask : Z) (f : loc) (o : iv_fd_) : list kevent :=
  let wanted := wanted_bands o in
  let regd := registered_bands o in
  if negb (has wanted mask) && has regd mask then [EV_SET (fd_fd o) filter EV_DELETE 0 0 (Some f)]
  else if has wanted mask && negb (has regd mask) then [EV_SET (fd_fd o) filter (Z.lor EV_ADD EV_ENABLE) 0 0 (Some f)]
  else [].
Definition iv_fd_kqueue_queue_one (kev : list kevent) (f : loc) : M St (list kevent) :=
  on_notify (iq_del_init f);;
  o ← load_fd f;
  kev ← store_kev kev (band_change EVFILT_READ MASKIN f o);
  store_kev kev (band_change EVFILT_WRITE MASKOUT f o).

Definition __kevent_retry (changelist : list kevent) : M St (sysres (list kevent)) :=
  k ← load_kq;
  fuel ← gets (fun s => Datatypes.S (kq_signals (fs_w s)));
  retry fuel (kernel (sys_kevent (kqueue_fd k) changelist 0 (Some (mk_tsp 0 0)))).
Definition kevent_retry (name : string) (changelist : list kevent) : M St unit :=
  ret ← __kevent_retry changelist;
  if failed ret then iv_fatal (name ++ ": got error") else mret tt.

(** A turn of the loop of [iv_fd_kqueue_upload]; [size] is [UPLOAD_BATCH]. *)
Definition upload_next (kev : list kevent) (f : loc) : M St (list kevent) :=
  kev ← (if (UPLOAD_BATCH - 2 <? length kev)%nat then
      kevent_retry "iv_fd_kqueue_upload" kev;; mret []
    else mret kev);
  kev ← iv_fd_kqueue_queue_one kev f;
  upd_fd f (fun o => set_registered_bands (wanted_bands o) o);;
  mret kev.
Definition iv_fd_kqueue_upload (kev : list kevent) : M St (list kevent) :=
  q ← gets fs_notify; drain_notify upload_next (Datatypes.S (length (members q))) kev.

Definition iv_fd_kqueue_set_poll_timeout (abs : option timespec) : M St bool :=
  upd_kq (set_timeout_pending true);;
  upd_kq (set_kq_timeout abs);;
  mret true.
Definition iv_fd_kqueue_clear_poll_timeout : M St unit :=
  upd_kq (set_timeout_pending true);;
  upd_kq (set_kq_timeout None).

(** The pending change of the kernel timer. *)
Definition timer_change : M St (list kevent) :=
  k ← load_kq;
  if timeout_pending k then
    upd_kq (set_timeout_pending false);;
    k ← load_kq;
    match kq_timeout k with
    | Some _ =>
        msec ← on_timer (to_msec clock_gettime gettimeofday (kq_timeout k));
        mret [EV_SET addr_timeout EVFILT_TIMER (Z.lor (Z.lor (Z.lor EV_ADD EV_ENABLE) EV_ONESHOT) EV_CLEAR) 0 msec None]
    | None => mret [EV_SET addr_timeout EVFILT_TIMER EV_DELETE 0 0 None]
    end
  else mret [].

(** The loop over the batch; returns [run_timers] and [run_events]. *)
Fixpoint kqueue_batch (batch : list kevent) (run_timers run_events : bool) : M St (bool * bool) :=
  match batch with
  | [] => mret (run_timers, run_events)
  | e :: batch =>
      if kv_filter e =? EVFILT_TIMER then kqueue_batch batch true run_events
      else if kv_filter e =? EVFILT_USER then kqueue_batch batch run_timers true
      else if has (kv_flags e) EV_ERROR then iv_fatal "iv_fd_kqueue_poll: got error polling fd"
      else if kv_filter e =? EVFILT_READ then
        f ← deref (kv_udata e); iv_fd_make_ready f MASKIN;; kqueue_batch batch run_timers run_events
      else if kv_filter e =? EVFILT_WRITE then
        f ← deref (kv_udata e); iv_fd_make_ready f MASKOUT;; kqueue_batch batch run_timers run_events
      else iv_fatal "iv_fd_kqueue_poll: got message from filter"
  end.

Definition iv_fd_kqueue_poll (abs : option timespec) : M St bool :=
  numfds ← gets fs_numfds;
  kev ← timer_change;
  kev ← iv_fd_kqueue_upload kev;
  let run_timers := bool_decide (is_Some abs) in
  rel ← on_timer (to_relative clock_gettime gettimeofday abs);
  k ← load_kq;
  ret ← kernel (sys_kevent (kqueue_fd k) kev (2 * numfds + 1) rel);
  on_timer iv_invalidate_now;;
  match ret with
  | inr EINTR => mret run_timers
  | inr _ => iv_fatal "iv_fd_kqueue_poll: got error"
  | inl batch =>
      r ← kqueue_batch batch run_timers false;
      let '(run_timers, run_events) := r : bool * bool in
      when run_events run_pending_events;;
      mret run_timers
  end.

Definition iv_fd_kqueue_upload_all : M St unit :=
  kev ← iv_fd_kqueue_upload [];
  when (negb (length kev =? 0)%nat) (kevent_retry "iv_fd_kqueue_upload_all" kev).

Definition iv_fd_kqueue_unregister_fd (f : loc) : M St unit :=
  q ← gets fs_notify;
  unlinked ← deref (iq_unlinked f q);
  when (negb unlinked) iv_fd_kqueue_upload_all.

Definition iv_fd_kqueue_notify_fd (f : loc) : M St unit :=
  on_notify (iq_del_init f);;
  o ← load_fd f;
  when (negb (registered_bands o =? wanted_bands o)) (on_notify (iq_add_tail f)).

(** Trying one of the two filters: was it accepted? *)
Definition sync_band (filter mask : Z) (f : loc) : M St bool :=
  o ← load_fd f;
  if has (wanted_bands o) mask then
    ret ← __kevent_retry [EV_SET (fd_fd o) filter (Z.lor EV_ADD EV_ENABLE) 0 0 (Some f)];
    if failed ret then mret false
    else upd_fd f (fun o => set_registered_bands (Z.lor (registered_bands o) mask) o);; mret true
  else mret false.
Definition iv_fd_kqueue_notify_fd_sync (f : loc) : M St Z :=
  ok ← sync_band EVFILT_READ MASKIN f;
  if ok : bool then mret 0
  else
    ok ← sync_band EVFILT_WRITE MASKOUT f;
    mret (if ok : bool then 0 else -1).

Definition iv_fd_kqueue_deinit : M St unit :=
  k ← load_kq; kernel_ (sys_close (kqueue_fd k));; store_kq UNone.

(** ** The user event that wakes the thread up *)
Definition iv_fd_kqueue_event_rx_on : M St bool :=
  ret ← __kevent_retry [EV_SET addr_state EVFILT_USER (Z.lor (Z.lor EV_ADD EV_CLEAR) EV_ENABLE) 0 0 None];
  when (negb (failed ret)) (modify (fun s => set_fs_numobjs (fs_numobjs s + 1) s));;
  mret (negb (failed ret)).
Definition iv_fd_kqueue_event_rx_off : M St unit :=
  kevent_retry "iv_fd_kqueue_event_rx_off" [EV_SET addr_state EVFILT_USER EV_DELETE 0 0 None];;
  modify (fun s => set_fs_numobjs (fs_numobjs s - 1) s).
(** [dest] is this thread's own state; another thread's differs in its queue. *)
Definition iv_fd_kqueue_event_send : M St unit :=
  kevent_retry "iv_fd_kqueue_event_send" [EV_SET addr_state EVFILT_USER 0 NOTE_TRIGGER 0 None].

Definition iv_fd_poll_method_kqueue : iv_fd_poll_method St := {|
  pm_name := list_ascii_of_string "kqueue";
  pm_init := iv_fd_kqueue_init;
  pm_set_poll_timeout := Some iv_fd_kqueue_set_poll_timeout;
  pm_clear_poll_timeout := iv_fd_kqueue_clear_poll_timeout;
  pm_poll := iv_fd_kqueue_poll;
  pm_register_fd := None;
  pm_unregister_fd := Some iv_fd_kqueue_unregister_fd;
  pm_notify_fd := iv_fd_kqueue_notify_fd;
  pm_notify_fd_sync := iv_fd_kqueue_notify_fd_sync;
  pm_deinit := iv_fd_kqueue_deinit |}.
End kqueue.
