(* ===== verification/FdDevPoll.v ===== *)
(** * The /dev/poll method (iv_fd_dev_poll.c)

    The kernel keeps a set of descriptors, changed by writing entries to the device.
    Entries are written by the next poll, and when an object is unregistered.  What the
    device reports are descriptors; a tree finds the objects for them. *)

From Stdlib Require Import Ascii String.
From S2P Require Import Prelude ISeq Timer Sys Fd PmState FdPoll.

Local Open Scope Z_scope.

Definition POLLREMOVE : Z := 0x0800.
Definition DP_UPLOAD_BATCH : nat := 1024.

(** The calls into the kernel.  An entry written is a descriptor and its [events]; the
    result is the number of whole entries taken, and of [DP_POLL] the descriptors with
    their [revents].  Two observations: the set of a device, and how many signals can
    still interrupt a write. *)
Class DevPollKernel (W : Type) := {
  sys_open_dev_poll : W -> sysres Z * W;
  sys_write_pollfds : Z -> list (Z * Z) -> W -> sysres nat * W;
  sys_dp_poll : Z -> Z -> Z -> W -> sysres (list (Z * Z)) * W;
  dp_interest : Z -> W -> gmap Z Z;
  dp_signals : W -> nat }.

Section dev_poll.
Context {W : Type} `{!FdKernel W, !DevPollKernel W}.
Context (clock_gettime : nat -> clockid -> option timespec) (gettimeofday : nat -> Z * Z).
Abbreviation St := (fd_state pm_state W).

Definition load_dp : M St dev_poll_state :=
  u ← gets (fun s => pm_u (fs_pm s)); match u with UDevPoll d => mret d | _ => undef end.
Definition store_dp (u : pm_union) : M St unit := modify (fun s => set_fs_pm (set_pm_u u (fs_pm s)) s).

(** With [O_CLOEXEC]. *)
Definition iv_fd_dev_poll_init : M St bool :=
  ret ← kernel sys_open_dev_poll;
  match ret with
  | inr _ => mret false
  | inl fd =>
      store_dp (UDevPoll (mk_dp fd ∅));;
      modify (fun s => set_fs_notify (mk_iseq [] (idle (fs_notify s))) s);;
      mret true
  end.

(** [do ret = write(...); while (ret < 0 && errno == EINTR);] *)
Definition write_retry (fd : Z) (buf : list (Z * Z)) : M St (sysres nat) :=
  fuel ← gets (fun s => Datatypes.S (dp_signals (fs_w s)));
  retry fuel (kernel (sys_write_pollfds fd buf)).
Fixpoint xwrite_loop (fuel : nat) (fd : Z) (buf : list (Z * Z)) : M St unit :=
  match fuel with
  | O => out_of_fuel
  | Datatypes.S fuel =>
      match buf with
      | [] => mret tt
      | _ =>
          ret ← write_retry fd buf;
          match ret with
          | inr _ => iv_fatal "iv_fd_dev_poll_flush_pending: got error"
          | inl n => xwrite_loop fuel fd (drop n buf)
          end
      end
  end.
Definition xwrite (fd : Z) (buf : list (Z * Z)) : M St unit := xwrite_loop (Datatypes.S (length buf)) fd buf.

Definition dp_bits_to_poll_mask (bits : Z) : Z :=
  let mask := 0 in
  let mask := if has bits MASKIN then Z.lor mask POLLIN else mask in
  if has bits MASKOUT then Z.lor mask POLLOUT else mask.

(** Storing at the end of [pfd[UPLOAD_BATCH]]. *)
Definition store_entry (pfd : list (Z * Z)) (b : bool) (e : Z * Z) : M St (list (Z * Z)) :=
  if b then if (length pfd <? DP_UPLOAD_BATCH)%nat then mret (pfd ++ [e]) else undef else mret pfd.
(** A turn of the loop of [iv_fd_dev_poll_flush_pending]. *)
Definition flush_next (poll_fd : Z) (pfd : list (Z * Z)) (f : loc) : M St (list (Z * Z)) :=
  pfd ← (if (DP_UPLOAD_BATCH - 2 <? length pfd)%nat then xwrite poll_fd pfd;; mret [] else mret pfd);
  on_notify (iq_del_init f);;
  o ← load_fd f;
  pfd ← store_entry pfd (negb (Z.land (registered_bands o) (Z.lnot (wanted_bands o)) =? 0)) (fd_fd o, POLLREMOVE);
  pfd ← store_entry pfd (negb (wanted_bands o =? 0)) (fd_fd o, dp_bits_to_poll_mask (wanted_bands o));
  upd_fd f (fun o => set_registered_bands (wanted_bands o) o);;
  mret pfd.
Definition iv_fd_dev_poll_flush_pending : M St unit :=
  d ← load_dp;
  q ← gets fs_notify;
  pfd ← drain_notify (flush_next (dp_poll_fd d)) (Datatypes.S (length (members q))) [];
  when (negb (length pfd =? 0)%nat) (xwrite (dp_poll_fd d) pfd).

(** The loop over the batch. *)
Fixpoint dev_poll_batch (batch : list (Z * Z)) : M St unit :=
  match batch with
  | [] => mret tt
  | (n, revents) :: batch =>
      d ← load_dp;
      match dp_fds d !! n with
      | None => iv_fatal "iv_fd_dev_poll_poll: got event for unknown fd"
      | Some f =>
          (when (has revents (Z.lor (Z.lor POLLIN POLLERR) POLLHUP)) (iv_fd_make_ready f MASKIN);;
           when (has revents (Z.lor (Z.lor POLLOUT POLLERR) POLLHUP)) (iv_fd_make_ready f MASKOUT);;
           when (has revents (Z.lor POLLERR POLLHUP)) (iv_fd_make_ready f MASKERR));;
          dev_poll_batch batch
      end
  end.

Definition iv_fd_dev_poll_poll (abs : option timespec) : M St bool :=
  numfds ← gets fs_numfds;
  let nfds := if numfds =? 0 then 1 else numfds in
  iv_fd_dev_poll_flush_pending;;
  msec ← on_timer (to_msec clock_gettime gettimeofday abs);
  d ← load_dp;
  ret ← kernel (sys_dp_poll (dp_poll_fd d) nfds msec);
  on_timer iv_invalidate_now;;
  match ret with
  | inr EINTR => mret true
  | inr _ => iv_fatal "iv_fd_dev_poll_poll: got error"
  | inl batch => dev_poll_batch batch;; mret true
  end.

(** [iv_avl_tree_insert] and [iv_avl_tree_delete] on the tree. *)
Definition iv_fd_dev_poll_register_fd (f : loc) : M St unit :=
  o ← load_fd f;
  d ← load_dp;
  match dp_fds d !! fd_fd o with
  | Some _ => iv_fatal "iv_fd_dev_poll_register_fd: got error"
  | None => store_dp (UDevPoll (set_dp_fds (<[fd_fd o := f]> (dp_fds d)) d))
  end.
Definition iv_fd_dev_poll_unregister_fd (f : loc) : M St unit :=
  o ← load_fd f;
  d ← load_dp;
  (if bool_decide (dp_fds d !! fd_fd o = Some f)
   then store_dp (UDevPoll (set_dp_fds (delete (fd_fd o) (dp_fds d)) d)) else undef);;
  q ← gets fs_notify;
  unlinked ← deref (iq_unlinked f q);
  when (negb unlinked) iv_fd_dev_poll_flush_pending.

Definition iv_fd_dev_poll_notify_fd (f : loc) : M St unit :=
  on_notify (iq_del_init f);;
  o ← load_fd f;
  when (negb (registered_bands o =? wanted_bands o)) (on_notify (iq_add_tail f)).

Definition iv_fd_dev_poll_notify_fd_sync (f : loc) : M St Z :=
  o ← load_fd f;
  d ← load_dp;
  ret ← write_retry (dp_poll_fd d) [(fd_fd o, dp_bits_to_poll_mask (wanted_bands o))];
  match ret with
  | inl 1%nat => upd_fd f (fun o => set_registered_bands (wanted_bands o) o);; mret 0
  | _ => mret (-1)
  end.

Definition iv_fd_dev_poll_deinit : M St unit :=
  d ← load_dp; kernel_ (sys_close (dp_poll_fd d));; store_dp UNone.

Definition iv_fd_poll_method_dev_poll : iv_fd_poll_method St := {|
  pm_name := list_ascii_of_string "dev_poll";
  pm_init := iv_fd_dev_poll_init;
  pm_set_poll_timeout := None;
  pm_clear_poll_timeout := undef;
  pm_poll := iv_fd_dev_poll_poll;
  pm_register_fd := Some iv_fd_dev_poll_register_fd;
  pm_unregister_fd := Some iv_fd_dev_poll_unregister_fd;
  pm_notify_fd := iv_fd_dev_poll_notify_fd;
  pm_notify_fd_sync := iv_fd_dev_poll_notify_fd_sync;
  pm_deinit := iv_fd_dev_poll_deinit |}.
End dev_poll.
