(* ===== verification/FdPort.v ===== *)
(** * The port and port-timer methods (iv_fd_port.c)

    A descriptor is associated with a port for one event: the kernel drops the
    association when it hands the event out, so that polling queues the object on the
    notify list again.  Unregistering tells the kernel at once. *)

From Stdlib Require Import Ascii String.
From S2P Require Import Prelude ISeq Timer Sys Fd PmState FdPoll.

Local Open Scope Z_scope.

Definition PORTEV_NUM : Z := 1024.

(** [port_event_t]: [PORT_SOURCE_FD] with the descriptor, its [portev_events] and its
    [portev_user]; [PORT_SOURCE_TIMER]; [PORT_SOURCE_USER]; another source. *)
Inductive port_event := PSourceFd (fd : Z) (events : Z) (user : loc) | PSourceTimer | PSourceUser | PSourceOther (source : Z).
(** What port_getn(3C) returns: success or [ETIME], both with events, or another error. *)
Inductive getn_result := GetnOk (pe : list port_event) | GetnTime (pe : list port_event) | GetnErr (e : errno).

(** The calls into the kernel, and two observations: the associations of a port, and
    how many times in a row a poll can still find the event array full. *)
Class PortKernel (W : Type) := {
  sys_port_create : W -> sysres Z * W;
  sys_port_associate : Z -> Z -> Z -> loc -> W -> bool * W;
  sys_port_dissociate : Z -> Z -> W -> bool * W;
  sys_port_getn : Z -> Z -> option timespec -> W -> getn_result * W;
  sys_port_send : Z -> W -> bool * W;
  sys_timer_create : Z -> W -> sysres Z * W;
  sys_timer_settime : Z -> timespec -> W -> bool * W;
  sys_timer_delete : Z -> W -> W;
  port_assoc : Z -> W -> gmap Z (loc * Z);
  port_backlog : W -> nat }.

Section port.
Context {W : Type} `{!FdKernel W, !PortKernel W}.
Context (clock_gettime : nat -> clockid -> option timespec) (gettimeofday : nat -> Z * Z).
(** [iv_event_run_pending_events] (iv_event.c). *)
Context (run_pending_events : M (fd_state pm_state W) unit).
Abbreviation St := (fd_state pm_state W).

Definition load_port : M St port_state :=
  u ← gets (fun s => pm_u (fs_pm s)); match u with UPort p => mret p | _ => undef end.
Definition store_port (u : pm_union) : M St unit := modify (fun s => set_fs_pm (set_pm_u u (fs_pm s)) s).

Definition iv_fd_port_init : M St bool :=
  ret ← kernel sys_port_create;
  match ret with
  | inr _ => mret false
  | inl fd =>
      iv_fd_set_cloexec fd;;
      modify (fun s => set_fs_notify (mk_iseq [] (idle (fs_notify s))) s);;
      store_port (UPort (mk_port fd (-1)));;
      mret true
  end.

Definition port_bits_to_poll_mask (bits : Z) : Z :=
  let mask := 0 in
  let mask := if has bits MASKIN then Z.lor mask POLLIN else mask in
  if has bits MASKOUT then Z.lor mask POLLOUT else mask.

(** [true] stands for a return value of 0. *)
Definition __iv_fd_port_upload_one (f : loc) : M St bool :=
  on_notify (iq_del_init f);;
  o ← load_fd f;
  p ← load_port;
  ret ← (if negb (wanted_bands o =? 0)
    then kernel (sys_port_associate (port_fd p) (fd_fd o) (port_bits_to_poll_mask (wanted_bands o)) f)
    else kernel (sys_port_dissociate (port_fd p) (fd_fd o)));
  when ret (upd_fd f (fun o => set_registered_bands (wanted_bands o) o));;
  mret ret.
Definition iv_fd_port_upload_one (f : loc) : M St unit :=
  ret ← __iv_fd_port_upload_one f;
  if ret : bool then mret tt else iv_fatal "iv_fd_port_upload_one: got error".
Definition iv_fd_port_upload : M St unit :=
  q ← gets fs_notify; drain_notify (fun _ => iv_fd_port_upload_one) (Datatypes.S (length (members q))) tt.

(** The loop over the events; returns [run_timers] and [run_events]. *)
Fixpoint port_batch (pe : list port_event) (run_timers run_events : bool) : M St (bool * bool) :=
  match pe with
  | [] => mret (run_timers, run_events)
  | PSourceFd _ revents f :: pe =>
      (when (has revents (Z.lor (Z.lor POLLIN POLLERR) POLLHUP)) (iv_fd_make_ready f MASKIN);;
       when (has revents (Z.lor (Z.lor POLLOUT POLLERR) POLLHUP)) (iv_fd_make_ready f MASKOUT);;
       when (has revents (Z.lor POLLERR POLLHUP)) (iv_fd_make_ready f MASKERR));;
      upd_fd f (set_registered_bands 0);;
      on_notify (iq_del_init f);;
      o ← load_fd f;
      when (negb (wanted_bands o =? 0)) (on_notify (iq_add_tail f));;
      port_batch pe run_timers run_events
  | PSourceTimer :: pe => port_batch pe true run_events
  | PSourceUser :: pe => port_batch pe run_timers true
  | PSourceOther _ :: _ => iv_fatal "iv_fd_port_poll: received event from unknown source"
  end.

(** From [poll_more]; [ETIME] sets [run_timers].  When the array was filled, it polls
    again without waiting. *)
Fixpoint poll_more (fuel : nat) (rel : option timespec) (run_timers run_events : bool) : M St bool :=
  match fuel with
  | O => out_of_fuel
  | Datatypes.S fuel =>
      p ← load_port;
      ret ← kernel (sys_port_getn (port_fd p) PORTEV_NUM rel);
      on_timer iv_invalidate_now;;
      let next := fun (pe : list port_event) (run_timers : bool) =>
        r ← port_batch pe run_timers run_events;
        let '(run_timers, run_events) := r : bool * bool in
        if Z.of_nat (length pe) =? PORTEV_NUM then poll_more fuel (Some (mk_tsp 0 0)) true run_events
        else when run_events run_pending_events;; mret run_timers in
      match ret with
      | GetnErr EINTR => mret run_timers
      | GetnErr _ => iv_fatal "iv_fd_port_poll: got error"
      | GetnOk pe => next pe run_timers
      | GetnTime pe => next pe true
      end
  end.

Definition iv_fd_port_poll (abs : option timespec) : M St bool :=
  iv_fd_port_upload;;
  rel ← on_timer (to_relative clock_gettime gettimeofday abs);
  let run_timers := match rel with Some t => (tv_sec t =? 0) && (tv_nsec t =? 0) | None => false end in
  fuel ← gets (fun s => Datatypes.S (port_backlog (fs_w s)));
  poll_more fuel rel run_timers false.

Definition iv_fd_port_unregister_fd (f : loc) : M St unit :=
  q ← gets fs_notify;
  unlinked ← deref (iq_unlinked f q);
  when (negb unlinked) (iv_fd_port_upload_one f).

Definition iv_fd_port_notify_fd (f : loc) : M St unit :=
  on_notify (iq_del_init f);;
  o ← load_fd f;
  when (negb (registered_bands o =? wanted_bands o)) (on_notify (iq_add_tail f)).

Definition iv_fd_port_notify_fd_sync (f : loc) : M St Z :=
  ret ← __iv_fd_port_upload_one f; mret (if ret : bool then 0 else -1).

Definition iv_fd_port_deinit : M St unit :=
  p ← load_port;
  when (negb (timer_id p =? -1)) (kernel_ (sys_timer_delete (timer_id p)));;
  kernel_ (sys_close (port_fd p));;
  store_port UNone.

(** ** Waking the thread up *)
Definition iv_fd_port_event_rx_on : M St bool :=
  modify (fun s => set_fs_numobjs (fs_numobjs s + 1) s);; mret true.
Definition iv_fd_port_event_rx_off : M St unit := modify (fun s => set_fs_numobjs (fs_numobjs s - 1) s).
(** [dest] is this thread's own state; another thread's differs in its port. *)
Definition iv_fd_port_event_send : M St unit :=
  p ← load_port;
  ok ← kernel (sys_port_send (port_fd p));
  if ok : bool then mret tt else iv_fatal "iv_fd_port_event_send: port_send got error".

Definition iv_fd_poll_method_port : iv_fd_poll_method St := {|
  pm_name := list_ascii_of_string "port";
  pm_init := iv_fd_port_init;
  pm_set_poll_timeout := None;
  pm_clear_poll_timeout := undef;
  pm_poll := iv_fd_port_poll;
  pm_register_fd := None;
  pm_unregister_fd := Some iv_fd_port_unregister_fd;
  pm_notify_fd := iv_fd_port_notify_fd;
  pm_notify_fd_sync := iv_fd_port_notify_fd_sync;
  pm_deinit := iv_fd_port_deinit |}.

(** ** The timer of port-timer *)
Definition iv_fd_port_timer_create : M St bool :=
  p ← load_port;
  ret ← kernel (sys_timer_create (port_fd p));
  match ret with
  | inr EPERM => mret false
  | inr _ => iv_fatal "iv_fd_port_timer_create: got error"
  | inl id => p ← load_port; store_port (UPort (set_timer_id id p));; mret true
  end.

Definition iv_fd_port_set_poll_timeout (abs : option timespec) : M St bool :=
  p ← load_port;
  created ← (if timer_id p =? -1 then iv_fd_port_timer_create else mret true);
  if negb created then modify (set_fs_method (Some MPort));; mret false
  else
    it_value ← deref abs;
    let it_value := if (tv_sec it_value =? 0) && (tv_nsec it_value =? 0)
                    then mk_tsp (tv_sec it_value) 1 else it_value in
    p ← load_port;
    ok ← kernel (sys_timer_settime (timer_id p) it_value);
    if ok : bool then mret true else iv_fatal "iv_fd_port_set_poll_timeout: got error".

Definition iv_fd_port_clear_poll_timeout : M St unit :=
  p ← load_port;
  ok ← kernel (sys_timer_settime (timer_id p) (mk_tsp 0 0));
  if ok : bool then mret tt else iv_fatal "iv_fd_port_clear_poll_timeout: got error".

Definition iv_fd_poll_method_port_timer : iv_fd_poll_method St := {|
  pm_name := list_ascii_of_string "port-timer";
  pm_init := iv_fd_port_init;
  pm_set_poll_timeout := Some iv_fd_port_set_poll_timeout;
  pm_clear_poll_timeout := iv_fd_port_clear_poll_timeout;
  pm_poll := iv_fd_port_poll;
  pm_register_fd := None;
  pm_unregister_fd := Some iv_fd_port_unregister_fd;
  pm_notify_fd := iv_fd_port_notify_fd;
  pm_notify_fd_sync := iv_fd_port_notify_fd_sync;
  pm_deinit := iv_fd_port_deinit |}.
End port.
