(* ===== verification/FdSpec.v ===== *)
(** * What the file descriptor core relies on, and what it promises

    The core (Fd.v) and a poll method share the objects: the core owns the
    handlers, the wanted and ready bands and the active list, the method owns
    the registered bands, the index, the notify list and its private state.
    [PollMethod] states what the core asks of a method in terms of the method's
    own view of the state; the theorems of the core are proved against it, and
    FdPollSpec.v and FdEpollSpec.v discharge it. *)

From S2P Require Import Prelude ISeq Timer Sys Fd.

Local Open Scope Z_scope.

(** An object as the core sees it, and as a poll method sees it. *)
Definition core_obj (o : iv_fd_) : iv_fd_ := set_registered_bands 0 (set_u_index 0 o).
Definition meth_obj (o : iv_fd_) : iv_fd_ :=
  mk_fd (fd_fd o) None None None 0 (registered o) (wanted_bands o) (registered_bands o) (u_index o).

Record cview := mk_cv {
  cv_fds : gmap loc iv_fd_; cv_active : iseq; cv_numobjs : Z; cv_numfds : Z; cv_handled : ptr }.
Record mview (P W : Type) := mk_mv {
  mv_objs : gmap loc iv_fd_; mv_notify : iseq; mv_method : option method_name; mv_pm : P; mv_w : W }.
Arguments mk_mv {_ _}.
Arguments mv_objs {_ _} _.
Arguments mv_notify {_ _} _.
Arguments mv_method {_ _} _.
Arguments mv_pm {_ _} _.
Arguments mv_w {_ _} _.

Definition cv {P W} (s : fd_state P W) : cview :=
  mk_cv (core_obj <$> fs_fds s) (fs_active s) (fs_numobjs s) (fs_numfds s) (fs_handled s).
Definition mv {P W} (s : fd_state P W) : mview P W :=
  mk_mv (meth_obj <$> fs_fds s) (fs_notify s) (fs_method s) (fs_pm s) (fs_w s).
Definition with_objs {P W} (m : gmap loc iv_fd_) (v : mview P W) : mview P W :=
  mk_mv m (mv_notify v) (mv_method v) (mv_pm v) (mv_w v).
Definition with_w {P W} (w : W) (v : mview P W) : mview P W :=
  mk_mv (mv_objs v) (mv_notify v) (mv_method v) (mv_pm v) w.

(** The core is left alone. *)
Definition quiet {P W} (s s' : fd_state P W) : Prop := cv s' = cv s /\ fs_ran s' = fs_ran s.

(** The calls of the core into the kernel. *)
Inductive fdk_step {W} `{!FdKernel W} : W -> W -> Prop :=
  | fdk_getfd fd w : fdk_step w (sys_getfd fd w).2
  | fdk_setfd fd flags w : fdk_step w (sys_setfd fd flags w)
  | fdk_getfl fd w : fdk_step w (sys_getfl fd w).2
  | fdk_setfl fd flags w : fdk_step w (sys_setfl fd flags w)
  | fdk_oob fd w : fdk_step w (sys_oobinline fd w).

(** ** Well-formed cores *)
Definition is_registered (m : gmap loc iv_fd_) (f : loc) : Prop :=
  exists o, m !! f = Some o /\ registered o = true.

Definition num_registered (m : gmap loc iv_fd_) : Z :=
  Z.of_nat (size (filter (fun p : loc * iv_fd_ => registered p.2 = true) m)).

Record core_ok (v : cview) : Prop := {
  co_active : iq_ok (cv_active v);
  co_listed : forall f, f ∈ members (cv_active v) -> is_registered (cv_fds v) f;
  co_linked : forall f o, cv_fds v !! f = Some o -> registered o = true ->
    f ∈ members (cv_active v) \/ f ∈ idle (cv_active v);
  co_wanted : forall f o, cv_fds v !! f = Some o -> registered o = true -> wanted_bands o = wanted_flags o;
  co_numfds : cv_numfds v = num_registered (cv_fds v);
  co_numobjs : cv_numobjs v = cv_numfds v;
  co_handled : forall f, cv_handled v = Some f -> is_registered (cv_fds v) f }.

(** Calls may abort; they never run into undefined behaviour. *)
Definition anyf (e : string) : Prop := True.

(** ** The interface *)
Section interface.
Context {P W : Type} `{!FdKernel W}.
Abbreviation St := (fd_state P W).
Context (method_of : method_name -> iv_fd_poll_method St).

(** [if (method->unregister_fd != NULL) method->unregister_fd(st, fd);] *)
Definition method_unregister (f : loc) : M St unit :=
  m ← the_method method_of;
  match pm_unregister_fd m with Some unregister_fd => unregister_fd f | None => mret tt end.
Definition method_register (f : loc) : M St unit :=
  m ← the_method method_of;
  match pm_register_fd m with Some register_fd => register_fd f | None => mret tt end.

(** [inv None v]: the method's state is consistent; [inv (Some f) v]: it is but
    for [f], whose registration or wanted bands just changed.  [can m] says that
    the method can be told of the wanted bands of [m]; [can_reg v n w] that a new
    object for descriptor [n] can be added with wanted bands [w]; [unknown v f]
    that the method has not told the kernel about [f]. *)
Class PollMethod (inv : option loc -> mview P W -> Prop) (can : iv_fd_ -> Prop)
    (can_reg : mview P W -> Z -> Z -> Prop) (unknown : mview P W -> loc -> Prop) : Prop := {
  pm_kernel : forall o v w', inv o v -> fdk_step (mv_w v) w' -> inv o (with_w w' v);
  pm_free_notify : forall v f, inv None v -> f ∈ members (mv_notify v) -> is_registered (mv_objs v) f;
  pm_not_registered : forall v f m' q, inv None v -> ~ is_registered (mv_objs v) f ->
    (forall m, m' = Some m -> registered m = false) ->
    members q = members (mv_notify v) ->
    (forall g, g <> f -> (g ∈ idle q <-> g ∈ idle (mv_notify v))) -> (f ∈ idle q -> f ∈ idle (mv_notify v)) ->
    inv None (mk_mv (partial_alter (fun _ => m') f (mv_objs v)) q (mv_method v) (mv_pm v) (mv_w v));
  pm_open : forall v f, inv None v -> is_registered (mv_objs v) f -> inv (Some f) v;
  pm_set : forall v f m b w, inv (Some f) v -> mv_objs v !! f = Some m ->
    inv (Some f) (with_objs (<[f := set_registered b (set_wanted_bands w m)]> (mv_objs v)) v);
  pm_unknown_set : forall v f m b w, unknown v f -> mv_objs v !! f = Some m ->
    unknown (with_objs (<[f := set_registered b (set_wanted_bands w m)]> (mv_objs v)) v) f;
  pm_register : forall s v f m q w,
    inv None v -> ~ is_registered (mv_objs v) f -> can_reg v (fd_fd m) w ->
    registered m = true -> registered_bands m = 0 -> iq_init f (mv_notify v) = Some q ->
    mv s = mk_mv (<[f := m]> (mv_objs v)) q (mv_method v) (mv_pm v) (mv_w v) ->
    wp anyf (method_register f) s (fun _ s' => quiet s s' /\ inv (Some f) (mv s') /\ unknown (mv s') f /\
      exists m', mv_objs (mv s') !! f = Some m' /\ can (set_wanted_bands w m'));
  pm_notify : forall s f m, inv (Some f) (mv s) -> mv_objs (mv s) !! f = Some m -> can m ->
    registered m = true ->
    wp anyf (m ← the_method method_of; pm_notify_fd m f) s (fun _ s' => quiet s s' /\ inv None (mv s'));
  pm_unregister : forall s f m, inv (Some f) (mv s) -> mv_objs (mv s) !! f = Some m -> can m ->
    registered m = false -> wanted_bands m = 0 ->
    wp anyf ((m ← the_method method_of; pm_notify_fd m f);; method_unregister f) s
      (fun _ s' => quiet s s' /\ inv None (mv s'));
  pm_sync : forall s f m, inv (Some f) (mv s) -> mv_objs (mv s) !! f = Some m ->
    registered m = true -> wanted_bands m <> 0 -> unknown (mv s) f ->
    wp anyf (m ← the_method method_of; pm_notify_fd_sync m f) s (fun ret s' => quiet s s' /\
      if decide (ret = 0) then inv None (mv s') /\
        exists m', mv_objs (mv s') !! f = Some m' /\ forall w, can (set_wanted_bands w m')
      else inv (Some f) (mv s') /\ unknown (mv s') f);
  pm_abandon : forall s f m, inv (Some f) (mv s) -> mv_objs (mv s) !! f = Some m ->
    registered m = false -> unknown (mv s) f ->
    wp anyf (method_unregister f) s (fun _ s' => quiet s s' /\ inv None (mv s')) }.
End interface.

(** ** The two views *)
Section views.
Context {P W : Type}.
Implicit Types (s : fd_state P W) (f : loc) (o : iv_fd_).

Lemma is_registered_core s f : is_registered (cv_fds (cv s)) f <-> is_registered (fs_fds s) f.
Proof.
  unfold is_registered. cbn. setoid_rewrite lookup_fmap. destruct (fs_fds s !! f) as [o|]; cbn; [|naive_solver].
  split; [intros (?&[= <-]&?)|intros (?&[= <-]&?)]; eexists; split; eauto.
Qed.
Lemma is_registered_meth s f : is_registered (mv_objs (mv s)) f <-> is_registered (fs_fds s) f.
Proof.
  unfold is_registered. cbn. setoid_rewrite lookup_fmap. destruct (fs_fds s !! f) as [o|]; cbn; [|naive_solver].
  split; [intros (?&[= <-]&?)|intros (?&[= <-]&?)]; eexists; split; eauto.
Qed.
Lemma mv_lookup s f o : fs_fds s !! f = Some o -> mv_objs (mv s) !! f = Some (meth_obj o).
Proof. intros H. cbn. by rewrite lookup_fmap, H. Qed.
Lemma cv_lookup s f o : fs_fds s !! f = Some o -> cv_fds (cv s) !! f = Some (core_obj o).
Proof. intros H. cbn. by rewrite lookup_fmap, H. Qed.
Lemma mv_lookup_inv s f m : mv_objs (mv s) !! f = Some m -> exists o, fs_fds s !! f = Some o /\ m = meth_obj o.
Proof. cbn. rewrite lookup_fmap. destruct (fs_fds s !! f); cbn; [|done]. intros [= <-]. eauto. Qed.
Lemma cv_lookup_inv s f c : cv_fds (cv s) !! f = Some c -> exists o, fs_fds s !! f = Some o /\ c = core_obj o.
Proof. cbn. rewrite lookup_fmap. destruct (fs_fds s !! f); cbn; [|done]. intros [= <-]. eauto. Qed.

Definition upd (f : loc) (o : iv_fd_) (s : fd_state P W) : fd_state P W := set_fs_fds (<[f := o]> (fs_fds s)) s.
Lemma mv_upd s f o : mv (upd f o s) = with_objs (<[f := meth_obj o]> (mv_objs (mv s))) (mv s).
Proof. unfold mv, with_objs. cbn. by rewrite fmap_insert. Qed.
Lemma mv_upd_same s f o o' : fs_fds s !! f = Some o -> meth_obj o' = meth_obj o -> mv (upd f o' s) = mv s.
Proof.
  intros Hf E. rewrite mv_upd, E. unfold with_objs, mv. cbn. f_equal.
  rewrite insert_id; [done|]. by rewrite lookup_fmap, Hf.
Qed.

Lemma quiet_refl s : quiet s s.
Proof. done. Qed.
Lemma quiet_trans s1 s2 s3 : quiet s1 s2 -> quiet s2 s3 -> quiet s1 s3.
Proof. intros [] []. split; congruence. Qed.
(** What the core knows of an object survives a quiet step. *)
Lemma quiet_lookup s s' f o : quiet s s' -> fs_fds s !! f = Some o ->
  exists o', fs_fds s' !! f = Some o' /\ core_obj o' = core_obj o.
Proof.
  intros [E _] Hf. apply cv_lookup in Hf. rewrite <-E in Hf.
  apply cv_lookup_inv in Hf as (o'&?&?). eauto.
Qed.

Lemma load_fd_Ok s f o : fs_fds s !! f = Some o -> load_fd f s = Ok (o, s).
Proof. intros H. unfold load_fd. msimpl. by rewrite H. Qed.
Lemma upd_fd_Ok s f o g : fs_fds s !! f = Some o -> upd_fd f g s = Ok (tt, upd f (g o) s).
Proof. intros H. unfold upd_fd. mrun (load_fd_Ok _ _ _ H). reflexivity. Qed.
Lemma on_active_Ok s step q : step (fs_active s) = Some q -> on_active step s = Ok (tt, set_fs_active q s).
Proof. intros H. unfold on_active. msimpl. by rewrite H. Qed.
Lemma on_notify_Ok s step q : step (fs_notify s) = Some q -> on_notify step s = Ok (tt, set_fs_notify q s).
Proof. intros H. unfold on_notify. msimpl. by rewrite H. Qed.
Lemma kernel_Ok {A} (call : W -> A * W) s a w : call (fs_w s) = (a, w) -> kernel call s = Ok (a, set_fs_w w s).
Proof. intros H. unfold kernel. by rewrite H. Qed.
Lemma lookup_upd s f o g : fs_fds (upd f o s) !! g = if decide (f = g) then Some o else fs_fds s !! g.
Proof. apply lookup_insert. Qed.
Lemma lookup_upd_eq s f o : fs_fds (upd f o s) !! f = Some o.
Proof. apply lookup_insert_eq. Qed.
Lemma upd_upd s f o o' : upd f o (upd f o' s) = upd f o s.
Proof. unfold upd, set_fs_fds. cbn. by rewrite insert_insert_eq. Qed.
End views.

(** Counting the registered objects. *)
Lemma num_registered_insert_other m f o o' : m !! f = Some o -> registered o' = registered o ->
  num_registered (<[f := o']> m) = num_registered m.
Proof.
  intros Hf E. unfold num_registered. destruct (registered o) eqn:Er.
  - rewrite map_filter_insert_True by done.
    rewrite map_size_insert_Some; [done|]. exists o. by apply map_lookup_filter_Some.
  - rewrite map_filter_insert_False by (cbn; congruence). f_equal. f_equal.
    rewrite map_filter_delete, delete_id; [done|]. apply map_lookup_filter_None. right.
    intros x Hx. cbn. congruence.
Qed.
Lemma num_registered_fresh m f o' : ~ is_registered m f -> registered o' = false ->
  num_registered (<[f := o']> m) = num_registered m.
Proof.
  intros Hf E. unfold num_registered. rewrite map_filter_insert_False by (cbn; congruence).
  do 2 f_equal. rewrite map_filter_delete, delete_id; [done|]. apply map_lookup_filter_None.
  destruct (m !! f) as [o|] eqn:Ef; [|by left]. right. intros x [= <-]. cbn. intros Hr.
  apply Hf. by exists o.
Qed.
Lemma num_registered_delete m f : ~ is_registered m f -> num_registered (delete f m) = num_registered m.
Proof.
  intros Hf. unfold num_registered. rewrite map_filter_delete, delete_id; [done|].
  apply map_lookup_filter_None.
  destruct (m !! f) as [o|] eqn:Ef; [|by left]. right. intros x [= <-]. cbn. intros Hr.
  apply Hf. by exists o.
Qed.
Lemma num_registered_add m f o' : ~ is_registered m f -> registered o' = true ->
  num_registered (<[f := o']> m) = num_registered m + 1.
Proof.
  intros Hf E. unfold num_registered. rewrite map_filter_insert_True by done.
  rewrite map_size_insert_None; [lia|]. apply map_lookup_filter_None.
  destruct (m !! f) as [o|] eqn:Ef; [|by left]. right. intros x [= <-]. cbn. intros Hr.
  apply Hf. by exists o.
Qed.
Lemma num_registered_drop m f o' : is_registered m f -> registered o' = false ->
  num_registered (<[f := o']> m) = num_registered m - 1.
Proof.
  intros (o&Ho&Hr) E. unfold num_registered. rewrite map_filter_insert_False by (cbn; congruence).
  rewrite map_filter_delete.
  set (m' := filter _ m). assert (m' !! f = Some o) as Hm by (by apply map_lookup_filter_Some).
  rewrite map_size_delete_Some by eauto. enough (size m' <> 0)%nat by lia.
  intros H0. apply map_size_empty_inv in H0. by rewrite H0, lookup_empty in Hm.
Qed.

(** ** The clock, as the poll methods use it *)
Section clock.
Context {P W : Type} {clock_gettime : nat -> clockid -> option timespec} {gettimeofday : nat -> Z * Z}.

Lemma on_timer_spec {A} (m : M timer_state A) (s : fd_state P W) :
  (forall t, exists a t', m t = Ok (a, t')) ->
  exists a t', on_timer m s = Ok (a, set_fs_timer t' s).
Proof.
  intros H. destruct (H (fs_timer s)) as (a&t'&E). exists a, t'. unfold on_timer. by rewrite E.
Qed.

Lemma validate_total t : exists t', iv_validate_now clock_gettime gettimeofday t = Ok (tt, t').
Proof.
  unfold iv_validate_now, set_time. msimpl. destruct (tm_time_valid t); cbn; [by eexists|].
  unfold iv_time_get, count_reading, set_clock_source. msimpl.
  set (g := gettimeofday (tm_readings t)). destruct g as [sec usec].
  repeat (case_match; simplify_eq; cbn in *); by eexists.
Qed.

Lemma to_relative_total abs t : exists r t', to_relative clock_gettime gettimeofday abs t = Ok (r, t') /\
  (is_Some abs -> is_Some r).
Proof.
  unfold to_relative. destruct abs as [a|]; [|eexists None, _; split; [reflexivity|by intros []]].
  destruct (validate_total t) as [t' Ht]. mrun Ht. msimpl. case_match; eexists _, _; split; try reflexivity; by eexists.
Qed.

Lemma to_msec_total abs t : exists r t', to_msec clock_gettime gettimeofday abs t = Ok (r, t').
Proof.
  unfold to_msec. destruct abs as [a|]; [|by eexists _, _].
  destruct (to_relative_total (Some a) t) as (r&t'&E&[r' ->]); [by eexists|].
  mrun E. msimpl. by eexists _, _.
Qed.

Lemma on_to_relative abs (s : fd_state P W) : exists r t',
  on_timer (to_relative clock_gettime gettimeofday abs) s = Ok (r, set_fs_timer t' s).
Proof. apply on_timer_spec. intros t. destruct (to_relative_total abs t) as (r&t2&?&_). eauto. Qed.

Lemma on_to_msec abs (s : fd_state P W) : exists r t',
  on_timer (to_msec clock_gettime gettimeofday abs) s = Ok (r, set_fs_timer t' s).
Proof. apply on_timer_spec, to_msec_total. Qed.

Lemma invalidate_Ok (s : fd_state P W) : on_timer iv_invalidate_now s =
  Ok (tt, set_fs_timer (match iv_invalidate_now (fs_timer s) with Ok (_, t) => t | _ => fs_timer s end) s).
Proof. reflexivity. Qed.
End clock.
Arguments on_to_relative {P W} clock_gettime gettimeofday abs s.
Arguments on_to_msec {P W} clock_gettime gettimeofday abs s.
