(* ===== verification/FdCore.v ===== *)
(** * The file descriptor core is safe on top of any poll method

    Every call of the API, and every polling round, keeps the core and the poll
    method consistent, for any client that respects the contract. *)

From S2P Require Import Prelude ISeq Timer Sys Fd FdSpec.

Local Open Scope Z_scope.

(** ** Steps of a well-formed core *)
Lemma is_registered_insert m f c g : is_registered (<[f := c]> m) g <->
  (g = f /\ registered c = true) \/ (g <> f /\ is_registered m g).
Proof.
  unfold is_registered. destruct (decide (g = f)) as [->|Hne].
  - rewrite lookup_insert_eq. naive_solver.
  - rewrite lookup_insert_ne by done. naive_solver.
Qed.

Lemma core_ok_set v f c c' : core_ok v -> cv_fds v !! f = Some c -> registered c = true ->
  registered c' = true -> wanted_bands c' = wanted_flags c' ->
  core_ok (mk_cv (<[f := c']> (cv_fds v)) (cv_active v) (cv_numobjs v) (cv_numfds v) (cv_handled v)).
Proof.
  intros [Ha Hl Hk Hw Hn Ho Hh] Hf Hr Hr' Hw'.
  assert (forall g, is_registered (cv_fds v) g -> is_registered (<[f := c']> (cv_fds v)) g) as Hup.
  { intros g Hg. apply is_registered_insert. destruct (decide (g = f)); auto. }
  split; cbn; [done|auto| | | |done|auto].
  - intros g o. rewrite lookup_insert. case_decide as E; [subst; intros [= <-] _; eauto|eauto].
  - intros g o. rewrite lookup_insert. case_decide as E; [subst; by intros [= <-] _|eauto].
  - rewrite Hn. symmetry. eapply num_registered_insert_other; [done|congruence].
Qed.

Lemma core_ok_register v f c' q : core_ok v -> ~ is_registered (cv_fds v) f ->
  iq_init f (cv_active v) = Some q -> registered c' = true -> wanted_bands c' = wanted_flags c' ->
  core_ok (mk_cv (<[f := c']> (cv_fds v)) q (cv_numobjs v + 1) (cv_numfds v + 1) (cv_handled v)).
Proof.
  intros [Ha Hl Hk Hw Hn Ho Hh] Hf Hq Hr' Hw'.
  pose proof (iq_init_ok _ _ _ Ha Hq) as Hqo. unfold iq_init in Hq. case_decide; [done|]. injection Hq as <-.
  assert (forall g, is_registered (cv_fds v) g -> is_registered (<[f := c']> (cv_fds v)) g) as Hup.
  { intros g Hg. apply is_registered_insert. destruct (decide (g = f)) as [->|]; [done|auto]. }
  split; cbn; [done|auto| | | |lia|auto].
  - intros g o. rewrite lookup_insert. case_decide as E; [subst; intros _ _; right; set_solver|].
    intros Hg Hgr. destruct (Hk _ _ Hg Hgr); set_solver.
  - intros g o. rewrite lookup_insert. case_decide as E; [subst; by intros [= <-] _|eauto].
  - rewrite Hn. symmetry. by apply num_registered_add.
Qed.

Lemma core_ok_unregister v f c' q : core_ok v -> is_registered (cv_fds v) f ->
  iq_del f (cv_active v) = Some q -> registered c' = false ->
  core_ok (mk_cv (<[f := c']> (cv_fds v)) q (cv_numobjs v - 1) (cv_numfds v - 1)
    (if decide (cv_handled v = Some f) then None else cv_handled v)).
Proof.
  intros [Ha Hl Hk Hw Hn Ho Hh] Hf Hq Hr'.
  pose proof (iq_del_ok _ _ _ Ha Hq) as Hqo.
  assert (forall g, g ∈ members q <-> g ∈ members (cv_active v) /\ g <> f) as Hmq.
  { unfold iq_del in Hq. repeat case_decide; simplify_eq; cbn; intros g; [rewrite elem_of_remove; tauto|].
    split; [|tauto]. intros Hg. split; [done|]. by intros ->. }
  assert (forall g, g ∈ idle (cv_active v) -> g <> f -> g ∈ idle q) as Hiq.
  { unfold iq_del in Hq. repeat case_decide; simplify_eq; cbn; set_solver. }
  assert (forall g, g <> f -> is_registered (cv_fds v) g -> is_registered (<[f := c']> (cv_fds v)) g) as Hup.
  { intros g Hne Hg. apply is_registered_insert. auto. }
  split; cbn; [done| | | | |lia|].
  - intros g [Hg Hne]%Hmq. auto.
  - intros g o. rewrite lookup_insert. case_decide as E; [intros [= <-]; congruence|].
    intros Hg Hgr. destruct (Hk _ _ Hg Hgr); [left; by apply Hmq|right; auto].
  - intros g o. rewrite lookup_insert. case_decide as E; [intros [= <-]; congruence|eauto].
  - rewrite Hn. symmetry. by apply num_registered_drop.
  - intros g. case_decide as E; [done|]. intros Hg. apply Hup; [congruence|auto].
Qed.

(** An object that is not registered is the client's. *)
Lemma core_ok_client v f c q : core_ok v -> ~ is_registered (cv_fds v) f ->
  (forall c', c = Some c' -> registered c' = false) ->
  members q = members (cv_active v) -> idle q ⊆ {[f]} ∪ idle (cv_active v) ->
  (forall g, g <> f -> g ∈ idle (cv_active v) -> g ∈ idle q) ->
  core_ok (mk_cv (partial_alter (fun _ => c) f (cv_fds v)) q (cv_numobjs v) (cv_numfds v) (cv_handled v)).
Proof.
  intros [[Ha1 Ha2] Hl Hk Hw Hn Ho Hh] Hf Hc Hm Hi Hi'.
  assert (forall g, is_registered (cv_fds v) g -> is_registered (partial_alter (fun _ => c) f (cv_fds v)) g) as Hup.
  { intros g Hg. destruct (decide (g = f)) as [->|Hne]; [done|].
    unfold is_registered. by rewrite lookup_partial_alter_ne. }
  split; cbn.
  - split; rewrite Hm; [done|]. intros x Hx. pose proof (Ha2 x Hx).
    assert (x <> f) by (intros ->; auto). set_solver.
  - rewrite Hm. auto.
  - intros g o Hg Hr. destruct (decide (g = f)) as [->|Hne].
    + rewrite lookup_partial_alter_eq in Hg. rewrite (Hc _ Hg) in Hr. done.
    + rewrite lookup_partial_alter_ne in Hg by done. rewrite Hm. destruct (Hk _ _ Hg Hr); auto.
  - intros g o Hg Hr. destruct (decide (g = f)) as [->|Hne].
    + rewrite lookup_partial_alter_eq in Hg. rewrite (Hc _ Hg) in Hr. done.
    + rewrite lookup_partial_alter_ne in Hg by done. eauto.
  - rewrite Hn. symmetry. destruct c as [c|].
    + change (partial_alter _ _ _) with (<[f := c]> (cv_fds v)). apply num_registered_fresh; auto.
    + change (partial_alter _ _ _) with (delete f (cv_fds v)). by apply num_registered_delete.
  - done.
  - auto.
Qed.

Section core.
Context {P W : Type} `{!FdKernel W}.
Abbreviation St := (fd_state P W).
Context (method_of : method_name -> iv_fd_poll_method St).
Context {inv : option loc -> mview P W -> Prop} {can : iv_fd_ -> Prop}
  {can_reg : mview P W -> Z -> Z -> Prop} {unknown : mview P W -> loc -> Prop}
  `{HM : !PollMethod method_of inv can can_reg unknown}.
Context (handler : list activation -> list fd_call) (legal : fd_call -> St -> bool).

(** What the contract must give to a call that reaches the method. *)
Definition can_call (c : fd_call) (s : St) : Prop :=
  match c with
  | FInit _ | FAssign _ _ _ _ _ | FFree _ => True
  | FRegister f => forall o, fs_fds s !! f = Some o -> registered o = false -> 0 <= fd_fd o ->
      can_reg (mv s) (fd_fd o) (wanted_flags (set_registered true o))
  | FRegisterTry f => forall o, fs_fds s !! f = Some o -> registered o = false -> 0 <= fd_fd o ->
      let w := wanted_flags (set_registered true o) in
      can_reg (mv s) (fd_fd o) (if w =? 0 then Z.lor MASKIN MASKOUT else w)
  | FUnregister f => forall o, fs_fds s !! f = Some o -> registered o = true ->
      can (meth_obj (set_wanted_bands 0 (set_registered false o)))
  | FSetIn f h => forall o, fs_fds s !! f = Some o -> registered o = true ->
      can (meth_obj (set_wanted_bands (wanted_flags (set_handler_in h o)) o))
  | FSetOut f h => forall o, fs_fds s !! f = Some o -> registered o = true ->
      can (meth_obj (set_wanted_bands (wanted_flags (set_handler_out h o)) o))
  | FSetErr f h => forall o, fs_fds s !! f = Some o -> registered o = true ->
      can (meth_obj (set_wanted_bands (wanted_flags (set_handler_err h o)) o))
  end.

Definition fd_ok (s : St) : Prop := core_ok (cv s) /\ inv None (mv s).
Context (Hlegal : forall c s, fd_ok s -> legal c s = true -> can_call c s).

(** *** Kernel calls of the core *)
(** The objects, and the list of those to tell the kernel about. *)
Definition lists (s : St) : gmap loc iv_fd_ * iseq := (fs_fds s, fs_notify s).
Lemma kernel_step {A} (call : W -> A * W) s o (Hi : inv o (mv s)) :
  fdk_step (fs_w s) (call (fs_w s)).2 ->
  exists a s', kernel call s = Ok (a, s') /\ quiet s s' /\ inv o (mv s') /\ lists s' = lists s.
Proof.
  intros Hk. unfold kernel. destruct (call (fs_w s)) as [a w] eqn:E. eexists a, _.
  split_and!; [reflexivity|done| |done].
  exact (pm_kernel method_of o (mv s) w Hi Hk).
Qed.

Lemma epilogue_kernel s n o : inv o (mv s) ->
  wp anyf (iv_fd_set_cloexec n;; iv_fd_set_nonblock n;; kernel_ (sys_oobinline n)) s
    (fun _ s' => quiet s s' /\ inv o (mv s') /\ lists s' = lists s).
Proof.
  intros Hi. unfold iv_fd_set_cloexec, iv_fd_set_nonblock, kernel_.
  assert (forall {A} (call : W -> A * W) (B : Type) (k : A -> M St B) s1 Q,
    inv o (mv s1) -> quiet s s1 -> lists s1 = lists s -> fdk_step (fs_w s1) (call (fs_w s1)).2 ->
    (forall a s2, inv o (mv s2) -> quiet s s2 -> lists s2 = lists s -> wp anyf (k a) s2 Q) ->
    wp anyf (a ← kernel call; k a) s1 Q) as Hstep.
  { intros A call B k s1 Q Hi1 Hq1 Hf1 Hk Hc. destruct (kernel_step call s1 o Hi1 Hk) as (a&s2&He&Hq&Hi2&Hf2).
    wrun He. apply Hc; [done|by eapply quiet_trans|congruence]. }
  assert (forall (b : bool) (call : W -> unit * W) (B : Type) (k : unit -> M St B) s1 Q,
    inv o (mv s1) -> quiet s s1 -> lists s1 = lists s -> fdk_step (fs_w s1) (call (fs_w s1)).2 ->
    (forall a s2, inv o (mv s2) -> quiet s s2 -> lists s2 = lists s -> wp anyf (k a) s2 Q) ->
    wp anyf (a ← when b (kernel call); k a) s1 Q) as Hwhen.
  { intros b call B k s1 Q Hi1 Hq1 Hf1 Hk Hc. unfold when. destruct b; [by eapply Hstep|]. wprim. by apply Hc. }
  wbind. apply Hstep; [done|done|done|constructor|]. intros fl1 s1 Hi1 Hq1 Hf1.
  rewrite <-(wp_bind _ (when _ _) (fun _ => _)).
  apply Hwhen; [done..|constructor|]. intros _ s2 Hi2 Hq2 Hf2.
  wbind. apply Hstep; [done|done|done|constructor|]. intros fl2 s3 Hi3 Hq3 Hf3.
  rewrite <-(wp_bind _ (when _ _) (fun _ => _)).
  apply Hwhen; [done..|constructor|]. intros _ s4 Hi4 Hq4 Hf4.
  destruct (kernel_step (fun w => (tt, sys_oobinline n w)) s4 o Hi4) as (a&s5&He&Hq&Hi5&Hf5); [constructor|].
  eapply wp_Ok; [exact He|]. split_and!; [by eapply quiet_trans|done|congruence].
Qed.

(** *** Calls *)

(** A call never adds to the active list nor makes an object current. *)
Record kept (s s' : St) : Prop := {
  kept_ok : fd_ok s';
  kept_ran : fs_ran s' = fs_ran s;
  kept_active : sublist (members (fs_active s')) (members (fs_active s));
  kept_handled : fs_handled s' = fs_handled s \/ fs_handled s' = None }.

Lemma kept_core (s s' : St) : fd_ok s' -> fs_ran s' = fs_ran s -> fs_active s' = fs_active s ->
  fs_handled s' = fs_handled s -> kept s s'.
Proof. intros ?? E ?. split; [done..|by rewrite E|by left]. Qed.

Lemma cv_quiet_upd (s : St) f o' (s' : St) : quiet (upd f o' s) s' ->
  cv s' = mk_cv (<[f := core_obj o']> (cv_fds (cv s))) (fs_active s) (fs_numobjs s) (fs_numfds s) (fs_handled s).
Proof. intros [E _]. rewrite E. unfold cv, upd. cbn. by rewrite fmap_insert. Qed.

Lemma recompute_Ok (s : St) f o : fs_fds s !! f = Some o ->
  recompute_wanted_flags f s = Ok (tt, upd f (set_wanted_bands (wanted_flags o) o) s).
Proof. intros Hf. unfold recompute_wanted_flags. by rewrite (upd_fd_Ok _ _ _ _ Hf). Qed.

Lemma notify_changed (s : St) f o o' : fd_ok s -> fs_fds s !! f = Some o -> registered o = true ->
  meth_obj o' = meth_obj o -> can (meth_obj (set_wanted_bands (wanted_flags o') o')) ->
  wp anyf (notify_fd method_of f) (upd f o' s) (fun _ s' => kept s s').
Proof.
  intros [Hc Hi] Hf Hr Em Hcan. unfold notify_fd.
  assert (registered o' = true) as Hr' by (assert (registered (meth_obj o') = registered (meth_obj o)) as E by congruence; cbn in E; congruence).
  wrun (recompute_Ok _ _ _ (lookup_upd_eq s f o')).
  rewrite upd_upd. set (o2 := set_wanted_bands (wanted_flags o') o').
  assert (mv (upd f o2 s) = with_objs (<[f := set_registered true (set_wanted_bands (wanted_flags o') (meth_obj o))]>
      (mv_objs (mv s))) (mv s)) as Emv.
  { rewrite mv_upd. f_equal. f_equal. rewrite <-Em. unfold o2, meth_obj. cbn. by rewrite Hr'. }
  eapply wp_mono; [apply (pm_notify method_of _ f (meth_obj o2))|].
  - rewrite Emv. eapply (pm_set method_of); [|by apply mv_lookup].
    eapply (pm_open method_of); [done|]. apply is_registered_meth. by exists o.
  - rewrite mv_upd. apply lookup_insert_eq.
  - done.
  - done.
  - cbv beta. intros _ s' [Hq Hi']. pose proof Hq as [Ecv Eran].
    assert (quiet (upd f o2 s) s') as Hq' by done. apply cv_quiet_upd in Hq'.
    assert (fs_active s' = fs_active s /\ fs_handled s' = fs_handled s) as [Ea Eh] by (injection Hq'; auto).
    apply kept_core; [split; [|done]|done|done|done].
    rewrite Hq'. apply (core_ok_set (cv s) f (core_obj o)); [done|by apply cv_lookup|done..].
Qed.

Lemma set_handler_kept (s : St) f o g msg : fd_ok s -> fs_fds s !! f = Some o ->
  meth_obj (g o) = meth_obj o ->
  (registered o = true -> can (meth_obj (set_wanted_bands (wanted_flags (g o)) (g o)))) ->
  wp anyf (o ← load_fd f; if negb (registered o) then iv_fatal msg
           else upd_fd f g;; notify_fd method_of f) s (fun _ s' => kept s s').
Proof.
  intros Hok Hf Em Hcan. wrun (load_fd_Ok _ _ _ Hf). destruct (registered o) eqn:Hr; [|done].
  cbn [negb]. wrun (upd_fd_Ok _ _ _ g Hf). specialize (Hcan eq_refl). by eapply notify_changed.
Qed.

Lemma client_kept (s : St) f c q q' (Hok : fd_ok s) : ~ is_registered (fs_fds s) f ->
  (forall c', c = Some c' -> registered c' = false) ->
  members q = members (fs_active s) -> idle q ⊆ idle (fs_active s) ->
  (forall g, g <> f -> g ∈ idle (fs_active s) -> g ∈ idle q) ->
  members q' = members (fs_notify s) -> idle q' ⊆ idle (fs_notify s) ->
  (forall g, g <> f -> g ∈ idle (fs_notify s) -> g ∈ idle q') ->
  kept s (set_fs_notify q' (set_fs_active q (set_fs_fds (partial_alter (fun _ => c) f (fs_fds s)) s))).
Proof.
  intros Hf Hc Hm Hi Hi' Hm' Hj Hj'. destruct Hok as [Hco Hin].
  assert (forall (h : iv_fd_ -> iv_fd_) (m : gmap loc iv_fd_), h <$> partial_alter (fun _ => c) f m =
    partial_alter (fun _ => h <$> c) f (h <$> m)) as Efmap.
  { intros h m. apply map_eq. intros g. rewrite lookup_fmap. destruct (decide (g = f)) as [->|Hne].
    - by rewrite !lookup_partial_alter_eq.
    - by rewrite !lookup_partial_alter_ne, lookup_fmap. }
  split; [split|done|cbn; by rewrite Hm|by left].
  - unfold cv. cbn. rewrite Efmap. apply (core_ok_client (cv s)); try done.
    + by rewrite is_registered_core.
    + intros c' Hc'. apply fmap_Some in Hc' as (c0&Hc0&->). cbn. auto.
    + cbn. set_solver.
  - unfold mv. cbn. rewrite Efmap. apply (pm_not_registered method_of (mv s)); try done.
    + by rewrite is_registered_meth.
    + intros m Hm1. apply fmap_Some in Hm1 as (c0&Hc0&->). cbn. auto.
    + intros g Hg. cbn. split; [apply Hj|auto].
    + apply Hj.
Qed.
Lemma not_member_active (s : St) f : fd_ok s -> ~ is_registered (fs_fds s) f -> f ∉ members (fs_active s).
Proof.
  intros [Hc _] Hf Hm. apply Hf. rewrite <-is_registered_core. by apply (co_listed _ Hc).
Qed.
Lemma not_member_notify (s : St) f : fd_ok s -> ~ is_registered (fs_fds s) f -> f ∉ members (fs_notify s).
Proof.
  intros [_ Hi] Hf Hm. apply Hf. rewrite <-is_registered_meth. by apply (pm_free_notify method_of _ f Hi).
Qed.
Lemma not_registered (s : St) f o : fs_fds s !! f = Some o -> registered o = false -> ~ is_registered (fs_fds s) f.
Proof. intros Hf Hr (o'&Hf'&Hr'). congruence. Qed.

(** The state after the prologue of a registration. *)
Record prologue_done (f : loc) (w : Z) (s s' : St) : Prop := {
  pd_new : ~ is_registered (fs_fds s) f;
  pd_obj : exists o o1, fs_fds s !! f = Some o /\ fs_fds s' !! f = Some o1 /\
    core_obj o1 = core_obj (set_ready_bands 0 (set_registered true o)) /\
    can (set_wanted_bands w (meth_obj o1));
  pd_cv : exists q o1, iq_init f (fs_active s) = Some q /\ fs_fds s' !! f = Some o1 /\
    cv s' = mk_cv (<[f := core_obj o1]> (cv_fds (cv s))) q (fs_numobjs s) (fs_numfds s) (fs_handled s);
  pd_ran : fs_ran s' = fs_ran s;
  pd_inv : inv (Some f) (mv s');
  pd_unknown : unknown (mv s') f }.

Lemma prologue_spec (s : St) f o w : fd_ok s -> fs_fds s !! f = Some o ->
  (registered o = false -> 0 <= fd_fd o -> can_reg (mv s) (fd_fd o) w) ->
  wp anyf (iv_fd_register_prologue method_of f) s (fun _ s' => prologue_done f w s s').
Proof.
  intros Hok Hf Hcan. unfold iv_fd_register_prologue. wrun (load_fd_Ok _ _ _ Hf).
  destruct (registered o) eqn:Hr; [done|]. destruct (Z.ltb_spec (fd_fd o) 0); [done|].
  specialize (Hcan eq_refl ltac:(done)).
  pose proof (not_registered _ _ _ Hf Hr) as Hnr.
  pose proof (not_member_active _ _ Hok Hnr) as Hna. pose proof (not_member_notify _ _ Hok Hnr) as Hnn.
  set (qa := mk_iseq (members (fs_active s)) ({[f]} ∪ idle (fs_active s))).
  set (qn := mk_iseq (members (fs_notify s)) ({[f]} ∪ idle (fs_notify s))).
  assert (iq_init f (fs_active s) = Some qa) as Eqa by (unfold iq_init; by rewrite decide_False).
  assert (iq_init f (fs_notify s) = Some qn) as Eqn by (unfold iq_init; by rewrite decide_False).
  wrun (upd_fd_Ok _ _ _ (set_registered true) Hf). wrun (on_active_Ok (upd f (set_registered true o) s) _ _ Eqa).
  set (s1 := set_fs_active qa (upd f (set_registered true o) s)).
  assert (fs_fds s1 !! f = Some (set_registered true o)) as Hf1 by apply lookup_upd_eq.
  wrun (upd_fd_Ok _ _ _ (set_ready_bands 0) Hf1).
  wrun (upd_fd_Ok _ _ _ (set_registered_bands 0) (lookup_upd_eq s1 f (set_ready_bands 0 (set_registered true o)))).
  rewrite upd_upd. set (o1 := set_registered_bands 0 (set_ready_bands 0 (set_registered true o))).
  wrun (on_notify_Ok (upd f o1 s1) _ _ Eqn). set (s2 := set_fs_notify qn (upd f o1 s1)).
  assert (s2 = set_fs_notify qn (set_fs_active qa (upd f o1 s))) as Es2.
  { unfold s2, s1, upd, set_fs_notify, set_fs_active, set_fs_fds. cbn. by rewrite insert_insert_eq. }
  eapply wp_mono; [apply (pm_register method_of s2 (mv s) f (meth_obj o1) qn w)|].
  - apply Hok.
  - by rewrite is_registered_meth.
  - done.
  - done.
  - done.
  - done.
  - rewrite Es2. unfold mv, upd. cbn. by rewrite fmap_insert.
  - cbv beta. intros _ s' (Hq&Hi&Hu&m'&Hm'&Hc). apply mv_lookup_inv in Hm' as (o'&Ho'&->).
    assert (fs_fds s2 !! f = Some o1) as Ho1 by (rewrite Es2; apply lookup_insert_eq).
    destruct (quiet_lookup _ _ _ _ Hq Ho1) as (o''&Ho''&Ecore).
    assert (o'' = o') as -> by congruence. destruct Hq as [Ecv Eran].
    split; [done| | | |done|done].
    + exists o, o'. split_and!; [done|done| |done]. rewrite Ecore. done.
    + exists qa, o'. split_and!; [done|done|]. rewrite Ecv, Es2. unfold cv, upd. cbn. rewrite fmap_insert, Ecore. done.
    + rewrite Eran, Es2. done.
Qed.

(** The end of a registration: counters and kernel flags. *)
Lemma epilogue_spec (s0 : St) (s : St) f o : fd_ok s0 -> ~ is_registered (fs_fds s0) f ->
  fs_fds s !! f = Some o -> registered o = true -> wanted_bands o = wanted_flags o ->
  (exists q, iq_init f (fs_active s0) = Some q /\
    cv s = mk_cv (<[f := core_obj o]> (cv_fds (cv s0))) q (fs_numobjs s0) (fs_numfds s0) (fs_handled s0)) ->
  fs_ran s = fs_ran s0 -> inv None (mv s) ->
  wp anyf (iv_fd_register_epilogue f) s (fun _ s' => kept s0 s').
Proof.
  intros Hok Hnr Hf Hr Hw (q&Hq&Ecv) Eran Hi. unfold iv_fd_register_epilogue. do 2 wprim.
  set (s1 := set_fs_numfds _ _).
  assert (mv s1 = mv s) as Emv by done.
  wrun (load_fd_Ok s1 f o Hf). eapply wp_mono; [apply (epilogue_kernel s1 (fd_fd o) None); by rewrite Emv|].
  cbv beta. intros _ s' ([Ecv' Eran']&Hi'&_).
  assert (cv s' = mk_cv (<[f := core_obj o]> (cv_fds (cv s0))) q (fs_numobjs s0 + 1) (fs_numfds s0 + 1)
    (fs_handled s0)) as Ecv2.
  { rewrite Ecv'. unfold cv in Ecv |- *. injection Ecv as E1 E2 E3 E4 E5. unfold s1. cbn.
    by rewrite E1, E2, E3, E4, E5. }
  assert (fs_active s' = q /\ fs_handled s' = fs_handled s0) as [Ea Eh] by (injection Ecv2; auto).
  split; [split; [|done]|by rewrite Eran'| |by left].
  - rewrite Ecv2. apply (core_ok_register (cv s0)); try done; [apply Hok|by rewrite is_registered_core].
  - rewrite Ea. unfold iq_init in Hq. case_decide; [done|]. by injection Hq as <-.
Qed.

Lemma register_kept (s : St) f o : fd_ok s -> fs_fds s !! f = Some o -> can_call (FRegister f) s ->
  wp anyf (iv_fd_register method_of f) s (fun _ s' => kept s s').
Proof.
  intros Hok Hf Hcan. unfold iv_fd_register.
  wuse (prologue_spec s f o _ Hok Hf (Hcan o Hf)). destruct H as [Hnr (o'&o1&Hf'&Hf1&Ecore&Hc1) Hcv Hran Hi Hu].
  assert (o' = o) as -> by congruence. rename s' into s1.
  assert (registered o1 = true /\ fd_fd o1 = fd_fd o /\ wanted_flags o1 = wanted_flags (set_registered true o))
    as (Hr1&_&Ew).
  { unfold core_obj in Ecore. destruct o1, o. cbn in Ecore. injection Ecore as -> -> -> -> -> -> ->. done. }
  unfold notify_fd. wbind. wrun (recompute_Ok _ _ _ Hf1). set (o2 := set_wanted_bands (wanted_flags o1) o1).
  assert (mv (upd f o2 s1) = with_objs (<[f := set_registered true (set_wanted_bands (wanted_flags o1) (meth_obj o1))]>
      (mv_objs (mv s1))) (mv s1)) as Emv.
  { rewrite mv_upd. do 2 f_equal. unfold o2, meth_obj. cbn. by rewrite Hr1. }
  eapply wp_mono; [apply (pm_notify method_of (upd f o2 s1) f (meth_obj o2))|].
  - rewrite Emv. eapply (pm_set method_of); [done|by apply mv_lookup].
  - rewrite mv_upd. apply lookup_insert_eq.
  - unfold o2. rewrite Ew. exact Hc1.
  - done.
  - cbv beta. intros _ s2 [Hq2 Hi2]. destruct (quiet_lookup _ _ f o2 Hq2 (lookup_upd_eq _ _ _)) as (o3&Hf3&Ec3).
    destruct Hcv as (q&o1'&Hq&Hf1'&Ecv). assert (o1' = o1) as -> by congruence.
    pose proof Hq2 as [Ecv2 Eran2]. assert (quiet (upd f o2 s1) s2) as Hq2' by done. apply cv_quiet_upd in Hq2'.
    eapply epilogue_spec; [done|done|exact Hf3| | | |by rewrite Eran2|done].
    + change (registered o3) with (registered (core_obj o3)). by rewrite Ec3.
    + change (wanted_bands o3) with (wanted_bands (core_obj o3)).
      change (wanted_flags o3) with (wanted_flags (core_obj o3)). rewrite Ec3. done.
    + exists q. split; [done|]. rewrite Hq2', Ec3. unfold cv in Ecv |- *. injection Ecv as E1 E2 E3 E4 E5. cbn.
      rewrite E1, E2, E3, E4, E5. by rewrite insert_insert_eq.
Qed.
Lemma core_obj_flags o o' : core_obj o = core_obj o' ->
  registered o = registered o' /\ wanted_bands o = wanted_bands o' /\ wanted_flags o = wanted_flags o' /\
  fd_fd o = fd_fd o'.
Proof.
  intros E. pose proof (f_equal registered E). pose proof (f_equal wanted_bands E).
  pose proof (f_equal wanted_flags E). pose proof (f_equal fd_fd E). done.
Qed.
Lemma cv_upd (s : St) f o q a b h m : cv s = mk_cv (<[f := o]> m) q a b h ->
  forall o', cv (upd f o' s) = mk_cv (<[f := core_obj o']> m) q a b h.
Proof.
  unfold cv, upd. cbn. intros [= E1 -> -> -> ->] o'. by rewrite fmap_insert, E1, insert_insert_eq.
Qed.
Lemma mv_upd_flags (s : St) f o b w : fs_fds s !! f = Some o ->
  mv (upd f (set_registered b (set_wanted_bands w o)) s) =
  with_objs (<[f := set_registered b (set_wanted_bands w (meth_obj o))]> (mv_objs (mv s))) (mv s).
Proof. intros _. by rewrite mv_upd. Qed.
Lemma set_registered_id b o : registered o = b -> set_registered b o = o.
Proof. destruct o; cbn. by intros ->. Qed.

(** The wanted bands of an object that is registered change. *)
Lemma inv_set_wanted (s : St) f o w : inv (Some f) (mv s) -> fs_fds s !! f = Some o ->
  inv (Some f) (mv (upd f (set_wanted_bands w o) s)).
Proof.
  intros Hi Hf. pose proof (mv_upd_flags s f o (registered o) w Hf) as E.
  rewrite set_registered_id in E by done. rewrite E.
  by apply (pm_set method_of); [|by apply mv_lookup].
Qed.

Lemma abandon_kept (s s1 : St) f o1 q : fd_ok s -> ~ is_registered (fs_fds s) f ->
  fs_fds s1 !! f = Some o1 -> inv (Some f) (mv s1) -> unknown (mv s1) f ->
  iq_init f (fs_active s) = Some q -> is_Some (fs_fds s !! f) ->
  cv s1 = mk_cv (<[f := core_obj o1]> (cv_fds (cv s))) q (fs_numobjs s) (fs_numfds s) (fs_handled s) ->
  fs_ran s1 = fs_ran s ->
  wp anyf (upd_fd f (set_registered false);; method_unregister method_of f) s1 (fun _ s' => kept s s').
Proof.
  intros Hok Hnr Hf Hi Hu Hq _ Ecv Eran. wrun (upd_fd_Ok _ _ _ (set_registered false) Hf).
  set (s2 := upd f (set_registered false o1) s1).
  assert (mv s2 = with_objs (<[f := set_registered false (set_wanted_bands (wanted_bands o1) (meth_obj o1))]>
     (mv_objs (mv s1))) (mv s1)) as Emv by apply mv_upd.
  eapply wp_mono; [apply (pm_abandon method_of s2 f (meth_obj (set_registered false o1)))|].
  - rewrite Emv. by apply (pm_set method_of); [|by apply mv_lookup].
  - apply mv_lookup, lookup_upd_eq.
  - done.
  - rewrite Emv. by apply (pm_unknown_set method_of); [|by apply mv_lookup].
  - cbv beta. intros _ s' ([Ecv' Eran']&Hi').
    pose proof (cv_upd s1 f _ _ _ _ _ _ Ecv (set_registered false o1)) as Ecv2. fold s2 in Ecv2.
    rewrite Ecv2 in Ecv'.
    assert (fs_active s' = q /\ fs_handled s' = fs_handled s) as [Ea Eh] by (injection Ecv'; auto).
    unfold iq_init in Hq. case_decide as Hfa; [done|]. injection Hq as <-.
    split; [split; [|done]|by rewrite Eran'|by rewrite Ea|by left].
    rewrite Ecv'. change (<[f := ?c]> ?m) with (partial_alter (fun _ => Some c) f m).
    apply (core_ok_client (cv s)); try done; [apply Hok|by rewrite is_registered_core|by intros ? [= <-]|].
    intros g Hne Hg. cbn. set_solver.
Qed.

Lemma register_try_kept (s : St) f o : fd_ok s -> fs_fds s !! f = Some o -> can_call (FRegisterTry f) s ->
  wp anyf (iv_fd_register_try method_of f) s (fun _ s' => kept s s').
Proof.
  intros Hok Hf Hcan. unfold iv_fd_register_try. specialize (Hcan o Hf). cbv zeta in Hcan.
  wuse (prologue_spec s f o _ Hok Hf Hcan). destruct H as [Hnr (o'&o1&Hf'&Hf1&Ecore&_) Hcv Hran Hi Hu].
  assert (o' = o) as -> by congruence. rename s' into s1.
  destruct (core_obj_flags _ _ Ecore) as (Hr1&_&Ew&_). cbn in Hr1.
  change (wanted_flags (set_ready_bands 0 (set_registered true o))) with (wanted_flags (set_registered true o)) in Ew.
  set (wf := wanted_flags (set_registered true o)) in *.
  wrun (recompute_Ok _ _ _ Hf1). rewrite Ew. set (o2 := set_wanted_bands wf o1).
  wrun (load_fd_Ok _ _ _ (lookup_upd_eq s1 f o2)). cbn [wanted_bands set_wanted_bands o2].
  change (wanted_bands o2) with wf.
  set (w := if wf =? 0 then Z.lor MASKIN MASKOUT else wf). set (o3 := set_wanted_bands w o1).
  assert (w <> 0) as Hw0 by (unfold w; destruct (Z.eqb_spec wf 0); [done|done]).
  set (s2 := upd f o3 s1).
  assert (when (wf =? 0) (upd_fd f (set_wanted_bands (Z.lor MASKIN MASKOUT))) (upd f o2 s1) = Ok (tt, s2)) as Ewhen.
  { unfold s2, o3, w, when. destruct (wf =? 0); [|done].
    rewrite (upd_fd_Ok _ _ _ _ (lookup_upd_eq s1 f o2)). by rewrite upd_upd. }
  wrun Ewhen.
  assert (fs_fds s2 !! f = Some o3) as Hf2 by apply lookup_upd_eq.
  assert (inv (Some f) (mv s2)) as Hi2 by (by apply inv_set_wanted).
  assert (unknown (mv s2) f) as Hu2.
  { unfold s2, o3. pose proof (mv_upd_flags s1 f o1 true w Hf1) as E. rewrite set_registered_id in E by done.
    rewrite E. by apply (pm_unknown_set method_of); [|by apply mv_lookup]. }
  destruct Hcv as (q&o1'&Hq&Hf1'&Ecv). assert (o1' = o1) as -> by congruence.
  wbind.
  eapply wp_mono; [apply (pm_sync method_of s2 f (meth_obj o3)); [done|by apply mv_lookup|done|done|done]|].
  cbv beta. intros ret s3 (Hq3&Hret).
  destruct (quiet_lookup _ _ f o3 Hq3 Hf2) as (o4&Hf4&Ec4). pose proof Hq3 as [Ecv3 Eran3].
  assert (cv s3 = mk_cv (<[f := core_obj o4]> (cv_fds (cv s))) q (fs_numobjs s) (fs_numfds s) (fs_handled s)) as Ecv4.
  { rewrite Ecv3, Ec4. unfold s2. by apply (cv_upd s1 f _ _ _ _ _ _ Ecv). }
  assert (fs_ran s3 = fs_ran s) as Eran4 by (rewrite Eran3; exact Hran).
  destruct (Z.eqb_spec ret 0) as [->|Hne]; cbn [negb].
  - rewrite decide_True in Hret by done. destruct Hret as (Hi3&m'&Hm'&Hcan').
    assert (m' = meth_obj o4) as -> by (apply mv_lookup in Hf4; congruence).
    destruct (core_obj_flags _ _ Ec4) as (Hr4&Hw4&Ewf4&_).
    assert (wanted_flags o4 = wf) as Ewf by (rewrite Ewf4; exact Ew).
    destruct (Z.eqb_spec wf 0) as [E0|E0].
    + unfold when. wbind. wrun (upd_fd_Ok _ _ _ (set_wanted_bands 0) Hf4).
      eapply wp_mono; [apply (pm_notify method_of (upd f (set_wanted_bands 0 o4) s3) f (meth_obj (set_wanted_bands 0 o4)))|].
      * apply inv_set_wanted; [|done]. apply (pm_open method_of); [done|].
        apply is_registered_meth. exists o4. split; [done|]. by rewrite Hr4.
      * apply mv_lookup, lookup_upd_eq.
      * exact (Hcan' 0).
      * cbn. by rewrite Hr4.
      * cbv beta. intros _ s4 [Hq4 Hi4].
        destruct (quiet_lookup _ _ f _ Hq4 (lookup_upd_eq _ _ _)) as (o5&Hf5&Ec5).
        pose proof Hq4 as [Ecv5 Eran5]. destruct (core_obj_flags _ _ Ec5) as (Hr5&Hw5&Ewf5&_).
        wbind. eapply wp_mono; [eapply epilogue_spec; [exact Hok|done|exact Hf5| | | | |done]|by cbv beta].
        -- rewrite Hr5. cbn. by rewrite Hr4.
        -- rewrite Hw5, Ewf5. cbn [wanted_bands set_wanted_bands].
           change (wanted_flags (set_wanted_bands 0 o4)) with (wanted_flags o4). congruence.
        -- exists q. split; [done|]. rewrite Ecv5, Ec5. by apply (cv_upd s3 f _ _ _ _ _ _ Ecv4).
        -- rewrite Eran5. exact Eran4.
    + unfold when. wprim. wbind.
      eapply wp_mono; [eapply epilogue_spec; [exact Hok|done|exact Hf4| | | | |done]|by cbv beta].
      * by rewrite Hr4.
      * rewrite Hw4, Ewf. unfold o3, w. cbn. by destruct (Z.eqb_spec wf 0).
      * by exists q.
      * done.
  - rewrite decide_False in Hret by done. destruct Hret as (Hi3&Hu3).
    pose proof (abandon_kept s s3 f o4 q Hok Hnr Hf4 Hi3 Hu3 Hq ltac:(by eexists) Ecv4 Eran4) as Hab.
    apply (proj1 (wp_assoc anyf (upd_fd f (set_registered false)) (fun _ => method_unregister method_of f)
      (fun _ => mret ret) s3 _)). wbind. eapply wp_mono; [exact Hab|]. by cbv beta.
Qed.
Lemma unregister_kept (s : St) f o : fd_ok s -> fs_fds s !! f = Some o -> can_call (FUnregister f) s ->
  wp anyf (iv_fd_unregister method_of f) s (fun _ s' => kept s s' /\ ~ is_registered (fs_fds s') f).
Proof.
  intros Hok Hf Hcan. unfold iv_fd_unregister. wrun (load_fd_Ok _ _ _ Hf).
  destruct (registered o) eqn:Hr; [|done]. cbn [negb].
  assert (is_registered (cv_fds (cv s)) f) as Hreg by (apply is_registered_core; by exists o).
  destruct Hok as [Hc Hi]. destruct (iq_del f (fs_active s)) as [q|] eqn:Hq.
  2:{ destruct (co_linked _ Hc f (core_obj o)) as [Hx|Hx]; [by apply cv_lookup|done|..];
      unfold iq_del in Hq; repeat case_decide; done. }
  wrun (upd_fd_Ok _ _ _ (set_registered false) Hf).
  wrun (on_active_Ok (upd f (set_registered false o) s) _ _ Hq).
  set (s1 := set_fs_active q (upd f (set_registered false o) s)).
  assert (fs_fds s1 !! f = Some (set_registered false o)) as Hf1 by apply lookup_upd_eq.
  unfold notify_fd. apply wp_assoc. wrun (recompute_Ok s1 _ _ Hf1).
  set (o2 := set_wanted_bands 0 (set_registered false o)).
  change (set_wanted_bands (wanted_flags (set_registered false o)) (set_registered false o)) with o2.
  assert (upd f o2 s1 = set_fs_active q (upd f o2 s)) as Es2.
  { unfold s1, upd, set_fs_active, set_fs_fds. cbn. by rewrite insert_insert_eq. }
  rewrite Es2. set (s2 := set_fs_active q (upd f o2 s)).
  assert (mv s2 = with_objs (<[f := set_registered false (set_wanted_bands 0 (meth_obj o))]> (mv_objs (mv s))) (mv s))
    as Emv by exact (mv_upd s f o2).
  pose proof (pm_unregister method_of s2 f (meth_obj o2)) as Hun.
  match goal with |- wp _ (?a ≫= (fun _ => ?b ≫= (fun _ => ?c))) _ _ =>
    apply (proj1 (wp_assoc anyf a (fun _ => b) (fun _ => c) s2 _)) end.
  wbind. eapply wp_mono; [apply Hun|].
  - rewrite Emv. apply (pm_set method_of); [|by apply mv_lookup].
    apply (pm_open method_of); [done|]. by apply is_registered_meth, is_registered_core.
  - apply mv_lookup. apply lookup_insert_eq.
  - by apply Hcan.
  - done.
  - done.
  - cbv beta. intros _ s3 ([Ecv Eran]&Hi3).
    assert (cv s2 = mk_cv (<[f := core_obj o2]> (cv_fds (cv s))) q (fs_numobjs s) (fs_numfds s) (fs_handled s))
      as Ecv2 by (unfold cv, s2, upd; cbn; by rewrite fmap_insert).
    rewrite Ecv2 in Ecv. do 3 wprim.
    set (s4 := set_fs_numfds _ _).
    assert (fs_handled s4 = fs_handled s) as Eh by (injection Ecv; auto).
    set (h := if decide (fs_handled s = Some f) then None else fs_handled s).
    assert (exists s5, when (ptr_eqb (fs_handled s4) (Some f)) (modify (set_fs_handled None)) s4 = Ok (tt, s5) /\
      cv s5 = mk_cv (<[f := core_obj o2]> (cv_fds (cv s))) q (fs_numobjs s - 1) (fs_numfds s - 1) h /\
      mv s5 = mv s3 /\ fs_ran s5 = fs_ran s3) as (s5&He5&Ecv5&Emv5&Eran5).
    { rewrite Eh. unfold h, ptr_eqb, when. injection Ecv as E1 E2 E3 E4 E5.
      case_decide as Ed; [rewrite bool_decide_true by done|rewrite bool_decide_false by done];
        (eexists; split; [reflexivity|]); split_and!; try done; unfold cv; cbn;
        cbn in E1, E2, E3, E4, E5; rewrite E1, E2, E3, E4, ?E5; reflexivity. }
    eapply wp_Ok; [exact He5|].
    assert (fs_active s5 = q /\ fs_handled s5 = h) as [Ea5 Eh5] by (injection Ecv5; auto).
    assert (core_ok (cv s5)) as Hc5.
    { rewrite Ecv5. by apply (core_ok_unregister (cv s)). }
    split; [split; [split; [done|by rewrite Emv5]|by rewrite Eran5, Eran| |]|].
    + rewrite Ea5. by apply (iq_del_sublist f).
    + rewrite Eh5. unfold h. case_decide; auto.
    + rewrite <-is_registered_core, Ecv5. cbn. rewrite is_registered_insert. cbn. naive_solver.
Qed.
Lemma client_call_kept (s : St) f c : fd_ok s -> ~ is_registered (fs_fds s) f ->
  (forall c', c = Some c' -> registered c' = false) ->
  kept s (set_fs_fds (partial_alter (fun _ => c) f (fs_fds s)) s).
Proof.
  intros Hok Hf Hc. pose proof (client_kept s f c (fs_active s) (fs_notify s) Hok Hf Hc) as H.
  apply H; done.
Qed.

Lemma free_fd_kept (s : St) f : fd_ok s -> ~ is_registered (fs_fds s) f ->
  wp anyf (free_fd f) s (fun _ s' => kept s s').
Proof.
  intros Hok Hf. unfold free_fd. wprim.
  set (qa := mk_iseq (members (fs_active s)) (idle (fs_active s) ∖ {[f]})).
  set (qn := mk_iseq (members (fs_notify s)) (idle (fs_notify s) ∖ {[f]})).
  set (s1 := set_fs_fds _ s).
  wrun (on_active_Ok s1 (fun q => if decide (f ∈ members q) then None
     else Some (mk_iseq (members q) (idle q ∖ {[f]}))) qa).
  { by rewrite decide_False by exact (not_member_active _ _ Hok Hf). }
  eapply wp_Ok; [apply (on_notify_Ok (set_fs_active qa s1) _ qn)|].
  { by rewrite decide_False by exact (not_member_notify _ _ Hok Hf). }
  apply (client_kept s f None qa qn); cbn; try done; set_solver.
Qed.

Lemma fd_call_kept (s : St) c : fd_ok s -> wp anyf (run_fd_call method_of legal c) s (fun _ s' => kept s s').
Proof.
  intros Hok. unfold run_fd_call. wprim. destruct (legal_fd_call legal c s) eqn:Hl; [|done]. cbn [negb].
  unfold legal_fd_call in Hl. apply andb_prop in Hl as [Hl Hlc]. apply Hlegal in Hlc; [|done].
  assert (forall f, bool_decide (is_Some (fs_fds s !! f)) = true -> exists o, fs_fds s !! f = Some o) as Hsome.
  { intros f Hf. apply bool_decide_eq_true in Hf. exact Hf. }
  assert (forall f b, match fs_fds s !! f with Some o => negb (registered o) | None => b end = true ->
    ~ is_registered (fs_fds s) f) as Hnr.
  { intros f b Hf (o&Ho&Hr). rewrite Ho, Hr in Hf. done. }
  destruct c as [f|f n hi ho he|f|f|f|f|f h|f h|f h].
  - eapply wp_Ok; [reflexivity|]. apply (client_call_kept s f (Some _)); eauto. by intros ? [= <-].
  - pose proof (Hnr _ _ Hl) as Hn. destruct (fs_fds s !! f) as [o|] eqn:Hf; [|done].
    eapply wp_Ok; [by apply upd_fd_Ok|]. apply (client_call_kept s f (Some _)); eauto.
    intros ? [= <-]. cbn. by apply negb_true_iff in Hl.
  - apply free_fd_kept; eauto.
  - destruct (Hsome _ Hl) as [o Hf]. by eapply register_kept.
  - destruct (Hsome _ Hl) as [o Hf]. wbind. eapply wp_mono; [by eapply register_try_kept|]. by cbv beta.
  - destruct (Hsome _ Hl) as [o Hf]. eapply wp_mono; [by eapply unregister_kept|]. by intros ? ? [? ?].
  - destruct (Hsome _ Hl) as [o Hf]. apply (set_handler_kept s f o (set_handler_in h)); [done|done|done|exact (Hlc o Hf)].
  - destruct (Hsome _ Hl) as [o Hf]. apply (set_handler_kept s f o (set_handler_out h)); [done|done|done|exact (Hlc o Hf)].
  - destruct (Hsome _ Hl) as [o Hf]. apply (set_handler_kept s f o (set_handler_err h)); [done|done|done|exact (Hlc o Hf)].
Qed.

Lemma kept_refl (s : St) : fd_ok s -> kept s s.
Proof. intros. split; [done|done|reflexivity|by left]. Qed.
Lemma kept_trans (s1 s2 s3 : St) : kept s1 s2 -> kept s2 s3 -> kept s1 s3.
Proof.
  intros [_ R1 A1 Hx1] [Ok2 R2 A2 Hx2]. split; [done|congruence|by etrans|].
  destruct Hx2 as [-> | ->]; auto.
Qed.

Lemma fd_calls_kept (s : St) cs : fd_ok s -> wp anyf (run_fd_calls method_of legal cs) s (fun _ s' => kept s s').
Proof.
  revert s. induction cs as [|c cs IH]; intros s Hok; [by apply kept_refl|]. cbn [run_fd_calls].
  wuse (fd_call_kept s c Hok). eapply wp_mono; [apply IH, H|]. cbv beta. intros _ s2 H2. by eapply kept_trans.
Qed.

(** *** A round *)

(** [l] was run since [s]. *)
Record ran_since (s s' : St) (l : list activation) : Prop := {
  rs_ok : fd_ok s';
  rs_ran : fs_ran s' = fs_ran s ++ l;
  rs_active : sublist (members (fs_active s')) (members (fs_active s));
  rs_handled : fs_handled s' = fs_handled s \/ fs_handled s' = None }.

Lemma ran_nothing (s : St) : fd_ok s -> ran_since s s [].
Proof. intros. split; [done|by rewrite app_nil_r|reflexivity|by left]. Qed.
Lemma ran_trans (s1 s2 s3 : St) l1 l2 : ran_since s1 s2 l1 -> ran_since s2 s3 l2 -> ran_since s1 s3 (l1 ++ l2).
Proof.
  intros [_ R1 A1 Hx1] [Ok2 R2 A2 Hx2]. split; [done|by rewrite R2, R1, app_assoc|by etrans|].
  destruct Hx2 as [-> | ->]; auto.
Qed.

Lemma activate_spec (s : St) a : fd_ok s ->
  wp anyf (activate method_of handler legal a) s (fun _ s' => ran_since s s' [a]).
Proof.
  intros Hok. unfold activate. do 2 wprim. set (s1 := set_fs_ran _ _).
  eapply wp_mono; [apply (fd_calls_kept s1); exact Hok|]. cbv beta. intros _ s' [Hok' Hr Ha Hh].
  split; [done|by rewrite Hr|done|done].
Qed.

Definition handler_for (band : Z) : iv_fd_ -> option fn :=
  if band =? MASKERR then handler_err else if band =? MASKIN then handler_in else handler_out.

(** An activation the specification allows: the object is registered, the band was
    reported, and there is a handler for it. *)
Definition allowed (a : activation) : Prop :=
  match a with
  | ARun _ band o => registered o = true /\ has (ready_bands o) band = true /\ is_Some (handler_for band o)
  | AEvents => True
  end.
Definition what (a : activation) : list (loc * Z) :=
  match a with ARun f band _ => [(f, band)] | AEvents => [] end.

(** What is to be done for a band of an object: its handler runs, if the band was
    reported and there is a handler for it at that moment. *)
Inductive band_done (f : loc) (mask : Z) (s : St) : list activation -> St -> Prop :=
  | band_runs o s' : fs_fds s !! f = Some o -> has (ready_bands o) mask = true -> is_Some (handler_for mask o) ->
      run_fd_calls method_of legal (handler (fs_ran s)) (set_fs_ran (fs_ran s ++ [ARun f mask o]) s) = Ok (tt, s') ->
      band_done f mask s [ARun f mask o] s'
  | band_skipped o : fs_fds s !! f = Some o -> has (ready_bands o) mask = false \/ handler_for mask o = None ->
      band_done f mask s [] s.
(** For an object: its bands in turn, until a handler unregisters it, which clears
    [handled_fd]. *)
Inductive bands_done (f : loc) : list Z -> St -> list activation -> St -> Prop :=
  | bands_none s : bands_done f [] s [] s
  | bands_gone s b bs : fs_handled s = None -> bands_done f (b :: bs) s [] s
  | bands_next s b bs l1 s1 l2 s2 : fs_handled s = Some f -> band_done f b s l1 s1 -> bands_done f bs s1 l2 s2 ->
      bands_done f (b :: bs) s (l1 ++ l2) s2.
(** For the objects reported: from the first of those left, error, input and output. *)
Inductive objects_done : St -> list activation -> St -> Prop :=
  | objects_none s : members (fs_active s) = [] -> objects_done s [] s
  | objects_next s f r l1 s1 l2 s2 : members (fs_active s) = f :: r ->
      bands_done f [MASKERR; MASKIN; MASKOUT]
        (set_fs_handled (Some f) (set_fs_active (mk_iseq r ({[f]} ∪ idle (fs_active s))) s)) l1 s1 ->
      objects_done s1 l2 s2 -> objects_done s (l1 ++ l2) s2.

Lemma run_band_spec (s : St) f o mask hof : fd_ok s -> fs_fds s !! f = Some o -> registered o = true ->
  hof = handler_for mask ->
  wp anyf (run_band method_of handler legal f mask hof) s (fun _ s' => exists l, ran_since s s' l /\
    Forall allowed l /\ sublist (l ≫= what) [(f, mask)] /\ band_done f mask s l s').
Proof.
  intros Hok Hf Hr ->. unfold run_band. wrun (load_fd_Ok _ _ _ Hf). unfold when.
  assert (has (ready_bands o) mask = false \/ handler_for mask o = None -> exists l, ran_since s s l /\
    Forall allowed l /\ sublist (l ≫= what) [(f, mask)] /\ band_done f mask s l s) as Hskip.
  { intros H. exists []. split_and!; [by apply ran_nothing|done|apply sublist_nil_l|by apply (band_skipped f mask s o)]. }
  destruct (has (ready_bands o) mask) eqn:Hb; [|by eapply wp_Ok; [reflexivity|]; apply Hskip; left].
  case_bool_decide as Hh.
  2:{ eapply wp_Ok; [reflexivity|]. apply Hskip. right. by apply eq_None_not_Some. }
  pose proof (activate_spec s (ARun f mask o) Hok) as Ha.
  eapply wp_mono; [apply wp_conj; [exact Ha|eapply wp_results; [exact Ha|intros a0 s0 E0; exact E0]]|].
  cbv beta. intros [] s' [Hs' E]. eexists. split_and!; [exact Hs'| |done|by eapply band_runs].
  by apply Forall_singleton.
Qed.

Lemma run_band_handled_spec (s : St) f mask hof : fd_ok s -> fs_handled s = Some f \/ fs_handled s = None ->
  hof = handler_for mask ->
  wp anyf (run_band_handled method_of handler legal f mask hof) s (fun _ s' => exists l, ran_since s s' l /\
    Forall allowed l /\ sublist (l ≫= what) [(f, mask)] /\
    (fs_handled s = None /\ l = [] /\ s' = s \/ fs_handled s = Some f /\ band_done f mask s l s')).
Proof.
  intros Hok Hh He. unfold run_band_handled. wprim. destruct Hh as [Hh|Hh]; rewrite Hh; cbn.
  - destruct (co_handled _ (proj1 Hok) f Hh) as (c&Hc&Hr). apply cv_lookup_inv in Hc as (o&Ho&->).
    eapply wp_mono; [by apply (run_band_spec s f o mask hof)|]. cbv beta. intros _ s' (l&?&?&?&?). exists l. split_and!; auto.
  - exists []. split_and!; [by apply ran_nothing|done|apply sublist_nil_l|by left].
Qed.

Definition bands_of (f : loc) : list (loc * Z) := [(f, MASKERR); (f, MASKIN); (f, MASKOUT)].

Lemma sublist_bands l1 l2 : sublist l1 l2 -> sublist (l1 ≫= bands_of) (l2 ≫= bands_of).
Proof.
  induction 1 as [|x l1 l2 _ IH|x l1 l2 _ IH]; [done|exact (sublist_app _ _ _ _ (reflexivity (bands_of x)) IH)|].
  exact (sublist_inserts_l (bands_of x) _ _ IH).
Qed.

(** Taking the first object off the active list. *)
Lemma take_active (s : St) f r : fd_ok s -> members (fs_active s) = f :: r ->
  let q := mk_iseq r ({[f]} ∪ idle (fs_active s)) in
  iq_del_init f (fs_active s) = Some q /\ fd_ok (set_fs_handled (Some f) (set_fs_active q s)) /\
  exists o, fs_fds s !! f = Some o /\ registered o = true.
Proof.
  intros [Hc Hi] Hm q. pose proof (co_active _ Hc) as Hiq. cbn in Hiq.
  pose proof (iq_nodup _ Hiq) as Hnd. rewrite Hm in Hnd. apply NoDup_cons in Hnd as Hnd'.
  assert (remove f (f :: r) = r) as Er by (apply (remove_split [] f r); exact Hnd).
  assert (iq_del_init f (fs_active s) = Some q) as Eq.
  { unfold iq_del_init. rewrite Hm, decide_True by set_solver. by rewrite Er. }
  assert (is_registered (cv_fds (cv s)) f) as Hreg by (apply (co_listed _ Hc); cbn; rewrite Hm; set_solver).
  split_and!; [done|split; [|done]|].
  - destruct Hc as [Ha Hl Hk Hw Hn Ho Hh]. split; cbn in *; try done.
    + by eapply iq_del_init_ok.
    + intros g Hg. apply Hl. rewrite Hm. set_solver.
    + intros g o Hg Hr. destruct (Hk _ _ Hg Hr) as [Hx|Hx]; [|set_solver].
      rewrite Hm in Hx. set_solver.
    + by intros g [= <-].
  - apply is_registered_core in Hreg. exact Hreg.
Qed.

Lemma active_loop_spec fuel (s : St) : fd_ok s -> (length (members (fs_active s)) < fuel)%nat ->
  wp anyf (active_loop method_of handler legal fuel) s (fun _ s' => exists l,
    fd_ok s' /\ fs_ran s' = fs_ran s ++ l /\ members (fs_active s') = [] /\ Forall allowed l /\
    sublist (l ≫= what) (members (fs_active s) ≫= bands_of) /\ objects_done s l s').
Proof.
  revert s. induction fuel as [|fuel IH]; intros s Hok Hlen; [lia|]. cbn [active_loop].
  wprim. destruct (members (fs_active s)) as [|f r] eqn:Hm.
  { eapply wp_Ok; [reflexivity|]. exists []. rewrite app_nil_r. split_and!; try done. by constructor. }
  destruct (take_active s f r Hok Hm) as (Hdel&Hok1&o&Hf&Hr).
  set (q := mk_iseq r ({[f]} ∪ idle (fs_active s))) in *.
  wrun (on_active_Ok s _ _ Hdel). wprim. set (s1 := set_fs_handled (Some f) (set_fs_active q s)) in *.
  wbind. eapply wp_mono; [apply (run_band_spec s1 f o); done|]. cbv beta. intros _ s2 (l1&[O2 R2 A2 H2]&F1&S1&B1).
  wbind. eapply wp_mono; [apply (run_band_handled_spec s2 f); done|].
  cbv beta. intros _ s3 (l2&[O3 R3 A3 H3]&F2&S2&B2).
  assert (fs_handled s3 = Some f \/ fs_handled s3 = None) as H3'.
  { destruct H3 as [-> | ->]; auto. }
  wbind. eapply wp_mono; [apply (run_band_handled_spec s3 f); done|].
  cbv beta. intros _ s4 (l3&[O4 R4 A4 H4]&F3&S3&B3).
  assert (sublist (members (fs_active s4)) r) as Hsub by (etrans; [exact A4|]; by etrans).
  eapply wp_mono; [apply IH; [done|]|].
  { apply sublist_length in Hsub. cbn in Hlen. lia. }
  cbv beta. intros _ s5 (l4&O5&R5&E5&F4&S4&D4). exists (l1 ++ l2 ++ l3 ++ l4). split_and!; [done| |done| |..].
  - rewrite R5, R4, R3, R2, <-!app_assoc. done.
  - rewrite !Forall_app. done.
  - rewrite !bind_app. cbn [mbind list_bind].
    change (bands_of f) with ([(f, MASKERR)] ++ [(f, MASKIN)] ++ [(f, MASKOUT)]). rewrite <-!app_assoc.
    repeat apply sublist_app; try done. etrans; [exact S4|].
    by apply sublist_bands.
  - replace (l1 ++ l2 ++ l3 ++ l4) with ((l1 ++ l2 ++ l3) ++ l4) by by rewrite <-!app_assoc.
    eapply (objects_next s f r _ s4); [exact Hm| |exact D4]. apply (bands_next f s1 _ _ l1 s2); [done|exact B1|].
    destruct B2 as [(Hn&->&->)|[Hn2 B2]].
    + destruct B3 as [(_&->&->)|[Hn3 _]]; [by constructor|congruence].
    + apply (bands_next f s2 _ _ l2 s3); [done|exact B2|]. destruct B3 as [(Hn3&->&->)|[Hn3 B3]]; [by constructor|].
      rewrite <-(app_nil_r l3). eapply bands_next; [done|exact B3|constructor].
Qed.

(** Reporting an object. *)
Lemma make_ready_spec (s : St) f bands : fd_ok s -> is_registered (fs_fds s) f ->
  wp anyf (iv_fd_make_ready f bands) s (fun _ s' => fd_ok s' /\ fs_handled s' = fs_handled s /\
    fs_ran s' = fs_ran s /\ mv s' = mv s).
Proof.
  clear Hlegal HM handler legal method_of can can_reg unknown. intros Hok (o&Ho&Hr). unfold iv_fd_make_ready. wprim. pose proof Hok as [Hc Hi].
  assert (forall s1 o1 g, fd_ok s1 -> fs_fds s1 !! f = Some o1 -> registered o1 = true ->
    (forall o, core_obj (g o) = set_ready_bands (ready_bands (g o)) (core_obj o)) ->
    (forall o, meth_obj (g o) = meth_obj o) ->
    wp anyf (upd_fd f g) s1 (fun _ s' => fd_ok s' /\ s' = upd f (g o1) s1 /\ mv s' = mv s1)) as Hready.
  { intros s1 o1 g [Hc1 Hi1] Ho1 Hr1 Hg Hg'. eapply wp_Ok; [by apply upd_fd_Ok|].
    assert (mv (upd f (g o1) s1) = mv s1) as Emv by (by apply (mv_upd_same s1 f o1)).
    split_and!; [split; [|by rewrite Emv]|done|done].
    pose proof (core_ok_set _ f (core_obj o1) (core_obj (g o1)) Hc1 (cv_lookup _ _ _ Ho1) Hr1) as H.
    replace (cv (upd f (g o1) s1)) with (mk_cv (<[f := core_obj (g o1)]> (cv_fds (cv s1))) (cv_active (cv s1))
      (cv_numobjs (cv s1)) (cv_numfds (cv s1)) (cv_handled (cv s1)))
      by (unfold cv, upd; cbn; by rewrite fmap_insert).
    apply H; rewrite Hg; [done|]. pose proof (co_wanted _ Hc1 f (core_obj o1) (cv_lookup _ _ _ Ho1) Hr1) as Hw.
    exact Hw. }
  assert (exists b, iq_unlinked f (fs_active s) = Some b) as [b Hb].
  { unfold iq_unlinked. destruct (co_linked _ Hc f _ (cv_lookup _ _ _ Ho) Hr) as [Hx|Hx]; cbn in Hx.
    - rewrite decide_True by done. eauto.
    - case_decide; [eauto|]. rewrite decide_True by done. eauto. }
  rewrite Hb. wprim. wbind.
  apply (wp_mono _ _ _ (fun _ s1 => fd_ok s1 /\ fs_handled s1 = fs_handled s /\ fs_ran s1 = fs_ran s /\
    mv s1 = mv s /\ exists o1, fs_fds s1 !! f = Some o1 /\ registered o1 = true)).
  - destruct b; cbn [when]; [|eapply wp_Ok; [reflexivity|]; split_and!; eauto].
    wbind. eapply wp_mono; [by apply (Hready s o (set_ready_bands 0))|]. cbv beta. intros _ s1 (Hok1&->&Emv).
    set (q := mk_iseq (members (fs_active s) ++ [f]) (idle (fs_active s) ∖ {[f]})).
    assert (iq_add_tail f (fs_active s) = Some q) as Hq.
    { unfold iq_unlinked in Hb. unfold iq_add_tail. case_decide; [done|done]. }
    eapply wp_Ok; [by apply (on_active_Ok (upd f (set_ready_bands 0 o) s))|].
    split_and!; [split|done|done|done|exists (set_ready_bands 0 o); split; [apply lookup_upd_eq|done]].
    + destruct Hok1 as [[Ha Hl Hk Hw Hn Hob Hh] _]. split; cbn in *; try done.
      * by eapply iq_add_tail_ok.
      * intros g [Hg|Hg%list_elem_of_singleton]%elem_of_app; [auto|]. subst g. exists (core_obj (set_ready_bands 0 o)).
        rewrite lookup_fmap, lookup_insert_eq. done.
      * intros g og Hg Hgr. destruct (decide (g = f)) as [->|Hne]; [left; set_solver|].
        destruct (Hk _ _ Hg Hgr); [left|right]; set_solver.
    + by destruct Hok1.
  - intros _ s1 (Hok1&Eh&Er&Emv&o1&Ho1&Hr1). eapply wp_mono; [by apply (Hready s1 o1)|].
    cbv beta. intros _ s2 (Hok2&->&Emv2). by rewrite Emv2.
Qed.

(** What a poll may do: report registered objects and run pending events. *)
Record polled (s s' : St) : Prop := {
  po_ok : fd_ok s';
  po_handled : fs_handled s' = fs_handled s \/ fs_handled s' = None;
  po_ran : exists l, fs_ran s' = fs_ran s ++ l /\ Forall (fun a => a = AEvents) l }.

(** The poll functions of the methods; [armed] is what must hold for a poll that
    leaves the deadline to the kernel timer. *)
Class PollFunctions : Prop := {
  pf_poll : forall s abs, fd_ok s -> members (fs_active s) = [] ->
    wp anyf (m ← the_method method_of; pm_poll m abs) s (fun _ s' => polled s s');
  pf_set : forall s abs set, fd_ok s -> is_Some abs ->
    (exists m, fs_method s = Some m /\ pm_set_poll_timeout (method_of m) = Some set) ->
    wp anyf (set abs) s (fun _ s' => quiet s s' /\ inv None (mv s'));
  pf_clear : forall s m, fd_ok s -> fs_method s = Some m -> is_Some (pm_set_poll_timeout (method_of m)) ->
    wp anyf (pm_clear_poll_timeout (method_of m)) s (fun _ s' => quiet s s' /\ inv None (mv s') /\ fs_method s' = fs_method s);
  pf_method : forall s, fd_ok s -> is_Some (fs_method s) }.
Context `{HF : !PollFunctions}.

Lemma fd_ok_quiet (s s' : St) : fd_ok s -> quiet s s' -> inv None (mv s') -> fd_ok s'.
Proof. intros [Hc _] [E _] Hi. split; [by rewrite E|done]. Qed.
Lemma quiet_fields (s s' : St) : quiet s s' -> fs_active s' = fs_active s /\ fs_handled s' = fs_handled s /\
  fs_ran s' = fs_ran s.
Proof. intros [E Er]. injection E. auto. Qed.

Lemma the_method_Ok (s : St) m : fs_method s = Some m -> the_method method_of s = Ok (method_of m, s).
Proof. intros H. unfold the_method. msimpl. by rewrite H. Qed.

Lemma timeout_check_spec (s : St) abs m : fd_ok s -> fs_method s = Some m ->
  is_Some (pm_set_poll_timeout (method_of m)) ->
  wp anyf (iv_fd_timeout_check method_of abs) s (fun _ s' => quiet s s' /\ fd_ok s').
Proof.
  intros Hok Hm Hset. unfold iv_fd_timeout_check. wrun (the_method_Ok _ _ Hm).
  do 2 wprim. set (cmp := timespec_cmp abs (fs_last_abs s)).
  destruct ((fs_last_count s =? 5) && (0 <=? cmp)); [by apply wp_Ok with true s|].
  wbind. apply (wp_mono _ _ _ (fun _ s1 => quiet s s1 /\ fd_ok s1 /\ fs_method s1 = Some m)).
  { unfold when. destruct (fs_last_count s =? 5); [|by apply wp_Ok with tt s].
    eapply wp_mono; [by apply pf_clear|]. cbv beta. intros _ s1 (Hq&Hi&Em).
    split_and!; [done|by eapply fd_ok_quiet|congruence]. }
  intros _ s1 (Hq1&Hok1&Hm1). destruct (Z.eqb_spec cmp 0) as [Hc|Hc].
  2:{ assert (forall s2, quiet s1 s2 -> fd_ok s2 -> quiet s s2 /\ fd_ok s2) as Hend.
      { intros s2 ??. split; [by eapply quiet_trans|done]. }
      destruct abs; [do 2 wprim|wprim]; (eapply wp_Ok; [reflexivity|]); by apply Hend. }
  assert (is_Some abs) as Habs by (destruct abs; [by eexists|done]).
  wbind. eapply (wp_mono _ _ _ (fun _ s2 => quiet s s2 /\ fd_ok s2 /\ fs_method s2 = Some m)).
  { unfold when. destruct (_ <? _); (eapply wp_Ok; [reflexivity|]); done. }
  intros _ s2 (Hq2&Hok2&Hm2). wprim. destruct (_ =? 5); [|by apply wp_Ok with false s2].
  destruct Hset as [set Hset]. rewrite Hset. wprim.
  eapply wp_mono; [eapply pf_set; eauto|]. cbv beta. intros _ s3 (Hq3&Hi3).
  split; [by eapply quiet_trans|by eapply fd_ok_quiet].
Qed.

(** A polling round. *)
Record round (s s' : St) (reported : list loc) (l1 l2 : list activation) : Prop := {
  rd_ok : fd_ok s';
  rd_ran : fs_ran s' = fs_ran s ++ l1 ++ l2;
  rd_events : Forall (fun a => a = AEvents) l1;
  rd_allowed : Forall allowed l2;
  rd_order : sublist (l2 ≫= what) (reported ≫= bands_of);
  rd_nodup : NoDup reported;
  rd_done : members (fs_active s') = [] }.

Lemma poll_and_run_spec (s : St) abs : fd_ok s -> members (fs_active s) = [] ->
  wp anyf (iv_fd_poll_and_run method_of handler legal abs) s (fun _ s' =>
    exists reported l1 l2, round s s' reported l1 l2).
Proof.
  intros Hok Hm. unfold iv_fd_poll_and_run. wprim. set (s1 := set_fs_active _ s).
  assert (s1 = s) as -> by (unfold s1; destruct s, fs_active; cbn in *; by subst).
  destruct (pf_method s Hok) as [mn Hmn]. wrun (the_method_Ok _ _ Hmn). wbind.
  eapply (wp_mono _ _ _ (fun _ s2 => quiet s s2 /\ fd_ok s2)).
  { destruct (pm_set_poll_timeout (method_of mn)) eqn:E; [|by apply wp_Ok with false s].
    by eapply timeout_check_spec. }
  intros armed s2 (Hq2&Hok2). destruct (quiet_fields _ _ Hq2) as (Ea2&_&Er2).
  assert (members (fs_active s2) = []) as Hm2 by (by rewrite Ea2).
  wbind. eapply (wp_mono _ _ _ (fun _ s3 => fd_ok s3 /\ exists l, fs_ran s3 = fs_ran s2 ++ l /\ Forall (fun a => a = AEvents) l)).
  { destruct (armed : bool).
    - wbind. eapply wp_mono; [by apply pf_poll|]. cbv beta.
      intros run s3 [Hok3 _ Hl]. unfold when. destruct run; wprim; (eapply wp_Ok; [reflexivity|]); done.
    - eapply wp_mono; [by apply pf_poll|]. cbv beta. intros run s3 [Hok3 _ Hl]. done. }
  cbv beta. intros run s3 (Hok3&l1&Hr3&Hl1). wprim. wbind.
  eapply wp_mono; [apply active_loop_spec; [done|lia]|]. cbv beta.
  intros _ s4 (l2&Hok4&Hr4&Hm4&Hal&Hsub&_). eapply wp_Ok; [reflexivity|].
  exists (members (fs_active s3)), l1, l2. split; try done.
  - by rewrite Hr4, Hr3, Er2, <-app_assoc.
  - apply (co_active _ (proj1 Hok3)).
Qed.
(** The first half of a round: the poll, which waits until [abs] unless the kernel's
    timer does. *)
Definition round_polls (s : St) (abs : option timespec) (run_timers : bool) (s1 : St) : Prop :=
  exists m armed sa m', fs_method s = Some m /\
    match pm_set_poll_timeout (method_of m) with
    | Some _ => iv_fd_timeout_check method_of abs s = Ok (armed, sa)
    | None => armed = false /\ sa = s
    end /\ fs_method sa = Some m' /\
    if armed : bool then exists s', pm_poll (method_of m') None sa = Ok (run_timers, s') /\
      s1 = if run_timers then set_fs_last_count 0 s' else s'
    else pm_poll (method_of m') abs sa = Ok (run_timers, s1).

Lemma the_method_inv {A} (k : iv_fd_poll_method St -> M St A) s r : (m ← the_method method_of; k m) s = Ok r ->
  exists m, fs_method s = Some m /\ k (method_of m) s = Ok r.
Proof.
  unfold the_method. msimpl. destruct (fs_method s) as [m|]; [|done]. cbn. intros H. by exists m.
Qed.
Lemma poll_and_run_inv (s : St) abs run_timers s' : members (fs_active s) = [] ->
  iv_fd_poll_and_run method_of handler legal abs s = Ok (run_timers, s') ->
  exists s1, round_polls s abs run_timers s1 /\
    active_loop method_of handler legal (Datatypes.S (length (members (fs_active s1)))) s1 = Ok (tt, s').
Proof.
  intros Hm. unfold iv_fd_poll_and_run.
  assert (set_fs_active (mk_iseq [] (idle (fs_active s))) s = s) as E0 by (destruct s, fs_active; cbn in *; by subst).
  erewrite bind_Ok by reflexivity. rewrite E0.
  intros (m&Em&H)%the_method_inv. apply bind_Ok_inv in H as (armed&sa&Ha&H).
  apply bind_Ok_inv in H as (rt&s1&Hp&H). apply bind_Ok_inv in H as (q&s2&[= <- <-]&H).
  apply bind_Ok_inv in H as ([]&s3&Hl&[= -> ->]). exists s1. split; [|exact Hl].
  assert (exists m', fs_method sa = Some m' /\ if armed then exists s', pm_poll (method_of m') None sa = Ok (run_timers, s') /\
      s1 = (if run_timers then set_fs_last_count 0 s' else s') else pm_poll (method_of m') abs sa = Ok (run_timers, s1)) as (m'&Em'&Hp').
  { destruct armed.
    - apply bind_Ok_inv in Hp as (rt2&s4&(m'&Em'&Hp)%the_method_inv&H). exists m'. split; [done|]. exists s4.
      destruct rt2; cbn [when] in H; apply bind_Ok_inv in H as ([]&s5&[= <-]&[= <- <-]); done.
    - by apply the_method_inv in Hp. }
  exists m, armed, sa, m'. split_and!; [done| |done|done].
  destruct (pm_set_poll_timeout (method_of m)); [done|]. by injection Ha as <- <-.
Qed.
Lemma round_polls_spec (s : St) abs run_timers s1 : fd_ok s -> members (fs_active s) = [] ->
  round_polls s abs run_timers s1 -> fd_ok s1 /\ exists l, fs_ran s1 = fs_ran s ++ l /\ Forall (fun a => a = AEvents) l.
Proof.
  intros Hok Hm (m&armed&sa&m'&Em&Ha&Em'&Hp).
  assert (quiet s sa /\ fd_ok sa) as [Hq Hoka].
  { destruct (pm_set_poll_timeout (method_of m)) eqn:E; [|by destruct Ha as [_ ->]].
    exact (wp_result _ _ _ _ _ _ (timeout_check_spec s abs m Hok Em ltac:(by rewrite E)) Ha). }
  destruct (quiet_fields _ _ Hq) as (Ea&_&Er).
  assert (forall a s2, pm_poll (method_of m') a sa = Ok (run_timers, s2) -> polled sa s2) as Hpoll.
  { intros a s2 H. refine (wp_result _ _ _ _ _ _ (pf_poll sa a Hoka ltac:(by rewrite Ea)) _).
    by rewrite (bind_Ok _ _ _ _ _ (the_method_Ok sa m' Em')). }
  destruct armed.
  - destruct Hp as (s2&Hp&->). destruct (Hpoll _ _ Hp) as [O2 _ R2]. rewrite Er in R2. by destruct run_timers.
  - destruct (Hpoll _ _ Hp) as [O2 _ R2]. by rewrite Er in R2.
Qed.

(** What a round does, exactly. *)
Lemma poll_and_run_exact (s : St) abs run_timers s' : fd_ok s -> members (fs_active s) = [] ->
  iv_fd_poll_and_run method_of handler legal abs s = Ok (run_timers, s') ->
  exists s1 l1 l2, round_polls s abs run_timers s1 /\
    fs_ran s1 = fs_ran s ++ l1 /\ Forall (fun a => a = AEvents) l1 /\ NoDup (members (fs_active s1)) /\
    objects_done s1 l2 s' /\ fs_ran s' = fs_ran s1 ++ l2 /\ Forall allowed l2 /\
    sublist (l2 ≫= what) (members (fs_active s1) ≫= bands_of).
Proof.
  intros Hok Hm (s1&Hp&Hl)%poll_and_run_inv; [|done]. destruct (round_polls_spec _ _ _ _ Hok Hm Hp) as (Hok1&l1&R1&E1).
  destruct (wp_result _ _ _ _ _ _ (active_loop_spec _ s1 Hok1 (Nat.lt_succ_diag_r _)) Hl) as (l2&_&R2&_&F2&S2&D2).
  exists s1, l1, l2. split_and!; try done. apply (co_active _ (proj1 Hok1)).
Qed.
End core.
