(* ===== verification/FdDeferred.v ===== *)
(** * Poll methods that defer changes

    All methods but poll and ppoll keep a notify list of the objects whose wanted bands
    differ from what the kernel was told, and tell it when the next poll begins.  This
    file has the part of their invariant and of their proofs that does not depend on the
    kernel interface: [X] is what is known of the kernel and of the method's own data
    about objects, described by three predicates. *)

From S2P Require Import Prelude ISeq Timer Sys Fd PmState FdSpec FdCore.

Local Open Scope Z_scope.

(** [f] belongs to the method: it is registered, or in transition. *)
Definition live (o : option loc) (f : loc) (m : iv_fd_) : Prop := registered m = true \/ o = Some f.

(** ** The notify list *)
Lemma relist_del_init q f q' : iq_ok q -> iq_del_init f q = Some q' ->
  iq_ok q' /\ f ∉ members q' /\ f ∈ idle q' /\
  (forall g, g <> f -> (g ∈ members q' <-> g ∈ members q) /\ (g ∈ idle q' <-> g ∈ idle q)).
Proof.
  intros Hq H. pose proof (iq_del_init_ok _ _ _ Hq H) as Hok. unfold iq_del_init in H.
  case_decide as H1; [|case_decide as H2; [|done]]; injection H as <-; split_and!; try done; cbn.
  - rewrite elem_of_remove. tauto.
  - set_solver.
  - intros g Hg. rewrite elem_of_remove. set_solver.
Qed.
Lemma relist_add_tail q f q' : iq_ok q -> iq_add_tail f q = Some q' ->
  iq_ok q' /\ f ∈ members q' /\
  (forall g, g <> f -> (g ∈ members q' <-> g ∈ members q) /\ (g ∈ idle q' <-> g ∈ idle q)).
Proof.
  intros Hq H. pose proof (iq_add_tail_ok _ _ _ Hq H) as Hok. unfold iq_add_tail in H.
  case_decide as H1; [done|]. injection H as <-. split_and!; [done|cbn; set_solver|].
  intros g Hg. cbn. set_solver.
Qed.

Section quiet.
Context {P W : Type}.
Implicit Types s : fd_state P W.
Lemma quiet_notify q s : quiet s (set_fs_notify q s).
Proof. done. Qed.
Lemma quiet_upd s f o o' : fs_fds s !! f = Some o -> core_obj o' = core_obj o -> quiet s (upd f o' s).
Proof.
  intros Hf E. split; [|done]. unfold cv, upd. cbn. rewrite fmap_insert, E, insert_id; [done|].
  by rewrite lookup_fmap, Hf.
Qed.
End quiet.

(** ** Emptying the list

    Objects on the list get the bands they want, others keep theirs. *)
Section drain.
Context {P W : Type} `{!FdKernel W}.
Abbreviation St := (fd_state P W).

Definition settled_on (s s' : St) : Prop := forall f o, fs_fds s !! f = Some o ->
  fs_fds s' !! f = Some (if decide (f ∈ members (fs_notify s)) then set_registered_bands (wanted_bands o) o else o).
(** What a turn of the loop does to the first object of the list. *)
Record drained (f : loc) (r : list loc) (s s' : St) : Prop := {
  dr_quiet : quiet s s';
  dr_apart : f ∉ r;
  dr_rest : members (fs_notify s') = r;
  dr_fds : exists o, fs_fds s !! f = Some o /\ fs_fds s' = <[f := set_registered_bands (wanted_bands o) o]> (fs_fds s) }.

Lemma settled_on_step f r (s s1 s2 : St) : members (fs_notify s) = f :: r -> drained f r s s1 ->
  settled_on s1 s2 -> settled_on s s2.
Proof.
  intros Hm [_ Hfr Hq (o&Ho&Hfds)] H g og Hg. specialize (H g). rewrite Hq, Hfds in H. rewrite Hm.
  destruct (decide (g = f)) as [->|Hgf].
  - assert (og = o) as -> by congruence. rewrite (H _ (lookup_insert_eq _ _ _)).
    rewrite decide_False by done. by rewrite decide_True by set_solver.
  - rewrite (H og) by (by rewrite lookup_insert_ne). f_equal.
    destruct (decide (g ∈ r)); [rewrite decide_True by set_solver|rewrite decide_False by set_solver]; done.
Qed.

Lemma drain_spec {B} (I : B -> St -> Prop) (one : B -> loc -> M St B) fuel b (s : St) :
  (forall b f r s, I b s -> members (fs_notify s) = f :: r ->
    wp anyf (one b f) s (fun b' s' => I b' s' /\ drained f r s s')) ->
  I b s -> (length (members (fs_notify s)) < fuel)%nat ->
  wp anyf (drain_notify one fuel b) s (fun b' s' => quiet s s' /\ I b' s' /\
    members (fs_notify s') = [] /\ settled_on s s').
Proof.
  intros Hone. revert b s. induction fuel as [|fuel IH]; intros b s Hb Hlen; [lia|]. cbn [drain_notify]. wprim.
  destruct (members (fs_notify s)) as [|f r] eqn:Hm.
  { eapply wp_Ok; [reflexivity|]. split_and!; [done|done|done|]. intros g o Hg. rewrite decide_False; [done|].
    rewrite Hm. apply not_elem_of_nil. }
  wbind. eapply wp_mono; [by apply (Hone b f r)|]. cbv beta. intros b1 s1 [Hb1 Hd]. pose proof Hd as [Hq _ Hr _].
  eapply wp_mono; [apply IH; [done|]|].
  { rewrite Hr. cbn in Hlen. lia. }
  cbv beta. intros b2 s2 (Hq2&?&?&Hs). split_and!; [by eapply quiet_trans|done|done|by eapply settled_on_step].
Qed.
End drain.

(** ** The invariant *)
Section deferred.
Context {X : Type}.
(** [entry x f]: the kernel, or the method, has [f] on file.  [told x f n b]: what is on
    file of [f] is right for an object of descriptor [n] with registered bands [b].
    [world x]: what concerns no object.  [settled b w]: registered bands [b] can stay
    as they are when the bands [w] are wanted. *)
Context (entry : X -> loc -> Prop) (told : X -> loc -> Z -> Z -> Prop) (world : X -> Prop) (settled : Z -> Z -> Prop).

Record deferred_at (x : X) (o : option loc) (objs : gmap loc iv_fd_) (q : iseq) : Prop := {
  df_notify : iq_ok q;
  df_members : forall f, f ∈ members q -> exists m, objs !! f = Some m /\ live o f m;
  df_linked : forall f m, objs !! f = Some m -> live o f m -> f ∈ members q \/ f ∈ idle q;
  df_settled : forall f m, objs !! f = Some m -> registered m = true -> o <> Some f -> f ∉ members q ->
    settled (registered_bands m) (wanted_bands m);
  df_world : world x;
  df_entry : forall f, entry x f -> exists m, objs !! f = Some m /\ live o f m;
  df_told : forall f m, objs !! f = Some m -> live o f m -> told x f (fd_fd m) (registered_bands m) }.

Implicit Types (x : X) (objs : gmap loc iv_fd_) (q : iseq) (f g : loc) (m : iv_fd_).

(** Nothing is registered at first. *)
Lemma deferred_blank x objs q : objs = ∅ -> members q = [] -> world x -> (forall f, ~ entry x f) -> deferred_at x None objs q.
Proof.
  intros -> Hq Hw He. split; try (intros f; rewrite ?lookup_empty); try done.
  - split; rewrite Hq; [constructor|by intros ??%not_elem_of_nil].
  - rewrite Hq. by intros ?%not_elem_of_nil.
  - intros H. by destruct (He f).
Qed.

(** The entry of an object that is not the method's can change freely. *)
Lemma deferred_client x objs q f (m' : option iv_fd_) q' : deferred_at x None objs q -> ~ is_registered objs f ->
  (forall m, m' = Some m -> registered m = false) ->
  members q' = members q ->
  (forall g, g <> f -> (g ∈ idle q' <-> g ∈ idle q)) -> (f ∈ idle q' -> f ∈ idle q) ->
  deferred_at x None (partial_alter (fun _ => m') f objs) q'.
Proof.
  intros [H1 H2 H3 H4 H5 H6 H7] Hf Hm' Hq Hi Hfi.
  assert (forall g m, objs !! g = Some m -> live None g m -> g <> f) as Hlive.
  { intros g m Hg [Hr|?] ->; [|done]. apply Hf. by exists m. }
  assert (forall g m, partial_alter (fun _ => m') f objs !! g = Some m -> live None g m -> g <> f /\ objs !! g = Some m) as Hback.
  { intros g m Hg [Hr|?]; [|done]. destruct (decide (g = f)) as [->|Hne].
    - rewrite lookup_partial_alter_eq in Hg. rewrite (Hm' _ Hg) in Hr. done.
    - by rewrite lookup_partial_alter_ne in Hg. }
  assert (forall g m, objs !! g = Some m -> live None g m -> partial_alter (fun _ => m') f objs !! g = Some m) as Hup.
  { intros g m Hg Hl. rewrite lookup_partial_alter_ne; [done|]. symmetry. eauto. }
  split; try done.
  - split; rewrite Hq; [apply H1|]. intros y Hy. destruct (H2 _ Hy) as (m&Hm&Hl).
    rewrite Hi by eauto. by apply (iq_apart _ H1).
  - intros g. rewrite Hq. intros Hg. destruct (H2 _ Hg) as (m&Hm&Hl). eauto.
  - intros g m Hg Hl. destruct (Hback _ _ Hg Hl) as [Hne Hg']. rewrite Hq, Hi by done. eauto.
  - intros g m Hg Hr Ho. destruct (Hback g m Hg ltac:(by left)) as [Hne Hg']. rewrite Hq. eauto.
  - intros g Hg. destruct (H6 _ Hg) as (m&Hm&Hl). eauto.
  - intros g m Hg Hl. destruct (Hback _ _ Hg Hl). eauto.
Qed.

Lemma deferred_open x objs q f : deferred_at x None objs q -> is_registered objs f -> deferred_at x (Some f) objs q.
Proof.
  intros [H1 H2 H3 H4 H5 H6 H7] (m0&Hm0&Hr0).
  assert (forall g m, objs !! g = Some m -> live (Some f) g m -> live None g m) as Hl.
  { intros g m Hg [?|[= ->]]; left; congruence. }
  assert (forall g m, live None g m -> live (Some f) g m) as Hl' by (intros g m [?|?]; [by left|done]).
  split; try done; [|by eauto|by eauto| |by eauto].
  - intros g Hg. destruct (H2 _ Hg) as (m&?&?). eauto.
  - intros g Hg. destruct (H6 _ Hg) as (m&?&?). eauto.
Qed.

Lemma deferred_set x objs q f m b w : deferred_at x (Some f) objs q -> objs !! f = Some m ->
  deferred_at x (Some f) (<[f := set_registered b (set_wanted_bands w m)]> objs) q.
Proof.
  intros [H1 H2 H3 H4 H5 H6 H7] Hf. set (m1 := set_registered b (set_wanted_bands w m)).
  assert (forall g m2, objs !! g = Some m2 -> live (Some f) g m2 -> exists m3, <[f := m1]> objs !! g = Some m3 /\ live (Some f) g m3) as Hup.
  { intros g m2 Hg Hl. destruct (decide (g = f)) as [->|Hne].
    - exists m1. rewrite lookup_insert_eq. split; [done|by right].
    - exists m2. by rewrite lookup_insert_ne. }
  split; try done.
  - intros g Hg. destruct (H2 _ Hg) as (m2&?&?). eauto.
  - intros g m2. rewrite lookup_insert. case_decide as E; [subst; intros _ _; apply (H3 _ _ Hf); by right|apply H3].
  - intros g m2. rewrite lookup_insert. case_decide as E; [subst; intros _ _ []; done|apply H4].
  - intros g Hg. destruct (H6 _ Hg) as (m2&?&?). eauto.
  - intros g m2. rewrite lookup_insert. case_decide as E; [|apply H7].
    subst. intros [= <-] _. apply (H7 g m Hf). by right.
Qed.

(** A new object, and what is then on file of it. *)
Lemma deferred_register x x' objs q f m q' : deferred_at x None objs q -> ~ is_registered objs f ->
  registered m = true -> iq_init f q = Some q' -> world x' -> (forall g, entry x' g -> g = f \/ entry x g) ->
  (forall g n b, g <> f -> told x g n b -> told x' g n b) -> told x' f (fd_fd m) (registered_bands m) ->
  f ∉ members q' /\ deferred_at x' (Some f) (<[f := m]> objs) q'.
Proof.
  intros [H1 H2 H3 H4 H5 H6 H7] Hf Hr Hq Hw He Ht Htf.
  assert (f ∉ members q) as Hfm.
  { intros Hin. destruct (H2 _ Hin) as (m0&?&[?|?]); [|done]. apply Hf. by exists m0. }
  pose proof (iq_init_ok _ _ _ H1 Hq) as Hqok. unfold iq_init in Hq. rewrite decide_False in Hq by done.
  injection Hq as <-. split; [done|].
  assert (forall g mg, objs !! g = Some mg -> live None g mg -> g <> f /\ exists m', <[f := m]> objs !! g = Some m' /\ live (Some f) g m') as Hup.
  { intros g mg Hg [Hrg|?]; [|done]. assert (g <> f) by (intros ->; apply Hf; by exists mg). split; [done|].
    exists mg. rewrite lookup_insert_ne by done. split; [done|by left]. }
  split; cbn; try done.
  - intros g Hg. destruct (H2 _ Hg) as (mg&Hmg&Hl). by destruct (Hup _ _ Hmg Hl).
  - intros g mg. rewrite lookup_insert. case_decide as E; [subst; intros _ _; right; set_solver|].
    intros Hg [Hl|Hl]; [|congruence]. destruct (H3 _ _ Hg ltac:(by left)); [by left|right; set_solver].
  - intros g mg. rewrite lookup_insert. case_decide as E; [subst; intros _ _ []; done|].
    intros Hg Hrg _ Hm. by eapply H4.
  - intros g [->|Hg]%He; [exists m; rewrite lookup_insert_eq; split; [done|by right]|].
    destruct (H6 _ Hg) as (mg&Hmg&Hl). by destruct (Hup _ _ Hmg Hl).
  - intros g mg. rewrite lookup_insert. case_decide as E; [by subst; intros [= <-] _|].
    intros Hg [Hl|Hl]; [|congruence]. apply Ht; [done|]. apply H7; [done|by left].
Qed.

(** The place of [f] on the notify list changes, its registered bands, and what is on
    file of it. *)
Lemma deferred_change x x' o o' objs q q' f m b : deferred_at x o objs q -> objs !! f = Some m -> live o f m -> live o' f m ->
  (forall g mg, g <> f -> live o g mg <-> live o' g mg) -> (forall g, o' = Some g -> g <> f -> o = Some g) ->
  (forall g, o = Some g -> g <> f -> o' = Some g) ->
  iq_ok q' -> f ∈ members q' \/ f ∈ idle q' ->
  (forall g, g <> f -> (g ∈ members q' <-> g ∈ members q) /\ (g ∈ idle q' <-> g ∈ idle q)) ->
  (registered m = true -> o' <> Some f -> f ∉ members q' -> settled b (wanted_bands m)) ->
  world x' -> (forall g, entry x' g -> g = f \/ entry x g) ->
  (forall g n c, g <> f -> told x g n c -> told x' g n c) -> told x' f (fd_fd m) b ->
  deferred_at x' o' (<[f := set_registered_bands b m]> objs) q'.
Proof.
  intros [H1 H2 H3 H4 H5 H6 H7] Hf Hlf Hlf' Hl Ho' Ho Hq Hfq Hqg Hs Hw He Ht Htf.
  set (m1 := set_registered_bands b m).
  assert (forall g mg, objs !! g = Some mg -> live o g mg -> exists m2, <[f := m1]> objs !! g = Some m2 /\ live o' g m2) as Hup.
  { intros g mg Hg Hlg. destruct (decide (g = f)) as [->|Hne].
    - exists m1. rewrite lookup_insert_eq. split; [done|]. destruct Hlf' as [?|?]; [by left|by right].
    - exists mg. rewrite lookup_insert_ne by done. split; [done|by apply Hl]. }
  split; try done.
  - intros g Hg. destruct (decide (g = f)) as [->|Hne]; [by apply (Hup _ m)|].
    apply (Hqg g Hne) in Hg. destruct (H2 _ Hg) as (mg&?&?). eauto.
  - intros g mg. rewrite lookup_insert. case_decide as E; [by subst|].
    intros Hg Hlg. assert (g <> f) as Hne by done. rewrite (proj1 (Hqg g Hne)), (proj2 (Hqg g Hne)).
    apply (H3 _ _ Hg). by apply Hl.
  - intros g mg. rewrite lookup_insert. case_decide as E; [subst; intros [= <-]; apply Hs|].
    intros Hg Hr Hn. rewrite (proj1 (Hqg g ltac:(done))). apply H4; [done..|]. intros E'. apply Hn. auto.
  - intros g [->|Hg]%He; [by apply (Hup _ m)|]. destruct (H6 _ Hg) as (mg&?&?). eauto.
  - intros g mg. rewrite lookup_insert. case_decide as E; [by subst; intros [= <-] _|].
    intros Hg Hlg. apply Ht; [done|]. apply H7; [done|]. by apply Hl.
Qed.

Lemma deferred_relist x o' objs q q' f m : deferred_at x (Some f) objs q -> objs !! f = Some m -> live o' f m ->
  o' = Some f \/ o' = None ->
  iq_ok q' -> f ∈ members q' \/ f ∈ idle q' ->
  (forall g, g <> f -> (g ∈ members q' <-> g ∈ members q) /\ (g ∈ idle q' <-> g ∈ idle q)) ->
  (o' = None -> f ∉ members q' -> settled (registered_bands m) (wanted_bands m)) ->
  deferred_at x o' objs q'.
Proof.
  intros Hd Hf Hl Ho Hq Hfq Hqg Hs. pose proof Hd as [_ _ _ _ Hw _ Ht].
  rewrite <-(insert_id objs f (set_registered_bands (registered_bands m) m)) by (by destruct m).
  eapply (deferred_change x x (Some f) o' objs q q' f m (registered_bands m)); try done; [by right|..]; auto.
  - intros g mg Hg. unfold live. destruct Ho as [-> | ->]; naive_solver.
  - intros g E Hg. destruct Ho; congruence.
  - congruence.
  - intros _ Hne. destruct Ho as [? | Ho]; [done|auto].
  - apply Ht; [done|by right].
Qed.

(** [f] is settled. *)
Lemma deferred_close x objs q f m : deferred_at x (Some f) objs q -> objs !! f = Some m -> registered m = true ->
  settled (registered_bands m) (wanted_bands m) -> deferred_at x None objs q.
Proof.
  intros Hd Hf Hr Hs. eapply (deferred_relist x None objs q q); [exact Hd|exact Hf|by left|by right|apply Hd| |done|done].
  apply (df_linked _ _ _ _ Hd f m Hf). by right.
Qed.

(** [f] leaves the method. *)
Lemma deferred_drop x x' objs q f m : deferred_at x (Some f) objs q -> objs !! f = Some m -> registered m = false ->
  f ∉ members q -> world x' -> (forall g, entry x' g -> g <> f /\ entry x g) ->
  (forall g n c, g <> f -> told x g n c -> told x' g n c) -> deferred_at x' None objs q.
Proof.
  intros [H1 H2 H3 H4 H5 H6 H7] Hf Hr Hq Hw He Ht.
  assert (forall g m, live None g m -> live (Some f) g m) as Hup by (intros g mg [?|?]; [by left|done]).
  assert (forall g m, g <> f -> live (Some f) g m -> live None g m) as Hdn by (intros g mg ? [?|[=]]; [by left|congruence]).
  assert (forall g mg, objs !! g = Some mg -> live None g mg -> g <> f) as Hne.
  { intros g mg Hg [?|?] ->; congruence. }
  split; try done.
  - intros g Hg. destruct (H2 _ Hg) as (mg&?&?). exists mg. split; [done|]. apply Hdn; [by intros ->|done].
  - eauto.
  - intros g mg Hg Hrg _. apply H4; [done|done|]. intros [= ->]. congruence.
  - intros g [Hg Hge]%He. destruct (H6 _ Hge) as (mg&?&?). eauto.
  - intros g mg Hg Hl. apply Ht; eauto.
Qed.

(** ** In the state of a thread *)
Section state.
Context {W : Type} `{!FdKernel W}.
Abbreviation St := (fd_state pm_state W).
Abbreviation V := (mview pm_state W).
(** What is known, in terms of the method, its data and the kernel. *)
Context (view : option method_name -> pm_state -> W -> X -> Prop).
Context (view_core : forall mn p w w' x, view mn p w x -> fdk_step w w' -> view mn p w' x).
Context (settled_refl : forall b, settled b b).

Definition deferred (x : X) (o : option loc) (v : V) : Prop := deferred_at x o (mv_objs v) (mv_notify v).
Definition deferred_inv (o : option loc) (v : V) : Prop :=
  exists x, view (mv_method v) (mv_pm v) (mv_w v) x /\ deferred x o v.
(** Nothing is asked of the client beyond the API's own rules. *)
Definition deferred_can (m : iv_fd_) : Prop := True.
Definition deferred_can_reg (v : V) (n w : Z) : Prop := True.
(** The kernel was not told of [f]. *)
Definition deferred_unknown (v : V) (f : loc) : Prop :=
  f ∉ members (mv_notify v) /\ forall m, mv_objs v !! f = Some m -> registered_bands m = 0.

Lemma inv_kernel o (v : V) w' : deferred_inv o v -> fdk_step (mv_w v) w' -> deferred_inv o (with_w w' v).
Proof. intros (x&Hx&Hd) Hk. exists x. split; [by eapply view_core|done]. Qed.
Lemma inv_members (v : V) f : deferred_inv None v -> f ∈ members (mv_notify v) -> is_registered (mv_objs v) f.
Proof. intros (x&_&Hd) Hf. destruct (df_members _ _ _ _ Hd f Hf) as (m&?&[?|?]); [by exists m|done]. Qed.
Lemma inv_free (v : V) f (m' : option iv_fd_) q : deferred_inv None v -> ~ is_registered (mv_objs v) f ->
  (forall m, m' = Some m -> registered m = false) -> members q = members (mv_notify v) ->
  (forall g, g <> f -> (g ∈ idle q <-> g ∈ idle (mv_notify v))) -> (f ∈ idle q -> f ∈ idle (mv_notify v)) ->
  deferred_inv None (mk_mv (partial_alter (fun _ => m') f (mv_objs v)) q (mv_method v) (mv_pm v) (mv_w v)).
Proof. intros (x&Hx&Hd) ?????. exists x. split; [done|]. by eapply deferred_client. Qed.
Lemma inv_opened (v : V) f : deferred_inv None v -> is_registered (mv_objs v) f -> deferred_inv (Some f) v.
Proof. intros (x&Hx&Hd) ?. exists x. split; [done|]. by eapply deferred_open. Qed.
Lemma inv_flags (v : V) f m b w : deferred_inv (Some f) v -> mv_objs v !! f = Some m ->
  deferred_inv (Some f) (with_objs (<[f := set_registered b (set_wanted_bands w m)]> (mv_objs v)) v).
Proof. intros (x&Hx&Hd) ?. exists x. split; [done|]. by eapply deferred_set. Qed.
Lemma unknown_flags (v : V) f m b w : deferred_unknown v f -> mv_objs v !! f = Some m ->
  deferred_unknown (with_objs (<[f := set_registered b (set_wanted_bands w m)]> (mv_objs v)) v) f.
Proof. intros [Hm Hb] Hf. split; [done|]. cbn. rewrite lookup_insert_eq. intros m' [= <-]. by apply (Hb m). Qed.

(** [iv_list_del_init(&fd->list_notify)] finds the cell of an object of the method. *)
Lemma deferred_linked x (s : St) f m : deferred x (Some f) (mv s) -> mv_objs (mv s) !! f = Some m ->
  exists q, iq_del_init f (fs_notify s) = Some q /\ members q = remove f (members (fs_notify s)) /\
    iq_ok q /\ f ∉ members q /\ f ∈ idle q /\
    (forall g, g <> f -> (g ∈ members q <-> g ∈ members (fs_notify s)) /\ (g ∈ idle q <-> g ∈ idle (fs_notify s))).
Proof.
  intros Hd Hf. pose proof (df_linked _ _ _ _ Hd f _ Hf ltac:(by right)) as Hl. cbn in Hl.
  assert (exists q, iq_del_init f (fs_notify s) = Some q /\ members q = remove f (members (fs_notify s))) as (q&Hq&Em).
  { unfold iq_del_init. destruct (decide (f ∈ members (fs_notify s))); [by eexists|].
    rewrite decide_True by naive_solver. eexists. split; [done|]. by rewrite remove_notin. }
  exists q. split; [done|]. split; [done|]. eapply relist_del_init; [apply Hd|done].
Qed.

(** The first object of the list, and the list without it. *)
Lemma deferred_head x om (s : St) f r : deferred x om (mv s) -> members (fs_notify s) = f :: r ->
  exists o q, fs_fds s !! f = Some o /\ live om f o /\ f ∉ r /\ members q = r /\
    iq_del_init f (fs_notify s) = Some q.
Proof.
  clear settled_refl view_core view. intros Hd Hm. destruct (df_members _ _ _ _ Hd f) as (m&Hf&Hl); [cbn; rewrite Hm; set_solver|].
  pose proof (iq_nodup _ (df_notify _ _ _ _ Hd)) as Hnd. cbn in Hnd. rewrite Hm in Hnd.
  apply mv_lookup_inv in Hf as (o&Ho&->). exists o, (mk_iseq r ({[f]} ∪ idle (fs_notify s))). split_and!; [done|done| |done|].
  - by apply NoDup_cons in Hnd as [? _].
  - unfold iq_del_init. rewrite decide_True by (rewrite Hm; set_solver). do 2 f_equal. rewrite Hm.
    apply (remove_split [] f r). exact Hnd.
Qed.

(** The [notify_fd] of the methods. *)
Definition notify_deferred (f : loc) : M St unit :=
  on_notify (iq_del_init f);;
  o ← load_fd f;
  when (negb (registered_bands o =? wanted_bands o)) (on_notify (iq_add_tail f)).

Lemma notify_deferred_spec x (s : St) f o : deferred x (Some f) (mv s) -> fs_fds s !! f = Some o ->
  wp anyf (notify_deferred f) s (fun _ s' => exists q, s' = set_fs_notify q s /\ deferred x (Some f) (mv s') /\
    (f ∈ members q <-> registered_bands o <> wanted_bands o) /\ (registered o = true -> deferred x None (mv s'))).
Proof.
  intros Hd Hf. unfold notify_deferred. pose proof (mv_lookup _ _ _ Hf) as Hm.
  destruct (deferred_linked x s f _ Hd Hm) as (q&Hq&_&Hqok&Hfq&Hfi&Hqg).
  wrun (on_notify_Ok s _ _ Hq). set (s1 := set_fs_notify q s). wrun (load_fd_Ok s1 f o Hf).
  assert (forall q', iq_ok q' -> f ∈ members q' \/ f ∈ idle q' ->
    (forall g, g <> f -> (g ∈ members q' <-> g ∈ members (fs_notify s)) /\ (g ∈ idle q' <-> g ∈ idle (fs_notify s))) ->
    (f ∈ members q' <-> registered_bands o <> wanted_bands o) ->
    exists q2, set_fs_notify q' s = set_fs_notify q2 s /\ deferred x (Some f) (mv (set_fs_notify q' s)) /\
    (f ∈ members q2 <-> registered_bands o <> wanted_bands o) /\ (registered o = true -> deferred x None (mv (set_fs_notify q' s)))) as Hend.
  { intros q' Hok' Hfq' Hg Hiff. exists q'. split; [done|]. split_and!; [|done|intros Hr].
    - eapply (deferred_relist x (Some f) _ (fs_notify s) q'); eauto; [by right|done].
    - eapply (deferred_relist x None _ (fs_notify s) q'); eauto; [by left|]. intros _ Hn. cbn.
      destruct (decide (registered_bands o = wanted_bands o)) as [->|]; [apply settled_refl|tauto]. }
  destruct (Z.eqb_spec (registered_bands o) (wanted_bands o)) as [Eb|Eb]; cbn [negb when].
  - eapply wp_Ok; [reflexivity|]. apply Hend; [done|by right|done|tauto].
  - destruct (iq_add_tail f q) as [q2|] eqn:Hq2; [|unfold iq_add_tail in Hq2; by case_decide].
    destruct (relist_add_tail _ _ _ Hqok Hq2) as (Hq2ok&Hf2&Hqg2).
    eapply wp_Ok; [by apply (on_notify_Ok s1)|]. apply (Hend q2); [done|by left| |tauto].
    intros g Hgf. destruct (Hqg g Hgf), (Hqg2 g Hgf). tauto.
Qed.

Lemma notify_inv (s : St) f m : deferred_inv (Some f) (mv s) -> mv_objs (mv s) !! f = Some m -> registered m = true ->
  wp anyf (notify_deferred f) s (fun _ s' => quiet s s' /\ deferred_inv None (mv s')).
Proof.
  intros (x&Hx&Hd) Hf Hr. apply mv_lookup_inv in Hf as (o&Ho&->).
  eapply wp_mono; [by eapply notify_deferred_spec|]. cbv beta. intros _ s' (q&->&_&_&Hn).
  split; [done|]. exists x. split; [done|]. by apply Hn.
Qed.

(** [iv_list_empty(&fd->list_notify)] *)
Lemma deferred_unlinked x (s : St) f o : deferred x (Some f) (mv s) -> fs_fds s !! f = Some o ->
  iq_unlinked f (fs_notify s) = Some (negb (bool_decide (f ∈ members (fs_notify s)))).
Proof.
  intros Hd Hf. unfold iq_unlinked. destruct (decide (f ∈ members (fs_notify s))) as [Hin|Hin].
  - by rewrite bool_decide_true by done.
  - rewrite bool_decide_false by done. rewrite decide_True; [done|].
    destruct (df_linked _ _ _ _ Hd f _ (mv_lookup _ _ _ Hf)) as [?|?]; [by right|done|done].
Qed.
End state.
End deferred.

(** ** Reporting objects during a poll *)
Section reporting.
Context {P W : Type} `{!FdKernel W} {inv : option loc -> mview P W -> Prop}.
Abbreviation St := (fd_state P W).
Abbreviation ok := (fd_ok (inv := inv)).

Definition reported (s s' : St) : Prop :=
  ok s' /\ fs_handled s' = fs_handled s /\ fs_ran s' = fs_ran s /\ mv s' = mv s.

Lemma reported_refl (s : St) : ok s -> reported s s.
Proof. done. Qed.
Lemma reported_trans (s1 s2 s3 : St) : reported s1 s2 -> reported s2 s3 -> reported s1 s3.
Proof. intros (?&?&?&?) (?&?&?&?). split_and!; [done|congruence..]. Qed.
Lemma reported_registered (s s' : St) f : mv s' = mv s -> is_registered (fs_fds s) f -> is_registered (fs_fds s') f.
Proof. intros E Hf. apply is_registered_meth. rewrite E. by apply is_registered_meth. Qed.

Lemma when_ready (b : bool) f bands (s : St) : ok s -> is_registered (fs_fds s) f ->
  wp anyf (when b (iv_fd_make_ready f bands)) s (fun _ s' => reported s s').
Proof.
  intros Hok Hf. destruct b; cbn [when]; [by apply make_ready_spec|]. by eapply wp_Ok; [reflexivity|].
Qed.

(** The three tests on the events reported for one object. *)
Lemma make_ready3_spec (b1 b2 b3 : bool) f m1 m2 m3 (s : St) : ok s -> is_registered (fs_fds s) f ->
  wp anyf (when b1 (iv_fd_make_ready f m1);; when b2 (iv_fd_make_ready f m2);; when b3 (iv_fd_make_ready f m3)) s
    (fun _ s' => reported s s').
Proof.
  intros Hok Hf. wuse (when_ready b1 f m1 s Hok Hf).
  rename H into H1. pose proof H1 as (Hok1&_&_&E1). pose proof (reported_registered _ _ f E1 Hf) as Hf1.
  wuse (when_ready b2 f m2 s' Hok1 Hf1).
  rename H into H2. pose proof H2 as (Hok2&_&_&E2). pose proof (reported_registered _ _ f E2 Hf1) as Hf2.
  eapply wp_mono; [by apply (when_ready b3 f m3)|]. cbv beta. intros _ s3 H3.
  apply (reported_trans s s' s3); [done|]. by apply (reported_trans s' s'0 s3).
Qed.

Lemma polled_after (s s1 s2 : St) : fs_handled s1 = fs_handled s -> fs_ran s1 = fs_ran s ->
  polled (inv := inv) s1 s2 -> polled (inv := inv) s s2.
Proof. intros E1 E2 [O H (l&R&F)]. split; [done|by rewrite <-E1|]. exists l. by rewrite <-E2. Qed.
Lemma polled_nothing (s s1 : St) : ok s1 -> fs_handled s1 = fs_handled s -> fs_ran s1 = fs_ran s ->
  polled (inv := inv) s s1.
Proof. intros O E1 E2. split; [done|by left|]. exists []. by rewrite app_nil_r. Qed.

Context (rp : M St unit) (Hrp : forall s, ok s -> wp anyf rp s (fun _ s' => polled (inv := inv) s s')).

Lemma run_pending_if (b r : bool) (s s1 : St) : ok s1 -> fs_handled s1 = fs_handled s -> fs_ran s1 = fs_ran s ->
  wp anyf (when b rp;; mret r) s1 (fun _ s' => polled (inv := inv) s s').
Proof.
  intros O E1 E2. destruct b; cbn [when].
  - wbind. eapply wp_mono; [by apply Hrp|]. cbv beta. intros _ s2 H2. eapply wp_Ok; [reflexivity|].
    by eapply polled_after.
  - wprim. eapply wp_Ok; [reflexivity|]. by apply polled_nothing.
Qed.
End reporting.
