(* ===== verification/FdKqueueSpec.v ===== *)
(** * The kqueue method keeps the kernel's filters in step

    The laws of kevent(2) the method relies on, the invariant that ties the objects and
    the registered filters together, and the proof that the method is a poll method in
    the sense of FdSpec.v. *)

From Stdlib Require Import Ascii.
From S2P Require Import Prelude ISeq Timer Sys Fd PmState FdKqueue FdSpec FdCore FdDeferred.

Local Open Scope Z_scope.

Abbreviation knotes := (gmap (Z * Z) ptr).
Definition fd_filter (filter : Z) : Prop := filter = EVFILT_READ \/ filter = EVFILT_WRITE.
Definition is_error (e : kevent) : bool := has (kv_flags e) EV_ERROR.

(** What a change does: delete, or add (replacing what was there). *)
Definition apply_change (x : knotes) (c : kevent) : knotes :=
  let key := (kv_filter c, kv_ident c) in
  if has (kv_flags c) EV_DELETE then delete key x
  else if has (kv_flags c) EV_ADD then <[key := kv_udata c]> x else x.
Definition apply_changes (cs : list kevent) (x : knotes) : knotes := foldl apply_change x cs.
(** The filters of descriptors agree. *)
Definition same_fds (x y : knotes) : Prop := forall filter n, fd_filter filter -> x !! (filter, n) = y !! (filter, n).

(** What the manual page says.  Changes are applied in order; those that fail are
    reported with [EV_ERROR] where there is room for events, and then nothing else is;
    what is reported is registered.  An interrupted call has applied its changes, unless
    it had no room for events, when it never waits.  A single change that fails
    changes nothing. *)
Class KqueueLaws (W : Type) `{!FdKernel W, !KqueueKernel W} : Prop := {
  kl_kevent : forall kq cs max t w r w', sys_kevent kq cs max t w = (r, w') ->
    match r with
    | inl l =>
        Z.of_nat (length l) <= max /\
        (Forall (fun e => is_error e = true) l \/ Forall (fun e => is_error e = false) l) /\
        ((exists e, e ∈ l /\ fd_filter (kv_filter e) /\ is_error e = true) \/
         same_fds (kq_knotes kq w') (apply_changes cs (kq_knotes kq w))) /\
        forall e, e ∈ l -> fd_filter (kv_filter e) -> is_error e = false ->
          kq_knotes kq w' !! (kv_filter e, kv_ident e) = Some (kv_udata e)
    | inr e =>
        if decide (max = 0) then
          ((length cs <= 1)%nat \/ e = EINTR -> same_fds (kq_knotes kq w') (kq_knotes kq w)) /\
          (e = EINTR -> (kq_signals w' < kq_signals w)%nat)
        else e = EINTR -> same_fds (kq_knotes kq w') (apply_changes cs (kq_knotes kq w))
    end;
  kl_kqueue : forall w n w', sys_kqueue w = (inl n, w') -> kq_knotes n w' = ∅;
  kl_core : forall kq w w', fdk_step w w' -> kq_knotes kq w' = kq_knotes kq w }.

(** ** What is on file of an object *)
Definition band_of (filter : Z) : Z := if filter =? EVFILT_READ then MASKIN else MASKOUT.
Definition kq_entry (x : knotes) (f : loc) : Prop := exists filter n, fd_filter filter /\ x !! (filter, n) = Some (Some f).
Definition kq_told (x : knotes) (f : loc) (n b : Z) : Prop :=
  forall filter k, fd_filter filter -> x !! (filter, k) = Some (Some f) -> k = n /\ has b (band_of filter) = true.
Definition kq_world (x : knotes) : Prop := forall filter n, fd_filter filter -> x !! (filter, n) <> Some None.
(** [notify_fd_sync] leaves an object with one of the bands it wants. *)
Definition kq_settled (b w : Z) : Prop := b = w \/ (b = MASKIN \/ b = MASKOUT) /\ has w b = true.

Lemma same_fds_refl x : same_fds x x.
Proof. done. Qed.
Lemma same_fds_sym x y : same_fds x y -> same_fds y x.
Proof. intros H filter n Hf. by rewrite H. Qed.
Lemma same_fds_trans x y z : same_fds x y -> same_fds y z -> same_fds x z.
Proof. intros H1 H2 filter n Hf. by rewrite H1, H2. Qed.
#[global] Instance same_fds_equivalence : Equivalence same_fds.
Proof. split; [exact same_fds_refl|exact same_fds_sym|exact same_fds_trans]. Qed.

Lemma apply_change_same x y c : same_fds x y -> same_fds (apply_change x c) (apply_change y c).
Proof.
  intros H filter n Hf. unfold apply_change. destruct (has _ EV_DELETE); [|destruct (has _ EV_ADD); [|by apply H]].
  - rewrite !lookup_delete. case_decide; [done|by apply H].
  - rewrite !lookup_insert. case_decide; [done|by apply H].
Qed.
#[global] Instance apply_changes_proper cs : Proper (same_fds ==> same_fds) (apply_changes cs).
Proof.
  intros x y H. revert x y H. induction cs as [|c cs IH]; intros x y H; [done|]. cbn. apply IH. by apply apply_change_same.
Qed.
Lemma apply_changes_app l1 l2 x : apply_changes (l1 ++ l2) x = apply_changes l2 (apply_changes l1 x).
Proof. apply foldl_app. Qed.

Lemma deferred_same x y o objs q : same_fds x y ->
  deferred_at kq_entry kq_told kq_world kq_settled x o objs q -> deferred_at kq_entry kq_told kq_world kq_settled y o objs q.
Proof.
  intros H [H1 H2 H3 H4 H5 H6 H7]. split; try done.
  - intros filter n Hf. rewrite <-(H filter n Hf). by apply H5.
  - intros f (filter&n&Hf&E). apply H6. exists filter, n. by rewrite (H filter n Hf).
  - intros f m Hm Hl filter k Hf E. apply (H7 f m Hm Hl); [done|by rewrite (H filter k Hf)].
Qed.

(** One change, for one of the two filters. *)
Lemma lookup_band_change filter mask f o x key : apply_changes (band_change filter mask f o) x !! key =
  if decide (key = (filter, fd_fd o)) then
    if has (wanted_bands o) mask then if has (registered_bands o) mask then x !! key else Some (Some f)
    else if has (registered_bands o) mask then None else x !! key
  else x !! key.
Proof.
  unfold band_change. destruct (has (wanted_bands o) mask), (has (registered_bands o) mask); cbn [negb andb apply_changes foldl].
  - by case_decide.
  - change (apply_change x _) with (<[(filter, fd_fd o) := Some f]> x). case_decide as E.
    + subst. apply lookup_insert_eq.
    + by rewrite lookup_insert_ne.
  - change (apply_change x _) with (delete (filter, fd_fd o) x). case_decide as E.
    + subst. apply lookup_delete_eq.
    + by rewrite lookup_delete_ne.
  - by case_decide.
Qed.
(** Both, in the order of the code. *)
Definition both_changes (f : loc) (o : iv_fd_) : list kevent :=
  band_change EVFILT_READ MASKIN f o ++ band_change EVFILT_WRITE MASKOUT f o.
Lemma lookup_both_changes f o x filter n : fd_filter filter -> apply_changes (both_changes f o) x !! (filter, n) =
  if decide (n = fd_fd o) then
    if has (wanted_bands o) (band_of filter) then if has (registered_bands o) (band_of filter) then x !! (filter, n) else Some (Some f)
    else if has (registered_bands o) (band_of filter) then None else x !! (filter, n)
  else x !! (filter, n).
Proof.
  intros Hf. unfold both_changes. rewrite apply_changes_app, !lookup_band_change.
  destruct Hf as [-> | ->]; destruct (decide (n = fd_fd o)) as [->|Hn];
    repeat first [rewrite (decide_True _ _ eq_refl)|rewrite decide_False by congruence]; done.
Qed.

Section kqueue.
Context {W : Type} `{!FdKernel W, !KqueueKernel W, HL : !KqueueLaws W}.
Abbreviation St := (fd_state pm_state W).
Abbreviation V := (mview pm_state W).

Definition kq_view (m : option method_name) (p : pm_state) (w : W) (x : knotes) : Prop :=
  m = Some MKqueue /\ exists k, pm_u p = UKqueue k /\ same_fds x (kq_knotes (kqueue_fd k) w).
Abbreviation told_at := (deferred kq_entry kq_told kq_world kq_settled).
Definition kqueue_inv : option loc -> V -> Prop := deferred_inv kq_entry kq_told kq_world kq_settled kq_view.

Lemma kq_view_core m p w w' x : kq_view m p w x -> fdk_step w w' -> kq_view m p w' x.
Proof. intros (Hm&k&Hk&Hx) Hs. split; [done|]. exists k. by rewrite (kl_core _ _ _ Hs). Qed.
Lemma kq_settled_refl b : kq_settled b b.
Proof. by left. Qed.

Lemma load_kq_Ok (s : St) k : pm_u (fs_pm s) = UKqueue k -> load_kq s = Ok (k, s).
Proof. intros H. unfold load_kq. msimpl. by rewrite H. Qed.

(** ** Handing over the changes *)

(** The changes in [kev] are not known to the kernel yet, but counted as if they were. *)
Definition pending (kev : list kevent) (o : option loc) (k : kqueue_state) (s : St) : Prop :=
  fs_method s = Some MKqueue /\ pm_u (fs_pm s) = UKqueue k /\
  told_at (apply_changes kev (kq_knotes (kqueue_fd k) (fs_w s))) o (mv s).

Lemma pending_inv o k (s : St) : pending [] o k s -> kqueue_inv o (mv s).
Proof. intros (Hm&Hk&Hd). eexists. split; [|exact Hd]. split; [done|]. by exists k. Qed.
Lemma inv_pending o (s : St) : kqueue_inv o (mv s) -> exists k, pending [] o k s.
Proof. intros (x&(Hm&k&Hk&Hx)&Hd). exists k. split_and!; [done|done|]. by eapply deferred_same. Qed.

(** kevent without room for events, retried. *)
Lemma kevent_spec kev k (s : St) : pm_u (fs_pm s) = UKqueue k ->
  wp anyf (__kevent_retry kev) s (fun r s' => exists w', s' = set_fs_w w' s /\
    match r with
    | inl _ => same_fds (kq_knotes (kqueue_fd k) w') (apply_changes kev (kq_knotes (kqueue_fd k) (fs_w s)))
    | inr _ => (length kev <= 1)%nat -> same_fds (kq_knotes (kqueue_fd k) w') (kq_knotes (kqueue_fd k) (fs_w s))
    end).
Proof.
  intros Hk. unfold __kevent_retry. wrun (load_kq_Ok s k Hk). wprim.
  apply (retry_spec anyf (fun s1 : St => exists w1, s1 = set_fs_w w1 s /\
      same_fds (kq_knotes (kqueue_fd k) w1) (kq_knotes (kqueue_fd k) (fs_w s))) (fun s1 => kq_signals (fs_w s1))); [| |lia].
  - intros s1 (w1&->&E1).
    destruct (sys_kevent (kqueue_fd k) kev 0 (Some (mk_tsp 0 0)) w1) as [r w2] eqn:Ec.
    pose proof (kl_kevent _ _ _ _ _ _ _ Ec) as Hl. eapply wp_Ok; [by apply kernel_Ok|]. cbv beta.
    destruct r as [l|er].
    + exists w2. split; [done|]. destruct Hl as (Hlen&_&Happ&_). destruct l; [|cbn in Hlen; lia].
      destruct Happ as [(e&[]%not_elem_of_nil&_)|Happ]. rewrite Happ. by rewrite E1.
    + destruct (decide (0 = 0)) as [_|]; [|done]. destruct Hl as [Hl Hs].
      assert ((length kev <= 1)%nat \/ er = EINTR -> same_fds (kq_knotes (kqueue_fd k) w2) (kq_knotes (kqueue_fd k) (fs_w s))) as Hsame.
      { intros H. by rewrite (Hl H). }
      destruct er; try (exists w2; split; [done|intros ?; apply Hsame; auto]).
      split; [exists w2; split; [done|apply Hsame; auto]|]. by apply Hs.
  - exists (fs_w s). by destruct s.
Qed.
Lemma kevent_retry_spec kev k o (s : St) : pending kev o k s ->
  wp anyf (__kevent_retry kev) s (fun r s' => exists w', s' = set_fs_w w' s /\
    match r with inl _ => pending [] o k s' | inr _ => True end).
Proof.
  intros (Hm&Hk&Hd). eapply wp_mono; [by apply kevent_spec|]. cbv beta. intros r s' (w'&->&Hr). exists w'. split; [done|].
  destruct r as [l|]; [|done]. split_and!; [done|done|]. eapply deferred_same; [symmetry; exact Hr|exact Hd].
Qed.

(** ** Queueing one object *)

(** What the queueing of an object does to what is on file, were it handed over. *)
Lemma both_changes_told x f o b :
  (forall filter k, fd_filter filter -> x !! (filter, k) = Some (Some f) -> k = fd_fd o /\ has (registered_bands o) (band_of filter) = true) ->
  kq_world x ->
  let y := apply_changes (both_changes f o) x in
  kq_world y /\ (forall g, kq_entry y g -> g = f \/ kq_entry x g) /\
  (forall g n c, g <> f -> kq_told x g n c -> kq_told y g n c) /\
  (b = wanted_bands o -> kq_told y f (fd_fd o) b).
Proof.
  intros Hf Hw y. split_and!.
  - intros filter n Hff. unfold y. rewrite lookup_both_changes by done. specialize (Hw filter n Hff).
    repeat case_match; try done; congruence.
  - intros g (filter&n&Hff&E). unfold y in E. rewrite lookup_both_changes in E by done.
    assert (x !! (filter, n) = Some (Some g) \/ g = f) as [?|?]; [|right; by exists filter, n|by left].
    repeat case_match; simplify_eq; auto.
  - intros g n c Hg Ht filter k Hff E. unfold y in E. rewrite lookup_both_changes in E by done.
    apply Ht; [done|]. repeat case_match; simplify_eq; auto.
  - intros -> filter k Hff E. unfold y in E. rewrite lookup_both_changes in E by done.
    destruct (decide (k = fd_fd o)) as [->|Hk].
    + split; [done|]. destruct (has (wanted_bands o) (band_of filter)); [done|].
      destruct (has (registered_bands o) (band_of filter)) eqn:Er; [done|].
      destruct (Hf _ _ Hff E) as [_ ?]. congruence.
    + by destruct (Hf _ _ Hff E).
Qed.

Lemma band_change_length filter mask f o : (length (band_change filter mask f o) <= 1)%nat.
Proof. unfold band_change. repeat case_match; cbn; lia. Qed.

Lemma queue_one_Ok kev f o q (s : St) : fs_fds s !! f = Some o -> iq_del_init f (fs_notify s) = Some q ->
  (length kev <= UPLOAD_BATCH - 2)%nat ->
  iv_fd_kqueue_queue_one kev f s = Ok (kev ++ both_changes f o, set_fs_notify q s) /\
  (length (kev ++ both_changes f o) <= UPLOAD_BATCH)%nat.
Proof.
  intros Hf Hq Hlen. unfold iv_fd_kqueue_queue_one. mrun (on_notify_Ok s _ _ Hq). mrun (load_fd_Ok (set_fs_notify q s) f o Hf).
  pose proof (band_change_length EVFILT_READ MASKIN f o). pose proof (band_change_length EVFILT_WRITE MASKOUT f o).
  unfold store_kev, both_changes. rewrite (proj2 (Nat.leb_le _ _)) by (rewrite length_app; unfold UPLOAD_BATCH in *; lia). msimpl.
  rewrite (proj2 (Nat.leb_le _ _)) by (rewrite !length_app; unfold UPLOAD_BATCH in *; lia).
  rewrite app_assoc. split; [done|]. rewrite !length_app. unfold UPLOAD_BATCH in *. lia.
Qed.

Definition settle (f : loc) (o : iv_fd_) (q : iseq) (s : St) : St :=
  upd f (set_registered_bands (wanted_bands o) o) (set_fs_notify q s).
Lemma pending_settle kev f o om k q (s : St) : pending kev om k s -> fs_fds s !! f = Some o -> live om f o ->
  iq_del_init f (fs_notify s) = Some q -> pending (kev ++ both_changes f o) om k (settle f o q s).
Proof.
  intros (Hm&Hk&Hd) Hf Hl Hq. pose proof (mv_lookup _ _ _ Hf) as Hmf.
  destruct (relist_del_init _ _ _ (df_notify _ _ _ _ _ _ _ _ Hd) Hq) as (Hqok&Hfq&Hfi&Hqg).
  set (x := apply_changes kev (kq_knotes (kqueue_fd k) (fs_w s))) in *.
  pose proof (df_told _ _ _ _ _ _ _ _ Hd f _ Hmf Hl) as Htf.
  destruct (both_changes_told x f o (wanted_bands o)) as (Hw&He&Ht&Htf'); [exact Htf|apply Hd|].
  split_and!; [done|done|]. cbn [fs_w settle upd set_fs_notify set_fs_fds].
  rewrite apply_changes_app. fold x. unfold deferred.
  change (mv_objs (mv (settle f o q s))) with (meth_obj <$> <[f := set_registered_bands (wanted_bands o) o]> (fs_fds s)).
  rewrite fmap_insert.
  change (meth_obj (set_registered_bands (wanted_bands o) o)) with (set_registered_bands (wanted_bands o) (meth_obj o)).
  apply (deferred_change _ _ _ _ x _ om om (meth_obj <$> fs_fds s) (fs_notify s)); try done; auto.
  intros _ _ _. by left.
Qed.

Lemma upload_next_spec om k kev f r (s : St) : pending kev om k s /\ (length kev <= UPLOAD_BATCH)%nat ->
  members (fs_notify s) = f :: r ->
  wp anyf (upload_next kev f) s (fun kev' s' => (pending kev' om k s' /\ (length kev' <= UPLOAD_BATCH)%nat) /\ drained f r s s').
Proof.
  intros [Hp Hkev] Hms. pose proof Hp as (_&_&Hd0). unfold upload_next.
  destruct (deferred_head _ _ _ _ _ om s f r Hd0 Hms) as (o&q&Ho&Hl&Hfr&Emq&Hq). clear Hd0.
  wbind. apply (wp_mono _ _ _ (fun kev1 s1 => (exists w1, s1 = set_fs_w w1 s) /\ pending kev1 om k s1 /\ (length kev1 <= UPLOAD_BATCH - 2)%nat)).
  { destruct (Nat.ltb_spec (UPLOAD_BATCH - 2) (length kev)).
    - unfold kevent_retry. wbind. wbind. eapply wp_mono; [by apply kevent_retry_spec|]. cbv beta.
      intros ret s1 (w1&->&Hr). destruct ret as [l|]; cbn [failed]; [|done]. wprim. eapply wp_Ok; [reflexivity|].
      split_and!; [by eexists|done|cbn; lia].
    - eapply wp_Ok; [reflexivity|]. split_and!; [exists (fs_w s); by destruct s|done|done]. }
  intros kev1 s1 ([w1 ->]&Hp1&Hlen1).
  destruct (queue_one_Ok kev1 f o q (set_fs_w w1 s) Ho Hq Hlen1) as [Eq Hlen2]. wrun Eq.
  wrun (upd_fd_Ok (set_fs_notify q (set_fs_w w1 s)) f o (fun o => set_registered_bands (wanted_bands o) o) Ho).
  fold (settle f o q (set_fs_w w1 s)). eapply wp_Ok; [reflexivity|]. split; [split; [by apply pending_settle|done]|].
  split.
  - by apply (quiet_upd (set_fs_notify q (set_fs_w w1 s)) f o).
  - done.
  - done.
  - by exists o.
Qed.

Lemma kq_upload_spec kev om k (s : St) : pending kev om k s -> (length kev <= UPLOAD_BATCH)%nat ->
  wp anyf (iv_fd_kqueue_upload kev) s (fun kev' s' => quiet s s' /\ pending kev' om k s' /\
    members (fs_notify s') = [] /\ settled_on s s').
Proof.
  intros Hp Hl. unfold iv_fd_kqueue_upload. wprim.
  eapply wp_mono; [apply (drain_spec (fun kev s => pending kev om k s /\ (length kev <= UPLOAD_BATCH)%nat)); [|done|lia]|].
  - intros kev1 f r s1. apply upload_next_spec.
  - cbv beta. intros kev' s' (?&[? _]&?&?). done.
Qed.

Lemma kq_upload_all_spec om k (s : St) : pending [] om k s ->
  wp anyf iv_fd_kqueue_upload_all s (fun _ s' => quiet s s' /\ pending [] om k s' /\
    members (fs_notify s') = [] /\ settled_on s s').
Proof.
  intros Hp. unfold iv_fd_kqueue_upload_all. wbind. eapply wp_mono; [apply (kq_upload_spec [] om k s Hp); cbn; lia|].
  cbv beta. intros kev s' (Hq&Hp'&Hm&Hs). destruct (Nat.eqb_spec (length kev) 0) as [E|E]; cbn [negb when].
  - destruct kev; [|done]. by eapply wp_Ok; [reflexivity|].
  - unfold kevent_retry. wbind. eapply wp_mono; [by apply kevent_retry_spec|]. cbv beta.
    intros ret s1 (w1&->&Hr). destruct ret as [l|]; cbn [failed]; [|done]. eapply wp_Ok; [reflexivity|]. done.
Qed.

(** ** The operations *)
Lemma kq_unregister_spec (s : St) f o : kqueue_inv (Some f) (mv s) -> fs_fds s !! f = Some o ->
  registered o = false -> wanted_bands o = 0 -> (f ∉ members (fs_notify s) -> registered_bands o = 0) ->
  wp anyf (iv_fd_kqueue_unregister_fd f) s (fun _ s' => quiet s s' /\ kqueue_inv None (mv s')).
Proof.
  intros Hi Hf Hr Hw Hb. unfold iv_fd_kqueue_unregister_fd. wprim.
  destruct (inv_pending _ _ Hi) as (k&Hp). pose proof Hp as (Hm&Hk&Hd).
  rewrite (deferred_unlinked _ _ _ _ _ s f o Hd Hf). wprim.
  assert (forall (s' : St) o', pending [] (Some f) k s' -> fs_fds s' !! f = Some o' -> registered o' = false ->
    registered_bands o' = 0 -> f ∉ members (fs_notify s') -> kqueue_inv None (mv s')) as Hend.
  { intros s' o' Hp' Hf' Hr' Hb' Hm'. apply (pending_inv None k). destruct Hp' as (Hm2&Hk2&Hd2). split_and!; [done|done|].
    pose proof (mv_lookup _ _ _ Hf') as Hmf. pose proof (df_told _ _ _ _ _ _ _ _ Hd2 f _ Hmf ltac:(by right)) as Ht.
    eapply (deferred_drop _ _ _ _ _ _ _ _ f (meth_obj o')); [exact Hd2|done..|apply Hd2| |done].
    intros g (filter&n&Hff&E). split; [|by exists filter, n]. intros ->.
    destruct (Ht filter n Hff E) as [_ Hb2]. cbn in Hb2. rewrite Hb' in Hb2. by destruct Hff as [-> | ->]. }
  rewrite negb_involutive. case_bool_decide as Hin; cbn [when].
  - eapply wp_mono; [by apply kq_upload_all_spec|]. cbv beta. intros _ s' (Hq&Hp'&Hm'&Hs). split; [done|].
    pose proof (Hs f o Hf) as Hf'. rewrite decide_True in Hf' by done. eapply Hend; [done|exact Hf'|done|done|].
    rewrite Hm'. apply not_elem_of_nil.
  - eapply wp_Ok; [reflexivity|]. split; [done|]. eapply (Hend s o); try done. by apply Hb.
Qed.

Lemma sync_band_spec filter (s : St) f o : kqueue_inv (Some f) (mv s) -> fs_fds s !! f = Some o -> registered o = true ->
  registered_bands o = 0 -> f ∉ members (fs_notify s) -> fd_filter filter ->
  wp anyf (sync_band filter (band_of filter) f) s (fun ok s' => quiet s s' /\
    if ok : bool then kqueue_inv None (mv s') /\ fs_notify s' = fs_notify s /\
      fs_fds s' !! f = Some (set_registered_bands (band_of filter) o)
    else kqueue_inv (Some f) (mv s') /\ fs_fds s' = fs_fds s /\ fs_notify s' = fs_notify s).
Proof.
  intros Hi Hf Hr Hb Hnm Hff. unfold sync_band. wrun (load_fd_Ok s f o Hf).
  destruct (has (wanted_bands o) (band_of filter)) eqn:Hw; [|by eapply wp_Ok; [reflexivity|]].
  pose proof Hi as (x&(Hm&k&Hk&Hx)&Hd). wbind. eapply wp_mono; [by apply (kevent_spec _ k)|]. cbv beta.
  intros ret s1 (w1&->&Hr1). destruct ret as [l|er]; cbn [failed].
  - wrun (upd_fd_Ok (set_fs_w w1 s) f o (fun o => set_registered_bands (Z.lor (registered_bands o) (band_of filter)) o) Hf).
    eapply wp_Ok; [reflexivity|]. split; [by apply (quiet_upd (set_fs_w w1 s) f o)|]. rewrite Hb, Z.lor_0_l.
    split; [|split; [done|apply lookup_upd_eq]].
    exists (<[(filter, fd_fd o) := Some f]> x). split.
    { split; [done|]. exists k. split; [done|]. cbn. rewrite Hr1.
      cbn [apply_changes foldl]. change (apply_change ?y _) with (<[(filter, fd_fd o) := Some f]> y).
      intros flt n Hflt. rewrite !lookup_insert. case_decide; [done|by apply Hx]. }
    unfold deferred. change (mv_objs (mv (upd f ?o' (set_fs_w w1 s)))) with (meth_obj <$> <[f := o']> (fs_fds s)).
    rewrite fmap_insert. change (meth_obj (set_registered_bands (band_of filter) o)) with (set_registered_bands (band_of filter) (meth_obj o)).
    pose proof (mv_lookup _ _ _ Hf) as Hmf. pose proof (df_told _ _ _ _ _ _ _ _ Hd f _ Hmf ltac:(by right)) as Ht. cbn in Ht. rewrite Hb in Ht.
    apply (deferred_change _ _ _ _ x _ (Some f) None (meth_obj <$> fs_fds s) (fs_notify s)); try done.
    + by right.
    + by left.
    + intros g mg Hg. unfold live. naive_solver.
    + congruence.
    + apply Hd.
    + right. destruct (df_linked _ _ _ _ _ _ _ _ Hd f _ Hmf) as [?|?]; [by right|done|done].
    + intros _ _ _. right. split; [|done]. destruct Hff as [-> | ->]; auto.
    + intros flt n Hflt. rewrite lookup_insert. case_decide; [done|]. by apply Hd.
    + intros g (flt&n&Hflt&E). rewrite lookup_insert in E. case_decide; [left; congruence|right; by exists flt, n].
    + intros g n c Hg Htg flt n' Hflt E. rewrite lookup_insert in E. case_decide; [congruence|by apply Htg].
    + intros flt n' Hflt E. rewrite lookup_insert in E. case_decide as Ek.
      * injection Ek as <- <-. split; [done|]. by destruct Hff as [-> | ->].
      * destruct (Ht flt n' Hflt E) as [_ Hz]. by destruct Hflt as [-> | ->].
  - eapply wp_Ok; [reflexivity|]. split; [done|]. split_and!; [|done|done]. exists x. split; [|exact Hd].
    split; [done|]. exists k. split; [done|]. cbn. rewrite (Hr1 ltac:(cbn; lia)). exact Hx.
Qed.

(** ** kqueue is a poll method *)
Context (clock_gettime : nat -> clockid -> option timespec) (gettimeofday : nat -> Z * Z).
Context (rp : M St unit) (method_of : method_name -> iv_fd_poll_method St).
Context (Hkq : method_of MKqueue = iv_fd_poll_method_kqueue clock_gettime gettimeofday rp).

Lemma kq_method o (s : St) : kqueue_inv o (mv s) -> the_method method_of s = Ok (iv_fd_poll_method_kqueue clock_gettime gettimeofday rp, s).
Proof. intros (x&[Hm _]&_). rewrite <-Hkq. by apply the_method_Ok. Qed.

#[global] Instance kqueue_poll_method : PollMethod method_of kqueue_inv deferred_can deferred_can_reg deferred_unknown.
Proof.
  split.
  - intros o v w'. apply inv_kernel. exact kq_view_core.
  - intros v f. apply inv_members.
  - intros v f m' q. apply inv_free.
  - intros v f. apply inv_opened.
  - intros v f m b w. apply inv_flags.
  - intros v f m b w. apply unknown_flags.
  - intros s v f m q w (x&Hx&Hd) Hf _ Hr Hb Hq Emv.
    destruct (deferred_register _ _ _ _ x x _ _ f m q Hd Hf Hr Hq) as [Hfm Hd']; [apply Hd|by right|done| |].
    { rewrite Hb. intros flt n Hff E. exfalso. apply Hf.
      destruct (df_entry _ _ _ _ _ _ _ _ Hd f) as (m0&?&[?|?]); [by exists flt, n|by exists m0|done]. }
    assert (kqueue_inv (Some f) (mv s)) as Hi by (rewrite Emv; by exists x).
    unfold method_register. wrun (kq_method _ s Hi). eapply wp_Ok; [reflexivity|].
    split_and!; [done|done| |]; rewrite Emv; [split; [done|]; cbn; rewrite lookup_insert_eq; by intros ? [= <-]|].
    exists m. cbn. by rewrite lookup_insert_eq.
  - intros s f m Hi Hf _ Hr. wrun (kq_method _ s Hi). eapply notify_inv; [exact kq_settled_refl|done..].
  - intros s f m Hi Hf _ Hr Hw. apply mv_lookup_inv in Hf as (o&Ho&->). wbind. wrun (kq_method _ s Hi).
    pose proof Hi as (x&Hx&Hd).
    eapply wp_mono; [eapply notify_deferred_spec; [exact kq_settled_refl|exact Hd|exact Ho]|].
    cbv beta. intros _ s' (q&->&Hd'&Hiff&_). assert (kqueue_inv (Some f) (mv (set_fs_notify q s))) as Hi' by (by exists x).
    unfold method_unregister. wrun (kq_method _ (set_fs_notify q s) Hi').
    eapply wp_mono; [apply (kq_unregister_spec (set_fs_notify q s) f o Hi' Ho Hr Hw)|by cbv beta].
    cbn. intros Hn. destruct (decide (registered_bands o = wanted_bands o)); [cbn in Hw; congruence|tauto].
  - intros s f m Hi Hf Hr _ [Hu1 Hu2]. pose proof (Hu2 _ Hf) as Hb. apply mv_lookup_inv in Hf as (o&Ho&->).
    wrun (kq_method _ s Hi). change (pm_notify_fd_sync _ f) with (iv_fd_kqueue_notify_fd_sync (W := W) f).
    unfold iv_fd_kqueue_notify_fd_sync.
    wbind. eapply wp_mono; [apply (sync_band_spec EVFILT_READ s f o Hi Ho Hr Hb Hu1); by left|]. cbv beta.
    assert (forall s' : St, kqueue_inv None (mv s') -> is_Some (fs_fds s' !! f) -> kqueue_inv None (mv s') /\
      exists m', mv_objs (mv s') !! f = Some m' /\ forall w, deferred_can (set_wanted_bands w m')) as Hend.
    { intros s' Hi' [o' Ho']. split; [done|]. exists (meth_obj o'). split; [by apply mv_lookup|done]. }
    intros [] s1 [Hq1 H1]; [eapply wp_Ok; [reflexivity|]; split; [done|]; rewrite decide_True by done; destruct H1 as (?&_&?); apply Hend; [done|by eexists]|].
    destruct H1 as (Hi1&Ef1&En1). wbind. eapply wp_mono; [apply (sync_band_spec EVFILT_WRITE s1 f o Hi1); [by rewrite Ef1|done|done|by rewrite En1|by right]|].
    cbv beta. intros [] s2 [Hq2 H2]; (eapply wp_Ok; [reflexivity|]); (split; [by eapply quiet_trans|]).
    + rewrite decide_True by done. destruct H2 as (?&_&?). apply Hend; [done|by eexists].
    + rewrite decide_False by done. destruct H2 as (Hi2&Ef2&En2). split; [done|]. split; [cbn; by rewrite En2, En1|].
      intros m' Hm'. apply mv_lookup_inv in Hm' as (o'&Ho'&->). rewrite Ef2, Ef1, Ho in Ho'. by injection Ho' as <-.
  - intros s f m Hi Hf Hr [Hu1 Hu2]. pose proof (Hu2 _ Hf) as Hb. apply mv_lookup_inv in Hf as (o&Ho&->).
    unfold method_unregister. wrun (kq_method _ s Hi).
    change (match pm_unregister_fd _ with Some u => u f | None => _ end) with (iv_fd_kqueue_unregister_fd (W := W) f).
    pose proof Hi as (x&Hx&Hd). unfold iv_fd_kqueue_unregister_fd. wprim. rewrite (deferred_unlinked _ _ _ _ _ s f o Hd Ho). wprim.
    rewrite bool_decide_false by done. cbn [negb when]. eapply wp_Ok; [reflexivity|]. split; [done|].
    exists x. split; [done|]. pose proof (mv_lookup _ _ _ Ho) as Hmf.
    pose proof (df_told _ _ _ _ _ _ _ _ Hd f _ Hmf ltac:(by right)) as Ht. rewrite Hb in Ht.
    eapply (deferred_drop _ _ _ _ x x); [exact Hd|done..|apply Hd| |done].
    intros g (flt&n&Hff&E). split; [|by exists flt, n]. intros ->. destruct (Ht flt n Hff E) as [_ Hz]. by destruct Hff as [-> | ->].
Qed.

(** ** Polling *)
Abbreviation ok := (fd_ok (inv := kqueue_inv)).

(** What is reported of descriptors refers to registered objects, or is an error. *)
Definition kq_batch_ok (s : St) (l : list kevent) : Prop := forall e, e ∈ l -> fd_filter (kv_filter e) ->
  is_error e = false -> exists f, kv_udata e = Some f /\ is_registered (fs_fds s) f.
Lemma kq_batch_mono (s s' : St) e l : kq_batch_ok s (e :: l) -> mv s' = mv s -> kq_batch_ok s' l.
Proof.
  intros H E e' Hin Hf He. destruct (H e' ltac:(by right) Hf He) as (f&Hu&Hr). exists f. split; [done|].
  by eapply reported_registered.
Qed.

Lemma kqueue_batch_spec l b1 b2 (s : St) : ok s -> kq_batch_ok s l ->
  wp anyf (kqueue_batch l b1 b2) s (fun _ s' => reported (inv := kqueue_inv) s s').
Proof.
  revert b1 b2 s. induction l as [|e l IH]; intros b1 b2 s Hok Hl; [by eapply wp_Ok; [reflexivity|]|].
  assert (kq_batch_ok s l) as Hl' by (by eapply kq_batch_mono).
  cbn [kqueue_batch]. destruct (Z.eqb_spec (kv_filter e) EVFILT_TIMER); [by apply IH|].
  destruct (Z.eqb_spec (kv_filter e) EVFILT_USER); [by apply IH|].
  destruct (has (kv_flags e) EV_ERROR) eqn:He; [done|].
  assert (forall mask, fd_filter (kv_filter e) ->
    wp anyf (f ← deref (kv_udata e); iv_fd_make_ready f mask;; kqueue_batch l b1 b2) s (fun _ s' => reported (inv := kqueue_inv) s s')) as Hready.
  { intros mask Hf. destruct (Hl e ltac:(by left) Hf He) as (f&->&Hr). wprim.
    wbind. eapply wp_mono; [by apply (make_ready_spec s f mask Hok)|]. cbv beta. intros _ s1 H1. pose proof H1 as (Hok1&_&_&E1).
    eapply wp_mono; [apply IH; [done|by eapply kq_batch_mono]|]. cbv beta. intros _ s2 H2. by eapply reported_trans. }
  destruct (Z.eqb_spec (kv_filter e) EVFILT_READ) as [E|E]; [apply Hready; by left|].
  destruct (Z.eqb_spec (kv_filter e) EVFILT_WRITE) as [E'|E']; [apply Hready; by right|done].
Qed.

(** The change of the timer is none of a descriptor's. *)
Lemma timer_change_spec k o (s : St) : pending [] o k s ->
  wp anyf (timer_change clock_gettime gettimeofday) s (fun kev s' => quiet s s' /\ fs_notify s' = fs_notify s /\
    (length kev <= 1)%nat /\ exists k', pending kev o k' s').
Proof.
  intros (Hm&Hk&Hd). unfold timer_change. wrun (load_kq_Ok s k Hk). destruct (timeout_pending k).
  2:{ eapply wp_Ok; [reflexivity|]. split_and!; [done|done|cbn; lia|by exists k]. }
  unfold upd_kq. wbind. wrun (load_kq_Ok s k Hk). eapply wp_Ok; [reflexivity|]. cbv beta.
  set (k1 := set_timeout_pending false k). set (s1 := set_fs_pm _ s).
  wrun (load_kq_Ok s1 k1 eq_refl).
  assert (forall t e, kv_filter e = EVFILT_TIMER -> pending [e] o k1 (set_fs_timer t s1)) as Hend.
  { intros t e He. split_and!; [done|done|]. eapply deferred_same; [|exact Hd].
    intros flt n Hff. cbn [apply_changes foldl]. unfold apply_change. rewrite He.
    assert ((EVFILT_TIMER, kv_ident e) <> (flt, n)) by (by destruct Hff as [-> | ->]).
    destruct (has _ EV_DELETE); [by rewrite lookup_delete_ne|]. destruct (has _ EV_ADD); [by rewrite lookup_insert_ne|done]. }
  change (kq_timeout k1) with (kq_timeout k). destruct (kq_timeout k) as [t|].
  - destruct (on_to_msec clock_gettime gettimeofday (Some t) s1) as (msec&t'&Er). wrun Er.
    eapply wp_Ok; [reflexivity|]. split_and!; [done|done|cbn; lia|]. exists k1. by apply Hend.
  - eapply wp_Ok; [reflexivity|]. split_and!; [done|done|cbn; lia|]. exists k1.
    assert (s1 = set_fs_timer (fs_timer s1) s1) as -> by done. by apply Hend.
Qed.

Context (Hrp : forall s, ok s -> wp anyf rp s (fun _ s' => polled (inv := kqueue_inv) s s')).

Lemma kqueue_poll_spec abs (s : St) : ok s ->
  wp anyf (iv_fd_kqueue_poll clock_gettime gettimeofday rp abs) s (fun _ s' => polled (inv := kqueue_inv) s s').
Proof.
  intros Hok. unfold iv_fd_kqueue_poll. wprim. pose proof Hok as [Hc Hi]. destruct (inv_pending _ _ Hi) as (k&Hp).
  wbind. eapply wp_mono; [by apply (timer_change_spec k None)|]. cbv beta. intros kev s1 (Hq1&_&Hlen&k1&Hp1).
  wbind. eapply wp_mono; [apply (kq_upload_spec kev None k1 s1 Hp1); unfold UPLOAD_BATCH; lia|]. cbv beta.
  intros kev2 s2 (Hq2&Hp2&_&_). cbv zeta.
  destruct (on_to_relative clock_gettime gettimeofday abs s2) as (rel&t'&Er). wrun Er.
  set (s3 := set_fs_timer t' s2). pose proof Hp2 as (Hm2&Hk2&Hd2). wrun (load_kq_Ok s3 k1 Hk2).
  destruct (sys_kevent (kqueue_fd k1) kev2 (2 * fs_numfds s + 1) rel (fs_w s3)) as [r w'] eqn:Ek.
  wrun (kernel_Ok _ s3 r w' Ek). pose proof (kl_kevent _ _ _ _ _ _ _ Ek) as Hl.
  wrun (invalidate_Ok (set_fs_w w' s3)). set (s4 := set_fs_timer _ (set_fs_w w' s3)).
  pose proof (quiet_trans _ _ _ Hq1 Hq2) as Hq. assert (quiet s s4) as Hq4 by exact Hq.
  destruct (quiet_fields _ _ Hq4) as (_&Eh4&Er4).
  assert (same_fds (kq_knotes (kqueue_fd k1) w') (apply_changes kev2 (kq_knotes (kqueue_fd k1) (fs_w s3))) -> ok s4) as Hok4.
  { intros Hs. apply (fd_ok_quiet s s4 Hok Hq4). apply (pending_inv None k1). split_and!; [done|done|].
    eapply deferred_same; [symmetry; exact Hs|exact Hd2]. }
  assert (2 * fs_numfds s + 1 <> 0) as Hmax.
  { pose proof (co_numfds _ Hc) as Hn. cbn in Hn. rewrite Hn. unfold num_registered. lia. }
  destruct r as [l|[]]; try done.
  - destruct Hl as (_&Herr&Happ&Hudata). destruct Happ as [(e&Hin&Hf&He)|Happ].
    + destruct Herr as [Herr|Herr]; [|rewrite Forall_forall in Herr; by rewrite (Herr _ Hin) in He].
      (* errors only, one of a descriptor's: the batch ends in a fatal error *)
      assert (forall l b1 b2 (s : St), Forall (fun e => is_error e = true) l -> e ∈ l ->
        wp anyf (kqueue_batch (W := W) l b1 b2) s (fun _ _ => False)) as Hfatal.
      { clear -Hf. intros l. induction l as [|e0 l0 IH]; intros b1 b2 s0 Hall Hin0; [by apply not_elem_of_nil in Hin0|].
        apply Forall_cons in Hall as [He0 Hall]. cbn [kqueue_batch]. unfold is_error in He0.
        apply elem_of_cons in Hin0 as [->|Hin0].
        - destruct (Z.eqb_spec (kv_filter e0) EVFILT_TIMER) as [E|_]; [rewrite E in Hf; by destruct Hf|].
          destruct (Z.eqb_spec (kv_filter e0) EVFILT_USER) as [E|_]; [rewrite E in Hf; by destruct Hf|]. by rewrite He0.
        - destruct (_ =? EVFILT_TIMER); [by apply IH|]. destruct (_ =? EVFILT_USER); [by apply IH|]. by rewrite He0. }
      wbind. eapply wp_mono; [by apply Hfatal|]. by cbv beta.
    + specialize (Hok4 Happ). wbind. eapply wp_mono; [apply (kqueue_batch_spec l _ _ s4 Hok4)|].
      * intros e Hin Hf He. pose proof (Hudata e Hin Hf He) as Hu. rewrite (Happ _ _ Hf) in Hu.
        pose proof (df_world _ _ _ _ _ _ _ _ Hd2 _ (kv_ident e) Hf) as Hw.
        destruct (kv_udata e) as [f|]; [|done]. exists f. split; [done|].
        destruct (df_entry _ _ _ _ _ _ _ _ Hd2 f) as (m&Hmf&[Hr|?]); [by exists (kv_filter e), (kv_ident e)| |done].
        change (mv_objs (mv s2)) with (mv_objs (mv s4)) in Hmf. apply mv_lookup_inv in Hmf as (o&Ho&->). by exists o.
      * cbv beta. intros [b1 b2] s5 (Hok5&Eh5&Er5&_). apply (run_pending_if rp Hrp); [done| |]; congruence.
  - rewrite decide_False in Hl by done. eapply wp_Ok; [reflexivity|]. apply polled_nothing; [|done|done]. apply Hok4. by apply Hl.
Qed.

Lemma upd_kq_Ok g k (s : St) : pm_u (fs_pm s) = UKqueue k ->
  upd_kq g s = Ok (tt, set_fs_pm (set_pm_u (UKqueue (g k)) (fs_pm s)) s).
Proof. intros Hk. unfold upd_kq. by mrun (load_kq_Ok s k Hk). Qed.

#[global] Instance kqueue_poll_functions : PollFunctions method_of (inv := kqueue_inv).
Proof.
  assert (forall (s : St) t, ok s -> exists k s1 s', upd_kq (set_timeout_pending true) s = Ok (tt, s1) /\
    upd_kq (set_kq_timeout t) s1 = Ok (tt, s') /\ pm_u (fs_pm s) = UKqueue k /\
    quiet s s' /\ kqueue_inv None (mv s') /\ fs_method s' = fs_method s) as Hset.
  { intros s t [_ (x&(Hm&k&Hk&Hx)&Hd)]. change (pm_u (fs_pm s) = UKqueue k) in Hk. eexists k, _, _.
    split; [by apply upd_kq_Ok|]. split; [by eapply upd_kq_Ok|]. split_and!; [done|done| |done].
    exists x. split; [|done]. split; [done|]. by eexists. }
  split.
  - intros s abs Hok _. wrun (kq_method _ s (proj2 Hok)). by apply kqueue_poll_spec.
  - intros s abs set Hok Habs (m&Hm&Hset'). pose proof Hok as [_ (x&[Hm' _]&_)]. cbn in Hm'. assert (m = MKqueue) as -> by congruence.
    rewrite Hkq in Hset'. injection Hset' as <-. unfold iv_fd_kqueue_set_poll_timeout.
    destruct (Hset s abs Hok) as (k&s1&s'&E1&E2&_&Hq&Hi&_). wrun E1. wrun E2. by eapply wp_Ok; [reflexivity|].
  - intros s m Hok Hm [set Hset']. pose proof Hok as [_ (x&[Hm' _]&_)]. cbn in Hm'. assert (m = MKqueue) as -> by congruence.
    rewrite Hkq. destruct (Hset s None Hok) as (k&s1&s'&E1&E2&_&Hq&Hi&Em).
    change (pm_clear_poll_timeout _) with (iv_fd_kqueue_clear_poll_timeout (W := W)). unfold iv_fd_kqueue_clear_poll_timeout.
    wrun E1. by eapply wp_Ok; [exact E2|].
  - intros s [_ (x&[Hm _]&_)]. by exists MKqueue.
Qed.
End kqueue.
