(* ===== verification/FdDevPollSpec.v ===== *)
(** * The /dev/poll method keeps the device's set in step

    The laws of the device the method relies on, the invariant that ties the objects,
    the tree and the device's set together, and the proof that the method is a poll
    method in the sense of FdSpec.v. *)

From Stdlib Require Import Ascii.
From S2P Require Import Prelude ISeq Timer Sys Fd PmState FdPoll FdDevPoll FdSpec FdCore FdDeferred.

Local Open Scope Z_scope.

(** What an entry does: remove a descriptor, or add events to it. *)
Definition apply_entry (i : gmap Z Z) (e : Z * Z) : gmap Z Z :=
  if has e.2 POLLREMOVE then delete e.1 i else <[e.1 := Z.lor (default 0 (i !! e.1)) e.2]> i.
Definition apply_entries (l : list (Z * Z)) (i : gmap Z Z) : gmap Z Z := foldl apply_entry i l.

(** What the manual page says: entries are taken in order, at least one unless the
    write fails, which changes nothing; polling reports members of the set. *)
Class DevPollLaws (W : Type) `{!FdKernel W, !DevPollKernel W} : Prop := {
  dl_write : forall fd buf w r w', sys_write_pollfds fd buf w = (r, w') -> buf <> [] ->
    match r with
    | inl n => (1 <= n <= length buf)%nat /\ dp_interest fd w' = apply_entries (take n buf) (dp_interest fd w)
    | inr e => dp_interest fd w' = dp_interest fd w /\ (e = EINTR -> (dp_signals w' < dp_signals w)%nat)
    end;
  dl_poll : forall fd nfds t w r w', sys_dp_poll fd nfds t w = (r, w') ->
    dp_interest fd w' = dp_interest fd w /\
    match r with inl l => forall n ev, (n, ev) ∈ l -> is_Some (dp_interest fd w !! n) | inr _ => True end;
  dl_open : forall w n w', sys_open_dev_poll w = (inl n, w') -> dp_interest n w' = ∅;
  dl_core : forall fd w w', fdk_step w w' -> dp_interest fd w' = dp_interest fd w }.

(** ** What is on file of an object: the tree, and the set *)
Definition dp_file : Type := gmap Z loc * gmap Z Z.
Definition dp_mask (b : Z) : option Z := if b =? 0 then None else Some (dp_bits_to_poll_mask b).
Definition dp_entry (x : dp_file) (f : loc) : Prop := exists n, x.1 !! n = Some f.
Definition dp_told (x : dp_file) (f : loc) (n b : Z) : Prop :=
  x.1 !! n = Some f /\ (forall k, x.1 !! k = Some f -> k = n) /\ x.2 !! n = dp_mask b.
Definition dp_world (x : dp_file) : Prop := forall n, is_Some (x.2 !! n) -> is_Some (x.1 !! n).
Definition dp_settled (b w : Z) : Prop := b = w.

(** Adding events that include those there are. *)
Lemma dp_mask_has bits : dp_bits_to_poll_mask bits =
  Z.lor (if has bits MASKIN then POLLIN else 0) (if has bits MASKOUT then POLLOUT else 0).
Proof. unfold dp_bits_to_poll_mask. by destruct (has bits MASKIN), (has bits MASKOUT). Qed.
Lemma dp_mask_not_remove b : has (dp_bits_to_poll_mask b) POLLREMOVE = false.
Proof. rewrite dp_mask_has. by destruct (has b MASKIN), (has b MASKOUT). Qed.
Lemma subset_has b w mask : Z.land b (Z.lnot w) = 0 -> has b mask = true -> has w mask = true.
Proof.
  intros Hs. unfold has. rewrite !negb_true_iff, !Z.eqb_neq. intros Hb Hw. apply Hb.
  apply Z.bits_inj'. intros n Hn. apply (f_equal (fun z => Z.testbit z n)) in Hs, Hw.
  rewrite Z.land_spec, Z.lnot_spec, Z.bits_0 in Hs by done. rewrite Z.land_spec, Z.bits_0 in Hw.
  rewrite Z.land_spec, Z.bits_0. destruct (Z.testbit b n), (Z.testbit w n), (Z.testbit mask n); done.
Qed.
Lemma dp_mask_subset b w : Z.land b (Z.lnot w) = 0 ->
  Z.lor (dp_bits_to_poll_mask b) (dp_bits_to_poll_mask w) = dp_bits_to_poll_mask w.
Proof.
  intros Hs. rewrite !dp_mask_has. pose proof (subset_has b w MASKIN Hs) as Hi. pose proof (subset_has b w MASKOUT Hs) as Ho.
  destruct (has b MASKIN), (has b MASKOUT), (has w MASKIN), (has w MASKOUT);
    first [reflexivity|by discriminate (Hi eq_refl)|by discriminate (Ho eq_refl)].
Qed.

(** The entries for one object, in the order of the code. *)
Definition dp_changes (o : iv_fd_) : list (Z * Z) :=
  (if Z.land (registered_bands o) (Z.lnot (wanted_bands o)) =? 0 then [] else [(fd_fd o, POLLREMOVE)]) ++
  (if wanted_bands o =? 0 then [] else [(fd_fd o, dp_bits_to_poll_mask (wanted_bands o))]).
Lemma apply_entries_app l1 l2 i : apply_entries (l1 ++ l2) i = apply_entries l2 (apply_entries l1 i).
Proof. apply foldl_app. Qed.
Lemma lookup_dp_changes o i k : i !! fd_fd o = dp_mask (registered_bands o) ->
  apply_entries (dp_changes o) i !! k = if decide (k = fd_fd o) then dp_mask (wanted_bands o) else i !! k.
Proof.
  intros Hi. unfold dp_changes, dp_mask in *. rewrite apply_entries_app.
  set (i1 := apply_entries _ i).
  assert (forall k, k <> fd_fd o -> i1 !! k = i !! k) as Hne.
  { intros k' Hk'. unfold i1.
    destruct (Z.land (registered_bands o) (Z.lnot (wanted_bands o)) =? 0); [done|]. cbn. change (apply_entry i _) with (delete (fd_fd o) i). by rewrite lookup_delete_ne. }
  assert (i1 !! fd_fd o = (if Z.land (registered_bands o) (Z.lnot (wanted_bands o)) =? 0 then i !! fd_fd o else None)) as Heq.
  { unfold i1. destruct (Z.land (registered_bands o) (Z.lnot (wanted_bands o)) =? 0); [done|]. cbn. change (apply_entry i _) with (delete (fd_fd o) i). apply lookup_delete_eq. }
  destruct (Z.eqb_spec (wanted_bands o) 0) as [Ew|Ew].
  - cbn. case_decide; [subst|by apply Hne]. rewrite Heq, Ew. change (Z.lnot 0) with (-1). rewrite Z.land_m1_r.
    destruct (Z.eqb_spec (registered_bands o) 0) as [E|E]; [|done]. rewrite Hi. done.
  - cbn. unfold apply_entry. cbn [fst snd]. rewrite dp_mask_not_remove. case_decide as Ek; [subst|by rewrite lookup_insert_ne, Hne].
    rewrite lookup_insert_eq. f_equal. rewrite Heq.
    destruct (Z.eqb_spec (Z.land (registered_bands o) (Z.lnot (wanted_bands o))) 0) as [E|E]; [|done].
    rewrite Hi. destruct (Z.eqb_spec (registered_bands o) 0) as [Er|Er]; [done|]. by apply dp_mask_subset.
Qed.

Section dev_poll.
Context {W : Type} `{!FdKernel W, !DevPollKernel W, HL : !DevPollLaws W}.
Abbreviation St := (fd_state pm_state W).
Abbreviation V := (mview pm_state W).

Definition dp_view (m : option method_name) (p : pm_state) (w : W) (x : dp_file) : Prop :=
  m = Some MDevPoll /\ exists d, pm_u p = UDevPoll d /\ x = (dp_fds d, dp_interest (dp_poll_fd d) w).
Abbreviation dp_at := (deferred dp_entry dp_told dp_world dp_settled).
Definition dev_poll_inv : option loc -> V -> Prop := deferred_inv dp_entry dp_told dp_world dp_settled dp_view.

Lemma dp_view_core m p w w' x : dp_view m p w x -> fdk_step w w' -> dp_view m p w' x.
Proof. intros (Hm&d&Hd&->) Hs. split; [done|]. exists d. by rewrite (dl_core _ _ _ Hs). Qed.
Lemma dp_settled_refl b : dp_settled b b.
Proof. reflexivity. Qed.
Lemma load_dp_Ok (s : St) d : pm_u (fs_pm s) = UDevPoll d -> load_dp s = Ok (d, s).
Proof. intros H. unfold load_dp. msimpl. by rewrite H. Qed.

(** ** Writing entries *)

(** The device has taken all of [l] once the entries in [pfd] are written; [t] is the
    tree as it is to be taken. *)
Definition unwritten (t : gmap Z loc) (d : dev_poll_state) (o : option loc) (pfd : list (Z * Z)) (s : St) : Prop :=
  fs_method s = Some MDevPoll /\ pm_u (fs_pm s) = UDevPoll d /\
  dp_at (t, apply_entries pfd (dp_interest (dp_poll_fd d) (fs_w s))) o (mv s).

Lemma write_retry_spec fd buf (s : St) : buf <> [] ->
  wp anyf (write_retry fd buf) s (fun r s' => exists w', s' = set_fs_w w' s /\
    match r with
    | inl n => (1 <= n <= length buf)%nat /\ dp_interest fd w' = apply_entries (take n buf) (dp_interest fd (fs_w s))
    | inr _ => dp_interest fd w' = dp_interest fd (fs_w s)
    end).
Proof.
  intros Hb. unfold write_retry. wprim.
  apply (retry_spec anyf (fun s1 : St => exists w1, s1 = set_fs_w w1 s /\ dp_interest fd w1 = dp_interest fd (fs_w s))
    (fun s1 => dp_signals (fs_w s1))); [| |lia].
  - intros s1 (w1&->&E1). destruct (sys_write_pollfds fd buf w1) as [r w2] eqn:Ec.
    pose proof (dl_write _ _ _ _ _ Ec Hb) as Hl. eapply wp_Ok; [by apply kernel_Ok|]. cbv beta.
    destruct r as [n|er]; [exists w2; by rewrite <-E1|]. destruct Hl as [Hl Hs].
    destruct er; try (exists w2; split; [done|congruence]).
    split; [exists w2; split; [done|congruence]|]. by apply Hs.
  - exists (fs_w s). by destruct s.
Qed.

Lemma xwrite_spec fd buf (s : St) : wp anyf (xwrite fd buf) s (fun _ s' => exists w', s' = set_fs_w w' s /\
  dp_interest fd w' = apply_entries buf (dp_interest fd (fs_w s))).
Proof.
  unfold xwrite. assert (length buf < Datatypes.S (length buf))%nat as Hf by lia. revert Hf.
  generalize (Datatypes.S (length buf)) as fuel. intros fuel. revert buf s.
  induction fuel as [|fuel IH]; intros buf s Hf; [lia|]. cbn [xwrite_loop]. destruct buf as [|e buf].
  { eapply wp_Ok; [reflexivity|]. exists (fs_w s). by destruct s. }
  wbind. eapply wp_mono; [by apply write_retry_spec|]. cbv beta. intros r s1 (w1&->&Hr). destruct r as [n|]; [|done].
  destruct Hr as [Hn Hr]. eapply wp_mono; [apply IH|].
  - rewrite length_drop. lia.
  - cbv beta. intros _ s2 (w2&->&E2). exists w2. split; [done|]. cbn [fs_w set_fs_w] in E2.
    by rewrite E2, Hr, <-apply_entries_app, take_drop.
Qed.

(** What the entries of an object do to what is on file, were they written. *)
Lemma dp_changes_told t i f o : dp_told (t, i) f (fd_fd o) (registered_bands o) -> dp_world (t, i) ->
  let y := (t, apply_entries (dp_changes o) i) in
  dp_world y /\ (forall g n c, g <> f -> dp_told (t, i) g n c -> dp_told y g n c) /\ dp_told y f (fd_fd o) (wanted_bands o).
Proof.
  intros (Ht&Hu&Hi) Hw y. cbn in Ht, Hu, Hi. split_and!.
  - intros n. unfold y. cbn. rewrite lookup_dp_changes by done. case_decide; [subst; by rewrite Ht|apply Hw].
  - intros g n c Hg (Hgt&Hgu&Hgi). unfold y. split_and!; [done|done|]. cbn in *. rewrite lookup_dp_changes by done.
    rewrite decide_False; [done|]. congruence.
  - unfold y. split_and!; [done|done|]. cbn. rewrite lookup_dp_changes by done. by rewrite decide_True.
Qed.

Lemma store_entry_Ok pfd b e (s : St) : (length pfd < DP_UPLOAD_BATCH)%nat ->
  store_entry pfd b e s = Ok (pfd ++ (if b then [e] else []), s).
Proof.
  intros H. unfold store_entry. destruct b; [|by rewrite app_nil_r]. by rewrite (proj2 (Nat.ltb_lt _ _)).
Qed.

Lemma flush_next_spec t d om pfd f r (s : St) : unwritten t d om pfd s /\ (length pfd <= DP_UPLOAD_BATCH)%nat ->
  members (fs_notify s) = f :: r ->
  wp anyf (flush_next (dp_poll_fd d) pfd f) s (fun pfd' s' =>
    (unwritten t d om pfd' s' /\ (length pfd' <= DP_UPLOAD_BATCH)%nat) /\ drained f r s s').
Proof.
  intros [Hp Hlen] Hms. unfold flush_next. wbind.
  apply (wp_mono _ _ _ (fun pfd1 s1 => (exists w1, s1 = set_fs_w w1 s) /\ unwritten t d om pfd1 s1 /\ (length pfd1 <= DP_UPLOAD_BATCH - 2)%nat)).
  { destruct (Nat.ltb_spec (DP_UPLOAD_BATCH - 2) (length pfd)).
    - wbind. eapply wp_mono; [apply xwrite_spec|]. cbv beta. intros _ s1 (w1&->&Hw). eapply wp_Ok; [reflexivity|].
      split; [by eexists|]. split; [|cbn; lia]. destruct Hp as (Hm&Hd&Ha). split_and!; [done|done|]. cbn [apply_entries foldl fs_w set_fs_w].
      by rewrite Hw.
    - eapply wp_Ok; [reflexivity|]. split_and!; [exists (fs_w s); by destruct s|done|done]. }
  cbv beta. intros pfd1 s1 ([w1 ->]&(Hm&Hd&Ha)&Hlen1).
  destruct (deferred_head _ _ _ _ _ om _ f r Ha Hms) as (o&q&Ho&Hl&Hfr&Emq&Hq).
  set (s1 := set_fs_w w1 s) in *. wrun (on_notify_Ok s1 _ _ Hq). set (s2 := set_fs_notify q s1). wrun (load_fd_Ok s2 f o Ho).
  assert (DP_UPLOAD_BATCH - 2 = 1022)%nat as E1 by reflexivity. assert (DP_UPLOAD_BATCH = 1024)%nat as E2 by reflexivity.
  match goal with |- context [store_entry pfd1 ?b ?e] => wrun (store_entry_Ok pfd1 b e s2 ltac:(lia)) end.
  match goal with |- context [store_entry ?l ?b ?e] => assert (length l < DP_UPLOAD_BATCH)%nat as Hl2 by (rewrite length_app; destruct (_ =? 0); cbn; lia); wrun (store_entry_Ok l b e s2 Hl2) end.
  assert (forall b1 b2 : bool, forall e1 e2 : Z * Z, (length ((pfd1 ++ (if negb b1 then [e1] else [])) ++ (if negb b2 then [e2] else [])) <= DP_UPLOAD_BATCH)%nat) as Hl3.
  { intros b1 b2 e1 e2. rewrite !length_app. destruct b1, b2; cbn; lia. }
  wrun (upd_fd_Ok s2 f o (fun o => set_registered_bands (wanted_bands o) o) Ho). eapply wp_Ok; [reflexivity|].
  split; [split; [|apply Hl3]|split; [by apply (quiet_upd s2 f o)|done|done|by exists o]].
  split_and!; [done|done|]. rewrite <-app_assoc, apply_entries_app.
  match goal with |- context [apply_entries (?a ++ ?b)] => assert (a ++ b = dp_changes o) as -> by (unfold dp_changes; by repeat destruct (_ =? 0)) end.
  change (fs_w (upd f _ s2)) with w1. pose proof (mv_lookup _ _ _ Ho) as Hmf.
  pose proof (df_told _ _ _ _ _ _ _ _ Ha f _ Hmf Hl) as Htf.
  destruct (dp_changes_told _ _ f o Htf (df_world _ _ _ _ _ _ _ _ Ha)) as (Hw'&Ht'&Htf').
  destruct (relist_del_init _ _ _ (df_notify _ _ _ _ _ _ _ _ Ha) Hq) as (Hqok&Hfq&Hfi&Hqg).
  unfold deferred. change (mv_objs (mv (upd f ?o' s2))) with (meth_obj <$> <[f := o']> (fs_fds s)). rewrite fmap_insert.
  change (meth_obj (set_registered_bands (wanted_bands o) o)) with (set_registered_bands (wanted_bands o) (meth_obj o)).
  apply (deferred_change _ _ _ _ (t, apply_entries pfd1 (dp_interest (dp_poll_fd d) w1)) _ om om (meth_obj <$> fs_fds s) (fs_notify s)); try done; auto.
Qed.

Lemma dp_flush_spec t d om (s : St) : unwritten t d om [] s ->
  wp anyf iv_fd_dev_poll_flush_pending s (fun _ s' => quiet s s' /\ unwritten t d om [] s' /\
    members (fs_notify s') = [] /\ settled_on s s').
Proof.
  intros Hp. pose proof Hp as (_&Hd&_). unfold iv_fd_dev_poll_flush_pending. wrun (load_dp_Ok s d Hd). wprim.
  wbind. eapply wp_mono; [apply (drain_spec (fun pfd s => unwritten t d om pfd s /\ (length pfd <= DP_UPLOAD_BATCH)%nat)); [|split; [done|cbn; lia]|lia]|].
  - intros pfd f r s1. apply flush_next_spec.
  - cbv beta. intros pfd s1 (Hq&[Hp1 _]&Hm&Hs). destruct (Nat.eqb_spec (length pfd) 0) as [E|E]; cbn [negb when].
    + destruct pfd; [|done]. by eapply wp_Ok; [reflexivity|].
    + eapply wp_mono; [apply xwrite_spec|]. cbv beta. intros _ s2 (w2&->&Hw2). split_and!; [done| |done|done].
      destruct Hp1 as (Hm1&Hd1&Ha1). split_and!; [done|done|]. cbn [apply_entries foldl fs_w set_fs_w]. by rewrite Hw2.
Qed.

(** ** The operations *)
Lemma inv_unwritten o (s : St) : dev_poll_inv o (mv s) -> exists d, unwritten (dp_fds d) d o [] s.
Proof. intros (x&(Hm&d&Hd&->)&Ha). by exists d. Qed.
Lemma unwritten_inv o d (s : St) : unwritten (dp_fds d) d o [] s -> dev_poll_inv o (mv s).
Proof. intros (Hm&Hd&Ha). eexists. split; [|exact Ha]. split; [done|]. by exists d. Qed.

Lemma dp_unregister_spec (s : St) f o : dev_poll_inv (Some f) (mv s) -> fs_fds s !! f = Some o ->
  registered o = false -> wanted_bands o = 0 \/ f ∉ members (fs_notify s) -> (f ∉ members (fs_notify s) -> registered_bands o = 0) ->
  wp anyf (iv_fd_dev_poll_unregister_fd f) s (fun _ s' => quiet s s' /\ dev_poll_inv None (mv s')).
Proof.
  intros Hi Hf Hr Hw Hb. unfold iv_fd_dev_poll_unregister_fd. destruct (inv_unwritten _ _ Hi) as (d&Hp).
  pose proof Hp as (Hm&Hd&Ha). wrun (load_fd_Ok s f o Hf). wrun (load_dp_Ok s d Hd).
  pose proof (mv_lookup _ _ _ Hf) as Hmf. pose proof (df_told _ _ _ _ _ _ _ _ Ha f _ Hmf ltac:(by right)) as (Ht&Hu&_).
  cbn in Ht, Hu. rewrite bool_decide_true by done. wprim. set (d' := set_dp_fds _ d). set (s1 := set_fs_pm _ s).
  assert (unwritten (dp_fds d) d' (Some f) [] s1) as Hp1 by done.
  assert (forall (s' : St) o', unwritten (dp_fds d) d' (Some f) [] s' -> fs_fds s' !! f = Some o' -> registered o' = false ->
    registered_bands o' = 0 -> fd_fd o' = fd_fd o -> f ∉ members (fs_notify s') -> dev_poll_inv None (mv s')) as Hend.
  { intros s' o' (Hm2&Hd2&Ha2) Hf' Hr' Hb' Efd Hm'. apply (unwritten_inv None d'). split_and!; [done|done|].
    pose proof (mv_lookup _ _ _ Hf') as Hmf'. pose proof (df_told _ _ _ _ _ _ _ _ Ha2 f _ Hmf' ltac:(by right)) as (Ht2&Hu2&Hi2).
    cbn in Ht2, Hu2, Hi2. rewrite Efd, Hb' in *.
    eapply (deferred_drop _ _ _ _ _ _ _ _ f (meth_obj o')); [exact Ha2|done..| | |].
    - intros n Hn. cbn in Hn |- *. rewrite lookup_delete_ne; [by apply (df_world _ _ _ _ _ _ _ _ Ha2)|].
      intros <-. rewrite Hi2 in Hn. by destruct Hn.
    - intros g (n&Hn). cbn in Hn. apply lookup_delete_Some in Hn as [Hne Hn]. split; [|by exists n].
      intros ->. apply Hne. symmetry. by apply Hu2.
    - intros g n c Hg (Hgt&Hgu&Hgi). cbn in Hgt, Hgu, Hgi. split_and!; [|intros k Hk; apply (lookup_delete_Some (dp_fds d)) in Hk as [_ Hk]; by apply Hgu|done].
      cbn. rewrite lookup_delete_ne; [done|]. congruence. }
  wprim. rewrite (deferred_unlinked _ _ _ _ _ s1 f o (proj2 (proj2 Hp1)) Hf). wprim.
  rewrite negb_involutive. case_bool_decide as Hin; cbn [when].
  - eapply wp_mono; [by apply (dp_flush_spec (dp_fds d) d' (Some f) s1)|]. cbv beta. intros _ s' (Hq&Hp'&Hm'&Hs). split; [done|].
    pose proof (Hs f o Hf) as Hf'. rewrite decide_True in Hf' by done.
    eapply Hend; [done|exact Hf'|done|by destruct Hw|done|]. rewrite Hm'. apply not_elem_of_nil.
  - eapply wp_Ok; [reflexivity|]. split; [done|]. eapply (Hend s1 o); try done. by apply Hb.
Qed.

Lemma dp_sync_spec (s : St) f o : dev_poll_inv (Some f) (mv s) -> fs_fds s !! f = Some o ->
  registered o = true -> wanted_bands o <> 0 -> registered_bands o = 0 -> f ∉ members (fs_notify s) ->
  wp anyf (iv_fd_dev_poll_notify_fd_sync f) s (fun ret s' => quiet s s' /\
    if decide (ret = 0) then dev_poll_inv None (mv s') /\ is_Some (fs_fds s' !! f)
    else dev_poll_inv (Some f) (mv s') /\ fs_fds s' = fs_fds s /\ fs_notify s' = fs_notify s).
Proof.
  intros Hi Hf Hr Hw Hb Hnm. unfold iv_fd_dev_poll_notify_fd_sync. destruct (inv_unwritten _ _ Hi) as (d&Hm&Hd&Ha).
  wrun (load_fd_Ok s f o Hf). wrun (load_dp_Ok s d Hd). wbind. eapply wp_mono; [by apply write_retry_spec|]. cbv beta.
  intros ret s1 (w1&->&Hr1). destruct ret as [n|er].
  2:{ eapply wp_Ok; [reflexivity|]. split; [done|]. rewrite decide_False by done. split_and!; [|done|done].
      apply (unwritten_inv _ d). split_and!; [done|done|]. cbn [apply_entries foldl fs_w set_fs_w]. by rewrite Hr1. }
  destruct Hr1 as [Hn Hr1]. cbn [length] in Hn. assert (n = 1%nat) as -> by lia.
  wrun (upd_fd_Ok (set_fs_w w1 s) f o (fun o => set_registered_bands (wanted_bands o) o) Hf).
  eapply wp_Ok; [reflexivity|]. split; [by apply (quiet_upd (set_fs_w w1 s) f o)|]. rewrite decide_True by done.
  split; [|eexists; apply lookup_upd_eq]. apply (unwritten_inv None d). split_and!; [done|done|].
  pose proof (mv_lookup _ _ _ Hf) as Hmf. set (x := (dp_fds d, dp_interest (dp_poll_fd d) (fs_w s))).
  pose proof (df_told _ _ _ _ _ _ _ _ Ha f _ Hmf ltac:(by right)) as Ht. cbn in Ht.
  assert (dp_changes o = [(fd_fd o, dp_bits_to_poll_mask (wanted_bands o))]) as Ec.
  { unfold dp_changes. rewrite Hb. cbn. by destruct (Z.eqb_spec (wanted_bands o) 0). }
  destruct (dp_changes_told _ _ f o Ht (df_world _ _ _ _ _ _ _ _ Ha)) as (Hw'&Ht'&Htf').
  rewrite Ec in *. cbn [apply_entries foldl fs_w upd set_fs_fds set_fs_w]. cbn [take] in Hr1. rewrite Hr1. unfold deferred.
  change (mv_objs (mv (upd f ?o' (set_fs_w w1 s)))) with (meth_obj <$> <[f := o']> (fs_fds s)). rewrite fmap_insert.
  change (meth_obj (set_registered_bands (wanted_bands o) o)) with (set_registered_bands (wanted_bands o) (meth_obj o)).
  apply (deferred_change _ _ _ _ x _ (Some f) None (meth_obj <$> fs_fds s) (fs_notify s)); try done.
  - by right.
  - by left.
  - intros g mg Hg. unfold live. naive_solver.
  - congruence.
  - apply Ha.
  - right. destruct (df_linked _ _ _ _ _ _ _ _ Ha f _ Hmf) as [?|?]; [by right|done|done].
  - by right.
Qed.

(** ** /dev/poll is a poll method *)
Context (clock_gettime : nat -> clockid -> option timespec) (gettimeofday : nat -> Z * Z).
Context (method_of : method_name -> iv_fd_poll_method St).
Context (Hdp : method_of MDevPoll = iv_fd_poll_method_dev_poll clock_gettime gettimeofday).

Lemma dp_method o (s : St) : dev_poll_inv o (mv s) -> the_method method_of s = Ok (iv_fd_poll_method_dev_poll clock_gettime gettimeofday, s).
Proof. intros (x&[Hm _]&_). rewrite <-Hdp. by apply the_method_Ok. Qed.

Lemma dp_register_spec (s : St) v f m q : dev_poll_inv None v -> ~ is_registered (mv_objs v) f -> registered m = true ->
  registered_bands m = 0 -> iq_init f (mv_notify v) = Some q ->
  mv s = mk_mv (<[f := m]> (mv_objs v)) q (mv_method v) (mv_pm v) (mv_w v) ->
  wp anyf (iv_fd_dev_poll_register_fd f) s (fun _ s' => quiet s s' /\ dev_poll_inv (Some f) (mv s') /\
    deferred_unknown (mv s') f /\ mv_objs (mv s') !! f = Some m).
Proof.
  intros (x&(Hm&d&Hd&->)&Ha) Hf Hr Hb Hq Emv. unfold iv_fd_dev_poll_register_fd.
  assert (mv_objs (mv s) !! f = Some m) as Hmf by (rewrite Emv; apply lookup_insert_eq).
  apply mv_lookup_inv in Hmf as (o&Ho&->). wrun (load_fd_Ok s f o Ho).
  assert (pm_u (fs_pm s) = UDevPoll d) as Hd' by (pose proof (f_equal mv_pm Emv) as E; cbn in E; by rewrite E).
  wrun (load_dp_Ok s d Hd'). destruct (dp_fds d !! fd_fd o) eqn:Et; [done|]. eapply wp_Ok; [reflexivity|].
  pose proof (f_equal mv_method Emv) as Em. pose proof (f_equal mv_w Emv) as Ew. pose proof (f_equal mv_objs Emv) as Eo.
  pose proof (f_equal mv_notify Emv) as En. cbn in Em, Ew, Eo, En.
  set (x' := (<[fd_fd o := f]> (dp_fds d), dp_interest (dp_poll_fd d) (mv_w v))).
  assert (forall k, dp_fds d !! k <> Some f) as Hnof.
  { intros k Hk. apply Hf. destruct (df_entry _ _ _ _ _ _ _ _ Ha f) as (m0&?&[?|?]); [by exists k|by exists m0|done]. }
  destruct (deferred_register _ _ _ _ _ x' _ _ f (meth_obj o) q Ha Hf Hr Hq) as [Hfm Ha'].
  - intros n Hn. unfold x'. cbn. rewrite lookup_insert. case_decide; [by eexists|]. by apply (df_world _ _ _ _ _ _ _ _ Ha).
  - intros g (n&Hn). unfold x' in Hn. cbn in Hn. rewrite lookup_insert in Hn. case_decide; [left; congruence|right; by exists n].
  - intros g n c Hg (Hgt&Hgu&Hgi). unfold x'. cbn in *. split_and!; cbn; [|intros k|done].
    + rewrite lookup_insert_ne; [done|congruence].
    + rewrite lookup_insert. case_decide; [congruence|apply Hgu].
  - rewrite Hb. unfold x'. split_and!; cbn; [apply lookup_insert_eq|intros k; rewrite lookup_insert; case_decide; [done|intros Hk; by destruct (Hnof k)]|].
    destruct (dp_interest _ _ !! _) eqn:Ei; [|done]. destruct (df_world _ _ _ _ _ _ _ _ Ha (fd_fd o)) as [g Hg]; [by eexists|].
    cbn in Hg. congruence.
  - split; [done|]. split; [|split; [split|]].
    + exists x'. split; [split; [by rewrite <-Hm|]; eexists; split; [reflexivity|]; cbn; unfold x'; by rewrite Ew|].
      unfold deferred. cbn. by rewrite Eo, En.
    + cbn. by rewrite En.
    + cbn. rewrite Eo, lookup_insert_eq. by intros ? [= <-].
    + cbn. by rewrite Eo, lookup_insert_eq.
Qed.

#[global] Instance dev_poll_poll_method : PollMethod method_of dev_poll_inv deferred_can deferred_can_reg deferred_unknown.
Proof.
  split.
  - intros o v w'. apply inv_kernel. exact dp_view_core.
  - intros v f. apply inv_members.
  - intros v f m' q. apply inv_free.
  - intros v f. apply inv_opened.
  - intros v f m b w. apply inv_flags.
  - intros v f m b w. apply unknown_flags.
  - intros s v f m q w Hi Hf _ Hr Hb Hq Emv.
    assert (the_method method_of s = Ok (iv_fd_poll_method_dev_poll clock_gettime gettimeofday, s)) as Em.
    { rewrite <-Hdp. apply the_method_Ok. pose proof (f_equal mv_method Emv) as E. cbn in E. rewrite E. by destruct Hi as (x&[Hm _]&_). }
    unfold method_register. wrun Em. cbn [pm_register_fd iv_fd_poll_method_dev_poll].
    eapply wp_mono; [by eapply dp_register_spec|]. cbv beta. intros _ s' (?&?&?&?). split_and!; [done..|]. by exists m.
  - intros s f m Hi Hf _ Hr. wrun (dp_method _ s Hi). eapply notify_inv; [exact dp_settled_refl|done..].
  - intros s f m Hi Hf _ Hr Hw. apply mv_lookup_inv in Hf as (o&Ho&->). wbind. wrun (dp_method _ s Hi).
    pose proof Hi as (x&Hx&Ha).
    eapply wp_mono; [eapply notify_deferred_spec; [exact dp_settled_refl|exact Ha|exact Ho]|].
    cbv beta. intros _ s' (q&->&Ha'&Hiff&_). assert (dev_poll_inv (Some f) (mv (set_fs_notify q s))) as Hi' by (by exists x).
    unfold method_unregister. wrun (dp_method _ (set_fs_notify q s) Hi').
    eapply wp_mono; [apply (dp_unregister_spec (set_fs_notify q s) f o Hi' Ho Hr); [by left|]|by cbv beta].
    cbn. intros Hn. destruct (decide (registered_bands o = wanted_bands o)); [cbn in Hw; congruence|tauto].
  - intros s f m Hi Hf Hr Hw [Hu1 Hu2]. pose proof (Hu2 _ Hf) as Hb. apply mv_lookup_inv in Hf as (o&Ho&->).
    wrun (dp_method _ s Hi). eapply wp_mono; [by apply (dp_sync_spec s f o)|]. cbv beta. intros ret s' [Hq H]. split; [done|].
    destruct (decide (ret = 0)).
    + destruct H as [Hi' [o' Ho']]. split; [done|]. exists (meth_obj o'). split; [by apply mv_lookup|done].
    + destruct H as (Hi'&Ef&En). split; [done|]. split; [cbn; by rewrite En|]. intros m' Hm'.
      apply mv_lookup_inv in Hm' as (o'&Ho'&->). rewrite Ef, Ho in Ho'. by injection Ho' as <-.
  - intros s f m Hi Hf Hr [Hu1 Hu2]. pose proof (Hu2 _ Hf) as Hb. apply mv_lookup_inv in Hf as (o&Ho&->).
    unfold method_unregister. wrun (dp_method _ s Hi). apply (dp_unregister_spec s f o); [done|done|done|by right|done].
Qed.

(** ** Polling *)
Abbreviation ok := (fd_ok (inv := dev_poll_inv)).

Lemma dev_poll_batch_spec l d (s : St) : ok s -> pm_u (fs_pm s) = UDevPoll d ->
  wp anyf (dev_poll_batch l) s (fun _ s' => reported (inv := dev_poll_inv) s s').
Proof.
  revert s. induction l as [|[n ev] l IH]; intros s Hok Hd; [by eapply wp_Ok; [reflexivity|]|].
  cbn [dev_poll_batch]. wrun (load_dp_Ok s d Hd). destruct (dp_fds d !! n) as [f|] eqn:Hn; [|done].
  assert (is_registered (fs_fds s) f) as Hf.
  { pose proof Hok as [_ Hi]. destruct (inv_unwritten _ _ Hi) as (d'&_&Hd'&Ha). assert (d' = d) as -> by congruence.
    destruct (df_entry _ _ _ _ _ _ _ _ Ha f) as (m&Hm&[Hr|?]); [by exists n| |done].
    apply mv_lookup_inv in Hm as (o&Ho&->). by exists o. }
  wbind. eapply wp_mono; [by apply (make_ready3_spec (inv := dev_poll_inv))|]. cbv beta. intros _ s1 H1. pose proof H1 as (Hok1&_&_&E1).
  eapply wp_mono; [apply IH; [done|]|].
  - pose proof (f_equal mv_pm E1) as Ep. cbn in Ep. by rewrite Ep.
  - cbv beta. intros _ s2 H2. by eapply reported_trans.
Qed.

Lemma dev_poll_poll_spec abs (s : St) : ok s ->
  wp anyf (iv_fd_dev_poll_poll clock_gettime gettimeofday abs) s (fun _ s' => polled (inv := dev_poll_inv) s s').
Proof.
  intros Hok. unfold iv_fd_dev_poll_poll. wprim. cbv zeta. destruct (inv_unwritten _ _ (proj2 Hok)) as (d&Hp).
  wbind. eapply wp_mono; [by apply (dp_flush_spec (dp_fds d) d None)|]. cbv beta. intros _ s1 (Hq1&Hp1&_&_).
  destruct (on_to_msec clock_gettime gettimeofday abs s1) as (msec&t'&Er). wrun Er. set (s2 := set_fs_timer t' s1).
  pose proof Hp1 as (Hm1&Hd1&Ha1). wrun (load_dp_Ok s2 d Hd1).
  match goal with |- context [sys_dp_poll ?a ?b ?c] => destruct (sys_dp_poll a b c (fs_w s2)) as [r w'] eqn:Ek end.
  wrun (kernel_Ok _ s2 r w' Ek). wrun (invalidate_Ok (set_fs_w w' s2)). set (s3 := set_fs_timer _ (set_fs_w w' s2)).
  destruct (dl_poll _ _ _ _ _ _ Ek) as [Hw Hl].
  assert (quiet s s3) as Hq3 by exact Hq1. destruct (quiet_fields _ _ Hq3) as (_&Eh3&Er3).
  assert (ok s3) as Hok3.
  { apply (fd_ok_quiet s s3 Hok Hq3). apply (unwritten_inv None d). split_and!; [done|done|].
    cbn [apply_entries foldl fs_w set_fs_w set_fs_timer s3]. rewrite Hw. exact Ha1. }
  destruct r as [l|[]]; try done.
  - wbind. eapply wp_mono; [by apply (dev_poll_batch_spec l d)|]. cbv beta. intros _ s4 (Hok4&Eh4&Er4&_).
    eapply wp_Ok; [reflexivity|]. apply polled_nothing; [done|congruence|congruence].
  - eapply wp_Ok; [reflexivity|]. by apply polled_nothing.
Qed.

#[global] Instance dev_poll_poll_functions : PollFunctions method_of (inv := dev_poll_inv).
Proof.
  split.
  - intros s abs Hok _. wrun (dp_method _ s (proj2 Hok)). by apply dev_poll_poll_spec.
  - intros s abs set Hok Habs (m&Hm&Hset'). pose proof Hok as [_ (x&[Hm' _]&_)]. cbn in Hm'. assert (m = MDevPoll) as -> by congruence.
    by rewrite Hdp in Hset'.
  - intros s m Hok Hm [set Hset']. pose proof Hok as [_ (x&[Hm' _]&_)]. cbn in Hm'. assert (m = MDevPoll) as -> by congruence.
    by rewrite Hdp in Hset'.
  - intros s [_ (x&[Hm _]&_)]. by exists MDevPoll.
Qed.
End dev_poll.
