(* ===== verification/FdPortSpec.v ===== *)
(** * The port methods keep the associations in step

    The laws of event ports the methods rely on, the invariant that ties objects and
    associations together, and the proof that the methods are poll methods in the sense
    of FdSpec.v. *)

From Stdlib Require Import Ascii.
From S2P Require Import Prelude ISeq Timer Sys Fd PmState FdPoll FdPort FdSpec FdCore FdDeferred.

Local Open Scope Z_scope.

Definition returned (pe : list port_event) (n : Z) : Prop := exists events user, PSourceFd n events user ∈ pe.

(** What the manual pages say: associating replaces, a call that fails changes nothing,
    and an event handed out takes its association with it.  The array can be found full
    only so often in a row. *)
Class PortLaws (W : Type) `{!FdKernel W, !PortKernel W} : Prop := {
  ol_associate : forall port n ev u w r w', sys_port_associate port n ev u w = (r, w') ->
    port_assoc port w' = if r then <[n := (u, ev)]> (port_assoc port w) else port_assoc port w;
  ol_dissociate : forall port n w r w', sys_port_dissociate port n w = (r, w') ->
    port_assoc port w' = if r then delete n (port_assoc port w) else port_assoc port w;
  ol_getn : forall port max t w r w', sys_port_getn port max t w = (r, w') ->
    match r with
    | GetnOk pe | GetnTime pe =>
        (forall n ev f, PSourceFd n ev f ∈ pe -> exists ev', port_assoc port w !! n = Some (f, ev')) /\
        (forall n, returned pe n -> port_assoc port w' !! n = None) /\
        (forall n, ~ returned pe n -> port_assoc port w' !! n = port_assoc port w !! n) /\
        (Z.of_nat (length pe) = max -> (port_backlog w' < port_backlog w)%nat)
    | GetnErr _ => port_assoc port w' = port_assoc port w
    end;
  ol_create : forall w n w', sys_port_create w = (inl n, w') -> port_assoc n w' = ∅;
  ol_timer_create : forall port n w, port_assoc port (sys_timer_create n w).2 = port_assoc port w;
  ol_timer_settime : forall port id t w, port_assoc port (sys_timer_settime id t w).2 = port_assoc port w;
  ol_core : forall port w w', fdk_step w w' -> port_assoc port w' = port_assoc port w }.

(** ** What is on file of an object: its association, if there is one *)
Abbreviation assoc := (gmap Z (loc * Z)).
Definition po_entry (x : assoc) (f : loc) : Prop := exists n ev, x !! n = Some (f, ev).
Definition po_told (x : assoc) (f : loc) (n b : Z) : Prop := forall k ev, x !! k = Some (f, ev) -> k = n /\ b <> 0.
Definition po_world (x : assoc) : Prop := True.
Definition po_settled (b w : Z) : Prop := b = w.
Lemma po_settled_refl b : po_settled b b.
Proof. reflexivity. Qed.

(** What an upload of an object does. *)
Definition uploaded (f : loc) (o : iv_fd_) (x : assoc) : assoc :=
  if wanted_bands o =? 0 then delete (fd_fd o) x
  else <[fd_fd o := (f, port_bits_to_poll_mask (wanted_bands o))]> x.
Lemma uploaded_told x f o : po_told x f (fd_fd o) (registered_bands o) ->
  (forall g, po_entry (uploaded f o x) g -> g = f \/ po_entry x g) /\
  (forall g n c, g <> f -> po_told x g n c -> po_told (uploaded f o x) g n c) /\
  po_told (uploaded f o x) f (fd_fd o) (wanted_bands o).
Proof.
  intros Hf. unfold uploaded. destruct (Z.eqb_spec (wanted_bands o) 0) as [Ew|Ew]; split_and!.
  - intros g (n&ev&[_ E]%lookup_delete_Some). right. by exists n, ev.
  - intros g n c Hg Ht k ev [_ E]%lookup_delete_Some. eauto.
  - intros k ev [Hk E]%lookup_delete_Some. by destruct (Hf k ev E).
  - intros g (n&ev&E). rewrite lookup_insert in E. case_decide; [left; congruence|right; by exists n, ev].
  - intros g n c Hg Ht k ev E. rewrite lookup_insert in E. case_decide; [congruence|eauto].
  - intros k ev E. rewrite lookup_insert in E. case_decide; [done|]. by destruct (Hf k ev E).
Qed.

Section port.
Context {W : Type} `{!FdKernel W, !PortKernel W, HL : !PortLaws W}.
Abbreviation St := (fd_state pm_state W).
Abbreviation V := (mview pm_state W).

Definition po_view (m : option method_name) (p : pm_state) (w : W) (x : assoc) : Prop :=
  (m = Some MPort \/ m = Some MPortTimer) /\ exists d, pm_u p = UPort d /\ x = port_assoc (port_fd d) w.
Abbreviation po_at := (deferred po_entry po_told po_world po_settled).
Definition port_inv : option loc -> V -> Prop := deferred_inv po_entry po_told po_world po_settled po_view.

Lemma po_view_core m p w w' x : po_view m p w x -> fdk_step w w' -> po_view m p w' x.
Proof. intros (Hm&d&Hd&->) Hs. split; [done|]. exists d. by rewrite (ol_core _ _ _ Hs). Qed.
Lemma load_port_Ok (s : St) d : pm_u (fs_pm s) = UPort d -> load_port s = Ok (d, s).
Proof. intros H. unfold load_port. msimpl. by rewrite H. Qed.

(** The invariant with the private state and the associations named. *)
Definition port_at (d : port_state) (o : option loc) (s : St) : Prop :=
  (fs_method s = Some MPort \/ fs_method s = Some MPortTimer) /\ pm_u (fs_pm s) = UPort d /\
  po_at (port_assoc (port_fd d) (fs_w s)) o (mv s).
Lemma inv_port_at o (s : St) : port_inv o (mv s) <-> exists d, port_at d o s.
Proof.
  split.
  - intros (x&(Hm&d&Hd&->)&Ha). by exists d.
  - intros (d&Hm&Hd&Ha). eexists. split; [|exact Ha]. split; [done|]. by exists d.
Qed.

(** ** Telling the kernel of one object *)
Lemma upload_one_spec d om (s : St) f o q : port_at d om s -> fs_fds s !! f = Some o -> live om f o ->
  iq_del_init f (fs_notify s) = Some q ->
  wp anyf (__iv_fd_port_upload_one f) s (fun ret s' => quiet s s' /\ fs_notify s' = q /\
    if ret : bool then port_at d om s' /\ fs_fds s' = <[f := set_registered_bands (wanted_bands o) o]> (fs_fds s)
    else (om = Some f -> port_at d om s') /\ fs_fds s' = fs_fds s).
Proof.
  intros (Hm&Hd&Ha) Hf Hl Hq. unfold __iv_fd_port_upload_one. wrun (on_notify_Ok s _ _ Hq). set (s1 := set_fs_notify q s).
  wrun (load_fd_Ok s1 f o Hf). wrun (load_port_Ok s1 d Hd). set (x := port_assoc (port_fd d) (fs_w s)) in *.
  wbind. apply (wp_mono _ _ _ (fun ret s2 => exists w', s2 = set_fs_w w' s1 /\
    port_assoc (port_fd d) w' = if ret : bool then uploaded f o x else x)).
  { unfold uploaded. destruct (wanted_bands o =? 0); cbn [negb].
    - destruct (sys_port_dissociate (port_fd d) (fd_fd o) (fs_w s1)) as [r w'] eqn:Ek.
      eapply wp_Ok; [by apply kernel_Ok|]. exists w'. split; [done|]. by rewrite (ol_dissociate _ _ _ _ _ Ek).
    - destruct (sys_port_associate (port_fd d) (fd_fd o) (port_bits_to_poll_mask (wanted_bands o)) f (fs_w s1)) as [r w'] eqn:Ek.
      eapply wp_Ok; [by apply kernel_Ok|]. exists w'. split; [done|]. by rewrite (ol_associate _ _ _ _ _ _ _ Ek). }
  cbv beta. intros ret s2 (w'&->&Hw). pose proof (mv_lookup _ _ _ Hf) as Hmf.
  destruct (relist_del_init _ _ _ (df_notify _ _ _ _ _ _ _ _ Ha) Hq) as (Hqok&Hfq&Hfi&Hqg).
  destruct ret; cbn [when].
  - wrun (upd_fd_Ok (set_fs_w w' s1) f o (fun o => set_registered_bands (wanted_bands o) o) Hf).
    eapply wp_Ok; [reflexivity|]. split; [by apply (quiet_upd (set_fs_w w' s1) f o)|]. split; [done|]. split; [|done].
    split_and!; [done|done|]. change (fs_w (upd f _ (set_fs_w w' s1))) with w'. rewrite Hw. unfold deferred.
    change (mv_objs (mv (upd f ?o' (set_fs_w w' s1)))) with (meth_obj <$> <[f := o']> (fs_fds s)). rewrite fmap_insert.
    change (meth_obj (set_registered_bands (wanted_bands o) o)) with (set_registered_bands (wanted_bands o) (meth_obj o)).
    destruct (uploaded_told x f o) as (He&Ht&Htf); [by apply (df_told _ _ _ _ _ _ _ _ Ha f _ Hmf)|].
    apply (deferred_change _ _ _ _ x _ om om (meth_obj <$> fs_fds s) (fs_notify s)); try done; auto.
  - wprim. eapply wp_Ok; [reflexivity|]. split; [done|]. split; [done|]. split; [|done]. intros ->. split_and!; [done|done|].
    change (fs_w (set_fs_w w' s1)) with w'. rewrite Hw.
    eapply (deferred_relist _ _ _ _ x (Some f) (meth_obj <$> fs_fds s) (fs_notify s) q); [exact Ha|exact Hmf|by right|by left|done|by right|done|done].
Qed.

Lemma upload_head_spec d om (s : St) f r : port_at d om s -> members (fs_notify s) = f :: r ->
  wp anyf (iv_fd_port_upload_one f) s (fun _ s' => port_at d om s' /\ drained f r s s').
Proof.
  intros Hp Hms. pose proof Hp as (_&_&Ha). destruct (deferred_head _ _ _ _ _ om _ f r Ha Hms) as (o&q&Ho&Hl&Hfr&Emq&Hq).
  unfold iv_fd_port_upload_one. wbind. eapply wp_mono; [by apply (upload_one_spec d om s f o q)|]. cbv beta.
  intros [] s' (Hquiet&Hn&H); [|done]. eapply wp_Ok; [reflexivity|]. destruct H as [H Hfds]. split; [done|].
  split; [done|done|by rewrite Hn|by exists o].
Qed.

Lemma po_upload_spec d om (s : St) : port_at d om s ->
  wp anyf iv_fd_port_upload s (fun _ s' => quiet s s' /\ port_at d om s' /\ members (fs_notify s') = [] /\ settled_on s s').
Proof.
  intros Hp. unfold iv_fd_port_upload. wprim. apply (drain_spec (fun _ => port_at d om)); [|done|lia].
  intros _ f r s1. apply upload_head_spec.
Qed.

(** ** The operations *)
Lemma port_dropped d (s : St) f o : port_at d (Some f) s -> fs_fds s !! f = Some o -> registered o = false ->
  registered_bands o = 0 -> f ∉ members (fs_notify s) -> port_inv None (mv s).
Proof.
  intros (Hm&Hd&Ha) Hf Hr Hb Hn. apply inv_port_at. exists d. split_and!; [done|done|].
  pose proof (mv_lookup _ _ _ Hf) as Hmf. pose proof (df_told _ _ _ _ _ _ _ _ Ha f _ Hmf ltac:(by right)) as Ht.
  eapply (deferred_drop _ _ _ _ _ _ _ _ f (meth_obj o)); [exact Ha|done..| |done].
  intros g (n&ev&E). split; [|by exists n, ev]. intros ->. by destruct (Ht n ev E).
Qed.

Lemma po_unregister_spec (s : St) f o : port_inv (Some f) (mv s) -> fs_fds s !! f = Some o -> registered o = false ->
  wanted_bands o = 0 \/ f ∉ members (fs_notify s) -> (f ∉ members (fs_notify s) -> registered_bands o = 0) ->
  wp anyf (iv_fd_port_unregister_fd f) s (fun _ s' => quiet s s' /\ port_inv None (mv s')).
Proof.
  intros Hi Hf Hr Hw Hb. unfold iv_fd_port_unregister_fd. wprim. pose proof Hi as [d Hp]%inv_port_at. pose proof Hp as (_&_&Ha).
  rewrite (deferred_unlinked _ _ _ _ _ s f o Ha Hf). wprim. rewrite negb_involutive. case_bool_decide as Hin; cbn [when].
  - destruct Hw as [Hw|]; [|done]. destruct (deferred_linked _ _ _ _ _ s f _ Ha (mv_lookup _ _ _ Hf)) as (q&Hq&_&_&Hfq&_).
    unfold iv_fd_port_upload_one. wbind. eapply wp_mono; [apply (upload_one_spec d (Some f) s f o q Hp Hf); [by right|done]|]. cbv beta.
    intros [] s' (Hquiet&Hn&H); [|done]. eapply wp_Ok; [reflexivity|]. destruct H as [Hp' Hfds]. split; [done|].
    eapply (port_dropped d s' f (set_registered_bands (wanted_bands o) o)); [done|rewrite Hfds; apply lookup_insert_eq|done|done|by rewrite Hn].
  - eapply wp_Ok; [reflexivity|]. split; [done|]. eapply port_dropped; [done|done|done|by apply Hb|done].
Qed.

(** ** They are poll methods *)
Context (clock_gettime : nat -> clockid -> option timespec) (gettimeofday : nat -> Z * Z).
Context (rp : M St unit) (method_of : method_name -> iv_fd_poll_method St).
Context (Hpo : method_of MPort = iv_fd_poll_method_port clock_gettime gettimeofday rp).
Context (Hpt : method_of MPortTimer = iv_fd_poll_method_port_timer clock_gettime gettimeofday rp).

(** Both methods differ only in their use of the kernel timer. *)
Lemma run_port {A} (op : iv_fd_poll_method St -> M St A) (s : St) o Q : port_inv o (mv s) ->
  op (method_of MPort) = op (method_of MPortTimer) ->
  wp anyf (op (method_of MPort)) s Q -> wp anyf (m ← the_method method_of; op m) s Q.
Proof.
  intros (x&[[Em|Em] _]&_) E H; cbn in Em.
  - by wrun (the_method_Ok method_of s _ Em).
  - wrun (the_method_Ok method_of s _ Em). by rewrite <-E.
Qed.
Ltac on_port s o op := apply (run_port op s o); [done|by rewrite Hpo, Hpt|]; rewrite Hpo.

#[global] Instance port_poll_method : PollMethod method_of port_inv deferred_can deferred_can_reg deferred_unknown.
Proof.
  split.
  - intros o v w'. apply inv_kernel. exact po_view_core.
  - intros v f. apply inv_members.
  - intros v f m' q. apply inv_free.
  - intros v f. apply inv_opened.
  - intros v f m b w. apply inv_flags.
  - intros v f m b w. apply unknown_flags.
  - intros s v f m q w (x&Hx&Hd) Hf _ Hr Hb Hq Emv.
    destruct (deferred_register _ _ _ _ x x _ _ f m q Hd Hf Hr Hq) as [Hfm Hd']; [apply Hd|by right|done| |].
    { rewrite Hb. intros n ev E. exfalso. apply Hf.
      destruct (df_entry _ _ _ _ _ _ _ _ Hd f) as (m0&?&[?|?]); [by exists n, ev|by exists m0|done]. }
    assert (port_inv (Some f) (mv s)) as Hi by (rewrite Emv; by exists x).
    unfold method_register. on_port s (Some f) (fun m => match pm_register_fd m with Some r => r f | None => mret tt end : M St unit).
    eapply wp_Ok; [reflexivity|].
    split_and!; [done|done| |]; rewrite Emv; [split; [done|]; cbn; rewrite lookup_insert_eq; by intros ? [= <-]|].
    exists m. cbn. by rewrite lookup_insert_eq.
  - intros s f m Hi Hf _ Hr. on_port s (Some f) (fun m => pm_notify_fd m f : M St unit).
    eapply notify_inv; [exact po_settled_refl|done..].
  - intros s f m Hi Hf _ Hr Hw. apply mv_lookup_inv in Hf as (o&Ho&->). wbind. on_port s (Some f) (fun m => pm_notify_fd m f : M St unit).
    pose proof Hi as (x&Hx&Ha). eapply wp_mono; [eapply notify_deferred_spec; [exact po_settled_refl|exact Ha|exact Ho]|].
    cbv beta. intros _ s' (q&->&Ha'&Hiff&_). assert (port_inv (Some f) (mv (set_fs_notify q s))) as Hi' by (by exists x).
    unfold method_unregister. on_port (set_fs_notify q s) (Some f) (fun m => match pm_unregister_fd m with Some u => u f | None => mret tt end : M St unit).
    eapply wp_mono; [apply (po_unregister_spec (set_fs_notify q s) f o Hi' Ho Hr); [by left|]|by cbv beta].
    cbn. intros Hn. destruct (decide (registered_bands o = wanted_bands o)); [cbn in Hw; congruence|tauto].
  - intros s f m Hi Hf Hr _ [Hu1 Hu2]. pose proof (Hu2 _ Hf) as Hb. apply mv_lookup_inv in Hf as (o&Ho&->).
    on_port s (Some f) (fun m => pm_notify_fd_sync m f : M St Z).
    change (pm_notify_fd_sync _ f) with (iv_fd_port_notify_fd_sync (W := W) f). unfold iv_fd_port_notify_fd_sync.
    pose proof Hi as [d Hp]%inv_port_at. pose proof Hp as (_&_&Ha).
    destruct (deferred_linked _ _ _ _ _ s f _ Ha (mv_lookup _ _ _ Ho)) as (q&Hq&_&_&Hfq&_).
    wbind. eapply wp_mono; [apply (upload_one_spec d (Some f) s f o q Hp Ho); [by right|done]|]. cbv beta.
    intros [] s' (Hquiet&Hn&H); (eapply wp_Ok; [reflexivity|]); (split; [done|]).
    + rewrite decide_True by done. destruct H as [(Hm'&Hd'&Ha') Hfds].
      assert (fs_fds s' !! f = Some (set_registered_bands (wanted_bands o) o)) as Hf' by (rewrite Hfds; apply lookup_insert_eq).
      split; [|eexists; split; [by apply mv_lookup|done]]. apply inv_port_at. exists d. split_and!; [done|done|].
      eapply deferred_close; [exact Ha'|by apply mv_lookup|done|done].
    + rewrite decide_False by done. destruct H as [Hp' Hfds]. split; [apply inv_port_at; exists d; by apply Hp'|].
      split; [cbn; by rewrite Hn|]. intros m' Hm'. apply mv_lookup_inv in Hm' as (o'&Ho'&->). rewrite Hfds, Ho in Ho'. by injection Ho' as <-.
  - intros s f m Hi Hf Hr [Hu1 Hu2]. pose proof (Hu2 _ Hf) as Hb. apply mv_lookup_inv in Hf as (o&Ho&->).
    unfold method_unregister. on_port s (Some f) (fun m => match pm_unregister_fd m with Some u => u f | None => mret tt end : M St unit).
    apply (po_unregister_spec s f o); [done|done|done|by right|done].
Qed.

(** ** Polling *)
Abbreviation ok := (fd_ok (inv := port_inv)).

(** Handing out an event left no association behind. *)
Definition handed_out (s : St) (pe : list port_event) : Prop := forall n ev f, PSourceFd n ev f ∈ pe ->
  is_registered (fs_fds s) f /\
  forall d k ev', pm_u (fs_pm s) = UPort d -> port_assoc (port_fd d) (fs_w s) !! k <> Some (f, ev').
Definition same_kernel (s s' : St) : Prop := fs_w s' = fs_w s /\ fs_pm s' = fs_pm s /\
  forall g, is_registered (fs_fds s) g -> is_registered (fs_fds s') g.

Lemma handed_out_mono (s s' : St) e pe : handed_out s (e :: pe) -> same_kernel s s' -> handed_out s' pe.
Proof.
  intros H (Ew&Ep&Hr) n ev f Hin. destruct (H n ev f ltac:(by right)) as [? H2]. split; [auto|].
  intros d k ev'. rewrite Ep, Ew. apply H2.
Qed.
Lemma same_kernel_trans s1 s2 s3 : same_kernel s1 s2 -> same_kernel s2 s3 -> same_kernel s1 s3.
Proof. intros (?&?&?) (?&?&?). split_and!; [congruence|congruence|auto]. Qed.
Lemma mv_same_kernel (s s' : St) : mv s' = mv s -> same_kernel s s'.
Proof.
  intros E. split_and!; [by apply (f_equal mv_w) in E|by apply (f_equal mv_pm) in E|]. intros g. by apply reported_registered.
Qed.

(** The object is to be associated again. *)
Lemma requeue_spec (s : St) f n ev pe {A} (m : M St A) Q : ok s -> handed_out s (PSourceFd n ev f :: pe) ->
  (forall s', ok s' -> quiet s s' -> same_kernel s s' -> wp anyf m s' Q) ->
  wp anyf (upd_fd f (set_registered_bands 0);; on_notify (iq_del_init f);;
    o ← load_fd f; when (negb (wanted_bands o =? 0)) (on_notify (iq_add_tail f));; m) s Q.
Proof.
  intros Hok Hh Hm. destruct (Hh n ev f ltac:(by left)) as [(o&Ho&Hr) Hno]. pose proof Hok as [_ [d (Hme&Hd&Ha)]%inv_port_at].
  pose proof (mv_lookup _ _ _ Ho) as Hmf.
  assert (exists q, iq_del_init f (fs_notify s) = Some q) as [q Hq].
  { destruct (df_linked _ _ _ _ _ _ _ _ Ha f _ Hmf) as [Hx|Hx]; [by left|..]; cbn in Hx; unfold iq_del_init.
    - rewrite decide_True by done. by eexists.
    - case_decide; [by eexists|]. rewrite decide_True by done. by eexists. }
  destruct (relist_del_init _ _ _ (df_notify _ _ _ _ _ _ _ _ Ha) Hq) as (Hqok&Hfq&Hfi&Hqg).
  wrun (upd_fd_Ok s f o (set_registered_bands 0) Ho). set (o1 := set_registered_bands 0 o). set (s1 := upd f o1 s).
  wrun (on_notify_Ok s1 _ _ Hq). set (s2 := set_fs_notify q s1). wrun (load_fd_Ok s2 f o1 (lookup_upd_eq s f o1)).
  assert (forall q', iq_ok q' -> f ∈ members q' \/ f ∈ idle q' ->
    (forall g, g <> f -> (g ∈ members q' <-> g ∈ members (fs_notify s)) /\ (g ∈ idle q' <-> g ∈ idle (fs_notify s))) ->
    (f ∉ members q' -> wanted_bands o = 0) -> wp anyf m (set_fs_notify q' s1) Q) as Hend.
  { intros q' Hok' Hf' Hg Hw.
    assert (quiet s (set_fs_notify q' s1)) as Hquiet by (by apply (quiet_upd s f o o1)).
    assert (same_kernel s (set_fs_notify q' s1)) as Hsame.
    { split_and!; [done|done|]. intros g (og&Hog&Hrg). destruct (decide (g = f)) as [->|Hgf].
      - exists o1. split; [apply lookup_upd_eq|done].
      - exists og. split; [|done]. cbn. by rewrite lookup_insert_ne. }
    apply Hm; [|done|done]. apply (fd_ok_quiet s _ Hok Hquiet), inv_port_at. exists d. split_and!; [done|done|].
    unfold deferred. change (mv_objs (mv (set_fs_notify q' s1))) with (meth_obj <$> <[f := o1]> (fs_fds s)). rewrite fmap_insert.
    change (meth_obj o1) with (set_registered_bands 0 (meth_obj o)).
    apply (deferred_change _ _ _ _ (port_assoc (port_fd d) (fs_w s)) _ None None (meth_obj <$> fs_fds s) (fs_notify s)); try done; auto.
    - by left.
    - by left.
    - intros _ _ Hn. by rewrite (Hw Hn : wanted_bands (meth_obj o) = 0).
    - intros k ev' E. by destruct (Hno d k ev' Hd). }
  change (wanted_bands o1) with (wanted_bands o). destruct (Z.eqb_spec (wanted_bands o) 0) as [Ew|Ew]; cbn [negb when].
  - wprim. apply Hend; [done|by right|done|done].
  - destruct (iq_add_tail f q) as [q2|] eqn:Hq2; [|unfold iq_add_tail in Hq2; by case_decide].
    destruct (relist_add_tail _ _ _ Hqok Hq2) as (Hq2ok&Hf2&Hqg2).
    wrun (on_notify_Ok s2 _ _ Hq2). apply (Hend q2); [done|by left| |done].
    intros g Hgf. destruct (Hqg g Hgf), (Hqg2 g Hgf). tauto.
Qed.

Definition still (s s' : St) : Prop := ok s' /\ fs_handled s' = fs_handled s /\ fs_ran s' = fs_ran s /\ same_kernel s s'.
Lemma port_batch_spec pe b1 b2 (s : St) : ok s -> handed_out s pe -> wp anyf (port_batch pe b1 b2) s (fun _ s' => still s s').
Proof.
  revert b1 b2 s. induction pe as [|e pe IH]; intros b1 b2 s Hok Hh; [by eapply wp_Ok; [reflexivity|]|].
  assert (handed_out s pe) as Hh' by (by eapply handed_out_mono; [|by apply mv_same_kernel]).
  destruct e as [n ev f| | |]; cbn [port_batch]; [|by apply IH|by apply IH|done].
  destruct (Hh n ev f ltac:(by left)) as [Hf _].
  wbind. eapply wp_mono; [by apply (make_ready3_spec (inv := port_inv))|]. cbv beta. intros _ s1 (Hok1&Eh1&Er1&E1).
  pose proof (mv_same_kernel _ _ E1) as H1.
  assert (handed_out s1 (PSourceFd n ev f :: pe)) as Hh1.
  { eapply (handed_out_mono s s1 PSourceTimer); [|done]. intros ? ? ? [?|Hin]%elem_of_cons; [done|]. by eapply Hh. }
  apply (requeue_spec s1 f n ev pe _ _ Hok1 Hh1). intros s2 Hok2 Hq2 H2. destruct (quiet_fields _ _ Hq2) as (_&Eh2&Er2).
  eapply wp_mono; [apply IH; [done|by eapply handed_out_mono]|]. cbv beta. intros _ s3 (Hok3&Eh3&Er3&H3).
  split_and!; [done|congruence|congruence|]. eapply same_kernel_trans; [exact H1|]. by eapply same_kernel_trans.
Qed.

Context (Hrp : forall s, ok s -> wp anyf rp s (fun _ s' => polled (inv := port_inv) s s')).

Lemma getn_spec d max rel (s : St) r w' : ok s -> pm_u (fs_pm s) = UPort d ->
  sys_port_getn (port_fd d) max rel (fs_w s) = (r, w') ->
  ok (set_fs_w w' s) /\ match r with
  | GetnOk pe | GetnTime pe => handed_out (set_fs_w w' s) pe /\ (Z.of_nat (length pe) = max -> (port_backlog w' < port_backlog (fs_w s))%nat)
  | GetnErr _ => True
  end.
Proof.
  intros Hok Hd Ek. pose proof (ol_getn _ _ _ _ _ _ Ek) as Hl. pose proof Hok as [Hc [d' (Hm&Hd'&Ha)]%inv_port_at].
  assert (d' = d) as -> by congruence. set (x := port_assoc (port_fd d) (fs_w s)) in *.
  assert (forall y, port_assoc (port_fd d) w' = y -> (forall k v, y !! k = Some v -> x !! k = Some v) -> ok (set_fs_w w' s)) as Hsub.
  { intros y Ey Hy. split; [done|]. apply inv_port_at. exists d. split_and!; [done|done|]. cbn [fs_w set_fs_w]. rewrite Ey.
    destruct Ha as [H1 H2 H3 H4 H5 H6 H7]. split; try done.
    - intros f (n&ev&E). apply H6. exists n, ev. by apply Hy.
    - intros f m Hf Hlv k ev E. eapply (H7 f m Hf Hlv). by apply Hy. }
  assert (forall pe, (forall n ev f, PSourceFd n ev f ∈ pe -> exists ev', x !! n = Some (f, ev')) ->
    (forall n, returned pe n -> port_assoc (port_fd d) w' !! n = None) ->
    (forall n, ~ returned pe n -> port_assoc (port_fd d) w' !! n = x !! n) -> ok (set_fs_w w' s) /\ handed_out (set_fs_w w' s) pe) as Hpe.
  { intros pe Hin Hgone Hrest.
    assert (forall k v, port_assoc (port_fd d) w' !! k = Some v -> x !! k = Some v) as Hy.
    { intros k v Hk. rewrite <-Hrest; [done|]. intros Hret. rewrite (Hgone k Hret) in Hk. done. }
    split; [by eapply Hsub|]. intros n ev f Hf. destruct (Hin n ev f Hf) as [ev' Hx].
    destruct (df_entry _ _ _ _ _ _ _ _ Ha f) as (m&Hmf&[Hr|?]); [by exists n, ev'| |done].
    pose proof (df_told _ _ _ _ _ _ _ _ Ha f m Hmf ltac:(by left)) as Ht. destruct (Ht n ev' Hx) as [En _].
    apply mv_lookup_inv in Hmf as (o&Ho&->). split; [by exists o|].
    intros d2 k ev2 Hd2 Hk. assert (d2 = d) as -> by (cbn in Hd2; congruence). cbn in Hk.
    destruct (Ht k ev2 (Hy _ _ Hk)) as [Ek2 _]. rewrite Ek2, <-En, Hgone in Hk; [done|]. by exists ev, f. }
  destruct r as [pe|pe|e].
  - destruct Hl as (H1&H2&H3&H4). destruct (Hpe pe H1 H2 H3). auto.
  - destruct Hl as (H1&H2&H3&H4). destruct (Hpe pe H1 H2 H3). auto.
  - split; [|done]. by apply (Hsub x).
Qed.

Lemma poll_more_spec fuel rel b1 b2 (s s0 : St) : ok s -> fs_handled s = fs_handled s0 -> fs_ran s = fs_ran s0 ->
  (port_backlog (fs_w s) < fuel)%nat ->
  wp anyf (poll_more rp fuel rel b1 b2) s (fun _ s' => polled (inv := port_inv) s0 s').
Proof.
  revert rel b1 b2 s. induction fuel as [|fuel IH]; intros rel b1 b2 s Hok Eh Er Hf; [lia|]. cbn [poll_more].
  pose proof Hok as [_ [d (Hm&Hd&Ha)]%inv_port_at]. wrun (load_port_Ok s d Hd).
  destruct (sys_port_getn (port_fd d) PORTEV_NUM rel (fs_w s)) as [r w'] eqn:Ek. wrun (kernel_Ok _ s r w' Ek).
  wrun (invalidate_Ok (set_fs_w w' s)). cbv zeta. set (s1 := set_fs_timer _ (set_fs_w w' s)).
  destruct (getn_spec d _ _ s r w' Hok Hd Ek) as [Hok1 Hr]. change (ok s1) in Hok1.
  assert (forall pe b, handed_out s1 pe -> (Z.of_nat (length pe) = PORTEV_NUM -> (port_backlog w' < port_backlog (fs_w s))%nat) ->
    wp anyf (r ← port_batch pe b b2; let '(run_timers, run_events) := r : bool * bool in
      if Z.of_nat (length pe) =? PORTEV_NUM then poll_more rp fuel (Some (mk_tsp 0 0)) true run_events
      else when run_events rp;; mret run_timers) s1 (fun _ s' => polled (inv := port_inv) s0 s')) as Hnext.
  { intros pe b Hh Hfull. wbind. eapply wp_mono; [by apply port_batch_spec|]. cbv beta. intros [b3 b4] s2 (Hok2&Eh2&Er2&Ew2&_).
    change (fs_handled s1) with (fs_handled s) in Eh2. change (fs_ran s1) with (fs_ran s) in Er2.
    destruct (Z.eqb_spec (Z.of_nat (length pe)) PORTEV_NUM) as [E|E].
    - apply IH; [done|congruence|congruence|]. rewrite Ew2. change (fs_w s1) with w'. specialize (Hfull E). lia.
    - apply (run_pending_if rp Hrp); [done|congruence|congruence]. }
  destruct r as [pe|pe|[]]; try done; [by apply Hnext; destruct Hr|by apply Hnext; destruct Hr|].
  eapply wp_Ok; [reflexivity|]. apply polled_nothing; [done|exact Eh|exact Er].
Qed.

Lemma port_poll_spec abs (s : St) : ok s ->
  wp anyf (iv_fd_port_poll clock_gettime gettimeofday rp abs) s (fun _ s' => polled (inv := port_inv) s s').
Proof.
  intros Hok. unfold iv_fd_port_poll. pose proof Hok as [_ [d Hp]%inv_port_at].
  wbind. eapply wp_mono; [by apply po_upload_spec|]. cbv beta. intros _ s1 (Hq1&Hp1&_&_). destruct (quiet_fields _ _ Hq1) as (_&Eh1&Er1).
  destruct (on_to_relative clock_gettime gettimeofday abs s1) as (rel&t'&Et). wrun Et. cbv zeta. set (s2 := set_fs_timer t' s1). wprim.
  apply poll_more_spec; [|done|done|lia]. apply (fd_ok_quiet s s2 Hok Hq1), inv_port_at. by exists d.
Qed.

Lemma port_kernel_same (s : St) d w' : ok s -> pm_u (fs_pm s) = UPort d ->
  port_assoc (port_fd d) w' = port_assoc (port_fd d) (fs_w s) -> port_inv None (mv (set_fs_w w' s)).
Proof.
  intros [_ [d' (Hm&Hd'&Ha)]%inv_port_at] Hd Ew. assert (d' = d) as -> by congruence.
  apply inv_port_at. exists d. split_and!; [done|done|]. cbn [fs_w set_fs_w]. by rewrite Ew.
Qed.

#[global] Instance port_poll_functions : PollFunctions method_of (inv := port_inv).
Proof.
  assert (forall s m, ok s -> fs_method s = Some m -> is_Some (pm_set_poll_timeout (method_of m)) -> m = MPortTimer) as Htimer.
  { intros s m [_ (x&[Hm' _]&_)] Hm [set Hset]. destruct Hm' as [Hm'|Hm']; cbn in Hm'; [|congruence].
    assert (m = MPort) as -> by congruence. by rewrite Hpo in Hset. }
  split.
  - intros s abs Hok _. pose proof Hok as [_ (x&[[Hm|Hm] _]&_)]; cbn in Hm; wrun (the_method_Ok method_of s _ Hm).
    + rewrite Hpo. by apply port_poll_spec.
    + rewrite Hpt. by apply port_poll_spec.
  - intros s abs set Hok [a ->] (m&Hm&Hset). pose proof (Htimer s m Hok Hm ltac:(by eexists)) as ->. rewrite Hpt in Hset.
    injection Hset as <-. unfold iv_fd_port_set_poll_timeout. pose proof Hok as [Hc [d Hp]%inv_port_at]. pose proof Hp as (Hme&Hd&Ha).
    wrun (load_port_Ok s d Hd). wbind.
    apply (wp_mono _ _ _ (fun _ s1 => quiet s s1 /\ exists d', port_at d' None s1)).
    { destruct (timer_id d =? -1); [|eapply wp_Ok; [reflexivity|]; split; [done|by exists d]].
      unfold iv_fd_port_timer_create. wrun (load_port_Ok s d Hd). pose proof (ol_timer_create (port_fd d) (port_fd d) (fs_w s)) as Hw.
      destruct (sys_timer_create (port_fd d) (fs_w s)) as [r w'] eqn:Ek. wrun (kernel_Ok _ s r w' Ek).
      pose proof (port_kernel_same s d w' Hok Hd Hw) as [d2 Hp2]%inv_port_at.
      destruct r as [id|[]]; try done; [|by eapply wp_Ok; [reflexivity|]; split; [|exists d2]].
      wrun (load_port_Ok (set_fs_w w' s) d Hd). eapply wp_Ok; [reflexivity|]. split; [done|]. exists (set_timer_id id d).
      destruct Hp2 as (?&Hd2&Ha2). assert (d2 = d) as -> by (cbn in Hd2; congruence). done. }
    cbv beta. intros created s1 (Hq1&d1&Hp1). pose proof Hp1 as (Hm1&Hd1&Ha1). destruct created; cbn [negb].
    + wprim. cbv zeta. wrun (load_port_Ok s1 d1 Hd1).
      match goal with |- context [sys_timer_settime _ ?x] => set (t := x) end. pose proof (ol_timer_settime (port_fd d1) (timer_id d1) t (fs_w s1)) as Hw.
      destruct (sys_timer_settime (timer_id d1) t (fs_w s1)) as [r w'] eqn:Ek. wrun (kernel_Ok _ s1 r w' Ek).
      destruct r; [|done]. eapply wp_Ok; [reflexivity|]. split; [done|]. apply (port_kernel_same s1 d1); [|done|done].
      split; [by rewrite (proj1 Hq1)|]. apply inv_port_at. by exists d1.
    + wprim. eapply wp_Ok; [reflexivity|]. split; [done|]. apply inv_port_at. exists d1. split_and!; [by left|done|done].
  - intros s m Hok Hm Hset. pose proof (Htimer s m Hok Hm Hset) as ->. rewrite Hpt.
    change (pm_clear_poll_timeout _) with (iv_fd_port_clear_poll_timeout (W := W)). unfold iv_fd_port_clear_poll_timeout.
    pose proof Hok as [_ [d (_&Hd&_)]%inv_port_at]. wrun (load_port_Ok s d Hd).
    pose proof (ol_timer_settime (port_fd d) (timer_id d) (mk_tsp 0 0) (fs_w s)) as Hw.
    destruct (sys_timer_settime (timer_id d) (mk_tsp 0 0) (fs_w s)) as [r w'] eqn:Ek. wrun (kernel_Ok _ s r w' Ek).
    destruct r; [|done]. eapply wp_Ok; [reflexivity|]. split_and!; [done| |done]. by apply (port_kernel_same s d).
  - intros s [_ (x&[[Hm|Hm] _]&_)]; cbn in Hm; rewrite Hm; eauto.
Qed.
End port.
