(* ===== verification/FdEpollSpec.v ===== *)
(** * The epoll methods keep the kernel's interest list in step

    The laws of epoll the methods rely on (epoll_ctl(2), epoll_wait(2)), the
    invariant that ties the objects, the notify list and the interest list of
    the kernel together, and the proof that the epoll methods are poll methods
    in the sense of FdSpec.v. *)

From Stdlib Require Import Ascii.
From S2P Require Import Prelude ISeq Timer Sys Fd PmState FdEpoll FdSpec FdCore FdDeferred.

Local Open Scope Z_scope.

(** What the manual pages say: adding fails on an entry that exists, the other
    operations on one that does not; a call that fails changes nothing; waiting
    reports entries of the interest list; a call on something else leaves the
    interest list of [ep] alone. *)
Class EpollLaws (W : Type) `{!FdKernel W, !EpollKernel W} : Prop := {
  el_ctl : forall ep op n d w r w', sys_epoll_ctl ep op n d w = (r, w') ->
    match r with
    | inl _ =>
        epoll_interest ep w' = (if decide (op = EPOLL_CTL_DEL) then delete n (epoll_interest ep w)
                                else <[n := d]> (epoll_interest ep w)) /\
        if decide (op = EPOLL_CTL_ADD) then epoll_interest ep w !! n = None
        else is_Some (epoll_interest ep w !! n)
    | inr e => epoll_interest ep w' = epoll_interest ep w /\
        (e = EINTR -> (epoll_signals w' < epoll_signals w)%nat)
    end;
  el_wait : forall ep max t w r w', sys_epoll_wait ep max t w = (r, w') ->
    (forall n d ev, d <> DState -> (epoll_interest ep w' !! n = Some (d, ev) <-> epoll_interest ep w !! n = Some (d, ev))) /\
    match r with
    | inl l => (length l <= Z.to_nat max)%nat /\
        forall d ev, (d, ev) ∈ l -> exists n ev', epoll_interest ep w !! n = Some (d, ev')
    | inr _ => True
    end;
  el_pwait2 : forall ep max t w r w', sys_epoll_pwait2 ep max t w = (r, w') ->
    (forall n d ev, d <> DState -> (epoll_interest ep w' !! n = Some (d, ev) <-> epoll_interest ep w !! n = Some (d, ev))) /\
    match r with
    | inl l => (length l <= Z.to_nat max)%nat /\
        forall d ev, (d, ev) ∈ l -> exists n ev', epoll_interest ep w !! n = Some (d, ev')
    | inr _ => True
    end;
  el_create1 : forall w n w', sys_epoll_create1 w = (inl n, w') -> epoll_interest n w' = ∅;
  el_create : forall w n w', sys_epoll_create w = (inl n, w') -> epoll_interest n w' = ∅;
  el_timerfd : forall ep w r w', sys_timerfd_create w = (r, w') -> epoll_interest ep w' = epoll_interest ep w;
  el_timerfd_fd : forall w n w', sys_timerfd_create w = (inl n, w') -> 0 <= n;
  el_settime : forall ep n t w, epoll_interest ep (sys_timerfd_settime n t w).2 = epoll_interest ep w;
  el_read : forall ep n w, epoll_interest ep (sys_timerfd_read n w).2 = epoll_interest ep w;
  el_core : forall ep w w', fdk_step w w' -> epoll_interest ep w' = epoll_interest ep w }.

Section epoll.
Context {W : Type} `{!FdKernel W, !EpollKernel W, HL : !EpollLaws W}.
Abbreviation St := (fd_state pm_state W).
Abbreviation V := (mview pm_state W).

Record epoll_inv_at (e : epoll_state) (o : option loc) (v : V) : Prop := {
  ei_method : mv_method v = Some MEpoll \/ mv_method v = Some MEpollTimerfd;
  ei_notify : iq_ok (mv_notify v);
  ei_members : forall f, f ∈ members (mv_notify v) -> exists m, mv_objs v !! f = Some m /\ live o f m;
  ei_linked : forall f m, mv_objs v !! f = Some m -> live o f m ->
    f ∈ members (mv_notify v) \/ f ∈ idle (mv_notify v);
  ei_queued : forall f m, mv_objs v !! f = Some m -> registered m = true -> o <> Some f ->
    (f ∈ members (mv_notify v) <-> registered_bands m <> wanted_bands m);
  ei_kernel : forall n f ev, epoll_interest (epoll_fd e) (mv_w v) !! n = Some (DFd f, ev) ->
    exists m, mv_objs v !! f = Some m /\ live o f m /\ fd_fd m = n /\ registered_bands m <> 0 /\
      ev = epoll_mask (registered_bands m);
  ei_told : forall f m, mv_objs v !! f = Some m -> live o f m -> registered_bands m <> 0 ->
    epoll_interest (epoll_fd e) (mv_w v) !! fd_fd m = Some (DFd f, epoll_mask (registered_bands m));
  ei_timer : forall n ev, epoll_interest (epoll_fd e) (mv_w v) !! n = Some (DTime, ev) ->
    mv_method v = Some MEpollTimerfd /\ timer_fd e <> -1 }.

Definition epoll_inv (o : option loc) (v : V) : Prop :=
  exists e, pm_u (mv_pm v) = UEpoll e /\ epoll_inv_at e o v.

(** Nothing is asked of the client beyond the API's own rules. *)
Definition epoll_can (m : iv_fd_) : Prop := True.
Definition epoll_can_reg (v : V) (n w : Z) : Prop := True.
(** The kernel does not know [f]. *)
Definition epoll_unknown (v : V) (f : loc) : Prop :=
  f ∉ members (mv_notify v) /\ forall m, mv_objs v !! f = Some m -> registered_bands m = 0.

Lemma inv_w o (v : V) w' :
  (forall n d ev e, pm_u (mv_pm v) = UEpoll e -> d <> DState ->
     (epoll_interest (epoll_fd e) w' !! n = Some (d, ev) <-> epoll_interest (epoll_fd e) (mv_w v) !! n = Some (d, ev))) ->
  epoll_inv o v -> epoll_inv o (with_w w' v).
Proof.
  intros Hw (e&He&[H1 H2 H3 H4 H5 H6 H7 H8]). exists e. split; [done|].
  split; cbn; try done.
  - intros n f ev Hn. apply (Hw n (DFd f) ev e He) in Hn; [eauto|done].
  - intros f m Hf Hl Hb. apply (Hw _ _ _ e He); [done|eauto].
  - intros n ev Hn. apply (Hw n DTime ev e He) in Hn; [eauto|done].
Qed.

(** The entry of an object that is not the method's can change freely. *)
Lemma inv_client (v : V) f m' q : epoll_inv None v -> ~ is_registered (mv_objs v) f ->
  (forall m, m' = Some m -> registered m = false) ->
  members q = members (mv_notify v) ->
  (forall g, g <> f -> (g ∈ idle q <-> g ∈ idle (mv_notify v))) -> (f ∈ idle q -> f ∈ idle (mv_notify v)) ->
  epoll_inv None (mk_mv (partial_alter (fun _ => m') f (mv_objs v)) q (mv_method v) (mv_pm v) (mv_w v)).
Proof.
  intros (e&He&[H1 H2 H3 H4 H5 H6 H7 H8]) Hf Hm' Hq Hi Hfi. exists e. split; [done|].
  assert (forall g m, mv_objs v !! g = Some m -> live None g m -> g <> f) as Hlive.
  { intros g m Hg [Hr|?] ->; [|done]. apply Hf. by exists m. }
  assert (forall g m, partial_alter (fun _ => m') f (mv_objs v) !! g = Some m -> live None g m ->
    g <> f /\ mv_objs v !! g = Some m) as Hback.
  { intros g m Hg [Hr|?]; [|done]. destruct (decide (g = f)) as [->|Hne].
    - rewrite lookup_partial_alter_eq in Hg. rewrite (Hm' _ Hg) in Hr. done.
    - by rewrite lookup_partial_alter_ne in Hg. }
  assert (forall g m, mv_objs v !! g = Some m -> live None g m ->
    partial_alter (fun _ => m') f (mv_objs v) !! g = Some m) as Hup.
  { intros g m Hg Hl. rewrite lookup_partial_alter_ne; [done|]. symmetry. eauto. }
  split; cbn; try done.
  - split; rewrite Hq; [apply H2|]. intros x Hx. destruct (H3 _ Hx) as (m&Hm&Hl).
    rewrite Hi by eauto. by apply (iq_apart _ H2).
  - intros g. rewrite Hq. intros Hg. destruct (H3 _ Hg) as (m&Hm&Hl). eauto.
  - intros g m Hg Hl. destruct (Hback _ _ Hg Hl) as [Hne Hg']. rewrite Hq, Hi by done. eauto.
  - intros g m Hg Hr Ho. destruct (Hback g m Hg ltac:(by left)) as [Hne Hg']. rewrite Hq. eauto.
  - intros n g ev Hn. destruct (H6 _ _ _ Hn) as (m&Hm&Hl&?). eauto.
  - intros g m Hg Hl Hb. destruct (Hback _ _ Hg Hl) as [Hne Hg']. eauto.
Qed.

Lemma inv_open (v : V) f : epoll_inv None v -> is_registered (mv_objs v) f -> epoll_inv (Some f) v.
Proof.
  intros (e&He&[H1 H2 H3 H4 H5 H6 H7 H8]) (m0&Hm0&Hr0). exists e. split; [done|].
  assert (forall g m, mv_objs v !! g = Some m -> live (Some f) g m -> registered m = true) as Hl.
  { intros g m Hg [?|[= ->]]; [done|congruence]. }
  split; try done.
  - intros g Hg. destruct (H3 _ Hg) as (m&?&[?|?]); [|done]. exists m. split; [done|by left].
  - intros g m Hg ?. apply (H4 _ _ Hg). left. eauto.
  - intros g m Hg Hr _. eauto.
  - intros n g ev Hn. destruct (H6 _ _ _ Hn) as (m&?&[?|?]&?); [|done]. exists m. split_and!; [done|by left|naive_solver..].
  - intros g m Hg Hlg. apply H7; [done|]. left. eauto.
Qed.

Lemma inv_set (v : V) f m b w : epoll_inv (Some f) v -> mv_objs v !! f = Some m ->
  epoll_inv (Some f) (with_objs (<[f := set_registered b (set_wanted_bands w m)]> (mv_objs v)) v).
Proof.
  intros (e&He&[H1 H2 H3 H4 H5 H6 H7 H8]) Hf. exists e. split; [done|].
  set (m1 := set_registered b (set_wanted_bands w m)).
  split; cbn; try done.
  - intros g Hg. destruct (H3 _ Hg) as (m2&Hm2&Hl). destruct (decide (g = f)) as [->|Hne].
    + exists m1. rewrite lookup_insert_eq. split; [done|by right].
    + exists m2. by rewrite lookup_insert_ne.
  - intros g m2. rewrite lookup_insert. case_decide as E; [subst; intros _ _; apply (H4 _ _ Hf); by right|apply H4].
  - intros g m2. rewrite lookup_insert. case_decide as E; [subst; intros _ _ []; done|apply H5].
  - intros n g ev Hn. destruct (H6 _ _ _ Hn) as (m2&Hm2&Hl&Hrest). destruct (decide (g = f)) as [->|Hne].
    + exists m1. rewrite lookup_insert_eq. assert (m2 = m) as -> by congruence. split_and!; [done|by right|naive_solver..].
    + exists m2. by rewrite lookup_insert_ne.
  - intros g m2. rewrite lookup_insert. case_decide as E; [|apply H7].
    subst. intros [= <-] _ Hb. apply (H7 g m Hf); [by right|done].
Qed.

(** *** System calls *)
Lemma load_es_Ok (s : St) e : pm_u (fs_pm s) = UEpoll e -> load_es s = Ok (e, s).
Proof. intros H. unfold load_es. msimpl. by rewrite H. Qed.

Definition ctl_result (op : ctl_op) (n : Z) (d : edata * Z) (I I' : gmap Z (edata * Z)) (r : sysres unit) : Prop :=
  match r with
  | inl _ => I' = (if decide (op = EPOLL_CTL_DEL) then delete n I else <[n := d]> I) /\
      if decide (op = EPOLL_CTL_ADD) then I !! n = None else is_Some (I !! n)
  | inr _ => I' = I
  end.

Lemma epoll_ctl_spec (s : St) e op n d : pm_u (fs_pm s) = UEpoll e ->
  wp anyf (epoll_ctl op n d) s (fun r s' => exists w', s' = set_fs_w w' s /\
    ctl_result op n d (epoll_interest (epoll_fd e) (fs_w s)) (epoll_interest (epoll_fd e) w') r).
Proof.
  intros He. unfold epoll_ctl. wrun (load_es_Ok _ _ He). wprim.
  apply (retry_spec anyf (fun s1 : St => exists w1, s1 = set_fs_w w1 s /\
      epoll_interest (epoll_fd e) w1 = epoll_interest (epoll_fd e) (fs_w s)) (fun s1 => epoll_signals (fs_w s1))); [| |lia].
  - intros s1 (w1&->&Ei).
    destruct (sys_epoll_ctl (epoll_fd e) op n d w1) as [r w2] eqn:Ec.
    pose proof (el_ctl _ _ _ _ _ _ _ Ec) as Hl. eapply wp_Ok; [by apply kernel_Ok|]. cbv beta.
    destruct r as [[]|er]; [exists w2; split; [done|]; cbn in *; by rewrite <-Ei|].
    destruct Hl as [Hl Hs]. destruct er; try (exists w2; split; [done|cbn; congruence]).
    split; [exists w2; split; [done|congruence]|]. cbn. by apply Hs.
  - exists (fs_w s). by destruct s.
Qed.

(** *** Settling one object *)
Lemma inv_told (v : V) f m q w' e :
  pm_u (mv_pm v) = UEpoll e -> epoll_inv (Some f) v -> mv_objs v !! f = Some m ->
  (registered m = true \/ wanted_bands m = 0) -> registered_bands m <> wanted_bands m ->
  iq_ok q -> f ∉ members q -> f ∈ idle q ->
  (forall g, g <> f -> (g ∈ members q <-> g ∈ members (mv_notify v)) /\ (g ∈ idle q <-> g ∈ idle (mv_notify v))) ->
  ctl_result (if (registered_bands m =? 0) && negb (wanted_bands m =? 0) then EPOLL_CTL_ADD
              else if negb (registered_bands m =? 0) && (wanted_bands m =? 0) then EPOLL_CTL_DEL
              else EPOLL_CTL_MOD) (fd_fd m) (DFd f, epoll_mask (wanted_bands m))
    (epoll_interest (epoll_fd e) (mv_w v)) (epoll_interest (epoll_fd e) w') (inl tt) ->
  epoll_inv None (mk_mv (<[f := set_registered_bands (wanted_bands m) m]> (mv_objs v)) q (mv_method v) (mv_pm v) w').
Proof.
  intros He0 (e'&He&[H1 H2 H3 H4 H5 H6 H7 H8]) Hf Hreg Hne Hq Hfq Hfi Hqg Hctl.
  assert (e' = e) as -> by congruence. exists e. split; [done|].
  set (I := epoll_interest (epoll_fd e) (mv_w v)) in *. set (n := fd_fd m) in *.
  set (w := wanted_bands m) in *. set (m1 := set_registered_bands w m).
  set (I' := epoll_interest (epoll_fd e) w') in *.
  assert (live (Some f) f m) as Hlive by (by right).
  assert (registered_bands m <> 0 -> I !! n = Some (DFd f, epoll_mask (registered_bands m))) as Htold by (intros; by apply H7).
  assert ((w <> 0 -> I' !! n = Some (DFd f, epoll_mask w)) /\ (w = 0 -> I' !! n = None) /\
    (forall k, k <> n -> I' !! k = I !! k) /\ (forall g x, g <> f -> I !! n <> Some (DFd g, x))) as (Hn1&Hn0&Hother&Hmine).
  { cbn in Hctl. destruct (Z.eqb_spec (registered_bands m) 0) as [E0|E0], (Z.eqb_spec w 0) as [Ew|Ew];
      cbn in Hctl; [congruence|..]; destruct Hctl as [-> Hc].
    - split_and!; [intros _; apply lookup_insert_eq|done|intros k Hk; by apply lookup_insert_ne|].
      intros g x _. by rewrite Hc.
    - split_and!; [done|intros _; apply lookup_delete_eq|intros k Hk; by apply lookup_delete_ne|].
      intros g x Hg. rewrite Htold by done. congruence.
    - split_and!; [intros _; apply lookup_insert_eq|done|intros k Hk; by apply lookup_insert_ne|].
      intros g x Hg. rewrite Htold by done. congruence. }
  clear Hctl.
  assert (forall g mg, g <> f -> live (Some f) g mg <-> live None g mg) as Hlg.
  { intros g mg Hg. unfold live. naive_solver. }
  split; cbn; fold I I'; try done.
  - intros g Hg. assert (g <> f) as Hgf by (by intros ->). apply (Hqg g Hgf) in Hg.
    destruct (H3 _ Hg) as (mg&Hmg&Hl). exists mg. rewrite lookup_insert_ne by done. split; [done|by apply Hlg].
  - intros g mg. rewrite lookup_insert. case_decide as E; [subst; intros _ _; by right|].
    intros Hg Hl. assert (g <> f) as Hgf by done. rewrite !(proj1 (Hqg g Hgf)), (proj2 (Hqg g Hgf)).
    apply (H4 _ _ Hg). by apply Hlg.
  - intros g mg. rewrite lookup_insert. case_decide as E; [subst; intros [= <-] _ _; cbn; split; [done|by intros []]|].
    intros Hg Hr _. rewrite (proj1 (Hqg g ltac:(done))). apply H5; [done|done|congruence].
  - intros k g ev Hk. destruct (decide (k = n)) as [->|Hkn].
    + destruct (decide (w = 0)) as [Ew|Ew]; [rewrite Hn0 in Hk by done; done|].
      rewrite Hn1 in Hk by done. injection Hk as <- <-. exists m1. rewrite lookup_insert_eq. split_and!; try done.
      left. cbn. by destruct Hreg.
    + rewrite Hother in Hk by done. destruct (H6 _ _ _ Hk) as (mg&Hmg&Hl&Hfd&Hrest).
      assert (g <> f) as Hgf by (intros ->; assert (mg = m) as -> by congruence; done).
      exists mg. rewrite lookup_insert_ne by done. split_and!; [done|by apply Hlg|naive_solver..].
  - intros g mg. rewrite lookup_insert. case_decide as E; [subst; intros [= <-] _ Hb; by apply Hn1|].
    intros Hg Hl Hb. assert (I !! fd_fd mg = Some (DFd g, epoll_mask (registered_bands mg))) as HI.
    { apply H7; [done|by apply Hlg|done]. }
    rewrite Hother; [done|]. intros Hk. rewrite Hk in HI. by eapply Hmine.
  - intros k ev Hk. apply (H8 k ev). destruct (decide (k = n)) as [->|Hkn]; [|by rewrite <-Hother].
    destruct (decide (w = 0)) as [Ew|Ew]; [rewrite Hn0 in Hk by done; done|rewrite Hn1 in Hk by done; done].
Qed.

(** Only the place of [f] on the notify list, and unrelated kernel state, change. *)
Lemma inv_relist o (v : V) f m q w' e :
  pm_u (mv_pm v) = UEpoll e -> epoll_inv (Some f) v -> mv_objs v !! f = Some m ->
  epoll_interest (epoll_fd e) w' = epoll_interest (epoll_fd e) (mv_w v) ->
  iq_ok q -> f ∈ members q \/ f ∈ idle q ->
  (forall g, g <> f -> (g ∈ members q <-> g ∈ members (mv_notify v)) /\ (g ∈ idle q <-> g ∈ idle (mv_notify v))) ->
  o = Some f \/ (o = None /\ (registered m = true /\ (f ∈ members q <-> registered_bands m <> wanted_bands m) \/
                              registered m = false /\ registered_bands m = 0 /\ f ∉ members q)) ->
  epoll_inv o (mk_mv (mv_objs v) q (mv_method v) (mv_pm v) w').
Proof.
  intros He0 (e'&He&[H1 H2 H3 H4 H5 H6 H7 H8]) Hf Hi Hq Hfq Hqg Ho.
  assert (e' = e) as -> by congruence. exists e. split; [done|].
  assert (forall g mg, mv_objs v !! g = Some mg -> live o g mg -> live (Some f) g mg) as Hweak.
  { intros g mg Hg [Hr|Hl]; [by left|]. destruct Ho as [-> | [-> _]]; [by right|done]. }
  assert (forall g mg, g <> f -> live (Some f) g mg -> live o g mg) as Hstr.
  { intros g mg Hg [Hr|Hl]; [by left|congruence]. }
  assert (forall mf, mv_objs v !! f = Some mf -> registered_bands mf <> 0 \/ f ∈ members q -> live o f mf) as Hlf.
  { intros mf Hmf Hor. assert (mf = m) as -> by congruence.
    destruct Ho as [-> | [-> [[Hr _]|(Hr&Hb&Hm)]]]; [by right|by left|naive_solver]. }
  split; cbn; try done; rewrite ?Hi; try done.
  - intros g Hg. destruct (decide (g = f)) as [->|Hgf]; [exists m; split; [done|apply Hlf; auto]|].
    apply (Hqg g Hgf) in Hg. destruct (H3 _ Hg) as (mg&?&?). exists mg. auto.
  - intros g mg Hg Hl. destruct (decide (g = f)) as [->|Hgf]; [done|].
    rewrite (proj1 (Hqg g Hgf)), (proj2 (Hqg g Hgf)). eauto.
  - intros g mg Hg Hr Hog. destruct (decide (g = f)) as [->|Hgf].
    + assert (mg = m) as -> by congruence. destruct Ho as [-> | [-> [[_ ?]|(Hr'&_)]]]; [done|done|congruence].
    + rewrite (proj1 (Hqg g Hgf)). apply H5; [done|done|congruence].
  - intros n g ev Hn. destruct (H6 _ _ _ Hn) as (mg&Hmg&Hl&Hfd&Hb&Hev). exists mg. split_and!; try done.
    destruct (decide (g = f)) as [->|Hgf]; auto.
  - intros g mg Hg Hl Hb. apply H7; eauto.
Qed.

(** [iv_list_del_init(&fd->list_notify)] finds the cell of an object of the method. *)
Lemma notify_linked (s : St) f o : epoll_inv (Some f) (mv s) -> fs_fds s !! f = Some o ->
  exists q, iq_del_init f (fs_notify s) = Some q /\ iq_ok (fs_notify s).
Proof.
  intros (e&_&Hi) Hf. pose proof (ei_linked _ _ _ Hi f _ (mv_lookup _ _ _ Hf) ltac:(by right)) as Hl. cbn in Hl.
  unfold iq_del_init. destruct (decide (f ∈ members (fs_notify s))); [eexists; split; [done|apply Hi]|].
  rewrite decide_True by naive_solver. eexists. split; [done|apply Hi].
Qed.

(** *** The operations *)
Lemma inv_union o (s : St) : epoll_inv o (mv s) -> exists e, pm_u (fs_pm s) = UEpoll e.
Proof. intros (e&He&_). by exists e. Qed.

Lemma flush_one_spec (s : St) f o : epoll_inv (Some f) (mv s) -> fs_fds s !! f = Some o ->
  registered o = true \/ wanted_bands o = 0 ->
  wp anyf (__iv_fd_epoll_flush_one f) s (fun r s' => quiet s s' /\ fs_method s' = fs_method s /\
    pm_u (fs_pm s') = pm_u (fs_pm s) /\
    members (fs_notify s') = remove f (members (fs_notify s)) /\ f ∉ members (fs_notify s') /\
    exists o', fs_fds s' !! f = Some o' /\ match r with
    | inl _ => epoll_inv None (mv s') /\ registered_bands o' = wanted_bands o'
    | inr _ => epoll_inv (Some f) (mv s') /\ registered_bands o' = registered_bands o
    end).
Proof.
  intros Hi Hf Hr. unfold __iv_fd_epoll_flush_one.
  destruct (notify_linked s f o Hi Hf) as (q&Hq&Hqok). destruct (relist_del_init _ _ _ Hqok Hq) as (Hqok'&Hfq&Hfi&Hqg).
  destruct (inv_union _ _ Hi) as [e He].
  assert (members q = remove f (members (fs_notify s))) as Emq.
  { clear -Hq. unfold iq_del_init in Hq. repeat case_decide; simplify_eq; cbn; [done|by rewrite remove_notin]. }
  wrun (on_notify_Ok s _ _ Hq). set (s1 := set_fs_notify q s).
  wrun (load_fd_Ok s1 f o Hf). destruct (Z.eqb_spec (registered_bands o) (wanted_bands o)) as [Eb|Eb].
  - eapply wp_Ok; [reflexivity|]. split_and!; try done. exists o. split_and!; try done.
    apply (inv_relist None (mv s) f (meth_obj o) q (fs_w s) e); try done.
    + by apply mv_lookup.
    + by right.
    + right. split; [done|]. cbn. destruct (registered o); [left|right]; split_and!; try done.
      destruct Hr as [?|Hr]; [done|congruence].
  - wbind. eapply wp_mono; [by apply (epoll_ctl_spec s1 e)|]. cbv beta. intros r s2 (w'&->&Hc).
    destruct r as [[]|er]; cbn [failed negb when].
    + wbind. eapply wp_Ok; [by apply (upd_fd_Ok (set_fs_w w' s1) f o)|]. eapply wp_Ok; [reflexivity|].
      split_and!; try done; [by apply (quiet_upd (set_fs_w w' s1) f o)|].
      eexists. split; [apply lookup_upd_eq|]. split; [|done].
      rewrite mv_upd. exact (inv_told (mv s) f (meth_obj o) q w' e He Hi (mv_lookup _ _ _ Hf) Hr Eb Hqok' Hfq Hfi Hqg Hc).
    + wprim. eapply wp_Ok; [reflexivity|]. split_and!; try done. exists o. split_and!; try done.
      apply (inv_relist (Some f) (mv s) f (meth_obj o) q w' e); try done; [by apply mv_lookup|by right|by left].
Qed.

Lemma notify_spec (s : St) f o : epoll_inv (Some f) (mv s) -> fs_fds s !! f = Some o ->
  wp anyf (iv_fd_epoll_notify_fd f) s (fun _ s' => quiet s s' /\ fs_method s' = fs_method s /\
    fs_fds s' = fs_fds s /\ epoll_inv (Some f) (mv s') /\
    (f ∈ members (fs_notify s') <-> registered_bands o <> wanted_bands o) /\
    (registered o = true -> epoll_inv None (mv s'))).
Proof.
  intros Hi Hf. unfold iv_fd_epoll_notify_fd. destruct (inv_union _ _ Hi) as [e He].
  destruct (notify_linked s f o Hi Hf) as (q&Hq&Hqok). destruct (relist_del_init _ _ _ Hqok Hq) as (Hqok'&Hfq&Hfi&Hqg).
  wrun (on_notify_Ok s _ _ Hq). set (s1 := set_fs_notify q s). wrun (load_fd_Ok s1 f o Hf).
  pose proof (mv_lookup _ _ _ Hf) as Hm.
  destruct (Z.eqb_spec (registered_bands o) (wanted_bands o)) as [Eb|Eb]; cbn [negb when].
  - eapply wp_Ok; [reflexivity|]. split_and!; try done.
    + by apply (inv_relist (Some f) (mv s) f (meth_obj o) q (fs_w s) e); auto.
    + intros Hr. apply (inv_relist None (mv s) f (meth_obj o) q (fs_w s) e); auto.
      right. split; [done|]. left. split; [done|]. cbn. split; [done|by intros []].
  - destruct (iq_add_tail f q) as [q2|] eqn:Hq2; [|unfold iq_add_tail in Hq2; by case_decide].
    destruct (relist_add_tail _ _ _ Hqok' Hq2) as (Hq2ok&Hf2&Hqg2).
    assert (forall g, g <> f -> (g ∈ members q2 <-> g ∈ members (fs_notify s)) /\ (g ∈ idle q2 <-> g ∈ idle (fs_notify s))) as Hg.
    { intros g Hgf. destruct (Hqg g Hgf), (Hqg2 g Hgf). tauto. }
    eapply wp_Ok; [by apply (on_notify_Ok s1)|]. split_and!; try done.
    + apply (inv_relist (Some f) (mv s) f (meth_obj o) q2 (fs_w s) e); auto.
    + intros Hr. apply (inv_relist None (mv s) f (meth_obj o) q2 (fs_w s) e); auto.
      right. split; [done|]. left. split; [done|]. cbn. tauto.
Qed.

Lemma drop_inv (v : V) f m : epoll_inv (Some f) v -> mv_objs v !! f = Some m -> registered m = false ->
  registered_bands m = 0 -> f ∉ members (mv_notify v) -> epoll_inv None v.
Proof.
  intros Hi Hf Hr Hb Hm. assert (exists e, pm_u (mv_pm v) = UEpoll e) as [e He] by (destruct Hi as (e&?&?); by exists e).
  assert (epoll_inv None (mk_mv (mv_objs v) (mv_notify v) (mv_method v) (mv_pm v) (mv_w v))) as H; [|by destruct v].
  apply (inv_relist None v f m (mv_notify v) (mv_w v) e); try done.
  - destruct Hi as (?&_&Hi). apply Hi.
  - destruct Hi as (?&_&Hi). apply (ei_linked _ _ _ Hi f m Hf). by right.
  - right. auto.
Qed.

Lemma unregister_fd_spec (s : St) f o : epoll_inv (Some f) (mv s) -> fs_fds s !! f = Some o ->
  registered o = false -> wanted_bands o = 0 ->
  (f ∈ members (fs_notify s) <-> registered_bands o <> wanted_bands o) ->
  wp anyf (iv_fd_epoll_unregister_fd f) s (fun _ s' => quiet s s' /\ epoll_inv None (mv s')).
Proof.
  intros Hi Hf Hr Hw Hm. unfold iv_fd_epoll_unregister_fd. wprim.
  destruct (decide (f ∈ members (fs_notify s))) as [Hin|Hin].
  - unfold iq_unlinked. rewrite decide_True by done. wprim. cbn [negb when].
    unfold iv_fd_epoll_flush_one. wbind. eapply wp_mono; [eapply flush_one_spec; eauto|].
    cbv beta. intros r s' (Hq&_&_&_&_&o'&Ho'&Hres). destruct r as [[]|er]; cbn [failed]; [|done].
    eapply wp_Ok; [reflexivity|]. by destruct Hres.
  - assert (f ∈ idle (fs_notify s)) as Hid.
    { destruct Hi as (e&_&Hi). destruct (ei_linked _ _ _ Hi f _ (mv_lookup _ _ _ Hf)) as [?|?]; [by right|done|done]. }
    unfold iq_unlinked. rewrite decide_False, decide_True by done. wprim. cbn [negb when].
    eapply wp_Ok; [reflexivity|]. split; [done|]. eapply drop_inv; [done|by apply mv_lookup|done| |done].
    cbn. destruct (decide (registered_bands o = wanted_bands o)); [congruence|]. exfalso. tauto.
Qed.

(** *** The epoll methods are poll methods *)
Context (clock_gettime : nat -> clockid -> option timespec) (gettimeofday : nat -> Z * Z).
Context (rp : M St unit) (method_of : method_name -> iv_fd_poll_method St).
Context (Hep : method_of MEpoll = iv_fd_poll_method_epoll clock_gettime gettimeofday rp).
Context (Het : method_of MEpollTimerfd = iv_fd_poll_method_epoll_timerfd clock_gettime gettimeofday rp).

(** Both methods differ only in polling. *)
Lemma run_method {A} (op : iv_fd_poll_method St -> M St A) (s : St) o Q :
  epoll_inv o (mv s) ->
  op (method_of MEpoll) = op (method_of MEpollTimerfd) ->
  wp anyf (op (method_of MEpoll)) s Q -> wp anyf (m ← the_method method_of; op m) s Q.
Proof.
  intros (e&_&Hi) E H. destruct (ei_method _ _ _ Hi) as [Em|Em]; cbn in Em.
  - by wrun (the_method_Ok method_of s _ Em).
  - wrun (the_method_Ok method_of s _ Em). by rewrite <-E.
Qed.

#[global] Instance epoll_poll_method : PollMethod method_of epoll_inv epoll_can epoll_can_reg epoll_unknown.
Proof.
  split.
  - intros o v w' Hi Hk. apply inv_w; [|done]. intros n d ev e _ _. by rewrite (el_core _ _ _ Hk).
  - intros v f (e&_&Hi) Hf. destruct (ei_members _ _ _ Hi f Hf) as (m&?&[?|?]); [by exists m|done].
  - intros v f m' q. apply inv_client.
  - apply inv_open.
  - apply inv_set.
  - intros v f m b w [Hm Hb] Hf. split; [done|]. cbn. rewrite lookup_insert_eq. intros m' [= <-]. by apply (Hb m).
  - intros s v f m q w Hi Hf _ Hr Hb Hq Emv.
    assert (epoll_inv (Some f) (mv s) /\ epoll_unknown (mv s) f) as [Hi' Hu'].
    { rewrite Emv. destruct Hi as (e&He&[H1 H2 H3 H4 H5 H6 H7 H8]). 
      assert (f ∉ members (mv_notify v)) as Hfm.
      { intros Hin. destruct (H3 _ Hin) as (m0&?&[?|?]); [|done]. apply Hf. by exists m0. }
      pose proof (iq_init_ok _ _ _ H2 Hq) as Hqok. unfold iq_init in Hq. rewrite decide_False in Hq by done.
      injection Hq as <-.
      split; [|split; cbn; [done|rewrite lookup_insert_eq; by intros ? [= <-]]]. exists e. split; [done|].
      assert (forall g mg, mv_objs v !! g = Some mg -> live None g mg -> g <> f) as Hlg.
      { intros g mg Hg [Hrg|?] ->; [|done]. apply Hf. by exists mg. }
      split; cbn; try done.
      - intros g Hg. destruct (H3 _ Hg) as (mg&Hmg&Hl). exists mg.
        rewrite lookup_insert_ne by (symmetry; eauto). split; [done|]. destruct Hl; [by left|done].
      - intros g mg. rewrite lookup_insert. case_decide as E; [subst; intros _ _; right; set_solver|].
        intros Hg [Hl|Hl]; [|congruence]. destruct (H4 _ _ Hg ltac:(by left)); [by left|right; set_solver].
      - intros g mg. rewrite lookup_insert. case_decide as E; [subst; intros _ _ []; done|].
        intros Hg Hrg _. by apply H5.
      - intros n g ev Hn. destruct (H6 _ _ _ Hn) as (mg&Hmg&Hl&?). exists mg.
        rewrite lookup_insert_ne by (symmetry; eauto). split_and!; [done|destruct Hl; [by left|done]|naive_solver..].
      - intros g mg. rewrite lookup_insert. case_decide as E; [subst; intros [= <-] _ Hbm; done|].
        intros Hg [Hl|Hl] Hbm; [|congruence]. apply H7; [done|by left|done]. }
    unfold method_register. apply (run_method (fun m => match pm_register_fd m with
      Some register_fd => register_fd f | None => mret tt end) s (Some f)); [done|by rewrite Hep, Het|].
    rewrite Hep. cbn [pm_register_fd iv_fd_poll_method_epoll]. eapply wp_Ok; [reflexivity|].
    split_and!; [done|done|done|]. exists m. rewrite Emv. cbn. by rewrite lookup_insert_eq.
  - intros s f m Hi Hf _ Hr. apply mv_lookup_inv in Hf as (o&Ho&->).
    apply (run_method (fun m => pm_notify_fd m f) s (Some f)); [done|by rewrite Hep, Het|].
    rewrite Hep. cbn [pm_notify_fd iv_fd_poll_method_epoll]. eapply wp_mono; [by eapply notify_spec|].
    cbv beta. intros _ s' (?&_&_&_&_&Hn). eauto.
  - intros s f m Hi Hf _ Hr Hw. apply mv_lookup_inv in Hf as (o&Ho&->). wbind.
    apply (run_method (fun m => pm_notify_fd m f) s (Some f)); [done|by rewrite Hep, Het|].
    rewrite Hep. cbn [pm_notify_fd iv_fd_poll_method_epoll]. eapply wp_mono; [by eapply notify_spec|].
    cbv beta. intros _ s' (Hq&_&Ef&Hi'&Hm&_). unfold method_unregister.
    apply (run_method (fun m => match pm_unregister_fd m with
      Some u => u f | None => mret tt end) s' (Some f)); [done|by rewrite Hep, Het|].
    rewrite Hep. cbn [pm_unregister_fd iv_fd_poll_method_epoll].
    eapply wp_mono; [apply (unregister_fd_spec s' f o); [done|by rewrite Ef|done..]|].
    cbv beta. intros _ s2 [Hq2 Hi2]. split; [by eapply quiet_trans|done].
  - intros s f m Hi Hf Hr Hw [Hu1 Hu2]. apply mv_lookup_inv in Hf as (o&Ho&->).
    apply (run_method (fun m => pm_notify_fd_sync m f) s (Some f)); [done|by rewrite Hep, Het|].
    rewrite Hep. cbn [pm_notify_fd_sync iv_fd_poll_method_epoll]. unfold iv_fd_epoll_notify_fd_sync.
    wbind. eapply wp_mono; [apply (flush_one_spec s f o); [done|done|by left]|].
    cbv beta. intros r s' (Hq&_&_&_&Hm&o'&Ho'&Hres). eapply wp_Ok; [reflexivity|]. split; [done|].
    destruct r as [[]|er]; cbn [failed].
    + rewrite decide_True by done. destruct Hres as [Hi' _]. split; [done|]. exists (meth_obj o').
      split; [by apply mv_lookup|done].
    + rewrite decide_False by done. destruct Hres as [Hi' Hb]. split; [done|]. split; [done|].
      intros m' Hm'. apply mv_lookup_inv in Hm' as (o2&Ho2&->). cbn. rewrite Ho2 in Ho'. injection Ho' as ->.
      rewrite Hb. apply (Hu2 (meth_obj o)). by apply mv_lookup.
  - intros s f m Hi Hf Hr [Hu1 Hu2]. pose proof (Hu2 _ Hf) as Hb. pose proof Hf as Hf'. apply mv_lookup_inv in Hf as (o&Ho&->).
    unfold method_unregister.
    apply (run_method (fun m => match pm_unregister_fd m with
      Some u => u f | None => mret tt end) s (Some f)); [done|by rewrite Hep, Het|].
    rewrite Hep. cbn [pm_unregister_fd iv_fd_poll_method_epoll]. unfold iv_fd_epoll_unregister_fd. wprim.
    assert (f ∈ idle (fs_notify s)) as Hid.
    { destruct Hi as (e&_&Hi). destruct (ei_linked _ _ _ Hi f _ Hf') as [?|?]; [by right|done|done]. }
    unfold iq_unlinked. rewrite decide_False, decide_True by done. wprim. cbn [negb when].
    eapply wp_Ok; [reflexivity|]. split; [done|]. by eapply drop_inv.
Qed.

(** *** Polling *)
Abbreviation ok := (fd_ok (inv := epoll_inv)).

(** Conversions of deadlines always succeed. *)
Lemma flush_loop_spec fuel (s : St) : ok s -> (length (members (fs_notify s)) < fuel)%nat ->
  wp anyf (flush_loop fuel) s (fun _ s' => ok s' /\ quiet s s' /\ fs_method s' = fs_method s /\
    pm_u (fs_pm s') = pm_u (fs_pm s) /\ members (fs_notify s') = []).
Proof.
  revert s. induction fuel as [|fuel IH]; intros s Hok Hlen; [lia|]. cbn [flush_loop]. wprim.
  destruct (members (fs_notify s)) as [|f r] eqn:Hm; [by eapply wp_Ok|].
  destruct Hok as [Hc Hi]. pose proof Hi as (e&_&Hie).
  destruct (ei_members _ _ _ Hie f) as (m&Hf&[Hr|?]); [cbn; rewrite Hm; set_solver| |done].
  apply mv_lookup_inv in Hf as (o&Ho&->).
  unfold iv_fd_epoll_flush_one. wbind. wbind.
  eapply wp_mono; [apply (flush_one_spec s f o); [|done|by left]|].
  { apply inv_open; [done|]. apply is_registered_meth. by exists o. }
  cbv beta. intros res s1 (Hq&Hme&Hpu&Hms&_&o'&_&Hres). destruct res as [[]|er]; cbn [failed]; [|done].
  eapply wp_Ok; [reflexivity|]. cbv beta. destruct Hres as [Hi1 _].
  pose proof (fd_ok_quiet s s1 (conj Hc Hi) Hq Hi1) as Hok1.
  eapply wp_mono; [apply IH; [done|]|].
  - rewrite Hms, Hm. pose proof (iq_nodup _ (ei_notify _ _ _ Hie)) as Hnd. cbn in Hnd. rewrite Hm in Hnd.
    assert (remove f (f :: r) = r) as -> by (apply (remove_split [] f r); exact Hnd). cbn in Hlen. lia.
  - cbv beta. intros _ s2 (Hok2&Hq2&Hme2&Hpu2&Hm2). split_and!; [done|by eapply quiet_trans|congruence|congruence|done].
Qed.

(** What a wait returns refers to registered objects. *)
Definition batch_ok (s : St) (l : list (edata * Z)) : Prop := forall d ev, (d, ev) ∈ l ->
  match d with
  | DFd f => is_registered (fs_fds s) f
  | DTime => fs_method s = Some MEpollTimerfd
  | DState => True
  end.

Lemma batch_interest (s : St) e l : epoll_inv_at e None (mv s) ->
  (forall d ev, (d, ev) ∈ l -> exists n ev', epoll_interest (epoll_fd e) (fs_w s) !! n = Some (d, ev')) ->
  batch_ok s l.
Proof.
  intros Hi Hl d ev Hin. destruct (Hl _ _ Hin) as (n&ev'&Hn). destruct d as [f| |]; [| done|].
  - destruct (ei_kernel _ _ _ Hi _ _ _ Hn) as (m&Hm&[Hr|?]&_); [|done].
    apply is_registered_meth. by exists m.
  - by destruct (ei_timer _ _ _ Hi _ _ Hn).
Qed.

Lemma ok_kernel (s : St) w' : ok s ->
  (forall n d ev e, pm_u (fs_pm s) = UEpoll e -> d <> DState ->
     (epoll_interest (epoll_fd e) w' !! n = Some (d, ev) <-> epoll_interest (epoll_fd e) (fs_w s) !! n = Some (d, ev))) ->
  ok (set_fs_w w' s).
Proof. intros [Hc Hi] Hw. split; [done|]. by apply (inv_w None (mv s) w'). Qed.

Lemma ok_static (s : St) g : ok s -> ok (set_fs_pm (set_pm_static g (fs_pm s)) s).
Proof.
  intros [Hc (e&He&[H1 H2 H3 H4 H5 H6 H7 H8])]. split; [done|]. exists e. split; [done|]. by split.
Qed.

Lemma wait_spec max abs (s : St) : ok s ->
  wp anyf (iv_fd_epoll_wait clock_gettime gettimeofday max abs) s (fun r s' => ok s' /\ quiet s s' /\
    fs_method s' = fs_method s /\ match r with inl l => batch_ok s' l /\ (length l <= Z.to_nat max)%nat | inr _ => True end).
Proof.
  intros Hok. pose proof Hok as [Hc (e&He&_)]. change (pm_u (fs_pm s) = UEpoll e) in He. unfold iv_fd_epoll_wait. wrun (load_es_Ok s e He).
  unfold gets_static. wprim. cbv zeta. wbind.
  eapply (wp_mono _ _ _ (fun r s1 => ok s1 /\ quiet s s1 /\ fs_method s1 = fs_method s /\ pm_u (fs_pm s1) = UEpoll e /\
    match r with Some (inl l) => batch_ok s1 l /\ (length l <= Z.to_nat max)%nat | _ => True end)).
  - destruct (epoll_pwait2_support _); [|by eapply wp_Ok; [reflexivity|]].
    destruct (on_to_relative clock_gettime gettimeofday abs s) as (rel&t'&Er).
    wrun Er. set (s1 := set_fs_timer t' s). assert (ok s1) as Hok1 by exact Hok.
    destruct (sys_epoll_pwait2 (epoll_fd e) max rel (fs_w s1)) as [r w'] eqn:Ek.
    wrun (kernel_Ok _ s1 r w' Ek). pose proof (el_pwait2 _ _ _ _ _ _ Ek) as [Hw Hl].
    assert (ok (set_fs_w w' s1)) as Hok2.
    { apply ok_kernel; [done|]. intros n d ev e0 He0 Hd. assert (e0 = e) as -> by (change (pm_u (fs_pm s) = UEpoll e0) in He0; congruence). by apply Hw. }
    assert (forall x : sysres (list (edata * Z)), (forall l, x = inl l -> r = inl l) -> 
      wp anyf (mret (Some x) : M St _) (set_fs_w w' s1) (fun r s1 => ok s1 /\ quiet s s1 /\ fs_method s1 = fs_method s /\ pm_u (fs_pm s1) = UEpoll e /\
    match r with Some (inl l) => batch_ok s1 l /\ (length l <= Z.to_nat max)%nat | _ => True end)) as Hret.
    { intros x Hx. eapply wp_Ok; [reflexivity|]. split_and!; try done. destruct x as [l|]; [|done].
      rewrite (Hx l eq_refl) in Hl. destruct Hl as [Hlen Hl]. split; [|done].
      destruct Hok1 as [_ (e1&He1&Hi1)]. assert (e1 = e) as -> by (change (pm_u (fs_pm s) = UEpoll e1) in He1; congruence).
      exact (batch_interest s1 e l Hi1 Hl). }
    destruct r as [l|[]]; try (by apply Hret); unfold upd_static; wprim; (eapply wp_Ok; [reflexivity|]);
      (split_and!; [by apply (ok_static (set_fs_w w' s1))|done..]).
  - intros first s1 (Hok1&Hq1&Hm1&Hu1&Hf). destruct first as [r|].
    { eapply wp_Ok; [reflexivity|]. by split_and!. }
    destruct (on_to_msec clock_gettime gettimeofday abs s1) as (msec&t'&Er).
    wrun Er. set (s2 := set_fs_timer t' s1). assert (ok s2) as Hok2 by exact Hok1.
    destruct (sys_epoll_wait (epoll_fd e) max msec (fs_w s2)) as [r w'] eqn:Ek.
    eapply wp_Ok; [by apply kernel_Ok|]. pose proof (el_wait _ _ _ _ _ _ Ek) as [Hw Hl].
    split_and!; [|done|done|].
    + apply ok_kernel; [done|]. intros n d ev e0 He0 Hd. assert (e0 = e) as -> by (change (pm_u (fs_pm s1) = UEpoll e0) in He0; congruence). by apply Hw.
    + destruct r as [l|]; [|done]. destruct Hl as [Hlen Hl]. split; [|done].
      destruct Hok2 as [_ (e1&He1&Hi1)]. assert (e1 = e) as -> by (change (pm_u (fs_pm s1) = UEpoll e1) in He1; congruence).
      exact (batch_interest s2 e l Hi1 Hl).
Qed.

Lemma make_ready_events_spec f ev (s : St) : ok s -> is_registered (fs_fds s) f ->
  wp anyf (make_ready_events f ev) s (fun _ s' => reported (inv := epoll_inv) s s').
Proof.
  intros Hok Hf. by apply make_ready3_spec.
Qed.

Lemma batch_ok_mono (s s' : St) l x : batch_ok s (x :: l) -> mv s' = mv s -> batch_ok s' l.
Proof.
  intros H E d ev Hin. specialize (H d ev ltac:(by right)). destruct d as [f| |]; [|done|].
  - by eapply reported_registered.
  - pose proof (f_equal mv_method E) as Em. cbn in Em. by rewrite Em.
Qed.

Lemma epoll_batch_spec l b (s : St) : ok s -> batch_ok s l -> fs_method s = Some MEpoll ->
  wp anyf (epoll_batch l b) s (fun _ s' => reported (inv := epoll_inv) s s').
Proof.
  revert b s. induction l as [|[d ev] l IH]; intros b s Hok Hl Hm; [by eapply wp_Ok; [reflexivity|]|].
  pose proof (Hl d ev ltac:(by left)) as Hd. destruct d as [f| |]; cbn [epoll_batch].
  - wbind. eapply wp_mono; [by apply make_ready_events_spec|]. cbv beta. intros _ s1 H1. pose proof H1 as (Hok1&_&_&E1).
    eapply wp_mono; [apply IH; [done|by eapply batch_ok_mono|]|].
    { pose proof (f_equal mv_method E1) as Em. cbn in Em. congruence. }
    cbv beta. intros _ s2 H2. by eapply reported_trans.
  - apply IH; [done| |done]. by eapply batch_ok_mono.
  - congruence.
Qed.

Lemma epoll_timerfd_batch_spec l b1 b2 (s : St) : ok s -> batch_ok s l ->
  wp anyf (epoll_timerfd_batch l b1 b2) s (fun _ s' => ok s' /\ fs_handled s' = fs_handled s /\ fs_ran s' = fs_ran s).
Proof.
  revert b1 b2 s. induction l as [|[d ev] l IH]; intros b1 b2 s Hok Hl; [by eapply wp_Ok; [reflexivity|]|].
  pose proof (Hl d ev ltac:(by left)) as Hd. destruct d as [f| |]; cbn [epoll_timerfd_batch].
  - wbind. eapply wp_mono; [by apply make_ready_events_spec|]. cbv beta. intros _ s1 (Hok1&Eh&Er&E1).
    eapply wp_mono; [apply IH; [done|by eapply batch_ok_mono]|].
    cbv beta. intros _ s2 (?&?&?). split_and!; [done|congruence..].
  - apply IH; [done|]. by eapply batch_ok_mono.
  - pose proof Hok as [Hc (e&He&_)]. change (pm_u (fs_pm s) = UEpoll e) in He. wrun (load_es_Ok s e He).
    destruct (sys_timerfd_read (timer_fd e) (fs_w s)) as [r w'] eqn:Ek. wrun (kernel_Ok _ s r w' Ek).
    destruct (failed r); [done|].
    eapply wp_mono; [apply (IH true b2 (set_fs_w w' s))|].
    + apply ok_kernel; [done|]. intros n d ev0 e0 _ _. replace w' with (sys_timerfd_read (timer_fd e) (fs_w s)).2 by (by rewrite Ek).
      by rewrite el_read.
    + intros d ev0 Hin. specialize (Hl d ev0 ltac:(by right)). by destruct d.
    + cbv beta. intros _ s2 (?&?&?). done.
Qed.

Context (Hrp : forall s, ok s -> wp anyf rp s (fun _ s' => polled (inv := epoll_inv) s s')).

Lemma epoll_poll_spec abs (s : St) : ok s -> fs_method s = Some MEpoll ->
  wp anyf (iv_fd_epoll_poll clock_gettime gettimeofday rp abs) s (fun _ s' => polled (inv := epoll_inv) s s').
Proof.
  intros Hok Hm. unfold iv_fd_epoll_poll. wprim. cbv zeta. unfold iv_fd_epoll_flush_pending.
  apply wp_assoc. wprim. wbind. eapply wp_mono; [apply flush_loop_spec; [done|lia]|].
  cbv beta. intros _ s1 (Hok1&Hq1&Hm1&_&_). wbind. eapply wp_mono; [by apply wait_spec|].
  cbv beta. intros r s2 (Hok2&Hq2&Hm2&Hr). wrun (invalidate_Ok s2).
  set (s3 := set_fs_timer _ s2). assert (ok s3) as Hok3 by exact Hok2.
  destruct (quiet_fields _ _ Hq1) as (_&Eh1&Er1). destruct (quiet_fields _ _ Hq2) as (_&Eh2&Er2).
  destruct r as [l|[]]; try done.
  - destruct Hr as [Hr _]. wbind. eapply wp_mono; [apply epoll_batch_spec; [done|exact Hr|]|].
    { change (fs_method s2 = Some MEpoll). congruence. }
    cbv beta. intros b s4 (Hok4&Eh4&Er4&_). apply (run_pending_if rp Hrp); [done| |].
    + rewrite Eh4. change (fs_handled s2 = fs_handled s). congruence.
    + rewrite Er4. change (fs_ran s2 = fs_ran s). congruence.
  - eapply wp_Ok; [reflexivity|]. apply polled_nothing; [done| |].
    + change (fs_handled s2 = fs_handled s). congruence.
    + change (fs_ran s2 = fs_ran s). congruence.
Qed.

Lemma epoll_timerfd_poll_spec abs (s : St) : ok s ->
  wp anyf (iv_fd_epoll_timerfd_poll clock_gettime gettimeofday rp abs) s (fun _ s' => polled (inv := epoll_inv) s s').
Proof.
  intros Hok. unfold iv_fd_epoll_timerfd_poll. wprim. unfold iv_fd_epoll_flush_pending.
  apply wp_assoc. wprim. wbind. eapply wp_mono; [apply flush_loop_spec; [done|lia]|].
  cbv beta. intros _ s1 (Hok1&Hq1&Hm1&_&_). cbv zeta. wbind. eapply wp_mono; [by apply wait_spec|].
  cbv beta. intros r s2 (Hok2&Hq2&Hm2&Hr). wrun (invalidate_Ok s2).
  set (s3 := set_fs_timer _ s2). assert (ok s3) as Hok3 by exact Hok2.
  destruct (quiet_fields _ _ Hq1) as (_&Eh1&Er1). destruct (quiet_fields _ _ Hq2) as (_&Eh2&Er2).
  destruct r as [l|[]]; try done.
  - destruct Hr as [Hr _]. wbind. eapply wp_mono; [apply epoll_timerfd_batch_spec; [done|exact Hr]|].
    cbv beta. intros [b1 b2] s4 (Hok4&Eh4&Er4). apply (run_pending_if rp Hrp); [done| |].
    + rewrite Eh4. change (fs_handled s2 = fs_handled s). congruence.
    + rewrite Er4. change (fs_ran s2 = fs_ran s). congruence.
  - eapply wp_Ok; [reflexivity|]. apply polled_nothing; [done| |].
    + change (fs_handled s2 = fs_handled s). congruence.
    + change (fs_ran s2 = fs_ran s). congruence.
Qed.

Lemma timerfd_create_spec (s : St) e : ok s -> pm_u (fs_pm s) = UEpoll e -> timer_fd e = -1 ->
  fs_method s = Some MEpollTimerfd ->
  wp anyf iv_fd_epoll_timerfd_create s (fun b s' => quiet s s' /\ ok s' /\ fs_method s' = fs_method s /\
    exists e', pm_u (fs_pm s') = UEpoll e' /\ if b then timer_fd e' <> -1 else timer_fd e' = -1).
Proof.
  intros Hok He Ht Hm. unfold iv_fd_epoll_timerfd_create.
  destruct (sys_timerfd_create (fs_w s)) as [r w'] eqn:Ek. wrun (kernel_Ok _ s r w' Ek).
  assert (ok (set_fs_w w' s)) as Hok1.
  { apply ok_kernel; [done|]. intros n d ev e0 _ _. by rewrite (el_timerfd _ _ _ _ Ek). }
  destruct r as [n|[]]; try done; [|by eapply wp_Ok; [reflexivity|]; split_and!; eauto].
  pose proof (el_timerfd_fd _ _ _ Ek) as Hn.
  wrun (load_es_Ok (set_fs_w w' s) e He). wprim.
  set (e' := set_timer_fd n e). set (s1 := set_fs_pm (set_pm_u (UEpoll e') (fs_pm (set_fs_w w' s))) (set_fs_w w' s)).
  assert (epoll_inv_at e' None (mv s1)) as Hi1.
  { destruct Hok1 as [_ (e0&He0&[H1 H2 H3 H4 H5 H6 H7 H8])].
    change (pm_u (fs_pm s) = UEpoll e0) in He0. assert (e0 = e) as -> by congruence.
    split; try done. intros k ev Hk. destruct (H8 k ev Hk) as [? ?]. done. }
  wbind. eapply wp_mono; [by apply (epoll_ctl_spec s1 e')|]. cbv beta. intros r s2 (w2&->&Hc).
  destruct r as [[]|]; cbn [failed]; [|done]. eapply wp_Ok; [reflexivity|].
  split_and!; [done| |done|exists e'; split; [done|cbn; lia]].
  split; [apply Hok1|]. exists e'. split; [done|].
  assert (epoll_interest (epoll_fd e') w2 = <[n := (DTime, EPOLLIN)]> (epoll_interest (epoll_fd e') w') /\
    epoll_interest (epoll_fd e') w' !! n = None) as [HI Hnone] by exact Hc.
  destruct Hi1 as [H1 H2 H3 H4 H5 H6 H7 H8].
  split; try done; change (mv_w (mv (set_fs_w w2 s1))) with w2; rewrite HI.
  - intros k f ev. rewrite lookup_insert. case_decide; [done|]. apply H6.
  - intros f m Hf Hl Hb. pose proof (H7 f m Hf Hl Hb) as Hk. change (mv_w (mv s1)) with w' in Hk.
    rewrite lookup_insert_ne; [done|]. intros E. rewrite <-E in Hk. congruence.
  - intros k ev _. split; [exact Hm|cbn; lia].
Qed.

#[global] Instance epoll_poll_functions : PollFunctions method_of (inv := epoll_inv).
Proof.
  split.
  - intros s abs Hok _. pose proof Hok as [_ (e&_&Hi)]. destruct (ei_method _ _ _ Hi) as [Em|Em]; cbn [mv mv_method] in Em.
    + wrun (the_method_Ok method_of s _ Em). rewrite Hep. by apply epoll_poll_spec.
    + wrun (the_method_Ok method_of s _ Em). rewrite Het. by apply epoll_timerfd_poll_spec.
  - intros s abs set Hok Habs (m&Hm&Hset).
    assert (m = MEpollTimerfd) as ->.
    { destruct Hok as [_ (e&_&Hi)]. destruct (ei_method _ _ _ Hi) as [Em|Em]; cbn [mv mv_method] in Em; [|congruence].
      assert (m = MEpoll) as -> by congruence. by rewrite Hep in Hset. }
    rewrite Het in Hset. injection Hset as <-. unfold iv_fd_epoll_timerfd_set_poll_timeout.
    pose proof Hok as [_ (e&He&_)]. change (pm_u (fs_pm s) = UEpoll e) in He. wrun (load_es_Ok s e He). wbind.
    eapply (wp_mono _ _ _ (fun b s1 => quiet s s1 /\ ok s1 /\ exists e', pm_u (fs_pm s1) = UEpoll e' /\
      if (b : bool) then timer_fd e' <> -1 else timer_fd e' = -1)).
    { destruct (Z.eqb_spec (timer_fd e) (-1)) as [Et|Et].
      - eapply wp_mono; [by eapply timerfd_create_spec|]. by cbv beta; intros b s1 (?&?&_&?).
      - eapply wp_Ok; [reflexivity|]. split_and!; try done. exists e. split; [done|]. done. }
    intros b s1 (Hq1&Hok1&e'&He'&Ht). destruct b; cbn [negb].
    + destruct Habs as [a ->]. wprim. cbv zeta. wrun (load_es_Ok s1 e' He').
      match goal with |- context [sys_timerfd_settime _ ?x] => set (t := x) end. destruct (sys_timerfd_settime (timer_fd e') t (fs_w s1)) as [r w'] eqn:Ek.
      wrun (kernel_Ok _ s1 r w' Ek). destruct (failed r); [done|]. eapply wp_Ok; [reflexivity|].
      split; [done|]. apply (ok_kernel s1 w' Hok1). intros n d ev e0 _ _.
      replace w' with (sys_timerfd_settime (timer_fd e') t (fs_w s1)).2 by (by rewrite Ek). by rewrite el_settime.
    + wprim. eapply wp_Ok; [reflexivity|]. split; [done|].
      destruct Hok1 as [_ (e0&He0&[H1 H2 H3 H4 H5 H6 H7 H8])]. change (pm_u (fs_pm s1) = UEpoll e0) in He0.
      assert (e0 = e') as -> by congruence. exists e'. split; [done|]. split; try done; [by left|].
      intros n ev Hn. by destruct (H8 n ev Hn).
  - intros s m Hok Hm [set Hset].
    assert (m = MEpollTimerfd) as ->.
    { destruct Hok as [_ (e&_&Hi)]. destruct (ei_method _ _ _ Hi) as [Em|Em]; cbn [mv mv_method] in Em; [|congruence].
      assert (m = MEpoll) as -> by congruence. by rewrite Hep in Hset. }
    rewrite Het. cbn [pm_clear_poll_timeout iv_fd_poll_method_epoll_timerfd]. unfold iv_fd_epoll_timerfd_clear_poll_timeout.
    pose proof Hok as [_ (e&He&_)]. change (pm_u (fs_pm s) = UEpoll e) in He. wrun (load_es_Ok s e He).
    destruct (sys_timerfd_settime (timer_fd e) (mk_tsp 0 0) (fs_w s)) as [r w'] eqn:Ek.
    wrun (kernel_Ok _ s r w' Ek). destruct (failed r); [done|]. eapply wp_Ok; [reflexivity|].
    split_and!; [done| |done]. apply (ok_kernel s w' Hok). intros n d ev e0 _ _.
    replace w' with (sys_timerfd_settime (timer_fd e) (mk_tsp 0 0) (fs_w s)).2 by (by rewrite Ek). by rewrite el_settime.
  - intros s [_ (e&_&Hi)]. destruct (ei_method _ _ _ Hi) as [Em|Em]; cbn [mv mv_method] in Em; rewrite Em; eauto.
Qed.
End epoll.
