(* ===== verification/FdPollSpec.v ===== *)
(** * The poll methods keep the array in step with the objects

    The array of [struct pollfd] holds exactly the registered objects that want
    a band, each at the index it remembers; removing one moves the last entry
    into its place.  The methods are poll methods in the sense of FdSpec.v for a
    client that never registers one descriptor twice and never leaves an object
    without handlers across a call that notifies the method: without the latter
    the code writes in front of the array. *)

From Stdlib Require Import Ascii.
From S2P Require Import Prelude ISeq Timer Sys Fd PmState FdPoll FdSpec FdCore FdDeferred.

Local Open Scope Z_scope.

(** poll(2): it fills in as many [revents] as it was given entries. *)
Class PollLaws (W : Type) `{!PollKernel W} : Prop := {
  pl_poll : forall a t w r w', sys_poll a t w = (r, w') ->
    match r with
    | inl l => length l = length a
    | inr e => e = EINTR -> (poll_signals w' < poll_signals w)%nat
    end;
  pl_ppoll : forall a t w r w', sys_ppoll a t w = (r, w') ->
    match r with inl l => length l = length a | inr _ => True end }.

Section poll.
Context {W : Type} `{!FdKernel W, !PollKernel W, HL : !PollLaws W}.
Context (clock_gettime : nat -> clockid -> option timespec) (gettimeofday : nat -> Z * Z).
Abbreviation St := (fd_state pm_state W).
Abbreviation V := (mview pm_state W).

(** Entry [i] of the arrays stands for the object [f]. *)
Definition slot_for (p : poll_state) (o : option loc) (i : Z) (f : loc) (m : iv_fd_) : Prop :=
  fds p !! i = Some f /\ u_index m = i /\
  exists e, pfds p !! i = Some e /\ pfd_fd e = fd_fd m /\
    (o <> Some f -> pfd_events e = bits_to_poll_mask (wanted_bands m)).

Record poll_inv_at (p : poll_state) (o : option loc) (v : V) : Prop := {
  pi_method : mv_method v = Some MPoll \/ mv_method v = Some MPpoll;
  pi_notify : members (mv_notify v) = [];
  pi_num : 0 <= num_regd_fds p;
  pi_slots : forall i, 0 <= i < num_regd_fds p ->
    exists f m, mv_objs v !! f = Some m /\ live o f m /\ slot_for p o i f m;
  pi_index : forall f m, mv_objs v !! f = Some m -> live o f m ->
    u_index m = -1 \/ (0 <= u_index m < num_regd_fds p /\ slot_for p o (u_index m) f m);
  pi_wanted : forall f m, mv_objs v !! f = Some m -> registered m = true -> o <> Some f ->
    (u_index m = -1 <-> wanted_bands m = 0);
  pi_range : forall f m, mv_objs v !! f = Some m -> live o f m -> 0 <= fd_fd m < IV_FD_POLL_MAXFD;
  pi_distinct : forall f m g m', mv_objs v !! f = Some m -> live o f m -> mv_objs v !! g = Some m' ->
    live o g m' -> fd_fd m = fd_fd m' -> f = g }.

Definition poll_inv (o : option loc) (v : V) : Prop :=
  exists p, pm_u (mv_pm v) = UPoll p /\ poll_inv_at p o v.

(** The method can be told: the object has an entry, or will get one. *)
Definition poll_can (m : iv_fd_) : Prop := u_index m <> -1 \/ wanted_bands m <> 0.
Definition poll_can_reg (v : V) (n w : Z) : Prop :=
  0 <= n /\ w <> 0 /\ forall g m, mv_objs v !! g = Some m -> registered m = true -> fd_fd m <> n.
Definition poll_unknown (v : V) (f : loc) : Prop := forall m, mv_objs v !! f = Some m -> u_index m = -1.

(** Distinct descriptors below the limit: the arrays never overflow. *)
Lemma distinct_bound (n : Z) (l : list Z) : 0 <= n -> NoDup l -> (forall x, x ∈ l -> 0 <= x < n) ->
  Z.of_nat (length l) <= n.
Proof.
  intros Hn Hnd Hl. assert (l ⊆+ seqZ 0 n) as Hsub.
  { apply NoDup_submseteq; [done|]. intros x Hx. apply elem_of_seqZ. specialize (Hl x Hx). lia. }
  apply submseteq_length in Hsub. rewrite length_seqZ in Hsub. lia.
Qed.

Definition slot_fd (p : poll_state) (i : Z) : Z :=
  match pfds p !! i with Some e => pfd_fd e | None => -1 end.

Lemma slot_fd_eq p o i f m : slot_for p o i f m -> slot_fd p i = fd_fd m.
Proof. intros (_&_&e&He&Hfd&_). unfold slot_fd. by rewrite He. Qed.

Lemma slots_fit p o (v : V) : poll_inv_at p o v ->
  num_regd_fds p <= IV_FD_POLL_MAXFD /\
  forall f m, mv_objs v !! f = Some m -> live o f m -> u_index m = -1 -> num_regd_fds p < IV_FD_POLL_MAXFD.
Proof.
  intros Hi. set (l := slot_fd p <$> seqZ 0 (num_regd_fds p)).
  assert (length l = Z.to_nat (num_regd_fds p)) as Hlen by (unfold l; by rewrite length_fmap, length_seqZ).
  pose proof (pi_num _ _ _ Hi) as Hn.
  assert (forall x, x ∈ l -> exists i f m, 0 <= i < num_regd_fds p /\ mv_objs v !! f = Some m /\ live o f m /\
    slot_for p o i f m /\ x = fd_fd m) as Hl.
  { intros x Hx. apply list_elem_of_fmap in Hx as (i&->&Hin%elem_of_seqZ).
    destruct (pi_slots _ _ _ Hi i) as (f&m&Hf&Hlf&Hs); [lia|]. exists i, f, m. split_and!; try done; try lia.
    by eapply slot_fd_eq. }
  assert (NoDup l) as Hnd.
  { apply NoDup_fmap_2_strong; [|apply NoDup_seqZ]. intros i j Hi1%elem_of_seqZ Hj1%elem_of_seqZ E.
    destruct (pi_slots _ _ _ Hi i) as (f&m&Hf&Hlf&Hs); [lia|].
    destruct (pi_slots _ _ _ Hi j) as (g&m'&Hg&Hlg&Hs'); [lia|].
    rewrite (slot_fd_eq _ _ _ _ _ Hs), (slot_fd_eq _ _ _ _ _ Hs') in E.
    assert (f = g) as -> by (by eapply (pi_distinct _ _ _ Hi)).
    assert (m' = m) as -> by congruence. destruct Hs as (_&<-&_), Hs' as (_&<-&_). done. }
  assert (forall x, x ∈ l -> 0 <= x < IV_FD_POLL_MAXFD) as Hr.
  { intros x Hx. destruct (Hl x Hx) as (i&f&m&_&Hf&Hlf&_&->). by eapply (pi_range _ _ _ Hi). }
  split.
  - pose proof (distinct_bound IV_FD_POLL_MAXFD l ltac:(done) Hnd Hr). lia.
  - intros f m Hf Hlf Hm1. pose proof (distinct_bound IV_FD_POLL_MAXFD (fd_fd m :: l) ltac:(done)) as Hb.
    cbn [length] in Hb. enough (Z.of_nat (S (length l)) <= IV_FD_POLL_MAXFD) by lia. apply Hb.
    + apply NoDup_cons. split; [|done]. intros Hx. destruct (Hl _ Hx) as (i&g&m'&Hir&Hg&Hlg&Hs&E).
      assert (f = g) as -> by (by eapply (pi_distinct _ _ _ Hi)). assert (m' = m) as -> by congruence.
      destruct Hs as (_&<-&_). lia.
    + intros x [->|Hx]%elem_of_cons; [by eapply (pi_range _ _ _ Hi)|auto].
Qed.

(** *** The entry of an object changes *)
Lemma inv_add p (v : V) f m e : poll_inv_at p (Some f) v -> mv_objs v !! f = Some m ->
  registered m = true -> u_index m = -1 -> wanted_bands m <> 0 ->
  pfd_fd e = fd_fd m -> pfd_events e = bits_to_poll_mask (wanted_bands m) ->
  poll_inv_at (mk_ps (<[num_regd_fds p := e]> (pfds p)) (<[num_regd_fds p := f]> (fds p)) (num_regd_fds p + 1))
    None (with_objs (<[f := set_u_index (num_regd_fds p) m]> (mv_objs v)) v).
Proof.
  intros [H1 H2 H3 H4 H5 H6 H7 H8] Hf Hr Hi Hw Hef Hee. set (n := num_regd_fds p) in *.
  set (p' := mk_ps _ _ _). set (m1 := set_u_index n m).
  assert (forall g mg, g <> f -> live None g mg -> live (Some f) g mg) as Hup by (intros g mg Hg [?|?]; [by left|done]).
  assert (slot_for p' None n f m1) as Hnew.
  { split_and!; [cbn; apply lookup_insert_eq|done|]. exists e. split_and!; [cbn; apply lookup_insert_eq|done|done]. }
  assert (forall i g mg, 0 <= i < n -> g <> f -> slot_for p (Some f) i g mg -> slot_for p' None i g mg) as Hkeep.
  { intros i g mg Hin Hg (Hs1&Hs2&e'&He'&Hs3&Hs4). split_and!; [cbn; rewrite lookup_insert_ne by lia; done|done|].
    exists e'. split_and!; [cbn; by rewrite lookup_insert_ne by lia|done|]. intros _. apply Hs4. congruence. }
  assert (forall i g mg, 0 <= i < n -> mv_objs v !! g = Some mg -> slot_for p (Some f) i g mg -> g <> f) as Hne.
  { intros i g mg Hin Hg (_&Hx&_) ->. assert (mg = m) as -> by congruence. lia. }
  split; cbn; try done; [lia|..].
  - intros i Hin. destruct (decide (i = n)) as [->|Hx].
    + exists f, m1. rewrite lookup_insert_eq. split_and!; [done|by left|done].
    + destruct (H4 i) as (g&mg&Hg&Hlg&Hs); [lia|]. pose proof (Hne i g mg ltac:(lia) Hg Hs) as Hgf.
      exists g, mg. rewrite lookup_insert_ne by done. split_and!; [done| |apply Hkeep; [lia|done..]].
      destruct Hlg; [by left|congruence].
  - intros g mg. rewrite lookup_insert. case_decide as E; [destruct E; intros [= <-] _; right; split; [cbn; lia|done]|].
    intros Hg Hl. destruct (H5 g mg Hg (Hup _ _ ltac:(done) Hl)) as [?|[Hrng Hs]]; [by left|right].
    split; [lia|]. apply Hkeep; [done|done|done].
  - intros g mg. rewrite lookup_insert. case_decide as E; [destruct E; intros [= <-] _ _; cbn; split; [lia|done]|].
    intros Hg Hrg _. apply (H6 g mg Hg Hrg). congruence.
  - intros g mg. rewrite lookup_insert. case_decide as E; [destruct E; intros [= <-] _; apply (H7 f m Hf); by left|].
    intros Hg Hl. apply (H7 g mg Hg). auto.
  - intros g mg h mh. rewrite !lookup_insert.
    destruct (decide (f = g)) as [<-|Hg'], (decide (f = h)) as [<-|Hh']; [done|..].
    + intros [= <-] _ Hh Hlh E. apply (H8 f m h mh); auto; [by left].
    + intros Hg Hlg [= <-] _ E. apply (H8 g mg f m); auto; [by left].
    + intros Hg Hlg Hh Hlh E. apply (H8 g mg h mh); auto.
Qed.

Lemma inv_change p (v : V) f m e : poll_inv_at p (Some f) v -> mv_objs v !! f = Some m ->
  registered m = true -> u_index m <> -1 -> wanted_bands m <> 0 ->
  pfds p !! u_index m = Some e ->
  poll_inv_at (mk_ps (<[u_index m := set_pfd_events (bits_to_poll_mask (wanted_bands m)) e]> (pfds p)) (fds p) (num_regd_fds p))
    None v.
Proof.
  intros [H1 H2 H3 H4 H5 H6 H7 H8] Hf Hr Hi Hw He. set (p' := mk_ps _ _ _).
  assert (forall g mg, live None g mg -> live (Some f) g mg) as Hup by (intros g mg [?|?]; [by left|done]).
  assert (forall g mg, mv_objs v !! g = Some mg -> live (Some f) g mg -> live None g mg) as Hdn.
  { intros g mg Hg [?|[= ->]]; [by left|]. left. congruence. }
  assert (forall i g mg, mv_objs v !! g = Some mg -> slot_for p (Some f) i g mg -> slot_for p' None i g mg) as Hkeep.
  { intros i g mg Hg (Hs1&Hs2&e'&He'&Hs3&Hs4). split_and!; [done|done|].
    destruct (decide (g = f)) as [->|Hgf].
    - assert (mg = m) as -> by congruence. assert (e' = e) as -> by congruence.
      eexists. split_and!; [cbn; rewrite Hs2, lookup_insert_eq; done|done|done].
    - exists e'. split_and!; [|done|intros _; apply Hs4; congruence].
      cbn. rewrite lookup_insert_ne; [done|]. intros E. 
      destruct (H5 f m Hf ltac:(by right)) as [?|[_ (Hfs&_)]]; [done|]. rewrite E in Hfs. congruence. }
  split; cbn; try done.
  - intros i Hin. destruct (H4 i Hin) as (g&mg&Hg&Hlg&Hs). exists g, mg. auto.
  - intros g mg Hg Hl. destruct (H5 g mg Hg (Hup _ _ Hl)) as [?|[? ?]]; auto.
  - intros g mg Hg Hrg _. destruct (decide (g = f)) as [->|Hgf]; [assert (mg = m) as -> by congruence; done|].
    apply (H6 g mg Hg Hrg). congruence.
  - intros g mg Hg Hl. apply (H7 g mg Hg). auto.
  - intros g mg h mh Hg Hlg Hh Hlh E. apply (H8 g mg h mh); auto.
Qed.


(** Removal of an entry: [move] is the object that takes its place, if any. *)
Lemma inv_remove p (v : V) f m p' objs' :
  poll_inv_at p (Some f) v -> mv_objs v !! f = Some m -> wanted_bands m = 0 -> u_index m <> -1 ->
  num_regd_fds p' = num_regd_fds p - 1 ->
  objs' !! f = Some (set_u_index (-1) m) ->
  (forall g mg, g <> f -> mv_objs v !! g = Some mg -> live None g mg -> u_index mg <> num_regd_fds p - 1 ->
     objs' !! g = Some mg) ->
  (forall g mg, g <> f -> mv_objs v !! g = Some mg -> live None g mg -> u_index mg = num_regd_fds p - 1 ->
     objs' !! g = Some (set_u_index (u_index m) mg)) ->
  (forall g mg', g <> f -> objs' !! g = Some mg' -> registered mg' = true ->
     exists mg, mv_objs v !! g = Some mg /\ registered mg = true) ->
  (forall k, 0 <= k < num_regd_fds p - 1 -> k <> u_index m -> pfds p' !! k = pfds p !! k /\ fds p' !! k = fds p !! k) ->
  (u_index m <> num_regd_fds p - 1 -> pfds p' !! u_index m = pfds p !! (num_regd_fds p - 1) /\
     fds p' !! u_index m = fds p !! (num_regd_fds p - 1)) ->
  poll_inv_at p' None (with_objs objs' v).
Proof.
  intros [H1 H2 H3 H4 H5 H6 H7 H8] Hf Hw Hi Hn Hof Hstay Hmove Hback Hslots Hlast.
  set (n := num_regd_fds p - 1) in *. set (i := u_index m) in *.
  destruct (H5 f m Hf ltac:(by right)) as [?|[Hir (Hfi&_&_)]]; [done|]. fold i in Hir, Hfi.
  assert (forall g mg, live None g mg -> live (Some f) g mg) as Hup by (intros g mg [?|?]; [by left|done]).
  (* what becomes of a live object other than [f] *)
  assert (forall g mg, g <> f -> mv_objs v !! g = Some mg -> live None g mg ->
    exists j, objs' !! g = Some (set_u_index j mg) /\ (u_index mg = -1 /\ j = -1 \/ 0 <= j < n /\ slot_for p' None j g (set_u_index j mg)))
    as Hobj.
  { intros g mg Hgf Hg Hl. destruct (H5 g mg Hg (Hup _ _ Hl)) as [E|[Hr (Hs1&_&e&He&Hs3&Hs4)]].
    - exists (-1). split; [|by left]. rewrite (Hstay g mg) by (try done; lia). do 2 f_equal. destruct mg; cbn in *. by subst.
    - assert (u_index mg <> i) as Hui by (intros E; rewrite E in Hs1; congruence).
      destruct (decide (u_index mg = n)) as [E|E].
      + exists i. split; [by apply Hmove|right]. split; [lia|]. destruct (Hlast ltac:(rewrite <-E; intros Hx; by apply Hui)) as [Hp1 Hp2].
        split_and!; [by rewrite Hp2, <-E|done|]. exists e. rewrite Hp1, <-E. split_and!; [done|done|]. intros _. apply Hs4. by intros [= ->].
      + exists (u_index mg). assert (set_u_index (u_index mg) mg = mg) as -> by (by destruct mg).
        split; [by apply Hstay|right]. split; [lia|]. destruct (Hslots (u_index mg) ltac:(lia) Hui) as [Hp1 Hp2].
        split_and!; [by rewrite Hp2|done|]. exists e. rewrite Hp1. split_and!; [done|done|]. intros _. apply Hs4. congruence. }
  (* every live object afterwards is [f] or one of these *)
  assert (forall g mg', objs' !! g = Some mg' -> live None g mg' ->
    g = f /\ mg' = set_u_index (-1) m \/ g <> f /\ exists mg j, mv_objs v !! g = Some mg /\ live None g mg /\
      mg' = set_u_index j mg /\ (u_index mg = -1 /\ j = -1 \/ 0 <= j < n /\ slot_for p' None j g mg')) as Hinv.
  { intros g mg' Hg [Hl|?]; [|done]. destruct (decide (g = f)) as [->|Hgf]; [left; split; [done|congruence]|right].
    split; [done|]. destruct (Hback g mg' Hgf Hg Hl) as (mg&Hmg&Hmr).
    destruct (Hobj g mg Hgf Hmg ltac:(by left)) as (j&Hj&Hcase). rewrite Hg in Hj. injection Hj as ->.
    exists mg, j. split_and!; [done|by left|done|done]. }
  split; try done; rewrite ?Hn; fold n; cbn [mv_objs with_objs].
  - lia.
  - intros k Hk. destruct (decide (k = i)) as [->|Hki].
    + destruct (H4 n) as (g&mg&Hg&Hlg&(Hs1&Hs2&e&He&Hs3&Hs4)); [lia|].
      assert (g <> f) as Hgf by (intros ->; assert (mg = m) as -> by congruence; unfold i in Hk; lia).
      assert (live None g mg) as Hl by (destruct Hlg; [by left|congruence]).
      destruct (Hobj g mg Hgf Hg Hl) as (j&Hj&[[E _]|[Hjr Hs]]); [lia|].
      assert (j = i) as ->. { rewrite (Hmove g mg) in Hj by done. apply (f_equal (fmap u_index)) in Hj. cbn in Hj. by injection Hj. }
      exists g, (set_u_index i mg). split_and!; [done|done|by destruct Hs as (?&?&?)..].
    + destruct (H4 k) as (g&mg&Hg&Hlg&Hs); [lia|]. pose proof Hs as (Hs1&Hs2&_).
      assert (g <> f) as Hgf by (intros ->; assert (mg = m) as -> by congruence; done).
      assert (live None g mg) as Hl by (destruct Hlg; [by left|congruence]).
      destruct (Hobj g mg Hgf Hg Hl) as (j&Hj&[[E _]|[Hjr Hsj]]); [lia|].
      assert (objs' !! g = Some mg) as Hg' by (apply Hstay; try done; lia).
      exists g, mg. split_and!; [done|done|].
      assert (set_u_index j mg = mg) as Ej by congruence. rewrite Ej in Hsj.
      assert (j = k) as -> by (destruct Hsj as (_&Hx&_); congruence). done.
  - intros g mg' Hg Hl. destruct (Hinv _ _ Hg Hl) as [[-> ->]|(_&mg&j&_&_&->&[[_ ->]|[Hj Hs]])]; [by left|by left|by right].
  - intros g mg' Hg Hr _. destruct (Hinv _ _ Hg ltac:(by left)) as [[-> ->]|(Hgf&mg&j&Hmg&Hml&->&Hcase)]; [by cbn|].
    cbn in Hr |- *. pose proof (H6 g mg Hmg Hr ltac:(congruence)) as Hiff. rewrite <-Hiff.
    destruct Hcase as [[-> ->]|[Hj _]]; [done|].
    split; [lia|]. intros E. exfalso. rewrite (Hstay g mg Hgf Hmg Hml) in Hg by lia.
    apply (f_equal (fmap u_index)) in Hg. cbn in Hg. injection Hg as Hg. lia.
  - intros g mg' Hg Hl. destruct (Hinv _ _ Hg Hl) as [[-> ->]|(Hgf&mg&j&Hmg&Hml&->&_)]; cbn; [apply (H7 f m Hf); by right|].
    apply (H7 g mg Hmg). auto.
  - intros g mg' h mh' Hg Hlg Hh Hlh E.
    destruct (Hinv _ _ Hg Hlg) as [[-> ->]|(Hgf&mg&j&Hmg&Hml&->&_)], (Hinv _ _ Hh Hlh) as [[-> ->]|(Hhf&mh&j'&Hmh&Hmlh&->&_)];
      cbn in E; [done|..].
    + apply (H8 f m h mh); auto.
    + apply (H8 g mg f m); auto.
    + apply (H8 g mg h mh); auto.
Qed.

(** *** Changes of the objects alone *)
Lemma pinv_same p o (v v' : V) : mv_objs v' = mv_objs v -> members (mv_notify v') = members (mv_notify v) ->
  mv_method v' = mv_method v -> poll_inv_at p o v -> poll_inv_at p o v'.
Proof. intros E1 E2 E3 [H1 H2 H3 H4 H5 H6 H7 H8]. split; rewrite ?E1, ?E2, ?E3; done. Qed.

Lemma pinv_client p (v : V) f m' q : poll_inv_at p None v -> ~ is_registered (mv_objs v) f ->
  (forall m, m' = Some m -> registered m = false) -> members q = members (mv_notify v) ->
  poll_inv_at p None (mk_mv (partial_alter (fun _ => m') f (mv_objs v)) q (mv_method v) (mv_pm v) (mv_w v)).
Proof.
  intros [H1 H2 H3 H4 H5 H6 H7 H8] Hf Hm' Hq.
  assert (forall g m, partial_alter (fun _ => m') f (mv_objs v) !! g = Some m -> live None g m ->
    mv_objs v !! g = Some m) as Hb.
  { intros g m Hg [Hr|?]; [|done]. destruct (decide (g = f)) as [->|Hne].
    - rewrite lookup_partial_alter_eq in Hg. rewrite (Hm' _ Hg) in Hr. done.
    - by rewrite lookup_partial_alter_ne in Hg. }
  split; cbn; try done; [congruence|..].
  - intros i Hi. destruct (H4 i Hi) as (g&m&Hg&Hl&Hs). exists g, m. split_and!; [|done|done].
    rewrite lookup_partial_alter_ne; [done|]. intros <-. destruct Hl as [Hr|?]; [|done]. apply Hf. by exists m.
  - intros g m Hg Hl. by apply (H5 g m (Hb _ _ Hg Hl)).
  - intros g m Hg Hr _. apply (H6 g m); [apply Hb; [done|by left]|done|done].
  - intros g m Hg Hl. by apply (H7 g m (Hb _ _ Hg Hl)).
  - intros g m h mh Hg Hl Hh Hlh. apply (H8 g m h mh); auto.
Qed.

Lemma pinv_open p (v : V) f : poll_inv_at p None v -> is_registered (mv_objs v) f -> poll_inv_at p (Some f) v.
Proof.
  intros [H1 H2 H3 H4 H5 H6 H7 H8] (m0&Hm0&Hr0).
  assert (forall g m, mv_objs v !! g = Some m -> live (Some f) g m -> live None g m) as Hl.
  { intros g m Hg [?|[= ->]]; [by left|]. left. congruence. }
  assert (forall i g m, slot_for p None i g m -> slot_for p (Some f) i g m) as Hs.
  { intros i g m (?&?&e&?&?&He). split_and!; [done|done|]. exists e. split_and!; [done|done|]. intros _. by apply He. }
  split; try done.
  - intros i Hi. destruct (H4 i Hi) as (g&m&Hg&[?|?]&?); [|done]. exists g, m. split_and!; [done|by left|auto].
  - intros g m Hg Hlg. destruct (H5 g m Hg (Hl _ _ Hg Hlg)) as [?|[??]]; auto.
  - intros g m Hg Hr _. by apply (H6 g m).
  - intros g m Hg Hlg. apply (H7 g m Hg). eauto.
  - intros g m h mh Hg Hlg Hh Hlh. apply (H8 g m h mh); eauto.
Qed.

(** The entry of [f], which is in transition, changes but for descriptor and index. *)
Lemma pinv_alter p (v : V) f m m1 : poll_inv_at p (Some f) v -> mv_objs v !! f = Some m ->
  fd_fd m1 = fd_fd m -> u_index m1 = u_index m ->
  poll_inv_at p (Some f) (with_objs (<[f := m1]> (mv_objs v)) v).
Proof.
  intros [H1 H2 H3 H4 H5 H6 H7 H8] Hf Efd Eix.
  assert (forall g mg, <[f := m1]> (mv_objs v) !! g = Some mg -> live (Some f) g mg ->
    exists mo, mv_objs v !! g = Some mo /\ live (Some f) g mo /\ fd_fd mg = fd_fd mo /\ u_index mg = u_index mo /\
      (g <> f -> mg = mo)) as Hb.
  { intros g mg. rewrite lookup_insert. case_decide as E; [destruct E; intros [= <-] _|intros Hg Hl].
    - exists m. split_and!; try done. by right.
    - exists mg. done. }
  assert (forall i g mo mg, slot_for p (Some f) i g mo -> fd_fd mg = fd_fd mo -> u_index mg = u_index mo ->
    (g <> f -> mg = mo) -> slot_for p (Some f) i g mg) as Hs.
  { intros i g mo mg (Hs1&Hs2&e&He&Hs3&Hs4) E1 E2 E3. split_and!; [done|congruence|]. exists e.
    split_and!; [done|congruence|]. intros Hne. rewrite E3 by congruence. by apply Hs4. }
  split; cbn; try done.
  - intros i Hi. destruct (H4 i Hi) as (g&mg&Hg&Hl&Hsl). destruct (decide (g = f)) as [->|Hgf].
    + exists f, m1. rewrite lookup_insert_eq. split_and!; [done|by right|]. assert (mg = m) as -> by congruence.
      by apply (Hs i f m m1).
    + exists g, mg. by rewrite lookup_insert_ne.
  - intros g mg Hg Hl. destruct (Hb g mg Hg Hl) as (mo&Hmo&Hlo&E1&E2&E3).
    destruct (H5 g mo Hmo Hlo) as [?|[? ?]]; [left; congruence|right]. rewrite E2. split; [done|]. by eapply Hs.
  - intros g mg. rewrite lookup_insert. case_decide as E; [destruct E; intros _ _ []; done|]. apply H6.
  - intros g mg Hg Hl. destruct (Hb g mg Hg Hl) as (mo&Hmo&Hlo&E1&_). rewrite E1. by apply (H7 g mo).
  - intros g mg h mh Hg Hl Hh Hlh E. destruct (Hb g mg Hg Hl) as (mo&Hmo&Hlo&E1&_).
    destruct (Hb h mh Hh Hlh) as (mo'&Hmo'&Hlo'&E1'&_). apply (H8 g mo h mo'); congruence.
Qed.

(** A new object without an entry. *)
Lemma pinv_new p (v : V) f m q : poll_inv_at p None v -> ~ is_registered (mv_objs v) f ->
  registered m = true -> u_index m = -1 -> 0 <= fd_fd m < IV_FD_POLL_MAXFD ->
  (forall g mg, mv_objs v !! g = Some mg -> registered mg = true -> fd_fd mg <> fd_fd m) ->
  members q = members (mv_notify v) ->
  poll_inv_at p (Some f) (mk_mv (<[f := m]> (mv_objs v)) q (mv_method v) (mv_pm v) (mv_w v)).
Proof.
  intros [H1 H2 H3 H4 H5 H6 H7 H8] Hf Hr Hi Hrange Hfresh Hq.
  assert (forall g mg, mv_objs v !! g = Some mg -> live None g mg -> g <> f) as Hne.
  { intros g mg Hg [Hrg|?] ->; [|done]. apply Hf. by exists mg. }
  assert (forall g mg, g <> f -> live (Some f) g mg -> live None g mg) as Hdn.
  { intros g mg Hg [?|[= ->]]; [by left|done]. }
  assert (forall i g mg, slot_for p None i g mg -> slot_for p (Some f) i g mg) as Hs.
  { intros i g mg (?&?&e&?&?&He). split_and!; [done|done|]. exists e. split_and!; [done|done|]. intros _. by apply He. }
  split; cbn; try done; [congruence|..].
  - intros i Hin. destruct (H4 i Hin) as (g&mg&Hg&Hl&Hsl). exists g, mg.
    rewrite lookup_insert_ne by (symmetry; eauto). split_and!; [done| |auto]. destruct Hl; [by left|done].
  - intros g mg. rewrite lookup_insert. case_decide as E; [destruct E; intros [= <-] _; by left|].
    intros Hg Hl. destruct (H5 g mg Hg (Hdn _ _ ltac:(done) Hl)) as [?|[??]]; auto.
  - intros g mg. rewrite lookup_insert. case_decide as E; [destruct E; intros _ _ []; done|].
    intros Hg Hrg _. by apply (H6 g mg).
  - intros g mg. rewrite lookup_insert. case_decide as E; [destruct E; by intros [= <-] _|].
    intros Hg Hl. by apply (H7 g mg Hg), Hdn.
  - intros g mg h mh. rewrite !lookup_insert.
    destruct (decide (f = g)) as [<-|Hg'], (decide (f = h)) as [<-|Hh']; [done|..].
    + intros [= <-] _ Hh Hl E. destruct (Hdn h mh ltac:(done) Hl) as [Hrh|?]; [|done].
      exfalso. by apply (Hfresh h mh Hh Hrh).
    + intros Hg Hl [= <-] _ E. destruct (Hdn g mg ltac:(done) Hl) as [Hrg|?]; [|done].
      exfalso. by apply (Hfresh g mg Hg Hrg).
    + intros Hg Hlg Hh Hlh E. apply (H8 g mg h mh); auto.
Qed.

Lemma pinv_drop p (v : V) f m : poll_inv_at p (Some f) v -> mv_objs v !! f = Some m -> registered m = false ->
  u_index m = -1 -> poll_inv_at p None v.
Proof.
  intros [H1 H2 H3 H4 H5 H6 H7 H8] Hf Hr Hi.
  assert (forall g mg, live None g mg -> live (Some f) g mg) as Hup by (intros g mg [?|?]; [by left|done]).
  assert (forall i g mg, 0 <= i < num_regd_fds p -> mv_objs v !! g = Some mg -> slot_for p (Some f) i g mg -> g <> f) as Hgf.
  { intros i g mg Hin Hg (_&Hx&_) ->. assert (mg = m) as -> by congruence. lia. }
  assert (forall i g mg, g <> f -> slot_for p (Some f) i g mg -> slot_for p None i g mg) as Hs.
  { intros i g mg Hne (?&?&e&?&?&He). split_and!; [done|done|]. exists e. split_and!; [done|done|].
    intros _. apply He. congruence. }
  split; try done.
  - intros i Hin. destruct (H4 i Hin) as (g&mg&Hg&Hl&Hsl). pose proof (Hgf i g mg Hin Hg Hsl).
    exists g, mg. split_and!; [done|destruct Hl; [by left|congruence]|auto].
  - intros g mg Hg Hl. destruct (H5 g mg Hg (Hup _ _ Hl)) as [?|[Hin Hsl]]; [by left|right].
    split; [done|]. apply Hs; [by eapply Hgf|done].
  - intros g mg Hg Hrg _. apply (H6 g mg Hg Hrg). intros [= ->]. congruence.
  - intros g mg Hg Hl. apply (H7 g mg Hg). auto.
  - intros g mg h mh Hg Hl Hh Hlh. apply (H8 g mg h mh); auto.
Qed.

(** *** The operations *)
Definition with_ps (p : poll_state) (s : St) : St := set_fs_pm (set_pm_u (UPoll p) (fs_pm s)) s.
Lemma load_ps_Ok (s : St) p : pm_u (fs_pm s) = UPoll p -> load_ps s = Ok (p, s).
Proof. intros H. unfold load_ps. msimpl. by rewrite H. Qed.
Lemma upd_ps_Ok (s : St) p g : pm_u (fs_pm s) = UPoll p -> upd_ps g s = Ok (tt, with_ps (g p) s).
Proof. intros H. unfold upd_ps. by mrun (load_ps_Ok s p H). Qed.
Lemma in_array_Ok i (s : St) : 0 <= i < IV_FD_POLL_MAXFD -> in_array i s = Ok (tt, s).
Proof. intros H. unfold in_array. by rewrite decide_True. Qed.
Lemma upd_pfd_Ok (s : St) p i g : pm_u (fs_pm s) = UPoll p -> 0 <= i < IV_FD_POLL_MAXFD ->
  upd_pfd i g s = Ok (tt, with_ps (mk_ps (<[i := g (default (mk_pfd 0 0 0) (pfds p !! i))]> (pfds p)) (fds p) (num_regd_fds p)) s).
Proof. intros Hp Hi. unfold upd_pfd. mrun (in_array_Ok i s Hi). by rewrite (upd_ps_Ok s p). Qed.
Lemma store_pobj_Ok (s : St) p i f : pm_u (fs_pm s) = UPoll p -> 0 <= i < IV_FD_POLL_MAXFD ->
  store_pobj i f s = Ok (tt, with_ps (mk_ps (pfds p) (<[i := f]> (fds p)) (num_regd_fds p)) s).
Proof. intros Hp Hi. unfold store_pobj. mrun (in_array_Ok i s Hi). by rewrite (upd_ps_Ok s p). Qed.
Lemma load_pfd_Ok (s : St) p i e : pm_u (fs_pm s) = UPoll p -> 0 <= i < IV_FD_POLL_MAXFD ->
  pfds p !! i = Some e -> load_pfd i s = Ok (e, s).
Proof. intros Hp Hi He. unfold load_pfd. mrun (in_array_Ok i s Hi). mrun (load_ps_Ok s p Hp). by rewrite He. Qed.
Lemma load_pobj_Ok (s : St) p i f : pm_u (fs_pm s) = UPoll p -> 0 <= i < IV_FD_POLL_MAXFD ->
  fds p !! i = Some f -> load_pobj i s = Ok (f, s).
Proof. intros Hp Hi He. unfold load_pobj. mrun (in_array_Ok i s Hi). mrun (load_ps_Ok s p Hp). by rewrite He. Qed.

Lemma quiet_ps p (s : St) : quiet s (with_ps p s).
Proof. done. Qed.
Lemma quiet_index (s : St) f o i : fs_fds s !! f = Some o -> quiet s (upd f (set_u_index i o) s).
Proof.
  intros Hf. split; [|done]. unfold cv, upd. cbn. rewrite fmap_insert, insert_id; [done|]. by rewrite lookup_fmap, Hf.
Qed.

Lemma poll_notify_spec (s : St) f o : poll_inv (Some f) (mv s) -> fs_fds s !! f = Some o ->
  poll_can (meth_obj o) -> registered o = true \/ wanted_bands o = 0 ->
  wp anyf (iv_fd_poll_notify_fd f) s (fun _ s' => quiet s s' /\ poll_inv None (mv s') /\
    exists o', fs_fds s' !! f = Some o' /\ (wanted_bands o <> 0 -> u_index o' <> -1)).
Proof.
  intros (p&Hp&Hi) Hf Hcan Hr. change (pm_u (fs_pm s) = UPoll p) in Hp.
  pose proof (mv_lookup _ _ _ Hf) as Hm. pose proof (slots_fit _ _ _ Hi) as [Hfit Hfit'].
  pose proof (pi_num _ _ _ Hi) as Hn0. set (n := num_regd_fds p) in *.
  unfold iv_fd_poll_notify_fd. wrun (load_fd_Ok _ _ _ Hf).
  destruct (Z.eqb_spec (u_index o) (-1)) as [Ei|Ei], (Z.eqb_spec (wanted_bands o) 0) as [Ew|Ew]; cbn [negb andb].
  - exfalso. destruct Hcan; cbn in *; done.
  - (* a new entry *)
    destruct Hr as [Hr|Hr]; [|done]. pose proof (Hfit' f _ Hm ltac:(by right) Ei) as Hlt.
    wrun (load_ps_Ok s p Hp). wrun (upd_fd_Ok s f o (set_u_index (num_regd_fds p)) Hf). fold n.
    set (s1 := upd f (set_u_index n o) s). wrun (upd_ps_Ok s1 p (fun p => set_num_regd_fds (num_regd_fds p + 1) p) Hp).
    set (p1 := mk_ps (pfds p) (fds p) (n + 1)). change (set_num_regd_fds (num_regd_fds p + 1) p) with p1.
    wrun (load_fd_Ok (with_ps p1 s1) f (set_u_index n o) (lookup_upd_eq s f _)).
    cbn [u_index set_u_index fd_fd wanted_bands].
    change (u_index (set_u_index n o)) with n. change (fd_fd (set_u_index n o)) with (fd_fd o).
    change (wanted_bands (set_u_index n o)) with (wanted_bands o).
    wrun (upd_pfd_Ok (with_ps p1 s1) p1 n (set_pfd_fd (fd_fd o)) eq_refl ltac:(lia)).
    set (e1 := set_pfd_fd (fd_fd o) _).
    match goal with |- context [with_ps ?q (with_ps p1 s1)] => set (p2 := q) end.
    wrun (upd_pfd_Ok (with_ps p2 (with_ps p1 s1)) p2 n (set_pfd_events (bits_to_poll_mask (wanted_bands o))) eq_refl ltac:(lia)).
    match goal with |- context [with_ps ?q (with_ps p2 _)] => set (p3 := q) end.
    eapply wp_Ok; [match goal with |- store_pobj _ _ ?st = _ => exact (store_pobj_Ok st p3 n f eq_refl ltac:(lia)) end|].
    set (e2 := set_pfd_events (bits_to_poll_mask (wanted_bands o)) e1).
    assert (mk_ps (pfds p3) (<[n := f]> (fds p3)) (num_regd_fds p3) =
      mk_ps (<[num_regd_fds p := e2]> (pfds p)) (<[num_regd_fds p := f]> (fds p)) (num_regd_fds p + 1)) as ->.
    { unfold p3, p2, p1. cbn. rewrite lookup_insert_eq. cbn. by rewrite insert_insert_eq. }
    split_and!; [apply (quiet_index s f o n Hf)| |].
    + eexists. split; [reflexivity|].
      eapply pinv_same; [| | |exact (inv_add p (mv s) f (meth_obj o) e2 Hi Hm Hr Ei Ew eq_refl eq_refl)]; try reflexivity.
      exact (fmap_insert meth_obj (fs_fds s) f (set_u_index n o)).
    + exists (set_u_index n o). split; [apply lookup_upd_eq|]. intros _. cbn. lia.
  - (* the entry goes *)
    destruct (pi_index _ _ _ Hi f _ Hm ltac:(by right)) as [?|[Hir (Hfi&_)]]; [done|].
    change (u_index (meth_obj o)) with (u_index o) in Hir, Hfi. fold n in Hir.
    wrun (upd_ps_Ok s p (fun p => set_num_regd_fds (num_regd_fds p - 1) p) Hp).
    set (p1 := mk_ps (pfds p) (fds p) (n - 1)). change (set_num_regd_fds (num_regd_fds p - 1) p) with p1.
    wrun (load_ps_Ok (with_ps p1 s) p1 eq_refl). change (num_regd_fds p1) with (n - 1).
    destruct (Z.eqb_spec (u_index o) (n - 1)) as [El|El]; cbn [negb when].
    + wprim. eapply wp_Ok; [exact (upd_fd_Ok (with_ps p1 s) f o (set_u_index (-1)) Hf)|].
      split_and!; [apply (quiet_index s f o (-1) Hf)| |exists (set_u_index (-1) o); split; [apply lookup_upd_eq|done]].
      exists p1. split; [done|].
      eapply pinv_same; [| | |apply (inv_remove p (mv s) f (meth_obj o) p1 (<[f := set_u_index (-1) (meth_obj o)]> (mv_objs (mv s))) Hi Hm Ew Ei)];
        try reflexivity; fold n.
      * exact (fmap_insert meth_obj (fs_fds s) f (set_u_index (-1) o)).
      * apply lookup_insert_eq.
      * intros g mg Hg Hmg _ _. by rewrite lookup_insert_ne.
      * intros g mg Hg Hmg Hl E. exfalso. apply Hg.
        destruct (pi_index _ _ _ Hi g mg Hmg) as [?|[_ (Hs&_)]]; [destruct Hl; [by left|done]|fold n in Hn0; lia|].
        rewrite E, <-El in Hs. congruence.
      * intros g mg Hg. rewrite lookup_insert_ne by done. eauto.
      * intros k Hk Hki. done.
      * intros Hx. exfalso. by apply Hx.
    + destruct (pi_slots _ _ _ Hi (n - 1)) as (l&ml&Hl&Hlive&(Hs1&Hs2&e&He&_)); [fold n; lia|].
      assert (l <> f) as Hlf by (intros ->; assert (ml = meth_obj o) as -> by congruence; by apply El).
      apply mv_lookup_inv in Hl as Hl'. destruct Hl' as (ol&Hol&->). change (u_index (meth_obj ol)) with (u_index ol) in Hs2.
      wbind. wrun (load_pfd_Ok (with_ps p1 s) p1 (n - 1) e eq_refl ltac:(lia) He).
      wrun (upd_pfd_Ok (with_ps p1 s) p1 (u_index o) (fun _ => e) eq_refl ltac:(lia)).
      match goal with |- context [with_ps ?q (with_ps p1 s)] => set (p2 := q) end.
      wrun (load_pobj_Ok (with_ps p2 (with_ps p1 s)) p2 (n - 1) l eq_refl ltac:(lia) Hs1).
      wrun (upd_fd_Ok (with_ps p2 (with_ps p1 s)) l ol (set_u_index (u_index o)) Hol).
      set (s2 := upd l (set_u_index (u_index o) ol) (with_ps p2 (with_ps p1 s))).
      eapply wp_Ok; [apply (store_pobj_Ok s2 p2 (u_index o) l eq_refl); lia|]. cbv beta.
      set (p3 := mk_ps _ _ _).
      assert (fs_fds (with_ps p3 s2) !! f = Some o) as Hf3 by (cbn; by rewrite lookup_insert_ne).
      eapply wp_Ok; [exact (upd_fd_Ok (with_ps p3 s2) f o (set_u_index (-1)) Hf3)|].
      split_and!; [|exists p3; split; [done|]|exists (set_u_index (-1) o); split; [apply lookup_upd_eq|done]].
      * apply (quiet_trans s (with_ps p3 s2)); [|by apply quiet_index].
        exact (quiet_index s l ol (u_index o) Hol).
      * eapply pinv_same; [| | |apply (inv_remove p (mv s) f (meth_obj o) p3
          (<[f := set_u_index (-1) (meth_obj o)]> (<[l := set_u_index (u_index o) (meth_obj ol)]> (mv_objs (mv s)))) Hi Hm Ew Ei)];
          try reflexivity; fold n.
        -- cbn. by rewrite !fmap_insert.
        -- apply lookup_insert_eq.
        -- intros g mg Hg Hmg _ E. rewrite !lookup_insert_ne; [done| |done]. intros <-. apply E.
           assert (mg = meth_obj ol) as -> by congruence. done.
        -- intros g mg Hg Hmg Hlg E. assert (g = l) as ->.
           { destruct (pi_index _ _ _ Hi g mg Hmg) as [?|[_ (Hs&_)]]; [destruct Hlg; [by left|done]|fold n in Hn0; lia|].
             rewrite E in Hs. congruence. }
           assert (mg = meth_obj ol) as -> by congruence. by rewrite lookup_insert_ne, lookup_insert_eq.
        -- intros g mg Hg. rewrite lookup_insert_ne by done. rewrite lookup_insert. case_decide as E; [|eauto].
           destruct E. intros [= <-] Hrg. cbn in Hrg. exists (meth_obj ol). done.
        -- intros k Hk Hki. cbn. rewrite !lookup_insert_ne by (intros Ek; apply Hki; by rewrite <-Ek). done.
        -- intros _. cbn. rewrite !lookup_insert_eq. by rewrite He, Hs1.
  - (* the entry changes *)
    destruct Hr as [Hr|Hr]; [|done].
    destruct (pi_index _ _ _ Hi f _ Hm ltac:(by right)) as [?|[Hir (_&_&e&He&_)]]; [done|].
    change (u_index (meth_obj o)) with (u_index o) in Hir. fold n in Hir.
    eapply wp_Ok; [apply (upd_pfd_Ok s p (u_index o) _ Hp); lia|]. split_and!; [done| |by exists o].
    eexists. split; [reflexivity|]. change (u_index (meth_obj o)) with (u_index o) in He. rewrite He.
    eapply pinv_same; [| | |exact (inv_change p (mv s) f (meth_obj o) e Hi Hm Hr Ei Ew He)]; reflexivity.
Qed.

(** *** The poll methods are poll methods *)
Context (method_of : method_name -> iv_fd_poll_method St).
Context (Hpoll : method_of MPoll = iv_fd_poll_method_poll clock_gettime gettimeofday).
Context (Hppoll : method_of MPpoll = iv_fd_poll_method_ppoll clock_gettime gettimeofday).

Lemma run_poll_method {A} (op : iv_fd_poll_method St -> M St A) (s : St) o Q :
  poll_inv o (mv s) -> op (method_of MPoll) = op (method_of MPpoll) ->
  wp anyf (op (method_of MPoll)) s Q -> wp anyf (m ← the_method method_of; op m) s Q.
Proof.
  intros (p&_&Hi) E H. destruct (pi_method _ _ _ Hi) as [Em|Em]; cbn [mv mv_method] in Em.
  - by wrun (the_method_Ok method_of s _ Em).
  - wrun (the_method_Ok method_of s _ Em). by rewrite <-E.
Qed.

Lemma sync_call_spec (s : St) a :
  wp anyf (retry (Datatypes.S (poll_signals (fs_w s))) (kernel (sys_poll a 0))) s (fun r s' =>
    (exists w, s' = set_fs_w w s) /\ match r with inl l => length l = length a | inr _ => True end).
Proof.
  apply (retry_spec anyf (fun s1 : St => exists w1, s1 = set_fs_w w1 s) (fun s1 => poll_signals (fs_w s1))); [| |lia].
  - intros s1 (w1&->). destruct (sys_poll a 0 w1) as [r w2] eqn:Ek.
    eapply wp_Ok; [by apply kernel_Ok|]. pose proof (pl_poll _ _ _ _ _ Ek) as Hl. cbv beta.
    destruct r as [l|[]]; try (split; [by exists w2|done]). split; [by exists w2|]. by apply Hl.
  - exists (fs_w s). by destruct s.
Qed.

#[global] Instance poll_poll_method : PollMethod method_of poll_inv poll_can poll_can_reg poll_unknown.
Proof.
  split.
  - intros o v w' (p&Hp&Hi) _. exists p. split; [done|]. eapply pinv_same; [| | |exact Hi]; reflexivity.
  - intros v f (p&_&Hi) Hf. rewrite (pi_notify _ _ _ Hi) in Hf. by apply not_elem_of_nil in Hf.
  - intros v f m' q (p&Hp&Hi) Hf Hm Hq _ _. exists p. split; [done|]. by apply pinv_client.
  - intros v f (p&Hp&Hi) Hf. exists p. split; [done|]. by apply pinv_open.
  - intros v f m b w (p&Hp&Hi) Hf. exists p. split; [done|]. by eapply pinv_alter.
  - intros v f m b w Hu Hf m'. cbn. rewrite lookup_insert_eq. intros [= <-]. by apply (Hu m).
  - intros s v f m q w (p&Hp&Hi) Hf (Hn&Hw&Hfresh) Hr _ Hq Emv. unfold method_register.
    assert (exists mn, fs_method s = Some mn /\ (mn = MPoll \/ mn = MPpoll)) as (mn&Hmn&Hmn2).
    { pose proof (f_equal mv_method Emv) as E. cbn in E. destruct (pi_method _ _ _ Hi) as [Em|Em]; rewrite Em in E; eauto. }
    wrun (the_method_Ok method_of s mn Hmn).
    assert (pm_register_fd (method_of mn) = Some iv_fd_poll_register_fd) as ->.
    { destruct Hmn2 as [-> | ->]; [by rewrite Hpoll|by rewrite Hppoll]. }
    assert (mv_objs (mv s) !! f = Some m) as Hfs by (rewrite Emv; apply lookup_insert_eq).
    apply mv_lookup_inv in Hfs as Hfo. destruct Hfo as (o&Ho&->).
    unfold iv_fd_poll_register_fd. wrun (load_fd_Ok _ _ _ Ho). destruct (Z.leb_spec IV_FD_POLL_MAXFD (fd_fd o)); [done|].
    eapply wp_Ok; [by apply upd_fd_Ok|]. split_and!.
    + by apply quiet_index.
    + exists p. split; [by rewrite <-Hp, mv_upd, Emv|]. rewrite mv_upd, Emv.
      pose proof (pinv_new p v f (meth_obj (set_u_index (-1) o)) q Hi Hf Hr eq_refl) as Hnew.
      eapply pinv_same; [| | |apply Hnew]; cbn; try done.
      * by rewrite insert_insert_eq.
      * unfold iq_init in Hq. case_decide; [done|]. by injection Hq as <-.
    + intros m'. rewrite mv_upd. cbn. rewrite lookup_insert_eq. by intros [= <-].
    + exists (meth_obj (set_u_index (-1) o)). split; [apply mv_lookup, lookup_upd_eq|]. by right.
  - intros s f m Hi Hf Hcan Hr. apply mv_lookup_inv in Hf as (o&Ho&->).
    apply (run_poll_method (fun m => pm_notify_fd m f) s (Some f)); [done|by rewrite Hpoll, Hppoll|].
    rewrite Hpoll. eapply wp_mono; [apply (poll_notify_spec s f o); [done|done|done|by left]|]. cbv beta. intros _ s' (?&?&_). done.
  - intros s f m Hi Hf Hcan Hr Hw. apply mv_lookup_inv in Hf as (o&Ho&->). wbind.
    apply (run_poll_method (fun m => pm_notify_fd m f) s (Some f)); [done|by rewrite Hpoll, Hppoll|].
    rewrite Hpoll. eapply wp_mono; [apply (poll_notify_spec s f o); [done|done|done|by right]|]. cbv beta. intros _ s' (Hq&Hi'&_).
    unfold method_unregister. apply (run_poll_method (fun m => match pm_unregister_fd m with
      Some u => u f | None => mret tt end) s' None); [done|by rewrite Hpoll, Hppoll|].
    rewrite Hpoll. by eapply wp_Ok; [reflexivity|].
  - intros s f m Hi Hf Hr Hw Hu. pose proof (Hu _ Hf) as Hix. apply mv_lookup_inv in Hf as (o&Ho&->).
    apply (run_poll_method (fun m => pm_notify_fd_sync m f) s (Some f)); [done|by rewrite Hpoll, Hppoll|].
    rewrite Hpoll. cbn [pm_notify_fd_sync iv_fd_poll_method_poll]. unfold iv_fd_poll_notify_fd_sync.
    wrun (load_fd_Ok _ _ _ Ho). wprim. wbind. eapply wp_mono; [apply sync_call_spec|].
    cbv beta. intros r s1 [[w ->] Hl].
    assert (poll_inv (Some f) (mv (set_fs_w w s))) as Hi1.
    { destruct Hi as (p&Hp&Hi). exists p. split; [done|]. eapply pinv_same; [| | |exact Hi]; reflexivity. }
    assert (forall r, r <> 0 -> wp anyf (mret r : M St Z) (set_fs_w w s) (fun ret s' => quiet s s' /\
      if decide (ret = 0) then poll_inv None (mv s') /\
        exists m', mv_objs (mv s') !! f = Some m' /\ forall w, poll_can (set_wanted_bands w m')
      else poll_inv (Some f) (mv s') /\ poll_unknown (mv s') f)) as Hfail.
    { intros r0 Hr0. eapply wp_Ok; [reflexivity|]. split; [done|]. rewrite decide_False by done. done. }
    destruct r as [revents|er]; [|by apply Hfail].
    destruct revents as [|r0 rs]; [done|]. wprim. destruct (has r0 POLLNVAL); [by apply Hfail|].
    wbind. eapply wp_mono; [apply (poll_notify_spec (set_fs_w w s) f o); [done|done|by right|by left]|].
    cbv beta. intros _ s2 (Hq2&Hi2&o'&Ho'&Hne). eapply wp_Ok; [reflexivity|]. split; [done|].
    rewrite decide_True by done. split; [done|]. exists (meth_obj o'). split; [by apply mv_lookup|].
    intros w2. left. by apply Hne.
  - intros s f m Hi Hf Hr Hu. unfold method_unregister.
    apply (run_poll_method (fun m => match pm_unregister_fd m with
      Some u => u f | None => mret tt end) s (Some f)); [done|by rewrite Hpoll, Hppoll|].
    rewrite Hpoll. eapply wp_Ok; [reflexivity|]. split; [done|]. destruct Hi as (p&Hp&Hi). exists p. split; [done|].
    by eapply pinv_drop; [| | |apply Hu].
Qed.

(** *** Polling *)
Abbreviation ok := (fd_ok (inv := poll_inv)).

Lemma ok_ps (s : St) p : ok s -> pm_u (fs_pm s) = UPoll p -> poll_inv_at p None (mv s).
Proof. intros [_ (p'&Hp'&Hi)] Hp. change (pm_u (fs_pm s) = UPoll p') in Hp'. congruence. Qed.

Lemma read_array_spec n i (s : St) p : ok s -> pm_u (fs_pm s) = UPoll p -> 0 <= i -> i + Z.of_nat n <= num_regd_fds p ->
  exists a, read_array n i s = Ok (a, s) /\ length a = n.
Proof.
  intros Hok Hp. pose proof (ok_ps _ _ Hok Hp) as Hi. pose proof (slots_fit _ _ _ Hi) as [Hfit _].
  revert i. induction n as [|n IH]; intros i H0 Hn; [by exists []|].
  destruct (pi_slots _ _ _ Hi i) as (f&m&_&_&(_&_&e&He&_)); [lia|].
  destruct (IH (i + 1)) as (a&Ha&Hlen); [lia|lia|]. cbn [read_array].
  mrun (load_pfd_Ok s p i e Hp ltac:(lia) He). mrun Ha. eexists. split; [reflexivity|]. cbn. lia.
Qed.

(** Only the [revents] of entries in use change. *)
Lemma store_revents_spec l i (s : St) p : ok s -> pm_u (fs_pm s) = UPoll p -> 0 <= i ->
  i + Z.of_nat (length l) <= num_regd_fds p ->
  exists p', store_revents i l s = Ok (tt, with_ps p' s) /\ ok (with_ps p' s) /\ num_regd_fds p' = num_regd_fds p.
Proof.
  revert i s p. induction l as [|r l IH]; intros i s p Hok Hp H0 Hl.
  { exists p. assert (with_ps p s = s) as ->; [|done]. unfold with_ps. destruct s as [????????? [u g]]; cbn in *. by subst u. }
  pose proof (ok_ps _ _ Hok Hp) as Hi. pose proof (slots_fit _ _ _ Hi) as [Hfit _]. cbn [length] in Hl.
  destruct (pi_slots _ _ _ Hi i) as (f&m&_&_&(_&_&e&He&_)); [lia|].
  cbn [store_revents]. mrun (upd_pfd_Ok s p i (set_pfd_revents r) Hp ltac:(lia)). rewrite He. cbn [default].
  set (p1 := mk_ps _ _ _).
  assert (ok (with_ps p1 s)) as Hok1.
  { split; [apply Hok|]. exists p1. split; [done|]. destruct Hi as [H1 H2 H3 H4 H5 H6 H7 H8].
    assert (forall k g mg, slot_for p None k g mg -> slot_for p1 None k g mg) as Hs.
    { intros k g mg (?&?&e'&He'&?&?). split_and!; [done|done|]. cbn. destruct (decide (k = i)) as [->|Hk].
      - rewrite lookup_insert_eq. eexists. split; [done|]. assert (e' = e) as -> by congruence. done.
      - rewrite lookup_insert_ne by done. by exists e'. }
    split; try done.
    - intros k Hk. destruct (H4 k Hk) as (g&mg&?&?&?). exists g, mg. auto.
    - intros g mg Hg Hl1. destruct (H5 g mg Hg Hl1) as [?|[??]]; auto. }
  destruct (IH (i + 1) (with_ps p1 s) p1 Hok1 eq_refl) as (p'&He'&Hok'&Hn'); [lia|cbn; lia|].
  exists p'. rewrite He'. split_and!; [done|exact Hok'|exact Hn'].
Qed.

Lemma activate_loop_spec n i (s : St) p : ok s -> pm_u (fs_pm s) = UPoll p -> 0 <= i -> i + Z.of_nat n <= num_regd_fds p ->
  wp anyf (activate_loop n i) s (fun _ s' => ok s' /\ fs_handled s' = fs_handled s /\ fs_ran s' = fs_ran s).
Proof.
  revert i s. induction n as [|n IH]; intros i s Hok Hp H0 Hn; [by eapply wp_Ok; [reflexivity|]|].
  pose proof (ok_ps _ _ Hok Hp) as Hi. pose proof (slots_fit _ _ _ Hi) as [Hfit _].
  destruct (pi_slots _ _ _ Hi i) as (f&m&Hf&[Hr|?]&(Hfs&_&e&He&_)); [lia| |done].
  assert (is_registered (fs_fds s) f) as Hreg by (apply is_registered_meth; by exists m).
  cbn [activate_loop]. wrun (load_pobj_Ok s p i f Hp ltac:(lia) Hfs). wrun (load_pfd_Ok s p i e Hp ltac:(lia) He). cbv zeta.
  assert (forall (b : bool) bands (s1 : St), ok s1 -> mv s1 = mv s -> wp anyf (when b (iv_fd_make_ready f bands)) s1
    (fun _ s2 => ok s2 /\ fs_handled s2 = fs_handled s1 /\ fs_ran s2 = fs_ran s1 /\ mv s2 = mv s)) as Hstep.
  { intros b bands s1 Hok1 E. destruct b; cbn [when]; [|by eapply wp_Ok; [reflexivity|]].
    eapply wp_mono; [apply (make_ready_spec (inv := poll_inv) s1); [done|]|].
    - apply is_registered_meth. rewrite E. by apply is_registered_meth.
    - cbv beta. intros _ s2 (?&?&?&?). split_and!; [done|done|done|congruence]. }
  wbind. eapply wp_mono; [by apply Hstep|]. cbv beta. intros _ s1 (Hok1&Eh1&Er1&Em1).
  wbind. eapply wp_mono; [by apply Hstep|]. cbv beta. intros _ s2 (Hok2&Eh2&Er2&Em2).
  wbind. eapply wp_mono; [by apply Hstep|]. cbv beta. intros _ s3 (Hok3&Eh3&Er3&Em3).
  eapply wp_mono; [apply IH; [done| |lia|lia]|].
  - pose proof (f_equal mv_pm Em3) as E. cbn in E. by rewrite E.
  - cbv beta. intros _ s4 (?&?&?). split_and!; [done|congruence..].
Qed.

(** The part of a poll after a successful call. *)
Lemma harvest_spec (s : St) p l : ok s -> pm_u (fs_pm s) = UPoll p -> length l = Z.to_nat (num_regd_fds p) ->
  wp anyf (store_revents 0 l;; iv_fd_poll_activate_fds;; mret true) s
    (fun _ s' => ok s' /\ fs_handled s' = fs_handled s /\ fs_ran s' = fs_ran s).
Proof.
  intros Hok Hp Hl. pose proof (pi_num _ _ _ (ok_ps _ _ Hok Hp)) as Hn.
  destruct (store_revents_spec l 0 s p Hok Hp) as (p'&He&Hok'&Hn'); [lia|lia|]. wrun He.
  unfold iv_fd_poll_activate_fds. wbind. wrun (load_ps_Ok (with_ps p' s) p' eq_refl).
  eapply wp_mono; [apply (activate_loop_spec _ 0 (with_ps p' s) p' Hok' eq_refl); lia|].
  cbv beta. intros _ s2 (?&?&?). by eapply wp_Ok; [reflexivity|].
Qed.

Lemma polled_quiet (s s1 : St) : ok s1 -> fs_handled s1 = fs_handled s -> fs_ran s1 = fs_ran s ->
  polled (inv := poll_inv) s s1.
Proof. intros O E1 E2. split; [done|by left|]. exists []. by rewrite app_nil_r. Qed.

Lemma ok_world (s : St) w t : ok s -> ok (set_fs_timer t (set_fs_w w s)).
Proof. intros [Hc (p&Hp&Hi)]. split; [done|]. exists p. split; [done|]. eapply pinv_same; [| | |exact Hi]; reflexivity. Qed.

Lemma poll_poll_spec abs (s : St) : ok s ->
  wp anyf (iv_fd_poll_poll clock_gettime gettimeofday abs) s (fun _ s' => polled (inv := poll_inv) s s').
Proof.
  intros Hok. pose proof Hok as [_ (p&Hp&Hi)]. change (pm_u (fs_pm s) = UPoll p) in Hp.
  pose proof (pi_num _ _ _ Hi) as Hn. unfold iv_fd_poll_poll. wrun (load_ps_Ok s p Hp).
  destruct (read_array_spec (Z.to_nat (num_regd_fds p)) 0 s p Hok Hp) as (a&Ha&Hla); [lia|lia|]. wrun Ha.
  destruct (on_to_msec clock_gettime gettimeofday abs s) as (msec&t'&Er). wrun Er.
  destruct (sys_poll a msec (fs_w (set_fs_timer t' s))) as [r w'] eqn:Ek. wrun (kernel_Ok _ (set_fs_timer t' s) r w' Ek).
  pose proof (pl_poll _ _ _ _ _ Ek) as Hl.
  wrun (invalidate_Ok (set_fs_w w' (set_fs_timer t' s))). set (s1 := set_fs_timer _ _).
  assert (ok s1) as Hok1 by (apply (ok_world s w'); done).
  destruct r as [l|[]]; try done.
  - eapply wp_mono; [apply (harvest_spec s1 p l Hok1 Hp); lia|]. cbv beta. intros _ s2 (?&?&?). by apply polled_quiet.
  - eapply wp_Ok; [reflexivity|]. by apply polled_quiet.
Qed.

Lemma ppoll_poll_spec abs (s : St) : ok s ->
  wp anyf (iv_fd_poll_ppoll clock_gettime gettimeofday abs) s (fun _ s' => polled (inv := poll_inv) s s').
Proof.
  intros Hok. pose proof Hok as [_ (p&Hp&Hi)]. change (pm_u (fs_pm s) = UPoll p) in Hp.
  pose proof (pi_num _ _ _ Hi) as Hn. unfold iv_fd_poll_ppoll. wrun (load_ps_Ok s p Hp).
  destruct (read_array_spec (Z.to_nat (num_regd_fds p)) 0 s p Hok Hp) as (a&Ha&Hla); [lia|lia|]. wrun Ha.
  destruct (on_to_relative clock_gettime gettimeofday abs s) as (rel&t'&Er).
  wrun Er.
  destruct (sys_ppoll a rel (fs_w (set_fs_timer t' s))) as [r w'] eqn:Ek. wrun (kernel_Ok _ (set_fs_timer t' s) r w' Ek).
  pose proof (pl_ppoll _ _ _ _ _ Ek) as Hl.
  wrun (invalidate_Ok (set_fs_w w' (set_fs_timer t' s))). set (s1 := set_fs_timer _ _).
  assert (ok s1) as Hok1 by (apply (ok_world s w'); done).
  destruct r as [l|[]]; try done.
  - eapply wp_mono; [apply (harvest_spec s1 p l Hok1 Hp); lia|]. cbv beta. intros _ s2 (?&?&?). by apply polled_quiet.
  - eapply wp_Ok; [reflexivity|]. by apply polled_quiet.
  - wprim. assert (ok (set_fs_method (Some MPoll) s1)) as Hok2.
    { destruct Hok1 as [Hc1 (p1&Hp1&[H1 H2 H3 H4 H5 H6 H7 H8])]. split; [done|]. exists p1. split; [done|]. split; try done. by left. }
    eapply wp_mono; [by apply poll_poll_spec|]. cbv beta. intros _ s2 [O H (l&R&F)]. split; [done|done|by exists l].
Qed.

#[global] Instance poll_poll_functions : PollFunctions method_of (inv := poll_inv).
Proof.
  split.
  - intros s abs Hok _. pose proof Hok as [_ (p&_&Hi)]. destruct (pi_method _ _ _ Hi) as [Em|Em]; cbn [mv mv_method] in Em.
    + wrun (the_method_Ok method_of s _ Em). rewrite Hpoll. by apply poll_poll_spec.
    + wrun (the_method_Ok method_of s _ Em). rewrite Hppoll. by apply ppoll_poll_spec.
  - intros s abs set [_ (p&_&Hi)] _ (m&Hm&Hset). exfalso.
    destruct (pi_method _ _ _ Hi) as [Em|Em]; cbn [mv mv_method] in Em; rewrite Em in Hm; injection Hm as <-.
    + by rewrite Hpoll in Hset.
    + by rewrite Hppoll in Hset.
  - intros s m [_ (p&_&Hi)] Hm [set Hset]. exfalso.
    destruct (pi_method _ _ _ Hi) as [Em|Em]; cbn [mv mv_method] in Em; rewrite Em in Hm; injection Hm as <-.
    + by rewrite Hpoll in Hset.
    + by rewrite Hppoll in Hset.
  - intros s [_ (p&_&Hi)]. destruct (pi_method _ _ _ Hi) as [Em|Em]; cbn [mv mv_method] in Em; rewrite Em; eauto.
Qed.
End poll.
