(* ===== verification/FdMethods.v ===== *)
(** * The file descriptor layer as a whole

    The core of Fd.v with the eight poll methods of FdPoll.v, FdEpoll.v, FdKqueue.v,
    FdDevPoll.v and FdPort.v plugged in: what [iv_fd_init] picks, the client's contract, programs of client calls and
    polling rounds, and the proof that whatever method is picked, a program stays
    within well-formed states. *)

From Stdlib Require Import Ascii.
From S2P Require Import Prelude ISeq Timer Sys Fd PmState FdPoll FdEpoll FdKqueue FdDevPoll FdPort FdSpec FdCore FdDeferred FdEpollSpec FdPollSpec FdKqueueSpec FdDevPollSpec FdPortSpec.

Local Open Scope Z_scope.

(** What [iv_fd_init] relies on of the process: limits are not negative, and the
    calls it makes leave the environment and the user alone. *)
Class ProcessLaws (W : Type) `{!FdKernel W} : Prop := {
  pr_rlimit : forall w, 0 <= (sys_getrlimit w).1;
  pr_ignore : forall w, sys_getenv (sys_ignore_signals w) = sys_getenv w /\
    sys_getuid (sys_ignore_signals w) = sys_getuid w;
  pr_setrlimit : forall l w, sys_getenv (sys_setrlimit l w).2 = sys_getenv w /\
    sys_getuid (sys_setrlimit l w).2 = sys_getuid w }.

(** The kernel calls of all the methods, and their laws; a given kernel has one or two
    of them, and fails the opening calls of the others. *)
Class PollKernels (W : Type) := {
  #[global] pk_epoll :: EpollKernel W;
  #[global] pk_poll :: PollKernel W;
  #[global] pk_kqueue :: KqueueKernel W;
  #[global] pk_dev_poll :: DevPollKernel W;
  #[global] pk_port :: PortKernel W }.
Class PollKernelsLaws (W : Type) `{!FdKernel W, !PollKernels W} : Prop := {
  #[global] pl_epoll :: EpollLaws W;
  #[global] pl_poll :: PollLaws W;
  #[global] pl_kqueue :: KqueueLaws W;
  #[global] pl_dev_poll :: DevPollLaws W;
  #[global] pl_port :: PortLaws W }.

Section methods.
Context {W : Type} `{!FdKernel W, !PollKernels W}.
Context (clock_gettime : nat -> clockid -> option timespec) (gettimeofday : nat -> Z * Z).
Context (handler : list activation -> list fd_call).
Abbreviation St := (fd_state pm_state W).

Definition methods_with (run_pending_events : M St unit) (m : method_name) : iv_fd_poll_method St :=
  match m with
  | MPortTimer => iv_fd_poll_method_port_timer clock_gettime gettimeofday run_pending_events
  | MPort => iv_fd_poll_method_port clock_gettime gettimeofday run_pending_events
  | MDevPoll => iv_fd_poll_method_dev_poll clock_gettime gettimeofday
  | MEpollTimerfd => iv_fd_poll_method_epoll_timerfd clock_gettime gettimeofday run_pending_events
  | MEpoll => iv_fd_poll_method_epoll clock_gettime gettimeofday run_pending_events
  | MKqueue => iv_fd_poll_method_kqueue clock_gettime gettimeofday run_pending_events
  | MPpoll => iv_fd_poll_method_ppoll clock_gettime gettimeofday
  | MPoll => iv_fd_poll_method_poll clock_gettime gettimeofday
  end.

(** What [poll] and [ppoll] add to the client's contract: descriptors are not
    registered twice, and no object is without handlers around a call that
    notifies the method. *)
Definition fresh_fd (n : Z) (s : St) : bool :=
  forallb (fun p : loc * iv_fd_ => negb (registered p.2 && (fd_fd p.2 =? n))) (map_to_list (fs_fds s)).
Definition has_handler (o : iv_fd_) : bool := negb (wanted_flags (set_registered true o) =? 0).
Definition poll_legal (c : fd_call) (s : St) : bool :=
  let with_obj f test := match fs_fds s !! f with Some o => test o | None => true end in
  match c with
  | FInit _ | FAssign _ _ _ _ _ | FFree _ => true
  | FRegister f => with_obj f (fun o => has_handler o && fresh_fd (fd_fd o) s)
  | FRegisterTry f => with_obj f (fun o => fresh_fd (fd_fd o) s)
  | FUnregister f => with_obj f has_handler
  | FSetIn f h => with_obj f (fun o => has_handler o || has_handler (set_handler_in h o))
  | FSetOut f h => with_obj f (fun o => has_handler o || has_handler (set_handler_out h o))
  | FSetErr f h => with_obj f (fun o => has_handler o || has_handler (set_handler_err h o))
  end.
Definition legal (c : fd_call) (s : St) : bool :=
  match fs_method s with Some MPoll | Some MPpoll => poll_legal c s | _ => true end.

(** Handlers, and so pending events, call the client's half of the methods only. *)
Definition client_methods : method_name -> iv_fd_poll_method St := methods_with undef.
Definition run_pending_events : M St unit := activate client_methods handler legal AEvents.
Definition methods : method_name -> iv_fd_poll_method St := methods_with run_pending_events.

(** A thread before [iv_init]: [m] is the method an earlier thread settled on. *)
Definition blank (m : option method_name) (g : epoll_static) (t : timer_state) (w : W) : St :=
  mk_fs ∅ (mk_iseq [] ∅) (mk_iseq [] ∅) 0 0 None (mk_tsp 0 0) 0 m (mk_pms UNone g) t w [].

(** A program: calls (of tasks and timers, say), then a polling round, and so on. *)
Fixpoint run_program (p : list (list fd_call * option timespec)) : M St unit :=
  match p with
  | [] => mret tt
  | (cs, abs) :: p =>
      run_fd_calls methods legal cs;; iv_fd_poll_and_run methods handler legal abs;; run_program p
  end.

(** ** The invariant, whichever method is in use *)
Inductive family := FamEpoll | FamPoll | FamKqueue | FamDevPoll | FamPort.
Definition fam_inv (k : family) : option loc -> mview pm_state W -> Prop :=
  match k with
  | FamEpoll => epoll_inv | FamPoll => poll_inv | FamKqueue => kqueue_inv
  | FamDevPoll => dev_poll_inv | FamPort => port_inv
  end.
Definition fam_can (k : family) : iv_fd_ -> Prop :=
  match k with FamEpoll => epoll_can | FamPoll => poll_can | _ => deferred_can end.
Definition fam_can_reg (k : family) : mview pm_state W -> Z -> Z -> Prop :=
  match k with FamEpoll => epoll_can_reg | FamPoll => poll_can_reg | _ => deferred_can_reg end.
Definition fam_unknown (k : family) : mview pm_state W -> loc -> Prop :=
  match k with FamEpoll => epoll_unknown | FamPoll => poll_unknown | _ => deferred_unknown end.
Definition fam_ok (k : family) : St -> Prop := fd_ok (inv := fam_inv k).
Definition eok : St -> Prop := fam_ok FamEpoll.
Definition pok : St -> Prop := fam_ok FamPoll.
Definition fds_ok (s : St) : Prop := (exists k, fam_ok k s) /\ members (fs_active s) = [].

Context {HL : PollKernelsLaws W}.

Definition family_of (m : method_name) : family :=
  match m with
  | MEpoll | MEpollTimerfd => FamEpoll
  | MPoll | MPpoll => FamPoll
  | MKqueue => FamKqueue
  | MDevPoll => FamDevPoll
  | MPort | MPortTimer => FamPort
  end.
Lemma fam_method k s : fam_ok k s -> exists m, fs_method s = Some m /\ family_of m = k.
Proof.
  destruct k; intros [_ H]; cbn in H.
  - destruct H as (e&_&Hi). destruct (ei_method _ _ _ Hi) as [E|E]; cbn in E; eauto.
  - destruct H as (p&_&Hi). destruct (pi_method _ _ _ Hi) as [E|E]; cbn in E; eauto.
  - destruct H as (x&[E _]&_). cbn in E. eauto.
  - destruct H as (x&[E _]&_). cbn in E. eauto.
  - destruct H as (x&[[E|E] _]&_); cbn in E; eauto.
Qed.
Lemma fds_ok_family s m : fds_ok s -> fs_method s = Some m -> fam_ok (family_of m) s.
Proof. intros [[k H] _] Hm. destruct (fam_method k s H) as (m'&Hm'&<-). assert (m' = m) as <- by congruence. done. Qed.

Lemma poll_inv_method s : pok s -> fs_method s = Some MPoll \/ fs_method s = Some MPpoll.
Proof. intros [_ (p&_&Hi)]. exact (pi_method _ _ _ Hi). Qed.
Lemma epoll_inv_method s : eok s -> fs_method s = Some MEpoll \/ fs_method s = Some MEpollTimerfd.
Proof. intros [_ (p&_&Hi)]. exact (ei_method _ _ _ Hi). Qed.

Lemma fresh_fd_spec n s g m : fresh_fd n s = true -> mv_objs (mv s) !! g = Some m -> registered m = true -> fd_fd m <> n.
Proof.
  clear. intros Hf Hg Hr E. apply mv_lookup_inv in Hg as (o&Ho&->). unfold fresh_fd in Hf. rewrite forallb_forall in Hf.
  assert (In (g, o) (map_to_list (fs_fds s))) as Hin by (apply list_elem_of_In, elem_of_map_to_list, Ho).
  apply Hf in Hin. cbn in *. by rewrite Hr, (proj2 (Z.eqb_eq _ _) E) in Hin.
Qed.

(** The index of a registered object says whether it wants a band. *)
Lemma poll_can_told s f o o' : pok s -> fs_fds s !! f = Some o -> registered o = true ->
  has_handler o = true \/ wanted_bands o' <> 0 -> u_index o' = u_index o -> poll_can (meth_obj o').
Proof.
  clear. intros [Hc (p&_&Hi)] Hf Hr [Hh|Hw] E; [left|by right]. change (u_index o' <> -1). rewrite E. intros Ei.
  pose proof (pi_wanted _ _ _ Hi f (meth_obj o) (mv_lookup _ _ _ Hf) Hr ltac:(done)) as [H _].
  pose proof (co_wanted _ Hc f (core_obj o) (cv_lookup _ _ _ Hf) Hr) as Hw. cbn in Hw.
  unfold has_handler in Hh. rewrite (set_registered_id true o Hr) in Hh.
  change (wanted_flags (core_obj o)) with (wanted_flags o) in Hw. rewrite <-Hw in Hh.
  rewrite (H Ei : wanted_bands o = 0) in Hh. done.
Qed.

Lemma poll_legal_ok c s : pok s -> legal c s = true -> can_call (can := poll_can) (can_reg := poll_can_reg) c s.
Proof.
  clear HL. intros Hok Hl.
  assert (poll_legal c s = true) as Hp.
  { unfold legal in Hl. destruct (poll_inv_method _ Hok) as [E|E]; by rewrite E in Hl. }
  clear Hl. destruct c as [f|f n hi ho he|f|f|f|f|f h|f h|f h]; try done; intros o Hf Hr; cbn in Hp; rewrite Hf in Hp.
  - apply andb_prop in Hp as [Hh Hp]. intros Hn. split_and!; [done| |].
    + unfold has_handler in Hh. by destruct (Z.eqb_spec (wanted_flags (set_registered true o)) 0).
    + intros. by eapply fresh_fd_spec.
  - intros Hn. split_and!; [done| |].
    + by destruct (Z.eqb_spec (wanted_flags (set_registered true o)) 0).
    + intros. by eapply fresh_fd_spec.
  - eapply (poll_can_told s f o); [done|done|done|by left|done].
  - eapply (poll_can_told s f o); [done|done|done| |done]. apply orb_prop in Hp as [?|Hp]; [by left|right].
    unfold has_handler in Hp. rewrite set_registered_id in Hp by done.
    by destruct (Z.eqb_spec (wanted_flags (set_handler_in h o)) 0).
  - eapply (poll_can_told s f o); [done|done|done| |done]. apply orb_prop in Hp as [?|Hp]; [by left|right].
    unfold has_handler in Hp. rewrite set_registered_id in Hp by done.
    by destruct (Z.eqb_spec (wanted_flags (set_handler_out h o)) 0).
  - eapply (poll_can_told s f o); [done|done|done| |done]. apply orb_prop in Hp as [?|Hp]; [by left|right].
    unfold has_handler in Hp. rewrite set_registered_id in Hp by done.
    by destruct (Z.eqb_spec (wanted_flags (set_handler_err h o)) 0).
Qed.

Lemma fam_legal k c s : fam_ok k s -> legal c s = true -> can_call (can := fam_can k) (can_reg := fam_can_reg k) c s.
Proof. destruct k; [by destruct c|apply poll_legal_ok|by destruct c..]. Qed.

(** ** Client calls and rounds keep it *)
#[local] Instance methods_family rp k : PollMethod (methods_with rp) (fam_inv k) (fam_can k) (fam_can_reg k) (fam_unknown k).
Proof.
  destruct k.
  - exact (epoll_poll_method clock_gettime gettimeofday rp _ eq_refl eq_refl).
  - exact (poll_poll_method clock_gettime gettimeofday _ eq_refl eq_refl).
  - exact (kqueue_poll_method clock_gettime gettimeofday rp _ eq_refl).
  - exact (dev_poll_poll_method clock_gettime gettimeofday _ eq_refl).
  - exact (port_poll_method clock_gettime gettimeofday rp _ eq_refl eq_refl).
Qed.

Lemma pending_spec k (s : St) : fam_ok k s -> wp anyf run_pending_events s (fun _ s' => polled (inv := fam_inv k) s s').
Proof.
  intros Hok. eapply wp_mono; [apply (activate_spec client_methods handler legal (fam_legal k)); exact Hok|].
  cbv beta. intros _ s' [O R _ Hh]. split; [done|done|]. exists [AEvents]. split; [done|]. by apply Forall_singleton.
Qed.

#[local] Instance full_family_functions k : PollFunctions methods (inv := fam_inv k).
Proof.
  destruct k.
  - exact (epoll_poll_functions clock_gettime gettimeofday run_pending_events methods eq_refl eq_refl (pending_spec FamEpoll)).
  - exact (poll_poll_functions clock_gettime gettimeofday methods eq_refl eq_refl).
  - exact (kqueue_poll_functions clock_gettime gettimeofday run_pending_events methods eq_refl (pending_spec FamKqueue)).
  - exact (dev_poll_poll_functions clock_gettime gettimeofday methods eq_refl).
  - exact (port_poll_functions clock_gettime gettimeofday run_pending_events methods eq_refl eq_refl (pending_spec FamPort)).
Qed.

Lemma calls_ok (s : St) cs : fds_ok s -> wp anyf (run_fd_calls methods legal cs) s (fun _ s' =>
  fds_ok s' /\ fs_ran s' = fs_ran s).
Proof.
  intros [[k H] Ha]. eapply wp_mono; [apply (fd_calls_kept methods legal (fam_legal k) s cs H)|]. cbv beta.
  intros _ s' [O R A _]. split; [split; [by exists k|]|done]. rewrite Ha in A. by apply sublist_nil_r in A.
Qed.

(** What a round does: it may run pending events ([l1]); then, for the objects the
    method reported, each once and in order, the error, the input and the output
    handler ([l2]), skipping some. *)
Definition a_round (s s' : St) : Prop := exists reported l1 l2,
  fds_ok s' /\ fs_ran s' = fs_ran s ++ l1 ++ l2 /\ Forall (fun a => a = AEvents) l1 /\ Forall allowed l2 /\
  NoDup reported /\ sublist (l2 ≫= what) (reported ≫= bands_of).

Lemma round_ok (s : St) abs : fds_ok s ->
  wp anyf (iv_fd_poll_and_run methods handler legal abs) s (fun _ s' => a_round s s').
Proof.
  intros [[k H] Ha]. eapply wp_mono; [apply (poll_and_run_spec methods handler legal (fam_legal k) s abs H Ha)|]. cbv beta.
  intros _ s' (rep&l1&l2&[O R E A Or N D]). exists rep, l1, l2. split; [split; [by exists k|done]|done].
Qed.

Lemma round_exact (s : St) abs run_timers s' : fds_ok s ->
  iv_fd_poll_and_run methods handler legal abs s = Ok (run_timers, s') ->
  exists s1 l1 l2, round_polls methods s abs run_timers s1 /\
    fs_ran s1 = fs_ran s ++ l1 /\ Forall (fun a => a = AEvents) l1 /\ NoDup (members (fs_active s1)) /\
    objects_done methods handler legal s1 l2 s' /\ fs_ran s' = fs_ran s1 ++ l2 /\ Forall allowed l2 /\
    sublist (l2 ≫= what) (members (fs_active s1) ≫= bands_of).
Proof. intros [[k H] Ha]. by apply (poll_and_run_exact methods handler legal (fam_legal k) s). Qed.

Lemma program_ok p (s : St) : fds_ok s -> wp anyf (run_program p) s (fun _ s' => fds_ok s').
Proof.
  revert s. induction p as [|[cs abs] p IH]; intros s Hs; [done|]. cbn [run_program].
  wuse (calls_ok s cs Hs). destruct H as [Hs1 _]. wuse (round_ok s' abs Hs1).
  destruct H as (rep&l1&l2&Hs2&_). by apply IH.
Qed.

(** ** Initialisation *)
Record is_blank (s : St) : Prop := {
  bl_fds : fs_fds s = ∅;
  bl_active : fs_active s = mk_iseq [] ∅;
  bl_notify : members (fs_notify s) = [];
  bl_numobjs : fs_numobjs s = 0;
  bl_numfds : fs_numfds s = 0;
  bl_handled : fs_handled s = None;
  bl_ran : fs_ran s = [] }.

(** The private state of method [m] is as its [init] leaves it. *)
Definition fresh_union (m : method_name) (s : St) : Prop :=
  match m with
  | MEpoll | MEpollTimerfd => exists e, pm_u (fs_pm s) = UEpoll e /\ epoll_interest (epoll_fd e) (fs_w s) = ∅
  | MPoll | MPpoll => pm_u (fs_pm s) = UPoll (mk_ps ∅ ∅ 0)
  | MKqueue => exists n, pm_u (fs_pm s) = UKqueue (mk_kq n false None) /\ kq_knotes n (fs_w s) = ∅
  | MDevPoll => exists n, pm_u (fs_pm s) = UDevPoll (mk_dp n ∅) /\ dp_interest n (fs_w s) = ∅
  | MPort | MPortTimer => exists n, pm_u (fs_pm s) = UPort (mk_port n (-1)) /\ port_assoc n (fs_w s) = ∅
  end.

Lemma blank_core (s : St) : is_blank s -> core_ok (cv s).
Proof.
  intros [H1 H2 H3 H4 H5 H6 H7]. unfold cv. rewrite H1, H2, H4, H5, H6. rewrite fmap_empty.
  split; cbn; try done; [split; cbn; [constructor|by intros ??%not_elem_of_nil]|by intros ??%not_elem_of_nil].
Qed.

Lemma blank_ok (s : St) m : is_blank s -> fs_method s = Some m -> fresh_union m s -> fds_ok s.
Proof.
  intros Hb Hm Hu. split; [|by rewrite (bl_active _ Hb)]. pose proof (blank_core _ Hb) as Hc.
  assert (forall f x, mv_objs (mv s) !! f = Some x -> False) as Hno.
  { intros f x. unfold mv. cbn. rewrite (bl_fds _ Hb), fmap_empty, lookup_empty. done. }
  assert (forall f, f ∉ members (mv_notify (mv s))) as Hq.
  { intros f. cbn. rewrite (bl_notify _ Hb). apply not_elem_of_nil. }
  assert (forall e, epoll_interest (epoll_fd e) (fs_w s) = ∅ -> pm_u (fs_pm s) = UEpoll e ->
    m = MEpoll \/ m = MEpollTimerfd -> eok s) as He.
  { intros e Hi He Hm'. split; [done|]. exists e. split; [done|]. split; cbn; try (intros; exfalso; by eauto).
    - destruct Hm' as [-> | ->]; auto.
    - split; cbn; rewrite (bl_notify _ Hb); [constructor|by intros ??%not_elem_of_nil].
    - rewrite (bl_notify _ Hb). by intros ??%not_elem_of_nil.
    - intros n f ev. by rewrite Hi, lookup_empty.
    - intros n ev. by rewrite Hi, lookup_empty. }
  assert (pm_u (fs_pm s) = UPoll (mk_ps ∅ ∅ 0) -> m = MPoll \/ m = MPpoll -> pok s) as Hp.
  { intros He' Hm'. split; [done|]. eexists. split; [done|]. split; cbn; try (intros; exfalso; by eauto).
    - destruct Hm' as [-> | ->]; auto.
    - apply (bl_notify _ Hb).
    - done.
    - intros i Hi. lia. }
  assert (forall X entry told world settled x, world x -> (forall f, ~ entry x f) ->
    deferred (X := X) entry told world settled x None (mv s)) as Hdef.
  { intros X entry told world settled x Hw He'. apply deferred_blank; try done; cbn; [by rewrite (bl_fds _ Hb), fmap_empty|apply (bl_notify _ Hb)]. }
  destruct m; cbn in Hu.
  1,2: destruct Hu as (n&Hu&Hn); exists FamPort; split; [done|]; eexists; split;
    [split; [auto|]; eexists; split; [exact Hu|done]|apply Hdef; [done|]]; intros f (?&?&E); cbn in E; by rewrite lookup_empty in E.
  - destruct Hu as (n&Hu&Hn). exists FamDevPoll. split; [done|]. eexists. split; [split; [done|]; eexists; split; [exact Hu|done]|].
    cbn. rewrite Hn. apply Hdef; [by intros k [??]|by intros f (?&?)].
  - destruct Hu as (e&?&?). exists FamEpoll. apply (He e); auto.
  - destruct Hu as (e&?&?). exists FamEpoll. apply (He e); auto.
  - destruct Hu as (n&Hu&Hn). exists FamKqueue. split; [done|]. eexists. split; [split; [done|]; eexists; split; [exact Hu|done]|].
    cbn. rewrite Hn. apply Hdef; [done|by intros f (?&?&?&?)].
  - exists FamPoll. apply Hp; auto.
  - exists FamPoll. apply Hp; auto.
Qed.

Lemma blank_frame (s s' : St) : is_blank s -> cv s' = cv s -> fs_fds s' = fs_fds s ->
  members (fs_notify s') = members (fs_notify s) -> fs_ran s' = fs_ran s -> is_blank s'.
Proof.
  intros [H1 H2 H3 H4 H5 H6 H7] Ec Ef En Er. injection Ec as _ Ea Eo Efd Eh. split; congruence.
Qed.

Lemma blank_kernel {A} (call : W -> A * W) (s : St) Q : is_blank s ->
  (forall a w, call (fs_w s) = (a, w) -> is_blank (set_fs_w w s) -> Q a (set_fs_w w s)) -> wp anyf (kernel call) s Q.
Proof.
  intros Hb HQ. unfold kernel, wp. destruct (call (fs_w s)) as [a w] eqn:E. apply HQ; [done|].
  by destruct Hb; split.
Qed.

(** The [init] functions: on success the method has its private state. *)
Definition init_done (m : method_name) (s : St) (r : bool) (s' : St) : Prop :=
  is_blank s' /\ fs_method s' = fs_method s /\ (r = true -> fresh_union m s').

Lemma cloexec_blank {X} (obs : W -> X) n (s : St) : (forall w w', fdk_step w w' -> obs w' = obs w) -> is_blank s ->
  wp anyf (iv_fd_set_cloexec n) s (fun _ s' => is_blank s' /\ fs_method s' = fs_method s /\ obs (fs_w s') = obs (fs_w s)).
Proof.
  intros Hobs Hb. unfold iv_fd_set_cloexec. wbind. apply blank_kernel; [done|]. intros fl w Ew Hb1. unfold when.
  assert (obs w = obs (fs_w s)) as E1.
  { pose proof (Hobs _ _ (fdk_getfd n (fs_w s))) as H. by rewrite Ew in H. }
  destruct (_ =? 0).
  - unfold kernel_. apply blank_kernel; [done|]. intros a w2 Ew2 Hb2. cbn in Ew2. injection Ew2 as <- <-.
    split; [done|]. split; [reflexivity|]. cbn. etrans; [apply (Hobs _ _ (fdk_setfd n _ w))|done].
  - eapply wp_Ok; [reflexivity|]. by split_and!.
Qed.

Lemma epollfd_grab_spec (s : St) : is_blank s -> wp anyf epollfd_grab s (fun r s' =>
  is_blank s' /\ fs_method s' = fs_method s /\ forall n, r = Some n -> epoll_interest n (fs_w s') = ∅).
Proof.
  intros Hb. unfold epollfd_grab. wprim. wbind.
  apply (wp_mono _ _ _ (fun r s' => is_blank s' /\ fs_method s' = fs_method s /\
    forall n, r = Some (Some n) -> epoll_interest n (fs_w s') = ∅)).
  { destruct (_ =? 2); [|by eapply wp_Ok; [reflexivity|]]. wbind. apply blank_kernel; [done|].
    intros r w Hk Hb1. destruct r as [n|[]]; (eapply wp_Ok; [reflexivity|]); (split; [by destruct Hb1|]); (split; [done|]); try done.
    intros m [= <-]. exact (el_create1 _ _ _ Hk). }
  intros [r|] s1 (Hb1&Hm1&Hr); [eapply wp_Ok; [reflexivity|]; split_and!; [done|done|]; by intros n ->; apply Hr|].
  wprim. destruct (negb _); [|by eapply wp_Ok; [reflexivity|]]. wbind. apply blank_kernel; [done|].
  intros r w Hk Hb2. destruct r as [n|[]]; try ((eapply wp_Ok; [reflexivity|]); (split; [by destruct Hb2|]); (split; [done|]); done).
  wbind. eapply wp_mono; [apply (cloexec_blank (epoll_interest n) n (set_fs_w w s1)); [intros ??; apply el_core|done]|]. cbv beta. intros _ s3 (Hb3&Hm3&Hi3).
  eapply wp_Ok; [reflexivity|]. split_and!; [done|by etrans|]. intros m [= <-]. rewrite Hi3. exact (el_create _ _ _ Hk).
Qed.

Lemma method_init_spec m (s : St) : is_blank s -> wp anyf (pm_init (methods m)) s (init_done m s).
Proof.
  intros Hb.
  assert (wp anyf iv_fd_epoll_init s (fun r s' => is_blank s' /\ fs_method s' = fs_method s /\ (r = true ->
    exists e, pm_u (fs_pm s') = UEpoll e /\ epoll_interest (epoll_fd e) (fs_w s') = ∅))) as He.
  { unfold iv_fd_epoll_init. wbind. eapply wp_mono; [by apply epollfd_grab_spec|]. cbv beta.
    intros [n|] s1 (Hb1&Hm1&Hr); [|by eapply wp_Ok; [reflexivity|]]. eapply wp_Ok; [reflexivity|].
    split; [by destruct Hb1|]. split; [done|]. intros _. eexists. split; [reflexivity|]. by apply Hr. }
  assert (wp anyf iv_fd_poll_init s (fun r s' => is_blank s' /\ fs_method s' = fs_method s /\ (r = true ->
    pm_u (fs_pm s') = UPoll (mk_ps ∅ ∅ 0)))) as Hp.
  { unfold iv_fd_poll_init. wbind. apply blank_kernel; [done|]. intros [] w _ Hb1; cbn [negb]; [|by eapply wp_Ok; [reflexivity|]].
    wbind. apply blank_kernel; [done|]. intros [] w2 _ Hb2; cbn [negb]; [|by eapply wp_Ok; [reflexivity|]].
    eapply wp_Ok; [reflexivity|]. split; [by destruct Hb2|]. done. }
  assert (wp anyf iv_fd_port_init s (fun r s' => is_blank s' /\ fs_method s' = fs_method s /\ (r = true ->
    exists n, pm_u (fs_pm s') = UPort (mk_port n (-1)) /\ port_assoc n (fs_w s') = ∅))) as Ho.
  { unfold iv_fd_port_init. wbind. apply blank_kernel; [done|]. intros [n|e] w Hk Hb1; [|by eapply wp_Ok; [reflexivity|]].
    wbind. eapply wp_mono; [apply (cloexec_blank (port_assoc n)); [intros ??; apply ol_core|done]|]. cbv beta.
    intros _ s1 (Hb2&Hm2&Hi). eapply wp_Ok; [reflexivity|]. split; [by destruct Hb2|]. split; [done|]. intros _. exists n.
    split; [done|]. cbn. rewrite Hi. exact (ol_create _ _ _ Hk). }
  assert (wp anyf iv_fd_kqueue_init s (fun r s' => is_blank s' /\ fs_method s' = fs_method s /\ (r = true ->
    exists n, pm_u (fs_pm s') = UKqueue (mk_kq n false None) /\ kq_knotes n (fs_w s') = ∅))) as Hkq.
  { unfold iv_fd_kqueue_init. wbind. apply blank_kernel; [done|]. intros [n|e] w Hk Hb1; [|by eapply wp_Ok; [reflexivity|]].
    wbind. eapply wp_mono; [apply (cloexec_blank (kq_knotes n)); [intros ??; apply kl_core|done]|]. cbv beta.
    intros _ s1 (Hb2&Hm2&Hi). eapply wp_Ok; [reflexivity|]. split; [by destruct Hb2|]. split; [done|]. intros _. exists n.
    split; [done|]. cbn. rewrite Hi. exact (kl_kqueue _ _ _ Hk). }
  assert (wp anyf iv_fd_dev_poll_init s (fun r s' => is_blank s' /\ fs_method s' = fs_method s /\ (r = true ->
    exists n, pm_u (fs_pm s') = UDevPoll (mk_dp n ∅) /\ dp_interest n (fs_w s') = ∅))) as Hd.
  { unfold iv_fd_dev_poll_init. wbind. apply blank_kernel; [done|]. intros [n|e] w Hk Hb1; [|by eapply wp_Ok; [reflexivity|]].
    eapply wp_Ok; [reflexivity|]. split; [by destruct Hb1|]. split; [done|]. intros _. exists n. split; [done|]. exact (dl_open _ _ _ Hk). }
  destruct m; assumption.
Qed.

(** What has been settled while methods are considered in turn. *)
Definition considered (exclude : option (list ascii)) (tried : list method_name) (s : St) : Prop :=
  is_blank s /\ match fs_method s with
  | None => True
  | Some m => m ∈ tried /\ method_is_excluded exclude (pm_name (methods m)) = false /\ fresh_union m s
  end.

Lemma considered_more exclude tried m (s : St) : considered exclude tried s -> considered exclude (m :: tried) s.
Proof. intros [Hb Hc]. split; [done|]. destruct (fs_method s); [|done]. destruct Hc as (?&?&?). split_and!; [set_solver|done|done]. Qed.

Lemma consider_spec exclude tried m (s : St) : considered exclude tried s ->
  wp anyf (consider_poll_method methods exclude m) s (fun _ s' => considered exclude (m :: tried) s').
Proof.
  intros [Hb Hc]. unfold consider_poll_method. wprim. case_bool_decide as Hm; cbn [andb].
  2:{ eapply wp_Ok; [reflexivity|]. by apply considered_more. }
  destruct (method_is_excluded _ _) eqn:Hx; cbn [negb when].
  { eapply wp_Ok; [reflexivity|]. split; [done|]. by rewrite Hm. }
  wbind. eapply wp_mono; [by apply method_init_spec|]. cbv beta. intros r s1 (Hb1&Hm1&Hf).
  destruct r; (eapply wp_Ok; [reflexivity|]).
  - split; [by destruct Hb1|]. cbn. split_and!; [set_solver|done|by apply Hf].
  - split; [done|]. by rewrite Hm1, Hm.
Qed.

Context {HR : ProcessLaws W}.

(** The environment variable counts unless the process is set-user-ID. *)
Definition excluded_methods (w : W) : option (list ascii) :=
  if sys_getuid w =? sys_geteuid w then sys_getenv w else None.

Definition same_process (w w' : W) : Prop := sys_getenv w' = sys_getenv w /\ sys_getuid w' = sys_getuid w.
Definition limited (s s' : St) : Prop :=
  is_blank s' /\ fs_method s' = fs_method s /\ same_process (fs_w s) (fs_w s').

Lemma setrlimit_spec l (s : St) : is_blank s -> wp anyf (kernel (sys_setrlimit l)) s (fun _ s' => limited s s').
Proof.
  intros Hb. apply blank_kernel; [done|]. intros a w E Hb1. split_and!; [done|done|].
  pose proof (pr_setrlimit l (fs_w s)) as H. by rewrite E in H.
Qed.
Lemma limited_trans (s1 s2 s3 : St) : limited s1 s2 -> limited s2 s3 -> limited s1 s3.
Proof. intros (_&?&?&?) (?&?&?&?). split; [done|]. split; [congruence|]. split; congruence. Qed.
Lemma limited_refl (s : St) : is_blank s -> limited s s.
Proof. done. Qed.

(** The limit is halved until it can be set, or is no better than what there was. *)
Lemma setrlimit_loop_spec fuel init cur max (s : St) : is_blank s -> 0 <= init -> 0 <= cur -> cur < 2 ^ Z.of_nat fuel ->
  wp anyf (setrlimit_loop (Datatypes.S fuel) init cur max) s (fun _ s' => limited s s').
Proof.
  intros Hb Hi. revert cur max s Hb. induction fuel as [|fuel IH]; intros cur max s Hb H0 Hc.
  { cbn [setrlimit_loop]. destruct (Z.ltb_spec init cur); cbn [negb]; [cbn in Hc; lia|]. by eapply wp_Ok; [reflexivity|]. }
  cbn [setrlimit_loop]. destruct (Z.ltb_spec init cur); cbn [negb]; [|by eapply wp_Ok; [reflexivity|]].
  wbind. eapply wp_mono; [by apply setrlimit_spec|]. cbv beta. intros [] s1 Hs1; [by eapply wp_Ok; [reflexivity|]|].
  eapply wp_mono; [apply IH|].
  - apply Hs1.
  - apply Z.div_pos; lia.
  - rewrite Nat2Z.inj_succ, Z.pow_succ_r in Hc by lia. apply Z.div_lt_upper_bound; lia.
  - cbv beta. intros _ s2. by apply limited_trans.
Qed.

Lemma sanitise_spec euid (s : St) : is_blank s ->
  wp anyf (sanitise_nofile_rlimit euid) s (fun _ s' => limited s s').
Proof.
  intros Hb. unfold sanitise_nofile_rlimit. wprim. pose proof (pr_rlimit (fs_w s)) as H0.
  destruct (sys_getrlimit (fs_w s)) as [cur max]. cbn in H0.
  destruct (_ <=? cur); [by eapply wp_Ok; [reflexivity|]|].
  destruct (euid =? 0); [apply setrlimit_loop_spec; try done; cbn; lia|].
  destruct (cur <? max); [|by eapply wp_Ok; [reflexivity|]]. cbv zeta.
  wbind. eapply wp_mono; [by apply setrlimit_spec|]. cbv beta. intros a s1 Hs1. by eapply wp_Ok; [reflexivity|].
Qed.

Lemma first_thread_spec (s : St) : is_blank s -> fs_method s = None ->
  wp anyf (iv_fd_init_first_thread methods) s (fun _ s' => is_blank s' /\ exists m, fs_method s' = Some m /\
    method_is_excluded (excluded_methods (fs_w s)) (pm_name (methods m)) = false /\ fresh_union m s').
Proof.
  intros Hb Hm. unfold iv_fd_init_first_thread. wprim. wbind. unfold kernel_. apply blank_kernel; [done|].
  intros a w Ew Hb1. injection Ew as _ <-.
  wbind. eapply wp_mono; [by apply sanitise_spec|]. cbv beta. intros _ s2 (Hb2&Hm2&He2&Hu2). do 2 wprim.
  destruct (pr_ignore (fs_w s)) as [He1 Hu1]. cbn in He2, Hu2. rewrite He2, He1, Hu2, Hu1.
  assert ((if negb (sys_getuid (fs_w s) =? sys_geteuid (fs_w s)) then None else sys_getenv (fs_w s)) =
    excluded_methods (fs_w s)) as -> by (unfold excluded_methods; by destruct (_ =? _)).
  assert (considered (excluded_methods (fs_w s)) [] s2) as H.
  { split; [done|]. rewrite Hm2. cbn. by rewrite Hm. }
  assert (forall b tried m s3, considered (excluded_methods (fs_w s)) tried s3 ->
    wp anyf (when b (consider_poll_method methods (excluded_methods (fs_w s)) m)) s3
      (fun _ s' => considered (excluded_methods (fs_w s)) (m :: tried) s')) as Hwhen.
  { intros [] tried m s3 H3; [by apply consider_spec|]. eapply wp_Ok; [reflexivity|]. by apply considered_more. }
  do 7 (wbind; eapply wp_mono; [by eapply Hwhen|]; cbv beta; clear H; intros _ ? H).
  wbind; eapply wp_mono; [by eapply consider_spec|]; cbv beta; clear H; intros _ ? H.
  wprim. case_bool_decide as Hx; [done|]. eapply wp_Ok; [reflexivity|]. destruct H as [Hb3 H]. split; [done|].
  match goal with |- exists m, fs_method ?st = _ /\ _ => destruct (fs_method st) as [m|] end; [|done].
  exists m. by destruct H as (_&?&?).
Qed.

Lemma blank_blank m g t (w : W) : is_blank (blank m g t w).
Proof. by split. Qed.

Lemma fd_init_ok m g t (w : W) : wp anyf (iv_fd_init methods) (blank m g t w) (fun _ s =>
  fds_ok s /\ exists m', fs_method s = Some m' /\
    match m with
    | Some m => m' = m
    | None => method_is_excluded (excluded_methods w) (pm_name (methods m')) = false
    end).
Proof.
  unfold iv_fd_init. wprim. pose proof (blank_blank m g t w) as Hb.
  assert (forall (s : St) m1, is_blank s -> fs_method s = Some m1 -> fresh_union m1 s ->
    fds_ok (set_fs_handled None s)) as Hend.
  { intros s m1 Hb1 Hm1 Hf. apply (blank_ok (set_fs_handled None s) m1); [by destruct Hb1|done|]. by destruct m1. }
  wbind. apply (wp_mono _ _ _ (fun _ s => is_blank s /\ exists m', fs_method s = Some m' /\ fresh_union m' s /\
    match m with
    | Some m => m' = m
    | None => method_is_excluded (excluded_methods w) (pm_name (methods m')) = false
    end)).
  - destruct m as [m|]; cbn [fs_method blank].
    + wbind. eapply wp_mono; [by apply method_init_spec|]. cbv beta. intros r s1 (Hb1&Hm1&Hf). destruct r; [|done].
      eapply wp_Ok; [reflexivity|]. split; [done|]. exists m. split_and!; [done|by apply Hf|done].
    + eapply wp_mono; [by apply first_thread_spec|]. cbv beta. intros _ s1 (Hb1&m1&?&?&?). eauto 10.
  - intros _ s1 (Hb1&m'&Hm'&Hf&Hx). eapply wp_Ok; [reflexivity|]. split; [by eapply Hend|]. by exists m'.
Qed.
End methods.
