(* ===== verification/FdSim.v ===== *)
(** * A kernel to run the file descriptor layer on

    A concrete world that obeys the laws the poll methods assume, with the calls of
    Linux (epoll and timer descriptors), of a BSD (kqueue) or of Solaris (event ports,
    /dev/poll), and poll(2): what is ready is part of the world, and so are the signals
    that interrupt calls.  The theorems' examples run on it. *)

From Stdlib Require Import Ascii.
From S2P Require Import Prelude ISeq Timer Sys Fd PmState FdPoll FdEpoll FdKqueue FdDevPoll FdPort FdSpec FdEpollSpec FdPollSpec FdKqueueSpec FdDevPollSpec FdPortSpec FdMethods.

Local Open Scope Z_scope.

Inductive sim_os := Linux | Bsd | Solaris.
#[global] Instance sim_os_eq_dec : EqDecision sim_os.
Proof. solve_decision. Defined.

(** Per descriptor: interest lists, timers, filters, /dev/poll sets, associations;
    [sm_ready] says what is ready, [sm_full] how often an event array is still filled. *)
Record sim := mk_sim {
  sm_os : sim_os;
  sm_interest : gmap Z (gmap Z (edata * Z));
  sm_next : nat;
  sm_ready : gmap Z Z;
  sm_signals : nat;
  sm_timer : gmap Z timespec;
  sm_env : option (list ascii);
  sm_knotes : gmap Z (gmap (Z * Z) ptr);
  sm_dpset : gmap Z (gmap Z Z);
  sm_assoc : gmap Z (gmap Z (loc * Z));
  sm_full : nat }.
Definition set_sm_interest (v : gmap Z (gmap Z (edata * Z))) (w : sim) : sim :=
  mk_sim (sm_os w) v (sm_next w) (sm_ready w) (sm_signals w) (sm_timer w) (sm_env w) (sm_knotes w) (sm_dpset w) (sm_assoc w) (sm_full w).
Definition set_sm_next (v : nat) (w : sim) : sim :=
  mk_sim (sm_os w) (sm_interest w) v (sm_ready w) (sm_signals w) (sm_timer w) (sm_env w) (sm_knotes w) (sm_dpset w) (sm_assoc w) (sm_full w).
Definition set_sm_signals (v : nat) (w : sim) : sim :=
  mk_sim (sm_os w) (sm_interest w) (sm_next w) (sm_ready w) v (sm_timer w) (sm_env w) (sm_knotes w) (sm_dpset w) (sm_assoc w) (sm_full w).
Definition set_sm_timer (v : gmap Z timespec) (w : sim) : sim :=
  mk_sim (sm_os w) (sm_interest w) (sm_next w) (sm_ready w) (sm_signals w) v (sm_env w) (sm_knotes w) (sm_dpset w) (sm_assoc w) (sm_full w).
Definition set_sm_knotes (v : gmap Z (gmap (Z * Z) ptr)) (w : sim) : sim :=
  mk_sim (sm_os w) (sm_interest w) (sm_next w) (sm_ready w) (sm_signals w) (sm_timer w) (sm_env w) v (sm_dpset w) (sm_assoc w) (sm_full w).
Definition set_sm_dpset (v : gmap Z (gmap Z Z)) (w : sim) : sim :=
  mk_sim (sm_os w) (sm_interest w) (sm_next w) (sm_ready w) (sm_signals w) (sm_timer w) (sm_env w) (sm_knotes w) v (sm_assoc w) (sm_full w).
Definition set_sm_assoc (v : gmap Z (gmap Z (loc * Z))) (w : sim) : sim :=
  mk_sim (sm_os w) (sm_interest w) (sm_next w) (sm_ready w) (sm_signals w) (sm_timer w) (sm_env w) (sm_knotes w) (sm_dpset w) v (sm_full w).
Definition set_sm_full (v : nat) (w : sim) : sim :=
  mk_sim (sm_os w) (sm_interest w) (sm_next w) (sm_ready w) (sm_signals w) (sm_timer w) (sm_env w) (sm_knotes w) (sm_dpset w) (sm_assoc w) v.

(** A descriptor, with nothing in it; a call of another system fails. *)
Definition sim_fd (w : sim) : sysres Z * sim :=
  let n := Z.of_nat (sm_next w) in
  (inl n, set_sm_next (Datatypes.S (sm_next w)) (set_sm_interest (delete n (sm_interest w)) (set_sm_knotes (delete n (sm_knotes w))
    (set_sm_dpset (delete n (sm_dpset w)) (set_sm_assoc (delete n (sm_assoc w)) w))))).
Definition sim_on (os : sim_os) {A} (call : sim -> sysres A * sim) (w : sim) : sysres A * sim :=
  if decide (sm_os w = os) then call w else (inr ENOSYS, w).
Definition sim_interest (ep : Z) (w : sim) : gmap Z (edata * Z) := default ∅ (sm_interest w !! ep).
Definition sim_set_interest (ep : Z) (m : gmap Z (edata * Z)) (w : sim) : sim :=
  set_sm_interest (<[ep := m]> (sm_interest w)) w.
Definition sim_take_signal (w : sim) : sim := set_sm_signals (pred (sm_signals w)) w.
(** A call that signals can interrupt. *)
Definition sim_slow {A} (call : sim -> sysres A * sim) (w : sim) : sysres A * sim :=
  if decide (sm_signals w = O) then call w else (inr EINTR, sim_take_signal w).

Definition sim_ctl (ep : Z) (op : ctl_op) (n : Z) (d : edata * Z) (w : sim) : sysres unit * sim :=
  if decide (sm_signals w = O) then
    let m := sim_interest ep w in
    match op, m !! n with
    | EPOLL_CTL_ADD, None => (inl tt, sim_set_interest ep (<[n := d]> m) w)
    | EPOLL_CTL_MOD, Some _ => (inl tt, sim_set_interest ep (<[n := d]> m) w)
    | EPOLL_CTL_DEL, Some _ => (inl tt, sim_set_interest ep (delete n m) w)
    | _, _ => (inr EOTHER, w)
    end
  else (inr EINTR, sim_take_signal w).

(** The entries with a ready event, by descriptor. *)
Definition sim_events (ep : Z) (w : sim) : list (edata * Z) :=
  omap (fun p : Z * (edata * Z) =>
    let ev := Z.land (default 0 (sm_ready w !! p.1)) (Z.lor p.2.2 (Z.lor EPOLLERR EPOLLHUP)) in
    if decide (ev = 0) then None else Some (p.2.1, ev)) (map_to_list (sim_interest ep w)).
Definition sim_wait (ep max : Z) (w : sim) : sysres (list (edata * Z)) * sim :=
  if decide (sm_signals w = O) then (inl (take (Z.to_nat max) (sim_events ep w)), w)
  else (inr EINTR, sim_take_signal w).
Definition sim_poll (a : list (Z * Z)) (w : sim) : sysres (list Z) * sim :=
  if decide (sm_signals w = O) then
    (inl ((fun p : Z * Z => Z.land (default 0 (sm_ready w !! p.1)) (Z.lor p.2 (Z.lor POLLERR POLLHUP))) <$> a), w)
  else (inr EINTR, sim_take_signal w).

(** A timer is armed, or disarmed by a time of zero. *)
Definition sim_settime (n : Z) (t : timespec) (w : sim) : sim :=
  set_sm_timer (if decide (t = mk_tsp 0 0) then delete n (sm_timer w) else <[n := t]> (sm_timer w)) w.

#[global] Instance sim_fd_kernel : FdKernel sim := {
  configured _ := true;
  sys_close n w := w;
  sys_getfd _ w := (0, w);
  sys_setfd _ _ w := w;
  sys_getfl _ w := (0, w);
  sys_setfl _ _ w := w;
  FD_CLOEXEC := 1;
  O_NONBLOCK := 2048;
  sys_oobinline _ w := w;
  sys_getrlimit _ := (1024, 4096);
  sys_setrlimit _ w := (true, w);
  sys_geteuid _ := 1000;
  sys_getuid _ := 1000;
  sys_getenv := sm_env;
  sys_ignore_signals w := w }.

#[global] Instance sim_epoll_kernel : EpollKernel sim := {
  sys_epoll_create1 := sim_on Linux sim_fd;
  sys_epoll_create := sim_on Linux sim_fd;
  sys_epoll_ctl := sim_ctl;
  sys_epoll_wait ep max _ := sim_wait ep max;
  sys_epoll_pwait2 ep max _ := sim_wait ep max;
  sys_timerfd_create w := (inl (Z.of_nat (sm_next w)),
    set_sm_next (Datatypes.S (sm_next w)) (set_sm_timer (delete (Z.of_nat (sm_next w)) (sm_timer w)) w));
  sys_timerfd_settime n t w := (inl tt, sim_settime n t w);
  sys_timerfd_read _ w := (inl tt, w);
  sys_eventfd2 := sim_fd;
  sys_eventfd := sim_fd;
  sys_write_one _ w := (inl 8, w);
  sys_pipe w := (inr EOTHER, w);
  epoll_interest := sim_interest;
  epoll_signals := sm_signals }.

#[global] Instance sim_poll_kernel : PollKernel sim := {
  sys_malloc w := (true, w);
  sys_poll a _ := sim_poll a;
  sys_ppoll a _ := sim_poll a;
  poll_signals := sm_signals }.

Lemma sim_wait_laws ep max w r w' : sim_wait ep max w = (r, w') ->
  (forall n d ev, d <> DState -> (sim_interest ep w' !! n = Some (d, ev) <-> sim_interest ep w !! n = Some (d, ev))) /\
  match r with
  | inl l => (length l <= Z.to_nat max)%nat /\
      forall d ev, (d, ev) ∈ l -> exists n ev', sim_interest ep w !! n = Some (d, ev')
  | inr _ => True
  end.
Proof.
  unfold sim_wait. case_decide; intros [= <- <-]; [|done]. split; [done|]. split; [apply firstn_le_length|].
  intros d ev Hin. apply elem_of_take in Hin as (i&Hin&_). apply list_elem_of_lookup_2 in Hin.
  unfold sim_events in Hin. apply list_elem_of_omap in Hin as ([n [d' e']]&Hn&He). apply elem_of_map_to_list in Hn.
  cbn in He. case_decide; [done|]. injection He as -> _. eauto.
Qed.

#[global] Instance sim_epoll_laws : EpollLaws sim.
Proof.
  split.
  - intros ep op n d w r w'. cbn. unfold sim_ctl. case_decide as Hs.
    + destruct op; destruct (sim_interest ep w !! n) eqn:E; intros [= <- <-]; try done;
        unfold sim_interest, sim_set_interest; cbn; rewrite lookup_insert_eq; split; try done; by eexists.
    + intros [= <- <-]. split; [done|]. cbn. intros _. destruct (sm_signals w); [done|cbn; lia].
  - intros ep max t w r w'. apply sim_wait_laws.
  - intros ep max t w r w'. apply sim_wait_laws.
  - intros w n w' E. cbn in E. unfold sim_on in E. case_decide; [|done]. injection E as <- <-. cbn. unfold sim_interest. cbn. by rewrite lookup_delete_eq.
  - intros w n w' E. cbn in E. unfold sim_on in E. case_decide; [|done]. injection E as <- <-. cbn. unfold sim_interest. cbn. by rewrite lookup_delete_eq.
  - intros ep w r w' E. cbn in E. by injection E as <- <-.
  - intros w n w' E. cbn in E. injection E as E _. lia.
  - done.
  - done.
  - by intros ep w w' [].
Qed.

#[global] Instance sim_poll_laws : PollLaws sim.
Proof.
  assert (forall a w r w', sim_poll a w = (r, w') -> match r with
    | inl l => length l = length a | inr e => e = EINTR -> (sm_signals w' < sm_signals w)%nat end) as H.
  { intros a w r w'. unfold sim_poll. case_decide as Hs; intros [= <- <-]; [by rewrite length_fmap|].
    cbn. intros _. destruct (sm_signals w); [done|cbn; lia]. }
  split.
  - intros a t w r w'. apply H.
  - intros a t w r w' E. apply H in E. by destruct r.
Qed.

(** ** kqueue *)
Definition sim_knotes (kq : Z) (w : sim) : gmap (Z * Z) ptr := default ∅ (sm_knotes w !! kq).
Definition sim_set_knotes (kq : Z) (m : gmap (Z * Z) ptr) (w : sim) : sim := set_sm_knotes (<[kq := m]> (sm_knotes w)) w.
(** Deleting what is not there fails. *)
Definition sim_change_ok (m : knotes) (c : kevent) : bool :=
  negb (has (kv_flags c) EV_DELETE) || bool_decide (is_Some (m !! (kv_filter c, kv_ident c))).
Fixpoint sim_changes (m : knotes) (cs : list kevent) : list kevent * knotes :=
  match cs with
  | [] => ([], m)
  | c :: cs =>
      let r := sim_changes (apply_change m c) cs in
      (if sim_change_ok m c then r.1 else EV_SET (kv_ident c) (kv_filter c) EV_ERROR 0 2 (kv_udata c) :: r.1, r.2)
  end.
Fixpoint sim_apply (m : knotes) (cs : list kevent) : bool * knotes :=
  match cs with
  | [] => (true, m)
  | c :: cs => if sim_change_ok m c then sim_apply (apply_change m c) cs else (false, m)
  end.
Definition sim_kq_events (m : knotes) (ready : gmap Z Z) : list kevent :=
  omap (fun p : Z * Z * ptr =>
    if decide (fd_filter p.1.1 /\ has (default 0 (ready !! p.1.2)) (if p.1.1 =? EVFILT_READ then POLLIN else POLLOUT) = true)
    then Some (EV_SET p.1.2 p.1.1 0 0 0 p.2) else None) (map_to_list m).
Definition sim_kevent (kq : Z) (cs : list kevent) (max : Z) (w : sim) : sysres (list kevent) * sim :=
  let m := sim_knotes kq w in
  if decide (max < 0) then (inr EINVAL, w)
  else if decide (max = 0) then
    sim_slow (fun w => let r := sim_apply m cs in (if r.1 then inl [] else inr EOTHER, sim_set_knotes kq r.2 w)) w
  else
    let r := sim_changes m cs in
    let w := sim_set_knotes kq r.2 w in
    match r.1 with
    | [] => sim_slow (fun w => (inl (take (Z.to_nat max) (sim_kq_events r.2 (sm_ready w))), w)) w
    | es => (inl (take (Z.to_nat max) es), w)
    end.

#[global] Instance sim_kqueue_kernel : KqueueKernel sim := {
  sys_kqueue := sim_on Bsd sim_fd;
  sys_kevent kq cs max _ := sim_kevent kq cs max;
  addr_timeout := 4096;
  addr_state := 8192;
  kq_knotes := sim_knotes;
  kq_signals := sm_signals }.

Lemma sim_changes_map m cs : (sim_changes m cs).2 = apply_changes cs m.
Proof. revert m. induction cs as [|c cs IH]; intros m; [done|]. cbn. apply IH. Qed.
Lemma sim_changes_errors m cs : Forall (fun e => is_error e = true) (sim_changes m cs).1.
Proof. revert m. induction cs as [|c cs IH]; intros m; cbn; [done|]. destruct (sim_change_ok m c); [apply IH|]. constructor; [done|apply IH]. Qed.
Lemma sim_apply_map m cs : (sim_apply m cs).1 = true -> (sim_apply m cs).2 = apply_changes cs m.
Proof. revert m. induction cs as [|c cs IH]; intros m; [done|]. cbn. destruct (sim_change_ok m c); [apply IH|done]. Qed.
Lemma sim_apply_short m cs : (length cs <= 1)%nat -> (sim_apply m cs).1 = false -> (sim_apply m cs).2 = m.
Proof. destruct cs as [|c [|? ?]]; cbn; [done| |lia]. by destruct (sim_change_ok m c). Qed.
Lemma sim_kq_event m ready e : e ∈ sim_kq_events m ready -> is_error e = false /\ m !! (kv_filter e, kv_ident e) = Some (kv_udata e).
Proof.
  intros ([[k n] u]&Hin&He)%list_elem_of_omap. apply elem_of_map_to_list in Hin. case_decide; [|done]. by injection He as <-.
Qed.
Lemma sim_set_knotes_eq kq m w : sim_knotes kq (sim_set_knotes kq m w) = m.
Proof. unfold sim_knotes, sim_set_knotes. cbn. by rewrite lookup_insert_eq. Qed.
Lemma sim_signals_pred w : sm_signals w <> O -> (sm_signals (sim_take_signal w) < sm_signals w)%nat.
Proof. cbn. lia. Qed.

#[global] Instance sim_kqueue_laws : KqueueLaws sim.
Proof.
  split.
  - intros kq cs max t w r w'. cbn [sys_kevent kq_knotes kq_signals sim_kqueue_kernel]. unfold sim_kevent, sim_slow.
    destruct (decide (max < 0)); [intros [= <- <-]; by destruct (decide (max = 0)); [lia|]|]. destruct (decide (max = 0)); [case_decide|].
    + destruct (sim_apply (sim_knotes kq w) cs) as [ok m] eqn:Ea. pose proof (sim_apply_map (sim_knotes kq w) cs) as H1.
      pose proof (sim_apply_short (sim_knotes kq w) cs) as H2. rewrite Ea in H1, H2. cbn in *.
      destruct ok; intros [= <- <-]; rewrite sim_set_knotes_eq; [|by split; [intros [?|?]; [by rewrite H2|done]|]].
      split; [cbn; lia|]. split; [by left|]. split; [right; by rewrite H1|by intros ? ?%not_elem_of_nil].
    + intros [= <- <-]. split; [done|]. intros _. by apply sim_signals_pred.
    + cbv zeta. pose proof (sim_changes_map (sim_knotes kq w) cs) as H1. pose proof (sim_changes_errors (sim_knotes kq w) cs) as H2.
      destruct (sim_changes (sim_knotes kq w) cs) as [es m]. cbn [fst snd] in *. subst m. destruct es as [|e es].
      * case_decide; intros [= <- <-]; [|intros _; change (same_fds (sim_knotes kq (sim_set_knotes kq (apply_changes cs (sim_knotes kq w)) w)) (apply_changes cs (sim_knotes kq w))); by rewrite sim_set_knotes_eq].
        rewrite sim_set_knotes_eq. split; [rewrite length_take; lia|]. split_and!.
        -- right. apply Forall_forall. intros e (i&Hi&_)%elem_of_take. by apply list_elem_of_lookup_2, sim_kq_event in Hi as [? _].
        -- by right.
        -- intros e (i&Hi&_)%elem_of_take _ _. by apply list_elem_of_lookup_2, sim_kq_event in Hi as [_ ?].
      * intros [= <- <-]. rewrite sim_set_knotes_eq. split; [rewrite length_take; lia|]. split_and!.
        -- left. by apply Forall_take.
        -- by right.
        -- intros e' He' _ Hno. apply (Forall_take _ (Z.to_nat max)) in H2. rewrite Forall_forall in H2. by rewrite (H2 e' He') in Hno.
  - intros w n w'. cbn. unfold sim_on. case_decide; [|done]. intros [= <- <-]. unfold sim_knotes. cbn. by rewrite lookup_delete_eq.
  - by intros kq w w' [].
Qed.

(** ** /dev/poll: a write takes at most three entries *)
Definition sim_dpset (fd : Z) (w : sim) : gmap Z Z := default ∅ (sm_dpset w !! fd).
Definition sim_write_pollfds (fd : Z) (buf : list (Z * Z)) (w : sim) : sysres nat * sim :=
  let n := Nat.min 3 (length buf) in
  (inl n, set_sm_dpset (<[fd := apply_entries (take n buf) (sim_dpset fd w)]> (sm_dpset w)) w).
Definition sim_dp_poll (fd : Z) (w : sim) : sysres (list (Z * Z)) * sim :=
  (inl (omap (fun p : Z * Z => let ev := Z.land (default 0 (sm_ready w !! p.1)) (Z.lor p.2 (Z.lor POLLERR POLLHUP)) in
    if decide (ev = 0) then None else Some (p.1, ev)) (map_to_list (sim_dpset fd w))), w).

#[global] Instance sim_dev_poll_kernel : DevPollKernel sim := {
  sys_open_dev_poll := sim_on Solaris sim_fd;
  sys_write_pollfds fd buf := sim_slow (sim_write_pollfds fd buf);
  sys_dp_poll fd _ _ := sim_slow (sim_dp_poll fd);
  dp_interest := sim_dpset;
  dp_signals := sm_signals }.

#[global] Instance sim_dev_poll_laws : DevPollLaws sim.
Proof.
  split.
  - intros fd buf w r w'. cbn [sys_write_pollfds dp_interest dp_signals sim_dev_poll_kernel]. unfold sim_slow, sim_write_pollfds. cbv zeta.
    assert (buf <> [] -> 1 <= Nat.min 3 (length buf) <= length buf)%nat as Hn by (destruct buf; [done|cbn [length]; lia]).
    revert Hn. generalize (Nat.min 3 (length buf)). intros k Hk. case_decide; intros [= <- <-] Hb.
    + split; [by apply Hk|]. unfold sim_dpset at 1, set_sm_dpset. cbn [sm_dpset]. by rewrite lookup_insert_eq.
    + split; [done|]. intros _. by apply sim_signals_pred.
  - intros fd nfds t w r w'. cbn. unfold sim_slow. case_decide; intros [= <- <-]; [|done]. split; [done|].
    intros n ev ([k v]&Hin&He)%list_elem_of_omap. apply elem_of_map_to_list in Hin. cbn in He. case_decide; [done|]. injection He as <- <-. by eexists.
  - intros w n w'. cbn. unfold sim_on. case_decide; [|done]. intros [= <- <-]. unfold sim_dpset. cbn. by rewrite lookup_delete_eq.
  - by intros kq w w' [].
Qed.

(** ** Event ports *)
Definition sim_assoc (port : Z) (w : sim) : gmap Z (loc * Z) := default ∅ (sm_assoc w !! port).
Definition sim_set_assoc (port : Z) (m : gmap Z (loc * Z)) (w : sim) : sim := set_sm_assoc (<[port := m]> (sm_assoc w)) w.
Definition sim_port_events (m : gmap Z (loc * Z)) (ready : gmap Z Z) : list (Z * Z * loc) :=
  omap (fun p : Z * (loc * Z) => let ev := Z.land (default 0 (ready !! p.1)) (Z.lor p.2.2 (Z.lor POLLERR POLLHUP)) in
    if decide (ev = 0) then None else Some (p.1, ev, p.2.1)) (map_to_list m).
Definition sim_getn (port max : Z) (w : sim) : getn_result * sim :=
  if decide (sm_signals w = O) then
    let m := sim_assoc port w in
    let es := take (if decide (sm_full w = O) then pred (Z.to_nat max) else Z.to_nat max) (sim_port_events m (sm_ready w)) in
    if decide (max <= 0) then (GetnErr EINVAL, w)
    else
      let w := sim_set_assoc port (filter (fun p : Z * (loc * Z) => p.1 ∉ (fun e : Z * Z * loc => e.1.1) <$> es) m) w in
      ((if decide (es = []) then GetnTime else GetnOk) ((fun e : Z * Z * loc => PSourceFd e.1.1 e.1.2 e.2) <$> es),
       set_sm_full (pred (sm_full w)) w)
  else (GetnErr EINTR, sim_take_signal w).

#[global] Instance sim_port_kernel : PortKernel sim := {
  sys_port_create := sim_on Solaris sim_fd;
  sys_port_associate port n ev u w := (true, sim_set_assoc port (<[n := (u, ev)]> (sim_assoc port w)) w);
  sys_port_dissociate port n w := match sim_assoc port w !! n with
    | Some _ => (true, sim_set_assoc port (delete n (sim_assoc port w)) w) | None => (false, w) end;
  sys_port_getn port max _ := sim_getn port max;
  sys_port_send _ w := (true, w);
  sys_timer_create _ w := (inl 1, w);
  sys_timer_settime _ _ w := (true, w);
  sys_timer_delete _ w := w;
  port_assoc := sim_assoc;
  port_backlog := sm_full }.

Lemma sim_set_assoc_eq port m w : sim_assoc port (sim_set_assoc port m w) = m.
Proof. unfold sim_assoc, sim_set_assoc. cbn. by rewrite lookup_insert_eq. Qed.

Definition sim_getn_done (port max : Z) (w : sim) (pe : list port_event) (w' : sim) : Prop :=
  (forall n ev f, PSourceFd n ev f ∈ pe -> exists ev', sim_assoc port w !! n = Some (f, ev')) /\
  (forall n, returned pe n -> sim_assoc port w' !! n = None) /\
  (forall n, ~ returned pe n -> sim_assoc port w' !! n = sim_assoc port w !! n) /\
  (Z.of_nat (length pe) = max -> (sm_full w' < sm_full w)%nat).
Lemma sim_getn_events port max k w :
  let es := take k (sim_port_events (sim_assoc port w) (sm_ready w)) in
  0 < max -> (sm_full w = O -> k = pred (Z.to_nat max)) ->
  sim_getn_done port max w ((fun e : Z * Z * loc => PSourceFd e.1.1 e.1.2 e.2) <$> es) (set_sm_full (pred (sm_full w))
    (sim_set_assoc port (filter (fun p : Z * (loc * Z) => p.1 ∉ (fun e : Z * Z * loc => e.1.1) <$> es) (sim_assoc port w)) w)).
Proof.
  intros es Hmax Hk. unfold sim_getn_done.
  change (sim_assoc port (set_sm_full ?n ?w')) with (sim_assoc port w'). rewrite sim_set_assoc_eq.
  assert (forall n, returned ((fun e : Z * Z * loc => PSourceFd e.1.1 e.1.2 e.2) <$> es) n <-> n ∈ (fun e : Z * Z * loc => e.1.1) <$> es) as Hret.
  { intros n. rewrite list_elem_of_fmap. split.
    - intros (ev&f&([[n' ev'] f']&[= -> -> ->]&Hin)%list_elem_of_fmap). by exists (n', ev', f').
    - intros ([[n' ev'] f']&->&Hin). exists ev', f'. apply list_elem_of_fmap. by exists (n', ev', f'). }
  split_and!.
  - intros n ev f ([[n' ev'] f']&[= -> -> ->]&Hin)%list_elem_of_fmap. apply elem_of_take in Hin as (i&Hi&_).
    apply list_elem_of_lookup_2 in Hi. apply list_elem_of_omap in Hi as ([k2 [u e]]&Hm&He). apply elem_of_map_to_list in Hm.
    cbn in He. case_decide; [done|]. injection He as -> _ ->. by exists e.
  - intros n Hn. apply map_lookup_filter_None. right. intros v _ Hnot. by apply Hnot, Hret.
  - intros n Hn. destruct (sim_assoc port w !! n) as [v|] eqn:E.
    + apply map_lookup_filter_Some. split; [done|]. cbn. by rewrite <-Hret.
    + apply map_lookup_filter_None. by left.
  - rewrite length_fmap. unfold es. rewrite length_take. cbn. intros Hl. destruct (decide (sm_full w = O)) as [E|]; [|lia].
    rewrite (Hk E) in Hl. lia.
Qed.

#[global] Instance sim_port_laws : PortLaws sim.
Proof.
  split.
  - intros port n ev u w r w'. cbn. intros [= <- <-]. apply sim_set_assoc_eq.
  - intros port n w r w'. cbn. destruct (sim_assoc port w !! n); intros [= <- <-]; [apply sim_set_assoc_eq|done].
  - intros port max t w r w'. cbn [sys_port_getn port_assoc port_backlog sim_port_kernel]. unfold sim_getn. case_decide; [|by intros [= <- <-]].
    cbv zeta. set (k := if decide (sm_full w = O) then pred (Z.to_nat max) else Z.to_nat max). destruct (decide (max <= 0)); [by intros [= <- <-]|].
    assert (sm_full w = O -> k = pred (Z.to_nat max)) as Hk by (unfold k; by intros ->).
    destruct (decide (take _ _ = [])); intros [= <- <-]; (apply sim_getn_events; [lia|done]).
  - intros w n w'. cbn. unfold sim_on. case_decide; [|done]. intros [= <- <-]. unfold sim_assoc. cbn. by rewrite lookup_delete_eq.
  - done.
  - done.
  - by intros kq w w' [].
Qed.

#[global] Instance sim_poll_kernels : PollKernels sim := {}.
#[global] Instance sim_poll_kernels_laws : PollKernelsLaws sim := {}.

(** Nothing is open; [ready] says which descriptors are ready for what. *)
Definition sim_world_on (os : sim_os) (ready : gmap Z Z) (signals : nat) (env : option (list ascii)) : sim :=
  mk_sim os ∅ 10 ready signals ∅ env ∅ ∅ ∅ 1.
Definition sim_world : gmap Z Z -> nat -> option (list ascii) -> sim := sim_world_on Linux.
(** A timer component with nothing registered and the clock not read. *)
Definition sim_timers : timer_state := mk_tms ∅ 0 0 ∅ [] 0 (mk_tsp 0 0) false 0 0 [].
Definition sim_clock (n : nat) (c : clockid) : option timespec := Some (mk_tsp (Z.of_nat n) 0).
Definition sim_timeofday (n : nat) : Z * Z := (0, 0).
