(* ===== verification/FdTimeout.v ===== *)
(** * A timeout left to the kernel is never late

    When the same deadline has been asked for five times in a row,
    [iv_fd_timeout_check] programs it into a timer descriptor and later polls
    wait for the descriptor instead.  Here: that timer is armed exactly while
    the count is at five, and is never later than the deadline asked for. *)

From S2P Require Import Prelude ISeq Timer TimerSpec Sys Fd PmState FdPoll FdEpoll FdSpec FdCore FdEpollSpec FdPollSpec FdSim FdMethods.

Local Open Scope Z_scope.

Definition timespec_is_zero (t : timespec) : bool := (tv_sec t =? 0) && (tv_nsec t =? 0).

(** timerfd_settime(2): a time of zero disarms; a new descriptor is not armed; other
    calls leave a timer alone. *)
Class TimerfdLaws (W : Type) `{!EpollKernel W} := {
  timerfd_value : Z -> W -> option timespec;
  tl_settime : forall n t w w', sys_timerfd_settime n t w = (inl tt, w') ->
    timerfd_value n w' = if timespec_is_zero t then None else Some t;
  tl_create : forall n w w', sys_timerfd_create w = (inl n, w') -> 0 <= n /\ timerfd_value n w' = None;
  tl_ctl : forall n ep op m d w, timerfd_value n (sys_epoll_ctl ep op m d w).2 = timerfd_value n w }.

#[global, refine] Instance sim_timerfd_laws : TimerfdLaws sim := { timerfd_value n w := sm_timer w !! n }.
Proof.
  - intros n t w w' E. cbn in E. injection E as <-. unfold sim_settime, timespec_is_zero. cbn.
    destruct t as [a b]. cbn. case_decide as H.
    + injection H as -> ->. by rewrite lookup_delete_eq.
    + rewrite lookup_insert_eq. destruct (Z.eqb_spec a 0), (Z.eqb_spec b 0); cbn; [|done..]. by subst.
  - intros n w w' E. cbn in E. injection E as <- <-. cbn. split; [lia|]. apply lookup_delete_eq.
  - intros n ep op m d w. cbn. unfold sim_ctl. case_decide; [|done].
    by destruct op; destruct (_ !! m).
Defined.

Section timeout.
Context {W : Type} `{!FdKernel W, !PollKernels W, HE : !EpollLaws W, HT : !TimerfdLaws W}.
Context (clock_gettime : nat -> clockid -> option timespec) (gettimeofday : nat -> Z * Z).
Context (rp : M (fd_state pm_state W) unit).
Abbreviation St := (fd_state pm_state W).
Abbreviation methods := (methods_with clock_gettime gettimeofday rp).

(** A deadline of zero is programmed as one nanosecond, since zero would disarm. *)
Definition programmed (t : timespec) : timespec := if timespec_is_zero t then mk_tsp 0 1 else t.

(** The timer of the thread's epoll instance is set to [t]; [None]: it is not armed. *)
Definition timer_set (s : St) (t : option timespec) : Prop :=
  exists e, pm_u (fs_pm s) = UEpoll e /\
    match t with
    | Some t => timer_fd e <> -1 /\ timerfd_value (timer_fd e) (fs_w s) = Some t
    | None => timer_fd e = -1 \/ timerfd_value (timer_fd e) (fs_w s) = None
    end.
Definition timer_ok (s : St) : Prop :=
  0 <= fs_last_count s <= 5 /\
  timer_set s (if fs_last_count s =? 5 then Some (programmed (fs_last_abs s)) else None).

Lemma epoll_ctl_timer op m d n (s : St) e : pm_u (fs_pm s) = UEpoll e ->
  wp anyf (epoll_ctl op m d) s (fun _ s' => exists w', s' = set_fs_w w' s /\
    timerfd_value n w' = timerfd_value n (fs_w s)).
Proof.
  intros He. unfold epoll_ctl. wrun (load_es_Ok _ _ He). wprim.
  apply (retry_spec anyf (fun s1 : St => exists w1, s1 = set_fs_w w1 s /\
      timerfd_value n w1 = timerfd_value n (fs_w s)) (fun s1 => epoll_signals (fs_w s1))); [| |lia].
  - intros s1 (w1&->&Ei). destruct (sys_epoll_ctl (epoll_fd e) op m d w1) as [r w2] eqn:Ec.
    pose proof (tl_ctl n (epoll_fd e) op m d w1) as Hv. rewrite Ec in Hv. cbn in Hv.
    pose proof (el_ctl _ _ _ _ _ _ _ Ec) as Hl. eapply wp_Ok; [by apply kernel_Ok|]. cbv beta.
    destruct r as [[]|[]]; try (exists w2; split; [done|congruence]).
    split; [exists w2; split; [done|congruence]|]. cbn. by apply Hl.
  - exists (fs_w s). by destruct s.
Qed.

(** Programming a deadline: it is in the timer, or there are no timer descriptors. *)
Lemma set_timeout_spec a (s : St) : timer_set s None -> fs_method s = Some MEpollTimerfd ->
  wp anyf (iv_fd_epoll_timerfd_set_poll_timeout (Some a)) s (fun ok s' =>
    fs_last_count s' = fs_last_count s /\ fs_last_abs s' = fs_last_abs s /\
    if ok : bool then fs_method s' = Some MEpollTimerfd /\ timer_set s' (Some (programmed a))
    else fs_method s' = Some MEpoll).
Proof.
  intros (e&He&Hv) Hm. unfold iv_fd_epoll_timerfd_set_poll_timeout. wrun (load_es_Ok s e He). wbind.
  apply (wp_mono _ _ _ (fun (b : bool) s1 => fs_last_count s1 = fs_last_count s /\ fs_last_abs s1 = fs_last_abs s /\
    fs_method s1 = fs_method s /\ (b = true -> exists e', pm_u (fs_pm s1) = UEpoll e' /\ timer_fd e' <> -1))).
  - destruct (Z.eqb_spec (timer_fd e) (-1)) as [Et|Et]; [|eapply wp_Ok; [reflexivity|]; eauto 10].
    unfold iv_fd_epoll_timerfd_create. destruct (sys_timerfd_create (fs_w s)) as [r w'] eqn:Ek.
    wrun (kernel_Ok _ s r w' Ek). destruct r as [n|[]]; try done.
    destruct (tl_create _ _ _ Ek) as [Hn _]. wrun (load_es_Ok (set_fs_w w' s) e He). wprim.
    match goal with |- wp _ _ ?st _ => set (s1 := st) end.
    wbind. eapply wp_mono; [by apply (epoll_ctl_timer _ _ _ 0 s1 (set_timer_fd n e))|]. cbv beta.
    intros r s2 (w2&->&_). destruct (failed r); [done|]. eapply wp_Ok; [reflexivity|].
    split_and!; [done|done|done|]. intros _. exists (set_timer_fd n e). split; [done|cbn; lia].
  - intros b s1 (Hc&Ha&Hm1&Hb). destruct b; cbn [negb]; [|wprim; by eapply wp_Ok; [reflexivity|]].
    destruct (Hb eq_refl) as (e'&He'&Ht). wprim. cbv zeta. wrun (load_es_Ok s1 e' He').
    change (if (tv_sec a =? 0) && (tv_nsec a =? 0) then mk_tsp 0 1 else a) with (programmed a).
    destruct (sys_timerfd_settime (timer_fd e') (programmed a) (fs_w s1)) as [r w'] eqn:Ek.
    wrun (kernel_Ok _ s1 r w' Ek). destruct r as [[]|]; cbn [failed]; [|done]. eapply wp_Ok; [reflexivity|].
    split_and!; [done|done|by etrans|]. exists e'. split_and!; [done|done|]. cbn. rewrite (tl_settime _ _ _ _ Ek).
    unfold programmed. destruct (timespec_is_zero a) eqn:E; [done|by rewrite E].
Qed.

Lemma clear_timeout_spec (s : St) t : timer_set s (Some t) ->
  wp anyf iv_fd_epoll_timerfd_clear_poll_timeout s (fun _ s' => timer_set s' None /\
    fs_last_count s' = fs_last_count s /\ fs_last_abs s' = fs_last_abs s /\ fs_method s' = fs_method s).
Proof.
  intros (e&He&Ht&_). unfold iv_fd_epoll_timerfd_clear_poll_timeout. wrun (load_es_Ok s e He).
  destruct (sys_timerfd_settime (timer_fd e) (mk_tsp 0 0) (fs_w s)) as [r w'] eqn:Ek.
  wrun (kernel_Ok _ s r w' Ek). destruct r as [[]|]; cbn [failed]; [|done]. eapply wp_Ok; [reflexivity|].
  split_and!; [|done..]. exists e. split; [done|]. right. exact (tl_settime _ _ _ _ Ek).
Qed.

Lemma timespec_cmp_zero a b : timespec_cmp (Some a) b = 0 -> a = b.
Proof.
  destruct a as [a1 a2], b as [b1 b2]. unfold timespec_cmp. cbn. intros H.
  destruct (Z.ltb_spec a1 b1), (Z.ltb_spec b1 a1), (Z.ltb_spec a2 b2), (Z.ltb_spec b2 a2); try done.
  f_equal; lia.
Qed.

(** Comparing is comparing the numbers of nanoseconds. *)
Lemma timespec_cmp_ns a b : normal a -> normal b -> 0 <= timespec_cmp (Some a) b -> ns_of b <= ns_of a.
Proof.
  destruct a as [a1 a2], b as [b1 b2]. unfold timespec_cmp, normal, ns_of. cbn. intros Ha Hb H.
  destruct (Z.ltb_spec a1 b1), (Z.ltb_spec b1 a1), (Z.ltb_spec a2 b2), (Z.ltb_spec b2 a2); lia.
Qed.
Lemma programmed_ns t u : ns_of t <= ns_of u -> ns_of (programmed t) <= Z.max 1 (ns_of u).
Proof. intros H. unfold programmed. destruct (timespec_is_zero t); [change (ns_of (mk_tsp 0 1)) with 1; lia|lia]. Qed.

(** C36. [iv_fd_timeout_check] keeps the kernel timer armed exactly while
    [last_abs_count] is 5, and set to [last_abs]; when it tells the caller to poll
    without a deadline of its own, that timer is armed for a number of nanoseconds no
    greater than that of the deadline asked for (one, for a deadline of zero, which would
    disarm it), so that the poll cannot oversleep; and a program without timer
    descriptors falls back to the plain epoll method.  Deadlines are normalised. *)
Theorem iv_fd_timeout_check_never_late (s : St) abs :
  fs_method s = Some MEpollTimerfd -> timer_ok s -> normal (fs_last_abs s) -> (forall a, abs = Some a -> normal a) ->
  wp anyf (iv_fd_timeout_check methods abs) s (fun armed s' =>
    match fs_method s' with
    | Some MEpollTimerfd => timer_ok s' /\ armed = (fs_last_count s' =? 5)
    | m => m = Some MEpoll /\ armed = false
    end /\
    (armed = true -> exists t, timer_set s' (Some t) /\ forall a, abs = Some a -> ns_of t <= Z.max 1 (ns_of a))).
Proof.
  intros Hm [Hc Ht] Hnl Hna. unfold iv_fd_timeout_check. wrun (the_method_Ok methods s _ Hm). do 2 wprim. cbv zeta.
  cbn [methods_with pm_clear_poll_timeout pm_set_poll_timeout iv_fd_poll_method_epoll_timerfd].
  set (cmp := timespec_cmp abs (fs_last_abs s)).
  destruct ((fs_last_count s =? 5) && (0 <=? cmp)) eqn:E.
  { apply andb_prop in E as [E1 E2]. eapply wp_Ok; [reflexivity|]. rewrite Hm. split; [split; [by split|done]|].
    intros _. rewrite E1 in Ht. eexists. split; [exact Ht|]. intros a ->. apply programmed_ns, timespec_cmp_ns; [auto..|by apply Z.leb_le]. }
  wbind. apply (wp_mono _ _ _ (fun _ s1 => timer_set s1 None /\ fs_last_count s1 = fs_last_count s /\
    fs_last_abs s1 = fs_last_abs s /\ fs_method s1 = fs_method s)).
  { destruct (fs_last_count s =? 5); cbn [when]; [by eapply clear_timeout_spec|]. by eapply wp_Ok; [reflexivity|]. }
  intros _ s1 (Ht1&Hc1&Ha1&Hm1). rewrite Hm in Hm1. destruct (Z.eqb_spec cmp 0) as [Hz|Hz].
  2:{ destruct abs as [a|]; [do 2 wprim|wprim]; (eapply wp_Ok; [reflexivity|]); cbn; rewrite Hm1.
      all: split; [|done]; split; [|done]; split; [cbn; lia|exact Ht1]. }
  destruct abs as [a|]; [|done]. unfold cmp in Hz. pose proof Hz as H0. apply timespec_cmp_zero in Hz. subst a.
  wbind. apply (wp_mono _ _ _ (fun _ s2 => timer_set s2 None /\ fs_method s2 = Some MEpollTimerfd /\
    fs_last_abs s2 = fs_last_abs s /\ 0 <= fs_last_count s2 <= 5)).
  { destruct (Z.ltb_spec (fs_last_count s) 5); cbn [when]; (eapply wp_Ok; [reflexivity|]).
    - split_and!; cbn; try done; lia.
    - split_and!; try done; lia. }
  intros _ s2 (Ht2&Hm2&Ha2&Hc2). wprim. destruct (Z.eqb_spec (fs_last_count s2) 5) as [H5|H5].
  2:{ eapply wp_Ok; [reflexivity|]. rewrite Hm2. split; [|done]. apply Z.eqb_neq in H5. unfold timer_ok. rewrite H5. split; [|done]. by split. }
  wprim. eapply wp_mono; [by apply set_timeout_spec|]. cbv beta. intros [] s3 (Hc3&Ha3&H3).
  - destruct H3 as [Hm3 Ht3]. rewrite Hm3. unfold timer_ok. rewrite Hc3, H5, Ha3, Ha2. split; [done|].
    intros _. eexists. split; [exact Ht3|]. intros a [= <-]. by apply programmed_ns.
  - rewrite H3. done.
Qed.

(** Nothing is armed when a thread starts. *)
Lemma timer_ok_start (s : St) e : fs_last_count s = 0 -> pm_u (fs_pm s) = UEpoll e -> timer_fd e = -1 -> timer_ok s.
Proof. intros Hc He Ht. unfold timer_ok. rewrite Hc. split; [lia|]. exists e. split; [done|by left]. Qed.
End timeout.

(** The fifth request for one deadline arms the timer. *)
Lemma iv_fd_timeout_check_never_late_witness :
  let s : fd_state pm_state sim := mk_fs ∅ (mk_iseq [] ∅) (mk_iseq [] ∅) 0 0 None (mk_tsp 7 0) 4 (Some MEpollTimerfd)
    (mk_pms (UEpoll (mk_es 3 (-1))) (mk_eg 2 true 0 0 2)) sim_timers (sim_world ∅ 1 None) [] in
  let check := iv_fd_timeout_check (methods_with (fun _ _ => None) (fun _ => (0, 0)) undef) (Some (mk_tsp 7 0)) in
  match check s with
  | Ok (armed, s') => armed = true /\ sm_timer (fs_w s') !! 10 = Some (mk_tsp 7 0)
  | _ => False
  end /\
  wp anyf check s (fun armed s' =>
    match fs_method s' with
    | Some MEpollTimerfd => timer_ok s' /\ armed = (fs_last_count s' =? 5)
    | m => m = Some MEpoll /\ armed = false
    end /\
    (armed = true -> exists t, timer_set s' (Some t) /\ forall a, Some (mk_tsp 7 0) = Some a -> ns_of t <= Z.max 1 (ns_of a))).
Proof.
  intros s check. split; [vm_compute; done|].
  apply iv_fd_timeout_check_never_late; [reflexivity| |by cbn|by intros a [= <-]].
  unfold timer_ok. split; [cbn; lia|]. eexists. split; [reflexivity|]. by left.
Defined.
