(* ===== verification/FdProps.v ===== *)
(** * Properties of the file descriptor layer

    Programs of client calls and polling rounds are safe with whatever poll method
    is picked; the order of the handlers in a round; what [iv_fd_init] picks; the
    set of descriptors each method waits for; and the call sequence the poll
    method does not support. *)

From Stdlib Require Import Ascii String.
From S2P Require Import Prelude ISeq Timer Sys Fd PmState FdPoll FdEpoll FdSpec FdCore FdEpollSpec FdPollSpec FdSim FdMethods.

Local Open Scope Z_scope.

(** ** The environment variable *)

(** The words of a text: maximal runs of characters that are not white space;
    [cur] is the word being read. *)
Definition flush_word (cur : list ascii) (ws : list (list ascii)) : list (list ascii) :=
  match cur with [] => ws | _ => cur :: ws end.
Fixpoint words_from (cur : list ascii) (s : list ascii) : list (list ascii) :=
  match s with
  | [] => flush_word cur []
  | c :: s => if is_space c then flush_word cur (words_from [] s) else words_from (cur ++ [c]) s
  end.
Definition split_words : list ascii -> list (list ascii) := words_from [].

Lemma words_skip_space s : split_words (skip_space s) = split_words s.
Proof. unfold split_words. induction s as [|c s IH]; [done|]. cbn. by destruct (is_space c) eqn:E; cbn; rewrite ?E. Qed.
Lemma skip_space_length s : (length (skip_space s) <= length s)%nat.
Proof. induction s as [|c s IH]; [done|]. cbn. destruct (is_space c); cbn; lia. Qed.
Lemma skip_space_head s c s' : skip_space s = c :: s' -> is_space c = false.
Proof. induction s as [|d s IH]; [done|]. cbn. destruct (is_space d) eqn:E; [done|]. by intros [= -> ->]. Qed.

Lemma span_word_spec n s w r : span_word n s = (w, r) ->
  s = w ++ r /\ Forall (fun c => is_space c = false) w /\
  (length w = n \/ r = [] \/ exists d r', r = d :: r' /\ is_space d = true).
Proof.
  revert s w r. induction n as [|n IH]; intros s w r; [by intros [= <- <-]; auto|]. destruct s as [|c s]; cbn.
  { intros [= <- <-]. auto. }
  destruct (is_space c) eqn:E; [intros [= <- <-]; split_and!; eauto 10|].
  destruct (span_word n s) as [w' r'] eqn:Es. intros [= <- <-]. destruct (IH _ _ _ Es) as (->&Hf&Hl).
  split_and!; [done|by constructor|]. destruct Hl as [<-|[?|?]]; auto.
Qed.

Lemma words_read cur w r : Forall (fun c => is_space c = false) w -> words_from cur (w ++ r) = words_from (cur ++ w) r.
Proof.
  revert cur. induction w as [|c w IH]; intros cur Hw; [by rewrite app_nil_r|].
  apply Forall_cons in Hw as [Hc Hw]. cbn. rewrite Hc, IH by done. by rewrite <-app_assoc.
Qed.
Lemma words_extend cur s : cur <> [] -> exists w ws, words_from cur s = (cur ++ w) :: ws.
Proof.
  revert cur. induction s as [|c s IH]; intros cur Hc; cbn.
  - exists [], []. rewrite app_nil_r. by destruct cur.
  - destruct (is_space c).
    + exists [], (words_from [] s). rewrite app_nil_r. by destruct cur.
    + destruct (IH (cur ++ [c])) as (w&ws&->); [by destruct cur|]. exists (c :: w), ws. by rewrite <-app_assoc.
Qed.

(** One turn of the loop reads one word. *)
Lemma sscanf_word_spec s : Forall (fun w => (length w <= 63)%nat) (split_words s) ->
  match sscanf_word s with
  | None => split_words s = []
  | Some (w, r) => split_words s = w :: split_words r /\ (length r < length s)%nat
  end.
Proof.
  rewrite <-(words_skip_space s). unfold sscanf_word. pose proof (skip_space_length s) as Hlen.
  destruct (span_word 63 (skip_space s)) as [w r] eqn:Es. destruct (span_word_spec _ _ _ _ Es) as (Hs&Hf&Hend).
  rewrite Hs in *. unfold split_words. rewrite words_read by done. cbn [app]. intros Hall.
  destruct w as [|c w].
  - cbn in Hs, Hend |- *. destruct Hend as [?|[->|(d&r'&->&Hd)]]; [done|done|].
    by rewrite (skip_space_head _ _ _ Hs) in Hd.
  - rewrite length_app in Hlen. split; [|cbn in Hlen |- *; lia].
    destruct Hend as [Hn|[->|(d&r'&->&Hd)]]; [|done|cbn; by rewrite Hd].
    destruct r as [|d r]; [done|]. cbn [words_from] in Hall |- *. destruct (is_space d) eqn:Hd; [done|].
    destruct (words_extend ((c :: w) ++ [d]) r) as (w2&ws&E); [done|]. rewrite E in Hall.
    apply Forall_cons in Hall as [Hl _]. rewrite !length_app in Hl. cbn in Hn, Hl. lia.
Qed.

Lemma excluded_loop_spec fuel e name : Forall (fun w => (length w <= 63)%nat) (split_words e) -> (length e < fuel)%nat ->
  excluded_loop fuel e name = bool_decide (name ∈ split_words e).
Proof.
  revert e. induction fuel as [|fuel IH]; intros e Hall Hf; [lia|]. cbn [excluded_loop].
  pose proof (sscanf_word_spec e Hall) as H. destruct (sscanf_word e) as [[w r]|].
  - destruct H as [E Hl]. rewrite E in Hall |- *. apply Forall_cons in Hall as [_ Hall].
    case_bool_decide as Hw; [by rewrite bool_decide_true by set_solver|]. rewrite IH; [|done|lia].
    apply bool_decide_ext. set_solver.
  - rewrite H. by rewrite bool_decide_false by set_solver.
Qed.

(** [method_is_excluded] holds exactly when the method's name is one of the
    white-space separated words of the variable, as long as no word is longer than
    the 63 characters of its buffer; without the variable nothing is excluded. *)
Theorem method_is_excluded_words exclude name :
  match exclude with Some e => Forall (fun w => (length w <= 63)%nat) (split_words e) | None => True end ->
  method_is_excluded exclude name =
    bool_decide (name ∈ match exclude with Some e => split_words e | None => [] end).
Proof.
  intros H. destruct exclude as [e|]; unfold method_is_excluded.
  - by apply excluded_loop_spec; [|lia].
  - symmetry. apply bool_decide_false. set_solver.
Qed.

Lemma method_is_excluded_words_witness :
  method_is_excluded (Some (list_ascii_of_string "  epoll-timerfd epoll")) (list_ascii_of_string "epoll") = true /\
  method_is_excluded (Some (list_ascii_of_string "epoll-timerfd epol")) (list_ascii_of_string "epoll") = false.
Proof.
  split.
  - rewrite method_is_excluded_words; [by vm_compute|]. repeat constructor; vm_compute; lia.
  - rewrite method_is_excluded_words; [by vm_compute|]. repeat constructor; vm_compute; lia.
Defined.

(** ** Programs *)
Section props.
Context {W : Type} `{!FdKernel W, !PollKernels W}.
Context {HL : PollKernelsLaws W} {HR : ProcessLaws W}.
Context (clock_gettime : nat -> clockid -> option timespec) (gettimeofday : nat -> Z * Z).
Context (handler : list activation -> list fd_call).
Abbreviation St := (fd_state pm_state W).
Abbreviation methods := (methods clock_gettime gettimeofday handler).
Abbreviation run_program := (run_program clock_gettime gettimeofday handler).

(** C1. Whatever the kernel does within its manual pages, whatever method
    [iv_fd_init] settles on and whatever calls the client and its handlers make
    within the contract (registering, unregistering, changing handlers and freeing
    objects from inside handlers included), a program of client calls and polling
    rounds never follows a dangling pointer, corrupts a list or indexes outside an
    array; it ends in a state where the lists, counters, wanted bands and the
    method's private state agree with the objects. *)
Theorem iv_fd_programs_safe m g t (w : W) p :
  wp anyf (iv_fd_init methods;; run_program p) (blank m g t w) (fun _ s => fds_ok s).
Proof.
  wbind. eapply wp_mono; [by apply fd_init_ok|]. cbv beta. intros _ s [Hs _]. by apply program_ok.
Qed.

(** C32. A polling round polls ([round_polls]: without a deadline of its own when the
    kernel's timer is armed), which runs pending events at most; then it takes the objects
    on the active list that the poll left, each once and in that order, but for those that
    a handler unregistered before their turn.  For each it runs the error, then the input,
    then the output handler, exactly those of reported bands with a handler set at that
    moment, until one of them unregisters the object ([objects_done]); and those are all the
    handlers it runs, each for an object that is registered. *)
Theorem iv_fd_poll_and_run_order (s : St) abs : fds_ok s ->
  wp anyf (iv_fd_poll_and_run methods handler legal abs) s (fun run_timers s' =>
    exists s1 l1 l2, round_polls methods s abs run_timers s1 /\
      fs_ran s1 = fs_ran s ++ l1 /\ Forall (fun a => a = AEvents) l1 /\ NoDup (members (fs_active s1)) /\
      objects_done methods handler legal s1 l2 s' /\ fs_ran s' = fs_ran s1 ++ l2 /\ Forall allowed l2 /\
      sublist (l2 ≫= what) (members (fs_active s1) ≫= bands_of)).
Proof.
  intros Hs. eapply wp_results; [by apply round_ok|]. intros rt s' E. by apply (round_exact clock_gettime gettimeofday).
Qed.

(** The first thread settles on a method that the environment variable does
    not exclude, which a set-user-ID process ignores, or aborts when there is none;
    later threads use the same method. *)
Theorem iv_fd_init_selects m g t (w : W) :
  wp anyf (iv_fd_init methods) (blank m g t w) (fun _ s => fds_ok s /\ exists m', fs_method s = Some m' /\
      match m with
      | Some m => m' = m
      | None => method_is_excluded (if sys_getuid w =? sys_geteuid w then sys_getenv w else None)
                  (pm_name (methods m')) = false
      end).
Proof. exact (fd_init_ok clock_gettime gettimeofday handler m g t w). Qed.

(** ** What the kernel is asked to wait for *)

(** C33. The epoll methods defer changes, yet what epoll_wait is called with is
    exact: after the flush at the start of a poll, the descriptors in the interest
    list that stand for objects are exactly those of the registered objects with a
    handler set, each with the events of the handlers it has at that moment,
    however registrations, unregistrations, handler changes and reuses of a
    descriptor number followed one another since the last poll. *)
Theorem iv_fd_epoll_flush_exact (s : St) : eok s ->
  wp anyf iv_fd_epoll_flush_pending s (fun _ s' => quiet s s' /\ exists e, pm_u (fs_pm s') = UEpoll e /\
    forall n f ev, epoll_interest (epoll_fd e) (fs_w s') !! n = Some (DFd f, ev) <->
      exists o, fs_fds s' !! f = Some o /\ registered o = true /\ fd_fd o = n /\
        wanted_flags o <> 0 /\ ev = epoll_mask (wanted_flags o)).
Proof.
  intros Hok. unfold iv_fd_epoll_flush_pending. wprim. eapply wp_mono; [apply (flush_loop_spec clock_gettime gettimeofday (run_pending_events clock_gettime gettimeofday handler) methods); [done..|lia]|].
  cbv beta. intros _ s' ([Hc (e&He&Hi)]&Hq&_&_&Hn). split; [done|]. exists e. split; [done|].
  assert (forall f o, fs_fds s' !! f = Some o -> registered o = true -> registered_bands o = wanted_flags o) as Hb.
  { intros f o Hf Hr. pose proof (co_wanted _ Hc f _ (cv_lookup _ _ _ Hf) Hr) as Hw. change (wanted_bands o = wanted_flags o) in Hw.
    pose proof (ei_queued _ _ _ Hi f _ (mv_lookup _ _ _ Hf) Hr ltac:(done)) as Hq'. cbn in Hq'. rewrite Hn in Hq'.
    rewrite <-Hw. destruct (decide (registered_bands o = wanted_bands o)) as [?|Hne]; [done|].
    by apply Hq', not_elem_of_nil in Hne. }
  intros n f ev. split.
  - intros H. destruct (ei_kernel _ _ _ Hi n f ev H) as (m&Hm&[Hr|?]&Hfd&Hb0&->); [|done].
    apply mv_lookup_inv in Hm as (o&Ho&->). exists o. cbn in *. rewrite <-(Hb _ _ Ho Hr). done.
  - intros (o&Ho&Hr&<-&Hw&->). rewrite <-(Hb _ _ Ho Hr) in *.
    exact (ei_told _ _ _ Hi f _ (mv_lookup _ _ _ Ho) (or_introl Hr) Hw).
Qed.

Lemma read_array_entries n i (s : St) p : pok s -> pm_u (fs_pm s) = UPoll p -> 0 <= i -> i + Z.of_nat n <= num_regd_fds p ->
  exists a, read_array n i s = Ok (a, s) /\ length a = n /\
    forall k x, a !! k = Some x -> exists e, pfds p !! (i + Z.of_nat k) = Some e /\ x = (pfd_fd e, pfd_events e).
Proof.
  intros Hok Hp. pose proof (ok_ps _ _ Hok Hp) as Hi. pose proof (slots_fit _ _ _ Hi) as [Hfit _].
  revert i. induction n as [|n IH]; intros i H0 Hn; [by exists []|].
  destruct (pi_slots _ _ _ Hi i) as (f&m&_&_&(_&_&e&He&_)); [lia|].
  destruct (IH (i + 1)) as (a&Ha&Hlen&Hent); [lia|lia|]. cbn [read_array].
  mrun (load_pfd_Ok s p i e Hp ltac:(lia) He). mrun Ha. eexists. split; [reflexivity|]. split; [cbn; lia|].
  intros [|k] x Hx; cbn in Hx.
  - injection Hx as <-. exists e. by rewrite Z.add_0_r.
  - destruct (Hent k x Hx) as (e'&?&->). exists e'. split; [|done]. replace (i + Z.of_nat (Datatypes.S k)) with (i + 1 + Z.of_nat k) by lia. done.
Qed.

(** Entry [k] stands for an object. *)
Lemma poll_slot (s : St) p k : pok s -> pm_u (fs_pm s) = UPoll p -> 0 <= k < num_regd_fds p ->
  exists f o e, fs_fds s !! f = Some o /\ registered o = true /\ u_index o = k /\ pfds p !! k = Some e /\
    pfd_fd e = fd_fd o /\ pfd_events e = bits_to_poll_mask (wanted_flags o) /\ wanted_flags o <> 0.
Proof.
  intros Hok Hp Hk. pose proof (ok_ps _ _ Hok Hp) as Hi. destruct Hok as [Hc _].
  destruct (pi_slots _ _ _ Hi k Hk) as (f&m&Hf&[Hr|?]&(_&Hix&e&He&Hfd&Hev)); [|done].
  apply mv_lookup_inv in Hf as (o&Ho&->). exists f, o, e.
  pose proof (co_wanted _ Hc f _ (cv_lookup _ _ _ Ho) Hr) as Hw. change (wanted_bands o = wanted_flags o) in Hw.
  pose proof (pi_wanted _ _ _ Hi f _ (mv_lookup _ _ _ Ho) Hr ltac:(done)) as [_ Hwi].
  cbn in Hix, Hfd, Hev, Hwi. rewrite <-Hw. split_and!; auto. intros H0. apply Hwi in H0. lia.
Qed.

(** The array handed to poll(2) holds exactly the descriptors of the registered
    objects with a handler set, each once and with the events of its handlers. *)
Theorem iv_fd_poll_array_exact (s : St) p : pok s -> pm_u (fs_pm s) = UPoll p ->
  exists a, read_array (Z.to_nat (num_regd_fds p)) 0 s = Ok (a, s) /\ NoDup a.*1 /\
    forall n ev, (n, ev) ∈ a <-> exists f o, fs_fds s !! f = Some o /\ registered o = true /\ fd_fd o = n /\
      wanted_flags o <> 0 /\ ev = bits_to_poll_mask (wanted_flags o).
Proof.
  intros Hok Hp. pose proof (ok_ps _ _ Hok Hp) as Hi. pose proof (pi_num _ _ _ Hi) as Hn.
  destruct (read_array_entries (Z.to_nat (num_regd_fds p)) 0 s p Hok Hp) as (a&Ha&Hl&Hent); [lia|lia|].
  exists a. split; [done|].
  assert (forall k x, a !! k = Some x -> exists f o, fs_fds s !! f = Some o /\ registered o = true /\
    u_index o = Z.of_nat k /\ x = (fd_fd o, bits_to_poll_mask (wanted_flags o)) /\ wanted_flags o <> 0) as Hslot.
  { intros k x Hx. pose proof (lookup_lt_Some _ _ _ Hx). destruct (Hent k x Hx) as (e&He&->).
    destruct (poll_slot s p (Z.of_nat k) Hok Hp ltac:(lia)) as (f&o&e'&?&?&?&He'&Efd&Eev&?).
    rewrite Z.add_0_l in He. assert (e' = e) as -> by congruence. exists f, o. by rewrite Efd, Eev. }
  split.
  - apply NoDup_alt. intros k1 k2 n H1 H2. rewrite list_lookup_fmap in H1, H2.
    apply fmap_Some in H1 as (x1&H1&E1), H2 as (x2&H2&E2).
    destruct (Hslot _ _ H1) as (f1&o1&Hf1&Hr1&Hi1&->&_), (Hslot _ _ H2) as (f2&o2&Hf2&Hr2&Hi2&->&_).
    assert (f1 = f2) as ->.
    { apply (pi_distinct _ _ _ Hi f1 _ f2 _ (mv_lookup _ _ _ Hf1) (or_introl Hr1) (mv_lookup _ _ _ Hf2) (or_introl Hr2)).
      cbn in *. congruence. }
    assert (o1 = o2) as -> by congruence. lia.
  - intros n ev. split.
    + intros (k&Hk)%list_elem_of_lookup. destruct (Hslot _ _ Hk) as (f&o&?&?&_&[= -> ->]&?). by exists f, o.
    + intros (f&o&Ho&Hr&<-&Hw&->).
      pose proof (pi_wanted _ _ _ Hi f _ (mv_lookup _ _ _ Ho) Hr ltac:(done)) as [Hwi _].
      destruct Hok as [Hc _]. pose proof (co_wanted _ Hc f _ (cv_lookup _ _ _ Ho) Hr) as Ew.
      change (wanted_bands o = wanted_flags o) in Ew. cbn in Hwi.
      destruct (pi_index _ _ _ Hi f _ (mv_lookup _ _ _ Ho) (or_introl Hr)) as [E|[Hb (Hs&_)]]; cbn in *.
      { rewrite <-Ew in Hw. by destruct Hw; apply Hwi. }
      destruct (lookup_lt_is_Some_2 a (Z.to_nat (u_index o))) as [x Hx]; [lia|].
      apply list_elem_of_lookup. exists (Z.to_nat (u_index o)). rewrite Hx. f_equal.
      destruct (Hslot _ _ Hx) as (f'&o'&Hf'&Hr'&Hi'&->&_).
      assert (u_index o' = u_index o) as E by lia.
      destruct (pi_index _ _ _ Hi f' _ (mv_lookup _ _ _ Hf') (or_introl Hr')) as [E'|[_ (Hs'&_)]]; cbn in *; [lia|].
      rewrite E in Hs'. assert (f' = f) as -> by congruence. assert (o' = o) as -> by congruence. done.
Qed.

(** ** What the poll methods do not support *)

(** With the poll and ppoll methods, registering an object that has no handlers
    set, which the API allows, writes to the array of descriptors at index -1. *)
Theorem iv_fd_poll_register_no_handlers (s : St) f o : pok s ->
  fs_fds s !! f = Some o -> registered o = false -> 0 <= fd_fd o < IV_FD_POLL_MAXFD ->
  handler_in o = None -> handler_out o = None -> handler_err o = None ->
  iv_fd_register methods f s = Undef.
Proof.
  intros Hok Hf Hr Hfd Hin Hout Herr. pose proof (not_registered _ _ _ Hf Hr) as Hnr.
  pose proof (not_member_active _ _ Hok Hnr) as Hna. pose proof (not_member_notify methods (HM := methods_family clock_gettime gettimeofday _ FamPoll) s f Hok Hnr) as Hnn.
  set (qa := mk_iseq (members (fs_active s)) ({[f]} ∪ idle (fs_active s))).
  set (qn := mk_iseq (members (fs_notify s)) ({[f]} ∪ idle (fs_notify s))).
  assert (iq_init f (fs_active s) = Some qa) as Eqa by (unfold iq_init; by rewrite decide_False).
  assert (iq_init f (fs_notify s) = Some qn) as Eqn by (unfold iq_init; by rewrite decide_False).
  set (o1 := set_registered_bands 0 (set_ready_bands 0 (set_registered true o))).
  set (s1 := set_fs_notify qn (set_fs_active qa (upd f o1 s))).
  assert (exists mn, fs_method s = Some mn /\ pm_register_fd (methods mn) = Some iv_fd_poll_register_fd /\
    pm_notify_fd (methods mn) = iv_fd_poll_notify_fd) as (mn&Hmn&Er&En).
  { destruct (poll_inv_method s Hok) as [E|E]; rewrite E; eauto. }
  assert (iv_fd_register_prologue methods f s = Ok (tt, upd f (set_u_index (-1) o1) s1)) as Ep.
  { unfold iv_fd_register_prologue. mrun (load_fd_Ok _ _ _ Hf). rewrite Hr. destruct (Z.ltb_spec (fd_fd o) 0); [lia|].
    mrun (upd_fd_Ok _ _ _ (set_registered true) Hf).
    mrun (on_active_Ok (upd f (set_registered true o) s) _ _ Eqa).
    set (s2 := set_fs_active qa (upd f (set_registered true o) s)).
    assert (fs_fds s2 !! f = Some (set_registered true o)) as Hf2 by apply lookup_upd_eq.
    mrun (upd_fd_Ok _ _ _ (set_ready_bands 0) Hf2).
    mrun (upd_fd_Ok _ _ _ (set_registered_bands 0) (lookup_upd_eq s2 f (set_ready_bands 0 (set_registered true o)))).
    rewrite upd_upd. fold o1. mrun (on_notify_Ok (upd f o1 s2) _ _ Eqn).
    assert (set_fs_notify qn (upd f o1 s2) = s1) as ->.
    { unfold s1, s2, upd, set_fs_notify, set_fs_active, set_fs_fds. cbn. by rewrite insert_insert_eq. }
    mrun (the_method_Ok methods s1 mn Hmn). rewrite Er. unfold iv_fd_poll_register_fd.
    mrun (load_fd_Ok s1 f o1 (lookup_upd_eq s f o1)). change (fd_fd o1) with (fd_fd o).
    destruct (Z.leb_spec IV_FD_POLL_MAXFD (fd_fd o)); [lia|]. apply (upd_fd_Ok s1 f o1), lookup_upd_eq. }
  unfold iv_fd_register. mrun Ep. set (s3 := upd f (set_u_index (-1) o1) s1).
  unfold notify_fd. rewrite bind_assoc. mrun (recompute_Ok s3 _ _ (lookup_upd_eq s1 f (set_u_index (-1) o1))).
  assert (wanted_flags (set_u_index (-1) o1) = 0) as -> by (unfold wanted_flags; cbn; by rewrite Hin, Hout, Herr).
  set (o4 := set_wanted_bands 0 (set_u_index (-1) o1)). rewrite bind_assoc.
  mrun (the_method_Ok methods (upd f o4 s3) mn Hmn). rewrite En. unfold iv_fd_poll_notify_fd. rewrite bind_assoc.
  mrun (load_fd_Ok _ _ _ (lookup_upd_eq s3 f o4)). reflexivity.
Qed.
End props.

(** ** Examples on the simulated kernel *)
#[global] Instance sim_process_laws : ProcessLaws sim.
Proof. by split. Qed.

(** Two objects on descriptors 5 and 6; when 5's input handler runs, it
    unregisters both. *)
Definition demo_handler (ran : list activation) : list fd_call :=
  match ran with [] => [FUnregister 2; FUnregister 1; FFree 2] | _ => [] end.
Definition demo_world_on (os : sim_os) (exclude : string) : sim :=
  sim_world_on os {[5 := POLLIN; 6 := POLLIN]} 2 (Some (list_ascii_of_string exclude)).
Abbreviation demo_world := (demo_world_on Linux).
Definition demo_setup : list fd_call :=
  [FInit 1; FAssign 1 5 (Some 11%positive) None None; FInit 2; FAssign 2 6 (Some 12%positive) None None;
   FRegister 1; FRegister 2].
Definition demo_blank_on (os : sim_os) (exclude : string) : fd_state pm_state sim :=
  blank None (pm_static pm_boot) sim_timers (demo_world_on os exclude).
Abbreviation demo_blank := (demo_blank_on Linux).
Abbreviation demo_methods := (methods sim_clock sim_timeofday demo_handler).
Definition demo_run (os : sim_os) (exclude : string) (p : list (list fd_call * option timespec)) : res (unit * fd_state pm_state sim) :=
  (iv_fd_init demo_methods;; run_program sim_clock sim_timeofday demo_handler p) (demo_blank_on os exclude).

(** What ran, and which method was used. *)
Definition demo_result (r : res (unit * fd_state pm_state sim)) : option (list (loc * Z) * option method_name) :=
  match r with Ok (_, s) => Some (fs_ran s ≫= what, fs_method s) | _ => None end.

Lemma iv_fd_programs_safe_witness :
  (let run os exclude := demo_result (demo_run os exclude [(demo_setup, None); ([], None); ([], None); ([], None)]) in
   let ran m := Some ([(1%positive, MASKIN)], Some m) in
   run Linux "epoll-timerfd"%string = ran MEpoll /\ run Linux "epoll-timerfd epoll"%string = ran MPpoll /\
   run Bsd ""%string = ran MKqueue /\ run Solaris ""%string = ran MPortTimer /\ run Solaris "port-timer port"%string = ran MDevPoll) /\
  wp anyf (iv_fd_init demo_methods;; run_program sim_clock sim_timeofday demo_handler [(demo_setup, None)])
    (demo_blank "") (fun _ s => fds_ok s).
Proof.
  split; [split_and!; vm_compute; reflexivity|]. apply iv_fd_programs_safe.
Defined.

(** States of the demonstration, by the method in use. *)
Definition demo_state_on (os : sim_os) (exclude : string) (cs : list fd_call) : option (fd_state pm_state sim) :=
  match (iv_fd_init demo_methods;; run_fd_calls demo_methods legal cs) (demo_blank_on os exclude) with
  | Ok (_, s) => Some s
  | _ => None
  end.
Abbreviation demo_state := (demo_state_on Linux).
Lemma demo_state_ok os exclude cs s : demo_state_on os exclude cs = Some s -> fds_ok s.
Proof.
  unfold demo_state_on. intros H.
  assert (wp anyf (iv_fd_init demo_methods;; run_fd_calls demo_methods legal cs) (demo_blank_on os exclude)
    (fun _ s => fds_ok s)) as Hwp.
  { wbind. eapply wp_mono; [apply (fd_init_ok sim_clock sim_timeofday demo_handler)|]. cbv beta. intros _ s1 [Hs1 _].
    eapply wp_mono; [by apply (calls_ok sim_clock sim_timeofday demo_handler)|]. cbv beta. by intros _ s2 [? _]. }
  unfold wp in Hwp. destruct ((iv_fd_init demo_methods;; run_fd_calls demo_methods legal cs) (demo_blank_on os exclude))
    as [[u s1]| | |]; try done. by injection H as <-.
Qed.

Lemma iv_fd_init_selects_witness : let w := demo_world "poll epoll" in
  wp anyf (iv_fd_init demo_methods) (blank None (pm_static pm_boot) sim_timers w) (fun _ s => fds_ok s /\
    exists m', fs_method s = Some m' /\
      method_is_excluded (if sys_getuid w =? sys_geteuid w then sys_getenv w else None) (pm_name (demo_methods m')) = false).
Proof. intros w. exact (iv_fd_init_selects sim_clock sim_timeofday demo_handler None (pm_static pm_boot) sim_timers w). Defined.

Lemma iv_fd_poll_and_run_order_witness : exists s s' rt, demo_state "epoll-timerfd" demo_setup = Some s /\
  iv_fd_poll_and_run demo_methods demo_handler legal None s = Ok (rt, s') /\ fs_ran s' ≫= what = [(1%positive, MASKIN)] /\
  exists s1 l1 l2, round_polls demo_methods s None rt s1 /\
      fs_ran s1 = fs_ran s ++ l1 /\ Forall (fun a => a = AEvents) l1 /\ NoDup (members (fs_active s1)) /\
      objects_done demo_methods demo_handler legal s1 l2 s' /\ fs_ran s' = fs_ran s1 ++ l2 /\ Forall allowed l2 /\
      sublist (l2 ≫= what) (members (fs_active s1) ≫= bands_of).
Proof.
  destruct (demo_state "epoll-timerfd" demo_setup) as [s|] eqn:E; [|by vm_compute in E].
  assert (match demo_state "epoll-timerfd" demo_setup with
    | Some s => match iv_fd_poll_and_run demo_methods demo_handler legal None s with Ok (_, s') => Some (fs_ran s' ≫= what) | _ => None end
    | None => None end = Some [(1%positive, MASKIN)]) as Er by (vm_compute; reflexivity).
  rewrite E in Er. pose proof (iv_fd_poll_and_run_order (W := sim) sim_clock sim_timeofday demo_handler s None (demo_state_ok _ _ _ _ E)) as H.
  unfold wp in H. destruct (iv_fd_poll_and_run demo_methods demo_handler legal None s) as [[rt s']| | |] eqn:E2; [|discriminate Er..].
  injection Er as Er. exists s, s', rt. split; [reflexivity|]. split; [exact E2|]. split; [exact Er|exact H].
Defined.

Lemma iv_fd_epoll_flush_exact_witness : exists s, demo_state "epoll-timerfd" demo_setup = Some s /\
  wp anyf iv_fd_epoll_flush_pending s (fun _ s' => quiet s s' /\ exists e, pm_u (fs_pm s') = UEpoll e /\
    forall n f ev, epoll_interest (epoll_fd e) (fs_w s') !! n = Some (DFd f, ev) <->
      exists o, fs_fds s' !! f = Some o /\ registered o = true /\ fd_fd o = n /\
        wanted_flags o <> 0 /\ ev = epoll_mask (wanted_flags o)).
Proof.
  destruct (demo_state "epoll-timerfd" demo_setup) as [s|] eqn:E; [|by vm_compute in E].
  exists s. split; [done|]. pose proof (iv_fd_epoll_flush_exact (W := sim) sim_clock sim_timeofday demo_handler s) as Hflush.
  apply Hflush.
  assert (option_map fs_method (demo_state "epoll-timerfd" demo_setup) = Some (Some MEpoll)) as Em by (vm_compute; reflexivity).
  rewrite E in Em. injection Em as Em. exact (fds_ok_family s MEpoll (demo_state_ok _ _ _ _ E) Em).
Defined.

Lemma demo_poll_state cs s : demo_state "epoll epoll-timerfd" cs = Some s -> fs_method s = Some MPpoll -> pok s.
Proof. intros E Em. exact (fds_ok_family s MPpoll (demo_state_ok _ _ _ _ E) Em). Qed.

Lemma iv_fd_poll_array_exact_witness : exists s p, demo_state "epoll epoll-timerfd" demo_setup = Some s /\
  pm_u (fs_pm s) = UPoll p /\
  exists a, read_array (Z.to_nat (num_regd_fds p)) 0 s = Ok (a, s) /\ NoDup a.*1 /\
    forall n ev, (n, ev) ∈ a <-> exists f o, fs_fds s !! f = Some o /\ registered o = true /\ fd_fd o = n /\
      wanted_flags o <> 0 /\ ev = bits_to_poll_mask (wanted_flags o).
Proof.
  destruct (demo_state "epoll epoll-timerfd" demo_setup) as [s|] eqn:E; [|by vm_compute in E].
  assert (option_map fs_method (demo_state "epoll epoll-timerfd" demo_setup) = Some (Some MPpoll)) as Em by (vm_compute; reflexivity).
  rewrite E in Em. injection Em as Em. pose proof (demo_poll_state _ _ E Em) as Hok.
  pose proof Hok as [_ (p&Hp&_)]. exists s, p. split; [done|]. split; [exact Hp|].
  by apply iv_fd_poll_array_exact.
Defined.

Lemma iv_fd_poll_register_no_handlers_witness : exists s,
  demo_state "epoll epoll-timerfd" [FInit 1; FAssign 1 5 None None None] = Some s /\
  iv_fd_register demo_methods 1 s = Undef.
Proof.
  destruct (demo_state "epoll epoll-timerfd" [FInit 1; FAssign 1 5 None None None]) as [s|] eqn:E; [|by vm_compute in E].
  assert (option_map (fun s => (fs_method s, fs_fds s !! 1%positive)) (demo_state "epoll epoll-timerfd" [FInit 1; FAssign 1 5 None None None])
    = Some (Some MPpoll, Some (mk_fd 5 None None None 0 false 0 0 0))) as Em by (vm_compute; reflexivity).
  rewrite E in Em. injection Em as Em Ef. pose proof (demo_poll_state _ _ E Em) as Hok. exists s. split; [done|].
  by apply (iv_fd_poll_register_no_handlers sim_clock sim_timeofday demo_handler s 1 _ Hok Ef).
Defined.
