(* ===== verification/FdExact.v ===== *)
(** * What /dev/poll and kqueue are asked to wait for

    The set of /dev/poll after a flush, and the filter that registering on trial leaves
    out with kqueue. *)

From Stdlib Require Import Ascii String.
From S2P Require Import Prelude ISeq Timer Sys Fd PmState FdPoll FdEpoll FdKqueue FdDevPoll FdPort FdSpec FdCore FdDeferred FdEpollSpec FdPollSpec FdKqueueSpec FdDevPollSpec FdPortSpec FdMethods FdSim FdProps.

Local Open Scope Z_scope.

Section exact.
Context {W : Type} `{!FdKernel W, !PollKernels W}.
Context {HL : PollKernelsLaws W}.
Context (clock_gettime : nat -> clockid -> option timespec) (gettimeofday : nat -> Z * Z).
Context (handler : list activation -> list fd_call).
Abbreviation St := (fd_state pm_state W).
Abbreviation methods := (methods clock_gettime gettimeofday handler).

(** C34. /dev/poll defers changes too, and its set only ever grows by the events
    written, so that dropping an event means removing the descriptor first; yet after
    the flush at the start of a poll the set is exact: it holds the descriptors of the
    registered objects with a handler set and no others, each with the events of the
    handlers its object has at that moment, however few entries each write takes. *)
Theorem iv_fd_dev_poll_flush_exact (s : St) : fam_ok FamDevPoll s ->
  wp anyf iv_fd_dev_poll_flush_pending s (fun _ s' => quiet s s' /\ exists d, pm_u (fs_pm s') = UDevPoll d /\
    forall n ev, dp_interest (dp_poll_fd d) (fs_w s') !! n = Some ev <->
      exists f o, fs_fds s' !! f = Some o /\ registered o = true /\ fd_fd o = n /\
        wanted_flags o <> 0 /\ ev = dp_bits_to_poll_mask (wanted_flags o)).
Proof.
  intros [Hc Hi]. destruct (inv_unwritten _ _ Hi) as (d&Hp). eapply wp_mono; [by eapply dp_flush_spec|]. cbv beta.
  intros _ s' (Hq&(Hm&Hd&Ha)&Hn&_). split; [done|]. exists d. split; [done|]. cbn [apply_entries foldl] in Ha.
  assert (core_ok (cv s')) as Hc' by (by rewrite (proj1 Hq)).
  assert (forall f o, fs_fds s' !! f = Some o -> registered o = true ->
    dp_interest (dp_poll_fd d) (fs_w s') !! fd_fd o = dp_mask (wanted_flags o)) as Hmask.
  { intros f o Ho Hr. pose proof (co_wanted _ Hc' f _ (cv_lookup _ _ _ Ho) Hr) as Hw. change (wanted_bands o = wanted_flags o) in Hw.
    destruct (df_told _ _ _ _ _ _ _ _ Ha f _ (mv_lookup _ _ _ Ho) ltac:(by left)) as (_&_&E). cbn in E. rewrite E, <-Hw. f_equal.
    apply (df_settled _ _ _ _ _ _ _ _ Ha f _ (mv_lookup _ _ _ Ho) Hr); [done|]. cbn. rewrite Hn. apply not_elem_of_nil. }
  intros n ev. split.
  - intros H. destruct (df_world _ _ _ _ _ _ _ _ Ha n) as [f Hf]; [by exists ev|].
    destruct (df_entry _ _ _ _ _ _ _ _ Ha f) as (m&Hmf&[Hr|?]); [by exists n| |done].
    apply mv_lookup_inv in Hmf as (o&Ho&->). exists f, o.
    destruct (df_told _ _ _ _ _ _ _ _ Ha f _ (mv_lookup _ _ _ Ho) ltac:(by left)) as (_&Hone&_). cbn in Hone. pose proof (Hone _ Hf) as ->.
    rewrite (Hmask f o Ho Hr) in H. unfold dp_mask in H. destruct (Z.eqb_spec (wanted_flags o) 0); [done|]. injection H as <-. done.
  - intros (f&o&Ho&Hr&<-&Hw&->). rewrite (Hmask f o Ho Hr). unfold dp_mask. by destruct (Z.eqb_spec (wanted_flags o) 0).
Qed.

(** ** Registering on trial with kqueue *)

(** Of the two filters, one is asked for. *)
Lemma kqueue_sync_one_band (s : St) f o : kqueue_inv (Some f) (mv s) -> fs_fds s !! f = Some o -> registered o = true ->
  registered_bands o = 0 -> f ∉ members (fs_notify s) ->
  wp anyf (iv_fd_kqueue_notify_fd_sync f) s (fun ret s' => ret = 0 -> kqueue_inv None (mv s') /\ fs_notify s' = fs_notify s /\
    exists filter, fd_filter filter /\ fs_fds s' !! f = Some (set_registered_bands (band_of filter) o)).
Proof.
  intros Hi Hf Hr Hb Hn. unfold iv_fd_kqueue_notify_fd_sync. wbind.
  eapply wp_mono; [apply (sync_band_spec EVFILT_READ s f o); try done; by left|]. cbv beta. intros [] s1 [_ H1].
  { eapply wp_Ok; [reflexivity|]. intros _. destruct H1 as (?&?&?). split_and!; [done|done|]. exists EVFILT_READ. split; [by left|done]. }
  destruct H1 as (Hi1&Ef1&En1). wbind.
  eapply wp_mono; [apply (sync_band_spec EVFILT_WRITE s1 f o); try done; [by rewrite Ef1|by rewrite En1|by right]|]. cbv beta.
  intros [] s2 [_ H2]; (eapply wp_Ok; [reflexivity|]); [|done]. intros _. destruct H2 as (?&E2&?).
  split_and!; [done|congruence|]. exists EVFILT_WRITE. split; [by right|done].
Qed.

(** One of the two filters is not registered for the object, and no poll will register
    it as things stand. *)
Definition never_told (s : St) (f : loc) : Prop := f ∉ members (fs_notify s) /\
  exists k filter, pm_u (fs_pm s) = UKqueue k /\ fd_filter filter /\
    forall n, kq_knotes (kqueue_fd k) (fs_w s) !! (filter, n) <> Some (Some f).

#[local] Instance kqueue_methods : PollMethod methods kqueue_inv deferred_can deferred_can_reg deferred_unknown :=
  kqueue_poll_method clock_gettime gettimeofday (run_pending_events clock_gettime gettimeofday handler) methods eq_refl.

(** With kqueue, [iv_fd_register_try] of an object with both an input and an output
    handler asks the kernel for one of the two filters only, and does not queue the
    object for the other: as long as its handlers are not changed, one of the handlers
    of the registered object is never called. *)
Theorem iv_fd_kqueue_register_try_one_band (s : St) f o : fam_ok FamKqueue s ->
  fs_fds s !! f = Some o -> is_Some (handler_in o) -> is_Some (handler_out o) ->
  wp anyf (iv_fd_register_try methods f) s (fun ret s' => ret = 0 -> exists o',
    fs_fds s' !! f = Some o' /\ registered o' = true /\ is_Some (handler_in o') /\ is_Some (handler_out o') /\
    never_told s' f).
Proof.
  intros Hok Hf [hi Hin] [ho Hout].
  eapply wp_results; [eapply (register_try_kept methods legal (fam_legal FamKqueue) s f o Hok Hf); intros ????; exact I|].
  intros ret s' Er ->. unfold iv_fd_register_try in Er. apply bind_Ok_inv in Er as ([]&s1&Ep&Er).
  pose proof (wp_result _ _ _ _ _ _ (prologue_spec methods (inv := kqueue_inv) (can := deferred_can) (can_reg := deferred_can_reg) (unknown := deferred_unknown) s f o 0 Hok Hf ltac:(intros; exact I)) Ep) as Hp.
  destruct Hp as [_ (o'&o1&Hf'&Hf1&Ecore&_) _ _ Hi [Hn Hb]]. assert (o' = o) as -> by congruence.
  destruct (core_obj_flags _ _ Ecore) as (Hr1&_&_&_). cbn in Hr1.
  pose proof (f_equal handler_in Ecore) as Hin1. pose proof (f_equal handler_out Ecore) as Hout1. cbn in Hin1, Hout1.
  specialize (Hb _ (mv_lookup _ _ _ Hf1)). cbn in Hb.
  set (o2 := set_wanted_bands (wanted_flags o1) o1). set (s2 := upd f o2 s1).
  assert (fs_fds s2 !! f = Some o2) as Hf2 by apply lookup_upd_eq.
  rewrite (bind_Ok _ _ _ _ _ (recompute_Ok _ _ _ Hf1)) in Er. fold o2 s2 in Er. rewrite (bind_Ok _ _ _ _ _ (load_fd_Ok s2 f o2 Hf2)) in Er.
  assert (has (wanted_flags o1) MASKIN = true) as Hw by (unfold wanted_flags; rewrite Hr1, Hin1, Hin; by destruct (handler_out o1), (handler_err o1)).
  destruct (Z.eqb_spec (wanted_bands o2) 0) as [E|_]; [cbn in E; rewrite E in Hw; done|]. cbn [when] in Er.
  assert (kqueue_inv (Some f) (mv s2)) as Hi2 by (by apply (inv_set_wanted methods)).
  apply bind_Ok_inv in Er as (?&s2'&[= <- <-]&Er). apply bind_Ok_inv in Er as (ret&s3&Es&Er).
  rewrite (bind_Ok _ _ _ _ _ (kq_method clock_gettime gettimeofday _ methods eq_refl _ s2 Hi2)) in Es.
  destruct (Z.eqb_spec ret 0) as [->|Hne]; cbn [negb] in Er.
  2:{ repeat (apply bind_Ok_inv in Er as (?&?&_&Er)). by injection Er as ->. }
  destruct (wp_result _ _ _ _ _ _ (kqueue_sync_one_band s2 f o2 Hi2 Hf2 Hr1 Hb Hn) Es eq_refl) as (Hi3&En3&flt&Hff&Hf3).
  apply bind_Ok_inv in Er as (?&s3'&[= <- <-]&Er). apply bind_Ok_inv in Er as ([]&s4&Ee&[= <-]).
  unfold iv_fd_register_epilogue in Ee. do 2 (apply bind_Ok_inv in Ee as (?&?&[= <- <-]&Ee)).
  match type of Ee with (_ ≫= _) ?st = _ => rewrite (bind_Ok _ _ st _ _ (load_fd_Ok st f _ Hf3)) in Ee end.
  match type of Ee with (iv_fd_set_cloexec ?n ≫= _) ?st = _ => pose proof (epilogue_kernel methods (inv := kqueue_inv) st n None Hi3) as Hend end.
  destruct (wp_result _ _ _ _ _ _ Hend Ee) as (_&(x&(Hm4&k&Hk4&Hx4)&Hd4)&El4).
  injection El4 as Ef4 Eq4. cbn in Ef4, Eq4. exists (set_registered_bands (band_of flt) o2). rewrite Ef4, Hf3.
  split_and!; [done|exact Hr1|exists hi; exact (eq_trans Hin1 Hin)|exists ho; exact (eq_trans Hout1 Hout)|]. split; [by rewrite Eq4, En3|].
  set (other := if flt =? EVFILT_READ then EVFILT_WRITE else EVFILT_READ). exists k, other. split; [done|].
  assert (fd_filter other) as Hother by (unfold other; destruct Hff as [-> | ->]; [by right|by left]). split; [done|]. intros n' E.
  rewrite <-Hx4 in E by done.
  pose proof (mv_lookup s4 f (set_registered_bands (band_of flt) o2) ltac:(by rewrite Ef4, Hf3)) as Hmf.
  destruct (df_told _ _ _ _ _ _ _ _ Hd4 f _ Hmf ltac:(by left) other n' Hother E) as [_ Hb4].
  unfold other in Hb4. by destruct Hff as [-> | ->].
Qed.
End exact.

(** ** Examples on the simulated kernel *)
Lemma iv_fd_dev_poll_flush_exact_witness : exists s, demo_state_on Solaris "port-timer port" demo_setup = Some s /\
  wp anyf iv_fd_dev_poll_flush_pending s (fun _ s' => quiet s s' /\ exists d, pm_u (fs_pm s') = UDevPoll d /\
    forall n ev, dp_interest (dp_poll_fd d) (fs_w s') !! n = Some ev <->
      exists f o, fs_fds s' !! f = Some o /\ registered o = true /\ fd_fd o = n /\
        wanted_flags o <> 0 /\ ev = dp_bits_to_poll_mask (wanted_flags o)).
Proof.
  destruct (demo_state_on Solaris "port-timer port" demo_setup) as [s|] eqn:E; [|by vm_compute in E].
  exists s. split; [done|]. pose proof (iv_fd_dev_poll_flush_exact (W := sim) s) as Hflush. apply Hflush.
  assert (option_map fs_method (demo_state_on Solaris "port-timer port" demo_setup) = Some (Some MDevPoll)) as Em by (vm_compute; reflexivity).
  rewrite E in Em. injection Em as Em. exact (fds_ok_family s MDevPoll (demo_state_ok _ _ _ _ E) Em).
Defined.

(** An object on descriptor 5 with an input and an output handler. *)
Definition both_setup : list fd_call := [FInit 1; FAssign 1 5 (Some 11%positive) (Some 12%positive) None].
Definition both_object : iv_fd_ := mk_fd 5 (Some 11%positive) (Some 12%positive) None 0 false 0 0 0.
Lemma iv_fd_kqueue_register_try_one_band_witness : exists s, demo_state_on Bsd "" both_setup = Some s /\
  match iv_fd_register_try demo_methods 1 s with Ok (ret, _) => ret = 0 | _ => False end /\
  wp anyf (iv_fd_register_try demo_methods 1) s (fun ret s' => ret = 0 -> exists o',
    fs_fds s' !! 1%positive = Some o' /\ registered o' = true /\ is_Some (handler_in o') /\ is_Some (handler_out o') /\
    never_told s' 1).
Proof.
  destruct (demo_state_on Bsd "" both_setup) as [s|] eqn:E; [|by vm_compute in E].
  assert (option_map (fun s => (fs_method s, fs_fds s !! 1%positive, match iv_fd_register_try demo_methods 1 s with Ok (ret, _) => ret =? 0 | _ => false end))
    (demo_state_on Bsd "" both_setup) = Some (Some MKqueue, Some both_object, true)) as Em by (vm_compute; reflexivity).
  rewrite E in Em. injection Em as Em Ef Er. exists s. split; [done|]. split.
  - destruct (iv_fd_register_try demo_methods 1 s) as [[ret s']| | |]; [|done..]. by apply Z.eqb_eq.
  - pose proof (iv_fd_kqueue_register_try_one_band (W := sim) sim_clock sim_timeofday demo_handler s 1 both_object
      (fds_ok_family s MKqueue (demo_state_ok _ _ _ _ E) Em) Ef) as H. apply H; by eexists.
Defined.
