(* ===== verification/Pump.v ===== *)
(** * The descriptor pump (iv_fd_pump.c)

    A pump moves bytes from one descriptor to another, through a buffer in memory
    or, where splice(2) works, through a pipe.  Buffers come from a cache of the
    thread and go back to it as soon as they are empty. *)


From S2P Require Import Prelude Sys.

Local Open Scope Z_scope.

Abbreviation byte := Byte.byte.

Definition MAX_CACHED_BUFS : Z := 20.
Definition BUF_SIZE : Z := 4096.

(** A buffer: just allocated, bytes of memory (not all written yet), or a pipe. *)
Inductive pump_buf := BNew | BMem (l : list (option byte)) | BPipe (r w : Z).

(** [struct iv_fd_pump]; the cookie and [set_bands] are the client's. *)
Record iv_fd_pump := mk_pump {
  from_fd : Z;
  to_fd : Z;
  relay_eof : bool;
  p_buf : ptr;
  p_bytes : Z;
  p_full : bool;
  p_saw_fin : Z }.
Definition set_from_fd (v : Z) (s : iv_fd_pump) : iv_fd_pump :=
  mk_pump v (to_fd s) (relay_eof s) (p_buf s) (p_bytes s) (p_full s) (p_saw_fin s).
Definition set_to_fd (v : Z) (s : iv_fd_pump) : iv_fd_pump :=
  mk_pump (from_fd s) v (relay_eof s) (p_buf s) (p_bytes s) (p_full s) (p_saw_fin s).
Definition set_relay_eof (v : bool) (s : iv_fd_pump) : iv_fd_pump :=
  mk_pump (from_fd s) (to_fd s) v (p_buf s) (p_bytes s) (p_full s) (p_saw_fin s).
Definition set_p_buf (v : ptr) (s : iv_fd_pump) : iv_fd_pump :=
  mk_pump (from_fd s) (to_fd s) (relay_eof s) v (p_bytes s) (p_full s) (p_saw_fin s).
Definition set_p_bytes (v : Z) (s : iv_fd_pump) : iv_fd_pump :=
  mk_pump (from_fd s) (to_fd s) (relay_eof s) (p_buf s) v (p_full s) (p_saw_fin s).
Definition set_p_full (v : bool) (s : iv_fd_pump) : iv_fd_pump :=
  mk_pump (from_fd s) (to_fd s) (relay_eof s) (p_buf s) (p_bytes s) v (p_saw_fin s).
Definition set_p_saw_fin (v : Z) (s : iv_fd_pump) : iv_fd_pump :=
  mk_pump (from_fd s) (to_fd s) (relay_eof s) (p_buf s) (p_bytes s) (p_full s) v.

(** The calls into the kernel and the allocator. *)
Class PumpKernel (W : Type) := {
  pk_malloc : gset loc -> W -> option loc * W;
  pk_read : Z -> Z -> W -> sysres (list byte) * W;
  pk_write : Z -> list byte -> W -> sysres Z * W;
  pk_splice : Z -> Z -> Z -> W -> sysres Z * W;
  pk_pipe2 : W -> sysres (Z * Z) * W;
  pk_pipe : W -> sysres (Z * Z) * W;
  pk_set_cloexec : Z -> W -> W;
  pk_close : Z -> W -> W;
  pk_fionread : Z -> W -> option Z * W;
  pk_shutdown : Z -> W -> W;
  pk_signals : W -> nat }.

(** The thread: its pumps and buffers, [struct iv_fd_pump_thr_info], the static
    variables, and the calls of [set_bands]. *)
Record pump_state (W : Type) := mk_pst {
  ps_pumps : gmap loc iv_fd_pump;
  ps_bufs : gmap loc pump_buf;
  ps_num_bufs : Z;
  ps_cache : list loc;
  ps_splice : Z;
  ps_pipe2 : bool;
  ps_bands : list (loc * (bool * bool));
  ps_w : W }.
Arguments mk_pst {_}.
Arguments ps_pumps {_} _.
Arguments ps_bufs {_} _.
Arguments ps_num_bufs {_} _.
Arguments ps_cache {_} _.
Arguments ps_splice {_} _.
Arguments ps_pipe2 {_} _.
Arguments ps_bands {_} _.
Arguments ps_w {_} _.
Definition set_ps_pumps {W : Type} (v : gmap loc iv_fd_pump) (s : pump_state W) : pump_state W :=
  mk_pst v (ps_bufs s) (ps_num_bufs s) (ps_cache s) (ps_splice s) (ps_pipe2 s) (ps_bands s) (ps_w s).
Definition set_ps_bufs {W : Type} (v : gmap loc pump_buf) (s : pump_state W) : pump_state W :=
  mk_pst (ps_pumps s) v (ps_num_bufs s) (ps_cache s) (ps_splice s) (ps_pipe2 s) (ps_bands s) (ps_w s).
Definition set_ps_num_bufs {W : Type} (v : Z) (s : pump_state W) : pump_state W :=
  mk_pst (ps_pumps s) (ps_bufs s) v (ps_cache s) (ps_splice s) (ps_pipe2 s) (ps_bands s) (ps_w s).
Definition set_ps_cache {W : Type} (v : list loc) (s : pump_state W) : pump_state W :=
  mk_pst (ps_pumps s) (ps_bufs s) (ps_num_bufs s) v (ps_splice s) (ps_pipe2 s) (ps_bands s) (ps_w s).
Definition set_ps_splice {W : Type} (v : Z) (s : pump_state W) : pump_state W :=
  mk_pst (ps_pumps s) (ps_bufs s) (ps_num_bufs s) (ps_cache s) v (ps_pipe2 s) (ps_bands s) (ps_w s).
Definition set_ps_pipe2 {W : Type} (v : bool) (s : pump_state W) : pump_state W :=
  mk_pst (ps_pumps s) (ps_bufs s) (ps_num_bufs s) (ps_cache s) (ps_splice s) v (ps_bands s) (ps_w s).
Definition set_ps_bands {W : Type} (v : list (loc * (bool * bool))) (s : pump_state W) : pump_state W :=
  mk_pst (ps_pumps s) (ps_bufs s) (ps_num_bufs s) (ps_cache s) (ps_splice s) (ps_pipe2 s) v (ps_w s).
Definition set_ps_w {W : Type} (v : W) (s : pump_state W) : pump_state W :=
  mk_pst (ps_pumps s) (ps_bufs s) (ps_num_bufs s) (ps_cache s) (ps_splice s) (ps_pipe2 s) (ps_bands s) v.

Section pump.
Context {W : Type} `{!PumpKernel W}.
Abbreviation St := (pump_state W).

(** ** State access *)
Definition pkernel {A} (call : W -> A * W) : M St A := fun s =>
  let '(a, w) := call (ps_w s) in Ok (a, set_ps_w w s).
Definition load_pump (ip : loc) : M St iv_fd_pump := m ← gets ps_pumps; deref (m !! ip).
Definition upd_pump (ip : loc) (g : iv_fd_pump -> iv_fd_pump) : M St unit :=
  p ← load_pump ip; modify (fun s => set_ps_pumps (<[ip := g p]> (ps_pumps s)) s).
Definition load_buf (b : loc) : M St pump_buf := m ← gets ps_bufs; deref (m !! b).
Definition store_buf (b : loc) (v : pump_buf) : M St unit :=
  load_buf b;; modify (fun s => set_ps_bufs (<[b := v]> (ps_bufs s)) s).
Definition free_buf (b : loc) : M St unit :=
  load_buf b;; modify (fun s => set_ps_bufs (delete b (ps_bufs s)) s).
(** [buf->u.buf] and [buf->u.pfd]. *)
Definition load_mem (b : loc) : M St (list (option byte)) :=
  v ← load_buf b; match v with BMem l => mret l | _ => undef end.
Definition load_pfd2 (b : loc) : M St (Z * Z) :=
  v ← load_buf b; match v with BPipe r w => mret (r, w) | _ => undef end.
Definition splicing : M St bool := v ← gets ps_splice; mret (negb (v =? 0)).
Definition set_bands (ip : loc) (pollin pollout : bool) : M St unit :=
  modify (fun s => set_ps_bands (ps_bands s ++ [(ip, (pollin, pollout))]) s).

(** ** Thread state *)
Definition iv_fd_pump_tls_init_thread : M St unit :=
  modify (set_ps_num_bufs 0);; modify (set_ps_cache []).

(** ** Pipes *)
Definition grab_pipe : M St (sysres (Z * Z)) :=
  support ← gets ps_pipe2;
  first ← (if support : bool then
      ret ← pkernel pk_pipe2;
      match ret with
      | inr ENOSYS => modify (set_ps_pipe2 false);; mret None
      | _ => mret (Some ret)
      end
    else mret None);
  match first with
  | Some ret => mret ret
  | None =>
      ret ← pkernel pk_pipe;
      match ret with
      | inl (r, w) =>
          pkernel (fun x => (tt, pk_set_cloexec r x));;
          pkernel (fun x => (tt, pk_set_cloexec w x));;
          mret ret
      | inr _ => mret ret
      end
  end.

(** ** Buffers *)
Definition buf_alloc : M St ptr :=
  sp ← splicing;
  bufs ← gets ps_bufs;
  b ← pkernel (pk_malloc (dom bufs));
  match b with
  | None => mret None
  | Some b =>
      modify (fun s => set_ps_bufs (<[b := if sp then BNew else BMem (replicate (Z.to_nat BUF_SIZE) None)]> (ps_bufs s)) s);;
      if sp : bool then
        ret ← grab_pipe;
        match ret with
        | inr _ => free_buf b;; mret None
        | inl (r, w) => store_buf b (BPipe r w);; mret (Some b)
        end
      else mret (Some b)
  end.

Definition __buf_free (b : loc) : M St unit :=
  sp ← splicing;
  when sp (
    p ← load_pfd2 b;
    pkernel (fun x => (tt, pk_close (p : Z * Z).1 x));;
    pkernel (fun x => (tt, pk_close p.2 x)));;
  free_buf b.

Definition buf_put (b : loc) (bytes : Z) : M St unit :=
  sp ← splicing;
  if sp && negb (bytes =? 0) then __buf_free b
  else
    n ← gets ps_num_bufs;
    if n <? MAX_CACHED_BUFS then
      modify (set_ps_num_bufs (n + 1));; load_buf b;; modify (fun s => set_ps_cache (b :: ps_cache s) s)
    else __buf_free b.

Definition check_splice_available : M St unit :=
  modify (set_ps_splice 1);;
  b0 ← buf_alloc;
  match b0 with
  | None => modify (set_ps_splice 0)
  | Some b0 =>
      b1 ← buf_alloc;
      match b1 with
      | None => __buf_free b0;; modify (set_ps_splice 0)
      | Some b1 =>
          p0 ← load_pfd2 b0;
          p1 ← load_pfd2 b1;
          ret ← pkernel (pk_splice (p0 : Z * Z).1 (p1 : Z * Z).2 1);
          match ret with
          | inr EAGAIN => buf_put b1 0;; buf_put b0 0
          | _ => __buf_free b0;; __buf_free b1;; modify (set_ps_splice 0)
          end
      end
  end.

Definition __buf_dequeue : M St ptr :=
  q ← gets ps_cache;
  match q with
  | [] => mret None
  | b :: q =>
      modify (fun s => set_ps_num_bufs (ps_num_bufs s - 1) s);;
      modify (set_ps_cache q);;
      mret (Some b)
  end.

Definition buf_get : M St ptr :=
  b ← __buf_dequeue;
  match b with
  | Some b => mret (Some b)
  | None => buf_alloc
  end.

(** [while ((buf = __buf_dequeue(tinfo)) != NULL) __buf_free(buf);] *)
Fixpoint buf_purge_loop (fuel : nat) : M St unit :=
  match fuel with
  | O => out_of_fuel
  | Datatypes.S fuel =>
      b ← __buf_dequeue;
      match b with
      | None => mret tt
      | Some b => __buf_free b;; buf_purge_loop fuel
      end
  end.
Definition buf_purge : M St unit := q ← gets ps_cache; buf_purge_loop (Datatypes.S (length q)).
Definition iv_fd_pump_tls_deinit_thread : M St unit := buf_purge.

(** ** Pumps *)
Definition iv_fd_pump_init (ip : loc) : M St unit :=
  v ← gets ps_splice;
  when (v =? -1) check_splice_available;;
  upd_pump ip (set_p_buf None);;
  upd_pump ip (set_p_bytes 0);;
  upd_pump ip (set_p_full false);;
  upd_pump ip (set_p_saw_fin 0);;
  set_bands ip true false.

(** [if (buf != NULL) { buf_put(buf, ip->bytes); ip->buf = NULL; }] *)
Definition release_buf (ip : loc) : M St unit :=
  p ← load_pump ip;
  match p_buf p with
  | None => mret tt
  | Some b => buf_put b (p_bytes p);; upd_pump ip (set_p_buf None)
  end.

Definition iv_fd_pump_destroy (ip : loc) : M St unit :=
  p ← load_pump ip;
  when (negb (p_saw_fin p =? 2)) (set_bands ip false false);;
  release_buf ip.

(** [len] bytes from place [at_] on are inside of the buffer; anything else is not to be
    touched. *)
Definition inside (at_ len : Z) (l : list (option byte)) : bool :=
  (0 <=? at_) && (0 <=? len) && (at_ + len <=? Z.of_nat (length l)).
(** read(2) of [len] bytes to place [at_] of a buffer. *)
Definition write_at (n : nat) (d : list byte) (l : list (option byte)) : list (option byte) :=
  take n l ++ (Some <$> d) ++ drop (n + length d) l.
Definition read_mem (fd : Z) (b : loc) (at_ len : Z) : M St (sysres Z) :=
  l ← load_mem b;
  if negb (inside at_ len l) then undef else
  r ← pkernel (pk_read fd len);
  match r with
  | inl d => store_buf b (BMem (write_at (Z.to_nat at_) d l));; mret (inl (Z.of_nat (length d)))
  | inr e => mret (inr e)
  end.
(** write(2) of the first [len] bytes of a buffer, which must have been written. *)
Definition write_mem (fd : Z) (b : loc) (len : Z) : M St (sysres Z) :=
  l ← load_mem b;
  if negb (inside 0 len l) then undef else
  d ← deref (mapM (fun x => x) (take (Z.to_nat len) l));
  pkernel (pk_write fd d).

(** [shutdown(ip->to_fd, SHUT_WR)] when asked for, and [saw_fin = 2]. *)
Definition relay_fin (ip : loc) (p : iv_fd_pump) : M St unit :=
  when (relay_eof p) (pkernel (fun x => (tt, pk_shutdown (to_fd p) x)));;
  upd_pump ip (set_p_saw_fin 2).

(** The loop around read(2) or splice(2). *)
Definition input_call (p : iv_fd_pump) (b : loc) : M St (sysres Z) :=
  sp ← splicing;
  fuel ← gets (fun s => Datatypes.S (pk_signals (ps_w s)));
  retry fuel (
    if negb sp then read_mem (from_fd p) b (p_bytes p) (BUF_SIZE - p_bytes p)
    else pfd ← load_pfd2 b; pkernel (pk_splice (from_fd p) (pfd : Z * Z).2 1048576)).

Definition iv_fd_pump_try_input (ip : loc) : M St Z :=
  p ← load_pump ip;
  b ← match p_buf p with
      | Some b => mret (Some b)
      | None =>
          b ← buf_get;
          match b with
          | None => mret None
          | Some b => upd_pump ip (set_p_buf (Some b));; mret (Some b)
          end
      end;
  match b with
  | None => mret (-1)
  | Some b =>
      p ← load_pump ip;
      sp ← splicing;
      ret ← input_call p b;
      match ret with
      | inr EAGAIN =>
          when (sp && negb (p_bytes p =? 0)) (
            bytes ← pkernel (pk_fionread (from_fd p));
            when (0 <? default 1 bytes) (upd_pump ip (set_p_full true)));;
          mret 0
      | inr _ => mret (-1)
      | inl ret =>
          if ret =? 0 then
            upd_pump ip (set_p_saw_fin 1);;
            when (p_bytes p =? 0) (relay_fin ip p);;
            mret 0
          else
            upd_pump ip (fun p => set_p_bytes (p_bytes p + ret) p);;
            p ← load_pump ip;
            when (negb sp && (p_bytes p =? BUF_SIZE)) (upd_pump ip (set_p_full true));;
            mret 0
      end
  end.

(** The loop around write(2) or splice(2). *)
Definition output_call (p : iv_fd_pump) (b : loc) : M St (sysres Z) :=
  sp ← splicing;
  fuel ← gets (fun s => Datatypes.S (pk_signals (ps_w s)));
  retry fuel (
    if negb sp then write_mem (to_fd p) b (p_bytes p)
    else pfd ← load_pfd2 b; pkernel (pk_splice (pfd : Z * Z).1 (to_fd p) (p_bytes p))).

(** [memmove(buf->u.buf, buf->u.buf + ret, bytes)] *)
Definition move_down (ret bytes : nat) (l : list (option byte)) : list (option byte) :=
  take bytes (drop ret l) ++ drop bytes l.
Definition move_mem (b : loc) (ret bytes : Z) : M St unit :=
  l ← load_mem b;
  if negb (inside ret bytes l) then undef else store_buf b (BMem (move_down (Z.to_nat ret) (Z.to_nat bytes) l)).

Definition iv_fd_pump_try_output (ip : loc) : M St Z :=
  p ← load_pump ip;
  b ← deref (p_buf p);
  sp ← splicing;
  ret ← output_call p b;
  match ret with
  | inr EAGAIN => mret 0
  | inr _ => mret (-1)
  | inl ret =>
      if ret <=? 0 then mret (-1)
      else
        upd_pump ip (set_p_full false);;
        upd_pump ip (fun p => set_p_bytes (p_bytes p - ret) p);;
        p ← load_pump ip;
        when (negb sp) (move_mem b ret (p_bytes p));;
        when ((p_bytes p =? 0) && (p_saw_fin p =? 1)) (relay_fin ip p);;
        mret 0
  end.

Definition __iv_fd_pump_pump (ip : loc) : M St Z :=
  p ← load_pump ip;
  r ← (if negb (p_full p) && (p_saw_fin p =? 0) then iv_fd_pump_try_input ip else mret 0);
  if negb (r =? 0) then mret (-1)
  else
    p ← load_pump ip;
    r ← (if negb (p_bytes p =? 0) then iv_fd_pump_try_output ip else mret 0);
    if negb (r =? 0) then mret (-1)
    else
      p ← load_pump ip;
      if p_saw_fin p =? 0 then
        set_bands ip (negb (p_full p)) (negb (p_bytes p =? 0));; mret 1
      else if p_saw_fin p =? 1 then set_bands ip false true;; mret 1
      else if p_saw_fin p =? 2 then set_bands ip false false;; mret 0
      else iv_fatal "iv_fd_pump_pump: saw_fin".

Definition iv_fd_pump_pump (ip : loc) : M St Z :=
  ret ← __iv_fd_pump_pump ip;
  p ← load_pump ip;
  when ((ret <? 0) || (p_bytes p =? 0)) (release_buf ip);;
  mret ret.

Definition iv_fd_pump_is_done (ip : loc) : M St bool := p ← load_pump ip; mret (p_saw_fin p =? 2).
End pump.
