(* ===== verification/PumpSpec.v ===== *)
(** * Pumps lose nothing

    What the pump relies on of the kernel, as laws on a view of it: the bytes read
    from and written to every descriptor so far, and which descriptors are open,
    ends of one pipe, at their end, or shut down.  Then the pool of buffers, and
    the invariant of a pump: what was consumed is what was delivered followed by
    what the buffer holds. *)

From S2P Require Import Prelude Sys Pump.

Local Open Scope Z_scope.

Record kview := mk_kv {
  k_rd : gmap Z (list byte); k_wr : gmap Z (list byte);
  k_open : gset Z; k_pipe : gmap Z Z; k_eof : gset Z; k_shut : gset Z }.
Definition rd_of (n : Z) (v : kview) : list byte := default [] (k_rd v !! n).
Definition wr_of (n : Z) (v : kview) : list byte := default [] (k_wr v !! n).

(** Bytes taken from [n]; none at all is the end of the stream. *)
Definition consume (n : Z) (d : list byte) (v : kview) : kview :=
  mk_kv (<[n := rd_of n v ++ d]> (k_rd v)) (k_wr v) (k_open v) (k_pipe v)
    (if decide (d = []) then {[n]} ∪ k_eof v else k_eof v) (k_shut v).
Definition deliver (n : Z) (d : list byte) (v : kview) : kview :=
  mk_kv (k_rd v) (<[n := wr_of n v ++ d]> (k_wr v)) (k_open v) (k_pipe v) (k_eof v) (k_shut v).
Definition new_pipe (r w : Z) (v : kview) : kview :=
  mk_kv (<[r := []]> (k_rd v)) (<[w := []]> (k_wr v)) ({[r; w]} ∪ k_open v) (<[r := w]> (k_pipe v)) (k_eof v) (k_shut v).
Definition close_fd (n : Z) (v : kview) : kview :=
  mk_kv (k_rd v) (k_wr v) (k_open v ∖ {[n]}) (k_pipe v) (k_eof v) (k_shut v).
Definition shut_fd (n : Z) (v : kview) : kview :=
  mk_kv (k_rd v) (k_wr v) (k_open v) (k_pipe v) (k_eof v) ({[n]} ∪ k_shut v).

(** read(2), write(2), splice(2), pipe(2), close(2), shutdown(2), ioctl FIONREAD;
    a call that is interrupted leaves fewer signals to come. *)
Class PumpLaws (W : Type) `{!PumpKernel W} := {
  pv : W -> kview;
  law_malloc : forall D w r w', pk_malloc D w = (r, w') -> pv w' = pv w /\ forall b, r = Some b -> b ∉ D;
  law_read : forall n len w r w', 0 <= len -> pk_read n len w = (r, w') ->
    match r with
    | inl d => Z.of_nat (length d) <= len /\ pv w' = consume n d (pv w)
    | inr e => pv w' = pv w /\ (e = EINTR -> (pk_signals w' < pk_signals w)%nat)
    end;
  law_write : forall n d w r w', pk_write n d w = (r, w') ->
    match r with
    | inl k => 0 <= k <= Z.of_nat (length d) /\ pv w' = deliver n (take (Z.to_nat k) d) (pv w)
    | inr e => pv w' = pv w /\ (e = EINTR -> (pk_signals w' < pk_signals w)%nat)
    end;
  law_splice : forall a b len w r w', pk_splice a b len w = (r, w') ->
    match r with
    | inl k => exists d, k = Z.of_nat (length d) /\ k <= len /\ pv w' = deliver b d (consume a d (pv w)) /\
        forall s, k_pipe (pv w) !! a = Some s -> (rd_of a (pv w) ++ d) `prefix_of` wr_of s (pv w)
    | inr e => pv w' = pv w /\ (e = EINTR -> (pk_signals w' < pk_signals w)%nat)
    end;
  law_pipe2 : forall w r w', pk_pipe2 w = (r, w') ->
    match r with
    | inl (a, b) => a <> b /\ a ∉ k_open (pv w) /\ b ∉ k_open (pv w) /\ pv w' = new_pipe a b (pv w)
    | inr _ => pv w' = pv w
    end;
  law_pipe : forall w r w', pk_pipe w = (r, w') ->
    match r with
    | inl (a, b) => a <> b /\ a ∉ k_open (pv w) /\ b ∉ k_open (pv w) /\ pv w' = new_pipe a b (pv w)
    | inr _ => pv w' = pv w
    end;
  law_cloexec : forall n w, pv (pk_set_cloexec n w) = pv w;
  law_close : forall n w, pv (pk_close n w) = close_fd n (pv w);
  law_fionread : forall n w, pv (pk_fionread n w).2 = pv w;
  law_shutdown : forall n w, pv (pk_shutdown n w) = shut_fd n (pv w) }.

Lemma rd_consume m n d v : rd_of m (consume n d v) = if decide (m = n) then rd_of m v ++ d else rd_of m v.
Proof. unfold rd_of, consume. cbn. case_decide as E; [subst; by rewrite lookup_insert_eq|by rewrite lookup_insert_ne]. Qed.
Lemma wr_deliver m n d v : wr_of m (deliver n d v) = if decide (m = n) then wr_of m v ++ d else wr_of m v.
Proof. unfold wr_of, deliver. cbn. case_decide as E; [subst; by rewrite lookup_insert_eq|by rewrite lookup_insert_ne]. Qed.
Lemma rd_new_pipe m r w v : rd_of m (new_pipe r w v) = if decide (m = r) then [] else rd_of m v.
Proof. unfold rd_of, new_pipe. cbn. case_decide as E; [subst; by rewrite lookup_insert_eq|by rewrite lookup_insert_ne]. Qed.
Lemma wr_new_pipe m r w v : wr_of m (new_pipe r w v) = if decide (m = w) then [] else wr_of m v.
Proof. unfold wr_of, new_pipe. cbn. case_decide as E; [subst; by rewrite lookup_insert_eq|by rewrite lookup_insert_ne]. Qed.

Definition nofatal (e : string) : Prop := False.

Section pool.
Context {W : Type} `{!PumpKernel W, HL : !PumpLaws W}.
Abbreviation St := (pump_state W).
Implicit Types (s : St) (H : gmap loc (list byte)) (b : loc).

Definition view s : kview := pv (ps_w s).
Definition is_splicing s : bool := negb (ps_splice s =? 0).

(** A buffer holds the bytes [I]. *)
Definition holds (v : kview) (sp : bool) (x : pump_buf) (I : list byte) : Prop :=
  match x with
  | BNew => False
  | BMem l => sp = false /\ Z.of_nat (length l) = BUF_SIZE /\ take (length I) l = Some <$> I
  | BPipe r w => sp = true /\ r <> w /\ r ∈ k_open v /\ w ∈ k_open v /\ k_pipe v !! r = Some w /\
      wr_of w v = rd_of r v ++ I
  end.

(** [H]: what every allocated buffer holds; those in the cache hold nothing. *)
Record pool_ok s H : Prop := {
  po_holds : forall b x, ps_bufs s !! b = Some x -> exists I, H !! b = Some I /\ holds (view s) (is_splicing s) x I;
  po_dom : forall b I, H !! b = Some I -> is_Some (ps_bufs s !! b);
  po_pipes : forall b b' r w r' w', ps_bufs s !! b = Some (BPipe r w) -> ps_bufs s !! b' = Some (BPipe r' w') ->
    b <> b' -> r <> r' /\ w <> w' /\ r <> w' /\ w <> r';
  po_cache : forall b, b ∈ ps_cache s -> H !! b = Some [];
  po_nodup : NoDup (ps_cache s);
  po_num : ps_num_bufs s = Z.of_nat (length (ps_cache s)) /\ ps_num_bufs s <= MAX_CACHED_BUFS }.

(** A descriptor that belongs to the client. *)
Definition pool_fd s (n : Z) : Prop := exists b r w, ps_bufs s !! b = Some (BPipe r w) /\ (n = r \/ n = w).
Definition outside s (n : Z) : Prop := n ∈ k_open (view s) /\ ~ pool_fd s n.

(** What an operation on the pool leaves alone. *)
Definition same_fd (s s' : St) (n : Z) : Prop :=
  rd_of n (view s') = rd_of n (view s) /\ wr_of n (view s') = wr_of n (view s) /\
  (n ∈ k_eof (view s') <-> n ∈ k_eof (view s)) /\ (n ∈ k_shut (view s') <-> n ∈ k_shut (view s)).
Record calm (s s' : St) : Prop := {
  ca_pumps : ps_pumps s' = ps_pumps s;
  ca_bands : ps_bands s' = ps_bands s;
  ca_splice : ps_splice s' = ps_splice s;
  ca_fds : forall n, outside s n -> outside s' n /\ same_fd s s' n }.

Lemma calm_refl s : calm s s.
Proof. by split. Qed.
Lemma calm_trans s1 s2 s3 : calm s1 s2 -> calm s2 s3 -> calm s1 s3.
Proof.
  intros [P1 B1 S1 F1] [P2 B2 S2 F2]. split; [congruence..|]. intros n Hn.
  destruct (F1 n Hn) as [Hn2 (?&?&?&?)]. destruct (F2 n Hn2) as [Hn3 (?&?&?&?)].
  split; [done|]. repeat split; [congruence|congruence|tauto|tauto|tauto|tauto].
Qed.

Lemma pkernel_Ok {A} (call : W -> A * W) s a w : call (ps_w s) = (a, w) -> pkernel call s = Ok (a, set_ps_w w s).
Proof. intros E. unfold pkernel. by rewrite E. Qed.

Lemma grab_pipe_spec s : wp nofatal grab_pipe s (fun ret s' => exists w' x, s' = set_ps_w w' (set_ps_pipe2 x s) /\
  match ret with
  | inl (a, b) => a <> b /\ a ∉ k_open (view s) /\ b ∉ k_open (view s) /\ pv w' = new_pipe a b (view s)
  | inr _ => pv w' = view s
  end).
Proof.
  unfold grab_pipe. wprim. wbind.
  apply (wp_mono _ _ _ (fun first s1 => exists w1 x1, s1 = set_ps_w w1 (set_ps_pipe2 x1 s) /\
    match first with
    | Some (inl (a, b)) => a <> b /\ a ∉ k_open (view s) /\ b ∉ k_open (view s) /\ pv w1 = new_pipe a b (view s)
    | _ => pv w1 = view s
    end)).
  - destruct (ps_pipe2 s) eqn:E2; [|eapply wp_Ok; [reflexivity|]; exists (ps_w s), (ps_pipe2 s); split; [by destruct s|done]].
    destruct (pk_pipe2 (ps_w s)) as [r w1] eqn:E. wrun (pkernel_Ok _ _ _ _ E). pose proof (law_pipe2 _ _ _ E) as HL2.
    assert (forall w1, set_ps_w w1 s = set_ps_w w1 (set_ps_pipe2 (ps_pipe2 s) s)) as Es by (by destruct s).
    destruct r as [[a b]|[]]; try (eapply wp_Ok; [reflexivity|]; exists w1, (ps_pipe2 s); by split).
    wprim. eapply wp_Ok; [reflexivity|]. exists w1, false. by split.
  - intros first s1 (w1&x1&->&Hf). destruct first as [r|]; [eapply wp_Ok; [reflexivity|]; by exists w1, x1|].
    destruct (pk_pipe w1) as [r w2] eqn:E. wrun (pkernel_Ok pk_pipe (set_ps_w w1 (set_ps_pipe2 x1 s)) _ _ E).
    pose proof (law_pipe _ _ _ E) as HL2. rewrite Hf in HL2. destruct r as [[a b]|e].
    + do 2 wprim. eapply wp_Ok; [reflexivity|]. eexists _, x1. split; [reflexivity|]. rewrite law_cloexec. cbn [ps_w set_ps_w]. rewrite law_cloexec. exact HL2.
    + eapply wp_Ok; [reflexivity|]. by exists w2, x1.
Qed.

(** The kernel's own doings outside a pipe's two descriptors keep what it holds. *)
Lemma holds_view v v' sp x I : holds v sp x I ->
  (forall r w, x = BPipe r w -> rd_of r v' = rd_of r v /\ wr_of w v' = wr_of w v /\
     k_pipe v' !! r = k_pipe v !! r /\ (r ∈ k_open v -> r ∈ k_open v') /\ (w ∈ k_open v -> w ∈ k_open v')) ->
  holds v' sp x I.
Proof.
  destruct x as [|l|r w]; [done|done|]. intros (?&?&?&?&Hp&Hw) Hv. destruct (Hv r w eq_refl) as (E1&E2&E3&?&?).
  split_and!; auto; congruence.
Qed.

Lemma holds_fresh v (a c : Z) : a <> c -> holds (new_pipe a c v) true (BPipe a c) [].
Proof.
  intros Hab. split_and!; [done|done|cbn; set_solver|cbn; set_solver|cbn; by rewrite lookup_insert_eq|].
  rewrite wr_new_pipe, rd_new_pipe, !decide_True by done. done.
Qed.

(** *** The pool *)
Lemma pool_world s s' H : pool_ok s H -> ps_bufs s' = ps_bufs s -> ps_cache s' = ps_cache s ->
  ps_num_bufs s' = ps_num_bufs s -> ps_splice s' = ps_splice s ->
  (forall b r w, ps_bufs s !! b = Some (BPipe r w) -> rd_of r (view s') = rd_of r (view s) /\
     wr_of w (view s') = wr_of w (view s) /\ k_pipe (view s') !! r = k_pipe (view s) !! r /\
     (r ∈ k_open (view s) -> r ∈ k_open (view s')) /\ (w ∈ k_open (view s) -> w ∈ k_open (view s'))) ->
  pool_ok s' H.
Proof.
  intros [P1 P2 P3 P4 P5 P6] Eb Ec En Es Hv. unfold is_splicing in *.
  split; rewrite ?Eb, ?Ec, ?En; try done. intros b x Hx. destruct (P1 b x Hx) as (I&HI&Hh). exists I. split; [done|].
  unfold is_splicing. rewrite Es. eapply holds_view; [done|]. intros r w ->. eauto.
Qed.
Lemma pool_view s s' H : pool_ok s H -> ps_bufs s' = ps_bufs s -> ps_cache s' = ps_cache s ->
  ps_num_bufs s' = ps_num_bufs s -> ps_splice s' = ps_splice s -> view s' = view s -> pool_ok s' H.
Proof. intros Hp ?? ?? Ev. eapply pool_world; eauto. rewrite Ev. auto. Qed.

Lemma pool_insert s H b x I : pool_ok s H -> ps_bufs s !! b = None -> holds (view s) (is_splicing s) x I ->
  (forall r w, x = BPipe r w -> ~ pool_fd s r /\ ~ pool_fd s w) ->
  pool_ok (set_ps_bufs (<[b := x]> (ps_bufs s)) s) (<[b := I]> H).
Proof.
  intros [P1 P2 P3 P4 P5 P6] Hb Hx Hfd.
  assert (H !! b = None) as HHb.
  { destruct (H !! b) eqn:E; [|done]. destruct (P2 _ _ E) as [? ?]. congruence. }
  split; cbn; try done.
  - intros c y. rewrite lookup_insert. case_decide as E; [|].
    + subst c. intros [= <-]. exists I. by rewrite lookup_insert_eq.
    + intros Hy. rewrite lookup_insert_ne by done. eauto.
  - intros c J. rewrite !lookup_insert. case_decide; eauto.
  - intros c c' r w r' w'. rewrite !lookup_insert. case_decide as E1; case_decide as E2; try congruence.
    + intros [= ->] Hc' _. destruct (Hfd _ _ eq_refl) as [N1 N2].
      assert (pool_fd s r' /\ pool_fd s w') as [? ?] by (split; exists c', r', w'; auto).
      split_and!; intros ->; done.
    + intros Hc [= ->] _. destruct (Hfd _ _ eq_refl) as [N1 N2].
      assert (pool_fd s r /\ pool_fd s w) as [? ?] by (split; exists c, r, w; auto).
      split_and!; intros ->; done.
    + intros. eauto.
  - intros c Hc. rewrite lookup_insert_ne; [auto|]. intros ->. by rewrite (P4 _ Hc) in HHb.
Qed.

Lemma pool_fd_open s H n : pool_ok s H -> pool_fd s n -> n ∈ k_open (view s).
Proof.
  intros Hp (b&r&w&Hb&Hn). destruct (po_holds _ _ Hp b _ Hb) as (I&_&(_&_&?&?&_)). by destruct Hn as [-> | ->].
Qed.

Lemma free_buf_Ok s b x : ps_bufs s !! b = Some x ->
  free_buf b s = Ok (tt, set_ps_bufs (delete b (ps_bufs s)) s).
Proof. intros E. unfold free_buf, load_buf. msimpl. by rewrite E. Qed.
Lemma store_buf_Ok s b x y : ps_bufs s !! b = Some x ->
  store_buf b y s = Ok (tt, set_ps_bufs (<[b := y]> (ps_bufs s)) s).
Proof. intros E. unfold store_buf, load_buf. msimpl. by rewrite E. Qed.
Lemma load_pfd2_Ok s b r w : ps_bufs s !! b = Some (BPipe r w) -> load_pfd2 b s = Ok ((r, w), s).
Proof. intros E. unfold load_pfd2, load_buf. msimpl. by rewrite E. Qed.
Lemma load_mem_Ok s b l : ps_bufs s !! b = Some (BMem l) -> load_mem b s = Ok (l, s).
Proof. intros E. unfold load_mem, load_buf. msimpl. by rewrite E. Qed.

(** Outside descriptors survive what only adds a pipe. *)
Lemma calm_new_pipe s s' b a c : ps_pumps s' = ps_pumps s -> ps_bands s' = ps_bands s ->
  ps_splice s' = ps_splice s -> ps_bufs s' = <[b := BPipe a c]> (ps_bufs s) ->
  a ∉ k_open (view s) -> c ∉ k_open (view s) -> view s' = new_pipe a c (view s) -> calm s s'.
Proof.
  intros Ep Eb Es Ebuf Ha Hc Ev. split; [done..|]. intros n [Ho Hn].
  assert (n <> a /\ n <> c) as [Hna Hnc] by (split; intros ->; done). split; [split|].
  - rewrite Ev. cbn. set_solver.
  - intros (b'&r&w&Hb'&Hrw). rewrite Ebuf, lookup_insert in Hb'. case_decide.
    + injection Hb' as <- <-. by destruct Hrw.
    + apply Hn. by exists b', r, w.
  - unfold same_fd. rewrite Ev, rd_new_pipe, wr_new_pipe, !decide_False by done. done.
Qed.

Lemma buf_alloc_spec s H : pool_ok s H -> wp nofatal buf_alloc s (fun r s' => calm s s' /\ ps_cache s' = ps_cache s /\
  match r with None => pool_ok s' H | Some b => H !! b = None /\ pool_ok s' (<[b := []]> H) end).
Proof.
  intros Hp. unfold buf_alloc. do 2 wprim. destruct (pk_malloc (dom (ps_bufs s)) (ps_w s)) as [r w1] eqn:E.
  wrun (pkernel_Ok _ _ _ _ E). destruct (law_malloc _ _ _ _ E) as [Ev Hfresh].
  assert (pool_ok (set_ps_w w1 s) H /\ calm s (set_ps_w w1 s)) as [Hp1 Hc1].
  { split; [by eapply pool_view|]. split; [done..|]. intros n [Ho Hn]. unfold outside, same_fd, pool_fd, view. cbn. by rewrite Ev. }
  destruct r as [b|]; [|by eapply wp_Ok; [reflexivity|]].
  specialize (Hfresh b eq_refl). apply not_elem_of_dom in Hfresh. wprim.
  assert (H !! b = None) as HHb.
  { destruct (H !! b) eqn:EH; [|done]. destruct (po_dom _ _ Hp _ _ EH). congruence. }
  change (negb (ps_splice s =? 0)) with (is_splicing s). destruct (is_splicing s) eqn:Hs.
  - set (s1 := set_ps_bufs _ _). wbind. eapply wp_mono; [apply grab_pipe_spec|]. cbv beta.
    intros ret s2 (w2&x&->&Hr). change (view s1) with (pv w1) in Hr. rewrite Ev in Hr.
    destruct ret as [[a c]|e].
    + destruct Hr as (Hac&Ha&Hc&Ev2).
      wrun (store_buf_Ok (set_ps_w w2 (set_ps_pipe2 x s1)) b BNew (BPipe a c) (lookup_insert_eq _ _ _)).
      eapply wp_Ok; [reflexivity|]. set (s3 := set_ps_bufs _ _).
      assert (s3 = set_ps_bufs (<[b := BPipe a c]> (ps_bufs s)) (set_ps_w w2 (set_ps_pipe2 x s))) as Es3.
      { unfold s3, s1, set_ps_bufs, set_ps_w, set_ps_pipe2. cbn. by rewrite insert_insert_eq. }
      set (s0 := set_ps_w w2 (set_ps_pipe2 x s)) in *.
      assert (forall n, pool_fd s n -> n <> a /\ n <> c) as Hne.
      { intros n Hn. pose proof (pool_fd_open _ _ _ Hp Hn). split; intros ->; done. }
      assert (pool_ok s0 H) as Hp0.
      { apply (pool_world s s0 H Hp); try done. intros b' r w Hb'. change (view s0) with (pv w2). rewrite Ev2.
        destruct (Hne r ltac:(exists b', r, w; auto)), (Hne w ltac:(exists b', r, w; auto)).
        rewrite rd_new_pipe, wr_new_pipe, !decide_False by done. cbn. rewrite lookup_insert_ne by done.
        split_and!; try done; set_solver. }
      rewrite Es3. split_and!; [|done|done|].
      * apply (calm_new_pipe s _ b a c); try done.
      * apply (pool_insert s0 H b (BPipe a c) []); [done|done| |].
        { change (is_splicing s0) with (is_splicing s). rewrite Hs. change (view s0) with (pv w2). rewrite Ev2. by apply holds_fresh. }
        intros r w [= <- <-]. split; intros Hn; by destruct (Hne _ Hn).
    + wrun (free_buf_Ok (set_ps_w w2 (set_ps_pipe2 x s1)) b BNew (lookup_insert_eq _ _ _)).
      eapply wp_Ok; [reflexivity|]. set (s3 := set_ps_bufs _ _).
      assert (s3 = set_ps_w w2 (set_ps_pipe2 x s)) as ->.
      { unfold s3, s1, set_ps_bufs, set_ps_w, set_ps_pipe2. cbn. rewrite delete_insert_id by done. by destruct s. }
      split_and!; [|done|eapply (pool_view s); try done].
      split; [done..|]. intros n [Ho Hn]. unfold outside, same_fd, pool_fd, view. cbn. by rewrite Hr.
  - eapply wp_Ok; [reflexivity|]. split_and!; [|done|done|].
    + destruct Hc1 as [C1 C2 C3 C4]. split; [done..|]. intros n Hn. destruct (C4 n Hn) as [[Ho Hn'] Hsame].
      split; [split; [done|]|done]. intros (b'&r&w&Hb'&Hrw). cbn in Hb'. rewrite lookup_insert in Hb'.
      case_decide; [done|]. apply Hn'. by exists b', r, w.
    + apply (pool_insert (set_ps_w w1 s) H b (BMem _) []); [done|done| |done].
      change (is_splicing (set_ps_w w1 s)) with (is_splicing s). rewrite Hs. by split_and!.
Qed.

Lemma pool_remove s s' H b : pool_ok s H -> b ∉ ps_cache s -> ps_bufs s' = delete b (ps_bufs s) ->
  ps_cache s' = ps_cache s -> ps_num_bufs s' = ps_num_bufs s -> ps_splice s' = ps_splice s ->
  (forall b' r w, b' <> b -> ps_bufs s !! b' = Some (BPipe r w) -> rd_of r (view s') = rd_of r (view s) /\
     wr_of w (view s') = wr_of w (view s) /\ k_pipe (view s') !! r = k_pipe (view s) !! r /\
     (r ∈ k_open (view s) -> r ∈ k_open (view s')) /\ (w ∈ k_open (view s) -> w ∈ k_open (view s'))) ->
  pool_ok s' (delete b H).
Proof.
  intros [P1 P2 P3 P4 P5 P6] Hb Eb Ec En Es Hv. unfold is_splicing in *.
  split; rewrite ?Eb, ?Ec, ?En; try done.
  - intros c x. rewrite lookup_delete. case_decide as E; [done|]. intros Hx. destruct (P1 c x Hx) as (I&HI&Hh).
    exists I. rewrite lookup_delete_ne by done. split; [done|]. unfold is_splicing. rewrite Es.
    eapply holds_view; [done|]. intros r w ->. eauto.
  - intros c I. rewrite !lookup_delete. case_decide; [done|]. eauto.
  - intros c c' r w r' w'. rewrite !lookup_delete. repeat case_decide; try done. eauto.
  - intros c Hc. rewrite lookup_delete_ne by (intros ->; done). auto.
Qed.

Lemma calm_shrink s s' b : ps_pumps s' = ps_pumps s -> ps_bands s' = ps_bands s -> ps_splice s' = ps_splice s ->
  ps_bufs s' = delete b (ps_bufs s) -> (forall n, outside s n -> n ∈ k_open (view s') /\ same_fd s s' n) -> calm s s'.
Proof.
  intros ? ? ? Eb Hn. split; [done..|]. intros n Ho. destruct (Hn n Ho) as [Ho' Hs]. split; [split; [done|]|done].
  intros (c&r&w&Hc&Hrw). rewrite Eb in Hc. apply lookup_delete_Some in Hc as [_ Hc]. apply Ho. by exists c, r, w.
Qed.

Lemma buf_free_spec s H b I : pool_ok s H -> H !! b = Some I -> b ∉ ps_cache s ->
  wp nofatal (__buf_free b) s (fun _ s' => calm s s' /\ ps_cache s' = ps_cache s /\ pool_ok s' (delete b H) /\
    ps_num_bufs s' = ps_num_bufs s /\ ps_bufs s' = delete b (ps_bufs s) /\
    forall n, n ∈ k_open (view s') -> n ∈ k_open (view s) /\ forall r w, ps_bufs s !! b = Some (BPipe r w) -> n <> r /\ n <> w).
Proof.
  intros Hp HI Hb. destruct (po_dom _ _ Hp _ _ HI) as [x Hx]. destruct (po_holds _ _ Hp _ _ Hx) as (J&HJ&Hh).
  unfold __buf_free. wprim. change (negb (ps_splice s =? 0)) with (is_splicing s). destruct (is_splicing s) eqn:Hs; cbn [when].
  - destruct x as [|l|r w]; [done|by destruct Hh|]. destruct Hh as (_&_&Hr&Hw&_&_). apply wp_assoc.
    wrun (load_pfd2_Ok s b r w Hx). cbn [fst snd]. apply wp_assoc. do 2 wprim. set (s1 := set_ps_w _ _).
    eapply wp_Ok; [by apply (free_buf_Ok s1 b (BPipe r w))|].
    assert (view s1 = close_fd w (close_fd r (view s))) as Ev by (unfold view, s1; cbn; by rewrite law_close, law_close).
    assert (forall n, n <> r -> n <> w -> n ∈ k_open (view s) -> n ∈ k_open (view s1)) as Hopen by (rewrite Ev; cbn; set_solver).
    split_and!; [|done| |done|done|].
    3:{ intros n Hn. change (n ∈ k_open (view s1)) in Hn. rewrite Ev in Hn. cbn in Hn. split; [set_solver|].
        intros r' w' E. assert (r' = r /\ w' = w) as [-> ->] by (split; congruence). set_solver. }
    + eapply (calm_shrink s _ b); try done. intros n [Ho Hn].
      assert (n <> r /\ n <> w) as [? ?] by (split; intros ->; apply Hn; exists b, r, w; auto).
      split; [by apply Hopen|]. unfold same_fd. change (view (set_ps_bufs (delete b (ps_bufs s1)) s1)) with (view s1).
      rewrite Ev. done.
    + eapply (pool_remove s); try done. intros b' r' w' Hb' Hx'.
      change (view (set_ps_bufs (delete b (ps_bufs s1)) s1)) with (view s1).
      destruct (po_pipes _ _ Hp b b' r w r' w' Hx Hx') as (?&?&?&?); [congruence|].
      split_and!; [by rewrite Ev..| |]; intros ?; by apply Hopen.
  - wprim. eapply wp_Ok; [by apply (free_buf_Ok s b x)|]. split_and!; [|done| |done|done|].
    3:{ intros n Hn. split; [exact Hn|]. intros r w E. assert (x = BPipe r w) as -> by congruence. by destruct Hh. }
    + eapply (calm_shrink s _ b); try done. by intros n [Ho _].
    + by eapply (pool_remove s).
Qed.

(** Giving a buffer back: it is cached empty, or freed. *)
Lemma pool_recache s H b I : pool_ok s H -> H !! b = Some I -> b ∉ ps_cache s -> (is_splicing s = true -> I = []) ->
  ps_num_bufs s < MAX_CACHED_BUFS ->
  pool_ok (set_ps_cache (b :: ps_cache s) (set_ps_num_bufs (ps_num_bufs s + 1) s)) (<[b := []]> H).
Proof.
  intros [P1 P2 P3 P4 P5 P6] HI Hb Hemp Hn. split; cbn; try done.
  - intros c x Hx. destruct (P1 c x Hx) as (J&HJ&Hh). rewrite lookup_insert. case_decide as E; [|by exists J].
    subst c. exists []. split; [done|]. assert (J = I) as -> by congruence.
    change (holds (view s) (is_splicing s) x []).
    destruct x as [|l|r w]; [done| |].
    + destruct Hh as (?&?&_). by split_and!.
    + destruct Hh as (Hsp&Hh). rewrite <-(Hemp Hsp). by split.
  - intros c J. rewrite lookup_insert. case_decide; [|by eauto]. subst c. by eauto.
  - intros c [->|Hc]%elem_of_cons; [by rewrite lookup_insert_eq|]. rewrite lookup_insert_ne; [auto|]. by intros ->.
  - by apply NoDup_cons.
  - lia.
Qed.

Lemma buf_put_spec s H b I n : pool_ok s H -> H !! b = Some I -> b ∉ ps_cache s -> n = Z.of_nat (length I) ->
  wp nofatal (buf_put b n) s (fun _ s' => calm s s' /\ exists H', pool_ok s' H' /\
    (forall c, c <> b -> H' !! c = H !! c /\ (c ∈ ps_cache s' <-> c ∈ ps_cache s)) /\
    (is_Some (H' !! b) -> b ∈ ps_cache s') /\ (ps_bufs s' = ps_bufs s \/ ps_bufs s' = delete b (ps_bufs s))).
Proof.
  intros Hp HI Hb ->. unfold buf_put. wprim. change (negb (ps_splice s =? 0)) with (is_splicing s).
  assert (wp nofatal (__buf_free b) s (fun _ s' => calm s s' /\ exists H', pool_ok s' H' /\
    (forall c, c <> b -> H' !! c = H !! c /\ (c ∈ ps_cache s' <-> c ∈ ps_cache s)) /\
    (is_Some (H' !! b) -> b ∈ ps_cache s') /\ (ps_bufs s' = ps_bufs s \/ ps_bufs s' = delete b (ps_bufs s)))) as Hfree.
  { eapply wp_mono; [by eapply buf_free_spec|]. cbv beta. intros _ s' (Hc&Ec&Hp'&_&Eb&_). split; [done|].
    exists (delete b H). split_and!; [done| | |by right].
    - intros c Hcb. rewrite lookup_delete_ne by done. by rewrite Ec.
    - rewrite lookup_delete_eq. by intros [??]. }
  destruct (is_splicing s && negb (Z.of_nat (length I) =? 0)) eqn:E; [exact Hfree|]. wprim.
  destruct (Z.ltb_spec (ps_num_bufs s) MAX_CACHED_BUFS); [|exact Hfree].
  wprim. destruct (po_dom _ _ Hp _ _ HI) as [x Hx].
  set (s1 := set_ps_num_bufs (ps_num_bufs s + 1) s).
  assert (load_buf b s1 = Ok (x, s1)) as El by (unfold load_buf; msimpl; by rewrite Hx). wrun El.
  eapply wp_Ok; [reflexivity|]. split.
  - split; [done..|]. intros n Hn. done.
  - exists (<[b := []]> H). split_and!; [| | |by left].
    + apply (pool_recache s H b I); try done. intros Hsp. rewrite Hsp in E. cbn in E.
      destruct I; [done|]. cbn in E. done.
    + intros c Hcb. rewrite lookup_insert_ne by done. split; [done|]. cbn. rewrite elem_of_cons. tauto.
    + intros _. apply list_elem_of_here.
Qed.

(** Taking a buffer: an empty one that nobody uses, from the cache or new. *)
Lemma buf_get_spec s H : pool_ok s H -> wp nofatal buf_get s (fun r s' => calm s s' /\
  match r with
  | None => pool_ok s' H /\ ps_cache s' = ps_cache s
  | Some b => pool_ok s' (<[b := []]> H) /\ b ∉ ps_cache s' /\ (H !! b = None \/ b ∈ ps_cache s) /\
      (forall c, c <> b -> (c ∈ ps_cache s' <-> c ∈ ps_cache s))
  end).
Proof.
  intros Hp. unfold buf_get, __buf_dequeue. apply wp_assoc. wprim. destruct (ps_cache s) as [|b q] eqn:Hq.
  - wprim. eapply wp_mono; [by apply buf_alloc_spec|]. cbv beta. intros [b|] s' (Hc&Ec&Hr); (split; [done|]); rewrite Hq in Ec.
    + destruct Hr as [HHb Hp']. rewrite Ec. split_and!; [done|by apply not_elem_of_nil|by left|done].
    + by rewrite Ec.
  - pose proof (po_nodup _ _ Hp) as Hnd. rewrite Hq in Hnd. apply NoDup_cons in Hnd as [Hbq Hnd].
    apply wp_assoc. wprim. apply wp_assoc. wprim. wprim. eapply wp_Ok; [reflexivity|].
    pose proof (po_cache _ _ Hp b) as Hb. rewrite Hq in Hb. specialize (Hb ltac:(set_solver)).
    split; [split; done|]. rewrite insert_id by done. split_and!; [|done|right; set_solver|].
    + destruct Hp as [P1 P2 P3 P4 P5 [P6 P7]]. rewrite Hq in P4, P6. cbn in P6. split; cbn; try done; [intros c Hc; apply P4; set_solver|lia].
    + intros c Hcb. cbn. rewrite elem_of_cons. tauto.
Qed.

(** ** One pump *)

(** [D] is what the pump delivered since it was initialised, when [base] had been
    read and written; [I] is what it still holds. *)
Record pump_ok s H (base : list byte * list byte) (p : iv_fd_pump) (D I : list byte) : Prop := {
  pm_rd : rd_of (from_fd p) (view s) = base.1 ++ D ++ I;
  pm_wr : wr_of (to_fd p) (view s) = base.2 ++ D;
  pm_bytes : p_bytes p = Z.of_nat (length I);
  pm_buf : match p_buf p with Some b => H !! b = Some I /\ b ∉ ps_cache s | None => I = [] end;
  pm_fin : (p_saw_fin p = 0 /\ (p_full p = true -> I <> [])) \/ (p_saw_fin p = 1 /\ I <> []) \/ (p_saw_fin p = 2 /\ I = []);
  pm_eof : p_saw_fin p <> 0 -> from_fd p ∈ k_eof (view s);
  pm_shut : to_fd p ∈ k_shut (view s) <-> p_saw_fin p = 2 /\ relay_eof p = true;
  pm_fds : outside s (from_fd p) /\ outside s (to_fd p) }.

(** What moving data from [f] to [t] leaves alone. *)
Definition fds_step (f t : option Z) s s' : Prop := forall n, outside s n -> outside s' n /\
  (f <> Some n -> rd_of n (view s') = rd_of n (view s) /\ (n ∈ k_eof (view s') <-> n ∈ k_eof (view s))) /\
  (t <> Some n -> wr_of n (view s') = wr_of n (view s) /\ (n ∈ k_shut (view s') <-> n ∈ k_shut (view s))).
Record io (f t : option Z) s s' : Prop := {
  io_pumps : ps_pumps s' = ps_pumps s;
  io_bands : ps_bands s' = ps_bands s;
  io_splice : ps_splice s' = ps_splice s;
  io_cache : ps_cache s' = ps_cache s;
  io_fds : fds_step f t s s' }.

Lemma fds_step_refl f t s : fds_step f t s s.
Proof. by intros n Hn. Qed.
Lemma fds_step_trans f t s1 s2 s3 : fds_step f t s1 s2 -> fds_step f t s2 s3 -> fds_step f t s1 s3.
Proof.
  intros F1 F2 n Hn. destruct (F1 n Hn) as (Hn2&A1&B1). destruct (F2 n Hn2) as (Hn3&A2&B2). split; [done|].
  split; intros Hne; [destruct (A1 Hne), (A2 Hne)|destruct (B1 Hne), (B2 Hne)]; (split; [congruence|tauto]).
Qed.
Lemma calm_step f t s s' : calm s s' -> fds_step f t s s'.
Proof. intros [_ _ _ F] n Hn. destruct (F n Hn) as [? (?&?&?&?)]. split; [done|]. by split. Qed.

Lemma fds_step_weaken f t s s' f' t' : fds_step f t s s' -> (f = None \/ f = f') -> (t = None \/ t = t') ->
  fds_step f' t' s s'.
Proof.
  intros F Hf Ht n Hn. destruct (F n Hn) as (Ho&A&B). split_and!; [done| |]; intros Hne.
  - apply A. by destruct Hf as [-> | ->].
  - apply B. by destruct Ht as [-> | ->].
Qed.

(** Outside descriptors stay outside while the same pipes are open. *)
Lemma outside_same s s' n : (forall b r w, ps_bufs s' !! b = Some (BPipe r w) -> ps_bufs s !! b = Some (BPipe r w)) ->
  k_open (view s') = k_open (view s) -> outside s n -> outside s' n.
Proof.
  intros Hb Ho [H1 H2]. split; [by rewrite Ho|]. intros (b&r&w&Hb'&Hrw). apply H2. exists b, r, w. auto.
Qed.
Lemma outside_not_pipe s n b r w : outside s n -> ps_bufs s !! b = Some (BPipe r w) -> n <> r /\ n <> w.
Proof. intros [_ Hn] Hb. split; intros ->; apply Hn; exists b, r, w; auto. Qed.

Lemma holds_length v sp l I : holds v sp (BMem l) I -> (length I <= Z.to_nat BUF_SIZE)%nat.
Proof.
  intros (_&Hl&Ht). assert (length (take (length I) l) = length I) as E by (rewrite Ht; apply length_fmap).
  rewrite length_take in E. lia.
Qed.

Lemma inside_true at_ len (l : list (option byte)) : 0 <= at_ -> 0 <= len -> at_ + len <= Z.of_nat (length l) -> inside at_ len l = true.
Proof. intros. unfold inside. by rewrite !andb_true_iff, !Z.leb_le. Qed.

(** Changing what one buffer holds. *)
Lemma pool_update s s' H b x J : pool_ok s H -> is_Some (ps_bufs s !! b) -> b ∉ ps_cache s ->
  ps_bufs s' = <[b := x]> (ps_bufs s) -> ps_cache s' = ps_cache s -> ps_num_bufs s' = ps_num_bufs s ->
  ps_splice s' = ps_splice s -> holds (view s') (is_splicing s) x J ->
  (forall r w, x = BPipe r w -> ps_bufs s !! b = Some x) ->
  (forall c r w, c <> b -> ps_bufs s !! c = Some (BPipe r w) -> rd_of r (view s') = rd_of r (view s) /\
     wr_of w (view s') = wr_of w (view s) /\ k_pipe (view s') !! r = k_pipe (view s) !! r /\
     (r ∈ k_open (view s) -> r ∈ k_open (view s')) /\ (w ∈ k_open (view s) -> w ∈ k_open (view s'))) ->
  pool_ok s' (<[b := J]> H).
Proof.
  intros [P1 P2 P3 P4 P5 P6] Hb Hbc Eb Ec En Es Hx Hxp Hv. unfold is_splicing in *.
  split; rewrite ?Eb, ?Ec, ?En; try done.
  - intros c y. unfold is_splicing. rewrite Es, !lookup_insert. case_decide as E.
    + intros [= <-]. by exists J.
    + intros Hy. destruct (P1 c y Hy) as (I&HI&Hh). exists I. split; [done|]. eapply holds_view; [done|]. intros r w ->. eauto.
  - intros c K. rewrite !lookup_insert. case_decide; [by eexists|]. eauto.
  - intros c c' r w r' w' Hc Hc' Hne.
    assert (forall d r w, <[b := x]> (ps_bufs s) !! d = Some (BPipe r w) -> ps_bufs s !! d = Some (BPipe r w)) as Hback.
    { intros d a e. rewrite lookup_insert. case_decide as Ed; [|done]. subst d. intros [= ->]. by eapply Hxp. }
    eapply P3; eauto.
  - intros c Hc. rewrite lookup_insert_ne by (intros ->; done). auto.
Qed.

Lemma write_at_ok n d (l : list (option byte)) (I : list byte) : length I = n -> take n l = Some <$> I -> (n + length d <= length l)%nat ->
  length (write_at n d l) = length l /\ take (length (I ++ d)) (write_at n d l) = Some <$> (I ++ d).
Proof.
  intros Hn Ht Hl. unfold write_at. split.
  - rewrite !length_app, length_take, length_fmap, length_drop. lia.
  - rewrite Ht, app_assoc, <-fmap_app. apply take_app_length'. by rewrite length_fmap.
Qed.
Lemma move_down_ok (I1 I2 : list byte) (l : list (option byte)) : take (length (I1 ++ I2)) l = Some <$> (I1 ++ I2) -> (length (I1 ++ I2) <= length l)%nat ->
  length (move_down (length I1) (length I2) l) = length l /\
  take (length I2) (move_down (length I1) (length I2) l) = Some <$> I2.
Proof.
  intros Ht Hl. rewrite length_app in Ht, Hl. unfold move_down.
  assert (take (length I2) (drop (length I1) l) = Some <$> I2) as E.
  { rewrite take_drop_commute, Ht, fmap_app. rewrite drop_app_length'; [done|]. by rewrite length_fmap. }
  rewrite E. split; [rewrite length_app, length_fmap, length_drop; lia|].
  apply take_app_length'. by rewrite length_fmap.
Qed.
Lemma mapM_written (I : list byte) (l : list (option byte)) : l = Some <$> I -> mapM (M := option) (fun x => x) l = Some I.
Proof. intros ->. induction I as [|x I IH]; [done|]. cbn. by rewrite IH. Qed.

(** *** The system calls *)

(** A call that failed, maybe because it was interrupted. *)
Definition call_failed s (e : errno) s' : Prop := exists w', s' = set_ps_w w' s /\ pv w' = view s /\
  (e = EINTR -> (pk_signals w' < pk_signals (ps_w s))%nat).

(** The kernel took [d] from [n], resp. sent [d] to [n]; the buffers' pipes aside,
    nothing else changed. *)
Definition took n d s s' : Prop := io (Some n) None s s' /\
  rd_of n (view s') = rd_of n (view s) ++ d /\ (d = [] -> n ∈ k_eof (view s')).
Definition sent n d s s' : Prop := io None (Some n) s s' /\ ps_bufs s' = ps_bufs s /\
  wr_of n (view s') = wr_of n (view s) ++ d /\ k_shut (view s') = k_shut (view s).

Lemma holds_of s H b x I : pool_ok s H -> H !! b = Some I -> ps_bufs s !! b = Some x -> holds (view s) (is_splicing s) x I.
Proof. intros Hp HI Hx. destruct (po_holds _ _ Hp _ _ Hx) as (J&HJ&Hh). by assert (J = I) as <- by congruence. Qed.

Lemma eof_other n m d v : m <> n -> m ∈ k_eof (consume n d v) <-> m ∈ k_eof v.
Proof. intros Hne. cbn. case_decide; [|done]. rewrite elem_of_union, elem_of_singleton. tauto. Qed.

Lemma splice_in_spec s H b r w I n len : pool_ok s H -> H !! b = Some I -> b ∉ ps_cache s ->
  ps_bufs s !! b = Some (BPipe r w) -> outside s n ->
  wp nofatal (pkernel (pk_splice n w len)) s (fun ret s' => match ret with
    | inl k => exists d, k = Z.of_nat (length d) /\ took n d s s' /\ pool_ok s' (<[b := I ++ d]> H)
    | inr e => call_failed s e s' end).
Proof.
  intros Hp HI Hb Hx Hout. destruct (holds_of _ _ _ _ _ Hp HI Hx) as (Hsp&Hrw&Hr&Hw&Hpipe&Hcont).
  destruct (pk_splice n w len (ps_w s)) as [ret w2] eqn:E. eapply wp_Ok; [by apply pkernel_Ok|].
  pose proof (law_splice _ _ _ _ _ _ E) as HS. destruct ret as [k|e]; [|exists w2; destruct HS; by split_and!].
  destruct HS as (d&->&_&Ev&_). set (s2 := set_ps_w w2 s). change (view s2 = deliver w d (consume n d (view s))) in Ev.
  destruct (outside_not_pipe _ _ _ _ _ Hout Hx) as [Hnr Hnw]. exists d. split; [done|]. split; [split_and!; [split; try done| |]|].
  - intros m Hm. destruct (outside_not_pipe _ _ _ _ _ Hm Hx) as [Hmr Hmw]. split_and!.
    + apply (outside_same s); [done|by rewrite Ev|done].
    + intros Hne. rewrite Ev. change (rd_of m (consume n d (view s)) = rd_of m (view s) /\
        (m ∈ k_eof (consume n d (view s)) <-> m ∈ k_eof (view s))).
      rewrite rd_consume, decide_False by congruence. split; [done|]. apply eof_other. congruence.
    + intros _. by rewrite Ev, wr_deliver, decide_False by done.
  - rewrite Ev. change (rd_of n (consume n d (view s)) = rd_of n (view s) ++ d). by rewrite rd_consume, decide_True by done.
  - intros ->. rewrite Ev. cbn. set_solver.
  - eapply (pool_update s s2 H b (BPipe r w)); try done.
    + by rewrite insert_id.
    + rewrite Hsp, Ev. split_and!; try done. rewrite wr_deliver, decide_True by done.
      change (wr_of w (view s) ++ d = rd_of r (consume n d (view s)) ++ I ++ d).
      rewrite rd_consume, decide_False by congruence. by rewrite Hcont, app_assoc.
    + intros c r' w' Hc Hx'. destruct (po_pipes _ _ Hp b c r w r' w' Hx Hx') as (?&?&?&?); [congruence|].
      destruct (outside_not_pipe _ _ _ _ _ Hout Hx') as [? ?]. rewrite Ev. split_and!; try done.
      * change (rd_of r' (consume n d (view s)) = rd_of r' (view s)). by rewrite rd_consume, decide_False by congruence.
      * by rewrite wr_deliver, decide_False by done.
Qed.

Lemma read_in_spec s H b l I n : pool_ok s H -> H !! b = Some I -> b ∉ ps_cache s ->
  ps_bufs s !! b = Some (BMem l) -> outside s n ->
  wp nofatal (read_mem n b (Z.of_nat (length I)) (BUF_SIZE - Z.of_nat (length I))) s (fun ret s' => match ret with
    | inl k => exists d, k = Z.of_nat (length d) /\ took n d s s' /\ pool_ok s' (<[b := I ++ d]> H)
    | inr e => call_failed s e s' end).
Proof.
  intros Hp HI Hb Hx Hout. pose proof (holds_of _ _ _ _ _ Hp HI Hx) as Hh. pose proof (holds_length _ _ _ _ Hh) as Hlen.
  destruct Hh as (Hsp&Hl&Ht). unfold read_mem. wrun (load_mem_Ok s b l Hx).
  rewrite inside_true by lia. cbn [negb]. assert (0 <= BUF_SIZE - Z.of_nat (length I)) as H0 by lia.
  destruct (pk_read n (BUF_SIZE - Z.of_nat (length I)) (ps_w s)) as [ret w2] eqn:E. wrun (pkernel_Ok _ s _ _ E).
  pose proof (law_read _ _ _ _ _ H0 E) as HS. destruct ret as [d|e].
  2:{ eapply wp_Ok; [reflexivity|]. exists w2. destruct HS. by split_and!. }
  destruct HS as [Hd Ev]. rewrite Nat2Z.id. set (s2 := set_ps_w w2 s). change (view s2 = consume n d (view s)) in Ev.
  wrun (store_buf_Ok s2 b (BMem l) (BMem (write_at (length I) d l)) Hx). eapply wp_Ok; [reflexivity|].
  set (s3 := set_ps_bufs _ s2). change (view s3 = consume n d (view s)) in Ev.
  destruct (write_at_ok (length I) d l I eq_refl Ht) as [Hl2 Ht2]; [lia|].
  exists d. split; [done|]. split; [split_and!; [split; try done| |]|].
  - intros m Hm. split_and!.
    + apply (outside_same s); [|by rewrite Ev|done]. intros c r w. cbn. rewrite lookup_insert. by case_decide.
    + intros Hne. rewrite Ev, rd_consume, decide_False by congruence. split; [done|]. apply eof_other. congruence.
    + intros _. by rewrite Ev.
  - by rewrite Ev, rd_consume, decide_True by done.
  - intros ->. rewrite Ev. cbn. set_solver.
  - eapply (pool_update s s3 H b (BMem _)); try done.
    + rewrite Hsp. split_and!; [done|congruence|done].
    + intros c r' w' Hc Hx'. destruct (outside_not_pipe _ _ _ _ _ Hout Hx') as [? ?]. rewrite Ev. split_and!; try done.
      by rewrite rd_consume, decide_False by congruence.
Qed.

Lemma splice_out_spec s H b r w I n len : pool_ok s H -> H !! b = Some I -> b ∉ ps_cache s ->
  ps_bufs s !! b = Some (BPipe r w) -> outside s n ->
  wp nofatal (pkernel (pk_splice r n len)) s (fun ret s' => match ret with
    | inl k => exists d I', I = d ++ I' /\ k = Z.of_nat (length d) /\ sent n d s s' /\ pool_ok s' (<[b := I']> H)
    | inr e => call_failed s e s' end).
Proof.
  intros Hp HI Hb Hx Hout. destruct (holds_of _ _ _ _ _ Hp HI Hx) as (Hsp&Hrw&Hr&Hw&Hpipe&Hcont).
  destruct (pk_splice r n len (ps_w s)) as [ret w2] eqn:E. eapply wp_Ok; [by apply pkernel_Ok|].
  pose proof (law_splice _ _ _ _ _ _ E) as HS. destruct ret as [k|e]; [|exists w2; destruct HS; by split_and!].
  destruct HS as (d&->&_&Ev&Hfifo). specialize (Hfifo w Hpipe). change (rd_of r (view s) ++ d `prefix_of` wr_of w (view s)) in Hfifo.
  rewrite Hcont in Hfifo. apply prefix_app_inv in Hfifo as [I' ->].
  set (s2 := set_ps_w w2 s). change (view s2 = deliver n d (consume r d (view s))) in Ev.
  destruct (outside_not_pipe _ _ _ _ _ Hout Hx) as [Hnr Hnw]. exists d, I'. split; [done|]. split; [done|].
  split; [split_and!; [split; try done|done| |by rewrite Ev]|].
  - intros m Hm. destruct (outside_not_pipe _ _ _ _ _ Hm Hx) as [Hmr Hmw]. split_and!.
    + apply (outside_same s); [done|by rewrite Ev|done].
    + intros _. rewrite Ev. change (rd_of m (consume r d (view s)) = rd_of m (view s) /\
        (m ∈ k_eof (consume r d (view s)) <-> m ∈ k_eof (view s))).
      rewrite rd_consume, decide_False by congruence. split; [done|]. by apply eof_other.
    + intros Hne. by rewrite Ev, wr_deliver, decide_False by congruence.
  - by rewrite Ev, wr_deliver, decide_True by done.
  - eapply (pool_update s s2 H b (BPipe r w)); try done.
    + by rewrite insert_id.
    + rewrite Hsp, Ev. split_and!; try done. rewrite wr_deliver, decide_False by congruence.
      change (wr_of w (view s) = rd_of r (consume r d (view s)) ++ I'). rewrite rd_consume, decide_True by done.
      by rewrite Hcont, app_assoc.
    + intros c r' w' Hc Hx'. destruct (po_pipes _ _ Hp b c r w r' w' Hx Hx') as (?&?&?&?); [congruence|].
      destruct (outside_not_pipe _ _ _ _ _ Hout Hx') as [? ?]. rewrite Ev. split_and!; try done.
      * change (rd_of r' (consume r d (view s)) = rd_of r' (view s)). by rewrite rd_consume, decide_False by congruence.
      * by rewrite wr_deliver, decide_False by congruence.
Qed.

Lemma write_out_spec s H b l I n : pool_ok s H -> H !! b = Some I -> b ∉ ps_cache s ->
  ps_bufs s !! b = Some (BMem l) -> outside s n ->
  wp nofatal (write_mem n b (Z.of_nat (length I))) s (fun ret s' => match ret with
    | inl k => exists d I', I = d ++ I' /\ k = Z.of_nat (length d) /\ sent n d s s' /\ pool_ok s' H
    | inr e => call_failed s e s' end).
Proof.
  intros Hp HI Hb Hx Hout. pose proof (holds_of _ _ _ _ _ Hp HI Hx) as Hh. pose proof (holds_length _ _ _ _ Hh) as Hlen. destruct Hh as (Hsp&Hl&Ht).
  unfold write_mem. wrun (load_mem_Ok s b l Hx). rewrite inside_true by lia. cbn [negb]. rewrite Nat2Z.id, (mapM_written _ _ Ht). wprim.
  destruct (pk_write n I (ps_w s)) as [ret w2] eqn:E. eapply wp_Ok; [by apply pkernel_Ok|].
  pose proof (law_write _ _ _ _ _ E) as HS. destruct ret as [k|e]; [|exists w2; destruct HS; by split_and!].
  destruct HS as [Hk Ev]. set (d := take (Z.to_nat k) I) in *. set (s2 := set_ps_w w2 s).
  change (view s2 = deliver n d (view s)) in Ev. exists d, (drop (Z.to_nat k) I).
  split; [by unfold d; rewrite take_drop|]. split; [unfold d; rewrite length_take; lia|].
  split; [split_and!; [split; try done|done| |by rewrite Ev]|].
  - intros m Hm. split_and!.
    + apply (outside_same s); [done|by rewrite Ev|done].
    + intros _. by rewrite Ev.
    + intros Hne. by rewrite Ev, wr_deliver, decide_False by congruence.
  - by rewrite Ev, wr_deliver, decide_True by done.
  - apply (pool_world s s2 H Hp); try done. intros c r' w' Hx'.
    destruct (outside_not_pipe _ _ _ _ _ Hout Hx') as [? ?]. rewrite Ev. split_and!; try done.
    by rewrite wr_deliver, decide_False by congruence.
Qed.

(** States that differ in what the kernel counts only. *)
Definition same_view s s1 : Prop := exists w1, s1 = set_ps_w w1 s /\ pv w1 = view s.
Lemma same_view_outside s s1 n : same_view s s1 -> outside s n <-> outside s1 n.
Proof. intros (w1&->&Ev). unfold outside, pool_fd, view. cbn. by rewrite Ev. Qed.
Lemma same_view_io f t s s1 s' : same_view s s1 -> io f t s1 s' -> io f t s s'.
Proof.
  intros Hs [A B C D F]. pose proof Hs as (w1&->&Ev). split; try done. intros n Hn.
  apply (same_view_outside _ _ _ Hs) in Hn. destruct (F n Hn) as (?&G1&G2). change (pv w1 = view s) in Ev.
  change (view (set_ps_w w1 s)) with (pv w1) in G1, G2. by rewrite Ev in G1, G2.
Qed.
Lemma same_view_pool s s1 H : same_view s s1 -> pool_ok s H -> pool_ok s1 H.
Proof. intros (w1&->&Ev) Hp. by apply (pool_view s). Qed.

(** Retrying a call that leaves the state alone when it fails. *)
Lemma retry_call (call : M St (sysres Z)) (Q : Z -> St -> Prop) s :
  (forall s1, same_view s s1 -> wp nofatal call s1 (fun r s' => match r with inl k => Q k s' | inr e => call_failed s1 e s' end)) ->
  wp nofatal (retry (Datatypes.S (pk_signals (ps_w s))) call) s (fun r s' =>
    match r with inl k => Q k s' | inr e => e <> EINTR /\ same_view s s' end).
Proof.
  intros Hc. apply (retry_spec nofatal (fun s1 => same_view s s1) (fun s1 => pk_signals (ps_w s1))); [| |lia].
  2:{ exists (ps_w s). split; [by destruct s|done]. }
  intros s1 Hs1. eapply wp_mono; [by apply Hc|]. cbv beta. intros [k|e] s'; [done|].
  destruct Hs1 as (w1&->&Ev1). intros (w2&->&Ev2&Hsig).
  assert (same_view s (set_ps_w w2 (set_ps_w w1 s))) as Hs2.
  { exists w2. split; [done|]. by rewrite Ev2. }
  destruct e; try (by split). split; [done|]. by apply Hsig.
Qed.

Lemma input_call_spec s H p b I : pool_ok s H -> H !! b = Some I -> b ∉ ps_cache s ->
  p_bytes p = Z.of_nat (length I) -> outside s (from_fd p) ->
  wp nofatal (input_call p b) s (fun r s' => match r with
    | inl k => exists d, k = Z.of_nat (length d) /\ took (from_fd p) d s s' /\ pool_ok s' (<[b := I ++ d]> H)
    | inr e => e <> EINTR /\ same_view s s'
    end).
Proof.
  intros Hp HI Hb Hbytes Hout. destruct (po_dom _ _ Hp _ _ HI) as [x Hx]. pose proof (holds_of _ _ _ _ _ Hp HI Hx) as Hh.
  unfold input_call. do 2 wprim. apply retry_call. intros s1 Hs1.
  pose proof (same_view_pool _ _ _ Hs1 Hp) as Hp1. pose proof (proj1 (same_view_outside _ _ _ Hs1) Hout) as Hout1.
  assert (forall d s', took (from_fd p) d s1 s' -> took (from_fd p) d s s') as Hback.
  { intros d s' (Hio&Hrd&He). split_and!; [by eapply same_view_io| |done]. destruct Hs1 as (w1&->&Ev). by rewrite <-Ev. }
  destruct Hs1 as (w1&->&Ev). change (negb (ps_splice s =? 0)) with (is_splicing s). destruct x as [|l|r w]; [done| |].
  - destruct Hh as [-> _]. cbn [negb]. rewrite Hbytes. eapply wp_mono; [by eapply read_in_spec|]. cbv beta.
    intros [k|e] s'; [|done]. intros (d&?&?&?). exists d. auto.
  - destruct Hh as [-> _]. cbn [negb]. wrun (load_pfd2_Ok (set_ps_w w1 s) b r w Hx). cbn [snd].
    eapply wp_mono; [by eapply splice_in_spec|]. cbv beta. intros [k|e] s'; [|done]. intros (d&?&?&?). exists d. auto.
Qed.

Lemma output_call_spec s H p b I : pool_ok s H -> H !! b = Some I -> b ∉ ps_cache s ->
  p_bytes p = Z.of_nat (length I) -> outside s (to_fd p) ->
  wp nofatal (output_call p b) s (fun r s' => match r with
    | inl k => exists d I', I = d ++ I' /\ k = Z.of_nat (length d) /\ sent (to_fd p) d s s' /\
        pool_ok s' (if is_splicing s then <[b := I']> H else H)
    | inr e => e <> EINTR /\ same_view s s'
    end).
Proof.
  intros Hp HI Hb Hbytes Hout. destruct (po_dom _ _ Hp _ _ HI) as [x Hx]. pose proof (holds_of _ _ _ _ _ Hp HI Hx) as Hh.
  unfold output_call. do 2 wprim. apply retry_call. intros s1 Hs1.
  pose proof (same_view_pool _ _ _ Hs1 Hp) as Hp1. pose proof (proj1 (same_view_outside _ _ _ Hs1) Hout) as Hout1.
  assert (forall d s', sent (to_fd p) d s1 s' -> sent (to_fd p) d s s') as Hback.
  { intros d s' (Hio&Hb'&Hwr&Hsh). destruct Hs1 as (w1&->&Ev). split_and!; [by eapply same_view_io; [by exists w1|]|done| |].
    - by rewrite <-Ev.
    - by rewrite <-Ev. }
  destruct Hs1 as (w1&->&Ev). change (negb (ps_splice s =? 0)) with (is_splicing s). destruct x as [|l|r w]; [done| |].
  - destruct Hh as [-> _]. cbn [negb]. rewrite Hbytes. eapply wp_mono; [by eapply write_out_spec|]. cbv beta.
    intros [k|e] s'; [|done]. intros (d&I'&?&?&?&?). exists d, I'. auto.
  - destruct Hh as [-> _]. cbn [negb]. wrun (load_pfd2_Ok (set_ps_w w1 s) b r w Hx). cbn [fst].
    eapply wp_mono; [by eapply splice_out_spec|]. cbv beta. intros [k|e] s'; [|done]. intros (d&I'&?&?&?&?). exists d, I'. auto.
Qed.

(** *** Focusing on a pump *)
Record focus (ip : loc) base s H p D I : Prop := {
  fo_pool : pool_ok s H;
  fo_pump : ps_pumps s !! ip = Some p;
  fo_ok : pump_ok s H base p D I }.

(** What work on pump [ip] leaves alone. *)
Definition same_ends (p p' : iv_fd_pump) : Prop :=
  from_fd p' = from_fd p /\ to_fd p' = to_fd p /\ relay_eof p' = relay_eof p.
Definition in_use s H (p : iv_fd_pump) b J : Prop := H !! b = Some J /\ b ∉ ps_cache s /\ p_buf p <> Some b.
Record frame (ip : loc) p s H p' s' H' : Prop := {
  fr_others : forall jp, jp <> ip -> ps_pumps s' !! jp = ps_pumps s !! jp;
  fr_splice : ps_splice s' = ps_splice s;
  fr_ends : same_ends p p';
  fr_fds : fds_step (Some (from_fd p)) (Some (to_fd p)) s s';
  fr_bufs : forall b J, in_use s H p b J <-> in_use s' H' p' b J }.

Lemma frame_trans ip p1 p2 p3 s1 s2 s3 H1 H2 H3 :
  frame ip p1 s1 H1 p2 s2 H2 -> frame ip p2 s2 H2 p3 s3 H3 -> frame ip p1 s1 H1 p3 s3 H3.
Proof.
  intros [A1 B1 (C1&D1&E1) F1 G1] [A2 B2 (C2&D2&E2) F2 G2]. split.
  - intros jp Hj. by rewrite A2, A1.
  - congruence.
  - unfold same_ends. split_and!; congruence.
  - rewrite C1, D1 in F2. by eapply fds_step_trans.
  - intros b J. by rewrite G1.
Qed.
Lemma frame_refl ip p s H : frame ip p s H p s H.
Proof. by split. Qed.

Lemma load_pump_Ok s ip p : ps_pumps s !! ip = Some p -> load_pump ip s = Ok (p, s).
Proof. intros E. unfold load_pump. msimpl. by rewrite E. Qed.
Definition with_pump (ip : loc) (p : iv_fd_pump) s : St := set_ps_pumps (<[ip := p]> (ps_pumps s)) s.
Lemma upd_pump_Ok s ip p g : ps_pumps s !! ip = Some p -> upd_pump ip g s = Ok (tt, with_pump ip (g p) s).
Proof. intros E. unfold upd_pump, load_pump. msimpl. by rewrite E. Qed.
Lemma lookup_with_pump ip p s : ps_pumps (with_pump ip p s) !! ip = Some p.
Proof. apply lookup_insert_eq. Qed.

Lemma pool_with_pump ip p s H : pool_ok s H -> pool_ok (with_pump ip p s) H.
Proof. intros Hp. by apply (pool_view s). Qed.
Lemma pump_ok_with ip q s H base p D I : pump_ok s H base p D I -> pump_ok (with_pump ip q s) H base p D I.
Proof. by intros [? ? ? ? ? ? ? ?]. Qed.
Lemma frame_with ip p p' s H : same_ends p p' -> p_buf p' = p_buf p -> frame ip p s H p' (with_pump ip p' s) H.
Proof.
  intros He Hb. split; [|done|done|by intros n Hn|].
  - intros jp Hj. cbn. by rewrite lookup_insert_ne.
  - intros b J. unfold in_use. by rewrite Hb.
Qed.

(** Updating the pump's own fields. *)
Lemma focus_upd ip base s H p D I p' : focus ip base s H p D I -> pump_ok s H base p' D I ->
  focus ip base (with_pump ip p' s) H p' D I.
Proof. intros [A B C] Hp. split; [by apply pool_with_pump|apply lookup_with_pump|by apply pump_ok_with]. Qed.

(** The pool moved on: the pump's buffer is as it was. *)
Lemma pump_ok_calm s s' H H' base p D I : calm s s' -> pump_ok s H base p D I ->
  (forall b, p_buf p = Some b -> H' !! b = Some I /\ b ∉ ps_cache s') -> pump_ok s' H' base p D I.
Proof.
  intros [_ _ _ F] [A B C E G K L [O1 O2]] Hb.
  destruct (F _ O1) as [O1' (R1&_&E1&_)]. destruct (F _ O2) as [O2' (_&W2&_&S2)].
  split; try done; [by rewrite R1|by rewrite W2| |by rewrite E1|by rewrite S2].
  destruct (p_buf p) as [b|]; [by apply Hb|done].
Qed.

Lemma acquire_spec ip base s H p D I : focus ip base s H p D I ->
  wp nofatal (match p_buf p with
      | Some b => mret (Some b)
      | None =>
          b ← buf_get;
          match b with
          | None => mret None
          | Some b => upd_pump ip (set_p_buf (Some b));; mret (Some b)
          end
      end) s (fun r s' => ps_bands s' = ps_bands s /\ exists H',
    let p' := match r with Some b => set_p_buf (Some b) p | None => p end in
    focus ip base s' H' p' D I /\ frame ip p s H p' s' H').
Proof.
  intros [Hp Hpump Hok]. destruct (p_buf p) as [b|] eqn:Eb.
  { eapply wp_Ok; [reflexivity|]. split; [done|]. exists H.
    assert (set_p_buf (Some b) p = p) as -> by (destruct p; cbn in *; by subst). split; [done|apply frame_refl]. }
  wbind. eapply wp_mono; [by apply buf_get_spec|]. cbv beta. intros [b|] s1 [Hc Hr].
  - destruct Hr as (Hp1&Hb&Hold&Hcache).
    assert (ps_pumps s1 !! ip = Some p) as Hpump1 by (by rewrite (ca_pumps _ _ Hc)).
    wrun (upd_pump_Ok s1 ip p (set_p_buf (Some b)) Hpump1). eapply wp_Ok; [reflexivity|]. split; [apply Hc|]. exists (<[b := []]> H). cbv zeta.
    pose proof (pm_buf _ _ _ _ _ _ Hok) as HI. rewrite Eb in HI. subst I. split; [split|split].
    + by apply pool_with_pump.
    + apply lookup_with_pump.
    + apply pump_ok_with. destruct (pump_ok_calm s s1 H (<[b := []]> H) base p D [] Hc Hok) as [A B C E G K L O];
        [by rewrite Eb|]. split; try done. cbn. by rewrite lookup_insert_eq.
    + intros jp Hj. cbn. rewrite lookup_insert_ne by done. by rewrite (ca_pumps _ _ Hc).
    + apply Hc.
    + done.
    + exact (calm_step _ _ s s1 Hc).
    + intros c J. unfold in_use. cbn. rewrite Eb. destruct (decide (c = b)) as [->|Hcb].
      * split; [|by intros (_&_&[])]. intros (HJ&Hcc&_). destruct Hold as [?|?]; [congruence|done].
      * rewrite lookup_insert_ne by done. rewrite (Hcache c Hcb). split; intros (?&?&?); split_and!; congruence || done.
  - destruct Hr as [Hp1 Hcache]. eapply wp_Ok; [reflexivity|]. split; [apply Hc|]. exists H. split; [split|split]; try done.
    + by rewrite (ca_pumps _ _ Hc).
    + apply (pump_ok_calm s s1 H H base p D I Hc Hok). by rewrite Eb.
    + intros jp _. by rewrite (ca_pumps _ _ Hc).
    + apply Hc.
    + by apply calm_step.
    + intros c J. unfold in_use. by rewrite Hcache.
Qed.

(** *** The end of the stream *)
Lemma relay_fin_spec ip base s H p q D : pool_ok s H -> ps_pumps s !! ip = Some q -> pump_ok s H base p D [] ->
  set_p_saw_fin 2 q = set_p_saw_fin 2 p -> p_saw_fin p <> 2 -> from_fd p ∈ k_eof (view s) ->
  wp nofatal (relay_fin ip p) s (fun _ s' => ps_bands s' = ps_bands s /\
    focus ip base s' H (set_p_saw_fin 2 p) D [] /\ frame ip p s H (set_p_saw_fin 2 p) s' H).
Proof.
  intros Hp Hq Hok Eq Hfin Heof. unfold relay_fin. wbind.
  apply (wp_mono _ _ _ (fun _ s1 => exists w1, s1 = set_ps_w w1 s /\
    pv w1 = if relay_eof p then shut_fd (to_fd p) (view s) else view s)).
  { destruct (relay_eof p); cbn [when]; (eapply wp_Ok; [reflexivity|]).
    - eexists. split; [reflexivity|]. apply law_shutdown.
    - exists (ps_w s). by destruct s. }
  intros _ s1 (w1&->&Ev). wrun (upd_pump_Ok (set_ps_w w1 s) ip q (set_p_saw_fin 2) Hq). rewrite Eq.
  set (s1 := set_ps_w w1 s). change (pv w1) with (view s1) in Ev.
  assert (Hrd : forall n, rd_of n (view s1) = rd_of n (view s)) by (intros n; rewrite Ev; by destruct (relay_eof p)).
  assert (Hwr : forall n, wr_of n (view s1) = wr_of n (view s)) by (intros n; rewrite Ev; by destruct (relay_eof p)).
  assert (Ho : k_open (view s1) = k_open (view s)) by (rewrite Ev; by destruct (relay_eof p)).
  assert (He : k_eof (view s1) = k_eof (view s)) by (rewrite Ev; by destruct (relay_eof p)).
  assert (Hpi : k_pipe (view s1) = k_pipe (view s)) by (rewrite Ev; by destruct (relay_eof p)).
  assert (Hs : forall n, n ∈ k_shut (view s1) <-> n ∈ k_shut (view s) \/ (n = to_fd p /\ relay_eof p = true)).
  { intros n. rewrite Ev. destruct (relay_eof p); cbn; [|naive_solver].
    rewrite elem_of_union, elem_of_singleton. naive_solver. }
  assert (Hout : forall n, outside s n -> outside s1 n) by (intros n; by apply outside_same).
  split; [done|split; [split|split]]; try done.
  - apply pool_with_pump, (pool_world s s1 H Hp); try done. intros b r w _. by rewrite Hrd, Hwr, Ho, Hpi.
  - apply lookup_with_pump.
  - apply pump_ok_with. destruct Hok as [A B C E G K L [O1 O2]].
    split; cbn; rewrite ?Hrd, ?Hwr, ?He; try done; [by right; right| |by split; apply Hout].
    rewrite Hs, L. tauto.
  - intros jp Hj. cbn. by rewrite lookup_insert_ne.
  - intros n Hn. split_and!; [by apply (Hout n)| |].
    + intros _. change (rd_of n (view s1) = rd_of n (view s) /\ (n ∈ k_eof (view s1) <-> n ∈ k_eof (view s))). by rewrite Hrd, He.
    + intros Hne. change (wr_of n (view s1) = wr_of n (view s) /\ (n ∈ k_shut (view s1) <-> n ∈ k_shut (view s))).
      rewrite Hwr. split; [done|]. rewrite Hs. naive_solver.
Qed.

(** ** Input *)

(** After a call that moved nothing or only read. *)
Lemma focus_same_view ip base s s' H p D I : focus ip base s H p D I -> same_view s s' ->
  focus ip base s' H p D I /\ frame ip p s H p s' H.
Proof.
  intros [Hp Hpu Hok] (w1&->&Ev). set (s1 := set_ps_w w1 s). change (view s1 = view s) in Ev.
  assert (calm s s1) as Hc.
  { split; [done..|]. intros n [Ho Hn]. split; [split; [by rewrite Ev|done]|]. unfold same_fd. by rewrite Ev. }
  split; [split; [by apply (pool_view s)|done|]|split; try done].
  - apply (pump_ok_calm s s1 H H base p D I Hc Hok). intros b Hb. pose proof (pm_buf _ _ _ _ _ _ Hok) as Hx. by rewrite Hb in Hx.
  - by apply calm_step.
Qed.

Lemma focus_took ip base s s' H p D I d b : focus ip base s H p D I -> p_saw_fin p = 0 -> p_buf p = Some b ->
  took (from_fd p) d s s' -> pool_ok s' (<[b := I ++ d]> H) ->
  let p' := set_p_bytes (p_bytes p + Z.of_nat (length d)) p in
  pool_ok s' (<[b := I ++ d]> H) /\ ps_pumps s' !! ip = Some p /\
  pump_ok s' (<[b := I ++ d]> H) base p' D (I ++ d) /\ frame ip p s H p s' (<[b := I ++ d]> H).
Proof.
  intros [Hp Hpu Hok] Hf Hb ([A B C E F]&Hrd&He) Hp' p'. destruct Hok as [P1 P2 P3 P4 P5 P6 P7 [O1 O2]].
  split_and!; [done|by rewrite A| |].
  - split; cbn.
    + by rewrite Hrd, P1, <-!app_assoc.
    + destruct (F _ O2) as (_&_&[-> _]); done.
    + rewrite P3, length_app. lia.
    + rewrite Hb, lookup_insert_eq, E. rewrite Hb in P4. naive_solver.
    + left. split; [done|]. intros Hfull. destruct P5 as [[_ H5]|[[? _]|[? _]]]; [|congruence..].
      specialize (H5 Hfull). by destruct I.
    + congruence.
    + destruct (F _ O2) as (_&_&[_ ->]); done.
    + by split; [destruct (F _ O1)|destruct (F _ O2)].
  - split; [by rewrite A|done|done|by eapply fds_step_weaken; [exact F|right|left]|].
    intros c J. unfold in_use. rewrite E. destruct (decide (c = b)) as [->|Hcb].
    + rewrite Hb. naive_solver.
    + by rewrite lookup_insert_ne.
Qed.

(** What trying input, and trying output, ends in. *)
Definition tried ip base s H p (r : Z) s' : Prop := ps_bands s' = ps_bands s /\ (r = 0 \/ r = -1) /\
  exists H' p' D' I', focus ip base s' H' p' D' I' /\ frame ip p s H p' s' H'.

Lemma tried_here ip base s H p D I r : focus ip base s H p D I -> r = 0 \/ r = -1 -> tried ip base s H p r s.
Proof. intros Hfo Hr. split; [done|]. split; [done|]. exists H, p, D, I. split; [done|apply frame_refl]. Qed.
Lemma tried_after ip base s H p s1 H1 p1 r s' : frame ip p s H p1 s1 H1 -> ps_bands s1 = ps_bands s ->
  tried ip base s1 H1 p1 r s' -> tried ip base s H p r s'.
Proof.
  intros Hfr Eb (Eb'&Hr&H'&p'&D'&I'&Hfo&Hfr'). split; [congruence|]. split; [done|]. exists H', p', D', I'.
  split; [done|]. by eapply frame_trans.
Qed.

Lemma input_eof_spec ip base s H p D I : focus ip base s H p D I -> p_saw_fin p = 0 -> from_fd p ∈ k_eof (view s) ->
  wp nofatal (upd_pump ip (set_p_saw_fin 1);; when (p_bytes p =? 0) (relay_fin ip p);; mret 0) s (tried ip base s H p).
Proof.
  intros Hfo Hfin Heof. pose proof Hfo as [Hp Hpu Hok]. wrun (upd_pump_Ok s ip p (set_p_saw_fin 1) Hpu).
  set (s3 := with_pump ip _ s). rewrite (pm_bytes _ _ _ _ _ _ Hok). destruct I as [|x I].
  - cbn [length Z.of_nat Z.eqb when]. wbind.
    eapply wp_mono; [apply (relay_fin_spec ip base s3 H p (set_p_saw_fin 1 p) D)|].
    + by apply pool_with_pump.
    + apply lookup_with_pump.
    + by apply pump_ok_with.
    + by destruct p.
    + congruence.
    + done.
    + cbv beta. intros _ s4 (Hb4&Hfo4&Hfr4). eapply wp_Ok; [reflexivity|]. split; [done|]. split; [by left|].
      eexists H, _, D, []. split; [done|]. assert (frame ip p s H p s3 H) as Hfr3.
      { split; [|done|done|by intros n Hn|done]. intros jp Hj. cbn. by rewrite lookup_insert_ne. }
      by eapply frame_trans.
  - cbn [length]. wprim. eapply wp_Ok; [reflexivity|].
    eapply (tried_after _ _ _ _ _ s3 H (set_p_saw_fin 1 p)); [by apply frame_with|done|]. eapply tried_here; [|by left].
    apply focus_upd with (p := p); [done|]. destruct Hok as [Q1 Q2 Q3 Q4 Q5 Q6 Q7 Q8]. split; try done; [by right; left|].
    rewrite Q7. cbn. split; intros [? _]; [congruence|done].
Qed.

(** Data came: [p'] is the pump with the bytes added. *)
Lemma input_data_spec ip base s H p p' D I n sp : pool_ok s H -> ps_pumps s !! ip = Some p -> pump_ok s H base p' D I ->
  p' = set_p_bytes (p_bytes p + n) p -> I <> [] -> p_saw_fin p = 0 ->
  wp nofatal (upd_pump ip (fun p => set_p_bytes (p_bytes p + n) p);;
    p ← load_pump ip; when (negb sp && (p_bytes p =? BUF_SIZE)) (upd_pump ip (set_p_full true));; mret 0) s
    (tried ip base s H p).
Proof.
  intros Hp Hpu Hok -> HI Hfin. wrun (upd_pump_Ok s ip p (fun p => set_p_bytes (p_bytes p + n) p) Hpu).
  set (p2 := set_p_bytes (p_bytes p + n) p) in *. set (s3 := with_pump ip p2 s).
  assert (focus ip base s3 H p2 D I) as Hfo3.
  { split; [by apply pool_with_pump|apply lookup_with_pump|by apply pump_ok_with]. }
  wrun (load_pump_Ok s3 ip p2 (lookup_with_pump ip p2 s)). destruct (negb _ && _); cbn [when].
  - wrun (upd_pump_Ok s3 ip p2 (set_p_full true) (lookup_with_pump ip p2 s)). eapply wp_Ok; [reflexivity|].
    eapply (tried_after _ _ _ _ _ s3 H p2); [by apply frame_with|done|].
    eapply (tried_after _ _ _ _ _ _ H (set_p_full true p2)); [by apply frame_with|done|]. eapply tried_here; [|by left].
    apply (focus_upd _ _ s3 _ p2 _ _ _ Hfo3). destruct (fo_ok _ _ _ _ _ _ _ Hfo3) as [Q1 Q2 Q3 Q4 Q5 Q6 Q7 Q8].
    split; try done. by left.
  - wprim. eapply wp_Ok; [reflexivity|]. eapply (tried_after _ _ _ _ _ s3 H p2); [by apply frame_with|done|].
    eapply tried_here; [done|by left].
Qed.

(** Nothing to read: a pipe that holds something and cannot take more is full. *)
Lemma input_again_spec ip base s H p D I (sp : bool) : focus ip base s H p D I -> p_saw_fin p = 0 ->
  wp nofatal (when (sp && negb (p_bytes p =? 0)) (
      bytes ← pkernel (pk_fionread (from_fd p)); when (0 <? default 1 bytes) (upd_pump ip (set_p_full true)));; mret 0) s
    (tried ip base s H p).
Proof.
  intros Hfo Hfin. destruct (sp && negb (p_bytes p =? 0)) eqn:Ebytes; cbn [when].
  2:{ wprim. eapply wp_Ok; [reflexivity|]. eapply tried_here; [done|by left]. }
  apply andb_prop in Ebytes as [_ Hbytes]. rewrite (pm_bytes _ _ _ _ _ _ (fo_ok _ _ _ _ _ _ _ Hfo)) in Hbytes.
  destruct (pk_fionread (from_fd p) (ps_w s)) as [n w3] eqn:E3. apply wp_assoc. wrun (pkernel_Ok _ s _ _ E3).
  assert (same_view s (set_ps_w w3 s)) as Hsv3.
  { exists w3. split; [done|]. pose proof (law_fionread (from_fd p) (ps_w s)) as L. by rewrite E3 in L. }
  destruct (focus_same_view _ _ _ _ _ _ _ _ Hfo Hsv3) as [Hfo3 Hfr3]. set (s3 := set_ps_w w3 s) in *.
  destruct (0 <? default 1 n); cbn [when].
  - wrun (upd_pump_Ok s3 ip p (set_p_full true) (fo_pump _ _ _ _ _ _ _ Hfo3)). eapply wp_Ok; [reflexivity|].
    eapply (tried_after _ _ _ _ _ s3 H p); [done|done|].
    eapply (tried_after _ _ _ _ _ _ H (set_p_full true p)); [by apply frame_with|done|]. eapply tried_here; [|by left].
    apply (focus_upd _ _ s3 _ p _ _ _ Hfo3). destruct (fo_ok _ _ _ _ _ _ _ Hfo3) as [Q1 Q2 Q3 Q4 Q5 Q6 Q7 Q8].
    split; try done. left. split; [done|]. intros _. by destruct I.
  - wprim. eapply wp_Ok; [reflexivity|]. eapply (tried_after _ _ _ _ _ s3 H p); [done|done|]. eapply tried_here; [done|by left].
Qed.

Lemma try_input_spec ip base s H p D I : focus ip base s H p D I -> p_saw_fin p = 0 -> p_full p = false ->
  wp nofatal (iv_fd_pump_try_input ip) s (tried ip base s H p).
Proof.
  intros Hfo Hfin Hfull. unfold iv_fd_pump_try_input. wrun (load_pump_Ok s ip p (fo_pump _ _ _ _ _ _ _ Hfo)).
  wbind. eapply wp_mono; [by eapply acquire_spec|]. cbv beta zeta. intros [b|] s1 (Hb1&H1&Hfo1&Hfr1).
  2:{ eapply wp_Ok; [reflexivity|]. eapply tried_after; [done|done|]. eapply tried_here; [done|by right]. }
  set (p1 := set_p_buf (Some b) p) in *. wrun (load_pump_Ok s1 ip p1 (fo_pump _ _ _ _ _ _ _ Hfo1)). wprim.
  pose proof Hfo1 as [Hp1 Hpu1 Hok1]. pose proof (pm_buf _ _ _ _ _ _ Hok1) as Hbuf. cbn in Hbuf. destruct Hbuf as [HI1 Hbc1].
  wbind. eapply wp_mono; [apply (input_call_spec s1 H1 p1 b I Hp1 HI1 Hbc1); [apply Hok1|apply Hok1]|]. cbv beta.
  intros [k|e] s2.
  - intros (d&->&Htook&Hp2). pose proof Htook as [[_ B2 _ _ _] [_ Heof]].
    destruct (focus_took _ _ _ _ _ _ _ _ _ _ Hfo1 Hfin eq_refl Htook Hp2) as (_&Hpu2&Hok2&Hfr2).
    set (H2 := <[b := I ++ d]> H1) in *. pose proof (frame_trans _ _ _ _ _ _ _ _ _ _ Hfr1 Hfr2) as Hfr.
    destruct (Z.eqb_spec (Z.of_nat (length d)) 0) as [Hd|Hd].
    + assert (d = []) as -> by (by destruct d). rewrite app_nil_r in *.
      assert (set_p_bytes (p_bytes p1 + Z.of_nat (length (@nil byte))) p1 = p1) as Ep1 by (cbn; rewrite Z.add_0_r; by destruct p).
      rewrite Ep1 in Hok2. eapply wp_mono; [apply (input_eof_spec ip base s2 H2 p1 D I); [by split|done|by apply Heof]|].
      cbv beta. intros r s3. apply tried_after; [done|by etrans].
    + eapply wp_mono; [apply (input_data_spec ip base s2 H2 p1 _ D (I ++ d) _ _ Hp2 Hpu2 Hok2 eq_refl); [|done]|].
      * destruct d; [done|]. by destruct I.
      * cbv beta. intros r s3. apply tried_after; [done|by etrans].
  - intros [He Hsv]. destruct (focus_same_view _ _ _ _ _ _ _ _ Hfo1 Hsv) as [Hfo2 Hfr2].
    pose proof (frame_trans _ _ _ _ _ _ _ _ _ _ Hfr1 Hfr2) as Hfr.
    assert (ps_bands s2 = ps_bands s) as Hbands by (destruct Hsv as (w2&->&_); done).
    destruct e; try done; try (eapply wp_Ok; [reflexivity|]; eapply tried_after; [done|done|]; eapply tried_here; [done|by right]).
    eapply wp_mono; [by apply (input_again_spec ip base s2 H1 p1 D I)|]. cbv beta. intros r s3. by apply tried_after.
Qed.

(** ** Output *)

(** [I1] was sent: the rest moves to the front of a buffer in memory. *)
Lemma shift_spec s H b I1 I2 (n m : Z) : pool_ok s (if is_splicing s then <[b := I2]> H else H) -> H !! b = Some (I1 ++ I2) ->
  b ∉ ps_cache s -> n = Z.of_nat (length I1) -> m = Z.of_nat (length I2) ->
  wp nofatal (when (negb (is_splicing s)) (move_mem b n m)) s (fun _ s' =>
    pool_ok s' (<[b := I2]> H) /\ calm s s' /\ ps_cache s' = ps_cache s).
Proof.
  intros Hp HI Hb -> ->. destruct (is_splicing s) eqn:Hsp; cbn [negb when].
  { eapply wp_Ok; [reflexivity|]. split; [done|split; [apply calm_refl|done]]. }
  destruct (po_dom _ _ Hp _ _ HI) as [x Hx]. pose proof (holds_of _ _ _ _ _ Hp HI Hx) as Hh. rewrite Hsp in Hh.
  destruct x as [|l|r w]; [done| |by destruct Hh]. pose proof (holds_length _ _ _ _ Hh) as Hlen. destruct Hh as (_&Hl&Ht).
  unfold move_mem. wrun (load_mem_Ok s b l Hx). rewrite length_app in Hlen. rewrite inside_true by lia. cbn [negb]. rewrite !Nat2Z.id.
  eapply wp_Ok; [by eapply store_buf_Ok|]. set (s' := set_ps_bufs _ s).
  destruct (move_down_ok I1 I2 l Ht) as [Hl2 Ht2]; [rewrite length_app; lia|]. split; [|split; [|done]].
  - eapply (pool_update s s' H b (BMem _)); try done. rewrite Hsp. split_and!; [done|congruence|done].
  - split; try done. intros n Hn. split; [|done]. apply (outside_same s); [|done|done].
    intros c r w. cbn. rewrite lookup_insert. by case_decide.
Qed.

Lemma output_data_spec ip base s s1 H p D I1 I2 b : focus ip base s H p D (I1 ++ I2) -> p_saw_fin p <> 2 ->
  p_buf p = Some b -> sent (to_fd p) I1 s s1 -> pool_ok s1 (if is_splicing s then <[b := I2]> H else H) ->
  wp nofatal (upd_pump ip (set_p_full false);;
    upd_pump ip (fun p => set_p_bytes (p_bytes p - Z.of_nat (length I1)) p);;
    p ← load_pump ip;
    when (negb (is_splicing s)) (move_mem b (Z.of_nat (length I1)) (p_bytes p));;
    when ((p_bytes p =? 0) && (p_saw_fin p =? 1)) (relay_fin ip p);;
    mret 0) s1 (tried ip base s H p).
Proof.
  intros [Hp Hpu Hok] Hfin Hb ([A B C E F]&_&Hwr&Hsh) Hp1. destruct Hok as [P1 P2 P3 P4 P5 P6 P7 [O1 O2]].
  rewrite Hb in P4. destruct P4 as [HI Hbc]. assert (ps_pumps s1 !! ip = Some p) as Hpu1 by (by rewrite A).
  set (p' := set_p_bytes (p_bytes p - Z.of_nat (length I1)) (set_p_full false p)).
  wrun (upd_pump_Ok s1 ip p (set_p_full false) Hpu1).
  wrun (upd_pump_Ok _ ip _ (fun p => set_p_bytes (p_bytes p - Z.of_nat (length I1)) p) (lookup_with_pump ip (set_p_full false p) s1)).
  assert (with_pump ip p' (with_pump ip (set_p_full false p) s1) = with_pump ip p' s1) as E2.
  { unfold with_pump, set_ps_pumps. cbn. by rewrite insert_insert_eq. }
  match goal with |- context [with_pump ip ?q (with_pump _ _ _)] => change q with p' end. rewrite E2. set (s2 := with_pump ip p' s1). wrun (load_pump_Ok s2 ip p' (lookup_with_pump ip p' s1)).
  assert (p_bytes p' = Z.of_nat (length I2)) as Hbytes by (cbn; rewrite P3, length_app; lia).
  assert (is_splicing s2 = is_splicing s) as Esp by (unfold is_splicing; cbn; by rewrite C).
  rewrite <-Esp. rewrite <-Esp in Hp1. wbind.
  eapply wp_mono; [apply (shift_spec s2 H b I1 I2); [by apply pool_with_pump|done|cbn; by rewrite E|done|done]|].
  cbv beta. intros _ s3 (Hp3&Hc3&Ec3). set (H3 := <[b := I2]> H) in *.
  assert (ps_pumps s3 !! ip = Some p') as Hpu3 by (rewrite (ca_pumps _ _ Hc3); apply lookup_with_pump).
  assert (fds_step None (Some (to_fd p)) s s3) as Hfds.
  { eapply fds_step_trans; [exact F|]. exact (calm_step _ _ s2 s3 Hc3). }
  assert (frame ip p s H p' s3 H3) as Hfr.
  { split; [|by rewrite (ca_splice _ _ Hc3), <-C|done|by eapply fds_step_weaken; [done|left|right]|].
    - intros jp Hj. rewrite (ca_pumps _ _ Hc3). cbn. by rewrite lookup_insert_ne, A.
    - intros c J. unfold in_use. rewrite Ec3. cbn. rewrite E. unfold H3. destruct (decide (c = b)) as [->|Hcb].
      + rewrite Hb. naive_solver.
      + by rewrite lookup_insert_ne. }
  assert (ps_bands s3 = ps_bands s) as Hbands by (rewrite (ca_bands _ _ Hc3); exact B).
  destruct (Hfds _ O1) as (O1'&HA&_). destruct (HA ltac:(done)) as [Rd Ef]. destruct (Hfds _ O2) as (O2'&_&_).
  destruct (ca_fds _ _ Hc3 (to_fd p)) as [_ (_&Wr3&_&Sh3)]; [by destruct (F _ O2)|].
  assert (forall q, q = set_p_saw_fin (p_saw_fin q) p' -> (p_saw_fin q = 0 \/ (p_saw_fin q = 1 /\ p_saw_fin p = 1 /\ I2 <> [])) ->
    pump_ok s3 H3 base q (D ++ I1) I2) as Hq.
  { intros q Eq Hqf. rewrite Eq. split; cbn; try done.
    - by rewrite Rd, P1, <-!app_assoc.
    - rewrite Wr3. change (wr_of (to_fd p) (view s2)) with (wr_of (to_fd p) (view s1)). by rewrite Hwr, P2, app_assoc.
    - rewrite Hb, Ec3. cbn. rewrite E. split; [apply lookup_insert_eq|done].
    - destruct Hqf as [H0|(H1&_&?)]; [by left|by right; left].
    - intros Hq0. rewrite Ef. apply P6. destruct Hqf as [?|(_&->&_)]; done.
    - rewrite Sh3. change (k_shut (view s2)) with (k_shut (view s1)). rewrite Hsh, P7. split; intros [? _]; [congruence|].
      destruct Hqf as [?|(?&_)]; congruence. }
  rewrite Hbytes. destruct ((Z.of_nat (length I2) =? 0) && (p_saw_fin p' =? 1)) eqn:Edone; cbn [when].
  - apply andb_prop in Edone as [E0 E1]. assert (I2 = []) as -> by (by destruct I2).
    change (relay_fin ip p') with (relay_fin ip (set_p_saw_fin 0 p')). wbind.
    eapply wp_mono; [apply (relay_fin_spec ip base s3 H3 (set_p_saw_fin 0 p') p' (D ++ I1)); try done|].
    + apply Hq; [done|by left].
    + cbn. rewrite Ef. apply P6. apply Z.eqb_eq in E1. cbn in E1. congruence.
    + cbv beta. intros _ s4 (Hb4&Hfo4&Hfr4). eapply wp_Ok; [reflexivity|]. split; [congruence|]. split; [by left|].
      eexists H3, _, _, []. split; [done|]. eapply frame_trans; [exact Hfr|]. destruct Hfr4 as [G1 G2 G3 G4 G5]. by split.
  - wprim. eapply wp_Ok; [reflexivity|]. eapply tried_after; [exact Hfr|done|].
    apply (tried_here ip base s3 H3 p' (D ++ I1) I2); [|by left]. split; [done|done|]. apply Hq; [by destruct p|].
    destruct P5 as [[P5 _]|[[P5 _]|[? _]]]; [by left| |done]. right. split_and!; [done|done|].
    intros ->. cbn in Edone. by rewrite P5 in Edone.
Qed.

Lemma focus_sent_nothing ip base s s1 H p D I : focus ip base s H p D I -> sent (to_fd p) [] s s1 -> pool_ok s1 H ->
  focus ip base s1 H p D I /\ frame ip p s H p s1 H.
Proof.
  intros [Hp Hpu Hok] ([A B C E F]&_&Hwr&Hsh) Hp1. destruct Hok as [P1 P2 P3 P4 P5 P6 P7 [O1 O2]].
  destruct (F _ O1) as (O1'&HA&_). destruct (HA ltac:(done)) as [Rd Ef]. destruct (F _ O2) as (O2'&_&_). rewrite app_nil_r in Hwr.
  split; [split; [done|by rewrite A|]|split; try done].
  - split; rewrite ?Rd, ?Hwr, ?Ef, ?Hsh, ?E; done.
  - intros jp _. by rewrite A.
  - by eapply fds_step_weaken; [done|left|right].
  - intros c J. unfold in_use. by rewrite E.
Qed.

Lemma try_output_spec ip base s H p D I : focus ip base s H p D I -> p_bytes p <> 0 ->
  wp nofatal (iv_fd_pump_try_output ip) s (tried ip base s H p).
Proof.
  intros Hfo Hbytes. pose proof Hfo as [Hp Hpu Hok]. unfold iv_fd_pump_try_output. wrun (load_pump_Ok s ip p Hpu).
  assert (I <> []) as HIne by (intros ->; apply Hbytes, (pm_bytes _ _ _ _ _ _ Hok)).
  assert (p_saw_fin p <> 2) as Hfin by (intros E; destruct (pm_fin _ _ _ _ _ _ Hok) as [[? _]|[[? _]|[_ ?]]]; [congruence..|done]).
  pose proof (pm_buf _ _ _ _ _ _ Hok) as Hbuf. destruct (p_buf p) as [b|] eqn:Eb; [|done]. destruct Hbuf as [HI Hbc]. do 2 wprim.
  wbind. eapply wp_mono; [apply (output_call_spec s H p b I Hp HI Hbc); apply Hok|]. cbv beta. intros [k|e] s1.
  - intros (I1&I2&->&->&Hsent&Hp1). destruct (Z.leb_spec (Z.of_nat (length I1)) 0) as [Hk|Hk].
    + assert (I1 = []) as -> by (destruct I1; [done|cbn in Hk; lia]). cbn [app] in *. eapply wp_Ok; [reflexivity|].
      assert (pool_ok s1 H) as Hp1' by (destruct (is_splicing s); [by rewrite insert_id in Hp1|done]).
      destruct (focus_sent_nothing _ _ _ _ _ _ _ _ Hfo Hsent Hp1') as [Hfo1 Hfr1].
      eapply tried_after; [done|by destruct Hsent as [[]]|]. eapply tried_here; [done|by right].
    + by apply (output_data_spec ip base s s1 H p D I1 I2 b).
  - intros [He Hsv]. destruct (focus_same_view _ _ _ _ _ _ _ _ Hfo Hsv) as [Hfo1 Hfr1].
    assert (ps_bands s1 = ps_bands s) as Hbands by (destruct Hsv as (w2&->&_); done).
    destruct e; try done; (eapply wp_Ok; [reflexivity|]; eapply tried_after; [done|done|]; eapply tried_here; [done|]); auto.
Qed.
End pool.
