(* ===== verification/PumpSim.v ===== *)
(** * A kernel to run pumps on

    A concrete world that obeys the laws of PumpSpec.v: descriptors with input in
    chunks (an empty chunk is a moment without data, no chunk left the end of the
    stream), writes of at most three bytes, pipes, and splice(2) where enabled. *)

From Stdlib Require Strings.Byte.
From S2P Require Import Prelude Sys Pump PumpSpec.

Local Open Scope Z_scope.

#[global] Instance byte_eq_dec : EqDecision byte := Strings.Byte.byte_eq_dec.

Record psim := mk_psim {
  px_view : kview; px_input : gmap Z (list (list byte)); px_splice : bool; px_signals : nat }.
Definition px_set (v : kview) (w : psim) : psim := mk_psim v (px_input w) (px_splice w) (px_signals w).
Definition px_set_input (n : Z) (l : list (list byte)) (w : psim) : psim :=
  mk_psim (px_view w) (<[n := l]> (px_input w)) (px_splice w) (px_signals w).

(** Up to [len] bytes from [n]: none where there is no data for now. *)
Definition px_take (n len : Z) (w : psim) : option (list byte) * psim :=
  match default [] (px_input w !! n) with
  | [] => (Some [], w)
  | [] :: l => (None, px_set_input n l w)
  | c :: l =>
      let k := Z.to_nat (Z.min len (Z.of_nat (length c))) in
      (Some (take k c), px_set_input n (if decide (drop k c = []) then l else drop k c :: l) w)
  end.
Definition px_interrupted {A} (call : psim -> sysres A * psim) (w : psim) : sysres A * psim :=
  match px_signals w with
  | O => call w
  | Datatypes.S k => (inr EINTR, mk_psim (px_view w) (px_input w) (px_splice w) k)
  end.

Definition px_read (n len : Z) : psim -> sysres (list byte) * psim := px_interrupted (fun w =>
  match px_take n len w with
  | (None, w) => (inr EAGAIN, w)
  | (Some d, w) => (inl d, px_set (consume n d (px_view w)) w)
  end).
Definition px_write (n : Z) (d : list byte) : psim -> sysres Z * psim := px_interrupted (fun w =>
  let d := take 3 d in (inl (Z.of_nat (length d)), px_set (deliver n d (px_view w)) w)).
Definition px_move (a b len : Z) : psim -> sysres Z * psim := px_interrupted (fun w =>
  if negb (px_splice w) || (len <? 0) then (inr EINVAL, w)
  else
    let '(d, w) := match k_pipe (px_view w) !! a with
      | Some s =>
          let l := drop (length (rd_of a (px_view w))) (wr_of s (px_view w)) in
          if decide (l = [] \/ ~ rd_of a (px_view w) `prefix_of` wr_of s (px_view w)) then (None, w)
          else (Some (take (Z.to_nat (Z.min len (Z.of_nat (length l)))) l), w)
      | None => px_take a len w
      end in
    match d with
    | None => (inr EAGAIN, w)
    | Some d => (inl (Z.of_nat (length d)), px_set (deliver b d (consume a d (px_view w))) w)
    end).
Definition px_pipe (w : psim) : sysres (Z * Z) * psim :=
  let a := fresh (k_open (px_view w)) in
  let b := fresh ({[a]} ∪ k_open (px_view w)) in
  (inl (a, b), px_set (new_pipe a b (px_view w)) w).

#[global] Instance psim_kernel : PumpKernel psim := {
  pk_malloc D w := (Some (fresh D), w);
  pk_read := px_read;
  pk_write := px_write;
  pk_splice := px_move;
  pk_pipe2 w := (inr ENOSYS, w);
  pk_pipe := px_pipe;
  pk_set_cloexec _ w := w;
  pk_close n w := px_set (close_fd n (px_view w)) w;
  pk_fionread _ w := (Some 0, w);
  pk_shutdown n w := px_set (shut_fd n (px_view w)) w;
  pk_signals := px_signals }.

Lemma px_take_spec n len w r w' : 0 <= len -> px_take n len w = (r, w') ->
  px_view w' = px_view w /\ px_signals w' = px_signals w /\ px_splice w' = px_splice w /\
  forall d, r = Some d -> Z.of_nat (length d) <= len.
Proof.
  intros Hl. unfold px_take. destruct (default [] (px_input w !! n)) as [|[|c0 c] l]; intros [= <- <-]; split_and!; try done.
  - by intros d [= <-].
  - intros d [= <-]. rewrite length_take. lia.
Qed.

(** What a law says of a transfer call. *)
Definition outcome {A} (w : psim) (good : A -> psim -> Prop) (r : sysres A) (w' : psim) : Prop :=
  match r with
  | inl a => good a w'
  | inr e => px_view w' = px_view w /\ (e = EINTR -> (px_signals w' < px_signals w)%nat)
  end.
Lemma px_interrupted_spec {A} (call : psim -> sysres A * psim) w r w' good :
  px_interrupted call w = (r, w') -> (forall r w', call w = (r, w') -> outcome w good r w') -> outcome w good r w'.
Proof.
  unfold px_interrupted. destruct (px_signals w) eqn:E; intros Hc H1; [auto|].
  injection Hc as <- <-. cbn. rewrite E. split; [done|lia].
Qed.

Lemma px_read_law n len w r w' : 0 <= len -> px_read n len w = (r, w') ->
  outcome w (fun d w' => Z.of_nat (length d) <= len /\ px_view w' = consume n d (px_view w)) r w'.
Proof.
  intros Hl E. apply (px_interrupted_spec _ _ _ _ _ E). intros r1 w1.
  destruct (px_take n len w) as [[d|] w2] eqn:Et; intros [= <- <-];
    destruct (px_take_spec _ _ _ _ _ Hl Et) as (Ev&_&_&Hd); [|done]. split; [by apply Hd|]. cbn. by rewrite Ev.
Qed.
Lemma px_write_law n d w r w' : px_write n d w = (r, w') ->
  outcome w (fun k w' => 0 <= k <= Z.of_nat (length d) /\ px_view w' = deliver n (take (Z.to_nat k) d) (px_view w)) r w'.
Proof.
  intros E. apply (px_interrupted_spec _ _ _ _ _ E). intros r1 w1 [= <- <-]. split.
  - rewrite length_take. lia.
  - cbn [px_view px_set]. f_equal. rewrite Nat2Z.id, length_take. destruct (Nat.min_spec 3 (length d)) as [[? ->]|[? ->]]; [done|].
    by rewrite !take_ge by lia.
Qed.
Lemma px_move_law a b len w r w' : px_move a b len w = (r, w') ->
  outcome w (fun k w' => exists d, k = Z.of_nat (length d) /\ k <= len /\
    px_view w' = deliver b d (consume a d (px_view w)) /\
    forall s, k_pipe (px_view w) !! a = Some s -> (rd_of a (px_view w) ++ d) `prefix_of` wr_of s (px_view w)) r w'.
Proof.
  intros E. apply (px_interrupted_spec _ _ _ _ _ E). intros r1 w1.
  destruct (negb (px_splice w) || (len <? 0)) eqn:Hb; [by intros [= <- <-]|].
  apply orb_false_iff in Hb as [_ Hl%Z.ltb_ge]. destruct (k_pipe (px_view w) !! a) as [s|] eqn:Hs.
  - set (l := drop _ _). cbv zeta. destruct (decide (l = [] \/ _)) as [Hd|Hd]; intros [= <- <-]; [done|]. eexists. split_and!; [reflexivity| |done|].
    + rewrite length_take. lia.
    + intros s' [= <-]. destruct (decide (rd_of a (px_view w) `prefix_of` wr_of s (px_view w))) as [[q Hq]|]; [|tauto].
      subst l. rewrite Hq, drop_app_length. apply prefix_app. exists (drop (Z.to_nat (Z.min len (Z.of_nat (length q)))) q). by rewrite take_drop.
  - destruct (px_take a len w) as [[d|] w2] eqn:Et; intros [= <- <-];
      destruct (px_take_spec _ _ _ _ _ Hl Et) as (Ev&_&_&Hd); [|done].
    exists d. split_and!; [done|by apply Hd|cbn; by rewrite Ev|done].
Qed.

#[global, refine] Instance psim_laws : PumpLaws psim := { pv := px_view }.
Proof.
  - intros D w r w' E. cbn in E. injection E as <- <-. split; [done|]. intros b [= <-]. apply is_fresh.
  - intros n len w r w' Hl E. exact (px_read_law n len w r w' Hl E).
  - intros n d w r w' E. exact (px_write_law n d w r w' E).
  - intros a b len w r w' E. exact (px_move_law a b len w r w' E).
  - intros w r w' [= <- <-]. done.
  - intros w r w' [= <- <-].
    pose proof (is_fresh (k_open (px_view w))). pose proof (is_fresh ({[fresh (k_open (px_view w))]} ∪ k_open (px_view w))).
    split_and!; [set_solver|done|set_solver|done].
  - done.
  - done.
  - done.
  - done.
Defined.
