(* ===== verification/PumpProps.v ===== *)
(** * The pump's operations, and what holds of every run of them

    The specifications of [iv_fd_pump_pump], [iv_fd_pump_init] and
    [iv_fd_pump_destroy] on one pump among many that share the thread's cache;
    runs of a client as a reachability relation; the properties of every
    reachable state. *)

From S2P Require Import Prelude Sys Pump PumpSpec PumpSim.

Local Open Scope Z_scope.

Section pump.
Context {W : Type} `{!PumpKernel W, HL : !PumpLaws W}.
Abbreviation St := (pump_state W).
Implicit Types (s : St) (H : gmap loc (list byte)) (ip b : loc) (p : iv_fd_pump).

(** ** One operation *)

(** The bands a pump asks for. *)
Definition wants_in p : bool := (p_saw_fin p =? 0) && negb (p_full p).
Definition wants_out p : bool := negb (p_bytes p =? 0).

(** What a return value means: -1 for an error; 1 for more to do, with the bands
    that must become ready asked for; 0 for done, with no bands asked for. *)
Definition pump_result ip p s s' (r : Z) : Prop :=
  (r = -1 /\ ps_bands s' = ps_bands s) \/
  (r = 1 /\ p_saw_fin p <> 2 /\ ps_bands s' = ps_bands s ++ [(ip, (wants_in p, wants_out p))] /\
     wants_in p || wants_out p = true) \/
  (r = 0 /\ p_saw_fin p = 2 /\ ps_bands s' = ps_bands s ++ [(ip, (false, false))]).

Lemma set_bands_focus ip jp base s H p D I (x y : bool) : focus ip base s H p D I ->
  focus ip base (set_ps_bands (ps_bands s ++ [(jp, (x, y))]) s) H p D I /\
  frame ip p s H p (set_ps_bands (ps_bands s ++ [(jp, (x, y))]) s) H.
Proof.
  intros [A B [? ? ? ? ? ? ? ?]]. split; [split; [by apply (pool_view s)|done|by split]|]. split; try done.
Qed.

Lemma pump_body_spec ip base s H p D I : focus ip base s H p D I ->
  wp nofatal (__iv_fd_pump_pump ip) s (fun r s' => exists H' p' D' I',
    focus ip base s' H' p' D' I' /\ frame ip p s H p' s' H' /\ pump_result ip p' s s' r).
Proof.
  intros Hfo. unfold __iv_fd_pump_pump. wrun (load_pump_Ok s ip p (fo_pump _ _ _ _ _ _ _ Hfo)). wbind.
  apply (wp_mono _ _ _ (fun r s' => tried ip base s H p r s')).
  { destruct (p_full p) eqn:Ef; cbn [negb andb]; [eapply wp_Ok; [reflexivity|]; eapply tried_here; [done|by left]|].
    destruct (Z.eqb_spec (p_saw_fin p) 0); [by eapply try_input_spec|].
    eapply wp_Ok; [reflexivity|]; eapply tried_here; [done|by left]. }
  intros r1 s1 (Hb1&Hr1&H1&p1&D1&I1&Hfo1&Hfr1).
  destruct Hr1 as [-> | ->]; cbn [Z.eqb negb].
  2:{ eapply wp_Ok; [reflexivity|]. exists H1, p1, D1, I1. split_and!; [done|done|by left]. }
  wrun (load_pump_Ok s1 ip p1 (fo_pump _ _ _ _ _ _ _ Hfo1)). wbind.
  apply (wp_mono _ _ _ (fun r s' => tried ip base s1 H1 p1 r s')).
  { destruct (Z.eqb_spec (p_bytes p1) 0); cbn [negb]; [|by eapply try_output_spec].
    eapply wp_Ok; [reflexivity|]; eapply tried_here; [done|by left]. }
  intros r2 s2 (Hb2&Hr2&H2&p2&D2&I2&Hfo2&Hfr2). pose proof (frame_trans _ _ _ _ _ _ _ _ _ _ Hfr1 Hfr2) as Hfr.
  destruct Hr2 as [-> | ->]; cbn [Z.eqb negb].
  2:{ eapply wp_Ok; [reflexivity|]. exists H2, p2, D2, I2. split_and!; [done|done|]. left. split; [done|congruence]. }
  wrun (load_pump_Ok s2 ip p2 (fo_pump _ _ _ _ _ _ _ Hfo2)).
  pose proof (fo_ok _ _ _ _ _ _ _ Hfo2) as Hok2. pose proof (pm_bytes _ _ _ _ _ _ Hok2) as Hby.
  assert (I2 <> [] -> wants_out p2 = true) as Hout.
  { intros Hne. unfold wants_out. destruct (Z.eqb_spec (p_bytes p2) 0); [|done]. destruct I2; [done|cbn in Hby; lia]. }
  assert (ps_bands s2 = ps_bands s) as Hbs by congruence.
  destruct (pm_fin _ _ _ _ _ _ Hok2) as [[Hf Hfull]|[[Hf Hne]|[Hf Hne]]]; rewrite Hf; cbn [Z.eqb Pos.eqb];
    wprim; (eapply wp_Ok; [reflexivity|]);
    match goal with |- exists _ _ _ _, focus _ _ (set_ps_bands (_ ++ [(_, (?x, ?y))]) _) _ _ _ _ /\ _ =>
      destruct (set_bands_focus ip ip base s2 H2 p2 D2 I2 x y Hfo2) as [Hfo3 Hfr3] end;
    exists H2, p2, D2, I2; (split; [exact Hfo3|]); (split; [by eapply frame_trans|]).
  - right. left. split; [done|]. split; [congruence|]. assert (wants_in p2 = negb (p_full p2)) as Ein by (unfold wants_in; by rewrite Hf).
    rewrite Ein. split; [by cbn; rewrite Hbs|]. destruct (p_full p2) eqn:Ep2; [|done]. by rewrite Hout; auto.
  - right. left. split; [done|]. split; [congruence|]. assert (wants_in p2 = false) as Ein by (unfold wants_in; by rewrite Hf).
    rewrite Ein, Hout by done. split; [by cbn; rewrite Hbs|done].
  - right. right. split_and!; [done|done|by cbn; rewrite Hbs].
Qed.

Lemma release_spec ip base s H p D I : focus ip base s H p D I ->
  wp nofatal (release_buf ip) s (fun _ s' => ps_bands s' = ps_bands s /\ exists H', let p' := set_p_buf None p in
    pool_ok s' H' /\ ps_pumps s' !! ip = Some p' /\ frame ip p s H p' s' H' /\
    (I = [] -> pump_ok s' H' base p' D [])).
Proof.
  intros [Hp Hpu Hok]. unfold release_buf. wrun (load_pump_Ok s ip p Hpu).
  pose proof (pm_buf _ _ _ _ _ _ Hok) as Hbuf. destruct (p_buf p) as [b|] eqn:Eb.
  2:{ eapply wp_Ok; [reflexivity|]. split; [done|]. exists H. cbv zeta.
      assert (set_p_buf None p = p) as -> by (destruct p; cbn in *; by subst).
      split_and!; [done|done|apply frame_refl|by intros ->]. }
  destruct Hbuf as [HI Hbc]. wbind.
  eapply wp_mono; [apply (buf_put_spec s H b I); [done|done|done|apply Hok]|]. cbv beta. intros _ s1 (Hc&H1&Hp1&Hoth&Hown&_).
  assert (ps_pumps s1 !! ip = Some p) as Hpu1 by (by rewrite (ca_pumps _ _ Hc)).
  eapply wp_Ok; [apply (upd_pump_Ok s1 ip p (set_p_buf None) Hpu1)|]. split; [apply Hc|]. exists H1. cbv zeta.
  split_and!; [by apply pool_with_pump|apply lookup_with_pump| |].
  - split; [|apply Hc|done|exact (calm_step _ _ s s1 Hc)|].
    + intros jp Hj. cbn. rewrite lookup_insert_ne by done. by rewrite (ca_pumps _ _ Hc).
    + intros c J. unfold in_use. cbn. destruct (decide (c = b)) as [->|Hcb].
      * rewrite Eb. split; [by intros (_&_&[])|]. intros (HJ&Hn&_). by destruct Hn; apply Hown.
      * destruct (Hoth c Hcb) as [-> ->]. rewrite Eb. naive_solver.
  - intros ->. apply pump_ok_with.
    assert (pump_ok s H base (set_p_buf None p) D []) as Hok' by (by destruct Hok; split).
    by apply (pump_ok_calm s s1 H H1 base _ D [] Hc Hok').
Qed.

Lemma pump_pump_spec ip base s H p D I : focus ip base s H p D I ->
  wp nofatal (iv_fd_pump_pump ip) s (fun r s' => exists H' p', pool_ok s' H' /\ ps_pumps s' !! ip = Some p' /\
    frame ip p s H p' s' H' /\ pump_result ip p' s s' r /\ (r = -1 \/ p_bytes p' = 0 -> p_buf p' = None) /\
    (r <> -1 -> exists D' I', pump_ok s' H' base p' D' I')).
Proof.
  intros Hfo. unfold iv_fd_pump_pump. wbind. eapply wp_mono; [by eapply pump_body_spec|]. cbv beta.
  intros r s1 (H1&p1&D1&I1&Hfo1&Hfr1&Hres). wrun (load_pump_Ok s1 ip p1 (fo_pump _ _ _ _ _ _ _ Hfo1)).
  pose proof (pm_bytes _ _ _ _ _ _ (fo_ok _ _ _ _ _ _ _ Hfo1)) as Hby.
  destruct ((r <? 0) || (p_bytes p1 =? 0)) eqn:Erel; cbn [when].
  - wbind. eapply wp_mono; [by eapply release_spec|]. cbv beta zeta. intros _ s2 (Hb2&H2&Hp2&Hpu2&Hfr2&Hok2).
    eapply wp_Ok; [reflexivity|]. exists H2, (set_p_buf None p1). split_and!; [done|done|by eapply frame_trans| |done|].
    + unfold pump_result in *. rewrite Hb2. exact Hres.
    + intros Hr. exists D1, []. apply Hok2. destruct (Z.ltb_spec r 0).
      { unfold pump_result in Hres. lia. }
      cbn in Erel. apply Z.eqb_eq in Erel. destruct I1; [done|cbn in Hby; lia].
  - wprim. eapply wp_Ok; [reflexivity|]. apply orb_false_iff in Erel as [Er0 Eb0]. apply Z.ltb_ge in Er0. apply Z.eqb_neq in Eb0.
    destruct Hfo1 as [Hp1 Hpu1 Hok1]. exists H1, p1. split_and!; try done; [lia|]. intros _. by exists D1, I1.
Qed.

(** ** The test for splice(2) *)

(** As [calm], but for the mode. *)
Record settled s s' : Prop := {
  se_pumps : ps_pumps s' = ps_pumps s;
  se_bands : ps_bands s' = ps_bands s;
  se_mode : ps_splice s' = 0 \/ ps_splice s' = 1;
  se_fds : forall n, outside s n -> outside s' n /\ same_fd s s' n }.

Lemma pool_empty s H : ps_bufs s = ∅ -> ps_cache s = [] -> ps_num_bufs s = 0 -> H = ∅ -> pool_ok s H.
Proof.
  intros Hb Hc Hn ->. split.
  - intros b x. by rewrite Hb.
  - intros b I. by rewrite lookup_empty.
  - intros b b' r w r' w'. by rewrite Hb.
  - intros b. rewrite Hc. by intros ?%not_elem_of_nil.
  - rewrite Hc. constructor.
  - rewrite Hc, Hn. done.
Qed.
Lemma pool_empty_bufs s H : pool_ok s H -> H = ∅ -> ps_bufs s = ∅.
Proof.
  intros Hp ->. apply map_eq. intros b. destruct (ps_bufs s !! b) as [x|] eqn:E; [|by rewrite lookup_empty].
  destruct (po_holds _ _ Hp _ _ E) as (I&HI&_). by rewrite lookup_empty in HI.
Qed.
Lemma pool_mode s v : pool_ok s ∅ -> pool_ok (set_ps_splice v s) ∅.
Proof.
  intros Hp. pose proof (pool_empty_bufs _ _ Hp eq_refl) as Hb. destruct Hp as [P1 P2 P3 P4 P5 P6].
  split; try done. intros b x. cbn. rewrite Hb. done.
Qed.

Lemma calm_settled s s1 s' v : calm s1 s' -> s1 = set_ps_splice 1 s -> v = 0 \/ v = 1 ->
  settled s (set_ps_splice v s').
Proof. intros [A B C F] -> Hv. split; [exact A|exact B|done|exact F]. Qed.

(** The test moves nothing: the pipe it reads is empty. *)
Lemma splice_test s H b0 b1 r0 w0 r1 w1 : pool_ok s H -> H !! b0 = Some [] -> ps_bufs s !! b0 = Some (BPipe r0 w0) ->
  ps_bufs s !! b1 = Some (BPipe r1 w1) ->
  wp nofatal (pkernel (pk_splice r0 w1 1)) s (fun _ s' => calm s s' /\ pool_ok s' H /\ ps_cache s' = ps_cache s).
Proof.
  intros Hp HI Hx0 Hx1. destruct (holds_of _ _ _ _ _ Hp HI Hx0) as (_&Hrw&Hr&Hw&Hpipe&Hcont).
  destruct (pk_splice r0 w1 1 (ps_w s)) as [ret w'] eqn:E. eapply wp_Ok; [by apply pkernel_Ok|].
  pose proof (law_splice _ _ _ _ _ _ E) as HS. set (s1 := set_ps_w w' s).
  assert (Hv : view s1 = view s \/ view s1 = deliver w1 [] (consume r0 [] (view s))).
  { destruct ret as [k|e]; [right|left; by destruct HS]. destruct HS as (d&_&_&Ev&Hfifo). specialize (Hfifo w0 Hpipe).
    change (rd_of r0 (view s) ++ d `prefix_of` wr_of w0 (view s)) in Hfifo. rewrite Hcont, app_nil_r in Hfifo.
    apply prefix_length in Hfifo. rewrite length_app in Hfifo. by assert (d = []) as -> by (destruct d; [done|cbn in Hfifo; lia]). }
  assert (Hrd : forall n, rd_of n (view s1) = rd_of n (view s)).
  { intros n. destruct Hv as [-> | ->]; [done|]. change (rd_of n (consume r0 [] (view s)) = rd_of n (view s)).
    rewrite rd_consume, app_nil_r. by case_decide. }
  assert (Hwr : forall n, wr_of n (view s1) = wr_of n (view s)).
  { intros n. destruct Hv as [-> | ->]; [done|]. rewrite wr_deliver, app_nil_r. by case_decide. }
  assert (k_open (view s1) = k_open (view s) /\ k_pipe (view s1) = k_pipe (view s) /\ k_shut (view s1) = k_shut (view s))
    as (Ho&Hpi&Hsh) by (by destruct Hv as [-> | ->]).
  split_and!; [|apply (pool_world s s1 H Hp); try done; intros; by rewrite Hrd, Hwr, Ho, Hpi|done].
  split; try done. intros n Hn. destruct (outside_not_pipe _ _ _ _ _ Hn Hx0) as [Hnr _].
  split; [by apply (outside_same s)|]. unfold same_fd. rewrite Hrd, Hwr, Hsh. do 2 (split; [done|]). split; [|done].
  destruct Hv as [-> | ->]; [done|]. exact (eof_other r0 n [] (view s) Hnr).
Qed.

Lemma check_splice_spec s : ps_bufs s = ∅ -> ps_cache s = [] -> ps_num_bufs s = 0 ->
  wp nofatal check_splice_available s (fun _ s' => settled s s' /\ exists H', pool_ok s' H' /\
    forall b, is_Some (H' !! b) -> b ∈ ps_cache s').
Proof.
  intros Hb0 Hc0 Hn0. unfold check_splice_available. wprim. set (s0 := set_ps_splice 1 s).
  assert (pool_ok s0 ∅) as Hp0 by (by apply pool_empty).
  assert (forall s1, pool_ok s1 ∅ -> calm s0 s1 -> settled s (set_ps_splice 0 s1) /\ exists H', pool_ok (set_ps_splice 0 s1) H' /\
    forall b, is_Some (H' !! b) -> b ∈ ps_cache (set_ps_splice 0 s1)) as Hfail.
  { intros s1 Hp1 Hc1. split; [eapply calm_settled; [done|done|by left]|]. exists ∅. split; [by apply pool_mode|].
    intros b [? Hx]. by rewrite lookup_empty in Hx. }
  wbind. eapply wp_mono; [by apply buf_alloc_spec|]. cbv beta. intros [b0|] s1 (Hc1&Ec1&Hr1).
  2:{ eapply wp_Ok; [reflexivity|]. by apply Hfail. }
  destruct Hr1 as [_ Hp1]. wbind. eapply wp_mono; [by apply buf_alloc_spec|]. cbv beta. intros [b1|] s2 (Hc2&Ec2&Hr2).
  2:{ wbind. eapply wp_mono; [apply (buf_free_spec s2 _ b0 [] Hr2)|].
      - apply lookup_insert_eq.
      - rewrite Ec2, Ec1. cbn. rewrite Hc0. apply not_elem_of_nil.
      - cbv beta. intros _ s3 (Hc3&_&Hp3&_). rewrite delete_insert_eq, delete_empty in Hp3.
        eapply wp_Ok; [reflexivity|]. apply Hfail; [done|]. eapply calm_trans; [done|]. by eapply calm_trans. }
  destruct Hr2 as [Hnone Hp2]. assert (b1 <> b0) as Hne by (intros ->; by rewrite lookup_insert_eq in Hnone).
  assert (ps_splice s2 = 1) as Hs2 by (rewrite (ca_splice _ _ Hc2), (ca_splice _ _ Hc1); done).
  assert (ps_cache s2 = []) as Hcache2 by (rewrite Ec2, Ec1; exact Hc0).
  set (H2 := <[b1 := []]> (<[b0 := []]> ∅)) in *.
  assert (H2 !! b0 = Some []) as HHb0 by (unfold H2; by rewrite lookup_insert_ne, lookup_insert_eq).
  assert (H2 !! b1 = Some []) as HHb1 by apply lookup_insert_eq.
  assert (forall b, H2 !! b = Some [] -> exists r w, ps_bufs s2 !! b = Some (BPipe r w)) as Hpipe.
  { intros b HHb. destruct (po_dom _ _ Hp2 _ _ HHb) as [x Hx]. pose proof (holds_of _ _ _ _ _ Hp2 HHb Hx) as Hh.
    unfold is_splicing in Hh. rewrite Hs2 in Hh. destruct x as [|l|r w]; [done|by destruct Hh|by eauto]. }
  destruct (Hpipe _ HHb0) as (r0&w0&Hx0), (Hpipe _ HHb1) as (r1&w1&Hx1).
  wrun (load_pfd2_Ok s2 b0 r0 w0 Hx0). wrun (load_pfd2_Ok s2 b1 r1 w1 Hx1). cbn [fst snd].
  wbind. eapply wp_mono; [by apply (splice_test s2 H2 b0 b1 r0 w0 r1 w1)|]. cbv beta. intros ret s3 (Hc3&Hp3&Ec3).
  assert (calm s0 s3) as Hc03 by (eapply calm_trans; [done|]; by eapply calm_trans).
  assert (ps_cache s3 = []) as Hcache3 by congruence.
  assert (wp nofatal (__buf_free b0;; __buf_free b1;; modify (set_ps_splice 0)) s3 (fun _ s' => settled s s' /\
    exists H', pool_ok s' H' /\ forall b, is_Some (H' !! b) -> b ∈ ps_cache s')) as Hno.
  { wbind. eapply wp_mono; [apply (buf_free_spec s3 H2 b0 [] Hp3 HHb0); rewrite Hcache3; apply not_elem_of_nil|]. cbv beta.
    intros _ s4 (Hc4&Ec4&Hp4&_). wbind.
    eapply wp_mono; [apply (buf_free_spec s4 _ b1 [] Hp4)|].
    - by rewrite lookup_delete_ne.
    - rewrite Ec4, Hcache3. apply not_elem_of_nil.
    - cbv beta. intros _ s5 (Hc5&_&Hp5&_). assert (delete b1 (delete b0 H2) = ∅) as E.
      { unfold H2. apply map_eq. intros c. rewrite !lookup_delete, !lookup_insert, lookup_empty. by repeat case_decide. }
      rewrite E in Hp5. eapply wp_Ok; [reflexivity|]. apply Hfail; [done|]. eapply calm_trans; [done|]. by eapply calm_trans. }
  destruct ret as [k|e]; [exact Hno|]. destruct e; try exact Hno. clear Hno Hfail.
  wbind. eapply wp_mono; [apply (buf_put_spec s3 H2 b1 [] 0 Hp3 HHb1); [rewrite Hcache3; apply not_elem_of_nil|done]|].
  cbv beta. intros _ s4 (Hc4&H4&Hp4&Hoth4&Hown4&_). destruct (Hoth4 b0 ltac:(done)) as [E40 E4c].
  eapply wp_mono; [apply (buf_put_spec s4 H4 b0 [] 0 Hp4); [by rewrite E40|rewrite E4c, Hcache3; apply not_elem_of_nil|done]|].
  cbv beta. intros _ s5 (Hc5&H5&Hp5&Hoth5&Hown5&_). assert (calm s0 s5) as Hc05 by (eapply calm_trans; [done|]; by eapply calm_trans).
  split.
  - assert (set_ps_splice 1 s5 = s5) as <-.
    { assert (ps_splice s5 = 1) as E by (rewrite (ca_splice _ _ Hc05); done). destruct s5; cbn in *; by subst. }
    eapply calm_settled; [done|done|by right].
  - exists H5. split; [done|]. intros b Hb. destruct (decide (b = b0)) as [->|Hb0']; [auto|].
    destruct (Hoth5 b Hb0') as [E5 E5c]. rewrite E5 in Hb. rewrite E5c. destruct (decide (b = b1)) as [->|Hb1']; [auto|].
    destruct (Hoth4 b Hb1') as [E4 _]. rewrite E4 in Hb. unfold H2 in Hb. rewrite !lookup_insert_ne in Hb by done.
    destruct Hb as [? Hb]. by rewrite lookup_empty in Hb.
Qed.

(** ** The thread's pumps *)

(** [G]: the live pumps, with what had been read and written when they began. *)
Abbreviation ghost := (gmap loc (list byte * list byte)).
Implicit Types (G : ghost).

Record pumps_at G s H : Prop := {
  ga_pool : pool_ok s H;
  ga_live : forall ip base, G !! ip = Some base -> exists p D I, ps_pumps s !! ip = Some p /\ pump_ok s H base p D I;
  ga_rest : forall ip p, ps_pumps s !! ip = Some p -> G !! ip = None -> p_buf p = None;
  ga_owner : forall ip jp p q b, ps_pumps s !! ip = Some p -> ps_pumps s !! jp = Some q ->
    p_buf p = Some b -> p_buf q = Some b -> ip = jp;
  ga_fds : forall ip jp p q, ip <> jp -> is_Some (G !! ip) -> is_Some (G !! jp) -> ps_pumps s !! ip = Some p ->
    ps_pumps s !! jp = Some q -> from_fd p <> from_fd q /\ to_fd p <> to_fd q;
  ga_leak : forall b, is_Some (H !! b) -> b ∈ ps_cache s \/ exists ip p, ps_pumps s !! ip = Some p /\ p_buf p = Some b;
  ga_mode : ps_splice s = -1 -> ps_bufs s = ∅ /\ ps_cache s = [] /\ ps_num_bufs s = 0 /\ G = ∅ }.

Lemma pump_ok_other ip s H p s' H' p' base q D I : frame ip p s H p' s' H' -> pump_ok s H base q D I ->
  from_fd p <> from_fd q -> to_fd p <> to_fd q -> (forall b, p_buf q = Some b -> p_buf p <> Some b) ->
  pump_ok s' H' base q D I.
Proof.
  intros [_ _ _ F B] [A1 A2 A3 A4 A5 A6 A7 [O1 O2]] Hf Ht Hb.
  destruct (F _ O1) as (O1'&R&_). destruct (F _ O2) as (O2'&_&Wr).
  destruct R as [R E]; [congruence|]. destruct Wr as [Wr Sh]; [congruence|].
  split; rewrite ?R, ?Wr, ?E, ?Sh; try done. destruct (p_buf q) as [b|]; [|done].
  destruct (B b I) as [B' _]. destruct A4 as [HI Hbc]. destruct B' as (?&?&_); [|done].
  split_and!; [done|done|by apply Hb].
Qed.

Lemma same_ends_ne p p' q : same_ends p p' -> from_fd p <> from_fd q /\ to_fd p <> to_fd q ->
  from_fd p' <> from_fd q /\ to_fd p' <> to_fd q.
Proof. intros (->&->&_). done. Qed.

(** Work on one live pump, after which it is live or not. *)
Lemma pumps_lift G s H ip p p' s' H' base (live : bool) : pumps_at G s H -> G !! ip = Some base ->
  ps_pumps s !! ip = Some p -> frame ip p s H p' s' H' -> pool_ok s' H' -> ps_pumps s' !! ip = Some p' ->
  (if live then exists D I, pump_ok s' H' base p' D I else p_buf p' = None) ->
  pumps_at (if live then G else delete ip G) s' H'.
Proof.
  intros Hat Hip Hpu Hfr Hp' Hpu' Hlive. destruct Hat as [_ L R O F K M].
  set (G' := if live then G else delete ip G).
  assert (forall jp x, G' !! jp = Some x -> G !! jp = Some x /\ (jp = ip -> live = true)) as HG.
  { intros jp x. unfold G'. destruct live; [done|]. rewrite lookup_delete_Some. intros [Hne ?]. split; [done|by intros <-]. }
  assert (forall jp, jp <> ip -> G' !! jp = G !! jp) as HGne.
  { intros jp Hne. unfold G'. destruct live; [done|]. by rewrite lookup_delete_ne. }
  assert (forall jp q, ps_pumps s' !! jp = Some q -> jp <> ip -> ps_pumps s !! jp = Some q) as Hback.
  { intros jp q Hq Hne. by rewrite <-(fr_others _ _ _ _ _ _ _ Hfr jp Hne). }
  assert (forall jp q b, jp <> ip -> ps_pumps s !! jp = Some q -> p_buf q = Some b -> p_buf p <> Some b) as Hbne.
  { intros jp q b Hne Hq Hb Hb'. by apply Hne, (O jp ip q p b). }
  assert (forall jp q b, jp <> ip -> ps_pumps s !! jp = Some q -> p_buf q = Some b -> exists J, in_use s H p b J) as Huse.
  { intros jp q b Hne Hq Hb. destruct (G !! jp) as [bj|] eqn:EG; [|by rewrite (R _ _ Hq EG) in Hb].
    destruct (L _ _ EG) as (q'&D&I&Hq'&Hok). assert (q' = q) as -> by congruence.
    pose proof (pm_buf _ _ _ _ _ _ Hok) as Hx. rewrite Hb in Hx. exists I. split_and!; [by destruct Hx..|by eapply Hbne]. }
  split; [done| | | | | |].
  - intros jp bj Hj. destruct (HG _ _ Hj) as [Hj' Hl]. destruct (decide (jp = ip)) as [->|Hne].
    + rewrite (Hl eq_refl) in Hlive. destruct Hlive as (D&I&Hok). assert (bj = base) as -> by congruence. by exists p', D, I.
    + destruct (L _ _ Hj') as (q&D&I&Hq&Hok). exists q, D, I.
      split; [by rewrite (fr_others _ _ _ _ _ _ _ Hfr jp Hne)|].
      destruct (F ip jp p q) as [? ?]; [done|by exists base|by exists bj|done|done|].
      eapply (pump_ok_other ip s H p s' H' p'); try done. intros b. by apply (Hbne jp q).
  - intros jp q Hq HGj. destruct (decide (jp = ip)) as [->|Hne].
    + assert (q = p') as -> by congruence. destruct live; [|done]. unfold G' in HGj. congruence.
    + apply (R jp); [by apply Hback|]. by rewrite <-HGne.
  - assert (forall jp q b, jp <> ip -> ps_pumps s' !! jp = Some q -> p_buf p' = Some b -> p_buf q = Some b -> False) as Hx.
    { intros jp q b Hne Hq Hb' Hb. destruct (Huse jp q b Hne (Hback _ _ Hq Hne) Hb) as (J&HJ).
      apply (fr_bufs _ _ _ _ _ _ _ Hfr) in HJ as (_&_&?). done. }
    intros i j q1 q2 b H1 H2 Hb1 Hb2. destruct (decide (i = ip)) as [->|Hi], (decide (j = ip)) as [->|Hj]; [done| | |].
    + exfalso. assert (q1 = p') as -> by congruence. eauto.
    + exfalso. assert (q2 = p') as -> by congruence. eauto.
    + eapply O; eauto.
  - assert (forall jp q, jp <> ip -> is_Some (G' !! jp) -> ps_pumps s' !! jp = Some q ->
      from_fd p' <> from_fd q /\ to_fd p' <> to_fd q) as Hx.
    { intros jp q Hne Hg Hq. eapply same_ends_ne; [apply Hfr|]. rewrite HGne in Hg by done.
      apply (F ip jp); [done|by exists base|done|done|by apply Hback]. }
    intros i j q1 q2 Hij H1 H2 Hq1 Hq2. destruct (decide (i = ip)) as [->|Hi], (decide (j = ip)) as [->|Hj]; [done| | |].
    + assert (q1 = p') as -> by congruence. eauto.
    + assert (q2 = p') as -> by congruence. destruct (Hx i q1) as [? ?]; [done..|]. split; congruence.
    + rewrite HGne in H1, H2 by done. eapply (F i j); eauto.
  - intros b Hb. destruct (decide (b ∈ ps_cache s')) as [?|Hc]; [by left|right].
    destruct (decide (p_buf p' = Some b)) as [Hb'|Hb']; [by exists ip, p'|].
    destruct Hb as [J HJ]. destruct (proj2 (fr_bufs _ _ _ _ _ _ _ Hfr b J)) as (HJ'&Hc'&Hpb); [done|].
    destruct (K b) as [?|(jp&q&Hq&Hqb)]; [by exists J|done|]. exists jp, q. split; [|done].
    rewrite (fr_others _ _ _ _ _ _ _ Hfr); [done|]. intros ->. congruence.
  - rewrite (fr_splice _ _ _ _ _ _ _ Hfr). intros Hm. destruct (M Hm) as (_&_&_&->). by rewrite lookup_empty in Hip.
Qed.

(** *** A new pump *)
Definition new_pump p : iv_fd_pump := mk_pump (from_fd p) (to_fd p) (relay_eof p) None 0 false 0.
Definition may_init G s ip p : Prop :=
  G !! ip = None /\ outside s (from_fd p) /\ outside s (to_fd p) /\ to_fd p ∉ k_shut (view s) /\
  forall jp q, is_Some (G !! jp) -> ps_pumps s !! jp = Some q -> from_fd p <> from_fd q /\ to_fd p <> to_fd q.

(** Adding an idle pump to a thread whose pumps are in order. *)
Lemma pumps_new G s H ip p base : pumps_at G s H -> ps_splice s <> -1 -> G !! ip = None ->
  outside s (from_fd p) -> outside s (to_fd p) -> to_fd p ∉ k_shut (view s) ->
  base = (rd_of (from_fd p) (view s), wr_of (to_fd p) (view s)) ->
  (forall jp q, is_Some (G !! jp) -> ps_pumps s !! jp = Some q -> from_fd p <> from_fd q /\ to_fd p <> to_fd q) ->
  pumps_at (<[ip := base]> G) (with_pump ip (new_pump p) s) H.
Proof.
  intros [P L R O F K M] Hmode Hip O1 O2 Hsh -> Hdis.
  assert (forall jp q, ps_pumps (with_pump ip (new_pump p) s) !! jp = Some q ->
    (jp = ip /\ q = new_pump p) \/ (jp <> ip /\ ps_pumps s !! jp = Some q)) as Hl.
  { intros jp q. cbn. rewrite lookup_insert. case_decide; [intros [= <-]; by left|by right]. }
  split; [by apply pool_with_pump| | | | | |].
  - intros jp bj. rewrite lookup_insert. case_decide as E.
    + subst jp. intros [= <-]. exists (new_pump p), [], []. split; [apply lookup_with_pump|]. apply pump_ok_with.
      split; cbn; rewrite ?app_nil_r; try done; [by left|]. split; [done|by intros []].
    + intros Hj. destruct (L _ _ Hj) as (q&D&I&Hq&Hok). exists q, D, I. split; [cbn; by rewrite lookup_insert_ne|].
      by apply pump_ok_with.
  - intros jp q Hq HG. apply Hl in Hq as [[-> ->]|[Hne Hq]]; [done|]. rewrite lookup_insert_ne in HG by done. eauto.
  - intros i j q1 q2 b H1 H2 Hb1 Hb2. apply Hl in H1 as [[-> ->]|[? ?]]; [done|]. apply Hl in H2 as [[-> ->]|[? ?]]; [done|]. eauto.
  - intros i j q1 q2 Hij G1 G2 H1 H2. apply Hl in H1 as [[-> ->]|[Hi Hq1]], H2 as [[-> ->]|[Hj Hq2]]; [done| | |].
    + rewrite lookup_insert_ne in G2 by done. cbn. eauto.
    + rewrite lookup_insert_ne in G1 by done. cbn. destruct (Hdis i q1 G1 Hq1). split; congruence.
    + rewrite lookup_insert_ne in G1, G2 by done. eauto.
  - intros b Hb. destruct (K b Hb) as [?|(jp&q&Hq&Hqb)]; [by left|right]. exists jp, q. split; [|done].
    cbn. rewrite lookup_insert_ne; [done|]. intros <-. by rewrite (R _ _ Hq Hip) in Hqb.
  - done.
Qed.

Lemma pumps_bands G s H l : pumps_at G s H -> pumps_at G (set_ps_bands l s) H.
Proof.
  intros [P L R O F K M]. split; try done; [by apply (pool_view s)|]. intros ip base Hg.
  destruct (L _ _ Hg) as (p&D&I&Hp&[? ? ? ? ? ? ? ?]). exists p, D, I. split; [done|by split].
Qed.

Lemma upd_with ip q (g : iv_fd_pump -> iv_fd_pump) s :
  upd_pump ip g (with_pump ip q s) = Ok (tt, with_pump ip (g q) s).
Proof.
  rewrite (upd_pump_Ok _ ip q g (lookup_with_pump ip q s)). unfold with_pump, set_ps_pumps. cbn. by rewrite insert_insert_eq.
Qed.

Lemma pump_init_spec G s H ip p : pumps_at G s H -> may_init G s ip p ->
  wp nofatal (iv_fd_pump_init ip) (with_pump ip p s) (fun _ s' => exists H',
    pumps_at (<[ip := (rd_of (from_fd p) (view s), wr_of (to_fd p) (view s))]> G) s' H').
Proof.
  intros Hat (Hip&O1&O2&Hsh&Hdis). unfold iv_fd_pump_init. wprim. set (s0 := with_pump ip p s). wbind.
  apply (wp_mono _ _ _ (fun _ s1 => ps_splice s1 <> -1 /\ ps_pumps s1 !! ip = Some p /\
    outside s1 (from_fd p) /\ outside s1 (to_fd p) /\ to_fd p ∉ k_shut (view s1) /\
    rd_of (from_fd p) (view s1) = rd_of (from_fd p) (view s) /\ wr_of (to_fd p) (view s1) = wr_of (to_fd p) (view s) /\
    (forall jp q, is_Some (G !! jp) -> ps_pumps s1 !! jp = Some q -> jp <> ip -> from_fd p <> from_fd q /\ to_fd p <> to_fd q) /\
    exists s2 H2, pumps_at G s2 H2 /\ s1 = with_pump ip p s2)).
  - destruct (Z.eqb_spec (ps_splice s0) (-1)) as [Em|Em]; cbn [when].
    + destruct (ga_mode _ _ _ Hat Em) as (Hb&Hc&Hn&HG).
      eapply wp_mono; [by apply (check_splice_spec s0)|]. cbv beta.
      intros _ s1 ([S1 S2 S3 S4]&H1&Hp1&Hown). destruct (S4 (from_fd p) O1) as [O1' (R1&_)].
      destruct (S4 (to_fd p) O2) as [O2' (_&W2&_&Sh2)].
      split_and!; [by destruct S3 as [-> | ->]|rewrite S1; apply lookup_with_pump|done|done|by rewrite Sh2|done|done| |].
      { intros jp q [? Hg]. by rewrite HG, lookup_empty in Hg. }
      exists (set_ps_pumps (ps_pumps s) s1), H1. split.
      * split; [by apply (pool_view s1)| | | | | |].
        -- intros jp bj. by rewrite HG, lookup_empty.
        -- intros jp q Hq Hg. by eapply (ga_rest _ _ _ Hat).
        -- apply (ga_owner _ _ _ Hat).
        -- apply (ga_fds _ _ _ Hat).
        -- intros b Hb'. left. by apply Hown.
        -- cbn. intros E. by destruct S3 as [S3|S3]; rewrite S3 in E.
      * unfold with_pump. cbn in S1 |- *. rewrite <-S1. by destruct s1.
    + eapply wp_Ok; [reflexivity|]. split_and!; try done; [apply lookup_with_pump| |by exists s, H].
      intros jp q Hg Hq Hne. apply (Hdis jp); [done|]. cbn in Hq. by rewrite lookup_insert_ne in Hq.
  - intros _ s1 (Hm&Hpu&O1'&O2'&Hsh'&Er&Ew&Hdis'&s2&H2&Hat2&->).
    wrun (upd_with ip p (set_p_buf None) s2). wrun (upd_with ip (set_p_buf None p) (set_p_bytes 0) s2).
    wrun (upd_with ip (set_p_bytes 0 (set_p_buf None p)) (set_p_full false) s2).
    wrun (upd_with ip (set_p_full false (set_p_bytes 0 (set_p_buf None p))) (set_p_saw_fin 0) s2).
    eapply wp_Ok; [reflexivity|]. exists H2. rewrite <-Er, <-Ew.
    apply (pumps_bands _ (with_pump ip (new_pump p) s2)), pumps_new; try done.
    intros jp q Hg Hq. destruct (decide (jp = ip)) as [->|Hne]; [by rewrite Hip in Hg; destruct Hg|].
    apply (Hdis' jp); [done| |done]. cbn. by rewrite lookup_insert_ne.
Qed.

(** ** Runs of a client *)
Inductive reachable : ghost -> St -> Prop :=
  | re_start s0 s : ps_pumps s0 = ∅ -> ps_bufs s0 = ∅ -> ps_splice s0 = -1 ->
      iv_fd_pump_tls_init_thread s0 = Ok (tt, s) -> reachable ∅ s
  | re_init G s ip p s' : reachable G s -> may_init G s ip p -> iv_fd_pump_init ip (with_pump ip p s) = Ok (tt, s') ->
      reachable (<[ip := (rd_of (from_fd p) (view s), wr_of (to_fd p) (view s))]> G) s'
  | re_pump G s ip r s' : reachable G s -> is_Some (G !! ip) -> iv_fd_pump_pump ip s = Ok (r, s') ->
      reachable (if r =? -1 then delete ip G else G) s'
  | re_destroy G s ip s' : reachable G s -> is_Some (ps_pumps s !! ip) -> iv_fd_pump_destroy ip s = Ok (tt, s') ->
      reachable (delete ip G) s'
  | re_free G s ip : reachable G s -> G !! ip = None -> reachable G (set_ps_pumps (delete ip (ps_pumps s)) s)
  | re_world G s w : reachable G s -> pv w = view s -> reachable G (set_ps_w w s).

Lemma destroy_spec G s H ip p : pumps_at G s H -> ps_pumps s !! ip = Some p ->
  wp nofatal (iv_fd_pump_destroy ip) s (fun _ s' => exists H', pumps_at (delete ip G) s' H').
Proof.
  intros Hat Hpu. unfold iv_fd_pump_destroy. wrun (load_pump_Ok s ip p Hpu). wbind.
  apply (wp_mono _ _ _ (fun _ s1 => pumps_at G s1 H /\ ps_pumps s1 !! ip = Some p)).
  { destruct (negb _); cbn [when]; (eapply wp_Ok; [reflexivity|]); [split; [by apply pumps_bands|done]|done]. }
  intros _ s1 [Hat1 Hpu1]. destruct (G !! ip) as [base|] eqn:EG.
  - destruct (ga_live _ _ _ Hat1 _ _ EG) as (p'&D&I&Hp'&Hok). assert (p' = p) as -> by congruence.
    eapply wp_mono; [apply (release_spec ip base s1 H p D I); split; [apply Hat1|done|done]|].
    cbv beta zeta. intros _ s2 (_&H2&Hp2&Hpu2&Hfr&_). exists H2.
    by apply (pumps_lift G s1 H ip p (set_p_buf None p) s2 H2 base false).
  - unfold release_buf. wrun (load_pump_Ok s1 ip p Hpu1). rewrite (ga_rest _ _ _ Hat1 _ _ Hpu1 EG).
    eapply wp_Ok; [reflexivity|]. exists H. by rewrite delete_id.
Qed.

Lemma pump_spec G s H ip : pumps_at G s H -> is_Some (G !! ip) ->
  wp nofatal (iv_fd_pump_pump ip) s (fun r s' => (exists H', pumps_at (if r =? -1 then delete ip G else G) s' H') /\
    exists p', ps_pumps s' !! ip = Some p' /\ pump_result ip p' s s' r /\ (r = -1 \/ p_bytes p' = 0 -> p_buf p' = None)).
Proof.
  intros Hat [base HG]. destruct (ga_live _ _ _ Hat _ _ HG) as (p&D&I&Hpu&Hok).
  eapply wp_mono; [apply (pump_pump_spec ip base s H p D I); split; [apply Hat|done|done]|]. cbv beta.
  intros r s' (H'&p'&Hp'&Hpu'&Hfr&Hres&Hrel&Hlive). split; [|by exists p']. exists H'.
  destruct (Z.eqb_spec r (-1)) as [->|Hr].
  - apply (pumps_lift G s H ip p p' s' H' base false); try done. apply Hrel. by left.
  - apply (pumps_lift G s H ip p p' s' H' base true); try done. by apply Hlive.
Qed.

Lemma reachable_ok G s : reachable G s -> exists H, pumps_at G s H.
Proof.
  induction 1 as [s0 s Hp Hb Hm E|G s ip p s' _ [H IH] Hmay E|G s ip r s' _ [H IH] Hip E|G s ip s' _ [H IH] [p Hp] E|
    G s ip _ [H IH] Hip|G s w _ [H IH] Ev].
  - injection E as <-. exists ∅. split; cbn; try done.
    + by apply pool_empty.
    + intros ip p. by rewrite Hp.
    + intros ip jp p q b. by rewrite Hp.
    + intros ip jp p q. by rewrite Hp.
    + intros b [? Hx]. by rewrite lookup_empty in Hx.
  - exact (wp_result _ _ _ _ _ _ (pump_init_spec _ _ _ _ _ IH Hmay) E).
  - exact (proj1 (wp_result _ _ _ _ _ _ (pump_spec _ _ _ _ IH Hip) E)).
  - exact (wp_result _ _ _ _ _ _ (destroy_spec _ _ _ _ _ IH Hp) E).
  - exists H. destruct IH as [P L R O F K M].
    assert (forall jp q, delete ip (ps_pumps s) !! jp = Some q -> ps_pumps s !! jp = Some q) as Hl.
    { intros jp q [_ ?]%lookup_delete_Some. done. }
    split; cbn; try done; [by apply (pool_view s)| | | | |]; cbn in *.
    + intros jp base Hj. destruct (L _ _ Hj) as (q&D&I&Hq&[? ? ? ? ? ? ? ?]). exists q, D, I.
      split; [|by split]. rewrite lookup_delete_ne; [done|]. intros <-. congruence.
    + intros jp q Hq%Hl. by apply R.
    + intros i j q1 q2 b ?%Hl ?%Hl. by eapply O.
    + intros i j q1 q2 ? ? ? ?%Hl ?%Hl. by eapply (F i j).
    + intros b Hb. destruct (K b Hb) as [?|(jp&q&Hq&Hqb)]; [by left|right]. exists jp, q. split; [|done].
      rewrite lookup_delete_ne; [done|]. intros <-. by rewrite (R _ _ Hq Hip) in Hqb.
  - exists H. assert (same_view s (set_ps_w w s)) as Hsv by (by exists w). destruct IH as [P L R O F K M]. split; try done.
    + by eapply same_view_pool.
    + intros jp base Hj. destruct (L _ _ Hj) as (q&D&I&Hq&Hok). exists q, D, I. split; [done|].
      by destruct (focus_same_view jp base s (set_ps_w w s) H q D I) as [[] _]; [split|done|].
Qed.
(** ** The end of the thread *)
Lemma pool_dequeue s H b q : pool_ok s H -> ps_cache s = b :: q ->
  let s1 := set_ps_cache q (set_ps_num_bufs (ps_num_bufs s - 1) s) in
  __buf_dequeue s = Ok (Some b, s1) /\ pool_ok s1 H /\ H !! b = Some [] /\ b ∉ q.
Proof.
  intros Hp Hq. unfold __buf_dequeue. msimpl. rewrite Hq. cbn. split; [done|].
  destruct Hp as [P1 P2 P3 P4 P5 [P6 P7]]. rewrite Hq in P4, P5, P6. apply NoDup_cons in P5 as [Hbq Hnd]. cbn in P6.
  split_and!; [|apply P4, elem_of_cons; by left|done].
  split; cbn; try done; [intros c Hc; apply P4, elem_of_cons; by right|lia].
Qed.

Lemma purge_loop_spec q : forall s H, pool_ok s H -> ps_cache s = q ->
  wp nofatal (buf_purge_loop (Datatypes.S (length q))) s (fun _ s' => ps_cache s' = [] /\ ps_num_bufs s' = 0 /\
    ps_pumps s' = ps_pumps s /\ (forall n, outside s n -> outside s' n /\ same_fd s s' n) /\
    (forall b, ps_bufs s' !! b = if decide (b ∈ q) then None else ps_bufs s !! b) /\
    forall n, n ∈ k_open (view s') -> n ∈ k_open (view s) /\
      forall b r w, b ∈ q -> ps_bufs s !! b = Some (BPipe r w) -> n <> r /\ n <> w).
Proof.
  induction q as [|b q IH]; intros s H Hp Hq.
  - assert (__buf_dequeue s = Ok (None, s)) as E by (unfold __buf_dequeue; msimpl; by rewrite Hq).
    change (buf_purge_loop (Datatypes.S (length (@nil loc)))) with
      (b ← __buf_dequeue; match b with None => mret tt | Some b => __buf_free b;; buf_purge_loop (length (@nil loc)) end).
    wrun E. eapply wp_Ok; [reflexivity|]. destruct (po_num _ _ Hp) as [En _]. rewrite Hq in En.
    split_and!; try done. intros n Hn. split; [done|]. by intros b r w ?%not_elem_of_nil.
  - destruct (pool_dequeue s H b q Hp Hq) as (E&Hp1&Hb&Hbq).
    change (buf_purge_loop (Datatypes.S (length (b :: q)))) with
      (b ← __buf_dequeue; match b with None => mret tt | Some b => __buf_free b;; buf_purge_loop (Datatypes.S (length q)) end).
    wrun E. cbv iota. set (s1 := set_ps_cache _ _) in *. wbind. eapply wp_mono; [by apply (buf_free_spec s1 H b [])|]. cbv beta. intros _ s2 (Hc2&Ec2&Hp2&_&Eb2&Ho2).
    eapply wp_mono; [by apply (IH s2 (delete b H))|]. cbv beta. intros _ s3 (A&B&C&D&E3&F).
    split_and!; [done|done|by rewrite C, (ca_pumps _ _ Hc2)| | |].
    + intros n Hn. destruct (ca_fds _ _ Hc2 n Hn) as [Hn2 S2]. destruct (D n Hn2) as [Hn3 S3]. split; [done|].
      change (same_fd s s2 n) in S2. destruct S2 as (?&?&?&?), S3 as (?&?&?&?). split_and!; [congruence|congruence|tauto|tauto].
    + intros c. rewrite E3, Eb2. destruct (decide (c = b)) as [->|Hcb].
      * rewrite decide_False by done. rewrite lookup_delete_eq, decide_True by apply list_elem_of_here. done.
      * rewrite lookup_delete_ne by done. destruct (decide (c ∈ q)) as [Hi|Hi].
        -- by rewrite decide_True by (by apply elem_of_cons; right).
        -- by rewrite decide_False by (by intros [?|?]%elem_of_cons).
    + intros n Hn. destruct (F n Hn) as [Hn2 Fq]. destruct (Ho2 n Hn2) as [Hn1 Fb]. split; [done|].
      intros c r w [->|Hc]%elem_of_cons Hx; [by apply Fb|]. apply (Fq c); [done|]. rewrite Eb2, lookup_delete_ne; [done|].
      by intros ->.
Qed.

(** ** What holds of every run *)

(** C17. A pump neither loses nor invents nor reorders a byte: in every reachable
    state, what was read from [from_fd] since the pump was initialised is what was
    written to [to_fd], followed by the [bytes] bytes the buffer still holds; it
    says it is done only when nothing is left; it shuts [to_fd] down exactly when it
    is done and was told to, and it saw an end only where the kernel reported one. *)
Theorem iv_fd_pump_streams G s ip R0 W0 : reachable G s -> G !! ip = Some (R0, W0) ->
  exists p D I, ps_pumps s !! ip = Some p /\
    rd_of (from_fd p) (view s) = R0 ++ D ++ I /\ wr_of (to_fd p) (view s) = W0 ++ D /\
    p_bytes p = Z.of_nat (length I) /\
    iv_fd_pump_is_done ip s = Ok (p_saw_fin p =? 2, s) /\ (p_saw_fin p = 2 -> I = []) /\
    (to_fd p ∈ k_shut (view s) <-> p_saw_fin p = 2 /\ relay_eof p = true) /\
    (p_saw_fin p <> 0 -> from_fd p ∈ k_eof (view s)).
Proof.
  intros Hr HG. destruct (reachable_ok _ _ Hr) as [H Hat]. destruct (ga_live _ _ _ Hat _ _ HG) as (p&D&I&Hp&[? ? ? ? Hf ? ? ?]).
  exists p, D, I. split_and!; try done.
  - unfold iv_fd_pump_is_done. by rewrite (bind_Ok _ _ _ _ _ (load_pump_Ok s ip p Hp)).
  - intros E. destruct Hf as [[? _]|[[? _]|[_ ?]]]; [lia|lia|done].
Qed.

(** C38. Every call a client may make runs to its end: no buffer is used that was
    freed or is not there, no byte of a buffer is written out that was not read in,
    the loops around interrupted calls end, and no fatal error is raised. *)
Theorem iv_fd_pump_safe G s : reachable G s ->
  (forall ip p, may_init G s ip p -> wp nofatal (iv_fd_pump_init ip) (with_pump ip p s) (fun _ _ => True)) /\
  (forall ip, is_Some (G !! ip) -> wp nofatal (iv_fd_pump_pump ip) s (fun _ _ => True)) /\
  (forall ip, is_Some (ps_pumps s !! ip) -> wp nofatal (iv_fd_pump_destroy ip) s (fun _ _ => True)) /\
  wp nofatal iv_fd_pump_tls_deinit_thread s (fun _ _ => True).
Proof.
  intros Hr. destruct (reachable_ok _ _ Hr) as [H Hat]. split_and!.
  - intros ip p Hm. eapply wp_mono; [by eapply pump_init_spec|done].
  - intros ip Hip. eapply wp_mono; [by eapply pump_spec|done].
  - intros ip [p Hp]. eapply wp_mono; [by eapply destroy_spec|done].
  - unfold iv_fd_pump_tls_deinit_thread, buf_purge. wprim.
    eapply wp_mono; [apply (purge_loop_spec _ s H); [apply Hat|done]|done].
Qed.

(** What a call of [iv_fd_pump_pump] returns and asks for: -1 after an error, with
    the bands as they were; 0 when everything was relayed, with no band asked for; 1
    otherwise, with the bands that the pump waits for, of which there is always one.
    The buffer is given back as soon as it holds nothing. *)
Theorem iv_fd_pump_pump_result G s ip : reachable G s -> is_Some (G !! ip) ->
  exists r s' p', iv_fd_pump_pump ip s = Ok (r, s') /\ ps_pumps s' !! ip = Some p' /\
    pump_result ip p' s s' r /\ (r = -1 \/ p_bytes p' = 0 -> p_buf p' = None).
Proof.
  intros Hr Hip. destruct (reachable_ok _ _ Hr) as [H Hat]. pose proof (pump_spec G s H ip Hat Hip) as Hwp.
  unfold wp in Hwp. destruct (iv_fd_pump_pump ip s) as [[r s']| | |]; try done. destruct Hwp as [_ (p'&?&?&?)]. by exists r, s', p'.
Qed.

(** Buffers are never leaked and never shared: the cache counts its buffers, keeps
    at most [MAX_CACHED_BUFS], all different, and a cached pipe is empty; every buffer
    that exists is in the cache or belongs to one pump, and not to two. *)
Theorem iv_fd_pump_cache G s : reachable G s ->
  ps_num_bufs s = Z.of_nat (length (ps_cache s)) /\ ps_num_bufs s <= MAX_CACHED_BUFS /\ NoDup (ps_cache s) /\
  (forall b r w, b ∈ ps_cache s -> ps_bufs s !! b = Some (BPipe r w) -> wr_of w (view s) = rd_of r (view s)) /\
  (forall b, is_Some (ps_bufs s !! b) ->
     b ∈ ps_cache s \/ exists ip p, ps_pumps s !! ip = Some p /\ p_buf p = Some b) /\
  (forall ip p b, ps_pumps s !! ip = Some p -> p_buf p = Some b -> b ∉ ps_cache s /\ is_Some (ps_bufs s !! b) /\
     forall jp q, ps_pumps s !! jp = Some q -> p_buf q = Some b -> jp = ip).
Proof.
  intros Hr. destruct (reachable_ok _ _ Hr) as [H [P L R O F K M]]. destruct (po_num _ _ P) as [? ?].
  split_and!; [done|done|apply P| | |].
  - intros b r w Hb Hx. pose proof (holds_of s H b _ [] P (po_cache _ _ P _ Hb) Hx) as Hh.
    destruct Hh as (_&_&_&_&_&Hw). by rewrite app_nil_r in Hw.
  - intros b [x Hx]. destruct (po_holds _ _ P _ _ Hx) as (I&HI&_). apply K. by exists I.
  - intros ip p b Hp Hb. destruct (G !! ip) as [base|] eqn:EG; [|by rewrite (R _ _ Hp EG) in Hb].
    destruct (L _ _ EG) as (p'&D&I&Hp'&Hok). assert (p' = p) as -> by congruence.
    pose proof (pm_buf _ _ _ _ _ _ Hok) as Hx. rewrite Hb in Hx. destruct Hx as [HI Hc].
    split_and!; [done|by eapply po_dom|]. intros jp q Hq Hqb. by eapply O.
Qed.

(** A thread that ends after its pumps leaves no buffer behind, no descriptor of a
    pipe open, and the clients' descriptors as they were. *)
Theorem iv_fd_pump_purge G s : reachable G s -> G = ∅ ->
  wp nofatal iv_fd_pump_tls_deinit_thread s (fun _ s' => ps_bufs s' = ∅ /\ ps_num_bufs s' = 0 /\ ps_cache s' = [] /\
    (forall n, pool_fd s n -> n ∉ k_open (view s')) /\
    forall n, outside s n -> n ∈ k_open (view s') /\ same_fd s s' n).
Proof.
  intros Hr ->. destruct (reachable_ok _ _ Hr) as [H [P L R O F K M]].
  assert (forall b, is_Some (ps_bufs s !! b) -> b ∈ ps_cache s) as Hall.
  { intros b [x Hx]. destruct (po_holds _ _ P _ _ Hx) as (I&HI&_). destruct (K b) as [?|(ip&p&Hp&Hb)]; [by exists I|done|].
    by rewrite (R ip p Hp (lookup_empty _)) in Hb. }
  unfold iv_fd_pump_tls_deinit_thread, buf_purge. wprim.
  eapply wp_mono; [by apply (purge_loop_spec _ s H)|]. cbv beta. intros _ s' (A&B&_&D&E&N).
  split_and!; [|done|done| |].
  - apply map_eq. intros b. rewrite E, lookup_empty. case_decide as Hb; [done|].
    destruct (ps_bufs s !! b) eqn:Ex; [|done]. exfalso. apply Hb, Hall. by rewrite Ex.
  - intros n (b&r&w&Hb&Hn) Ho. destruct (N n Ho) as [_ Hne]. destruct (Hne b r w) as [? ?]; [apply Hall; by rewrite Hb|done|].
    by destruct Hn.
  - intros n Hn. destruct (D n Hn) as [[? _] ?]. done.
Qed.
End pump.

(** ** A run: five bytes, then one, then the end *)
Definition after {S A} (m : M S A) (s : S) : S := match m s with Ok (_, s) => s | _ => s end.
Definition demo_input : gmap Z (list (list byte)) :=
  {[10 := [[Byte.x01; Byte.x02; Byte.x03; Byte.x04; Byte.x05]; []; [Byte.x06]]]}.
Definition demo_new (splice : bool) : pump_state psim :=
  mk_pst ∅ ∅ 7 [] (-1) true [] (mk_psim (mk_kv ∅ ∅ {[10; 11]} ∅ ∅ ∅) demo_input splice (if splice then 0 else 1)).
Definition demo_start (splice : bool) : pump_state psim := after iv_fd_pump_tls_init_thread (demo_new splice).
Definition demo_pump : iv_fd_pump := mk_pump 10 11 true None 0 false 0.
Definition demo_run (splice : bool) (n : nat) : pump_state psim :=
  Nat.iter n (after (iv_fd_pump_pump 1%positive))
    (after (iv_fd_pump_init 1%positive) (with_pump 1%positive demo_pump (demo_start splice))).

Lemma reachable_conv {W} `{!PumpKernel W, HL : !PumpLaws W} G G' (s : pump_state W) : reachable G s -> G = G' -> reachable G' s.
Proof. by intros ? <-. Qed.
Lemma demo_init splice : reachable {[1%positive := ([], [])]} (demo_run splice 0).
Proof.
  eapply reachable_conv.
  - apply (re_init ∅ (demo_start splice) 1%positive demo_pump); [|split_and!; try done|].
    + by apply (re_start (demo_new splice)).
    + split; [apply (bool_decide_unpack _); destruct splice; vm_compute; exact I|]. by intros (b&r&w&E&_).
    + split; [apply (bool_decide_unpack _); destruct splice; vm_compute; exact I|]. by intros (b&r&w&E&_).
    + by destruct splice; vm_compute.
  - by destruct splice; vm_compute.
Qed.
Lemma demo_step splice n r : reachable {[1%positive := ([], [])]} (demo_run splice n) ->
  match iv_fd_pump_pump 1%positive (demo_run splice n) with Ok (r', _) => r' = r | _ => False end -> r <> -1 ->
  reachable {[1%positive := ([], [])]} (demo_run splice (Datatypes.S n)).
Proof.
  intros Hr Hm Hne. change (demo_run splice (Datatypes.S n)) with (after (iv_fd_pump_pump 1%positive) (demo_run splice n)).
  unfold after. destruct (iv_fd_pump_pump 1%positive (demo_run splice n)) as [[r' s']| | |] eqn:E; try done. subst r'.
  eapply reachable_conv; [eapply (re_pump _ _ 1%positive r s' Hr)|].
  - by exists ([], []).
  - done.
  - by destruct (Z.eqb_spec r (-1)).
Qed.
Lemma demo_two splice : reachable {[1%positive := ([], [])]} (demo_run splice 2).
Proof. do 2 (apply (demo_step _ _ 1); [|by destruct splice; vm_compute|done]). apply demo_init. Qed.
Lemma demo_four splice : reachable {[1%positive := ([], [])]} (demo_run splice 4).
Proof.
  apply (demo_step _ _ 0); [|by destruct splice; vm_compute|done].
  apply (demo_step _ _ 1); [|by destruct splice; vm_compute|done]. apply demo_two.
Qed.

(** After one call two bytes are still in the buffer; after four everything is relayed. *)
Lemma iv_fd_pump_streams_witness : exists p D I, ps_pumps (demo_run true 4) !! 1%positive = Some p /\
  rd_of (from_fd p) (view (demo_run true 4)) = [] ++ D ++ I /\ wr_of (to_fd p) (view (demo_run true 4)) = [] ++ D /\
  length D = 6%nat.
Proof.
  destruct (iv_fd_pump_streams {[1%positive := ([], [])]} (demo_run true 4) 1%positive [] [] (demo_four true) eq_refl)
    as (p&D&I&Hp&Hr&Hw&Hb&_&Hf&_).
  assert (rd_of 10 (view (demo_run true 4)) = [Byte.x01; Byte.x02; Byte.x03; Byte.x04; Byte.x05; Byte.x06]) as E by by vm_compute.
  assert (p = mk_pump 10 11 true None 0 false 2) as -> by (enough (Some p = Some (mk_pump 10 11 true None 0 false 2)) by congruence; by rewrite <-Hp; vm_compute).
  exists (mk_pump 10 11 true None 0 false 2), D, I. split_and!; [exact Hp|exact Hr|exact Hw|].
  rewrite (Hf eq_refl), app_nil_r in Hr. change (rd_of 10 (view (demo_run true 4)) = D) in Hr. rewrite E in Hr. by rewrite <-Hr.
Defined.
Lemma iv_fd_pump_safe_witness : wp nofatal (iv_fd_pump_pump 1%positive) (demo_run true 2) (fun _ _ => True).
Proof.
  destruct (iv_fd_pump_safe {[1%positive := ([], [])]} (demo_run true 2) (demo_two true)) as (_&Hp&_).
  apply Hp. by exists ([], []).
Defined.
Lemma iv_fd_pump_pump_result_witness : exists r s' p', iv_fd_pump_pump 1%positive (demo_run false 2) = Ok (r, s') /\
  ps_pumps s' !! 1%positive = Some p' /\ pump_result 1%positive p' (demo_run false 2) s' r /\
  (r = -1 \/ p_bytes p' = 0 -> p_buf p' = None).
Proof.
  apply (iv_fd_pump_pump_result {[1%positive := ([], [])]} (demo_run false 2) 1%positive (demo_two false)).
  by exists ([], []).
Defined.
Lemma iv_fd_pump_cache_witness : ps_num_bufs (demo_run true 2) = 2 /\
  ps_num_bufs (demo_run true 2) = Z.of_nat (length (ps_cache (demo_run true 2))).
Proof.
  split; [vm_compute; reflexivity|]. exact (proj1 (iv_fd_pump_cache {[1%positive := ([], [])]} (demo_run true 2) (demo_two true))).
Defined.
(** The pump destroyed, its thread ends. *)
Definition demo_end : pump_state psim := after (iv_fd_pump_destroy 1%positive) (demo_run true 2).
Lemma demo_end_reachable : reachable ∅ demo_end.
Proof.
  eapply reachable_conv; [apply (re_destroy _ (demo_run true 2) 1%positive demo_end (demo_two true))|].
  - by eexists; vm_compute.
  - by vm_compute.
  - by vm_compute.
Qed.
Lemma iv_fd_pump_purge_witness : wp nofatal iv_fd_pump_tls_deinit_thread demo_end (fun _ s' => ps_bufs s' = ∅ /\
  ps_num_bufs s' = 0 /\ ps_cache s' = [] /\ (forall n, pool_fd demo_end n -> n ∉ k_open (view s')) /\
  forall n, outside demo_end n -> n ∈ k_open (view s') /\ same_fd demo_end s' n).
Proof. exact (iv_fd_pump_purge ∅ demo_end demo_end_reachable eq_refl). Defined.
