(* ===== verification/Tls.v ===== *)
(** * Per-thread state of the modules (iv_tls.c)

    Modules ask for room behind [struct iv_state] before the first [iv_init];
    every thread then gets one block, in which each module finds its own part at
    the offset given out when it registered. *)

From S2P Require Import Prelude ISeq.

Local Open Scope Z_scope.

(** [struct iv_tls_user]; the hooks themselves are the modules' own. *)
Record iv_tls_user := mk_tls_user {
  sizeof_state : Z; has_init_thread : bool; has_deinit_thread : bool; state_offset : Z }.
Definition set_state_offset (v : Z) (u : iv_tls_user) : iv_tls_user :=
  mk_tls_user (sizeof_state u) (has_init_thread u) (has_deinit_thread u) v.

(** The static variables, the users' objects, and what the hooks work on. *)
Record tls_state (W : Type) := mk_tls {
  tl_inited : bool; tl_last_offset : Z; tl_users : iseq; tl_objs : gmap loc iv_tls_user; tl_w : W }.
Arguments mk_tls {_}.
Arguments tl_inited {_} _.
Arguments tl_last_offset {_} _.
Arguments tl_users {_} _.
Arguments tl_objs {_} _.
Arguments tl_w {_} _.

Definition u64 (z : Z) : Z := z `mod` 2 ^ 64.
(** [(x + 15) & ~15] in [size_t], stored in an [int]. *)
Definition round_up (x : Z) : Z := s32 (Z.land (u64 (x + 15)) (u64 (Z.lnot 15))).

Section tls.
Context {W : Type} (init_thread deinit_thread : loc -> Z -> W -> W).
Abbreviation St := (tls_state W).

Definition set_tl_inited (v : bool) (s : St) : St := mk_tls v (tl_last_offset s) (tl_users s) (tl_objs s) (tl_w s).
Definition set_tl_last_offset (v : Z) (s : St) : St := mk_tls (tl_inited s) v (tl_users s) (tl_objs s) (tl_w s).
Definition set_tl_users (v : iseq) (s : St) : St := mk_tls (tl_inited s) (tl_last_offset s) v (tl_objs s) (tl_w s).
Definition set_tl_objs (v : gmap loc iv_tls_user) (s : St) : St :=
  mk_tls (tl_inited s) (tl_last_offset s) (tl_users s) v (tl_w s).
Definition set_tl_w (v : W) (s : St) : St := mk_tls (tl_inited s) (tl_last_offset s) (tl_users s) (tl_objs s) v.

Definition load_user (itu : loc) : M St iv_tls_user := m ← gets tl_objs; deref (m !! itu).

Definition iv_tls_user_register (itu : loc) : M St unit :=
  inited ← gets tl_inited;
  if inited : bool then iv_fatal "iv_tls_user_register: called after iv_init"
  else
    off ← gets tl_last_offset;
    u ← load_user itu;
    modify (fun s => set_tl_objs (<[itu := set_state_offset off u]> (tl_objs s)) s);;
    modify (set_tl_last_offset (round_up (off + sizeof_state u)));;
    q ← gets tl_users;
    q ← deref (iq_add_tail itu q);
    modify (set_tl_users q).

Definition iv_tls_total_state_size : M St Z := gets tl_last_offset.

(** The two walks, in which [st] is the address of the thread's block. *)
Fixpoint run_init_hooks (st : Z) (l : list loc) : M St unit :=
  match l with
  | [] => mret tt
  | itu :: l =>
      u ← load_user itu;
      when (has_init_thread u) (modify (fun s => set_tl_w (init_thread itu (st + state_offset u) (tl_w s)) s));;
      run_init_hooks st l
  end.
Definition iv_tls_thread_init (st : Z) : M St unit :=
  modify (set_tl_inited true);;
  q ← gets tl_users;
  run_init_hooks st (members q).

Fixpoint run_deinit_hooks (st : Z) (l : list loc) : M St unit :=
  match l with
  | [] => mret tt
  | itu :: l =>
      u ← load_user itu;
      when (has_deinit_thread u) (modify (fun s => set_tl_w (deinit_thread itu (st + state_offset u) (tl_w s)) s));;
      run_deinit_hooks st l
  end.
Definition iv_tls_thread_deinit (st : Z) : M St unit :=
  q ← gets tl_users;
  run_deinit_hooks st (members q).

(** [st] is NULL in a thread that did not call [iv_init]. *)
Definition __iv_tls_user_ptr (st : option Z) (itu : loc) : M St (option Z) :=
  u ← load_user itu;
  if state_offset u =? 0 then iv_fatal "iv_tls_user_ptr: called on unregistered iv_tls_user"
  else mret (match st with Some st => Some (st + state_offset u) | None => None end).
(** [iv_get_state ()] is the calling thread's block. *)
Definition iv_tls_user_ptr (iv_get_state : option Z) (itu : loc) : M St (option Z) :=
  __iv_tls_user_ptr iv_get_state itu.

(** ** The layout *)

(** [l] laid out one after the other between [from] and [upto]. *)
Fixpoint laid_out (from : Z) (l : list iv_tls_user) (upto : Z) : Prop :=
  match l with
  | [] => upto = from
  | u :: l => state_offset u = from /\ 0 <= sizeof_state u /\
      exists next, from + sizeof_state u <= next < from + sizeof_state u + 16 /\ (16 | next) /\ laid_out next l upto
  end.

Record tls_ok (state_size : Z) (s : St) : Prop := {
  tk_queue : iq_ok (tl_users s);
  tk_users : exists us base, mapM (fun x => tl_objs s !! x) (members (tl_users s)) = Some us /\
    0 < state_size <= base /\ base < state_size + 16 /\ (16 | base) /\ laid_out base us (tl_last_offset s) }.

(** How much room a list of users can take. *)
Definition room (us : list iv_tls_user) : Z := foldr (fun u n => sizeof_state u + 15 + n) 0 us.

Lemma round_up_spec x : 0 <= x < 2 ^ 31 - 15 -> x <= round_up x < x + 16 /\ (16 | round_up x).
Proof.
  intros Hx. unfold round_up. assert (u64 (x + 15) = x + 15) as -> by (apply Z.mod_small; lia).
  assert (Z.land (x + 15) (u64 (Z.lnot 15)) = (x + 15) / 16 * 16) as ->.
  { assert (u64 (Z.lnot 15) = Z.ones 60 * 2 ^ 4) as -> by reflexivity.
    rewrite <-Z.shiftl_mul_pow2 by lia. apply Z.bits_inj'. intros n Hn. rewrite Z.land_spec.
    change 16 with (2 ^ 4). rewrite <-(Z.shiftl_mul_pow2 _ 4), <-Z.shiftr_div_pow2 by lia.
    rewrite !Z.shiftl_spec by lia. destruct (Z.ltb_spec n 4).
    - rewrite !(Z.testbit_neg_r _ (n - 4)) by lia. apply andb_false_r.
    - rewrite Z.shiftr_spec by lia. replace (n - 4 + 4) with n by lia.
      destruct (Z.ltb_spec (n - 4) 60).
      + rewrite Z.ones_spec_low by lia. apply andb_true_r.
      + rewrite Z.ones_spec_high by lia. rewrite andb_false_r. symmetry.
        destruct (decide (x + 15 = 0)) as [-> |]; [apply Z.testbit_0_l|]. apply Z.bits_above_log2; [lia|].
        apply Z.log2_lt_pow2; [lia|]. eapply Z.lt_le_trans; [|apply (Z.pow_le_mono_r 2 64); lia]. lia. }
  pose proof (Z_div_mod_eq_full (x + 15) 16). pose proof (Z.mod_pos_bound (x + 15) 16 ltac:(lia)).
  assert (s32 ((x + 15) / 16 * 16) = (x + 15) / 16 * 16) as ->.
  { unfold s32. rewrite u32_small by lia. rewrite decide_True by lia. done. }
  split; [lia|]. apply Z.divide_factor_r.
Qed.

Lemma laid_out_snoc from l upto u next : laid_out from l upto -> state_offset u = upto -> 0 <= sizeof_state u ->
  upto + sizeof_state u <= next < upto + sizeof_state u + 16 -> (16 | next) -> laid_out from (l ++ [u]) next.
Proof.
  revert from. induction l as [|v l IH]; intros from; cbn.
  - intros -> ????. split_and!; [done..|]. by exists next.
  - intros (Hv&Hs&n&Hn&Hd&Hl) Hu Hu0 Hnx Hdx. split_and!; [done..|]. exists n. split_and!; [lia|lia|done|by apply IH].
Qed.

Lemma laid_out_bound from l upto : laid_out from l upto -> from <= upto <= from + room l.
Proof.
  revert from. induction l as [|u l IH]; intros from; [cbn; lia|]. intros (_&Hs&n&Hn&_&Hl). specialize (IH _ Hl).
  change (room (u :: l)) with (sizeof_state u + 15 + room l). lia.
Qed.

Lemma laid_out_lookup from l upto i u : laid_out from l upto -> (16 | from) -> l !! i = Some u ->
  from <= state_offset u /\ (16 | state_offset u) /\ state_offset u + sizeof_state u <= upto /\ 0 <= sizeof_state u /\
  forall j v, (i < j)%nat -> l !! j = Some v -> state_offset u + sizeof_state u <= state_offset v.
Proof.
  revert from i u. induction l as [|w l IH]; intros from i u; [done|]. intros (Hw&Hs&n&Hn&Hd&Hl) Hf.
  pose proof (laid_out_bound _ _ _ Hl) as Hb. destruct i as [|i]; cbn.
  - intros [= <-]. split_and!; [lia|congruence|lia|done|]. intros [|j] v Hj; [lia|]. cbn. intros Hv.
    destruct (IH n j v Hl Hd Hv) as (?&_). lia.
  - intros Hu. destruct (IH n i u Hl Hd Hu) as (?&?&?&?&Hjs). split_and!; [lia|done..|].
    intros [|j] v Hj Hv; [lia|]. apply (Hjs j); [lia|exact Hv].
Qed.

Lemma mapM_update (m : gmap loc iv_tls_user) x v l us : x ∉ l -> mapM (fun y => m !! y) l = Some us ->
  mapM (fun y => <[x := v]> m !! y) l = Some us.
Proof.
  intros Hx. revert us. induction l as [|y l IH]; intros us; cbn; [done|].
  apply not_elem_of_cons in Hx as [Hxy Hx]. rewrite lookup_insert_ne by done.
  destruct (m !! y); [|done]. cbn. destruct (mapM _ l) as [os|] eqn:E; [|done]. cbn. intros [= <-]. by rewrite (IH Hx os eq_refl).
Qed.

Lemma user_register_spec state_size s itu u : tls_ok state_size s -> tl_inited s = false -> itu ∉ members (tl_users s) ->
  tl_objs s !! itu = Some u -> 0 <= sizeof_state u -> 0 <= tl_last_offset s -> tl_last_offset s + sizeof_state u < 2 ^ 31 - 15 ->
  exists s', iv_tls_user_register itu s = Ok (tt, s') /\ tls_ok state_size s' /\ tl_inited s' = false /\
    tl_objs s' = <[itu := set_state_offset (tl_last_offset s) u]> (tl_objs s) /\
    members (tl_users s') = members (tl_users s) ++ [itu] /\ tl_w s' = tl_w s /\
    0 <= tl_last_offset s' <= tl_last_offset s + sizeof_state u + 15.
Proof.
  intros [Hq (us&base&Hus&Hb1&Hb2&Hb3&Hl)] Hin Hx Hu Hs Hl0 Hlt. unfold iv_tls_user_register, load_user. msimpl.
  rewrite Hin, Hu. cbn. unfold iq_add_tail. rewrite decide_False by done.
  destruct (round_up_spec (tl_last_offset s + sizeof_state u)) as [Hr1 Hr2]; [lia|].
  eexists. split; [reflexivity|]. split_and!; cbn; try done; [|lia..]. split; cbn.
  - eapply (iq_add_tail_ok itu); [exact Hq|]. unfold iq_add_tail. by rewrite decide_False.
  - exists (us ++ [set_state_offset (tl_last_offset s) u]), base. split_and!; [|lia..|done|].
    + apply mapM_Some. apply Forall2_app.
      * apply mapM_Some. by apply mapM_update.
      * constructor; [by rewrite lookup_insert_eq|constructor].
    + by eapply laid_out_snoc.
Qed.

Fixpoint register_all (l : list loc) : M St unit :=
  match l with [] => mret tt | x :: l => iv_tls_user_register x;; register_all l end.

Lemma register_all_spec state_size us : forall s, tls_ok state_size s -> tl_inited s = false ->
  NoDup us -> (forall x, x ∈ us -> x ∉ members (tl_users s)) -> 0 <= tl_last_offset s ->
  forall os, mapM (fun x => tl_objs s !! x) us = Some os -> Forall (fun u => 0 <= sizeof_state u) os ->
  tl_last_offset s + room os < 2 ^ 31 - 15 ->
  exists s', register_all us s = Ok (tt, s') /\ tls_ok state_size s' /\ tl_inited s' = false /\
    members (tl_users s') = members (tl_users s) ++ us /\ tl_w s' = tl_w s /\
    forall x u, x ∈ us -> tl_objs s !! x = Some u -> exists off, tl_objs s' !! x = Some (set_state_offset off u).
Proof.
  assert (forall os, Forall (fun u => 0 <= sizeof_state u) os -> 0 <= room os) as Hroom.
  { induction 1 as [|u l ? ? IH]; [cbn; lia|]. change (room (u :: l)) with (sizeof_state u + 15 + room l). lia. }
  induction us as [|x us IH]; intros s Hok Hi Hnd Hnm H0 os Hos Hsz Hr.
  - exists s. cbn. rewrite app_nil_r. split_and!; try done. by intros y u ?%not_elem_of_nil.
  - apply NoDup_cons in Hnd as [Hx Hnd]. cbn in Hos. apply bind_Some in Hos as (u&Hu&Hos). apply bind_Some in Hos as (os'&Hos'&[= <-]).
    apply Forall_cons in Hsz as [Hs Hsz]. change (room (u :: os')) with (sizeof_state u + 15 + room os') in Hr. specialize (Hroom _ Hsz) as Hge.
    destruct (user_register_spec state_size s x u) as (s1&E1&Hok1&Hi1&Ho1&Hm1&Hw1&Hb1); try done; [by apply Hnm, elem_of_cons; left|lia|].
    destruct (IH s1 Hok1 Hi1 Hnd) with (os := os') as (s2&E2&Hok2&Hi2&Hm2&Hw2&Hk2).
    + intros y Hy. rewrite Hm1, elem_of_app, list_elem_of_singleton. intros [Hin| ->]; [|done].
      by apply (Hnm y); [apply elem_of_cons; right|].
    + lia.
    + rewrite Ho1. by apply mapM_update.
    + done.
    + lia.
    + exists s2. cbn [register_all]. rewrite (bind_Ok _ _ _ _ _ E1). split_and!; try done.
      * by rewrite Hm2, Hm1, <-app_assoc.
      * congruence.
      * assert (forall y w, y ∉ us -> tl_objs s1 !! y = Some w -> tl_objs s2 !! y = Some w) as Hkeep.
        { clear -E2. revert s1 E2. induction us as [|z us IHu]; intros s1 E2 y w Hy Hw; cbn in E2; [by injection E2 as <-|].
          apply bind_Ok_inv in E2 as ([]&s3&E3&E2). eapply IHu; [done|set_solver|].
          unfold iv_tls_user_register, load_user in E3. msimpl. destruct (tl_inited s1); [done|].
          destruct (tl_objs s1 !! z); [|done]. cbn in E3. destruct (iq_add_tail z (tl_users s1)); [|done].
          cbn in E3. injection E3 as <-. cbn. rewrite lookup_insert_ne; [done|]. set_solver. }
        intros y w Hy Hw. apply elem_of_cons in Hy as [-> |Hy].
        -- exists (tl_last_offset s). apply Hkeep; [done|]. rewrite Ho1, lookup_insert_eq. congruence.
        -- apply Hk2; [done|]. rewrite Ho1, lookup_insert_ne; [done|]. by intros ->.
Qed.
End tls.

(** ** What the modules are promised *)

(** Before any module registered, with [size] the size of [struct iv_state]. *)
Definition tls_boot {W} (size : Z) (objs : gmap loc iv_tls_user) (w : W) : tls_state W :=
  mk_tls false (round_up size) iseq_empty objs w.

Lemma tls_boot_ok {W} size objs (w : W) : 0 < size < 2 ^ 31 - 15 -> tls_ok size (tls_boot size objs w).
Proof.
  intros Hs. destruct (round_up_spec size) as [? ?]; [lia|]. split; [apply iq_ok_empty|].
  exists [], (round_up size). split_and!; try done; lia.
Qed.

(** C40. The parts of the per-thread block: for any modules that register, in any
    order, with sizes that fit an [int], every module gets a part of its own -- 16-byte
    aligned, behind [struct iv_state], within the block and apart from all others --
    and [iv_tls_user_ptr] finds it in every thread, or NULL in a thread that has no
    block; a module that did not register is a fatal error. *)
Theorem iv_tls_layout {W} size objs (w : W) us os : 0 < size -> NoDup us ->
  mapM (fun x => objs !! x) us = Some os -> Forall (fun u => 0 <= sizeof_state u) os ->
  size + 15 + room os < 2 ^ 31 - 15 ->
  exists s', register_all us (tls_boot size objs w) = Ok (tt, s') /\
    (forall i x, us !! i = Some x -> exists o, tl_objs s' !! x = Some o /\
       (16 | state_offset o) /\ size <= state_offset o /\
       iv_tls_total_state_size s' = Ok (tl_last_offset s', s') /\
       state_offset o + sizeof_state o <= tl_last_offset s' < 2 ^ 31 /\
       (forall j y p, (i < j)%nat -> us !! j = Some y -> tl_objs s' !! y = Some p ->
          state_offset o + sizeof_state o <= state_offset p) /\
       (forall st, iv_tls_user_ptr (Some st) x s' = Ok (Some (st + state_offset o), s')) /\
       iv_tls_user_ptr None x s' = Ok (None, s')) /\
    (forall st x u, x ∉ us -> tl_objs s' !! x = Some u -> state_offset u = 0 ->
       exists e, iv_tls_user_ptr st x s' = Fatal e).
Proof.
  intros Hsz Hnd Hos Hpos Hfit.
  assert (0 <= room os) as Hroom.
  { clear -Hpos. induction Hpos as [|u l ? ? IH]; [cbn; lia|]. change (room (u :: l)) with (sizeof_state u + 15 + room l). lia. }
  destruct (round_up_spec size) as [Hr _]; [lia|].
  destruct (register_all_spec size us (tls_boot size objs w)) with (os := os)
    as (s'&E&[Hq (us'&base&Hus&Hb1&Hb2&Hb3&Hl)]&Hi&Hm&Hw&Hk);
    [apply tls_boot_ok; lia|done|done|by intros x _ ?%not_elem_of_nil|cbn; lia|done|done|cbn; lia|].
  exists s'. split; [done|]. cbn in Hm. rewrite Hm in Hus.
  assert (tl_last_offset s' < 2 ^ 31) as Hlast.
  { pose proof (laid_out_bound _ _ _ Hl). assert (room us' = room os) as Er; [|lia].
    apply mapM_Some in Hus. apply mapM_Some in Hos. cbn in Hk. clear -Hus Hos Hk.
    revert us' os Hus Hos Hk. induction us as [|x us IH]; intros us' os H1 H2 Hk; inversion H1; inversion H2; [done|]; subst.
    destruct (Hk x y0) as [off E]; [by apply elem_of_cons; left|done|]. assert (y = set_state_offset off y0) as -> by congruence.
    change (sizeof_state y0 + 15 + room l' = sizeof_state y0 + 15 + room l'0). f_equal. apply IH; [done|done|].
    intros z u Hz. apply Hk. by apply elem_of_cons; right. }
  split.
  - intros i x Hx. apply mapM_Some in Hus. destruct (Forall2_lookup_l _ _ _ _ _ Hus Hx) as (o&Ho&Hxo).
    destruct (laid_out_lookup _ _ _ i o Hl Hb3 Ho) as (?&?&?&?&Hj). exists o.
    assert (load_user x s' = Ok (o, s')) as El by (unfold load_user; msimpl; by rewrite Hxo).
    split_and!; try done; [lia|..].
    + intros j y p Hij Hy Hp. destruct (Forall2_lookup_l _ _ _ _ _ Hus Hy) as (p'&Hp'&Hyp).
      assert (p' = p) as -> by congruence. by apply (Hj j).
    + intros st. unfold iv_tls_user_ptr, __iv_tls_user_ptr. rewrite (bind_Ok _ _ _ _ _ El).
      destruct (Z.eqb_spec (state_offset o) 0); [lia|done].
    + unfold iv_tls_user_ptr, __iv_tls_user_ptr. rewrite (bind_Ok _ _ _ _ _ El).
      destruct (Z.eqb_spec (state_offset o) 0); [lia|done].
  - intros st x u _ Hxu H0. unfold iv_tls_user_ptr, __iv_tls_user_ptr, load_user. msimpl. rewrite Hxu. cbn. rewrite H0. by eexists.
Qed.

Definition demo_users : gmap loc iv_tls_user :=
  {[1%positive := mk_tls_user 40 true false 0; 2%positive := mk_tls_user 24 true true 0; 3%positive := mk_tls_user 8 false true 0]}.
Lemma iv_tls_layout_witness : exists s' : tls_state (list (loc * Z)),
  register_all [2; 1]%positive (tls_boot 500 demo_users []) = Ok (tt, s') /\
  iv_tls_user_ptr (Some 1000) 1%positive s' = Ok (Some 1544, s').
Proof.
  destruct (iv_tls_layout 500 demo_users ([] : list (loc * Z)) [2; 1]%positive
    [mk_tls_user 24 true true 0; mk_tls_user 40 true false 0]) as (s'&E&H&_).
  - done.
  - apply NoDup_cons. split; [set_solver|apply NoDup_singleton].
  - reflexivity.
  - repeat constructor; cbn; lia.
  - cbn. lia.
  - exists s'. split; [exact E|]. destruct (H 1%nat 1%positive eq_refl) as (o&Ho&_&_&_&_&_&Hp&_).
    apply (f_equal (fun r => match r with Ok (_, s) => tl_objs s !! 1%positive | _ => None end)) in E.
    vm_compute in E. assert (Some o = Some (mk_tls_user 40 true false 544)) as Eo by (rewrite <-Ho; symmetry; exact E).
    injection Eo as ->. exact (Hp 1000).
Defined.

Section hooks.
Context {W : Type} (init_thread deinit_thread : loc -> Z -> W -> W).
Implicit Types (s : tls_state W).

(** One hook per user, in order. *)
Definition run_hooks (has : iv_tls_user -> bool) (hook : loc -> Z -> W -> W) (st : Z) (l : list (loc * iv_tls_user)) (w : W) : W :=
  foldl (fun w '(x, u) => hook x (st + state_offset u) w) w (filter (fun p => has p.2 = true) l).

Lemma init_hooks_spec st l us : forall s, mapM (fun x => tl_objs s !! x) l = Some us ->
  run_init_hooks init_thread st l s = Ok (tt, set_tl_w (run_hooks has_init_thread init_thread st (zip l us) (tl_w s)) s).
Proof.
  revert us. induction l as [|x l IH]; intros us s Hus; cbn in Hus.
  - injection Hus as <-. by destruct s.
  - apply bind_Some in Hus as (u&Hu&Hus). apply bind_Some in Hus as (us'&Hus&[= <-]). cbn [run_init_hooks].
    assert (load_user x s = Ok (u, s)) as E by (unfold load_user; msimpl; by rewrite Hu). rewrite (bind_Ok _ _ _ _ _ E).
    unfold run_hooks. cbn [zip zip_with]. destruct (has_init_thread u) eqn:Eh.
    + rewrite filter_cons_True by done. cbn [foldl].
      pose proof (IH us' (set_tl_w (init_thread x (st + state_offset u) (tl_w s)) s) Hus) as E2. unfold run_hooks in E2.
      cbn in E2 |- *. exact E2.
    + rewrite filter_cons_False by (cbn; congruence). cbn. by apply IH.
Qed.
Lemma deinit_hooks_spec st l us : forall s, mapM (fun x => tl_objs s !! x) l = Some us ->
  run_deinit_hooks deinit_thread st l s = Ok (tt, set_tl_w (run_hooks has_deinit_thread deinit_thread st (zip l us) (tl_w s)) s).
Proof.
  revert us. induction l as [|x l IH]; intros us s Hus; cbn in Hus.
  - injection Hus as <-. by destruct s.
  - apply bind_Some in Hus as (u&Hu&Hus). apply bind_Some in Hus as (us'&Hus&[= <-]). cbn [run_deinit_hooks].
    assert (load_user x s = Ok (u, s)) as E by (unfold load_user; msimpl; by rewrite Hu). rewrite (bind_Ok _ _ _ _ _ E).
    unfold run_hooks. cbn [zip zip_with]. destruct (has_deinit_thread u) eqn:Eh.
    + rewrite filter_cons_True by done. cbn [foldl].
      pose proof (IH us' (set_tl_w (deinit_thread x (st + state_offset u) (tl_w s)) s) Hus) as E2. unfold run_hooks in E2.
      cbn in E2 |- *. exact E2.
    + rewrite filter_cons_False by (cbn; congruence). cbn. by apply IH.
Qed.

(** A thread's life: [iv_tls_thread_init] calls the hook of every registered module
    that has one, once, in the order in which they registered, each with the address
    that [iv_tls_user_ptr] gives that module in this thread; [iv_tls_thread_deinit] the
    same; and from the first thread on no module can register any more. *)
Theorem iv_tls_thread_hooks size s st : tls_ok size s -> exists us,
  mapM (fun x => tl_objs s !! x) (members (tl_users s)) = Some us /\
  (forall i x u, members (tl_users s) !! i = Some x -> us !! i = Some u ->
     iv_tls_user_ptr (Some st) x s = Ok (Some (st + state_offset u), s)) /\
  let s1 := set_tl_w (run_hooks has_init_thread init_thread st (zip (members (tl_users s)) us) (tl_w s)) (set_tl_inited true s) in
  iv_tls_thread_init init_thread st s = Ok (tt, s1) /\
  iv_tls_thread_deinit deinit_thread st s1 = Ok (tt, set_tl_w
    (run_hooks has_deinit_thread deinit_thread st (zip (members (tl_users s)) us) (tl_w s1)) s1) /\
  (forall itu, exists e, iv_tls_user_register itu s1 = Fatal e).
Proof.
  intros [Hq (us&base&Hus&Hb1&Hb2&Hb3&Hl)]. exists us. split_and!; [done| |].
  - intros i x u Hx Hu. destruct (laid_out_lookup _ _ _ i u Hl Hb3 Hu) as (?&_).
    assert (tl_objs s !! x = Some u) as Hxu by (apply mapM_Some in Hus; by eapply Forall2_lookup_lr in Hus).
    unfold iv_tls_user_ptr, __iv_tls_user_ptr, load_user. msimpl. rewrite Hxu. cbn.
    destruct (Z.eqb_spec (state_offset u) 0); [lia|done].
  - cbv zeta. set (s1 := set_tl_w _ _).
    assert (iv_tls_thread_init init_thread st s = Ok (tt, s1)) as E1 by exact (init_hooks_spec st _ us (set_tl_inited true s) Hus).
    split_and!; [exact E1|exact (deinit_hooks_spec st _ us s1 Hus)|]. intros itu. by eexists.
Qed.
End hooks.

Definition demo_hook (x : loc) (a : Z) (w : list (loc * Z)) : list (loc * Z) := w ++ [(x, a)].
Definition demo_tls : tls_state (list (loc * Z)) :=
  match register_all [2; 3; 1]%positive (tls_boot 500 demo_users []) with Ok (_, s) => s | _ => tls_boot 500 demo_users [] end.
Lemma demo_tls_ok : tls_ok 500 demo_tls.
Proof.
  destruct (register_all_spec 500 [2; 3; 1]%positive (tls_boot 500 demo_users ([] : list (loc * Z)))) with
    (os := [mk_tls_user 24 true true 0; mk_tls_user 8 false true 0; mk_tls_user 40 true false 0]) as (s&E&Hok&_).
  - apply tls_boot_ok. lia.
  - done.
  - repeat (apply NoDup_cons; split; [set_solver|]). apply NoDup_nil_2.
  - by intros x _ ?%not_elem_of_nil.
  - by vm_compute.
  - reflexivity.
  - repeat constructor; cbn; lia.
  - vm_compute. reflexivity.
  - unfold demo_tls. by rewrite E.
Qed.
(** Module 3 has no [init_thread], module 1 no [deinit_thread]. *)
Lemma iv_tls_thread_hooks_witness : exists us, iv_tls_thread_init demo_hook 1000 demo_tls =
    Ok (tt, set_tl_w (run_hooks has_init_thread demo_hook 1000 (zip [2; 3; 1]%positive us) []) (set_tl_inited true demo_tls)) /\
  run_hooks has_init_thread demo_hook 1000 (zip [2; 3; 1]%positive us) [] = [(2%positive, 1512); (1%positive, 1560)].
Proof.
  destruct (iv_tls_thread_hooks demo_hook demo_hook 500 demo_tls 1000 demo_tls_ok) as (us&Hus&_&E&_).
  exists us. split; [exact E|]. assert (Some us = Some [mk_tls_user 24 true true 512; mk_tls_user 8 false true 544; mk_tls_user 40 true false 560]) as Eu
    by (rewrite <-Hus; vm_compute; reflexivity). injection Eu as ->. vm_compute. reflexivity.
Defined.
