(* ===== verification/Main.v ===== *)
(** * The main loop (iv_main_posix.c)

    What the loop needs of the other components is the class [MainOps]; the loop's
    properties are proved from the laws in [MainLaws], and MainThread.v shows that
    tasks, timers and file descriptors keep them. *)

From S2P Require Import Prelude Timer.

Local Open Scope Z_scope.

(** The operations of the components on a thread's [struct iv_state], and the
    fields [quit] and [numobjs]. *)
Class MainOps (S : Type) := {
  st_quit : S -> bool;
  set_st_quit : bool -> S -> S;
  st_numobjs : S -> Z;
  mo_run_timers : M S unit;
  mo_run_tasks : M S unit;
  mo_pending_tasks : M S bool;
  mo_soonest_timeout : M S (option timespec);
  mo_poll_and_run : option timespec -> M S bool;
  mo_fd_init : M S unit;
  mo_task_init : M S unit;
  mo_timer_init : M S unit;
  mo_event_init : M S unit;
  mo_tls_thread_init : M S unit;
  mo_tls_thread_deinit : M S unit;
  mo_event_deinit : M S unit;
  mo_fd_deinit : M S unit;
  mo_timer_deinit : M S unit }.

(** The process as one thread sees it: is the key allocated, the value stored for
    this thread (its [struct iv_state]), and the blocks that were freed. *)
Record process (S : Type) := mk_process {
  key_allocated : bool; specific : option S; freed : list S }.
Arguments mk_process {_}.
Arguments key_allocated {_} _.
Arguments specific {_} _.
Arguments freed {_} _.

Section main.
Context {S : Type} `{!MainOps S}.
Abbreviation P := (process S).

(** [pthr_key_create] succeeds or not; what [calloc] returns, if not NULL. *)
Context (pthr_key_create : bool) (calloc : option S).

Definition set_specific (v : option S) : M P unit :=
  modify (fun p => mk_process (key_allocated p) v (freed p)).
(** Work on the block that the thread's key points to. *)
Definition in_thread {A} (m : M S A) : M P A := fun p =>
  match specific p with
  | None => Undef
  | Some st =>
      match m st with
      | Ok (a, st') => Ok (a, mk_process (key_allocated p) (Some st') (freed p))
      | Fatal e => Fatal e
      | Undef => Undef
      | OutOfFuel => OutOfFuel
      end
  end.

(** [pthr_setspecific(&iv_state_key, NULL); free(st);] after the components'
    own parts are gone. *)
Definition __iv_deinit : M P unit :=
  in_thread mo_tls_thread_deinit;;
  in_thread mo_event_deinit;;
  in_thread mo_fd_deinit;;
  in_thread mo_timer_deinit;;
  modify (fun p => mk_process (key_allocated p) None (option_list (specific p) ++ freed p)).

Definition iv_state_destructor (data : S) : M P unit := set_specific (Some data);; __iv_deinit.

Definition iv_init : M P unit :=
  allocated ← gets key_allocated;
  when (negb allocated) (
    if negb pthr_key_create then iv_fatal "iv_init: failed to allocate TLS key"
    else modify (fun p => mk_process true (specific p) (freed p)));;
  set_specific calloc;;
  in_thread mo_fd_init;;
  in_thread mo_task_init;;
  in_thread mo_timer_init;;
  in_thread mo_event_init;;
  in_thread mo_tls_thread_init.

Definition iv_inited : M P bool := gets (fun p => key_allocated p && bool_decide (is_Some (specific p))).

Definition iv_quit : M S unit := modify (set_st_quit true).

(** [if (run_timers) iv_run_timers(st); iv_run_tasks(st);] *)
Definition run_timers_and_tasks (run_timers : bool) : M S unit := when run_timers mo_run_timers;; mo_run_tasks.
(** How long to sleep: not at all while tasks are pending. *)
Definition poll_deadline : M S (option timespec) :=
  pending ← mo_pending_tasks;
  if pending : bool then mret (Some (mk_tsp 0 0)) else mo_soonest_timeout.

Fixpoint main_loop (fuel : nat) (run_timers : bool) : M S unit :=
  match fuel with
  | O => out_of_fuel
  | Datatypes.S fuel =>
      run_timers_and_tasks run_timers;;
      st ← get;
      if st_quit st || (st_numobjs st =? 0) then mret tt
      else
        abs ← poll_deadline;
        run_timers ← mo_poll_and_run abs;
        main_loop fuel run_timers
  end.
Definition iv_main (fuel : nat) : M S unit := modify (set_st_quit false);; main_loop fuel true.

Definition iv_deinit : M P unit := __iv_deinit.
End main.

(** ** What the components promise *)
Class MainLaws (S : Type) `{!MainOps S} (F : string -> Prop) := {
  ml_inv : S -> Prop;
  law_quit_get : forall b s, st_quit (set_st_quit b s) = b;
  law_quit_numobjs : forall b s, st_numobjs (set_st_quit b s) = st_numobjs s;
  law_quit_inv : forall b s, ml_inv s -> ml_inv (set_st_quit b s);
  (* handlers may call iv_quit, and nothing takes that back *)
  law_timers : forall s, ml_inv s -> wp F mo_run_timers s (fun _ s' => ml_inv s' /\ (st_quit s = true -> st_quit s' = true));
  law_tasks : forall s, ml_inv s -> wp F mo_run_tasks s (fun _ s' => ml_inv s' /\ (st_quit s = true -> st_quit s' = true));
  law_pending : forall s, ml_inv s -> exists b, mo_pending_tasks s = Ok (b, s);
  law_soonest : forall s, ml_inv s -> exists o, mo_soonest_timeout s = Ok (o, s);
  law_poll : forall s abs, ml_inv s ->
    wp F (mo_poll_and_run abs) s (fun _ s' => ml_inv s' /\ (st_quit s = true -> st_quit s' = true)) }.

Section loop.
Context {S : Type} {F : string -> Prop} `{!MainOps S, !MainLaws S F}.
Implicit Types (s : S).

(** As [wp], but the loop may still be running, with [R], when the fuel is used up. *)
Definition outcome {A} (m : M S A) s (Q : A -> S -> Prop) (R : Prop) : Prop :=
  match m s with Ok (a, s') => Q a s' | Fatal e => F e | Undef => False | OutOfFuel => R end.
Lemma outcome_cases {A} (m : M S A) s Q R r : outcome m s Q R -> m s = r ->
  match r with Ok (a, s') => Q a s' | Fatal e => F e | Undef => False | OutOfFuel => R end.
Proof. by intros H <-. Qed.
Lemma outcome_bind {A B} (m : M S A) (k : A -> M S B) s Q R :
  wp F m s (fun a s' => outcome (k a) s' Q R) -> outcome (m ≫= k) s Q R.
Proof. unfold wp, outcome, mbind, M_bind. by destruct (m s) as [[]| | |]. Qed.
Lemma outcome_mono {A} (m : M S A) s (Q Q' : A -> S -> Prop) (R R' : Prop) : outcome m s Q R ->
  (forall a s', Q a s' -> Q' a s') -> (R -> R') -> outcome m s Q' R'.
Proof. unfold outcome. destruct (m s) as [[]| | |]; auto. Qed.

Lemma phase_spec rt s : ml_inv s ->
  wp F (run_timers_and_tasks rt) s (fun _ s' => ml_inv s' /\ (st_quit s = true -> st_quit s' = true)).
Proof.
  intros Hs. unfold run_timers_and_tasks. wbind.
  apply (wp_mono _ _ _ (fun _ s1 => ml_inv s1 /\ (st_quit s = true -> st_quit s1 = true))).
  - destruct rt; cbn [when]; [by apply law_timers|]. eapply wp_Ok; [reflexivity|]. done.
  - intros _ s1 [Hs1 Hq1]. eapply wp_mono; [by apply law_tasks|]. cbv beta. intros _ s2 [Hs2 Hq2]. auto.
Qed.

(** The deadline of a poll: zero with a task pending, otherwise the soonest timer. *)
Definition deadline_of s (abs : option timespec) : Prop :=
  (mo_pending_tasks s = Ok (true, s) /\ abs = Some (mk_tsp 0 0)) \/
  (mo_pending_tasks s = Ok (false, s) /\ mo_soonest_timeout s = Ok (abs, s)).

Lemma deadline_spec s : ml_inv s -> exists abs, poll_deadline s = Ok (abs, s) /\ deadline_of s abs.
Proof.
  intros Hs. unfold poll_deadline. destruct (law_pending s Hs) as [b Hb]. rewrite (bind_Ok _ _ _ _ _ Hb).
  destruct b; [eexists; split; [reflexivity|by left]|]. destruct (law_soonest s Hs) as [o Ho].
  exists o. split; [done|by right].
Qed.

(** The first half of a turn: timers, if the last poll asked for them, then tasks. *)
Definition ran_timers_and_tasks (rt : bool) s s1 : Prop :=
  exists s0, (if rt then mo_run_timers s = Ok (tt, s0) else s0 = s) /\ mo_run_tasks s0 = Ok (tt, s1).
Lemma phase_runs rt s s1 : run_timers_and_tasks rt s = Ok (tt, s1) <-> ran_timers_and_tasks rt s s1.
Proof.
  unfold run_timers_and_tasks, ran_timers_and_tasks. destruct rt; cbn [when].
  - split; [intros ([]&s0&H1&H2)%bind_Ok_inv; eauto|]. intros (s0&H1&H2). by rewrite (bind_Ok _ _ _ _ _ H1).
  - rewrite (bind_Ok (mret tt) (fun _ => mo_run_tasks) s tt s eq_refl). split; [eauto|]. by intros (s0&->&H).
Qed.

(** One turn of the loop: [Some] with what the poll was asked and answered, or the end. *)
Inductive turn : bool -> S -> option (S * option timespec * bool) -> S -> Prop :=
  | turn_end rt s s1 : ran_timers_and_tasks rt s s1 -> st_quit s1 = true \/ st_numobjs s1 = 0 ->
      turn rt s None s1
  | turn_poll rt s s1 abs rt' s2 : ran_timers_and_tasks rt s s1 -> st_quit s1 = false -> st_numobjs s1 <> 0 ->
      deadline_of s1 abs -> mo_poll_and_run abs s1 = Ok (rt', s2) -> turn rt s (Some (s1, abs, rt')) s2.
(** A run of the loop, with the polls it made. *)
Inductive turns : bool -> S -> list (S * option timespec * bool) -> S -> Prop :=
  | turns_end rt s s' : turn rt s None s' -> turns rt s [] s'
  | turns_more rt s s1 abs rt' s2 l s' : turn rt s (Some (s1, abs, rt')) s2 -> turns rt' s2 l s' ->
      turns rt s ((s1, abs, rt') :: l) s'.

(** A run that has not ended after the polls it made. *)
Inductive running : bool -> S -> list (S * option timespec * bool) -> S -> Prop :=
  | running_nil rt s : running rt s [] s
  | running_more rt s s1 abs rt' s2 l s' : turn rt s (Some (s1, abs, rt')) s2 -> running rt' s2 l s' ->
      running rt s ((s1, abs, rt') :: l) s'.

Lemma loop_turns fuel : forall rt s, ml_inv s ->
  outcome (main_loop fuel rt) s
    (fun _ s' => ml_inv s' /\ (st_quit s' = true \/ st_numobjs s' = 0) /\ exists l, turns rt s l s' /\ (length l < fuel)%nat)
    (exists l s', running rt s l s' /\ length l = fuel).
Proof.
  induction fuel as [|fuel IH]; intros rt s Hs; [exists [], s; split; [constructor|done]|]. cbn [main_loop].
  apply outcome_bind. destruct (wp_inv _ _ _ _ (phase_spec rt s Hs)) as [(e&E1&He)|([]&s1&E1&Hs1&_)]; [unfold wp; by rewrite E1|].
  eapply wp_Ok; [exact E1|]. apply outcome_bind. eapply wp_Ok; [reflexivity|].
  destruct (st_quit s1 || (st_numobjs s1 =? 0)) eqn:Eq.
  { assert (st_quit s1 = true \/ st_numobjs s1 = 0) as Hend by (apply orb_true_iff in Eq as [?|?%Z.eqb_eq]; auto).
    split_and!; [done|done|]. exists []. split; [|cbn; lia]. constructor. constructor; [by apply phase_runs|done]. }
  apply orb_false_iff in Eq as [Eq En%Z.eqb_neq].
  destruct (deadline_spec s1 Hs1) as (abs&Ea&Hd). apply outcome_bind. eapply wp_Ok; [exact Ea|].
  apply outcome_bind. destruct (wp_inv _ _ _ _ (law_poll s1 abs Hs1)) as [(e&E2&He)|(rt'&s2&E2&Hs2&_)]; [unfold wp; by rewrite E2|].
  eapply wp_Ok; [exact E2|].
  assert (turn rt s (Some (s1, abs, rt')) s2) as Ht by (apply turn_poll; [by apply phase_runs|done..]).
  eapply outcome_mono; [by apply (IH rt' s2 Hs2)|..].
  - intros _ s' (?&?&l&Hl&Hlen). split_and!; [done|done|]. exists ((s1, abs, rt') :: l). split; [|cbn; lia]. by eapply turns_more.
  - intros (l&s'&Hl&Hlen). exists ((s1, abs, rt') :: l), s'. split; [by eapply running_more|cbn; lia].
Qed.

(** A turn that polls is what the loop does first. *)
Lemma turn_step fuel rt s s1 abs rt' s2 : turn rt s (Some (s1, abs, rt')) s2 -> ml_inv s ->
  main_loop (Datatypes.S fuel) rt s = main_loop fuel rt' s2 /\ ml_inv s2.
Proof.
  intros Ht Hs. cbn [main_loop]. inversion Ht as [|? ? ? ? ? ? E1%phase_runs Hq Hn Hd E2]; subst. rewrite (bind_Ok _ _ _ _ _ E1).
  pose proof (wp_result _ _ _ _ _ _ (phase_spec rt s Hs) E1) as [Hs1 _].
  unfold mbind at 1, M_bind at 1, get. rewrite Hq. destruct (Z.eqb_spec (st_numobjs s1) 0); [done|]. cbn [orb].
  assert (poll_deadline s1 = Ok (abs, s1)) as Ea.
  { unfold poll_deadline. destruct Hd as [[Hp ->]|[Hp Ho]]; rewrite (bind_Ok _ _ _ _ _ Hp); done. }
  rewrite (bind_Ok _ _ _ _ _ Ea), (bind_Ok _ _ _ _ _ E2). split; [done|].
  by destruct (wp_result _ _ _ _ _ _ (law_poll s1 abs Hs1) E2).
Qed.
Lemma turns_loop rt s l s' : turns rt s l s' -> ml_inv s -> forall fuel, (length l < fuel)%nat -> main_loop fuel rt s = Ok (tt, s').
Proof.
  induction 1 as [rt s s' Ht|rt s s1 abs rt' s2 l s' Ht _ IH]; intros Hs [|fuel] Hf; cbn in Hf; try lia.
  - cbn [main_loop]. inversion Ht as [? ? ? E1%phase_runs Hq|]; subst. rewrite (bind_Ok _ _ _ _ _ E1). unfold mbind, M_bind, get.
    assert (st_quit s' || (st_numobjs s' =? 0) = true) as ->; [|done].
    apply orb_true_iff. destruct Hq as [?|?]; [by left|right; by apply Z.eqb_eq].
  - destruct (turn_step fuel _ _ _ _ _ _ Ht Hs) as [-> Hs2]. apply IH; [done|lia].
Qed.

(** Once [iv_quit] was called, or nothing is left, the loop ends without polling. *)
Lemma loop_ends fuel rt s : ml_inv s -> st_quit s = true ->
  wp F (main_loop (Datatypes.S fuel) rt) s (fun _ s' => ml_inv s' /\ st_quit s' = true).
Proof.
  intros Hs Hq. cbn [main_loop]. wbind. eapply wp_mono; [by apply phase_spec|]. cbv beta. intros _ s1 [Hs1 Hq1].
  specialize (Hq1 Hq). wprim. rewrite Hq1. cbn [orb]. by eapply wp_Ok; [reflexivity|].
Qed.

Lemma main_turns fuel s : ml_inv s ->
  outcome (iv_main fuel) s
    (fun _ s' => ml_inv s' /\ (st_quit s' = true \/ st_numobjs s' = 0) /\
       exists l, turns true (set_st_quit false s) l s' /\ (length l < fuel)%nat)
    (exists l s', running true (set_st_quit false s) l s' /\ length l = fuel).
Proof.
  intros Hs. unfold iv_main. apply outcome_bind. eapply wp_Ok; [reflexivity|].
  apply loop_turns. by apply law_quit_inv.
Qed.
End loop.
