(* ===== verification/MainThread.v ===== *)
(** * A thread's main loop over its tasks, timers and file descriptors

    The operations of Task.v, Timer.v and FdMethods.v put together in one thread,
    with the thread part of Tls.v: they keep the laws of Main.v. *)

From S2P Require Import Prelude IvList Task Timer TimerRadix TimerHeap TimerOps TimerSpec Sys Fd PmState FdPoll FdEpoll FdKqueue FdDevPoll FdPort FdSpec FdCore FdDeferred FdEpollSpec FdPollSpec FdKqueueSpec FdDevPollSpec FdPortSpec FdMethods FdSim FdProps ISeq Tls Main.

Local Open Scope Z_scope.

(** The parts of a thread's [struct iv_state], by component.  The timer fields are
    [t_timers]; the poll methods read and write the cached time in them. *)
Record thread (W WT : Type) := mk_thread {
  t_quit : bool; t_tasks : task_state; t_timers : timer_state; t_fds : fd_state pm_state W; t_tls : tls_state WT }.
Arguments mk_thread {_ _}.
Arguments t_quit {_ _} _.
Arguments t_tasks {_ _} _.
Arguments t_timers {_ _} _.
Arguments t_fds {_ _} _.
Arguments t_tls {_ _} _.

(** What the client's code does: the calls its handlers make, and whose task
    handler calls [iv_quit]. *)
Record client := mk_client {
  task_handler : list loc -> list task_call;
  timer_handler : list loc -> list timer_call;
  fd_handler : list activation -> list fd_call;
  quitters : gset loc }.

Section thread.
Context {W WT : Type} `{!FdKernel W, !PollKernels W}.
Context (clock_gettime : nat -> clockid -> option timespec) (gettimeofday : nat -> Z * Z).
Context (calloc : gset loc -> option loc).
Context (init_thread deinit_thread : loc -> Z -> WT -> WT).
(** The addresses of [st], of [st->tasks], of the stack variable of
    [iv_run_tasks] and of [st->first_leaf]. *)
Context (st_addr : Z) (st_tasks tasks first_leaf : loc).
Context (cl : client).
Abbreviation St := (thread W WT).
Abbreviation methods := (FdMethods.methods clock_gettime gettimeofday (fd_handler cl)).

Definition set_t_quit (v : bool) (s : St) : St := mk_thread v (t_tasks s) (t_timers s) (t_fds s) (t_tls s).
Definition set_t_tasks (v : task_state) (s : St) : St := mk_thread (t_quit s) v (t_timers s) (t_fds s) (t_tls s).
Definition set_t_timers (v : timer_state) (s : St) : St := mk_thread (t_quit s) (t_tasks s) v (t_fds s) (t_tls s).
Definition set_t_fds (v : fd_state pm_state W) (s : St) : St := mk_thread (t_quit s) (t_tasks s) (t_timers s) v (t_tls s).
Definition set_t_tls (v : tls_state WT) (s : St) : St := mk_thread (t_quit s) (t_tasks s) (t_timers s) (t_fds s) v.

(** Work of one component. *)
Definition on_part {T A} (get : St -> T) (set : T -> St -> St) (m : M T A) : M St A := fun s =>
  match m (get s) with
  | Ok (a, t) => Ok (a, set t s)
  | Fatal e => Fatal e
  | Undef => Undef
  | OutOfFuel => OutOfFuel
  end.

(** The cached time after a poll, in the rest of the timer fields. *)
Definition with_time_of (t t' : timer_state) : timer_state :=
  mk_tms (tm_nodes t) (tm_depth t) (tm_num t) (tm_timers t) (tm_expired t) (tm_numobjs t)
    (tm_time t') (tm_time_valid t') (tm_clock_source t') (tm_readings t') (tm_ran t).

Definition run_tasks : M St unit :=
  before ← gets t_tasks;
  on_part t_tasks set_t_tasks
    (iv_run_tasks st_tasks tasks (task_handler cl) (Datatypes.S (size (dom (ts_epochs before)))));;
  after ← gets t_tasks;
  when (bool_decide (Exists (fun t => t ∈ quitters cl) (drop (length (ts_ran before)) (ts_ran after))))
    (modify (set_t_quit true)).
Definition poll_and_run (abs : option timespec) : M St bool :=
  t ← gets t_timers;
  modify (fun s => set_t_fds (set_fs_timer t (t_fds s)) s);;
  run_timers ← on_part t_fds set_t_fds (iv_fd_poll_and_run methods (fd_handler cl) legal abs);
  modify (fun s => set_t_timers (with_time_of (t_timers s) (fs_timer (t_fds s))) s);;
  mret run_timers.

#[local] Instance thread_ops : MainOps St := {
  st_quit := t_quit;
  set_st_quit := set_t_quit;
  st_numobjs s := ts_numobjs (t_tasks s) + tm_numobjs (t_timers s) + fs_numobjs (t_fds s);
  mo_run_timers := on_part t_timers set_t_timers (iv_run_timers first_leaf calloc clock_gettime gettimeofday (timer_handler cl));
  mo_run_tasks := run_tasks;
  mo_pending_tasks := on_part t_tasks set_t_tasks (iv_pending_tasks st_tasks);
  mo_soonest_timeout := on_part t_timers set_t_timers (iv_get_soonest_timeout first_leaf);
  mo_poll_and_run := poll_and_run;
  mo_fd_init := on_part t_fds set_t_fds (iv_fd_init methods);
  mo_task_init := on_part t_tasks set_t_tasks (iv_task_init st_tasks);
  mo_timer_init := on_part t_timers set_t_timers (iv_timer_init first_leaf);
  (* events are in Event.v; in a thread without them this is a mutex and an empty list *)
  mo_event_init := mret tt;
  mo_tls_thread_init := on_part t_tls set_t_tls (iv_tls_thread_init init_thread st_addr);
  mo_tls_thread_deinit := on_part t_tls set_t_tls (iv_tls_thread_deinit deinit_thread st_addr);
  mo_event_deinit := mret tt;
  mo_fd_deinit := on_part t_fds set_t_fds (iv_fd_deinit methods);
  mo_timer_deinit := on_part t_timers set_t_timers (iv_timer_deinit first_leaf) }.

(** ** The laws *)
Context {HL : PollKernelsLaws W} {HR : ProcessLaws W}.
Context (size_st : Z) (Hcalloc : forall D a, calloc D = Some a -> a ∉ D).
(** The client's tasks lie in memory of its own. *)
Context (client_memory : gset loc) (Htasks : forall h c, c ∈ task_handler cl h -> task_of c ∈ client_memory).

Record thread_ok (s : St) : Prop := {
  th_tasks : exists a, task_rel st_tasks tasks (t_tasks s) a /\ am_ok a /\ am_round a = None /\ task_memory a = client_memory;
  th_timers : timers_ok first_leaf (t_timers s) /\ tm_expired (t_timers s) = [];
  th_fds : fds_ok (t_fds s);
  th_tls : tls_ok size_st (t_tls s) }.

Lemma wp_on_part {T A} (get : St -> T) set F (m : M T A) s Q :
  wp F m (get s) (fun a t => Q a (set t s)) -> wp F (on_part get set m) s Q.
Proof. unfold wp, on_part. by destruct (m (get s)) as [[]| | |]. Qed.

Lemma run_tasks_spec s : thread_ok s -> wp any run_tasks s (fun _ s' => thread_ok s' /\ (t_quit s = true -> t_quit s' = true)).
Proof.
  intros [(a&Hr&Hok&Hn&Hm) Ht Hf Hl]. unfold run_tasks. wprim. wbind. apply wp_on_part.
  assert (size (dom (am_epochs a)) < Datatypes.S (size (dom (ts_epochs (t_tasks s)))))%nat as Hfuel.
  { rewrite (tr_epochs _ _ _ _ Hr). lia. }
  destruct (run_tasks_round st_tasks tasks (task_handler cl) _ (t_tasks s) a Hr Hok Hn Hfuel)
    as [Hu|[(msg&E)|(ts'&a'&l&E&Ea&Hr'&Hok'&Hn'&_)]]; [|unfold wp; by rewrite E|].
  { by apply (am_run_tasks_memory _ client_memory) in Hu. }
  destruct (am_run_tasks_memory _ client_memory (Datatypes.S (size (dom (ts_epochs (t_tasks s))))) a Htasks Hok Hn Hm) as [_ Hm']. specialize (Hm' _ Ea).
  eapply wp_Ok; [exact E|]. wprim. set (s1 := set_t_tasks ts' s).
  assert (thread_ok s1) as H1 by (split; [by exists a'|done..]).
  destruct (bool_decide _); cbn [when]; (eapply wp_Ok; [reflexivity|]); [|done]. split; [|done]. by destruct H1; split.
Qed.

Lemma poll_and_run_ok s abs : thread_ok s ->
  wp any (poll_and_run abs) s (fun _ s' => thread_ok s' /\ (t_quit s = true -> t_quit s' = true)).
Proof.
  intros [Hta [Hti He] Hf Hl]. unfold poll_and_run. do 2 wprim. wbind. apply wp_on_part.
  set (f1 := set_fs_timer (t_timers s) (t_fds s)).
  assert (fds_ok f1) as Hf1 by exact Hf.
  eapply wp_mono; [apply (round_ok clock_gettime gettimeofday (fd_handler cl) f1 abs Hf1)|]. cbv beta.
  intros rt f2 (rep&l1&l2&Hf2&_). wprim. eapply wp_Ok; [reflexivity|]. split; [|done]. split; [done| |done|done].
  split; [|done]. by eapply timers_ok_rest.
Qed.

#[local, refine] Instance thread_laws : MainLaws St any := { ml_inv := thread_ok }.
Proof.
  - done.
  - done.
  - intros b s []. by split.
  - intros s []. apply wp_on_part. destruct th_timers0 as [Ht He].
    eapply wp_any, wp_mono; [by apply run_timers_spec|]. cbv beta. intros _ t' (Ht'&He'&_). by split.
  - apply run_tasks_spec.
  - intros s [(a&Hr&_) _ _ _]. cbn. unfold on_part.
    destruct Hr as [(Wd&R&Hw&Hq&_) _ _ _ _ _ _ _].
    unfold iv_pending_tasks. pose proof (world_empty _ _ _ Hw _ _ Hq) as E.
    rewrite (bind_Ok _ _ _ _ _ (on_lists_read _ (t_tasks s) _ E)). eexists. cbn. by destruct s.
  - intros s [_ [((H&Hs)&_) _] _ _]. cbn. unfold on_part. destruct (soonest_spec _ _ _ Hs) as (o&->&_).
    exists o. by destruct s.
  - intros s abs. apply poll_and_run_ok.
Defined.

(** ** The life of a thread

    [iv_init], the client's calls and [iv_main]; then [iv_deinit]. *)
Record setup := mk_setup {
  su_tasks : list task_call; su_timers : list timer_call; su_fds : list fd_call }.
Definition run_setup (p : setup) : M St unit :=
  on_part t_tasks set_t_tasks (run_calls st_tasks (su_tasks p));;
  on_part t_timers set_t_timers (run_steps first_leaf calloc clock_gettime gettimeofday (timer_handler cl) (TCall <$> su_timers p));;
  on_part t_fds set_t_fds (run_fd_calls methods legal (su_fds p)).
Definition thread_life (key_create : bool) (block : option St) (p : setup) (fuel : nat) : M (process St) unit :=
  iv_init key_create block;;
  in_thread (run_setup p);;
  in_thread (iv_main fuel).

(** A zeroed block. *)
Definition tasks_in (raw : gset loc) : gset loc := raw ∖ {[st_tasks]} ∖ {[tasks]}.
Record fresh_block (raw : gset loc) (b : St) : Prop := {
  fb_tasks : world (ts_lists (t_tasks b)) ∅ raw /\ st_tasks ∈ raw /\ tasks ∈ raw /\ st_tasks <> tasks /\
    ts_current (t_tasks b) = None /\ ts_epochs (t_tasks b) = ∅;
  fb_timers : fresh_timers first_leaf (t_timers b);
  fb_fds : exists m g t w, t_fds b = blank m g t w;
  fb_tls : tls_ok size_st (t_tls b) }.
Definition no_tasks (raw : gset loc) (b : St) : task_am :=
  mk_am [] None (tasks_in raw) ∅ (ts_epoch (t_tasks b)) (ts_numobjs (t_tasks b)) (ts_ran (t_tasks b)).
Definition holds (b : St) (p : process St) : Prop := specific p = Some b.

Lemma wp_in_thread {A} F (m : M St A) p b Q : holds b p ->
  wp F m b (fun a b' => Q a (mk_process (key_allocated p) (Some b') (freed p))) -> wp F (in_thread m) p Q.
Proof. unfold holds, in_thread, wp. intros ->. by destruct (m b) as [[]| | |]. Qed.

Lemma tls_hooks_ok s hook : tls_ok size_st s -> (hook = iv_tls_thread_init init_thread st_addr \/ hook = iv_tls_thread_deinit deinit_thread st_addr) ->
  exists s', hook s = Ok (tt, s') /\ tls_ok size_st s'.
Proof.
  intros [Hq (us&base&Hus&Hb)] [-> | ->].
  - eexists. split; [exact (init_hooks_spec init_thread st_addr _ us (set_tl_inited true s) Hus)|]. split; [done|]. by exists us, base.
  - eexists. split; [exact (deinit_hooks_spec deinit_thread st_addr _ us s Hus)|]. split; [done|]. by exists us, base.
Qed.

Lemma thread_init_spec raw b p key_create : fresh_block raw b -> key_allocated p = true \/ key_create = true ->
  client_memory = tasks_in raw ->
  wp any (iv_init key_create (Some b)) p (fun _ p' => exists b', p' = mk_process true (Some b') (freed p) /\
    task_rel st_tasks tasks (t_tasks b') (no_tasks raw b) /\ thread_ok b').
Proof.
  intros [(Hw&Hs&Ht&Hne&Hc&He) Hti (m&g&t&w&Hf) Hl] Hk Hcm. unfold iv_init. wprim.
  wbind. apply (wp_mono _ _ _ (fun _ p1 => p1 = mk_process true (specific p) (freed p))).
  { destruct (key_allocated p) eqn:Ek; cbn [negb when].
    - eapply wp_Ok; [reflexivity|]. rewrite <-Ek. by destruct p.
    - destruct Hk as [?| ->]; [done|]. by eapply wp_Ok; [reflexivity|]. }
  intros _ p1 ->. wprim.
  destruct (task_init_rel st_tasks tasks (t_tasks b) raw Hw Hs Ht Hne Hc He) as (ts&Ets&Hr).
  destruct (timer_init_spec first_leaf (t_timers b) Hti) as (ti&Eti&Hok&Hex&_).
  destruct (tls_hooks_ok (t_tls b) _ Hl ltac:(by left)) as (tl&Etl&Hl').
  wbind. eapply wp_in_thread; [reflexivity|]. apply wp_on_part. rewrite Hf.
  eapply wp_mono; [apply (fd_init_ok clock_gettime gettimeofday (fd_handler cl) m g t w)|]. cbv beta. intros _ f [Hfds _].
  wbind. eapply wp_in_thread; [reflexivity|]. apply wp_on_part. eapply wp_Ok; [exact Ets|].
  wbind. eapply wp_in_thread; [reflexivity|]. apply wp_on_part. eapply wp_Ok; [exact Eti|].
  wbind. eapply wp_in_thread; [reflexivity|]. eapply wp_Ok; [reflexivity|].
  eapply wp_in_thread; [reflexivity|]. apply wp_on_part. eapply wp_Ok; [exact Etl|].
  eexists. split; [reflexivity|]. split; [exact Hr|]. split; [|done|done|done].
  exists (no_tasks raw b). split; [exact Hr|]. split; [|split; [done|unfold task_memory; cbn; by rewrite dom_empty_L, union_empty_l_L]]. split; [apply NoDup_nil_2|].
  intros x [Hx|Hx]%listed_true; by apply not_elem_of_nil in Hx.
Qed.

Lemma setup_spec raw b b' p : task_rel st_tasks tasks (t_tasks b') (no_tasks raw b) -> thread_ok b' ->
  client_memory = tasks_in raw -> (forall c, c ∈ su_tasks p -> task_of c ∈ client_memory) -> wp any (run_setup p) b' (fun _ b2 => thread_ok b2).
Proof.
  intros Hr [_ [Hti Hex] Hf Hl] Hcm Hu. unfold run_setup.
  assert (task_memory (no_tasks raw b) = client_memory) as Hm0 by (unfold task_memory; cbn; by rewrite dom_empty_L, union_empty_l_L).
  destruct (am_calls_memory (su_tasks p) (no_tasks raw b) ltac:(by rewrite Hm0)) as [Hund Hm].
  pose proof (calls_refine st_tasks tasks (task_handler cl) (su_tasks p) _ _ Hr) as Hc.
  wbind. apply wp_on_part. unfold refines in Hc. destruct (am_calls (su_tasks p) (no_tasks raw b)) as [[[] a]|msg| |] eqn:Ea; [| |done|].
  - destruct Hc as (ts&Ets&Hr'). eapply wp_Ok; [exact Ets|].
    assert (am_ok (no_tasks raw b)) as Ha0.
    { split; [apply NoDup_nil_2|]. intros x [Hx|Hx]%listed_true; by apply not_elem_of_nil in Hx. }
    destruct (am_calls_ok _ _ _ Ha0 Ea) as (Ha&_). pose proof (am_calls_no_round _ (no_tasks raw b) _ eq_refl Ea) as Hn.
    wbind. apply wp_on_part. eapply wp_any, wp_mono; [by apply steps_spec|]. cbv beta. intros _ ti (Hti'&Hex'&_).
    apply wp_on_part. eapply wp_mono; [by apply (calls_ok clock_gettime gettimeofday (fd_handler cl))|]. cbv beta.
    intros _ f [Hf' _]. specialize (Hm _ eq_refl). rewrite Hm0 in Hm. split; [by exists a|done..].
  - unfold wp. by rewrite Hc.
  - by apply am_calls_fuel in Ea.
Qed.

Lemma fd_deinit_ok f : fds_ok f -> wp any (iv_fd_deinit methods) f (fun _ _ => True).
Proof.
  assert (forall e, pm_u (fs_pm f) = UEpoll e -> wp any iv_fd_epoll_deinit f (fun _ _ => True)) as He.
  { intros e E. unfold iv_fd_epoll_deinit. wrun (load_es_Ok f e E). wbind.
    apply (wp_mono _ _ _ (fun _ _ => True)); [by destruct (negb _)|]. done. }
  assert (forall q, pm_u (fs_pm f) = UPoll q -> wp any iv_fd_poll_deinit f (fun _ _ => True)) as Hq.
  { intros q E. unfold iv_fd_poll_deinit. wrun (load_ps_Ok f q E). done. }
  assert (forall d, pm_u (fs_pm f) = UPort d -> wp any iv_fd_port_deinit f (fun _ _ => True)) as Ho.
  { intros d E. unfold iv_fd_port_deinit. wrun (load_port_Ok f d E). by destruct (negb _). }
  unfold iv_fd_deinit. intros [[k Hok] _]. destruct (fam_method k f Hok) as (m&Hm&Ek). wrun (the_method_Ok methods f m Hm).
  destruct Hok as [_ Hok]. destruct m; cbn in Ek; subst k; cbn in Hok.
  1,2: destruct Hok as (?&(_&d&Hd&_)&_); exact (Ho d Hd).
  - destruct Hok as (?&(_&d&Hd&_)&_). change (wp any iv_fd_dev_poll_deinit f (fun _ _ => True)). unfold iv_fd_dev_poll_deinit.
    by wrun (load_dp_Ok f d Hd).
  - destruct Hok as (u&Hu&_). exact (He u Hu).
  - destruct Hok as (u&Hu&_). exact (He u Hu).
  - destruct Hok as (?&(_&d&Hd&_)&_). change (wp any iv_fd_kqueue_deinit f (fun _ _ => True)). unfold iv_fd_kqueue_deinit.
    by wrun (load_kq_Ok f d Hd).
  - destruct Hok as (u&Hu&_). exact (Hq u Hu).
  - destruct Hok as (u&Hu&_). exact (Hq u Hu).
Qed.

Lemma deinit_thread_spec p b : holds b p -> thread_ok b ->
  wp any iv_deinit p (fun _ p' => specific p' = None /\ exists b', freed p' = b' :: freed p /\
    t_quit b' = t_quit b /\ t_tasks b' = t_tasks b /\ dom (tm_nodes (t_timers b')) = {[first_leaf]}).
Proof.
  intros Hp [Hta [((H&d&hw&A&_&Hs&_)&_) Hex] Hf Hl]. unfold iv_deinit, __iv_deinit.
  destruct (tls_hooks_ok (t_tls b) _ Hl ltac:(by right)) as (tl&Etl&Hl').
  wbind. eapply wp_in_thread; [exact Hp|]. apply wp_on_part. eapply wp_Ok; [exact Etl|].
  wbind. eapply wp_in_thread; [reflexivity|]. eapply wp_Ok; [reflexivity|].
  wbind. eapply wp_in_thread; [reflexivity|]. apply wp_on_part. cbn [t_fds set_t_tls].
  eapply wp_mono; [by apply (fd_deinit_ok (t_fds b))|]. cbv beta.
  intros _ f _. wbind. eapply wp_in_thread; [reflexivity|]. apply wp_on_part. cbn [t_timers set_t_tls set_t_fds].
  eapply wp_mono; [apply (deinit_spec any first_leaf (t_timers b) d hw A H (hs_array _ _ _ _ _ _ Hs) (hs_depth _ _ _ _ _ _ Hs))|].
  cbv beta. intros _ ti [Hd _]. eapply wp_Ok; [reflexivity|]. split; [done|]. eexists. split; [reflexivity|]. done.
Qed.

Lemma outcome_in_thread {A} (m : M St A) p b Q R : holds b p ->
  outcome (F := any) m b (fun a b' => Q a (mk_process (key_allocated p) (Some b') (freed p))) R ->
  outcome (F := any) (in_thread m) p Q R.
Proof. unfold holds, in_thread, outcome. intros ->. by destruct (m b) as [[]| | |]. Qed.

(** C13. The life of a thread with tasks, timers and descriptors: from a zeroed block,
    [iv_init], any calls of the client on its tasks, timers and descriptors, and [iv_main]
    for as long as it runs, with handlers that make any such calls to their own component
    and tasks that call [iv_quit] (a call outside of an interface ends the program with a
    message): nothing undefined is met, and [iv_main] returns only after [iv_quit] or when
    no object is left.  Then [iv_deinit] frees the block, with the radix tree gone, and
    the thread has no block any more. *)
Theorem iv_thread_life raw b p key_create prog fuel : fresh_block raw b -> key_allocated p = true \/ key_create = true ->
  client_memory = tasks_in raw -> (forall c, c ∈ su_tasks prog -> task_of c ∈ client_memory) ->
  outcome (F := any) (thread_life key_create (Some b) prog fuel) p (fun _ p1 => exists b1,
    specific p1 = Some b1 /\ freed p1 = freed p /\ (st_quit b1 = true \/ st_numobjs b1 = 0) /\
    wp any iv_deinit p1 (fun _ p2 => specific p2 = None /\ exists b2, freed p2 = b2 :: freed p /\
      dom (tm_nodes (t_timers b2)) = {[first_leaf]})) True.
Proof.
  intros Hb Hk Hcm Hu. unfold thread_life. apply outcome_bind. eapply wp_mono; [by apply thread_init_spec|]. cbv beta.
  intros _ p1 (b1&->&Hr&Hok). apply outcome_bind. eapply wp_in_thread; [reflexivity|].
  eapply wp_mono; [by eapply setup_spec|]. cbv beta. intros _ b2 Hok2.
  eapply outcome_in_thread; [reflexivity|]. eapply outcome_mono; [exact (main_turns (F := any) fuel b2 (Hok2 : ml_inv (F := any) b2))| |done].
  cbv beta. intros _ b3 (Hok3&Hend&_). exists b3. split_and!; [done|done|done|].
  eapply wp_mono; [eapply deinit_thread_spec; [reflexivity|exact Hok3]|]. cbv beta. intros _ p2 (Hs&b4&Hf&_&_&Hd).
  split; [done|]. by exists b4.
Qed.
End thread.

(** ** What the loop does, whatever the components *)

(** C19. [iv_main] is its turns: while it runs, every turn runs the timers (if the last poll
    asked for it) and the tasks, and polls with no time to wait when tasks are pending and
    up to the soonest timer otherwise, and it polls only while there is an object and
    nobody called [iv_quit]; it returns after exactly those turns.  After [iv_quit], from
    any handler of a turn, the loop ends without another poll. *)
Theorem iv_main_turns {S : Type} {F : string -> Prop} `{!MainOps S, !MainLaws S F} fuel (s : S) : ml_inv s ->
  outcome (F := F) (iv_main fuel) s
    (fun _ s' => (st_quit s' = true \/ st_numobjs s' = 0) /\ exists l, turns true (set_st_quit false s) l s' /\ (length l < fuel)%nat)
    (exists l s', running true (set_st_quit false s) l s' /\ length l = fuel) /\
  (forall l s', turns true (set_st_quit false s) l s' -> (length l < fuel)%nat -> iv_main fuel s = Ok (tt, s')) /\
  (forall rt p s', turn rt s (Some p) s' -> st_quit s' = true -> wp F (main_loop 2 rt) s (fun _ s'' => st_quit s'' = true)).
Proof.
  intros Hs. split_and!.
  - eapply outcome_mono; [by apply main_turns| |done]. cbv beta. tauto.
  - intros l s' Hl Hf. unfold iv_main. rewrite (bind_Ok _ _ _ _ _ (eq_refl : modify (set_st_quit false) s = Ok (tt, set_st_quit false s))).
    eapply turns_loop; [done|by apply law_quit_inv|done].
  - intros rt [[s1 abs] rt'] s' Ht Hq. change (main_loop 2 rt) with (main_loop (S := S) (Datatypes.S 1) rt).
    destruct (turn_step (F := F) 1 _ _ _ _ _ _ Ht Hs) as [E Hs']. unfold wp. rewrite E.
    eapply wp_mono; [by apply (loop_ends (F := F) 0 rt' s')|]. cbv beta. tauto.
Qed.

(** ** A thread on the simulated kernel

    Task 3 runs once, and its handler registers task 4; timer 2 is due later and its handler registers it again once;
    descriptors 5 and 6 are readable, and the first handler unregisters both. *)
Definition main_tasks (ran : list loc) : list task_call := match ran with [3%positive] => [TInit 4; TRegister 4] | _ => [] end.
Definition main_client (q : gset loc) : client := mk_client main_tasks
  (fun ran => match ran with [2%positive] => [TmExpires 2 (mk_tsp 4 0); TmRegister 2] | _ => [] end) FdProps.demo_handler q.
Definition main_block : thread sim unit :=
  mk_thread false (task_boot 5)
    (mk_tms {[1%positive := ∅]} 0 0 {[2%positive := mk_timer (mk_tsp 2 0) (-1)]} [] 0 (mk_tsp 0 0) false 0 0 [])
    (demo_blank "epoll-timerfd") (tls_boot 500 ∅ tt).
Definition main_setup : setup := mk_setup [TInit 3; TRegister 3] [TmRegister 2] demo_setup.
Definition no_hook (x : loc) (a : Z) (w : unit) : unit := w.
Abbreviation demo_life q := (thread_life sim_clock sim_timeofday demo_calloc no_hook no_hook 1000 1 2 1 (main_client q)).
Definition demo_ran (r : res (unit * process (thread sim unit))) : option (list loc * list loc * list (loc * Z) * bool) :=
  match r with
  | Ok (_, p) => match specific p with
                 | Some b => Some (ts_ran (t_tasks b), tm_ran (t_timers b), fs_ran (t_fds b) ≫= what, t_quit b)
                 | None => None
                 end
  | _ => None
  end.

Abbreviation main_memory := (tasks_in 1%positive 2%positive boot_raw).
Lemma main_tasks_in ran c : c ∈ main_tasks ran -> task_of c ∈ main_memory.
Proof.
  unfold main_tasks, tasks_in, boot_raw.
  repeat case_match; rewrite ?elem_of_cons, ?elem_of_nil; try done. intros [-> |[-> |[]]]; set_solver +.
Qed.
Lemma main_setup_in c : c ∈ su_tasks main_setup -> task_of c ∈ main_memory.
Proof. cbn. unfold tasks_in, boot_raw. rewrite !elem_of_cons, elem_of_nil. intros [-> |[-> |[]]]; set_solver +. Qed.
Lemma main_block_fresh : fresh_block 1 2 1 500 boot_raw main_block.
Proof.
  split.
  - split; [exact boot_world|]. unfold boot_raw. split_and!; try done; set_solver +.
  - split; try done. intros t tm Ht. cbn in Ht. apply lookup_singleton_Some in Ht as [_ <-]. done.
  - by eexists _, _, _, _.
  - apply tls_boot_ok. lia.
Qed.

Lemma main_life_runs : exists p1, demo_life ∅ true (Some main_block) main_setup 20 (mk_process false None []) = Ok (tt, p1) /\
  option_map (fun x => tm_ran (t_timers x)) (specific p1) = Some [2; 2]%positive.
Proof.
  assert (match demo_life ∅ true (Some main_block) main_setup 20 (mk_process false None []) with
    Ok (_, p) => option_map (fun x => tm_ran (t_timers x)) (specific p) | _ => None end = Some [2; 2]%positive) as E by (vm_compute; reflexivity).
  destruct (demo_life _ _ _ _ _ _) as [[[] p1]| | |]; [|done..]. by exists p1.
Qed.

Lemma iv_thread_life_witness : exists p1 b1,
  demo_life ∅ true (Some main_block) main_setup 20 (mk_process false None []) = Ok (tt, p1) /\
  specific p1 = Some b1 /\ tm_ran (t_timers b1) = [2; 2]%positive /\
  wp any (iv_deinit (MainOps0 := thread_ops sim_clock sim_timeofday demo_calloc no_hook no_hook 1000 1 2 1 (main_client ∅))) p1
    (fun _ p2 => specific p2 = None /\ exists b2, freed p2 = [b2] /\ dom (tm_nodes (t_timers b2)) = {[1%positive]}).
Proof.
  pose proof (iv_thread_life sim_clock sim_timeofday demo_calloc no_hook no_hook 1000 1 2 1 (main_client ∅) 500 demo_calloc_fresh
    main_memory main_tasks_in boot_raw main_block (mk_process false None []) true main_setup 20
    main_block_fresh (or_intror eq_refl)) as H.
  specialize (H eq_refl main_setup_in). destruct main_life_runs as (p1&El&E).
  pose proof (outcome_cases _ _ _ _ _ H El) as H1. cbv beta iota in H1. destruct H1 as (b1&Hs&_&_&Hd).
  exists p1, b1. rewrite Hs in E. injection E as E. exact (conj El (conj Hs (conj E Hd))).
Defined.

(** The same thread before [iv_main], task 3 calling [iv_quit]. *)
Abbreviation quit_ops := (thread_ops sim_clock sim_timeofday demo_calloc no_hook no_hook 1000 1 2 1 (main_client {[3%positive]})).
Lemma main_ready : exists s : thread sim unit, thread_ok 1 2 1 500 main_memory s /\
  (iv_init (MainOps0 := quit_ops) true (Some main_block);;
   in_thread (run_setup sim_clock sim_timeofday demo_calloc 1 1 (main_client {[3%positive]}) main_setup)) (mk_process false None []) =
    Ok (tt, mk_process true (Some s) []).
Proof.
  set (m := (_ ;; _)).
  assert (wp any m (mk_process false None []) (fun _ p => exists s, thread_ok 1 2 1 500 main_memory s /\ p = mk_process true (Some s) [])) as H.
  { unfold m. wbind. eapply wp_mono; [apply (thread_init_spec sim_clock sim_timeofday demo_calloc no_hook no_hook 1000 1 2 1
      (main_client {[3%positive]}) 500 main_memory boot_raw main_block _ true main_block_fresh (or_intror eq_refl) eq_refl)|]. cbv beta.
    intros _ p1 (b1&->&Hr&Hok). eapply wp_in_thread; [reflexivity|].
    eapply wp_mono; [eapply setup_spec; [apply _|exact demo_calloc_fresh|exact Hr|exact Hok|reflexivity|exact main_setup_in]|]. cbv beta.
    intros [] b2 Hok2. exists b2. split; [exact Hok2|reflexivity]. }
  assert (match m (mk_process false None []) with Fatal _ => true | _ => false end = false) as Hf by (vm_compute; reflexivity).
  clearbody m.
  destruct (wp_inv _ _ _ _ H) as [(e&E&_)|([]&p1&E&s&Hs&->)]; [exfalso; rewrite E in Hf; discriminate Hf|]. exists s. exact (conj Hs E).
Qed.

Lemma iv_main_turns_witness : exists s l s', thread_ok 1 2 1 500 main_memory s /\ iv_main (MainOps0 := quit_ops) 2 s = Ok (tt, s') /\
  t_quit s' = true /\ turns (MainOps0 := quit_ops) true (set_t_quit false s) l s' /\ (length l < 2)%nat.
Proof.
  destruct main_ready as (s&Hs&E).
  pose proof (iv_main_turns (S := thread sim unit) (F := any) (MainOps0 := quit_ops)
    (MainLaws0 := thread_laws sim_clock sim_timeofday demo_calloc no_hook no_hook 1000 1 2 1 (main_client {[3%positive]}) 500 demo_calloc_fresh
      main_memory main_tasks_in) 2 s Hs) as [H _].
  assert (exists s', iv_main (MainOps0 := quit_ops) 2 s = Ok (tt, s') /\ t_quit s' = true) as (s'&Es&Hq).
  { assert (match (iv_init (MainOps0 := quit_ops) true (Some main_block);;
      in_thread (run_setup sim_clock sim_timeofday demo_calloc 1 1 (main_client {[3%positive]}) main_setup)) (mk_process false None []) with
      | Ok (_, p) => match specific p with Some s => match iv_main (MainOps0 := quit_ops) 2 s with Ok (_, s') => t_quit s' | _ => false end | None => false end
      | _ => false end = true) as E2 by (vm_compute; reflexivity).
    rewrite E in E2. cbn [specific] in E2. destruct (iv_main 2 s) as [[[] s']| | |]; [|discriminate E2..]. exists s'. split; [reflexivity|exact E2]. }
  unfold outcome in H. rewrite Es in H. destruct H as (_&l&Hl&Hlen). exists s, l, s'. exact (conj Hs (conj Es (conj Hq (conj Hl Hlen)))).
Defined.
