(* ===== verification/Conc.v ===== *)
(** * Programs of several threads

    Code that runs in several threads is a [prog]: a tree of atomic actions, each
    of which runs to its end before another thread's does -- the sections between
    the lock and the unlock of a mutex, single system calls, and accesses to what
    belongs to one thread.  [exec] runs a program alone; [step] interleaves the
    programs of any number of threads.  [wpc] proves programs correct one thread at
    a time: [Inv] holds between actions, and what a thread knows about itself
    ([aux]) survives what the others do. *)

From S2P Require Import Prelude.

Inductive prog (S A : Type) : Type :=
  | Ret (a : A)
  | Act {B : Type} (m : M S B) (k : B -> prog S A).
Arguments Ret {_ _} _.
Arguments Act {_ _ _} _ _.

#[global] Instance prog_ret S : MRet (prog S) := fun A a => Ret a.
#[global] Instance prog_bind S : MBind (prog S) := fun A B k =>
  fix bind p := match p with Ret a => k a | Act m k' => Act m (fun b => bind (k' b)) end.
Definition act {S A} (m : M S A) : prog S A := Act m Ret.

(** A program alone. *)
Fixpoint exec {S A} (p : prog S A) : M S A :=
  match p with
  | Ret a => mret a
  | Act m k => b ← m; exec (k b)
  end.

Lemma exec_bind {S A B} (p : prog S A) (k : A -> prog S B) s a s1 :
  exec p s = Ok (a, s1) -> exec (p ≫= k) s = exec (k a) s1.
Proof.
  revert s. induction p as [a0|C m k' IH]; intros s; cbn; [by intros [= <- <-]|]. unfold mbind, M_bind.
  destruct (m s) as [[c s']| | |]; try done. apply IH.
Qed.

Section threads.
Context {S : Type}.

(** The state and what is left of every thread's program. *)
Definition config : Type := S * gmap loc (prog S unit).
(** What a thread with nothing left to do may begin. *)
Context (may_start : loc -> prog S unit -> Prop).

Inductive step : config -> config -> Prop :=
  | step_act t s pool B (m : M S B) k b s' : pool !! t = Some (Act m k) -> m s = Ok (b, s') ->
      step (s, pool) (s', <[t := k b]> pool)
  | step_start t s pool p : pool !! t = Some (Ret tt) -> may_start t p -> step (s, pool) (s, <[t := p]> pool).
Definition steps : config -> config -> Prop := rtc step.

Context {L : Type} (Inv : S -> Prop) (aux : S -> loc -> L) (idle : L) (F : string -> Prop).

Fixpoint wpc (t : loc) {A} (p : prog S A) (l : L) (Q : A -> L -> Prop) : Prop :=
  match p with
  | Ret a => Q a l
  | Act m k => forall s, Inv s -> aux s t = l -> wp F m s (fun b s' =>
      Inv s' /\ (forall t', t' <> t -> aux s' t' = aux s t') /\ wpc t (k b) (aux s' t) Q)
  end.

Lemma wpc_mono t {A} (p : prog S A) l (Q Q' : A -> L -> Prop) :
  wpc t p l Q -> (forall a l, Q a l -> Q' a l) -> wpc t p l Q'.
Proof.
  revert l. induction p as [a|B m k IH]; intros l Hp HQ; cbn in *; [auto|]. intros s Hs Hl.
  eapply wp_mono; [by apply Hp|]. cbv beta. intros b s' (?&?&?). eauto.
Qed.
Lemma wpc_bind t {A B} (p : prog S A) (k : A -> prog S B) l Q :
  wpc t p l (fun a l' => wpc t (k a) l' Q) -> wpc t (p ≫= k) l Q.
Proof.
  revert l. induction p as [a|C m k' IH]; intros l Hp; [exact Hp|]. cbn. intros s Hs Hl.
  eapply wp_mono; [by apply (Hp s)|]. cbv beta. intros b s' (?&?&?). eauto.
Qed.
Lemma wpc_act t {A} (m : M S A) l (Q : A -> L -> Prop) :
  (forall s, Inv s -> aux s t = l -> wp F m s (fun a s' =>
     Inv s' /\ (forall t', t' <> t -> aux s' t' = aux s t') /\ Q a (aux s' t))) -> wpc t (act m) l Q.
Proof. intros H. exact H. Qed.

Record config_ok (c : config) : Prop := {
  co_inv : Inv c.1;
  co_threads : forall t p, c.2 !! t = Some p -> wpc t p (aux c.1 t) (fun _ l => l = idle) }.

Lemma step_ok c c' : (forall t p, may_start t p -> wpc t p idle (fun _ l => l = idle)) ->
  config_ok c -> step c c' -> config_ok c'.
Proof.
  intros Hstart [HI Ht] Hs. destruct Hs as [t s pool B m k b s' Hp E|t s pool p Hp Hm]; cbn in *.
  - pose proof (Ht _ _ Hp s HI eq_refl) as Hw. destruct (wp_result _ _ _ _ _ _ Hw E) as (HI'&Ho&Hk).
    split; [done|]. cbn. intros t' p'. rewrite lookup_insert. case_decide as Et; [intros [= <-]; by subst|].
    intros Hp'. rewrite Ho by congruence. auto.
  - split; [done|]. cbn. intros t' p'. rewrite lookup_insert. case_decide as Et; [|auto].
    intros [= <-]. subst t'. pose proof (Ht _ _ Hp) as Hi. cbn in Hi. rewrite Hi. by apply Hstart.
Qed.
Lemma steps_ok c c' : (forall t p, may_start t p -> wpc t p idle (fun _ l => l = idle)) ->
  config_ok c -> steps c c' -> config_ok c'.
Proof. intros Hstart Hc Hs. induction Hs; [done|]. eauto using step_ok. Qed.

(** No thread's next action is undefined. *)
Lemma config_safe c t B (m : M S B) k : config_ok c -> c.2 !! t = Some (Act m k) -> wp F m c.1 (fun _ _ => True).
Proof. intros [HI Ht] Hp. eapply wp_mono; [by apply (Ht _ _ Hp)|done]. Qed.
End threads.

(** ** Schedules, to run concrete interleavings

    One choice of the scheduler: a thread's next action, or what it begins. *)
Inductive choice (X : Type) := Go (t : loc) | Begin (t : loc) (b : X).
Arguments Go {_} _.
Arguments Begin {_} _ _.
Section schedules.
Context {S X : Type} (start : loc -> X -> option (prog S unit)).
Definition sched1 (c : choice X) (cf : S * gmap loc (prog S unit)) :=
  match c with
  | Go t => match cf.2 !! t with
            | Some (Act m k) => match m cf.1 with Ok (b, s') => Some (s', <[t := k b]> cf.2) | _ => None end
            | _ => None
            end
  | Begin t b => match cf.2 !! t, start t b with Some (Ret tt), Some p => Some (cf.1, <[t := p]> cf.2) | _, _ => None end
  end.
Fixpoint sched (cs : list (choice X)) cf :=
  match cs with [] => Some cf | c :: cs => cf' ← sched1 c cf; sched cs cf' end.
(** The configuration a schedule leads to, or the first one. *)
Definition sched_from (cs : list (choice X)) cf : S * gmap loc (prog S unit) := default cf (sched cs cf).

Abbreviation may_begin := (fun t p => exists b, start t b = Some p).
Lemma sched1_step c cf cf' : sched1 c cf = Some cf' -> step may_begin cf cf'.
Proof.
  destruct c as [t|t b], cf as [s pool]; cbn.
  - destruct (pool !! t) as [[a|B m k]|] eqn:Hp; try done. destruct (m s) as [[b s']| | |] eqn:E; try done.
    intros [= <-]. by eapply step_act.
  - destruct (pool !! t) as [[[]|B m k]|] eqn:Hp; try done. destruct (start t b) as [p|] eqn:E; [|done].
    intros [= <-]. apply step_start; [done|]. by exists b.
Qed.
Lemma sched_steps cs cf : steps may_begin cf (sched_from cs cf).
Proof.
  assert (forall cs c c', sched cs c = Some c' -> steps may_begin c c') as H.
  { induction cs0 as [|x cs0 IH]; intros c c'; cbn; [intros [= <-]; constructor|].
    destruct (sched1 x c) as [c1|] eqn:E; [|done]. intros E2. eapply rtc_l; [by eapply sched1_step|]. by apply IH. }
  unfold sched_from. destruct (sched cs cf) as [c|] eqn:E; cbn; [by eapply H|constructor].
Qed.
End schedules.
