(* ===== verification/Event.v ===== *)
(** * Events (iv_event.c)

    An event belongs to the thread that registered it; any thread may post it, and
    its handler runs in its owner.  The code is modelled as programs of several
    threads (Conc.v): a section under [event_list_mutex] is one action. *)

From S2P Require Import Prelude Conc.

Local Open Scope Z_scope.

(** What iv_event.c calls: [is_mt_app]; the poll method's [event_rx_on] (non-zero
    when it cannot), [event_rx_off] and [event_send]; the three operations of the
    thread's [events_kick] (EventRaw.v); and [wk_take], the thread's poll reporting
    that it was woken. *)
Class Wakeups (W : Type) := {
  is_mt_app : bool;
  event_rx_on : loc -> W -> bool * W;
  event_rx_off : loc -> W -> W;
  event_send : loc -> W -> W;
  kick_register : loc -> W -> Z * W;
  kick_unregister : loc -> W -> W;
  kick_post : loc -> W -> W;
  wk_take : loc -> W -> bool * W }.

(** Where a thread is, as far as the proofs need it: outside of the code below,
    about to wake [dst] after posting [e], about to run the pending events, about
    to call the handler of [e], or unregistering [e]. *)
Inductive event_pc := PIdle | PKick (dst e : loc) | PRun | PCall (e : loc) | PUnregister (e : loc) (linked : bool).

(** The event fields of a thread's [struct iv_state]: [et_local] tells whether
    [events_local] is registered, [et_batch] is the list [events] on the stack of
    [__iv_event_run_pending_events].  [et_pc], [et_posted] (the events that were
    put on the list, in order, less those unregistered before they ran) and
    [et_ran] (the handlers called) are only there for the proofs. *)
Record ev_thread := mk_et {
  et_numobjs : Z;
  et_event_count : Z;
  et_pending : list loc;
  et_batch : list loc;
  et_local : bool;
  et_pc : event_pc;
  et_posted : list loc;
  et_ran : list loc }.
Definition set_et_numobjs v t := mk_et v (et_event_count t) (et_pending t) (et_batch t) (et_local t) (et_pc t) (et_posted t) (et_ran t).
Definition set_et_event_count v t := mk_et (et_numobjs t) v (et_pending t) (et_batch t) (et_local t) (et_pc t) (et_posted t) (et_ran t).
Definition set_et_pending v t := mk_et (et_numobjs t) (et_event_count t) v (et_batch t) (et_local t) (et_pc t) (et_posted t) (et_ran t).
Definition set_et_batch v t := mk_et (et_numobjs t) (et_event_count t) (et_pending t) v (et_local t) (et_pc t) (et_posted t) (et_ran t).
Definition set_et_local v t := mk_et (et_numobjs t) (et_event_count t) (et_pending t) (et_batch t) v (et_pc t) (et_posted t) (et_ran t).
Definition set_et_pc v t := mk_et (et_numobjs t) (et_event_count t) (et_pending t) (et_batch t) (et_local t) v (et_posted t) (et_ran t).
Definition set_et_posted v t := mk_et (et_numobjs t) (et_event_count t) (et_pending t) (et_batch t) (et_local t) (et_pc t) v (et_ran t).
Definition set_et_ran v t := mk_et (et_numobjs t) (et_event_count t) (et_pending t) (et_batch t) (et_local t) (et_pc t) (et_posted t) v.

(** The threads, [ie->owner] of every event, the events whose list cell is
    initialised and on no list, the static [iv_event_use_event_raw], and -- for
    the proofs -- the registered events. *)
Record ev_state (W : Type) := mk_ev {
  es_threads : gmap loc ev_thread;
  es_owner : gmap loc loc;
  es_unlinked : gset loc;
  es_use_raw : bool;
  es_registered : gset loc;
  es_w : W }.
Arguments mk_ev {_}.
Arguments es_threads {_} _.
Arguments es_owner {_} _.
Arguments es_unlinked {_} _.
Arguments es_use_raw {_} _.
Arguments es_registered {_} _.
Arguments es_w {_} _.
Definition set_es_threads {W} v (s : ev_state W) := mk_ev v (es_owner s) (es_unlinked s) (es_use_raw s) (es_registered s) (es_w s).
Definition set_es_owner {W} v (s : ev_state W) := mk_ev (es_threads s) v (es_unlinked s) (es_use_raw s) (es_registered s) (es_w s).
Definition set_es_unlinked {W} v (s : ev_state W) := mk_ev (es_threads s) (es_owner s) v (es_use_raw s) (es_registered s) (es_w s).
Definition set_es_use_raw {W} v (s : ev_state W) := mk_ev (es_threads s) (es_owner s) (es_unlinked s) v (es_registered s) (es_w s).
Definition set_es_registered {W} v (s : ev_state W) := mk_ev (es_threads s) (es_owner s) (es_unlinked s) (es_use_raw s) v (es_w s).
Definition set_es_w {W} (v : W) (s : ev_state W) := mk_ev (es_threads s) (es_owner s) (es_unlinked s) (es_use_raw s) (es_registered s) v.

(** The calls a client may make in its thread. *)
Inductive ev_call := ERegister (e : loc) | EUnregister (e : loc) | EPost (e : loc).

Section event.
Context {W : Type} `{!Wakeups W}.
Abbreviation St := (ev_state W).
(** What a handler calls, given the handlers its thread called so far. *)
Context (handler : loc -> list loc -> list ev_call).

(** ** State access *)
Definition load_thread (t : loc) : M St ev_thread := m ← gets es_threads; deref (m !! t).
Definition upd_thread (t : loc) (g : ev_thread -> ev_thread) : M St unit :=
  th ← load_thread t; modify (fun s => set_es_threads (<[t := g th]> (es_threads s)) s).
Definition kernel {A} (call : W -> A * W) : M St A := fun s => let '(a, w) := call (es_w s) in Ok (a, set_es_w w s).
Definition kernel_ (call : W -> W) : M St unit := modify (fun s => set_es_w (call (es_w s)) s).
Definition load_owner (e : loc) : M St loc := m ← gets es_owner; deref (m !! e).

Definition nobody (P : event_pc -> bool) (ths : gmap loc ev_thread) : bool :=
  forallb (fun p => negb (P (et_pc p.2))) (map_to_list ths).
Definition unregistering (e : loc) (pc : event_pc) : bool :=
  match pc with PUnregister e' _ => bool_decide (e = e') | _ => false end.
Definition posting (e : loc) (pc : event_pc) : bool := match pc with PKick _ e' => bool_decide (e = e') | _ => false end.

Definition linked (th : ev_thread) (e : loc) : bool := bool_decide (e ∈ et_pending th \/ e ∈ et_batch th).
(** [iv_list_empty(&ie->list)] of an event, that only its owner's lists can hold. *)
Definition cell_empty (e : loc) : M St bool :=
  dst ← load_owner e;
  th ← load_thread dst;
  u ← gets es_unlinked;
  if linked th e then mret false else if bool_decide (e ∈ u) then mret true else undef.
(** [iv_list_del] leaves the cell dangling, [iv_list_del_init] leaves it empty. *)
Definition event_list_del (e : loc) : M St unit :=
  dst ← load_owner e;
  th ← load_thread dst;
  u ← gets es_unlinked;
  if linked th e then
    upd_thread dst (fun th => set_et_pending (remove e (et_pending th)) (set_et_batch (remove e (et_batch th)) th))
  else if bool_decide (e ∈ u) then modify (set_es_unlinked (u ∖ {[e]})) else undef.

(** ** Running what was posted *)

(** [ie = first of events; iv_list_del_init(&ie->list);
    empty_now = iv_list_empty(&events);] *)
Definition take_first (me : loc) : M St (loc * bool) :=
  th ← load_thread me;
  match et_batch th with
  | [] => undef
  | e :: q =>
      upd_thread me (set_et_batch q);;
      modify (fun s => set_es_unlinked ({[e]} ∪ es_unlinked s) s);;
      upd_thread me (set_et_pc (PCall e));;
      mret (e, bool_decide (q = []))
  end.

(** From the first lock to the first unlock. *)
Definition steal_pending (me : loc) : M St (option (loc * bool)) :=
  th ← load_thread me;
  match et_pending th with
  | [] => upd_thread me (set_et_pc PIdle);; mret None
  | q =>
      upd_thread me (set_et_batch q);;
      upd_thread me (set_et_pending []);;
      r ← take_first me;
      mret (Some r)
  end.
(** From a later lock to its unlock. *)
Definition next_pending (me : loc) : M St (option (loc * bool)) :=
  th ← load_thread me;
  match et_batch th with
  | [] => mret None
  | _ => r ← take_first me; mret (Some r)
  end.

(** ** Posting *)

(** From the lock to the unlock; the answer is [post], with the owner. *)
Definition post_section (me e : loc) : M St (loc * bool) :=
  reg ← gets es_registered;
  requires (bool_decide (e ∈ reg));;
  dst ← load_owner e;
  requires (is_mt_app || bool_decide (dst = me));;
  empty ← cell_empty e;
  if empty : bool then
    th ← load_thread dst;
    upd_thread dst (fun th => set_et_pending (et_pending th ++ [e]) (set_et_posted (et_posted th ++ [e]) th));;
    modify (fun s => set_es_unlinked (es_unlinked s ∖ {[e]}) s);;
    let post := bool_decide (et_pending th = []) in
    when post (upd_thread me (set_et_pc (PKick dst e)));;
    mret (dst, post)
  else mret (dst, false).

(** [if (!iv_task_registered(&me->events_local)) iv_task_register(&me->events_local);] *)
Definition register_local (me : loc) : M St unit :=
  th ← load_thread me;
  when (negb (et_local th)) (upd_thread me (set_et_local true));;
  upd_thread me (set_et_pc PIdle).
Definition kick (me dst : loc) : M St unit :=
  raw ← gets es_use_raw;
  (if raw : bool then kernel_ (kick_post dst) else kernel_ (event_send dst));;
  upd_thread me (set_et_pc PIdle).

Definition iv_event_post (me e : loc) : prog St unit :=
  r ← act (post_section me e);
  let '(dst, post) := r in
  if post : bool then
    if bool_decide (dst = me) then act (register_local me) else act (kick me dst)
  else mret tt.

(** ** Registering

    [st], the events it owns and the calls into the kernel are the calling
    thread's own; the flag is only ever set. *)
Definition register_kick (me : loc) : M St Z :=
  raw ← gets es_use_raw;
  when (negb raw) (
    failed ← kernel (event_rx_on me);
    when failed (modify (set_es_use_raw true)));;
  raw ← gets es_use_raw;
  if raw : bool then kernel (kick_register me) else mret 0.

Definition iv_event_register_body (me e : loc) : M St Z :=
  reg ← gets es_registered;
  owner ← gets es_owner;
  ths ← gets es_threads;
  requires (bool_decide (e ∉ reg) && nobody (unregistering e) ths);;
  upd_thread me (fun th => set_et_numobjs (et_numobjs th + 1) th);;
  th ← load_thread me;
  let count := et_event_count th in
  upd_thread me (set_et_event_count (count + 1));;
  ret ← (if (count =? 0) && is_mt_app then register_kick me else mret 0);
  if negb (ret =? 0) then upd_thread me (set_et_event_count count);; mret ret
  else
    modify (fun s => set_es_owner (<[e := me]> (es_owner s)) s);;
    modify (fun s => set_es_unlinked ({[e]} ∪ es_unlinked s) s);;
    modify (fun s => set_es_registered ({[e]} ∪ es_registered s) s);;
    mret 0.
Definition iv_event_register (me e : loc) : prog St Z := act (iv_event_register_body me e).

(** [if (!iv_list_empty(&this->list))], without the lock. *)
Definition unregister_look (me e : loc) : M St bool :=
  reg ← gets es_registered;
  owner ← gets es_owner;
  ths ← gets es_threads;
  requires (bool_decide (e ∈ reg) && bool_decide (owner !! e = Some me) &&
    nobody (posting e) ths);;
  empty ← cell_empty e;
  modify (set_es_registered (reg ∖ {[e]}));;
  upd_thread me (set_et_pc (PUnregister e (negb empty)));;
  mret empty.
(** What the proofs note when a listed event is unregistered. *)
Definition forget_posted (me e : loc) : M St unit :=
  upd_thread me (fun th => set_et_pc (PUnregister e false)
    (set_et_posted (et_ran th ++ remove e (drop (length (et_ran th)) (et_posted th))) th)).
Definition unregister_rest (me e : loc) : M St unit :=
  th ← load_thread me;
  let count := et_event_count th - 1 in
  upd_thread me (set_et_event_count count);;
  when ((count =? 0) && is_mt_app) (
    raw ← gets es_use_raw;
    if raw : bool then kernel_ (kick_unregister me) else kernel_ (event_rx_off me));;
  upd_thread me (fun th => set_et_numobjs (et_numobjs th - 1) th);;
  upd_thread me (set_et_pc PIdle).
Definition iv_event_unregister (me e : loc) : prog St unit :=
  empty ← act (unregister_look me e);
  (if negb empty then act (event_list_del e;; forget_posted me e) else mret tt);;
  act (unregister_rest me e).

(** ** The handler, and the loop around it *)
Definition run_ev_call (me : loc) (c : ev_call) : prog St unit :=
  match c with
  | ERegister e => iv_event_register me e;; mret tt
  | EUnregister e => iv_event_unregister me e
  | EPost e => iv_event_post me e
  end.
Fixpoint run_ev_calls (me : loc) (cs : list ev_call) : prog St unit :=
  match cs with [] => mret tt | c :: cs => run_ev_call me c;; run_ev_calls me cs end.
(** [ie->handler(ie->cookie)]: it is called, then makes its calls. *)
Definition enter_handler (me e : loc) : M St (list ev_call) :=
  upd_thread me (fun th => set_et_pc PIdle (set_et_ran (et_ran th ++ [e]) th));;
  th ← load_thread me;
  mret (handler me (et_ran th)).
Definition call_handler (me e : loc) : prog St unit := cs ← act (enter_handler me e); run_ev_calls me cs.

(** [while (1)]; [fuel] bounds the events taken at the start. *)
Fixpoint run_batch (me : loc) (fuel : nat) (e : loc) (empty_now : bool) : prog St unit :=
  match fuel with
  | O => act out_of_fuel
  | Datatypes.S fuel =>
      call_handler me e;;
      if empty_now then mret tt
      else
        r ← act (next_pending me);
        match r with
        | None => mret tt
        | Some (e, empty_now) => run_batch me fuel e empty_now
        end
  end.
Definition __iv_event_run_pending_events (me : loc) : prog St unit :=
  r ← act (steal_pending me);
  match r with
  | None => mret tt
  | Some (e, empty_now) => n ← act (gets (fun s => default O (length ∘ et_batch <$> es_threads s !! me)));
                           run_batch me (Datatypes.S n) e empty_now
  end.
Definition iv_event_run_pending_events (me : loc) : prog St unit := __iv_event_run_pending_events me.

(** ** What a thread does between its own calls: its poll reports that it was woken,
    or its task [events_local] runs *)
Definition take_wakeup (me : loc) : M St bool :=
  woken ← kernel (wk_take me);
  when woken (upd_thread me (set_et_pc PRun));;
  mret woken.
Definition poll_wakeup (me : loc) : prog St unit :=
  woken ← act (take_wakeup me);
  if woken : bool then iv_event_run_pending_events me else mret tt.
Definition take_local (me : loc) : M St bool :=
  th ← load_thread me;
  when (et_local th) (upd_thread me (fun th => set_et_pc PRun (set_et_local false th)));;
  mret (et_local th).
Definition local_task (me : loc) : prog St unit :=
  run ← act (take_local me);
  if run : bool then __iv_event_run_pending_events me else mret tt.

(** [iv_event_init]; numobjs is iv_main's. *)
Definition iv_event_init (me : loc) : M St unit :=
  modify (fun s => set_es_threads (<[me := mk_et 0 0 [] [] false PIdle [] []]> (es_threads s)) s).
End event.
