(* ===== verification/EventSpec.v ===== *)
(** * Events are not lost

    The laws of the wakeups, the invariant that holds between the actions of any
    number of threads, and that every action keeps it. *)

From S2P Require Import Prelude Conc Event.

Local Open Scope Z_scope.

(** [rx_set] and [kick_set] are the threads that can be woken by [event_send] and
    by [iv_event_raw_post]; [woken] are those whose next poll reports a wakeup (for
    certain: a wakeup may also be reported for nothing).  The poll method can either
    deliver events to every thread or to none. *)
Class WakeupLaws (W : Type) `{!Wakeups W} := {
  rx_works : bool;
  rx_set : W -> gset loc;
  kick_set : W -> gset loc;
  woken : W -> gset loc;
  law_rx_on : forall t w failed w', event_rx_on t w = (failed, w') -> failed = negb rx_works /\
    rx_set w' = (if failed then rx_set w else {[t]} ∪ rx_set w) /\ kick_set w' = kick_set w /\ woken w ⊆ woken w';
  law_rx_off : forall t w, rx_set (event_rx_off t w) = rx_set w ∖ {[t]} /\
    kick_set (event_rx_off t w) = kick_set w /\ woken w ∖ {[t]} ⊆ woken (event_rx_off t w);
  law_send : forall t w, t ∈ rx_set w -> rx_set (event_send t w) = rx_set w /\
    kick_set (event_send t w) = kick_set w /\ {[t]} ∪ woken w ⊆ woken (event_send t w);
  law_kick_register : forall t w ret w', kick_register t w = (ret, w') -> rx_set w' = rx_set w /\
    kick_set w' = (if ret =? 0 then {[t]} ∪ kick_set w else kick_set w) /\ woken w ∖ {[t]} ⊆ woken w';
  law_kick_unregister : forall t w, rx_set (kick_unregister t w) = rx_set w /\
    kick_set (kick_unregister t w) = kick_set w ∖ {[t]} /\ woken w ∖ {[t]} ⊆ woken (kick_unregister t w);
  law_kick_post : forall t w, t ∈ kick_set w -> rx_set (kick_post t w) = rx_set w /\
    kick_set (kick_post t w) = kick_set w /\ {[t]} ∪ woken w ⊆ woken (kick_post t w);
  law_take : forall t w b w', wk_take t w = (b, w') -> rx_set w' = rx_set w /\ kick_set w' = kick_set w /\
    woken w ∖ {[t]} ⊆ woken w' /\ (b = false -> t ∉ woken w) }.

Section spec.
Context {W : Type} `{!Wakeups W, HL : !WakeupLaws W}.
Abbreviation St := (ev_state W).
Implicit Types (s : St) (t d e : loc) (th : ev_thread) (w : W).

(** Calls outside of the interface are the only ones that do not go through. *)
Definition breach (m : string) : Prop := m = "outside of the interface"%string.

Definition listed th : list loc := et_batch th ++ et_pending th.
Definition calling th : list loc := match et_pc th with PCall e => [e] | _ => [] end.
Definition leaving th : Z := match et_pc th with PUnregister _ _ => 1 | _ => 0 end.
Definition owned s t : gset loc := filter (fun e => es_owner s !! e = Some t) (es_registered s).
(** [t] can be woken, the way posts do it. *)
Definition receives (raw : bool) t w : Prop := t ∈ if raw then kick_set w else rx_set w.
(** Some thread is about to wake [d]. *)
Definition kicked s d : Prop := exists t th e, es_threads s !! t = Some th /\ et_pc th = PKick d e.

Definition pc_ok s t th : Prop :=
  match et_pc th with
  | PIdle | PRun => True
  | PKick d e => e ∈ es_registered s /\ es_owner s !! e = Some d /\ (is_mt_app = true \/ d = t)
  | PCall e => e ∈ es_registered s /\ es_owner s !! e = Some t
  | PUnregister e b => e ∉ es_registered s /\ es_owner s !! e = Some t /\ b = bool_decide (e ∈ listed th)
  end.

Record thread_ok s t th : Prop := {
  to_nodup : NoDup (listed th);
  to_listed : forall e, e ∈ listed th -> es_owner s !! e = Some t /\ (e ∈ es_registered s \/ et_pc th = PUnregister e true);
  to_count : et_event_count th = Z.of_nat (size (owned s t)) + leaving th;
  to_on : is_mt_app = true -> 0 < et_event_count th -> receives (es_use_raw s) t (es_w s) /\ es_use_raw s = negb rx_works;
  to_wake : et_pending th <> [] -> et_local th = true \/ t ∈ woken (es_w s) \/ et_pc th = PRun \/ kicked s t;
  to_pc : pc_ok s t th;
  to_posted : et_posted th = et_ran th ++ calling th ++ listed th }.
Record ev_inv s : Prop := {
  ei_threads : forall t th, es_threads s !! t = Some th -> thread_ok s t th;
  ei_owner : forall e, e ∈ es_registered s -> exists t th, es_owner s !! e = Some t /\ es_threads s !! t = Some th /\
    (e ∈ listed th \/ e ∈ es_unlinked s);
  ei_raw : es_use_raw s = true -> rx_works = false }.

Lemma linked_listed th e : linked th e = bool_decide (e ∈ listed th).
Proof. unfold linked, listed. apply bool_decide_ext. rewrite elem_of_app. tauto. Qed.

(** ** Accesses *)
Lemma load_thread_Ok s t th : es_threads s !! t = Some th -> load_thread t s = Ok (th, s).
Proof. intros E. unfold load_thread. msimpl. by rewrite E. Qed.
Definition put_thread t th s : St := set_es_threads (<[t := th]> (es_threads s)) s.
Lemma upd_thread_Ok s t th g : es_threads s !! t = Some th -> upd_thread t g s = Ok (tt, put_thread t (g th) s).
Proof. intros E. unfold upd_thread. by rewrite (bind_Ok _ _ _ _ _ (load_thread_Ok _ _ _ E)). Qed.
Lemma put_lookup t th s : es_threads (put_thread t th s) !! t = Some th.
Proof. apply lookup_insert_eq. Qed.
Lemma put_put t th th' s : put_thread t th' (put_thread t th s) = put_thread t th' s.
Proof. unfold put_thread, set_es_threads. cbn. by rewrite insert_insert_eq. Qed.
Lemma load_owner_Ok s e t : es_owner s !! e = Some t -> load_owner e s = Ok (t, s).
Proof. intros E. unfold load_owner. msimpl. by rewrite E. Qed.
Lemma cell_empty_spec s e t th : es_owner s !! e = Some t -> es_threads s !! t = Some th ->
  (e ∈ listed th \/ e ∈ es_unlinked s) -> cell_empty e s = Ok (bool_decide (e ∉ listed th), s).
Proof.
  intros Ho Ht Hc. unfold cell_empty. rewrite (bind_Ok _ _ _ _ _ (load_owner_Ok _ _ _ Ho)).
  rewrite (bind_Ok _ _ _ _ _ (load_thread_Ok _ _ _ Ht)). unfold gets, mbind, M_bind. rewrite linked_listed.
  destruct (decide (e ∈ listed th)) as [He|He].
  - rewrite bool_decide_true by done. rewrite bool_decide_false; [done|]. tauto.
  - rewrite bool_decide_false by done. rewrite bool_decide_true by tauto. by rewrite bool_decide_true.
Qed.

(** ** What one action changes

    The common case: the calling thread's record, the cells, the kernel. *)
Record quiet_step s s' t : Prop := {
  qs_owner : es_owner s' = es_owner s;
  qs_registered : es_registered s' = es_registered s;
  qs_raw : es_use_raw s' = es_use_raw s;
  qs_sets : rx_set (es_w s') = rx_set (es_w s) /\ kick_set (es_w s') = kick_set (es_w s);
  qs_woken : woken (es_w s) ∖ {[t]} ⊆ woken (es_w s');
  qs_threads : forall t', t' <> t -> es_threads s' !! t' = es_threads s !! t' }.

(** Another thread stays as it was; one that was being kicked is woken by now. *)
Lemma other_ok s s' t t' th' : quiet_step s s' t -> t' <> t -> thread_ok s t' th' ->
  (kicked s t' -> kicked s' t' \/ t' ∈ woken (es_w s')) -> thread_ok s' t' th'.
Proof.
  intros [Eo Er Eu [E1 E2] Hw Ht] Hne [A B C D E F G] Hk. split; try done.
  - intros e He. rewrite Eo, Er. auto.
  - unfold owned. by rewrite Eo, Er.
  - intros Hm Hc. unfold receives. rewrite Eu, E1, E2. by apply D.
  - intros Hp. destruct (E Hp) as [?|[?|[?|?]]]; [by left|right; left; set_solver|right; right; by left|].
    right. destruct (Hk ltac:(done)); [right; by right|by left].
  - unfold pc_ok in *. by rewrite Eo, Er.
Qed.

(** Kicks of other threads stand; only a kick by [t] may be gone. *)
Lemma kicked_other s s' t th th' d : es_threads s !! t = Some th -> es_threads s' !! t = Some th' ->
  (forall t', t' <> t -> es_threads s' !! t' = es_threads s !! t') -> (forall e, et_pc th <> PKick d e) ->
  kicked s d -> kicked s' d.
Proof.
  intros Ht Ht' Ho Hn (t1&th1&e&H1&Hpc). destruct (decide (t1 = t)) as [->|Hne].
  - assert (th1 = th) as -> by congruence. by apply Hn in Hpc.
  - exists t1, th1, e. by rewrite Ho.
Qed.

Lemma quiet_inv s s' t th th' : ev_inv s -> quiet_step s s' t -> es_threads s !! t = Some th -> es_threads s' !! t = Some th' ->
  thread_ok s' t th' -> (forall e, e ∈ listed th -> e ∈ es_registered s -> e ∈ listed th' \/ e ∈ es_unlinked s') ->
  es_unlinked s ⊆ es_unlinked s' ->
  (forall d e, et_pc th = PKick d e -> d <> t -> et_pc th' = PKick d e \/ d ∈ woken (es_w s')) -> ev_inv s'.
Proof.
  intros [It Io Ir] Hq Ht Ht' Hok Hl Hu Hk. split.
  - intros t1 th1 H1. destruct (decide (t1 = t)) as [->|Hne]; [by assert (th1 = th') as -> by congruence|].
    rewrite (qs_threads _ _ _ Hq) in H1 by done. eapply other_ok; [done|done|by apply It|].
    intros (t2&th2&e&H2&Hpc). destruct (decide (t2 = t)) as [->|Hne2].
    + assert (th2 = th) as -> by congruence. destruct (Hk t1 e Hpc Hne) as [?|?]; [left; by exists t, th', e|by right].
    + left. exists t2, th2, e. by rewrite (qs_threads _ _ _ Hq).
  - intros e He. rewrite (qs_registered _ _ _ Hq) in He. destruct (Io e He) as (t1&th1&Ho&H1&Hc).
    rewrite (qs_owner _ _ _ Hq). destruct (decide (t1 = t)) as [->|Hne].
    + assert (th1 = th) as -> by congruence. exists t, th'. split_and!; [done|done|].
      destruct Hc as [Hc|Hc]; [by apply Hl|right; set_solver].
    + exists t1, th1. rewrite (qs_threads _ _ _ Hq) by done. split_and!; [done|done|]. destruct Hc; [by left|right; set_solver].
  - rewrite (qs_raw _ _ _ Hq). done.
Qed.

Lemma owned_positive s t th e : thread_ok s t th -> e ∈ es_registered s -> es_owner s !! e = Some t -> 0 < et_event_count th.
Proof.
  intros Hok He Ho. rewrite (to_count _ _ _ Hok). assert (e ∈ owned s t) as Hi by (unfold owned; by apply elem_of_filter).
  assert (size (owned s t) <> 0%nat). { intros E%size_empty_inv. set_solver. }
  unfold leaving. destruct (et_pc th); lia.
Qed.

(** ** Actions

    What a thread knows about itself: where it is and the batch it works on. *)
Definition ev_aux s t : option (event_pc * list loc) := (fun th => (et_pc th, et_batch th)) <$> es_threads s !! t.

Definition atomic t {A} (m : M St A) (pc : event_pc) (q : list loc) (Q : A -> event_pc -> list loc -> Prop) : Prop :=
  forall s th, ev_inv s -> es_threads s !! t = Some th -> et_pc th = pc -> et_batch th = q ->
  wp breach m s (fun a s' => ev_inv s' /\ (forall t', t' <> t -> ev_aux s' t' = ev_aux s t') /\
    exists th', es_threads s' !! t = Some th' /\ Q a (et_pc th') (et_batch th')).

Lemma quiet_aux s s' t : quiet_step s s' t -> forall t', t' <> t -> ev_aux s' t' = ev_aux s t'.
Proof. intros Hq t' Hne. unfold ev_aux. by rewrite (qs_threads _ _ _ Hq). Qed.

(** An action on the thread's own record and cells. *)
Lemma quiet_put s t th U : quiet_step s (set_es_unlinked U (put_thread t th s)) t.
Proof. split; try done; [cbn; set_solver|]. intros t' Hne. cbn. by rewrite lookup_insert_ne. Qed.
Lemma quiet_put' s t th : quiet_step s (put_thread t th s) t.
Proof. split; try done; [cbn; set_solver|]. intros t' Hne. cbn. by rewrite lookup_insert_ne. Qed.

(** Thread records that agree on the lists. *)
Lemma thread_ok_pc s s' t th th' : thread_ok s t th -> quiet_step s s' t -> listed th' = listed th ->
  et_pending th' = et_pending th -> et_event_count th' = et_event_count th -> leaving th' = leaving th ->
  (et_pending th <> [] -> et_local th' = true \/ t ∈ woken (es_w s') \/ et_pc th' = PRun \/ kicked s' t) ->
  (forall e, et_pc th = PUnregister e true -> et_pc th' = PUnregister e true) ->
  pc_ok s' t th' -> et_posted th' = et_ran th' ++ calling th' ++ listed th' -> thread_ok s' t th'.
Proof.
  intros [A B C D E F G] [Eo Er Eu [E1 E2] Hw Ht] El Ep Ec Elv Hwake Hun Hpc Hpo. split; try done.
  - by rewrite El.
  - intros e He. rewrite El in He. rewrite Eo, Er. destruct (B e He) as [? [?|?]]; auto.
  - unfold owned. rewrite Ec, Elv, Eo, Er. exact C.
  - intros Hm Hc. unfold receives. rewrite Eu, E1, E2. rewrite Ec in Hc. by apply D.
  - by rewrite Ep.
Qed.

Lemma enter_handler_spec handler t e q : atomic t (enter_handler handler t e) (PCall e) q (fun _ pc q' => pc = PIdle /\ q' = q).
Proof.
  intros s th Hi Ht Hpc Hq. unfold enter_handler. wrun (upd_thread_Ok _ _ _ (fun th => set_et_pc PIdle (set_et_ran (et_ran th ++ [e]) th)) Ht).
  set (th' := set_et_pc _ _). wrun (load_thread_Ok _ _ _ (put_lookup t th' s)). eapply wp_Ok; [reflexivity|].
  pose proof (ei_threads _ Hi _ _ Ht) as Hok. split_and!.
  - eapply (quiet_inv s _ t th th'); [done|apply quiet_put'|done|apply put_lookup| |by left|done|].
    + eapply thread_ok_pc; try done.
      * apply quiet_put'.
      * unfold leaving. by rewrite Hpc.
      * intros Hp. destruct (to_wake _ _ _ Hok Hp) as [?|[?|[?|?]]]; [by left|by right; left|congruence|].
        right; right; right. eapply kicked_other; [exact Ht|apply put_lookup| |intros e0; by rewrite Hpc|done].
        intros t' Hne. cbn. by rewrite lookup_insert_ne.
      * intros e0. by rewrite Hpc.
      * cbn. rewrite (to_posted _ _ _ Hok). unfold calling. rewrite Hpc. cbn. by rewrite <-app_assoc.
    + intros d e0. by rewrite Hpc.
  - apply quiet_aux, quiet_put'.
  - exists th'. split; [apply put_lookup|]. by cbn.
Qed.

(** *** Taking an event off the batch *)
Definition taken t th e q s : St :=
  set_es_unlinked ({[e]} ∪ es_unlinked s) (put_thread t (set_et_pc (PCall e) (set_et_batch q th)) s).

Lemma take_first_Ok s t th e q : es_threads s !! t = Some th -> et_batch th = e :: q ->
  take_first t s = Ok ((e, bool_decide (q = [])), taken t th e q s).
Proof.
  intros Ht Hb. unfold take_first. rewrite (bind_Ok _ _ _ _ _ (load_thread_Ok _ _ _ Ht)), Hb.
  rewrite (bind_Ok _ _ _ _ _ (upd_thread_Ok _ _ _ (set_et_batch q) Ht)).
  set (s1 := put_thread t _ s). set (s2 := set_es_unlinked ({[e]} ∪ es_unlinked s1) s1).
  rewrite (bind_Ok _ _ _ _ _ (eq_refl : modify (fun s => set_es_unlinked ({[e]} ∪ es_unlinked s) s) s1 = Ok (tt, s2))).
  assert (es_threads s2 !! t = Some (set_et_batch q th)) as H2 by apply (put_lookup t).
  rewrite (bind_Ok _ _ _ _ _ (upd_thread_Ok _ _ _ (set_et_pc (PCall e)) H2)).
  unfold taken, s2, s1, put_thread, set_es_threads, set_es_unlinked, mret, M_ret. cbn. by rewrite insert_insert_eq.
Qed.

(** [th0] is the record before the batch was [e :: q]. *)
Lemma take_inv s t th0 th e q : ev_inv s -> es_threads s !! t = Some th0 ->
  listed th = listed th0 -> et_batch th = e :: q -> et_pc th0 = PIdle \/ et_pc th0 = PRun ->
  et_numobjs th = et_numobjs th0 -> et_event_count th = et_event_count th0 -> et_posted th = et_posted th0 ->
  et_ran th = et_ran th0 -> et_local th = et_local th0 ->
  (et_pending th = et_pending th0 /\ et_pc th0 = PIdle \/ et_pending th = []) ->
  ev_inv (taken t th e q s) /\ (forall t', t' <> t -> ev_aux (taken t th e q s) t' = ev_aux s t').
Proof.
  intros Hi Ht El Hb Hpc _ Ec Epo Er Elo Hpend. pose proof (ei_threads _ Hi _ _ Ht) as Hok.
  assert (quiet_step s (taken t th e q s) t) as Hq.
  { split; try done; [cbn; set_solver|]. intros t' Hne. cbn. by rewrite lookup_insert_ne. }
  split; [|by apply quiet_aux]. set (th' := set_et_pc (PCall e) (set_et_batch q th)).
  assert (listed th0 = e :: listed th') as Hl by (rewrite <-El; unfold listed, th'; cbn; by rewrite Hb).
  assert (leaving th0 = 0 /\ calling th0 = []) as [Hlv Hca] by (unfold leaving, calling; by destruct Hpc as [-> | ->]).
  destruct Hok as [A B C D E F G]. rewrite Hl in A, B, G. apply NoDup_cons in A as [HA A].
  eapply (quiet_inv s _ t th0 th'); [done|done|done|apply put_lookup| | | |].
  - split; [exact A| | | | | |].
    + intros x Hx. destruct (B x) as [? [?|?]]; [by apply elem_of_cons; right|by split; [done|left]|].
      destruct Hpc as [Hpc|Hpc]; congruence.
    + change (et_event_count th = Z.of_nat (size (owned s t)) + 0). rewrite Ec. lia.
    + change (et_event_count th') with (et_event_count th). rewrite Ec. exact D.
    + change (et_pending th') with (et_pending th). intros Hp. destruct Hpend as [[Epe Hpc0]|Hn]; [|done].
      rewrite Epe in Hp. destruct (E Hp) as [?|[?|[?|?]]]; [left|by right; left|congruence|].
      * by change (et_local th = true); rewrite Elo.
      * right; right; right. eapply (kicked_other s _ t th0); [done|apply put_lookup|apply Hq|by rewrite Hpc0|done].
    + destruct (B e) as [Ho [Hr|Hr]]; [by apply elem_of_cons; left|by split|destruct Hpc; congruence].
    + change (et_posted th = et_ran th ++ [e] ++ listed th'). rewrite Epo, G, Er, Hca. done.
  - intros x Hx _. rewrite Hl in Hx. apply elem_of_cons in Hx as [->|Hx]; [right; cbn; set_solver|by left].
  - cbn. set_solver.
  - intros d x Hx. destruct Hpc; congruence.
Qed.

Lemma next_pending_spec t q : atomic t (next_pending t) PIdle q (fun r pc q' =>
  match r with
  | None => q = [] /\ pc = PIdle /\ q' = []
  | Some (e, empty_now) => q = e :: q' /\ pc = PCall e /\ empty_now = bool_decide (q' = [])
  end).
Proof.
  intros s th Hi Ht Hpc Hq. unfold next_pending. wrun (load_thread_Ok _ _ _ Ht).
  destruct (et_batch th) as [|e q'] eqn:Hb.
  - eapply wp_Ok; [reflexivity|]. subst q. split_and!; try done. by exists th.
  - wrun (take_first_Ok s t th e q' Ht Hb). eapply wp_Ok; [reflexivity|].
    destruct (take_inv s t th th e q' Hi Ht) as [? ?]; try done; [by left|by left|]. split_and!; try done.
    eexists. split; [apply put_lookup|]. subst q. by cbn.
Qed.

Lemma steal_pending_spec t pc : pc = PIdle \/ pc = PRun -> atomic t (steal_pending t) pc [] (fun r pc' q' =>
  match r with
  | None => pc' = PIdle /\ q' = []
  | Some (e, empty_now) => pc' = PCall e /\ empty_now = bool_decide (q' = [])
  end).
Proof.
  intros Hpcs s th Hi Ht Hpc Hq. unfold steal_pending. wrun (load_thread_Ok _ _ _ Ht).
  pose proof (ei_threads _ Hi _ _ Ht) as Hok. destruct (et_pending th) as [|e q'] eqn:Hp.
  - wrun (upd_thread_Ok _ _ _ (set_et_pc PIdle) Ht). eapply wp_Ok; [reflexivity|].
    set (th' := set_et_pc PIdle th). split_and!; [|apply quiet_aux, quiet_put'|exists th'; split; [apply put_lookup|done]].
    eapply (quiet_inv s _ t th th'); [done|apply quiet_put'|done|apply put_lookup| |by left|done|].
    + eapply thread_ok_pc; try done; [apply quiet_put'| | |].
      * unfold leaving. destruct Hpcs as [-> | ->]; by rewrite Hpc.
      * intros e He. rewrite Hpc in He. by destruct Hpcs as [-> | ->].
      * change (et_posted th = et_ran th ++ [] ++ listed th). rewrite (to_posted _ _ _ Hok). unfold calling. rewrite Hpc.
        by destruct Hpcs as [-> | ->].
    + intros d e He. rewrite Hpc in He. by destruct Hpcs as [-> | ->].
  - wrun (upd_thread_Ok _ _ _ (set_et_batch (e :: q')) Ht). set (th1 := set_et_batch (e :: q') th).
    wrun (upd_thread_Ok _ _ _ (set_et_pending []) (put_lookup t th1 s)). rewrite put_put.
    set (th2 := set_et_pending [] th1). wrun (take_first_Ok _ t th2 e q' (put_lookup t th2 s) eq_refl).
    eapply wp_Ok; [reflexivity|].
    assert (taken t th2 e q' (put_thread t th2 s) = taken t th2 e q' s) as ->.
    { unfold taken. rewrite put_put. done. }
    destruct (take_inv s t th th2 e q' Hi Ht) as [? ?]; try done.
    + unfold listed. cbn. rewrite Hp, Hq, app_nil_r. done.
    + rewrite Hpc. done.
    + by right.
    + split_and!; try done. eexists. split; [apply put_lookup|]. done.
Qed.

(** *** Posting *)
Definition post_queue e th : ev_thread := set_et_pending (et_pending th ++ [e]) (set_et_posted (et_posted th ++ [e]) th).

(** The owner's record after an unlisted event was put on its list. *)
Lemma post_queue_ok s s' d th th' e : ev_inv s -> es_threads s !! d = Some th -> thread_ok s d th ->
  e ∉ listed th -> e ∈ es_registered s -> es_owner s !! e = Some d ->
  es_owner s' = es_owner s -> es_registered s' = es_registered s -> es_use_raw s' = es_use_raw s -> es_w s' = es_w s ->
  et_event_count th' = et_event_count th -> et_batch th' = et_batch th -> et_pending th' = et_pending th ++ [e] ->
  et_posted th' = et_posted th ++ [e] -> et_ran th' = et_ran th -> et_local th' = et_local th ->
  calling th' = calling th -> leaving th' = leaving th ->
  (forall x, et_pc th = PUnregister x true -> et_pc th' = PUnregister x true) -> (et_pc th = PRun -> et_pc th' = PRun) ->
  pc_ok s' d th' -> (kicked s d -> kicked s' d) -> (et_pending th = [] -> kicked s' d) -> thread_ok s' d th'.
Proof.
  intros Hi Ht [A B C D E F G] He Hr Ho Eo Er Eu Ew Ec Eb Ep Epo Era El Eca Elv Hun Hrun Hpc Hk Hnew.
  assert (listed th' = listed th ++ [e]) as Hl by (unfold listed; by rewrite Eb, Ep, app_assoc).
  split.
  - rewrite Hl. apply NoDup_app. split_and!; [done|set_solver|apply NoDup_singleton].
  - intros x. rewrite Hl, Eo, Er. intros [Hx|Hx]%elem_of_app; [destruct (B x Hx) as [? [?|?]]; auto|].
    apply list_elem_of_singleton in Hx as ->. auto.
  - unfold owned. rewrite Eo, Er, Ec, Elv. exact C.
  - unfold receives. rewrite Eu, Ew, Ec. exact D.
  - intros _. rewrite El, Ew. destruct (decide (et_pending th = [])) as [Hp|Hp]; [right; right; right; auto|].
    destruct (E Hp) as [?|[?|[?|?]]]; auto.
  - done.
  - rewrite Epo, Era, Hl, Eca, G. by rewrite <-!app_assoc.
Qed.

(** How a section that put [e] on [d]'s list leaves things: [th'] is the poster's record. *)
Record posted s s2 t d e th thd th' (post : bool) : Prop := {
  pd_post : post = bool_decide (et_pending thd = []);
  pd_me : es_threads s2 !! t = Some th' /\ et_pc th' = (if post then PKick d e else PIdle);
  pd_others : forall t', t' <> t -> t' <> d -> es_threads s2 !! t' = es_threads s !! t';
  pd_owner_other : d <> t -> es_threads s2 !! d = Some (post_queue e thd) /\ th' = set_et_pc (et_pc th') th;
  pd_owner_me : d = t -> th' = set_et_pc (et_pc th') (post_queue e th);
  pd_fields : es_owner s2 = es_owner s /\ es_registered s2 = es_registered s /\ es_use_raw s2 = es_use_raw s /\
    es_w s2 = es_w s /\ es_unlinked s2 = es_unlinked s ∖ {[e]} }.

Lemma set_pc_id th : set_et_pc (et_pc th) th = th.
Proof. by destruct th. Qed.

Lemma post_lands s t d e th thd : es_threads s !! t = Some th -> et_pc th = PIdle -> es_threads s !! d = Some thd ->
  let post := bool_decide (et_pending thd = []) in
  let s1 := set_es_unlinked (es_unlinked s ∖ {[e]}) (put_thread d (post_queue e thd) s) in
  exists s2 th', (when post (upd_thread t (set_et_pc (PKick d e)));; mret (d, post)) s1 = Ok ((d, post), s2) /\
    posted s s2 t d e th thd th' post.
Proof.
  intros Ht Hpc Hd post s1. set (th1 := if decide (d = t) then post_queue e th else th).
  assert (es_threads s1 !! t = Some th1 /\ et_pc th1 = PIdle) as [H1 Hpc1].
  { unfold th1. case_decide as Hdt; [|split; [cbn; by rewrite lookup_insert_ne|done]].
    subst d. assert (thd = th) as -> by congruence. split; [apply lookup_insert_eq|done]. }
  assert (forall t', t' <> d -> es_threads s1 !! t' = es_threads s !! t') as Ho by (intros; cbn; by rewrite lookup_insert_ne).
  assert (d <> t -> es_threads s1 !! d = Some (post_queue e thd)) as Hd1 by (intros _; cbn; by rewrite lookup_insert_eq).
  destruct post eqn:Epost; cbn [when].
  - exists (put_thread t (set_et_pc (PKick d e) th1) s1), (set_et_pc (PKick d e) th1).
    rewrite (bind_Ok _ _ _ _ _ (upd_thread_Ok _ _ _ (set_et_pc (PKick d e)) H1)). split; [done|]. split; try done.
    + split; [apply put_lookup|done].
    + intros t' ? ?. cbn. rewrite lookup_insert_ne by done. by apply Ho.
    + intros Hne. unfold th1. rewrite decide_False by done. split; [|done]. cbn. rewrite lookup_insert_ne by done. by apply Hd1.
    + intros Hdt. unfold th1. by rewrite decide_True.
  - exists s1, th1. split; [done|]. split; [done|by split|intros t1 _ ?; by rewrite Ho| | |done].
    + intros Hne. split; [auto|]. unfold th1. rewrite decide_False by done. by rewrite set_pc_id.
    + intros Hdt. unfold th1. rewrite decide_True by done. by rewrite set_pc_id.
Qed.

Lemma posted_kicked s s2 t d e th thd th' post : posted s s2 t d e th thd th' post -> es_threads s !! t = Some th ->
  et_pc th = PIdle -> es_threads s !! d = Some thd ->
  (forall x, kicked s x -> kicked s2 x) /\ (et_pending thd = [] -> kicked s2 d).
Proof.
  intros [Hpost [Ht2 Hpc2] Ho Hd2 _ _] Ht Hpc Hd. split.
  - intros x (t1&th1&e1&H1&Hp1). destruct (decide (t1 = t)) as [->|Hne]; [assert (th1 = th) as -> by congruence; congruence|].
    destruct (decide (t1 = d)) as [->|Hned].
    + destruct (Hd2 Hne) as [Hd2' _]. exists d, (post_queue e thd), e1. split; [done|]. by assert (th1 = thd) as -> by congruence.
    + exists t1, th1, e1. by rewrite Ho.
  - intros Hp. exists t, th', e. split; [done|]. rewrite Hpc2, Hpost. by rewrite bool_decide_true.
Qed.

(** A record whose lists the section did not touch. *)
Lemma posted_other s s2 t d e th thd th' post t1 th1 th1' : posted s s2 t d e th thd th' post ->
  (forall x, kicked s x -> kicked s2 x) -> thread_ok s t1 th1 -> th1' = set_et_pc (et_pc th1') th1 ->
  calling th1' = calling th1 -> leaving th1' = leaving th1 -> (forall x, et_pc th1 = PUnregister x true -> et_pc th1' = PUnregister x true) ->
  (et_pc th1 = PRun -> et_pc th1' = PRun) -> pc_ok s2 t1 th1' -> thread_ok s2 t1 th1'.
Proof.
  intros [_ _ _ _ _ (Eo&Er&Eu&Ew&_)] Hk [A B C D E F G] Eth Eca Elv Hun Hrun Hpc.
  assert (listed th1' = listed th1 /\ et_event_count th1' = et_event_count th1 /\ et_pending th1' = et_pending th1 /\
    et_local th1' = et_local th1 /\ et_posted th1' = et_posted th1 /\ et_ran th1' = et_ran th1) as (El&Ec&Ep&Elo&Epo&Era)
    by (rewrite Eth; by destruct th1).
  split.
  - by rewrite El.
  - intros x Hx. rewrite El in Hx. rewrite Eo, Er. destruct (B x Hx) as [? [?|?]]; auto.
  - unfold owned. rewrite Eo, Er, Ec, Elv. exact C.
  - unfold receives. rewrite Eu, Ew, Ec. exact D.
  - rewrite Ep, Elo, Ew. intros Hp. destruct (E Hp) as [?|[?|[?|?]]]; auto.
  - done.
  - by rewrite Epo, Era, Eca, El.
Qed.

Lemma posted_pc_ok s s2 t d e th thd th' post t1 th1 : posted s s2 t d e th thd th' post -> e ∈ es_registered s ->
  pc_ok s t1 th1 -> pc_ok s2 t1 th1 /\ pc_ok s2 t1 (post_queue e th1).
Proof.
  intros [_ _ _ _ _ (Eo&Er&_)] He F. unfold pc_ok in *. cbn [post_queue et_pc set_et_pending set_et_posted].
  rewrite Eo, Er. split; [done|]. destruct (et_pc th1) eqn:Ep; try done. destruct F as (?&?&->). split_and!; [done|done|].
  apply bool_decide_ext. unfold listed. cbn. rewrite !elem_of_app, list_elem_of_singleton.
  split; [tauto|]. intros [?|[?| ->]]; [tauto|tauto|done].
Qed.

Lemma posted_threads s s2 t d e th thd th' post : ev_inv s -> posted s s2 t d e th thd th' post ->
  es_threads s !! t = Some th -> et_pc th = PIdle -> es_threads s !! d = Some thd -> e ∉ listed thd ->
  e ∈ es_registered s -> es_owner s !! e = Some d -> (is_mt_app = true \/ d = t) ->
  forall t1 th1, es_threads s2 !! t1 = Some th1 -> thread_ok s2 t1 th1.
Proof.
  intros Hi Hpd Ht Hpc Hd He Hreg Ho Hmt t1 th1 H1. destruct (posted_kicked _ _ _ _ _ _ _ _ _ Hpd Ht Hpc Hd) as [Hk Hnew].
  pose proof Hpd as [_ [Ht2 Hpc2] Hoth Hd2 Hme (Eo&Er&Eu&Ew&_)].
  assert (calling th' = calling th /\ leaving th' = leaving th) as [Eca Elv].
  { unfold calling, leaving. rewrite Hpc2, Hpc. by destruct post. }
  assert (pc_ok s2 t th') as Hpct.
  { unfold pc_ok. rewrite Hpc2. destruct post; [|done]. rewrite Eo, Er. by split_and!. }
  destruct (decide (t1 = t)) as [->|Hne].
  - assert (th1 = th') as -> by congruence. destruct (decide (d = t)) as [->|Hdt].
    + assert (thd = th) as -> by congruence. pose proof (ei_threads _ Hi _ _ Ht) as Hok.
      pose proof (Hme eq_refl) as Eth. eapply (post_queue_ok s s2 t th th' e); try done; try (by rewrite Eth); try (by intros; congruence). auto.
    + destruct (Hd2 Hdt) as [_ Hth]. eapply posted_other; [done|done|by apply (ei_threads _ Hi)|done..| | |done]; rewrite Hpc; done.
  - destruct (decide (t1 = d)) as [->|Hned].
    + destruct (Hd2 Hne) as [Hd2' _]. assert (th1 = post_queue e thd) as -> by congruence.
      pose proof (ei_threads _ Hi _ _ Hd) as Hok. eapply (post_queue_ok s s2 d thd _ e); auto.
      eapply (posted_pc_ok s s2); [done|done|apply Hok].
    + rewrite Hoth in H1 by done. pose proof (ei_threads _ Hi _ _ H1) as Hok.
      eapply posted_other; [done|done|done|by rewrite set_pc_id|done..|]. eapply posted_pc_ok; [done|done|apply Hok].
Qed.

Lemma posted_owner s s2 t d e th thd th' post : ev_inv s -> posted s s2 t d e th thd th' post ->
  es_threads s !! t = Some th -> es_threads s !! d = Some thd -> es_owner s !! e = Some d ->
  forall x, x ∈ es_registered s2 -> exists t1 th1, es_owner s2 !! x = Some t1 /\ es_threads s2 !! t1 = Some th1 /\
    (x ∈ listed th1 \/ x ∈ es_unlinked s2).
Proof.
  intros Hi [_ [Ht2 _] Hoth Hd2 Hme (Eo&Er&_&_&Eun)] Ht Hd Ho x Hx. rewrite Er in Hx.
  destruct (ei_owner _ Hi _ Hx) as (t1&th1&Ho1&H1&Hc1). rewrite Eo, Eun.
  assert (exists th1', es_threads s2 !! t1 = Some th1' /\ (forall y, y ∈ listed th1 -> y ∈ listed th1') /\
    (t1 = d -> e ∈ listed th1')) as (th1'&H1'&Hl&He).
  { destruct (decide (t1 = d)) as [->|Hned].
    - assert (th1 = thd) as -> by congruence. destruct (decide (d = t)) as [->|Hdt].
      + exists th'. assert (thd = th) as -> by congruence. rewrite (Hme eq_refl).
        split; [by rewrite <-(Hme eq_refl)|]. unfold listed. cbn. split; [set_solver +|set_solver +].
      + exists (post_queue e thd). destruct (Hd2 Hdt) as [? _]. unfold listed. cbn. split_and!; [done|set_solver +|set_solver +].
    - destruct (decide (t1 = t)) as [->|Hne]; [|exists th1; by rewrite Hoth].
      exists th'. assert (th1 = th) as -> by congruence. destruct (Hd2 ltac:(congruence)) as [_ ->].
      split_and!; [by rewrite <-(proj2 (Hd2 ltac:(congruence)))|done|done]. }
  exists t1, th1'. split_and!; [done|done|]. destruct (decide (x = e)) as [->|Hxe]; [left; apply He; congruence|].
  destruct Hc1 as [?|?]; [left; auto|right; set_solver].
Qed.

Lemma post_section_spec t e q : atomic t (post_section t e) PIdle q (fun r pc q' => q' = q /\
  let '(dst, post) := r in pc = if post : bool then PKick dst e else PIdle).
Proof.
  intros s th Hi Ht Hpc Hq. unfold post_section. wprim. wbind. apply requires_spec; [done|]. intros Hreg%bool_decide_eq_true.
  destruct (ei_owner _ Hi _ Hreg) as (d&thd&Ho&Hd&Hc). wrun (load_owner_Ok _ _ _ Ho).
  wbind. apply requires_spec; [done|]. intros Hmt. wrun (cell_empty_spec _ _ _ _ Ho Hd Hc).
  destruct (bool_decide (e ∉ listed thd)) eqn:He.
  2:{ eapply wp_Ok; [reflexivity|]. split_and!; [done|done|]. by exists th. }
  apply bool_decide_eq_true in He. wrun (load_thread_Ok _ _ _ Hd).
  change (fun th => set_et_pending (et_pending th ++ [e]) (set_et_posted (et_posted th ++ [e]) th)) with (post_queue e).
  wrun (upd_thread_Ok _ _ _ (post_queue e) Hd). wprim.
  destruct (post_lands s t d e th thd Ht Hpc Hd) as (s2&th'&E2&Hpd). eapply wp_Ok; [exact E2|].
  pose proof Hpd as [_ [Ht2 Hpc2] Hoth Hd2 Hme (Eo&Er&Eu&Ew&_)].
  assert (is_mt_app = true \/ d = t) as Hmt'.
  { destruct is_mt_app; [by left|right]. cbn in Hmt. by apply bool_decide_eq_true in Hmt. }
  split_and!.
  - split; [by eapply posted_threads|by eapply posted_owner|rewrite Eu; apply (ei_raw _ Hi)].
  - intros t1 Hne. unfold ev_aux. destruct (decide (t1 = d)) as [->|Hned]; [|by rewrite Hoth].
    destruct (Hd2 Hne) as [-> _]. by rewrite Hd.
  - exists th'. split_and!; [done| |done]. destruct (decide (d = t)) as [Hdt|Hdt]; [rewrite (Hme Hdt)|rewrite (proj2 (Hd2 Hdt))]; done.
Qed.

(** *** Waking the owner *)

(** The record's place in the code changes, and perhaps its [events_local]. *)
Lemma place_inv s s' t th th' : ev_inv s -> es_threads s !! t = Some th -> quiet_step s s' t -> es_threads s' !! t = Some th' ->
  es_unlinked s ⊆ es_unlinked s' ->
  listed th' = listed th -> et_pending th' = et_pending th -> et_event_count th' = et_event_count th ->
  et_posted th' = et_posted th -> et_ran th' = et_ran th ->
  calling th = [] -> calling th' = [] -> leaving th = 0 -> leaving th' = 0 -> pc_ok s' t th' ->
  (et_pending th <> [] -> et_local th' = true \/ t ∈ woken (es_w s') \/ et_pc th' = PRun \/ kicked s' t) ->
  (forall d e, et_pc th = PKick d e -> d <> t -> et_pc th' = PKick d e \/ d ∈ woken (es_w s')) ->
  ev_inv s' /\ (forall t', t' <> t -> ev_aux s' t' = ev_aux s t').
Proof.
  intros Hi Ht Hq Ht' Hu El Ep Ec Epo Era Ca Ca' Lv Lv' Hpc Hw Hk. split; [|by apply quiet_aux].
  pose proof (ei_threads _ Hi _ _ Ht) as Hok. eapply (quiet_inv s s' t th th'); try done.
  - eapply (thread_ok_pc s s'); try done; [congruence| |].
    + intros e He. exfalso. unfold leaving in Lv. by rewrite He in Lv.
    + rewrite Epo, Era, El, Ca', (to_posted _ _ _ Hok), Ca. done.
  - rewrite El. by left.
Qed.

Lemma kicked_stays s s' t th th' x : quiet_step s s' t -> es_threads s !! t = Some th -> es_threads s' !! t = Some th' ->
  (forall e, et_pc th <> PKick x e) -> kicked s x -> kicked s' x.
Proof.
  intros Hq Ht Ht' Hn (t1&th1&e&H1&Hpc). destruct (decide (t1 = t)) as [->|Hne].
  - assert (th1 = th) as -> by congruence. by apply Hn in Hpc.
  - exists t1, th1, e. by rewrite (qs_threads _ _ _ Hq).
Qed.

Lemma register_local_spec t e q : atomic t (register_local t) (PKick t e) q (fun _ pc q' => pc = PIdle /\ q' = q).
Proof.
  intros s th Hi Ht Hpc Hq. unfold register_local. wrun (load_thread_Ok _ _ _ Ht).
  assert (exists th', (when (negb (et_local th)) (upd_thread t (set_et_local true));; upd_thread t (set_et_pc PIdle)) s =
    Ok (tt, put_thread t (set_et_pc PIdle th') s) /\ th' = set_et_local true th) as (th'&E&Eth).
  { destruct (et_local th) eqn:El; cbn [negb when].
    - exists th. split; [by apply (upd_thread_Ok _ _ _ (set_et_pc PIdle))|]. rewrite <-El. by destruct th.
    - exists (set_et_local true th). split; [|done].
      rewrite (bind_Ok _ _ _ _ _ (upd_thread_Ok _ _ _ (set_et_local true) Ht)).
      rewrite (upd_thread_Ok _ _ _ (set_et_pc PIdle) (put_lookup _ _ _)). by rewrite put_put. }
  eapply wp_Ok; [exact E|]. subst th'. apply and_assoc. split; [|eexists; split; [apply put_lookup|by cbn]].
  apply (place_inv s _ t th (set_et_pc PIdle (set_et_local true th))); try done; [apply quiet_put'|apply put_lookup|unfold calling; by rewrite Hpc|unfold leaving; by rewrite Hpc|by left|].
  intros d x Hx Hne. rewrite Hpc in Hx. by injection Hx as <- <-.
Qed.

Lemma kick_spec t d e q : d <> t -> atomic t (kick t d) (PKick d e) q (fun _ pc q' => pc = PIdle /\ q' = q).
Proof.
  intros Hne s th Hi Ht Hpc Hq. unfold kick. wprim.
  pose proof (to_pc _ _ _ (ei_threads _ Hi _ _ Ht)) as Hp. unfold pc_ok in Hp. rewrite Hpc in Hp. destruct Hp as (Hreg&Ho&Hmt).
  destruct (ei_owner _ Hi _ Hreg) as (d'&thd&Ho'&Hd&_). assert (d' = d) as -> by congruence.
  pose proof (ei_threads _ Hi _ _ Hd) as Hokd. destruct Hmt as [Hmt|?]; [|done].
  destruct (to_on _ _ _ Hokd Hmt (owned_positive _ _ _ _ Hokd Hreg Ho)) as [Hrec _].
  set (w' := if es_use_raw s then kick_post d (es_w s) else event_send d (es_w s)).
  assert (rx_set w' = rx_set (es_w s) /\ kick_set w' = kick_set (es_w s) /\ {[d]} ∪ woken (es_w s) ⊆ woken w') as (W1&W2&W3).
  { unfold w', receives in *. destruct (es_use_raw s); [by apply law_kick_post|by apply law_send]. }
  wbind. eapply wp_Ok; [instantiate (1 := set_es_w w' s); instantiate (1 := tt); unfold w'; by destruct (es_use_raw s)|]. cbv beta.
  assert (es_threads (set_es_w w' s) !! t = Some th) as Ht' by done.
  eapply wp_Ok; [by apply (upd_thread_Ok _ _ _ (set_et_pc PIdle) Ht')|]. apply and_assoc.
  split; [|eexists; split; [apply put_lookup|by cbn]].
  assert (quiet_step s (put_thread t (set_et_pc PIdle th) (set_es_w w' s)) t) as Hqs.
  { split; try done; [cbn; set_solver|]. intros t' Hne'. cbn. by rewrite lookup_insert_ne. }
  apply (place_inv s _ t th (set_et_pc PIdle th)); try done; [apply put_lookup|unfold calling; by rewrite Hpc|unfold leaving; by rewrite Hpc| |].
  - intros Hp. destruct (to_wake _ _ _ (ei_threads _ Hi _ _ Ht) Hp) as [?|[?|[?|?]]]; [by left| |congruence|].
    + right; left. cbn. set_solver.
    + right; right; right. eapply kicked_stays; [done|done|apply put_lookup| |done]. intros x Hx. rewrite Hpc in Hx. by injection Hx.
  - intros x y Hx _. rewrite Hpc in Hx. injection Hx as <- <-. right. cbn. set_solver.
Qed.

(** *** Being woken *)
Lemma take_wakeup_spec t q : atomic t (take_wakeup t) PIdle q (fun b pc q' => pc = (if b : bool then PRun else PIdle) /\ q' = q).
Proof.
  intros s th Hi Ht Hpc Hq. unfold take_wakeup. destruct (wk_take t (es_w s)) as [b w'] eqn:E.
  destruct (law_take _ _ _ _ E) as (W1&W2&W3&W4).
  assert (kernel (wk_take t) s = Ok (b, set_es_w w' s)) as Ek by (unfold kernel; by rewrite E). wrun Ek.
  pose proof (ei_threads _ Hi _ _ Ht) as Hok.
  destruct b; cbn [when].
  - wrun (upd_thread_Ok (set_es_w w' s) t th (set_et_pc PRun) Ht). eapply wp_Ok; [reflexivity|]. apply and_assoc.
    split; [|eexists; split; [apply put_lookup|by cbn]].
    apply (place_inv s _ t th (set_et_pc PRun th)); try done; [split; try done; intros t' Hne; cbn; by rewrite lookup_insert_ne|apply put_lookup| | | |].
    + unfold calling. by rewrite Hpc.
    + unfold leaving. by rewrite Hpc.
    + intros _. right; right; by left.
    + intros d e. by rewrite Hpc.
  - wprim. eapply wp_Ok; [reflexivity|]. apply and_assoc. split; [|by exists th].
    assert (quiet_step s (set_es_w w' s) t) as Hqs by (by split).
    apply (place_inv s _ t th th); try done; [unfold calling; by rewrite Hpc..|unfold leaving; by rewrite Hpc| | | |].
    + unfold leaving. by rewrite Hpc.
    + unfold pc_ok. by rewrite Hpc.
    + intros Hp. destruct (to_wake _ _ _ Hok Hp) as [?|[Hw|[?|?]]]; [by left|by apply W4 in Hw|right; right; by left|].
      right; right; right. eapply kicked_stays; [done|done|done| |done]. intros x. by rewrite Hpc.
    + intros d e. by rewrite Hpc.
Qed.

Lemma take_local_spec t q : atomic t (take_local t) PIdle q (fun b pc q' => pc = (if b : bool then PRun else PIdle) /\ q' = q).
Proof.
  intros s th Hi Ht Hpc Hq. unfold take_local. wrun (load_thread_Ok _ _ _ Ht). destruct (et_local th) eqn:El; cbn [when].
  - wrun (upd_thread_Ok _ _ _ (fun th => set_et_pc PRun (set_et_local false th)) Ht). eapply wp_Ok; [reflexivity|]. apply and_assoc.
    split; [|eexists; split; [apply put_lookup|by cbn]].
    apply (place_inv s _ t th (set_et_pc PRun (set_et_local false th))); try done; [apply quiet_put'|apply put_lookup| | | |].
    + unfold calling. by rewrite Hpc.
    + unfold leaving. by rewrite Hpc.
    + intros _. right; right; by left.
    + intros d e. by rewrite Hpc.
  - wprim. eapply wp_Ok; [reflexivity|]. apply and_assoc. split; [by split|]. by exists th.
Qed.

(** *** Registering and unregistering *)
Lemma other_frame s s' t1 th1 : thread_ok s t1 th1 ->
  (forall x, es_owner s !! x = Some t1 -> x ∈ listed th1 -> es_owner s' !! x = Some t1 /\ (x ∈ es_registered s -> x ∈ es_registered s')) ->
  owned s' t1 = owned s t1 -> pc_ok s' t1 th1 ->
  (is_mt_app = true -> 0 < et_event_count th1 -> es_use_raw s = negb rx_works -> receives (es_use_raw s) t1 (es_w s) ->
     receives (es_use_raw s') t1 (es_w s') /\ es_use_raw s' = negb rx_works) ->
  (t1 ∈ woken (es_w s) -> t1 ∈ woken (es_w s')) -> (kicked s t1 -> kicked s' t1) -> thread_ok s' t1 th1.
Proof.
  intros [A B C D E F G] Hl Eow Hpc Hon Hw Hk. split; try done.
  - intros x Hx. destruct (B x Hx) as [Ho Hr]. destruct (Hl x Ho Hx) as [? ?]. split; [done|]. destruct Hr; auto.
  - by rewrite Eow.
  - intros Hm Hc. destruct (D Hm Hc). by apply Hon.
  - intros Hp. destruct (E Hp) as [?|[?|[?|?]]]; auto.
Qed.

Lemma nobody_spec P ths t th : nobody P ths = true -> ths !! t = Some th -> P (et_pc th) = false.
Proof.
  intros H Ht. unfold nobody in H. rewrite forallb_forall in H. apply elem_of_map_to_list in Ht.
  apply list_elem_of_In in Ht. specialize (H _ Ht). cbn in H. by apply negb_true_iff in H.
Qed.

Lemma register_kick_spec s t : (es_use_raw s = true -> rx_works = false) -> exists ret u w',
  register_kick t s = Ok (ret, set_es_use_raw u (set_es_w w' s)) /\ u = negb rx_works /\ (es_use_raw s = true -> u = true) /\
  rx_set (es_w s) ⊆ rx_set w' /\ kick_set (es_w s) ⊆ kick_set w' /\ woken (es_w s) ∖ {[t]} ⊆ woken w' /\ (ret = 0 -> receives u t w').
Proof.
  intros Hraw. unfold register_kick, gets, kernel, modify, when, mbind, M_bind, mret, M_ret. destruct (es_use_raw s) eqn:Eu.
  - destruct (kick_register t (es_w s)) as [ret w'] eqn:E. destruct (law_kick_register _ _ _ _ E) as (W1&W2&W3).
    cbn [negb]. rewrite Eu, E. exists ret, true, w'. rewrite (Hraw eq_refl), W1. split; [f_equal; f_equal; rewrite <-Eu; by destruct s|].
    split_and!; try done; [rewrite W2; destruct (ret =? 0); set_solver|]. intros ->. unfold receives. rewrite W2. set_solver.
  - cbn [negb]. destruct (event_rx_on t (es_w s)) as [failed w1] eqn:E1. destruct (law_rx_on _ _ _ _ E1) as (->&V1&V2&V3).
    destruct rx_works eqn:Ew; cbn [negb] in *.
    + cbn. rewrite Eu. exists 0, false, w1. split; [f_equal; f_equal; rewrite <-Eu; by destruct s|].
      rewrite V2. split_and!; try done; [rewrite V1; set_solver|set_solver|]. intros _. unfold receives. rewrite V1. set_solver.
    + cbn. destruct (kick_register t w1) as [ret w'] eqn:E. destruct (law_kick_register _ _ _ _ E) as (W1&W2&W3).
      exists ret, true, w'. split; [done|]. split_and!; [done|done|by rewrite W1, V1| | |].
      * rewrite W2. destruct (ret =? 0); set_solver.
      * set_solver.
      * intros ->. unfold receives. rewrite W2. set_solver.
Qed.

(** The step before the event itself is set up: the counters, the kernel. *)
Record prepared s s1 t (th1 : ev_thread) : Prop := {
  pr_me : es_threads s1 !! t = Some th1;
  pr_others : forall t', t' <> t -> es_threads s1 !! t' = es_threads s !! t';
  pr_fields : es_owner s1 = es_owner s /\ es_registered s1 = es_registered s /\ es_unlinked s1 = es_unlinked s;
  pr_raw : es_use_raw s1 = es_use_raw s \/ es_use_raw s1 = negb rx_works;
  pr_works : es_use_raw s1 = true -> rx_works = false;
  pr_sets : rx_set (es_w s) ⊆ rx_set (es_w s1) /\ kick_set (es_w s) ⊆ kick_set (es_w s1) /\ woken (es_w s) ∖ {[t]} ⊆ woken (es_w s1);
  pr_mine : t ∈ woken (es_w s) -> t ∈ woken (es_w s1) \/ forall th, es_threads s !! t = Some th -> et_pending th = [] }.

Lemma prepared_other s s1 s' t th th1 t1 tho e : prepared s s1 t th1 -> ev_inv s -> es_threads s !! t = Some th -> et_pc th = PIdle ->
  t1 <> t -> es_threads s !! t1 = Some tho -> e ∉ es_registered s -> nobody (unregistering e) (es_threads s) = true ->
  (s' = s1 \/ exists o u r, s' = set_es_registered r (set_es_unlinked u (set_es_owner o s1)) /\
     o = <[e := t]> (es_owner s) /\ r = {[e]} ∪ es_registered s) -> thread_ok s' t1 tho.
Proof.
  intros [P1 P2 (P3&P4&P5) P6 Pw (P7&P8&P9) Pm] Hi Ht Hpc Hne H1 Hr Hnob Hs'. pose proof (ei_threads _ Hi _ _ H1) as Hok.
  assert (es_threads s' = es_threads s1 /\ es_w s' = es_w s1 /\ es_use_raw s' = es_use_raw s1) as (E1&E2&E3)
    by (destruct Hs' as [->|(o&u&r&->&_)]; done).
  assert (forall x, x <> e -> es_owner s' !! x = es_owner s !! x) as Eo.
  { intros x Hx. destruct Hs' as [->|(o&u&r&->&->&_)]; [by rewrite P3|]. cbn. by rewrite lookup_insert_ne. }
  assert (forall x, x <> e -> x ∈ es_registered s' <-> x ∈ es_registered s) as Er.
  { intros x Hx. destruct Hs' as [->|(o&u&r&->&_&->)]; [by rewrite P4|]. cbn. set_solver. }
  assert (e ∈ es_registered s' -> es_owner s' !! e = Some t) as Ee.
  { destruct Hs' as [->|(o&u&r&->&->&_)]; [by rewrite P4|]. intros _. cbn. apply lookup_insert_eq. }
  pose proof (nobody_spec _ _ _ _ Hnob H1) as Hun.
  assert (e ∉ listed tho) as Hel.
  { intros Hx. destruct (to_listed _ _ _ Hok e Hx) as [_ [?|Hpx]]; [done|]. rewrite Hpx in Hun. cbn in Hun. by rewrite bool_decide_true in Hun. }
  apply (other_frame s); [done| | | | | |].
  - intros x Hx Hxl. assert (x <> e) by (intros ->; done). rewrite Eo by done. split; [done|]. by apply Er.
  - unfold owned. apply set_eq. intros x. rewrite !elem_of_filter. destruct (decide (x = e)) as [->|Hxe].
    + split; [|by intros []]. intros [Ho Hx]. rewrite Ee in Ho by done. congruence.
    + by rewrite Eo, Er.
  - pose proof (to_pc _ _ _ Hok) as F. unfold pc_ok in *. destruct (et_pc tho) as [|d x| |x|x b]; try done.
    + destruct F as (?&?&?). assert (x <> e) by (intros ->; done). rewrite Er, Eo by done. done.
    + destruct F as (?&?). assert (x <> e) by (intros ->; done). rewrite Er, Eo by done. done.
    + assert (x <> e). { intros ->. cbn in Hun. by rewrite bool_decide_true in Hun. } rewrite Er, Eo by done. done.
  - intros Hm Hc Hu Hrec. unfold receives in *. rewrite E2, E3. assert (es_use_raw s1 = es_use_raw s) as ->.
    { destruct P6 as [?|?]; congruence. }
    split; [|done]. destruct (es_use_raw s); set_solver.
  - rewrite E2. set_solver.
  - intros (t2&th2&x&H2&Hp2). exists t2, th2, x. destruct (decide (t2 = t)) as [->|Hne2]; [assert (th2 = th) as -> by congruence; congruence|].
    rewrite E1, P2 by done. done.
Qed.

(** The thread's own record, with [c] more registered. *)
Lemma prepared_me s s1 s' t th th' e : prepared s s1 t th' -> ev_inv s -> es_threads s !! t = Some th -> et_pc th = PIdle ->
  e ∉ es_registered s -> et_pc th' = PIdle -> listed th' = listed th -> et_pending th' = et_pending th ->
  et_local th' = et_local th -> et_posted th' = et_posted th -> et_ran th' = et_ran th ->
  es_threads s' = es_threads s1 -> es_use_raw s' = es_use_raw s1 -> es_w s' = es_w s1 ->
  (forall x, x <> e -> es_owner s' !! x = es_owner s !! x) -> es_registered s ⊆ es_registered s' ->
  et_event_count th' = Z.of_nat (size (owned s' t)) ->
  (is_mt_app = true -> 0 < et_event_count th' -> receives (es_use_raw s1) t (es_w s1) /\ es_use_raw s1 = negb rx_works) ->
  thread_ok s' t th'.
Proof.
  intros [P1 P2 (P3&P4&P5) P6 Pw (P7&P8&P9) Pm] Hi Ht Hpc Hr Hpc' El Ep Elo Epo Era E1 E2 E3 Eo Hsub Hcount Hon.
  destruct (ei_threads _ Hi _ _ Ht) as [A B C D E F G]. split.
  - by rewrite El.
  - intros x Hx. rewrite El in Hx. destruct (B x Hx) as [Ho [Hx'|?]]; [|congruence]. rewrite Eo by (by intros ->).
    split; [done|left; by apply Hsub].
  - unfold leaving. rewrite Hpc', Hcount. lia.
  - rewrite E2, E3. done.
  - rewrite Ep, Elo, E3. intros Hp. destruct (E Hp) as [?|[Hw|[?|H]]]; [by left| |congruence|].
    { destruct (Pm Hw) as [?|Hn]; [by right; left|]. by rewrite (Hn th Ht) in Hp. }
    right; right; right. destruct H as (t2&th2&x&H2&Hp2). exists t2, th2, x.
    destruct (decide (t2 = t)) as [->|Hne2]; [assert (th2 = th) as -> by congruence; congruence|].
    rewrite E1, P2 by done. done.
  - unfold pc_ok. by rewrite Hpc'.
  - rewrite Epo, Era, El, G. unfold calling. by rewrite Hpc, Hpc'.
Qed.

Lemma register_fails s s1 t th th1 e : ev_inv s -> es_threads s !! t = Some th -> et_pc th = PIdle -> e ∉ es_registered s ->
  nobody (unregistering e) (es_threads s) = true -> prepared s s1 t th1 -> th1 = set_et_numobjs (et_numobjs th + 1) th ->
  ev_inv s1.
Proof.
  intros Hi Ht Hpc Hr Hnob Hpr Eth. pose proof Hpr as [P1 P2 (P3&P4&P5) P6 Pw (P7&P8&P9) Pm]. split.
  - intros t1 tho H1. destruct (decide (t1 = t)) as [->|Hne].
    + assert (tho = th1) as -> by congruence. destruct (ei_threads _ Hi _ _ Ht) as [A B C D E F G].
      apply (prepared_me s s1 s1 t th th1 e); try done; try (by rewrite Eth); [by rewrite P3|by rewrite P4| |].
      * unfold owned. rewrite P3, P4, Eth. unfold leaving in C. rewrite Hpc in C. cbn [et_event_count set_et_numobjs].
        unfold owned in C. lia.
      * intros Hm Hc. rewrite Eth in Hc. destruct (D Hm Hc) as [Hrec Hu].
        assert (es_use_raw s1 = es_use_raw s) as -> by (destruct P6; congruence).
        split; [|done]. unfold receives in *. destruct (es_use_raw s); set_solver.
    + rewrite P2 in H1 by done. eapply prepared_other; try done. by left.
  - intros x Hx. rewrite P4 in Hx. destruct (ei_owner _ Hi _ Hx) as (t1&tho&Ho&H1&Hc). rewrite P3, P5.
    destruct (decide (t1 = t)) as [->|Hne].
    + exists t, th1. assert (tho = th) as -> by congruence. by rewrite Eth in *.
    + exists t1, tho. by rewrite P2.
  - done.
Qed.

Lemma register_succeeds s s1 t th th1 e : ev_inv s -> es_threads s !! t = Some th -> et_pc th = PIdle -> e ∉ es_registered s ->
  nobody (unregistering e) (es_threads s) = true -> prepared s s1 t th1 ->
  th1 = set_et_event_count (et_event_count th + 1) (set_et_numobjs (et_numobjs th + 1) th) ->
  (is_mt_app = true -> receives (es_use_raw s1) t (es_w s1) /\ es_use_raw s1 = negb rx_works) ->
  ev_inv (set_es_registered ({[e]} ∪ es_registered s1) (set_es_unlinked ({[e]} ∪ es_unlinked s1)
    (set_es_owner (<[e := t]> (es_owner s1)) s1))).
Proof.
  intros Hi Ht Hpc Hr Hnob Hpr Eth Hon. pose proof Hpr as [P1 P2 (P3&P4&P5) P6 Pw (P7&P8&P9) Pm].
  set (s' := set_es_registered _ _).
  assert (forall x, x <> e -> es_owner s' !! x = es_owner s !! x) as Eo by (intros; cbn; by rewrite lookup_insert_ne, P3).
  assert (es_registered s' = {[e]} ∪ es_registered s) as Er by (cbn; by rewrite P4).
  split.
  - intros t1 tho H1. change (es_threads s1 !! t1 = Some tho) in H1. destruct (decide (t1 = t)) as [->|Hne].
    + assert (tho = th1) as -> by congruence. pose proof (to_count _ _ _ (ei_threads _ Hi _ _ Ht)) as C.
      unfold leaving in C. rewrite Hpc in C.
      apply (prepared_me s s1 s' t th th1 e); try done; try (by rewrite Eth); [set_solver| |by intros Hm _; apply Hon].
      assert (owned s' t = {[e]} ∪ owned s t) as ->.
      { unfold owned. apply set_eq. intros x. rewrite elem_of_union, elem_of_singleton, !elem_of_filter, Er.
        destruct (decide (x = e)) as [->|Hxe]; [|rewrite Eo by done; set_solver].
        split; [by left|]. intros _. split; [cbn; apply lookup_insert_eq|set_solver]. }
      rewrite size_union, size_singleton.
      2:{ unfold owned. set_solver. }
      rewrite Eth. cbn [et_event_count set_et_event_count]. lia.
    + rewrite P2 in H1 by done. eapply prepared_other; try done. right.
      exists (<[e := t]> (es_owner s1)), ({[e]} ∪ es_unlinked s1), ({[e]} ∪ es_registered s1). split_and!; [done|by rewrite P3|by rewrite P4].
  - intros x Hx. rewrite Er in Hx. destruct (decide (x = e)) as [->|Hxe].
    + exists t, th1. split_and!; [cbn; apply lookup_insert_eq|done|right; cbn; set_solver].
    + destruct (ei_owner _ Hi x ltac:(set_solver)) as (t1&tho&Ho&H1&Hc). rewrite Eo by done.
      assert (x ∈ listed tho \/ x ∈ es_unlinked s') as Hc' by (cbn; rewrite P5; set_solver +Hc).
      destruct (decide (t1 = t)) as [->|Hne].
      * exists t, th1. assert (tho = th) as -> by congruence. rewrite Eth. split_and!; [done|by rewrite <-Eth|done].
      * exists t1, tho. split_and!; [done|by change (es_threads s1 !! t1 = Some tho); rewrite P2|done].
  - done.
Qed.

(** A thread without events has nothing on its list. *)
Lemma idle_empty s t th : thread_ok s t th -> et_pc th = PIdle -> et_event_count th = 0 -> et_pending th = [].
Proof.
  intros Hok Hpc Hc. destruct (et_pending th) as [|x l] eqn:Hp; [done|]. exfalso.
  assert (x ∈ listed th) as Hx by (unfold listed; rewrite Hp; set_solver +).
  destruct (to_listed _ _ _ Hok x Hx) as [Ho [Hr|?]]; [|congruence].
  pose proof (owned_positive _ _ _ _ Hok Hr Ho). lia.
Qed.

Lemma register_body_spec t e q : atomic t (iv_event_register_body t e) PIdle q (fun _ pc q' => pc = PIdle /\ q' = q).
Proof.
  intros s th Hi Ht Hpc Hq. unfold iv_event_register_body. do 3 wprim. wbind. apply requires_spec; [done|].
  intros [Hr%bool_decide_eq_true Hnob]%andb_true_iff.
  set (th0 := set_et_numobjs (et_numobjs th + 1) th).
  wrun (upd_thread_Ok _ _ _ (fun th => set_et_numobjs (et_numobjs th + 1) th) Ht).
  wrun (load_thread_Ok _ _ _ (put_lookup t th0 s)). cbv zeta. set (th1 := set_et_event_count (et_event_count th + 1) th0).
  wrun (upd_thread_Ok _ _ _ (set_et_event_count (et_event_count th + 1)) (put_lookup t th0 s)). rewrite put_put. fold th1.
  set (s1 := put_thread t th1 s).
  assert (Hcase : exists ret s2, (if (et_event_count th =? 0) && is_mt_app then register_kick t else mret 0) s1 = Ok (ret, s2) /\
    prepared s s2 t th1 /\ (ret = 0 -> is_mt_app = true -> receives (es_use_raw s2) t (es_w s2) /\ es_use_raw s2 = negb rx_works)).
  { pose proof (ei_raw _ Hi) as Hraw. pose proof (ei_threads _ Hi _ _ Ht) as Hok.
    assert (forall t', t' <> t -> es_threads s1 !! t' = es_threads s !! t') as Ho by (intros; cbn; by rewrite lookup_insert_ne).
    destruct ((et_event_count th =? 0) && is_mt_app) eqn:Ec.
    - destruct (register_kick_spec s1 t Hraw) as (ret&u&w'&E&Eu&Em&W1&W2&W3&W4). exists ret, (set_es_use_raw u (set_es_w w' s1)).
      split; [done|]. split; [|intros Hret _; split; [by apply W4|done]].
      split; try done; [apply put_lookup|by right| |].
      + cbn. rewrite Eu. intros Hn. by apply negb_true_iff.
      + intros _. right. intros th2 Hth2. assert (th2 = th) as -> by congruence. by apply andb_true_iff in Ec as [Ec%Z.eqb_eq _]; eapply idle_empty.
    - exists 0, s1. split; [done|]. split.
      + split; try done; [apply put_lookup|by left|set_solver +|by left].
      + intros _ Hm. rewrite Hm in Ec. rewrite andb_true_r in Ec. apply Z.eqb_neq in Ec.
        apply (to_on _ _ _ Hok Hm). rewrite (to_count _ _ _ Hok) in Ec |- *. unfold leaving in *. rewrite Hpc in *. lia. }
  destruct Hcase as (ret&s2&E2&Hpr&Hon). wbind. eapply wp_Ok; [exact E2|]. cbv beta. pose proof Hpr as [P1 P2 _ _ _ _ _].
  destruct (Z.eqb_spec ret 0) as [->|Hret]; cbn [negb].
  - do 3 wprim. eapply wp_Ok; [reflexivity|]. split_and!.
    + exact (register_succeeds s s2 t th th1 e Hi Ht Hpc Hr Hnob Hpr eq_refl (Hon eq_refl)).
    + intros t' Hne. unfold ev_aux. cbn. by rewrite P2.
    + exists th1. by split_and!.
  - wrun (upd_thread_Ok _ _ _ (set_et_event_count (et_event_count th)) P1). eapply wp_Ok; [reflexivity|].
    assert (set_et_event_count (et_event_count th) th1 = th0) as -> by done.
    assert (prepared s (put_thread t th0 s2) t th0) as Hpr'.
    { destruct Hpr as [_ _ Q3 Q4 Q5 Q6 Q7]. split; try done; [apply put_lookup|]. intros t' Hne. cbn. rewrite lookup_insert_ne by done. by apply P2. }
    split_and!.
    + by eapply register_fails.
    + intros t' Hne. unfold ev_aux. cbn. rewrite lookup_insert_ne by done. by rewrite P2.
    + exists th0. split; [apply put_lookup|by split_and!].
Qed.

Lemma unregister_look_spec t e q : atomic t (unregister_look t e) PIdle q (fun empty pc q' => pc = PUnregister e (negb empty) /\ q' = q).
Proof.
  intros s th Hi Ht Hpc Hq. unfold unregister_look. do 3 wprim. wbind. apply requires_spec; [done|].
  intros [[Hr%bool_decide_eq_true Ho%bool_decide_eq_true]%andb_true_iff Hnob]%andb_true_iff.
  pose proof (ei_threads _ Hi _ _ Ht) as Hok.
  destruct (ei_owner _ Hi _ Hr) as (t'&th''&Ho'&Ht'&Hc). assert (t' = t) as -> by congruence. assert (th'' = th) as -> by congruence.
  wrun (cell_empty_spec _ _ _ _ Ho Ht Hc). wprim. set (empty := bool_decide (e ∉ listed th)).
  set (s1 := set_es_registered _ s). wrun (upd_thread_Ok s1 t th (set_et_pc (PUnregister e (negb empty))) Ht).
  eapply wp_Ok; [reflexivity|]. set (th' := set_et_pc (PUnregister e (negb empty)) th). set (s' := put_thread t th' s1).
  assert (negb empty = bool_decide (e ∈ listed th)) as Hemp.
  { unfold empty. destruct (decide (e ∈ listed th)); [rewrite bool_decide_false, bool_decide_true by tauto|rewrite bool_decide_true, bool_decide_false by tauto]; done. }
  assert (forall x, kicked s x -> kicked s' x) as Hk.
  { intros x (t2&th2&y&H2&Hp2). destruct (decide (t2 = t)) as [->|Hne]; [assert (th2 = th) as -> by congruence; congruence|].
    exists t2, th2, y. split; [|done]. cbn. by rewrite lookup_insert_ne. }
  assert (forall x, x ∈ es_registered s' <-> x ∈ es_registered s /\ x <> e) as Er by (intros; cbn; set_solver).
  split_and!.
  - split.
    + intros t1 tho H1. cbn in H1. rewrite lookup_insert in H1. case_decide as Ht1.
      * subst t1. injection H1 as <-. destruct Hok as [A B C D E F G]. split; try done.
        -- intros x Hx. destruct (B x Hx) as [? [?|?]]; [|congruence]. split; [done|].
           destruct (decide (x = e)) as [->|Hxe]; [right; cbn; rewrite Hemp; by rewrite bool_decide_true|left; by apply Er].
        -- assert (owned s t = {[e]} ∪ owned s' t) as Eow.
           { unfold owned. apply set_eq. intros x. rewrite elem_of_union, elem_of_singleton, !elem_of_filter, Er. cbn.
             destruct (decide (x = e)) as [->|]; tauto. }
           unfold leaving in *. rewrite Hpc in C. cbn. rewrite C, Eow, size_union, size_singleton; [lia|].
           unfold owned. intros x. rewrite elem_of_singleton, elem_of_filter, Er. intros ->. tauto.
        -- intros Hp. destruct (E Hp) as [?|[?|[?|?]]]; [by left|by right; left|congruence|right; right; right; auto].
        -- unfold pc_ok. cbn. rewrite Hemp. split_and!; [set_solver|done|done].
        -- change (et_posted th = et_ran th ++ [] ++ listed th). rewrite G. unfold calling. by rewrite Hpc.
      * pose proof (ei_threads _ Hi _ _ H1) as Hoko. pose proof (nobody_spec _ _ _ _ Hnob H1) as Hnp.
        apply (other_frame s); [done| | | |done|done|apply Hk].
        -- intros x Hx _. split; [done|]. intros ?. apply Er. split; [done|]. intros ->. congruence.
        -- unfold owned. apply set_eq. intros x. rewrite !elem_of_filter, Er. split; [tauto|]. intros [Hx ?]. split_and!; [done|done|].
           intros ->. cbn in Hx. congruence.
        -- pose proof (to_pc _ _ _ Hoko) as F. unfold pc_ok in *. destruct (et_pc tho) as [|d x| |x|x b]; try done.
           ++ destruct F as (?&?&?). rewrite Er. split_and!; try done. intros ->. cbn in Hnp. by rewrite bool_decide_true in Hnp.
           ++ destruct F as (?&Hx). rewrite Er. split_and!; try done. intros ->. congruence.
           ++ destruct F as (?&?&?). rewrite Er. split_and!; try done. tauto.
    + intros x Hx. apply Er in Hx as [Hx _]. destruct (ei_owner _ Hi _ Hx) as (t1&tho&Hox&H1&Hcx).
      destruct (decide (t1 = t)) as [->|Hne]; [exists t, th'; assert (tho = th) as -> by congruence; split_and!; [done|apply put_lookup|done]|].
      exists t1, tho. split_and!; [done|cbn; by rewrite lookup_insert_ne|done].
    + exact (ei_raw _ Hi).
  - intros t1 Hne. unfold ev_aux. cbn. by rewrite lookup_insert_ne.
  - exists th'. split; [apply put_lookup|by split].
Qed.

Lemma remove_app a (l1 l2 : list loc) : remove a (l1 ++ l2) = remove a l1 ++ remove a l2.
Proof. apply filter_app. Qed.

Lemma unlink_spec t e q : atomic t (event_list_del e;; forget_posted t e) (PUnregister e true) q
  (fun _ pc q' => pc = PUnregister e false /\ (length q' <= length q)%nat).
Proof.
  intros s th Hi Ht Hpc Hq. pose proof (ei_threads _ Hi _ _ Ht) as Hok. pose proof (to_pc _ _ _ Hok) as F.
  unfold pc_ok in F. rewrite Hpc in F. destruct F as (Hr&Ho&Hin). symmetry in Hin. apply bool_decide_eq_true in Hin.
  set (th1 := set_et_pending (remove e (et_pending th)) (set_et_batch (remove e (et_batch th)) th)).
  assert (event_list_del e s = Ok (tt, put_thread t th1 s)) as E1.
  { unfold event_list_del. rewrite (bind_Ok _ _ _ _ _ (load_owner_Ok _ _ _ Ho)), (bind_Ok _ _ _ _ _ (load_thread_Ok _ _ _ Ht)).
    unfold gets at 1, mbind at 1, M_bind at 1. rewrite linked_listed, bool_decide_true by done.
    apply (upd_thread_Ok _ _ _ (fun th => set_et_pending (remove e (et_pending th)) (set_et_batch (remove e (et_batch th)) th)) Ht). }
  wrun E1. unfold forget_posted.
  eapply wp_Ok; [apply (upd_thread_Ok _ _ _ (fun th => set_et_pc (PUnregister e false)
    (set_et_posted (et_ran th ++ remove e (drop (length (et_ran th)) (et_posted th))) th)) (put_lookup t th1 s))|].
  rewrite put_put. set (th' := set_et_pc _ _).
  assert (listed th' = remove e (listed th)) as El by (unfold listed, th', th1; cbn; by rewrite remove_app).
  destruct Hok as [A B C D E F G]. split_and!.
  - eapply (quiet_inv s _ t th th'); [done|apply quiet_put'|done|apply put_lookup| | |done|].
    + split.
      * rewrite El. by apply NoDup_remove.
      * intros x Hx. rewrite El in Hx. apply elem_of_remove in Hx as [Hxe Hx]. destruct (B x Hx) as [? [?|Hp]]; [auto|].
        rewrite Hpc in Hp. by injection Hp as <-.
      * unfold leaving in *. rewrite Hpc in C. exact C.
      * exact D.
      * change (et_pending th') with (remove e (et_pending th)). intros Hp.
        destruct E as [?|[?|[?|?]]]; [by intros Hn; rewrite Hn in Hp|by left|by right; left|congruence|].
        right; right; right. eapply kicked_other; [exact Ht|apply put_lookup| |by rewrite Hpc|done].
        intros t' Hne. cbn. by rewrite lookup_insert_ne.
      * unfold pc_ok. cbn [et_pc th' set_et_pc]. split_and!; [done|done|]. rewrite El. rewrite bool_decide_false; [done|].
        rewrite elem_of_remove. tauto.
      * assert (et_posted th' = et_ran th ++ remove e (drop (length (et_ran th)) (et_posted th))) as -> by done.
        rewrite G. unfold calling. rewrite Hpc. cbn [app]. rewrite drop_app_length, El. done.
    + intros x Hx Hxr. left. rewrite El. apply elem_of_remove. split; [|done]. by intros ->.
    + intros d x. by rewrite Hpc.
  - apply quiet_aux, quiet_put'.
  - exists th'. split; [apply put_lookup|]. split; [done|]. cbn. rewrite Hq. apply length_remove.
Qed.

(** Leaving: the record [th'] of a thread that no longer counts [e], the kernel
    in [w']. *)
Lemma leave_inv s s' t th th' e : ev_inv s -> es_threads s !! t = Some th -> et_pc th = PUnregister e false ->
  (forall t', t' <> t -> es_threads s' !! t' = es_threads s !! t') -> es_threads s' !! t = Some th' ->
  es_owner s' = es_owner s -> es_registered s' = es_registered s -> es_unlinked s' = es_unlinked s -> es_use_raw s' = es_use_raw s ->
  et_pc th' = PIdle -> et_event_count th' = et_event_count th - 1 -> et_batch th' = et_batch th -> et_pending th' = et_pending th ->
  et_local th' = et_local th -> et_posted th' = et_posted th -> et_ran th' = et_ran th ->
  rx_set (es_w s) ∖ {[t]} ⊆ rx_set (es_w s') -> kick_set (es_w s) ∖ {[t]} ⊆ kick_set (es_w s') ->
  woken (es_w s) ∖ {[t]} ⊆ woken (es_w s') -> (0 < et_event_count th' -> es_w s' = es_w s) -> ev_inv s'.
Proof.
  intros Hi Ht Hpc Hoth Ht' Eo Er Eun Eu Hpc' Ec Eb Ep Elo Epo Era W1 W2 W3 Hsame.
  pose proof (ei_threads _ Hi _ _ Ht) as [A B C D E F G]. unfold pc_ok in F. rewrite Hpc in F. destruct F as (Her&Heo&Hel).
  assert (listed th' = listed th) as El by (unfold listed; by rewrite Eb, Ep).
  assert (e ∉ listed th) as Hnl by (intros Hx; rewrite bool_decide_true in Hel; done).
  assert (forall x, x ∈ listed th -> es_owner s !! x = Some t /\ x ∈ es_registered s) as B'.
  { intros x Hx. destruct (B x Hx) as [? [?|Hp]]; [done|]. rewrite Hpc in Hp. done. }
  assert (forall x, kicked s x -> kicked s' x) as Hk.
  { intros x (t2&th2&y&H2&Hp2). destruct (decide (t2 = t)) as [->|Hne]; [assert (th2 = th) as -> by congruence; congruence|].
    exists t2, th2, y. by rewrite Hoth. }
  unfold leaving in C. rewrite Hpc in C.
  split.
  - intros t1 tho H1. destruct (decide (t1 = t)) as [->|Hne].
    + assert (tho = th') as -> by congruence. split.
      * by rewrite El.
      * intros x Hx. rewrite El in Hx. rewrite Eo, Er. destruct (B' x Hx). auto.
      * unfold leaving, owned. rewrite Hpc', Eo, Er, Ec. unfold owned in C. lia.
      * intros Hm Hc. unfold receives. rewrite Eu, (Hsame Hc). apply D; [done|lia].
      * rewrite Ep, Elo. intros Hp.
        assert (0 < et_event_count th').
        { destruct (et_pending th) as [|x l] eqn:Hpend; [done|]. destruct (B' x) as [Hox Hrx]; [unfold listed; rewrite Hpend; set_solver +|].
          assert (x ∈ owned s t) as Hx by (unfold owned; by apply elem_of_filter).
          assert (size (owned s t) <> 0%nat) by (intros Hz%size_empty_inv; set_solver +Hx Hz). lia. }
        rewrite (Hsame ltac:(done)). destruct (E Hp) as [?|[?|[?|?]]]; auto; congruence.
      * unfold pc_ok. by rewrite Hpc'.
      * rewrite Epo, Era, El, G. unfold calling. by rewrite Hpc, Hpc'.
    + rewrite Hoth in H1 by done. pose proof (ei_threads _ Hi _ _ H1) as Hok. apply (other_frame s); [done| | | | | |apply Hk].
      * intros x Hx _. by rewrite Eo, Er.
      * unfold owned. by rewrite Eo, Er.
      * pose proof (to_pc _ _ _ Hok) as F. unfold pc_ok in *. by rewrite Eo, Er.
      * intros _ _ Hu Hrec. rewrite Eu. split; [|done]. unfold receives in *. destruct (es_use_raw s); set_solver.
      * set_solver.
  - intros x Hx. rewrite Er in Hx. destruct (ei_owner _ Hi _ Hx) as (t1&tho&Ho&H1&Hc). rewrite Eo, Eun.
    destruct (decide (t1 = t)) as [->|Hne]; [exists t, th'; assert (tho = th) as -> by congruence; by rewrite El|].
    exists t1, tho. by rewrite Hoth.
  - rewrite Eu. apply (ei_raw _ Hi).
Qed.

Lemma unregister_rest_spec t e q : atomic t (unregister_rest t e) (PUnregister e false) q (fun _ pc q' => pc = PIdle /\ q' = q).
Proof.
  intros s th Hi Ht Hpc Hq. unfold unregister_rest. wrun (load_thread_Ok _ _ _ Ht). cbv zeta.
  set (count := et_event_count th - 1). set (th1 := set_et_event_count count th).
  wrun (upd_thread_Ok _ _ _ (set_et_event_count count) Ht). fold th1. set (s1 := put_thread t th1 s).
  set (w' := if (count =? 0) && is_mt_app then if es_use_raw s then kick_unregister t (es_w s) else event_rx_off t (es_w s) else es_w s).
  assert ((when ((count =? 0) && is_mt_app) (raw ← gets es_use_raw; if raw : bool then kernel_ (kick_unregister t) else kernel_ (event_rx_off t))) s1
    = Ok (tt, set_es_w w' s1)) as E.
  { unfold w'. destruct ((count =? 0) && is_mt_app); cbn [when]; [|by destruct s].
    unfold gets, mbind, M_bind, kernel_, modify. cbn [s1 put_thread es_use_raw set_es_threads]. by destruct (es_use_raw s). }
  wrun E. assert (es_threads (set_es_w w' s1) !! t = Some th1) as H1 by apply (put_lookup t).
  wrun (upd_thread_Ok _ _ _ (fun th => set_et_numobjs (et_numobjs th - 1) th) H1).
  eapply wp_Ok; [apply (upd_thread_Ok _ _ _ (set_et_pc PIdle) (put_lookup _ _ _))|]. rewrite put_put.
  set (th' := set_et_pc PIdle _). set (s' := put_thread t th' _).
  assert (forall t', t' <> t -> es_threads s' !! t' = es_threads s !! t') as Hoth.
  { intros t' Hne. cbn. by rewrite !lookup_insert_ne. }
  assert (rx_set (es_w s) ∖ {[t]} ⊆ rx_set w' /\ kick_set (es_w s) ∖ {[t]} ⊆ kick_set w' /\ woken (es_w s) ∖ {[t]} ⊆ woken w') as (W1&W2&W3).
  { unfold w'. destruct ((count =? 0) && is_mt_app); [|set_solver +]. destruct (es_use_raw s).
    - destruct (law_kick_unregister t (es_w s)) as (->&->&?). set_solver.
    - destruct (law_rx_off t (es_w s)) as (->&->&?). set_solver. }
  split_and!.
  - eapply (leave_inv s s' t th th' e); try done; [apply put_lookup|]. intros Hc. change (0 < count) in Hc.
    change (w' = es_w s). unfold w'. by rewrite (proj2 (Z.eqb_neq count 0)) by lia.
  - intros t1 Hne. unfold ev_aux. by rewrite Hoth.
  - exists th'. split; [apply put_lookup|by split].
Qed.

(** ** Programs *)
Abbreviation evc := (wpc ev_inv ev_aux breach).

Lemma atomic_wpc t {A} (m : M St A) pc q Q R : atomic t m pc q Q ->
  (forall a pc' q', Q a pc' q' -> R a (Some (pc', q'))) -> evc t (act m) (Some (pc, q)) R.
Proof.
  intros Hm HR. apply wpc_act. intros s Hi Hl. unfold ev_aux in Hl. destruct (es_threads s !! t) as [th|] eqn:Ht; [|done].
  injection Hl as <- <-. eapply wp_mono; [by apply (Hm s th)|]. cbv beta. intros a s' (?&?&th'&Ht'&HQ). split_and!; [done|done|].
  unfold ev_aux. rewrite Ht'. by apply HR.
Qed.
Lemma act_wpc t {A B} (m : M St A) (k : A -> prog St B) pc q Q R : atomic t m pc q Q ->
  (forall a pc' q', Q a pc' q' -> evc t (k a) (Some (pc', q')) R) -> evc t (act m ≫= k) (Some (pc, q)) R.
Proof. intros Hm HR. apply wpc_bind. by eapply atomic_wpc. Qed.

Definition at_rest (q : list loc) (l : option (event_pc * list loc)) : Prop :=
  exists q', l = Some (PIdle, q') /\ (length q' <= length q)%nat.

Lemma post_wpc t e q : evc t (iv_event_post t e) (Some (PIdle, q)) (fun _ => at_rest q).
Proof.
  unfold iv_event_post. eapply act_wpc; [apply post_section_spec|]. intros [dst post] pc q' [-> ->].
  destruct post; [|by exists q]. case_bool_decide as Hd.
  - subst dst. eapply atomic_wpc; [apply register_local_spec|]. intros _ pc q' [-> ->]. by exists q.
  - eapply atomic_wpc; [by apply kick_spec|]. intros _ pc q' [-> ->]. by exists q.
Qed.
Lemma register_wpc t e q : evc t (iv_event_register t e) (Some (PIdle, q)) (fun _ => at_rest q).
Proof. eapply atomic_wpc; [apply register_body_spec|]. intros ret pc q' [-> ->]. by exists q. Qed.
Lemma unregister_wpc t e q : evc t (iv_event_unregister t e) (Some (PIdle, q)) (fun _ => at_rest q).
Proof.
  unfold iv_event_unregister. eapply act_wpc; [apply unregister_look_spec|]. intros empty pc q1 [-> ->].
  apply wpc_bind. apply (wpc_mono _ _ _ _ _ _ (fun _ l => exists q2, l = Some (PUnregister e false, q2) /\ (length q2 <= length q)%nat)).
  - destruct empty; cbn [negb]; [by exists q|]. eapply atomic_wpc; [apply unlink_spec|]. intros _ pc q2 [-> ?]. by exists q2.
  - intros _ l (q2&->&?). eapply atomic_wpc; [apply unregister_rest_spec|]. intros _ pc q3 [-> ->]. by exists q2.
Qed.

Lemma call_wpc t c q : evc t (run_ev_call t c) (Some (PIdle, q)) (fun _ => at_rest q).
Proof.
  destruct c as [e|e|e]; cbn [run_ev_call]; [|apply unregister_wpc|apply post_wpc].
  apply wpc_bind. eapply wpc_mono; [apply register_wpc|]. intros a l Hl. exact Hl.
Qed.
Lemma calls_wpc t cs : forall q, evc t (run_ev_calls t cs) (Some (PIdle, q)) (fun _ => at_rest q).
Proof.
  induction cs as [|c cs IH]; intros q; [by exists q|]. cbn [run_ev_calls]. apply wpc_bind.
  eapply wpc_mono; [apply call_wpc|]. intros _ l (q1&->&?). eapply wpc_mono; [apply IH|]. intros _ l (q2&->&?). exists q2. split; [done|lia].
Qed.

(** What handlers call. *)
Context (handler : loc -> list loc -> list ev_call).

Lemma run_batch_wpc t : forall fuel e q, (length q < fuel)%nat ->
  evc t (run_batch handler t fuel e (bool_decide (q = []))) (Some (PCall e, q)) (fun _ l => l = Some (PIdle, [])).
Proof.
  induction fuel as [|fuel IH]; intros e q Hq; [lia|]. cbn [run_batch]. unfold call_handler. apply wpc_bind.
  eapply act_wpc; [apply enter_handler_spec|]. intros cs pc q1 [-> ->].
  eapply wpc_mono; [apply calls_wpc|]. intros _ l (q2&->&Hq2). case_bool_decide as Hqe.
  - subst q. destruct q2; [done|cbn in Hq2; lia].
  - eapply act_wpc; [apply next_pending_spec|]. intros [[e' em]|] pc q3; [|by intros (?&->&->)].
    intros (->&->&->). apply IH. cbn in Hq2. lia.
Qed.

Lemma run_pending_wpc t pc : pc = PIdle \/ pc = PRun ->
  evc t (__iv_event_run_pending_events handler t) (Some (pc, [])) (fun _ l => l = Some (PIdle, [])).
Proof.
  intros Hpc. unfold __iv_event_run_pending_events. eapply act_wpc; [by apply steal_pending_spec|].
  intros [[e em]|] pc' q; [|by intros [-> ->]]. intros [-> ->].
  apply (act_wpc t _ _ _ _ (fun n pc' q' => n = length q /\ pc' = PCall e /\ q' = q)).
  - intros s th Hi Ht Hp Hq. eapply wp_Ok; [reflexivity|]. split_and!; [done|done|]. exists th. rewrite Ht. cbn. by rewrite Hq.
  - intros n pc' q' (->&->&->). apply run_batch_wpc. lia.
Qed.

Lemma poll_wakeup_wpc t : evc t (poll_wakeup handler t) (Some (PIdle, [])) (fun _ l => l = Some (PIdle, [])).
Proof.
  unfold poll_wakeup. eapply act_wpc; [apply take_wakeup_spec|]. intros [] pc q [-> ->]; [|done]. apply run_pending_wpc. by right.
Qed.
Lemma local_task_wpc t : evc t (local_task handler t) (Some (PIdle, [])) (fun _ l => l = Some (PIdle, [])).
Proof.
  unfold local_task. eapply act_wpc; [apply take_local_spec|]. intros [] pc q [-> ->]; [|done]. apply run_pending_wpc. by right.
Qed.
End spec.
