(* ===== verification/EventProps.v ===== *)
(** * What holds in every run of any number of threads with events *)

From S2P Require Import Prelude Conc Event EventSpec.

Local Open Scope Z_scope.

Section props.
Context {W : Type} `{!Wakeups W, HL : !WakeupLaws W}.
Context (handler : loc -> list loc -> list ev_call).
Abbreviation St := (ev_state W).
Implicit Types (s : St) (t d e : loc) (th : ev_thread).

(** What a thread begins between its own actions: a poll that may report a wakeup,
    its task, or calls of its own. *)
Inductive ev_start := SPoll | SLocal | SCalls (cs : list ev_call).
Definition begin t (b : ev_start) : prog St unit :=
  match b with
  | SPoll => poll_wakeup handler t
  | SLocal => local_task handler t
  | SCalls cs => run_ev_calls t cs
  end.
Definition may_start t (p : prog St unit) : Prop := exists b, Some (begin t b) = Some p.

(** Threads that just called [iv_event_init], in any kernel state. *)
Definition ev_boot (ts : gset loc) (w : W) : config :=
  (mk_ev (gset_to_gmap (mk_et 0 0 [] [] false PIdle [] []) ts) ∅ ∅ false ∅ w, gset_to_gmap (Ret tt) ts).
Definition ev_reachable (c : config) : Prop := exists ts w, steps may_start (ev_boot ts w) c.

Abbreviation ok := (config_ok ev_inv ev_aux (Some (PIdle, [])) breach).

Lemma boot_ok ts w : ok (ev_boot ts w).
Proof.
  split; cbn.
  - split; cbn.
    + intros t th [Ht <-]%lookup_gset_to_gmap_Some. split; try done.
      * constructor.
      * intros e ?%not_elem_of_nil. done.
    + intros e. by rewrite elem_of_empty.
    + done.
  - intros t p [Ht <-]%lookup_gset_to_gmap_Some. cbn. unfold ev_aux. cbn.
    by rewrite (proj2 (lookup_gset_to_gmap_Some _ _ _ _) (conj Ht eq_refl)).
Qed.

Lemma start_ok t p : may_start t p -> wpc ev_inv ev_aux breach t p (Some (PIdle, [])) (fun _ l => l = Some (PIdle, [])).
Proof.
  intros [[| |cs] [= <-]]; cbn [begin]; [apply poll_wakeup_wpc|apply local_task_wpc|].
  eapply wpc_mono; [apply calls_wpc|]. intros _ l (q&->&Hq). destruct q; [done|cbn in Hq; lia].
Qed.

Lemma reachable_config_ok c : ev_reachable c -> ok c.
Proof. intros (ts&w&Hs). eapply steps_ok; [exact start_ok|apply boot_ok|exact Hs]. Qed.

(** C2. No wakeup is lost, however the threads interleave: while events are on a
    thread's list, that thread is about to run them, or its task is registered, or
    it has a wakeup outstanding, or some poster is on its way to wake it.  So when all
    threads are at rest and nothing is outstanding for a thread, its handlers ran for
    everything that was posted to it. *)
Theorem iv_event_no_lost_wakeup s pool d th : ev_reachable (s, pool) -> es_threads s !! d = Some th ->
  (et_pending th <> [] -> et_pc th = PRun \/ et_local th = true \/ d ∈ woken (es_w s) \/ kicked s d) /\
  ((forall t p, pool !! t = Some p -> p = Ret tt) -> (forall t tht, es_threads s !! t = Some tht -> is_Some (pool !! t)) ->
   et_local th = false -> d ∉ woken (es_w s) -> et_ran th = et_posted th).
Proof.
  intros Hr Hd. destruct (reachable_config_ok _ Hr) as [Hi Ht]. cbn in Hi, Ht. pose proof (ei_threads _ Hi _ _ Hd) as Hok. split.
  { intros Hp. destruct (to_wake _ _ _ Hok Hp) as [?|[?|[?|?]]]; auto. }
  intros Hrest Hdom Hl Hw.
  assert (forall t tht, es_threads s !! t = Some tht -> et_pc tht = PIdle /\ et_batch tht = []) as Hidle.
  { intros t tht H1. destruct (Hdom t tht H1) as [p Hp]. pose proof (Ht t p Hp) as Hx. rewrite (Hrest t p Hp) in Hx.
    cbn in Hx. unfold ev_aux in Hx. rewrite H1 in Hx. by injection Hx. }
  destruct (Hidle d th Hd) as [Hpc Hb]. rewrite (to_posted _ _ _ Hok). unfold calling, listed. rewrite Hpc, Hb.
  destruct (et_pending th) as [|e l] eqn:Hp; [by rewrite !app_nil_r|].
  destruct (to_wake _ _ _ Hok) as [?|[?|[?|(t&tht&e'&H1&H2)]]]; [by rewrite Hp|congruence|done|congruence|].
  destruct (Hidle t tht H1). congruence.
Qed.

(** C20. Every event that was put on its owner's list runs exactly once for that, in the
    order of posting, in the thread that registered it, and only while it is registered:
    what was posted is what ran, then what is being run, then what is still listed,
    each event at most once. *)
Theorem iv_event_in_order s pool t th : ev_reachable (s, pool) -> es_threads s !! t = Some th ->
  et_posted th = et_ran th ++ calling th ++ et_batch th ++ et_pending th /\
  NoDup (et_batch th ++ et_pending th) /\
  (forall e, et_pc th = PCall e -> e ∈ es_registered s /\ es_owner s !! e = Some t) /\
  (forall e, e ∈ et_batch th ++ et_pending th -> es_owner s !! e = Some t /\
     (e ∈ es_registered s \/ et_pc th = PUnregister e true)).
Proof.
  intros Hr Ht. destruct (reachable_config_ok _ Hr) as [Hi _]. destruct (ei_threads _ Hi _ _ Ht) as [A B C D E F G].
  split_and!; [exact G|exact A| |exact B]. intros e He. unfold pc_ok in F. by rewrite He in F.
Qed.

(** No thread ever follows a dangling list cell, whatever the others do: the next
    action of any thread goes through, unless it is a call that the interface does
    not allow. *)
Theorem iv_event_safe s pool t B (m : M St B) k : ev_reachable (s, pool) -> pool !! t = Some (Act m k) ->
  wp breach m s (fun _ _ => True).
Proof. intros Hr Hp. exact (config_safe _ _ _ _ (s, pool) t B m k (reachable_config_ok _ Hr) Hp). Qed.

(** A thread's [event_count] is the number of events it has registered (and the one
    it is unregistering), and while there is any the thread can be woken in the way
    that posts wake it. *)
Theorem iv_event_count_exact s pool t th : ev_reachable (s, pool) -> es_threads s !! t = Some th ->
  et_event_count th = Z.of_nat (size (owned s t)) + leaving th /\
  (is_mt_app = true -> 0 < et_event_count th -> t ∈ if es_use_raw s then kick_set (es_w s) else rx_set (es_w s)).
Proof.
  intros Hr Ht. destruct (reachable_config_ok _ Hr) as [Hi _]. destruct (ei_threads _ Hi _ _ Ht) as [_ _ C D _ _ _].
  split; [exact C|]. intros Hm Hc. by destruct (D Hm Hc).
Qed.

(** When the thread's wakeup cannot be set up, [iv_event_register] reports it and the
    event stays unregistered; but the thread's [numobjs] keeps counting it, so that its
    [iv_main] no longer returns for want of objects. *)
Theorem iv_event_register_failure t e s th ret w' : es_threads s !! t = Some th -> et_event_count th = 0 -> is_mt_app = true ->
  es_use_raw s = true -> kick_register t (es_w s) = (ret, w') -> ret <> 0 -> e ∉ es_registered s ->
  nobody (unregistering e) (es_threads s) = true ->
  exists s', exec (iv_event_register t e) s = Ok (ret, s') /\ es_registered s' = es_registered s /\
    es_threads s' !! t = Some (set_et_numobjs (et_numobjs th + 1) th).
Proof.
  intros Ht Hc Hm Hu Hk Hret He Hn. unfold iv_event_register. cbn [exec act]. unfold iv_event_register_body.
  eexists. split; [|split].
  - unfold mbind at 1, M_bind at 1. unfold gets at 1, mbind at 1, M_bind at 1.
    unfold gets at 1, mbind at 1, M_bind at 1. unfold gets at 1, mbind at 1, M_bind at 1.
    rewrite bool_decide_true, Hn by done. cbn [requires andb]. unfold mbind at 1, M_bind at 1, mret at 1, M_ret at 1.
    rewrite (bind_Ok _ _ _ _ _ (upd_thread_Ok _ _ _ (fun th => set_et_numobjs (et_numobjs th + 1) th) Ht)).
    rewrite (bind_Ok _ _ _ _ _ (load_thread_Ok _ _ _ (put_lookup _ _ _))). cbv zeta. cbn [et_event_count set_et_numobjs]. rewrite Hc, Hm.
    rewrite (bind_Ok _ _ _ _ _ (upd_thread_Ok _ _ _ (set_et_event_count (0 + 1)) (put_lookup _ _ _))). rewrite put_put.
    cbn [Z.eqb andb]. set (s1 := put_thread _ _ s).
    assert (register_kick t s1 = Ok (ret, set_es_w w' s1)) as E.
    { unfold register_kick, gets, mbind, M_bind, kernel, when. cbn [s1 put_thread set_es_threads es_use_raw es_w]. rewrite Hu. cbn.
      rewrite Hu. change (es_w s1) with (es_w s). by rewrite Hk. }
    rewrite (bind_Ok _ _ _ _ _ E). rewrite (proj2 (Z.eqb_neq _ _) Hret). cbn [negb].
    rewrite (bind_Ok _ _ _ _ _ (upd_thread_Ok (set_es_w w' s1) t _ (set_et_event_count 0) (put_lookup t _ s))). reflexivity.
  - done.
  - rewrite put_lookup. f_equal. rewrite <-Hc. by destruct th.
Qed.
Lemma ev_sched_reachable cs ts w : ev_reachable (sched_from (fun t b => Some (begin t b)) cs (ev_boot ts w)).
Proof. exists ts, w. apply sched_steps. Qed.
End props.

(** ** Two threads

    A process in which [event_rx_on] works ([rx]) or not; thread 9's kick cannot be
    set up. *)
Record evsim := mk_evsim { xv_rx : gset loc; xv_kick : gset loc; xv_woken : gset loc }.
Section sim.
Context (rx : bool).
#[local] Instance evsim_wakeups : Wakeups evsim := {
  is_mt_app := true;
  event_rx_on t w := if rx then (false, mk_evsim ({[t]} ∪ xv_rx w) (xv_kick w) (xv_woken w)) else (true, w);
  event_rx_off t w := mk_evsim (xv_rx w ∖ {[t]}) (xv_kick w) (xv_woken w ∖ {[t]});
  event_send t w := mk_evsim (xv_rx w) (xv_kick w) ({[t]} ∪ xv_woken w);
  kick_register t w := if decide (t = 9%positive) then (-1, w) else (0, mk_evsim (xv_rx w) ({[t]} ∪ xv_kick w) (xv_woken w));
  kick_unregister t w := mk_evsim (xv_rx w) (xv_kick w ∖ {[t]}) (xv_woken w ∖ {[t]});
  kick_post t w := mk_evsim (xv_rx w) (xv_kick w) ({[t]} ∪ xv_woken w);
  wk_take t w := (bool_decide (t ∈ xv_woken w), mk_evsim (xv_rx w) (xv_kick w) (xv_woken w ∖ {[t]})) }.
#[local, refine] Instance evsim_laws : WakeupLaws evsim := {
  rx_works := rx; rx_set := xv_rx; kick_set := xv_kick; woken := xv_woken }.
Proof.
  - intros t w f w'. cbn. by destruct rx; intros [= <- <-].
  - done.
  - done.
  - intros t w r w'. cbn. case_decide; intros [= <- <-]; (split_and!; [done|done|set_solver +]).
  - done.
  - done.
  - intros t w b w' [= <- <-]. split_and!; [done..|]. intros Hb. by apply bool_decide_eq_false in Hb.
Defined.

Definition demo_handler (t : loc) (ran : list loc) : list ev_call :=
  match ran with [3%positive] => [EPost 4%positive] | _ => [] end.
(** Thread 1 registers events 3 and 4; thread 2 posts 3 and is about to wake thread 1,
    which meanwhile polls without a wakeup. *)
Definition demo_choices : list (choice ev_start) :=
  [Begin 1 (SCalls [ERegister 3; ERegister 4]); Go 1; Go 1; Begin 2 (SCalls [EPost 3]); Begin 1 SPoll; Go 1; Go 2]%positive.
(** Thread 2 wakes it, thread 1 polls and takes event 3, whose handler posts 4; its task runs 4. *)
Definition demo_more : list (choice ev_start) :=
  [Go 2; Begin 1 SPoll; Go 1; Go 1; Go 1; Go 1; Go 1; Go 1; Begin 1 SLocal; Go 1; Go 1; Go 1; Go 1]%positive.
Definition demo_config (cs : list (choice ev_start)) := sched_from (fun t b => Some (begin demo_handler t b)) cs (ev_boot {[1; 2]}%positive (mk_evsim ∅ ∅ ∅)).
Lemma demo_reachable cs : ev_reachable demo_handler ((demo_config cs).1, (demo_config cs).2).
Proof. unfold demo_config. pose proof (ev_sched_reachable demo_handler cs {[1; 2]}%positive (mk_evsim ∅ ∅ ∅)) as H. by destruct (sched_from _ _ _). Qed.
End sim.

#[local] Existing Instance evsim_wakeups.
#[local] Existing Instance evsim_laws.

Definition demo_thread (rx : bool) (cs : list (choice ev_start)) (t : loc) : ev_thread :=
  default (mk_et 0 0 [] [] false PIdle [] []) (es_threads (demo_config rx cs).1 !! t).

(** In the first state thread 2 is on its way; in the second all have come to rest. *)
Lemma iv_event_no_lost_wakeup_witness :
  (et_pending (demo_thread true demo_choices 1) = [3%positive] /\
   (et_pc (demo_thread true demo_choices 1) = PRun \/ et_local (demo_thread true demo_choices 1) = true \/
    1%positive ∈ xv_woken (es_w (demo_config true demo_choices).1) \/ kicked (demo_config true demo_choices).1 1%positive)) /\
  et_ran (demo_thread true (demo_choices ++ demo_more) 1) = [3; 4]%positive.
Proof.
  split; [split; [by vm_compute|]|by vm_compute].
  refine (proj1 (iv_event_no_lost_wakeup (HL := evsim_laws true) demo_handler (demo_config true demo_choices).1 (demo_config true demo_choices).2 1
    (demo_thread true demo_choices 1) (demo_reachable true demo_choices) _) _); [by vm_compute|by vm_compute].
Defined.
Lemma iv_event_in_order_witness : et_posted (demo_thread false (demo_choices ++ demo_more) 1) =
  et_ran (demo_thread false (demo_choices ++ demo_more) 1) ++ calling (demo_thread false (demo_choices ++ demo_more) 1) ++
  et_batch (demo_thread false (demo_choices ++ demo_more) 1) ++ et_pending (demo_thread false (demo_choices ++ demo_more) 1) /\
  et_posted (demo_thread false (demo_choices ++ demo_more) 1) = [3; 4]%positive.
Proof.
  split; [|by vm_compute].
  refine (proj1 (iv_event_in_order (HL := evsim_laws false) demo_handler (demo_config false (demo_choices ++ demo_more)).1
    (demo_config false (demo_choices ++ demo_more)).2 1 _ (demo_reachable false (demo_choices ++ demo_more)) _)); by vm_compute.
Defined.
Lemma iv_event_safe_witness : exists B (m : M (ev_state evsim) B) k,
  (demo_config true demo_choices).2 !! 2%positive = Some (Act m k) /\ wp breach m (demo_config true demo_choices).1 (fun _ _ => True).
Proof.
  eexists _, _, _. split; [vm_compute; reflexivity|].
  eapply (iv_event_safe (HL := evsim_laws true) demo_handler (demo_config true demo_choices).1 (demo_config true demo_choices).2 2
    _ _ _ (demo_reachable true demo_choices)). vm_compute. reflexivity.
Defined.
Lemma iv_event_count_exact_witness : et_event_count (demo_thread false demo_choices 1) = 2 /\
  1%positive ∈ kick_set (WakeupLaws := evsim_laws false) (es_w (demo_config false demo_choices).1).
Proof.
  split; [by vm_compute|].
  refine (proj2 (iv_event_count_exact (HL := evsim_laws false) demo_handler (demo_config false demo_choices).1
    (demo_config false demo_choices).2 1 (demo_thread false demo_choices 1) (demo_reachable false demo_choices) _) eq_refl _); by vm_compute.
Defined.
Definition demo_fail : ev_state evsim :=
  mk_ev {[9%positive := mk_et 0 0 [] [] false PIdle [] []]} ∅ ∅ true ∅ (mk_evsim ∅ ∅ ∅).
Lemma iv_event_register_failure_witness : exists s', exec (iv_event_register (Wakeups0 := evsim_wakeups false) 9 3) demo_fail = Ok (-1, s') /\
  es_registered s' = ∅ /\ es_threads s' !! 9%positive = Some (mk_et 1 0 [] [] false PIdle [] []).
Proof.
  exact (iv_event_register_failure (Wakeups0 := evsim_wakeups false) 9 3 demo_fail (mk_et 0 0 [] [] false PIdle [] []) (-1) (mk_evsim ∅ ∅ ∅)
    eq_refl eq_refl eq_refl eq_refl eq_refl ltac:(discriminate) (not_elem_of_empty 3%positive) eq_refl).
Defined.
