(* ===== verification/EventRaw.v ===== *)
(** * Raw events (iv_event_raw_posix.c)

    A raw event is a descriptor that becomes readable when it is posted: an
    eventfd, or a pipe where the kernel has none.  iv_event.c wakes threads with
    it when the poll method cannot. *)

From S2P Require Import Prelude Sys.

Local Open Scope Z_scope.

(** [event_rfd.fd] and [event_wfd] of a registered [struct iv_event_raw]. *)
Record iv_event_raw := mk_raw { event_rfd : Z; event_wfd : Z }.

(** The calls into the kernel, and [iv_fd_register] and [iv_fd_unregister] of
    [event_rfd]. *)
Class RawKernel (W : Type) := {
  rk_eventfd2 : W -> sysres Z * W;
  rk_eventfd : W -> sysres Z * W;
  rk_pipe : W -> sysres (Z * Z) * W;
  rk_read : Z -> Z -> W -> sysres Z * W;
  rk_write : Z -> Z -> W -> sysres Z * W;
  rk_close : Z -> W -> W;
  rk_set_cloexec : Z -> W -> W;
  rk_set_nonblock : Z -> W -> W;
  rk_fd_register : Z -> W -> W;
  rk_fd_unregister : Z -> W -> W;
  rk_signals : W -> nat }.

(** The registered objects, the static [eventfd_in_use] of the eventfd-linux.h that
    iv_event_raw_posix.c includes, and the handlers called. *)
Record raw_state (W : Type) := mk_rs {
  ra_objs : gmap loc iv_event_raw; ra_in_use : Z; ra_ran : list loc; ra_w : W }.
Arguments mk_rs {_}.
Arguments ra_objs {_} _.
Arguments ra_in_use {_} _.
Arguments ra_ran {_} _.
Arguments ra_w {_} _.

Section raw.
Context {W : Type} `{!RawKernel W}.
Abbreviation St := (raw_state W).

Definition set_ra_objs (v : gmap loc iv_event_raw) (s : St) : St := mk_rs v (ra_in_use s) (ra_ran s) (ra_w s).
Definition set_ra_in_use (v : Z) (s : St) : St := mk_rs (ra_objs s) v (ra_ran s) (ra_w s).
Definition set_ra_ran (v : list loc) (s : St) : St := mk_rs (ra_objs s) (ra_in_use s) v (ra_w s).
Definition set_ra_w (v : W) (s : St) : St := mk_rs (ra_objs s) (ra_in_use s) (ra_ran s) v.

Definition kernel {A} (call : W -> A * W) : M St A := fun s => let '(a, w) := call (ra_w s) in Ok (a, set_ra_w w s).
Definition kernel_ (call : W -> W) : M St unit := modify (fun s => set_ra_w (call (ra_w s)) s).
Definition load_raw (this : loc) : M St iv_event_raw := m ← gets ra_objs; deref (m !! this).
(** [do ret = call(); while (ret < 0 && errno == EINTR);] *)
Definition retried {A} (call : W -> sysres A * W) : M St (sysres A) :=
  fuel ← gets (fun s => Datatypes.S (rk_signals (ra_w s)));
  retry fuel (kernel call).

(** [eventfd_grab] (eventfd-linux.h). *)
Definition eventfd_grab : M St (sysres Z) :=
  use ← gets ra_in_use;
  first ← (if use =? 2 then
      ret ← kernel rk_eventfd2;
      match ret with
      | inl fd => mret (Some (inl fd))
      | inr EINVAL | inr ENOSYS => modify (set_ra_in_use 1);; mret None
      | inr e => mret (Some (inr e))
      end
    else mret None);
  match first with
  | Some ret => mret ret
  | None =>
      use ← gets ra_in_use;
      second ← (if negb (use =? 0) then
          ret ← kernel rk_eventfd;
          match ret with
          | inl fd => mret (Some (inl fd))
          | inr ENOSYS => mret None
          | inr e => mret (Some (inr e))
          end
        else mret None);
      match second with
      | Some ret => mret ret
      | None => modify (set_ra_in_use 0);; mret (inr ENOSYS)
      end
  end.

Definition iv_event_raw_got_event (this : loc) : M St unit :=
  use ← gets ra_in_use;
  let toread := if use =? 0 then 1024 else 8 in
  o ← load_raw this;
  ret ← retried (rk_read (event_rfd o) toread);
  match ret with
  | inl n => if n <=? 0 then iv_fatal "iv_event_raw: reading from event fd returned zero"
             else modify (fun s => set_ra_ran (ra_ran s ++ [this]) s)
  | inr EAGAIN => mret tt
  | inr _ => iv_fatal "iv_event_raw: reading from event fd returned error"
  end.

Definition iv_event_raw_register (this : loc) : M St Z :=
  use ← gets ra_in_use;
  (* the descriptors, or a failure other than ENOSYS *)
  efd ← (if negb (use =? 0) then
      ret ← eventfd_grab;
      match ret with
      | inl fd => mret (Some (Some (fd, fd)))
      | inr ENOSYS => mret (Some None)
      | inr _ => mret None
      end
    else mret (Some None));
  match efd with
  | None => mret (-1)
  | Some fd =>
      use ← gets ra_in_use;
      fd ← (if use =? 0 then
          ret ← kernel rk_pipe;
          match ret with inl p => mret (Some p) | inr _ => mret None end
        else mret fd);
      match fd with
      | None => mret (-1)
      | Some (r, w) =>
          kernel_ (rk_fd_register r);;
          modify (fun s => set_ra_objs (<[this := mk_raw r w]> (ra_objs s)) s);;
          use ← gets ra_in_use;
          when (use =? 0) (kernel_ (rk_set_cloexec w);; kernel_ (rk_set_nonblock w));;
          mret 0
      end
  end.

Definition iv_event_raw_unregister (this : loc) : M St unit :=
  o ← load_raw this;
  kernel_ (rk_fd_unregister (event_rfd o));;
  kernel_ (rk_close (event_rfd o));;
  use ← gets ra_in_use;
  when (use =? 0) (kernel_ (rk_close (event_wfd o)));;
  modify (fun s => set_ra_objs (delete this (ra_objs s)) s).

Definition iv_event_raw_post (this : loc) : M St unit :=
  o ← load_raw this;
  use ← gets ra_in_use;
  retried (rk_write (event_wfd o) (if use =? 0 then 1 else 8));;
  mret tt.
End raw.

(** ** What the kernel promises

    The descriptors that are open, non-blocking, close-on-exec and watched by the
    event loop; what can be read from each; and where writing to one goes (an
    eventfd is its own other end). *)
Record rview := mk_rv {
  rv_open : gset Z; rv_nonblock : gset Z; rv_cloexec : gset Z; rv_watched : gset Z;
  rv_data : gmap Z Z; rv_end : gmap Z Z }.
Definition data_of (n : Z) (v : rview) : Z := default 0 (rv_data v !! n).
Definition set_data (n d : Z) (v : rview) : rview :=
  mk_rv (rv_open v) (rv_nonblock v) (rv_cloexec v) (rv_watched v) (<[n := d]> (rv_data v)) (rv_end v).
Definition opened (flags : bool) (r w : Z) (v : rview) : rview :=
  mk_rv ({[r; w]} ∪ rv_open v) (if flags then {[r; w]} ∪ rv_nonblock v else rv_nonblock v ∖ {[r; w]})
    (if flags then {[r; w]} ∪ rv_cloexec v else rv_cloexec v ∖ {[r; w]}) (rv_watched v) (<[r := 0]> (rv_data v)) (<[w := r]> (rv_end v)).
Definition with_nonblock (n : Z) (v : rview) : rview :=
  mk_rv (rv_open v) ({[n]} ∪ rv_nonblock v) (rv_cloexec v) (rv_watched v) (rv_data v) (rv_end v).
Definition with_cloexec (n : Z) (v : rview) : rview :=
  mk_rv (rv_open v) (rv_nonblock v) ({[n]} ∪ rv_cloexec v) (rv_watched v) (rv_data v) (rv_end v).
Definition watched (n : Z) (v : rview) : rview :=
  mk_rv (rv_open v) ({[n]} ∪ rv_nonblock v) ({[n]} ∪ rv_cloexec v) ({[n]} ∪ rv_watched v) (rv_data v) (rv_end v).
Definition unwatched (n : Z) (v : rview) : rview :=
  mk_rv (rv_open v) (rv_nonblock v) (rv_cloexec v) (rv_watched v ∖ {[n]}) (rv_data v) (rv_end v).
Definition closed (n : Z) (v : rview) : rview :=
  mk_rv (rv_open v ∖ {[n]}) (rv_nonblock v) (rv_cloexec v) (rv_watched v) (rv_data v) (rv_end v).

(** eventfd(2) exists or not; when it does it may still fail.  Reading a non-blocking
    descriptor whose other end is open takes something or there is nothing; writing to
    a non-blocking one adds something or there is something already. *)
Class RawLaws (W : Type) `{!RawKernel W} := {
  rw : W -> rview;
  has_eventfd2 : bool;
  has_eventfd : bool;
  law_eventfd2 : forall w r w', rk_eventfd2 w = (r, w') ->
    match r with
    | inl n => has_eventfd2 = true /\ n ∉ rv_open (rw w) /\ rw w' = opened true n n (rw w)
    | inr e => rw w' = rw w /\ ((e = ENOSYS \/ e = EINVAL) <-> has_eventfd2 = false)
    end;
  law_eventfd : forall w r w', rk_eventfd w = (r, w') ->
    match r with
    | inl n => has_eventfd = true /\ n ∉ rv_open (rw w) /\ rw w' = opened false n n (rw w)
    | inr e => rw w' = rw w /\ (e = ENOSYS <-> has_eventfd = false)
    end;
  law_pipe : forall w r w', rk_pipe w = (r, w') ->
    match r with
    | inl (a, b) => a <> b /\ a ∉ rv_open (rw w) /\ b ∉ rv_open (rw w) /\ rw w' = opened false a b (rw w)
    | inr e => rw w' = rw w
    end;
  law_read : forall n len w r w', n ∈ rv_open (rw w) -> n ∈ rv_nonblock (rw w) ->
    (exists m, m ∈ rv_open (rw w) /\ rv_end (rw w) !! m = Some n) -> 8 <= len -> rk_read n len w = (r, w') ->
    match r with
    | inl k => 0 < k /\ 0 < data_of n (rw w) /\ exists d, 0 <= d < data_of n (rw w) /\ rw w' = set_data n d (rw w)
    | inr e => rw w' = rw w /\ ((e = EAGAIN /\ data_of n (rw w) <= 0) \/ (e = EINTR /\ (rk_signals w' < rk_signals w)%nat))
    end;
  law_write : forall m n len w r w', m ∈ rv_open (rw w) -> m ∈ rv_nonblock (rw w) -> rv_end (rw w) !! m = Some n ->
    n ∈ rv_open (rw w) -> 0 < len -> rk_write m len w = (r, w') ->
    match r with
    | inl k => exists d, data_of n (rw w) < d /\ 0 < d /\ rw w' = set_data n d (rw w)
    | inr e => rw w' = rw w /\ ((e = EAGAIN /\ 0 < data_of n (rw w)) \/ (e = EINTR /\ (rk_signals w' < rk_signals w)%nat))
    end;
  law_close : forall n w, rw (rk_close n w) = closed n (rw w);
  law_set_cloexec : forall n w, rw (rk_set_cloexec n w) = with_cloexec n (rw w);
  law_set_nonblock : forall n w, rw (rk_set_nonblock n w) = with_nonblock n (rw w);
  law_fd_register : forall n w, rw (rk_fd_register n w) = watched n (rw w);
  law_fd_unregister : forall n w, rw (rk_fd_unregister n w) = unwatched n (rw w) }.
