(* ===== verification/EventRawSpec.v ===== *)
(** * Raw events arrive

    The invariant of the registered raw events, the specifications of the four
    operations, and raw events as the wakeups of iv_event.c. *)

From S2P Require Import Prelude Sys Conc Event EventSpec EventProps EventRaw.

Local Open Scope Z_scope.

Section spec.
Context {W : Type} `{!RawKernel W, HL : !RawLaws W}.
Abbreviation St := (raw_state W).
Implicit Types (s : St) (o this : loc) (x : iv_event_raw).

Definition view s : rview := rw (ra_w s).
Definition none (e : string) : Prop := False.

(** What [eventfd_in_use] settles on. *)
Definition settled : Z := if has_eventfd2 then 2 else if has_eventfd then 1 else 0.

Record obj_ok (v : rview) x : Prop := {
  oo_open : event_rfd x ∈ rv_open v /\ event_wfd x ∈ rv_open v;
  oo_flags : event_rfd x ∈ rv_nonblock v /\ event_wfd x ∈ rv_nonblock v /\
    event_rfd x ∈ rv_cloexec v /\ event_wfd x ∈ rv_cloexec v;
  oo_watched : event_rfd x ∈ rv_watched v;
  oo_end : rv_end v !! event_wfd x = Some (event_rfd x);
  oo_kind : event_rfd x = event_wfd x <-> settled <> 0 }.
Definition apart x y : Prop :=
  event_rfd x <> event_rfd y /\ event_wfd x <> event_wfd y /\ event_rfd x <> event_wfd y /\ event_wfd x <> event_rfd y.
Record raw_ok s : Prop := {
  ro_use : ra_in_use s = settled \/ (ra_objs s = ∅ /\ settled < ra_in_use s <= 2);
  ro_objs : forall o x, ra_objs s !! o = Some x -> obj_ok (view s) x;
  ro_apart : forall o o' x y, ra_objs s !! o = Some x -> ra_objs s !! o' = Some y -> o <> o' -> apart x y }.

Lemma settled_in_use s o x : raw_ok s -> ra_objs s !! o = Some x -> ra_in_use s = settled.
Proof. intros [[?|[E _]] _ _] Hx; [done|]. by rewrite E, lookup_empty in Hx. Qed.

(** A view that keeps what the objects need. *)
Lemma obj_ok_view v v' x : obj_ok v x -> rv_open v' = rv_open v -> rv_nonblock v' = rv_nonblock v ->
  rv_cloexec v' = rv_cloexec v -> rv_watched v' = rv_watched v -> rv_end v' = rv_end v -> obj_ok v' x.
Proof. intros [A B C D E] E1 E2 E3 E4 E5. split; by rewrite ?E1, ?E2, ?E3, ?E4, ?E5. Qed.
Lemma raw_ok_data s n d w' : raw_ok s -> rw w' = set_data n d (view s) -> raw_ok (set_ra_w w' s).
Proof.
  intros [A B C] E. split; try done. intros o x Hx. unfold view. cbn. rewrite E. by eapply obj_ok_view; [by apply (B o)|..].
Qed.
Lemma raw_ok_same s w' : raw_ok s -> rw w' = view s -> raw_ok (set_ra_w w' s).
Proof. intros [A B C] E. split; try done. intros o x Hx. unfold view. cbn. rewrite E. by apply (B o). Qed.
Lemma data_set n d m v : data_of m (set_data n d v) = if decide (m = n) then d else data_of m v.
Proof. unfold data_of, set_data. cbn. rewrite lookup_insert. repeat case_decide; first [done|congruence]. Qed.

Lemma raw_kernel_Ok {A} (call : W -> A * W) s a w : call (ra_w s) = (a, w) -> kernel call s = Ok (a, set_ra_w w s).
Proof. intros E. unfold kernel. by rewrite E. Qed.
Lemma load_raw_Ok s o x : ra_objs s !! o = Some x -> load_raw o s = Ok (x, s).
Proof. intros E. unfold load_raw. msimpl. by rewrite E. Qed.

(** The retry loop, of a call that only ever fails with [EINTR] for a while. *)
Lemma retried_spec {A} F (call : W -> sysres A * W) s (Q : sysres A -> St -> Prop) :
  (forall w r w', rw w = view s -> call w = (r, w') ->
     match r with inr EINTR => rw w' = view s /\ (rk_signals w' < rk_signals w)%nat | _ => Q r (set_ra_w w' s) end) ->
  wp F (retried call) s Q.
Proof.
  intros Hc. unfold retried. wprim.
  apply (retry_spec F (fun s1 => exists w, s1 = set_ra_w w s /\ rw w = view s) (fun s1 => rk_signals (ra_w s1))).
  - intros s1 (w&->&Ev). destruct (call w) as [r w'] eqn:E. eapply wp_Ok; [by apply (raw_kernel_Ok call (set_ra_w w s))|].
    specialize (Hc w r w' Ev E). destruct r as [a|[]]; try exact Hc. destruct Hc as [E' ?]. split; [by exists w'|done].
  - exists (ra_w s). split; [by destruct s|done].
  - lia.
Qed.

(** ** Posting and receiving *)
Lemma post_spec s this x : raw_ok s -> ra_objs s !! this = Some x ->
  wp none (iv_event_raw_post this) s (fun _ s' => raw_ok s' /\ exists w', s' = set_ra_w w' s /\
    0 < data_of (event_rfd x) (rw w') /\
    forall n, n <> event_rfd x -> data_of n (rw w') = data_of n (view s)).
Proof.
  intros Hok Hx. unfold iv_event_raw_post. wrun (load_raw_Ok s this x Hx). wprim. pose proof (ro_objs _ Hok _ _ Hx) as [[O1 O2] [N1 [N2 _]] _ He _].
  wbind. apply (wp_mono _ _ _ (fun _ s' => raw_ok s' /\ exists w', s' = set_ra_w w' s /\ 0 < data_of (event_rfd x) (rw w') /\
    forall n, n <> event_rfd x -> data_of n (rw w') = data_of n (view s))); [|intros r s' H; by eapply wp_Ok; [reflexivity|]].
  apply retried_spec. intros w r w' Ev E. rewrite <-Ev in *.
  assert (0 < (if ra_in_use s =? 0 then 1 else 8)) as Hlen by (destruct (_ =? _); lia).
  pose proof (law_write _ (event_rfd x) _ _ _ _ O2 N2 He O1 Hlen E) as Hl. destruct r as [k|e].
  - destruct Hl as (d&Hd&Hd0&Ew). split; [eapply raw_ok_data; [done|by rewrite Ew, Ev]|]. exists w'. split; [done|].
    rewrite Ew. split; [by rewrite data_set, decide_True|]. intros n Hn. by rewrite data_set, decide_False.
  - destruct Hl as (Ew&[[-> Hd]|[-> Hs]]).
    + split; [eapply raw_ok_same; [done|by rewrite Ew, Ev]|]. exists w'. split; [done|]. by rewrite Ew.
    + by rewrite Ew.
Qed.

Lemma got_event_spec s this x : raw_ok s -> ra_objs s !! this = Some x ->
  wp none (iv_event_raw_got_event this) s (fun _ s' => raw_ok s' /\ exists w', 
    s' = set_ra_ran (if decide (0 < data_of (event_rfd x) (view s)) then ra_ran s ++ [this] else ra_ran s) (set_ra_w w' s) /\
    (forall n, n <> event_rfd x -> data_of n (rw w') = data_of n (view s)) /\
    data_of (event_rfd x) (rw w') <= Z.max 0 (data_of (event_rfd x) (view s) - 1)).
Proof.
  intros Hok Hx. unfold iv_event_raw_got_event. wprim. wrun (load_raw_Ok s this x Hx). pose proof (ro_objs _ Hok _ _ Hx) as [[O1 O2] [N1 _] _ He _].
  wbind. apply (wp_mono _ _ _ (fun r s' => raw_ok s' /\ exists w', s' = set_ra_w w' s /\
    (forall n, n <> event_rfd x -> data_of n (rw w') = data_of n (view s)) /\
    data_of (event_rfd x) (rw w') <= Z.max 0 (data_of (event_rfd x) (view s) - 1) /\
    match r with inl k => 0 < k /\ 0 < data_of (event_rfd x) (view s) | inr e => e = EAGAIN /\ data_of (event_rfd x) (view s) <= 0 end)).
  - apply retried_spec. intros w r w' Ev E. rewrite <-Ev in *.
    assert (exists m, m ∈ rv_open (rw w) /\ rv_end (rw w) !! m = Some (event_rfd x)) as Hend by (by exists (event_wfd x)).
    assert (8 <= (if ra_in_use s =? 0 then 1024 else 8)) as Hlen by (destruct (_ =? _); lia).
    pose proof (law_read _ _ _ _ _ O1 N1 Hend Hlen E) as Hl. destruct r as [k|e].
    + destruct Hl as (Hk&Hd0&d&Hd&Ew). split; [eapply raw_ok_data; [done|by rewrite Ew, Ev]|]. exists w'. split; [done|]. rewrite Ew.
      split; [intros n Hn; by rewrite data_set, decide_False|]. rewrite data_set, decide_True by done. split; [lia|done].
    + destruct Hl as (Ew&[[-> Hd]|[-> Hs]]).
      * split; [eapply raw_ok_same; [done|by rewrite Ew, Ev]|]. exists w'. rewrite Ew. split_and!; try done. lia.
      * by rewrite Ew.
  - intros r s' (Hok'&w'&->&Hn&Hd&Hr). destruct r as [k|e].
    + destruct Hr as [Hk Hp]. destruct (Z.leb_spec k 0); [lia|]. eapply wp_Ok; [reflexivity|]. rewrite decide_True by done.
      split; [by destruct Hok'; split|]. by exists w'.
    + destruct Hr as [-> Hp]. eapply wp_Ok; [reflexivity|]. rewrite decide_False by lia. split; [done|]. exists w'.
      split_and!; [by destruct s|done|done].
Qed.

(** ** Registering and unregistering *)
Lemma grab_spec s : settled <= ra_in_use s <= 2 -> ra_in_use s <> 0 ->
  wp none eventfd_grab s (fun r s' => exists u w', s' = set_ra_in_use u (set_ra_w w' s) /\ settled <= u <= ra_in_use s /\
    match r with
    | inl n => u = settled /\ settled <> 0 /\ n ∉ rv_open (view s) /\ exists flags, rw w' = opened flags n n (view s)
    | inr ENOSYS => u = 0 /\ rw w' = view s
    | inr _ => u <> 0 /\ rw w' = view s
    end).
Proof.
  intros Hu Hn. unfold eventfd_grab. wprim. wbind.
  apply (wp_mono _ _ _ (fun first s1 => exists u w', s1 = set_ra_in_use u (set_ra_w w' s) /\ settled <= u <= ra_in_use s /\ u <> 0 /\
    match first with
    | Some (inl n) => u = settled /\ n ∉ rv_open (view s) /\ exists flags, rw w' = opened flags n n (view s)
    | Some (inr e) => e <> ENOSYS /\ rw w' = view s
    | None => u = 1 /\ has_eventfd2 = false /\ rw w' = view s
    end)).
  - destruct (Z.eqb_spec (ra_in_use s) 2) as [E2|E2].
    + destruct (rk_eventfd2 (ra_w s)) as [r w1] eqn:E. pose proof (law_eventfd2 _ _ _ E) as Hl.
      wrun (raw_kernel_Ok _ _ _ _ E). assert (set_ra_w w1 s = set_ra_in_use (ra_in_use s) (set_ra_w w1 s)) as Es by (by destruct s).
      destruct r as [n|e].
      * destruct Hl as (H2&Ho&Ew). eapply wp_Ok; [reflexivity|]. exists (ra_in_use s), w1. unfold settled in *. rewrite H2 in *.
        split_and!; try done; [lia|]. by exists true.
      * destruct Hl as (Ew&He). assert (e = ENOSYS \/ e = EINVAL \/ (e <> ENOSYS /\ e <> EINVAL)) as He'
          by (destruct e; auto).
        destruct He' as [-> |[-> |[Hne1 Hne2]]].
        1,2: wprim; (eapply wp_Ok; [reflexivity|]); exists 1, w1; assert (has_eventfd2 = false) as H2 by (apply He; auto);
          unfold settled in *; rewrite H2 in *; (split_and!; try done; destruct has_eventfd; lia).
        assert (settled <= ra_in_use s) by lia.
        destruct e; try done; (eapply wp_Ok; [reflexivity|]); exists (ra_in_use s), w1; split_and!; try done; lia.
    + eapply wp_Ok; [reflexivity|]. exists (ra_in_use s), (ra_w s). unfold settled in *.
      destruct has_eventfd2; [lia|]. split_and!; try done; [by destruct s|lia|destruct has_eventfd; lia].
  - intros [[n|e]|] s1 (u&w1&->&Hu1&Hn1&Hf).
    + eapply wp_Ok; [reflexivity|]. exists u, w1. destruct Hf as (->&?&?). split_and!; try done; lia.
    + eapply wp_Ok; [reflexivity|]. exists u, w1. destruct Hf as (He&?). split_and!; try done; try lia. destruct e; done.
    + destruct Hf as (->&H2&Ev). wprim. cbn [ra_in_use set_ra_in_use Z.eqb negb]. wbind.
      destruct (rk_eventfd w1) as [r w2] eqn:E. pose proof (law_eventfd _ _ _ E) as Hl. rewrite Ev in Hl.
      wrun (raw_kernel_Ok rk_eventfd (set_ra_in_use 1 (set_ra_w w1 s)) _ _ E). unfold settled in *. rewrite H2 in *. destruct r as [n|e].
      * destruct Hl as (H1&Ho&Ew). eapply wp_Ok; [reflexivity|]. eapply wp_Ok; [reflexivity|]. exists 1, w2. rewrite H1 in *.
        split_and!; try done; try lia. by exists false.
      * destruct Hl as (Ew&He). destruct (decide (e = ENOSYS)) as [->|Hne].
        -- assert (has_eventfd = false) as H1 by by apply He. rewrite H1 in *. wprim.
           eapply wp_Ok; [reflexivity|]. exists 0, w2. split_and!; try done; lia.
        -- destruct has_eventfd; [|by destruct Hne; apply He].
           destruct e; try done; (eapply wp_Ok; [reflexivity|]); (eapply wp_Ok; [reflexivity|]); exists 1, w2; split_and!; try done; lia.
Qed.

(** New descriptors in place, the object's record set. *)
Lemma install_spec s this r w flags s1 : raw_ok s -> ra_in_use s1 = settled -> ra_objs s1 = ra_objs s -> ra_ran s1 = ra_ran s ->
  r ∉ rv_open (view s) -> w ∉ rv_open (view s) -> (r = w <-> settled <> 0) -> view s1 = opened flags r w (view s) ->
  wp none (kernel_ (rk_fd_register r);; modify (fun s => set_ra_objs (<[this := mk_raw r w]> (ra_objs s)) s);;
    use ← gets ra_in_use; when (use =? 0) (kernel_ (rk_set_cloexec w);; kernel_ (rk_set_nonblock w));; mret 0) s1
  (fun ret s' => ret = 0 /\ raw_ok s' /\ ra_ran s' = ra_ran s /\ ra_objs s' = <[this := mk_raw r w]> (ra_objs s) /\
    rv_open (view s') = {[r; w]} ∪ rv_open (view s) /\ rv_watched (view s') = {[r]} ∪ rv_watched (view s) /\
    data_of r (view s') = 0 /\ forall n, n <> r -> data_of n (view s') = data_of n (view s)).
Proof.
  intros [A B C] Eu Eo Er Hr Hw Hk Ev. do 2 wprim. set (s2 := set_ra_objs _ _). wprim. change (ra_in_use s2) with (ra_in_use s1). rewrite Eu.
  set (v2 := watched r (opened flags r w (view s))).
  assert (view s2 = v2) as Ev2 by (unfold view, s2; cbn; rewrite law_fd_register; fold (view s1); by rewrite Ev).
  wbind. apply (wp_mono _ _ _ (fun _ s3 => exists w3, s3 = set_ra_w w3 s2 /\
    rw w3 = if settled =? 0 then with_nonblock w (with_cloexec w v2) else v2)).
  { destruct (settled =? 0); cbn [when].
    - wprim. eapply wp_Ok; [reflexivity|]. eexists. split; [reflexivity|]. rewrite law_set_nonblock.
      cbn [ra_w set_ra_w]. rewrite law_set_cloexec. change (rw (ra_w s2)) with (view s2). by rewrite Ev2.
    - eapply wp_Ok; [reflexivity|]. exists (ra_w s2). by split. }
  intros _ s3 (w3&->&Ew3). eapply wp_Ok; [reflexivity|]. set (s3 := set_ra_w w3 s2). split; [done|].
  assert (rv_open (view s3) = {[r; w]} ∪ rv_open (view s) /\ rv_watched (view s3) = {[r]} ∪ rv_watched (view s) /\
    rv_data (view s3) = <[r := 0]> (rv_data (view s)) /\ rv_end (view s3) = <[w := r]> (rv_end (view s))) as (V1&V2&V3&V4).
  { change (view s3) with (rw w3). rewrite Ew3. by destruct (settled =? 0). }
  assert (forall n, n <> r -> n <> w -> (n ∈ rv_nonblock (view s) -> n ∈ rv_nonblock (view s3)) /\
    (n ∈ rv_cloexec (view s) -> n ∈ rv_cloexec (view s3))) as V5.
  { intros n Hnr Hnw. change (view s3) with (rw w3). rewrite Ew3. destruct (settled =? 0), flags; cbn; set_solver +Hnr Hnw. }
  split_and!; try done; [|by change (<[this := mk_raw r w]> (ra_objs s1) = <[this := mk_raw r w]> (ra_objs s)); rewrite Eo| |].
  - split; [by left| |].
    + intros o x. change (ra_objs s3) with (<[this := mk_raw r w]> (ra_objs s1)). rewrite Eo, lookup_insert. case_decide as Ht.
      * intros [= <-]. split; cbn.
        -- rewrite V1. set_solver +.
        -- change (view s3) with (rw w3). rewrite Ew3. destruct (Z.eqb_spec settled 0) as [E0|E0].
           ++ cbn. set_solver +.
           ++ assert (r = w) as -> by tauto. cbn. set_solver +.
        -- rewrite V2. set_solver +.
        -- rewrite V4. apply lookup_insert_eq.
        -- done.
      * intros Hx. destruct (B o x Hx) as [[X1 X2] (X3&X4&X5&X6) X7 X8 X9].
        assert (event_rfd x <> r /\ event_wfd x <> r /\ event_rfd x <> w /\ event_wfd x <> w) as (N1&N2&N3&N4) by (split_and!; intros E; congruence).
        split.
        -- rewrite V1. set_solver +X1 X2.
        -- destruct (V5 _ N1 N3), (V5 _ N2 N4). split_and!; auto.
        -- rewrite V2. set_solver +X7.
        -- rewrite V4, lookup_insert_ne by done. done.
        -- done.
    + assert (forall o x, ra_objs s !! o = Some x -> apart (mk_raw r w) x /\ apart x (mk_raw r w)) as Hap.
      { intros o x Hx. destruct (B o x Hx) as [[X1 X2] _ _ _ _]. unfold apart. cbn. split_and!; intros E; congruence. }
      intros o o' x y. change (ra_objs s3) with (<[this := mk_raw r w]> (ra_objs s1)). rewrite Eo, !lookup_insert.
      repeat case_decide; try congruence.
      * intros [= <-] Hy _. by apply (Hap o').
      * intros Hx [= <-] _. by apply (Hap o).
      * eauto.
  - unfold data_of. rewrite V3, lookup_insert_eq. done.
  - intros n Hn. unfold data_of. rewrite V3, lookup_insert_ne by done. done.
Qed.

Lemma raw_register_spec s this : raw_ok s ->
  wp none (iv_event_raw_register this) s (fun ret s' => raw_ok s' /\ ra_ran s' = ra_ran s /\
    ((ret = 0 /\ exists x, ra_objs s' = <[this := x]> (ra_objs s) /\
        event_rfd x ∉ rv_open (view s) /\ event_wfd x ∉ rv_open (view s) /\
        rv_open (view s') = {[event_rfd x; event_wfd x]} ∪ rv_open (view s) /\
        rv_watched (view s') = {[event_rfd x]} ∪ rv_watched (view s) /\
        data_of (event_rfd x) (view s') = 0 /\ forall n, n <> event_rfd x -> data_of n (view s') = data_of n (view s)) \/
     (ret = -1 /\ ra_objs s' = ra_objs s /\ view s' = view s))).
Proof.
  intros Hok. pose proof Hok as [A B C]. unfold iv_event_raw_register. wprim. wbind.
  assert (settled <= ra_in_use s <= 2) as Hu. { unfold settled in *. destruct A as [A|[_ A]]; [|lia]. rewrite A. destruct has_eventfd2, has_eventfd; lia. }
  assert (forall u, settled <= u <= ra_in_use s -> u = settled \/ (ra_objs s = ∅ /\ settled < u <= 2)) as Hset.
  { intros u Hsu. destruct A as [A|[? A]]; [left; lia|]. destruct (decide (u = settled)); [by left|right; split; [done|lia]]. }
  apply (wp_mono _ _ _ (fun efd s1 => exists u w', s1 = set_ra_in_use u (set_ra_w w' s) /\ settled <= u <= ra_in_use s /\
    match efd with
    | Some (Some (r, w)) => u = settled /\ settled <> 0 /\ r = w /\ r ∉ rv_open (view s) /\ exists flags, rw w' = opened flags r w (view s)
    | Some None => u = 0 /\ rw w' = view s
    | None => rw w' = view s
    end)).
  { destruct (Z.eqb_spec (ra_in_use s) 0) as [E0|E0]; cbn [negb].
    - eapply wp_Ok; [reflexivity|]. exists (ra_in_use s), (ra_w s). split_and!; try done; try lia; by destruct s.
    - wbind. eapply wp_mono; [by apply grab_spec|]. cbv beta. intros [n|e] s1 (u&w'&->&Hu1&Hr).
      + eapply wp_Ok; [reflexivity|]. exists u, w'. destruct Hr as (->&?&?&?). split_and!; try done; lia.
      + destruct e; (eapply wp_Ok; [reflexivity|]); exists u, w'; destruct Hr as (?&?); split_and!; try done; lia. }
  intros efd s1 (u&w'&->&Hu1&Hr).
  assert (forall w1, rw w1 = view s -> raw_ok (set_ra_in_use u (set_ra_w w1 s))) as Hsame.
  { intros w1 Ew1. split; [by apply Hset| |done]. intros o x Hx. change (view _) with (rw w1). rewrite Ew1. by apply (B o). }
  destruct efd as [fd|]; [|eapply wp_Ok; [reflexivity|]; split_and!; [by apply Hsame|done|right; done]].
  wprim. wbind. change (ra_in_use (set_ra_in_use u (set_ra_w w' s))) with u.
  apply (wp_mono _ _ _ (fun fd s1 => exists w1, s1 = set_ra_in_use u (set_ra_w w1 s) /\
    match fd with
    | Some (r, w) => u = settled /\ (r = w <-> settled <> 0) /\ r ∉ rv_open (view s) /\ w ∉ rv_open (view s) /\
        exists flags, rw w1 = opened flags r w (view s)
    | None => rw w1 = view s
    end)).
  { destruct fd as [[r w]|].
    - destruct Hr as (->&Hn0&->&Ho&Hfl). destruct (Z.eqb_spec settled 0); [done|]. eapply wp_Ok; [reflexivity|]. exists w'. split_and!; done.
    - destruct Hr as (->&Ew). cbn [Z.eqb]. assert (settled = 0) as Hs0. { unfold settled in *. destruct has_eventfd2, has_eventfd; lia. }
      destruct (rk_pipe w') as [r w1] eqn:E. wrun (raw_kernel_Ok rk_pipe (set_ra_in_use 0 (set_ra_w w' s)) _ _ E).
      pose proof (law_pipe _ _ _ E) as Hl. rewrite Ew in Hl. destruct r as [[a b]|e]; (eapply wp_Ok; [reflexivity|]); exists w1; (split; [done|]).
      + destruct Hl as (Hab&?&?&?). split; [by rewrite Hs0|]. split; [by rewrite Hs0|]. split_and!; try done. by exists false.
      + done. }
  intros [[r w]|] s2 (w1&->&Hfd); [|eapply wp_Ok; [reflexivity|]; split_and!; [by apply Hsame|done|right; done]].
  destruct Hfd as (->&Hk&Hr1&Hw1&flags&Ew1).
  eapply wp_mono; [by apply (install_spec s this r w flags)|]. cbv beta. intros ret s3 (->&Hok3&Hran&Hobj&?&?&?&?).
  split_and!; [done|done|left]. split; [done|]. by exists (mk_raw r w).
Qed.

Lemma raw_unregister_spec s this x : raw_ok s -> ra_objs s !! this = Some x ->
  wp none (iv_event_raw_unregister this) s (fun _ s' => raw_ok s' /\ ra_ran s' = ra_ran s /\ ra_objs s' = delete this (ra_objs s) /\
    rv_open (view s') = rv_open (view s) ∖ {[event_rfd x; event_wfd x]} /\
    rv_watched (view s') = rv_watched (view s) ∖ {[event_rfd x]} /\ forall n, data_of n (view s') = data_of n (view s)).
Proof.
  intros Hok Hx. pose proof (ro_objs _ Hok _ _ Hx) as [_ _ _ _ Hkind]. pose proof (settled_in_use _ _ _ Hok Hx) as Hu.
  unfold iv_event_raw_unregister. wrun (load_raw_Ok s this x Hx). do 3 wprim. cbn [ra_in_use set_ra_w]. rewrite Hu.
  set (v1 := closed (event_rfd x) (unwatched (event_rfd x) (view s))).
  wbind. apply (wp_mono _ _ _ (fun _ s1 => exists w1, s1 = set_ra_w w1 s /\ rw w1 = if settled =? 0 then closed (event_wfd x) v1 else v1)).
  { destruct (settled =? 0); cbn [when]; (eapply wp_Ok; [reflexivity|]); (eexists; split; [reflexivity|]);
      cbn [ra_w set_ra_w]; by rewrite ?law_close, ?law_fd_unregister. }
  intros _ s1 (w1&->&Ew1). eapply wp_Ok; [reflexivity|]. set (s' := set_ra_objs _ _).
  assert (rv_open (rw w1) = rv_open (view s) ∖ {[event_rfd x; event_wfd x]} /\ rv_watched (rw w1) = rv_watched (view s) ∖ {[event_rfd x]} /\
    rv_data (rw w1) = rv_data (view s) /\ rv_nonblock (rw w1) = rv_nonblock (view s) /\ rv_cloexec (rw w1) = rv_cloexec (view s) /\
    rv_end (rw w1) = rv_end (view s)) as (V1&V2&V3&V4&V5&V6).
  { rewrite Ew1. destruct (Z.eqb_spec settled 0); (split_and!; [|by done..]); cbn; [set_solver +|].
    assert (event_wfd x = event_rfd x) as -> by (symmetry; tauto). set_solver +. }
  split_and!; try done; [|intros n; unfold data_of; change (view s') with (rw w1); by rewrite V3].
  destruct Hok as [A B C]. split.
  - left. exact Hu.
  - intros o y Hy. cbn in Hy. apply lookup_delete_Some in Hy as [Hne Hy]. destruct (C this o x y Hx Hy Hne) as (?&?&?&?).
    destruct (B o y Hy) as [[X1 X2] X3 X4 X5 X6]. split; change (view s') with (rw w1); rewrite ?V1, ?V2, ?V4, ?V5, ?V6; try done; set_solver.
  - intros o o' y z Hy Hz. cbn in Hy, Hz. apply lookup_delete_Some in Hy as [_ Hy]. apply lookup_delete_Some in Hz as [_ Hz]. eauto.
Qed.

(** ** What raw events promise *)

(** [n] posts, then the event loop's call. *)
Fixpoint posts_then_event (this : loc) (n : nat) : M St unit :=
  match n with
  | O => iv_event_raw_got_event this
  | Datatypes.S n => iv_event_raw_post this;; posts_then_event this n
  end.

(** A post is never lost: after [iv_event_raw_post] the event loop finds the
    descriptor readable until the handler was called, whatever is posted to other raw
    events; any number of posts before that are one call of the handler; and the handler
    is not called unless there was a post. *)
Theorem iv_event_raw_delivers s this x n : raw_ok s -> ra_objs s !! this = Some x ->
  wp none (posts_then_event this n) s (fun _ s' => raw_ok s' /\
    ra_objs s' = ra_objs s /\
    ra_ran s' = (if decide (0 < data_of (event_rfd x) (view s) \/ (0 < n)%nat) then ra_ran s ++ [this] else ra_ran s) /\
    forall o y, o <> this -> ra_objs s !! o = Some y -> data_of (event_rfd y) (view s') = data_of (event_rfd y) (view s)).
Proof.
  revert s. induction n as [|n IH]; intros s Hok Hx.
  - eapply wp_mono; [by eapply got_event_spec|]. cbv beta. intros _ s' (Hok'&w'&->&Hn&_). split_and!; [done|done| |].
    + cbn [ra_ran set_ra_ran]. destruct (decide (0 < data_of (event_rfd x) (view s))); [by rewrite decide_True by auto|].
      rewrite decide_False; [done|]. intros [?|?]; [done|lia].
    + intros o y Ho Hy. apply Hn. destruct (ro_apart _ Hok _ _ _ _ Hy Hx Ho) as (?&_). done.
  - cbn [posts_then_event]. wbind. eapply wp_mono; [by eapply post_spec|]. cbv beta. intros _ s1 (Hok1&w1&->&Hd&Hn).
    eapply wp_mono; [by apply IH|]. cbv beta. intros _ s' (Hok'&Ho&Hr&Hoth). split_and!; [done|done| |].
    + rewrite Hr. rewrite !decide_True; [done|right; lia|by left].
    + intros o y Hne Hy. rewrite (Hoth o y Hne Hy). apply Hn.
      destruct (ro_apart _ Hok _ _ _ _ Hy Hx Hne) as (?&_). done.
Qed.

(** C39. Registering and unregistering a raw event leaves no descriptor open or watched
    that was not before, and when registering fails nothing was changed. *)
Theorem iv_event_raw_roundtrip s this : raw_ok s -> ra_objs s !! this = None ->
  wp none (ret ← iv_event_raw_register this; when (ret =? 0) (iv_event_raw_unregister this)) s (fun _ s' => raw_ok s' /\
    ra_objs s' = ra_objs s /\ rv_open (view s') = rv_open (view s) /\ rv_watched (view s') ⊆ rv_watched (view s)).
Proof.
  intros Hok Hn. wbind. eapply wp_mono; [by apply raw_register_spec|]. cbv beta.
  intros ret s1 (Hok1&_&[(->&x&Ho&Hr&Hw&Hop&Hwa&_)|(->&Ho&Ev)]).
  - cbn [Z.eqb when]. eapply wp_mono; [eapply (raw_unregister_spec s1 this x); [done|by rewrite Ho, lookup_insert_eq]|].
    cbv beta. intros _ s' (?&_&Ho'&Hop'&Hwa'&_). split_and!; [done| | |].
    + by rewrite Ho', Ho, delete_insert_id.
    + rewrite Hop', Hop. set_solver +Hr Hw.
    + rewrite Hwa', Hwa. set_solver +.
  - eapply wp_Ok; [reflexivity|]. split_and!; try done; by rewrite Ev.
Qed.

(** ** The wakeups of iv_event.c

    With a poll method that has no [event_rx_on], the raw event [events_kick] of every
    thread (here at the thread's own location) wakes it. *)
Definition rawsys : Type := { s : St | raw_ok s }.
Implicit Types (y : rawsys).
Definition lift_res {A} (r : res (A * St)) (H : forall a s', r = Ok (a, s') -> raw_ok s') (d : A) y : A * rawsys :=
  match r as r' return (forall a s', r' = Ok (a, s') -> raw_ok s') -> A * rawsys with
  | Ok (a, s') => fun H => (a, s' ↾ H a s' eq_refl)
  | _ => fun _ => (d, y)
  end H.
Definition lift {A} (m : M St A) (Hm : forall s a s', raw_ok s -> m s = Ok (a, s') -> raw_ok s') (d : A) y : A * rawsys :=
  lift_res (m (`y)) (fun a s' => Hm _ _ _ (proj2_sig y)) d y.
Lemma lift_Ok {A} (m : M St A) Hm d y a s' : m (`y) = Ok (a, s') -> exists H, lift m Hm d y = (a, s' ↾ H).
Proof.
  unfold lift. generalize (fun a s' => Hm (`y) a s' (proj2_sig y)) as H. generalize (m (`y)) as r.
  intros r H ->. by eexists.
Qed.
Lemma lift_Undef {A} (m : M St A) Hm d y : m (`y) = Undef -> lift m Hm d y = (d, y).
Proof.
  unfold lift. generalize (fun a s' => Hm (`y) a s' (proj2_sig y)) as H. generalize (m (`y)) as r. by intros r H ->.
Qed.

Lemma register_keeps this s ret s' : raw_ok s -> iv_event_raw_register this s = Ok (ret, s') -> raw_ok s'.
Proof. intros Hok E. by destruct (wp_result _ _ _ _ _ _ (raw_register_spec s this Hok) E). Qed.
Lemma load_raw_None s this : ra_objs s !! this = None -> load_raw this s = Undef.
Proof. intros E. unfold load_raw. msimpl. by rewrite E. Qed.
Lemma post_None s this : ra_objs s !! this = None -> iv_event_raw_post this s = Undef.
Proof. intros E. unfold iv_event_raw_post, mbind at 1, M_bind at 1. by rewrite load_raw_None. Qed.
Lemma unregister_None s this : ra_objs s !! this = None -> iv_event_raw_unregister this s = Undef.
Proof. intros E. unfold iv_event_raw_unregister, mbind at 1, M_bind at 1. by rewrite load_raw_None. Qed.
Lemma post_keeps this s a s' : raw_ok s -> iv_event_raw_post this s = Ok (a, s') -> raw_ok s'.
Proof.
  intros Hok E. destruct (ra_objs s !! this) as [x|] eqn:Hx; [|by rewrite post_None in E].
  by destruct (wp_result _ _ _ _ _ _ (post_spec s this x Hok Hx) E).
Qed.
Lemma unregister_keeps this s a s' : raw_ok s -> iv_event_raw_unregister this s = Ok (a, s') -> raw_ok s'.
Proof.
  intros Hok E. destruct (ra_objs s !! this) as [x|] eqn:Hx; [|by rewrite unregister_None in E].
  by destruct (wp_result _ _ _ _ _ _ (raw_unregister_spec s this x Hok Hx) E).
Qed.
(** The event loop polls: was the handler called? *)
Definition poll_kick (this : loc) : M St bool :=
  before ← gets ra_ran; iv_event_raw_got_event this;; after ← gets ra_ran; mret (bool_decide (after <> before)).
Lemma poll_kick_spec s this x : raw_ok s -> ra_objs s !! this = Some x ->
  wp none (poll_kick this) s (fun b s' => raw_ok s' /\ ra_objs s' = ra_objs s /\
    (b = false -> data_of (event_rfd x) (view s) <= 0) /\
    forall n, n <> event_rfd x -> data_of n (view s') = data_of n (view s)).
Proof.
  intros Hok Hx. unfold poll_kick. wprim. wbind. eapply wp_mono; [by eapply got_event_spec|]. cbv beta.
  intros _ s1 (Hok1&w1&->&Hn&_). wprim. eapply wp_Ok; [reflexivity|]. split_and!; try done.
  cbn [ra_ran set_ra_ran]. case_decide; [|lia]. intros Hb%bool_decide_eq_false. destruct Hb. intros E.
  apply (f_equal length) in E. rewrite length_app in E. cbn in E. lia.
Qed.
Lemma poll_kick_None s this : ra_objs s !! this = None -> poll_kick this s = Undef.
Proof.
  intros E. pose proof (load_raw_None _ _ E) as EL. unfold poll_kick, iv_event_raw_got_event, gets, mbind, M_bind. by rewrite EL.
Qed.
Lemma poll_kick_keeps this s a s' : raw_ok s -> poll_kick this s = Ok (a, s') -> raw_ok s'.
Proof.
  intros Hok E. destruct (ra_objs s !! this) as [x|] eqn:Hx; [|by rewrite poll_kick_None in E].
  by destruct (wp_result _ _ _ _ _ _ (poll_kick_spec s this x Hok Hx) E).
Qed.

#[export] Instance raw_wakeups : Wakeups rawsys := {
  is_mt_app := true;
  event_rx_on _ y := (true, y);
  event_rx_off _ y := y;
  event_send _ y := y;
  kick_register t := lift (iv_event_raw_register t) (register_keeps t) (-1);
  kick_unregister t y := (lift (iv_event_raw_unregister t) (unregister_keeps t) tt y).2;
  kick_post t y := (lift (iv_event_raw_post t) (post_keeps t) tt y).2;
  wk_take t := lift (poll_kick t) (poll_kick_keeps t) false }.

(** The threads whose kick is readable. *)
Definition readable (y : rawsys) : gset loc :=
  filter (fun t => match ra_objs (`y) !! t with Some x => 0 <? data_of (event_rfd x) (view (`y)) | None => false end = true)
    (dom (ra_objs (`y))).
Lemma elem_of_readable y t : t ∈ readable y <-> exists x, ra_objs (`y) !! t = Some x /\ 0 < data_of (event_rfd x) (view (`y)).
Proof.
  unfold readable. rewrite elem_of_filter, elem_of_dom. split.
  - intros [Hd [x Hx]]. rewrite Hx in Hd. exists x. split; [done|]. by apply Z.ltb_lt.
  - intros (x&->&Hd). split; [by apply Z.ltb_lt|by eexists].
Qed.

(** What keeps the other objects' data keeps the others readable. *)
Lemma readable_others y y' t : (forall o x, o <> t -> ra_objs (`y) !! o = Some x -> ra_objs (`y') !! o = Some x /\
    data_of (event_rfd x) (view (`y')) = data_of (event_rfd x) (view (`y))) -> readable y ∖ {[t]} ⊆ readable y'.
Proof.
  intros H o [Ho Hne]%elem_of_difference. apply elem_of_readable in Ho as (x&Hx&Hd). rewrite elem_of_singleton in Hne.
  destruct (H o x Hne Hx) as [Hx' E]. apply elem_of_readable. exists x. by rewrite E.
Qed.
Lemma wp_none_Ok {A} (m : M St A) s (Q : A -> St -> Prop) : wp none m s Q -> exists a s', m s = Ok (a, s') /\ Q a s'.
Proof. unfold wp, none. destruct (m s) as [[a s']| | |]; [|done..]. by exists a, s'. Qed.

Lemma kick_register_law t y ret y' : kick_register t y = (ret, y') ->
  dom (ra_objs (`y')) = (if ret =? 0 then {[t]} ∪ dom (ra_objs (`y)) else dom (ra_objs (`y))) /\ readable y ∖ {[t]} ⊆ readable y'.
Proof.
  destruct (wp_none_Ok _ _ _ (raw_register_spec (`y) t (proj2_sig y))) as (r&s'&E&Hok'&_&Hr). intros Ek.
  destruct (lift_Ok _ (register_keeps t) (-1) y r s' E) as [P El]. cbn in Ek. rewrite El in Ek. injection Ek as <- <-.
  destruct Hr as [(->&x&Ho&Hrf&Hwf&Hop&_&_&Hd)|(->&Ho&Ev)]; cbn [Z.eqb proj1_sig].
  - rewrite Ho, dom_insert_L. split; [done|]. apply readable_others. intros o z Hne Hz. cbn.
    rewrite Ho, lookup_insert_ne by done. split; [done|]. apply Hd. intros E2.
    destruct (ro_objs _ (proj2_sig y) _ _ Hz) as [[Ho1 _] _ _ _ _]. by rewrite E2 in Ho1.
  - rewrite Ho. split; [done|]. apply readable_others. intros o z Hne Hz. cbn. by rewrite Ho, Ev.
Qed.
Lemma kick_unregister_law t y : dom (ra_objs (proj1_sig (kick_unregister t y))) = dom (ra_objs (`y)) ∖ {[t]} /\
  readable y ∖ {[t]} ⊆ readable (kick_unregister t y).
Proof.
  cbn. destruct (ra_objs (`y) !! t) as [x|] eqn:Hx.
  - destruct (wp_none_Ok _ _ _ (raw_unregister_spec (`y) t x (proj2_sig y) Hx)) as ([]&s'&E&Hok'&_&Ho&_&_&Hd).
    destruct (lift_Ok _ (unregister_keeps t) tt y tt s' E) as [P ->]. cbn. rewrite Ho, dom_delete_L. split; [done|].
    apply readable_others. intros o z Hne Hz. cbn. rewrite Ho, lookup_delete_ne by done. done.
  - rewrite (lift_Undef _ _ _ _ (unregister_None _ _ Hx)). cbn. apply not_elem_of_dom in Hx. split; [set_solver|set_solver].
Qed.
Lemma kick_post_law t y : t ∈ dom (ra_objs (`y)) -> dom (ra_objs (proj1_sig (kick_post t y))) = dom (ra_objs (`y)) /\
  {[t]} ∪ readable y ⊆ readable (kick_post t y).
Proof.
  intros [x Hx]%elem_of_dom. cbn.
  destruct (wp_none_Ok _ _ _ (post_spec (`y) t x (proj2_sig y) Hx)) as ([]&s'&E&Hok'&w'&->&Hd&Hn).
  destruct (lift_Ok _ (post_keeps t) tt y tt _ E) as [P ->]. cbn. split; [done|]. intros o [->%elem_of_singleton|(z&Hz&Hzd)%elem_of_readable]%elem_of_union;
    apply elem_of_readable; [by exists x|]. exists z. split; [done|]. cbn. destruct (decide (o = t)) as [->|Hne]; [by assert (z = x) as -> by congruence|].
  change (0 < data_of (event_rfd z) (rw w')). rewrite Hn; [done|]. by destruct (ro_apart _ (proj2_sig y) _ _ _ _ Hz Hx Hne).
Qed.
Lemma wk_take_law t y b y' : wk_take t y = (b, y') -> dom (ra_objs (`y')) = dom (ra_objs (`y)) /\
  readable y ∖ {[t]} ⊆ readable y' /\ (b = false -> t ∉ readable y).
Proof.
  cbn. destruct (ra_objs (`y) !! t) as [x|] eqn:Hx.
  - destruct (wp_none_Ok _ _ _ (poll_kick_spec (`y) t x (proj2_sig y) Hx)) as (b'&s'&E&Hok'&Ho&Hb&Hn).
    destruct (lift_Ok _ (poll_kick_keeps t) false y b' s' E) as [P ->]. intros [= <- <-]. cbn. rewrite Ho. split_and!; [done| |].
    + apply readable_others. intros o z Hne Hz. cbn. rewrite Ho. split; [done|]. apply Hn.
      by destruct (ro_apart _ (proj2_sig y) _ _ _ _ Hz Hx Hne).
    + intros Hb' (z&Hz&Hd)%elem_of_readable. assert (z = x) as -> by congruence. specialize (Hb Hb'). lia.
  - rewrite (lift_Undef _ _ _ _ (poll_kick_None _ _ Hx)). intros [= <- <-]. split_and!; [done|set_solver|].
    intros _ (z&Hz&_)%elem_of_readable. congruence.
Qed.

#[export, refine] Instance raw_wakeup_laws : WakeupLaws rawsys := {
  rx_works := false; rx_set _ := ∅; kick_set y := dom (ra_objs (`y)); woken := readable }.
Proof.
  - by intros t y failed y' [= <- <-].
  - intros t y. cbn. split_and!; [set_solver|done|set_solver].
  - intros t y Ht. by apply elem_of_empty in Ht.
  - intros t y ret y' E. split; [done|]. by apply kick_register_law.
  - intros t y. split; [done|]. apply kick_unregister_law.
  - intros t y Ht. split; [done|]. by apply kick_post_law.
  - intros t y b y' E. split; [done|]. by apply wk_take_law.
Defined.

(** C21. iv_event.c over iv_event_raw_posix.c: with raw events as its wakeups, in every
    interleaving of any number of threads, a thread with posted events finds the
    descriptor of its kick readable, unless it is about to run them, its task is
    registered, or a poster is still on its way. *)
Theorem iv_event_over_raw_events handler (s : ev_state rawsys) pool d th : ev_reachable handler (s, pool) ->
  es_threads s !! d = Some th -> et_pending th <> [] ->
  et_pc th = PRun \/ et_local th = true \/ kicked s d \/
  exists x, ra_objs (proj1_sig (es_w s)) !! d = Some x /\ 0 < data_of (event_rfd x) (view (proj1_sig (es_w s))).
Proof.
  intros Hr Hd Hp. destruct (reachable_config_ok handler _ Hr) as [Hi _].
  destruct (to_wake _ _ _ (ei_threads _ Hi _ _ Hd) Hp) as [?|[Hw|[?|?]]]; auto.
  apply elem_of_readable in Hw. auto.
Qed.
End spec.

(** ** A kernel, with eventfd(2) or without *)
Record rsim := mk_rsim { xr_view : rview; xr_signals : nat }.
Definition xr_interrupted {A} (call : rsim -> sysres A * rsim) (w : rsim) : sysres A * rsim :=
  match xr_signals w with
  | O => call w
  | Datatypes.S k => (inr EINTR, mk_rsim (xr_view w) k)
  end.
Definition xr_set (v : rview) (w : rsim) : rsim := mk_rsim v (xr_signals w).
Section rsim.
Context (eventfds : bool).
#[local] Instance rsim_kernel : RawKernel rsim := {
  rk_eventfd2 w := let n := fresh (rv_open (xr_view w)) in
    if eventfds then (inl n, xr_set (opened true n n (xr_view w)) w) else (inr ENOSYS, w);
  rk_eventfd w := (inr ENOSYS, w);
  rk_pipe w := let a := fresh (rv_open (xr_view w)) in let b := fresh ({[a]} ∪ rv_open (xr_view w)) in
    (inl (a, b), xr_set (opened false a b (xr_view w)) w);
  rk_read n len := xr_interrupted (fun w => let d := data_of n (xr_view w) in
    if decide (d <= 0) then (inr EAGAIN, w)
    else (inl (Z.min d len), xr_set (set_data n (if eventfds then 0 else d - Z.min d len) (xr_view w)) w));
  rk_write m _ := xr_interrupted (fun w => let n := default m (rv_end (xr_view w) !! m) in let d := data_of n (xr_view w) in
    if decide (16 <= d) then (inr EAGAIN, w) else (inl 1, xr_set (set_data n (Z.max d 0 + 1) (xr_view w)) w));
  rk_close n w := xr_set (closed n (xr_view w)) w;
  rk_set_cloexec n w := xr_set (with_cloexec n (xr_view w)) w;
  rk_set_nonblock n w := xr_set (with_nonblock n (xr_view w)) w;
  rk_fd_register n w := xr_set (watched n (xr_view w)) w;
  rk_fd_unregister n w := xr_set (unwatched n (xr_view w)) w;
  rk_signals := xr_signals }.

Lemma xr_interrupted_law {A} (call : rsim -> sysres A * rsim) w r w' (Q : sysres A -> rsim -> Prop) :
  xr_interrupted call w = (r, w') -> (forall r w', call w = (r, w') -> Q r w') ->
  (forall w', xr_view w' = xr_view w -> (xr_signals w' < xr_signals w)%nat -> Q (inr EINTR) w') -> Q r w'.
Proof.
  unfold xr_interrupted. destruct (xr_signals w) eqn:E; intros Hc H1 H2; [auto|]. injection Hc as <- <-. apply H2; [done|cbn; lia].
Qed.

#[local, refine] Instance rsim_laws : RawLaws rsim := { rw := xr_view; has_eventfd2 := eventfds; has_eventfd := false }.
Proof.
  - intros w r w'. cbn. destruct eventfds; intros [= <- <-]; [split_and!; [done|apply is_fresh|done]|]. split; [done|]. split; [done|by left].
  - intros w r w' [= <- <-]. split; [done|]. done.
  - intros w r w' [= <- <-]. pose proof (is_fresh (rv_open (xr_view w))).
    pose proof (is_fresh ({[fresh (rv_open (xr_view w))]} ∪ rv_open (xr_view w))). split_and!; [set_solver|done|set_solver|done].
  - intros n len w r w' _ _ _ Hl E. revert E. cbn. intros E. apply (xr_interrupted_law _ _ _ _
      (fun r w' => match r with
       | inl k => 0 < k /\ 0 < data_of n (xr_view w) /\ exists d, 0 <= d < data_of n (xr_view w) /\ xr_view w' = set_data n d (xr_view w)
       | inr e => xr_view w' = xr_view w /\ ((e = EAGAIN /\ data_of n (xr_view w) <= 0) \/ (e = EINTR /\ (xr_signals w' < xr_signals w)%nat))
       end) E); [|intros; split; [done|by right]].
    intros r1 w1. case_decide as Hd; intros [= <- <-]; [split; [done|by left]|]. split; [lia|]. split; [lia|].
    eexists. split; [|reflexivity]. destruct eventfds; lia.
  - intros m n len w r w' _ _ He _ _ E. revert E. cbn. intros E. apply (xr_interrupted_law _ _ _ _
      (fun r w' => match r with
       | inl k => exists d, data_of n (xr_view w) < d /\ 0 < d /\ xr_view w' = set_data n d (xr_view w)
       | inr e => xr_view w' = xr_view w /\ ((e = EAGAIN /\ 0 < data_of n (xr_view w)) \/ (e = EINTR /\ (xr_signals w' < xr_signals w)%nat))
       end) E); [|intros; split; [done|by right]].
    intros r1 w1. rewrite He. cbn. case_decide as Hd; intros [= <- <-]; [split; [done|left; split; [done|lia]]|].
    eexists. split; [|split; [|reflexivity]]; lia.
  - done.
  - done.
  - done.
  - done.
  - done.
Defined.

Definition demo_raw (signals : nat) : raw_state rsim := mk_rs ∅ 2 [] (mk_rsim (mk_rv {[0; 1; 2]} ∅ ∅ ∅ ∅ ∅) signals).
Lemma demo_raw_ok n : raw_ok (demo_raw n).
Proof. split; [|intros o x Hx; cbn in Hx; by apply lookup_empty_Some in Hx|intros o o' x y Hx; cbn in Hx; by apply lookup_empty_Some in Hx]. cbn. unfold settled. cbn. destruct eventfds; [by left|right; by split]. Qed.
End rsim.

Lemma iv_event_raw_roundtrip_witness : wp none (ret ← iv_event_raw_register (RawKernel0 := rsim_kernel false) 5;
    when (ret =? 0) (iv_event_raw_unregister (RawKernel0 := rsim_kernel false) 5)) (demo_raw 1)
  (fun _ s' => raw_ok (HL := rsim_laws false) s' /\ ra_objs s' = ra_objs (demo_raw 1) /\
    rv_open (view (HL := rsim_laws false) s') = rv_open (view (HL := rsim_laws false) (demo_raw 1)) /\
    rv_watched (view (HL := rsim_laws false) s') ⊆ rv_watched (view (HL := rsim_laws false) (demo_raw 1))).
Proof. exact (iv_event_raw_roundtrip (HL := rsim_laws false) (demo_raw 1) 5 (demo_raw_ok false 1) eq_refl). Defined.

(** A registered raw event, and three posts to it with a signal in between. *)
Definition demo_registered (b : bool) : raw_state rsim :=
  match iv_event_raw_register (RawKernel0 := rsim_kernel b) 5 (demo_raw 1) with Ok (_, s) => s | _ => demo_raw 1 end.
Lemma demo_registered_ok b : raw_ok (HL := rsim_laws b) (demo_registered b).
Proof.
  pose proof (raw_register_spec (HL := rsim_laws b) (demo_raw 1) 5 (demo_raw_ok b 1)) as H. unfold demo_registered.
  destruct (wp_none_Ok _ _ _ H) as (r&s&E&Hok&_). by rewrite E.
Qed.
Lemma iv_event_raw_delivers_witness : exists x, ra_objs (demo_registered false) !! 5%positive = Some x /\
  wp none (posts_then_event (RawKernel0 := rsim_kernel false) 5 3) (demo_registered false) (fun _ s' => ra_ran s' = [5%positive]).
Proof.
  destruct (ra_objs (demo_registered false) !! 5%positive) as [x|] eqn:Hx; [|by vm_compute in Hx]. exists x. split; [done|].
  pose proof (iv_event_raw_delivers (HL := rsim_laws false) (demo_registered false) 5 x 3 (demo_registered_ok false) Hx) as H.
  eapply wp_mono; [exact H|]. cbv beta. intros _ s' (_&_&Hr&_). rewrite Hr. rewrite decide_True by (right; lia). reflexivity.
Defined.

(** Thread 1 registers event 3, and thread 2 posts it; the next action of thread 2 is the kick. *)
Definition demo_rawsys : rawsys (HL := rsim_laws true) := demo_raw 0 ↾ demo_raw_ok true 0.
Definition demo_rest : loc -> list loc -> list ev_call := fun _ _ => [].
Definition over_raw (cs : list (choice ev_start)) :=
  sched_from (fun t b => Some (begin (Wakeups0 := raw_wakeups (HL := rsim_laws true)) demo_rest t b)) cs
    (ev_boot {[1; 2]}%positive demo_rawsys).
Definition kicked_choices : list (choice ev_start) :=
  [Begin 1 (SCalls [ERegister 3]); Go 1; Begin 2 (SCalls [EPost 3]); Go 2; Go 2]%positive.

Lemma iv_event_over_raw_events_witness :
  let s := (over_raw kicked_choices).1 in
  exists th, es_threads s !! 1%positive = Some th /\ et_pending th = [3%positive] /\
  (et_pc th = PRun \/ et_local th = true \/ kicked s 1%positive \/
   exists x, ra_objs (proj1_sig (es_w s)) !! 1%positive = Some x /\
     0 < data_of (event_rfd x) (view (HL := rsim_laws true) (proj1_sig (es_w s)))).
Proof.
  destruct (es_threads (over_raw kicked_choices).1 !! 1%positive) as [th|] eqn:Hth; [|by vm_compute in Hth].
  exists th. assert (et_pending th = [3%positive]) as Hp by (vm_compute in Hth; by injection Hth as <-). split_and!; [done..|].
  refine (iv_event_over_raw_events (HL := rsim_laws true) demo_rest (over_raw kicked_choices).1 (over_raw kicked_choices).2 1 th _ Hth _);
    [|by rewrite Hp].
  pose proof (ev_sched_reachable (Wakeups0 := raw_wakeups (HL := rsim_laws true)) demo_rest kicked_choices {[1; 2]}%positive demo_rawsys) as H.
  unfold over_raw. by destruct (sched_from _ _ _).
Defined.
