(* ===== verification/Work.v ===== *)
(** * Work pools (iv_work.c)

    A pool has an owner thread and worker threads; each is a program of Conc.v in
    which a section under [pool->lock] is one action.  Of iv_event.c the code needs
    what EventProps.v shows: posting an event that is not pending makes it pending,
    and the event loop of the thread that registered it then takes it off and calls
    its handler, once.  Here [wk_ev], [wk_needed] and [th_kick] tell which events are
    pending. *)

From S2P Require Import Prelude Conc.

Local Open Scope Z_scope.

(** Where a thread is, other than in its event loop or outside of this code: a worker
    that calls [thread_start], whose kick was taken, that runs the work of an item (with
    the numbers of items submitted when it entered the loop and begun when it took this
    one), whose timer expired; the owner before and after it has taken the list [work_done], of which some are
    left, between the unlock and the post of [iv_work_pool_put], or about to run
    [iv_work_thread_needed]. *)
Inductive work_pc := WStart | WEvent | WWork (i : loc) (last from : nat) | WTimeout | OSteal | OItems (left : nat) | OPut | ONeeded.
#[global] Instance work_pc_eq : EqDecision work_pc.
Proof. solve_decision. Defined.

(** [struct work_pool_thread]: [th_kick] is [kick] being pending, [th_timer]
    [idle_timer] being registered, [th_new] that the thread has not begun. *)
Record work_pool_thread := mk_wt {
  th_kicked : bool; th_kick : bool; th_timer : bool; th_new : bool; th_pc : option work_pc }.
Definition set_th_kicked v t := mk_wt v (th_kick t) (th_timer t) (th_new t) (th_pc t).
Definition set_th_kick v t := mk_wt (th_kicked t) v (th_timer t) (th_new t) (th_pc t).
Definition set_th_timer v t := mk_wt (th_kicked t) (th_kick t) v (th_new t) (th_pc t).
Definition set_th_new v t := mk_wt (th_kicked t) (th_kick t) (th_timer t) v (th_pc t).
Definition set_th_pc v t := mk_wt (th_kicked t) (th_kick t) (th_timer t) (th_new t) v.

(** [struct work_pool_priv], and [this->priv] being set.  [wk_taken] is the list
    [items] on the stack of [iv_work_event].  From [wk_freed] on the fields are there for the
    proofs: the pool was freed, where the owner is, the items submitted, those whose
    work was called, in order, those whose work is running, those whose completion was
    called, the threads there have been, whether the last attempt to start one failed, and
    the threads whose [thread_stop] was called; and [wk_w], what threads are created with. *)
Record work_pool (W : Type) := mk_wp {
  wk_priv : bool;
  wk_shutting_down : bool;
  wk_max_threads : Z;
  wk_this_max : Z;
  wk_started_threads : Z;
  wk_idle_threads : list loc;
  wk_seq_head : Z;
  wk_seq_tail : Z;
  wk_work_items : list loc;
  wk_work_done : list loc;
  wk_taken : list loc;
  wk_ev : bool;
  wk_needed : bool;
  wk_threads : gmap loc work_pool_thread;
  wk_freed : bool;
  wk_owner : option work_pc;
  wk_submitted : list loc;
  wk_begun : list loc;
  wk_running : list loc;
  wk_completed : list loc;
  wk_used : gset loc;
  wk_failed : bool;
  wk_stopped : list loc;
  wk_w : W }.
Arguments mk_wp {_}.
Arguments wk_priv {_} _.
Arguments wk_shutting_down {_} _.
Arguments wk_max_threads {_} _.
Arguments wk_this_max {_} _.
Arguments wk_started_threads {_} _.
Arguments wk_idle_threads {_} _.
Arguments wk_seq_head {_} _.
Arguments wk_seq_tail {_} _.
Arguments wk_work_items {_} _.
Arguments wk_work_done {_} _.
Arguments wk_taken {_} _.
Arguments wk_ev {_} _.
Arguments wk_needed {_} _.
Arguments wk_threads {_} _.
Arguments wk_freed {_} _.
Arguments wk_owner {_} _.
Arguments wk_submitted {_} _.
Arguments wk_begun {_} _.
Arguments wk_running {_} _.
Arguments wk_completed {_} _.
Arguments wk_used {_} _.
Arguments wk_failed {_} _.
Arguments wk_stopped {_} _.
Arguments wk_w {_} _.
Definition set_wk_priv {W : Type} (v : bool) (s : work_pool W) : work_pool W :=
  mk_wp v (wk_shutting_down s) (wk_max_threads s) (wk_this_max s) (wk_started_threads s) (wk_idle_threads s) (wk_seq_head s) (wk_seq_tail s) (wk_work_items s) (wk_work_done s) (wk_taken s) (wk_ev s) (wk_needed s) (wk_threads s) (wk_freed s) (wk_owner s) (wk_submitted s) (wk_begun s) (wk_running s) (wk_completed s) (wk_used s) (wk_failed s) (wk_stopped s) (wk_w s).
Definition set_wk_shutting_down {W : Type} (v : bool) (s : work_pool W) : work_pool W :=
  mk_wp (wk_priv s) v (wk_max_threads s) (wk_this_max s) (wk_started_threads s) (wk_idle_threads s) (wk_seq_head s) (wk_seq_tail s) (wk_work_items s) (wk_work_done s) (wk_taken s) (wk_ev s) (wk_needed s) (wk_threads s) (wk_freed s) (wk_owner s) (wk_submitted s) (wk_begun s) (wk_running s) (wk_completed s) (wk_used s) (wk_failed s) (wk_stopped s) (wk_w s).
Definition set_wk_max_threads {W : Type} (v : Z) (s : work_pool W) : work_pool W :=
  mk_wp (wk_priv s) (wk_shutting_down s) v (wk_this_max s) (wk_started_threads s) (wk_idle_threads s) (wk_seq_head s) (wk_seq_tail s) (wk_work_items s) (wk_work_done s) (wk_taken s) (wk_ev s) (wk_needed s) (wk_threads s) (wk_freed s) (wk_owner s) (wk_submitted s) (wk_begun s) (wk_running s) (wk_completed s) (wk_used s) (wk_failed s) (wk_stopped s) (wk_w s).
Definition set_wk_this_max {W : Type} (v : Z) (s : work_pool W) : work_pool W :=
  mk_wp (wk_priv s) (wk_shutting_down s) (wk_max_threads s) v (wk_started_threads s) (wk_idle_threads s) (wk_seq_head s) (wk_seq_tail s) (wk_work_items s) (wk_work_done s) (wk_taken s) (wk_ev s) (wk_needed s) (wk_threads s) (wk_freed s) (wk_owner s) (wk_submitted s) (wk_begun s) (wk_running s) (wk_completed s) (wk_used s) (wk_failed s) (wk_stopped s) (wk_w s).
Definition set_wk_started_threads {W : Type} (v : Z) (s : work_pool W) : work_pool W :=
  mk_wp (wk_priv s) (wk_shutting_down s) (wk_max_threads s) (wk_this_max s) v (wk_idle_threads s) (wk_seq_head s) (wk_seq_tail s) (wk_work_items s) (wk_work_done s) (wk_taken s) (wk_ev s) (wk_needed s) (wk_threads s) (wk_freed s) (wk_owner s) (wk_submitted s) (wk_begun s) (wk_running s) (wk_completed s) (wk_used s) (wk_failed s) (wk_stopped s) (wk_w s).
Definition set_wk_idle_threads {W : Type} (v : list loc) (s : work_pool W) : work_pool W :=
  mk_wp (wk_priv s) (wk_shutting_down s) (wk_max_threads s) (wk_this_max s) (wk_started_threads s) v (wk_seq_head s) (wk_seq_tail s) (wk_work_items s) (wk_work_done s) (wk_taken s) (wk_ev s) (wk_needed s) (wk_threads s) (wk_freed s) (wk_owner s) (wk_submitted s) (wk_begun s) (wk_running s) (wk_completed s) (wk_used s) (wk_failed s) (wk_stopped s) (wk_w s).
Definition set_wk_seq_head {W : Type} (v : Z) (s : work_pool W) : work_pool W :=
  mk_wp (wk_priv s) (wk_shutting_down s) (wk_max_threads s) (wk_this_max s) (wk_started_threads s) (wk_idle_threads s) v (wk_seq_tail s) (wk_work_items s) (wk_work_done s) (wk_taken s) (wk_ev s) (wk_needed s) (wk_threads s) (wk_freed s) (wk_owner s) (wk_submitted s) (wk_begun s) (wk_running s) (wk_completed s) (wk_used s) (wk_failed s) (wk_stopped s) (wk_w s).
Definition set_wk_seq_tail {W : Type} (v : Z) (s : work_pool W) : work_pool W :=
  mk_wp (wk_priv s) (wk_shutting_down s) (wk_max_threads s) (wk_this_max s) (wk_started_threads s) (wk_idle_threads s) (wk_seq_head s) v (wk_work_items s) (wk_work_done s) (wk_taken s) (wk_ev s) (wk_needed s) (wk_threads s) (wk_freed s) (wk_owner s) (wk_submitted s) (wk_begun s) (wk_running s) (wk_completed s) (wk_used s) (wk_failed s) (wk_stopped s) (wk_w s).
Definition set_wk_work_items {W : Type} (v : list loc) (s : work_pool W) : work_pool W :=
  mk_wp (wk_priv s) (wk_shutting_down s) (wk_max_threads s) (wk_this_max s) (wk_started_threads s) (wk_idle_threads s) (wk_seq_head s) (wk_seq_tail s) v (wk_work_done s) (wk_taken s) (wk_ev s) (wk_needed s) (wk_threads s) (wk_freed s) (wk_owner s) (wk_submitted s) (wk_begun s) (wk_running s) (wk_completed s) (wk_used s) (wk_failed s) (wk_stopped s) (wk_w s).
Definition set_wk_work_done {W : Type} (v : list loc) (s : work_pool W) : work_pool W :=
  mk_wp (wk_priv s) (wk_shutting_down s) (wk_max_threads s) (wk_this_max s) (wk_started_threads s) (wk_idle_threads s) (wk_seq_head s) (wk_seq_tail s) (wk_work_items s) v (wk_taken s) (wk_ev s) (wk_needed s) (wk_threads s) (wk_freed s) (wk_owner s) (wk_submitted s) (wk_begun s) (wk_running s) (wk_completed s) (wk_used s) (wk_failed s) (wk_stopped s) (wk_w s).
Definition set_wk_taken {W : Type} (v : list loc) (s : work_pool W) : work_pool W :=
  mk_wp (wk_priv s) (wk_shutting_down s) (wk_max_threads s) (wk_this_max s) (wk_started_threads s) (wk_idle_threads s) (wk_seq_head s) (wk_seq_tail s) (wk_work_items s) (wk_work_done s) v (wk_ev s) (wk_needed s) (wk_threads s) (wk_freed s) (wk_owner s) (wk_submitted s) (wk_begun s) (wk_running s) (wk_completed s) (wk_used s) (wk_failed s) (wk_stopped s) (wk_w s).
Definition set_wk_ev {W : Type} (v : bool) (s : work_pool W) : work_pool W :=
  mk_wp (wk_priv s) (wk_shutting_down s) (wk_max_threads s) (wk_this_max s) (wk_started_threads s) (wk_idle_threads s) (wk_seq_head s) (wk_seq_tail s) (wk_work_items s) (wk_work_done s) (wk_taken s) v (wk_needed s) (wk_threads s) (wk_freed s) (wk_owner s) (wk_submitted s) (wk_begun s) (wk_running s) (wk_completed s) (wk_used s) (wk_failed s) (wk_stopped s) (wk_w s).
Definition set_wk_needed {W : Type} (v : bool) (s : work_pool W) : work_pool W :=
  mk_wp (wk_priv s) (wk_shutting_down s) (wk_max_threads s) (wk_this_max s) (wk_started_threads s) (wk_idle_threads s) (wk_seq_head s) (wk_seq_tail s) (wk_work_items s) (wk_work_done s) (wk_taken s) (wk_ev s) v (wk_threads s) (wk_freed s) (wk_owner s) (wk_submitted s) (wk_begun s) (wk_running s) (wk_completed s) (wk_used s) (wk_failed s) (wk_stopped s) (wk_w s).
Definition set_wk_threads {W : Type} (v : gmap loc work_pool_thread) (s : work_pool W) : work_pool W :=
  mk_wp (wk_priv s) (wk_shutting_down s) (wk_max_threads s) (wk_this_max s) (wk_started_threads s) (wk_idle_threads s) (wk_seq_head s) (wk_seq_tail s) (wk_work_items s) (wk_work_done s) (wk_taken s) (wk_ev s) (wk_needed s) v (wk_freed s) (wk_owner s) (wk_submitted s) (wk_begun s) (wk_running s) (wk_completed s) (wk_used s) (wk_failed s) (wk_stopped s) (wk_w s).
Definition set_wk_freed {W : Type} (v : bool) (s : work_pool W) : work_pool W :=
  mk_wp (wk_priv s) (wk_shutting_down s) (wk_max_threads s) (wk_this_max s) (wk_started_threads s) (wk_idle_threads s) (wk_seq_head s) (wk_seq_tail s) (wk_work_items s) (wk_work_done s) (wk_taken s) (wk_ev s) (wk_needed s) (wk_threads s) v (wk_owner s) (wk_submitted s) (wk_begun s) (wk_running s) (wk_completed s) (wk_used s) (wk_failed s) (wk_stopped s) (wk_w s).
Definition set_wk_owner {W : Type} (v : option work_pc) (s : work_pool W) : work_pool W :=
  mk_wp (wk_priv s) (wk_shutting_down s) (wk_max_threads s) (wk_this_max s) (wk_started_threads s) (wk_idle_threads s) (wk_seq_head s) (wk_seq_tail s) (wk_work_items s) (wk_work_done s) (wk_taken s) (wk_ev s) (wk_needed s) (wk_threads s) (wk_freed s) v (wk_submitted s) (wk_begun s) (wk_running s) (wk_completed s) (wk_used s) (wk_failed s) (wk_stopped s) (wk_w s).
Definition set_wk_submitted {W : Type} (v : list loc) (s : work_pool W) : work_pool W :=
  mk_wp (wk_priv s) (wk_shutting_down s) (wk_max_threads s) (wk_this_max s) (wk_started_threads s) (wk_idle_threads s) (wk_seq_head s) (wk_seq_tail s) (wk_work_items s) (wk_work_done s) (wk_taken s) (wk_ev s) (wk_needed s) (wk_threads s) (wk_freed s) (wk_owner s) v (wk_begun s) (wk_running s) (wk_completed s) (wk_used s) (wk_failed s) (wk_stopped s) (wk_w s).
Definition set_wk_begun {W : Type} (v : list loc) (s : work_pool W) : work_pool W :=
  mk_wp (wk_priv s) (wk_shutting_down s) (wk_max_threads s) (wk_this_max s) (wk_started_threads s) (wk_idle_threads s) (wk_seq_head s) (wk_seq_tail s) (wk_work_items s) (wk_work_done s) (wk_taken s) (wk_ev s) (wk_needed s) (wk_threads s) (wk_freed s) (wk_owner s) (wk_submitted s) v (wk_running s) (wk_completed s) (wk_used s) (wk_failed s) (wk_stopped s) (wk_w s).
Definition set_wk_running {W : Type} (v : list loc) (s : work_pool W) : work_pool W :=
  mk_wp (wk_priv s) (wk_shutting_down s) (wk_max_threads s) (wk_this_max s) (wk_started_threads s) (wk_idle_threads s) (wk_seq_head s) (wk_seq_tail s) (wk_work_items s) (wk_work_done s) (wk_taken s) (wk_ev s) (wk_needed s) (wk_threads s) (wk_freed s) (wk_owner s) (wk_submitted s) (wk_begun s) v (wk_completed s) (wk_used s) (wk_failed s) (wk_stopped s) (wk_w s).
Definition set_wk_completed {W : Type} (v : list loc) (s : work_pool W) : work_pool W :=
  mk_wp (wk_priv s) (wk_shutting_down s) (wk_max_threads s) (wk_this_max s) (wk_started_threads s) (wk_idle_threads s) (wk_seq_head s) (wk_seq_tail s) (wk_work_items s) (wk_work_done s) (wk_taken s) (wk_ev s) (wk_needed s) (wk_threads s) (wk_freed s) (wk_owner s) (wk_submitted s) (wk_begun s) (wk_running s) v (wk_used s) (wk_failed s) (wk_stopped s) (wk_w s).
Definition set_wk_used {W : Type} (v : gset loc) (s : work_pool W) : work_pool W :=
  mk_wp (wk_priv s) (wk_shutting_down s) (wk_max_threads s) (wk_this_max s) (wk_started_threads s) (wk_idle_threads s) (wk_seq_head s) (wk_seq_tail s) (wk_work_items s) (wk_work_done s) (wk_taken s) (wk_ev s) (wk_needed s) (wk_threads s) (wk_freed s) (wk_owner s) (wk_submitted s) (wk_begun s) (wk_running s) (wk_completed s) v (wk_failed s) (wk_stopped s) (wk_w s).
Definition set_wk_failed {W : Type} (v : bool) (s : work_pool W) : work_pool W :=
  mk_wp (wk_priv s) (wk_shutting_down s) (wk_max_threads s) (wk_this_max s) (wk_started_threads s) (wk_idle_threads s) (wk_seq_head s) (wk_seq_tail s) (wk_work_items s) (wk_work_done s) (wk_taken s) (wk_ev s) (wk_needed s) (wk_threads s) (wk_freed s) (wk_owner s) (wk_submitted s) (wk_begun s) (wk_running s) (wk_completed s) (wk_used s) v (wk_stopped s) (wk_w s).
Definition set_wk_stopped {W : Type} (v : list loc) (s : work_pool W) : work_pool W :=
  mk_wp (wk_priv s) (wk_shutting_down s) (wk_max_threads s) (wk_this_max s) (wk_started_threads s) (wk_idle_threads s) (wk_seq_head s) (wk_seq_tail s) (wk_work_items s) (wk_work_done s) (wk_taken s) (wk_ev s) (wk_needed s) (wk_threads s) (wk_freed s) (wk_owner s) (wk_submitted s) (wk_begun s) (wk_running s) (wk_completed s) (wk_used s) (wk_failed s) v (wk_w s).
Definition set_wk_w {W : Type} (v : W) (s : work_pool W) : work_pool W :=
  mk_wp (wk_priv s) (wk_shutting_down s) (wk_max_threads s) (wk_this_max s) (wk_started_threads s) (wk_idle_threads s) (wk_seq_head s) (wk_seq_tail s) (wk_work_items s) (wk_work_done s) (wk_taken s) (wk_ev s) (wk_needed s) (wk_threads s) (wk_freed s) (wk_owner s) (wk_submitted s) (wk_begun s) (wk_running s) (wk_completed s) (wk_used s) (wk_failed s) (wk_stopped s) v.

(** What a client calls. *)
Inductive work_call := WSubmit (i : loc) | WContinue (i : loc) | WPut.

(** [malloc] of the thread's record and [iv_thread_create]: [None] when either fails;
    the threads there have been are given. *)
Class Spawn (W : Type) := { spawn : gset loc -> W -> option loc * W }.

Section work.
Context {W : Type} `{!Spawn W}.
Abbreviation St := (work_pool W).
(** The thread that created the pool; what the client's functions call, given the
    items whose work or completion was called so far. *)
Context (owner : loc).
Context (work completion : loc -> list loc -> list work_call) (thread_start : loc -> list work_call).

Definition load_thr (t : loc) : M St work_pool_thread := m ← gets wk_threads; deref (m !! t).
Definition upd_thr (t : loc) (g : work_pool_thread -> work_pool_thread) : M St unit :=
  th ← load_thr t; modify (fun s => set_wk_threads (<[t := g th]> (wk_threads s)) s).
(** [iv_event_post] of [thr->kick], of [pool->ev] and of [pool->thread_needed]. *)
Definition post_thr_kick (t : loc) : M St unit := upd_thr t (set_th_kick true).
Definition post_ev : M St unit := modify (set_wk_ev true).
Definition post_needed : M St unit := modify (set_wk_needed true).

(** ** Worker threads

    [thread_stop] of the pool is called with [pool->lock] held, so it is the client's own
    code and no call of this library: [wk_stopped] tells when it is called. *)
Definition __iv_work_thread_die (me : loc) : M St unit :=
  th ← load_thr me;
  if th_kicked th then iv_fatal "__iv_work_thread_die: called on kicked thread"
  else
    idle ← gets wk_idle_threads;
    if bool_decide (me ∈ idle) then iv_fatal "__iv_work_thread_die: thread still on list"
    else
      modify (fun s => set_wk_threads (delete me (wk_threads s)) s);;
      modify (fun s => set_wk_started_threads (wk_started_threads s - 1) s);;
      modify (fun s => set_wk_stopped (wk_stopped s ++ [me]) s);;
      sd ← gets wk_shutting_down;
      n ← gets wk_started_threads;
      when (sd && (n =? 0)) post_ev.

(** The test of the loop; with work left, up to the unlock, otherwise to the end. *)
Definition next_work (me : loc) (last_seq : Z) (last : nat) : M St (option loc) :=
  head ← gets wk_seq_head;
  if 0 <? s32 (u32 (last_seq - head)) then
    modify (set_wk_seq_head (u32 (head + 1)));;
    items ← gets wk_work_items;
    match items with
    | [] => undef
    | i :: q =>
        modify (set_wk_work_items q);;
        modify (fun s => set_wk_running (i :: wk_running s) (set_wk_begun (wk_begun s ++ [i]) s));;
        from ← gets (length ∘ wk_begun);
        upd_thr me (set_th_pc (Some (WWork i last from)));;
        mret (Some i)
    end
  else
    tail ← gets wk_seq_tail;
    (if head =? tail then
      sd ← gets wk_shutting_down;
      if negb sd then
        modify (fun s => set_wk_idle_threads (me :: wk_idle_threads s) s);;
        upd_thr me (fun th => set_th_timer true (set_th_pc None th))
      else __iv_work_thread_die me
    else upd_thr me (set_th_pc None);; post_thr_kick me);;
    mret None.
(** From the first lock; [last_seq] and how many items there are to take. *)
Definition got_event_lock (me : loc) : M St (option loc * Z * nat * nat) :=
  upd_thr me (set_th_kicked false);;
  idle ← gets wk_idle_threads;
  when (bool_decide (me ∈ idle)) (
    modify (set_wk_idle_threads (remove me idle));;
    th ← load_thr me;
    if th_timer th then upd_thr me (set_th_timer false)
    else iv_fatal "iv_timer_unregister: called with timer not on the heap");;
  last_seq ← gets wk_seq_tail;
  last ← gets (length ∘ wk_submitted);
  items ← gets wk_work_items;
  r ← next_work me last_seq last;
  mret (r, last_seq, last, length items).
(** After the work: from the lock. *)
Definition work_done (me i : loc) (last_seq : Z) (last : nat) : M St (option loc) :=
  done ← gets wk_work_done;
  when (bool_decide (done = [])) post_ev;;
  modify (fun s => set_wk_work_done (done ++ [i]) (set_wk_running (remove i (wk_running s)) s));;
  upd_thr me (set_th_pc (Some WEvent));;
  next_work me last_seq last.

(** ** Submitting *)
Definition iv_work_start_thread : M St Z :=
  used ← gets wk_used;
  w ← gets wk_w;
  let '(r, w) := spawn used w in
  modify (set_wk_w w);;
  match r with
  | None => modify (set_wk_failed true);; mret (-1)
  | Some t =>
      modify (fun s => set_wk_threads (<[t := mk_wt false false false true None]> (wk_threads s)) s);;
      modify (set_wk_used ({[t]} ∪ used));;
      modify (fun s => set_wk_started_threads (wk_started_threads s + 1) s);;
      modify (set_wk_failed false);;
      mret 0
  end.

Definition in_flight (s : St) : list loc := wk_work_items s ++ wk_running s ++ wk_work_done s ++ wk_taken s.
(** A loop whose last sequence number is this old still tells it from newer ones. *)
Definition recent (n : nat) (th : work_pool_thread) : bool :=
  match th_pc th with Some (WWork _ last _) => Z.of_nat n - Z.of_nat last <? 2 ^ 31 | _ => true end.
(** What the client may submit: an item that is not in flight, with less than 2^31
    waiting and less than 2^31 submitted since any running loop began; from the owner, or
    from a worker's own functions. *)
Definition may_submit (me i : loc) (s : St) : bool :=
  bool_decide (i ∉ in_flight s) && (Z.of_nat (length (wk_work_items s)) + 1 <? 2 ^ 31) &&
  forallb (fun p => recent (S (length (wk_submitted s))) p.2) (map_to_list (wk_threads s)) &&
  ((bool_decide (me = owner) && wk_priv s) || bool_decide (is_Some (wk_threads s !! me ≫= th_pc))).

Definition submit_section (me i : loc) : M St unit :=
  s ← get;
  requires (may_submit me i s);;
  modify (fun s => set_wk_seq_tail (u32 (wk_seq_tail s + 1)) s);;
  modify (fun s => set_wk_submitted (wk_submitted s ++ [i]) (set_wk_work_items (wk_work_items s ++ [i]) s));;
  idle ← gets wk_idle_threads;
  match idle with
  | t :: _ => upd_thr t (set_th_kicked true);; post_thr_kick t
  | [] =>
      n ← gets wk_started_threads;
      max ← gets wk_this_max;
      when (n <? max) (
        if bool_decide (me = owner) then iv_work_start_thread;; mret tt
        else post_needed)
  end.
(** [this->priv] is read without the lock. *)
Definition read_priv : M St unit := p ← gets wk_priv; requires p.
Definition iv_work_submit_pool (me i : loc) (continuation : bool) : prog St unit :=
  act read_priv;;
  (if negb continuation && negb (bool_decide (me = owner))
   then act (iv_fatal "iv_work_submit_pool: work items can only be submitted from the owning thread")
   else act (submit_section me i)).
Definition iv_work_pool_submit_work (me i : loc) : prog St unit := iv_work_submit_pool me i false.
Definition iv_work_pool_submit_continuation (me i : loc) : prog St unit := iv_work_submit_pool me i true.

(** [iv_event_post(&thr->kick)] of every idle thread. *)
Fixpoint kick_all (l : list loc) : M St unit :=
  match l with [] => mret tt | t :: l => post_thr_kick t;; kick_all l end.
(** The owner between the unlock and the post, unless it is in a completion. *)
Definition put_pc (p : option work_pc) : option work_pc := match p with None => Some OPut | p => p end.
Definition unput_pc (p : option work_pc) : option work_pc := match p with Some OPut => None | p => p end.
(** From the lock to the unlock: was there no thread? *)
Definition put_section (me : loc) : M St bool :=
  p ← gets wk_priv;
  requires (p && bool_decide (me = owner));;
  modify (set_wk_priv false);;
  modify (set_wk_shutting_down true);;
  n ← gets wk_started_threads;
  if n =? 0 then
    modify (fun s => set_wk_owner (put_pc (wk_owner s)) s);; mret true
  else idle ← gets wk_idle_threads; kick_all idle;; mret false.
Definition put_post : M St unit :=
  post_ev;; modify (fun s => set_wk_owner (unput_pc (wk_owner s)) s).
Definition iv_work_pool_put (me : loc) : prog St unit :=
  none ← act (put_section me);
  if none : bool then act put_post else mret tt.

Definition run_work_call (me : loc) (c : work_call) : prog St unit :=
  match c with
  | WSubmit i => iv_work_pool_submit_work me i
  | WContinue i => iv_work_pool_submit_continuation me i
  | WPut => iv_work_pool_put me
  end.
Fixpoint run_work_calls (me : loc) (cs : list work_call) : prog St unit :=
  match cs with [] => mret tt | c :: cs => run_work_call me c;; run_work_calls me cs end.

(** ** The worker's functions *)
Definition work_calls (i : loc) : M St (list work_call) := l ← gets wk_begun; mret (work i l).
Fixpoint work_loop (me : loc) (fuel : nat) (last_seq : Z) (last : nat) (i : loc) : prog St unit :=
  match fuel with
  | O => act out_of_fuel
  | S fuel =>
      cs ← act (work_calls i);
      run_work_calls me cs;;
      r ← act (work_done me i last_seq last);
      match r with
      | None => mret tt
      | Some i => work_loop me fuel last_seq last i
      end
  end.
Definition iv_work_thread_got_event (me : loc) : prog St unit :=
  r ← act (got_event_lock me);
  let '(r, last_seq, last, n) := r in
  match r with
  | None => mret tt
  | Some i => work_loop me n last_seq last i
  end.
Definition idle_timeout_section (me : loc) : M St unit :=
  th ← load_thr me;
  if th_kicked th then upd_thr me (fun th => set_th_timer true (set_th_pc None th))
  else modify (fun s => set_wk_idle_threads (remove me (wk_idle_threads s)) s);; __iv_work_thread_die me.
Definition iv_work_thread_idle_timeout (me : loc) : prog St unit := act (idle_timeout_section me).

(** What the thread does: it begins ([iv_work_thread] up to [iv_main]), its event
    loop finds the kick pending, or its timer expires. *)
Definition take (me : loc) (flag : work_pool_thread -> bool) (g : work_pool_thread -> work_pool_thread) (pc : work_pc) : M St bool :=
  m ← gets wk_threads;
  match m !! me with
  | Some th => if flag th then upd_thr me (set_th_pc (Some pc) ∘ g);; mret true else mret false
  | None => mret false
  end.
Definition worker_begins (me : loc) : prog St unit :=
  b ← act (take me th_new (set_th_new false ∘ set_th_kicked false) WStart);
  if b : bool then
    run_work_calls me (thread_start me);;
    act (upd_thr me (set_th_pc None);; post_thr_kick me)
  else mret tt.
Definition worker_kicked (me : loc) : prog St unit :=
  b ← act (take me th_kick (set_th_kick false) WEvent);
  if b : bool then iv_work_thread_got_event me else mret tt.
Definition worker_timer (me : loc) : prog St unit :=
  b ← act (take me th_timer (set_th_timer false) WTimeout);
  if b : bool then iv_work_thread_idle_timeout me else mret tt.

(** ** The owner's functions *)
Definition steal_done : M St nat :=
  done ← gets wk_work_done;
  modify (set_wk_taken done);;
  modify (set_wk_work_done []);;
  modify (set_wk_owner (Some (OItems (length done))));;
  mret (length done).
Definition next_completion : M St (option (list work_call)) :=
  items ← gets wk_taken;
  match items with
  | [] => mret None
  | i :: q =>
      modify (fun s => set_wk_taken q (set_wk_owner (Some (OItems (length q))) s));;
      modify (fun s => set_wk_completed (wk_completed s ++ [i]) s);;
      l ← gets wk_completed;
      mret (Some (completion i l))
  end.
Fixpoint completions (fuel : nat) : prog St unit :=
  match fuel with
  | O => act out_of_fuel
  | S fuel =>
      r ← act next_completion;
      match r with
      | None => mret tt
      | Some cs => run_work_calls owner cs;; completions fuel
      end
  end.
Definition event_end : M St unit :=
  modify (set_wk_owner None);;
  sd ← gets wk_shutting_down;
  when sd (
    n ← gets wk_started_threads;
    done ← gets wk_work_done;
    when ((n =? 0) && bool_decide (done = [])) (
      modify (set_wk_ev false);;
      modify (set_wk_needed false);;
      modify (set_wk_freed true))).
Definition iv_work_event : prog St unit := n ← act steal_done; completions (S n);; act event_end.
Definition needed_section : M St unit :=
  modify (set_wk_owner None);;
  idle ← gets wk_idle_threads;
  n ← gets wk_started_threads;
  max ← gets wk_max_threads;
  when (bool_decide (idle = []) && (n <? max)) (iv_work_start_thread;; mret tt).
Definition iv_work_thread_needed : prog St unit := act needed_section.

Definition take_ev : M St bool :=
  b ← gets wk_ev;
  when b (modify (set_wk_ev false);; modify (set_wk_owner (Some OSteal)));; mret b.
Definition owner_ev : prog St unit := b ← act take_ev; if b : bool then iv_work_event else mret tt.
Definition take_needed : M St bool := 
  b ← gets wk_needed;
  when b (modify (set_wk_needed false);; modify (set_wk_owner (Some ONeeded)));; mret b.
Definition owner_needed : prog St unit := b ← act take_needed; if b : bool then iv_work_thread_needed else mret tt.
End work.

(** [iv_work_pool_create], when nothing failed. *)
Definition iv_work_pool_create {W} (owner : loc) (max_threads : Z) (w : W) : work_pool W :=
  mk_wp true false max_threads max_threads 0 [] 0 0 [] [] [] false false ∅ false None [] [] [] [] {[owner]} false [] w.
