(* ===== verification/WorkSpec.v ===== *)
(** * Work pools: the invariant and every action *)

From S2P Require Import Prelude Conc Work.

Local Open Scope Z_scope.

(** New threads are new. *)
Class SpawnLaws (W : Type) `{!Spawn W} : Prop := {
  law_spawn : forall used w t w', spawn used w = (Some t, w') -> t ∉ used }.

(** ** Sequence numbers *)
Lemma u32_eq a b : 0 <= a -> a <= b -> b - a < 2 ^ 31 -> (u32 a =? u32 b) = (a =? b).
Proof.
  intros Ha Hab Hd. destruct (Z.eqb_spec a b) as [->|Hne]; [by rewrite Z.eqb_refl|]. apply Z.eqb_neq. unfold u32. intros E.
  apply Hne. pose proof (Z.div_mod a (2 ^ 32) ltac:(lia)). pose proof (Z.div_mod b (2 ^ 32) ltac:(lia)). nia.
Qed.
Lemma s32_diff a b : - 2 ^ 31 < a - b < 2 ^ 31 -> s32 (u32 (u32 a - u32 b)) = a - b.
Proof.
  intros Hd. assert (u32 (u32 (u32 a - u32 b)) = (a - b) `mod` 2 ^ 32) as E.
  { unfold u32. rewrite Z.mod_mod by lia. by rewrite <-Zminus_mod. }
  unfold s32. rewrite E. destruct (Z.le_gt_cases 0 (a - b)).
  - rewrite Z.mod_small by lia. rewrite decide_True by lia. done.
  - assert ((a - b) `mod` 2 ^ 32 = a - b + 2 ^ 32) as ->.
    { symmetry. apply (Z.mod_unique _ _ (-1)); lia. }
    rewrite decide_False by lia. lia.
Qed.
Lemma u32_succ n : u32 (u32 (Z.of_nat n) + 1) = u32 (Z.of_nat (S n)).
Proof. unfold u32. rewrite Zplus_mod_idemp_l. f_equal. lia. Qed.

Section spec.
Context {W : Type} `{!Spawn W, !SpawnLaws W} (owner : loc).
Abbreviation St := (work_pool W).
Implicit Types (s : St) (t me i : loc) (th : work_pool_thread).

Definition wbreach (m : string) : Prop := m = "outside of the interface"%string \/
  m = "iv_work_submit_pool: work items can only be submitted from the owning thread"%string.

(** ** The invariant *)
Record thr_ok (idle : list loc) (sd : bool) (T H : nat) (running : list loc) t th : Prop := {
  ko_kicked : th_kicked th = true -> t ∈ idle /\ (th_kick th = true \/ th_pc th = Some WEvent);
  ko_idle : t ∈ idle -> th_new th = false /\
    (th_timer th = true /\ (th_pc th = None \/ th_pc th = Some WEvent) \/ th_timer th = false /\ th_pc th = Some WTimeout);
  ko_timer : th_timer th = true -> t ∈ idle;
  ko_busy : t ∉ idle -> th_kick th = true \/ th_new th = true \/ th_pc th <> None;
  ko_stop : sd = true -> t ∈ idle -> th_kick th = true \/ th_pc th = Some WEvent;
  ko_new : th_new th = true -> th_pc th = None /\ th_kick th = false;
  ko_pc : match th_pc th with
          | Some (WWork i last from) => i ∈ running /\ (last <= T)%nat /\ Z.of_nat T - Z.of_nat last < 2 ^ 31 /\ (from <= H)%nat
          | Some WTimeout => t ∈ idle
          | Some (OSteal | OItems _ | OPut | ONeeded) => False
          | _ => True
          end }.
Definition s_ok s t th : Prop :=
  thr_ok (wk_idle_threads s) (wk_shutting_down s) (length (wk_submitted s)) (length (wk_begun s)) (wk_running s) t th.
Definition works th i : Prop := exists last from, th_pc th = Some (WWork i last from).
Definition active s : Prop := exists t th, wk_threads s !! t = Some th /\ (t ∉ wk_idle_threads s \/ th_kicked th = true).
(** There is no thread now, and the last attempt to make one failed. *)
Definition no_threads s : Prop := wk_threads s = ∅ /\ (wk_failed s = true \/ wk_this_max s <= 0).

Record wk_inv s : Prop := {
  wi_threads : forall t th, wk_threads s !! t = Some th -> s_ok s t th /\ t <> owner /\ t ∈ wk_used s;
  wi_started : wk_started_threads s = Z.of_nat (size (wk_threads s));
  wi_idle : NoDup (wk_idle_threads s) /\ forall t, t ∈ wk_idle_threads s -> is_Some (wk_threads s !! t);
  wi_seq : wk_seq_head s = u32 (Z.of_nat (length (wk_begun s))) /\ wk_seq_tail s = u32 (Z.of_nat (length (wk_submitted s))) /\
    wk_submitted s = wk_begun s ++ wk_work_items s /\ Z.of_nat (length (wk_work_items s)) < 2 ^ 31;
  wi_flight : NoDup (in_flight s);
  wi_perm : wk_begun s ≡ₚ wk_completed s ++ wk_taken s ++ wk_work_done s ++ wk_running s;
  wi_runs : (forall i, i ∈ wk_running s -> exists t th, wk_threads s !! t = Some th /\ works th i) /\
    (forall t t' th th' i, wk_threads s !! t = Some th -> wk_threads s !! t' = Some th' -> works th i -> works th' i -> t = t');
  wi_stall : wk_work_items s <> [] -> active s \/ no_threads s;
  wi_done : wk_work_done s <> [] -> wk_ev s = true \/ wk_owner s = Some OSteal;
  wi_end : wk_shutting_down s = true -> wk_threads s = ∅ -> wk_freed s = true \/ wk_ev s = true \/ wk_owner s <> None /\ wk_owner s <> Some ONeeded;
  wi_freed : wk_freed s = true -> wk_threads s = ∅ /\ wk_ev s = false /\ wk_needed s = false /\
    wk_shutting_down s = true /\ wk_work_done s = [] /\ wk_owner s = None;
  wi_priv : wk_priv s = negb (wk_shutting_down s);
  wi_limit : wk_started_threads s <= Z.max 0 (Z.max (wk_max_threads s) (wk_this_max s));
  wi_owner : match wk_owner s with None | Some (OPut | ONeeded) => wk_taken s = [] | Some OSteal => wk_taken s = [] | Some (OItems n) => length (wk_taken s) = n | _ => False end;
  wi_used : owner ∈ wk_used s }.

Definition wk_aux s t : option work_pc := if decide (t = owner) then wk_owner s else wk_threads s !! t ≫= th_pc.
Definition stays s s' t : Prop := forall t', t' <> t -> wk_aux s' t' = wk_aux s t'.

(** ** Accesses *)
Definition put_thr t th s : St := set_wk_threads (<[t := th]> (wk_threads s)) s.
Lemma load_thr_Ok s t th : wk_threads s !! t = Some th -> load_thr t s = Ok (th, s).
Proof. intros E. unfold load_thr. msimpl. by rewrite E. Qed.
Lemma upd_thr_Ok s t th g : wk_threads s !! t = Some th -> upd_thr t g s = Ok (tt, put_thr t (g th) s).
Proof. intros E. unfold upd_thr. by rewrite (bind_Ok _ _ _ _ _ (load_thr_Ok _ _ _ E)). Qed.
Lemma put_thr_lookup t th s : wk_threads (put_thr t th s) !! t = Some th.
Proof. apply lookup_insert_eq. Qed.
Lemma put_thr_put t th th' s : put_thr t th' (put_thr t th s) = put_thr t th' s.
Proof. unfold put_thr, set_wk_threads. cbn. by rewrite insert_insert_eq. Qed.

Lemma aux_worker s t th : wk_inv s -> wk_threads s !! t = Some th -> wk_aux s t = th_pc th.
Proof.
  intros Hi Ht. unfold wk_aux. destruct (wi_threads _ Hi _ _ Ht) as (_&Hne&_). rewrite decide_False by done. by rewrite Ht.
Qed.
Lemma size_insert_same t th th' s : wk_threads s !! t = Some th -> size (<[t := th']> (wk_threads s)) = size (wk_threads s).
Proof. intros Ht. apply map_size_insert_Some. by eexists. Qed.
Lemma not_empty t th (m : gmap loc work_pool_thread) : m !! t = Some th -> m <> ∅.
Proof. intros Ht ->. by rewrite lookup_empty in Ht. Qed.

(** Another thread does not mind. *)
Lemma stays_put s t th U : wk_owner U = wk_owner s -> wk_threads U = <[t := th]> (wk_threads s) -> t <> owner -> stays s U t.
Proof.
  intros Eo Et Hne t' Ht'. unfold wk_aux. rewrite Eo, Et. by rewrite lookup_insert_ne.
Qed.
Lemma stays_delete s t U : wk_owner U = wk_owner s -> wk_threads U = delete t (wk_threads s) -> stays s U t.
Proof. intros Eo Et t' Ht'. unfold wk_aux. rewrite Eo, Et. by rewrite lookup_delete_ne. Qed.
Lemma stays_trans s s1 s2 t : stays s s1 t -> stays s1 s2 t -> stays s s2 t.
Proof. intros H1 H2 t' Hne. rewrite (H2 t' Hne). by apply H1. Qed.

(** Threads by the facts they depend on: everything may grow. *)
Lemma s_ok_grow s s' t th : s_ok s t th -> wk_idle_threads s' = wk_idle_threads s -> wk_shutting_down s' = wk_shutting_down s ->
  (length (wk_begun s) <= length (wk_begun s'))%nat -> (length (wk_submitted s) = length (wk_submitted s'))%nat ->
  (forall i, i ∈ wk_running s -> works th i -> i ∈ wk_running s') -> s_ok s' t th.
Proof.
  intros [A B C D E F G] Ei Es Hb Hs Hr. unfold s_ok. rewrite Ei, Es, <-Hs. split; try done.
  destruct (th_pc th) as [[]|] eqn:Hpc; try done. destruct G as (?&?&?&?). split_and!; [|done|done|lia].
  apply Hr; [done|]. by eexists _, _.
Qed.
(** The same for a thread when others join or leave the idle list. *)
Lemma s_ok_idle s s' t th : s_ok s t th -> (t ∈ wk_idle_threads s' <-> t ∈ wk_idle_threads s) -> wk_shutting_down s' = wk_shutting_down s ->
  wk_begun s' = wk_begun s -> wk_submitted s' = wk_submitted s -> wk_running s' = wk_running s -> s_ok s' t th.
Proof.
  intros [A B C D E F G] Hi Es Hb Hs Hr. unfold s_ok. rewrite Es, Hb, Hs, Hr. split; try done.
  - intros Hk. rewrite Hi. by apply A.
  - rewrite Hi. done.
  - intros Hk. rewrite Hi. by apply C.
  - rewrite Hi. done.
  - rewrite Hi. done.
  - destruct (th_pc th) as [[]|]; try done. by rewrite Hi.
Qed.

(** ** The end of a section of a worker: it takes an item, goes idle, dies or posts its kick *)
Definition at_event s me th : Prop := wk_inv s /\ wk_threads s !! me = Some th /\ th_pc th = Some WEvent /\ me ∉ wk_idle_threads s.

Lemma at_event_flags s me th : at_event s me th -> th_kicked th = false /\ th_timer th = false /\ th_new th = false /\ me <> owner.
Proof.
  intros (Hi&Ht&Hpc&Hn). destruct (wi_threads _ Hi _ _ Ht) as ([A B C D E F G]&Hne&_). split_and!; [| | |done].
  - destruct (th_kicked th); [|done]. destruct A as [? _]; done.
  - destruct (th_timer th); [|done]. destruct Hn. by apply C.
  - destruct (th_new th); [|done]. destruct F as [F _]; [done|]. congruence.
Qed.
Lemma not_works_event th i : th_pc th = Some WEvent -> ~ works th i.
Proof. intros Hpc (l&f&E). congruence. Qed.

(** No item is worked on by two threads, after [me] took an item that nobody worked on. *)
Definition took_item me th last i q s : St :=
  put_thr me (set_th_pc (Some (WWork i last (S (length (wk_begun s))))) th)
    (set_wk_running (i :: wk_running s) (set_wk_begun (wk_begun s ++ [i]) (set_wk_work_items q
      (set_wk_seq_head (u32 (wk_seq_head s + 1)) s)))).
Lemma took_item_inv s me th last i q : at_event s me th -> wk_work_items s = i :: q ->
  (last <= length (wk_submitted s))%nat -> Z.of_nat (length (wk_submitted s)) - Z.of_nat last < 2 ^ 31 ->
  wk_inv (took_item me th last i q s) /\ stays s (took_item me th last i q s) me.
Proof.
  intros Ha Hit Hl Hl2. pose proof (at_event_flags _ _ _ Ha) as (Hk&Htm&Hnew&Hne). destruct Ha as (Hi&Ht&Hpc&Hn).
  split; [|by eapply stays_put]. set (th' := set_th_pc (Some (WWork i last (S (length (wk_begun s))))) th).
  assert (i ∉ wk_running s) as Hir.
  { pose proof (wi_flight _ Hi) as Hf. unfold in_flight in Hf. rewrite Hit in Hf. apply NoDup_cons in Hf as [Hf _]. set_solver. }
  destruct Hi as [I1 I2 I3 (Q1&Q2&Q3&Q4) I5 I6 [R1 R2] I8 I9 I10 I11 I12 I13 I14 I15]. split; cbn; try done.
  - intros t th0. rewrite lookup_insert. case_decide as Et.
    + intros [= <-]. subst t. destruct (I1 _ _ Ht) as ([A B C D E F G]&_&Hu). split_and!; [|done|done].
      split; cbn; try (intros; first [done|congruence|by right; right]).
      split_and!; [set_solver|done|done|]. rewrite length_app. cbn. lia.
    + intros Ht0. destruct (I1 _ _ Ht0) as (Hok&?&?). split_and!; [|done|done]. eapply s_ok_grow; [exact Hok|done|done|..]; cbn.
      * rewrite length_app. lia.
      * done.
      * set_solver.
  - by rewrite (size_insert_same _ _ _ _ Ht).
  - destruct I3 as [? I3]. split; [done|]. intros t Hti. rewrite lookup_insert. case_decide; [by eexists|by apply I3].
  - rewrite Q1, Q3, Hit, length_app, u32_succ. cbn. split_and!; [f_equal; lia| |by rewrite <-app_assoc|rewrite Hit in Q4; cbn in Q4; lia].
    by rewrite Q2, Q3, Hit.
  - unfold in_flight in *. cbn. rewrite Hit in I5. cbn in I5. rewrite <-Permutation_middle. exact I5.
  - rewrite I6. rewrite <-Permutation_cons_append. rewrite !(app_assoc _ _ (i :: _)), <-!app_assoc. by rewrite !Permutation_middle.
  - split.
    + intros j [->|Hj]%elem_of_cons; [exists me, th'; split; [apply lookup_insert_eq|by eexists _, _]|].
      destruct (R1 j Hj) as (t&th0&Ht0&Hw). exists t, th0. split; [|done]. rewrite lookup_insert_ne; [done|].
      intros ->. assert (th0 = th) as -> by congruence. by apply not_works_event in Hw.
    + assert (forall t th0, wk_threads s !! t = Some th0 -> works th0 i -> False) as Hni.
      { intros t th0 Ht0 (l&f&Hw). destruct (I1 _ _ Ht0) as ([_ _ _ _ _ _ G]&_). rewrite Hw in G. by destruct G. }
      intros t t' th0 th1 j. rewrite !lookup_insert. repeat case_decide; try congruence.
      * intros [= <-] Hx (l&f&[= <- _ _]) Hw. by destruct (Hni _ _ Hx Hw).
      * intros Hx [= <-] Hw (l&f&[= <- _ _]). by destruct (Hni _ _ Hx Hw).
      * apply R2.
  - intros Hq. left. exists me, th'. split; [apply lookup_insert_eq|by left].
  - intros _ E. by apply insert_non_empty in E.
  - intros Hf. destruct (I11 Hf) as (E&_). by apply not_empty in Ht.
Qed.

(** A worker that works on nothing changes its own record. *)
Lemma put_runs s me th th' : wk_threads s !! me = Some th -> (forall i, ~ works th i) -> (forall i, ~ works th' i) ->
  (forall i, i ∈ wk_running s -> exists t th, wk_threads s !! t = Some th /\ works th i) ->
  (forall t t' th th' i, wk_threads s !! t = Some th -> wk_threads s !! t' = Some th' -> works th i -> works th' i -> t = t') ->
  (forall i, i ∈ wk_running s -> exists t th, <[me := th']> (wk_threads s) !! t = Some th /\ works th i) /\
  (forall t t' th1 th2 i, <[me := th']> (wk_threads s) !! t = Some th1 -> <[me := th']> (wk_threads s) !! t' = Some th2 ->
    works th1 i -> works th2 i -> t = t').
Proof.
  intros Ht Hn Hn' R1 R2. split.
  - intros i Hi. destruct (R1 i Hi) as (t&th0&Ht0&Hw). exists t, th0. split; [|done]. rewrite lookup_insert_ne; [done|].
    intros ->. assert (th0 = th) as -> by congruence. by apply Hn in Hw.
  - intros t t' th1 th2 i. rewrite !lookup_insert. repeat case_decide; try congruence.
    + intros [= <-] _ Hw. by apply Hn' in Hw.
    + intros _ [= <-] _ Hw. by apply Hn' in Hw.
    + apply R2.
Qed.

Definition gone_idle me th s : St :=
  put_thr me (set_th_timer true (set_th_pc None th)) (set_wk_idle_threads (me :: wk_idle_threads s) s).
Lemma gone_idle_inv s me th : at_event s me th -> wk_work_items s = [] -> wk_shutting_down s = false ->
  wk_inv (gone_idle me th s) /\ stays s (gone_idle me th s) me.
Proof.
  intros Ha Hit Hsd. pose proof (at_event_flags _ _ _ Ha) as (Hk&Htm&Hnew&Hne). destruct Ha as (Hi&Ht&Hpc&Hn).
  split; [|by eapply stays_put]. set (th' := set_th_timer true (set_th_pc None th)).
  destruct Hi as [I1 I2 I3 I4 I5 I6 [R1 R2] I8 I9 I10 I11 I12 I13 I14 I15]. split; cbn; try done.
  - intros t th0. rewrite lookup_insert. case_decide as Et.
    + intros [= <-]. subst t. destruct (I1 _ _ Ht) as ([A B C D E F G]&_&Hu). split_and!; [|done|done].
      split; cbn; try (intros; first [done|congruence]).
      * intros _. split; [done|]. left. split; [done|by left].
      * intros _. set_solver.
      * intros Hx. set_solver.
    + intros Ht0. destruct (I1 _ _ Ht0) as (Hok&?&?). split_and!; [|done|done]. eapply s_ok_idle; [exact Hok|..]; try done.
      cbn. set_solver.
  - by rewrite (size_insert_same _ _ _ _ Ht).
  - destruct I3 as [? I3]. split; [by apply NoDup_cons|]. intros t Hti. rewrite lookup_insert. case_decide; [by eexists|].
    apply I3. set_solver.
  - eapply put_runs; [exact Ht|intros i; by apply not_works_event|intros i (l&f&?); done|done|done].
  - intros _ E. by apply insert_non_empty in E.
  - intros Hf. destruct (I11 Hf) as (E&_). by apply not_empty in Ht.
Qed.

Definition kicks_itself me th s : St := put_thr me (set_th_kick true (set_th_pc None th)) s.
Lemma kicks_itself_inv s me th : at_event s me th -> wk_inv (kicks_itself me th s) /\ stays s (kicks_itself me th s) me.
Proof.
  intros Ha. pose proof (at_event_flags _ _ _ Ha) as (Hk&Htm&Hnew&Hne). destruct Ha as (Hi&Ht&Hpc&Hn).
  split; [|by eapply stays_put]. set (th' := set_th_kick true (set_th_pc None th)).
  destruct Hi as [I1 I2 I3 I4 I5 I6 [R1 R2] I8 I9 I10 I11 I12 I13 I14 I15]. split; cbn; try done.
  - intros t th0. rewrite lookup_insert. case_decide as Et.
    + intros [= <-]. subst t. destruct (I1 _ _ Ht) as ([A B C D E F G]&_&Hu). split_and!; [|done|done].
      split; cbn; try (intros; first [done|congruence|by left]).
    + intros Ht0. apply (I1 _ _ Ht0).
  - by rewrite (size_insert_same _ _ _ _ Ht).
  - destruct I3 as [? I3]. split; [done|]. intros t Hti. rewrite lookup_insert. case_decide; [by eexists|by apply I3].
  - eapply put_runs; [exact Ht|intros i; by apply not_works_event|intros i (l&f&?); done|done|done].
  - intros _. left. exists me, th'. split; [apply lookup_insert_eq|by left].
  - intros _ E. by apply insert_non_empty in E.
  - intros Hf. destruct (I11 Hf) as (E&_). by apply not_empty in Ht.
Qed.

(** [__iv_work_thread_die]: also from the idle timer, when the thread just left the list. *)
Definition died me s : St :=
  let s1 := set_wk_stopped (wk_stopped s ++ [me]) (set_wk_started_threads (wk_started_threads s - 1) (set_wk_threads (delete me (wk_threads s)) s)) in
  if wk_shutting_down s && (wk_started_threads s - 1 =? 0) then set_wk_ev true s1 else s1.
Lemma die_Ok s me th : wk_threads s !! me = Some th -> th_kicked th = false -> me ∉ wk_idle_threads s ->
  __iv_work_thread_die me s = Ok (tt, died me s).
Proof.
  intros Ht Hk Hn. unfold __iv_work_thread_die. rewrite (bind_Ok _ _ _ _ _ (load_thr_Ok _ _ _ Ht)), Hk.
  rewrite (bind_Ok _ _ _ _ _ (eq_refl : gets wk_idle_threads s = Ok (wk_idle_threads s, s))), bool_decide_false by done. unfold died. msimpl.
  by destruct (wk_shutting_down s && _).
Qed.
Lemma died_inv s me th : wk_inv s -> wk_threads s !! me = Some th -> (forall i, ~ works th i) -> me ∉ wk_idle_threads s ->
  (wk_work_items s <> [] -> exists t th, t <> me /\ wk_threads s !! t = Some th /\ (t ∉ wk_idle_threads s \/ th_kicked th = true)) ->
  wk_inv (died me s) /\ stays s (died me s) me.
Proof.
  intros Hi Ht Hw Hn Hst. split; [|apply stays_delete; unfold died; by destruct (_ && _)].
  destruct Hi as [I1 I2 [N1 N2] I4 I5 I6 [R1 R2] I8 I9 I10 I11 I12 I13 I14 I15].
  assert (wk_started_threads s - 1 = Z.of_nat (size (delete me (wk_threads s)))) as Esz.
  { rewrite I2, map_size_delete_Some by by eexists. assert (size (wk_threads s) <> 0%nat); [|lia].
    intros E%map_size_empty_inv. by apply not_empty in Ht. }
  unfold died. set (s1 := set_wk_stopped _ _).
  assert (wk_shutting_down s = true -> delete me (wk_threads s) = ∅ -> (wk_started_threads s - 1 =? 0) = true) as Hend.
  { intros _ E. apply Z.eqb_eq. rewrite Esz, E. done. }
  assert (forall b, (b = true -> wk_shutting_down s = true) -> (wk_shutting_down s = true -> delete me (wk_threads s) = ∅ -> b = true) ->
    wk_inv (if b then set_wk_ev true s1 else s1)) as H.
  { intros b Hb0 Hb. split.
    - intros t th0 Ht0. assert (wk_threads s !! t = Some th0) as H0.
      { destruct b; cbn in Ht0; by apply lookup_delete_Some in Ht0 as [_ ?]. }
      destruct (I1 _ _ H0) as (Hok&?&?). destruct b; (split_and!; [exact Hok|done|done]).
    - destruct b; exact Esz.
    - assert (forall t, t ∈ wk_idle_threads s -> is_Some (delete me (wk_threads s) !! t)) as N2'.
      { intros t Hti. rewrite lookup_delete_ne; [by apply N2|]. by intros ->. }
      destruct b; by split.
    - by destruct b.
    - by destruct b.
    - by destruct b.
    - assert ((forall i, i ∈ wk_running s -> exists t th, delete me (wk_threads s) !! t = Some th /\ works th i) /\
        (forall t t' th th' i, delete me (wk_threads s) !! t = Some th -> delete me (wk_threads s) !! t' = Some th' ->
          works th i -> works th' i -> t = t')) as HR.
      { split.
        - intros i Hi. destruct (R1 i Hi) as (t&th0&Ht0&Hwt). exists t, th0. split; [|done]. rewrite lookup_delete_ne; [done|].
          intros ->. assert (th0 = th) as -> by congruence. by apply Hw in Hwt.
        - intros t t' th1 th2 i [_ H1]%lookup_delete_Some [_ H2]%lookup_delete_Some. by apply R2. }
      by destruct b.
    - intros Hit. assert (wk_work_items s <> []) as Hit' by by destruct b.
      left. destruct (Hst Hit') as (t&th0&Hne&Ht0&Hc). exists t, th0.
      destruct b; (split; [cbn; by rewrite lookup_delete_ne|done]).
    - intros Hd. destruct b; [by left|by apply I9].
    - intros Hsd Hth. assert (b = true) as -> by (destruct b; [done|by apply Hb]). right; by left.
    - intros Hf. assert (wk_freed s = true) as Hf' by by destruct b. destruct (I11 Hf') as (E&_). by apply not_empty in Ht.
    - by destruct b.
    - destruct b; cbn; lia.
    - by destruct b.
    - by destruct b. }
  apply H.
  - by intros [? _]%andb_true_iff.
  - intros Hsd Hth. rewrite Hsd. by apply Hend.
Qed.

Lemma next_work_spec s me th last : at_event s me th -> (last <= length (wk_submitted s))%nat ->
  Z.of_nat (length (wk_submitted s)) - Z.of_nat last < 2 ^ 31 ->
  wp wbreach (next_work me (u32 (Z.of_nat last)) last) s (fun r s' => wk_inv s' /\ stays s s' me /\
    match r with
    | Some i => (length (wk_begun s) < last)%nat /\ wk_aux s' me = Some (WWork i last (S (length (wk_begun s))))
    | None => wk_aux s' me = None
    end).
Proof.
  intros Ha Hl Hl2. pose proof (at_event_flags _ _ _ Ha) as (Hk&Htm&Hnew&Hne). pose proof Ha as (Hi&Ht&Hpc&Hn).
  destruct (wi_seq _ Hi) as (Qh&Qt&Qs&Qn). assert (length (wk_submitted s) = length (wk_begun s) + length (wk_work_items s))%nat as Elen
    by (by rewrite Qs, length_app).
  unfold next_work. wprim. rewrite Qh, s32_diff by lia.
  destruct (Z.ltb_spec 0 (Z.of_nat last - Z.of_nat (length (wk_begun s)))) as [Hlt|Hge].
  - do 2 wprim. destruct (wk_work_items s) as [|i q] eqn:Hit; [cbn in Elen; lia|].
    cbn [wk_work_items set_wk_seq_head]. rewrite Hit. do 3 wprim.
    match goal with |- wp _ _ ?st _ => set (s1 := st) end.
    assert (wk_threads s1 !! me = Some th) as Ht1 by exact Ht.
    wrun (upd_thr_Ok s1 me th (set_th_pc (Some (WWork i last (length (wk_begun s1))))) Ht1). eapply wp_Ok; [reflexivity|].
    destruct (took_item_inv s me th last i q Ha Hit Hl Hl2) as [Hi' Hs'].
    assert (put_thr me (set_th_pc (Some (WWork i last (length (wk_begun s1)))) th) s1 = took_item me th last i q s) as ->.
    { unfold took_item, s1. cbn. rewrite Qh. rewrite length_app. cbn. by rewrite Nat.add_1_r. }
    split_and!; [done|done|lia|]. rewrite (aux_worker _ me _ Hi' (put_thr_lookup _ _ _)). done.
  - wprim. rewrite Qt. rewrite u32_eq by lia. destruct (Z.eqb_spec (Z.of_nat (length (wk_begun s))) (Z.of_nat (length (wk_submitted s)))) as [Eq|Hneq].
    + assert (wk_work_items s = []) as Hit by (destruct (wk_work_items s); [done|cbn in Elen; lia]).
      wbind. wprim. destruct (wk_shutting_down s) eqn:Hsd; cbn [negb].
      * eapply wp_Ok; [by apply (die_Ok s me th)|]. eapply wp_Ok; [reflexivity|].
        destruct (died_inv s me th Hi Ht) as [Hi' Hs']; [intros i; by apply not_works_event|done|by rewrite Hit|].
        split_and!; [done|done|]. unfold wk_aux. rewrite decide_False by done.
        assert (wk_threads (died me s) = delete me (wk_threads s)) as -> by (unfold died; by destruct (_ && _)).
        by rewrite lookup_delete_eq.
      * wprim. match goal with |- wp _ _ ?st _ => set (s1 := st) end.
        assert (wk_threads s1 !! me = Some th) as Ht1 by exact Ht.
        eapply wp_Ok; [exact (upd_thr_Ok s1 me th (fun th => set_th_timer true (set_th_pc None th)) Ht1)|].
        eapply wp_Ok; [reflexivity|]. destruct (gone_idle_inv s me th Ha Hit Hsd) as [Hi' Hs'].
        split_and!; [exact Hi'|exact Hs'|]. exact (aux_worker _ me _ Hi' (put_thr_lookup _ _ _)).
    + wbind. wrun (upd_thr_Ok s me th (set_th_pc None) Ht). unfold post_thr_kick.
      eapply wp_Ok; [exact (upd_thr_Ok _ me _ (set_th_kick true) (put_thr_lookup me _ s))|].
      eapply wp_Ok; [reflexivity|]. rewrite put_thr_put. destruct (kicks_itself_inv s me th Ha) as [Hi' Hs'].
      split_and!; [exact Hi'|exact Hs'|]. exact (aux_worker _ me _ Hi' (put_thr_lookup _ _ _)).
Qed.

(** The section's beginning: the thread leaves the idle list. *)
Definition off_idle me th s : St :=
  put_thr me (set_th_timer false (set_th_kicked false th)) (set_wk_idle_threads (remove me (wk_idle_threads s)) s).
Lemma remove_not_in t l : t ∉ remove t l.
Proof. rewrite elem_of_remove. by intros [? _]. Qed.
Lemma off_idle_at_event s me th : wk_inv s -> wk_threads s !! me = Some th -> th_pc th = Some WEvent ->
  at_event (off_idle me th s) me (set_th_timer false (set_th_kicked false th)) /\ stays s (off_idle me th s) me.
Proof.
  intros Hi Ht Hpc. destruct (wi_threads _ Hi _ _ Ht) as (_&Hne&_). split; [|by eapply stays_put].
  set (th' := set_th_timer false (set_th_kicked false th)). split; [|by split_and!; [apply put_thr_lookup|done|apply remove_not_in]].
  destruct Hi as [I1 I2 I3 I4 I5 I6 [R1 R2] I8 I9 I10 I11 I12 I13 I14 I15]. split; cbn; try done.
  - intros t th0. rewrite lookup_insert. case_decide as Et.
    + intros [= <-]. subst t. destruct (I1 _ _ Ht) as ([A B C D E F G]&_&Hu). split_and!; [|done|done].
      split; cbn; try (intros; first [done|congruence|by right; right]).
      * intros Hx. by apply remove_not_in in Hx.
      * intros _. right; right. congruence.
      * intros _ Hx. by apply remove_not_in in Hx.
      * exact F.
      * by rewrite Hpc.
    + intros Ht0. destruct (I1 _ _ Ht0) as (Hok&?&?). split_and!; [|done|done]. eapply s_ok_idle; [exact Hok|..]; try done.
      cbn. rewrite elem_of_remove. naive_solver.
  - by rewrite (size_insert_same _ _ _ _ Ht).
  - destruct I3 as [? I3]. split; [by apply NoDup_remove|]. intros t [? Hti]%elem_of_remove. rewrite lookup_insert_ne by done. by apply I3.
  - eapply put_runs; [exact Ht|intros i; by apply not_works_event|intros i; by apply not_works_event|done|done].
  - intros _. left. exists me, th'. split; [apply lookup_insert_eq|]. left. apply remove_not_in.
  - intros _ E. by apply insert_non_empty in E.
  - intros Hf. destruct (I11 Hf) as (E&_). by apply not_empty in Ht.
Qed.

Lemma got_event_lock_spec s me th : wk_inv s -> wk_threads s !! me = Some th -> th_pc th = Some WEvent ->
  wp wbreach (got_event_lock me) s (fun r s' => wk_inv s' /\ stays s s' me /\
    let '(r, last_seq, last, n) := r in last_seq = u32 (Z.of_nat last) /\
    match r with
    | Some i => exists from, (last <= n + pred from)%nat /\ (0 < from <= last)%nat /\ wk_aux s' me = Some (WWork i last from)
    | None => wk_aux s' me = None
    end).
Proof.
  intros Hi Ht Hpc. pose proof (off_idle_at_event s me th Hi Ht Hpc) as [Ha Hs].
  unfold got_event_lock. wrun (upd_thr_Ok s me th (set_th_kicked false) Ht). set (s1 := put_thr me _ s). wprim.
  wbind. apply (wp_mono _ _ _ (fun _ s2 => s2 = off_idle me th s)).
  { destruct (wi_threads _ Hi _ _ Ht) as ([A B C D E F G]&_&_). case_bool_decide as Hin; cbn [when].
    - wprim. match goal with |- wp _ _ ?st _ => set (s2 := st) end.
      assert (wk_threads s2 !! me = Some (set_th_kicked false th)) as H2 by apply (put_thr_lookup me).
      wrun (load_thr_Ok s2 me _ H2). assert (th_timer (set_th_kicked false th) = true) as ->.
      { destruct (B Hin) as [_ [[? _]|[_ ?]]]; [done|congruence]. }
      eapply wp_Ok; [exact (upd_thr_Ok s2 me _ (set_th_timer false) H2)|]. unfold off_idle, s2, s1, put_thr, set_wk_idle_threads, set_wk_threads.
      cbn. by rewrite insert_insert_eq.
    - eapply wp_Ok; [reflexivity|]. unfold off_idle, s1, put_thr. 
      assert (th_timer th = false) as Htm by (destruct (th_timer th); [destruct Hin; by apply C|done]).
      assert (remove me (wk_idle_threads s) = wk_idle_threads s) as -> by by apply remove_notin.
      assert (set_th_timer false (set_th_kicked false th) = set_th_kicked false th) as -> by (destruct th; cbn in *; by subst).
      by destruct s. }
  intros _ s2 ->. do 3 wprim. set (s2 := off_idle me th s) in *.
  destruct (wi_seq _ (proj1 Ha)) as (Qh&Qt&Qs&Qn). rewrite Qt.
  wbind. eapply wp_mono; [apply (next_work_spec s2 me _ (length (wk_submitted s2)) Ha); lia|].
  cbv beta. intros r s3 (Hi3&Hs3&Hr). eapply wp_Ok; [reflexivity|]. split_and!; [done|by eapply stays_trans|done|].
  destruct r as [i|]; [|done]. destruct Hr as [Hlt Haux]. exists (S (length (wk_begun s2))). split_and!; [|lia|exact Hlt|exact Haux].
  unfold compose. rewrite Qs, length_app. cbn. lia.
Qed.

(** After the work: the item is done and the thread at the end of a section. *)
Definition item_done me i th s : St :=
  put_thr me (set_th_pc (Some WEvent) th) (set_wk_work_done (wk_work_done s ++ [i]) (set_wk_running (remove i (wk_running s))
    (if bool_decide (wk_work_done s = []) then set_wk_ev true s else s))).
Lemma NoDup_perm (l l' : list loc) : l ≡ₚ l' -> NoDup l -> NoDup l'.
Proof. by intros ->. Qed.
Lemma remove_perm i l : i ∈ l -> NoDup l -> l ≡ₚ i :: remove i l.
Proof.
  intros (l1&l2&->)%list_elem_of_split Hnd. rewrite (remove_split l1 i l2 Hnd). by rewrite Permutation_middle.
Qed.
Lemma item_done_at_event s me th i last from : wk_inv s -> wk_threads s !! me = Some th -> th_pc th = Some (WWork i last from) ->
  at_event (item_done me i th s) me (set_th_pc (Some WEvent) th) /\ stays s (item_done me i th s) me.
Proof.
  intros Hi Ht Hpc. destruct (wi_threads _ Hi _ _ Ht) as ([A B C D E F G]&Hne&Hu).
  assert (me ∉ wk_idle_threads s) as Hn.
  { intros Hx. destruct (B Hx) as (_&[[_ [?|?]]|[_ ?]]); congruence. }
  split; [|apply (stays_put _ _ (set_th_pc (Some WEvent) th)); [unfold item_done; by destruct (bool_decide _)|unfold item_done; cbn; by destruct (bool_decide _)|done]].
  assert (forall b, (b = true -> wk_freed s = false) -> (wk_work_done s = [] -> b = true) ->
    at_event (put_thr me (set_th_pc (Some WEvent) th) (set_wk_work_done (wk_work_done s ++ [i]) (set_wk_running (remove i (wk_running s))
      (if b : bool then set_wk_ev true s else s)))) me (set_th_pc (Some WEvent) th)) as H.
  2:{ apply H; [|apply bool_decide_eq_true]. intros _. destruct (wk_freed s) eqn:Hf; [|done].
      destruct (wi_freed _ Hi Hf) as (Ee&_). by apply not_empty in Ht. }
  intros b Hbf Hb. split; [|split_and!; [apply put_thr_lookup|done|by destruct b]].
  rewrite Hpc in G. destruct G as (Gi&Gl&Gl2&Gf).
  destruct Hi as [I1 I2 I3 I4 I5 I6 [R1 R2] I8 I9 I10 I11 I12 I13 I14 I15].
  assert (NoDup (wk_running s)) as Hnr.
  { unfold in_flight in I5. apply NoDup_app in I5 as (_&_&I5). by apply NoDup_app in I5 as (?&_). }
  assert (wk_running s ≡ₚ i :: remove i (wk_running s)) as Hperm by by apply remove_perm.
  set (th' := set_th_pc (Some WEvent) th).
  assert (forall t th0, <[me := th']> (wk_threads s) !! t = Some th0 ->
    thr_ok (wk_idle_threads s) (wk_shutting_down s) (length (wk_submitted s)) (length (wk_begun s)) (remove i (wk_running s)) t th0 /\ t <> owner /\ t ∈ wk_used s) as HT.
  { intros t th0. rewrite lookup_insert. case_decide as Et.
    + intros [= <-]. subst t. split_and!; [|done|done]. split; cbn; try (intros; first [done|congruence|by right; right]).
      * intros Hk. destruct (A Hk) as [? _]. done.
      * exact C.
      * intros Hnew. destruct (F Hnew). congruence.
    + intros Ht0. destruct (I1 _ _ Ht0) as (Hok&?&?). split_and!; [|done|done].
      apply (s_ok_grow s (set_wk_running (remove i (wk_running s)) s) t th0); try done.
      intros j Hj Hw. cbn. rewrite elem_of_remove. split; [|done]. intros ->. destruct Et. eapply (R2 me t); [exact Ht|exact Ht0| |exact Hw].
      by eexists _, _. }
  assert ((forall j, j ∈ remove i (wk_running s) -> exists t th0, <[me := th']> (wk_threads s) !! t = Some th0 /\ works th0 j) /\
    (forall t t' th1 th2 j, <[me := th']> (wk_threads s) !! t = Some th1 -> <[me := th']> (wk_threads s) !! t' = Some th2 ->
      works th1 j -> works th2 j -> t = t')) as HR.
  { split.
    - intros j [Hji Hj]%elem_of_remove. destruct (R1 j Hj) as (t&th0&Ht0&Hw). exists t, th0. split; [|done].
      rewrite lookup_insert_ne; [done|]. intros ->. assert (th0 = th) as -> by congruence. destruct Hw as (l&f&E2). congruence.
    - intros t t' th1 th2 j. rewrite !lookup_insert. repeat case_decide; try congruence.
      + intros [= <-] _ (l&f&?). done.
      + intros _ [= <-] _ (l&f&?). done.
      + apply R2. }
  assert (NoDup (wk_work_items s ++ remove i (wk_running s) ++ (wk_work_done s ++ [i]) ++ wk_taken s)) as HF.
  { unfold in_flight in I5. rewrite Hperm in I5. revert I5. apply NoDup_perm. f_equiv. rewrite <-!app_assoc. cbn [app].
    rewrite <-(Permutation_middle (wk_work_done s)). by rewrite <-Permutation_middle. }
  assert (wk_begun s ≡ₚ wk_completed s ++ wk_taken s ++ (wk_work_done s ++ [i]) ++ remove i (wk_running s)) as HP.
  { rewrite I6. do 2 f_equiv. rewrite Hperm at 1. by rewrite <-app_assoc. }
  assert (size (<[me := th']> (wk_threads s)) = size (wk_threads s)) as Hsz by by eapply size_insert_same.
  assert (forall t, t ∈ wk_idle_threads s -> is_Some (<[me := th']> (wk_threads s) !! t)) as HI.
  { intros t Hti. rewrite lookup_insert. case_decide; [by eexists|by apply (proj2 I3)]. }
  assert (forall X : Prop, <[me := th']> (wk_threads s) = ∅ -> X) as HE by (intros X E2; by apply insert_non_empty in E2).
  destruct b; split; cbn; try done; try (by rewrite Hsz); try (split; [apply I3|done]); try (intros _; by apply HE);
    try (intros _; left; exists me, th'; split; [apply lookup_insert_eq|by left]).
  - intros _. by left.
  - intros Hf. by rewrite Hbf in Hf.
  - intros _. destruct (wk_work_done s) eqn:Ed; [by specialize (Hb eq_refl)|]. by apply I9.
  - intros Hf. destruct (I11 Hf) as (Ee&_). by apply not_empty in Ht.
Qed.

Lemma work_done_spec s me th i last from : wk_inv s -> wk_threads s !! me = Some th -> th_pc th = Some (WWork i last from) ->
  wp wbreach (work_done me i (u32 (Z.of_nat last)) last) s (fun r s' => wk_inv s' /\ stays s s' me /\
    match r with
    | Some j => exists from', (from < from' <= last)%nat /\ wk_aux s' me = Some (WWork j last from')
    | None => wk_aux s' me = None
    end).
Proof.
  intros Hi Ht Hpc. destruct (item_done_at_event s me th i last from Hi Ht Hpc) as [Ha Hs].
  destruct (wi_threads _ Hi _ _ Ht) as ([_ _ _ _ _ _ G]&_&_). rewrite Hpc in G. destruct G as (_&G1&G2&G3).
  unfold work_done. wprim. wbind. apply (wp_mono _ _ _ (fun _ s1 => s1 = if bool_decide (wk_work_done s = []) then set_wk_ev true s else s)).
  { by destruct (bool_decide _). }
  intros _ s1 ->. wprim. match goal with |- wp _ _ ?st _ => set (s2 := st) end.
  assert (wk_threads s2 !! me = Some th) as H2 by (unfold s2; cbn; by destruct (bool_decide _)).
  wrun (upd_thr_Ok s2 me th (set_th_pc (Some WEvent)) H2).
  assert (put_thr me (set_th_pc (Some WEvent) th) s2 = item_done me i th s) as ->.
  { unfold item_done, s2. by destruct (bool_decide _). }
  assert (length (wk_submitted (item_done me i th s)) = length (wk_submitted s)) as EL by (unfold item_done; cbn; by destruct (bool_decide _)).
  assert (length (wk_begun (item_done me i th s)) = length (wk_begun s)) as EB by (unfold item_done; cbn; by destruct (bool_decide _)).
  eapply wp_mono; [apply (next_work_spec _ me _ last Ha); rewrite EL; lia|]. cbv beta.
  intros r s3 (Hi3&Hs3&Hr). split_and!; [done|by eapply stays_trans|]. destruct r as [j|]; [|done].
  destruct Hr as [Hlt Haux]. rewrite EB in *. eexists. split; [|exact Haux]. lia.
Qed.

(** ** Kicking, starting threads and submitting *)
Definition same_aux s s' : Prop := forall t, wk_aux s' t = wk_aux s t.
Lemma same_stays s s' t : same_aux s s' -> stays s s' t.
Proof. intros H t' _. apply H. Qed.

Definition kick_thr (k : bool) t th s : St := put_thr t (set_th_kick true (if k then set_th_kicked true th else th)) s.
Lemma kick_inv k s t th : wk_inv s -> wk_threads s !! t = Some th -> t ∈ wk_idle_threads s ->
  wk_inv (kick_thr k t th s) /\ same_aux s (kick_thr k t th s) /\ (k = true -> active (kick_thr k t th s)).
Proof.
  intros Hi Ht Hti. unfold kick_thr. set (th' := set_th_kick true _).
  assert (th_pc th' = th_pc th) as Epc by by destruct k.
  assert (th_new th' = th_new th) as Enew by by destruct k.
  assert (th_timer th' = th_timer th) as Etm by by destruct k.
  assert (th_kick th' = true) as Ek by by destruct k.
  assert (th_kicked th' = (k || th_kicked th)) as Ekk by by destruct k.
  assert (forall i, works th' i <-> works th i) as Ew by (intros i; unfold works; by rewrite Epc).
  clearbody th'.
  destruct (wi_threads _ Hi _ _ Ht) as ([A B C D E F G]&Hne&Hu). split_and!.
  - destruct Hi as [I1 I2 I3 I4 I5 I6 [R1 R2] I8 I9 I10 I11 I12 I13 I14 I15]. split; cbn; try done.
    + intros t0 th0. rewrite lookup_insert. case_decide as Et.
      * intros [= <-]. subst t0. split_and!; [|done|done]. split; cbn; rewrite ?Epc, ?Enew, ?Etm, ?Ek; try done; try (intros; by left).
        -- intros _. split; [done|by left].
        -- intros Hn. destruct (B Hti). congruence.
      * apply I1.
    + by rewrite (size_insert_same _ _ _ _ Ht).
    + destruct I3 as [? I3]. split; [done|]. intros t0 Ht0. rewrite lookup_insert. case_decide; [by eexists|by apply I3].
    + split.
      * intros i Hir. destruct (R1 i Hir) as (t0&th0&Ht0&Hw). destruct (decide (t0 = t)) as [->|Hnt].
        -- assert (th0 = th) as -> by congruence. exists t, th'. split; [apply lookup_insert_eq|by apply Ew].
        -- exists t0, th0. by rewrite lookup_insert_ne.
      * intros t0 t1 th0 th1 i. rewrite !lookup_insert. repeat case_decide; try congruence.
        -- intros [= <-] Hx Hw Hw1. apply Ew in Hw. subst. eauto.
        -- intros Hx [= <-] Hw Hw1. apply Ew in Hw1. subst. eauto.
        -- apply R2.
    + intros Hit. destruct (I8 Hit) as [(t0&th0&Ht0&Hc)|[E0 _]]; [|by apply not_empty in Ht].
      left. destruct (decide (t0 = t)) as [->|Hnt].
      * exists t, th'. split; [apply lookup_insert_eq|]. right. assert (th0 = th) as -> by congruence. destruct Hc as [Hc|Hc]; [done|rewrite Ekk, Hc; apply orb_true_r].
      * exists t0, th0. split; [cbn; by rewrite lookup_insert_ne|done].
    + intros _ E0. by apply insert_non_empty in E0.
    + intros Hf. destruct (I11 Hf) as (E0&_). by apply not_empty in Ht.
  - intros t'. unfold wk_aux. cbn. case_decide; [done|]. rewrite lookup_insert. case_decide as Et; [|done]. subst. rewrite Ht. exact Epc.
  - intros ->. exists t, th'. split; [apply put_thr_lookup|right; by rewrite Ekk].
Qed.

Definition spawned t w s : St :=
  set_wk_failed false (set_wk_started_threads (wk_started_threads s + 1) (set_wk_used ({[t]} ∪ wk_used s)
    (set_wk_threads (<[t := mk_wt false false false true None]> (wk_threads s)) (set_wk_w w s)))).
Lemma spawned_inv s t w : wk_inv s -> t ∉ wk_used s -> wk_freed s = false ->
  wk_started_threads s + 1 <= Z.max 0 (Z.max (wk_max_threads s) (wk_this_max s)) ->
  wk_inv (spawned t w s) /\ same_aux s (spawned t w s) /\ active (spawned t w s).
Proof.
  intros Hi Hu Hf Hlim. unfold spawned. set (th' := mk_wt _ _ _ _ _).
  assert (t <> owner) as Hne by (intros ->; by apply Hu, (wi_used _ Hi)).
  assert (wk_threads s !! t = None) as Ht.
  { destruct (wk_threads s !! t) as [th|] eqn:E; [|done]. destruct (wi_threads _ Hi _ _ E) as (_&_&?). done. }
  assert (t ∉ wk_idle_threads s) as Hn.
  { intros Hx. destruct (proj2 (wi_idle _ Hi) t Hx). congruence. }
  split_and!.
  - destruct Hi as [I1 I2 I3 I4 I5 I6 [R1 R2] I8 I9 I10 I11 I12 I13 I14 I15]. split; cbn; try done.
    + intros t0 th0. rewrite lookup_insert. case_decide as Et.
      * intros [= <-]. subst t0. split_and!; [|done|set_solver]. split; cbn; try done. intros _. by right; left.
      * intros Ht0. destruct (I1 _ _ Ht0) as (?&?&?). split_and!; [done|done|set_solver].
    + rewrite map_size_insert_None by done. lia.
    + destruct I3 as [? I3]. split; [done|]. intros t0 Ht0. rewrite lookup_insert. case_decide; [by eexists|by apply I3].
    + split.
      * intros i Hir. destruct (R1 i Hir) as (t0&th0&Ht0&Hw). exists t0, th0. split; [|done]. rewrite lookup_insert_ne by congruence. done.
      * intros t0 t1 th0 th1 i. rewrite !lookup_insert. repeat case_decide; try congruence.
        -- intros [= <-] _ (l&f&?). done.
        -- intros _ [= <-] _ (l&f&?). done.
        -- apply R2.
    + intros _. left. exists t, th'. split; [apply lookup_insert_eq|by left].
    + intros _ E0. by apply insert_non_empty in E0.
    + congruence.
    + set_solver.
  - intros t'. unfold wk_aux. cbn. case_decide; [done|]. rewrite lookup_insert. case_decide as Et; [|done]. subst. by rewrite Ht.
  - exists t, th'. split; [apply lookup_insert_eq|by left].
Qed.

(** The record of everything else. *)
Lemma light_inv s s' : wk_inv s ->
  (wk_shutting_down s', wk_max_threads s', wk_this_max s', wk_started_threads s', wk_idle_threads s', wk_seq_head s', wk_seq_tail s') =
  (wk_shutting_down s, wk_max_threads s, wk_this_max s, wk_started_threads s, wk_idle_threads s, wk_seq_head s, wk_seq_tail s) ->
  (wk_priv s', wk_work_items s', wk_threads s', wk_submitted s', wk_begun s', wk_running s', wk_used s') =
  (wk_priv s, wk_work_items s, wk_threads s, wk_submitted s, wk_begun s, wk_running s, wk_used s) ->
  (wk_failed s = true -> wk_failed s' = true) ->
  NoDup (in_flight s') -> wk_begun s ≡ₚ wk_completed s' ++ wk_taken s' ++ wk_work_done s' ++ wk_running s ->
  (wk_work_done s' <> [] -> wk_ev s' = true \/ wk_owner s' = Some OSteal) ->
  (wk_shutting_down s = true -> wk_threads s = ∅ -> wk_freed s' = true \/ wk_ev s' = true \/ wk_owner s' <> None /\ wk_owner s' <> Some ONeeded) ->
  (wk_freed s' = true -> wk_threads s = ∅ /\ wk_ev s' = false /\ wk_needed s' = false /\ wk_shutting_down s = true /\ wk_work_done s' = [] /\ wk_owner s' = None) ->
  match wk_owner s' with None | Some (OPut | ONeeded) => wk_taken s' = [] | Some OSteal => wk_taken s' = [] | Some (OItems n) => length (wk_taken s') = n | _ => False end ->
  wk_inv s'.
Proof.
  intros Hi E1 E2 Hfa Hfl Hp Hd He Hf Ho. injection E1 as F1 F2 F3 F4 F5 F6 F7. injection E2 as G1 G2 G3 G4 G5 G6 G7.
  destruct Hi as [I1 I2 I3 I4 I5 I6 [R1 R2] I8 I9 I10 I11 I12 I13 I14 I15].
  split; rewrite ?F1, ?F2, ?F3, ?F4, ?F5, ?F6, ?F7, ?G1, ?G2, ?G3, ?G4, ?G5, ?G6, ?G7; try done.
  - unfold s_ok. rewrite F1, F5, G4, G5, G6. exact I1.
  - unfold active, no_threads. rewrite F3, F5, G3. intros Hit. destruct (I8 Hit) as [?|[? [?|?]]]; auto.
Qed.

Lemma light_aux s s' : wk_owner s' = wk_owner s -> wk_threads s' = wk_threads s -> same_aux s s'.
Proof. intros E1 E2 t. unfold wk_aux. by rewrite E1, E2. Qed.

Definition add_item i s : St :=
  set_wk_submitted (wk_submitted s ++ [i]) (set_wk_work_items (wk_work_items s ++ [i]) (set_wk_seq_tail (u32 (wk_seq_tail s + 1)) s)).
Lemma may_submit_recent n (m : gmap loc work_pool_thread) t th :
  forallb (fun p => recent n p.2) (map_to_list m) = true -> m !! t = Some th -> recent n th = true.
Proof.
  intros H Ht. rewrite forallb_forall in H. apply (H (t, th)). apply list_elem_of_In. by apply elem_of_map_to_list.
Qed.
Lemma add_item_inv me i s : wk_inv s -> may_submit owner me i s = true -> active s \/ no_threads s ->
  wk_inv (add_item i s) /\ same_aux s (add_item i s).
Proof.
  intros Hi Hm Hst. split; [|by apply light_aux]. unfold may_submit in Hm. apply andb_true_iff in Hm as [Hm _].
  apply andb_true_iff in Hm as [Hm Hrec]. apply andb_true_iff in Hm as [Hfl%bool_decide_eq_true Hlen%Z.ltb_lt].
  destruct Hi as [I1 I2 I3 (Q1&Q2&Q3&Q4) I5 I6 I7 I8 I9 I10 I11 I12 I13 I14 I15]. split; cbn; try done.
  - intros t th Ht. destruct (I1 _ _ Ht) as ([A B C D E F G]&?&?). split_and!; [|done|done]. split; cbn; try done.
    pose proof (may_submit_recent _ _ _ _ Hrec Ht) as Hr. unfold recent in Hr.
    destruct (th_pc th) as [[]|]; try done. destruct G as (?&?&?&?). apply Z.ltb_lt in Hr.
    rewrite length_app. cbn. split_and!; [done|lia|lia|done].
  - rewrite Q1, Q2, Q3. rewrite !length_app, u32_succ. cbn. split_and!; [done|f_equal; lia|by rewrite app_assoc|].
    rewrite Nat2Z.inj_add. cbn. lia.
  - unfold in_flight in *. cbn. rewrite <-app_assoc. cbn [app]. rewrite <-Permutation_middle. by apply NoDup_cons.
Qed.

(** The requests of [submit_section] after the item is queued, made before it. *)
Lemma start_thread_spec s (Q : Z -> St -> Prop) : (forall t w, t ∉ wk_used s -> Q 0 (spawned t w s)) ->
  (forall w, Q (-1) (set_wk_failed true (set_wk_w w s))) -> wp wbreach iv_work_start_thread s Q.
Proof.
  intros H1 H2. unfold iv_work_start_thread. do 2 wprim. destruct (spawn (wk_used s) (wk_w s)) as [[t|] w] eqn:E.
  - apply law_spawn in E. do 5 wprim. exact (H1 t w E).
  - do 2 wprim. exact (H2 w).
Qed.

Lemma failed_inv s w : wk_inv s -> wk_inv (set_wk_failed true (set_wk_w w s)).
Proof.
  intros Hi. eapply light_inv; try exact Hi; try done; destruct Hi as [I1 I2 I3 I4 I5 I6 I7 I8 I9 I10 I11 I12 I13 I14 I15]; done.
Qed.
Lemma needed_inv s b : wk_inv s -> (b = true -> wk_freed s = false) -> wk_inv (set_wk_needed b s).
Proof.
  intros Hi Hb. eapply light_inv; try exact Hi; try done; destruct Hi as [I1 I2 I3 I4 I5 I6 I7 I8 I9 I10 I11 I12 I13 I14 I15]; try done.
  cbn. intros Hf. destruct (I11 Hf) as (?&?&?&?&?&?). split_and!; try done. destruct b; [|done]. by rewrite Hb in Hf.
Qed.

Lemma not_freed s me i : wk_inv s -> may_submit owner me i s = true -> wk_freed s = false.
Proof.
  intros Hi [_ Hm]%andb_true_iff. destruct (wk_freed s) eqn:Hf; [|done]. destruct (wi_freed _ Hi Hf) as (E&_&_&Hsd&_&_).
  apply orb_true_iff in Hm as [[_ Hp]%andb_true_iff|Hm%bool_decide_eq_true].
  - by rewrite (wi_priv _ Hi), Hsd in Hp.
  - rewrite E, lookup_empty in Hm. by destruct Hm.
Qed.

Lemma submit_section_spec me i s : wk_inv s ->
  wp wbreach (submit_section owner me i) s (fun _ s' => wk_inv s' /\ same_aux s s').
Proof.
  intros Hi. unfold submit_section. wprim. wbind. apply requires_spec; [by left|]. intros Hm. do 3 wprim.
  cbn [wk_idle_threads set_wk_submitted set_wk_work_items set_wk_seq_tail].
  assert (forall s1 s2, wk_inv s1 -> same_aux s s1 -> may_submit owner me i s1 = true -> active s1 \/ no_threads s1 -> s2 = add_item i s1 ->
    wk_inv s2 /\ same_aux s s2) as Hend.
  { intros s1 s2 H1 Ha Hm1 Hst ->. destruct (add_item_inv me i s1 H1 Hm1 Hst) as [? Ha2]. split; [done|].
    intros t. by rewrite Ha2. }
  pose proof (not_freed _ _ _ Hi Hm) as Hnf.
  destruct (wk_idle_threads s) as [|t l] eqn:Hidle.
  - do 2 wprim. cbn [wk_started_threads wk_this_max set_wk_submitted set_wk_work_items set_wk_seq_tail].
    destruct (Z.ltb_spec (wk_started_threads s) (wk_this_max s)) as [Hlt|Hge]; cbn [when].
    + destruct (bool_decide (me = owner)) eqn:Eo.
      * wbind. apply start_thread_spec.
        -- intros t w Hu. cbn in Hu. destruct (spawned_inv s t w Hi Hu Hnf ltac:(lia)) as (H1&Ha1&Hac).
           eapply wp_Ok; [reflexivity|]. apply (Hend (spawned t w s) _ H1 Ha1); [|by left|done].
           unfold may_submit in *. apply andb_true_iff in Hm as [Hm Hp]. apply andb_true_iff in Hm as [Hm Hrec]. apply andb_true_iff. split.
           ++ apply andb_true_iff. split; [exact Hm|]. apply forallb_forall. intros [t' th'] Hx%list_elem_of_In%elem_of_map_to_list. cbn in Hx |- *.
              apply lookup_insert_Some in Hx as [[_ <-]|[_ Hx]]; [done|]. by eapply may_submit_recent.
           ++ apply bool_decide_eq_true in Eo. rewrite bool_decide_true by done. apply orb_true_iff. left.
              apply orb_true_iff in Hp as [Hp|Hp%bool_decide_eq_true]; [by apply andb_true_iff in Hp as [_ ?]|].
              exfalso. subst me. destruct Hp as [p Hp]. apply bind_Some in Hp as (th&Hth&_). by destruct (wi_threads _ Hi _ _ Hth) as (_&?&_).
        -- intros w. eapply wp_Ok; [reflexivity|].
           destruct (decide (wk_threads s = ∅)) as [Et|Et].
           ++ apply (Hend (set_wk_failed true (set_wk_w w s)) _ (failed_inv s w Hi)); try done. right. split; [done|by left].
           ++ apply (Hend (set_wk_failed true (set_wk_w w s)) _ (failed_inv s w Hi)); try done. left.
              apply map_choose in Et as (t&th&Ht). exists t, th. split; [done|]. left. cbn. rewrite Hidle. apply not_elem_of_nil.
      * eapply wp_Ok; [reflexivity|]. apply (Hend (set_wk_needed true s) _); try done; [by apply needed_inv|].
        left. unfold may_submit in Hm. apply andb_true_iff in Hm as [_ Hp]. rewrite Eo in Hp. cbn in Hp. apply bool_decide_eq_true in Hp as [p Hp].
        apply bind_Some in Hp as (th&Ht&_). exists me, th. split; [done|]. left. cbn. rewrite Hidle. apply not_elem_of_nil.
    + eapply wp_Ok; [reflexivity|]. apply (Hend s _ Hi); try done.
      destruct (decide (wk_threads s = ∅)) as [Et|Et].
      * right. split; [done|]. right. rewrite (wi_started _ Hi), Et in Hge. done.
      * left. apply map_choose in Et as (t&th&Ht). exists t, th. split; [done|]. left. rewrite Hidle. apply not_elem_of_nil.
  - assert (t ∈ wk_idle_threads s) as Hti by (rewrite Hidle; by left). destruct (proj2 (wi_idle _ Hi) t Hti) as [th Ht].
    match goal with |- wp _ _ ?st _ => set (s1 := st) end. assert (wk_threads s1 !! t = Some th) as Ht1 by exact Ht.
    wrun (upd_thr_Ok s1 t th (set_th_kicked true) Ht1). unfold post_thr_kick.
    eapply wp_Ok; [exact (upd_thr_Ok _ t _ (set_th_kick true) (put_thr_lookup t _ s1))|]. rewrite put_thr_put.
    destruct (kick_inv true s t th Hi Ht Hti) as (H1&Ha1&Hac).
    apply (Hend (kick_thr true t th s) _ H1 Ha1); [|left; by apply Hac|reflexivity].
    unfold may_submit in *. apply andb_true_iff in Hm as [Hm Hp]. apply andb_true_iff in Hm as [Hm Hrec]. apply andb_true_iff. split.
    + apply andb_true_iff. split; [exact Hm|]. apply forallb_forall. intros [t' th'] Hx%list_elem_of_In%elem_of_map_to_list. cbn in Hx |- *.
      apply lookup_insert_Some in Hx as [[_ <-]|[_ Hx]]; [|by eapply may_submit_recent]. exact (may_submit_recent _ _ _ _ Hrec Ht).
    + apply orb_true_iff in Hp as [Hp|Hp%bool_decide_eq_true]; apply orb_true_iff; [by left|right]. apply bool_decide_eq_true.
      cbn. rewrite lookup_insert. destruct (decide (t = me)) as [Et|Et]; [|exact Hp]. subst. rewrite Ht in Hp. exact Hp.
Qed.

(** ** Putting the pool *)
Lemma kick_all_spec l : forall s, wk_inv s -> (forall t, t ∈ l -> t ∈ wk_idle_threads s) ->
  wp wbreach (kick_all l) s (fun _ s' => wk_inv s' /\ same_aux s s' /\ wk_idle_threads s' = wk_idle_threads s /\
    wk_shutting_down s' = wk_shutting_down s /\ wk_priv s' = wk_priv s /\ dom (wk_threads s') = dom (wk_threads s) /\ wk_started_threads s' = wk_started_threads s /\
    forall t th, wk_threads s' !! t = Some th -> t ∈ l \/ (exists th0, wk_threads s !! t = Some th0 /\ (th_kick th0 = true \/ th_pc th0 = Some WEvent)) ->
      th_kick th = true \/ th_pc th = Some WEvent).
Proof.
  induction l as [|t l IH]; intros s Hi Hl.
  - cbn. split_and!; try done. intros t th Ht [?%not_elem_of_nil|(th0&Ht0&?)]; [done|]. by simplify_eq.
  - assert (t ∈ wk_idle_threads s) as Hti by (apply Hl; by left). destruct (proj2 (wi_idle _ Hi) t Hti) as [th Ht].
    cbn [kick_all]. unfold post_thr_kick. wrun (upd_thr_Ok s t th (set_th_kick true) Ht).
    destruct (kick_inv false s t th Hi Ht Hti) as (H1&Ha1&_). change (put_thr t (set_th_kick true th) s) with (kick_thr false t th s).
    eapply wp_mono; [apply (IH _ H1); intros t' Ht'; apply Hl; by right|]. cbv beta.
    intros _ s' (Hi'&Ha'&E1&E2&E2b&E3&E4&E5). split_and!; try done.
    + intros t'. by rewrite Ha'.
    + rewrite E3. cbn. apply dom_insert_lookup_L. by eexists.
    + intros t' th' Ht' Hc. apply (E5 t' th' Ht'). destruct (decide (t' = t)) as [->|Hne].
      * right. eexists. split; [apply put_thr_lookup|by left].
      * destruct Hc as [[->|?]%elem_of_cons|(th0&Ht0&?)]; [done|by left|right]. exists th0. cbn. by rewrite lookup_insert_ne.
Qed.

(** [shutting_down] may be set once every idle thread has its kick coming. *)
Lemma shutting_inv s p : wk_inv s -> wk_shutting_down s = false ->
  (forall t th, wk_threads s !! t = Some th -> t ∈ wk_idle_threads s -> th_kick th = true \/ th_pc th = Some WEvent) ->
  (wk_threads s = ∅ -> p <> None /\ p <> Some ONeeded) ->
  match p with None | Some (OPut | ONeeded) | Some OSteal => wk_taken s = [] | Some (OItems n) => length (wk_taken s) = n | _ => False end ->
  (wk_work_done s <> [] -> wk_ev s = true \/ p = Some OSteal) ->
  wk_inv (set_wk_owner p (set_wk_shutting_down true (set_wk_priv false s))).
Proof.
  intros [I1 I2 I3 I4 I5 I6 I7 I8 I9 I10 I11 I12 I13 I14 I15] Hsd Hk Hp Ho Hd. split; try done.
  - intros t th Ht. destruct (I1 _ _ Ht) as ([A B C D E F G]&?&?). split_and!; [|done|done]. split; try done.
    intros _ Hti. by apply (Hk t th).
  - intros _ E. right; right. by apply Hp.
  - intros Hf. destruct (I11 Hf) as (_&_&_&?&_). congruence.
Qed.

Lemma put_section_spec me s : wk_inv s -> wk_aux s me = None \/ (exists n, wk_aux s me = Some (OItems n)) \/ me <> owner ->
  wp wbreach (put_section owner me) s (fun none s' => wk_inv s' /\ stays s s' me /\ me = owner /\
    wk_aux s' me = (if none then put_pc (wk_aux s me) else wk_aux s me)).
Proof.
  intros Hi Haux. unfold put_section. wprim. wbind. apply requires_spec; [by left|]. intros [Hp Ho%bool_decide_eq_true]%andb_true_iff. subst me.
  assert (wk_aux s owner = wk_owner s) as Eaux by (unfold wk_aux; by rewrite decide_True).
  assert (wk_shutting_down s = false) as Hsd by (rewrite (wi_priv _ Hi) in Hp; by destruct (wk_shutting_down s)).
  do 3 wprim. set (s1 := set_wk_shutting_down true (set_wk_priv false s)). change (wk_started_threads s1) with (wk_started_threads s).
  destruct (Z.eqb_spec (wk_started_threads s) 0) as [E0|E0].
  - assert (wk_threads s = ∅) as Et.
    { rewrite (wi_started _ Hi) in E0. apply map_size_empty_inv. lia. }
    wprim. eapply wp_Ok; [reflexivity|]. change (wk_owner s1) with (wk_owner s).
    assert (wk_inv (set_wk_owner (put_pc (wk_owner s)) s1)) as Hi'.
    { apply shutting_inv; try done.
      - intros t th Ht. by rewrite Et, lookup_empty in Ht.
      - intros _. unfold put_pc. rewrite Eaux in Haux. by destruct Haux as [-> | [[n ->]|?]].
      - pose proof (wi_owner _ Hi). unfold put_pc. by destruct (wk_owner s) as [[]|].
      - intros Hd. destruct (wi_done _ Hi Hd) as [?|Hos]; [by left|right]. unfold put_pc. by rewrite Hos. }
    split_and!; [exact Hi'| |done|unfold wk_aux at 1; rewrite decide_True by done; by rewrite Eaux].
    intros t' Hne. unfold wk_aux. by rewrite !decide_False.
  - wprim. change (wk_idle_threads s1) with (wk_idle_threads s).
    assert (forall l s0, (forall t, t ∈ l -> t ∈ wk_idle_threads s0) -> wk_inv s0 ->
      wp wbreach (kick_all l) (set_wk_shutting_down true (set_wk_priv false s0)) (fun _ s' => exists s2, s' = set_wk_shutting_down true (set_wk_priv false s2) /\
        kick_all l s0 = Ok (tt, s2))) as Hcom.
    { induction l as [|t l IH]; intros s0 Hl H0; [eapply wp_Ok; [reflexivity|]; by exists s0|].
      assert (t ∈ wk_idle_threads s0) as Hti by (apply Hl; by left). destruct (proj2 (wi_idle _ H0) t Hti) as [th Ht].
      cbn [kick_all]. unfold post_thr_kick. set (s0' := set_wk_shutting_down true _).
      wrun (upd_thr_Ok s0' t th (set_th_kick true) Ht). destruct (kick_inv false s0 t th H0 Ht Hti) as (H1&_&_).
      eapply wp_mono; [apply (IH (kick_thr false t th s0)); [intros t' Ht'; apply Hl; by right|done]|]. cbv beta.
      intros _ s' (s2&->&E2). exists s2. split; [done|]. rewrite (bind_Ok _ _ _ _ _ (upd_thr_Ok s0 t th (set_th_kick true) Ht)). exact E2. }
    wbind. eapply wp_mono; [apply (Hcom _ s); [done|done]|]. cbv beta. intros _ s' (s2&->&E2). eapply wp_Ok; [reflexivity|].
    pose proof (kick_all_spec (wk_idle_threads s) s Hi ltac:(done)) as Hw. unfold wp in Hw. rewrite E2 in Hw.
    destruct Hw as (H2&Ha2&F1&F2&F3&F4&F5&F6). specialize (Ha2).
    assert (wk_owner s2 = wk_owner s) as Eo2.
    { pose proof (Ha2 owner) as X. unfold wk_aux in X. by rewrite !decide_True in X. }
    assert (wk_inv (set_wk_owner (wk_owner s2) (set_wk_shutting_down true (set_wk_priv false s2)))) as Hi'.
    { apply shutting_inv; [done|congruence|..].
      - intros t th Ht Hti. apply (F6 t th Ht). left. by rewrite <-F1.
      - intros Et. exfalso. apply E0. rewrite <-F5, (wi_started _ H2), Et. done.
      - pose proof (wi_owner _ H2). by destruct (wk_owner s2) as [[]|].
      - intros Hd. by apply (wi_done _ H2). }
    assert (set_wk_owner (wk_owner s2) (set_wk_shutting_down true (set_wk_priv false s2)) = set_wk_shutting_down true (set_wk_priv false s2)) as Eq by by destruct s2.
    rewrite Eq in Hi'. split_and!; [exact Hi'| |done|].
    + intros t' _. exact (Ha2 t').
    + exact (Ha2 owner).
Qed.
Lemma put_post_spec s : wk_inv s -> wk_owner s = Some OPut \/ (exists n, wk_owner s = Some (OItems n)) ->
  wp wbreach put_post s (fun _ s' => wk_inv s' /\ stays s s' owner /\ wk_aux s' owner = unput_pc (wk_owner s)).
Proof.
  intros Hi Ho. unfold put_post, post_ev. wprim. eapply wp_Ok; [reflexivity|]. cbn [wk_owner set_wk_ev].
  assert (wk_freed s = false) as Hf.
  { destruct (wk_freed s) eqn:Hf; [|done]. destruct (wi_freed _ Hi Hf) as (_&_&_&_&_&E). destruct Ho as [?|[??]]; congruence. }
  split_and!.
  - eapply light_inv; try exact Hi; try done; destruct Hi as [I1 I2 I3 I4 I5 I6 I7 I8 I9 I10 I11 I12 I13 I14 I15]; try done.
    + cbn. intros _. by left.
    + cbn. intros _ _. right; by left.
    + cbn. congruence.
    + cbn. destruct Ho as [Ho|[n Ho]]; rewrite Ho in *; done.
  - intros t' Hne. unfold wk_aux. by rewrite !decide_False.
  - unfold wk_aux. rewrite decide_True by done. cbn. by destruct Ho as [-> | [n ->]].
Qed.

(** ** A worker leaves its event loop, and comes back *)
Lemma own_inv s me th th' : wk_inv s -> wk_threads s !! me = Some th -> s_ok s me th' -> (forall i, ~ works th i) -> (forall i, ~ works th' i) ->
  (me ∈ wk_idle_threads s -> th_kicked th' = th_kicked th) -> wk_inv (put_thr me th' s) /\ stays s (put_thr me th' s) me.
Proof.
  intros Hi Ht Hok Hw Hw' Hk. destruct (wi_threads _ Hi _ _ Ht) as (_&Hne&Hu). split; [|by eapply stays_put].
  destruct Hi as [I1 I2 I3 I4 I5 I6 [R1 R2] I8 I9 I10 I11 I12 I13 I14 I15]. split; cbn; try done.
  - intros t th0. rewrite lookup_insert. case_decide as Et; [intros [= <-]; by subst t|apply I1].
  - by rewrite (size_insert_same _ _ _ _ Ht).
  - destruct I3 as [? I3]. split; [done|]. intros t Hti. rewrite lookup_insert. case_decide; [by eexists|by apply I3].
  - by eapply put_runs.
  - intros Hit. destruct (I8 Hit) as [(t&th0&Ht0&Hc)|[E0 _]]; [|by apply not_empty in Ht]. left.
    destruct (decide (t = me)) as [->|Hne'].
    + assert (th0 = th) as -> by congruence. exists me, th'. split; [apply lookup_insert_eq|].
      destruct (decide (me ∈ wk_idle_threads s)) as [Hin|Hn]; [|by left]. right. rewrite Hk by done. by destruct Hc.
    + exists t, th0. split; [cbn; by rewrite lookup_insert_ne|done].
  - intros _ E. by apply insert_non_empty in E.
  - intros Hf. destruct (I11 Hf) as (E&_). by apply not_empty in Ht.
Qed.
Lemma idle_works s t th i : wk_inv s -> wk_threads s !! t = Some th -> th_pc th = None -> ~ works th i.
Proof. intros _ _ E (l&f&E2). congruence. Qed.

Definition takes (flag : work_pool_thread -> bool) (g : work_pool_thread -> work_pool_thread) (pc : work_pc) : Prop :=
  forall s t th, wk_inv s -> wk_threads s !! t = Some th -> th_pc th = None -> flag th = true ->
    s_ok s t (set_th_pc (Some pc) (g th)) /\ (t ∈ wk_idle_threads s -> th_kicked (g th) = th_kicked th).
Lemma take_spec flag g pc s me : takes flag g pc -> (match pc with WStart | WEvent | WTimeout => True | _ => False end) ->
  wk_inv s -> me <> owner -> wk_aux s me = None ->
  wp wbreach (take me flag g pc) s (fun b s' => wk_inv s' /\ stays s s' me /\ wk_aux s' me = if b then Some pc else None).
Proof.
  intros Htk Hpcs Hi Hne Ha. unfold take. wprim. destruct (wk_threads s !! me) as [th|] eqn:Ht; [|by eapply wp_Ok; [reflexivity|]].
  destruct (flag th) eqn:Hf; [|by eapply wp_Ok; [reflexivity|]].
  assert (th_pc th = None) as Hpc by (rewrite <-(aux_worker s me th Hi Ht); done).
  destruct (Htk s me th Hi Ht Hpc Hf) as [Hok Hk]. wrun (upd_thr_Ok s me th (set_th_pc (Some pc) ∘ g) Ht). eapply wp_Ok; [reflexivity|].
  destruct (own_inv s me th (set_th_pc (Some pc) (g th)) Hi Ht Hok) as [Hi' Hs'].
  - intros i. by eapply idle_works.
  - intros i (l&f&[= ->]). done.
  - done.
  - split_and!; [exact Hi'|exact Hs'|]. exact (aux_worker _ me _ Hi' (put_thr_lookup _ _ _)).
Qed.
Lemma takes_new : takes th_new (set_th_new false ∘ set_th_kicked false) WStart.
Proof.
  intros s t th Hi Ht Hpc Hf. destruct (wi_threads _ Hi _ _ Ht) as ([A B C D E F G]&_).
  assert (t ∉ wk_idle_threads s) as Hn by (intros Hx; destruct (B Hx); congruence).
  split; [|done]. split; cbn; try (intros; first [done|congruence|by right; right]). intros Hx. by apply C in Hx.
Qed.
Lemma takes_kick : takes th_kick (set_th_kick false) WEvent.
Proof.
  intros s t th Hi Ht Hpc Hf. destruct (wi_threads _ Hi _ _ Ht) as ([A B C D E F G]&_).
  split; [|done]. split; cbn; try (intros; first [done|congruence|by right|by right; right]).
  - intros Hk. destruct (A Hk). split; [done|by right].
  - intros Hx. destruct (B Hx) as (?&[[? _]|[_ ?]]); [|congruence]. split; [done|]. left. split; [done|by right].
  - exact C.
  - intros Hnew. destruct (F Hnew). congruence.
Qed.
Lemma takes_timer : takes th_timer (set_th_timer false) WTimeout.
Proof.
  intros s t th Hi Ht Hpc Hf. destruct (wi_threads _ Hi _ _ Ht) as ([A B C D E F G]&_). pose proof (C Hf) as Hin.
  split; [|done]. split; cbn; try (intros; first [done|congruence|by right; right]).
  - intros Hk. destruct (A Hk) as [_ [?|?]]; [|congruence]. split; [done|by left].
  - intros _. destruct (B Hin) as (?&_). split; [done|by right].
  - intros Hsd _. destruct (E Hsd Hin); [by left|congruence].
  - intros Hnew. destruct (B Hin) as (?&_). congruence.
Qed.

Definition begin_end me : M St unit := upd_thr me (set_th_pc None);; post_thr_kick me.
Lemma begin_end_spec s me : wk_inv s -> wk_aux s me = Some WStart -> me <> owner ->
  wp wbreach (begin_end me) s (fun _ s' => wk_inv s' /\ stays s s' me /\ wk_aux s' me = None).
Proof.
  intros Hi Ha Hne. unfold wk_aux in Ha. rewrite decide_False in Ha by done. apply bind_Some in Ha as (th&Ht&Hpc).
  unfold begin_end. wrun (upd_thr_Ok s me th (set_th_pc None) Ht). unfold post_thr_kick.
  eapply wp_Ok; [exact (upd_thr_Ok _ me _ (set_th_kick true) (put_thr_lookup me _ s))|]. rewrite put_thr_put.
  destruct (wi_threads _ Hi _ _ Ht) as ([A B C D E F G]&_).
  assert (me ∉ wk_idle_threads s) as Hn by (intros Hx; destruct (B Hx) as (_&[[_ [?|?]]|[_ ?]]); congruence).
  destruct (own_inv s me th (set_th_kick true (set_th_pc None th)) Hi Ht) as [Hi' Hs'].
  - split; cbn; try (intros; first [done|congruence|by left]).
    + intros Hk. by destruct (A Hk).
    + intros Hx. by apply C in Hx.
    + intros Hnew. destruct (F Hnew). congruence.
  - intros i (l&f&?). congruence.
  - intros i (l&f&?). done.
  - done.
  - split_and!; [exact Hi'|exact Hs'|]. exact (aux_worker _ me _ Hi' (put_thr_lookup _ _ _)).
Qed.

Lemma idle_timeout_spec s me : wk_inv s -> wk_aux s me = Some WTimeout -> me <> owner ->
  wp wbreach (idle_timeout_section me) s (fun _ s' => wk_inv s' /\ stays s s' me /\ wk_aux s' me = None).
Proof.
  intros Hi Ha Hne. unfold wk_aux in Ha. rewrite decide_False in Ha by done. apply bind_Some in Ha as (th&Ht&Hpc).
  destruct (wi_threads _ Hi _ _ Ht) as ([A B C D E F G]&_&Hu). rewrite Hpc in G.
  unfold idle_timeout_section. wrun (load_thr_Ok s me th Ht). destruct (th_kicked th) eqn:Hk.
  - eapply wp_Ok; [exact (upd_thr_Ok s me th (fun th => set_th_timer true (set_th_pc None th)) Ht)|].
    destruct (own_inv s me th (set_th_timer true (set_th_pc None th)) Hi Ht) as [Hi' Hs'].
    + split; cbn; try (intros; first [done|congruence|by left]).
      * intros _. destruct (A eq_refl) as [_ [?|?]]; [|congruence]. split; [done|by left].
      * intros _. destruct (B G) as (?&_). split; [done|]. left. split; [done|by left].
      * intros Hsd _. destruct (E Hsd G); [by left|congruence].
      * intros Hnew. destruct (B G). congruence.
    + intros i (l&f&?). congruence.
    + intros i (l&f&?). done.
    + done.
    + split_and!; [exact Hi'|exact Hs'|]. exact (aux_worker _ me _ Hi' (put_thr_lookup _ _ _)).
  - wprim. set (s1 := set_wk_idle_threads _ s).
    eapply wp_Ok; [apply (die_Ok s1 me th Ht Hk), remove_not_in|].
    (* leaving the list keeps everything but this thread's own part of the invariant *)
    assert (wk_inv (set_wk_threads (<[me := set_th_pc (Some WEvent) (set_th_timer false th)]> (wk_threads s)) s1)) as Hi1.
    { destruct Hi as [I1 I2 I3 I4 I5 I6 [R1 R2] I8 I9 I10 I11 I12 I13 I14 I15]. split; cbn; try done.
      - intros t th0. rewrite lookup_insert. case_decide as Et.
        + intros [= <-]. subst t. split_and!; [|done|done]. split; cbn; try (intros; first [done|congruence|by right; right]).
          * intros Hx. by apply remove_not_in in Hx.
          * intros _ Hx. by apply remove_not_in in Hx.
          * intros Hnew. destruct (B G). congruence.
        + intros Ht0. destruct (I1 _ _ Ht0) as (Hok&?&?). split_and!; [|done|done]. eapply s_ok_idle; [exact Hok|..]; try done.
          cbn. rewrite elem_of_remove. naive_solver.
      - by rewrite (size_insert_same _ _ _ _ Ht).
      - destruct I3 as [? I3]. split; [by apply NoDup_remove|]. intros t [? Hti]%elem_of_remove. rewrite lookup_insert_ne by done. by apply I3.
      - eapply put_runs; [exact Ht|intros i (l&f&?); congruence|intros i (l&f&?); done|done|done].
      - intros _. left. eexists me, _. split; [apply lookup_insert_eq|]. left. apply remove_not_in.
      - intros _ E0. by apply insert_non_empty in E0.
      - intros Hf. destruct (I11 Hf) as (E0&_). by apply not_empty in Ht. }
    set (s2 := set_wk_threads _ s1) in Hi1.
    destruct (died_inv s2 me (set_th_pc (Some WEvent) (set_th_timer false th)) Hi1) as [Hi' _].
    + apply lookup_insert_eq.
    + intros i (l&f&?). done.
    + apply remove_not_in.
    + intros Hit. destruct (wi_stall _ Hi Hit) as [(t&th0&Ht0&Hc)|[E0 _]]; [|by apply not_empty in Ht].
      assert (t <> me) as Hnm. { intros ->. assert (th0 = th) as -> by congruence. destruct Hc; [done|congruence]. }
      exists t, th0. split_and!; [done|cbn; by rewrite lookup_insert_ne|]. destruct Hc as [Hc|Hc]; [left|by right]. cbn. rewrite elem_of_remove. tauto.
    + assert (died me s2 = died me s1) as Ed.
      { unfold died, s2. cbn. by rewrite delete_insert_eq. }
      rewrite Ed in Hi'. split_and!; [exact Hi'| |].
      * apply stays_delete; unfold died; by destruct (_ && _).
      * unfold wk_aux. rewrite decide_False by done.
        assert (wk_threads (died me s1) = delete me (wk_threads s)) as -> by (unfold died; by destruct (_ && _)). by rewrite lookup_delete_eq.
Qed.

(** ** The owner *)
Lemma owner_aux s : wk_aux s owner = wk_owner s.
Proof. unfold wk_aux. by rewrite decide_True. Qed.
Lemma owner_stays s s' : wk_threads s' = wk_threads s -> stays s s' owner.
Proof. intros E t Hne. unfold wk_aux. rewrite !decide_False by done. by rewrite E. Qed.
(** [light_inv] for the actions of the owner, with the invariant's clauses at hand. *)
Ltac light := eapply light_inv; [eassumption|reflexivity|reflexivity|done|..]; cbn;
  match goal with Hi : wk_inv _ |- _ => destruct Hi as [I1 I2 I3 I4 I5 I6 I7 I8 I9 I10 I11 I12 I13 I14 I15] end; try done.

Lemma take_ev_spec s : wk_inv s -> wk_owner s = None ->
  wp wbreach take_ev s (fun b s' => wk_inv s' /\ stays s s' owner /\ wk_aux s' owner = if b then Some OSteal else None).
Proof.
  intros Hi Ho. unfold take_ev. wprim. pose proof (wi_owner _ Hi) as Htk. rewrite Ho in Htk.
  destruct (wk_ev s) eqn:He; cbn [when].
  - wbind. do 3 (wprim || (eapply wp_Ok; [reflexivity|])). rewrite owner_aux. split_and!; [|by apply owner_stays|done].
    light.
    + by right.
    + by right; right.
    + intros Hf. destruct (I11 Hf) as (_&?&_). congruence.
  - eapply wp_Ok; [reflexivity|]. rewrite owner_aux. by split_and!.
Qed.
Lemma steal_done_spec s : wk_inv s -> wk_owner s = Some OSteal ->
  wp wbreach steal_done s (fun n s' => wk_inv s' /\ stays s s' owner /\ wk_aux s' owner = Some (OItems n)).
Proof.
  intros Hi Ho. unfold steal_done. do 4 wprim. eapply wp_Ok; [reflexivity|]. rewrite owner_aux.
  split_and!; [|by apply owner_stays|done]. pose proof (wi_owner _ Hi) as Htk. rewrite Ho in Htk. light.
  - unfold in_flight in *. cbn. rewrite Htk, app_nil_r in I5. exact I5.
  - rewrite I6, Htk. cbn. done.
  - by right; right.
  - intros Hf. destruct (I11 Hf) as (_&_&_&_&_&?). congruence.
Qed.
Lemma completion_spec compl n s : wk_inv s -> wk_owner s = Some (OItems n) ->
  wp wbreach (next_completion compl) s (fun r s' => wk_inv s' /\ stays s s' owner /\
    match r with
    | Some _ => exists n', n = S n' /\ wk_aux s' owner = Some (OItems n')
    | None => n = O /\ wk_aux s' owner = Some (OItems O)
    end).
Proof.
  intros Hi Ho. unfold next_completion. wprim. pose proof (wi_owner _ Hi) as Hn. rewrite Ho in Hn. destruct (wk_taken s) as [|i q] eqn:Htk.
  - eapply wp_Ok; [reflexivity|]. rewrite owner_aux. cbn in Hn. subst n. by split_and!.
  - do 3 wprim. eapply wp_Ok; [reflexivity|]. rewrite owner_aux. split_and!; [|by apply owner_stays|exists (length q); by split]. light.
    + unfold in_flight in *. cbn. rewrite Htk in I5. rewrite !app_assoc in I5 |- *. apply NoDup_app in I5 as (H1&H2&H3).
      apply NoDup_cons in H3 as [_ H3]. apply NoDup_app. split_and!; [done| |done]. intros x Hx. specialize (H2 x Hx). set_solver.
    + rewrite I6, Htk. rewrite <-!app_assoc. done.
    + intros Hd. destruct (I9 Hd); [by left|congruence].
    + by right; right.
    + intros Hf. destruct (I11 Hf) as (_&_&_&_&_&?). congruence.
Qed.
Lemma event_end_spec s : wk_inv s -> wk_owner s = Some (OItems O) ->
  wp wbreach event_end s (fun _ s' => wk_inv s' /\ stays s s' owner /\ wk_aux s' owner = None).
Proof.
  intros Hi Ho. pose proof (wi_owner _ Hi) as Htk. rewrite Ho in Htk. apply length_zero_iff_nil in Htk. unfold event_end. do 2 wprim. cbn [wk_shutting_down set_wk_owner].
  assert (wk_work_done s <> [] -> wk_ev s = true) as Hdone.
  { intros Hd. destruct (wi_done _ Hi Hd); [done|congruence]. }
  assert (wk_freed s = true -> False) as Hnf.
  { intros Hf. destruct (wi_freed _ Hi Hf) as (_&_&_&_&_&?). congruence. }
  destruct (wk_shutting_down s) eqn:Hsd; cbn [when].
  - do 2 wprim. cbn [wk_started_threads wk_work_done set_wk_owner].
    destruct (Z.eqb_spec (wk_started_threads s) 0) as [E0|E0]; cbn [andb].
    + assert (wk_threads s = ∅) as Et by (apply map_size_empty_inv; rewrite (wi_started _ Hi) in E0; lia).
      case_bool_decide as Hd; cbn [when].
      * do 2 wprim. eapply wp_Ok; [reflexivity|]. rewrite owner_aux. split_and!; [|by apply owner_stays|done]. light.
        -- cbn. intros _ _. by left.
      * eapply wp_Ok; [reflexivity|]. rewrite owner_aux. split_and!; [|by apply owner_stays|done]. light.
        -- intros Hd'. by left; apply Hdone.
        -- intros _ _. right; left. by apply Hdone.
    + eapply wp_Ok; [reflexivity|]. rewrite owner_aux. split_and!; [|by apply owner_stays|done]. light.
      * intros Hd'. by left; apply Hdone.
      * intros _ Et. rewrite I2, Et in E0. done.
  - eapply wp_Ok; [reflexivity|]. rewrite owner_aux. split_and!; [|by apply owner_stays|done]. light.
    + intros Hd'. by left; apply Hdone.
    + congruence.
Qed.
Lemma take_needed_spec s : wk_inv s -> wk_owner s = None ->
  wp wbreach take_needed s (fun b s' => wk_inv s' /\ stays s s' owner /\ wk_aux s' owner = if b then Some ONeeded else None).
Proof.
  intros Hi Ho. unfold take_needed. wprim. pose proof (wi_owner _ Hi) as Htk. rewrite Ho in Htk.
  destruct (wk_needed s) eqn:He; cbn [when].
  - wbind. do 3 (wprim || (eapply wp_Ok; [reflexivity|])). rewrite owner_aux. split_and!; [|by apply owner_stays|done].
    light.
    + intros Hd. destruct (I9 Hd); [by left|congruence].
    + intros Hsd Et. destruct (I10 Hsd Et) as [?|[?|[? _]]]; [by left|by right; left|done].
    + intros Hf. destruct (I11 Hf) as (_&_&?&_). congruence.
  - eapply wp_Ok; [reflexivity|]. rewrite owner_aux. by split_and!.
Qed.
Lemma needed_section_spec s : wk_inv s -> wk_owner s = Some ONeeded ->
  wp wbreach needed_section s (fun _ s' => wk_inv s' /\ stays s s' owner /\ wk_aux s' owner = None).
Proof.
  intros Hi Ho. pose proof (wi_owner _ Hi) as Htk. rewrite Ho in Htk.
  assert (wk_freed s = false) as Hnf.
  { destruct (wk_freed s) eqn:Hf; [|done]. destruct (wi_freed _ Hi Hf) as (_&_&_&_&_&?). congruence. }
  unfold needed_section. wprim. set (s1 := set_wk_owner None s).
  assert (wk_inv s1) as Hi1.
  { unfold s1. light.
    - intros Hd. destruct (I9 Hd); [by left|congruence].
    - intros Hsd Et. destruct (I10 Hsd Et) as [?|[?|[_ ?]]]; [by left|by right; left|done].
    - congruence. }
  assert (stays s s1 owner) as Hs1 by (by apply owner_stays).
  do 3 wprim. change (wk_idle_threads s1) with (wk_idle_threads s). change (wk_started_threads s1) with (wk_started_threads s).
  change (wk_max_threads s1) with (wk_max_threads s).
  case_bool_decide as Hid; cbn [andb when]; [|by eapply wp_Ok; [reflexivity|]; rewrite owner_aux].
  destruct (Z.ltb_spec (wk_started_threads s) (wk_max_threads s)); cbn [when]; [|by eapply wp_Ok; [reflexivity|]; rewrite owner_aux].
  wbind. apply start_thread_spec.
  - intros t w Hu. eapply wp_Ok; [reflexivity|]. destruct (spawned_inv s1 t w Hi1 Hu Hnf) as (?&Ha&_); [cbn; lia|].
    split_and!; [done| |by rewrite Ha, owner_aux]. eapply stays_trans; [exact Hs1|]. by apply same_stays.
  - intros w. eapply wp_Ok; [reflexivity|]. rewrite owner_aux. split_and!; [by apply failed_inv|by apply owner_stays|done].
Qed.
End spec.
