(* ===== verification/WorkProps.v ===== *)
(** * What holds in every run of a pool's owner and workers *)

From S2P Require Import Prelude Conc Work WorkSpec.

Local Open Scope Z_scope.

Section props.
Context {W : Type} `{!Spawn W, HL : !SpawnLaws W}.
Context (owner : loc).
Context (work completion : loc -> list loc -> list work_call) (thread_start : loc -> list work_call).
Abbreviation St := (work_pool W).
Implicit Types (s : St) (t me i : loc) (th : work_pool_thread).
Abbreviation wkc := (wpc (wk_inv (W := W) owner) (wk_aux owner) wbreach).

(** ** The programs, one thread at a time *)
Lemma act_wkc me {A B} (m : M St A) (k : A -> prog St B) l (R : A -> option work_pc -> Prop) Q :
  (forall s, wk_inv owner s -> wk_aux owner s me = l ->
    wp wbreach m s (fun a s' => wk_inv owner s' /\ stays owner s s' me /\ R a (wk_aux owner s' me))) ->
  (forall a l', R a l' -> wkc me (k a) l' Q) -> wkc me (a ← act m; k a) l Q.
Proof.
  intros Hm Hk. apply wpc_bind, wpc_act. intros s Hi Hl. eapply wp_mono; [by apply Hm|]. cbv beta.
  intros a s' (?&?&?). split_and!; [done|done|by apply Hk].
Qed.
Lemma last_wkc me {A} (m : M St A) l (Q : A -> option work_pc -> Prop) :
  (forall s, wk_inv owner s -> wk_aux owner s me = l ->
    wp wbreach m s (fun a s' => wk_inv owner s' /\ stays owner s s' me /\ Q a (wk_aux owner s' me))) -> wkc me (act m) l Q.
Proof. intros Hm. apply wpc_act. exact Hm. Qed.
Lemma is_worker s me pc : wk_aux owner s me = Some pc -> me <> owner -> exists th, wk_threads s !! me = Some th /\ th_pc th = Some pc.
Proof. unfold wk_aux. intros Ha Hne. rewrite decide_False in Ha by done. by apply bind_Some in Ha. Qed.

(** Who may run the client's code, and what it leaves unchanged. *)
Definition client me (l : option work_pc) : Prop := me = owner -> l = None \/ exists n, l = Some (OItems n).
Lemma submit_wkc me i c l : client me l -> wkc me (iv_work_submit_pool owner me i c) l (fun _ l' => l' = l).
Proof.
  intros Hc. unfold iv_work_submit_pool. eapply (act_wkc _ _ _ _ (fun _ l' => l' = l)).
  - intros s Hi Hl. unfold read_priv. wprim. apply requires_spec; [by left|]. intros _. by split_and!.
  - intros _ ? ->. destruct (negb c && negb _); apply last_wkc; intros s Hi Hl; [by right|].
    eapply wp_mono; [by apply submit_section_spec|]. cbv beta. intros _ s' [? Ha]. split_and!; [done|by apply same_stays|by rewrite Ha].
Qed.
Lemma put_wkc me l : client me l -> wkc me (iv_work_pool_put owner me) l (fun _ l' => l' = l).
Proof.
  intros Hc. unfold iv_work_pool_put. eapply (act_wkc _ _ _ _ (fun (none : bool) l' => me = owner /\ l' = if none then put_pc l else l)).
  - intros s Hi Hl. eapply wp_mono; [apply put_section_spec; [done|]|].
    + rewrite Hl. destruct (decide (me = owner)) as [E|?]; [|by right; right]. destruct (Hc E) as [?|?]; [by left|by right; left].
    + cbv beta. rewrite Hl. intros none s' (?&?&?&?). by split_and!.
  - intros [] l' [-> ->]; [|done]. apply last_wkc. intros s Hi Hl. rewrite owner_aux in Hl.
    assert (unput_pc (wk_owner s) = l) as Hu by (rewrite Hl; by destruct (Hc eq_refl) as [-> | [? ->]]).
    eapply wp_mono; [apply put_post_spec; [done|]|].
    + rewrite Hl. destruct (Hc eq_refl) as [-> | [n ->]]; [by left|right; by exists n].
    + cbv beta. intros _ s' (?&?&->). by split_and!.
Qed.
Lemma calls_wkc me cs l : client me l -> wkc me (run_work_calls owner me cs) l (fun _ l' => l' = l).
Proof.
  intros Hc. induction cs as [|c cs IH]; [done|]. cbn [run_work_calls]. apply wpc_bind.
  apply (wpc_mono _ _ _ _ _ _ (fun _ l' => l' = l)); [|by intros _ ? ->]. destruct c; cbn [run_work_call]; [by apply submit_wkc|by apply submit_wkc|by apply put_wkc].
Qed.
Lemma worker_client me l : me <> owner -> client me l.
Proof. by intros Hne ?. Qed.

(** ** The worker's functions *)
Lemma work_loop_wkc me last : me <> owner -> forall fuel i from, (last <= fuel + pred from)%nat -> (0 < from <= last)%nat ->
  wkc me (work_loop owner work me fuel (u32 (Z.of_nat last)) last i) (Some (WWork i last from)) (fun _ l => l = None).
Proof.
  intros Hne. induction fuel as [|fuel IH]; intros i from Hf Hl; [lia|]. cbn [work_loop].
  eapply (act_wkc _ _ _ _ (fun _ l => l = Some (WWork i last from))).
  { intros s Hi Hs. unfold work_calls. wprim. eapply wp_Ok; [reflexivity|]. by split_and!. }
  intros cs ? ->. apply wpc_bind. eapply wpc_mono; [by apply calls_wkc, worker_client|]. intros _ ? ->.
  eapply (act_wkc _ _ _ _ (fun r l => match r with
    | Some j => exists from', (from < from' <= last)%nat /\ l = Some (WWork j last from') | None => l = None end)).
  { intros s Hi Hs. destruct (is_worker _ _ _ Hs Hne) as (th&Ht&Hpc). by eapply work_done_spec. }
  intros [j|] l Hr; [|done]. destruct Hr as (from'&Hf'&->). apply IH; lia.
Qed.
Lemma got_event_wkc me : me <> owner -> wkc me (iv_work_thread_got_event owner work me) (Some WEvent) (fun _ l => l = None).
Proof.
  intros Hne. unfold iv_work_thread_got_event. eapply (act_wkc _ _ _ _ (fun r l => let '(r, last_seq, last, n) := r in
    last_seq = u32 (Z.of_nat last) /\ match r with
    | Some i => exists from, (last <= n + pred from)%nat /\ (0 < from <= last)%nat /\ l = Some (WWork i last from)
    | None => l = None end)).
  - intros s Hi Hs. destruct (is_worker _ _ _ Hs Hne) as (th&Ht&Hpc).
    eapply wp_mono; [by eapply got_event_lock_spec|]. cbv beta. intros [[[r ls] last] n] s' (?&?&?&Hr). split_and!; try done.
  - intros [[[[i|] ls] last] n] l [-> Hr]; [|done]. destruct Hr as (from&?&?&->). by eapply work_loop_wkc.
Qed.
Lemma taken_wkc me flag g pc (p : prog St unit) : takes (W := W) owner flag g pc ->
  (match pc with WStart | WEvent | WTimeout => True | _ => False end) -> me <> owner ->
  wkc me p (Some pc) (fun _ l => l = None) ->
  wkc me (b ← act (take me flag g pc); if b : bool then p else mret tt) None (fun _ l => l = None).
Proof.
  intros Htk Hpc Hne Hp. eapply (act_wkc _ _ _ _ (fun (b : bool) l => l = if b then Some pc else None)).
  - intros s Hi Hs. by apply take_spec.
  - by intros [] ? ->.
Qed.
Lemma worker_begins_wkc me : me <> owner -> wkc me (worker_begins owner thread_start me) None (fun _ l => l = None).
Proof.
  intros Hne. apply taken_wkc; [apply takes_new|done|done|]. apply wpc_bind.
  eapply wpc_mono; [by apply calls_wkc, worker_client|]. intros _ ? ->. apply last_wkc. intros s Hi Hs. by apply begin_end_spec.
Qed.
Lemma worker_kicked_wkc me : me <> owner -> wkc me (worker_kicked owner work me) None (fun _ l => l = None).
Proof. intros Hne. apply taken_wkc; [apply takes_kick|done|done|by apply got_event_wkc]. Qed.
Lemma worker_timer_wkc me : me <> owner -> wkc me (worker_timer me) None (fun _ l => l = None).
Proof.
  intros Hne. apply taken_wkc; [apply takes_timer|done|done|]. apply last_wkc. intros s Hi Hs. by apply idle_timeout_spec.
Qed.

(** ** The owner's functions *)
Lemma completions_wkc : forall fuel n, (n < fuel)%nat ->
  wkc owner (completions owner completion fuel) (Some (OItems n)) (fun _ l => l = Some (OItems O)).
Proof.
  induction fuel as [|fuel IH]; intros n Hf; [lia|]. cbn [completions].
  eapply (act_wkc _ _ _ _ (fun r l => match r with
    | Some _ => exists n', n = S n' /\ l = Some (OItems n') | None => l = Some (OItems O) end)).
  - intros s Hi Hs. rewrite owner_aux in Hs. eapply wp_mono; [by apply completion_spec|]. cbv beta.
    intros [cs|] s' (?&?&Hr); split_and!; try done. by destruct Hr.
  - intros [cs|] l Hr; [|done]. destruct Hr as (n'&->&->). apply wpc_bind.
    eapply wpc_mono; [apply calls_wkc; intros _; right; by eexists|]. intros _ ? ->. apply IH. lia.
Qed.
Lemma owner_ev_wkc : wkc owner (owner_ev owner completion) None (fun _ l => l = None).
Proof.
  unfold owner_ev. eapply (act_wkc _ _ _ _ (fun (b : bool) l => l = if b then Some OSteal else None)).
  { intros s Hi Hs. rewrite owner_aux in Hs. by apply take_ev_spec. }
  intros [] ? ->; [|done]. unfold iv_work_event. eapply (act_wkc _ _ _ _ (fun n l => l = Some (OItems n))).
  { intros s Hi Hs. rewrite owner_aux in Hs. by apply steal_done_spec. }
  intros n ? ->. apply wpc_bind. eapply wpc_mono; [apply completions_wkc; lia|]. intros _ ? ->. apply last_wkc.
  intros s Hi Hs. rewrite owner_aux in Hs. by apply event_end_spec.
Qed.
Lemma owner_needed_wkc : wkc owner owner_needed None (fun _ l => l = None).
Proof.
  unfold owner_needed. eapply (act_wkc _ _ _ _ (fun (b : bool) l => l = if b then Some ONeeded else None)).
  { intros s Hi Hs. rewrite owner_aux in Hs. by apply take_needed_spec. }
  intros [] ? ->; [|done]. apply last_wkc. intros s Hi Hs. rewrite owner_aux in Hs. by apply needed_section_spec.
Qed.

(** ** Every interleaving *)

(** What a thread's event loop begins: the owner's handlers and the client's own
    calls in the owner, a worker's handlers in a worker. *)
Inductive work_start := OwnerEvent | OwnerNeeded | OwnerCalls (cs : list work_call) | WorkerBegins | WorkerKicked | WorkerTimer.
Definition work_begin t (b : work_start) : option (prog St unit) :=
  if decide (t = owner) then
    match b with
    | OwnerEvent => Some (owner_ev owner completion)
    | OwnerNeeded => Some owner_needed
    | OwnerCalls cs => Some (run_work_calls owner owner cs)
    | _ => None
    end
  else
    match b with
    | WorkerBegins => Some (worker_begins owner thread_start t)
    | WorkerKicked => Some (worker_kicked owner work t)
    | WorkerTimer => Some (worker_timer t)
    | _ => None
    end.
Definition work_may_start t (p : prog St unit) : Prop := exists b, work_begin t b = Some p.
(** A new pool, and the threads that there may be. *)
Definition work_boot (ts : gset loc) (max : Z) (w : W) : config :=
  (iv_work_pool_create owner max w, gset_to_gmap (Ret tt) ({[owner]} ∪ ts)).
Definition work_reachable (c : config) : Prop := exists ts max w, steps work_may_start (work_boot ts max w) c.

Lemma create_inv max (w : W) : wk_inv owner (iv_work_pool_create owner max w).
Proof.
  split; cbn; try done.
  - split; [constructor|]. by intros t ?%not_elem_of_nil.
  - constructor.
  - split; [by intros i ?%not_elem_of_nil|done].
  - lia.
  - set_solver.
Qed.
Lemma work_boot_ok ts max w : config_ok (wk_inv owner) (wk_aux owner) None wbreach (work_boot ts max w).
Proof.
  split; [apply create_inv|]. intros t p [_ <-]%lookup_gset_to_gmap_Some. cbn. unfold wk_aux. cbn. by case_decide.
Qed.
Lemma work_start_ok t p : work_may_start t p -> wkc t p None (fun _ l => l = None).
Proof.
  intros [b Hb]. unfold work_begin in Hb. case_decide as Ht.
  - subst t. destruct b as [| |cs| | |]; simplify_eq; [apply owner_ev_wkc|apply owner_needed_wkc|].
    apply calls_wkc. intros _. by left.
  - destruct b; simplify_eq; [by apply worker_begins_wkc|by apply worker_kicked_wkc|by apply worker_timer_wkc].
Qed.
Lemma work_reachable_ok c : work_reachable c -> config_ok (wk_inv owner) (wk_aux owner) None wbreach c.
Proof. intros (ts&max&w&Hs). eapply steps_ok; [exact work_start_ok|apply work_boot_ok|exact Hs]. Qed.
(** Nothing is left to do, in any thread: no program is under way and no event is
    pending (timers may be registered). *)
Record at_rest (c : St * gmap loc (prog St unit)) : Prop := {
  ar_done : forall t p, c.2 !! t = Some p -> p = Ret tt;
  ar_all : forall t th, wk_threads c.1 !! t = Some th -> is_Some (c.2 !! t);
  ar_owner : is_Some (c.2 !! owner);
  ar_events : wk_ev c.1 = false /\ wk_needed c.1 = false;
  ar_kicks : forall t th, wk_threads c.1 !! t = Some th -> th_kick th = false /\ th_new th = false }.
Lemma at_rest_idle c : config_ok (wk_inv owner) (wk_aux owner) None wbreach c -> at_rest c ->
  wk_owner c.1 = None /\ forall t th, wk_threads c.1 !! t = Some th -> th_pc th = None /\ t ∈ wk_idle_threads c.1 /\ th_kicked th = false.
Proof.
  intros [Hi Ht] [A B C D E].
  assert (forall t, is_Some (c.2 !! t) -> wk_aux owner c.1 t = None) as Hidle.
  { intros t [p Hp]. pose proof (Ht t p Hp) as H. by rewrite (A t p Hp) in H. }
  split; [by rewrite <-(owner_aux owner c.1); apply Hidle|]. intros t th Hth.
  assert (th_pc th = None) as Hpc by (rewrite <-(aux_worker _ _ _ _ Hi Hth); eapply Hidle, B, Hth).
  destruct (wi_threads _ _ Hi _ _ Hth) as ([K1 K2 K3 K4 K5 K6 K7]&_). destruct (E _ _ Hth) as [E1 E2]. split_and!; [done| |].
  - destruct (decide (t ∈ wk_idle_threads c.1)) as [?|Hn]; [done|]. destruct (K4 Hn) as [?|[?|?]]; congruence.
  - destruct (th_kicked th) eqn:Hk; [|done]. destruct K1 as [_ [?|?]]; congruence.
Qed.
Lemma at_rest_running c : config_ok (wk_inv owner) (wk_aux owner) None wbreach c -> at_rest c -> wk_running c.1 = [].
Proof.
  intros Hok Hr. destruct (at_rest_idle _ Hok Hr) as [_ Hidle]. destruct (wk_running c.1) as [|i l] eqn:E; [done|].
  destruct (proj1 (wi_runs _ _ (co_inv _ _ _ _ _ Hok)) i) as (t&th&Hth&last&from&Hw); [rewrite E; by left|].
  destruct (Hidle _ _ Hth). congruence.
Qed.

(** C3. Every item that was submitted is, however the threads interleave, at exactly one
    place: its work is called once, in the order of submission, in one thread; then
    its completion is called once; and an item is handed out again only afterwards. *)
Theorem iv_work_exactly_once s pool : work_reachable (s, pool) ->
  wk_submitted s = wk_begun s ++ wk_work_items s /\
  wk_begun s ≡ₚ wk_completed s ++ wk_taken s ++ wk_work_done s ++ wk_running s /\
  NoDup (in_flight s) /\
  (forall i, i ∈ wk_running s -> exists t, t <> owner /\ forall t', t = t' <-> exists th, wk_threads s !! t' = Some th /\ works th i).
Proof.
  intros Hr. pose proof (co_inv _ _ _ _ _ (work_reachable_ok _ Hr)) as Hi. cbn in Hi.
  destruct (wi_seq _ _ Hi) as (_&_&?&_). destruct (wi_runs _ _ Hi) as [R1 R2].
  split_and!; [done|apply (wi_perm _ _ Hi)|apply (wi_flight _ _ Hi)|].
  intros i Hin. destruct (R1 i Hin) as (t&th&Hth&Hw). exists t. split; [apply (wi_threads _ _ Hi _ _ Hth)|]. intros t'. split.
  - intros <-. by exists th.
  - intros (th'&Hth'&Hw'). by eapply R2.
Qed.

(** C5. No work is forgotten: when every thread has come to rest, the work and the
    completion of every submitted item have been called -- unless there is no thread
    now, and the last attempt to make one failed or the pool may have none. *)
Theorem iv_work_no_stall s pool : work_reachable (s, pool) -> at_rest (s, pool) ->
  wk_submitted s ≡ₚ wk_completed s \/
  wk_threads s = ∅ /\ (wk_failed s = true \/ wk_this_max s <= 0) /\ wk_begun s ≡ₚ wk_completed s.
Proof.
  intros Hr Hrest. pose proof (work_reachable_ok _ Hr) as Hok. pose proof (co_inv _ _ _ _ _ Hok) as Hi.
  destruct (at_rest_idle _ Hok Hrest) as [Ho Hidle]. pose proof (at_rest_running _ Hok Hrest) as Hrun. cbn in *.
  pose proof (wi_owner _ _ Hi) as Htk. rewrite Ho in Htk.
  assert (wk_work_done s = []) as Hd.
  { destruct (wk_work_done s) eqn:E; [done|]. destruct (ar_events _ Hrest) as [He _]. cbn in He.
    destruct (wi_done _ _ Hi); [by rewrite E|congruence..]. }
  assert (wk_begun s ≡ₚ wk_completed s) as Hb.
  { pose proof (wi_perm _ _ Hi) as Hp. by rewrite Hrun, Hd, Htk, !app_nil_r in Hp. }
  destruct (wi_seq _ _ Hi) as (_&_&Hs&_). destruct (wk_work_items s) as [|i q] eqn:E.
  - left. by rewrite Hs, app_nil_r.
  - right. destruct (wi_stall _ _ Hi) as [(t&th&Hth&Hc)|[? ?]]; [by rewrite E| |done].
    destruct (Hidle _ _ Hth) as (_&?&?). destruct Hc; [done|congruence].
Qed.

(** C6. After [iv_work_pool_put] the pool is taken down, once: when every thread has come
    to rest there are no workers and the pool is freed; and it is never freed while a
    worker, a pending event or an uncalled completion could still use it. *)
Theorem iv_work_pool_shutdown s pool : work_reachable (s, pool) ->
  (wk_shutting_down s = true -> at_rest (s, pool) -> wk_freed s = true) /\
  (wk_freed s = true -> wk_priv s = false /\ wk_threads s = ∅ /\ wk_ev s = false /\ wk_needed s = false /\
    wk_begun s ≡ₚ wk_completed s).
Proof.
  intros Hr. pose proof (work_reachable_ok _ Hr) as Hok. pose proof (co_inv _ _ _ _ _ Hok) as Hi. cbn in Hi. split.
  - intros Hsd Hrest. destruct (at_rest_idle _ Hok Hrest) as [Ho Hidle]. cbn in *. destruct (ar_events _ Hrest) as [He _]. cbn in He.
    destruct (wi_end _ _ Hi Hsd) as [?|[?|[? _]]]; [|done|congruence|congruence]. apply map_empty. intros t.
    destruct (wk_threads s !! t) as [th|] eqn:Hth; [|done]. destruct (Hidle _ _ Hth) as (Hpc&Hin&_).
    destruct (ar_kicks _ Hrest _ _ Hth) as [Hk _]. destruct (wi_threads _ _ Hi _ _ Hth) as ([K1 K2 K3 K4 K5 K6 K7]&_).
    destruct (K5 Hsd Hin); congruence.
  - intros Hf. destruct (wi_freed _ _ Hi Hf) as (Et&He&Hn&Hsd&Hd&Ho). pose proof (wi_owner _ _ Hi) as Htk. rewrite Ho in Htk.
    split_and!; try done; [by rewrite (wi_priv _ _ Hi), Hsd|]. pose proof (wi_perm _ _ Hi) as Hp. rewrite Hd, Htk in Hp.
    destruct (wk_running s) as [|i l] eqn:E; [by rewrite !app_nil_r in Hp|].
    destruct (proj1 (wi_runs _ _ Hi) i) as (t&th&Hth&_); [rewrite E; by left|]. by rewrite Et, lookup_empty in Hth.
Qed.

(** C25. No thread ever does anything undefined, aborts, or runs out of the items it
    counted on, whatever the others do, as long as the client keeps to the interface. *)
Theorem iv_work_pool_safe s pool t B (m : M St B) k : work_reachable (s, pool) -> pool !! t = Some (Act m k) ->
  wp wbreach m s (fun _ _ => True).
Proof. intros Hr Hp. exact (config_safe _ _ _ _ (s, pool) t B m k (work_reachable_ok _ Hr) Hp). Qed.

(** There are never more threads than [max_threads], [started_threads] counts them, and
    threads that wait for work all have their idle timer running. *)
Theorem iv_work_thread_limit s pool : work_reachable (s, pool) ->
  wk_started_threads s = Z.of_nat (size (wk_threads s)) /\
  wk_started_threads s <= Z.max 0 (Z.max (wk_max_threads s) (wk_this_max s)) /\
  forall t, t ∈ wk_idle_threads s -> exists th, wk_threads s !! t = Some th /\ (th_timer th = true \/ th_pc th = Some WTimeout).
Proof.
  intros Hr. pose proof (co_inv _ _ _ _ _ (work_reachable_ok _ Hr)) as Hi. cbn in Hi.
  split_and!; [apply (wi_started _ _ Hi)|apply (wi_limit _ _ Hi)|]. intros t Hin.
  destruct (proj2 (wi_idle _ _ Hi) t Hin) as [th Hth]. exists th. split; [done|].
  destruct (wi_threads _ _ Hi _ _ Hth) as ([K1 K2 K3 K4 K5 K6 K7]&_). destruct (K2 Hin) as (_&[[? _]|[_ ?]]); auto.
Qed.
End props.

(** The work a loop takes is counted by comparing sequence numbers: a loop that is more
    than 2^31 items behind, because as many were submitted and begun while it ran one,
    takes an item from the empty list. *)
Theorem iv_work_seq_overflow {W} (s : work_pool W) me last_seq last d :
  0 <= last_seq < 2 ^ 32 -> 2 ^ 31 < d < 2 ^ 32 -> wk_seq_head s = u32 (last_seq + d) -> wk_work_items s = [] ->
  next_work me last_seq last s = Undef.
Proof.
  intros Hl Hd Hh Hit. unfold next_work, gets, mbind, M_bind. rewrite Hh.
  assert (s32 (u32 (last_seq - u32 (last_seq + d))) = 2 ^ 32 - d) as ->.
  { unfold u32. rewrite Zminus_mod_idemp_r. replace (last_seq - (last_seq + d)) with ((2 ^ 32 - d) + -1 * 2 ^ 32) by lia.
    rewrite Z_mod_plus_full, Z.mod_small by lia. unfold s32, u32. rewrite Z.mod_small by lia. by rewrite decide_True by lia. }
  rewrite (proj2 (Z.ltb_lt _ _)) by lia. cbn. by rewrite Hit.
Qed.

(** ** A pool with one worker

    Threads can be made with the numbers of a list that are still unused. *)
#[local] Instance list_spawn : Spawn (list loc) := {
  spawn used ids := (head (filter (fun t => t ∉ used) ids), ids) }.
#[local] Instance list_spawn_laws : SpawnLaws (list loc).
Proof.
  split. intros used w t w' [= E <-]. destruct (filter _ w) as [|x l] eqn:Ef; [done|]. injection E as ->.
  assert (t ∈ filter (fun t => t ∉ used) w) as Hin by (rewrite Ef; by left). by apply list_elem_of_filter in Hin as [? _].
Qed.

(** The work of item 10 submits item 12. *)
Definition demo_work (i : loc) (begun : list loc) : list work_call := if decide (i = 10%positive) then [WContinue 12%positive] else [].
Definition no_calls (i : loc) (l : list loc) : list work_call := [].
Definition demo_begin := work_begin (W := list loc) 1 demo_work no_calls (fun _ => []).
Fixpoint go (t : loc) (n : nat) : list (choice work_start) := match n with O => [] | S n => Go t :: go t n end.
(** The owner submits 10 and 11; worker 2 begins, runs 10 and is running 11. *)
Definition demo_first : list (choice work_start) :=
  [Begin 1 (OwnerCalls [WSubmit 10; WSubmit 11])]%positive ++ go 1 4 ++ [Begin 2 WorkerBegins]%positive ++ go 2 2 ++
  [Begin 2 WorkerKicked]%positive ++ go 2 6.
(** It ends with 12 left, so kicks itself, and runs it; the owner calls the completions. *)
Definition demo_rest : list (choice work_start) :=
  go 2 2 ++ [Begin 2 WorkerKicked]%positive ++ go 2 4 ++ [Begin 1 OwnerEvent]%positive ++ go 1 7.
(** The owner puts the pool, the worker ends, the owner frees it. *)
Definition demo_put : list (choice work_start) :=
  [Begin 1 (OwnerCalls [WPut])]%positive ++ go 1 1 ++ [Begin 2 WorkerKicked]%positive ++ go 2 2 ++ [Begin 1 OwnerEvent]%positive ++ go 1 4.
Definition demo_pool cs := sched_from demo_begin cs (work_boot 1 {[2%positive]} 1 [2%positive]).
Lemma demo_pool_reachable cs : work_reachable 1 demo_work no_calls (fun _ => []) ((demo_pool cs).1, (demo_pool cs).2).
Proof. rewrite <-surjective_pairing. exists {[2%positive]}, 1, [2%positive]. apply sched_steps. Qed.
Lemma demo_pool_rest cs : wk_threads (demo_pool cs).1 = ∅ \/ (exists th, wk_threads (demo_pool cs).1 = {[2%positive := th]} /\ th_kick th = false /\ th_new th = false) ->
  map_to_list (demo_pool cs).2 = [(2%positive, Ret tt); (1%positive, Ret tt)] ->
  wk_ev (demo_pool cs).1 = false -> wk_needed (demo_pool cs).1 = false -> at_rest 1 ((demo_pool cs).1, (demo_pool cs).2).
Proof.
  intros Hthr Hp He Hn.
  assert (forall t p, (demo_pool cs).2 !! t = Some p <-> (t, p) ∈ [(2%positive, Ret tt); (1%positive, Ret tt)]) as Hlk.
  { intros t p. rewrite <-Hp. by rewrite elem_of_map_to_list. }
  assert (forall t th, wk_threads (demo_pool cs).1 !! t = Some th -> t = 2%positive /\ th_kick th = false /\ th_new th = false) as Hth.
  { intros t th Ht. destruct Hthr as [E|(th0&E&?&?)]; rewrite E in Ht; [by rewrite lookup_empty in Ht|].
    apply lookup_singleton_Some in Ht as [<- <-]. done. }
  split; cbn [fst snd].
  - intros t p Ht. apply Hlk in Ht. set_solver.
  - intros t th Ht. destruct (Hth _ _ Ht) as [-> _]. exists (Ret tt). apply Hlk. by left.
  - exists (Ret tt). apply Hlk. by right; left.
  - done.
  - intros t th Ht. by destruct (Hth _ _ Ht).
Qed.

Lemma iv_work_exactly_once_witness : let s := (demo_pool demo_first).1 in
  wk_running s = [11%positive] /\ wk_submitted s = [10; 11; 12]%positive /\ wk_submitted s = wk_begun s ++ wk_work_items s.
Proof.
  split; [by vm_compute|]. split; [by vm_compute|].
  exact (proj1 (iv_work_exactly_once 1 demo_work no_calls (fun _ => []) _ _ (demo_pool_reachable demo_first))).
Defined.
Lemma iv_work_no_stall_witness : let s := (demo_pool (demo_first ++ demo_rest)).1 in
  wk_submitted s = [10; 11; 12]%positive /\
  (wk_submitted s ≡ₚ wk_completed s \/ wk_threads s = ∅ /\ (wk_failed s = true \/ wk_this_max s <= 0) /\ wk_begun s ≡ₚ wk_completed s).
Proof.
  split; [by vm_compute|].
  refine (iv_work_no_stall 1 demo_work no_calls (fun _ => []) _ _ (demo_pool_reachable (demo_first ++ demo_rest)) _).
  apply demo_pool_rest; [|by vm_compute..]. right. eexists. split; [by vm_compute|done].
Defined.
Lemma iv_work_pool_shutdown_witness : let s := (demo_pool (demo_first ++ demo_rest ++ demo_put)).1 in wk_freed s = true /\ wk_begun s ≡ₚ wk_completed s.
Proof.
  pose proof (iv_work_pool_shutdown 1 demo_work no_calls (fun _ => []) _ _ (demo_pool_reachable (demo_first ++ demo_rest ++ demo_put))) as [H1 H2].
  intros s. assert (wk_freed s = true) as Hf.
  { apply H1; [by vm_compute|]. apply demo_pool_rest; [|by vm_compute..]. left. by vm_compute. }
  split; [exact Hf|by apply H2].
Defined.
Lemma iv_work_pool_safe_witness : exists B (m : M (work_pool (list loc)) B) k,
  (demo_pool demo_first).2 !! 2%positive = Some (Act m k) /\ wp wbreach m (demo_pool demo_first).1 (fun _ _ => True).
Proof.
  assert (match (demo_pool demo_first).2 !! 2%positive with Some (Act _ _) => true | _ => false end = true) as Hb by (by vm_compute).
  destruct ((demo_pool demo_first).2 !! 2%positive) as [[a|B m k]|] eqn:E; [discriminate Hb| |discriminate Hb].
  exists B, m, k. split; [reflexivity|].
  exact (iv_work_pool_safe 1 demo_work no_calls (fun _ => []) (demo_pool demo_first).1 (demo_pool demo_first).2 2 B m k (demo_pool_reachable demo_first) E).
Defined.
Definition far_behind : work_pool unit := set_wk_seq_head 2147483653 (iv_work_pool_create 1 1 tt).
Lemma iv_work_seq_overflow_witness : next_work 2 4 4 far_behind = Undef.
Proof. apply (iv_work_seq_overflow far_behind 2 4 4 2147483649); [lia|lia|by vm_compute|done]. Defined.

(** What was submitted is lost when no thread could be made for it: [iv_work_pool_put]
    and then the owner's event loop free the pool with the items still in it, their
    work and completions never called. *)
Theorem iv_work_put_loses_items {W} `{!Spawn W} owner completion (s : work_pool W) :
  wk_priv s = true -> wk_started_threads s = 0 -> wk_work_done s = [] -> wk_owner s = None ->
  exists s', exec (iv_work_pool_put owner owner;; owner_ev owner completion) s = Ok (tt, s') /\
    wk_freed s' = true /\ wk_work_items s' = wk_work_items s /\ wk_begun s' = wk_begun s /\ wk_completed s' = wk_completed s.
Proof.
  intros Hp Hn Hd Ho. set (s1 := set_wk_owner (Some OPut) (set_wk_shutting_down true (set_wk_priv false s))).
  set (s2 := set_wk_owner None (set_wk_ev true s1)).
  assert (exec (iv_work_pool_put owner owner) s = Ok (tt, s2)) as E1.
  { unfold iv_work_pool_put. rewrite (exec_bind _ _ s true s1); [reflexivity|]. cbn [exec act].
    unfold put_section, gets, mbind, M_bind. rewrite Hp, bool_decide_true by done. cbn. rewrite Hn. cbn. by rewrite Ho. }
  set (s3 := set_wk_owner (Some OSteal) (set_wk_ev false s2)).
  set (s4 := set_wk_owner (Some (OItems 0)) (set_wk_work_done [] (set_wk_taken [] s3))).
  exists (set_wk_freed true (set_wk_needed false (set_wk_ev false (set_wk_owner None s4)))). split; [|by split_and!].
  rewrite (exec_bind _ _ _ _ _ E1). unfold owner_ev. rewrite (exec_bind _ _ s2 true s3) by reflexivity.
  unfold iv_work_event. rewrite (exec_bind _ _ s3 0%nat s4); [|cbn [exec act]; unfold steal_done, gets, modify, mbind, M_bind; change (wk_work_done s3) with (wk_work_done s); by rewrite Hd].
  rewrite (exec_bind _ _ s4 tt s4) by reflexivity. cbn [exec act]. unfold event_end, gets, modify, mbind, M_bind. cbn.
  by rewrite Hn.
Qed.
Definition no_thread_pool : work_pool (list loc) :=
  (sched_from (work_begin (W := list loc) 1 demo_work no_calls (fun _ => [])) (Begin 1%positive (OwnerCalls [WSubmit 10%positive]) :: go 1 2) (work_boot 1 {[2%positive]} 1 [])).1.
Lemma iv_work_put_loses_items_witness : wk_work_items no_thread_pool = [10%positive] /\
  exists s', exec (iv_work_pool_put 1 1;; owner_ev 1 no_calls) no_thread_pool = Ok (tt, s') /\ wk_freed s' = true /\ wk_work_items s' = [10%positive].
Proof.
  split; [by vm_compute|].
  destruct (iv_work_put_loses_items 1 no_calls no_thread_pool) as (s'&E&Hf&Hi&_); [by vm_compute..|].
  exists s'. split_and!; [exact E|exact Hf|]. rewrite Hi. by vm_compute.
Defined.
