(* ===== verification/WorkLocal.v ===== *)
(** * Work items without a pool (iv_work.c)

    Items submitted with a NULL pool run in the submitting thread, from a task.  Of
    Task.v the code needs what Task.v shows: a registered task's handler is called once,
    after it was taken off; registering it twice aborts. *)

From S2P Require Import Prelude.

Local Open Scope Z_scope.

(** What was called: an item's work or its completion. *)
Inductive local_event := LWork (i : loc) | LCompletion (i : loc).
#[global] Instance local_event_eq : EqDecision local_event.
Proof. solve_decision. Defined.

(** [struct iv_work_thr_info], its task being registered; the list [items] on the
    stack of [iv_work_handle_local]; for the proofs, the items submitted and what was
    called. *)
Record iv_work_thr_info := mk_wti {
  wti_task : bool; wti_work_items : list loc; wti_stolen : list loc; wti_submitted : list loc; wti_called : list local_event }.

Definition iv_work_tls_init_thread : M iv_work_thr_info unit := fun s =>
  Ok (tt, mk_wti false [] (wti_stolen s) (wti_submitted s) (wti_called s)).

Definition register_task : M iv_work_thr_info unit := fun s =>
  if wti_task s then Fatal "iv_task_register: called with task still on a list"
  else Ok (tt, mk_wti true (wti_work_items s) (wti_stolen s) (wti_submitted s) (wti_called s)).
(** An item that waits must not be submitted again. *)
Definition iv_work_submit_local (i : loc) : M iv_work_thr_info unit :=
  s ← get;
  requires (bool_decide (i ∉ wti_stolen s ++ wti_work_items s));;
  when (bool_decide (wti_work_items s = [])) register_task;;
  modify (fun s => mk_wti (wti_task s) (wti_work_items s ++ [i]) (wti_stolen s) (wti_submitted s ++ [i]) (wti_called s)).

Section local.
(** The items that the function called last submits, given what was called. *)
Context (submits : list local_event -> list loc).

Fixpoint submit_all (l : list loc) : M iv_work_thr_info unit :=
  match l with [] => mret tt | i :: l => iv_work_submit_local i;; submit_all l end.
Definition call_local (e : local_event) : M iv_work_thr_info unit :=
  modify (fun s => mk_wti (wti_task s) (wti_work_items s) (wti_stolen s) (wti_submitted s) (wti_called s ++ [e]));;
  l ← gets wti_called; submit_all (submits l).
Fixpoint handle_loop (fuel : nat) : M iv_work_thr_info unit :=
  match fuel with
  | O => out_of_fuel
  | S fuel =>
      items ← gets wti_stolen;
      match items with
      | [] => mret tt
      | i :: q =>
          modify (fun s => mk_wti (wti_task s) (wti_work_items s) q (wti_submitted s) (wti_called s));;
          call_local (LWork i);;
          call_local (LCompletion i);;
          handle_loop fuel
      end
  end.
Definition iv_work_handle_local : M iv_work_thr_info unit :=
  modify (fun s => mk_wti (wti_task s) [] (wti_work_items s) (wti_submitted s) (wti_called s));;
  items ← gets wti_stolen;
  handle_loop (S (length items)).
(** The event loop runs the task, if it is registered. *)
Definition run_local_task : M iv_work_thr_info unit :=
  b ← gets wti_task;
  when b (
    modify (fun s => mk_wti false (wti_work_items s) (wti_stolen s) (wti_submitted s) (wti_called s));;
    iv_work_handle_local).

(** The task is registered exactly while items wait for it. *)
Definition finished (l : list local_event) : list loc := omap (fun e => match e with LCompletion i => Some i | _ => None end) l.
Lemma finished_app l l' : finished (l ++ l') = finished l ++ finished l'.
Proof. apply omap_app. Qed.
Record local_ok (extra : list loc) (s : iv_work_thr_info) : Prop := {
  lo_task : wti_task s = true <-> wti_work_items s <> [];
  lo_split : wti_submitted s = finished (wti_called s) ++ extra ++ wti_stolen s ++ wti_work_items s;
  lo_dup : NoDup (wti_stolen s ++ wti_work_items s) }.
Definition local_breach (m : string) : Prop := m = "outside of the interface"%string.
(** Nothing but the queue grows. *)
Record submits_only (s s' : iv_work_thr_info) : Prop := {
  so_stolen : wti_stolen s' = wti_stolen s;
  so_called : wti_called s' = wti_called s;
  so_queue : exists l, wti_work_items s' = wti_work_items s ++ l }.

Lemma submit_local_spec extra i s : local_ok extra s -> wp local_breach (iv_work_submit_local i) s (fun _ s' => local_ok extra s' /\ submits_only s s').
Proof.
  intros [A B C]. unfold iv_work_submit_local. wprim. wbind. apply requires_spec; [done|]. intros Hin%bool_decide_eq_true.
  assert (forall b, (b = true <-> wti_work_items s ++ [i] <> []) ->
    let s' := mk_wti b (wti_work_items s ++ [i]) (wti_stolen s) (wti_submitted s ++ [i]) (wti_called s) in local_ok extra s' /\ submits_only s s') as Hend.
  { intros b Hb. split; split; cbn; try done; [by rewrite B, !app_assoc| |by eexists].
    rewrite app_assoc. apply NoDup_app. split_and!; [done| |apply NoDup_singleton]. intros x Hx ->%list_elem_of_singleton. done. }
  case_bool_decide as He; cbn [when].
  - wbind. eapply wp_Ok; [unfold register_task; destruct (wti_task s) eqn:Et; [by destruct (proj1 A eq_refl)|reflexivity]|].
    eapply wp_Ok; [reflexivity|]. apply Hend. split; [|done]. intros _ E. by destruct (wti_work_items s).
  - wprim. eapply wp_Ok; [reflexivity|]. apply Hend. split; [intros _ E; by destruct (wti_work_items s)|]. intros _. by apply A.
Qed.
Lemma submit_all_spec extra l : forall s, local_ok extra s -> wp local_breach (submit_all l) s (fun _ s' => local_ok extra s' /\ submits_only s s').
Proof.
  induction l as [|i l IH]; intros s Hs; [eapply wp_Ok; [reflexivity|]; split; [done|]; split; [done..|]; exists []; by rewrite app_nil_r|].
  cbn [submit_all]. wbind. eapply wp_mono; [by apply submit_local_spec|]. cbv beta. intros _ s1 (H1&[E1 E2 [l1 E3]]).
  eapply wp_mono; [by apply IH|]. cbv beta. intros _ s2 (H2&[F1 F2 [l2 F3]]). split; [done|]. split; [congruence..|].
  exists (l1 ++ l2). by rewrite F3, E3, app_assoc.
Qed.
Lemma call_local_spec extra extra' e s : local_ok extra s -> extra = finished [e] ++ extra' ->
  wp local_breach (call_local e) s (fun _ s' => local_ok extra' s' /\ wti_stolen s' = wti_stolen s /\ wti_called s' = wti_called s ++ [e] /\
    exists l, wti_work_items s' = wti_work_items s ++ l).
Proof.
  intros [A B C] ->. unfold call_local. do 2 wprim. eapply wp_mono; [apply (submit_all_spec extra')|].
  - split; [exact A| |exact C]. cbn [wti_submitted wti_called wti_stolen wti_work_items]. by rewrite finished_app, B, <-!app_assoc.
  - cbv beta. intros _ s' (H&[E1 E2 E3]). by split_and!.
Qed.
Lemma handle_loop_spec : forall fuel s, local_ok [] s -> (length (wti_stolen s) < fuel)%nat ->
  wp local_breach (handle_loop fuel) s (fun _ s' => local_ok [] s' /\ wti_stolen s' = [] /\
    wti_called s' = wti_called s ++ (wti_stolen s ≫= fun i => [LWork i; LCompletion i]) /\ exists l, wti_work_items s' = wti_work_items s ++ l).
Proof.
  induction fuel as [|fuel IH]; intros s Hs Hf; [lia|]. cbn [handle_loop]. wprim. destruct (wti_stolen s) as [|i q] eqn:Eq.
  { eapply wp_Ok; [reflexivity|]. split_and!; [done|done|by rewrite app_nil_r|]. exists []. by rewrite app_nil_r. }
  wprim. destruct Hs as [A B C]. rewrite Eq in *.
  wbind. eapply wp_mono; [apply (call_local_spec [i] [i] (LWork i))|]; [|done|].
  { split; [exact A|by rewrite B|]. cbn [app] in C. by apply NoDup_cons in C as [_ C]. }
  cbv beta. intros _ s1 (H1&E1&E2&l1&E3). wbind. eapply wp_mono; [by apply (call_local_spec [i] [] (LCompletion i))|].
  cbv beta. intros _ s2 (H2&F1&F2&l2&F3). cbn in E1, E2, E3. eapply wp_mono; [apply IH; [done|]|].
  { rewrite F1, E1. cbn in Hf. lia. }
  cbv beta. intros _ s3 (H3&G1&G2&l3&G3). split_and!; [done|done| |].
  - rewrite G2, F2, F1, E2, E1. cbn. by rewrite <-!app_assoc.
  - exists (l1 ++ l2 ++ l3). by rewrite G3, F3, E3, <-!app_assoc.
Qed.

(** C28. The task of a thread runs the work and then the completion of every item
    submitted before it began, in order; it ends, whatever those functions submit, and
    what they submit waits for the task to run again, which it will. *)
Theorem iv_work_local_in_order s : local_ok [] s -> wti_task s = true -> wti_stolen s = [] ->
  wp local_breach run_local_task s (fun _ s' => local_ok [] s' /\ wti_stolen s' = [] /\
    wti_called s' = wti_called s ++ (wti_work_items s ≫= fun i => [LWork i; LCompletion i]) /\
    wti_submitted s' = finished (wti_called s') ++ wti_work_items s' /\ (wti_work_items s' <> [] -> wti_task s' = true)).
Proof.
  intros [A B C] Ht Hst. unfold run_local_task. wprim. rewrite Ht. cbn [when]. wprim. unfold iv_work_handle_local. do 2 wprim.
  eapply wp_mono; [apply handle_loop_spec; [|cbn; lia]|].
  - rewrite Hst in *. split; cbn; [done|by rewrite B, app_nil_r|by rewrite app_nil_r].
  - cbv beta. cbn. intros _ s' (Hs'&E1&E2&E3). split_and!; [done|done|done| |by apply (lo_task _ _ Hs')].
    pose proof (lo_split _ _ Hs') as Hsp. by rewrite E1 in Hsp.
Qed.
End local.

(** The work of item 1 submits item 3. *)
Definition demo_submits (l : list local_event) : list loc :=
  match l with [LWork 1%positive] => [3%positive] | _ => [] end.
Definition demo_local : iv_work_thr_info := mk_wti true [1; 2]%positive [] [1; 2]%positive [].
Lemma iv_work_local_in_order_witness : wp local_breach (run_local_task demo_submits) demo_local (fun _ s' =>
  wti_called s' = [LWork 1; LCompletion 1; LWork 2; LCompletion 2]%positive /\ (wti_work_items s' <> [] -> wti_task s' = true)).
Proof.
  eapply wp_mono; [apply (iv_work_local_in_order demo_submits demo_local)|]; [|done|done|].
  - split; [done|done|]. cbn. by apply (bool_decide_unpack _); vm_compute.
  - cbv beta. intros _ s' (_&_&E&_&?). by split.
Defined.
Example demo_local_runs : submit_all [1; 2]%positive (mk_wti false [] [] [] []) = Ok (tt, demo_local) /\
  run_local_task demo_submits demo_local = Ok (tt, mk_wti true [3%positive] [] [1; 2; 3]%positive [LWork 1; LCompletion 1; LWork 2; LCompletion 2]%positive).
Proof. by vm_compute. Qed.
