(* ===== verification/AvlSearch.v ===== *)
(** * Searches in AVL trees (iv_signal.c, iv_wait.c, iv_fd_dev_poll.c, iv_inotify.c)

    Signal interests are sorted by signal number, then exclusive ones first, then by
    address; wait interests by process, the objects of the /dev/poll method and inotify
    watches by descriptor.  The searches walk the nodes of Avl.v; here each is shown to
    find what it looks for in the sorted sequence, and a tree sorted by a number to be a
    finite map. *)

From S2P Require Import Prelude Avl AvlPath AvlSpec.

Local Open Scope Z_scope.

(** [flags & IV_SIGNAL_FLAG_EXCLUSIVE], [flags & IV_SIGNAL_FLAG_THIS_THREAD] *)
Definition exclusive (flags : Z) : bool := Z.testbit flags 0.
Definition this_thread (flags : Z) : bool := Z.testbit flags 1.

Section signals.
(** [signum] and [flags] of an interest. *)
Context (signum_of flags_of : loc -> Z).

Definition iv_signal_compare (a b : loc) : Z :=
  if signum_of a <? signum_of b then -1
  else if signum_of b <? signum_of a then 1
  else if exclusive (flags_of a) && negb (exclusive (flags_of b)) then -1
  else if negb (exclusive (flags_of a)) && exclusive (flags_of b) then 1
  else if (a <? b)%positive then -1
  else if (b <? a)%positive then 1
  else 0.

Fixpoint find_first_loop (fuel : nat) (signum : Z) (iter best : ptr) : M iv_avl_tree ptr :=
  match fuel with
  | O => out_of_fuel
  | S fuel =>
      match iter with
      | None => mret best
      | Some i =>
          let best := if signum =? signum_of i then Some i else best in
          next ← (if signum <=? signum_of i then get_left i else get_right i);
          find_first_loop fuel signum next best
      end
  end.
Definition __iv_signal_find_first (signum : Z) : M iv_avl_tree ptr :=
  fuel ← loop_bound; r ← gets root; find_first_loop fuel signum r None.

(** The interests that [__iv_signal_do_wake] sets [active] and posts, in order. *)
Fixpoint do_wake_loop (fuel : nat) (signum : Z) (an : ptr) : M iv_avl_tree (list loc) :=
  match fuel with
  | O => out_of_fuel
  | S fuel =>
      match an with
      | None => mret []
      | Some i =>
          if negb (signum_of i =? signum) then mret []
          else if exclusive (flags_of i) then mret [i]
          else an ← iv_avl_tree_next i; l ← do_wake_loop fuel signum an; mret (i :: l)
      end
  end.
Definition __iv_signal_do_wake (signum : Z) : M iv_avl_tree (list loc) :=
  an ← __iv_signal_find_first signum; fuel ← loop_bound; do_wake_loop fuel signum an.

#[global] Instance iv_signal_compare_ok : CompareOk iv_signal_compare.
Proof.
  split; unfold iv_signal_compare.
  - intros a b. destruct (Z.ltb_spec (signum_of b) (signum_of a)), (Z.ltb_spec (signum_of a) (signum_of b)); try done; try lia.
    destruct (exclusive (flags_of a)), (exclusive (flags_of b)); try done; cbn;
      destruct (Pos.ltb_spec a b), (Pos.ltb_spec b a); try done; lia.
  - intros a b c. destruct (Z.ltb_spec (signum_of a) (signum_of b)), (Z.ltb_spec (signum_of b) (signum_of a)); try lia;
      destruct (Z.ltb_spec (signum_of b) (signum_of c)), (Z.ltb_spec (signum_of c) (signum_of b)); try lia;
      destruct (Z.ltb_spec (signum_of a) (signum_of c)), (Z.ltb_spec (signum_of c) (signum_of a)); try lia;
      destruct (exclusive (flags_of a)), (exclusive (flags_of b)), (exclusive (flags_of c)); cbn; try lia;
      destruct (Pos.ltb_spec a b), (Pos.ltb_spec b a), (Pos.ltb_spec b c), (Pos.ltb_spec c b), (Pos.ltb_spec a c), (Pos.ltb_spec c a); lia.
Qed.

(** What a signal wakes among interests in order: up to the first exclusive one. *)
Definition for_signal (signum : Z) (l : list loc) : list loc := filter (fun i => signum_of i = signum) l.
Fixpoint upto_exclusive (l : list loc) : list loc :=
  match l with [] => [] | i :: l => i :: if exclusive (flags_of i) then [] else upto_exclusive l end.
Definition woken_by (signum : Z) (l : list loc) : list loc := upto_exclusive (for_signal signum l).

(** Interests of smaller numbers come first, and exclusive ones of one number. *)
Lemma before_signum a b : before iv_signal_compare a b -> signum_of a <= signum_of b.
Proof. unfold before, iv_signal_compare. destruct (Z.ltb_spec (signum_of a) (signum_of b)), (Z.ltb_spec (signum_of b) (signum_of a)); lia. Qed.
Lemma before_exclusive a b : before iv_signal_compare a b -> signum_of a = signum_of b ->
  exclusive (flags_of b) = true -> exclusive (flags_of a) = true.
Proof.
  unfold before, iv_signal_compare. intros Hb E Hx. rewrite E, Z.ltb_irrefl, Hx in Hb. by destruct (exclusive (flags_of a)).
Qed.

Lemma for_signal_app signum l l' : for_signal signum (l ++ l') = for_signal signum l ++ for_signal signum l'.
Proof. apply filter_app. Qed.
Lemma for_signal_none signum l : (forall a, a ∈ l -> signum_of a <> signum) -> for_signal signum l = [].
Proof.
  intros H. induction l as [|a l IH]; [done|]. unfold for_signal. rewrite filter_cons_False by (apply H; by left).
  apply IH. intros b Hb. apply H. by right.
Qed.

Lemma find_first_spec signum s : forall t p fuel best, rep s p t -> StronglySorted (before iv_signal_compare) (elems t) ->
  (length (elems t) < fuel)%nat ->
  find_first_loop fuel signum (root_of t) best s =
    Ok (match head (for_signal signum (elems t)) with Some i => Some i | None => best end, s).
Proof.
  induction t as [|l IHl n h r IHr]; intros p [|fuel] best Hr Hs Hf; cbn in Hf; try lia; [done|].
  cbn [root_of find_first_loop elems]. destruct Hr as ((Ha&Hl&Hr'&_)&Hrl&Hrr).
  cbn [elems] in Hs. apply (sorted_split iv_signal_compare) in Hs as (Hs&Hbl&Hbr). apply StronglySorted_app in Hs as (_&Hsl&Hsr). rewrite length_app in Hf. cbn in Hf.
  rewrite for_signal_app. unfold for_signal at 2. rewrite filter_cons. fold (for_signal signum (elems r)).
  destruct (Z.leb_spec signum (signum_of n)) as [Hle|Hlt].
  - mrun (get_left_Ok s n Ha). rewrite Hl, (IHl _ _ _ Hrl Hsl) by lia. rewrite head_app.
    destruct (head (for_signal signum (elems l))) as [i|]; [done|].
    destruct (Z.eqb_spec signum (signum_of n)) as [E|E]; [by rewrite decide_True|]. rewrite decide_False by congruence.
    rewrite for_signal_none; [done|]. intros a Hin. apply Hbr, before_signum in Hin. lia.
  - mrun (get_right_Ok s n Ha). rewrite Hr', (IHr _ _ _ Hrr Hsr) by lia.
    rewrite (proj2 (Z.eqb_neq _ _)) by lia. rewrite decide_False by lia.
    rewrite (for_signal_none signum (elems l)); [done|]. intros a Hin. apply Hbl, before_signum in Hin. lia.
Qed.
Lemma for_signal_head signum l i : head (for_signal signum l) = Some i ->
  signum_of i = signum /\ exists l1 l2, l = l1 ++ i :: l2 /\ for_signal signum l1 = [].
Proof.
  induction l as [|a l IH]; [done|]. unfold for_signal. rewrite filter_cons. destruct (decide (signum_of a = signum)) as [E|E].
  - intros [= <-]. split; [done|]. by exists [], l.
  - intros H. destruct (IH H) as (?&l1&l2&->&E1). split; [done|]. exists (a :: l1), l2. split; [done|].
    unfold for_signal. by rewrite filter_cons_False.
Qed.
Lemma sorted_filter signum l : StronglySorted (before iv_signal_compare) l -> StronglySorted (before iv_signal_compare) (for_signal signum l).
Proof.
  unfold for_signal. induction 1 as [|a l Hs IH Ha]; [constructor|]. rewrite filter_cons. destruct (decide _); [|done].
  constructor; [done|]. rewrite Forall_forall in *. intros b [_ Hb]%list_elem_of_filter. by apply Ha.
Qed.
Lemma sorted_signums l1 i l2 a : StronglySorted (before iv_signal_compare) (l1 ++ i :: l2) -> a ∈ l2 -> signum_of i <= signum_of a.
Proof. intros Hs Ha. apply (sorted_split iv_signal_compare) in Hs as (_&_&H). by apply before_signum, H. Qed.
Lemma do_wake_loop_spec signum s : forall l2 l1 fuel, is_avl iv_signal_compare s (l1 ++ l2) -> (length l2 < fuel)%nat ->
  (forall a, a ∈ l2 -> signum <= signum_of a) ->
  do_wake_loop fuel signum (head l2) s = Ok (woken_by signum l2, s).
Proof.
  induction l2 as [|i l2 IH]; intros l1 [|fuel] Hs Hf Hge; cbn in Hf; try lia; [done|]. cbn [head do_wake_loop].
  pose proof Hs as (t&_&_&_&Hso). unfold woken_by, for_signal. rewrite filter_cons.
  destruct (Z.eqb_spec (signum_of i) signum) as [E|E]; cbn [negb].
  - rewrite decide_True by done. cbn [upto_exclusive]. destruct (exclusive (flags_of i)); [done|].
    mrun (next_spec iv_signal_compare _ _ _ _ Hs). rewrite (cons_middle i l1 l2), app_assoc in Hs.
    mrun (IH _ fuel Hs ltac:(lia) (fun a Ha => Hge a (list_elem_of_further a i l2 Ha))). done.
  - rewrite decide_False by done. fold (for_signal signum l2). rewrite for_signal_none; [done|]. intros a Ha Ea.
    pose proof (sorted_signums _ _ _ _ Hso Ha). assert (signum <= signum_of i) by (apply Hge; by left). lia.
Qed.

(** Exclusive interests come first, so either one of them is woken or all are. *)
Lemma woken_by_split signum l : StronglySorted (before iv_signal_compare) l ->
  (exists i, woken_by signum l = [i] /\ exclusive (flags_of i) = true) \/
  (woken_by signum l = for_signal signum l /\ forall i, i ∈ for_signal signum l -> exclusive (flags_of i) = false).
Proof.
  intros Hs. unfold woken_by. assert (StronglySorted (before iv_signal_compare) (for_signal signum l)) as Hs'.
  { by apply sorted_filter. }
  assert (forall i, i ∈ for_signal signum l -> signum_of i = signum) as Hsg by (intros i Hi; by apply list_elem_of_filter in Hi as [? _]).
  destruct (for_signal signum l) as [|i q]; [right; split; [done|]; by intros i ?%not_elem_of_nil|]. cbn [upto_exclusive].
  destruct (exclusive (flags_of i)) eqn:Ex; [left; by exists i|]. right.
  assert (forall a, a ∈ i :: q -> exclusive (flags_of a) = false) as Hno.
  { intros a Ha. destruct (exclusive (flags_of a)) eqn:Ea; [|done]. apply StronglySorted_cons in Hs' as [Hb _].
    apply elem_of_cons in Ha as [-> |Ha]; [congruence|]. rewrite Forall_forall in Hb.
    rewrite <-Ex. symmetry. eapply before_exclusive; [by apply Hb| |done]. rewrite !Hsg; [done|by right|by left]. }
  split; [|done]. f_equal. assert (forall a, a ∈ q -> exclusive (flags_of a) = false) as Hq by (intros a Ha; apply Hno; by right).
  clear -Hq. induction q as [|a q IH]; [done|]. cbn [upto_exclusive]. rewrite Hq by by left. f_equal. apply IH.
  intros b Hb. apply Hq. by right.
Qed.
End signals.

(** ** Trees sorted by a number: wait interests by process, the descriptors of the
    /dev/poll method, inotify watches *)
Section keyed.
Context (key_of : loc -> Z).

Definition compare_by (a b : loc) : Z :=
  if key_of a <? key_of b then -1 else if key_of b <? key_of a then 1 else 0.
#[global] Instance compare_by_ok : CompareOk compare_by.
Proof.
  split; unfold compare_by.
  - intros a b. destruct (Z.ltb_spec (key_of b) (key_of a)), (Z.ltb_spec (key_of a) (key_of b)); try done; lia.
  - intros a b c. destruct (Z.ltb_spec (key_of a) (key_of b)), (Z.ltb_spec (key_of b) (key_of a)),
      (Z.ltb_spec (key_of b) (key_of c)), (Z.ltb_spec (key_of c) (key_of b)),
      (Z.ltb_spec (key_of a) (key_of c)), (Z.ltb_spec (key_of c) (key_of a)); lia.
Qed.

Fixpoint find_by_loop (fuel : nat) (key : Z) (an : ptr) : M iv_avl_tree ptr :=
  match fuel with
  | O => out_of_fuel
  | S fuel =>
      match an with
      | None => mret None
      | Some p =>
          if key =? key_of p then mret (Some p)
          else next ← (if key <? key_of p then get_left p else get_right p); find_by_loop fuel key next
      end
  end.
Definition find_by (key : Z) : M iv_avl_tree ptr :=
  fuel ← loop_bound; r ← gets root; find_by_loop fuel key r.

Lemma before_key a b : before compare_by a b <-> key_of a < key_of b.
Proof. unfold before, compare_by. destruct (Z.ltb_spec (key_of a) (key_of b)), (Z.ltb_spec (key_of b) (key_of a)); lia. Qed.
Lemma compare_key a b : compare_by a b = 0 <-> key_of a = key_of b.
Proof. unfold compare_by. destruct (Z.ltb_spec (key_of a) (key_of b)), (Z.ltb_spec (key_of b) (key_of a)); lia. Qed.
Lemma find_by_loop_spec key s : forall t p fuel, rep s p t -> StronglySorted (before compare_by) (elems t) ->
  (length (elems t) < fuel)%nat -> exists r, find_by_loop fuel key (root_of t) s = Ok (r, s) /\
    match r with Some i => i ∈ elems t /\ key_of i = key | None => forall i, i ∈ elems t -> key_of i <> key end.
Proof.
  induction t as [|l IHl n h r IHr]; intros p [|fuel] Hr Hs Hf; cbn in Hf; try lia; [exists None; split; [done|]; by intros i ?%not_elem_of_nil|].
  cbn [root_of find_by_loop elems]. destruct Hr as ((Ha&Hl&Hr'&_)&Hrl&Hrr). rewrite length_app in Hf. cbn in Hf.
  cbn [elems] in Hs. apply (sorted_split compare_by) in Hs as (Hs&Hbl&Hbr). apply StronglySorted_app in Hs as (_&Hsl&Hsr).
  destruct (Z.eqb_spec key (key_of n)) as [E|E]; [exists (Some n); split; [done|split; [set_solver|done]]|].
  destruct (Z.ltb_spec key (key_of n)) as [Hlt|Hle].
  - mrun (get_left_Ok s n Ha). rewrite Hl. destruct (IHl _ fuel Hrl Hsl ltac:(lia)) as (x&Ex&Hx). exists x. split; [exact Ex|].
    destruct x as [i|]; [set_solver|]. intros i [Hi|[->|Hi]%elem_of_cons]%elem_of_app; [by apply Hx|done|]. apply Hbr, before_key in Hi. lia.
  - mrun (get_right_Ok s n Ha). rewrite Hr'. destruct (IHr _ fuel Hrr Hsr ltac:(lia)) as (x&Ex&Hx). exists x. split; [exact Ex|].
    destruct x as [i|]; [set_solver|]. intros i [Hi|[->|Hi]%elem_of_cons]%elem_of_app; [|done|by apply Hx]. apply Hbl, before_key in Hi. lia.
Qed.

(** What is before or after an element of a sorted sequence has another key. *)
Lemma sorted_key l i j : StronglySorted (before compare_by) l -> i ∈ l -> j ∈ l -> key_of j = key_of i -> j = i.
Proof.
  intros Hso Hi Hj E. apply list_elem_of_split in Hi as (l1&l2&->). apply (sorted_split compare_by) in Hso as (_&H1&H2).
  apply elem_of_app in Hj as [Hj|[?|Hj]%elem_of_cons]; [apply H1, before_key in Hj; lia|done|apply H2, before_key in Hj; lia].
Qed.
Lemma find_by_spec key s l : is_avl compare_by s l -> exists r, find_by key s = Ok (r, s) /\
  match r with Some i => i ∈ l /\ key_of i = key | None => forall i, i ∈ l -> key_of i <> key end.
Proof.
  intros (t&(Hroot&Hrep&Hnd)&_&<-&Hso). pose proof (length_nodes _ _ _ Hrep Hnd) as Hlen. unfold find_by, loop_bound.
  mrun (eq_refl : gets (fun t => S (S (size (nodes t)))) s = Ok (S (S (size (nodes s))), s)).
  mrun (eq_refl : gets root s = Ok (root s, s)). rewrite Hroot.
  exact (find_by_loop_spec key s t None (S (S (size (nodes s)))) Hrep Hso ltac:(lia)).
Qed.

(** The tree is the map [m] by key. *)
Definition tree_is_map (s : iv_avl_tree) (m : gmap Z loc) : Prop :=
  exists l, is_avl compare_by s l /\ forall n f, m !! n = Some f <-> f ∈ l /\ key_of f = n.

Lemma map_few s l (m : gmap Z loc) : is_avl compare_by s l -> (forall n f, m !! n = Some f <-> f ∈ l /\ key_of f = n) ->
  length l = size m.
Proof.
  intros (t&_&_&_&Hso) Hm. assert (NoDup (key_of <$> l)) as Hnd.
  { clear Hm. induction Hso as [|a l Hs IH Ha]; [constructor|]. rewrite fmap_cons. constructor; [|done].
    intros (b&E&Hb)%list_elem_of_fmap. rewrite Forall_forall in Ha. apply Ha, before_key in Hb. lia. }
  rewrite <-size_dom, <-(length_fmap key_of l), <-(size_list_to_set (C := gset Z)) by done. f_equal. apply set_eq. intros n.
  rewrite elem_of_list_to_set, elem_of_dom, list_elem_of_fmap. split.
  - intros (f&->&Hf). exists f. by apply Hm.
  - intros [f [Hf <-]%Hm]. by exists f.
Qed.

Lemma map_find s m key : tree_is_map s m -> find_by key s = Ok (m !! key, s).
Proof.
  intros (l&Hs&Hm). destruct (find_by_spec key s l Hs) as (r&->&Hr). do 2 f_equal. symmetry. destruct r as [i|]; [by apply Hm|].
  destruct (m !! key) as [f|] eqn:E; [|done]. apply Hm in E as [Hf Hk]. by destruct (Hr f Hf).
Qed.
Lemma map_insert s m an : tree_is_map s m -> Z.of_nat (size m) + 1 < 2 ^ 64 -> alloc s an -> m !! key_of an <> Some an ->
  exists s', iv_avl_tree_insert compare_by an s = Ok (if decide (m !! key_of an = None) then 0 else -1, s') /\
    tree_is_map s' (if decide (m !! key_of an = None) then <[key_of an := an]> m else m).
Proof.
  intros (l&Hs&Hm) Hsz Ha Hne. assert (few l) as Hfew by (unfold few; by rewrite (map_few s l m)).
  assert (an ∉ l) as Hin by (intros Hin; apply Hne, Hm; done).
  destruct (is_avl_insert compare_by s l an Hs Hfew Ha Hin) as (s'&He&Hs'&_&Hd). exists s'. pose proof Hs as (t&_&_&_&Hso).
  destruct (seq_insert_cases compare_by an l Hso) as [(E&b&Hb&Hb0)|(l1&l2&->&E&Hl1&Hl2)]; rewrite E in He, Hs', Hd; cbn [fst snd] in He, Hs', Hd.
  - apply compare_key in Hb0. assert (m !! key_of an = Some b) as Em by (apply Hm; by rewrite Hb0).
    rewrite !decide_False by (by rewrite Em). split; [done|]. by exists l.
  - assert (m !! key_of an = None) as Em.
    { destruct (m !! key_of an) as [b|] eqn:Em; [|done]. apply Hm in Em as [[Hb|Hb]%elem_of_app Ek].
      - apply Hl1, before_key in Hb. lia.
      - apply Hl2, before_key in Hb. lia. }
    rewrite !decide_True by done. split; [done|]. exists (l1 ++ an :: l2). split; [done|]. intros n f.
    rewrite lookup_insert. case_decide as En.
    + subst n. split; [intros [= <-]; split; [set_solver +|done]|]. intros [Hf Ek]. f_equal. destruct Hs' as (t'&_&_&_&Hso').
      eapply (sorted_key _ f an Hso'); [done|set_solver +|done].
    + rewrite Hm. set_solver.
Qed.
Lemma map_delete s m an : tree_is_map s m -> Z.of_nat (size m) + 1 < 2 ^ 64 -> m !! key_of an = Some an ->
  exists s', iv_avl_tree_delete an s = Ok (tt, s') /\ tree_is_map s' (delete (key_of an) m).
Proof.
  intros (l&Hs&Hm) Hsz Hl. assert (few l) as Hfew by (unfold few; by rewrite (map_few s l m)).
  apply Hm in Hl as [Hin _]. apply list_elem_of_split in Hin as (l1&l2&->).
  destruct (is_avl_delete compare_by s l1 an l2 Hs Hfew) as (s'&He&Hs'&_). exists s'. split; [done|].
  exists (l1 ++ l2). split; [done|]. pose proof Hs as (t&_&_&_&Hso). apply (sorted_split compare_by) in Hso as (_&H1&H2).
  intros n f. rewrite lookup_delete_Some, Hm. split.
  - intros (Hne&Hf&<-). split; [|done]. assert (f <> an) by (intros ->; done). set_solver.
  - intros [Hf <-]. split; [|set_solver]. intros E. apply elem_of_app in Hf as [Hf|Hf]; [apply H1, before_key in Hf|apply H2, before_key in Hf]; lia.
Qed.
End keyed.

(** [pid] of an interest, [wd] of a watch, [fd] of an object. *)
Definition iv_wait_interest_compare (pid_of : loc -> Z) : loc -> loc -> Z := compare_by pid_of.
Definition __iv_wait_interest_find (pid_of : loc -> Z) : Z -> M iv_avl_tree ptr := find_by pid_of.
Definition __iv_inotify_watch_compare (wd_of : loc -> Z) : loc -> loc -> Z := compare_by wd_of.
Definition iv_fd_avl_compare (fd_of : loc -> Z) : loc -> loc -> Z := compare_by fd_of.
Definition iv_fd_avl_find (fd_of : loc -> Z) : Z -> M iv_avl_tree ptr := find_by fd_of.

(** C22. A delivered signal wakes, among the interests of a tree in order, those of its
    number up to the first exclusive one: the walk over the nodes finds the first of
    them and visits just these.  So it wakes one exclusive interest if there is any,
    and every interest otherwise. *)
Theorem iv_signal_do_wake_refines signum_of flags_of signum s l : is_avl (iv_signal_compare signum_of flags_of) s l ->
  __iv_signal_do_wake signum_of flags_of signum s = Ok (woken_by signum_of flags_of signum l, s) /\
  ((exists i, woken_by signum_of flags_of signum l = [i] /\ exclusive (flags_of i) = true) \/
   (woken_by signum_of flags_of signum l = for_signal signum_of signum l /\
    forall i, i ∈ for_signal signum_of signum l -> exclusive (flags_of i) = false)).
Proof.
  intros Hs. split; [|apply woken_by_split; by destruct Hs as (t&_&_&_&?)]. pose proof Hs as (t&(Hroot&Hrep&Hnd)&_&El&Hso).
  pose proof (length_nodes _ _ _ Hrep Hnd) as Hlen. rewrite <-El in Hso.
  assert (__iv_signal_find_first signum_of signum s = Ok (head (for_signal signum_of signum (elems t)), s)) as Hff.
  { unfold __iv_signal_find_first, loop_bound.
    mrun (eq_refl : gets (fun t => S (S (size (nodes t)))) s = Ok (S (S (size (nodes s))), s)).
    mrun (eq_refl : gets root s = Ok (root s, s)). rewrite Hroot.
    rewrite (find_first_spec signum_of flags_of signum s t None _ None Hrep Hso) by lia.
    by destruct (head _). }
  unfold __iv_signal_do_wake, loop_bound. mrun Hff.
  mrun (eq_refl : gets (fun t => S (S (size (nodes t)))) s = Ok (S (S (size (nodes s))), s)).
  rewrite El in *. clear El. unfold woken_by. destruct (head (for_signal signum_of signum l)) as [i|] eqn:Eh.
  - apply for_signal_head in Eh as (Esg&l1&l2&El&Hn).
    assert (forall a, a ∈ i :: l2 -> signum <= signum_of a) as Hge.
    { intros a [-> |Ha]%elem_of_cons; [lia|]. rewrite El in Hso. pose proof (sorted_signums signum_of flags_of _ _ _ _ Hso Ha). lia. }
    rewrite El in Hs. rewrite El, length_app in Hlen. cbn in Hlen.
    pose proof (do_wake_loop_spec signum_of flags_of signum s (i :: l2) l1 (S (S (size (nodes s)))) Hs ltac:(cbn; lia) Hge) as E.
    cbn [head] in E. rewrite E. by rewrite El, for_signal_app, Hn.
  - by destruct (for_signal signum_of signum l).
Qed.

(** The search for a process finds the interest in it, if there is one. *)
Theorem iv_wait_interest_find_correct pid_of pid s l : is_avl (iv_wait_interest_compare pid_of) s l ->
  exists r, __iv_wait_interest_find pid_of pid s = Ok (r, s) /\
    match r with Some i => i ∈ l /\ pid_of i = pid /\ (forall j, j ∈ l -> pid_of j = pid -> j = i) | None => forall i, i ∈ l -> pid_of i <> pid end.
Proof.
  intros Hs. destruct (find_by_spec pid_of pid s l Hs) as (r&E&Hr). exists r. split; [exact E|].
  destruct r as [i|]; [|done]. destruct Hr as [Hi <-]. split_and!; [done|done|]. intros j Hj Hpj.
  destruct Hs as (t&_&_&_&Hso). by apply (sorted_key pid_of l i j Hso).
Qed.

(** C23. The tree of the /dev/poll method on the heap of iv_avl.c is a finite map from
    descriptors to objects: [iv_fd_avl_find] looks the descriptor up; inserting an object
    adds it, or returns -1 and changes nothing when its descriptor is there; deleting
    the object found under its descriptor removes it. *)
Theorem iv_fd_avl_is_map fd_of s m : tree_is_map fd_of s m -> Z.of_nat (size m) + 1 < 2 ^ 64 ->
  (forall fd, iv_fd_avl_find fd_of fd s = Ok (m !! fd, s)) /\
  (forall f, alloc s f -> m !! fd_of f <> Some f -> exists s',
    iv_avl_tree_insert (iv_fd_avl_compare fd_of) f s = Ok (if decide (m !! fd_of f = None) then 0 else -1, s') /\
    tree_is_map fd_of s' (if decide (m !! fd_of f = None) then <[fd_of f := f]> m else m)) /\
  (forall f, m !! fd_of f = Some f -> exists s',
    iv_avl_tree_delete f s = Ok (tt, s') /\ tree_is_map fd_of s' (delete (fd_of f) m)).
Proof.
  intros Hs Hm. split_and!; [intros fd; by apply map_find|intros f; by apply map_insert|intros f; by apply map_delete].
Qed.

(** ** Examples

    Interests 1 to 3 are for signal 10, the third one exclusive; 4 is for signal 12. *)
Definition demo_inserts : list avl_cmd := CInsert <$> [4; 1; 3; 2]%positive.
Definition demo_tree (cmp : loc -> loc -> Z) : iv_avl_tree :=
  match (INIT_IV_AVL_TREE;; run_avl cmp demo_inserts) (fresh_nodes 5) with Ok (_, s) => s | _ => fresh_nodes 0 end.
Lemma demo_tree_ok cmp `{!CompareOk cmp} os l : spec_avl cmp (dom (nodes (fresh_nodes 5))) demo_inserts [] = Some (os, l) -> is_avl cmp (demo_tree cmp) l.
Proof. intros Hs. destruct (run_avl_refines cmp (fresh_nodes 5) demo_inserts os l Hs) as (s'&E&?). unfold demo_tree. by rewrite E. Qed.
Definition demo_signum (i : loc) : Z := if decide (i = 4%positive) then 12 else 10.
Definition demo_flags (x : bool) (i : loc) : Z := if decide (i = 3%positive) then (if x then 1 else 0) else 0.
Lemma iv_signal_do_wake_refines_witness :
  __iv_signal_do_wake demo_signum (demo_flags true) 10 (demo_tree (iv_signal_compare demo_signum (demo_flags true))) =
    Ok ([3%positive], demo_tree (iv_signal_compare demo_signum (demo_flags true))) /\
  __iv_signal_do_wake demo_signum (demo_flags false) 10 (demo_tree (iv_signal_compare demo_signum (demo_flags false))) =
    Ok ([1; 2; 3]%positive, demo_tree (iv_signal_compare demo_signum (demo_flags false))).
Proof.
  split.
  - refine (proj1 (iv_signal_do_wake_refines demo_signum (demo_flags true) 10 _ [3; 1; 2; 4]%positive (demo_tree_ok _ _ _ _))).
    vm_compute. reflexivity.
  - refine (proj1 (iv_signal_do_wake_refines demo_signum (demo_flags false) 10 _ [1; 2; 3; 4]%positive (demo_tree_ok _ _ _ _))).
    vm_compute. reflexivity.
Defined.
(** Interest [i] waits for process [100 * i]. *)
Definition demo_pid (i : loc) : Z := 100 * Z.pos i.
Lemma iv_wait_interest_find_correct_witness :
  exists r, __iv_wait_interest_find demo_pid 300 (demo_tree (iv_wait_interest_compare demo_pid)) = Ok (r, demo_tree (iv_wait_interest_compare demo_pid)) /\
    r = Some 3%positive.
Proof.
  destruct (iv_wait_interest_find_correct demo_pid 300 (demo_tree (iv_wait_interest_compare demo_pid)) [1; 2; 3; 4]%positive) as (r&E&Hr).
  { eapply (demo_tree_ok (iv_wait_interest_compare demo_pid)). vm_compute. reflexivity. }
  exists r. split; [exact E|]. clear E. destruct r as [i|].
  - destruct Hr as (_&_&H). f_equal. symmetry. apply H; [|by vm_compute]. set_solver.
  - destruct (Hr 3%positive); [set_solver|by vm_compute].
Defined.

(** Object [i] is for descriptor [100 * i]; 5 is not in the tree. *)
Definition demo_map : gmap Z loc := list_to_map ((fun i => (demo_pid i, i)) <$> [1; 2; 3; 4]%positive).
Lemma iv_fd_avl_is_map_witness : let s := demo_tree (iv_fd_avl_compare demo_pid) in
  iv_fd_avl_find demo_pid 300 s = Ok (Some 3%positive, s) /\ iv_fd_avl_find demo_pid 301 s = Ok (None, s) /\
  (exists s', iv_avl_tree_insert (iv_fd_avl_compare demo_pid) 5 s = Ok (0, s') /\ tree_is_map demo_pid s' (<[500 := 5%positive]> demo_map)) /\
  exists s', iv_avl_tree_delete 3 s = Ok (tt, s') /\ tree_is_map demo_pid s' (delete 300 demo_map).
Proof.
  intros s. destruct (iv_fd_avl_is_map demo_pid s demo_map) as (Hf&Hi&Hd).
  - exists [1; 2; 3; 4]%positive. split; [eapply (demo_tree_ok (iv_fd_avl_compare demo_pid)); vm_compute; reflexivity|].
    intros n f. unfold demo_map. rewrite <-elem_of_list_to_map by (apply (bool_decide_unpack _); vm_compute; exact I).
    rewrite list_elem_of_fmap. naive_solver.
  - vm_compute. reflexivity.
  - split; [exact (Hf 300)|]. split; [exact (Hf 301)|]. split; [apply (Hi 5%positive)|apply (Hd 3%positive)].
    + eexists. vm_compute. reflexivity.
    + by vm_compute.
    + by vm_compute.
Defined.
