(* ===== verification/Signal.v ===== *)
(** * Signals (iv_signal.c)

    Interests are on one tree of the process, or on a tree of their thread.  Trees are
    the sorted sequences that AvlSearch.v and AvlSpec.v show them to stand for, and a raw
    event is what EventRawSpec.v shows it to be: posted until the event loop of the
    thread that registered it takes it and calls its handler.  What runs with signals
    blocked and [sig_lock] held is one action of Conc.v; the signal handler runs as a
    program of its own, between any two actions of the thread it interrupts. *)

From S2P Require Import AvlSpec AvlSearch Conc Prelude.

Local Open Scope Z_scope.

Definition _NSIG : Z := 64.

(** Where a thread is, when not between calls: the raw event of an interest was taken
    and [active] is not cleared yet, or is but its handler not called; an interest is
    off its tree but its raw event still registered. *)
Inductive sig_pc := GEvent (i : loc) | GCall (i : loc) | GUnregister (i : loc).
#[global] Instance sig_pc_eq : EqDecision sig_pc.
Proof. solve_decision. Defined.

(** [getpid()]; [sig_owner_pid], [total_num_interests], [process_sigs], the [thr_sigs] of
    the threads that have one, the interests with [active] set; the signals whose
    disposition is [iv_signal_handler]; the registered raw events with their threads,
    and those posted.  From [sg_pc] on the fields are there for the proofs: where the
    threads are; the interests registered; by tree and signal, the interests that were
    registered at a delivery since which no handler of that tree and signal was called;
    the handlers called.  [sg_w] is what raw events are registered with. *)
Record sig_state (W : Type) := mk_sg {
  sg_pid : Z;
  sg_owner_pid : Z;
  sg_total : gmap Z Z;
  sg_process : list loc;
  sg_threads : gmap loc (list loc);
  sg_active : gset loc;
  sg_handled : gset Z;
  sg_raw : gmap loc loc;
  sg_posted : gset loc;
  sg_pc : gmap loc sig_pc;
  sg_regs : list loc;
  sg_owed : gmap (option loc * Z) (gset loc);
  sg_ran : list loc;
  sg_w : W }.
Arguments mk_sg {_}.
Arguments sg_pid {_} _.
Arguments sg_owner_pid {_} _.
Arguments sg_total {_} _.
Arguments sg_process {_} _.
Arguments sg_threads {_} _.
Arguments sg_active {_} _.
Arguments sg_handled {_} _.
Arguments sg_raw {_} _.
Arguments sg_posted {_} _.
Arguments sg_pc {_} _.
Arguments sg_regs {_} _.
Arguments sg_owed {_} _.
Arguments sg_ran {_} _.
Arguments sg_w {_} _.
Definition set_sg_pid {W : Type} (v : Z) (s : sig_state W) : sig_state W :=
  mk_sg v (sg_owner_pid s) (sg_total s) (sg_process s) (sg_threads s) (sg_active s) (sg_handled s) (sg_raw s) (sg_posted s) (sg_pc s) (sg_regs s) (sg_owed s) (sg_ran s) (sg_w s).
Definition set_sg_owner_pid {W : Type} (v : Z) (s : sig_state W) : sig_state W :=
  mk_sg (sg_pid s) v (sg_total s) (sg_process s) (sg_threads s) (sg_active s) (sg_handled s) (sg_raw s) (sg_posted s) (sg_pc s) (sg_regs s) (sg_owed s) (sg_ran s) (sg_w s).
Definition set_sg_total {W : Type} (v : gmap Z Z) (s : sig_state W) : sig_state W :=
  mk_sg (sg_pid s) (sg_owner_pid s) v (sg_process s) (sg_threads s) (sg_active s) (sg_handled s) (sg_raw s) (sg_posted s) (sg_pc s) (sg_regs s) (sg_owed s) (sg_ran s) (sg_w s).
Definition set_sg_process {W : Type} (v : list loc) (s : sig_state W) : sig_state W :=
  mk_sg (sg_pid s) (sg_owner_pid s) (sg_total s) v (sg_threads s) (sg_active s) (sg_handled s) (sg_raw s) (sg_posted s) (sg_pc s) (sg_regs s) (sg_owed s) (sg_ran s) (sg_w s).
Definition set_sg_threads {W : Type} (v : gmap loc (list loc)) (s : sig_state W) : sig_state W :=
  mk_sg (sg_pid s) (sg_owner_pid s) (sg_total s) (sg_process s) v (sg_active s) (sg_handled s) (sg_raw s) (sg_posted s) (sg_pc s) (sg_regs s) (sg_owed s) (sg_ran s) (sg_w s).
Definition set_sg_active {W : Type} (v : gset loc) (s : sig_state W) : sig_state W :=
  mk_sg (sg_pid s) (sg_owner_pid s) (sg_total s) (sg_process s) (sg_threads s) v (sg_handled s) (sg_raw s) (sg_posted s) (sg_pc s) (sg_regs s) (sg_owed s) (sg_ran s) (sg_w s).
Definition set_sg_handled {W : Type} (v : gset Z) (s : sig_state W) : sig_state W :=
  mk_sg (sg_pid s) (sg_owner_pid s) (sg_total s) (sg_process s) (sg_threads s) (sg_active s) v (sg_raw s) (sg_posted s) (sg_pc s) (sg_regs s) (sg_owed s) (sg_ran s) (sg_w s).
Definition set_sg_raw {W : Type} (v : gmap loc loc) (s : sig_state W) : sig_state W :=
  mk_sg (sg_pid s) (sg_owner_pid s) (sg_total s) (sg_process s) (sg_threads s) (sg_active s) (sg_handled s) v (sg_posted s) (sg_pc s) (sg_regs s) (sg_owed s) (sg_ran s) (sg_w s).
Definition set_sg_posted {W : Type} (v : gset loc) (s : sig_state W) : sig_state W :=
  mk_sg (sg_pid s) (sg_owner_pid s) (sg_total s) (sg_process s) (sg_threads s) (sg_active s) (sg_handled s) (sg_raw s) v (sg_pc s) (sg_regs s) (sg_owed s) (sg_ran s) (sg_w s).
Definition set_sg_pc {W : Type} (v : gmap loc sig_pc) (s : sig_state W) : sig_state W :=
  mk_sg (sg_pid s) (sg_owner_pid s) (sg_total s) (sg_process s) (sg_threads s) (sg_active s) (sg_handled s) (sg_raw s) (sg_posted s) v (sg_regs s) (sg_owed s) (sg_ran s) (sg_w s).
Definition set_sg_regs {W : Type} (v : list loc) (s : sig_state W) : sig_state W :=
  mk_sg (sg_pid s) (sg_owner_pid s) (sg_total s) (sg_process s) (sg_threads s) (sg_active s) (sg_handled s) (sg_raw s) (sg_posted s) (sg_pc s) v (sg_owed s) (sg_ran s) (sg_w s).
Definition set_sg_owed {W : Type} (v : gmap (option loc * Z) (gset loc)) (s : sig_state W) : sig_state W :=
  mk_sg (sg_pid s) (sg_owner_pid s) (sg_total s) (sg_process s) (sg_threads s) (sg_active s) (sg_handled s) (sg_raw s) (sg_posted s) (sg_pc s) (sg_regs s) v (sg_ran s) (sg_w s).
Definition set_sg_ran {W : Type} (v : list loc) (s : sig_state W) : sig_state W :=
  mk_sg (sg_pid s) (sg_owner_pid s) (sg_total s) (sg_process s) (sg_threads s) (sg_active s) (sg_handled s) (sg_raw s) (sg_posted s) (sg_pc s) (sg_regs s) (sg_owed s) v (sg_w s).
Definition set_sg_w {W : Type} (v : W) (s : sig_state W) : sig_state W :=
  mk_sg (sg_pid s) (sg_owner_pid s) (sg_total s) (sg_process s) (sg_threads s) (sg_active s) (sg_handled s) (sg_raw s) (sg_posted s) (sg_pc s) (sg_regs s) (sg_owed s) (sg_ran s) v.

(** What [iv_event_raw_register] returns for the raw event of an interest, which may be an
    error, and what [iv_event_raw_unregister] does (SignalRaw.v has those of EventRaw.v);
    and whether [sigaction] accepts a signal. *)
Class SignalWorld (W : Type) := {
  raw_register : loc -> W -> Z * W;
  raw_unregister : loc -> W -> W;
  sigaction_ok : Z -> bool }.

Inductive sig_call := GRegister (i : loc) | GUnreg (i : loc).

Section signal.
Context {W : Type} `{!SignalWorld W}.
Context (signum_of flags_of : loc -> Z).
(** What the handler of an interest calls, given the handlers called so far. *)
Context (handler : loc -> list loc -> list sig_call).
Abbreviation St := (sig_state W).

Definition total_of (n : Z) (s : St) : Z := default 0 (sg_total s !! n).
Definition in_range (n : Z) : bool := (0 <=? n) && (n <? _NSIG).

(** [&process_sigs] ([None]) or the [&tinfo->thr_sigs] of a thread. *)
Definition tree_of (k : option loc) (s : St) : list loc :=
  match k with None => sg_process s | Some t => default [] (sg_threads s !! t) end.
Definition set_tree (k : option loc) (l : list loc) (s : St) : St :=
  match k with None => set_sg_process l s | Some t => set_sg_threads (<[t := l]> (sg_threads s)) s end.
Definition tree_key (me i : loc) : option loc := if this_thread (flags_of i) then Some me else None.
Definition iv_signal_tree (me i : loc) : M St (option loc) :=
  (if this_thread (flags_of i) then m ← gets sg_threads; _ ← deref (m !! me); mret tt else mret tt);;
  mret (tree_key me i).

(** [is->active = 1; iv_event_raw_post(&is->ev);] *)
Definition wake (i : loc) : M St unit :=
  modify (fun s => set_sg_active ({[i]} ∪ sg_active s) s);;
  m ← gets sg_raw; _ ← deref (m !! i);
  modify (fun s => set_sg_posted ({[i]} ∪ sg_posted s) s).
Fixpoint wake_all (l : list loc) : M St unit :=
  match l with [] => mret tt | i :: l => wake i;; wake_all l end.
Definition do_wake (k : option loc) (n : Z) : M St nat :=
  l ← gets (woken_by signum_of flags_of n ∘ tree_of k);
  wake_all l;; mret (length l).

(** ** The signal handler *)

(** The interests of a tree and signal are owed a call from now on. *)
Definition owe (k : option loc) (n : Z) : M St unit := modify (fun s =>
  set_sg_owed (<[(k, n) := list_to_set (for_signal signum_of n (tree_of k s))]> (sg_owed s)) s).
Definition is_owner : M St bool :=
  o ← gets sg_owner_pid; p ← gets sg_pid; mret (negb ((o =? 0) || negb (o =? p))).
(** Up to the thread's own tree: is the one of the process to be tried? *)
Definition handler_thread (t : loc) (n : Z) : M St bool :=
  b ← is_owner;
  if b : bool then
    m ← gets sg_threads;
    match m !! t with
    | None => mret true
    | Some _ => woken ← do_wake (Some t) n; if Nat.eqb woken 0 then mret true else owe (Some t) n;; mret false
    end
  else mret false.
Definition handler_process (n : Z) : M St unit := do_wake None n;; owe None n.
Definition iv_signal_handler (t : loc) (n : Z) : prog St unit :=
  b ← act (handler_thread t n);
  if b : bool then act (handler_process n) else mret tt.

(** ** Registering *)

(** [if (total_num_interests[i]) { sigaction(i, &sa, NULL); total_num_interests[i] = 0; }] *)
Fixpoint reset_signals (l : list Z) : M St unit :=
  match l with
  | [] => mret tt
  | n :: l =>
      t ← gets (total_of n);
      when (negb (t =? 0)) (
        modify (fun s => set_sg_handled (sg_handled s ∖ {[n]}) s);;
        modify (fun s => set_sg_total (<[n := 0]> (sg_total s)) s));;
      reset_signals l
  end.
Definition iv_signal_child_reset_postfork (me : loc) : M St unit :=
  reset_signals (seqZ 0 _NSIG);;
  modify (set_sg_owner_pid 0);;
  modify (set_sg_process []);;
  m ← gets sg_threads;
  match m !! me with Some _ => modify (set_sg_threads (<[me := []]> m)) | None => mret tt end;;
  modify (set_sg_owed ∅ ∘ set_sg_regs []).

(** [iv_signal_register] under the lock.  The result of [iv_event_raw_register] is not
    looked at: when it failed, the interest is in the tree without a raw event. *)
Definition register_section (me i : loc) : M St Z :=
  let n := signum_of i in
  if (n <? 0) || (_NSIG <=? n) then mret (-1)
  else
    mypid ← gets sg_pid;
    o ← gets sg_owner_pid;
    (if negb (o =? 0) && negb (o =? mypid) then iv_signal_child_reset_postfork me;; modify (set_sg_owner_pid mypid)
     else if o =? 0 then modify (set_sg_owner_pid mypid) else mret tt);;
    s ← get;
    requires (bool_decide (i ∉ sg_regs s) && bool_decide (i ∉ dom (sg_raw s)) && bool_decide (me ∈ dom (sg_threads s)));;
    let '(ret, w) := raw_register i (sg_w s) in
    modify (set_sg_w w);;
    when (ret =? 0) (modify (fun s => set_sg_raw (<[i := me]> (sg_raw s)) s));;
    modify (fun s => set_sg_active (sg_active s ∖ {[i]}) s);;
    t ← gets (total_of n);
    modify (fun s => set_sg_total (<[n := t + 1]> (sg_total s)) s);;
    when (t =? 0) (
      if sigaction_ok n then modify (fun s => set_sg_handled ({[n]} ∪ sg_handled s) s)
      else iv_fatal "iv_signal_register: sigaction got error");;
    k ← iv_signal_tree me i;
    modify (fun s => set_tree k (seq_insert (iv_signal_compare signum_of flags_of) i (tree_of k s)).2 s);;
    modify (fun s => set_sg_regs (sg_regs s ++ [i]) s);;
    mret 0.
Definition iv_signal_register (me i : loc) : prog St Z := act (register_section me i).

(** Only the thread that registered an interest may unregister it. *)
Definition unregister_section (me i : loc) : M St unit :=
  let n := signum_of i in
  if (n <? 0) || (_NSIG <=? n) then iv_fatal "iv_signal_unregister: signal number out of range"
  else
    s ← get;
    requires (bool_decide (i ∈ sg_regs s) && bool_decide (sg_raw s !! i = Some me));;
    k ← iv_signal_tree me i;
    modify (fun s => set_tree k (remove i (tree_of k s)) s);;
    modify (fun s => set_sg_pc (<[me := GUnregister i]> (sg_pc s)) (set_sg_regs (remove i (sg_regs s)) s));;
    modify (fun s => set_sg_owed ((fun x => x ∖ {[i]}) <$> sg_owed s) s);;
    t ← gets (total_of n);
    modify (fun s => set_sg_total (<[n := t - 1]> (sg_total s)) s);;
    a ← gets sg_active;
    if t - 1 =? 0 then modify (fun s => set_sg_handled (sg_handled s ∖ {[n]}) s)
    else when (exclusive (flags_of i) && bool_decide (i ∈ a)) (do_wake k n;; mret tt).
(** [iv_event_raw_unregister(&this->ev);] *)
Definition unregister_event (me i : loc) : M St unit :=
  modify (fun s => set_sg_w (raw_unregister i (sg_w s)) s);;
  modify (fun s => set_sg_raw (delete i (sg_raw s)) (set_sg_posted (sg_posted s ∖ {[i]}) s));;
  modify (fun s => set_sg_pc (delete me (sg_pc s)) s).
Definition iv_signal_unregister (me i : loc) : prog St unit :=
  act (unregister_section me i);; act (unregister_event me i).

Definition run_sig_call (me : loc) (c : sig_call) : prog St unit :=
  match c with
  | GRegister i => iv_signal_register me i;; mret tt
  | GUnreg i => iv_signal_unregister me i
  end.
Fixpoint run_sig_calls (me : loc) (cs : list sig_call) : prog St unit :=
  match cs with [] => mret tt | c :: cs => run_sig_call me c;; run_sig_calls me cs end.

(** ** The raw event's handler *)
Definition clear_active (me i : loc) : M St unit :=
  modify (fun s => set_sg_active (sg_active s ∖ {[i]}) s);;
  modify (fun s => set_sg_pc (<[me := GCall i]> (sg_pc s)) s).
(** [this->handler(this->cookie)] *)
Definition sig_handler_call (me i : loc) : M St (list sig_call) :=
  modify (fun s => set_sg_owed (<[(tree_key me i, signum_of i) := ∅]> (sg_owed s)) (set_sg_pc (delete me (sg_pc s)) s));;
  modify (fun s => set_sg_ran (sg_ran s ++ [i]) s);;
  ran ← gets sg_ran; mret (handler i ran).
Definition iv_signal_event (me i : loc) : prog St unit :=
  act (clear_active me i);;
  cs ← act (sig_handler_call me i);
  run_sig_calls me cs.
(** The event loop of a thread finds a raw event posted. *)
Definition take_posted (me i : loc) : M St bool :=
  s ← get;
  if bool_decide (i ∈ sg_posted s) && bool_decide (sg_raw s !! i = Some me) then
    modify (fun s => set_sg_pc (<[me := GEvent i]> (sg_pc s)) (set_sg_posted (sg_posted s ∖ {[i]}) s));; mret true
  else mret false.
Definition signal_posted (me i : loc) : prog St unit :=
  b ← act (take_posted me i); if b : bool then iv_signal_event me i else mret tt.
End signal.
