(* ===== verification/SignalSpec.v ===== *)
(** * Signals: the invariant and every action *)

From S2P Require Import AvlSpec AvlSearch Conc Signal Prelude.

Local Open Scope Z_scope.

(** The one assumption on the rest of the system: raw events can be registered.  Without
    it deliveries write to a descriptor that was never set (SignalProps.v). *)
Class SignalLaws (W : Type) `{!SignalWorld W} : Prop := {
  law_raw_register : forall i w, (raw_register i w).1 = 0 }.

Section spec.
Context {W : Type} `{!SignalWorld W, HL : !SignalLaws W}.
Context (signum_of flags_of : loc -> Z).
Abbreviation St := (sig_state W).
Abbreviation cmp := (iv_signal_compare signum_of flags_of).
Abbreviation tree_key := (tree_key flags_of).
Abbreviation woken_by := (woken_by signum_of flags_of).
Abbreviation for_signal := (for_signal signum_of).
Implicit Types (s : St) (t me i : loc) (n : Z) (k : option loc).

(** The client breaks the interface, or asks for a signal that cannot be caught. *)
Definition sbreach (m : string) : Prop := m = "outside of the interface"%string \/
  m = "iv_signal_unregister: signal number out of range"%string \/ m = "iv_signal_register: sigaction got error"%string.

(** ** The invariant *)
Definition owed k n s : gset loc := default ∅ (sg_owed s !! (k, n)).
Definition pc_of (p : sig_pc) : loc := match p with GEvent i | GCall i | GUnregister i => i end.
(** The handler of an interest is going to be called. *)
Definition live s i : Prop := i ∈ sg_active s \/ exists t, sg_pc s !! t = Some (GCall i).
Definition covered s k n : Prop :=
  (exists i, i ∈ tree_of k s /\ signum_of i = n /\ exclusive (flags_of i) = true /\ live s i) \/ (forall i, i ∈ owed k n s -> live s i).

Record sg_inv s : Prop := {
  gi_pid : 0 < sg_pid s /\ (sg_owner_pid s = 0 \/ sg_owner_pid s = sg_pid s) /\ (sg_regs s <> [] -> sg_owner_pid s = sg_pid s);
  gi_tree : forall i k, i ∈ tree_of k s <-> i ∈ sg_regs s /\ exists t, sg_raw s !! i = Some t /\ k = tree_key t i;
  gi_regs : NoDup (sg_regs s) /\ forall i, i ∈ sg_regs s -> in_range (signum_of i) = true /\ is_Some (sg_raw s !! i);
  gi_sorted : forall k, StronglySorted (before cmp) (tree_of k s);
  gi_raw : forall i t, sg_raw s !! i = Some t -> i ∈ sg_regs s \/ sg_pc s !! t = Some (GUnregister i);
  gi_total : forall n, total_of n s = Z.of_nat (length (for_signal n (sg_regs s)));
  gi_handled : forall n, n ∈ sg_handled s <-> 0 < total_of n s;
  gi_active : forall i, i ∈ sg_active s -> i ∈ sg_regs s -> i ∈ sg_posted s \/ exists t, sg_raw s !! i = Some t /\ sg_pc s !! t = Some (GEvent i);
  gi_posted : forall i, i ∈ sg_posted s -> is_Some (sg_raw s !! i);
  gi_pc : forall t p, sg_pc s !! t = Some p -> sg_raw s !! pc_of p = Some t /\
    match p with GUnregister i => i ∉ sg_regs s | _ => pc_of p ∈ sg_regs s end;
  gi_owed : forall k n i, i ∈ owed k n s -> i ∈ tree_of k s /\ signum_of i = n;
  gi_live : forall k n, covered s k n }.

Definition sg_aux s t : option sig_pc := sg_pc s !! t.

(** ** Waking *)
Definition woke (l : list loc) s : St :=
  set_sg_posted (list_to_set l ∪ sg_posted s) (set_sg_active (list_to_set l ∪ sg_active s) s).
Lemma woke_nil s : woke [] s = s.
Proof. unfold woke, set_sg_posted, set_sg_active. cbn. rewrite !(left_id_L ∅ (∪)). by destruct s. Qed.
Lemma wake_all_Ok l : forall s, (forall i, i ∈ l -> is_Some (sg_raw s !! i)) -> wake_all l s = Ok (tt, woke l s).
Proof.
  induction l as [|i l IH]; intros s Hl.
  - cbn. by rewrite woke_nil.
  - cbn [wake_all]. destruct (Hl i ltac:(by left)) as [t Ht]. unfold wake.
    assert ((modify (fun s => set_sg_active ({[i]} ∪ sg_active s) s);; m ← gets sg_raw; _ ← deref (m !! i);
      modify (fun s => set_sg_posted ({[i]} ∪ sg_posted s) s)) s = Ok (tt, woke [i] s)) as E.
    { msimpl. rewrite Ht. unfold woke, set_sg_posted, set_sg_active. cbn. by rewrite !(right_id_L ∅ (∪)). }
    rewrite (bind_Ok _ _ _ _ _ E). rewrite IH by (intros j Hj; apply Hl; by right).
    unfold woke, set_sg_posted, set_sg_active. cbn. rewrite !(right_id_L ∅ (∪)). f_equal. f_equal.
    by rewrite !(assoc_L (∪)), !(comm_L (∪) (list_to_set l) {[i]}).
Qed.
Lemma elem_of_for_signal n l i : i ∈ for_signal n l <-> signum_of i = n /\ i ∈ l.
Proof. unfold AvlSearch.for_signal. by rewrite list_elem_of_filter. Qed.
Lemma woken_in n l i : i ∈ woken_by n l -> i ∈ l /\ signum_of i = n.
Proof.
  unfold AvlSearch.woken_by. intros Hi. assert (i ∈ for_signal n l) as [??]%elem_of_for_signal; [|done].
  revert Hi. generalize (for_signal n l). intros q. induction q as [|j q IH]; cbn [upto_exclusive]; [done|].
  intros [-> |Hi]%elem_of_cons; [by left|right]. destruct (exclusive _); [by apply not_elem_of_nil in Hi|by apply IH].
Qed.
Lemma tree_raw s k i : sg_inv s -> i ∈ tree_of k s -> is_Some (sg_raw s !! i).
Proof. intros Hi Hin. apply (gi_tree _ Hi) in Hin as (_&t&->&_). by eexists. Qed.
Lemma do_wake_Ok s k n : (forall i, i ∈ tree_of k s -> is_Some (sg_raw s !! i)) ->
  do_wake signum_of flags_of k n s = Ok (length (woken_by n (tree_of k s)), woke (woken_by n (tree_of k s)) s).
Proof.
  intros Hi. unfold do_wake. msimpl. rewrite wake_all_Ok; [done|]. intros i [Hin _]%woken_in. by apply Hi.
Qed.

Lemma woke_inv l s : sg_inv s -> (forall i, i ∈ l -> i ∈ sg_regs s) -> sg_inv (woke l s).
Proof.
  intros [P1 P2 P3 P4 P5 P6 P7 P8 P9 P10 P11 P12] Hl. split; cbn; try done.
  - intros i Hi Hr. destruct (decide (i ∈ l)) as [Hin|Hn]; [left; set_solver|].
    destruct (P8 i) as [?|?]; [set_solver|done|left; set_solver|by right].
  - intros i [Hin%elem_of_list_to_set|Hin]%elem_of_union; [by apply P3, Hl|by apply P9].
  - intros k n. destruct (P12 k n) as [(i&?&?&?&Hlv)|H]; [left; exists i; split_and!; try done|right; intros i Hi; specialize (H i Hi)];
      [destruct Hlv|destruct H]; [left; cbn; set_solver|by right|left; cbn; set_solver|by right].
Qed.
(** After a wake the whole signal is covered: one exclusive interest, or all. *)
Lemma woke_covers s k n : sg_inv s -> let s' := woke (woken_by n (tree_of k s)) s in
  (exists i, i ∈ tree_of k s' /\ signum_of i = n /\ exclusive (flags_of i) = true /\ live s' i) \/
  (forall i, i ∈ for_signal n (tree_of k s) -> live s' i).
Proof.
  intros Hi s'. destruct (woken_by_split signum_of flags_of n (tree_of k s) (gi_sorted _ Hi k)) as [(i&E&Hx)|[E _]].
  - left. exists i. destruct (woken_in n (tree_of k s) i) as [? ?]; [rewrite E; by left|]. split_and!; [by destruct k|done|done|].
    left. unfold s'. cbn. rewrite E. set_solver.
  - right. intros i Hin. left. unfold s'. cbn. rewrite E. apply elem_of_union_l. by apply elem_of_list_to_set.
Qed.
Definition owes k n s : St := set_sg_owed (<[(k, n) := list_to_set (for_signal n (tree_of k s))]> (sg_owed s)) s.
Lemma owed_owes k n k' n' s : owed k' n' (owes k n s) =
  if decide ((k, n) = (k', n')) then list_to_set (for_signal n (tree_of k s)) else owed k' n' s.
Proof. unfold owed, owes. cbn. rewrite lookup_insert. by case_decide. Qed.
Lemma owes_inv s k n : sg_inv s ->
  ((exists i, i ∈ tree_of k s /\ signum_of i = n /\ exclusive (flags_of i) = true /\ live s i) \/
   (forall i, i ∈ for_signal n (tree_of k s) -> live s i)) -> sg_inv (owes k n s).
Proof.
  intros [P1 P2 P3 P4 P5 P6 P7 P8 P9 P10 P11 P12] Hc. split; try done.
  - intros k' n' i. rewrite owed_owes. case_decide as E; [|apply P11]. injection E as <- <-.
    intros [? Hin]%elem_of_list_to_set%elem_of_for_signal. by destruct k.
  - intros k' n'. destruct (decide ((k, n) = (k', n'))) as [E|Hne].
    + injection E as <- <-. destruct Hc as [(i&?&?&?&?)|Hc]; [left; exists i; by destruct k|right].
      intros i. rewrite owed_owes, decide_True by done. intros Hin%elem_of_list_to_set. by apply Hc.
    + destruct (P12 k' n') as [(i&?&?&?&?)|H]; [left; exists i; by destruct k'|right].
      intros i. rewrite owed_owes, decide_False by done. apply H.
Qed.
Lemma wake_owe_inv s k n : sg_inv s -> sg_inv (owes k n (woke (woken_by n (tree_of k s)) s)).
Proof.
  intros Hi. apply owes_inv.
  - apply woke_inv; [done|]. intros i [Hin _]%woken_in. by apply (gi_tree _ Hi) in Hin as [? _].
  - assert (tree_of k (woke (woken_by n (tree_of k s)) s) = tree_of k s) as E by by destruct k.
    destruct (woke_covers s k n Hi) as [(i&?&?&?&?)|H]; [left; by exists i|right]. by rewrite E.
Qed.

(** ** The signal handler *)
Lemma is_owner_Ok s : is_owner s = Ok (negb ((sg_owner_pid s =? 0) || negb (sg_owner_pid s =? sg_pid s)), s).
Proof. done. Qed.
Lemma handler_thread_spec t n s me : sg_inv s ->
  wp sbreach (handler_thread signum_of flags_of t n) s (fun _ s' => sg_inv s' /\ sg_pc s' = sg_pc s).
Proof.
  intros Hi. unfold handler_thread. wrun (is_owner_Ok s). destruct (negb _); [|by eapply wp_Ok; [reflexivity|]].
  wprim. destruct (sg_threads s !! t) as [l|]; [|by eapply wp_Ok; [reflexivity|]].
  wrun (do_wake_Ok s (Some t) n (fun i => tree_raw s _ i Hi)). destruct (Nat.eqb_spec (length (woken_by n (tree_of (Some t) s))) 0) as [E|E].
  - eapply wp_Ok; [reflexivity|]. apply length_zero_iff_nil in E. rewrite E. split; [|done]. apply woke_inv; [done|].
    by intros i ?%not_elem_of_nil.
  - wprim. eapply wp_Ok; [reflexivity|]. split; [by apply wake_owe_inv|done].
Qed.
Lemma handler_process_spec n s : sg_inv s ->
  wp sbreach (handler_process signum_of flags_of n) s (fun _ s' => sg_inv s' /\ sg_pc s' = sg_pc s).
Proof.
  intros Hi. unfold handler_process. wrun (do_wake_Ok s None n (fun i => tree_raw s _ i Hi)). eapply wp_Ok; [reflexivity|].
  split; [by apply wake_owe_inv|done].
Qed.

(** ** Registering *)
Lemma tree_set_tree k k' l s : tree_of k' (set_tree k l s) = if decide (k = k') then l else tree_of k' s.
Proof.
  destruct k as [t|], k' as [t'|]; cbn; try done. rewrite lookup_insert.
  destruct (decide (t = t')) as [->|Hne]; [by rewrite decide_True|]. rewrite decide_False; [done|congruence].
Qed.
Lemma compare_ne i j : i <> j -> cmp i j <> 0.
Proof.
  intros Hne. unfold iv_signal_compare. destruct (_ <? _); [done|]. destruct (_ <? _); [done|].
  destruct (_ && _); [done|]. destruct (_ && _); [done|]. destruct (Pos.ltb_spec i j); [done|]. destruct (Pos.ltb_spec j i); [done|lia].
Qed.
Lemma insert_sorted i l : StronglySorted (before cmp) l -> i ∉ l ->
  StronglySorted (before cmp) (seq_insert cmp i l).2 /\ forall j, j ∈ (seq_insert cmp i l).2 <-> j = i \/ j ∈ l.
Proof.
  intros Hs Hn. destruct (seq_insert_cases cmp i l Hs) as [(_&b&Hb&E)|(l1&l2&->&E&H1&H2)].
  - exfalso. apply (compare_ne i b); [|done]. by intros ->.
  - rewrite E. cbn. split; [by apply (sorted_split cmp)|]. set_solver.
Qed.
Lemma total_insert n n' v s : total_of n' (set_sg_total (<[n := v]> (sg_total s)) s) = if decide (n = n') then v else total_of n' s.
Proof. unfold total_of. cbn. rewrite lookup_insert. by case_decide. Qed.
Lemma no_regs_total s : sg_inv s -> sg_regs s = [] -> forall n, total_of n s = 0.
Proof. intros Hi E n. rewrite (gi_total _ Hi), E. done. Qed.

(** A tree key without the thread structures matters only to who is there. *)
Definition registered me i w s : St :=
  let n := signum_of i in let k := tree_key me i in
  set_sg_regs (sg_regs s ++ [i])
    (set_tree k (seq_insert cmp i (tree_of k s)).2
      (set_sg_handled (if total_of n s =? 0 then {[n]} ∪ sg_handled s else sg_handled s)
        (set_sg_total (<[n := total_of n s + 1]> (sg_total s))
          (set_sg_active (sg_active s ∖ {[i]})
            (set_sg_raw (<[i := me]> (sg_raw s)) (set_sg_w w (set_sg_owner_pid (sg_pid s) s))))))).
Lemma registered_fields me i w s : let s' := registered me i w s in
  sg_pid s' = sg_pid s /\ sg_owner_pid s' = sg_pid s /\ sg_posted s' = sg_posted s /\ sg_pc s' = sg_pc s /\ sg_owed s' = sg_owed s /\
  sg_regs s' = sg_regs s ++ [i] /\ sg_active s' = sg_active s ∖ {[i]} /\ sg_raw s' = <[i := me]> (sg_raw s) /\
  sg_handled s' = (if total_of (signum_of i) s =? 0 then {[signum_of i]} ∪ sg_handled s else sg_handled s) /\
  (forall n, total_of n s' = if decide (signum_of i = n) then total_of n s + 1 else total_of n s) /\
  (forall k, tree_of k s' = if decide (tree_key me i = k) then (seq_insert cmp i (tree_of k s)).2 else tree_of k s).
Proof.
  intros s'. unfold s', registered. split_and!; try (unfold Signal.tree_key; by destruct (this_thread _)).
  - intros n. unfold Signal.tree_key, total_of.
    destruct (this_thread _); cbn; rewrite lookup_insert; by destruct (decide (signum_of i = n)) as [->|].
  - intros k. assert (tree_of k (registered me i w s) = if decide (tree_key me i = k) then (seq_insert cmp i (tree_of (tree_key me i) s)).2 else tree_of k s) as E.
    { unfold registered. cbn zeta. set (s1 := set_sg_handled _ _). assert (forall k, tree_of k s1 = tree_of k s) as E1 by by intros [].
      rewrite <-(E1 k), <-tree_set_tree. by destruct k. }
    unfold registered in E. cbn zeta in E. rewrite E. by case_decide; simplify_eq.
Qed.
Lemma registered_inv me i w s : sg_inv s -> i ∉ sg_regs s -> sg_raw s !! i = None -> in_range (signum_of i) = true -> sg_inv (registered me i w s).
Proof.
  intros Hi Hn Hr Hrange. pose proof (registered_fields me i w s) as (Epid&Eo&Ep&Epc&Eow&Er&Ea&Ew&Eh&Et&Ek).
  set (s' := registered me i w s) in *. clearbody s'. pose proof Hi as [P1 P2 P3 P4 P5 P6 P7 P8 P9 P10 P11 P12].
  assert (forall j t, sg_raw s !! j = Some t -> j <> i) as Hji by (intros j t Hj ->; congruence).
  assert (forall k, i ∉ tree_of k s) as Hit by (intros k (?&_)%P2; done).
  assert (forall t, sg_pc s !! t = Some (GUnregister i) -> False) as Hun by (intros t Hp; destruct (P10 _ _ Hp) as [Hx _]; cbn in Hx; congruence).
  assert (forall k j, j ∈ tree_of k s -> j ∈ tree_of k s') as Htree.
  { intros k j Hj. rewrite Ek. destruct (decide _); [|done]. apply insert_sorted; [done|done|by right]. }
  assert (forall k n, owed k n s' = owed k n s) as Howed by (intros k n; unfold owed; by rewrite Eow).
  assert (forall j, j <> i -> live s j -> live s' j) as Hlive.
  { intros j Hne [H|[t H]]; [left; rewrite Ea; set_solver|right; exists t; by rewrite Epc]. }
  split.
  - rewrite Eo, Epid. split_and!; [apply P1|by right|done].
  - intros j k. rewrite Er, Ew, Ek. destruct (decide (j = i)) as [->|Hne].
    + rewrite lookup_insert_eq. destruct (decide _) as [<-|Hk].
      * split; [intros _; split; [set_solver|by eexists]|intros _; apply insert_sorted; [done|done|by left]].
      * split; [by intros ?%Hit|]. by intros (_&t&[= <-]&?).
    + rewrite lookup_insert_ne by done. assert (j ∈ sg_regs s ++ [i] <-> j ∈ sg_regs s) as -> by set_solver.
      rewrite <-P2. destruct (decide _); [|done]. rewrite (proj2 (insert_sorted i (tree_of k s) (P4 k) (Hit k))). naive_solver.
  - rewrite Er. split; [apply NoDup_app; split_and!; [apply P3|set_solver|apply NoDup_singleton]|].
    intros j [Hj| ->%list_elem_of_singleton]%elem_of_app; rewrite Ew.
    + destruct (proj2 P3 j Hj) as [? [t Ht]]. split; [done|]. rewrite lookup_insert_ne by (intros ->; congruence). by eexists.
    + rewrite lookup_insert_eq. split; [done|by eexists].
  - intros k. rewrite Ek. destruct (decide _); [by apply insert_sorted|apply P4].
  - intros j t. rewrite Ew, Er, Epc, lookup_insert. case_decide as E; [left; set_solver|]. intros Hj. destruct (P5 j t Hj); [left; set_solver|by right].
  - intros n. rewrite Et, Er, P6, for_signal_app, length_app.
    assert (for_signal n [i] = if decide (signum_of i = n) then [i] else []) as -> by (unfold AvlSearch.for_signal; rewrite filter_cons; by destruct (decide _)).
    destruct (decide _); cbn; lia.
  - intros n. rewrite Eh, Et. pose proof (P6 n). destruct (Z.eqb_spec (total_of (signum_of i) s) 0) as [E|E]; destruct (decide _) as [<-|Hne].
    + split; [lia|set_solver].
    + rewrite <-P7. set_solver.
    + rewrite P7. lia.
    + apply P7.
  - intros j. rewrite Ea, Er, Ep, Ew, Epc. intros [Hj Hne%not_elem_of_singleton]%elem_of_difference Hreg.
    rewrite lookup_insert_ne by done. apply P8; [done|set_solver].
  - intros j. rewrite Ep, Ew. intros Hj%P9. rewrite lookup_insert. case_decide; [by eexists|done].
  - intros t p. rewrite Epc, Ew, Er. intros Hp. destruct (P10 t p Hp) as [Hraw Hm]. rewrite lookup_insert_ne by (intros E0; rewrite <-E0 in Hraw; congruence).
    split; [done|]. destruct p; cbn in *; [set_solver|set_solver|]. assert (i0 <> i) by (intros ->; by eapply Hun). set_solver.
  - intros k n j. rewrite Howed. intros [? ?]%P11. split; [by apply Htree|done].
  - intros k n. destruct (P12 k n) as [(j&Hj&?&?&Hl)|H].
    + left. exists j. split_and!; [by apply Htree|done|done|]. apply Hlive; [|done]. intros ->. by apply Hit in Hj.
    + right. intros j. rewrite Howed. intros Hj. apply Hlive; [|by apply H]. intros ->. apply P11 in Hj as [Hj _]. by apply Hit in Hj.
Qed.
Lemma signal_tree_Ok me i s : is_Some (sg_threads s !! me) \/ this_thread (flags_of i) = false ->
  iv_signal_tree flags_of me i s = Ok (tree_key me i, s).
Proof.
  intros H. unfold iv_signal_tree, Signal.tree_key. destruct (this_thread (flags_of i)); [|done].
  destruct H as [[l E]|?]; [|done]. msimpl. by rewrite E.
Qed.
Lemma not_in_range n : (n <? 0) || (_NSIG <=? n) = negb (in_range n).
Proof.
  unfold in_range. destruct (Z.ltb_spec n 0), (Z.leb_spec 0 n), (Z.leb_spec _NSIG n), (Z.ltb_spec n _NSIG); try done; lia.
Qed.
Lemma register_section_spec me i s : sg_inv s ->
  wp sbreach (register_section signum_of flags_of me i) s (fun _ s' => sg_inv s' /\ sg_pc s' = sg_pc s).
Proof.
  intros Hi. unfold register_section. rewrite not_in_range. destruct (in_range (signum_of i)) eqn:Hr; cbn [negb]; [|by eapply wp_Ok; [reflexivity|]].
  do 2 wprim. wbind. apply (wp_mono _ _ _ (fun _ s1 => s1 = set_sg_owner_pid (sg_pid s) s)).
  { destruct (gi_pid _ Hi) as (Hp&[Ho|Ho]&_); rewrite Ho; [by eapply wp_Ok; [reflexivity|]|].
    rewrite Z.eqb_refl, andb_false_r. destruct (Z.eqb_spec (sg_pid s) 0); [lia|]. eapply wp_Ok; [reflexivity|]. rewrite <-Ho. by destruct s. }
  intros _ s1 ->. wprim. wbind. apply requires_spec; [by left|].
  intros [[Hn%bool_decide_eq_true Hraw%bool_decide_eq_true%not_elem_of_dom]%andb_true_iff Hme%bool_decide_eq_true%elem_of_dom]%andb_true_iff.
  cbn in Hn, Hraw, Hme. pose proof (law_raw_register i (sg_w s)) as Hlaw. cbn [sg_w set_sg_owner_pid].
  destruct (raw_register i (sg_w s)) as [ret w]. cbn in Hlaw. subst ret. cbn [Z.eqb when]. do 5 wprim. wbind.
  apply (wp_mono _ _ _ (fun _ s2 => s2 = set_sg_handled (if total_of (signum_of i) s =? 0 then {[signum_of i]} ∪ sg_handled s else sg_handled s)
    (set_sg_total (<[signum_of i := total_of (signum_of i) s + 1]> (sg_total s)) (set_sg_active (sg_active s ∖ {[i]})
      (set_sg_raw (<[i := me]> (sg_raw s)) (set_sg_w w (set_sg_owner_pid (sg_pid s) s))))))).
  { change (total_of (signum_of i) (set_sg_active _ _)) with (total_of (signum_of i) s).
    destruct (total_of (signum_of i) s =? 0); cbn [when]; [|by eapply wp_Ok; [reflexivity|]].
    destruct (sigaction_ok (signum_of i)); [by eapply wp_Ok; [reflexivity|]|by right; right]. }
  intros _ s2 ->. match goal with |- wp _ _ ?st _ => set (s2 := st) end.
  assert (iv_signal_tree flags_of me i s2 = Ok (tree_key me i, s2)) as Et by (apply signal_tree_Ok; left; exact Hme).
  wrun Et. do 2 wprim. eapply wp_Ok; [reflexivity|].
  match goal with |- sg_inv ?U /\ _ => assert (U = registered me i w s) as -> end.
  { unfold registered, s2. by destruct (tree_key me i). }
  split; [by apply registered_inv|by apply (registered_fields me i w s)].
Qed.

(** ** Unregistering *)
Lemma for_signal_remove i l n : NoDup l -> i ∈ l ->
  Z.of_nat (length (for_signal n (remove i l))) = Z.of_nat (length (for_signal n l)) - (if decide (signum_of i = n) then 1 else 0).
Proof.
  intros Hnd (l1&l2&->)%list_elem_of_split. rewrite remove_split by done. rewrite !for_signal_app, !length_app.
  unfold AvlSearch.for_signal at 4. rewrite filter_cons. destruct (decide (signum_of i = n)); cbn [length]; fold (for_signal n l2); lia.
Qed.
Lemma sorted_remove i l : StronglySorted (before cmp) l -> StronglySorted (before cmp) (remove i l).
Proof.
  unfold remove. induction 1 as [|a l Hs IH Ha]; [constructor|]. rewrite filter_cons. case_decide; [|done].
  constructor; [done|]. rewrite Forall_forall in *. intros b [_ Hb]%list_elem_of_filter. by apply Ha.
Qed.
(** What [iv_signal_unregister] leaves, with the interests [A] woken again. *)
Record unreg me i (A : gset loc) s U : Prop := {
  un_same : sg_pid U = sg_pid s /\ sg_owner_pid U = sg_owner_pid s /\ sg_raw U = sg_raw s;
  un_regs : sg_regs U = remove i (sg_regs s);
  un_pc : sg_pc U = <[me := GUnregister i]> (sg_pc s);
  un_tree : forall k, tree_of k U = remove i (tree_of k s);
  un_total : forall n, total_of n U = total_of n s - (if decide (signum_of i = n) then 1 else 0);
  un_handled : sg_handled U = if total_of (signum_of i) s - 1 =? 0 then sg_handled s ∖ {[signum_of i]} else sg_handled s;
  un_active : sg_active U = A ∪ sg_active s;
  un_posted : sg_posted U = A ∪ sg_posted s;
  un_owed : forall k n, owed k n U = owed k n s ∖ {[i]} }.
Lemma unreg_inv me i A s U : sg_inv s -> unreg me i A s U -> i ∈ sg_regs s -> sg_raw s !! i = Some me -> sg_pc s !! me = None ->
  (forall j, j ∈ A -> j ∈ sg_regs U) -> (forall k n, covered U k n) -> sg_inv U.
Proof.
  intros Hi [(Epid&Eo&Ew) Er Epc Ek Et Eh Ea Ep Eow] Hir Hraw Hpc HA Hc. pose proof Hi as [P1 P2 P3 P4 P5 P6 P7 P8 P9 P10 P11 P12].
  assert (forall j, j ∈ sg_regs U <-> j <> i /\ j ∈ sg_regs s) as Hregs by (intros j; by rewrite Er, elem_of_remove).
  split; try done.
  - rewrite Epid, Eo. split_and!; [apply P1|apply P1|]. intros _. apply P1. by intros E; rewrite E in Hir; apply not_elem_of_nil in Hir.
  - intros j k. rewrite Ek, elem_of_remove, Hregs, Ew, P2. naive_solver.
  - rewrite Er. split; [apply NoDup_remove, P3|]. intros j [? Hj]%elem_of_remove. rewrite Ew. by apply P3.
  - intros k. rewrite Ek. apply sorted_remove, P4.
  - intros j t. rewrite Ew, Hregs, Epc. intros Hj. destruct (decide (j = i)) as [-> |Hne].
    + assert (t = me) as -> by congruence. right. apply lookup_insert_eq.
    + destruct (P5 j t Hj) as [?|Hp]; [by left|]. right. rewrite lookup_insert_ne; [done|]. intros ->. congruence.
  - intros n. rewrite Et, Er, for_signal_remove, P6 by (done || apply P3). done.
  - intros n. rewrite Eh, Et. pose proof (P6 n) as Hn. destruct (Z.eqb_spec (total_of (signum_of i) s - 1) 0); destruct (decide _) as [<-|Hne].
    + split; [set_solver|lia].
    + rewrite Z.sub_0_r, <-P7. set_solver.
    + rewrite P7. assert (0 < total_of (signum_of i) s); [|lia]. rewrite P6.
      assert (i ∈ for_signal (signum_of i) (sg_regs s)) as Hin by (by apply elem_of_for_signal). destruct (for_signal _ _); [by apply not_elem_of_nil in Hin|cbn; lia].
    + by rewrite Z.sub_0_r.
  - intros j. rewrite Ea, Ep, Ew, Hregs, Epc. intros [Hj|Hj]%elem_of_union [Hne Hr]; [left; set_solver|].
    destruct (P8 j Hj Hr) as [?|(t&?&Hp)]; [left; set_solver|]. right. exists t. split; [done|].
    rewrite lookup_insert_ne; [done|]. intros ->. congruence.
  - intros j. rewrite Ep, Ew. intros [Hj%HA%Hregs|Hj]%elem_of_union; [apply P3; apply Hj|by apply P9].
  - intros t p. rewrite Epc, Ew, lookup_insert. case_decide as E.
    + intros [= <-]. subst t. split; [done|]. rewrite Hregs. naive_solver.
    + intros Hp. destruct (P10 t p Hp) as [Hrw Hm]. split; [done|]. assert (pc_of p <> i) by (intros E2; congruence).
      destruct p; cbn in *; rewrite Hregs; naive_solver.
  - intros k n j. rewrite Eow, Ek, elem_of_remove. intros [Hj ?%not_elem_of_singleton]%elem_of_difference. apply P11 in Hj. naive_solver.
Qed.
Definition unregistered me i s : St :=
  let n := signum_of i in let k := tree_key me i in
  set_sg_total (<[n := total_of n s - 1]> (sg_total s)) (set_sg_owed ((fun x => x ∖ {[i]}) <$> sg_owed s)
    (set_sg_pc (<[me := GUnregister i]> (sg_pc s)) (set_sg_regs (remove i (sg_regs s)) (set_tree k (remove i (tree_of k s)) s)))).
Lemma unreg_ok me i s l h : sg_inv s -> sg_raw s !! i = Some me ->
  h = (if total_of (signum_of i) s - 1 =? 0 then sg_handled s ∖ {[signum_of i]} else sg_handled s) ->
  unreg me i (list_to_set l) s (set_sg_handled h (woke l (unregistered me i s))).
Proof.
  intros Hi Hraw Hh. assert (forall k, tree_of k (unregistered me i s) = remove i (tree_of k s)) as Ek.
  { intros k. assert (tree_of k (unregistered me i s) = if decide (tree_key me i = k) then remove i (tree_of (tree_key me i) s) else tree_of k s) as ->.
    { rewrite <-tree_set_tree. unfold unregistered. cbn zeta. by destruct k. }
    destruct (decide _) as [->|Hne]; [done|]. rewrite remove_notin; [done|]. intros (_&t&?&->)%(gi_tree _ Hi). congruence. }
  split; try (unfold unregistered, Signal.tree_key; by destruct (this_thread _)).
  - intros k. rewrite <-Ek. by destruct k.
  - intros n. unfold unregistered, Signal.tree_key, total_of. destruct (this_thread _); cbn; rewrite lookup_insert;
      destruct (decide (signum_of i = n)) as [->|]; cbn; try done; lia.
  - intros k n. unfold owed. assert (sg_owed (set_sg_handled h (woke l (unregistered me i s))) = (fun x => x ∖ {[i]}) <$> sg_owed s) as ->.
    { unfold unregistered, Signal.tree_key. by destruct (this_thread _). }
    rewrite lookup_fmap. destruct (sg_owed s !! (k, n)); cbn; [done|set_solver].
Qed.
Lemma live_same me i A s U j : unreg me i A s U -> sg_pc s !! me = None -> live s j -> live U j.
Proof.
  intros Hu Hpc [H|[t H]]; [left; rewrite (un_active _ _ _ _ _ Hu); set_solver|right; exists t].
  rewrite (un_pc _ _ _ _ _ Hu), lookup_insert_ne; [done|]. intros <-. congruence.
Qed.
(** Unless the interest was covering for others, they are still covered. *)
Lemma unreg_covered me i A s U k n : sg_inv s -> unreg me i A s U -> sg_pc s !! me = None ->
  ~ (exclusive (flags_of i) = true /\ live s i /\ k = tree_key me i /\ signum_of i = n) -> sg_raw s !! i = Some me -> covered U k n.
Proof.
  intros Hi Hu Hpc Hn Hraw. destruct (gi_live _ Hi k n) as [(j&Hj&Hs&Hx&Hl)|H].
  - left. exists j. split_and!; [|done|done|by eapply live_same]. rewrite (un_tree _ _ _ _ _ Hu). apply elem_of_remove. split; [|done].
    intros ->. apply Hn. split_and!; try done. apply (gi_tree _ Hi) in Hj as (_&t&?&->). congruence.
  - right. intros j. rewrite (un_owed _ _ _ _ _ Hu). intros [Hj _]%elem_of_difference. eapply live_same; [done|done|by apply H].
Qed.
Lemma not_calling me i s : sg_inv s -> sg_raw s !! i = Some me -> sg_pc s !! me = None -> live s i -> i ∈ sg_active s.
Proof. intros Hi Hraw Hpc [?|[t Ht]]; [done|]. destruct (gi_pc _ Hi _ _ Ht) as [E _]. cbn in E. congruence. Qed.
(** The last interest for a signal owes nothing to others. *)
Lemma unreg_last me i A s U : sg_inv s -> unreg me i A s U -> i ∈ sg_regs s -> total_of (signum_of i) s - 1 = 0 ->
  covered U (tree_key me i) (signum_of i).
Proof.
  intros Hi Hu Hr Ht. right. intros j. rewrite (un_owed _ _ _ _ _ Hu). intros [Hj Hne%not_elem_of_singleton]%elem_of_difference. exfalso.
  apply (gi_owed _ Hi) in Hj as [Hj Hs]. apply (gi_tree _ Hi) in Hj as (Hj&_). rewrite (gi_total _ Hi) in Ht.
  assert (i ∈ for_signal (signum_of i) (sg_regs s)) as H1 by (by apply elem_of_for_signal).
  assert (j ∈ for_signal (signum_of i) (sg_regs s)) as H2 by (by apply elem_of_for_signal).
  destruct (for_signal _ _) as [|a [|b q]]; [by apply not_elem_of_nil in H1| |cbn in Ht; lia].
  apply list_elem_of_singleton in H1, H2. congruence.
Qed.
Lemma unreg_woken me i s U : sg_inv s -> let l := woken_by (signum_of i) (tree_of (tree_key me i) U) in
  unreg me i (list_to_set l) s U -> covered U (tree_key me i) (signum_of i).
Proof.
  intros Hi l Hu.
  destruct (woken_by_split signum_of flags_of (signum_of i) (tree_of (tree_key me i) U)) as [(j&E&Hx)|[E _]].
  { rewrite (un_tree _ _ _ _ _ Hu). apply sorted_remove, (gi_sorted _ Hi). }
  - left. exists j. destruct (woken_in (signum_of i) (tree_of (tree_key me i) U) j) as [??]; [rewrite E; by left|]. split_and!; try done.
    left. rewrite (un_active _ _ _ _ _ Hu). unfold l. rewrite E. set_solver.
  - right. intros j Hj. left. rewrite (un_active _ _ _ _ _ Hu). unfold l. rewrite E. apply elem_of_union_l, elem_of_list_to_set, elem_of_for_signal.
    rewrite (un_owed _ _ _ _ _ Hu) in Hj. apply elem_of_difference in Hj as [Hj ?%not_elem_of_singleton]. apply (gi_owed _ Hi) in Hj as [??].
    split; [done|]. rewrite (un_tree _ _ _ _ _ Hu). by apply elem_of_remove.
Qed.
Lemma unregister_section_spec me i s : sg_inv s -> sg_pc s !! me = None ->
  wp sbreach (unregister_section signum_of flags_of me i) s (fun _ s' => sg_inv s' /\ sg_pc s' = <[me := GUnregister i]> (sg_pc s)).
Proof.
  intros Hi Hpc. unfold unregister_section. rewrite not_in_range. destruct (in_range (signum_of i)) eqn:Hr; cbn [negb]; [|by right; left].
  wprim. wbind. apply requires_spec; [by left|]. intros [Hin%bool_decide_eq_true Hraw%bool_decide_eq_true]%andb_true_iff.
  assert (iv_signal_tree flags_of me i s = Ok (tree_key me i, s)) as Et.
  { apply signal_tree_Ok. destruct (this_thread (flags_of i)) eqn:Hth; [left|by right].
    assert (i ∈ tree_of (tree_key me i) s) as Hit by (apply (gi_tree _ Hi); split; [done|by exists me]).
    unfold Signal.tree_key in Hit. rewrite Hth in Hit. cbn in Hit. destruct (sg_threads s !! me); [by eexists|by apply not_elem_of_nil in Hit]. }
  wrun Et. do 3 wprim. wprim. wprim. wprim. match goal with |- wp _ _ ?st _ => assert (st = unregistered me i s) as -> end.
  { unfold unregistered, Signal.tree_key. by destruct (this_thread _). }
  match goal with |- context [total_of (signum_of i) ?X - 1] => assert (total_of (signum_of i) X = total_of (signum_of i) s) as -> end.
  { unfold Signal.tree_key. by destruct (this_thread _). }
  assert (sg_active (unregistered me i s) = sg_active s) as -> by (unfold unregistered, Signal.tree_key; by destruct (this_thread _)).
  assert (forall l h U, unreg me i (list_to_set l) s U -> (forall j, j ∈ l -> j ∈ tree_of (tree_key me i) U) -> sg_handled U = h ->
    (exclusive (flags_of i) = true -> live s i -> covered U (tree_key me i) (signum_of i)) -> sg_inv U /\ sg_pc U = <[me := GUnregister i]> (sg_pc s)) as Hend.
  { intros l h U Hu Hl _ Hc. split; [|apply (un_pc _ _ _ _ _ Hu)]. eapply unreg_inv; try done.
    - intros j Hj%elem_of_list_to_set%Hl. rewrite (un_tree _ _ _ _ _ Hu) in Hj. apply elem_of_remove in Hj as [? Hj].
      rewrite (un_regs _ _ _ _ _ Hu). apply elem_of_remove. split; [done|]. by apply (gi_tree _ Hi) in Hj as [? _].
    - intros k n. destruct (decide (exclusive (flags_of i) = true /\ k = tree_key me i /\ signum_of i = n)) as [(?&->&<-)|Hno].
      + destruct (decide (i ∈ sg_active s)) as [Ha|Hna]; [by apply Hc; [|left]|]. eapply unreg_covered; try done. intros (_&Hl'&_). by apply Hna, (not_calling me).
      + eapply unreg_covered; try done. naive_solver. }
  destruct (Z.eqb_spec (total_of (signum_of i) s - 1) 0) as [E0|E0].
  - eapply wp_Ok; [reflexivity|]. rewrite <-(woke_nil (unregistered me i s)). eapply (Hend []); [apply unreg_ok; try done| |done|].
    + rewrite E0. cbn. unfold unregistered, Signal.tree_key. by destruct (this_thread _).
    + by intros j ?%not_elem_of_nil.
    + intros _ _. eapply unreg_last; [done| |done|done]. apply unreg_ok; try done. rewrite E0. cbn. unfold unregistered, Signal.tree_key. by destruct (this_thread _).
  - assert (forall l, set_sg_handled (sg_handled s) (woke l (unregistered me i s)) = woke l (unregistered me i s)) as Eh.
    { intros l. unfold unregistered, Signal.tree_key. by destruct (this_thread _). }
    assert (forall l, unreg me i (list_to_set l) s (woke l (unregistered me i s))) as Hu.
    { intros l. rewrite <-Eh. apply unreg_ok; try done. by rewrite (proj2 (Z.eqb_neq _ _) E0). }
    destruct (exclusive (flags_of i) && bool_decide (i ∈ sg_active s)) eqn:Hx; cbn [when].
    + wbind. eapply wp_Ok; [apply do_wake_Ok|].
      { intros j Hj. pose proof (un_tree _ _ _ _ _ (Hu []) (tree_key me i)) as Ek. rewrite woke_nil in Ek. rewrite Ek in Hj. apply elem_of_remove in Hj as [_ Hj].
        pose proof (un_same _ _ _ _ _ (Hu [])) as (_&_&Ew). rewrite woke_nil in Ew. rewrite Ew. by eapply tree_raw. }
      eapply wp_Ok; [reflexivity|]. set (l := woken_by _ _). assert (tree_of (tree_key me i) (woke l (unregistered me i s)) = tree_of (tree_key me i) (unregistered me i s)) as Ek by by destruct (tree_key me i).
      eapply (Hend l); [apply Hu| |done|].
      * rewrite Ek. by intros j [Hj _]%woken_in.
      * intros _ _. apply (unreg_woken me i s); [done|]. rewrite Ek. apply Hu.
    + eapply wp_Ok; [reflexivity|]. rewrite <-(woke_nil (unregistered me i s)). eapply (Hend []); [apply Hu| |done|].
      * by intros j ?%not_elem_of_nil.
      * intros Hx2 Hl. rewrite Hx2 in Hx. cbn in Hx. apply bool_decide_eq_false in Hx. by apply (not_calling me) in Hl.
Qed.
(** ** The other actions *)
Lemma sig_raw_unregister_spec me i s : sg_inv s -> sg_pc s !! me = Some (GUnregister i) ->
  wp sbreach (unregister_event me i) s (fun _ s' => sg_inv s' /\ sg_pc s' = delete me (sg_pc s)).
Proof.
  intros Hi Hpc. unfold unregister_event. do 2 wprim. eapply wp_Ok; [reflexivity|]. split; [|done].
  destruct (gi_pc _ Hi _ _ Hpc) as [Hraw Hn]. cbn in Hraw, Hn. destruct Hi as [P1 P2 P3 P4 P5 P6 P7 P8 P9 P10 P11 P12].
  assert (forall j t, sg_raw s !! j = Some t -> j ∈ sg_regs s -> delete i (sg_raw s) !! j = Some t) as Hkeep.
  { intros j t Hj Hr. rewrite lookup_delete_ne; [done|]. by intros ->. }
  split; try done; cbn.
  - intros j k. transitivity (j ∈ sg_regs s /\ exists t, sg_raw s !! j = Some t /\ k = tree_key t j); [exact (P2 j k)|].
    split; intros [Hr (t&Hj&->)]; split; try done; exists t; split; try done; [by apply Hkeep|].
    by apply lookup_delete_Some in Hj as [_ ?].
  - split; [apply P3|]. intros j Hj. destruct (proj2 P3 j Hj) as [? [t Ht]]. split; [done|]. exists t. by apply Hkeep.
  - intros j t [Hne Hj]%lookup_delete_Some. destruct (P5 j t Hj) as [?|Hp]; [by left|right]. rewrite lookup_delete_ne; [done|]. intros ->. congruence.
  - intros j Hj Hr. destruct (P8 j Hj Hr) as [?|(t&Ht&Hp)]; [left|right; exists t; split; [by apply Hkeep|]].
    + apply elem_of_difference. split; [done|]. by intros ->%elem_of_singleton.
    + rewrite lookup_delete_ne; [done|]. intros ->. congruence.
  - intros j [Hj%P9 Hne%not_elem_of_singleton]%elem_of_difference. by rewrite lookup_delete_ne.
  - intros t p [Hne Hp]%lookup_delete_Some. destruct (P10 t p Hp) as [Hj Hm]. split; [|done]. rewrite lookup_delete_ne; [done|]. intros E. congruence.
  - intros k n. destruct (P12 k n) as [(j&Hj&?&?&Hl)|H]; [left; exists j; split_and!; try done|right; intros j Hj; specialize (H j Hj)].
    + destruct Hl as [?|[t Ht]]; [by left|right; exists t]. cbn. rewrite lookup_delete_ne; [done|]. intros ->. congruence.
    + destruct H as [?|[t Ht]]; [by left|right; exists t]. cbn. rewrite lookup_delete_ne; [done|]. intros ->. congruence.
Qed.
Lemma clear_active_spec me i s : sg_inv s -> sg_pc s !! me = Some (GEvent i) ->
  wp sbreach (clear_active me i) s (fun _ s' => sg_inv s' /\ sg_pc s' = <[me := GCall i]> (sg_pc s)).
Proof.
  intros Hi Hpc. unfold clear_active. wprim. eapply wp_Ok; [reflexivity|]. split; [|done].
  destruct (gi_pc _ Hi _ _ Hpc) as [Hraw Hr]. cbn in Hraw, Hr. destruct Hi as [P1 P2 P3 P4 P5 P6 P7 P8 P9 P10 P11 P12].
  assert (forall j, live s j -> live (set_sg_pc (<[me := GCall i]> (sg_pc s)) (set_sg_active (sg_active s ∖ {[i]}) s)) j) as Hlive.
  { intros j [Hj|[t Ht]].
    - destruct (decide (j = i)) as [->|]; [right; exists me; apply lookup_insert_eq|left; cbn; set_solver].
    - right. exists t. cbn. rewrite lookup_insert_ne; [done|]. intros ->. congruence. }
  split; try done; cbn.
  - intros j t Hj. destruct (P5 j t Hj) as [?|Hp]; [by left|right]. rewrite lookup_insert_ne; [done|]. intros ->. congruence.
  - intros j [Hj Hne%not_elem_of_singleton]%elem_of_difference Hjr. destruct (P8 j Hj Hjr) as [?|(t&Ht&Hp)]; [by left|right; exists t; split; [done|]].
    rewrite lookup_insert_ne; [done|]. intros ->. congruence.
  - intros t p. rewrite lookup_insert. case_decide as E; [intros [= <-]; by subst t|apply P10].
  - intros k n. destruct (P12 k n) as [(j&?&?&?&?)|H]; [left; exists j; split_and!; auto|right; intros j Hj; apply Hlive, H, Hj].
Qed.
Lemma sig_handler_call_spec handler me i s : sg_inv s -> sg_pc s !! me = Some (GCall i) ->
  wp sbreach (sig_handler_call signum_of flags_of handler me i) s (fun _ s' => sg_inv s' /\ sg_pc s' = delete me (sg_pc s)).
Proof.
  intros Hi Hpc. unfold sig_handler_call. do 3 wprim. eapply wp_Ok; [reflexivity|]. split; [|done].
  destruct (gi_pc _ Hi _ _ Hpc) as [Hraw Hr]. cbn in Hraw, Hr. destruct Hi as [P1 P2 P3 P4 P5 P6 P7 P8 P9 P10 P11 P12].
  match goal with |- sg_inv ?U => set (U0 := U) end.
  assert (forall k n, owed k n U0 = if decide ((tree_key me i, signum_of i) = (k, n)) then ∅ else owed k n s) as Howed.
  { intros k n. unfold owed, U0. cbn. rewrite lookup_insert. by destruct (decide _). }
  assert (forall j, live s j -> j <> i -> live U0 j) as Hlive.
  { intros j [Hj|[t Ht]] Hne; [by left|right; exists t]. cbn. rewrite lookup_delete_ne; [done|]. intros ->. congruence. }
  assert (forall k n, i ∈ tree_of k s -> signum_of i = n -> (tree_key me i, signum_of i) = (k, n)) as Hkey.
  { intros k n (_&t&?&->)%P2 <-. congruence. }
  split; try done.
  - intros j t Hj. destruct (P5 j t Hj) as [?|Hp]; [by left|right]. cbn. rewrite lookup_delete_ne; [done|]. intros ->. congruence.
  - intros j Hj Hjr. destruct (P8 j Hj Hjr) as [?|(t&Ht&Hp)]; [by left|right; exists t; split; [done|]].
    cbn. rewrite lookup_delete_ne; [done|]. intros ->. congruence.
  - intros t p Hp. cbn in Hp. apply lookup_delete_Some in Hp as [Hne Hp]. by apply P10.
  - intros k n j. rewrite Howed. destruct (decide _); [by intros ?%not_elem_of_empty|apply P11].
  - intros k n. destruct (decide ((tree_key me i, signum_of i) = (k, n))) as [E|Hne].
    { right. intros j. rewrite Howed, decide_True by done. by intros ?%not_elem_of_empty. }
    destruct (P12 k n) as [(j&Hj&Hs&?&Hl)|H].
    + left. exists j. split_and!; try done. apply Hlive; [done|]. intros ->. by apply Hne, Hkey.
    + right. intros j. rewrite Howed, decide_False by done. intros Hj. apply Hlive; [by apply H|]. intros ->. apply P11 in Hj as [??]. by apply Hne, Hkey.
Qed.
Lemma take_posted_spec me i s : sg_inv s -> sg_pc s !! me = None ->
  wp sbreach (take_posted me i) s (fun b s' => sg_inv s' /\ sg_pc s' = if b then <[me := GEvent i]> (sg_pc s) else sg_pc s).
Proof.
  intros Hi Hpc. unfold take_posted. wprim. case_bool_decide as Hp; cbn [andb]; [|by eapply wp_Ok; [reflexivity|]].
  case_bool_decide as Hraw; [|by eapply wp_Ok; [reflexivity|]]. wprim. eapply wp_Ok; [reflexivity|]. split; [|done].
  destruct Hi as [P1 P2 P3 P4 P5 P6 P7 P8 P9 P10 P11 P12].
  assert (i ∈ sg_regs s) as Hr by (destruct (P5 i me Hraw); [done|congruence]).
  assert (forall j, live s j -> live (set_sg_pc (<[me := GEvent i]> (sg_pc s)) (set_sg_posted (sg_posted s ∖ {[i]}) s)) j) as Hlive.
  { intros j [Hj|[t Ht]]; [by left|right; exists t]. cbn. rewrite lookup_insert_ne; [done|]. intros ->. congruence. }
  split; try done; cbn.
  - intros j t Hj. destruct (P5 j t Hj) as [?|Hp']; [by left|right]. rewrite lookup_insert_ne; [done|]. intros ->. congruence.
  - intros j Hj Hjr. destruct (decide (j = i)) as [->|Hne]; [right; exists me; split; [done|apply lookup_insert_eq]|].
    destruct (P8 j Hj Hjr) as [?|(t&Ht&Hp')]; [left; set_solver|right; exists t; split; [done|]].
    rewrite lookup_insert_ne; [done|]. intros ->. congruence.
  - intros j [Hj _]%elem_of_difference. by apply P9.
  - intros t p. rewrite lookup_insert. case_decide as E; [intros [= <-]; by subst t|apply P10].
  - intros k n. destruct (P12 k n) as [(j&?&?&?&?)|H]; [left; exists j; split_and!; auto|right; intros j Hj; apply Hlive, H, Hj].
Qed.
End spec.
