(* ===== verification/SignalProps.v ===== *)
(** * What holds in every run of any number of threads with signals *)

From S2P Require Import AvlSpec AvlSearch Prelude Conc Signal SignalSpec.

Local Open Scope Z_scope.

Section props.
Context {W : Type} `{!SignalWorld W, HL : !SignalLaws W}.
Context (signum_of flags_of : loc -> Z).
Context (handler : loc -> list loc -> list sig_call).
Abbreviation St := (sig_state W).
Implicit Types (s : St) (t me i : loc) (n : Z) (k : option loc).
Abbreviation sgc := (wpc (sg_inv (W := W) signum_of flags_of) sg_aux sbreach).
Abbreviation inv := (sg_inv signum_of flags_of).

(** ** The programs, one thread at a time *)
Lemma act_sgc me {A B} (m : M St A) (k : A -> prog St B) l (f : A -> option sig_pc) Q :
  (forall s, inv s -> sg_pc s !! me = l -> wp sbreach m s (fun a s' => inv s' /\ sg_pc s' = partial_alter (fun _ => f a) me (sg_pc s))) ->
  (forall a, sgc me (k a) (f a) Q) -> sgc me (a ← act m; k a) l Q.
Proof.
  intros Hm Hk. apply wpc_bind, wpc_act. intros s Hi Hl. eapply wp_mono; [by apply Hm|]. cbv beta. intros a s' [Hi' Hp].
  unfold sg_aux. rewrite Hp. split_and!; [done|intros t' Hne; by rewrite lookup_partial_alter_ne|].
  rewrite lookup_partial_alter_eq. apply Hk.
Qed.
(** An action that changes no thread's place. *)
Lemma quiet_sgc me {A B} (m : M St A) (k : A -> prog St B) l Q :
  (forall s, inv s -> sg_pc s !! me = l -> wp sbreach m s (fun _ s' => inv s' /\ sg_pc s' = sg_pc s)) ->
  (forall a, sgc me (k a) l Q) -> sgc me (a ← act m; k a) l Q.
Proof.
  intros Hm Hk. apply (act_sgc me m k l (fun _ => l)); [|done]. intros s Hi Hl. eapply wp_mono; [by apply Hm|]. cbv beta.
  intros a s' [? E]. split; [done|]. rewrite E, <-Hl. symmetry. apply partial_alter_self.
Qed.
Lemma last_sgc me {A} (m : M St A) l (f : A -> option sig_pc) Q :
  (forall s, inv s -> sg_pc s !! me = l -> wp sbreach m s (fun a s' => inv s' /\ sg_pc s' = partial_alter (fun _ => f a) me (sg_pc s))) ->
  (forall a, Q a (f a)) -> sgc me (act m) l Q.
Proof. intros Hm HQ. exact (act_sgc me m Ret l f Q Hm HQ). Qed.
Abbreviation idle_after := (fun _ (l : option sig_pc) => l = None).

Lemma handler_sgc x t n : sgc x (iv_signal_handler signum_of flags_of t n) None (fun _ l => l = None).
Proof.
  unfold iv_signal_handler. apply quiet_sgc; [intros s Hi _; by apply handler_thread_spec|]. intros [|]; [|done].
  apply (quiet_sgc x _ Ret); [intros s Hi _; by apply handler_process_spec|done].
Qed.
Lemma unregister_sgc me i : sgc me (iv_signal_unregister signum_of flags_of me i) None (fun _ l => l = None).
Proof.
  unfold iv_signal_unregister. apply (act_sgc me _ _ _ (fun _ => Some (GUnregister i))); [intros s Hi Hl; by apply unregister_section_spec|].
  intros _. apply (last_sgc me _ _ (fun _ => None)); [|done]. intros s Hi Hl. by apply sig_raw_unregister_spec.
Qed.
Lemma sig_calls_sgc me cs : sgc me (run_sig_calls signum_of flags_of me cs) None (fun _ l => l = None).
Proof.
  induction cs as [|c cs IH]; [done|]. cbn [run_sig_calls]. apply wpc_bind. apply (wpc_mono _ _ _ _ _ _ (fun _ l => l = None)); [|by intros _ ? ->].
  destruct c as [i|i]; cbn [run_sig_call]; [|apply unregister_sgc].
  apply (quiet_sgc me _ (fun _ => mret tt)); [intros s Hi _; by apply register_section_spec|done].
Qed.
Lemma posted_sgc me i : sgc me (signal_posted signum_of flags_of handler me i) None (fun _ l => l = None).
Proof.
  unfold signal_posted. apply (act_sgc me _ _ _ (fun b : bool => if b then Some (GEvent i) else None)).
  { intros s Hi Hl. eapply wp_mono; [by apply take_posted_spec|]. cbv beta. intros [] s' [? E]; [by split|].
    split; [done|]. rewrite E, <-Hl. symmetry. apply partial_alter_self. }
  intros [|]; [|done]. unfold iv_signal_event. apply (act_sgc me _ _ _ (fun _ => Some (GCall i))); [intros s Hi Hl; by apply clear_active_spec|].
  intros _. apply (act_sgc me _ _ _ (fun _ => None)); [intros s Hi Hl; by apply sig_handler_call_spec|]. intros cs. apply sig_calls_sgc.
Qed.

(** ** Every interleaving

    What begins: the event loop of a thread finds a raw event posted, the client makes
    calls, or a signal arrives in a thread, as a program of its own (any entry of the
    pool of programs runs it), so that it can come between any two actions. *)
Inductive sig_start := SPosted (i : loc) | SSigCalls (cs : list sig_call) | SDeliver (t : loc) (n : Z).
Definition sig_begin t (b : sig_start) : option (prog St unit) := Some
  match b with
  | SPosted i => signal_posted signum_of flags_of handler t i
  | SSigCalls cs => run_sig_calls signum_of flags_of t cs
  | SDeliver t' n => iv_signal_handler signum_of flags_of t' n
  end.
Definition sig_may_start t (p : prog St unit) : Prop := exists b, sig_begin t b = Some p.
(** Threads that called [iv_init], and [names] for the arrivals of signals. *)
Definition sig_boot (ts names : gset loc) (pid : Z) (w : W) : config :=
  (mk_sg pid 0 ∅ [] (gset_to_gmap [] ts) ∅ ∅ ∅ ∅ ∅ [] ∅ [] w, gset_to_gmap (Ret tt) (ts ∪ names)).
Definition sig_reachable (c : config) : Prop := exists ts names pid w, 0 < pid /\ steps sig_may_start (sig_boot ts names pid w) c.

Lemma sig_boot_ok ts names pid w : 0 < pid -> config_ok inv sg_aux None sbreach (sig_boot ts names pid w).
Proof.
  intros Hp. split; cbn; [|by intros t p [_ <-]%lookup_gset_to_gmap_Some].
  assert (forall k, tree_of k (sig_boot ts names pid w).1 = []) as Ek.
  { intros [t|]; cbn; [|done]. rewrite lookup_gset_to_gmap. by destruct (guard _). }
  split; cbn; try done.
  - split_and!; [done|by left|done].
  - intros i k. rewrite Ek. split; [by intros ?%not_elem_of_nil|by intros [?%not_elem_of_nil _]].
  - split; [constructor|by intros i ?%not_elem_of_nil].
  - intros k. rewrite Ek. constructor.
  - intros k n. right. intros i. unfold owed. cbn. by intros ?%not_elem_of_empty.
Qed.
Lemma sig_start_ok t p : sig_may_start t p -> sgc t p None (fun _ l => l = None).
Proof. intros [[i|cs|t' n] [= <-]]; [apply posted_sgc|apply sig_calls_sgc|apply handler_sgc]. Qed.
Lemma sig_reachable_ok c : sig_reachable c -> config_ok inv sg_aux None sbreach c.
Proof. intros (ts&names&pid&w&Hp&Hs). eapply steps_ok; [exact sig_start_ok|by apply sig_boot_ok|exact Hs]. Qed.

Lemma live_on_its_way s i : inv s -> i ∈ sg_regs s -> live s i ->
  i ∈ sg_posted s \/ exists t, sg_raw s !! i = Some t /\ (sg_pc s !! t = Some (GEvent i) \/ sg_pc s !! t = Some (GCall i)).
Proof.
  intros Hi Hr [Ha|[t Ht]].
  - destruct (gi_active _ _ _ Hi i Ha Hr) as [?|(t&?&?)]; [by left|right; exists t; auto].
  - right. exists t. destruct (gi_pc _ _ _ Hi _ _ Ht) as [? _]. auto.
Qed.

(** C4. No signal is lost, however the threads and the arrivals interleave: while an
    interest that was registered when its signal arrived is owed a call (no handler
    for that signal was called since, on its tree), some interest for the signal has its
    raw event posted or is about to be called.  So when everything has come to rest
    and no raw event is posted, nothing is owed: unregistering an interest that was
    woken passes the signal on. *)
Theorem iv_signal_no_lost s pool k n : sig_reachable (s, pool) ->
  (owed k n s <> ∅ -> exists i, i ∈ tree_of k s /\ signum_of i = n /\
     (i ∈ sg_posted s \/ exists t, sg_raw s !! i = Some t /\ (sg_pc s !! t = Some (GEvent i) \/ sg_pc s !! t = Some (GCall i)))) /\
  ((forall t p, pool !! t = Some p -> p = Ret tt) -> (forall i t, sg_raw s !! i = Some t -> is_Some (pool !! t)) ->
   sg_posted s = ∅ -> owed k n s = ∅).
Proof.
  intros Hr. destruct (sig_reachable_ok _ Hr) as [Hi Ht]. cbn in Hi, Ht.
  assert (owed k n s <> ∅ -> exists i, i ∈ tree_of k s /\ signum_of i = n /\ live s i) as Hlive.
  { intros Ho. destruct (gi_live _ _ _ Hi k n) as [(i&?&?&_&?)|H]; [by exists i|]. apply set_choose_L in Ho as [i Hin].
    destruct (gi_owed _ _ _ Hi _ _ _ Hin). exists i. auto. }
  split.
  - intros Ho. destruct (Hlive Ho) as (i&Hin&?&Hl). exists i. split_and!; [done|done|]. apply live_on_its_way; [done| |done].
    by apply (gi_tree _ _ _ Hi) in Hin as [? _].
  - intros Hret Hdom Hp. destruct (decide (owed k n s = ∅)) as [|Ho]; [done|exfalso]. destruct (Hlive Ho) as (i&Hin&?&Hl).
    assert (forall t p, pool !! t = Some p -> sg_pc s !! t = None) as Hidle.
    { intros t p Hpt. pose proof (Ht t p Hpt) as H1. rewrite (Hret t p Hpt) in H1. exact H1. }
    apply (gi_tree _ _ _ Hi) in Hin as (Hreg&_). destruct (live_on_its_way s i Hi Hreg Hl) as [?|(t&Hraw&Hpc)]; [set_solver|].
    destruct (Hdom i t Hraw) as [p Hpt]. rewrite (Hidle t p Hpt) in Hpc. by destruct Hpc.
Qed.

(** The disposition of a signal is the library's handler exactly while there are
    interests for it, [total_num_interests] counts them, each is on the tree its flags
    ask for, in order, and nowhere else. *)
Theorem iv_signal_installed s pool : sig_reachable (s, pool) ->
  (forall n, n ∈ sg_handled s <-> exists i, i ∈ sg_regs s /\ signum_of i = n) /\
  (forall n, total_of n s = Z.of_nat (length (for_signal signum_of n (sg_regs s)))) /\
  (forall k, StronglySorted (before (iv_signal_compare signum_of flags_of)) (tree_of k s)) /\
  (forall i k, i ∈ tree_of k s <-> i ∈ sg_regs s /\ exists t, sg_raw s !! i = Some t /\ k = tree_key flags_of t i).
Proof.
  intros Hr. pose proof (co_inv _ _ _ _ _ (sig_reachable_ok _ Hr)) as Hi. cbn in Hi.
  split_and!; [|apply (gi_total _ _ _ Hi)|apply (gi_sorted _ _ _ Hi)|apply (gi_tree _ _ _ Hi)].
  intros n. rewrite (gi_handled _ _ _ Hi), (gi_total _ _ _ Hi). split.
  - intros Hlen. destruct (for_signal signum_of n (sg_regs s)) as [|i q] eqn:E; [cbn in Hlen; lia|].
    exists i. assert (i ∈ for_signal signum_of n (sg_regs s)) as Hin by (rewrite E; by left). apply elem_of_for_signal in Hin. naive_solver.
  - intros (i&Hin&Hs). assert (i ∈ for_signal signum_of n (sg_regs s)) as Hf by (by apply elem_of_for_signal).
    destruct (for_signal _ _ _); [by apply not_elem_of_nil in Hf|cbn; lia].
Qed.

(** C26. No thread and no signal handler ever does anything undefined, whatever the
    others do, as long as the client keeps to the interface and registering the raw event
    of an interest succeeds ([law_raw_register], which SignalRaw.v shows of
    [iv_event_raw_register] where the kernel has descriptors to give; iv_signal.c ignores
    its result, and [iv_signal_register_ignores_failure] is what follows).  The program is aborted only
    for a breach of the interface, an unregistration with a signal number out of range,
    or a signal that sigaction(2) refuses. *)
Theorem iv_signal_safe s pool t B (m : M St B) (go_on : B -> prog St unit) : sig_reachable (s, pool) -> pool !! t = Some (Act m go_on) ->
  wp sbreach m s (fun _ _ => True).
Proof. intros Hr Hp. exact (config_safe _ _ _ _ (s, pool) t B m go_on (sig_reachable_ok _ Hr) Hp). Qed.
End props.

(** ** After a fork *)
Lemma reset_signals_Ok {W} (l : list Z) : forall (s : sig_state W), exists h m, reset_signals l s = Ok (tt, set_sg_total m (set_sg_handled h s)) /\
  (forall n, total_of n (set_sg_total m s) = if decide (n ∈ l) then 0 else total_of n s) /\
  (forall n, n ∈ h <-> n ∈ sg_handled s /\ (n ∈ l -> total_of n s = 0)).
Proof.
  induction l as [|x l IH]; intros s.
  - exists (sg_handled s), (sg_total s). split; [by destruct s|]. split; intros n; [by rewrite decide_False by apply not_elem_of_nil|].
    split; [intros ?; split; [done|by intros ?%not_elem_of_nil]|by intros [? _]].
  - cbn [reset_signals].
    assert ((t ← gets (total_of x); when (negb (t =? 0)) (modify (fun s => set_sg_handled (sg_handled s ∖ {[x]}) s);;
      modify (fun s => set_sg_total (<[x := 0]> (sg_total s)) s));; reset_signals l) s =
      reset_signals l (if total_of x s =? 0 then s else set_sg_total (<[x := 0]> (sg_total s)) (set_sg_handled (sg_handled s ∖ {[x]}) s))) as ->.
    { msimpl. by destruct (total_of x s =? 0). }
    destruct (Z.eqb_spec (total_of x s) 0) as [E|E].
    + destruct (IH s) as (h&m&Er&Ht&Hh). exists h, m. split; [exact Er|]. split; intros n.
      * rewrite Ht. destruct (decide (n ∈ l)); [by rewrite decide_True by by right|]. destruct (decide (n = x)) as [->|]; [by rewrite decide_True by by left|].
        rewrite decide_False; [done|]. by intros [?|?]%elem_of_cons.
      * rewrite Hh, elem_of_cons. naive_solver.
    + destruct (IH (set_sg_total (<[x := 0]> (sg_total s)) (set_sg_handled (sg_handled s ∖ {[x]}) s))) as (h&m&Er&Ht&Hh).
      exists h, m. split; [exact Er|].
      assert (forall n, total_of n (set_sg_total (<[x := 0]> (sg_total s)) (set_sg_handled (sg_handled s ∖ {[x]}) s)) = if decide (x = n) then 0 else total_of n s) as Ex.
      { intros n. unfold total_of. cbn. rewrite lookup_insert. by destruct (decide (x = n)). }
      split; intros n.
      * change (total_of n (set_sg_total m s)) with (total_of n (set_sg_total m (set_sg_total (<[x := 0]> (sg_total s)) (set_sg_handled (sg_handled s ∖ {[x]}) s)))).
        rewrite Ht, Ex. destruct (decide (n ∈ l)); [by rewrite decide_True by by right|]. destruct (decide (x = n)) as [->|]; [by rewrite decide_True by by left|].
        rewrite decide_False; [done|]. intros [?|?]%elem_of_cons; congruence.
      * rewrite Hh, Ex, elem_of_cons. cbn. rewrite elem_of_difference, not_elem_of_singleton. destruct (decide (x = n)); naive_solver.
Qed.
(** The process forked: the child sees the parent's state, but another process. *)
Definition forked {W} (pid : Z) (s : sig_state W) : sig_state W := set_sg_pid pid s.

Lemma reset_postfork_Ok {W} signum_of flags_of (s : sig_state W) pid me l : sg_inv signum_of flags_of s -> sg_threads s !! me = Some l ->
  exists m, (forall n (x : sig_state W), total_of n (set_sg_total m x) = 0) /\
    iv_signal_child_reset_postfork me (forked pid s) = Ok (tt, set_sg_owed ∅ (set_sg_regs [] (set_sg_threads (<[me := []]> (sg_threads s))
      (set_sg_process [] (set_sg_owner_pid 0 (set_sg_total m (set_sg_handled ∅ (forked pid s)))))))).
Proof.
  intros Hi Hme. destruct (reset_signals_Ok (seqZ 0 _NSIG) (forked pid s)) as (h&m&Er&Ht&Hh).
  assert (forall n, n ∉ seqZ 0 _NSIG -> total_of n (forked pid s) = 0) as Hout.
  { intros n Hn. change (total_of n s = 0). rewrite (gi_total _ _ _ Hi), for_signal_none; [done|]. intros i Hin <-. apply Hn, elem_of_seqZ.
    destruct (proj2 (gi_regs _ _ _ Hi) i Hin) as [Hr _]. unfold in_range in Hr. apply andb_true_iff in Hr as [?%Z.leb_le ?%Z.ltb_lt]. lia. }
  assert (h = ∅) as ->.
  { apply set_eq. intros n. rewrite Hh. split; [|by intros ?%not_elem_of_empty]. intros [Hn Hz]. exfalso.
    change (n ∈ sg_handled s) in Hn. apply (gi_handled _ _ _ Hi) in Hn. destruct (decide (n ∈ seqZ 0 _NSIG)) as [Hin|Hno].
    - specialize (Hz Hin). change (total_of n s = 0) in Hz. lia.
    - apply Hout in Hno. change (total_of n s = 0) in Hno. lia. }
  exists m. split.
  - intros n x. transitivity (total_of n (set_sg_total m (forked pid s))); [done|]. rewrite Ht. destruct (decide _) as [|Hno]; [done|by apply Hout].
  - unfold iv_signal_child_reset_postfork. rewrite (bind_Ok _ _ _ _ _ Er). msimpl. by rewrite Hme.
Qed.

(** A child process keeps out of its parent's business: signals that arrive in it
    wake nobody, until it registers an interest of its own; that resets everything it
    inherited, so that its trees, counts and dispositions are those of this interest. *)
Theorem iv_signal_after_fork {W} `{!SignalWorld W} signum_of flags_of (s : sig_state W) pid me i w :
  sg_inv signum_of flags_of s -> sg_regs s <> [] -> 0 < pid -> pid <> sg_pid s ->
  (forall t n, exec (iv_signal_handler signum_of flags_of t n) (forked pid s) = Ok (tt, forked pid s)) /\
  (in_range (signum_of i) = true -> sigaction_ok (signum_of i) = true -> sg_raw s !! i = None -> is_Some (sg_threads s !! me) ->
   raw_register i (sg_w s) = (0, w) ->
   exists s', exec (iv_signal_register signum_of flags_of me i) (forked pid s) = Ok (0, s') /\ sg_owner_pid s' = pid /\
     tree_of None s' ++ tree_of (Some me) s' = [i] /\ i ∈ tree_of (tree_key flags_of me i) s' /\
     (forall n, total_of n s' = if decide (n = signum_of i) then 1 else 0) /\ sg_handled s' = {[signum_of i]}).
Proof.
  intros Hi Hregs Hpid Hne. destruct (gi_pid _ _ _ Hi) as (Hp0&_&Ho). specialize (Ho Hregs). split.
  - intros t n. unfold iv_signal_handler. rewrite (exec_bind _ _ (forked pid s) false (forked pid s)); [done|].
    cbn [exec act]. unfold handler_thread, is_owner, gets, mbind, M_bind, mret, M_ret. cbn [sg_owner_pid sg_pid forked set_sg_pid].
    rewrite Ho, (proj2 (Z.eqb_neq (sg_pid s) 0)), (proj2 (Z.eqb_neq (sg_pid s) pid)) by lia. done.
  - intros Hr Hsig Hraw [l Hme] Hreg.
    destruct (reset_postfork_Ok signum_of flags_of s pid me l Hi Hme) as (m&Hm&Ereset).
    assert (wp (fun _ => False) (register_section signum_of flags_of me i) (forked pid s) (fun r s' => r = 0 /\ sg_owner_pid s' = pid /\
      tree_of None s' ++ tree_of (Some me) s' = [i] /\ i ∈ tree_of (tree_key flags_of me i) s' /\
      (forall n, total_of n s' = if decide (n = signum_of i) then 1 else 0) /\ sg_handled s' = {[signum_of i]})) as Hw.
    { unfold register_section. rewrite not_in_range, Hr. cbn [negb]. do 2 wprim. cbn [sg_pid sg_owner_pid forked set_sg_pid].
      rewrite Ho, (proj2 (Z.eqb_neq (sg_pid s) 0)), (proj2 (Z.eqb_neq (sg_pid s) pid)) by lia. cbn [negb andb].
      wbind. wrun Ereset. eapply wp_Ok; [reflexivity|]. match goal with |- wp _ _ ?st _ => set (s1 := st) end.
      wprim. change (sg_raw s1) with (sg_raw s). change (sg_threads s1) with (<[me := []]> (sg_threads s)).
      rewrite (bool_decide_true (i ∉ sg_regs s1)) by apply not_elem_of_nil.
      rewrite (bool_decide_true (i ∉ dom (sg_raw s))) by (by apply not_elem_of_dom).
      rewrite (bool_decide_true (me ∈ dom _)) by (apply elem_of_dom; rewrite lookup_insert_eq; by eexists). cbn [andb requires].
      wprim. change (sg_w s1) with (sg_w s). rewrite Hreg. cbn [Z.eqb when]. do 5 wprim.
      match goal with |- context [total_of (signum_of i) ?X =? 0] => change (total_of (signum_of i) X) with (total_of (signum_of i) (set_sg_total m s1)) end.
      rewrite Hm, Hsig. cbn [Z.eqb when]. wprim. match goal with |- wp _ _ ?st _ => set (s2 := st) end.
      assert (iv_signal_tree flags_of me i s2 = Ok (tree_key flags_of me i, s2)) as Et.
      { apply signal_tree_Ok. left. unfold s2. cbn. rewrite lookup_insert_eq. by eexists. }
      wrun Et. do 2 wprim. eapply wp_Ok; [reflexivity|].
      assert (forall n, total_of n s2 = if decide (n = signum_of i) then 1 else 0) as Htot.
      { intros n. unfold s2. match goal with |- total_of n (set_sg_handled _ (set_sg_total (<[_ := ?v]> ?m0) ?x)) = _ =>
          transitivity (total_of n (set_sg_total (<[signum_of i := v]> m0) x)); [done|]; change v with 1 end.
        unfold total_of. cbn. rewrite lookup_insert. destruct (decide (signum_of i = n)); [by rewrite decide_True|].
        rewrite decide_False by done. exact (Hm n s). }
      unfold tree_key. destruct (this_thread (flags_of i)); cbn [set_tree tree_of]; split_and!; try done;
        repeat (progress cbn || rewrite lookup_insert_eq || rewrite (right_id_L ∅ (∪))); try done; by left. }
    unfold iv_signal_register. cbn [exec act]. unfold wp in Hw.
    destruct (register_section signum_of flags_of me i (forked pid s)) as [[r s']| | |] eqn:E; try done. destruct Hw as [-> Hw].
    exists s'. split; [by rewrite (bind_Ok _ _ _ _ _ E)|exact Hw].
Qed.

(** [iv_signal_register] ignores that its raw event could not be registered: it returns
    0, and the first delivery of the signal writes to a descriptor that was never set. *)
Theorem iv_signal_register_ignores_failure {W} `{!SignalWorld W} signum_of flags_of me i pid (w : W) ret w' :
  0 < pid -> in_range (signum_of i) = true -> sigaction_ok (signum_of i) = true -> raw_register i w = (ret, w') -> ret <> 0 ->
  exists s', exec (iv_signal_register signum_of flags_of me i) (sig_boot {[me]} ∅ pid w).1 = Ok (0, s') /\
    exec (iv_signal_handler signum_of flags_of me (signum_of i)) s' = Undef.
Proof.
  intros Hp Hr Hsig Hreg Hret. set (s := (sig_boot {[me]} ∅ pid w).1).
  assert (wp (fun _ => False) (register_section signum_of flags_of me i) s (fun r s' => r = 0 /\ sg_pid s' = pid /\ sg_owner_pid s' = pid /\
    sg_raw s' = ∅ /\ (exists l, sg_threads s' !! me = Some l) /\
    (forall k, k = None \/ k = Some me -> tree_of k s' = if decide (k = tree_key flags_of me i) then [i] else []))) as Hw.
  { unfold register_section. rewrite not_in_range, Hr. cbn [negb]. do 2 wprim. wbind. eapply wp_Ok; [reflexivity|]. wprim.
    cbn [sg_regs sg_raw sg_threads sg_w set_sg_owner_pid]. rewrite bool_decide_true by apply not_elem_of_nil.
    rewrite bool_decide_true by (cbn; by rewrite dom_empty_L; apply not_elem_of_empty).
    rewrite bool_decide_true by (cbn; rewrite dom_gset_to_gmap; by apply elem_of_singleton). cbn [andb requires]. wprim.
    change (sg_w s) with w. rewrite Hreg, (proj2 (Z.eqb_neq ret 0) Hret). cbn [when]. do 5 wprim. rewrite Hsig. cbn. wprim.
    match goal with |- wp _ _ ?st _ => set (s2 := st) end.
    assert (sg_threads s2 !! me = Some []) as Hme by (cbn; apply lookup_gset_to_gmap_Some; split; [by apply elem_of_singleton|done]).
    assert (iv_signal_tree flags_of me i s2 = Ok (tree_key flags_of me i, s2)) as Et by (apply signal_tree_Ok; left; by eexists).
    wrun Et. do 2 wprim. eapply wp_Ok; [reflexivity|]. unfold tree_key. destruct (this_thread (flags_of i)); split_and!; try done.
    - cbn. rewrite lookup_insert_eq. by eexists.
    - intros k [->| ->]; [done|]. rewrite decide_True by done. cbn. rewrite lookup_insert_eq. cbn. change (gset_to_gmap [] {[me]}) with (sg_threads s2). by rewrite Hme.
    - by exists [].
    - intros k [->| ->]; [done|]. rewrite decide_False by done. cbn. change (gset_to_gmap [] {[me]}) with (sg_threads s2). by rewrite Hme. }
  unfold wp in Hw. destruct (register_section signum_of flags_of me i s) as [[r s']| | |] eqn:E; try done.
  destruct Hw as (->&E1&E2&E3&[l E4]&Htree). exists s'.
  split; [unfold iv_signal_register; cbn [exec act]; by rewrite (bind_Ok _ _ _ _ _ E)|].
  assert (do_wake signum_of flags_of (tree_key flags_of me i) (signum_of i) s' = Undef) as Hwake.
  { unfold do_wake, gets, compose, mbind, M_bind. rewrite Htree by (unfold tree_key; destruct (this_thread _); auto). rewrite decide_True by done.
    unfold woken_by, for_signal. rewrite filter_cons_True by done. cbn. unfold wake. msimpl. by rewrite E3. }
  assert (is_owner s' = Ok (true, s')) as Eo.
  { rewrite is_owner_Ok, E1, E2, Z.eqb_refl, (proj2 (Z.eqb_neq pid 0)) by lia. done. }
  assert (handler_thread signum_of flags_of me (signum_of i) s' = if this_thread (flags_of i) then Undef else Ok (true, s')) as Eh.
  { unfold handler_thread. rewrite (bind_Ok _ _ _ _ _ Eo). rewrite (bind_Ok _ _ _ _ _ (eq_refl : gets sg_threads s' = Ok (sg_threads s', s'))), E4.
    unfold tree_key in Hwake, Htree. destruct (this_thread (flags_of i)); [by unfold mbind, M_bind; rewrite Hwake|].
    unfold do_wake, gets, compose, mbind, M_bind. rewrite Htree by auto. by rewrite decide_False. }
  unfold iv_signal_handler. cbn. unfold mbind, M_bind. rewrite Eh. unfold tree_key in Hwake.
  destruct (this_thread (flags_of i)); [done|]. cbn. unfold handler_process, mbind, M_bind. by rewrite Hwake.
Qed.

(** ** Two threads

    Interest 1 is exclusive, 3 is not; both are for signal 10. *)
Section sim.
Context (works : bool).
#[local] Instance unit_signals : SignalWorld unit := { raw_register i w := (if works then 0 else -1, w); raw_unregister i w := w; sigaction_ok n := negb (n =? 9) }.
End sim.
#[local] Existing Instance unit_signals.
#[local] Instance unit_signal_laws : SignalLaws unit (SignalWorld0 := unit_signals true).
Proof. by split. Qed.
Definition sim_signum (i : loc) : Z := 10.
Definition sim_flags (i : loc) : Z := if decide (i = 1%positive) then 1 else 0.
Definition sim_handler (i : loc) (ran : list loc) : list sig_call := [].
(** Threads 1 and 2 register interests 1 and 3; the signal arrives in thread 1 and wakes
    the exclusive one, which thread 1 unregisters: the signal is passed on. *)
Definition sig_first : list (choice sig_start) :=
  [Begin 1 (SSigCalls [GRegister 1]); Go 1; Begin 2 (SSigCalls [GRegister 3]); Go 2; Begin 5 (SDeliver 1 10); Go 5; Go 5;
   Begin 1 (SSigCalls [GUnreg 1]); Go 1]%positive.
(** Thread 2's event loop finds it. *)
Definition sig_more : list (choice sig_start) := [Go 1; Begin 2 (SPosted 3); Go 2; Go 2; Go 2]%positive.
Definition demo_sig cs := sched_from (sig_begin (SignalWorld0 := unit_signals true) sim_signum sim_flags sim_handler) cs
  (sig_boot {[1; 2]}%positive {[5]}%positive 100 tt).
Lemma demo_sig_reachable cs : sig_reachable (SignalWorld0 := unit_signals true) sim_signum sim_flags sim_handler ((demo_sig cs).1, (demo_sig cs).2).
Proof. rewrite <-surjective_pairing. exists {[1; 2]}%positive, {[5]}%positive, 100, tt. split; [done|]. apply sched_steps. Qed.
Lemma demo_sig_inv cs : sg_inv sim_signum sim_flags (demo_sig cs).1.
Proof.
  assert (sig_reachable (SignalWorld0 := unit_signals true) sim_signum sim_flags sim_handler (demo_sig cs)) as Hr.
  { exists {[1; 2]}%positive, {[5]}%positive, 100, tt. split; [done|]. apply sched_steps. }
  exact (co_inv _ _ _ _ _ (sig_reachable_ok _ _ _ _ Hr)).
Qed.

Lemma iv_signal_no_lost_witness :
  (owed None 10 (demo_sig sig_first).1 = {[3%positive]} /\ exists i, i ∈ tree_of None (demo_sig sig_first).1) /\
  (sg_ran (demo_sig (sig_first ++ sig_more)).1 = [3%positive] /\ owed None 10 (demo_sig (sig_first ++ sig_more)).1 = ∅).
Proof.
  split; split; [by apply (bool_decide_unpack _); vm_compute| |by vm_compute|].
  - destruct (proj1 (iv_signal_no_lost (SignalWorld0 := unit_signals true) sim_signum sim_flags sim_handler (demo_sig sig_first).1 (demo_sig sig_first).2 None 10
      (demo_sig_reachable sig_first))) as (i&Hi&_); [|by exists i]. apply (bool_decide_unpack _). by vm_compute.
  - refine (proj2 (iv_signal_no_lost (SignalWorld0 := unit_signals true) sim_signum sim_flags sim_handler (demo_sig (sig_first ++ sig_more)).1 (demo_sig (sig_first ++ sig_more)).2 None 10
      (demo_sig_reachable (sig_first ++ sig_more))) _ _ _).
    + assert (map_to_list (demo_sig (sig_first ++ sig_more)).2 = [(5%positive, Ret tt); (2%positive, Ret tt); (1%positive, Ret tt)]) as E by (vm_compute; reflexivity).
      intros t p Hp. apply elem_of_map_to_list in Hp. rewrite E in Hp. clear E. set_solver.
    + assert (map_to_list (sg_raw (demo_sig (sig_first ++ sig_more)).1) = [(3%positive, 2%positive)]) as E by (vm_compute; reflexivity).
      intros i t Ht. apply elem_of_map_to_list in Ht. rewrite E in Ht. apply list_elem_of_singleton in Ht as [= -> ->]. clear E. exists (Ret tt). by vm_compute.
    + apply (bool_decide_unpack _). by vm_compute.
Defined.
Lemma iv_signal_installed_witness : 10 ∈ sg_handled (demo_sig sig_first).1 /\ exists i, i ∈ sg_regs (demo_sig sig_first).1 /\ sim_signum i = 10.
Proof.
  assert (10 ∈ sg_handled (demo_sig sig_first).1) as Hin by (apply (bool_decide_unpack _); by vm_compute). split; [exact Hin|].
  exact (proj1 (proj1 (iv_signal_installed (SignalWorld0 := unit_signals true) sim_signum sim_flags sim_handler _ _ (demo_sig_reachable sig_first)) 10) Hin).
Defined.
Lemma iv_signal_safe_witness : exists B (m : M (sig_state unit) B) k,
  (demo_sig sig_first).2 !! 1%positive = Some (Act m k) /\ wp sbreach m (demo_sig sig_first).1 (fun _ _ => True).
Proof.
  assert (match (demo_sig sig_first).2 !! 1%positive with Some (Act _ _) => true | _ => false end = true) as Hb by (by vm_compute).
  destruct ((demo_sig sig_first).2 !! 1%positive) as [[a|B m k]|] eqn:E; [discriminate Hb| |discriminate Hb].
  exists B, m, k. split; [reflexivity|].
  exact (iv_signal_safe (SignalWorld0 := unit_signals true) sim_signum sim_flags sim_handler (demo_sig sig_first).1 (demo_sig sig_first).2 1 B m k (demo_sig_reachable sig_first) E).
Defined.
(** The process of the first schedule forks, and the child registers interest 7. *)
Lemma iv_signal_after_fork_witness : exists s', exec (iv_signal_register (SignalWorld0 := unit_signals true) sim_signum sim_flags 2 7) (forked 101 (demo_sig sig_first).1) = Ok (0, s') /\
  tree_of None s' ++ tree_of (Some 2%positive) s' = [7%positive].
Proof.
  destruct (iv_signal_after_fork (SignalWorld0 := unit_signals true) sim_signum sim_flags (demo_sig sig_first).1 101 2 7 tt) as [_ H].
  - apply demo_sig_inv.
  - by vm_compute.
  - done.
  - by vm_compute.
  - destruct H as (s'&E&_&Ht&_); [by vm_compute..| |by vm_compute|].
    + exists []. by vm_compute.
    + exists s'. split; [exact E|exact Ht].
Defined.
Lemma iv_signal_register_ignores_failure_witness : exists s',
  exec (iv_signal_register (SignalWorld0 := unit_signals false) sim_signum sim_flags 1 3) (sig_boot {[1%positive]} ∅ 100 tt).1 = Ok (0, s') /\
  exec (iv_signal_handler sim_signum sim_flags 1 10) s' = Undef.
Proof.
  exact (iv_signal_register_ignores_failure (SignalWorld0 := unit_signals false) sim_signum sim_flags 1 3 100 tt (-1) tt
    eq_refl eq_refl eq_refl eq_refl ltac:(discriminate)).
Defined.
