(* ===== verification/SignalRaw.v ===== *)
(** * Signals over raw events

    The raw events that iv_signal.c registers are those of EventRaw.v: this file plugs
    [iv_event_raw_register] and [iv_event_raw_unregister] into Signal.v.  Registering one
    fails only for want of a descriptor, so the assumption [law_raw_register] of the theorems
    on signals holds wherever the kernel has descriptors to give. *)

From S2P Require Import Prelude Sys Conc Signal SignalSpec SignalProps EventRaw EventRawSpec.

Local Open Scope Z_scope.

(** The kernel always has descriptors for an event, of a kind it knows. *)
Class Roomy (W : Type) `{!RawKernel W} : Prop := {
  room_eventfd2 : forall w e w', rk_eventfd2 w = (inr e, w') -> e = EINVAL \/ e = ENOSYS;
  room_eventfd : forall w e w', rk_eventfd w = (inr e, w') -> e = ENOSYS;
  room_pipe : forall w e w', rk_pipe w <> (inr e, w') }.

Section raw.
Context {W : Type} `{!RawKernel W, HL : !RawLaws W}.
Context (sigaction_accepts : Z -> bool).

#[export] Instance event_raw_signals : SignalWorld rawsys := {
  raw_register i := lift (iv_event_raw_register i) (register_keeps i) (-1);
  raw_unregister i y := (lift (iv_event_raw_unregister i) (unregister_keeps i) tt y).2;
  sigaction_ok := sigaction_accepts }.

Context `{!Roomy W}.
Lemma register_0 i (s : raw_state W) ret s' : iv_event_raw_register i s = Ok (ret, s') -> ret = 0.
Proof.
  unfold iv_event_raw_register, eventfd_grab, kernel, kernel_. msimpl. intros E.
  repeat (case_match; simplify_eq/=; try done).
  all: match goal with
    | H : rk_pipe _ = (inr _, _) |- _ => by apply room_pipe in H
    | H : rk_eventfd _ = (inr _, _) |- _ => by apply room_eventfd in H
    | H : rk_eventfd2 _ = (inr _, _) |- _ => by apply room_eventfd2 in H as [?|?]
    | H1 : ?b = false, H2 : negb ?b = false |- _ => by rewrite H1 in H2
    end.
Qed.
#[export] Instance event_raw_signal_laws : SignalLaws rawsys.
Proof.
  split. intros i y. cbn. destruct (wp_none_Ok _ _ _ (EventRawSpec.raw_register_spec (`y) i (proj2_sig y))) as (ret&s'&E&_).
  destruct (lift_Ok _ (register_keeps i) (-1) y ret s' E) as [P ->]. by apply register_0 in E.
Qed.

(** Signals over raw events, where the kernel has descriptors to give, do nothing
    undefined. *)
Theorem iv_signal_over_raw_events signum_of flags_of handler (s : sig_state rawsys) pool t B (m : M (sig_state rawsys) B) go_on :
  sig_reachable signum_of flags_of handler (s, pool) -> pool !! t = Some (Act m go_on) -> wp sbreach m s (fun _ _ => True).
Proof. intros Hr Hp. exact (iv_signal_safe signum_of flags_of handler s pool t B m go_on Hr Hp). Qed.
End raw.

(** ** A kernel with eventfd(2) *)
#[local] Existing Instance rsim_kernel.
#[local] Instance rsim_roomy b : Roomy rsim (RawKernel0 := rsim_kernel b).
Proof.
  split; [intros w e w'|intros w e w'|intros w e w' [=]]; cbn.
  - destruct b; [done|]. intros [= <- _]. by right.
  - by intros [= <- _].
Qed.
#[local] Instance raw_sim_signals : SignalWorld (rawsys (HL := rsim_laws true)) := event_raw_signals (HL := rsim_laws true) (fun n => negb (n =? 9)).
#[local] Instance raw_sim_laws : SignalLaws (rawsys (HL := rsim_laws true)).
Proof. exact (event_raw_signal_laws (HL := rsim_laws true) _). Qed.
(** The first schedule of SignalProps.v: interest 1 was unregistered in [iv_signal_unregister],
    whose last action is next, and 3 keeps its descriptor. *)
Definition demo_over_raw cs := sched_from (sig_begin sim_signum sim_flags sim_handler) cs
  (sig_boot {[1; 2]}%positive {[5]}%positive 100 demo_rawsys).
Lemma demo_over_raw_reachable cs : sig_reachable sim_signum sim_flags sim_handler ((demo_over_raw cs).1, (demo_over_raw cs).2).
Proof. rewrite <-surjective_pairing. exists {[1; 2]}%positive, {[5]}%positive, 100, demo_rawsys. split; [done|]. apply sched_steps. Qed.
Example over_raw_registered : let objs cs := ra_objs (proj1_sig (sg_w (demo_over_raw cs).1)) in
  dom (objs sig_first) = {[1; 3]}%positive /\ dom (objs (sig_first ++ sig_more)) = {[3]}%positive.
Proof. split; apply (bool_decide_unpack _); by vm_compute. Qed.
Lemma iv_signal_over_raw_events_witness : exists B (m : M (sig_state (rawsys (HL := rsim_laws true))) B) k,
  (demo_over_raw sig_first).2 !! 1%positive = Some (Act m k) /\ wp sbreach m (demo_over_raw sig_first).1 (fun _ _ => True).
Proof.
  assert (match (demo_over_raw sig_first).2 !! 1%positive with Some (Act _ _) => true | _ => false end = true) as Hb by (by vm_compute).
  destruct ((demo_over_raw sig_first).2 !! 1%positive) as [[a|B m k]|] eqn:E; [discriminate Hb| |discriminate Hb].
  exists B, m, k. split; [reflexivity|].
  exact (iv_signal_over_raw_events (HL := rsim_laws true) (fun n => negb (n =? 9)) sim_signum sim_flags sim_handler
    (demo_over_raw sig_first).1 (demo_over_raw sig_first).2 1 B m k (demo_over_raw_reachable sig_first) E).
Defined.
