(* ===== verification/Wait.v ===== *)
(** * Child processes (iv_wait.c)

    What runs with [iv_wait_lock] held is one action of Conc.v.  The tree of interests is
    the map from processes to interests that AvlSearch.v shows its search to compute;
    the event of an interest is pending until the event loop of the thread that
    registered it takes it (EventProps.v); and SIGCHLD is an exclusive signal interest of
    every thread with interests, whose handler [iv_wait_got_sigchld] the event loop of one
    of them calls (SignalProps.v). *)

From S2P Require Import Prelude Conc.

Local Open Scope Z_scope.

(** Where a thread is inside a call or before the loop of [iv_wait_completion]: an
    interest is registered but not on the tree yet, its child could not be forked, it is
    off the tree but its event still registered; its event was taken. *)
Inductive wait_pc := WtSpawn (i : loc) | WtFailed (i : loc) | WtUnregister (i : loc) | WtTaken (i : loc).
#[global] Instance wait_pc_eq : EqDecision wait_pc.
Proof. solve_decision. Defined.

(** [struct iv_wait_thr_info]: [wait_count], whether [sigchld_interest] is registered, and
    [handled_wait_interest]; the list [events] on the stack of [iv_wait_completion], whose
    interest is [tt_in]; where the thread is. *)
Record wait_thread := mk_wth {
  tt_count : Z;
  tt_sigchld : bool;
  tt_handled : ptr;
  tt_events : list Z;
  tt_in : option loc;
  tt_pc : option wait_pc }.
Definition set_tt_count (v : Z) (s : wait_thread) : wait_thread :=
  mk_wth v (tt_sigchld s) (tt_handled s) (tt_events s) (tt_in s) (tt_pc s).
Definition set_tt_sigchld (v : bool) (s : wait_thread) : wait_thread :=
  mk_wth (tt_count s) v (tt_handled s) (tt_events s) (tt_in s) (tt_pc s).
Definition set_tt_handled (v : ptr) (s : wait_thread) : wait_thread :=
  mk_wth (tt_count s) (tt_sigchld s) v (tt_events s) (tt_in s) (tt_pc s).
Definition set_tt_events (v : list Z) (s : wait_thread) : wait_thread :=
  mk_wth (tt_count s) (tt_sigchld s) (tt_handled s) v (tt_in s) (tt_pc s).
Definition set_tt_in (v : option loc) (s : wait_thread) : wait_thread :=
  mk_wth (tt_count s) (tt_sigchld s) (tt_handled s) (tt_events s) v (tt_pc s).
Definition set_tt_pc (v : option wait_pc) (s : wait_thread) : wait_thread :=
  mk_wth (tt_count s) (tt_sigchld s) (tt_handled s) (tt_events s) (tt_in s) v.

(** [iv_wait_interests]; [pid] and the flag [IV_WAIT_STATUS_DEAD] of the interests; the
    statuses in [events_pending] of those that are registered, the threads that registered
    their events, and the events that are pending.  For the proofs: the statuses that
    were queued for a registered interest, and those its handler was called with. *)
Record wait_state (W : Type) := mk_ws {
  wt_tree : gmap Z loc;
  wt_pid : gmap loc Z;
  wt_dead : gset loc;
  wt_pending : gmap loc (list Z);
  wt_thread : gmap loc loc;
  wt_posted : gset loc;
  wt_threads : gmap loc wait_thread;
  wt_reported : gmap loc (list Z);
  wt_called : gmap loc (list Z);
  wt_w : W }.
Arguments mk_ws {_}.
Arguments wt_tree {_} _.
Arguments wt_pid {_} _.
Arguments wt_dead {_} _.
Arguments wt_pending {_} _.
Arguments wt_thread {_} _.
Arguments wt_posted {_} _.
Arguments wt_threads {_} _.
Arguments wt_reported {_} _.
Arguments wt_called {_} _.
Arguments wt_w {_} _.
Definition set_wt_tree {W : Type} (v : gmap Z loc) (s : wait_state W) : wait_state W :=
  mk_ws v (wt_pid s) (wt_dead s) (wt_pending s) (wt_thread s) (wt_posted s) (wt_threads s) (wt_reported s) (wt_called s) (wt_w s).
Definition set_wt_pid {W : Type} (v : gmap loc Z) (s : wait_state W) : wait_state W :=
  mk_ws (wt_tree s) v (wt_dead s) (wt_pending s) (wt_thread s) (wt_posted s) (wt_threads s) (wt_reported s) (wt_called s) (wt_w s).
Definition set_wt_dead {W : Type} (v : gset loc) (s : wait_state W) : wait_state W :=
  mk_ws (wt_tree s) (wt_pid s) v (wt_pending s) (wt_thread s) (wt_posted s) (wt_threads s) (wt_reported s) (wt_called s) (wt_w s).
Definition set_wt_pending {W : Type} (v : gmap loc (list Z)) (s : wait_state W) : wait_state W :=
  mk_ws (wt_tree s) (wt_pid s) (wt_dead s) v (wt_thread s) (wt_posted s) (wt_threads s) (wt_reported s) (wt_called s) (wt_w s).
Definition set_wt_thread {W : Type} (v : gmap loc loc) (s : wait_state W) : wait_state W :=
  mk_ws (wt_tree s) (wt_pid s) (wt_dead s) (wt_pending s) v (wt_posted s) (wt_threads s) (wt_reported s) (wt_called s) (wt_w s).
Definition set_wt_posted {W : Type} (v : gset loc) (s : wait_state W) : wait_state W :=
  mk_ws (wt_tree s) (wt_pid s) (wt_dead s) (wt_pending s) (wt_thread s) v (wt_threads s) (wt_reported s) (wt_called s) (wt_w s).
Definition set_wt_threads {W : Type} (v : gmap loc wait_thread) (s : wait_state W) : wait_state W :=
  mk_ws (wt_tree s) (wt_pid s) (wt_dead s) (wt_pending s) (wt_thread s) (wt_posted s) v (wt_reported s) (wt_called s) (wt_w s).
Definition set_wt_reported {W : Type} (v : gmap loc (list Z)) (s : wait_state W) : wait_state W :=
  mk_ws (wt_tree s) (wt_pid s) (wt_dead s) (wt_pending s) (wt_thread s) (wt_posted s) (wt_threads s) v (wt_called s) (wt_w s).
Definition set_wt_called {W : Type} (v : gmap loc (list Z)) (s : wait_state W) : wait_state W :=
  mk_ws (wt_tree s) (wt_pid s) (wt_dead s) (wt_pending s) (wt_thread s) (wt_posted s) (wt_threads s) (wt_reported s) v (wt_w s).
Definition set_wt_w {W : Type} (v : W) (s : wait_state W) : wait_state W :=
  mk_ws (wt_tree s) (wt_pid s) (wt_dead s) (wt_pending s) (wt_thread s) (wt_posted s) (wt_threads s) (wt_reported s) (wt_called s) v.

(** The kernel: its children of this process whose end was not collected; [wait4] with
    WNOHANG, [fork] and [kill]; the statuses that end a process, from the macros of
    <sys/wait.h>; and what children do meanwhile. *)
Class WaitKernel (W : Type) := {
  children : W -> gset Z;
  wait4 : W -> option (Z * Z) * W;
  fork : W -> Z * W;
  kill : Z -> Z -> W -> Z * W;
  wif_signaled : Z -> bool;
  wif_continued : Z -> bool;
  wif_exited : Z -> bool;
  wait_bound : W -> nat;
  happens : nat -> W -> W }.

(** What clients do: [iv_wait_interest_register_spawn]; [fork], of which the library does
    not know; filling in [pid] and [iv_wait_interest_register]; and the others. *)
Inductive wait_call :=
  | WtSpawnCall (i : loc)
  | WtForkCall
  | WtRegisterCall (i : loc) (pid : Z)
  | WtUnregCall (i : loc)
  | WtKillCall (i : loc) (sig : Z).
Definition ESRCH : Z := 3.

Section wait.
Context {W : Type} `{!WaitKernel W}.
(** What the handler of an interest calls, given the statuses it was called with. *)
Context (handler : loc -> list Z -> list wait_call).
Abbreviation St := (wait_state W).

Definition iv_wait_status_dead (status : Z) : bool :=
  if wif_signaled status && negb (wif_continued status) then true else wif_exited status.
Definition load_wt (me : loc) : M St wait_thread := m ← gets wt_threads; deref (m !! me).
Definition upd_wt (me : loc) (g : wait_thread -> wait_thread) : M St unit :=
  th ← load_wt me; modify (fun s => set_wt_threads (<[me := g th]> (wt_threads s)) s).

(** ** SIGCHLD *)

(** One status change. *)
Definition got_status (pid status : Z) : M St unit :=
  p ← gets (fun s => wt_tree s !! pid);
  match p with
  | Some i =>
      q ← gets wt_pending; q ← deref (q !! i);
      modify (fun s => set_wt_pending (<[i := q ++ [status]]> (wt_pending s)) s);;
      modify (fun s => set_wt_reported (<[i := default [] (wt_reported s !! i) ++ [status]]> (wt_reported s)) s);;
      modify (fun s => set_wt_posted ({[i]} ∪ wt_posted s) s)
  | None => mret tt
  end;;
  when (iv_wait_status_dead status) (
    i ← deref p;
    modify (fun s => set_wt_tree (delete pid (wt_tree s)) s);;
    modify (fun s => set_wt_dead ({[i]} ∪ wt_dead s) s)).
(** A client that forks on its own, or unregisters an interest before the child's end was
    collected, must see to it that no child's end is collected without an interest:
    [got_status] would follow a NULL pointer. *)
Definition has_interest (pid status : Z) (s : St) : bool := negb (iv_wait_status_dead status) || bool_decide (pid ∈ dom (wt_tree s)).
Fixpoint sigchld_loop (fuel : nat) : M St unit :=
  match fuel with
  | O => out_of_fuel
  | S fuel =>
      w ← gets wt_w;
      let '(r, w) := wait4 w in
      modify (set_wt_w w);;
      match r with
      | None => mret tt
      | Some (pid, status) =>
          s ← get;
          requires (has_interest pid status s);;
          got_status pid status;; sigchld_loop fuel
      end
  end.
Definition got_sigchld_section (me : loc) : M St unit :=
  th ← load_wt me;
  when (tt_sigchld th) (w ← gets wt_w; sigchld_loop (S (wait_bound w))).
Definition iv_wait_got_sigchld (me : loc) : prog St unit := act (got_sigchld_section me).

(** ** Registering *)
Definition iv_wait_tls_init_thread (me : loc) : M St unit :=
  modify (fun s => set_wt_threads (<[me := mk_wth 0 false None [] None None]> (wt_threads s)) s).
Definition __iv_wait_interest_register (me i : loc) : M St unit :=
  s ← get;
  requires (bool_decide (i ∉ dom (wt_pending s)) && bool_decide (i ∉ dom (wt_thread s)));;
  upd_wt me (fun th => set_tt_sigchld (if tt_count th =? 0 then true else tt_sigchld th) (set_tt_count (tt_count th + 1) th));;
  modify (fun s => set_wt_thread (<[i := me]> (wt_thread s)) s);;
  modify (fun s => set_wt_pending (<[i := []]> (wt_pending s)) s);;
  modify (fun s => set_wt_dead (wt_dead s ∖ {[i]}) s);;
  modify (fun s => set_wt_reported (<[i := []]> (wt_reported s)) (set_wt_called (<[i := []]> (wt_called s)) s));;
  upd_wt me (set_tt_pc (Some (WtSpawn i))).
(** [iv_avl_tree_insert], which does nothing if the process has an interest. *)
Definition insert_interest (i : loc) (pid : Z) : M St unit :=
  m ← gets wt_tree;
  match m !! pid with Some _ => mret tt | None => modify (set_wt_tree (<[pid := i]> m)) end.
(** What the client promises when the lock is taken: [pid], which it filled in, is a child
    whose end was not collected, and which has no interest yet. *)
Definition may_insert (i : loc) (s : St) : bool :=
  match wt_pid s !! i with
  | Some pid => bool_decide (pid ∈ children (wt_w s)) && bool_decide (wt_tree s !! pid = None)
  | None => false
  end.
Definition insert_section (me i : loc) : M St unit :=
  s ← get;
  requires (may_insert i s);;
  m ← gets wt_pid; pid ← deref (m !! i);
  insert_interest i pid;;
  upd_wt me (set_tt_pc None).
Definition iv_wait_interest_register (me i : loc) : prog St unit :=
  act (__iv_wait_interest_register me i);; act (insert_section me i).

Definition __iv_wait_interest_unregister (me i : loc) : M St unit :=
  modify (fun s => set_wt_thread (delete i (wt_thread s)) (set_wt_posted (wt_posted s ∖ {[i]}) s));;
  modify (fun s => set_wt_pending (delete i (wt_pending s)) s);;
  th ← load_wt me;
  when (bool_decide (tt_handled th = Some i)) (upd_wt me (set_tt_handled None));;
  upd_wt me (fun th => set_tt_sigchld (if tt_count th - 1 =? 0 then false else tt_sigchld th) (set_tt_count (tt_count th - 1) th));;
  upd_wt me (set_tt_pc None).
(** From the lock to the unlock; the child goes on in a process of its own, where
    [iv_signal_child_reset_postfork] and [fn] are called. *)
Definition spawn_section (me i : loc) : M St Z :=
  w ← gets wt_w;
  let '(pid, w) := fork w in
  modify (set_wt_w w);;
  if pid <? 0 then upd_wt me (set_tt_pc (Some (WtFailed i)));; mret pid
  else
    modify (fun s => set_wt_pid (<[i := pid]> (wt_pid s)) s);;
    insert_interest i pid;;
    upd_wt me (set_tt_pc None);;
    mret pid.
Definition iv_wait_interest_register_spawn (me i : loc) : prog St Z :=
  act (__iv_wait_interest_register me i);;
  pid ← act (spawn_section me i);
  if pid <? 0 then act (__iv_wait_interest_unregister me i);; mret pid else mret 0.

(** For an interest of this thread, whether its child's end was collected or not. *)
Definition unregister_section (me i : loc) : M St unit :=
  s ← get;
  requires (bool_decide (wt_thread s !! i = Some me));;
  dead ← gets wt_dead;
  when (negb (bool_decide (i ∈ dead))) (
    m ← gets wt_pid; pid ← deref (m !! i);
    t ← gets wt_tree; j ← deref (t !! pid);
    if bool_decide (j = i) then modify (set_wt_tree (delete pid t)) else undef);;
  upd_wt me (set_tt_pc (Some (WtUnregister i))).
Definition iv_wait_interest_unregister (me i : loc) : prog St unit :=
  act (unregister_section me i);; act (__iv_wait_interest_unregister me i).

Definition kill_section (i : loc) (sig : Z) : M St Z :=
  dead ← gets wt_dead;
  if bool_decide (i ∈ dead) then mret (- ESRCH)
  else
    m ← gets wt_pid; pid ← deref (m !! i);
    w ← gets wt_w;
    let '(ret, w) := kill pid sig w in
    modify (set_wt_w w);; mret ret.
(** For an interest of this thread. *)
Definition iv_wait_interest_kill (me i : loc) (sig : Z) : prog St Z :=
  act (s ← get; requires (bool_decide (wt_thread s !! i = Some me));; kill_section i sig).

Definition fill_in (i : loc) (pid : Z) : M St unit :=
  s ← get;
  requires (bool_decide (i ∉ dom (wt_pending s)) && bool_decide (i ∉ dom (wt_thread s)));;
  modify (fun s => set_wt_pid (<[i := pid]> (wt_pid s)) s).
Definition run_wait_call (me : loc) (c : wait_call) : prog St unit :=
  match c with
  | WtSpawnCall i => iv_wait_interest_register_spawn me i;; mret tt
  | WtForkCall => act (modify (fun s => set_wt_w (fork (wt_w s)).2 s))
  | WtRegisterCall i pid => act (fill_in i pid);; iv_wait_interest_register me i
  | WtUnregCall i => iv_wait_interest_unregister me i
  | WtKillCall i sig => iv_wait_interest_kill me i sig;; mret tt
  end.
Fixpoint run_wait_calls (me : loc) (cs : list wait_call) : prog St unit :=
  match cs with [] => mret tt | c :: cs => run_wait_call me c;; run_wait_calls me cs end.

(** ** The event's handler *)
Definition steal_events (me i : loc) : M St nat :=
  m ← gets wt_pending; q ← deref (m !! i);
  modify (set_wt_pending (<[i := []]> m));;
  upd_wt me (fun th => set_tt_pc None (set_tt_in (Some i) (set_tt_events q (set_tt_handled (Some i) th))));;
  mret (length q).
(** The next status: what its handler calls, if it is called. *)
Definition next_status (me i : loc) : M St (option (list wait_call)) :=
  th ← load_wt me;
  match tt_events th with
  | [] => upd_wt me (fun th => set_tt_in None (set_tt_handled None th));; mret None
  | status :: q =>
      upd_wt me (set_tt_events q);;
      match tt_handled th with
      | None => mret (Some [])
      | Some _ =>
          modify (fun s => set_wt_called (<[i := default [] (wt_called s !! i) ++ [status]]> (wt_called s)) s);;
          m ← gets wt_called;
          mret (Some (handler i (default [] (m !! i))))
      end
  end.
Fixpoint completion_loop (me i : loc) (fuel : nat) : prog St unit :=
  match fuel with
  | O => act out_of_fuel
  | S fuel =>
      r ← act (next_status me i);
      match r with
      | None => mret tt
      | Some cs => run_wait_calls me cs;; completion_loop me i fuel
      end
  end.
Definition iv_wait_completion (me i : loc) : prog St unit := n ← act (steal_events me i); completion_loop me i (S n).
(** The event loop of a thread finds the event of an interest pending. *)
Definition take_event (me i : loc) : M St bool :=
  s ← get;
  if bool_decide (i ∈ wt_posted s) && bool_decide (wt_thread s !! i = Some me) then
    modify (set_wt_posted (wt_posted s ∖ {[i]}));;
    upd_wt me (set_tt_pc (Some (WtTaken i)));; mret true
  else mret false.
Definition interest_event (me i : loc) : prog St unit :=
  b ← act (take_event me i); if b : bool then iv_wait_completion me i else mret tt.
(** Children stop, go on and die. *)
Definition children_move (n : nat) : prog St unit := act (modify (fun s => set_wt_w (happens n (wt_w s)) s)).
End wait.
