(* ===== verification/WaitSpec.v ===== *)
(** * Child processes: the invariant and every action *)

From S2P Require Import Prelude Conc Wait.

Local Open Scope Z_scope.

(** The kernel reports status changes of children, and the end of each once; a forked
    process is a new child. *)
Class WaitLaws (W : Type) `{!WaitKernel W} := {
  law_wait4 : forall w pid st w', wait4 w = (Some (pid, st), w') ->
    pid ∈ children w /\ children w' = (if iv_wait_status_dead st then children w ∖ {[pid]} else children w) /\ (wait_bound w' < wait_bound w)%nat;
  law_wait4_none : forall w w', wait4 w = (None, w') -> children w' = children w;
  law_fork : forall w pid w', fork w = (pid, w') ->
    if pid <? 0 then children w' = children w else pid ∉ children w /\ children w' = {[pid]} ∪ children w;
  law_kill : forall pid sig w, children (kill pid sig w).2 = children w;
  law_happens : forall n w, children (happens n w) = children w }.
Section spec.
Context {W : Type} `{!WaitKernel W, HL : !WaitLaws W}.
Abbreviation St := (wait_state W).
Implicit Types (s : St) (t me i j : loc) (th : wait_thread) (q : list Z).

Definition wtbreach (m : string) : Prop := m = "outside of the interface"%string.

(** ** The invariant *)
Definition rep s i : list Z := default [] (wt_reported s !! i).
Definition called s i : list Z := default [] (wt_called s !! i).
(** Not on the tree yet, or never, or no more. *)
Definition off_tree th i : Prop := tt_pc th = Some (WtSpawn i) \/ tt_pc th = Some (WtFailed i) \/ tt_pc th = Some (WtUnregister i).
Definition alive st : Prop := iv_wait_status_dead st = false.
(** What was reported ends with the end of the process, if at all. *)
Definition ended l : Prop := exists l' st, l = l' ++ [st] /\ Forall alive l' /\ iv_wait_status_dead st = true.

Record int_ok s i th q : Prop := {
  io_dead : i ∈ wt_dead s -> ended (rep s i);
  io_alive : i ∉ wt_dead s -> Forall alive (rep s i) /\ (off_tree th i \/ exists pid, wt_pid s !! i = Some pid /\ wt_tree s !! pid = Some i);
  io_flow : rep s i = called s i ++ (if decide (tt_handled th = Some i) then tt_events th else []) ++ q;
  io_posted : q <> [] -> i ∈ wt_posted s \/ tt_pc th = Some (WtTaken i) }.
Record thr_ok s t th : Prop := {
  ho_handled : forall i, tt_handled th = Some i -> tt_in th = Some i /\ wt_thread s !! i = Some t;
  ho_pc : match tt_pc th with
          | None => True
          | Some (WtUnregister i) => wt_thread s !! i = Some t
          | Some (WtTaken i) => wt_thread s !! i = Some t /\ tt_in th = None
          | Some (WtSpawn i | WtFailed i) => wt_thread s !! i = Some t /\ i ∉ wt_dead s
          end;
  ho_count : tt_count th = Z.of_nat (size (filter (fun p => p.2 = t) (wt_thread s)));
  ho_sigchld : tt_sigchld th = (0 <? tt_count th) }.
Record wt_inv s : Prop := {
  vi_thread : forall i t, wt_thread s !! i = Some t -> exists th q, wt_threads s !! t = Some th /\ wt_pending s !! i = Some q /\ int_ok s i th q;
  vi_pending : forall i q, wt_pending s !! i = Some q -> is_Some (wt_thread s !! i);
  vi_tree : forall pid i, wt_tree s !! pid = Some i -> wt_pid s !! i = Some pid /\ is_Some (wt_thread s !! i) /\ i ∉ wt_dead s /\
    forall t th, wt_threads s !! t = Some th -> ~ off_tree th i;
  vi_children : dom (wt_tree s) ⊆ children (wt_w s);
  vi_posted : forall i, i ∈ wt_posted s -> is_Some (wt_thread s !! i);
  vi_thr : forall t th, wt_threads s !! t = Some th -> thr_ok s t th }.

Definition wt_view th := (tt_in th, tt_events th, tt_handled th, tt_pc th).
Definition wt_aux s t := wt_view <$> wt_threads s !! t.

(** ** Accesses *)
Definition put_wt me th s : St := set_wt_threads (<[me := th]> (wt_threads s)) s.
Lemma load_wt_Ok s me th : wt_threads s !! me = Some th -> load_wt me s = Ok (th, s).
Proof. intros E. unfold load_wt. msimpl. by rewrite E. Qed.
Lemma upd_wt_Ok s me th g : wt_threads s !! me = Some th -> upd_wt me g s = Ok (tt, put_wt me (g th) s).
Proof. intros E. unfold upd_wt. by rewrite (bind_Ok _ _ _ _ _ (load_wt_Ok _ _ _ E)). Qed.
Lemma aux_thread s me l : wt_aux s me = Some l -> exists th, wt_threads s !! me = Some th /\ wt_view th = l.
Proof. unfold wt_aux. destruct (wt_threads s !! me) as [th|]; [|done]. intros [= <-]. by exists th. Qed.
Definition others s s' me : Prop := forall t, t <> me -> wt_threads s' !! t = wt_threads s !! t.
Lemma others_aux s s' me t : others s s' me -> t <> me -> wt_aux s' t = wt_aux s t.
Proof. intros Ho Hne. unfold wt_aux. by rewrite Ho. Qed.

(** An interest other than those an action is about. *)
Lemma int_frame s s' i th th' q : int_ok s i th q ->
  (i ∈ wt_dead s' <-> i ∈ wt_dead s) -> rep s' i = rep s i -> called s' i = called s i -> wt_pid s' !! i = wt_pid s !! i ->
  (forall pid, wt_tree s !! pid = Some i -> wt_tree s' !! pid = Some i) -> (i ∈ wt_posted s -> i ∈ wt_posted s') ->
  (off_tree th' i <-> off_tree th i) -> (tt_pc th = Some (WtTaken i) -> tt_pc th' = Some (WtTaken i)) ->
  (tt_handled th' = Some i <-> tt_handled th = Some i) -> (tt_handled th = Some i -> tt_events th' = tt_events th) -> int_ok s' i th' q.
Proof.
  intros [A B C D] Hd Hr Hc Hp Ht Hpo Hu Htk Hh He. split.
  - rewrite Hd, Hr. exact A.
  - rewrite Hd, Hr, Hu, Hp. intros Hn. destruct (B Hn) as [? [?|(pid&?&?)]]; split; [done|by left|done|right; exists pid; auto].
  - rewrite Hr, Hc, C. destruct (decide (tt_handled th = Some i)) as [E|E].
    + rewrite decide_True by (by apply Hh). by rewrite He.
    + rewrite decide_False by (by rewrite Hh). done.
  - intros Hq. destruct (D Hq); [left; auto|right; auto].
Qed.
Lemma count_insert (m : gmap loc loc) i me t : m !! i = None ->
  Z.of_nat (size (filter (fun p => p.2 = t) (<[i := me]> m))) = Z.of_nat (size (filter (fun p => p.2 = t) m)) + (if decide (me = t) then 1 else 0).
Proof.
  intros Hn. assert (filter (fun p : loc * loc => p.2 = t) m !! i = None) as Hf by (apply map_lookup_filter_None; by left).
  destruct (decide (me = t)) as [E|E].
  - rewrite map_filter_insert_True by done. rewrite map_size_insert_None by done. lia.
  - rewrite map_filter_insert_not' by (done || (intros y Hy; congruence)). lia.
Qed.
Lemma count_delete (m : gmap loc loc) i me t : m !! i = Some me ->
  Z.of_nat (size (filter (fun p => p.2 = t) (delete i m))) = Z.of_nat (size (filter (fun p => p.2 = t) m)) - (if decide (me = t) then 1 else 0).
Proof.
  intros Hi. assert (m = <[i := me]> (delete i m)) as E by (by rewrite insert_delete_id).
  rewrite E at 2. rewrite count_insert by apply lookup_delete_eq. lia.
Qed.

(** ** Registering *)
Lemma register_spec_wait me i s th : wt_inv s -> wt_threads s !! me = Some th -> tt_pc th = None ->
  wp wtbreach (__iv_wait_interest_register me i) s (fun _ s' => wt_inv s' /\ others s s' me /\
    wt_aux s' me = Some (tt_in th, tt_events th, tt_handled th, Some (WtSpawn i))).
Proof.
  intros Hi Ht Hpc. unfold __iv_wait_interest_register. wprim. wbind. apply requires_spec; [done|].
  intros [Hp%bool_decide_eq_true%not_elem_of_dom Hn%bool_decide_eq_true%not_elem_of_dom]%andb_true_iff.
  wrun (upd_wt_Ok s me th (fun th => set_tt_sigchld (if tt_count th =? 0 then true else tt_sigchld th) (set_tt_count (tt_count th + 1) th)) Ht).
  do 4 wprim. match goal with |- wp _ _ ?st _ => set (s1 := st) end. set (th1 := set_tt_sigchld _ _) in s1.
  assert (wt_threads s1 !! me = Some th1) as H1 by apply lookup_insert_eq.
  eapply wp_Ok; [exact (upd_wt_Ok s1 me th1 (set_tt_pc (Some (WtSpawn i))) H1)|].
  assert (others s (put_wt me (set_tt_pc (Some (WtSpawn i)) th1) s1) me) as Ho.
  { intros t Hne. cbn. by rewrite !lookup_insert_ne. }
  assert (wt_threads (put_wt me (set_tt_pc (Some (WtSpawn i)) th1) s1) !! me = Some (set_tt_pc (Some (WtSpawn i)) th1)) as Hme by apply lookup_insert_eq.
  split; [|split; [exact Ho|unfold wt_aux; by rewrite Hme]].
  set (s' := put_wt me (set_tt_pc (Some (WtSpawn i)) th1) s1) in *. destruct Hi as [V1 V2 V3 V4 V5 V6]. pose proof (V6 _ _ Ht) as [K1 K2 K3 K4].
  assert (forall t, wt_thread s !! i = Some t -> False) as Hni by (intros t E; congruence).
  split.
  - intros j t. change (wt_thread s') with (<[i := me]> (wt_thread s)). change (wt_pending s') with (<[i := []]> (wt_pending s)).
    destruct (decide (j = i)) as [->|Hne].
    + rewrite lookup_insert_eq. intros [= <-]. eexists _, []. split_and!; [exact Hme|apply lookup_insert_eq|].
      split; try done.
      * cbn. intros [_ ?%not_elem_of_singleton]%elem_of_difference. done.
      * intros _. unfold rep. cbn. rewrite lookup_insert_eq. split; [constructor|]. left. by left.
      * unfold rep, called. cbn. rewrite !lookup_insert_eq. rewrite decide_False; [done|]. intros E. by apply K1 in E as [_ ?%Hni].
    + rewrite !lookup_insert_ne by done. intros Hj. destruct (V1 j t Hj) as (thj&q&Htj&Hq&Hok).
      destruct (decide (t = me)) as [->|Htne].
      * assert (thj = th) as -> by congruence. eexists _, q. split_and!; [exact Hme|done|].
        eapply int_frame; [exact Hok|..]; try done; cbn.
        -- set_solver.
        -- unfold rep. cbn. by rewrite lookup_insert_ne.
        -- unfold called. cbn. by rewrite lookup_insert_ne.
        -- unfold off_tree. rewrite Hpc. cbn. naive_solver.
        -- congruence.
      * exists thj, q. split_and!; [by rewrite Ho|done|]. eapply int_frame; [exact Hok|..]; try done; cbn.
        -- set_solver.
        -- unfold rep. cbn. by rewrite lookup_insert_ne.
        -- unfold called. cbn. by rewrite lookup_insert_ne.
  - intros j q. cbn. rewrite lookup_insert. case_decide as E; [subst j; rewrite lookup_insert_eq; by eexists|]. intros Hj%V2. by rewrite lookup_insert_ne.
  - intros pid j Hj. destruct (V3 pid j Hj) as (?&Hth&Hd&Hu). assert (j <> i) as Hne by (intros ->; by destruct Hth as [t ?%Hni]).
    split_and!; [done| |cbn; set_solver|].
    + cbn. by rewrite lookup_insert_ne.
    + intros t thj Htj. destruct (decide (t = me)) as [->|Htne].
      * rewrite Hme in Htj. injection Htj as <-. unfold off_tree. cbn. naive_solver.
      * rewrite Ho in Htj by done. by eapply Hu.
  - exact V4.
  - intros j Hj. cbn. destruct (decide (j = i)) as [->|Hne]; [rewrite lookup_insert_eq; by eexists|]. rewrite lookup_insert_ne by done. by apply V5.
  - intros t thj Htj. destruct (decide (t = me)) as [->|Htne].
    + rewrite Hme in Htj. injection Htj as <-. split.
      * intros j E. destruct (K1 j E) as [? Hj]. split; [done|]. cbn. rewrite lookup_insert_ne; [done|]. intros ->. by apply Hni in Hj.
      * cbn. rewrite lookup_insert_eq. split; [done|set_solver].
      * cbn. rewrite count_insert, K3 by done. by rewrite decide_True.
      * cbn. destruct (Z.eqb_spec (tt_count th) 0) as [->|]; [done|]. rewrite K4. destruct (Z.ltb_spec 0 (tt_count th)), (Z.ltb_spec 0 (tt_count th + 1)); try done; lia.
    + rewrite Ho in Htj by done. destruct (V6 _ _ Htj) as [L1 L2 L3 L4].
      assert (forall j, wt_thread s !! j = Some t -> wt_thread s' !! j = Some t) as Hkeep.
      { intros j Hj. cbn. rewrite lookup_insert_ne; [done|]. intros ->. by apply Hni in Hj. }
      split; [intros j E; destruct (L1 j E); auto| |cbn; rewrite count_insert, L3 by done; rewrite decide_False by done; lia|done].
      destruct (tt_pc thj) as [[]|]; cbn in *; try done; first [by apply Hkeep|destruct L2 as [Hx ?]; (split; [by apply Hkeep|set_solver])].
Qed.

(** ** Actions that leave the tree and the interests registered as they are *)
Record own_step me i th th' s U : Prop := {
  os_threads : wt_threads U = <[me := th']> (wt_threads s);
  os_tree : wt_tree U = wt_tree s /\ wt_pid U = wt_pid s /\ wt_dead U = wt_dead s;
  os_thread : wt_thread U = wt_thread s /\ wt_reported U = wt_reported s;
  os_children : children (wt_w U) = children (wt_w s);
  os_rest : forall j, j <> i -> wt_pending U !! j = wt_pending s !! j /\ wt_called U !! j = wt_called s !! j /\ (j ∈ wt_posted s -> j ∈ wt_posted U);
  os_pc : forall j, (off_tree th' j <-> off_tree th j) /\ (j <> i -> tt_pc th = Some (WtTaken j) -> tt_pc th' = Some (WtTaken j));
  os_flow : forall j, j <> i -> (tt_handled th' = Some j <-> tt_handled th = Some j) /\ (tt_handled th = Some j -> tt_events th' = tt_events th);
  os_own : forall t thi q, wt_thread s !! i = Some t -> wt_pending s !! i = Some q -> wt_threads s !! t = Some thi -> int_ok s i thi q ->
    exists q', wt_pending U !! i = Some q' /\ int_ok U i (if decide (t = me) then th' else thi) q';
  os_dom : forall j q, wt_pending U !! j = Some q -> is_Some (wt_pending s !! j);
  os_posted : forall j, j ∈ wt_posted U -> j ∈ wt_posted s;
  os_thr : thr_ok U me th' }.
Lemma own_step_inv me i th th' s U : wt_inv s -> wt_threads s !! me = Some th -> own_step me i th th' s U ->
  wt_inv U /\ others s U me /\ wt_aux U me = Some (wt_view th').
Proof.
  intros Hi Ht [A (B1&B2&B3) (C1&C2) D E F G H I J K].
  assert (others s U me) as Ho by (intros t Hne; by rewrite A, lookup_insert_ne).
  assert (wt_threads U !! me = Some th') as Hme by (rewrite A; apply lookup_insert_eq).
  split; [|split; [exact Ho|unfold wt_aux; by rewrite Hme]]. destruct Hi as [V1 V2 V3 V4 V5 V6]. split.
  - intros j t. rewrite C1. intros Hj. destruct (V1 j t Hj) as (thj&q&Htj&Hq&Hok).
    exists (if decide (t = me) then th' else thj).
    assert (wt_threads U !! t = Some (if decide (t = me) then th' else thj)) as Et.
    { destruct (decide (t = me)) as [->|Hne]; [done|by rewrite Ho]. }
    destruct (decide (j = i)) as [->|Hne]; [destruct (H t thj q Hj Hq Htj Hok) as (q'&?&?); by exists q'|].
    exists q. destruct (E j Hne) as (Ep&Ec&Epo). split_and!; [done|by rewrite Ep|].
    assert (rep U j = rep s j) as Er by (unfold rep; by rewrite C2). assert (called U j = called s j) as Ec' by (unfold called; by rewrite Ec).
    destruct (decide (t = me)) as [->|Hnm].
    + assert (thj = th) as -> by congruence. destruct (G j Hne) as [G1 G2]. destruct (F j) as [F1 F2].
      eapply int_frame; [exact Hok|by rewrite B3|done|done|by rewrite B2|by rewrite B1|done|done|by apply F2|done|done].
    + eapply int_frame; [exact Hok|by rewrite B3|done|done|by rewrite B2|by rewrite B1|done..].
  - intros j q Hj. rewrite C1. destruct (I j q Hj) as [q' Hq']. by eapply V2.
  - intros pid j. rewrite B1, B2, B3, C1. intros Hj. destruct (V3 pid j Hj) as (?&?&?&Hu). split_and!; try done.
    intros t thj Htj. destruct (decide (t = me)) as [->|Hne]; [|rewrite Ho in Htj by done; by eapply Hu].
    assert (thj = th') as -> by congruence. rewrite (proj1 (F j)). by eapply Hu.
  - by rewrite B1, D.
  - intros j Hj. rewrite C1. by apply V5, J.
  - intros t thj Htj. destruct (decide (t = me)) as [->|Hne]; [assert (thj = th') as -> by congruence; exact K|].
    rewrite Ho in Htj by done. destruct (V6 _ _ Htj) as [L1 L2 L3 L4]. split; [by rewrite C1|by rewrite C1, B3|by rewrite C1|done].
Qed.
(** Only the thread's place changes. *)
Lemma pc_step me th pc s U : wt_inv s -> wt_threads s !! me = Some th ->
  wt_threads U = <[me := set_tt_pc pc th]> (wt_threads s) -> children (wt_w U) = children (wt_w s) ->
  (wt_tree U, wt_pid U, wt_dead U, wt_thread U, wt_reported U, wt_pending U, wt_called U, wt_posted U) =
  (wt_tree s, wt_pid s, wt_dead s, wt_thread s, wt_reported s, wt_pending s, wt_called s, wt_posted s) ->
  (forall j, off_tree (set_tt_pc pc th) j <-> off_tree th j) -> (forall j, tt_pc th <> Some (WtTaken j)) ->
  thr_ok s me (set_tt_pc pc th) -> wt_inv U /\ others s U me /\ wt_aux U me = Some (wt_view (set_tt_pc pc th)).
Proof.
  intros Hi Ht Eth Ew [= E1 E2 E3 E4 E5 E6 E7 E8] Hu Htk Hok. eapply (own_step_inv me me th); [done|done|]. split; try done.
  - intros j Hj. by rewrite E6, E7, E8.
  - intros j. split; [apply Hu|]. intros _ E. by apply Htk in E.
  - intros t thi q Hti Hq Hthi Hio. exists q. split; [by rewrite E6|].
    assert (rep U me = rep s me) as Er by (unfold rep; by rewrite E5). assert (called U me = called s me) as Ec by (unfold called; by rewrite E7).
    destruct (decide (t = me)) as [->|Hne].
    + assert (thi = th) as -> by congruence.
      eapply int_frame; [exact Hio|by rewrite E3|done|done|by rewrite E2|by rewrite E1|by rewrite E8|apply Hu|intros E; by apply Htk in E|done|done].
    + eapply int_frame; [exact Hio|by rewrite E3|done|done|by rewrite E2|by rewrite E1|by rewrite E8|done..].
  - intros j q. rewrite E6. intros Hj. by eexists.
  - intros j. by rewrite E8.
  - destruct Hok as [L1 L2 L3 L4]. split; [by rewrite E4|by rewrite E4, E3|by rewrite E4|done].
Qed.

Lemma w_inv s w : wt_inv s -> children (wt_w s) ⊆ children w -> wt_inv (set_wt_w w s).
Proof.
  intros [V1 V2 V3 V4 V5 V6] Hw. split; try done.
  - intros j t Hj. destruct (V1 j t Hj) as (th&q&?&?&[A B C D]). by exists th, q.
  - cbn. set_solver.
  - intros t th Ht. by destruct (V6 t th Ht).
Qed.
Lemma off_tree_None th j : tt_pc th = None -> ~ off_tree th j.
Proof. intros E [?|[?|?]]; congruence. Qed.
(** An interest leaves the tree, or its end was collected and it is off it already. *)
Lemma leave_tree_inv me i tree' th s : wt_inv s -> wt_threads s !! me = Some th -> tt_pc th = None -> wt_thread s !! i = Some me ->
  (forall p j, wt_tree s !! p = Some j -> j <> i -> tree' !! p = Some j) ->
  (forall p j, tree' !! p = Some j -> wt_tree s !! p = Some j /\ j <> i) -> wt_inv (put_wt me (set_tt_pc (Some (WtUnregister i)) th) (set_wt_tree tree' s)).
Proof.
  intros Hi Ht Hpc Hth Ht1 Ht2. set (th' := set_tt_pc _ th). destruct Hi as [V1 V2 V3 V4 V5 V6].
  assert (forall j, j <> i -> off_tree th' j <-> off_tree th j) as Hoff.
  { intros j Hne. unfold off_tree. cbn. rewrite Hpc. naive_solver. }
  split; cbn.
  - intros j t Hj. destruct (V1 j t Hj) as (thj&q&Htj&Hq&Hok). exists (if decide (t = me) then th' else thj), q. split_and!; [|done|].
    { rewrite lookup_insert. destruct (decide (me = t)) as [->|?]; [by rewrite decide_True|]. by rewrite decide_False by congruence. }
    destruct (decide (t = me)) as [->|Hne]; cycle 1.
    + eapply int_frame; [exact Hok|done..| |done|done|done|done|done]. cbn. intros p Hp. apply Ht1; [done|]. congruence.
    + assert (thj = th) as -> by congruence. destruct (decide (j = i)) as [->|Hne].
      * destruct Hok as [A B C D]. split; [exact A| |exact C|].
        -- intros Hd. destruct (B Hd). split; [done|]. left. right. by right.
        -- intros Hqn. destruct (D Hqn); [by left|congruence].
      * eapply int_frame; [exact Hok|done..| |done|by apply Hoff|congruence|done|done]. cbn. intros p Hp. by apply Ht1.
  - exact V2.
  - intros p j Hj. apply Ht2 in Hj as [Hj Hne]. destruct (V3 p j Hj) as (?&?&?&Hu). split_and!; try done.
    intros t thj. rewrite lookup_insert. case_decide as E; [intros [= <-]|by apply Hu]. rewrite Hoff by done. by apply (Hu me).
  - intros p [j Hj]%elem_of_dom. apply Ht2 in Hj as [Hj _]. apply V4, elem_of_dom. by eexists.
  - exact V5.
  - intros t thj. rewrite lookup_insert. case_decide as E; [intros [= <-]; subst t|intros Hx; by destruct (V6 t thj Hx)]. destruct (V6 me th Ht). by split.
Qed.
Lemma unregister_section_spec_wait me i s th : wt_inv s -> wt_threads s !! me = Some th -> tt_pc th = None ->
  wp wtbreach (unregister_section me i) s (fun _ s' => wt_inv s' /\ others s s' me /\
    wt_aux s' me = Some (tt_in th, tt_events th, tt_handled th, Some (WtUnregister i))).
Proof.
  intros Hi Ht Hpc. unfold unregister_section. wprim. wbind. apply requires_spec; [done|]. intros Hth%bool_decide_eq_true. wprim.
  assert (forall tree', wt_inv (put_wt me (set_tt_pc (Some (WtUnregister i)) th) (set_wt_tree tree' s)) ->
    wp wtbreach (upd_wt me (set_tt_pc (Some (WtUnregister i)))) (set_wt_tree tree' s) (fun _ s' => wt_inv s' /\ others s s' me /\
      wt_aux s' me = Some (tt_in th, tt_events th, tt_handled th, Some (WtUnregister i)))) as Hend.
  { intros tree' Hi'. eapply wp_Ok; [exact (upd_wt_Ok (set_wt_tree tree' s) me th _ Ht)|]. split_and!; [done| |].
    - intros t Hne. cbn. by rewrite lookup_insert_ne.
    - unfold wt_aux. cbn. by rewrite lookup_insert_eq. }
  destruct (vi_thread _ Hi i me Hth) as (th0&q&Ht0&_&Hok). assert (th0 = th) as -> by congruence. case_bool_decide as Hd; cbn [negb when].
  - wprim. replace s with (set_wt_tree (wt_tree s) s) at 1 by (by destruct s). apply Hend, leave_tree_inv; try done.
    intros p j Hj. split; [done|]. intros ->. by destruct (vi_tree _ Hi _ _ Hj) as (_&_&?&_).
  - destruct (io_alive _ _ _ _ Hok Hd) as [_ [?%(off_tree_None th)|(pid&Hp&Htr)]]; [done|done|].
    wbind. wprim. rewrite Hp. wprim. wprim. rewrite Htr. wprim. rewrite bool_decide_true by done. wprim. apply Hend, leave_tree_inv; try done.
    + intros p j Hj Hne. rewrite lookup_delete_ne; [done|]. intros ->. congruence.
    + intros p j [Hnp Hj]%lookup_delete_Some. split; [done|]. intros ->. destruct (vi_tree _ Hi _ _ Hj). congruence.
Qed.
Lemma kill_section_spec i sig s : wt_inv s -> is_Some (wt_thread s !! i) -> (forall t th, wt_threads s !! t = Some th -> ~ off_tree th i) ->
  wp wtbreach (kill_section i sig) s (fun ret s' => wt_inv s' /\ wt_threads s' = wt_threads s /\
    ((i ∈ wt_dead s /\ ret = - ESRCH /\ s' = s) \/
     exists pid, wt_pid s !! i = Some pid /\ wt_tree s !! pid = Some i /\ pid ∈ children (wt_w s) /\ (ret, wt_w s') = kill pid sig (wt_w s))).
Proof.
  intros Hi [t Hth] Hu. unfold kill_section. wprim. case_bool_decide as Hd.
  { eapply wp_Ok; [reflexivity|]. split_and!; [done|done|by left]. }
  destruct (vi_thread _ Hi i t Hth) as (th&q&Htt&_&Hok). destruct (io_alive _ _ _ _ Hok Hd) as [_ [?|(pid&Hp&Htr)]]; [by destruct (Hu _ _ Htt)|].
  wprim. rewrite Hp. wprim. wprim. pose proof (law_kill pid sig (wt_w s)) as Hl. destruct (kill pid sig (wt_w s)) as [ret w] eqn:Ek. cbn in Hl.
  wprim. eapply wp_Ok; [reflexivity|]. split_and!; [apply w_inv; [done|by rewrite Hl]|done|right]. exists pid. split_and!; [done|done| |by rewrite Ek].
  apply (vi_children _ Hi), elem_of_dom. by eexists.
Qed.

(** ** Onto the tree *)
Lemma inserted_inv me i pid w th s : wt_inv s -> wt_threads s !! me = Some th -> tt_pc th = Some (WtSpawn i) ->
  wt_tree s !! pid = None -> pid ∈ children w -> children (wt_w s) ⊆ children w ->
  wt_inv (put_wt me (set_tt_pc None th) (set_wt_tree (<[pid := i]> (wt_tree s)) (set_wt_pid (<[i := pid]> (wt_pid s)) (set_wt_w w s)))).
Proof.
  intros Hi Ht Hpc Hfr Hin Hch. pose proof (vi_thr _ Hi _ _ Ht) as [K1 K2 K3 K4]. rewrite Hpc in K2. destruct K2 as [Hth Hnd].
  set (s' := put_wt _ _ _). assert (others s s' me) as Ho by (intros t Hne; cbn; by rewrite lookup_insert_ne).
  assert (wt_threads s' !! me = Some (set_tt_pc None th)) as Hme by apply lookup_insert_eq.
  destruct Hi as [V1 V2 V3 V4 V5 V6]. split.
  - intros j t Hj. destruct (V1 j t Hj) as (thj&q&Htj&Hq&Hok). destruct (decide (j = i)) as [->|Hne].
    + assert (t = me) as -> by (cbn in Hj; congruence). assert (thj = th) as -> by congruence. exists (set_tt_pc None th), q. split_and!; [done|done|].
      destruct Hok as [A B C D]. split; [done| |exact C|].
      * intros Hn. destruct (B Hn) as [? _]. split; [done|]. right. exists pid. cbn. by rewrite !lookup_insert_eq.
      * intros Hqn. destruct (D Hqn); [by left|congruence].
    + exists (if decide (t = me) then set_tt_pc None th else thj), q. split_and!; [|done|].
      { destruct (decide (t = me)) as [->|?]; [done|by rewrite Ho]. }
      assert (wt_pid s' !! j = wt_pid s !! j) as Ep by (cbn; by rewrite lookup_insert_ne).
      assert (forall p, wt_tree s !! p = Some j -> wt_tree s' !! p = Some j) as Et by (intros p Hp; cbn; rewrite lookup_insert_ne; [done|congruence]).
      destruct (decide (t = me)) as [->|?]; [assert (thj = th) as -> by congruence|]; (eapply int_frame; [exact Hok|..]); try done; cbn; try congruence.
      unfold off_tree. rewrite Hpc. cbn. naive_solver.
  - exact V2.
  - intros p j. cbn. rewrite lookup_insert. case_decide as E.
    + intros [= <-]. subst p. rewrite lookup_insert_eq. split_and!; [done|by eexists|done|].
      intros t thj. rewrite lookup_insert. case_decide as E2; [intros [= <-]; by apply off_tree_None|]. intros Htj Hun.
      destruct (V6 t thj Htj) as [_ L2 _ _]. destruct Hun as [Hun|[Hun|Hun]]; rewrite Hun in L2; try apply proj1 in L2; congruence.
    + intros Hj. destruct (V3 p j Hj) as (Hp&?&?&Hu). assert (j <> i) as Hne by (intros ->; eapply (Hu me th Ht); by left).
      rewrite lookup_insert_ne by done. split_and!; try done. intros t thj. rewrite lookup_insert. case_decide as E2; [intros [= <-]; by apply off_tree_None|]. by apply Hu.
  - cbn. rewrite dom_insert_L. set_solver.
  - exact V5.
  - intros t thj Htj. destruct (decide (t = me)) as [->|Hne]; [assert (thj = set_tt_pc None th) as -> by congruence; by split|].
    rewrite Ho in Htj by done. by destruct (V6 t thj Htj).
Qed.
Lemma spawn_section_spec me i s th : wt_inv s -> wt_threads s !! me = Some th -> tt_pc th = Some (WtSpawn i) ->
  wp wtbreach (spawn_section me i) s (fun pid s' => wt_inv s' /\ others s s' me /\
    wt_aux s' me = Some (tt_in th, tt_events th, tt_handled th, if pid <? 0 then Some (WtFailed i) else None)).
Proof.
  intros Hi Ht Hpc. pose proof (vi_thr _ Hi _ _ Ht) as [K1 K2 K3 K4]. rewrite Hpc in K2. destruct K2 as [Hth Hnd].
  unfold spawn_section. wprim. destruct (fork (wt_w s)) as [pid w] eqn:Ef. apply law_fork in Ef. wprim.
  destruct (Z.ltb_spec pid 0) as [Hneg|Hpos].
  - wrun (upd_wt_Ok (set_wt_w w s) me th (set_tt_pc (Some (WtFailed i))) Ht). eapply wp_Ok; [reflexivity|].
    rewrite (proj2 (Z.ltb_lt _ _)) by done. apply (pc_step me th (Some (WtFailed i)) s); try done.
    + intros j. unfold off_tree. rewrite Hpc. cbn. naive_solver.
    + by rewrite Hpc.
  - destruct Ef as [Hfr Hch]. assert (wt_tree s !! pid = None) as Hno.
    { apply not_elem_of_dom. intros Hx. by apply Hfr, (vi_children _ Hi). }
    wprim. unfold insert_interest. wbind. wprim. cbn [wt_tree set_wt_pid set_wt_w]. rewrite Hno. eapply wp_Ok; [reflexivity|].
    match goal with |- wp _ _ ?st _ => set (s1 := st) end. wrun (upd_wt_Ok s1 me th (set_tt_pc None) Ht). eapply wp_Ok; [reflexivity|].
    rewrite (proj2 (Z.ltb_ge _ _)) by done. split_and!.
    + apply (inserted_inv me i pid w th s Hi Ht Hpc Hno); rewrite Hch; set_solver.
    + intros t Hne. cbn. by rewrite lookup_insert_ne.
    + unfold wt_aux. cbn. by rewrite lookup_insert_eq.
Qed.
Lemma insert_section_spec me i s th : wt_inv s -> wt_threads s !! me = Some th -> tt_pc th = Some (WtSpawn i) ->
  wp wtbreach (insert_section me i) s (fun _ s' => wt_inv s' /\ others s s' me /\
    wt_aux s' me = Some (tt_in th, tt_events th, tt_handled th, None)).
Proof.
  intros Hi Ht Hpc. unfold insert_section. wprim. wbind. apply requires_spec; [done|]. unfold may_insert.
  destruct (wt_pid s !! i) as [pid|] eqn:Hp; [|done]. intros [Hc%bool_decide_eq_true Hno%bool_decide_eq_true]%andb_true_iff.
  wprim. rewrite Hp. wprim. unfold insert_interest. wbind. wprim. rewrite Hno. eapply wp_Ok; [reflexivity|].
  eapply wp_Ok; [exact (upd_wt_Ok (set_wt_tree _ s) me th (set_tt_pc None) Ht)|]. split_and!.
  - pose proof (inserted_inv me i pid (wt_w s) th s Hi Ht Hpc Hno Hc ltac:(done)) as Hi'. rewrite (insert_id (wt_pid s) i pid) in Hi' by exact Hp. by destruct s.
  - intros t Hne. cbn. by rewrite lookup_insert_ne.
  - unfold wt_aux. cbn. by rewrite lookup_insert_eq.
Qed.
Lemma fill_in_spec i pid s : wt_inv s -> wp wtbreach (fill_in i pid) s (fun _ s' => wt_inv s' /\ wt_threads s' = wt_threads s).
Proof.
  intros Hi. unfold fill_in. wprim. wbind. apply requires_spec; [done|]. intros [_ Hn%bool_decide_eq_true%not_elem_of_dom]%andb_true_iff.
  eapply wp_Ok; [reflexivity|]. split; [|done]. destruct Hi as [V1 V2 V3 V4 V5 V6]. split; try done.
  - intros j t Hj. destruct (V1 j t Hj) as (th&q&?&?&Hok). exists th, q. split_and!; [done|done|]. eapply int_frame; [exact Hok|try done..].
    cbn. rewrite lookup_insert_ne; [done|]. intros ->. cbn in Hj. congruence.
  - intros p j Hj. destruct (V3 p j Hj) as (?&Hth&?&?). split_and!; try done. cbn. rewrite lookup_insert_ne; [done|]. intros ->. rewrite Hn in Hth. by destruct Hth.
  - intros t th Hx. by destruct (V6 t th Hx).
Qed.

(** ** The event *)
Lemma take_event_spec me i s th : wt_inv s -> wt_threads s !! me = Some th -> tt_pc th = None -> tt_in th = None ->
  wp wtbreach (take_event me i) s (fun b s' => wt_inv s' /\ others s s' me /\
    wt_aux s' me = Some (tt_in th, tt_events th, tt_handled th, if b then Some (WtTaken i) else None)).
Proof.
  intros Hi Ht Hpc Hin. unfold take_event. wprim.
  assert (wt_aux s me = Some (tt_in th, tt_events th, tt_handled th, None)) as Ha by (unfold wt_aux; rewrite Ht; cbn; unfold wt_view; by rewrite Hpc).
  case_bool_decide as Hp; cbn [andb]; [|by eapply wp_Ok; [reflexivity|]]. case_bool_decide as Hth; [|by eapply wp_Ok; [reflexivity|]].
  wprim. match goal with |- wp _ _ ?st _ => set (s1 := st) end. wrun (upd_wt_Ok s1 me th (set_tt_pc (Some (WtTaken i))) Ht).
  eapply wp_Ok; [reflexivity|]. apply (own_step_inv me i th (set_tt_pc (Some (WtTaken i)) th) s); [done|done|].
  pose proof (vi_thr _ Hi _ _ Ht) as [K1 K2 K3 K4]. split; try done.
  - intros j Hne. split_and!; [done|done|]. cbn. set_solver.
  - intros j. split; [split; [intros [?|[?|?]]; done|by intros ?%(off_tree_None th)]|congruence].
  - intros t thi q Hti Hq Hthi Hok. assert (t = me) as -> by congruence. rewrite decide_True by done. assert (thi = th) as -> by congruence.
    exists q. split; [done|]. destruct Hok as [A B C D]. split.
    + exact A.
    + intros Hn. destruct (B Hn) as [? [?%(off_tree_None th)|?]]; [done|done|split; [done|by right]].
    + exact C.
    + intros _. by right.
  - cbn. set_solver.
Qed.
Lemma steal_events_spec me i s th : wt_inv s -> wt_threads s !! me = Some th -> tt_pc th = Some (WtTaken i) ->
  wp wtbreach (steal_events me i) s (fun n s' => wt_inv s' /\ others s s' me /\
    exists q, n = length q /\ wt_aux s' me = Some (Some i, q, Some i, None)).
Proof.
  intros Hi Ht Hpc. pose proof (vi_thr _ Hi _ _ Ht) as [K1 K2 K3 K4]. rewrite Hpc in K2. destruct K2 as [Hth Hin].
  destruct (vi_thread _ Hi _ _ Hth) as (th0&q&Ht0&Hq&_). unfold steal_events. wprim. rewrite Hq. wprim. wprim.
  match goal with |- wp _ _ ?st _ => set (s1 := st) end. set (g := fun th => set_tt_pc None (set_tt_in (Some i) (set_tt_events q (set_tt_handled (Some i) th)))).
  wrun (upd_wt_Ok s1 me th g Ht). eapply wp_Ok; [reflexivity|].
  assert (tt_handled th = None) as Hh by (destruct (tt_handled th) as [j|] eqn:E; [destruct (K1 j eq_refl); congruence|done]).
  destruct (own_step_inv me i th (g th) s (put_wt me (g th) s1) Hi Ht) as (Hi'&Ho&Ha); [|split_and!; [exact Hi'|exact Ho|by exists q]].
  split; try done.
  - intros j Hne. split_and!; [cbn; by rewrite lookup_insert_ne|done|done].
  - intros j. split; [unfold off_tree; rewrite Hpc; cbn; naive_solver|]. rewrite Hpc. congruence.
  - intros j Hne. cbn. rewrite Hh. split; [naive_solver|done].
  - intros t thi q0 Hti Hq0 Hthi Hok. assert (t = me) as -> by congruence. rewrite decide_True by done. assert (thi = th) as -> by congruence.
    assert (q0 = q) as -> by congruence. exists []. split; [apply lookup_insert_eq|]. destruct Hok as [A B C D]. split.
    + exact A.
    + intros Hn. destruct (B Hn) as [? [[?|[?|?]]|?]]; [congruence..|split; [done|by right]].
    + change (rep s i = called s i ++ (if decide (Some i = Some i) then q else []) ++ []). rewrite C, Hh.
      destruct (decide (None = Some i)); [done|]. destruct (decide (Some i = Some i)); [|done]. by rewrite app_nil_r.
    + done.
  - intros j q0. cbn. rewrite lookup_insert. case_decide as E; [subst j; by eexists|]. intros Hj. by eexists.
  - split; [by intros j [= <-]|done|done|done].
Qed.
Lemma next_status_spec handler me i s th : wt_inv s -> wt_threads s !! me = Some th -> tt_pc th = None -> tt_in th = Some i ->
  wp wtbreach (next_status handler me i) s (fun r s' => wt_inv s' /\ others s s' me /\
    match r with
    | None => tt_events th = [] /\ wt_aux s' me = Some (None, [], None, None)
    | Some _ => exists st q, tt_events th = st :: q /\ wt_aux s' me = Some (Some i, q, tt_handled th, None)
    end).
Proof.
  intros Hi Ht Hpc Hin. pose proof (vi_thr _ Hi _ _ Ht) as [K1 K2 K3 K4]. unfold next_status. wrun (load_wt_Ok s me th Ht).
  assert (forall j, tt_handled th = Some j -> j = i) as Hji by (intros j E; destruct (K1 j E); congruence).
  destruct (tt_events th) as [|st q] eqn:Hev.
  - set (g := fun th => set_tt_in None (set_tt_handled None th)). wrun (upd_wt_Ok s me th g Ht). eapply wp_Ok; [reflexivity|].
    destruct (own_step_inv me i th (g th) s (put_wt me (g th) s) Hi Ht) as (Hi'&Ho&Ha);
      [|split_and!; [exact Hi'|exact Ho|done|rewrite Ha; unfold wt_view; cbn; by rewrite Hev, Hpc]].
    split; try done.
    + intros j Hne. cbn. split; [|intros E; by apply Hji in E]. split; [done|]. intros E. by apply Hji in E.
    + intros t thi q0 Hti Hq0 Hthi Hok. exists q0. split; [done|]. destruct (decide (t = me)) as [->|?]; [|by destruct Hok].
      assert (thi = th) as -> by congruence. destruct Hok as [A B C D]. split; [exact A|exact B| |exact D].
      change (rep s i = called s i ++ [] ++ q0). rewrite C, Hev. by destruct (decide _).
    + split; try done. cbn. rewrite Hpc. done.
  - wrun (upd_wt_Ok s me th (set_tt_events q) Ht). destruct (tt_handled th) as [j|] eqn:Hh.
    + assert (j = i) as -> by (by apply Hji). wprim. wprim. eapply wp_Ok; [reflexivity|]. match goal with |- wt_inv ?U /\ _ => set (s' := U) end.
      destruct (own_step_inv me i th (set_tt_events q th) s s' Hi Ht) as (Hi'&Ho&Ha);
        [|split_and!; [exact Hi'|exact Ho|exists st, q; split; [done|rewrite Ha; unfold wt_view; cbn; by rewrite Hin, Hh, Hpc]]].
      split; try done.
      * intros j Hne. split_and!; [done|cbn; by rewrite lookup_insert_ne|done].
      * intros j Hne. split; [done|]. intros E. congruence.
      * intros t thi q0 Hti Hq0 Hthi Hok. destruct (K1 i eq_refl) as [_ Hthr]. assert (t = me) as -> by congruence. rewrite decide_True by done.
        assert (thi = th) as -> by congruence. exists q0. split; [done|]. destruct Hok as [A B C D]. split; [exact A|exact B| |exact D].
        assert (called s' i = called s i ++ [st]) as -> by (unfold called; cbn; by rewrite lookup_insert_eq).
        change (rep s' i) with (rep s i). change (tt_handled (set_tt_events q th)) with (tt_handled th). rewrite C, Hh, !decide_True, Hev by done. cbn. by rewrite <-app_assoc.
      * split; [cbn; rewrite Hh; exact K1|cbn; by rewrite Hpc|exact K3|exact K4].
    + eapply wp_Ok; [reflexivity|].
      destruct (own_step_inv me i th (set_tt_events q th) s (put_wt me (set_tt_events q th) s) Hi Ht) as (Hi'&Ho&Ha);
        [|split_and!; [exact Hi'|exact Ho|exists st, q; split; [done|rewrite Ha; unfold wt_view; cbn; by rewrite Hin, Hh, Hpc]]].
      split; try done.
      * intros j Hne. split; [done|]. rewrite Hh. done.
      * intros t thi q0 Hti Hq0 Hthi Hok. exists q0. split; [done|]. destruct (decide (t = me)) as [->|?]; [|by destruct Hok].
        assert (thi = th) as -> by congruence. destruct Hok as [A B C D]. split; [exact A|exact B| |exact D].
        cbn [tt_handled set_tt_events]. rewrite Hh in *. exact C.
      * split; [cbn; rewrite Hh; exact K1|cbn; by rewrite Hpc|exact K3|exact K4].
Qed.

(** ** Unregistering *)
Lemma unregister_spec_wait me i s th : wt_inv s -> wt_threads s !! me = Some th -> tt_pc th = Some (WtFailed i) \/ tt_pc th = Some (WtUnregister i) ->
  wp wtbreach (__iv_wait_interest_unregister me i) s (fun _ s' => wt_inv s' /\ others s s' me /\
    wt_aux s' me = Some (tt_in th, tt_events th, if decide (tt_handled th = Some i) then None else tt_handled th, None)).
Proof.
  intros Hi Ht Hpc. pose proof (vi_thr _ Hi _ _ Ht) as [K1 K2 K3 K4].
  assert (wt_thread s !! i = Some me) as Hth by (destruct Hpc as [E|E]; rewrite E in K2; apply K2).
  assert (forall pid, wt_tree s !! pid = Some i -> False) as Hnt.
  { intros pid Hp. destruct (vi_tree _ Hi _ _ Hp) as (_&_&_&Hu). apply (Hu me th Ht). by right. }
  unfold __iv_wait_interest_unregister. do 2 wprim. match goal with |- wp _ _ ?st _ => set (s1 := st) end. wrun (load_wt_Ok s1 me th Ht).
  set (th1 := if decide (tt_handled th = Some i) then set_tt_handled None th else th).
  wbind. apply (wp_mono _ _ _ (fun _ s2 => s2 = put_wt me th1 s1)).
  { unfold th1. case_bool_decide as E; cbn [when].
    - rewrite decide_True by done. by eapply wp_Ok; [exact (upd_wt_Ok s1 me th (set_tt_handled None) Ht)|].
    - rewrite decide_False by done. eapply wp_Ok; [reflexivity|]. unfold put_wt. rewrite insert_id by exact Ht. by destruct s1. }
  intros _ s2 ->. assert (wt_threads (put_wt me th1 s1) !! me = Some th1) as H1 by apply lookup_insert_eq.
  set (g := fun th => set_tt_sigchld (if tt_count th - 1 =? 0 then false else tt_sigchld th) (set_tt_count (tt_count th - 1) th)).
  wrun (upd_wt_Ok (put_wt me th1 s1) me th1 g H1). assert (wt_threads (put_wt me (g th1) (put_wt me th1 s1)) !! me = Some (g th1)) as H2 by apply lookup_insert_eq.
  eapply wp_Ok; [exact (upd_wt_Ok _ me (g th1) (set_tt_pc None) H2)|].
  set (th' := set_tt_pc None (g th1)). set (s' := put_wt me th' (put_wt me (g th1) (put_wt me th1 s1))).
  assert (others s s' me) as Ho by (intros t Hne; cbn; by rewrite !lookup_insert_ne).
  assert (wt_threads s' !! me = Some th') as Hme by apply lookup_insert_eq.
  assert (tt_pc th' = None /\ tt_in th' = tt_in th /\ tt_events th' = tt_events th /\ tt_count th' = tt_count th - 1 /\
    tt_sigchld th' = (if tt_count th - 1 =? 0 then false else tt_sigchld th) /\
    tt_handled th' = (if decide (tt_handled th = Some i) then None else tt_handled th)) as (E1&E2&E3&E4&E5&E6).
  { unfold th', g, th1. destruct (decide _) as [E|E]; cbn; by split_and!. }
  split; [|split; [exact Ho|unfold wt_aux, wt_view; rewrite Hme; cbn [fmap option_fmap option_map]; by rewrite E1, E2, E3, E6]].
  clearbody th'. destruct Hi as [V1 V2 V3 V4 V5 V6]. split.
  - intros j t Hj. cbn in Hj. apply lookup_delete_Some in Hj as [Hne Hj]. destruct (V1 j t Hj) as (thj&q&Htj&Hq&Hok).
    exists (if decide (t = me) then th' else thj), q. split_and!.
    + destruct (decide (t = me)) as [->|?]; [exact Hme|by rewrite Ho].
    + cbn. by rewrite lookup_delete_ne.
    + assert (j ∈ wt_posted s -> j ∈ wt_posted s') as Hpo by (cbn; set_solver).
      destruct (decide (t = me)) as [->|?]; [assert (thj = th) as -> by congruence|by eapply int_frame].
      eapply int_frame; [exact Hok|done..| | | |].
      * unfold off_tree. rewrite E1. destruct Hpc as [E|E]; rewrite E; naive_solver.
      * destruct Hpc as [E|E]; rewrite E; congruence.
      * rewrite E6. destruct (decide _); naive_solver.
      * by rewrite E3.
  - intros j q. cbn. intros [Hne Hj]%lookup_delete_Some. rewrite lookup_delete_ne by done. by eapply V2.
  - intros pid j Hj. destruct (V3 pid j Hj) as (?&?&?&Hu). assert (i <> j) as Hne by (intros ->; by eapply Hnt).
    split_and!; [done|cbn; by rewrite lookup_delete_ne|done|]. intros t thj Htj. destruct (decide (t = me)) as [->|?].
    + assert (thj = th') as -> by congruence. by apply off_tree_None.
    + rewrite Ho in Htj by done. by eapply Hu.
  - exact V4.
  - intros j. cbn. intros [Hj Hne%not_elem_of_singleton]%elem_of_difference. rewrite lookup_delete_ne by done. by apply V5.
  - intros t thj Htj. destruct (decide (t = me)) as [->|Hne].
    + assert (thj = th') as -> by congruence. split.
      * intros j. rewrite E6, E2. destruct (decide _) as [|Hno]; [done|]. intros E. destruct (K1 j E). split; [done|].
        cbn. rewrite lookup_delete_ne; [done|]. intros ->. done.
      * by rewrite E1.
      * rewrite E4, K3. cbn. rewrite (count_delete _ _ me) by done. by rewrite decide_True.
      * rewrite E5, E4, K4. destruct (Z.eqb_spec (tt_count th - 1) 0) as [E|E]; [by rewrite E|]. symmetry.
        destruct (Z.ltb_spec 0 (tt_count th)), (Z.ltb_spec 0 (tt_count th - 1)); try done; lia.
    + rewrite Ho in Htj by done. destruct (V6 _ _ Htj) as [L1 L2 L3 L4].
      assert (forall j, wt_thread s !! j = Some t -> wt_thread s' !! j = Some t) as Hkeep.
      { intros j Hj. cbn. rewrite lookup_delete_ne; [done|]. intros ->. congruence. }
      split; [intros j E; destruct (L1 j E); auto| |cbn; rewrite (count_delete _ _ me), L3 by done; rewrite decide_False by done; lia|done].
      destruct (tt_pc thj) as [[]|]; cbn in *; try done; first [by apply Hkeep|destruct L2 as [Hx ?]; (split; [by apply Hkeep|done])].
Qed.

(** ** SIGCHLD *)
Definition queued i q st s : St :=
  set_wt_posted ({[i]} ∪ wt_posted s) (set_wt_reported (<[i := rep s i ++ [st]]> (wt_reported s)) (set_wt_pending (<[i := q ++ [st]]> (wt_pending s)) s)).
Definition collected pid i q st w s : St :=
  if iv_wait_status_dead st
  then set_wt_dead ({[i]} ∪ wt_dead s) (set_wt_tree (delete pid (wt_tree s)) (queued i q st (set_wt_w w s)))
  else queued i q st (set_wt_w w s).
Lemma got_status_Ok pid i q st w s : wt_tree s !! pid = Some i -> wt_pending s !! i = Some q ->
  got_status pid st (set_wt_w w s) = Ok (tt, collected pid i q st w s).
Proof.
  intros Ht Hq. unfold got_status, collected. rewrite (bind_Ok _ _ _ _ _ (eq_refl : gets (fun s => wt_tree s !! pid) (set_wt_w w s) = Ok (wt_tree s !! pid, set_wt_w w s))).
  rewrite Ht. msimpl. rewrite Hq. by destruct (iv_wait_status_dead st).
Qed.
Lemma collected_fields pid i q st w s : let s' := collected pid i q st w s in
  wt_pid s' = wt_pid s /\ wt_thread s' = wt_thread s /\ wt_threads s' = wt_threads s /\ wt_called s' = wt_called s /\ wt_w s' = w /\
  wt_posted s' = {[i]} ∪ wt_posted s /\ wt_reported s' = <[i := rep s i ++ [st]]> (wt_reported s) /\ wt_pending s' = <[i := q ++ [st]]> (wt_pending s) /\
  wt_tree s' = (if iv_wait_status_dead st then delete pid (wt_tree s) else wt_tree s) /\
  wt_dead s' = (if iv_wait_status_dead st then {[i]} ∪ wt_dead s else wt_dead s).
Proof. unfold collected. destruct (iv_wait_status_dead st); by split_and!. Qed.
Lemma collected_inv pid i q st w s : wt_inv s -> wt_tree s !! pid = Some i -> wt_pending s !! i = Some q ->
  children w = (if iv_wait_status_dead st then children (wt_w s) ∖ {[pid]} else children (wt_w s)) -> wt_inv (collected pid i q st w s).
Proof.
  intros Hi Htr Hq Hw. pose proof (collected_fields pid i q st w s) as (F1&F2&F3&F4&F5&F6&F7&F8&F9&F10).
  set (s' := collected pid i q st w s) in *. clearbody s'. destruct Hi as [V1 V2 V3 V4 V5 V6].
  destruct (V3 _ _ Htr) as (Hp&Hth&Hd&Hu).
  assert (forall j, j <> i -> (j ∈ wt_dead s' <-> j ∈ wt_dead s)) as Hdj by (intros j Hne; rewrite F10; destruct (iv_wait_status_dead st); set_solver).
  assert (forall p j, j <> i -> wt_tree s !! p = Some j -> wt_tree s' !! p = Some j) as Htj.
  { intros p j Hne Hj. rewrite F9. destruct (iv_wait_status_dead st); [|done]. rewrite lookup_delete_ne; [done|]. intros ->. congruence. }
  split.
  - intros j t. rewrite F2. intros Hj. destruct (V1 j t Hj) as (thj&qj&Ht&Hqj&Hok). destruct (decide (j = i)) as [->|Hne].
    + assert (qj = q) as -> by congruence. exists thj, (q ++ [st]). rewrite F3, F8, lookup_insert_eq. split_and!; [done|done|].
      assert (rep s' i = rep s i ++ [st]) as Er by (unfold rep; rewrite F7; by rewrite lookup_insert_eq).
      destruct Hok as [A B C D]. destruct (B Hd) as [Hal _]. split.
      * intros Hdead. rewrite Er. exists (rep s i), st. split_and!; [done|done|].
        rewrite F10 in Hdead. destruct (iv_wait_status_dead st); done.
      * intros Hnd. rewrite F10 in Hnd. rewrite F9, F1, Er. destruct (iv_wait_status_dead st) eqn:E; [set_solver|].
        split; [apply Forall_app; split; [done|by constructor]|right; by exists pid].
      * rewrite Er, C. unfold called. rewrite F4. by rewrite <-!app_assoc.
      * intros _. left. rewrite F6. set_solver.
    + exists thj, qj. rewrite F3, F8, lookup_insert_ne by done. split_and!; [done|done|].
      eapply int_frame; [exact Hok|by apply Hdj| | |by rewrite F1|by intros p; apply Htj|rewrite F6; set_solver|done..].
      * unfold rep. by rewrite F7, lookup_insert_ne.
      * unfold called. by rewrite F4.
  - intros j qj. rewrite F2, F8, lookup_insert. case_decide as E; [by subst|apply V2].
  - intros p j. rewrite F1, F2, F3. intros Hj. assert (wt_tree s !! p = Some j /\ (iv_wait_status_dead st = true -> j <> i)) as [Hjs Hne].
    { rewrite F9 in Hj. destruct (iv_wait_status_dead st); [|done]. apply lookup_delete_Some in Hj as [Hnp Hj]. split; [done|].
      intros _ ->. destruct (V3 _ _ Hj). congruence. }
    destruct (V3 p j Hjs) as (?&?&?&?). split_and!; try done. rewrite F10. destruct (iv_wait_status_dead st); [|done]. specialize (Hne eq_refl). set_solver.
  - rewrite F9, F5, Hw. destruct (iv_wait_status_dead st); [rewrite dom_delete_L; set_solver|done].
  - intros j. rewrite F6, F2. intros [->%elem_of_singleton|Hj]%elem_of_union; [done|by apply V5].
  - intros t thj. rewrite F3. intros Ht. destruct (V6 t thj Ht) as [L1 L2 L3 L4]. split; try (by rewrite F2); try done.
    rewrite F2. destruct (tt_pc thj) as [[j|j|j|j]|] eqn:Epc; try done; destruct L2 as [? ?]; split; try done; rewrite F10; destruct (iv_wait_status_dead st); try done.
    + intros [->%elem_of_singleton|?]%elem_of_union; [|done]. eapply (Hu t thj Ht). by left.
    + intros [->%elem_of_singleton|?]%elem_of_union; [|done]. eapply (Hu t thj Ht). by right; left.
Qed.
(** A child without interest that lives on is nobody's business. *)
Lemma stranger_Ok pid st s : wt_tree s !! pid = None -> iv_wait_status_dead st = false -> got_status pid st s = Ok (tt, s).
Proof. intros Ht Hd. unfold got_status. msimpl. by rewrite Ht, Hd. Qed.
Lemma sigchld_loop_spec : forall fuel s, wt_inv s -> (wait_bound (wt_w s) < fuel)%nat ->
  wp wtbreach (sigchld_loop fuel) s (fun _ s' => wt_inv s' /\ wt_threads s' = wt_threads s).
Proof.
  induction fuel as [|fuel IH]; intros s Hi Hf; [lia|]. cbn [sigchld_loop]. wprim. destruct (wait4 (wt_w s)) as [[[pid st]|] w] eqn:E.
  - apply law_wait4 in E as (Hc&Hch&Hb). do 2 wprim. wbind. apply requires_spec; [done|]. unfold has_interest. cbn [wt_tree set_wt_w]. intros Hhas.
    destruct (wt_tree s !! pid) as [i|] eqn:Htr; cycle 1.
    { rewrite bool_decide_false, orb_false_r in Hhas by (by apply not_elem_of_dom). apply negb_true_iff in Hhas. rewrite Hhas in Hch.
      wrun (stranger_Ok pid st (set_wt_w w s) Htr Hhas). apply (IH (set_wt_w w s)); [|cbn; lia]. apply w_inv; [exact Hi|by rewrite Hch]. }
    destruct (vi_tree _ Hi _ _ Htr) as (_&[t Hth]&_). destruct (vi_thread _ Hi _ _ Hth) as (th&q&_&Hq&_).
    wrun (got_status_Ok pid i q st w s Htr Hq). pose proof (collected_fields pid i q st w s) as (_&_&F3&_&F5&_).
    eapply wp_mono; [apply IH; [by apply collected_inv|rewrite F5; lia]|]. cbv beta. rewrite F3. done.
  - apply law_wait4_none in E. wprim. eapply wp_Ok; [reflexivity|]. split; [apply w_inv; [done|by rewrite E]|done].
Qed.
Lemma got_sigchld_spec me s : wt_inv s -> is_Some (wt_threads s !! me) ->
  wp wtbreach (got_sigchld_section me) s (fun _ s' => wt_inv s' /\ wt_threads s' = wt_threads s).
Proof.
  intros Hi [th Ht]. unfold got_sigchld_section. wrun (load_wt_Ok s me th Ht). destruct (tt_sigchld th); cbn [when]; [|by eapply wp_Ok; [reflexivity|]].
  wprim. apply sigchld_loop_spec; [done|lia].
Qed.
End spec.
