(* ===== verification/WaitProps.v ===== *)
(** * What holds in every run of any number of threads with child processes *)

From S2P Require Import Prelude Conc Wait WaitSpec.

Local Open Scope Z_scope.

Section props.
Context {W : Type} `{!WaitKernel W, HL : !WaitLaws W}.
Context (handler : loc -> list Z -> list wait_call).
Abbreviation St := (wait_state W).
Implicit Types (s : St) (t me i : loc) (th : wait_thread).
Abbreviation wtc := (wpc (wt_inv (W := W)) wt_aux wtbreach).
Abbreviation view := (option loc * list Z * ptr * option wait_pc)%type.

(** ** The programs, one thread at a time *)
Lemma act_wtc me {A B} (m : M St A) (k : A -> prog St B) (v : view) (R : A -> view -> Prop) Q :
  (forall s th, wt_inv s -> wt_threads s !! me = Some th -> wt_view th = v ->
    wp wtbreach m s (fun a s' => wt_inv s' /\ others s s' me /\ exists v', wt_aux s' me = Some v' /\ R a v')) ->
  (forall a v', R a v' -> wtc me (k a) (Some v') Q) -> wtc me (a ← act m; k a) (Some v) Q.
Proof.
  intros Hm Hk. apply wpc_bind, wpc_act. intros s Hi Ha. apply aux_thread in Ha as (th&Ht&Hv).
  eapply wp_mono; [by apply (Hm s th)|]. cbv beta. intros a s' (Hi'&Ho&v'&Hv'&HR). rewrite Hv'.
  split_and!; [done|intros t' Hne; by apply (others_aux s s' me)|by apply Hk].
Qed.
(** An action that changes no thread. *)
Lemma quiet_wtc me {A B} (m : M St A) (k : A -> prog St B) v Q :
  (forall s th, wt_inv s -> wt_threads s !! me = Some th -> wt_view th = v -> wp wtbreach m s (fun _ s' => wt_inv s' /\ wt_threads s' = wt_threads s)) ->
  (forall a, wtc me (k a) (Some v) Q) -> wtc me (a ← act m; k a) (Some v) Q.
Proof.
  intros Hm Hk. apply (act_wtc me m k v (fun _ v' => v' = v)); [|by intros a ? ->]. intros s th Hi Ht Hv.
  eapply wp_mono; [by eapply Hm|]. cbv beta. intros a s' [? E]. split_and!; [done|intros t _; by rewrite E|].
  exists v. split; [|done]. unfold wt_aux. by rewrite E, Ht, <-Hv.
Qed.
(** Calls leave the list of a completion alone; it may learn that its interest is gone. *)
Definition keeps (o : option loc) (ev : list Z) (h : ptr) (l : option view) : Prop :=
  exists h', l = Some (o, ev, h', None) /\ (h' = h \/ h' = None).
Lemma unregister_rest_wtc me i o ev h pc : pc = WtFailed i \/ pc = WtUnregister i ->
  wtc me (act (__iv_wait_interest_unregister me i)) (Some (o, ev, h, Some pc)) (fun _ l => keeps o ev h l).
Proof.
  intros Hpc. apply (act_wtc me _ Ret _ (fun _ v => exists h', v = (o, ev, h', None) /\ (h' = h \/ h' = None))).
  - intros s th Hi Ht [= <- <- <- Epc]. eapply wp_mono; [apply unregister_spec_wait; [done|done|]|].
    + destruct Hpc as [-> | ->]; [by left|by right].
    + cbv beta. intros _ s' (?&?&Ha). split_and!; [done|done|]. eexists. split; [exact Ha|]. eexists. split; [done|].
      destruct (decide _); [by right|by left].
  - intros a v (h'&->&?). by exists h'.
Qed.
Lemma call_wtc me c o ev h : wtc me (run_wait_call me c) (Some (o, ev, h, None)) (fun _ l => keeps o ev h l).
Proof.
  destruct c as [i| |i pid|i|i sig]; cbn [run_wait_call].
  - unfold iv_wait_interest_register_spawn. apply wpc_bind.
    apply (act_wtc me _ _ _ (fun _ v => v = (o, ev, h, Some (WtSpawn i)))).
    { intros s th Hi Ht [= <- <- <- Epc]. eapply wp_mono; [by apply register_spec_wait|]. cbv beta. intros _ s' (?&?&?). split_and!; [done|done|by eexists]. }
    intros _ ? ->. apply (act_wtc me _ _ _ (fun pid v => v = (o, ev, h, if pid <? 0 then Some (WtFailed i) else None))).
    { intros s th Hi Ht [= <- <- <- Epc]. eapply wp_mono; [by apply spawn_section_spec|]. cbv beta. intros pid s' (?&?&?). split_and!; [done|done|by eexists]. }
    intros pid ? ->. destruct (pid <? 0); [|exists h; auto]. apply wpc_bind.
    eapply wpc_mono; [apply unregister_rest_wtc; by left|]. cbv beta. intros _ l' Hl'. exact Hl'.
  - apply (quiet_wtc me _ Ret); [|exists h; auto]. intros s th Hi Ht _. eapply wp_Ok; [reflexivity|]. split; [|done].
    apply w_inv; [done|]. destruct (fork (wt_w s)) as [pid w] eqn:Ef. apply law_fork in Ef. cbn. destruct (pid <? 0); [by rewrite Ef|]. destruct Ef as [_ Ef]. set_solver.
  - apply quiet_wtc; [intros s th Hi _ _; by apply fill_in_spec|]. intros _. unfold iv_wait_interest_register.
    apply (act_wtc me _ _ _ (fun _ v => v = (o, ev, h, Some (WtSpawn i)))).
    { intros s th Hi Ht [= <- <- <- Epc]. eapply wp_mono; [by apply register_spec_wait|]. cbv beta. intros _ s' (?&?&?). split_and!; [done|done|by eexists]. }
    intros _ ? ->. apply (act_wtc me _ Ret _ (fun _ v => v = (o, ev, h, None))); [|intros ? ? ->; exists h; auto].
    intros s th Hi Ht [= <- <- <- Epc]. eapply wp_mono; [by apply insert_section_spec|]. cbv beta. intros _ s' (?&?&?). split_and!; [done|done|by eexists].
  - unfold iv_wait_interest_unregister. apply (act_wtc me _ _ _ (fun _ v => v = (o, ev, h, Some (WtUnregister i)))).
    { intros s th Hi Ht [= <- <- <- Epc]. eapply wp_mono; [by apply unregister_section_spec_wait|]. cbv beta. intros _ s' (?&?&?). split_and!; [done|done|by eexists]. }
    intros _ ? ->. apply unregister_rest_wtc. by right.
  - unfold iv_wait_interest_kill. apply (quiet_wtc me _ (fun _ => mret tt)); [|intros _; exists h; auto].
    intros s th Hi Ht [= Ein Eev Eh Epc]. wprim. wbind. apply requires_spec; [done|]. intros Hth%bool_decide_eq_true.
    eapply wp_mono; [apply kill_section_spec; [done|by eexists|]|by intros ret s' (?&?&_)].
    intros t thj Htj Hu. pose proof (vi_thr _ Hi _ _ Htj) as [_ L2 _ _].
    destruct Hu as [E|[E|E]]; rewrite E in L2; try apply proj1 in L2; (assert (t = me) as -> by congruence); congruence.
Qed.
Lemma calls_wtc me cs : forall o ev h, wtc me (run_wait_calls me cs) (Some (o, ev, h, None)) (fun _ l => keeps o ev h l).
Proof.
  induction cs as [|c cs IH]; intros o ev h; [exists h; auto|]. cbn [run_wait_calls]. apply wpc_bind.
  eapply wpc_mono; [apply call_wtc|]. intros _ l (h1&->&H1). eapply wpc_mono; [apply IH|]. intros _ l (h2&->&H2). exists h2. split; [done|].
  destruct H2 as [-> | ->]; auto.
Qed.
Lemma completion_wtc me i : forall fuel ev h, (length ev < fuel)%nat ->
  wtc me (completion_loop handler me i fuel) (Some (Some i, ev, h, None)) (fun _ l => l = Some (None, [], None, None)).
Proof.
  induction fuel as [|fuel IH]; intros ev h Hf; [lia|]. cbn [completion_loop].
  apply (act_wtc me _ _ _ (fun r v => match r with None => v = (None, [], None, None) | Some _ => exists st q, ev = st :: q /\ v = (Some i, q, h, None) end)).
  - intros s th Hi Ht [= Ein <- <- Epc]. eapply wp_mono; [by apply (next_status_spec handler me i s th)|]. cbv beta. intros [cs|] s' (?&?&Hr); split_and!; try done.
    + destruct Hr as (st&q&Hev&Ha). eexists. split; [exact Ha|]. by exists st, q.
    + destruct Hr as [_ Ha]. by eexists.
  - intros [cs|] v Hr; [|by subst v]. destruct Hr as (st&q&->&->). apply wpc_bind. eapply wpc_mono; [apply calls_wtc|].
    intros _ l (h'&->&_). apply IH. cbn in Hf. lia.
Qed.
Lemma event_wtc me i : wtc me (interest_event handler me i) (Some (None, [], None, None)) (fun _ l => l = Some (None, [], None, None)).
Proof.
  unfold interest_event. apply (act_wtc me _ _ _ (fun (b : bool) v => v = (None, [], None, if b then Some (WtTaken i) else None))).
  - intros s th Hi Ht [= Ein Eev Eh Epc]. eapply wp_mono; [by apply (take_event_spec me i s th)|]. cbv beta. rewrite Ein, Eev, Eh.
    intros b s' (?&?&?). split_and!; [done|done|by eexists].
  - intros [|] ? ->; [|done]. unfold iv_wait_completion.
    apply (act_wtc me _ _ _ (fun n v => exists q, n = length q /\ v = (Some i, q, Some i, None))).
    + intros s th Hi Ht [= Ein Eev Eh Epc]. eapply wp_mono; [by apply (steal_events_spec me i s th)|]. cbv beta. intros n s' (?&?&q&->&Ha).
      split_and!; [done|done|]. eexists. split; [exact Ha|]. by exists q.
    + intros n ? (q&->&->). apply completion_wtc. lia.
Qed.

(** ** Every interleaving *)
Inductive wait_start := WEventOf (i : loc) | WSigchld | WCalls (cs : list wait_call) | WChildren (n : nat).
Definition wait_begin t (b : wait_start) : option (prog St unit) := Some
  match b with
  | WEventOf i => interest_event handler t i
  | WSigchld => iv_wait_got_sigchld t
  | WCalls cs => run_wait_calls t cs
  | WChildren n => children_move n
  end.
Definition wait_may_start t (p : prog St unit) : Prop := exists b, wait_begin t b = Some p.
(** Threads that called [iv_init], in a process without children. *)
Definition wait_boot (ts : gset loc) (w : W) : config :=
  (mk_ws ∅ ∅ ∅ ∅ ∅ ∅ (gset_to_gmap (mk_wth 0 false None [] None None) ts) ∅ ∅ w, gset_to_gmap (Ret tt) ts).
Definition wait_reachable (c : config) : Prop := exists ts w, children w = ∅ /\ steps wait_may_start (wait_boot ts w) c.

Abbreviation idle := (Some (None, [], None, None) : option view).
Lemma wait_boot_ok ts w : children w = ∅ -> config_ok wt_inv wt_aux idle wtbreach (wait_boot ts w).
Proof.
  intros Hw. split; cbn.
  - split; cbn; try done.
    intros t th [Ht <-]%lookup_gset_to_gmap_Some. by split.
  - intros t p [Ht <-]%lookup_gset_to_gmap_Some. cbn. unfold wt_aux. cbn. by rewrite (proj2 (lookup_gset_to_gmap_Some _ _ _ _) (conj Ht eq_refl)).
Qed.
Lemma wait_start_ok t p : wait_may_start t p -> wtc t p idle (fun _ l => l = idle).
Proof.
  intros [[i| |cs|n] [= <-]].
  - apply event_wtc.
  - apply (quiet_wtc t _ Ret); [|done]. intros s th Hi Ht _. apply got_sigchld_spec; [done|by eexists].
  - eapply wpc_mono; [apply calls_wtc|]. intros _ l (h&->&[-> | ->]); done.
  - apply (quiet_wtc t _ Ret); [|done]. intros s th Hi Ht _. eapply wp_Ok; [reflexivity|]. split; [|done]. apply w_inv; [done|by rewrite law_happens].
Qed.
Lemma wait_reachable_ok c : wait_reachable c -> config_ok wt_inv wt_aux idle wtbreach c.
Proof. intros (ts&w&Hw&Hs). eapply steps_ok; [exact wait_start_ok|by apply wait_boot_ok|exact Hs]. Qed.

(** C7. The status changes that were collected for an interest's process reach its handler
    once each and in order, in the thread that registered it: what was queued is what
    the handler was called with, then what its thread has taken, then what waits; when
    all threads are at rest and no event is pending the handler saw it all.  The end
    of the process comes last: nothing is reported for a later user of its number. *)
Theorem iv_wait_in_order s pool i t : wait_reachable (s, pool) -> wt_thread s !! i = Some t ->
  exists th q, wt_threads s !! t = Some th /\ wt_pending s !! i = Some q /\
    rep s i = called s i ++ (if decide (tt_handled th = Some i) then tt_events th else []) ++ q /\
    (i ∈ wt_dead s -> ended (rep s i)) /\ (i ∉ wt_dead s -> Forall alive (rep s i)) /\
    (pool !! t = Some (Ret tt) -> i ∉ wt_posted s -> called s i = rep s i).
Proof.
  intros Hr Hth. destruct (wait_reachable_ok _ Hr) as [Hi Hp]. cbn in Hi, Hp. destruct (vi_thread _ Hi _ _ Hth) as (th&q&Ht&Hq&[A B C D]).
  exists th, q. split_and!; [done|done|done|intros Hd; by apply A|intros Hd; by apply B|]. intros Hret Hnp.
  pose proof (Hp t _ Hret) as Ha. cbn in Ha. unfold wt_aux in Ha. rewrite Ht in Ha. injection Ha as E1 E2 E3 E4. rewrite C, E3.
  destruct (decide (None = Some i)); [done|]. destruct q; [by rewrite app_nil_r|]. destruct (D ltac:(done)); [done|congruence].
Qed.

(** C8. [iv_wait_interest_kill] only ever signals the child of its interest: before its
    end was collected, when its number cannot have been given to another process;
    afterwards it returns -ESRCH and does nothing.  The child was forked with its interest,
    or the interest was registered for it later, while it was there and had no other
    ([may_insert]: the man page leaves this race to the client). *)
Theorem iv_wait_kill_own_child s pool i t th sig : wait_reachable (s, pool) -> wt_thread s !! i = Some t -> wt_threads s !! t = Some th -> tt_pc th = None ->
  wp wtbreach (kill_section i sig) s (fun ret s' =>
    (i ∈ wt_dead s /\ ret = - ESRCH /\ s' = s) \/
    exists pid, wt_pid s !! i = Some pid /\ wt_tree s !! pid = Some i /\ pid ∈ children (wt_w s) /\ (ret, wt_w s') = kill pid sig (wt_w s)).
Proof.
  intros Hr Hth Ht Hpc. pose proof (co_inv _ _ _ _ _ (wait_reachable_ok _ Hr)) as Hi. cbn in Hi.
  assert (forall t' th', wt_threads s !! t' = Some th' -> ~ off_tree th' i) as Hu.
  { intros t' th' Ht' Hu. pose proof (vi_thr _ Hi _ _ Ht') as [_ L2 _ _].
    destruct Hu as [E|[E|E]]; rewrite E in L2; try apply proj1 in L2; (assert (t' = t) as -> by congruence); congruence. }
  eapply wp_mono; [apply kill_section_spec; [done|by eexists|done]|]. cbv beta. by intros ret s' (_&_&?).
Qed.

Lemma on_tree s i t th : wt_inv s -> wt_thread s !! i = Some t -> wt_threads s !! t = Some th -> tt_pc th = None -> i ∉ wt_dead s ->
  exists pid, wt_pid s !! i = Some pid /\ wt_tree s !! pid = Some i /\ pid ∈ children (wt_w s).
Proof.
  intros Hi Hth Ht Hpc Hd. destruct (vi_thread _ Hi _ _ Hth) as (th0&q&Ht0&_&Hok). assert (th0 = th) as -> by congruence.
  destruct (io_alive _ _ _ _ Hok Hd) as [_ [?%(off_tree_None th)|(pid&Hp&Htr)]]; [done|done|]. exists pid. split_and!; [done|done|].
  apply (vi_children _ Hi), elem_of_dom. by eexists.
Qed.
(** An interest whose thread is in no call, and of whose child no end was collected, is found
    by the number of its child, so that no status change of the child is missed; a child has
    one interest at most; and a thread has its SIGCHLD interest exactly while it has
    interests in children. *)
Theorem iv_wait_children_tracked s pool : wait_reachable (s, pool) ->
  (forall i t th, wt_thread s !! i = Some t -> wt_threads s !! t = Some th -> tt_pc th = None -> i ∉ wt_dead s ->
    exists pid, wt_pid s !! i = Some pid /\ wt_tree s !! pid = Some i /\ pid ∈ children (wt_w s)) /\
  (forall pid i, wt_tree s !! pid = Some i -> wt_pid s !! i = Some pid /\ i ∉ wt_dead s /\ is_Some (wt_thread s !! i)) /\
  (forall t th, wt_threads s !! t = Some th -> (tt_sigchld th = true <-> exists i, wt_thread s !! i = Some t)).
Proof.
  intros Hr. pose proof (co_inv _ _ _ _ _ (wait_reachable_ok _ Hr)) as Hi. cbn in Hi. split_and!.
  - intros i t th. by apply on_tree.
  - intros pid i Hp. by destruct (vi_tree _ Hi _ _ Hp) as (?&?&?&_).
  - intros t th Ht. destruct (vi_thr _ Hi _ _ Ht) as [_ _ K3 K4]. rewrite K4, K3. split.
    + intros Hc%Z.ltb_lt. destruct (decide (filter (fun p : loc * loc => p.2 = t) (wt_thread s) = ∅)) as [E|E]; [rewrite E, map_size_empty in Hc; lia|].
      apply map_choose in E as (i&x&[Hx Hxt]%map_lookup_filter_Some). cbn in Hxt. subst x. by exists i.
    + intros [i Hth]. apply Z.ltb_lt. assert (size (filter (fun p : loc * loc => p.2 = t) (wt_thread s)) <> 0%nat); [|lia].
      intros E%map_size_empty_inv. assert (filter (fun p : loc * loc => p.2 = t) (wt_thread s) !! i = Some t) as Hf by (by apply map_lookup_filter_Some).
      by rewrite E, lookup_empty in Hf.
Qed.

Lemma unregister_rest_Ok me i s th : wt_threads s !! me = Some th -> exists s', __iv_wait_interest_unregister me i s = Ok (tt, s') /\
  wt_tree s' = wt_tree s /\ wt_thread s' = delete i (wt_thread s) /\ wt_w s' = wt_w s.
Proof.
  intros Ht. unfold __iv_wait_interest_unregister. do 2 erewrite bind_Ok by reflexivity.
  set (s1 := set_wt_pending _ _).
  assert (wt_threads s1 !! me = Some th) as H1 by exact Ht. erewrite bind_Ok by exact (load_wt_Ok s1 me th H1).
  set (th2 := if decide (tt_handled th = Some i) then set_tt_handled None th else th).
  assert (when (bool_decide (tt_handled th = Some i)) (upd_wt me (set_tt_handled None)) s1 = Ok (tt, put_wt me th2 s1)) as E.
  { unfold th2. case_bool_decide; cbn [when]; [rewrite decide_True by done; by apply upd_wt_Ok|].
    rewrite decide_False by done. unfold put_wt. by rewrite insert_id. }
  erewrite bind_Ok by exact E. erewrite bind_Ok by (apply upd_wt_Ok, lookup_insert_eq).
  eexists. split; [apply upd_wt_Ok, lookup_insert_eq|done].
Qed.
(** An interest may be unregistered while its child is there: it leaves the tree, and its
    child, still there, has no interest. *)
Theorem iv_wait_unregister_early s pool i t th : wait_reachable (s, pool) ->
  wt_thread s !! i = Some t -> wt_threads s !! t = Some th -> tt_pc th = None -> i ∉ wt_dead s ->
  exists pid s', pid ∈ children (wt_w s) /\ wt_tree s !! pid = Some i /\ exec (iv_wait_interest_unregister t i) s = Ok (tt, s') /\
    wt_tree s' = delete pid (wt_tree s) /\ wt_thread s' = delete i (wt_thread s) /\ wt_w s' = wt_w s.
Proof.
  intros Hr Hth Ht Hpc Hd. pose proof (co_inv _ _ _ _ _ (wait_reachable_ok _ Hr)) as Hi.
  destruct (on_tree s i t th Hi Hth Ht Hpc Hd) as (pid&Hp&Htr&Hc).
  set (th1 := set_tt_pc (Some (WtUnregister i)) th). set (s1 := put_wt t th1 (set_wt_tree (delete pid (wt_tree s)) s)).
  assert (unregister_section t i s = Ok (tt, s1)) as E1.
  { unfold unregister_section. msimpl. rewrite bool_decide_true by done. msimpl. rewrite bool_decide_false by done. msimpl.
    rewrite Hp. msimpl. rewrite Htr. msimpl. rewrite bool_decide_true by done. msimpl. exact (upd_wt_Ok (set_wt_tree _ s) t th _ Ht). }
  destruct (unregister_rest_Ok t i s1 th1) as (s'&E2&?&?&?); [apply lookup_insert_eq|]. exists pid, s'. split_and!; try done.
  unfold iv_wait_interest_unregister. rewrite (exec_bind _ _ s tt s1); [|exact (bind_Ok _ _ _ _ _ E1)]. exact (bind_Ok _ _ _ _ _ E2).
Qed.

End props.

(** A child that dies without having an interest makes the library follow a NULL
    pointer. *)
Theorem iv_wait_unknown_child {W} `{!WaitKernel W} pid status (s : wait_state W) :
  wt_tree s !! pid = None -> iv_wait_status_dead status = true -> got_status pid status s = Undef.
Proof. intros Ht Hd. unfold got_status. msimpl. by rewrite Ht, Hd. Qed.

(** ** A kernel

    Processes are numbered as they are forked; what happens to them is a queue of
    processes and statuses, of which those from 100 on do not end a process. *)
Record wsim := mk_wsim { ws_next : Z; ws_children : gset Z; ws_queue : list (Z * Z) }.
Fixpoint first_of (c : gset Z) (q : list (Z * Z)) : option (Z * Z * list (Z * Z)) :=
  match q with
  | [] => None
  | (p, st) :: q => if bool_decide (p ∈ c) then Some (p, st, q) else first_of c q
  end.
#[local] Instance wsim_kernel : WaitKernel wsim := {
  children := ws_children;
  wait4 w := match first_of (ws_children w) (ws_queue w) with
    | Some (p, st, q) => (Some (p, st), mk_wsim (ws_next w) (if st <? 100 then ws_children w ∖ {[p]} else ws_children w) q)
    | None => (None, w)
    end;
  fork w := if bool_decide (ws_next w ∈ ws_children w) || (ws_next w <? 0) then (-1, w)
    else (ws_next w, mk_wsim (ws_next w + 1) ({[ws_next w]} ∪ ws_children w) (ws_queue w));
  kill pid sig w := (0, mk_wsim (ws_next w) (ws_children w) (ws_queue w ++ [(pid, sig)]));
  wif_signaled st := false;
  wif_continued st := false;
  wif_exited st := st <? 100;
  wait_bound w := length (ws_queue w);
  happens n w := mk_wsim (ws_next w) (ws_children w) (ws_queue w ++ [(Z.of_nat (n `div` 1000), Z.of_nat (n `mod` 1000))]) }.
Lemma first_of_spec c q p st q' : first_of c q = Some (p, st, q') -> p ∈ c /\ (length q' < length q)%nat.
Proof.
  induction q as [|[p0 st0] q IH]; cbn; [done|]. case_bool_decide; [intros [= <- <- <-]; split; [done|lia]|]. intros H1. destruct (IH H1). split; [done|lia].
Qed.
#[local] Instance wsim_laws : WaitLaws wsim.
Proof.
  split.
  - intros w pid st w'. cbn. destruct (first_of (ws_children w) (ws_queue w)) as [[[p st0] q]|] eqn:E; [|done]. apply first_of_spec in E as [? ?].
    intros [= <- <- <-]. split_and!; [done|done|done].
  - intros w w'. cbn. destruct (first_of (ws_children w) (ws_queue w)) as [[[p st0] q]|]; [done|]. by intros [= <-].
  - intros w pid w'. cbn. case_bool_decide; cbn [orb]; [by intros [= <- <-]|]. destruct (Z.ltb_spec (ws_next w) 0); [by intros [= <- <-]|].
    intros [= <- <-]. by rewrite (proj2 (Z.ltb_ge _ _)).
  - done.
  - done.
Defined.
(** A handler that unregisters its interest once the process ended. *)
Definition until_dead (i : loc) (l : list Z) : list wait_call :=
  match list.last l with Some st => if st <? 100 then [WtUnregCall i] else [] | None => [] end.
(** Thread 1 forks process 100 for interest 5; it stops (150) and exits (7), SIGCHLD comes,
    and the first status was taken and handled. *)
Definition wait_first : list (choice wait_start) :=
  [Begin 1 (WCalls [WtSpawnCall 5]); Go 1; Go 1; Begin 2 (WChildren (100 * 1000 + 150)); Go 2; Begin 2 (WChildren (100 * 1000 + 7)); Go 2;
   Begin 1 WSigchld; Go 1; Begin 1 (WEventOf 5); Go 1; Go 1; Go 1]%positive.
Definition wait_more : list (choice wait_start) := [Go 1; Go 1; Go 1; Go 1]%positive.
Definition demo_wait h cs := sched_from (wait_begin h) cs (wait_boot {[1; 2]}%positive (mk_wsim 100 ∅ [])).
Lemma demo_wait_reachable h cs : wait_reachable h ((demo_wait h cs).1, (demo_wait h cs).2).
Proof. rewrite <-surjective_pairing. exists {[1; 2]}%positive, (mk_wsim 100 ∅ []). split; [done|]. apply sched_steps. Qed.

Lemma iv_wait_in_order_witness : let s := (demo_wait until_dead wait_first).1 in
  rep s 5 = [150; 7] /\ called s 5 = [150] /\ ended (rep s 5).
Proof.
  split; [by vm_compute|]. split; [by vm_compute|].
  destruct (iv_wait_in_order until_dead (demo_wait until_dead wait_first).1 (demo_wait until_dead wait_first).2 5 1
    (demo_wait_reachable until_dead wait_first)) as (th&q&_&_&_&H&_); [by vm_compute|].
  apply H, (bool_decide_unpack _). by vm_compute.
Defined.
(** Thread 1 forks process 100 for interest 5 and 101 on its own, for which it registers
    interest 6; it unregisters interest 5; 100 stops (150), which is nobody's business;
    a kill goes to 101. *)
Definition wait_early : list (choice wait_start) :=
  [Begin 1 (WCalls [WtSpawnCall 5; WtForkCall; WtRegisterCall 6 101; WtUnregCall 5]); Go 1; Go 1; Go 1; Go 1; Go 1; Go 1; Go 1; Go 1;
   Begin 2 (WChildren (100 * 1000 + 150)); Go 2; Begin 1 WSigchld; Go 1]%positive.
Example wait_early_run : let s := (demo_wait until_dead wait_early).1 in
  (wt_tree s, wt_thread s, ws_children (wt_w s), ws_queue (wt_w s)) = ({[101 := 6%positive]}, {[6%positive := 1%positive]}, {[100; 101]}, []).
Proof. vm_compute. reflexivity. Qed.
Lemma iv_wait_kill_own_child_witness : let s := (demo_wait until_dead wait_early).1 in
  wp wtbreach (kill_section 6 15) s (fun ret s' => (ret, wt_w s') = kill 101 15 (wt_w s)).
Proof.
  eapply wp_mono; [eapply (iv_wait_kill_own_child until_dead (demo_wait until_dead wait_early).1 (demo_wait until_dead wait_early).2 6 1
    (mk_wth 1 true None [] None None) 15 (demo_wait_reachable until_dead wait_early)); by vm_compute|].
  cbv beta. intros ret s' [(Hd&_&_)|(pid&Hp&_&_&E)]; [exfalso; revert Hd; apply (bool_decide_unpack (6%positive ∉ _)); by vm_compute|].
  assert (Some pid = Some 101) as [= ->]; [|exact E]. rewrite <-Hp. by vm_compute.
Defined.
Lemma iv_wait_children_tracked_witness : let s := (demo_wait until_dead (take 3 wait_first)).1 in
  exists pid, wt_pid s !! 5%positive = Some pid /\ wt_tree s !! pid = Some 5%positive /\ pid ∈ ws_children (wt_w s).
Proof.
  apply (proj1 (iv_wait_children_tracked until_dead _ _ (demo_wait_reachable until_dead (take 3 wait_first))) 5%positive 1%positive (mk_wth 1 true None [] None None));
    [by vm_compute..|]. apply (bool_decide_unpack (5%positive ∉ _)). by vm_compute.
Defined.
Lemma iv_wait_unregister_early_witness : let s := (demo_wait until_dead (take 3 wait_first)).1 in
  exists pid s', pid ∈ ws_children (wt_w s) /\ exec (iv_wait_interest_unregister 1 5) s = Ok (tt, s') /\ wt_tree s' = delete pid (wt_tree s).
Proof.
  destruct (iv_wait_unregister_early until_dead _ _ 5 1 (mk_wth 1 true None [] None None) (demo_wait_reachable until_dead (take 3 wait_first)))
    as (pid&s'&?&_&?&?&_); [by vm_compute..|apply (bool_decide_unpack (5%positive ∉ _)); by vm_compute|]. by exists pid, s'.
Defined.
Lemma iv_wait_unknown_child_witness : got_status 200 7 (demo_wait until_dead wait_first).1 = Undef.
Proof. apply iv_wait_unknown_child; by vm_compute. Defined.
