(* ===== verification/Inotify.v ===== *)
(** * inotify (iv_inotify.c)

    An instance owns an inotify descriptor and its watches by watch descriptor.  Events
    come packed in a buffer; their handlers may register and unregister watches, and
    unregister (and free) the instance itself, which [term] tells the loop about. *)

From Stdlib Require Import String.
From S2P Require Import Prelude Sys.

Local Open Scope Z_scope.

Definition IN_IGNORED : Z := 0x8000.
Definition IN_ONESHOT : Z := 0x80000000.

(** ** [struct inotify_event]: [wd], [mask], [cookie] and [len], 32 bits each, least
    significant byte first, then [len] bytes of the name.  A byte is a [Z]. *)
Record inotify_event := mk_iev { ev_wd : Z; ev_mask : Z; ev_cookie : Z; ev_name : list Z }.
Definition sizeof_event : nat := 16.
Definition load32 (q : list Z) : option Z :=
  match q with b0 :: b1 :: b2 :: b3 :: _ => Some (b0 + 2^8 * b1 + 2^16 * b2 + 2^24 * b3) | _ => None end.
Definition signed32 (z : Z) : Z := if z <? 2^31 then z else z - 2^32.
(** The event at the start of [q], and its [len]. *)
Definition load_event (q : list Z) : option (inotify_event * nat) :=
  wd ← load32 q; mask ← load32 (drop 4 q); cookie ← load32 (drop 8 q); len ← load32 (drop 12 q);
  Some (mk_iev (signed32 wd) mask cookie (take (Z.to_nat len) (drop sizeof_event q)), Z.to_nat len).

(** ** State *)
(** [term]: whatever was in the memory, NULL, or the address of the local variable
    [this] of the [n]th run of [iv_inotify_got_event]. *)
Inductive term_ptr := TermUninit | TermNull | TermLocal (n : nat).
(** [watches] is the AVL tree as the map that AvlSearch.v shows it to be. *)
Record iv_inotify := mk_in { in_fd : Z; in_watches : gmap Z loc; in_term : term_ptr }.
Definition set_in_fd (v : Z) (o : iv_inotify) : iv_inotify := mk_in v (in_watches o) (in_term o).
Definition set_in_watches (v : gmap Z loc) (o : iv_inotify) : iv_inotify := mk_in (in_fd o) v (in_term o).
Definition set_in_term (v : term_ptr) (o : iv_inotify) : iv_inotify := mk_in (in_fd o) (in_watches o) v.
Record iv_inotify_watch := mk_iw { iw_inotify : loc; iw_pathname : string; iw_mask : Z; iw_wd : Z }.
Definition set_iw_wd (v : Z) (o : iv_inotify_watch) : iv_inotify_watch :=
  mk_iw (iw_inotify o) (iw_pathname o) (iw_mask o) v.

(** The calls into the kernel, [iv_fd_register] and [iv_fd_unregister] of [fd], and how
    many signals can still interrupt a read. *)
Class InotifyKernel (W : Type) := {
  ik_init : W -> sysres Z * W;
  ik_add_watch : Z -> string -> Z -> W -> sysres Z * W;
  ik_rm_watch : Z -> Z -> W -> W;
  ik_read : Z -> W -> sysres (list Z) * W;
  ik_close : Z -> W -> W;
  ik_fd_register : Z -> W -> W;
  ik_fd_unregister : Z -> W -> W;
  ik_signals : W -> nat }.

(** The memory of instances and watches; of the run of [iv_inotify_got_event] that is
    under way its number and its variable [this]; how many runs there were; the handlers
    called; and, for the client's contract, the registered instances. *)
Record inotify_state (W : Type) := mk_is {
  is_objs : gmap loc iv_inotify; is_watches : gmap loc iv_inotify_watch; is_local : option (nat * ptr);
  is_runs : nat; is_ran : list (loc * inotify_event); is_reg : gset loc; is_w : W }.
Arguments mk_is {_}.
Arguments is_objs {_} _.
Arguments is_watches {_} _.
Arguments is_local {_} _.
Arguments is_runs {_} _.
Arguments is_ran {_} _.
Arguments is_reg {_} _.
Arguments is_w {_} _.

(** The client's calls: allocating an instance (zeroed or not) and a watch, freeing. *)
Inductive inotify_call :=
  | INew (this : loc) (zeroed : bool) | IFree (this : loc)
  | IWatchNew (w this : loc) (pathname : string) (mask : Z) | IWatchFree (w : loc)
  | IRegister (this : loc) | IUnregister (this : loc)
  | IWatchRegister (w : loc) | IWatchUnregister (w : loc).

Section inotify.
Context {W : Type} `{!InotifyKernel W}.
Abbreviation St := (inotify_state W).
(** What the handler of a watch does, given the handlers called before it. *)
Context (handler : list (loc * inotify_event) -> list inotify_call).
(** The client's contract. *)
Context (legal : inotify_call -> St -> bool).

Definition set_is_objs (v : gmap loc iv_inotify) (s : St) : St := mk_is v (is_watches s) (is_local s) (is_runs s) (is_ran s) (is_reg s) (is_w s).
Definition set_is_watches (v : gmap loc iv_inotify_watch) (s : St) : St := mk_is (is_objs s) v (is_local s) (is_runs s) (is_ran s) (is_reg s) (is_w s).
Definition set_is_local (v : option (nat * ptr)) (s : St) : St := mk_is (is_objs s) (is_watches s) v (is_runs s) (is_ran s) (is_reg s) (is_w s).
Definition set_is_runs (v : nat) (s : St) : St := mk_is (is_objs s) (is_watches s) (is_local s) v (is_ran s) (is_reg s) (is_w s).
Definition set_is_ran (v : list (loc * inotify_event)) (s : St) : St := mk_is (is_objs s) (is_watches s) (is_local s) (is_runs s) v (is_reg s) (is_w s).
Definition set_is_reg (v : gset loc) (s : St) : St := mk_is (is_objs s) (is_watches s) (is_local s) (is_runs s) (is_ran s) v (is_w s).
Definition set_is_w (v : W) (s : St) : St := mk_is (is_objs s) (is_watches s) (is_local s) (is_runs s) (is_ran s) (is_reg s) v.

Definition kernel {A} (call : W -> A * W) : M St A := fun s => let '(a, w) := call (is_w s) in Ok (a, set_is_w w s).
Definition kernel_ (call : W -> W) : M St unit := modify (fun s => set_is_w (call (is_w s)) s).
Definition load_inotify (this : loc) : M St iv_inotify := m ← gets is_objs; deref (m !! this).
Definition upd_inotify (this : loc) (g : iv_inotify -> iv_inotify) : M St unit :=
  o ← load_inotify this; modify (fun s => set_is_objs (<[this := g o]> (is_objs s)) s).
Definition load_watch (w : loc) : M St iv_inotify_watch := m ← gets is_watches; deref (m !! w).
Definition upd_watch (w : loc) (g : iv_inotify_watch -> iv_inotify_watch) : M St unit :=
  o ← load_watch w; modify (fun s => set_is_watches (<[w := g o]> (is_watches s)) s).

(** [iv_avl_tree_insert] and [iv_avl_tree_delete] on [watches]; deleting what is not in
    the tree is undefined. *)
Definition watches_insert (this w : loc) : M St Z :=
  o ← load_inotify this; x ← load_watch w;
  match in_watches o !! iw_wd x with
  | Some _ => mret (-1)
  | None => upd_inotify this (set_in_watches (<[iw_wd x := w]> (in_watches o)));; mret 0
  end.
Definition watches_delete (this w : loc) : M St unit :=
  o ← load_inotify this; x ← load_watch w;
  if bool_decide (in_watches o !! iw_wd x = Some w)
  then upd_inotify this (set_in_watches (delete (iw_wd x) (in_watches o))) else undef.

(** ** The operations *)
Definition __find_watch (this : loc) (wd : Z) : M St ptr := o ← load_inotify this; mret (in_watches o !! wd).

Definition iv_inotify_register (this : loc) : M St Z :=
  fd ← kernel ik_init;
  match fd with
  | inr _ => mret (-1)
  | inl fd =>
      upd_inotify this (set_in_fd fd);;
      kernel_ (ik_fd_register fd);;
      upd_inotify this (set_in_watches ∅);;
      mret 0
  end.

(** [*this->term = NULL]: the variable must still exist. *)
Definition clear_local (n : nat) : M St unit :=
  l ← gets is_local;
  match l with
  | Some (k, _) => if (k =? n)%nat then modify (set_is_local (Some (k, None))) else undef
  | None => undef
  end.
Definition iv_inotify_unregister (this : loc) : M St unit :=
  o ← load_inotify this;
  kernel_ (ik_fd_unregister (in_fd o));;
  kernel_ (ik_close (in_fd o));;
  match in_term o with
  | TermUninit => undef
  | TermNull => mret tt
  | TermLocal n => clear_local n
  end.

Definition iv_inotify_watch_register (w : loc) : M St Z :=
  x ← load_watch w;
  o ← load_inotify (iw_inotify x);
  wd ← kernel (ik_add_watch (in_fd o) (iw_pathname x) (iw_mask x));
  match wd with
  | inr _ => upd_watch w (set_iw_wd (-1));; mret (-1)
  | inl wd => upd_watch w (set_iw_wd wd);; watches_insert (iw_inotify x) w
  end.

Definition iv_inotify_watch_unregister (w : loc) : M St unit :=
  x ← load_watch w;
  o ← load_inotify (iw_inotify x);
  kernel_ (ik_rm_watch (in_fd o) (iw_wd x));;
  watches_delete (iw_inotify x) w.

(** A call; memory is only freed, or handed out anew, when it is not in use. *)
Definition run_inotify_call (c : inotify_call) : M St unit :=
  ok ← gets (legal c);
  if negb ok then iv_fatal "outside of the interface"
  else match c with
  | INew this zeroed => modify (fun s => set_is_objs (<[this := mk_in 0 ∅ (if zeroed then TermNull else TermUninit)]> (is_objs s)) s)
  | IFree this => modify (fun s => set_is_objs (delete this (is_objs s)) s)
  | IWatchNew w this pathname mask => modify (fun s => set_is_watches (<[w := mk_iw this pathname mask 0]> (is_watches s)) s)
  | IWatchFree w => modify (fun s => set_is_watches (delete w (is_watches s)) s)
  | IRegister this => ret ← iv_inotify_register this; when (ret =? 0) (modify (fun s => set_is_reg ({[this]} ∪ is_reg s) s))
  | IUnregister this => iv_inotify_unregister this;; modify (fun s => set_is_reg (is_reg s ∖ {[this]}) s)
  | IWatchRegister w => iv_inotify_watch_register w;; mret tt
  | IWatchUnregister w => iv_inotify_watch_unregister w
  end.
Fixpoint run_inotify_calls (cs : list inotify_call) : M St unit :=
  match cs with [] => mret tt | c :: cs => run_inotify_call c;; run_inotify_calls cs end.

(** [w->handler(w->cookie, event)] *)
Definition call_handler (w : loc) (event : inotify_event) : M St unit :=
  ran ← gets is_ran;
  modify (set_is_ran (ran ++ [(w, event)]));;
  run_inotify_calls (handler ran).

(** The variable [this]; what the loop does for an event. *)
Definition local_this : M St ptr := l ← gets is_local; l ← deref l; mret l.2.
Definition dispatch_event (event : inotify_event) : M St unit :=
  this ← local_this; this ← deref this;
  w ← __find_watch this (ev_wd event);
  match w with
  | None => mret tt
  | Some w =>
      x ← load_watch w;
      when (has (ev_mask event) IN_IGNORED || has (iw_mask x) IN_ONESHOT) (watches_delete this w);;
      call_handler w event
  end.
(** [while (curr < end)]; [queue] is what is left of the buffer. *)
Fixpoint event_loop (fuel : nat) (queue : list Z) : M St unit :=
  match fuel with
  | O => out_of_fuel
  | Datatypes.S fuel =>
      match queue with
      | [] => mret tt
      | _ =>
          event ← deref (load_event queue);
          let '(event, len) := event : inotify_event * nat in
          dispatch_event event;;
          this ← local_this;
          match this with
          | None => mret tt
          | Some _ => event_loop fuel (drop (len + sizeof_event) queue)
          end
      end
  end.

Definition iv_inotify_got_event (this : loc) : M St unit :=
  o ← load_inotify this;
  signals ← gets (fun s => ik_signals (is_w s));
  ret ← retry (Datatypes.S signals) (kernel (ik_read (in_fd o)));
  match ret with
  | inl [] => iv_fatal "iv_inotify: reading from inotify fd returned zero"
  | inr EAGAIN => mret tt
  | inr _ => iv_fatal "iv_inotify: reading from inotify fd returned error"
  | inl event_queue =>
      n ← gets is_runs;
      modify (set_is_runs (Datatypes.S n));;
      modify (set_is_local (Some (n, Some this)));;
      upd_inotify this (set_in_term (TermLocal n));;
      event_loop (Datatypes.S (length event_queue)) event_queue;;
      this ← local_this;
      match this with
      | Some this => upd_inotify this (set_in_term TermNull)
      | None => mret tt
      end;;
      modify (set_is_local None)
  end.
End inotify.
