(* ===== verification/InotifyProps.v ===== *)
(** * What iv_inotify.c guarantees

    The walk over the buffer visits the events the kernel wrote; the client's contract
    keeps every access inside live memory; and what [term] is at first. *)

From Stdlib Require Import String.
From S2P Require Import Prelude Sys Inotify.

Local Open Scope Z_scope.

(** ** The buffer *)
Definition le32 (z : Z) : list Z := [z mod 2^8; (z / 2^8) mod 2^8; (z / 2^16) mod 2^8; (z / 2^24) mod 2^8].
Definition encode (e : inotify_event) : list Z :=
  le32 (ev_wd e) ++ le32 (ev_mask e) ++ le32 (ev_cookie e) ++ le32 (Z.of_nat (length (ev_name e))) ++ ev_name e.
Definition event_ok (e : inotify_event) : Prop :=
  -2^31 <= ev_wd e < 2^31 /\ 0 <= ev_mask e < 2^32 /\ 0 <= ev_cookie e < 2^32 /\ Z.of_nat (length (ev_name e)) < 2^32.

Lemma load_le32 z r : load32 (le32 z ++ r) = Some (z mod 2^32).
Proof. cbn. f_equal. change (z mod 2^32) with (z mod 4294967296). Z.to_euclidean_division_equations. lia. Qed.
Lemma signed_mod z : -2^31 <= z < 2^31 -> signed32 (z mod 2^32) = z.
Proof.
  change (2^31) with 2147483648. unfold signed32. change (2^31) with 2147483648. change (2^32) with 4294967296.
  intros Hz. destruct (Z.ltb_spec (z mod 4294967296) 2147483648); Z.to_euclidean_division_equations; lia.
Qed.
Lemma length_le32 z : length (le32 z) = 4%nat.
Proof. done. Qed.

(** Loading what was stored. *)
Lemma load_encode e r : event_ok e -> load_event (encode e ++ r) = Some (e, length (ev_name e)).
Proof.
  intros (H1&H2&H3&H4). unfold load_event, encode. rewrite <-!app_assoc.
  assert (forall z q, drop 4 (le32 z ++ q) = q) as D4 by done.
  assert (forall (q : list Z) n m, drop (n + m) q = drop n (drop m q)) as Dadd by (intros; by rewrite drop_drop, Nat.add_comm).
  rewrite load_le32. cbn [mbind option_bind]. rewrite D4, load_le32. cbn [mbind option_bind].
  rewrite (Dadd _ 4 4)%nat, !D4, load_le32. cbn [mbind option_bind].
  rewrite (Dadd _ 4 8)%nat, (Dadd _ 4 4)%nat, !D4, load_le32. cbn [mbind option_bind].
  change sizeof_event with (4 + (4 + (4 + 4)))%nat. rewrite !Dadd, !D4.
  rewrite signed_mod, !Z.mod_small, Nat2Z.id, take_app_length by lia. by destruct e.
Qed.
Lemma drop_encode e r : drop (length (ev_name e) + sizeof_event) (encode e ++ r) = r.
Proof.
  unfold encode. rewrite <-!app_assoc. rewrite Nat.add_comm. change sizeof_event with (4 + (4 + (4 + 4)))%nat.
  assert (forall z q, drop 4 (le32 z ++ q) = q) as D4 by done.
  rewrite <-!Nat.add_assoc. do 4 (rewrite <-drop_drop, D4). by rewrite drop_app_length.
Qed.
Lemma encode_length e : (sizeof_event <= length (encode e))%nat.
Proof. unfold encode. rewrite !length_app, !length_le32. unfold sizeof_event. lia. Qed.

(** What inotify(7) says of reads: whole events, and an interrupted read leaves fewer
    signals to come. *)
Class InotifyLaws (W : Type) `{!InotifyKernel W} : Prop := {
  il_read : forall fd w q w', ik_read fd w = (inl q, w') -> exists evs, Forall event_ok evs /\ q = evs ≫= encode;
  il_signals : forall fd w w', ik_read fd w = (inr EINTR, w') -> (ik_signals w' < ik_signals w)%nat }.

Section props.
Context {W : Type} `{!InotifyKernel W}.
Abbreviation St := (inotify_state W).
Context (handler : list (loc * inotify_event) -> list inotify_call).
Implicit Types (s : St) (o : iv_inotify) (this w : loc).

(** ** The client's contract *)
Definition in_use (w : loc) (s : St) : bool :=
  existsb (fun this => match is_objs s !! this with
    | Some o => existsb (fun p : Z * loc => bool_decide (p.2 = w)) (map_to_list (in_watches o)) | None => false end) (elements (is_reg s)).
(** Memory in use stays; an instance is zeroed before it is registered; operations are on
    registered instances and on watches that are registered, or are not. *)
Definition legal (c : inotify_call) (s : St) : bool :=
  match c with
  | INew this _ | IFree this => bool_decide (this ∉ is_reg s)
  | IWatchNew w _ _ _ | IWatchFree w => negb (in_use w s)
  | IRegister this => bool_decide (this ∉ is_reg s) &&
      match is_objs s !! this with Some o => match in_term o with TermNull => true | _ => false end | None => false end
  | IUnregister this => bool_decide (this ∈ is_reg s)
  | IWatchRegister w => negb (in_use w s) &&
      match is_watches s !! w with Some x => bool_decide (iw_inotify x ∈ is_reg s) | None => false end
  | IWatchUnregister w =>
      match is_watches s !! w with
      | Some x => bool_decide (iw_inotify x ∈ is_reg s) &&
          match is_objs s !! iw_inotify x with Some o => bool_decide (in_watches o !! iw_wd x = Some w) | None => false end
      | None => false
      end
  end.

(** The loop as it is meant: over the events. *)
Fixpoint dispatch_all (evs : list inotify_event) : M St unit :=
  match evs with
  | [] => mret tt
  | e :: evs =>
      dispatch_event handler legal e;;
      this ← local_this;
      match this with None => mret tt | Some _ => dispatch_all evs end
  end.
Lemma event_loop_all evs : Forall event_ok evs -> forall fuel s, (length (evs ≫= encode) < fuel)%nat ->
  event_loop handler legal fuel (evs ≫= encode) s = dispatch_all evs s.
Proof.
  induction 1 as [|e evs He _ IH]; intros [|fuel] s Hf; [lia|done|lia|]. cbn [mbind list_bind] in Hf |- *. rewrite length_app in Hf.
  pose proof (encode_length e) as Hl. unfold sizeof_event in Hl. cbn [event_loop dispatch_all].
  destruct (encode e ++ mbind encode evs) as [|b r] eqn:E; [destruct (encode e); [cbn in Hl; lia|done]|]. rewrite <-E.
  rewrite (load_encode e _ He). mrun (deref_Some (e, length (ev_name e)) s).
  apply bind_ext. intros [] s1. apply bind_ext. intros [this|] s2; [|done]. rewrite drop_encode. apply IH. lia.
Qed.

(** ** The invariant *)
Abbreviation objs_t := (gmap loc iv_inotify).
Abbreviation watches_t := (gmap loc iv_inotify_watch).
Record obj_ok (watches : watches_t) (local : option (nat * ptr)) (this : loc) (o : iv_inotify) : Prop := {
  ob_watches : forall n w, in_watches o !! n = Some w -> exists x, watches !! w = Some x /\ iw_wd x = n /\ iw_inotify x = this;
  ob_term : match in_term o with
    | TermUninit => False
    | TermNull => forall n, local <> Some (n, Some this)
    | TermLocal n => local = Some (n, Some this)
    end }.
Record ok_at (objs : objs_t) (watches : watches_t) (local : option (nat * ptr)) (reg : gset loc) : Prop := {
  io_live : forall this, this ∈ reg -> exists o, objs !! this = Some o /\ obj_ok watches local this o;
  io_local : forall n this, local = Some (n, Some this) -> this ∈ reg }.
Definition inotify_ok (s : St) : Prop := ok_at (is_objs s) (is_watches s) (is_local s) (is_reg s).

(** Calls may end the run of [iv_inotify_got_event] that is under way. *)
Definition local_kept (s s' : St) : Prop := is_runs s' = is_runs s /\ is_ran s' = is_ran s /\
  match is_local s with
  | None => is_local s' = None
  | Some (n, p) => is_local s' = Some (n, p) \/ is_local s' = Some (n, None)
  end.
Lemma local_refl s s' : is_runs s' = is_runs s -> is_ran s' = is_ran s -> is_local s' = is_local s -> local_kept s s'.
Proof. intros H1 H2 H3. split; [done|]. split; [done|]. rewrite H3. destruct (is_local s) as [[]|]; auto. Qed.
Lemma local_trans s1 s2 s3 : local_kept s1 s2 -> local_kept s2 s3 -> local_kept s1 s3.
Proof.
  intros (E1&R1&H1) (E2&R2&H2). split; [congruence|]. split; [congruence|]. destruct (is_local s1) as [[n p]|].
  - destruct H1 as [H1|H1]; rewrite H1 in H2; naive_solver.
  - by rewrite H1 in H2.
Qed.

Lemma in_use_spec w s : in_use w s = true <->
  exists this o n, this ∈ is_reg s /\ is_objs s !! this = Some o /\ in_watches o !! n = Some w.
Proof.
  unfold in_use. rewrite existsb_exists. split.
  - intros (this&Hin%list_elem_of_In%elem_of_elements&H). destruct (is_objs s !! this) as [o|] eqn:E; [|done].
    apply existsb_exists in H as ([n w']&Hp%list_elem_of_In%elem_of_map_to_list&Hw%bool_decide_eq_true). cbn in Hw. subst w'.
    by exists this, o, n.
  - intros (this&o&n&Hin&E&Hw). exists this. split; [by apply list_elem_of_In, elem_of_elements|]. rewrite E.
    apply existsb_exists. exists (n, w). split; [by apply list_elem_of_In, elem_of_map_to_list|]. by apply bool_decide_eq_true.
Qed.
Lemma not_in_use w s this o n : in_use w s = false -> this ∈ is_reg s -> is_objs s !! this = Some o -> in_watches o !! n <> Some w.
Proof. intros H Hr Ho Hw. assert (in_use w s = true) as E by (apply in_use_spec; by exists this, o, n). congruence. Qed.

(** Memory that is not in use can change. *)
Lemma ok_other s objs watches : inotify_ok s -> (forall this, this ∈ is_reg s -> objs !! this = is_objs s !! this) ->
  (forall w, in_use w s = true -> watches !! w = is_watches s !! w) -> ok_at objs watches (is_local s) (is_reg s).
Proof.
  intros [H1 H2] Ho Hw. split; [|done]. intros this Hr. destruct (H1 this Hr) as (o&E&[Hws Ht]). exists o.
  split; [by rewrite Ho|]. split; [|done]. intros n w Hin. destruct (Hws n w Hin) as (x&Hx&?&?). exists x.
  split; [|done]. rewrite Hw; [done|]. apply in_use_spec. by exists this, o, n.
Qed.

Lemma load_inotify_Ok s this o : is_objs s !! this = Some o -> load_inotify this s = Ok (o, s).
Proof. intros H. unfold load_inotify. msimpl. by rewrite H. Qed.
Lemma load_watch_Ok s w x : is_watches s !! w = Some x -> load_watch w s = Ok (x, s).
Proof. intros H. unfold load_watch. msimpl. by rewrite H. Qed.
Lemma upd_inotify_Ok s this o g : is_objs s !! this = Some o -> upd_inotify this g s = Ok (tt, set_is_objs (<[this := g o]> (is_objs s)) s).
Proof. intros H. unfold upd_inotify. by mrun (load_inotify_Ok s this o H). Qed.
Lemma upd_watch_Ok s w x g : is_watches s !! w = Some x -> upd_watch w g s = Ok (tt, set_is_watches (<[w := g x]> (is_watches s)) s).
Proof. intros H. unfold upd_watch. by mrun (load_watch_Ok s w x H). Qed.
Lemma ik_kernel_Ok {A} (call : W -> A * W) s a (w' : W) : call (is_w s) = (a, w') -> kernel call s = Ok (a, set_is_w w' s).
Proof. intros H. unfold kernel. by rewrite H. Qed.

(** An instance that is registered changes its tree of watches. *)
Lemma ok_tree s this o f watches : inotify_ok s -> this ∈ is_reg s -> is_objs s !! this = Some o ->
  (forall n w, f !! n = Some w -> exists x, watches !! w = Some x /\ iw_wd x = n /\ iw_inotify x = this) ->
  (forall w, in_use w s = true -> watches !! w = is_watches s !! w) ->
  ok_at (<[this := set_in_watches f o]> (is_objs s)) watches (is_local s) (is_reg s).
Proof.
  intros Hok Hr Ho Hf Hw. pose proof (ok_other s (is_objs s) watches Hok ltac:(done) Hw) as [H1 H2]. split; [|done].
  intros this' Hr'. destruct (H1 this' Hr') as (o'&Ho'&[Hws Ht]). destruct (decide (this' = this)) as [->|Hne].
  - exists (set_in_watches f o). split; [by rewrite lookup_insert_eq|]. assert (o' = o) as -> by congruence. by split.
  - exists o'. by rewrite lookup_insert_ne.
Qed.

(** The only way a call ends the program is that the client breaks the contract. *)
Definition ibreach (e : string) : Prop := e = "outside of the interface"%string.
Lemma wp_ibreach {A} (m : M St A) s Q : wp ibreach m s Q -> wp any m s Q.
Proof. unfold wp. by destruct (m s) as [[]| | |]. Qed.

Lemma register_ok s this : inotify_ok s -> legal (IRegister this) s = true ->
  wp ibreach (ret ← iv_inotify_register this; when (ret =? 0) (modify (fun s => set_is_reg ({[this]} ∪ is_reg s) s))) s
    (fun _ s' => inotify_ok s' /\ local_kept s s').
Proof.
  intros Hok [Hr%bool_decide_eq_true Hn]%andb_prop. destruct (is_objs s !! this) as [o|] eqn:Ho; [|done].
  destruct (in_term o) eqn:Ht; try done. unfold iv_inotify_register. wbind.
  destruct (ik_init (is_w s)) as [r w'] eqn:Ek. wrun (ik_kernel_Ok _ s r w' Ek). destruct r as [fd|e].
  2:{ eapply wp_Ok; [reflexivity|]. eapply wp_Ok; [reflexivity|]. split; [done|by apply local_refl]. }
  wrun (upd_inotify_Ok (set_is_w w' s) this o (set_in_fd fd) Ho). wprim.
  match goal with |- wp _ _ ?st _ => wrun (upd_inotify_Ok st this (set_in_fd fd o) (set_in_watches ∅) (lookup_insert_eq _ _ _)) end.
  eapply wp_Ok; [reflexivity|]. eapply wp_Ok; [reflexivity|]. split; [|by apply local_refl]. destruct Hok as [H1 H2]. split.
  - intros this' Hr'. cbn. rewrite insert_insert_eq. destruct (decide (this' = this)) as [->|Hne].
    + eexists. split; [by rewrite lookup_insert_eq|]. split; [intros n w; cbn; by rewrite lookup_empty|]. cbn. rewrite Ht.
      intros n El. by apply H2 in El.
    + destruct (H1 this' ltac:(set_solver)) as (o'&?&?). exists o'. by rewrite lookup_insert_ne.
  - intros n this' El. apply H2 in El. set_solver.
Qed.

Lemma unregister_ok s this : inotify_ok s -> legal (IUnregister this) s = true ->
  wp ibreach (iv_inotify_unregister this;; modify (fun s => set_is_reg (is_reg s ∖ {[this]}) s)) s
    (fun _ s' => inotify_ok s' /\ local_kept s s').
Proof.
  intros [H1 H2] Hr%bool_decide_eq_true. destruct (H1 this Hr) as (o&Ho&[_ Ht]). unfold iv_inotify_unregister. wbind.
  wrun (load_inotify_Ok s this o Ho). do 2 wprim. destruct (in_term o) as [| |n] eqn:Et; [done| |].
  - eapply wp_Ok; [reflexivity|]. eapply wp_Ok; [reflexivity|]. split; [|by apply local_refl]. split.
    + intros this' Hr'. apply H1. set_solver.
    + intros n this' El. cbn in El |- *. assert (this' <> this) by (intros ->; by apply (Ht n)). apply H2 in El. set_solver.
  - unfold clear_local. wprim. cbn [is_local set_is_w]. rewrite Ht, Nat.eqb_refl. eapply wp_Ok; [reflexivity|].
    eapply wp_Ok; [reflexivity|]. split; [|split; [done|]; split; [done|]; rewrite Ht; by right]. split; [|done].
    intros this' Hr'. cbn in Hr' |- *. destruct (H1 this' ltac:(set_solver)) as (o'&Ho'&[Hw' Ht']). exists o'. split; [done|].
    split; [done|]. destruct (in_term o') as [| |m]; [done|done|]. rewrite Ht in Ht'. injection Ht' as -> ->. set_solver.
Qed.

Lemma watch_register_ok s w : inotify_ok s -> legal (IWatchRegister w) s = true ->
  wp ibreach (iv_inotify_watch_register w;; mret tt) s (fun _ s' => inotify_ok s' /\ local_kept s s').
Proof.
  intros Hok [Hu%negb_true_iff Hx]%andb_prop. destruct (is_watches s !! w) as [x|] eqn:Hw; [|done]. apply bool_decide_eq_true in Hx.
  destruct (io_live _ _ _ _ Hok _ Hx) as (o&Ho&[Hws _]). unfold iv_inotify_watch_register. wbind.
  wrun (load_watch_Ok s w x Hw). wrun (load_inotify_Ok s _ o Ho).
  destruct (ik_add_watch (in_fd o) (iw_pathname x) (iw_mask x) (is_w s)) as [r w'] eqn:Ek. wrun (ik_kernel_Ok _ s r w' Ek).
  assert (forall (wd : Z) w2, in_use w2 s = true -> <[w := set_iw_wd wd x]> (is_watches s) !! w2 = is_watches s !! w2) as Hother.
  { intros wd w2 Hu2. rewrite lookup_insert_ne; [done|]. congruence. }
  destruct r as [wd|e].
  2:{ wrun (upd_watch_Ok (set_is_w w' s) w x (set_iw_wd (-1)) Hw). eapply wp_Ok; [reflexivity|]. eapply wp_Ok; [reflexivity|].
      split; [apply (ok_other s); [done|done|apply Hother]|by apply local_refl]. }
  wrun (upd_watch_Ok (set_is_w w' s) w x (set_iw_wd wd) Hw). set (s1 := set_is_watches _ _). unfold watches_insert.
  wrun (load_inotify_Ok s1 (iw_inotify x) o Ho). wrun (load_watch_Ok s1 w _ (lookup_insert_eq _ _ _)). cbn [iw_wd set_iw_wd].
  destruct (in_watches o !! wd) eqn:Ed.
  { eapply wp_Ok; [reflexivity|]. eapply wp_Ok; [reflexivity|]. split; [apply (ok_other s); [done|done|apply Hother]|by apply local_refl]. }
  wrun (upd_inotify_Ok s1 (iw_inotify x) o (set_in_watches (<[wd := w]> (in_watches o))) Ho).
  eapply wp_Ok; [reflexivity|]. eapply wp_Ok; [reflexivity|]. split; [|by apply local_refl].
  apply (ok_tree s _ o _ (<[w := set_iw_wd wd x]> (is_watches s))); [done|done|done| |apply Hother]. intros n w2. rewrite lookup_insert. case_decide as En.
  - intros [= <-]. subst n. eexists. split; [apply lookup_insert_eq|done].
  - intros Hn. destruct (Hws n w2 Hn) as (x2&Hx2&E1&E2). exists x2. split; [|done]. rewrite lookup_insert_ne; [done|]. intros <-.
    by apply (not_in_use w s _ o n Hu Hx Ho).
Qed.

Lemma delete_ok s this o w x : inotify_ok s -> this ∈ is_reg s -> is_objs s !! this = Some o -> is_watches s !! w = Some x ->
  in_watches o !! iw_wd x = Some w ->
  wp ibreach (watches_delete this w) s (fun _ s' => inotify_ok s' /\ is_local s' = is_local s /\ is_runs s' = is_runs s /\ is_ran s' = is_ran s).
Proof.
  intros Hok Hr Ho Hw Hin. unfold watches_delete. wrun (load_inotify_Ok s this o Ho). wrun (load_watch_Ok s w x Hw).
  rewrite bool_decide_true by done. eapply wp_Ok; [by apply (upd_inotify_Ok s this o)|]. split; [|done].
  apply (ok_tree s); [done|done|done| |done]. intros n w2 [_ Hn]%lookup_delete_Some.
  destruct (io_live _ _ _ _ Hok _ Hr) as (o'&Ho'&[Hws _]). assert (o' = o) as -> by congruence. by apply Hws.
Qed.

Lemma watch_unregister_ok s w : inotify_ok s -> legal (IWatchUnregister w) s = true ->
  wp ibreach (iv_inotify_watch_unregister w) s (fun _ s' => inotify_ok s' /\ local_kept s s').
Proof.
  intros Hok Hl. cbn in Hl. destruct (is_watches s !! w) as [x|] eqn:Hw; [|done]. apply andb_prop in Hl as [Hx%bool_decide_eq_true Hl].
  destruct (is_objs s !! iw_inotify x) as [o|] eqn:Ho; [|done]. apply bool_decide_eq_true in Hl. unfold iv_inotify_watch_unregister.
  wrun (load_watch_Ok s w x Hw). wrun (load_inotify_Ok s _ o Ho). wprim.
  eapply wp_mono; [by apply (delete_ok (set_is_w (ik_rm_watch (in_fd o) (iw_wd x) (is_w s)) s) (iw_inotify x) o w x)|]. cbv beta.
  intros _ s' (?&?&?&?). split; [done|by apply local_refl].
Qed.

Lemma call_ok c s : inotify_ok s -> wp ibreach (run_inotify_call legal c) s (fun _ s' => inotify_ok s' /\ local_kept s s').
Proof.
  intros Hok. unfold run_inotify_call. wprim. destruct (legal c s) eqn:Hl; cbn [negb]; [|done].
  destruct c as [this z|this|w this path mask|w|this|this|w|w].
  - apply bool_decide_eq_true in Hl. eapply wp_Ok; [reflexivity|]. split; [|by apply local_refl]. apply (ok_other s); [done| |done].
    intros this' Hr. cbn. rewrite lookup_insert_ne; [done|]. by intros ->.
  - apply bool_decide_eq_true in Hl. eapply wp_Ok; [reflexivity|]. split; [|by apply local_refl]. apply (ok_other s); [done| |done].
    intros this' Hr. cbn. rewrite lookup_delete_ne; [done|]. by intros ->.
  - apply negb_true_iff in Hl. eapply wp_Ok; [reflexivity|]. split; [|by apply local_refl]. apply (ok_other s); [done|done|].
    intros w' Hu. cbn. rewrite lookup_insert_ne; [done|]. cbn in Hl. congruence.
  - apply negb_true_iff in Hl. eapply wp_Ok; [reflexivity|]. split; [|by apply local_refl]. apply (ok_other s); [done|done|].
    intros w' Hu. cbn. rewrite lookup_delete_ne; [done|]. cbn in Hl. congruence.
  - by apply register_ok.
  - by apply unregister_ok.
  - by apply watch_register_ok.
  - by apply watch_unregister_ok.
Qed.
Lemma inotify_calls_ok cs : forall s, inotify_ok s -> wp ibreach (run_inotify_calls legal cs) s (fun _ s' => inotify_ok s' /\ local_kept s s').
Proof.
  induction cs as [|c cs IH]; intros s Hok; [eapply wp_Ok; [reflexivity|]; split; [done|by apply local_refl]|]. cbn [run_inotify_calls].
  wbind. eapply wp_mono; [by apply call_ok|]. cbv beta. intros _ s1 [H1 L1].
  eapply wp_mono; [by apply IH|]. cbv beta. intros _ s2 [H2 L2]. split; [done|by eapply local_trans].
Qed.

(** ** Dispatching *)
Lemma local_this_Ok s n p : is_local s = Some (n, p) -> local_this s = Ok (p, s).
Proof. intros H. unfold local_this. msimpl. by rewrite H. Qed.

(** What an event is to do: nothing when no watch is filed under its descriptor, and
    otherwise call the handler of the watch with the event, after taking the watch out of
    the tree if it is gone ([IN_IGNORED]) or was for one event. *)
Definition unfiled (this : loc) (o : iv_inotify) (e : inotify_event) (x : iv_inotify_watch) (s : St) : St :=
  if has (ev_mask e) IN_IGNORED || has (iw_mask x) IN_ONESHOT
  then set_is_objs (<[this := set_in_watches (delete (ev_wd e) (in_watches o)) o]> (is_objs s)) s else s.
Inductive event_done (this : loc) (e : inotify_event) (s : St) : list (loc * inotify_event) -> St -> Prop :=
  | event_unknown o : is_objs s !! this = Some o -> in_watches o !! ev_wd e = None -> event_done this e s [] s
  | event_handled o w x s' : is_objs s !! this = Some o -> in_watches o !! ev_wd e = Some w -> is_watches s !! w = Some x ->
      run_inotify_calls legal (handler (is_ran s)) (set_is_ran (is_ran s ++ [(w, e)]) (unfiled this o e x s)) = Ok (tt, s') ->
      event_done this e s [(w, e)] s'.
(** What a run over events is to do: one after the other, until they are done or a
    handler unregistered the instance, which clears the variable [this]. *)
Inductive dispatched (this : loc) : list inotify_event -> St -> list (loc * inotify_event) -> St -> Prop :=
  | dispatched_nil s : dispatched this [] s [] s
  | dispatched_more e evs s l1 s1 n l2 s2 : event_done this e s l1 s1 -> is_local s1 = Some (n, Some this) ->
      dispatched this evs s1 l2 s2 -> dispatched this (e :: evs) s (l1 ++ l2) s2
  | dispatched_stop e evs s l1 s1 n : event_done this e s l1 s1 -> is_local s1 = Some (n, None) ->
      dispatched this (e :: evs) s l1 s1.

(** The run under way goes on, or ended. *)
Definition run_kept (s s' : St) : Prop := match is_local s with
  | None => is_local s' = None
  | Some (n, p) => is_local s' = Some (n, p) \/ is_local s' = Some (n, None)
  end.

Lemma dispatch_event_ok e s n this : inotify_ok s -> is_local s = Some (n, Some this) ->
  wp ibreach (dispatch_event handler legal e) s (fun _ s' => inotify_ok s' /\ run_kept s s' /\
    exists l, event_done this e s l s' /\ is_ran s' = is_ran s ++ l).
Proof.
  intros Hok Hl. pose proof (io_local _ _ _ _ Hok n this Hl) as Hr. destruct (io_live _ _ _ _ Hok this Hr) as (o&Ho&[Hws Ht]).
  unfold dispatch_event. wrun (local_this_Ok s n _ Hl). wprim. unfold __find_watch. wbind. wrun (load_inotify_Ok s this o Ho).
  eapply wp_Ok; [reflexivity|]. cbv beta. destruct (in_watches o !! ev_wd e) as [w|] eqn:Ew.
  2:{ eapply wp_Ok; [reflexivity|]. split_and!; [done| |exists []; split; [by eapply event_unknown|by rewrite app_nil_r]].
      unfold run_kept. rewrite Hl. by left. }
  destruct (Hws _ _ Ew) as (x&Hx&Ewd&Ein). wrun (load_watch_Ok s w x Hx).
  wbind. apply (wp_mono _ _ _ (fun _ s1 => s1 = unfiled this o e x s /\ inotify_ok s1)).
  { unfold when, unfiled. destruct (_ || _); [|by eapply wp_Ok; [reflexivity|]].
    pose proof (delete_ok s this o w x Hok Hr Ho Hx ltac:(by rewrite Ewd)) as Hd.
    assert (watches_delete this w s = Ok (tt, set_is_objs (<[this := set_in_watches (delete (ev_wd e) (in_watches o)) o]> (is_objs s)) s)) as E.
    { unfold watches_delete. mrun (load_inotify_Ok s this o Ho). mrun (load_watch_Ok s w x Hx). rewrite Ewd, bool_decide_true by done.
      by apply (upd_inotify_Ok s this o). }
    unfold wp in Hd |- *. rewrite E in Hd |- *. tauto. }
  cbv beta. intros _ s1 [Es1 H1]. assert (is_local s1 = is_local s /\ is_ran s1 = is_ran s) as [L1 R1].
  { subst s1. unfold unfiled. by destruct (_ || _). }
  unfold call_handler. do 2 wprim. set (s1' := set_is_ran _ s1).
  pose proof (inotify_calls_ok (handler (is_ran s1)) s1' H1) as Hc.
  eapply wp_mono; [apply wp_conj; [exact Hc|eapply wp_results; [exact Hc|intros a0 s0 E0; exact E0]]|].
  cbv beta. intros [] s2 [[H2 (_&R2&L2)] E]. split; [done|]. split; [unfold run_kept; rewrite <-L1; exact L2|].
  exists [(w, e)]. split; [|rewrite R2; cbn; by rewrite R1]. apply (event_handled this e s o w x s2); try done.
  subst s1'. rewrite <-Es1, <-R1. exact E.
Qed.

Lemma dispatch_all_ok evs : forall s n this, inotify_ok s -> is_local s = Some (n, Some this) ->
  wp ibreach (dispatch_all evs) s (fun _ s' => inotify_ok s' /\ run_kept s s' /\
    exists l, dispatched this evs s l s' /\ is_ran s' = is_ran s ++ l).
Proof.
  induction evs as [|e evs IH]; intros s n this Hok Hl.
  { eapply wp_Ok; [reflexivity|]. split_and!; [done| |exists []; split; [constructor|by rewrite app_nil_r]]. unfold run_kept. rewrite Hl. by left. }
  cbn [dispatch_all]. wbind. eapply wp_mono; [by eapply dispatch_event_ok|]. cbv beta. intros _ s1 (H1&L1&l1&E1&R1).
  unfold run_kept in L1. rewrite Hl in L1. destruct L1 as [L1|L1].
  - wrun (local_this_Ok s1 n _ L1). eapply wp_mono; [by apply (IH s1 n this)|]. cbv beta. intros _ s2 (H2&L2&l2&E2&R2).
    split; [done|]. split; [by unfold run_kept in *; rewrite Hl; rewrite L1 in L2|]. exists (l1 ++ l2).
    split; [by eapply dispatched_more|]. by rewrite R2, R1, app_assoc.
  - wrun (local_this_Ok s1 n _ L1). eapply wp_Ok; [reflexivity|]. split; [done|]. split; [unfold run_kept; rewrite Hl; by right|].
    exists l1. split; [by eapply dispatched_stop|done].
Qed.

Context {HL : InotifyLaws W}.

Lemma read_spec fd s : wp any (retry (Datatypes.S (ik_signals (is_w s))) (kernel (ik_read fd))) s (fun r s' =>
  (exists w' : W, s' = set_is_w w' s) /\ match r with inl q => exists evs, Forall event_ok evs /\ q = evs ≫= encode | inr _ => True end).
Proof.
  apply (retry_spec any (fun s1 : St => exists w' : W, s1 = set_is_w w' s) (fun s1 => ik_signals (is_w s1))); [|exists (is_w s); by destruct s|lia].
  intros s1 [w1 ->]. destruct (ik_read fd w1) as [r w2] eqn:Ek. eapply wp_Ok; [by apply ik_kernel_Ok|]. cbv beta.
  destruct r as [q|e]; [split; [by exists w2|by eapply il_read]|]. assert (exists w' : W, set_is_w w2 (set_is_w w1 s) = set_is_w w' s) as Hw by by exists w2.
  destruct e; try done. split; [done|]. by eapply il_signals.
Qed.

(** The run ends. *)
Lemma run_over s n p : inotify_ok s -> is_local s = Some (n, p) ->
  wp ibreach (this ← local_this; (match this with Some this => upd_inotify this (set_in_term TermNull) | None => mret tt end);;
    modify (set_is_local None)) s (fun _ s' => inotify_ok s' /\ is_local s' = None /\ is_ran s' = is_ran s).
Proof.
  intros Hok Hl. wrun (local_this_Ok s n p Hl). pose proof Hok as [H1 H2].
  assert (forall this o, this ∈ is_reg s -> is_objs s !! this = Some o -> p <> Some this -> obj_ok (is_watches s) None this o) as Hother.
  { intros this o Hr Ho Hp. destruct (H1 this Hr) as (o'&Ho'&[Hw Ht]). assert (o' = o) as -> by congruence. split; [done|].
    destruct (in_term o) as [| |m]; [done|done|]. rewrite Hl in Ht. injection Ht as -> ->. done. }
  destruct p as [this|].
  - pose proof (H2 n this Hl) as Hr. destruct (H1 this Hr) as (o&Ho&[Hw _]). wbind.
    wrun (upd_inotify_Ok s this o (set_in_term TermNull) Ho). eapply wp_Ok; [reflexivity|]. split; [|done]. split; [|done].
    intros this' Hr'. cbn in Hr' |- *. destruct (decide (this' = this)) as [->|Hne].
    + eexists. split; [by rewrite lookup_insert_eq|]. by split.
    + rewrite lookup_insert_ne by done. destruct (H1 this' Hr') as (o'&Ho'&_). exists o'. split; [done|]. apply Hother; [done|done|congruence].
  - wprim. eapply wp_Ok; [reflexivity|]. split; [|done]. split; [|done]. intros this' Hr'. cbn in Hr' |- *.
    destruct (H1 this' Hr') as (o'&Ho'&_). exists o'. split; [done|]. by apply Hother.
Qed.

(** A run over events: its variable [this] and [term] are set up, and cleaned up unless
    the instance is gone. *)
Definition run_begins (this : loc) (o : iv_inotify) (s : St) : St :=
  set_is_objs (<[this := set_in_term (TermLocal (is_runs s)) o]> (is_objs s))
    (set_is_local (Some (is_runs s, Some this)) (set_is_runs (Datatypes.S (is_runs s)) s)).
Definition dispatch_run (this : loc) (evs : list inotify_event) : M St unit :=
  n ← gets is_runs;
  modify (set_is_runs (Datatypes.S n));;
  modify (set_is_local (Some (n, Some this)));;
  upd_inotify this (set_in_term (TermLocal n));;
  dispatch_all evs;;
  this ← local_this;
  (match this with Some this => upd_inotify this (set_in_term TermNull) | None => mret tt end);;
  modify (set_is_local None).

Lemma dispatch_run_ok this evs s o : inotify_ok s -> this ∈ is_reg s -> is_local s = None -> is_objs s !! this = Some o ->
  wp ibreach (dispatch_run this evs) s (fun _ s' => inotify_ok s' /\ is_local s' = None /\
    exists l s2, dispatched this evs (run_begins this o s) l s2 /\ is_ran s' = is_ran s ++ l).
Proof.
  intros Hok Hr Hl Ho. pose proof Hok as [H1 H2]. destruct (H1 this Hr) as (o'&Ho'&[Hw Ht]). assert (o' = o) as -> by congruence. unfold dispatch_run.
  do 3 wprim. match goal with |- wp _ _ ?st _ => wrun (upd_inotify_Ok st this o (set_in_term (TermLocal (is_runs s))) Ho); set (s2 := set_is_objs _ _) end.
  assert (inotify_ok s2) as Hok2.
  { split; [|by intros n this' [= _ <-]]. intros this' Hr'. cbn in Hr' |- *. destruct (decide (this' = this)) as [->|Hne].
    - eexists. split; [by rewrite lookup_insert_eq|]. by split.
    - rewrite lookup_insert_ne by done. destruct (H1 this' Hr') as (o2&Ho2&[Hw' Ht']). exists o2. split; [done|]. split; [done|].
      rewrite Hl in Ht'. destruct (in_term o2) as [| |m]; [done|congruence|done]. }
  wbind. eapply wp_mono; [by apply (dispatch_all_ok evs s2 (is_runs s) this)|]. cbv beta. intros _ s3 (Hok3&L3&l&D3&R3).
  unfold run_kept in L3. cbn in L3.
  assert (exists p, is_local s3 = Some (is_runs s, p)) as [p Hp] by (destruct L3; eauto).
  eapply wp_mono; [by eapply run_over|]. cbv beta. intros _ s4 (H4&L4&R4). split_and!; [done|done|]. exists l, s3. split; [exact D3|by rewrite R4].
Qed.

(** Once the events are read. *)
Lemma got_event_read this o evs (w' : W) s : is_objs s !! this = Some o -> evs <> [] -> Forall event_ok evs ->
  forall s1, retry (Datatypes.S (ik_signals (is_w s))) (kernel (ik_read (in_fd o))) s = Ok (inl (evs ≫= encode), s1) ->
  iv_inotify_got_event handler legal this s = dispatch_run this evs s1.
Proof.
  intros Ho Hne Hevs s1 Hk. unfold iv_inotify_got_event. mrun (load_inotify_Ok s this o Ho).
  mrun (eq_refl : gets (fun s => ik_signals (is_w s)) s = Ok (ik_signals (is_w s), s)). mrun Hk.
  destruct (evs ≫= encode) as [|b q] eqn:Eq.
  { destruct evs as [|e evs]; [done|]. apply (f_equal length) in Eq. pose proof (encode_length e). unfold sizeof_event in *.
    change (mbind encode (e :: evs)) with (encode e ++ mbind encode evs) in Eq. rewrite length_app in Eq. cbn [length] in Eq. lia. }
  rewrite <-Eq. unfold dispatch_run. do 4 (apply bind_ext; intros ? ?). apply bind_head. by apply event_loop_all; [|lia].
Qed.

Lemma got_event_ok this s : inotify_ok s -> this ∈ is_reg s -> is_local s = None ->
  wp any (iv_inotify_got_event handler legal this) s (fun _ s' => inotify_ok s' /\ is_local s' = None).
Proof.
  intros Hok Hr Hl. destruct (io_live _ _ _ _ Hok this Hr) as (o&Ho&_).
  destruct (wp_inv _ _ _ _ (read_spec (in_fd o) s)) as [(e&E&_)|(r&s1&E&[w1 ->]&Hq)].
  - unfold wp, iv_inotify_got_event. mrun (load_inotify_Ok s this o Ho).
    mrun (eq_refl : gets (fun s => ik_signals (is_w s)) s = Ok (ik_signals (is_w s), s)). unfold mbind, M_bind. by rewrite E.
  - destruct r as [q|e].
    + destruct Hq as (evs&Hevs&->). destruct (decide (evs = [])) as [->|Hne].
      { unfold wp, iv_inotify_got_event. mrun (load_inotify_Ok s this o Ho).
        mrun (eq_refl : gets (fun s => ik_signals (is_w s)) s = Ok (ik_signals (is_w s), s)). unfold mbind, M_bind. by rewrite E. }
      unfold wp. rewrite (got_event_read this o evs w1 s Ho Hne Hevs _ E).
      eapply wp_ibreach, wp_mono; [by apply (dispatch_run_ok this evs (set_is_w w1 s) o)|]. cbv beta. tauto.
    + unfold iv_inotify_got_event. wrun (load_inotify_Ok s this o Ho). wprim. wrun E. destruct e; try done.
Qed.

(** ** Programs *)
Inductive inotify_step := ICalls (cs : list inotify_call) | IEvent (this : loc).
(** The event loop calls [iv_inotify_got_event] of registered instances. *)
Fixpoint run_inotify (p : list inotify_step) : M St unit :=
  match p with
  | [] => mret tt
  | ICalls cs :: p => run_inotify_calls legal cs;; run_inotify p
  | IEvent this :: p =>
      reg ← gets is_reg;
      when (bool_decide (this ∈ reg)) (iv_inotify_got_event handler legal this);; run_inotify p
  end.
Definition inotify_boot (w : W) : St := mk_is ∅ ∅ None 0 [] ∅ w.

(** C12. Whatever the kernel reports and whatever handlers do within the contract
    (registering and unregistering watches, unregistering and freeing their own watch or
    the instance whose events are being dispatched, registering others), a program of
    calls and dispatches never uses freed memory, never deletes a watch that is not in
    the tree, never reads past the events in the buffer and never writes to the variable
    of a run that is over; every watch in the tree of a registered instance is live and
    filed under its descriptor. *)
Theorem iv_inotify_programs_safe p (w : W) : wp any (run_inotify p) (inotify_boot w) (fun _ s => inotify_ok s /\ is_local s = None).
Proof.
  assert (inotify_ok (inotify_boot w) /\ is_local (inotify_boot w) = None) as H by (split; [split; [set_solver|done]|done]).
  revert H. generalize (inotify_boot w) as s. induction p as [|[cs|this] p IH]; intros s [Hok Hl]; [done|..]; cbn [run_inotify].
  - wbind. eapply wp_ibreach, wp_mono; [by apply inotify_calls_ok|]. cbv beta. intros _ s1 (H1&_&_&L1). rewrite Hl in L1. by apply IH.
  - wprim. wbind. case_bool_decide; cbn [when]; [|eapply wp_Ok; [reflexivity|]; by apply IH].
    eapply wp_mono; [by apply got_event_ok|]. cbv beta. intros _ s1 ?. by apply IH.
Qed.

(** C24. The walk over the buffer does with the events what is to be done with them: when
    a read returns the events [evs], with names of any lengths, it calls, one event after
    the other, the handler of the watch filed under the event's watch descriptor then,
    with the descriptor, mask, cookie and name that the kernel put in, having taken the
    watch out of the tree if the event says it is gone or it was for one event; events of
    no watch are passed over, and the walk ends early exactly when a handler unregisters
    the instance ([dispatched]).  Those are all the handlers it calls, and it ends, if
    handlers keep to the interface. *)
Theorem iv_inotify_got_event_dispatches this s o evs (w' : W) : inotify_ok s -> this ∈ is_reg s -> is_local s = None ->
  is_objs s !! this = Some o -> ik_read (in_fd o) (is_w s) = (inl (evs ≫= encode), w') -> evs <> [] -> Forall event_ok evs ->
  wp ibreach (iv_inotify_got_event handler legal this) s (fun _ s' => exists l s2,
    dispatched this evs (run_begins this o (set_is_w w' s)) l s2 /\ is_ran s' = is_ran s ++ l).
Proof.
  intros Hok Hr Hl Ho Hk Hne Hevs. unfold wp.
  rewrite (got_event_read this o evs w' s Ho Hne Hevs (set_is_w w' s)) by (cbn [retry]; by mrun (ik_kernel_Ok _ s _ w' Hk)).
  eapply wp_mono; [by apply (dispatch_run_ok this evs (set_is_w w' s) o)|]. cbv beta. by intros _ s' (_&_&?).
Qed.

(** The documented way to use an instance is [IV_INOTIFY_INIT], [iv_inotify_register],
    [iv_inotify_unregister].  Neither of the first two sets [term], which is NULL only
    once events were dispatched: unless the client zeroes the structure,
    [iv_inotify_unregister] writes through whatever pointer was in the memory; likewise
    for an instance that a handler unregisters and registers again, through a pointer to
    a variable of a function that has returned. *)
Theorem iv_inotify_term_not_initialised this s o : is_objs s !! this = Some o -> is_local s = None -> in_term o <> TermNull ->
  match iv_inotify_register this s with
  | Ok (ret, s') => ret = 0 -> iv_inotify_unregister this s' = Undef
  | _ => False
  end.
Proof.
  intros Ho Hl Ht. unfold iv_inotify_register. destruct (ik_init (is_w s)) as [r w'] eqn:Ek. mrun (ik_kernel_Ok _ s r w' Ek).
  destruct r as [fd|e]; [|done]. mrun (upd_inotify_Ok (set_is_w w' s) this o (set_in_fd fd) Ho).
  match goal with |- context [(kernel_ ?c ≫= ?k) ?st] => mrun (eq_refl : kernel_ c st = Ok (tt, set_is_w (c (is_w st)) st)) end.
  match goal with |- context [(upd_inotify this ?g ≫= ?k) ?st] => mrun (upd_inotify_Ok st this (set_in_fd fd o) g (lookup_insert_eq _ _ _)) end.
  intros _. unfold iv_inotify_unregister.
  match goal with |- (load_inotify this ≫= ?k) ?st = _ => mrun (load_inotify_Ok st this _ (lookup_insert_eq _ _ _)) end.
  cbn. destruct (in_term o) as [| |n]; [done|done|]. unfold clear_local. msimpl. by rewrite Hl.
Qed.
End props.

(** ** Examples: a kernel with the reads to come, and the number of watches added *)
Definition isim : Type := list (list inotify_event) * Z.
#[global] Instance event_ok_dec e : Decision (event_ok e).
Proof. unfold event_ok. apply _. Defined.
#[global] Instance isim_kernel : InotifyKernel isim := {
  ik_init w := (inl 7, w);
  ik_add_watch _ _ _ w := (inl (w.2 + 1), (w.1, w.2 + 1));
  ik_rm_watch _ _ w := w;
  ik_read _ w := match w.1 with
    | [] => (inr EAGAIN, w)
    | evs :: r => (if decide (Forall event_ok evs) then inl (evs ≫= encode) else inr EAGAIN, (r, w.2))
    end;
  ik_close _ w := w;
  ik_fd_register _ w := w;
  ik_fd_unregister _ w := w;
  ik_signals _ := O }.

(** Instance 1 has watches 2 and 3; the handler of the third event unregisters and frees
    the instance and the watches. *)
Definition ievents : list inotify_event :=
  [mk_iev 2 0x100 0 [97; 98; 0; 0]; mk_iev (-1) 0x4000 0 []; mk_iev 1 IN_IGNORED 0 []; mk_iev 1 2 0 [99; 0]; mk_iev 2 2 5 [100; 0]; mk_iev 2 2 6 []].
Definition ihandler (ran : list (loc * inotify_event)) : list inotify_call :=
  match ran with [_; _] => [IUnregister 1; IFree 1; IWatchFree 2; IWatchFree 3] | _ => [] end.
Definition isetup : list inotify_call :=
  [INew 1 true; IRegister 1; IWatchNew 2 1 "a"%string 0x100; IWatchNew 3 1 "b"%string 0x2; IWatchRegister 2; IWatchRegister 3].
#[global] Instance isim_laws : InotifyLaws isim.
Proof.
  split.
  - intros fd [[|evs r] n] q w'; cbn; [done|]. case_decide as H; [|done]. intros [= <- <-]. by exists evs.
  - intros fd [[|evs r] n] w'; cbn; [done|]. by case_decide.
Qed.

Definition iran (r : res (unit * inotify_state isim)) : option (list (loc * Z * list Z) * bool) :=
  match r with
  | Ok (_, s) => Some ((fun p => (p.1, ev_wd p.2, ev_name p.2)) <$> is_ran s, bool_decide (is_objs s !! 1%positive = None))
  | _ => None
  end.
Lemma iv_inotify_programs_safe_witness :
  iran (run_inotify ihandler [ICalls isetup; IEvent 1; IEvent 1] (inotify_boot ([ievents], 0))) =
    Some ([(3%positive, 2, [97; 98; 0; 0]); (2%positive, 1, []); (3%positive, 2, [100; 0])], true) /\
  wp any (run_inotify ihandler [ICalls isetup; IEvent 1; IEvent 1]) (inotify_boot ([ievents], 0)) (fun _ s => inotify_ok s /\ is_local s = None).
Proof. split; [vm_compute; reflexivity|]. apply (iv_inotify_programs_safe (HL := isim_laws) ihandler). Defined.

Lemma iready : exists s o, run_inotify_calls legal isetup (inotify_boot ([ievents], 0)) = Ok (tt, s) /\ inotify_ok s /\
  bool_decide (1%positive ∈ is_reg s) = true /\ is_local s = None /\ is_objs s !! 1%positive = Some o /\ is_w s = ([ievents], 2).
Proof.
  assert (inotify_ok (inotify_boot ([ievents], 0))) as Hb by (split; [intros ? H; by apply not_elem_of_empty in H|done]).
  pose proof (inotify_calls_ok isetup _ Hb) as H.
  assert (match run_inotify_calls legal isetup (inotify_boot ([ievents], 0)) with
    | Ok (_, s) => (bool_decide (1%positive ∈ is_reg s), is_local s, bool_decide (is_Some (is_objs s !! 1%positive)), is_w s) | _ => (false, None, false, ([], 0)) end
    = (true, None, true, ([ievents], 2))) as E by (vm_compute; reflexivity).
  unfold wp in H. destruct (run_inotify_calls legal isetup (inotify_boot ([ievents], 0))) as [[[] s]| | |]; [|done..].
  injection E as E1 E2 E3 E4. apply bool_decide_eq_true in E3 as [o Ho]. exists s, o. destruct H. done.
Qed.
Lemma iv_inotify_got_event_dispatches_witness : exists (s : inotify_state isim) o, is_w s = ([ievents], 2) /\
  wp ibreach (iv_inotify_got_event ihandler legal 1) s (fun _ s' => exists l s2,
    dispatched ihandler 1 ievents (run_begins 1 o (set_is_w ([], 2) s)) l s2 /\ is_ran s' = is_ran s ++ l).
Proof.
  destruct iready as (s&o&_&Hok&Hr%bool_decide_eq_true&Hl&Ho&Hw). exists s, o. split; [exact Hw|].
  apply (iv_inotify_got_event_dispatches ihandler 1 s o ievents); try done; [rewrite Hw; vm_compute; reflexivity|].
  apply (bool_decide_unpack _). vm_compute. exact I.
Defined.

Lemma iv_inotify_term_not_initialised_witness :
  let s := set_is_objs {[1%positive := mk_in 0 ∅ TermUninit]} (inotify_boot ([], 0) : inotify_state isim) in
  match iv_inotify_register 1 s with Ok (ret, s') => ret = 0 -> iv_inotify_unregister 1 s' = Undef | _ => False end.
Proof. intros s. by apply (iv_inotify_term_not_initialised 1 s (mk_in 0 ∅ TermUninit)). Defined.
