(* ===== verification/Popen.v ===== *)
(** * Child processes with a pipe (iv_popen.c)

    A request forks a child that has one end of a pipe as its standard input or output.
    What must outlive the request is in a [struct iv_popen_running_child]: after
    [iv_popen_request_close] its timer sends signals until the child is gone. *)

From Stdlib Require Import String.
From S2P Require Import Prelude Sys Timer.

Local Open Scope Z_scope.

Definition SIGTERM : Z := 15.
Definition SIGKILL : Z := 9.
Definition MAX_SIGTERM_COUNT : Z := 5.
Definition SIGNAL_INTERVAL : Z := 5.
Definition INT_MAX : Z := 2^31 - 1.
(** [WIFEXITED] and [WIFSIGNALED] of sys/wait.h. *)
Definition WIFEXITED (status : Z) : bool := Z.land status 0x7f =? 0.
Definition WIFSIGNALED (status : Z) : bool := negb (Z.land status 0x7f =? 0) && negb (Z.land status 0x7f =? 0x7f).

(** [child] is [None] in memory nobody wrote to. *)
Record iv_popen_request := mk_rq { rq_type : string; rq_child : option ptr }.
Definition set_rq_child (v : option ptr) (o : iv_popen_request) : iv_popen_request := mk_rq (rq_type o) v.

(** [wait] is registered or not; [parent], [signal_timer] and [num_kills] are [None] in
    memory nobody wrote to; the timer is not registered, or is with its [expires].  For the
    proofs, children are numbered. *)
Record iv_popen_running_child := mk_ch {
  ch_wait : bool; ch_parent : option ptr; ch_timer : option (option timespec); ch_num_kills : option Z; ch_id : nat }.
Definition set_ch_wait (v : bool) (o : iv_popen_running_child) := mk_ch v (ch_parent o) (ch_timer o) (ch_num_kills o) (ch_id o).
Definition set_ch_parent (v : option ptr) (o : iv_popen_running_child) := mk_ch (ch_wait o) v (ch_timer o) (ch_num_kills o) (ch_id o).
Definition set_ch_timer (v : option (option timespec)) (o : iv_popen_running_child) := mk_ch (ch_wait o) (ch_parent o) v (ch_num_kills o) (ch_id o).
Definition set_ch_num_kills (v : option Z) (o : iv_popen_running_child) := mk_ch (ch_wait o) (ch_parent o) (ch_timer o) v (ch_id o).

(** malloc, pipe(2), the results of [iv_wait_interest_register_spawn] and
    [iv_wait_interest_kill] (iv_wait.c) for a child, and the time. *)
Class PopenKernel (W : Type) := {
  po_malloc : gset loc -> W -> option loc * W;
  po_pipe : gset Z -> W -> sysres (Z * Z) * W;
  po_spawn : nat -> W -> Z * W;
  po_kill : nat -> Z -> W -> Z * W;
  po_time : W -> timespec }.

(** The requests, the children's memory, the open descriptors of the process; for the
    proofs, how many children there were, the signals sent (child, signal and time) and
    the requests submitted and not closed. *)
Record popen_state (W : Type) := mk_po {
  pp_requests : gmap loc iv_popen_request; pp_children : gmap loc iv_popen_running_child; pp_open : gset Z;
  pp_count : nat; pp_sent : list (nat * Z * timespec); pp_active : gset loc; pp_w : W }.
Arguments mk_po {_}.
Arguments pp_requests {_} _.
Arguments pp_children {_} _.
Arguments pp_open {_} _.
Arguments pp_count {_} _.
Arguments pp_sent {_} _.
Arguments pp_active {_} _.
Arguments pp_w {_} _.

Section popen.
Context {W : Type} `{!PopenKernel W}.
Abbreviation St := (popen_state W).

Definition set_pp_requests (v : gmap loc iv_popen_request) (s : St) : St := mk_po v (pp_children s) (pp_open s) (pp_count s) (pp_sent s) (pp_active s) (pp_w s).
Definition set_pp_children (v : gmap loc iv_popen_running_child) (s : St) : St := mk_po (pp_requests s) v (pp_open s) (pp_count s) (pp_sent s) (pp_active s) (pp_w s).
Definition set_pp_open (v : gset Z) (s : St) : St := mk_po (pp_requests s) (pp_children s) v (pp_count s) (pp_sent s) (pp_active s) (pp_w s).
Definition set_pp_count (v : nat) (s : St) : St := mk_po (pp_requests s) (pp_children s) (pp_open s) v (pp_sent s) (pp_active s) (pp_w s).
Definition set_pp_sent (v : list (nat * Z * timespec)) (s : St) : St := mk_po (pp_requests s) (pp_children s) (pp_open s) (pp_count s) v (pp_active s) (pp_w s).
Definition set_pp_active (v : gset loc) (s : St) : St := mk_po (pp_requests s) (pp_children s) (pp_open s) (pp_count s) (pp_sent s) v (pp_w s).
Definition set_pp_w (v : W) (s : St) : St := mk_po (pp_requests s) (pp_children s) (pp_open s) (pp_count s) (pp_sent s) (pp_active s) v.

Definition kernel {A} (call : W -> A * W) : M St A := fun s => let '(a, w) := call (pp_w s) in Ok (a, set_pp_w w s).
Definition load_request (r : loc) : M St iv_popen_request := m ← gets pp_requests; deref (m !! r).
Definition upd_request (r : loc) (g : iv_popen_request -> iv_popen_request) : M St unit :=
  o ← load_request r; modify (fun s => set_pp_requests (<[r := g o]> (pp_requests s)) s).
Definition load_child (ch : loc) : M St iv_popen_running_child := m ← gets pp_children; deref (m !! ch).
Definition upd_child (ch : loc) (g : iv_popen_running_child -> iv_popen_running_child) : M St unit :=
  o ← load_child ch; modify (fun s => set_pp_children (<[ch := g o]> (pp_children s)) s).
(** [free(ch)].  The heap of timers and the tree of interests point into the child while
    its timer or its interest is registered, and the event loop follows them: freeing it
    then is undefined. *)
Definition unlinked (o : iv_popen_running_child) : bool :=
  negb (ch_wait o) && match ch_timer o with Some (Some _) => false | _ => true end.
Definition free_child (ch : loc) : M St unit :=
  o ← load_child ch;
  if unlinked o then modify (fun s => set_pp_children (delete ch (pp_children s)) s) else undef.
Definition close_fd (fd : Z) : M St unit := modify (fun s => set_pp_open (pp_open s ∖ {[fd]}) s).

(** What the calls of iv_wait.c and iv_timer.c ask for: an interest that is registered is
    unregistered, a timer that was initialised is registered or unregistered, or they
    abort when it is already, or not. *)
Definition interest_unregister (ch : loc) : M St unit :=
  o ← load_child ch; if ch_wait o then upd_child ch (set_ch_wait false) else undef.
Definition timer_register (ch : loc) (expires : timespec) : M St unit :=
  o ← load_child ch; t ← deref (ch_timer o);
  match t with
  | None => upd_child ch (set_ch_timer (Some (Some expires)))
  | Some _ => iv_fatal "iv_timer_register: called with timer still on the heap"
  end.
Definition timer_unregister (ch : loc) : M St unit :=
  o ← load_child ch; t ← deref (ch_timer o);
  match t with
  | Some _ => upd_child ch (set_ch_timer (Some None))
  | None => iv_fatal "iv_timer_unregister: called with timer not on the heap"
  end.

(** ** The operations *)
Definition iv_popen_running_child_wait (ch : loc) (status : Z) : M St unit :=
  if negb (WIFEXITED status) && negb (WIFSIGNALED status) then mret tt
  else
    interest_unregister ch;;
    o ← load_child ch;
    parent ← deref (ch_parent o);
    (match parent with
     | Some r => upd_request r (set_rq_child (Some None))
     | None => timer_unregister ch
     end);;
    free_child ch.

Definition iv_popen_request_submit (this : loc) : M St Z :=
  used ← gets (fun s => dom (pp_children s));
  ch ← kernel (po_malloc used);
  match ch with
  | None => mret (-1)
  | Some ch =>
      n ← gets pp_count;
      modify (fun s => set_pp_children (<[ch := mk_ch false None None None n]> (pp_children s)) s);;
      r ← load_request this;
      let for_read := String.eqb (rq_type r) "r" in
      if negb for_read && negb (String.eqb (rq_type r) "w") then free_child ch;; mret (-1)
      else
        fds ← gets pp_open;
        data_pipe ← kernel (po_pipe fds);
        match data_pipe with
        | inr _ => free_child ch;; mret (-1)
        | inl (p0, p1) =>
            modify (fun s => set_pp_open ({[p0; p1]} ∪ pp_open s) s);;
            upd_child ch (set_ch_parent (Some (Some this)));;
            ret ← kernel (po_spawn n);
            if ret <? 0 then
              close_fd p1;; close_fd p0;; free_child ch;; mret (-1)
            else
              modify (set_pp_count (Datatypes.S n));;
              upd_child ch (set_ch_wait true);;
              upd_request this (set_rq_child (Some (Some ch)));;
              if for_read then close_fd p1;; mret p0 else close_fd p0;; mret p1
        end
  end.

Definition iv_popen_running_child_timer (ch : loc) : M St unit :=
  o ← load_child ch;
  k ← deref (ch_num_kills o);
  (if k <? INT_MAX then upd_child ch (set_ch_num_kills (Some (k + 1))) else undef);;
  let signum := if k <? MAX_SIGTERM_COUNT then SIGTERM else SIGKILL in
  modify (fun s => set_pp_sent (pp_sent s ++ [(ch_id o, signum, po_time (pp_w s))]) s);;
  ret ← kernel (po_kill (ch_id o) signum);
  if ret <? 0 then interest_unregister ch;; free_child ch
  else
    now ← gets (fun s => po_time (pp_w s));
    timer_register ch (mk_tsp (tv_sec now + SIGNAL_INTERVAL) (tv_nsec now)).

Definition iv_popen_request_close (this : loc) : M St unit :=
  r ← load_request this;
  child ← deref (rq_child r);
  match child with
  | None => mret tt
  | Some ch =>
      upd_child ch (set_ch_parent (Some None));;
      upd_child ch (set_ch_timer (Some None));;
      now ← gets (fun s => po_time (pp_w s));
      timer_register ch now;;
      upd_child ch (set_ch_num_kills (Some 0))
  end.

(** ** In the event loop *)

(** What the client does; the world changes; a status arrives for a child whose interest
    is registered; a timer that is due is taken off the heap and its handler called. *)
Inductive popen_step :=
  | PNew (r : loc) (type : string) | PFree (r : loc) | PSubmit (r : loc) | PClose (r : loc)
  | PWorld (w : W) | PStatus (ch : loc) (status : Z) | PTimer (ch : loc).
Definition ns (t : timespec) : Z := tv_sec t * 10^9 + tv_nsec t.
Definition popen_legal (c : popen_step) (s : St) : bool :=
  match c with
  | PNew r _ | PFree r => bool_decide (r ∉ pp_active s)
  | PSubmit r => bool_decide (r ∉ pp_active s) && bool_decide (is_Some (pp_requests s !! r))
  | PClose r => bool_decide (r ∈ pp_active s)
  | PWorld _ => true
  | PStatus ch _ => match pp_children s !! ch with Some o => ch_wait o | None => false end
  | PTimer ch => match pp_children s !! ch with
      | Some o => match ch_timer o with Some (Some t) => ns t <=? ns (po_time (pp_w s)) | _ => false end
      | None => false
      end
  end.
Definition run_popen_step (c : popen_step) : M St unit :=
  ok ← gets (popen_legal c);
  if negb ok then mret tt
  else match c with
  | PNew r type => modify (fun s => set_pp_requests (<[r := mk_rq type None]> (pp_requests s)) s)
  | PFree r => modify (fun s => set_pp_requests (delete r (pp_requests s)) s)
  | PSubmit r => ret ← iv_popen_request_submit r; when (0 <=? ret) (modify (fun s => set_pp_active ({[r]} ∪ pp_active s) s))
  | PClose r => iv_popen_request_close r;; modify (fun s => set_pp_active (pp_active s ∖ {[r]}) s)
  | PWorld w => modify (set_pp_w w)
  | PStatus ch status => iv_popen_running_child_wait ch status
  | PTimer ch => upd_child ch (set_ch_timer (Some None));; iv_popen_running_child_timer ch
  end.
Fixpoint run_popen (p : list popen_step) : M St unit :=
  match p with [] => mret tt | c :: p => run_popen_step c;; run_popen p end.
Definition popen_boot (w : W) : St := mk_po ∅ ∅ ∅ 0 [] ∅ w.
End popen.

(** ** In the child: [iv_popen_child] up to the [execvp], on its descriptor table *)
Inductive file := FDevNull | FPipeRead | FPipeWrite | FOther (n : Z).
Abbreviation fd_table := (gmap Z file).
(** open(2) of /dev/null takes the lowest free descriptor, unless it fails. *)
Fixpoint lowest_free (fuel : nat) (n : Z) (t : fd_table) : Z :=
  match fuel with
  | O => n
  | Datatypes.S fuel => match t !! n with None => n | Some _ => lowest_free fuel (n + 1) t end
  end.
Definition child_open (fails : bool) : M fd_table (option Z) :=
  t ← gets (fun t => t);
  if fails then mret None
  else let fd := lowest_free (size t) 0 t in modify (<[fd := FDevNull]>);; mret (Some fd).
Definition child_dup2 (old new : Z) : M fd_table unit :=
  modify (fun t => match t !! old with Some f => <[new := f]> t | None => t end).
Definition child_close (fd : Z) : M fd_table unit := modify (delete fd).
Definition iv_popen_child (fails for_read : bool) (p0 p1 : Z) : M fd_table unit :=
  devnull ← child_open fails;
  match devnull with
  | None => iv_fatal "iv_popen_child: got error opening /dev/null"
  | Some devnull =>
      (if for_read then child_dup2 devnull 0;; child_dup2 p1 1;; child_dup2 devnull 2
       else child_dup2 p0 0;; child_dup2 devnull 1;; child_dup2 devnull 2);;
      child_close p0;; child_close p1;; child_close devnull
  end.
