(* ===== verification/PopenProps.v ===== *)
(** * What iv_popen.c guarantees *)

From Stdlib Require Import String.
From S2P Require Import Prelude Sys Timer Popen.

Local Open Scope Z_scope.

(** Memory and descriptors handed out are new; time does not go back during a call. *)
Class PopenLaws (W : Type) `{!PopenKernel W} : Prop := {
  pl_malloc : forall used w a w', po_malloc used w = (Some a, w') -> a ∉ used;
  pl_pipe : forall fds w p0 p1 w', po_pipe fds w = (inl (p0, p1), w') -> 0 <= p0 /\ 0 <= p1 /\ p0 <> p1 /\ p0 ∉ fds /\ p1 ∉ fds;
  pl_kill : forall i signum w, ns (po_time w) <= ns (po_time (po_kill i signum w).2) }.

(** No call of a program aborts. *)
Definition never (e : string) : Prop := False.

Section props.
Context {W : Type} `{!PopenKernel W, HL : !PopenLaws W}.
Abbreviation St := (popen_state W).
Implicit Types (s : St) (r ch : loc) (i : nat).

(** The signals sent to a child. *)
Definition sent_to i s : list (Z * timespec) :=
  omap (fun e : nat * Z * timespec => if decide (e.1.1 = i) then Some (e.1.2, e.2) else None) (pp_sent s).
Definition interval : Z := SIGNAL_INTERVAL * 10^9.
(** From the [k]th signal on: five times SIGTERM, then SIGKILL, with five seconds or more
    between any two. *)
Fixpoint escalation (k : Z) (l : list (Z * timespec)) : Prop :=
  match l with
  | [] => True
  | (signum, t) :: l => signum = (if k <? MAX_SIGTERM_COUNT then SIGTERM else SIGKILL) /\
      (match l with (_, t2) :: _ => ns t + interval <= ns t2 | [] => True end) /\ escalation (k + 1) l
  end.
(** A signal sent at [t] is five seconds or more after the last of [l]. *)
Definition due (l : list (Z * timespec)) (t : timespec) : Prop :=
  match last l with Some (_, t0) => ns t0 + interval <= ns t | None => True end.

Lemma escalation_snoc l : forall k signum t, escalation k l -> due l t ->
  signum = (if k + Z.of_nat (length l) <? MAX_SIGTERM_COUNT then SIGTERM else SIGKILL) -> escalation k (l ++ [(signum, t)]).
Proof.
  induction l as [|[g u] l IH]; intros k signum t He Hd Hs; cbn [app escalation length] in *.
  - by rewrite Z.add_0_r in Hs.
  - destruct He as (Hg&Hu&He). split_and!; [done| |].
    + destruct l as [|[g2 u2] l]; [exact Hd|exact Hu].
    + apply IH; [done| |replace (k + 1 + Z.of_nat (length l)) with (k + Z.of_nat (Datatypes.S (length l))) by lia; exact Hs]. unfold due in *. destruct l as [|x l]; [done|].
      by rewrite last_cons_cons in Hd.
Qed.

Record child_ok s ch (o : iv_popen_running_child) : Prop := {
  co_wait : ch_wait o = true;
  co_id : (ch_id o < pp_count s)%nat;
  co_state : match ch_parent o with
    | None => False
    | Some (Some r) => r ∈ pp_active s /\ (exists ro, pp_requests s !! r = Some ro /\ rq_child ro = Some (Some ch)) /\
        sent_to (ch_id o) s = [] /\ ch_timer o = None
    | Some None => exists t k, ch_timer o = Some (Some t) /\ ch_num_kills o = Some k /\ k = Z.of_nat (length (sent_to (ch_id o) s)) /\
        due (sent_to (ch_id o) s) t
    end }.
Record popen_ok s : Prop := {
  po_children : forall ch o, pp_children s !! ch = Some o -> child_ok s ch o;
  po_ids : forall ch1 ch2 o1 o2, pp_children s !! ch1 = Some o1 -> pp_children s !! ch2 = Some o2 -> ch_id o1 = ch_id o2 -> ch1 = ch2;
  po_active : forall r, r ∈ pp_active s -> exists ro p, pp_requests s !! r = Some ro /\ rq_child ro = Some p /\
    forall ch, p = Some ch -> exists o, pp_children s !! ch = Some o /\ ch_parent o = Some (Some r);
  po_new : forall i, (pp_count s <= i)%nat -> sent_to i s = [];
  po_sent : forall i, escalation 0 (sent_to i s) }.

(** A child that is gone is not signalled any more. *)
Definition gone i s : Prop := forall ch o, pp_children s !! ch = Some o -> ch_id o <> i.
Record moves s s' : Prop := {
  mo_count : (pp_count s <= pp_count s')%nat;
  mo_sent : (length (pp_sent s') <= Datatypes.S (length (pp_sent s)))%nat;
  mo_gone : forall i, (i < pp_count s)%nat -> gone i s -> gone i s' /\ sent_to i s' = sent_to i s }.
Lemma moves_same s s' : pp_children s' = pp_children s -> pp_count s' = pp_count s -> pp_sent s' = pp_sent s -> moves s s'.
Proof. intros H1 H2 H3. split; [lia|rewrite H3; lia|]. intros i Hi Hg. unfold gone, sent_to in *. by rewrite H1, H3. Qed.

Lemma load_request_Ok s r o : pp_requests s !! r = Some o -> load_request r s = Ok (o, s).
Proof. intros H. unfold load_request. msimpl. by rewrite H. Qed.
Lemma load_child_Ok s ch o : pp_children s !! ch = Some o -> load_child ch s = Ok (o, s).
Proof. intros H. unfold load_child. msimpl. by rewrite H. Qed.
Lemma upd_request_Ok s r o g : pp_requests s !! r = Some o -> upd_request r g s = Ok (tt, set_pp_requests (<[r := g o]> (pp_requests s)) s).
Proof. intros H. unfold upd_request. by mrun (load_request_Ok s r o H). Qed.
Lemma upd_child_Ok s ch o g : pp_children s !! ch = Some o -> upd_child ch g s = Ok (tt, set_pp_children (<[ch := g o]> (pp_children s)) s).
Proof. intros H. unfold upd_child. by mrun (load_child_Ok s ch o H). Qed.
Lemma free_child_Ok s ch o : pp_children s !! ch = Some o -> unlinked o = true ->
  free_child ch s = Ok (tt, set_pp_children (delete ch (pp_children s)) s).
Proof. intros H Hu. unfold free_child. mrun (load_child_Ok s ch o H). by rewrite Hu. Qed.
Lemma po_kernel_Ok {A} (call : W -> A * W) s a (w' : W) : call (pp_w s) = (a, w') -> kernel call s = Ok (a, set_pp_w w' s).
Proof. intros H. unfold kernel. by rewrite H. Qed.
Lemma interest_unregister_Ok s ch o : pp_children s !! ch = Some o -> ch_wait o = true ->
  interest_unregister ch s = Ok (tt, set_pp_children (<[ch := set_ch_wait false o]> (pp_children s)) s).
Proof. intros H Hw. unfold interest_unregister. mrun (load_child_Ok s ch o H). rewrite Hw. by apply upd_child_Ok. Qed.

Lemma popen_ok_world s (w' : W) : popen_ok s -> popen_ok (set_pp_w w' s).
Proof. intros [H1 H2 H3 H4 H5]. split; [|exact H2|exact H3|exact H4|exact H5]. intros ch o Ho. destruct (H1 ch o Ho) as [Hw Hi Hst]. by split. Qed.

(** A child is freed. *)
Lemma child_gone s ch o requests : popen_ok s -> pp_children s !! ch = Some o ->
  (match ch_parent o with
   | Some (Some r) => exists ro, pp_requests s !! r = Some ro /\ requests = <[r := set_rq_child (Some None) ro]> (pp_requests s)
   | _ => requests = pp_requests s end) ->
  popen_ok (set_pp_children (delete ch (pp_children s)) (set_pp_requests requests s)).
Proof.
  intros [H1 H2 H3 H4 H5] Ho Hreq. pose proof (H1 ch o Ho) as [_ _ Hst]. split; [| | |exact H4|exact H5].
  - intros ch' o' Hl. cbn in Hl. apply lookup_delete_Some in Hl as [Hne Ho']. destruct (H1 ch' o' Ho') as [Hw Hi Hs]. split; [done|done|].
    destruct (ch_parent o') as [[r'|]|] eqn:Ep; [|exact Hs|exact Hs]. destruct Hs as (Ha&(ro&Hro&Hc)&Hn). split; [done|]. split; [|done]. cbn.
    destruct (ch_parent o) as [[r|]|]; [|subst requests; by exists ro|done]. destruct Hreq as (ro2&Hro2&->). exists ro.
    rewrite lookup_insert_ne; [done|]. intros ->. destruct Hst as (_&(ro3&Hro3&Hc3)&_). congruence.
  - intros ch1 ch2 o1 o2 Hc1 Hc2. cbn in Hc1, Hc2. apply lookup_delete_Some in Hc1 as [_ Hc1], Hc2 as [_ Hc2]. by apply H2.
  - intros r' Hr'. destruct (H3 r' Hr') as (ro&p&Hro&Hp&Hch).
    assert (forall ro' p', requests !! r' = Some ro' -> rq_child ro' = Some p' -> p' = None \/ p' = p /\ p <> Some ch ->
      exists ro0 p0, requests !! r' = Some ro0 /\ rq_child ro0 = Some p0 /\ forall ch', p0 = Some ch' -> exists o', delete ch (pp_children s) !! ch' = Some o' /\ ch_parent o' = Some (Some r')) as Hend.
    { intros ro' p' E1 E2 Hp'. exists ro', p'. split_and!; [done|done|]. intros ch' ->. destruct Hp' as [[=]|[<- Hne]].
      destruct (Hch ch' eq_refl) as (o'&Ho'&Ep'). exists o'. rewrite lookup_delete_ne; [done|]. congruence. }
    destruct (ch_parent o) as [[r|]|] eqn:Ep; [|subst requests|done].
    + destruct Hreq as (ro2&Hro2&->). destruct (decide (r' = r)) as [->|Hne].
      * apply (Hend (set_rq_child (Some None) ro2) None); [apply lookup_insert_eq|done|by left].
      * apply (Hend ro p); [by rewrite lookup_insert_ne|done|]. right. split; [done|]. intros ->. destruct (Hch ch eq_refl) as (o'&Ho'&Ep'). congruence.
    + apply (Hend ro p); [done|done|]. right. split; [done|]. intros ->. destruct (Hch ch eq_refl) as (o'&Ho'&Ep'). congruence.
Qed.

Lemma moves_delete s s' ch : pp_children s' = delete ch (pp_children s) -> pp_count s' = pp_count s -> pp_sent s' = pp_sent s -> moves s s'.
Proof.
  intros H1 H2 H3. split; [lia|rewrite H3; lia|]. intros i Hi Hg. unfold gone, sent_to in *. rewrite H1, H3. split; [|done].
  intros ch' o' [_ Ho']%lookup_delete_Some. by eapply Hg.
Qed.

Lemma status_ok s ch status : popen_ok s -> popen_legal (PStatus ch status) s = true ->
  wp never (iv_popen_running_child_wait ch status) s (fun _ s' => popen_ok s' /\ moves s s').
Proof.
  intros Hok Hl. cbn in Hl. destruct (pp_children s !! ch) as [o|] eqn:Ho; [|done]. unfold iv_popen_running_child_wait.
  destruct (_ && _); [eapply wp_Ok; [reflexivity|]; split; [done|by apply moves_same]|].
  wrun (interest_unregister_Ok s ch o Ho Hl). set (s1 := set_pp_children _ s).
  assert (pp_children s1 !! ch = Some (set_ch_wait false o)) as H1 by apply lookup_insert_eq.
  wrun (load_child_Ok s1 ch _ H1). cbn [ch_parent set_ch_wait]. pose proof (po_children _ Hok ch o Ho) as [_ _ Hst].
  assert (forall requests children, children = delete ch (pp_children s) ->
    (match ch_parent o with Some (Some r) => exists ro, pp_requests s !! r = Some ro /\ requests = <[r := set_rq_child (Some None) ro]> (pp_requests s)
     | _ => requests = pp_requests s end) ->
    popen_ok (set_pp_children children (set_pp_requests requests s)) /\ moves s (set_pp_children children (set_pp_requests requests s))) as Hend.
  { intros requests children -> Hr. split; [by eapply child_gone|by eapply moves_delete]. }
  destruct (ch_parent o) as [[r|]|]; [| |done]; wprim.
  - destruct Hst as (_&(ro&Hro&_)&_&Htm). wbind. wrun (upd_request_Ok s1 r ro (set_rq_child (Some None)) Hro).
    eapply wp_Ok; [apply (free_child_Ok _ ch (set_ch_wait false o)); [exact H1|unfold unlinked; cbn; by rewrite Htm]|].
    apply (Hend (<[r := set_rq_child (Some None) ro]> (pp_requests s)) (delete ch (<[ch := set_ch_wait false o]> (pp_children s)))); [apply delete_insert_eq|by exists ro].
  - destruct Hst as (t&k&Ht&_). unfold timer_unregister. wbind. wrun (load_child_Ok s1 ch _ H1). cbn [ch_timer set_ch_wait]. rewrite Ht. wprim.
    wrun (upd_child_Ok s1 ch _ (set_ch_timer (Some None)) H1). eapply wp_Ok; [apply (free_child_Ok _ ch (set_ch_timer (Some None) (set_ch_wait false o))); [apply lookup_insert_eq|done]|].
    apply (Hend (pp_requests s) (delete ch (<[ch := set_ch_timer (Some None) (set_ch_wait false o)]> (<[ch := set_ch_wait false o]> (pp_children s))))); [by rewrite !delete_insert_eq|done].
Qed.

(** What submitting does. *)
Definition submitted (this : loc) s (ret : Z) s' : Prop :=
  (ret = -1 /\ exists w', s' = set_pp_w w' s) \/
  exists w' ch p0 p1 ro, pp_requests s !! this = Some ro /\ ch ∉ dom (pp_children s) /\ p0 <> p1 /\ p0 ∉ pp_open s /\ p1 ∉ pp_open s /\
    ((rq_type ro = "r"%string /\ ret = p0) \/ (rq_type ro = "w"%string /\ ret = p1)) /\ 0 <= ret /\
    s' = mk_po (<[this := set_rq_child (Some (Some ch)) ro]> (pp_requests s))
      (<[ch := mk_ch true (Some (Some this)) None None (pp_count s)]> (pp_children s)) ({[ret]} ∪ pp_open s)
      (Datatypes.S (pp_count s)) (pp_sent s) (pp_active s) w'.

Lemma submit_undone this s ch b (w' : W) children : pp_children s !! ch = None -> unlinked b = true -> children = <[ch := b]> (pp_children s) ->
  wp never (free_child ch;; mret (-1)) (set_pp_w w' (set_pp_children children s)) (fun ret s' => submitted this s ret s').
Proof.
  intros Hch Hu ->. wrun (free_child_Ok (set_pp_w w' (set_pp_children (<[ch := b]> (pp_children s)) s)) ch b (lookup_insert_eq _ _ _) Hu).
  eapply wp_Ok; [reflexivity|]. left. split; [done|]. exists w'. cbn [pp_children set_pp_w set_pp_children]. rewrite delete_insert_id by done. by destruct s.
Qed.

Lemma submit_spec this s : is_Some (pp_requests s !! this) -> wp never (iv_popen_request_submit this) s (fun ret s' => submitted this s ret s').
Proof.
  intros [ro Hro]. unfold iv_popen_request_submit. wprim.
  destruct (po_malloc (dom (pp_children s)) (pp_w s)) as [m w1] eqn:Em. wrun (po_kernel_Ok _ s m w1 Em).
  destruct m as [ch|]; [|eapply wp_Ok; [reflexivity|]; left; split; [done|by exists w1]]. pose proof (pl_malloc _ _ _ _ Em) as Hch.
  apply not_elem_of_dom in Hch. do 2 wprim. match goal with |- wp _ _ ?st _ => set (s1 := st) end. wrun (load_request_Ok s1 this ro Hro). cbv zeta.
  destruct (negb _ && negb _) eqn:Ety; [by apply (submit_undone this s ch (mk_ch false None None None (pp_count s)) w1)|]. wprim.
  destruct (po_pipe (pp_open s) w1) as [r w2] eqn:Ep. wrun (po_kernel_Ok (po_pipe (pp_open s)) s1 r w2 Ep).
  destruct r as [[p0 p1]|e]; [|by apply (submit_undone this s ch (mk_ch false None None None (pp_count s)) w2)].
  destruct (pl_pipe _ _ _ _ _ Ep) as (H0&H1&Hne&Hf0&Hf1). wprim. match goal with |- wp _ _ ?st _ => set (s2 := st) end.
  assert (pp_children s2 !! ch = Some (mk_ch false None None None (pp_count s))) as Hc2 by apply lookup_insert_eq.
  wrun (upd_child_Ok s2 ch _ (set_ch_parent (Some (Some this))) Hc2). match goal with |- wp _ _ ?st _ => set (s3 := st) end.
  destruct (po_spawn (pp_count s) w2) as [r w4] eqn:Es. wrun (po_kernel_Ok (po_spawn (pp_count s)) s3 r w4 Es). destruct (Z.ltb_spec r 0).
  - do 2 wprim. match goal with |- wp _ _ ?st _ => replace st with (set_pp_w w4 (set_pp_children (pp_children s3) s)) end.
    + apply (submit_undone this s ch (mk_ch false (Some (Some this)) None None (pp_count s)) w4); [done|done|]. subst s3 s2 s1. cbn. by rewrite insert_insert_eq.
    + subst s3 s2 s1. unfold set_pp_w, set_pp_children, set_pp_open. cbn. f_equal. set_solver.
  - wprim. match goal with |- wp _ _ ?st _ => set (s4 := st) end. 
    assert (pp_children s4 !! ch = Some (mk_ch false (Some (Some this)) None None (pp_count s))) as Hc4 by apply lookup_insert_eq.
    wrun (upd_child_Ok s4 ch _ (set_ch_wait true) Hc4). match goal with |- wp _ _ ?st _ => set (s5 := st) end.
    wrun (upd_request_Ok s5 this ro (set_rq_child (Some (Some ch))) Hro).
    assert (forall ret, (rq_type ro = "r"%string /\ ret = p0) \/ (rq_type ro = "w"%string /\ ret = p1) -> forall fds, fds = {[ret]} ∪ pp_open s ->
      submitted this s ret (set_pp_open fds (set_pp_requests (<[this := set_rq_child (Some (Some ch)) ro]> (pp_requests s)) s5))) as Hend.
    { intros ret Hty fds ->. right. exists w4, ch, p0, p1, ro. split_and!; try done; [by apply not_elem_of_dom|destruct Hty as [[_ ->] | [_ ->]]; lia|].
      subst s5 s4 s3 s2 s1. cbv beta iota delta [set_pp_w set_pp_children set_pp_open set_pp_requests set_pp_count pp_w pp_children pp_open pp_requests pp_count pp_sent pp_active].
      by rewrite !insert_insert_eq. }
    unfold close_fd. destruct (String.eqb_spec (rq_type ro) "r") as [E|E].
    + wprim. eapply wp_Ok; [reflexivity|]. apply Hend; [by left|]. subst s5 s4 s3 s2 s1. cbn. set_solver.
    + wprim. eapply wp_Ok; [reflexivity|]. apply Hend; [right; split; [cbn in Ety; by apply negb_false_iff, String.eqb_eq in Ety|done]|]. subst s5 s4 s3 s2 s1. cbn. set_solver.
Qed.

(** A submitted request's child is the newest. *)
Lemma submit_ok r s ret s' : popen_ok s -> r ∉ pp_active s -> submitted r s ret s' ->
  (ret = -1 /\ popen_ok s' /\ moves s s') \/
  0 <= ret /\ popen_ok (set_pp_active ({[r]} ∪ pp_active s') s') /\ moves s s'.
Proof.
  intros Hok Hr [(->&w'&->)|(w'&ch&p0&p1&ro&Hro&Hch&_&_&_&_&Hret&->)].
  - left. split; [done|]. split; [by apply popen_ok_world|by apply moves_same].
  - right. split; [done|]. apply not_elem_of_dom in Hch. pose proof (po_new _ Hok (pp_count s) (le_n _)) as Hnew.
    assert (forall ch' o', pp_children s !! ch' = Some o' -> ch' <> ch /\ (ch_id o' < pp_count s)%nat) as Hold.
    { intros ch' o' Ho'. split; [congruence|apply (po_children _ Hok ch' o' Ho')]. }
    destruct Hok as [H1 H2 H3 H4 H5]. split.
    + split; [| | |intros i Hi; apply (H4 i); cbn in Hi; lia|exact H5].
      * intros ch' o'. cbn. intros [[<- <-]|[Hne Ho']]%lookup_insert_Some.
        -- split; [done|cbn; lia|]. cbn. split; [set_solver|]. split; [|done]. eexists. by rewrite lookup_insert_eq.
        -- destruct (H1 ch' o' Ho') as [Hw Hi Hst]. split; [done|cbn; lia|]. destruct (ch_parent o') as [[r'|]|]; [|exact Hst|exact Hst].
           destruct Hst as (Ha&Hx&Hn). split; [cbn; set_solver|]. split; [|done]. cbn. rewrite lookup_insert_ne; [done|]. by intros ->.
      * intros ch1 ch2 o1 o2. cbn. intros [[<- <-]|[Hne1 Ho1]]%lookup_insert_Some [[<- <-]|[Hne2 Ho2]]%lookup_insert_Some; [done| | |by eapply H2].
        -- intros E. cbn in E. pose proof (Hold ch2 o2 Ho2). lia.
        -- intros E. cbn in E. pose proof (Hold ch1 o1 Ho1). lia.
      * intros r'. cbn. intros [->%elem_of_singleton|Hr']%elem_of_union.
        -- eexists _, (Some ch). rewrite lookup_insert_eq. split_and!; [reflexivity|done|]. intros ? [= <-]. eexists. by rewrite lookup_insert_eq.
        -- destruct (H3 r' Hr') as (ro'&p&Hro'&Hp&Hpch). exists ro', p. split_and!; [rewrite lookup_insert_ne; [done|by intros ->]|done|].
           intros ch' E. destruct (Hpch ch' E) as (o'&Ho'&Ep). exists o'. split; [|done]. rewrite lookup_insert_ne; [done|]. pose proof (Hold ch' o' Ho') as [? _]. congruence.
    + split; [cbn; lia|cbn; lia|]. intros i Hi Hg. split; [|done]. intros ch' o'. cbn. intros [[<- <-]|[_ Ho']]%lookup_insert_Some; [cbn; lia|by eapply Hg].
Qed.

(** A signal to the child with number [i]. *)
Lemma sent_snoc s i signum t j sent : sent = pp_sent s ++ [(i, signum, t)] -> sent_to j (set_pp_sent sent s) = sent_to j s ++ (if decide (i = j) then [(signum, t)] else []).
Proof. intros ->. unfold sent_to. cbn [pp_sent set_pp_sent]. rewrite omap_app. cbn. by destruct (decide (i = j)). Qed.

Lemma sent_length s i : (length (sent_to i s) <= length (pp_sent s))%nat.
Proof. unfold sent_to. induction (pp_sent s) as [|e l IH]; cbn; [lia|]. destruct (decide _); cbn; lia. Qed.

(** The handler of a child's timer. *)
Definition signal_number (k : Z) : Z := if k <? MAX_SIGTERM_COUNT then SIGTERM else SIGKILL.
Definition signalled ch (o : iv_popen_running_child) k t s s' : Prop :=
  exists (w' : W) now children, let o' := mk_ch true (Some None) (Some (Some t)) (Some (k + 1)) (ch_id o) in
    s' = set_pp_w w' (set_pp_children children (set_pp_sent (pp_sent s ++ [(ch_id o, signal_number k, now)]) s)) /\
    now = po_time (pp_w s) /\ (children = delete ch (pp_children s) \/ children = <[ch := o']> (pp_children s) /\ ns now + interval <= ns t).

Lemma timer_ok s s' ch o k t t' : popen_ok s -> pp_children s !! ch = Some o -> ch_parent o = Some None -> ch_num_kills o = Some k ->
  ch_timer o = Some (Some t) -> ns t <= ns (po_time (pp_w s)) -> signalled ch o k t' s s' -> popen_ok s' /\ moves s s'.
Proof.
  intros Hok Ho Hp Hk Ht Hle (w'&now&children&->&Hnow&Hch). destruct Hok as [H1 H2 H3 H4 H5]. destruct (H1 ch o Ho) as [Hw Hi Hst].
  rewrite Hp in Hst. destruct Hst as (t0&k0&Ht0&Hk0&Hlen&Hdue). assert (t0 = t) as -> by congruence. assert (k0 = k) as -> by congruence.
  assert (forall ch' o', children !! ch' = Some o' -> ch' = ch /\ o' = mk_ch true (Some None) (Some (Some t')) (Some (k + 1)) (ch_id o) /\ ns now + interval <= ns t' \/
    ch' <> ch /\ pp_children s !! ch' = Some o' /\ ch_id o' <> ch_id o) as Hc.
  { intros ch' o' Ho'. destruct (decide (ch' = ch)) as [->|Hne].
    - left. split; [done|]. destruct Hch as [-> |[-> Hl]]; [by rewrite lookup_delete_eq in Ho'|]. rewrite lookup_insert_eq in Ho'. split; congruence.
    - right. assert (pp_children s !! ch' = Some o') as Hl by (destruct Hch as [-> |[-> _]]; [by rewrite lookup_delete_ne in Ho' by done|by rewrite lookup_insert_ne in Ho' by done]).
      split_and!; [done|done|]. intros E. apply Hne, (H2 ch' ch o' o Hl Ho E). }
  set (sent := pp_sent s ++ _). pose proof (sent_snoc s (ch_id o) (signal_number k) now) as Hsnoc. fold sent in Hsnoc.
  set (s' := set_pp_w w' _).
  assert (forall j, sent_to j s' = sent_to j s ++ (if decide (ch_id o = j) then [(signal_number k, now)] else [])) as Hs by (intros j; by apply Hsnoc).
  assert (forall j, ch_id o <> j -> sent_to j s' = sent_to j s) as Hother by (intros j Hj; rewrite Hs, decide_False by done; apply app_nil_r).
  assert (due (sent_to (ch_id o) s) now) as Hd by (unfold due in *; destruct (last _) as [[? ?]|]; [subst now; lia|done]).
  split.
  - split.
    + intros ch' o' Ho'. destruct (Hc ch' o' Ho') as [(->&->&Hl)|(Hne&Hl&Hid)].
      * split; [done|exact Hi|]. cbn [ch_parent ch_timer ch_num_kills ch_id]. exists t', (k + 1). rewrite Hs, decide_True by done. split_and!; [done|done| |].
        -- rewrite length_app. cbn. lia.
        -- unfold due. by rewrite last_snoc.
      * destruct (H1 ch' o' Hl) as [Hw' Hi' Hst']. split; [done|exact Hi'|]. by rewrite Hother by congruence.
    + intros ch1 ch2 o1 o2 Hc1 Hc2 E. destruct (Hc ch1 o1 Hc1) as [(->&->&_)|(Hne1&Hl1&Hid1)], (Hc ch2 o2 Hc2) as [(->&->&_)|(Hne2&Hl2&Hid2)]; [done|by cbn in E|by cbn in E|by eapply H2].
    + intros r Hr. destruct (H3 r Hr) as (ro&p&Hro&Hp'&Hpch). exists ro, p. split_and!; [done|done|]. intros ch' E. destruct (Hpch ch' E) as (o'&Ho'&Ep). exists o'.
      split; [|done]. cbn. assert (ch' <> ch) by congruence. destruct Hch as [-> |[-> _]]; [by rewrite lookup_delete_ne|by rewrite lookup_insert_ne].
    + intros i Hj. change (pp_count s <= i)%nat in Hj. rewrite Hother; [by apply H4|lia].
    + intros i. rewrite Hs. destruct (decide (ch_id o = i)) as [<-|Hne]; [|rewrite app_nil_r; apply H5]. apply escalation_snoc; [apply H5|done|].
      rewrite Hlen. unfold signal_number. by rewrite Z.add_0_l.
  - split; [done|subst s' sent; cbn; rewrite length_app; cbn; lia|]. intros i Hj Hg. split.
    + intros ch' o' Ho'. destruct (Hc ch' o' Ho') as [(->&->&_)|(Hne&Hl&Hid)]; [by apply (Hg ch o)|by apply (Hg ch' o')].
    + apply Hother. by apply (Hg ch o).
Qed.

Lemma timer_spec s ch o k : pp_children s !! ch = Some o -> ch_wait o = true -> ch_parent o = Some None -> ch_num_kills o = Some k -> k < INT_MAX ->
  is_Some (ch_timer o) ->
  wp never (upd_child ch (set_ch_timer (Some None));; iv_popen_running_child_timer ch) s (fun _ s' => exists t, signalled ch o k t s s').
Proof.
  intros Ho Hw Hp Hk Hlt _. wrun (upd_child_Ok s ch o (set_ch_timer (Some None)) Ho). unfold iv_popen_running_child_timer.
  set (s1 := set_pp_children _ s). set (o1 := set_ch_timer (Some None) o). assert (pp_children s1 !! ch = Some o1) as H1 by apply lookup_insert_eq.
  wrun (load_child_Ok s1 ch o1 H1). cbn [ch_num_kills set_ch_timer o1]. rewrite Hk. wprim. destruct (Z.ltb_spec k INT_MAX); [|lia].
  wrun (upd_child_Ok s1 ch o1 (set_ch_num_kills (Some (k + 1))) H1). cbv zeta. wprim. fold (signal_number k).
  match goal with |- wp _ _ ?st _ => set (s2 := st) end. set (o2 := set_ch_num_kills (Some (k + 1)) o1) in *.
  assert (pp_children s2 !! ch = Some o2) as H2 by apply lookup_insert_eq.
  destruct (po_kill (ch_id o) (signal_number k) (pp_w s)) as [ret w'] eqn:Ek. wrun (po_kernel_Ok (po_kill (ch_id o1) (signal_number k)) s2 ret w' Ek).
  set (s3 := set_pp_w w' s2). pose proof (pl_kill (ch_id o) (signal_number k) (pp_w s)) as Hkill. rewrite Ek in Hkill. cbn in Hkill.
  destruct (Z.ltb_spec ret 0).
  - wrun (interest_unregister_Ok s3 ch o2 H2 Hw). eapply wp_Ok; [apply (free_child_Ok _ ch (set_ch_wait false o2)); [apply lookup_insert_eq|done]|].
    exists (mk_tsp 0 0), w', (po_time (pp_w s)), (delete ch (pp_children s)). split_and!; [|done|by left].
    subst s3 s2 s1. cbv beta iota delta [set_pp_w set_pp_children set_pp_sent pp_w pp_children pp_open pp_requests pp_count pp_sent pp_active].
    by rewrite !delete_insert_eq.
  - wprim. unfold timer_register. wrun (load_child_Ok s3 ch o2 H2). cbn [ch_timer o2 o1 set_ch_num_kills set_ch_timer]. wprim.
    cbv iota.     match goal with |- wp _ (upd_child _ (set_ch_timer (Some (Some ?t)))) _ _ => set (t' := t) end.
    eapply wp_Ok; [apply (upd_child_Ok s3 ch o2 _ H2)|]. exists t', w', (po_time (pp_w s)), (<[ch := mk_ch true (Some None) (Some (Some t')) (Some (k + 1)) (ch_id o)]> (pp_children s)).
    split_and!; [|done|right; split; [done|]].
    + subst s3 s2 s1. cbv beta iota delta [set_pp_w set_pp_children set_pp_sent pp_w pp_children pp_open pp_requests pp_count pp_sent pp_active].
      rewrite !insert_insert_eq. unfold o2, o1, set_ch_timer, set_ch_num_kills. cbn. by rewrite Hw, Hp.
    + unfold t', ns, interval, SIGNAL_INTERVAL in *. cbn in *. lia.
Qed.

(** The request is closed: the timer is due. *)
Definition closed r s children : Prop :=
  (children = pp_children s /\ exists ro, pp_requests s !! r = Some ro /\ rq_child ro = Some None) \/
  exists ch o now, pp_children s !! ch = Some o /\ ch_parent o = Some (Some r) /\
    children = <[ch := mk_ch true (Some None) (Some (Some now)) (Some 0) (ch_id o)]> (pp_children s).
Lemma closed_ok s r children : popen_ok s -> closed r s children ->
  popen_ok (set_pp_active (pp_active s ∖ {[r]}) (set_pp_children children s)) /\ moves s (set_pp_active (pp_active s ∖ {[r]}) (set_pp_children children s)).
Proof.
  intros Hok Hc. pose proof (po_children _ Hok) as H1.
  assert (forall ch' o', children !! ch' = Some o' -> (exists o, pp_children s !! ch' = Some o /\ ch_id o = ch_id o') /\
    (ch_wait o' = true /\ (exists now, ch_parent o' = Some None /\ ch_timer o' = Some (Some now) /\ ch_num_kills o' = Some 0 /\ sent_to (ch_id o') s = []) \/
     pp_children s !! ch' = Some o' /\ ch_parent o' <> Some (Some r))) as Hl.
  { intros ch' o' Ho'. destruct Hc as [(->&ro&Hro&Hp)|(ch&o&now&Ho&Hp&->)].
    - split; [by exists o'|]. right. split; [done|]. intros E. destruct (H1 ch' o' Ho') as [_ _ Hst]. rewrite E in Hst.
      destruct Hst as (_&(ro'&?&?)&_). congruence.
    - destruct (H1 ch o Ho) as [Hw Hi Hst]. rewrite Hp in Hst. destruct Hst as (_&(ro&Hro&Hrc)&Hn&_).
      apply lookup_insert_Some in Ho' as [[<- <-]|[Hne Ho']]; [split; [by exists o|]; left; split; [done|]; by exists now|]. split; [by exists o'|]. right. split; [done|].
      intros E. destruct (H1 ch' o' Ho') as [_ _ Hst]. rewrite E in Hst. destruct Hst as (_&(ro'&?&?)&_). congruence. }
  destruct Hok as [_ H2 H3 H4 H5]. split; [split; [| | |exact H4|exact H5]|split; [done|cbn; lia|]].
  - intros ch' o' Ho'. destruct (Hl ch' o' Ho') as [(o&Ho&Hid) [(Hw&now&Hp&Ht&Hk&Hn)|(Ho2&Hp)]]; destruct (H1 ch' o Ho) as [Hw0 Hi Hst].
    + split; [done|cbn; lia|]. rewrite Hp. exists now, 0. split_and!; [done|done| |]; change (sent_to (ch_id o') _) with (sent_to (ch_id o') s); by rewrite Hn.
    + assert (o' = o) as -> by congruence. split; [done|done|]. destruct (ch_parent o) as [[r'|]|]; [|exact Hst|exact Hst].
      destruct Hst as (Ha&Hx). split; [|exact Hx]. cbn. assert (r' <> r) by congruence. set_solver.
  - intros ch1 ch2 o1 o2 Hc1 Hc2 E. destruct (Hl ch1 o1 Hc1) as [(p1&Hp1&Hi1) _], (Hl ch2 o2 Hc2) as [(p2&Hp2&Hi2) _]. apply (H2 ch1 ch2 p1 p2 Hp1 Hp2). congruence.
  - intros r' Hr'. cbn in Hr'. destruct (H3 r') as (ro&p&Hro&Hp&Hch); [set_solver|]. exists ro, p. split_and!; [done|done|]. intros ch' E.
    destruct (Hch ch' E) as (o'&Ho'&Ep). exists o'. split; [|done]. cbn. destruct Hc as [[-> _]|(ch&o&now&Ho&Hpo&->)]; [done|]. rewrite lookup_insert_ne; [done|].
    intros <-. assert (r' <> r) by set_solver. congruence.
  - intros i _ Hg. split; [|done]. intros ch' o' Ho'. destruct (Hl ch' o' Ho') as [(o&Ho&Hid) _]. rewrite <- Hid. by apply (Hg ch').
Qed.

Lemma close_ok s r : popen_ok s -> r ∈ pp_active s ->
  wp never (iv_popen_request_close r;; modify (fun s => set_pp_active (pp_active s ∖ {[r]}) s)) s (fun _ s' => popen_ok s' /\ moves s s').
Proof.
  intros Hok Hr. destruct (po_active _ Hok r Hr) as (ro&p&Hro&Hp&Hch). unfold iv_popen_request_close. wbind. wrun (load_request_Ok s r ro Hro). rewrite Hp. wprim.
  destruct p as [ch|]; cycle 1.
  - eapply wp_Ok; [reflexivity|]. eapply wp_Ok; [reflexivity|]. apply (closed_ok s r (pp_children s) Hok). left. split; [done|by exists ro].
  - destruct (Hch ch eq_refl) as (o&Ho&Ep). pose proof (co_wait _ _ _ (po_children _ Hok ch o Ho)) as Hw.
    wrun (upd_child_Ok s ch o (set_ch_parent (Some None)) Ho). match goal with |- wp _ _ ?st _ => set (s1 := st) end.
    wrun (upd_child_Ok s1 ch _ (set_ch_timer (Some None)) (lookup_insert_eq _ _ _)). match goal with |- wp _ _ ?st _ => set (s2 := st) end. wprim.
    unfold timer_register. wbind. wrun (load_child_Ok s2 ch _ (lookup_insert_eq _ _ _)). cbn [ch_timer set_ch_timer]. wprim.
    eapply wp_Ok; [apply (upd_child_Ok s2 ch _ _ (lookup_insert_eq _ _ _))|]. 
    match goal with |- wp _ _ ?st _ => set (s3 := st) end. eapply wp_Ok; [apply (upd_child_Ok s3 ch _ _ (lookup_insert_eq _ _ _))|]. 
    eapply wp_Ok; [reflexivity|].
    apply (closed_ok s r (<[ch := set_ch_num_kills (Some 0) (set_ch_timer (Some (Some (po_time (pp_w s)))) (set_ch_timer (Some None) (set_ch_parent (Some None) o)))]> (pp_children s3)) Hok).
    right. exists ch, o, (po_time (pp_w s)). split_and!; [done|done|].
    subst s3 s2 s1. cbv beta iota delta [set_pp_w set_pp_children pp_w pp_children].
    rewrite !insert_insert_eq. unfold set_ch_timer, set_ch_num_kills. cbn. by rewrite Hw.
Qed.

Lemma request_ok s requests : popen_ok s -> (forall r, r ∈ pp_active s -> requests !! r = pp_requests s !! r) -> popen_ok (set_pp_requests requests s).
Proof.
  intros [H1 H2 H3 H4 H5] Hr. split; [|exact H2| |exact H4|exact H5].
  - intros ch o Ho. destruct (H1 ch o Ho) as [Hw Hi Hst]. split; [done|done|]. destruct (ch_parent o) as [[r|]|]; [|exact Hst|exact Hst].
    destruct Hst as (Ha&(ro&Hro&Hc)&Hn). split; [done|]. split; [|done]. exists ro. cbn. by rewrite (Hr r Ha).
  - intros r Ha. cbn in Ha. destruct (H3 r Ha) as (ro&p&Hro&Hx). exists ro, p. cbn. by rewrite (Hr r Ha).
Qed.

(** ** Every program *)
Lemma popen_step_ok c s : popen_ok s -> Z.of_nat (length (pp_sent s)) < INT_MAX -> wp never (run_popen_step c) s (fun _ s' => popen_ok s' /\ moves s s').
Proof.
  intros Hok Hb. unfold run_popen_step. wprim. destruct (popen_legal c s) eqn:El; cbn [negb]; [|eapply wp_Ok; [reflexivity|]; split; [done|by apply moves_same]].
  destruct c as [r ty|r|r|r|w|ch status|ch]; cbn in El.
  - apply bool_decide_eq_true in El. eapply wp_Ok; [reflexivity|]. split; [|by apply moves_same]. apply request_ok; [done|]. intros r' Hr'. rewrite lookup_insert_ne; [done|]. by intros ->.
  - apply bool_decide_eq_true in El. eapply wp_Ok; [reflexivity|]. split; [|by apply moves_same]. apply request_ok; [done|]. intros r' Hr'. rewrite lookup_delete_ne; [done|]. by intros ->.
  - apply andb_true_iff in El as [Hna Hro]. apply bool_decide_eq_true in Hna, Hro. wbind. eapply wp_mono; [by apply submit_spec|]. cbv beta. intros ret s' Hs.
    destruct (submit_ok r s ret s' Hok Hna Hs) as [(->&H1&H2)|(Hret&H1&H2)].
    + by eapply wp_Ok.
    + unfold when. destruct (Z.leb_spec 0 ret); [|lia]. eapply wp_Ok; [reflexivity|]. split; [done|]. destruct H2 as [M1 M2 M3]. by split.
  - apply bool_decide_eq_true in El. by apply close_ok.
  - eapply wp_Ok; [reflexivity|]. split; [by apply popen_ok_world|by apply moves_same].
  - by apply status_ok.
  - destruct (pp_children s !! ch) as [o|] eqn:Ho; [|done]. destruct (ch_timer o) as [[t|]|] eqn:Et; [|done|done]. apply Z.leb_le in El.
    pose proof (po_children _ Hok ch o Ho) as [Hw _ Hst]. destruct (ch_parent o) as [[r|]|] eqn:Ep; [destruct Hst as (_&_&_&Hst); congruence| |done].
    destruct Hst as (t0&k&Ht0&Hk&Hlen&_). pose proof (sent_length s (ch_id o)). eapply wp_mono; [apply (timer_spec s ch o k Ho Hw Ep Hk); [lia|by rewrite Et]|].
    cbv beta. intros _ s' [t' Hs]. by apply (timer_ok s s' ch o k t t').
Qed.

Lemma run_ok p : forall s, popen_ok s -> Z.of_nat (length (pp_sent s) + length p) < INT_MAX ->
  wp never (run_popen p) s (fun _ s' => popen_ok s' /\ (forall i, (i < pp_count s)%nat -> gone i s -> gone i s' /\ sent_to i s' = sent_to i s) /\
    (length (pp_sent s') <= length (pp_sent s) + length p)%nat).
Proof.
  induction p as [|c p IH]; intros s Hok Hb.
  - eapply wp_Ok; [reflexivity|]. split_and!; [done|done|cbn; lia].
  - cbn [run_popen length] in *. wbind. eapply wp_mono; [apply popen_step_ok; [done|lia]|]. cbv beta. intros _ s1 [H1 M]. pose proof M as [C1 L1 M1].
    eapply wp_mono; [apply IH; [done|lia]|]. cbv beta. intros _ s2 (H2&M2&L2). split_and!; [done| |lia].
    intros i Hi Hg. destruct (M1 i Hi Hg) as [Hg1 E1]. destruct (M2 i ltac:(lia) Hg1) as [Hg2 E2]. split; [done|congruence].
Qed.

Lemma popen_boot_ok (w : W) : popen_ok (popen_boot w).
Proof. by split; try (intros; set_solver); cbn; try done. Qed.

(** For every program of requests submitted and closed (and their memory freed or used
    again), statuses arriving for children and timers running when they are due, whatever
    malloc, pipe, fork and kill do: no freed memory and no field nobody wrote is used, no
    timer is registered twice and none that is not registered is unregistered, a request
    that is open has its child or knows that it is gone, and each child that is left is
    waited for and has either its open request, or its timer. *)
Theorem iv_popen_programs_safe p (w : W) : Z.of_nat (length p) < INT_MAX ->
  wp never (run_popen p) (popen_boot w) (fun _ s => popen_ok s).
Proof. intros Hp. eapply wp_mono; [apply run_ok; [apply popen_boot_ok|done]|]. cbv beta. by intros _ s [? _]. Qed.

(** C11. After a request is closed its child gets SIGTERM five times and from then on
    SIGKILL, the first when the timers run next, and any two of them at least five seconds
    apart; while the child is there the timer for the next signal is registered; once
    the child is gone (its status arrived, or it could not be signalled) it is not
    signalled again, whatever the program does next; and before the request is closed there
    is no signal.  Nothing undefined is met: no child's record is freed while its timer or
    its interest is registered ([unlinked]). *)
Theorem iv_popen_signals p1 p2 (w : W) : Z.of_nat (length p1 + length p2) < INT_MAX ->
  wp never (run_popen p1) (popen_boot w) (fun _ s1 =>
    (forall i, escalation 0 (sent_to i s1)) /\
    (forall ch o, pp_children s1 !! ch = Some o ->
      (exists r, ch_parent o = Some (Some r) /\ r ∈ pp_active s1 /\ sent_to (ch_id o) s1 = []) \/
      (exists t, ch_parent o = Some None /\ ch_timer o = Some (Some t) /\ due (sent_to (ch_id o) s1) t)) /\
    wp never (run_popen p2) s1 (fun _ s2 =>
      forall i, (i < pp_count s1)%nat -> gone i s1 -> gone i s2 /\ sent_to i s2 = sent_to i s1)).
Proof.
  intros Hp. eapply wp_mono; [apply run_ok; [apply popen_boot_ok|cbn; lia]|]. cbv beta. intros _ s1 (Hok&_&Hlen). cbn in Hlen. split_and!.
  - apply Hok.
  - intros ch o Ho. destruct (po_children _ Hok ch o Ho) as [_ _ Hst]. destruct (ch_parent o) as [[r|]|]; [| |done].
    + left. destruct Hst as (?&_&?&_). by exists r.
    + right. destruct Hst as (t&k&?&_&_&?). by exists t.
  - eapply wp_mono; [apply run_ok; [done|lia]|]. cbv beta. by intros _ s2 (_&?&_).
Qed.

(** C37. Submitting a request either returns -1 and leaves the requests, the memory and the
    open descriptors as they were (nothing is leaked on any error path), or it returns the
    parent's end of a new pipe (the read end for "r", the write end for "w"), the only
    descriptor that is opened, and the request has its child, that is waited for. *)
Theorem iv_popen_request_submit_result this s : is_Some (pp_requests s !! this) ->
  wp never (iv_popen_request_submit this) s (fun ret s' => submitted this s ret s').
Proof. apply submit_spec. Qed.
End props.

(** ** The child's descriptors *)
Lemma lowest_free_spec (t : fd_table) fuel : forall n, 0 <= n ->
  n <= lowest_free fuel n t <= n + Z.of_nat fuel /\ (forall i, n <= i < lowest_free fuel n t -> is_Some (t !! i)) /\
  (lowest_free fuel n t < n + Z.of_nat fuel -> t !! lowest_free fuel n t = None).
Proof.
  induction fuel as [|fuel IH]; intros n Hn; cbn [lowest_free]; [split_and!; [lia|lia|lia|lia]|].
  destruct (t !! n) as [f|] eqn:E; [|split_and!; [lia|lia|intros; lia|done]].
  destruct (IH (n + 1) ltac:(lia)) as (H1&H2&H3). split_and!; [lia|lia| |intros; apply H3; lia].
  intros i Hi. destruct (decide (i = n)) as [->|]; [by exists f|apply H2; lia].
Qed.
Lemma full_table (t : fd_table) (k : nat) : (forall i, 0 <= i < Z.of_nat k -> is_Some (t !! i)) -> (k <= size t)%nat.
Proof.
  intros H. rewrite <- size_dom. transitivity (size (list_to_set (seqZ 0 (Z.of_nat k)) : gset Z)).
  - rewrite size_list_to_set by apply NoDup_seqZ. rewrite length_seqZ. lia.
  - apply subseteq_size. intros i Hi. apply elem_of_list_to_set, elem_of_seqZ in Hi. apply elem_of_dom, H. lia.
Qed.
Lemma open_lowest (t : fd_table) : let fd := lowest_free (size t) 0 t in 0 <= fd /\ t !! fd = None /\ forall i, 0 <= i < fd -> is_Some (t !! i).
Proof.
  destruct (lowest_free_spec t (size t) 0 ltac:(lia)) as (H1&H2&H3). cbv zeta. set (fd := lowest_free _ _ _) in *. split_and!; [lia| |done].
  destruct (decide (fd < 0 + Z.of_nat (size t))) as [|Hge]; [by apply H3|]. assert (fd = Z.of_nat (size t)) as E by lia.
  destruct (t !! fd) as [f|] eqn:Ef; [|done]. exfalso. pose proof (full_table t (Datatypes.S (size t))) as Hf. assert (Datatypes.S (size t) <= size t)%nat; [|lia].
  apply Hf. intros i Hi. destruct (decide (i = fd)) as [->|]; [by exists f|apply H2; lia].
Qed.

Definition child_files (for_read : bool) (fd : Z) : option file :=
  if fd =? 0 then Some (if for_read then FDevNull else FPipeRead)
  else if fd =? 1 then Some (if for_read then FPipeWrite else FDevNull)
  else if fd =? 2 then Some FDevNull else None.

(** C35. When the process has its three standard descriptors, so that the ends of the pipe
    are others (otherwise [iv_popen_child_pipe_zero]), the child that is about to
    execute the program has its end of the pipe as its standard output ("r") or input
    ("w"), /dev/null as the other two, neither end of the pipe anywhere else, and every
    other descriptor as it was. *)
Theorem iv_popen_child_descriptors (t : fd_table) for_read p0 p1 :
  is_Some (t !! 0) -> is_Some (t !! 1) -> is_Some (t !! 2) -> 3 <= p0 -> 3 <= p1 -> p0 <> p1 ->
  t !! p0 = Some FPipeRead -> t !! p1 = Some FPipeWrite ->
  exists t', iv_popen_child false for_read p0 p1 t = Ok (tt, t') /\
    forall fd, t' !! fd = if (0 <=? fd) && (fd <? 3) then child_files for_read fd else if (fd =? p0) || (fd =? p1) then None else t !! fd.
Proof.
  intros [f0 H0] [f1 H1] [f2 H2] L0 L1 Hne E0 E1. destruct (open_lowest t) as (Hd&Hn&Hlow).
  assert (child_open false t = Ok (Some (lowest_free (size t) 0 t), <[lowest_free (size t) 0 t := FDevNull]> t)) as Hopen by reflexivity.
  unfold iv_popen_child. rewrite (bind_Ok _ _ _ _ _ Hopen). clear Hopen. set (d := lowest_free _ _ _) in *. clearbody d. cbv iota beta.
  assert (3 <= d). { destruct (decide (d = 0)) as [->|]; [congruence|]. destruct (decide (d = 1)) as [->|]; [congruence|]. destruct (decide (d = 2)) as [->|]; [congruence|]. lia. }
  assert (d <> p0) by congruence. assert (d <> p1) by congruence.
  assert (forall t1 old new f, t1 !! old = Some f -> child_dup2 old new t1 = Ok (tt, <[new := f]> t1)) as Hdup by (intros t1 old new f E; unfold child_dup2, modify; by rewrite E).
  set (tdev := <[d := FDevNull]> t) in *. assert (tdev !! d = Some FDevNull) as Ed by apply lookup_insert_eq.
  assert (tdev !! p0 = Some FPipeRead) as Ep0 by (unfold tdev; by rewrite lookup_insert_ne). assert (tdev !! p1 = Some FPipeWrite) as Ep1 by (unfold tdev; by rewrite lookup_insert_ne).
  set (ends := if for_read then (FDevNull, FPipeWrite) else (FPipeRead, FDevNull)).
  exists (delete d (delete p1 (delete p0 (<[2 := FDevNull]> (<[1 := ends.2]> (<[0 := ends.1]> tdev)))))). split.
  - assert (forall v, <[0 := v]> tdev !! d = Some FDevNull) as Ed0 by (intros v; rewrite lookup_insert_ne by lia; exact Ed).
    assert (forall v1 v0, <[1 := v1]> (<[0 := v0]> tdev) !! d = Some FDevNull) as Ed1 by (intros v1 v0; rewrite lookup_insert_ne by lia; apply Ed0).
    match goal with |- (?m ≫= ?k) _ = _ => assert (m tdev = Ok (tt, <[2 := FDevNull]> (<[1 := ends.2]> (<[0 := ends.1]> tdev)))) as E; [|by rewrite (bind_Ok m k _ _ _ E)] end.
    unfold ends. destruct for_read; cbn [fst snd].
    + rewrite (bind_Ok _ _ _ _ _ (Hdup tdev d 0 _ Ed)), (bind_Ok _ _ _ _ _ (Hdup (<[0 := FDevNull]> tdev) p1 1 FPipeWrite ltac:(by rewrite lookup_insert_ne by lia))). by apply Hdup.
    + rewrite (bind_Ok _ _ _ _ _ (Hdup tdev p0 0 _ Ep0)), (bind_Ok _ _ _ _ _ (Hdup _ d 1 _ (Ed0 _))). by apply Hdup.
  - intros fd. unfold tdev, child_files, ends. rewrite !lookup_delete, !lookup_insert. destruct (Z.leb_spec 0 fd), (Z.ltb_spec fd 3); cbn [andb].
    all: repeat (match goal with |- context [?a =? ?b] => destruct (Z.eqb_spec a b) end; cbn [orb]); repeat case_decide; try lia; try congruence; by destruct for_read.
Qed.

(** When descriptor 0 was closed in the process the read end of the pipe is 0, and the
    child runs the program without a standard input, for "r" (where it is not even used)
    and for "w" (where the data of the pipe should arrive). *)
Theorem iv_popen_child_pipe_zero (t : fd_table) for_read p1 : exists t', iv_popen_child false for_read 0 p1 t = Ok (tt, t') /\ t' !! 0 = None.
Proof.
  assert (forall d (t1 : fd_table), exists t', (child_close 0;; child_close p1;; child_close d) t1 = Ok (tt, t') /\ t' !! 0 = None) as H.
  { intros d t1. exists (delete d (delete p1 (delete 0 t1))). split; [reflexivity|]. rewrite !lookup_delete. by repeat case_decide. }
  unfold iv_popen_child. set (d := lowest_free (size t) 0 t).
  assert (child_open false t = Ok (Some d, <[d := FDevNull]> t)) as Hopen by reflexivity. rewrite (bind_Ok _ _ _ _ _ Hopen). cbv iota beta.
  destruct for_read; [set (m := child_dup2 d 0;; child_dup2 p1 1;; child_dup2 d 2)|set (m := child_dup2 0 0;; child_dup2 d 1;; child_dup2 d 2)].
  all: assert (exists t1, m (<[d := FDevNull]> t) = Ok (tt, t1)) as [t1 E] by (eexists; reflexivity); rewrite (bind_Ok _ _ _ _ _ E); apply H.
Qed.

(** ** Witnesses *)

(** A kernel: the time, the number of the next pipe, the children that are dead. *)
Record psim := mk_psim { ps_time : Z; ps_pipe : Z; ps_dead : list nat }.
#[global] Instance psim_kernel : PopenKernel psim := {
  po_malloc used w := (Some (fresh used), w);
  po_pipe fds w := let p := Z.max 3 (ps_pipe w) in
    (if bool_decide (p ∈ fds) || bool_decide (p + 1 ∈ fds) then inr EOTHER else inl (p, p + 1), mk_psim (ps_time w) (p + 2) (ps_dead w));
  po_spawn n w := (0, w);
  po_kill n signum w := if bool_decide (n ∈ ps_dead w) then (-1, w) else (0, if signum =? SIGKILL then mk_psim (ps_time w) (ps_pipe w) (n :: ps_dead w) else w);
  po_time w := mk_tsp (ps_time w) 0 }.
#[global] Instance psim_laws : PopenLaws psim.
Proof.
  split.
  - intros used w a w' [= <- <-]. apply is_fresh.
  - intros fds w p0 p1 w'. cbn. case_bool_decide; [done|]. case_bool_decide; [done|]. intros [= <- <- <-]. split_and!; [lia|lia|lia|done|done].
  - intros i signum w. cbn. case_bool_decide; [done|]. by destruct (_ =? _).
Qed.

(** A child that ignores SIGTERM: the seventh timer finds it gone. *)
Definition at_time (t : Z) : popen_step (W := psim) := PWorld (mk_psim t 7 (if 26 <=? t then [0%nat] else [])).
Definition demo_start : list (popen_step (W := psim)) := [PNew 1 "w"; PNew 2 "x"; PSubmit 1; PSubmit 2; PClose 1; PFree 1].
Definition demo_signals : list (popen_step (W := psim)) :=
  [1; 5; 6; 11; 16; 21; 26; 31] ≫= (fun t => [at_time t; PTimer 1]).
Definition sent_of (r : res (unit * popen_state psim)) : option (list (Z * Z) * bool) :=
  match r with Ok (_, s) => Some ((fun e : Z * timespec => (e.1, tv_sec e.2)) <$> sent_to 0 s, bool_decide (pp_children s = ∅)) | _ => None end.

Lemma iv_popen_programs_safe_witness :
  sent_of (run_popen (demo_start ++ demo_signals) (popen_boot (mk_psim 0 3 []))) =
    Some ([(15, 1); (15, 6); (15, 11); (15, 16); (15, 21); (9, 26)], true) /\
  wp never (run_popen (demo_start ++ demo_signals)) (popen_boot (mk_psim 0 3 [])) (fun _ s => popen_ok s).
Proof. split; [vm_compute; reflexivity|]. apply (iv_popen_programs_safe (W := psim)). vm_compute. reflexivity. Defined.

Lemma iv_popen_signals_witness :
  wp never (run_popen (demo_start ++ demo_signals)) (popen_boot (mk_psim 0 3 [])) (fun _ s1 =>
    (forall i, escalation 0 (sent_to i s1)) /\
    (forall ch o, pp_children s1 !! ch = Some o ->
      (exists r, ch_parent o = Some (Some r) /\ r ∈ pp_active s1 /\ sent_to (ch_id o) s1 = []) \/
      (exists t, ch_parent o = Some None /\ ch_timer o = Some (Some t) /\ due (sent_to (ch_id o) s1) t)) /\
    wp never (run_popen [PNew 3 "r"; PSubmit 3; PFree 1]) s1 (fun _ s2 =>
      forall i, (i < pp_count s1)%nat -> gone i s1 -> gone i s2 /\ sent_to i s2 = sent_to i s1)).
Proof. apply (iv_popen_signals (W := psim)). vm_compute. reflexivity. Defined.

Definition demo_request (type : string) : popen_state psim := set_pp_requests {[1%positive := mk_rq type None]} (popen_boot (mk_psim 0 3 [])).
Lemma iv_popen_request_submit_result_witness :
  match iv_popen_request_submit 1 (demo_request "w") with Ok (ret, s) => Some (ret, elements (pp_open s)) | _ => None end = Some (4, [4]) /\
  match iv_popen_request_submit 1 (demo_request "rw") with Ok (ret, s) => Some (ret, elements (pp_open s)) | _ => None end = Some (-1, []) /\
  wp never (iv_popen_request_submit 1) (demo_request "w") (fun ret s' => submitted 1 (demo_request "w") ret s').
Proof. split; [vm_compute; reflexivity|]. split; [vm_compute; reflexivity|]. apply (iv_popen_request_submit_result (W := psim)). by eexists. Defined.

Definition demo_table : fd_table := {[0 := FOther 0; 1 := FOther 1; 2 := FOther 2; 3 := FPipeRead; 4 := FPipeWrite; 7 := FOther 7]}.
Lemma iv_popen_child_descriptors_witness : exists t', iv_popen_child false true 3 4 demo_table = Ok (tt, t') /\
  forall fd, t' !! fd = if (0 <=? fd) && (fd <? 3) then child_files true fd else if (fd =? 3) || (fd =? 4) then None else demo_table !! fd.
Proof. apply iv_popen_child_descriptors; [by eexists|by eexists|by eexists|lia|lia|lia|reflexivity|reflexivity]. Defined.
