(* ===== verification/Thread.v ===== *)
(** * Threads (iv_thread_posix.c)

    What one thread does without another one looking is an action of Conc.v.  The event
    [dead] of a thread is registered or not, and pending until its owner's event loop takes
    it (EventProps.v); the list [child_threads] is the sequence of its members (ISeq.v).
    The threads of the process are those of [mains], which exist when the program begins,
    and those that [pthread_create] made, which start a thread of Conc.v. *)

From Stdlib Require Import String.
From S2P Require Import Prelude Conc.

Local Open Scope Z_scope.

(** [thread_id] is [None] until [pthread_create] wrote it. *)
Record iv_thread := mk_thr {
  thr_id : option loc; thr_name : option string; thr_tid : Z; thr_start : Z; thr_arg : Z }.
Definition set_thr_id (v : option loc) (o : iv_thread) := mk_thr v (thr_name o) (thr_tid o) (thr_start o) (thr_arg o).
Definition set_thr_tid (v : Z) (o : iv_thread) := mk_thr (thr_id o) (thr_name o) v (thr_start o) (thr_arg o).

(** A thread of the kernel: the argument of its handler, how far it is, whether it is
    detached; for the proofs, whether it posted its event. *)
Inductive os_phase := OsReady | OsRunning | OsExited.
#[global] Instance os_phase_eq : EqDecision os_phase.
Proof. solve_decision. Defined.
Record os_thread := mk_os { os_arg : loc; os_state : os_phase; os_detached : bool; os_posted : bool }.
Definition set_os_state (v : os_phase) (e : os_thread) := mk_os (os_arg e) v (os_detached e) (os_posted e).
Definition set_os_detached (v : bool) (e : os_thread) := mk_os (os_arg e) (os_state e) v (os_posted e).
Definition set_os_posted (v : bool) (e : os_thread) := mk_os (os_arg e) (os_state e) (os_detached e) v.

(** What is written to stderr. *)
Inductive thread_line :=
  | LineStarted (name : string) | LineFailed (name : string) | LineTerminating (name : option string)
  | LineJoined (name : option string) | LineSelf (tid : Z) | LineChild (tid : Z) (name : option string).

(** For the proofs, where a thread is inside of [iv_thread_create] or [iv_thread_died]. *)
Inductive thread_pc := ThNew (thr : loc) | ThFailed (thr : loc) | ThAdd (thr : loc) | ThDied (thr : loc) | ThJoined (thr : loc).

(** malloc, strdup, [pthread_create] (given the threads there are), [pthread_key_create],
    whether [iv_event_register] succeeds, gettid, and whether the destructor of the
    library's state runs before that of [iv_thread_key]. *)
Class ThreadKernel (W : Type) := {
  tk_malloc : gset loc -> W -> option loc * W;
  tk_strdup : string -> W -> option string * W;
  tk_create : gset loc -> W -> option loc * W;
  tk_key_create : W -> bool * W;
  tk_event_register : W -> bool * W;
  tk_gettid : loc -> W -> Z * W;
  tk_state_first : W -> bool * W }.

(** The memory of threads; the list [child_threads] of each thread with an initialised
    library; the registered events [dead] with their owner and whether they are pending;
    [iv_thread_key] (whether it is allocated, its value in each thread), [iv_thread_debug];
    the threads of the kernel that were not joined; stderr. *)
Record thread_state (W : Type) := mk_ths {
  th_objs : gmap loc iv_thread; th_children : gmap loc (list loc); th_dead : gmap loc (loc * bool); th_allocated : bool;
  th_key : gmap loc loc; th_debug : bool; th_os : gmap loc os_thread; th_log : list thread_line; th_pc : gmap loc thread_pc; th_w : W }.
Arguments mk_ths {_}.
Arguments th_objs {_} _.
Arguments th_children {_} _.
Arguments th_dead {_} _.
Arguments th_allocated {_} _.
Arguments th_key {_} _.
Arguments th_debug {_} _.
Arguments th_os {_} _.
Arguments th_log {_} _.
Arguments th_pc {_} _.
Arguments th_w {_} _.

(** The calls of a thread's program: [iv_init], [iv_thread_create], the event loop calling
    the handler of a pending event, [iv_deinit], [iv_thread_set_debug_state] and
    [iv_thread_list_children]. *)
Inductive thread_call :=
  | ThInit | ThCreate (name : string) (start arg : Z) | ThEvent (thr : loc) | ThDeinit | ThDebug (state : Z) | ThList.
Definition join_blocks : string := "pthread_join: the thread runs".
Definition key_failed : string := "iv_thread_tls_init_thread: failed to allocate TLS key".

Section thread.
Context {W : Type} `{!ThreadKernel W}.
(** The threads of the beginning; what a start routine does. *)
Context (mains : gset loc) (routine : Z -> Z -> list thread_call).
Abbreviation St := (thread_state W).

Definition set_th_objs (v : gmap loc iv_thread) (s : St) : St := mk_ths v (th_children s) (th_dead s) (th_allocated s) (th_key s) (th_debug s) (th_os s) (th_log s) (th_pc s) (th_w s).
Definition set_th_children (v : gmap loc (list loc)) (s : St) : St := mk_ths (th_objs s) v (th_dead s) (th_allocated s) (th_key s) (th_debug s) (th_os s) (th_log s) (th_pc s) (th_w s).
Definition set_th_dead (v : gmap loc (loc * bool)) (s : St) : St := mk_ths (th_objs s) (th_children s) v (th_allocated s) (th_key s) (th_debug s) (th_os s) (th_log s) (th_pc s) (th_w s).
Definition set_th_allocated (v : bool) (s : St) : St := mk_ths (th_objs s) (th_children s) (th_dead s) v (th_key s) (th_debug s) (th_os s) (th_log s) (th_pc s) (th_w s).
Definition set_th_key (v : gmap loc loc) (s : St) : St := mk_ths (th_objs s) (th_children s) (th_dead s) (th_allocated s) v (th_debug s) (th_os s) (th_log s) (th_pc s) (th_w s).
Definition set_th_debug (v : bool) (s : St) : St := mk_ths (th_objs s) (th_children s) (th_dead s) (th_allocated s) (th_key s) v (th_os s) (th_log s) (th_pc s) (th_w s).
Definition set_th_os (v : gmap loc os_thread) (s : St) : St := mk_ths (th_objs s) (th_children s) (th_dead s) (th_allocated s) (th_key s) (th_debug s) v (th_log s) (th_pc s) (th_w s).
Definition set_th_log (v : list thread_line) (s : St) : St := mk_ths (th_objs s) (th_children s) (th_dead s) (th_allocated s) (th_key s) (th_debug s) (th_os s) v (th_pc s) (th_w s).
Definition set_th_pc (v : gmap loc thread_pc) (s : St) : St := mk_ths (th_objs s) (th_children s) (th_dead s) (th_allocated s) (th_key s) (th_debug s) (th_os s) (th_log s) v (th_w s).
Definition set_th_w (v : W) (s : St) : St := mk_ths (th_objs s) (th_children s) (th_dead s) (th_allocated s) (th_key s) (th_debug s) (th_os s) (th_log s) (th_pc s) v.

Definition kernel {A} (call : W -> A * W) : M St A := fun s => let '(a, w) := call (th_w s) in Ok (a, set_th_w w s).
Definition load_thr (thr : loc) : M St iv_thread := m ← gets th_objs; deref (m !! thr).
Definition upd_thr (thr : loc) (g : iv_thread -> iv_thread) : M St unit :=
  o ← load_thr thr; modify (fun s => set_th_objs (<[thr := g o]> (th_objs s)) s).
Definition free_thr (thr : loc) : M St unit := _ ← load_thr thr; modify (fun s => set_th_objs (delete thr (th_objs s)) s).
Definition fprintf (l : thread_line) : M St unit := modify (fun s => set_th_log (th_log s ++ [l]) s).
Definition at_pc (me : loc) (pc : option thread_pc) : M St unit := modify (fun s => set_th_pc (partial_alter (fun _ => pc) me (th_pc s)) s).

(** What the calls of iv_event.c do with [dead]; an event that was not registered has no
    owner. *)
Definition event_register (me thr : loc) : M St unit :=
  ok ← kernel tk_event_register;
  when ok (modify (fun s => set_th_dead (<[thr := (me, false)]> (th_dead s)) s)).
Definition event_unregister (thr : loc) : M St unit :=
  m ← gets th_dead; _ ← deref (m !! thr); modify (set_th_dead (delete thr m)).
Definition event_post (thr : loc) : M St unit :=
  m ← gets th_dead; e ← deref (m !! thr);
  c ← gets th_children; _ ← deref (c !! e.1);
  modify (set_th_dead (<[thr := (e.1, true)]> m)).

(** pthread_join(3), which blocks while the thread runs, and pthread_detach(3). *)
Definition pthr_join (id : loc) : M St unit :=
  m ← gets th_os; e ← deref (m !! id);
  if os_detached e then undef
  else match os_state e with OsExited => modify (set_th_os (delete id m)) | _ => iv_fatal join_blocks end.
Definition pthr_detach (id : loc) : M St unit :=
  m ← gets th_os; e ← deref (m !! id);
  if os_detached e then undef
  else match os_state e with OsExited => modify (set_th_os (delete id m)) | _ => modify (set_th_os (<[id := set_os_detached true e]> m)) end.

(** ** The library's state of a thread *)
Definition iv_thread_tls_init_thread (me : loc) : M St unit := modify (fun s => set_th_children (<[me := []]> (th_children s)) s).
Fixpoint detach_all (l : list loc) : M St unit :=
  match l with [] => mret tt | thr :: l => o ← load_thr thr; id ← deref (thr_id o); pthr_detach id;; detach_all l end.
Definition iv_thread_tls_deinit_thread (me : loc) : M St unit := c ← gets th_children; l ← deref (c !! me); detach_all l.
(** The parts of [iv_init] and [iv_deinit] (iv_main_posix.c) that matter here. *)
Definition thread_init (me : loc) : M St unit := s ← get; requires (bool_decide (th_children s !! me = None));; iv_thread_tls_init_thread me.
Definition thread_deinit (me : loc) : M St unit := iv_thread_tls_deinit_thread me;; modify (fun s => set_th_children (delete me (th_children s)) s).

(** ** The thread that is made *)
Definition iv_thread_destructor (me thr : loc) : M St unit :=
  o ← load_thr thr;
  d ← gets th_debug; when d (fprintf (LineTerminating (thr_name o)));;
  event_post thr;;
  modify (fun s => set_th_os (alter (set_os_posted true) me (th_os s)) s).
Definition iv_thread_allocate_key : M St unit :=
  ok ← kernel tk_key_create; if ok : bool then modify (set_th_allocated true) else iv_fatal key_failed.

(** ** The calling thread *)
Definition iv_thread_died_join (thr : loc) : M St unit := o ← load_thr thr; id ← deref (thr_id o); pthr_join id.
Definition iv_thread_died_free (me thr : loc) : M St unit :=
  o ← load_thr thr;
  d ← gets th_debug; when d (fprintf (LineJoined (thr_name o)));;
  c ← gets th_children; l ← deref (c !! me);
  (if bool_decide (thr ∈ (l : list loc)) then modify (set_th_children (<[me := filter (.≠ thr) l]> c)) else undef);;
  event_unregister thr;;
  free_thr thr.
Definition iv_thread_died (me thr : loc) : prog St unit :=
  act (iv_thread_died_join thr;; at_pc me (Some (ThJoined thr)));;
  act (iv_thread_died_free me thr;; at_pc me None).

(** The client makes threads, and lists them, between [iv_init] and [iv_deinit]. *)
Definition inited (me : loc) : M St unit := s ← get; requires (bool_decide (is_Some (th_children s !! me))).
(** [iv_thread_create] up to the [pthread_create], that call, and what follows. *)
Definition thread_new (me : loc) (name : string) (start arg : Z) : M St (option loc) :=
  inited me;;
  a ← gets th_allocated; (if a : bool then mret tt else iv_thread_allocate_key);;
  used ← gets (fun s => dom (th_objs s));
  thr ← kernel (tk_malloc used);
  match thr with
  | None => mret None
  | Some thr =>
      event_register me thr;;
      dup ← kernel (tk_strdup name);
      modify (fun s => set_th_objs (<[thr := mk_thr None dup 0 start arg]> (th_objs s)) s);;
      at_pc me (Some (ThNew thr));;
      mret (Some thr)
  end.
Definition thread_start (me thr : loc) : M St bool :=
  used ← gets (fun s => dom (th_os s) ∪ mains);
  id ← kernel (tk_create used);
  match id with
  | None => at_pc me (Some (ThFailed thr));; mret false
  | Some id =>
      upd_thr thr (set_thr_id (Some id));;
      modify (fun s => set_th_os (<[id := mk_os thr OsReady false false]> (th_os s)) s);;
      at_pc me (Some (ThAdd thr));; mret true
  end.
Definition thread_started (me thr : loc) (name : string) : M St unit :=
  c ← gets th_children; l ← deref (c !! me);
  modify (set_th_children (<[me := l ++ [thr]]> c));;
  d ← gets th_debug; when d (fprintf (LineStarted name));;
  at_pc me None.
Definition thread_failed (me thr : loc) (name : string) : M St unit :=
  event_unregister thr;; free_thr thr;;
  d ← gets th_debug; when d (fprintf (LineFailed name));;
  at_pc me None.
Definition iv_thread_create (me : loc) (name : string) (start arg : Z) : prog St Z :=
  thr ← act (thread_new me name start arg);
  match thr with
  | None => mret (-1)
  | Some thr =>
      ok ← act (thread_start me thr);
      if ok : bool then act (thread_started me thr name);; mret 0
      else act (thread_failed me thr name);; mret (-1)
  end.

(** ** The rest *)
Definition iv_thread_set_debug_state (state : Z) : M St unit := modify (set_th_debug (negb (state =? 0))).
Definition iv_thread_get_id (me : loc) : M St Z := kernel (tk_gettid me).
Fixpoint list_all (l : list loc) : M St unit :=
  match l with [] => mret tt | thr :: l => o ← load_thr thr; fprintf (LineChild (thr_tid o) (thr_name o));; list_all l end.
Definition iv_thread_list_children (me : loc) : M St unit :=
  c ← gets th_children; l ← deref (c !! me);
  tid ← iv_thread_get_id me; fprintf (LineSelf tid);;
  list_all l.

(** The event loop of a thread finds an event of its own pending. *)
Definition take_dead (me thr : loc) : M St bool :=
  m ← gets th_dead;
  if bool_decide (m !! thr = Some (me, true)) then
    modify (set_th_dead (<[thr := (me, false)]> m));; at_pc me (Some (ThDied thr));; mret true
  else mret false.

(** The client calls [iv_deinit] when the threads it made have been joined (iv_main
    returned as no object was left); ThreadProps.v has what [thread_deinit] does to
    threads that were not. *)
Definition deinit_section (me : loc) : M St unit :=
  s ← get; requires (bool_decide (th_children s !! me = Some []));; thread_deinit me.
Definition run_thread_call (me : loc) (c : thread_call) : prog St unit :=
  match c with
  | ThInit => act (thread_init me)
  | ThCreate name start arg => iv_thread_create me name start arg;; mret tt
  | ThEvent thr => b ← act (take_dead me thr); if b : bool then iv_thread_died me thr else mret tt
  | ThDeinit => act (deinit_section me)
  | ThDebug state => act (iv_thread_set_debug_state state)
  | ThList => act (inited me;; iv_thread_list_children me)
  end.
Fixpoint run_thread_calls (me : loc) (cs : list thread_call) : prog St unit :=
  match cs with [] => mret tt | c :: cs => run_thread_call me c;; run_thread_calls me cs end.

Definition iv_thread_handler (me thr : loc) : prog St unit :=
  act (modify (fun s => set_th_key (<[me := thr]> (th_key s)) s));;
  act (tid ← iv_thread_get_id me; upd_thr thr (set_thr_tid tid));;
  o ← act (load_thr thr);
  run_thread_calls me (routine (thr_start o) (thr_arg o)).

(** A thread of the kernel: it starts, its handler runs, the destructors of its keys run
    in some order ([iv_state_destructor] is [iv_deinit]), it ends. *)
Definition thread_begin (me : loc) : M St (option loc) :=
  m ← gets th_os;
  match m !! me with
  | Some e => match os_state e with
      | OsReady => modify (set_th_os (<[me := set_os_state OsRunning e]> m));; mret (Some (os_arg e))
      | _ => mret None
      end
  | None => mret None
  end.
Definition key_destructor (me : loc) : M St unit :=
  k ← gets th_key; match k !! me with Some thr => modify (set_th_key (delete me k));; iv_thread_destructor me thr | None => mret tt end.
Definition state_destructor (me : loc) : M St unit :=
  c ← gets th_children; match c !! me with Some _ => deinit_section me | None => mret tt end.
Definition thread_end (me : loc) : M St unit :=
  m ← gets th_os; e ← deref (m !! me);
  modify (set_th_os (if os_detached e then delete me m else <[me := set_os_state OsExited e]> m)).
Definition thread_exit (me : loc) : prog St unit :=
  first ← act (kernel tk_state_first);
  (if first : bool then act (state_destructor me);; act (key_destructor me)
   else act (key_destructor me);; act (state_destructor me));;
  act (thread_end me).
Definition thread_main (me : loc) : prog St unit :=
  thr ← act (thread_begin me);
  match thr with None => mret tt | Some thr => iv_thread_handler me thr;; thread_exit me end.

(** What a thread may begin when it has nothing to do. *)
Inductive thread_job := JobCalls (cs : list thread_call) | JobMain.
Definition thread_may_begin (me : loc) (j : thread_job) : option (prog St unit) :=
  match j with
  | JobCalls cs => if bool_decide (me ∈ mains) then Some (run_thread_calls me cs) else None
  | JobMain => if bool_decide (me ∈ mains) then None else Some (thread_main me)
  end.
Definition thread_boot (ids : gset loc) (w : W) : St * gmap loc (prog St unit) :=
  (mk_ths ∅ ∅ ∅ false ∅ false ∅ [] ∅ w, gset_to_gmap (mret tt) ids).
End thread.
