(* ===== verification/ThreadSpec.v ===== *)
(** * The invariant of threads, and that every action keeps it *)

From Stdlib Require Import String.
From S2P Require Import Prelude Conc Thread.

Local Open Scope Z_scope.

(** Memory and thread identifiers are new; [iv_event_register] does not fail. *)
Class ThreadLaws (W : Type) `{!ThreadKernel W} : Prop := {
  tl_malloc : forall used w a w', tk_malloc used w = (Some a, w') -> a ∉ used;
  tl_create : forall used w a w', tk_create used w = (Some a, w') -> a ∉ used;
  tl_event_register : forall w, (tk_event_register w).1 = true }.

Definition pc_thr (x : thread_pc) : loc := match x with ThNew t | ThFailed t | ThAdd t | ThDied t | ThJoined t => t end.

Section spec.
Context {W : Type} `{!ThreadKernel W, HL : !ThreadLaws W}.
Context (mains : gset loc) (routine : Z -> Z -> list thread_call).
Abbreviation St := (thread_state W).
Implicit Types (s : St) (me p thr i : loc) (o : iv_thread) (e : os_thread) (x : thread_pc).

(** What may end a run: the client's breach of the contract, or the failure to make the
    key; a join may have to wait. *)
Definition thbreach (msg : string) : Prop := msg = "outside of the interface"%string \/ msg = join_blocks \/ msg = key_failed.

(** Where the owner [p] is with [thr]. *)
Definition about_thr thr (pc : option thread_pc) : option thread_pc :=
  match pc with Some x => if decide (pc_thr x = thr) then Some x else None | None => None end.
Definition has_thread s thr o (posted : bool) : Prop :=
  exists i e, thr_id o = Some i /\ th_os s !! i = Some e /\ os_arg e = thr /\ os_detached e = false /\ os_posted e = posted.
(** A thread's memory: its event is registered with the thread that made it, where the
    library is initialised; it is on that thread's list, and the kernel has the
    thread, that posted the event if it is pending or being handled. *)
Definition obj_ok s thr o : Prop := exists p pending l, th_dead s !! thr = Some (p, pending) /\ th_children s !! p = Some l /\
  match about_thr thr (th_pc s !! p) with
  | Some (ThNew _) | Some (ThFailed _) => thr_id o = None /\ thr ∉ l /\ pending = false /\ (forall i e, th_os s !! i = Some e -> os_arg e <> thr)
  | Some (ThAdd _) => thr ∉ l /\ has_thread s thr o pending
  | Some (ThDied _) => thr ∈ l /\ pending = false /\ has_thread s thr o true
  | Some (ThJoined _) => thr ∈ l /\ pending = false /\ (forall i e, th_os s !! i = Some e -> os_arg e <> thr)
  | None => thr ∈ l /\ has_thread s thr o pending
  end.
Definition os_ok s i e : Prop :=
  i ∉ mains /\ (exists o, th_objs s !! os_arg e = Some o /\ thr_id o = Some i) /\
  match os_state e with OsReady => os_posted e = false | OsRunning => True | OsExited => os_posted e = true end.
Record thread_inv s : Prop := {
  ti_obj : forall thr o, th_objs s !! thr = Some o -> obj_ok s thr o;
  ti_os : forall i e, th_os s !! i = Some e -> os_ok s i e;
  ti_list : forall p l, th_children s !! p = Some l -> NoDup l /\ forall thr, thr ∈ l -> exists pending, th_dead s !! thr = Some (p, pending);
  ti_dead : forall thr, is_Some (th_dead s !! thr) -> is_Some (th_objs s !! thr);
  ti_pc : forall p x, th_pc s !! p = Some x -> exists pending, th_dead s !! pc_thr x = Some (p, pending) }.

(** What a thread knows about itself. *)
Definition running (o : option os_thread) : option (loc * bool) :=
  match o with Some e => match os_state e with OsRunning => Some (os_arg e, os_posted e) | _ => None end | None => None end.
Abbreviation view := (option thread_pc * option (loc * bool) * option loc)%type.
Definition th_aux s me : view := (th_pc s !! me, running (th_os s !! me), th_key s !! me).
Definition others_th s s' me : Prop := forall t, t <> me -> th_aux s' t = th_aux s t.

(** ** An action about [thr0], that [p0] owns *)
Record only_thr (thr0 p0 : loc) s s' : Prop := {
  ot_objs : forall thr, thr <> thr0 -> th_objs s' !! thr = th_objs s !! thr;
  ot_dead : forall thr, thr <> thr0 -> th_dead s' !! thr = th_dead s !! thr;
  ot_children : forall p, match th_children s' !! p, th_children s !! p with
    | Some l', Some l => NoDup l' /\ forall thr, thr <> thr0 -> (thr ∈ l' <-> thr ∈ l)
    | None, None => True | _, _ => False end;
  ot_pc : forall p, p <> p0 -> th_pc s' !! p = th_pc s !! p;
  ot_pc0 : forall x, th_pc s !! p0 = Some x \/ th_pc s' !! p0 = Some x -> pc_thr x = thr0 \/ th_pc s' !! p0 = th_pc s !! p0;
  ot_os : forall i e, os_arg e <> thr0 -> (th_os s' !! i = Some e <-> th_os s !! i = Some e);
  ot_owner : forall p b, th_dead s !! thr0 = Some (p, b) -> p = p0 }.

Lemma about_other thr0 p0 s s' p thr : only_thr thr0 p0 s s' -> thr <> thr0 -> about_thr thr (th_pc s' !! p) = about_thr thr (th_pc s !! p).
Proof.
  intros H Hne. destruct (decide (p = p0)) as [->|Hp]; [|by rewrite (ot_pc _ _ _ _ H p Hp)].
  pose proof (ot_pc0 _ _ _ _ H) as H0. unfold about_thr.
  destruct (th_pc s' !! p0) as [x'|] eqn:E', (th_pc s !! p0) as [x|] eqn:E; [| | |done].
  - destruct (H0 x (or_introl eq_refl)) as [Hx|[= ->]]; [|done]. destruct (H0 x' (or_intror eq_refl)) as [Hx'|[= ->]]; [|done].
    by rewrite !decide_False by congruence.
  - destruct (H0 x' (or_intror eq_refl)) as [Hx'|[=]]. by rewrite decide_False by congruence.
  - destruct (H0 x (or_introl eq_refl)) as [Hx|[=]]. by rewrite decide_False by congruence.
Qed.

Lemma only_thr_inv thr0 p0 s s' : thread_inv s -> only_thr thr0 p0 s s' ->
  (forall o, th_objs s' !! thr0 = Some o -> obj_ok s' thr0 o) ->
  (forall i e, th_os s' !! i = Some e -> os_arg e = thr0 -> os_ok s' i e) ->
  (forall p l, th_children s' !! p = Some l -> thr0 ∈ l -> exists b, th_dead s' !! thr0 = Some (p, b)) ->
  (is_Some (th_dead s' !! thr0) -> is_Some (th_objs s' !! thr0)) ->
  (forall x, th_pc s' !! p0 = Some x -> exists b, th_dead s' !! pc_thr x = Some (p0, b)) ->
  thread_inv s'.
Proof.
  intros [I1 I2 I3 I4 I5] H G1 G2 G3 G4 G5. split.
  - intros thr o Ho. destruct (decide (thr = thr0)) as [->|Hne]; [by apply G1|]. rewrite (ot_objs _ _ _ _ H thr Hne) in Ho.
    destruct (I1 thr o Ho) as (p&b&l&Hd&Hc&Hst). pose proof (ot_children _ _ _ _ H p) as Hch. rewrite Hc in Hch.
    destruct (th_children s' !! p) as [l'|] eqn:Hc'; [|done]. destruct Hch as [_ Hch]. exists p, b, l'.
    rewrite (ot_dead _ _ _ _ H thr Hne), (about_other thr0 p0 s s' p thr H Hne). split_and!; [done|done|]. pose proof (Hch thr Hne) as Hin.
    assert (forall b', has_thread s thr o b' -> has_thread s' thr o b') as Hhas.
    { intros b' (i&e&Hi&He&Ha&Hx). exists i, e. split_and!; [done| |done|apply Hx|apply Hx]. by apply (ot_os _ _ _ _ H); [congruence|]. }
    assert ((forall i e, th_os s !! i = Some e -> os_arg e <> thr) -> forall i e, th_os s' !! i = Some e -> os_arg e <> thr) as Hno.
    { intros Hno i e He Ha. apply (Hno i e); [|done]. apply (ot_os _ _ _ _ H); [congruence|done]. }
    destruct (about_thr thr _) as [[t|t|t|t|t]|]; naive_solver.
  - intros i e He. destruct (decide (os_arg e = thr0)) as [Ha|Ha]; [by apply G2|]. pose proof He as He'. apply (ot_os _ _ _ _ H i e Ha) in He.
    destruct (I2 i e He) as (Hm&(o&Ho&Hid)&Hst). split_and!; [done| |done]. exists o. by rewrite (ot_objs _ _ _ _ H _ Ha).
  - intros p l' Hl'. pose proof (ot_children _ _ _ _ H p) as Hch. rewrite Hl' in Hch. destruct (th_children s !! p) as [l|] eqn:Hl; [|done].
    destruct Hch as [Hnd Hch]. split; [done|]. intros thr Hin. destruct (decide (thr = thr0)) as [->|Hne]; [by eapply G3|].
    rewrite (ot_dead _ _ _ _ H thr Hne). apply (I3 p l Hl). by apply Hch.
  - intros thr Hd. destruct (decide (thr = thr0)) as [->|Hne]; [by apply G4|]. rewrite (ot_objs _ _ _ _ H thr Hne). rewrite (ot_dead _ _ _ _ H thr Hne) in Hd. by apply I4.
  - intros p x Hx. destruct (decide (p = p0)) as [->|Hp]; [by apply G5|]. rewrite (ot_pc _ _ _ _ H p Hp) in Hx. destruct (I5 p x Hx) as [b Hb].
    exists b. rewrite (ot_dead _ _ _ _ H); [done|]. intros E. rewrite E in Hb. apply Hp. by eapply (ot_owner _ _ _ _ H).
Qed.

Lemma children_same s thr0 p : thread_inv s -> match th_children s !! p, th_children s !! p with
  | Some l', Some l => NoDup l' /\ forall thr, thr <> thr0 -> (thr ∈ l' <-> thr ∈ l) | None, None => True | _, _ => False end.
Proof. intros Hi. destruct (th_children s !! p) as [l|] eqn:E; [|done]. split; [apply (ti_list _ Hi p l E)|done]. Qed.

(** What does not concern threads. *)
Lemma inv_ext s s' : th_objs s' = th_objs s -> th_children s' = th_children s -> th_dead s' = th_dead s -> th_os s' = th_os s -> th_pc s' = th_pc s ->
  thread_inv s -> thread_inv s'.
Proof. destruct s, s'; cbn. intros -> -> -> -> -> [I1 I2 I3 I4 I5]. split; [exact I1|exact I2|exact I3|exact I4|exact I5]. Qed.
Definition same_threads s s' : Prop := th_objs s' = th_objs s /\ th_children s' = th_children s /\ th_dead s' = th_dead s /\ th_os s' = th_os s /\ th_pc s' = th_pc s /\ th_key s' = th_key s.
Lemma same_threads_ok s s' : same_threads s s' -> thread_inv s -> thread_inv s' /\ forall t, th_aux s' t = th_aux s t.
Proof. intros (E1&E2&E3&E4&E5&E6) Hi. split; [by eapply inv_ext|]. intros t. unfold th_aux. by rewrite E4, E5, E6. Qed.

Lemma th_load_Ok s thr o : th_objs s !! thr = Some o -> load_thr thr s = Ok (o, s).
Proof. intros H. unfold load_thr. msimpl. by rewrite H. Qed.
Lemma th_upd_Ok s thr o g : th_objs s !! thr = Some o -> upd_thr thr g s = Ok (tt, set_th_objs (<[thr := g o]> (th_objs s)) s).
Proof. intros H. unfold upd_thr. by mrun (th_load_Ok s thr o H). Qed.
Lemma free_thr_Ok s thr o : th_objs s !! thr = Some o -> free_thr thr s = Ok (tt, set_th_objs (delete thr (th_objs s)) s).
Proof. intros H. unfold free_thr. by mrun (th_load_Ok s thr o H). Qed.
Lemma tk_kernel_Ok {A} (call : W -> A * W) s a (w' : W) : call (th_w s) = (a, w') -> kernel call s = Ok (a, set_th_w w' s).
Proof. intros H. unfold kernel. by rewrite H. Qed.
Lemma event_unregister_Ok s thr (e : loc * bool) : th_dead s !! thr = Some e -> event_unregister thr s = Ok (tt, set_th_dead (delete thr (th_dead s)) s).
Proof. intros H. unfold event_unregister. msimpl. by rewrite H. Qed.

Lemma pc_owner s me x : thread_inv s -> th_pc s !! me = Some x ->
  exists o b l, th_objs s !! pc_thr x = Some o /\ th_dead s !! pc_thr x = Some (me, b) /\ th_children s !! me = Some l /\ NoDup l /\
  match x with
  | ThNew thr | ThFailed thr => thr_id o = None /\ thr ∉ l /\ b = false /\ (forall i e, th_os s !! i = Some e -> os_arg e <> thr)
  | ThAdd thr => thr ∉ l /\ has_thread s thr o b
  | ThDied thr => thr ∈ l /\ b = false /\ has_thread s thr o true
  | ThJoined thr => thr ∈ l /\ b = false /\ (forall i e, th_os s !! i = Some e -> os_arg e <> thr)
  end.
Proof.
  intros Hi Hx. destruct (ti_pc _ Hi me x Hx) as [b Hb]. destruct (ti_dead _ Hi (pc_thr x)) as [o Ho]; [by eexists|].
  destruct (ti_obj _ Hi _ o Ho) as (p&b'&l&Hd&Hc&Hst). rewrite Hb in Hd. injection Hd as <- <-. rewrite Hx in Hst. cbn [about_thr] in Hst. rewrite decide_True in Hst by done.
  exists o, b, l. split_and!; [done|done|done|apply (ti_list _ Hi me l Hc)|]. by destruct x.
Qed.

(** Threads that [me]'s actions leave alone. *)
Lemma others_intro s s' me : (forall t, t <> me -> th_pc s' !! t = th_pc s !! t) -> (forall t, t <> me -> running (th_os s' !! t) = running (th_os s !! t)) ->
  (forall t, t <> me -> th_key s' !! t = th_key s !! t) -> others_th s s' me.
Proof. intros H1 H2 H3 t Ht. unfold th_aux. by rewrite H1, H2, H3. Qed.

(** ** [iv_thread_create] *)

(** Memory that was free is nowhere. *)
Lemma unknown_thr s thr : thread_inv s -> th_objs s !! thr = None ->
  th_dead s !! thr = None /\ (forall p l, th_children s !! p = Some l -> thr ∉ l) /\ (forall i e, th_os s !! i = Some e -> os_arg e <> thr).
Proof.
  intros Hi Ho. assert (th_dead s !! thr = None) as Hd.
  { destruct (th_dead s !! thr) as [e|] eqn:E; [|done]. destruct (ti_dead _ Hi thr) as [o ?]; [by eexists|congruence]. }
  split_and!; [done| |].
  - intros p l Hl Hin. destruct (ti_list _ Hi p l Hl) as [_ H]. destruct (H thr Hin). congruence.
  - intros i e He <-. destruct (ti_os _ Hi i e He) as (_&(o&?&_)&_). congruence.
Qed.

Lemma new_inv s s' me thr o : thread_inv s -> th_pc s !! me = None -> is_Some (th_children s !! me) -> th_objs s !! thr = None -> thr_id o = None ->
  th_objs s' = <[thr := o]> (th_objs s) -> th_children s' = th_children s -> th_dead s' = <[thr := (me, false)]> (th_dead s) -> th_os s' = th_os s ->
  th_pc s' = <[me := ThNew thr]> (th_pc s) -> thread_inv s'.
Proof.
  intros Hi Hpc [l Hl] Hno Hid E1 E2 E3 E4 E5. destruct (unknown_thr s thr Hi Hno) as (Hd&Hnl&Hnos). apply (only_thr_inv thr me s s' Hi).
  - split; rewrite ?E1, ?E2, ?E3, ?E4, ?E5.
    + intros t Ht. by rewrite lookup_insert_ne.
    + intros t Ht. by rewrite lookup_insert_ne.
    + intros p. exact (children_same s thr p Hi).
    + intros p Hp. by rewrite lookup_insert_ne.
    + intros x [Hx|Hx]; [congruence|]. rewrite lookup_insert_eq in Hx. injection Hx as <-. by left.
    + done.
    + congruence.
  - intros o' Ho'. rewrite E1, lookup_insert_eq in Ho'. injection Ho' as <-. exists me, false, l. rewrite E2, E3, E4, E5, !lookup_insert_eq. cbn. rewrite decide_True by done.
    split_and!; [done|done|done|by apply (Hnl me)|done|done].
  - intros i e. rewrite E4. intros He Ha. by destruct (Hnos i e He).
  - intros p l'. rewrite E2. intros Hl' Hin. by destruct (Hnl p l' Hl').
  - intros _. rewrite E1, lookup_insert_eq. by eexists.
  - intros x. rewrite E5, E3, lookup_insert_eq. intros [= <-]. cbn. rewrite lookup_insert_eq. by eexists.
Qed.

Lemma thread_new_spec me name start arg s r k : thread_inv s -> th_aux s me = (None, r, k) ->
  wp thbreach (thread_new me name start arg) s (fun m s' => thread_inv s' /\ others_th s s' me /\ th_aux s' me = (ThNew <$> m, r, k)).
Proof.
  intros Hi Ha. assert (Ha' := Ha). unfold th_aux in Ha. injection Ha as Hpc Hr Hk. unfold thread_new, inited. wbind. wprim. unfold requires. case_bool_decide as Hc; [|cbn; by left]. destruct Hc as [l Hc]. eapply wp_Ok; [reflexivity|]. wprim.
  wbind. eapply (wp_mono _ _ _ (fun _ s1 => same_threads s s1)).
  { destruct (th_allocated s); [by eapply wp_Ok|]. unfold iv_thread_allocate_key. destruct (tk_key_create (th_w s)) as [ok w'] eqn:E.
    wrun (tk_kernel_Ok _ s ok w' E). destruct ok; [by eapply wp_Ok|]. cbn. right. by right. }
  cbv beta. intros _ s1 Hs1. destruct (same_threads_ok s s1 Hs1 Hi) as [Hi1 Ha1]. wprim.
  destruct (tk_malloc (dom (th_objs s1)) (th_w s1)) as [m w1] eqn:Em. wrun (tk_kernel_Ok (tk_malloc (dom (th_objs s1))) s1 m w1 Em).
  destruct m as [thr|]; cycle 1.
  { eapply wp_Ok; [reflexivity|]. destruct (same_threads_ok s1 (set_th_w w1 s1) ltac:(done) Hi1) as [Hi2 Ha2]. split_and!; [done|intros t Ht; by rewrite Ha2, Ha1|by rewrite Ha2, Ha1]. }
  pose proof (tl_malloc _ _ _ _ Em) as Hnew. apply not_elem_of_dom in Hnew. set (s2 := set_th_w w1 s1).
  unfold event_register. wbind. destruct (tk_event_register w1) as [ok w2] eqn:Ev. pose proof (tl_event_register w1) as Hok. rewrite Ev in Hok. cbn in Hok. subst ok.
  wrun (tk_kernel_Ok tk_event_register s2 true w2 Ev). cbn [when]. eapply wp_Ok; [reflexivity|].
  match goal with |- wp _ _ ?st _ => set (s3 := st) end. destruct (tk_strdup name w2) as [dup w3] eqn:Ed. wrun (tk_kernel_Ok (tk_strdup name) s3 dup w3 Ed).
  do 2 wprim. eapply wp_Ok; [reflexivity|]. destruct Hs1 as (E1&E2&E3&E4&E5&E6). match goal with |- thread_inv ?st /\ _ => set (s4 := st) end.
  assert (forall t, t <> me -> th_pc s4 !! t = th_pc s !! t) as Hpc4 by (intros t Ht; cbn; rewrite lookup_partial_alter_ne by done; by rewrite E5).
  split_and!.
  - apply (new_inv s1 s4 me thr (mk_thr None dup 0 start arg) Hi1); try done; [by rewrite E5|rewrite E2; by eexists].
  - apply others_intro; [done|intros t _; cbn; by rewrite E4|intros t _; cbn; by rewrite E6].
  - unfold th_aux. cbn. rewrite lookup_partial_alter. rewrite decide_True by done. by rewrite E4, E6, Hr, Hk.
Qed.

(** Moving on: [me]'s place, and what it says of [thr]. *)
Lemma pc_inv s s' me thr x y : thread_inv s -> th_pc s !! me = Some x -> pc_thr x = thr -> y = None \/ (exists y', y = Some y' /\ pc_thr y' = thr) ->
  (forall t, t <> thr -> th_objs s' !! t = th_objs s !! t) -> (forall t, t <> thr -> th_dead s' !! t = th_dead s !! t) ->
  (forall p, match th_children s' !! p, th_children s !! p with
    | Some l', Some l => NoDup l' /\ forall t, t <> thr -> (t ∈ l' <-> t ∈ l) | None, None => True | _, _ => False end) ->
  (forall i e, os_arg e <> thr -> (th_os s' !! i = Some e <-> th_os s !! i = Some e)) ->
  th_pc s' = partial_alter (fun _ => y) me (th_pc s) -> only_thr thr me s s'.
Proof.
  intros Hi Hx Hthr Hy H1 H2 H3 H4 E. split; [done|done|done| | |done|].
  - intros p Hp. by rewrite E, lookup_partial_alter_ne.
  - intros z [Hz|Hz]; left; [congruence|]. rewrite E, lookup_partial_alter, decide_True in Hz by done. destruct Hy as [-> |(y'&->&?)]; [done|congruence].
  - intros p b Hb. destruct (ti_pc _ Hi me x Hx) as [b' Hb']. subst thr. congruence.
Qed.

Lemma thread_start_spec me thr s r k : thread_inv s -> th_aux s me = (Some (ThNew thr), r, k) ->
  wp thbreach (thread_start mains me thr) s (fun ok s' => thread_inv s' /\ others_th s s' me /\ th_aux s' me = (Some (if ok : bool then ThAdd thr else ThFailed thr), r, k)).
Proof.
  intros Hi [= Hpc Hr Hk]. destruct (pc_owner s me _ Hi Hpc) as (o&b&l&Ho&Hd&Hl&Hnd&Hid&Hnl&->&Hnos). cbn in Ho, Hd. unfold thread_start. wprim.
  destruct (tk_create (dom (th_os s) ∪ mains) (th_w s)) as [id w'] eqn:E. wrun (tk_kernel_Ok (tk_create (dom (th_os s) ∪ mains)) s id w' E).
  destruct id as [id|]; cycle 1.
  { wprim. eapply wp_Ok; [reflexivity|]. match goal with |- thread_inv ?st /\ _ => set (s1 := st) end.
    assert (th_pc s1 = partial_alter (fun _ => Some (ThFailed thr)) me (th_pc s)) as Epc by done.
    split_and!.
    - apply (only_thr_inv thr me s s1 Hi); [by apply (pc_inv s s1 me thr (ThNew thr) (Some (ThFailed thr)) Hi Hpc); try done; [right; by eexists|intros p; exact (children_same s thr p Hi)]| | | | |].
      + intros o' Ho'. exists me, false, l. rewrite Epc, lookup_partial_alter, decide_True by done. cbn [about_thr pc_thr]. rewrite decide_True by done.
        assert (o' = o) as -> by (cbn in Ho'; congruence). by split_and!.
      + intros i e He Ha. by destruct (Hnos i e He).
      + intros p l' Hl' Hin. cbn in Hl'. by apply (ti_list _ Hi p l' Hl').
      + intros _. by exists o.
      + intros x. rewrite Epc, lookup_partial_alter, decide_True by done. intros [= <-]. by exists false.
    - apply others_intro; [intros t Ht; by rewrite Epc, lookup_partial_alter_ne|done..].
    - unfold th_aux. rewrite Epc, lookup_partial_alter, decide_True by done. by rewrite <-Hr, <-Hk. }
  pose proof (tl_create _ _ _ _ E) as Hnew. assert (th_os s !! id = None /\ id ∉ mains) as [Hno Hnm] by (split; [apply not_elem_of_dom|]; set_solver).
  wrun (th_upd_Ok (set_th_w w' s) thr o (set_thr_id (Some id)) Ho). do 2 wprim. eapply wp_Ok; [reflexivity|]. match goal with |- thread_inv ?st /\ _ => set (s1 := st) end.
  assert (th_pc s1 = partial_alter (fun _ => Some (ThAdd thr)) me (th_pc s)) as Epc by done. set (e0 := mk_os thr OsReady false false).
  assert (th_os s1 = <[id := e0]> (th_os s)) as Eos by done. assert (th_objs s1 = <[thr := set_thr_id (Some id) o]> (th_objs s)) as Eobj by done.
  split_and!.
  - apply (only_thr_inv thr me s s1 Hi); [apply (pc_inv s s1 me thr (ThNew thr) (Some (ThAdd thr)) Hi Hpc); try done| | | | |].
    + right. by eexists.
    + intros t Ht. by rewrite Eobj, lookup_insert_ne.
    + intros p. exact (children_same s thr p Hi).
    + intros i e Ha. rewrite Eos, lookup_insert_Some. split; [intros [[<- <-]|[_ ?]]; [done|done]|]. intros He. right. split; [congruence|done].
    + intros o' Ho'. exists me, false, l. rewrite Epc, lookup_partial_alter, decide_True by done. cbn [about_thr pc_thr]. rewrite decide_True by done.
      split_and!; [done|done|done|]. exists id, e0. rewrite Eobj, lookup_insert_eq in Ho'. injection Ho' as <-. by rewrite Eos, lookup_insert_eq.
    + intros i e. rewrite Eos. intros [[<- <-]|[Hne He]]%lookup_insert_Some Ha; [|by destruct (Hnos i e He)].
      split_and!; [done| |done]. exists (set_thr_id (Some id) o). by rewrite Eobj, lookup_insert_eq.
    + intros p l' Hl' Hin. by apply (ti_list _ Hi p l' Hl').
    + intros _. rewrite Eobj, lookup_insert_eq. by eexists.
    + intros x. rewrite Epc, lookup_partial_alter, decide_True by done. intros [= <-]. by exists false.
  - apply others_intro; [intros t Ht; by rewrite Epc, lookup_partial_alter_ne| |done]. intros t Ht. rewrite Eos, lookup_insert. case_decide as Et; [|done]. subst t. by rewrite Hno.
  - unfold th_aux. rewrite Epc, lookup_partial_alter, decide_True by done. rewrite Eos, lookup_insert. rewrite <-Hr, <-Hk. case_decide as Et; [|done]. subst id. by rewrite Hno.
Qed.

Lemma aux_step s s' me y pc r k : th_aux s me = (pc, r, k) -> th_pc s' = partial_alter (fun _ => y) me (th_pc s) -> th_key s' = th_key s ->
  (forall t, running (th_os s' !! t) = running (th_os s !! t)) -> others_th s s' me /\ th_aux s' me = (y, r, k).
Proof.
  intros [= Hpc Hr Hk] E1 E2 E3. split.
  - apply others_intro; [intros t Ht; by rewrite E1, lookup_partial_alter_ne|done|by rewrite E2].
  - unfold th_aux. rewrite E1, lookup_partial_alter, decide_True by done. by rewrite E2, E3, Hr, Hk.
Qed.
Lemma line_spec s b (line : thread_line) : wp thbreach (when b (fprintf line)) s (fun _ s' => same_threads s s').
Proof. by destruct b; eapply wp_Ok. Qed.

Lemma thread_started_spec me thr name s r k : thread_inv s -> th_aux s me = (Some (ThAdd thr), r, k) ->
  wp thbreach (thread_started me thr name) s (fun _ s' => thread_inv s' /\ others_th s s' me /\ th_aux s' me = (None, r, k)).
Proof.
  intros Hi Ha. assert (Hpc := Ha). injection Hpc as Hpc _ _. destruct (pc_owner s me _ Hi Hpc) as (o&b&l&Ho&Hd&Hl&Hnd&Hnl&Hhas). cbn in Ho, Hd.
  unfold thread_started. wprim. rewrite Hl. do 3 wprim. wbind. eapply wp_mono; [apply line_spec|]. cbv beta. intros _ s1 (E1&E2&E3&E4&E5&E6). cbn in E1, E2, E3, E4, E5, E6.
  eapply wp_Ok; [reflexivity|]. set (s2 := set_th_pc _ s1). assert (th_pc s2 = partial_alter (fun _ => None) me (th_pc s)) as Epc by (unfold s2; by rewrite <-E5).
  assert (th_children s2 = <[me := l ++ [thr]]> (th_children s)) as Ec by done. assert (th_os s2 = th_os s) as Eos by done. assert (th_dead s2 = th_dead s) as Edd by done.
  split; [|apply (aux_step s s2 me None _ r k Ha Epc E6)].
  - apply (only_thr_inv thr me s s2 Hi); [apply (pc_inv s s2 me thr (ThAdd thr) None Hi Hpc); try done| | | | |].
    + by left.
    + intros t _. cbn. by rewrite E1.
    + intros t _. by rewrite Edd.
    + intros p. rewrite Ec, lookup_insert. case_decide as Ep; [subst p; rewrite Hl|exact (children_same s thr p Hi)]. split; [apply NoDup_app; split_and!; [done|set_solver|apply NoDup_singleton]|set_solver].
    + intros i e _. by rewrite Eos.
    + intros o' Ho'. exists me, b, (l ++ [thr]). rewrite Edd, Ec, lookup_insert_eq, Epc, lookup_partial_alter, decide_True by done. cbn. split_and!; [done|done|set_solver|].
      cbn in Ho'. rewrite E1, Ho in Ho'. injection Ho' as <-. unfold has_thread. by rewrite Eos.
    + intros i e He Harg. rewrite Eos in He. destruct (ti_os _ Hi i e He) as (H1&H2&H3). split_and!; [done| |done]. cbn. by rewrite E1.
    + intros p l'. rewrite Ec, Edd. intros [[<- <-]|[Hne Hl']]%lookup_insert_Some Hin; [by exists b|]. by apply (ti_list _ Hi p l' Hl').
    + intros _. cbn. rewrite E1. by exists o.
    + intros x. rewrite Epc, lookup_partial_alter, decide_True by done. done.
  - intros t. by rewrite Eos.
Qed.

Lemma thread_failed_spec me thr name s r k : thread_inv s -> th_aux s me = (Some (ThFailed thr), r, k) ->
  wp thbreach (thread_failed me thr name) s (fun _ s' => thread_inv s' /\ others_th s s' me /\ th_aux s' me = (None, r, k)).
Proof.
  intros Hi Ha. assert (Hpc := Ha). injection Hpc as Hpc _ _. destruct (pc_owner s me _ Hi Hpc) as (o&b&l&Ho&Hd&Hl&Hnd&Hid&Hnl&->&Hnos). cbn in Ho, Hd.
  unfold thread_failed. wrun (event_unregister_Ok s thr _ Hd). wrun (free_thr_Ok (set_th_dead (delete thr (th_dead s)) s) thr o Ho). wprim.
  wbind. eapply wp_mono; [apply line_spec|]. cbv beta. intros _ s1 (E1&E2&E3&E4&E5&E6). cbn in E1, E2, E3, E4, E5, E6.
  eapply wp_Ok; [reflexivity|]. set (s2 := set_th_pc _ s1). assert (th_pc s2 = partial_alter (fun _ => None) me (th_pc s)) as Epc by (unfold s2; by rewrite <-E5).
  assert (th_os s2 = th_os s) as Eos by done. assert (th_dead s2 = delete thr (th_dead s)) as Edd by done. assert (th_objs s2 = delete thr (th_objs s)) as Eo by done.
  assert (th_children s2 = th_children s) as Ec by done.
  split; [|apply (aux_step s s2 me None _ r k Ha Epc E6)].
  - apply (only_thr_inv thr me s s2 Hi); [apply (pc_inv s s2 me thr (ThFailed thr) None Hi Hpc); try done| | | | |].
    + by left.
    + intros t Ht. by rewrite Eo, lookup_delete_ne.
    + intros t Ht. by rewrite Edd, lookup_delete_ne.
    + intros p. rewrite Ec. exact (children_same s thr p Hi).
    + intros i e _. by rewrite Eos.
    + intros o' Ho'. by rewrite Eo, lookup_delete_eq in Ho'.
    + intros i e He Harg. rewrite Eos in He. by destruct (Hnos i e He).
    + intros p l'. rewrite Ec. intros Hl' Hin. destruct (ti_list _ Hi p l' Hl') as [_ Hx]. destruct (Hx thr Hin) as [b' Hb']. rewrite Hd in Hb'. injection Hb' as <- <-. congruence.
    + rewrite Edd, lookup_delete_eq. by intros [? ?].
    + intros x. rewrite Epc, lookup_partial_alter, decide_True by done. done.
  - intros t. by rewrite Eos.
Qed.

(** ** [iv_thread_died] *)
Lemma owned_thr s thr me b : thread_inv s -> th_dead s !! thr = Some (me, b) -> th_pc s !! me = None ->
  exists o l, th_objs s !! thr = Some o /\ th_children s !! me = Some l /\ thr ∈ l /\ has_thread s thr o b.
Proof.
  intros Hi Hd Hpc. destruct (ti_dead _ Hi thr) as [o Ho]; [by eexists|]. destruct (ti_obj _ Hi thr o Ho) as (p&b'&l&Hd'&Hl&Hst).
  rewrite Hd in Hd'. injection Hd' as <- <-. rewrite Hpc in Hst. cbn in Hst. exists o, l. by destruct Hst.
Qed.
Lemma take_dead_spec me thr s r k : thread_inv s -> th_aux s me = (None, r, k) ->
  wp thbreach (take_dead me thr) s (fun b s' => thread_inv s' /\ others_th s s' me /\ th_aux s' me = (if b : bool then Some (ThDied thr) else None, r, k)).
Proof.
  intros Hi Ha. assert (Hpc := Ha). injection Hpc as Hpc _ _. unfold take_dead. wprim. case_bool_decide as Hd; [|by eapply wp_Ok].
  destruct (owned_thr s thr me true Hi Hd Hpc) as (o&l&Ho&Hl&Hin&Hhas). do 2 wprim. eapply wp_Ok; [reflexivity|]. match goal with |- thread_inv ?st /\ _ => set (s2 := st) end.
  assert (th_pc s2 = partial_alter (fun _ => Some (ThDied thr)) me (th_pc s)) as Epc by done. assert (th_dead s2 = <[thr := (me, false)]> (th_dead s)) as Edd by done.
  split; [|apply (aux_step s s2 me _ _ r k Ha Epc eq_refl); done].
  apply (only_thr_inv thr me s s2 Hi).
  - split; [done| | | | |done|].
    + intros t Ht. by rewrite Edd, lookup_insert_ne.
    + intros p. exact (children_same s thr p Hi).
    + intros p Hp. by rewrite Epc, lookup_partial_alter_ne.
    + rewrite Epc, lookup_partial_alter, decide_True by done. intros x [Hx|[= <-]]; [congruence|by left].
    + intros p b Hb. congruence.
  - intros o' Ho'. assert (o' = o) as -> by (cbn in Ho'; congruence). exists me, false, l. rewrite Edd, lookup_insert_eq, Epc, lookup_partial_alter, decide_True by done. cbn. rewrite decide_True by done.
    by split_and!.
  - intros i e He _. exact (ti_os _ Hi i e He).
  - intros p l' Hl' Hin'. destruct (ti_list _ Hi p l' Hl') as [_ Hx]. destruct (Hx thr Hin') as [b' Hb']. rewrite Hd in Hb'. injection Hb' as <- <-. exists false. by rewrite Edd, lookup_insert_eq.
  - intros _. by exists o.
  - intros x. rewrite Epc, lookup_partial_alter, decide_True by done. intros [= <-]. exists false. by rewrite Edd, lookup_insert_eq.
Qed.

Lemma died_join_spec me thr s r k : thread_inv s -> th_aux s me = (Some (ThDied thr), r, k) ->
  wp thbreach (iv_thread_died_join thr;; at_pc me (Some (ThJoined thr))) s (fun _ s' => thread_inv s' /\ others_th s s' me /\ th_aux s' me = (Some (ThJoined thr), r, k)).
Proof.
  intros Hi Ha. assert (Hpc := Ha). injection Hpc as Hpc _ _. destruct (pc_owner s me _ Hi Hpc) as (o&b&l&Ho&Hd&Hl&Hnd&Hin&->&i&e&Hid&He&Harg&Hdet&Hpost). cbn in Ho, Hd.
  unfold iv_thread_died_join. wbind. wrun (th_load_Ok s thr o Ho). rewrite Hid. wprim. unfold pthr_join. wprim. rewrite He. wprim. rewrite Hdet.
  destruct (os_state e) eqn:Est; [cbn; right; by left|cbn; right; by left|]. eapply wp_Ok; [reflexivity|]. eapply wp_Ok; [reflexivity|].
  match goal with |- thread_inv ?st /\ _ => set (s2 := st) end. assert (th_pc s2 = partial_alter (fun _ => Some (ThJoined thr)) me (th_pc s)) as Epc by done.
  assert (th_os s2 = delete i (th_os s)) as Eos by done.
  assert (forall i' e', th_os s !! i' = Some e' -> os_arg e' = thr -> i' = i) as Huniq.
  { intros i' e' He' Ha'. destruct (ti_os _ Hi i' e' He') as (_&(o'&Ho'&Hid')&_). rewrite Ha', Ho in Ho'. congruence. }
  split; [|apply (aux_step s s2 me _ _ r k Ha Epc eq_refl)].
  - apply (only_thr_inv thr me s s2 Hi); [apply (pc_inv s s2 me thr (ThDied thr) (Some (ThJoined thr)) Hi Hpc); try done| | | | |].
    + right. by eexists.
    + intros p. exact (children_same s thr p Hi).
    + intros i' e' Ha'. rewrite Eos, lookup_delete_Some. split; [by intros [_ ?]|]. intros He'. split; [congruence|done].
    + intros o' Ho'. exists me, false, l. rewrite Epc, lookup_partial_alter, decide_True by done. cbn [about_thr pc_thr]. rewrite decide_True by done.
      split_and!; [done|done|done|done|]. intros i' e'. rewrite Eos, lookup_delete_Some. intros [Hne He'] Ha'. by destruct (Huniq i' e' He' Ha').
    + intros i' e'. rewrite Eos, lookup_delete_Some. intros [Hne He'] Ha'. by destruct (Huniq i' e' He' Ha').
    + intros p l' Hl' Hin'. by apply (ti_list _ Hi p l' Hl').
    + intros _. by exists o.
    + intros x. rewrite Epc, lookup_partial_alter, decide_True by done. intros [= <-]. by exists false.
  - intros t. rewrite Eos, lookup_delete. case_decide as Et; [|done]. subst t. rewrite He. cbn. by rewrite Est.
Qed.

Lemma died_free_spec me thr s r k : thread_inv s -> th_aux s me = (Some (ThJoined thr), r, k) ->
  wp thbreach (iv_thread_died_free me thr;; at_pc me None) s (fun _ s' => thread_inv s' /\ others_th s s' me /\ th_aux s' me = (None, r, k)).
Proof.
  intros Hi Ha. assert (Hpc := Ha). injection Hpc as Hpc _ _. destruct (pc_owner s me _ Hi Hpc) as (o&b&l&Ho&Hd&Hl&Hnd&Hin&->&Hnos). cbn in Ho, Hd.
  unfold iv_thread_died_free. wbind. wrun (th_load_Ok s thr o Ho). wprim.
  wbind. eapply wp_mono; [apply line_spec|]. cbv beta. intros _ s1 (E1&E2&E3&E4&E5&E6). wprim. rewrite E2, Hl. wprim. rewrite (bool_decide_eq_true_2 _ Hin). wprim.
  match goal with |- wp _ _ ?st _ => set (s2 := st) end. assert (th_dead s2 !! thr = Some (me, false)) as Hd2 by (cbn; by rewrite E3). assert (th_objs s2 !! thr = Some o) as Ho2 by (cbn; by rewrite E1).
  wrun (event_unregister_Ok s2 thr _ Hd2). eapply wp_Ok; [by apply (free_thr_Ok _ thr o)|]. eapply wp_Ok; [reflexivity|].
  match goal with |- thread_inv ?st /\ _ => set (s3 := st) end. assert (th_pc s3 = partial_alter (fun _ => None) me (th_pc s)) as Epc by (rewrite <-E5; done).
  assert (th_os s3 = th_os s) as Eos by done. assert (th_dead s3 = delete thr (th_dead s)) as Edd by (rewrite <-E3; done). assert (th_objs s3 = delete thr (th_objs s)) as Eo by (rewrite <-E1; done).
  assert (th_children s3 = <[me := filter (.≠ thr) l]> (th_children s)) as Ec by done. assert (th_key s3 = th_key s) as Ek by done.
  split; [|apply (aux_step s s3 me None _ r k Ha Epc Ek)].
  - apply (only_thr_inv thr me s s3 Hi); [apply (pc_inv s s3 me thr (ThJoined thr) None Hi Hpc); try done| | | | |].
    + by left.
    + intros t Ht. by rewrite Eo, lookup_delete_ne.
    + intros t Ht. by rewrite Edd, lookup_delete_ne.
    + intros p. rewrite Ec, lookup_insert. case_decide as Ep; [subst p; rewrite Hl|exact (children_same s thr p Hi)]. split; [by apply NoDup_filter|].
      intros t Ht. rewrite list_elem_of_filter. naive_solver.
    + intros i e _. by rewrite Eos.
    + intros o' Ho'. by rewrite Eo, lookup_delete_eq in Ho'.
    + intros i e He Harg. rewrite Eos in He. by destruct (Hnos i e He).
    + intros p l'. rewrite Ec. intros [[<- <-]|[Hne Hl']]%lookup_insert_Some Hin'; [by apply list_elem_of_filter in Hin' as [? _]|].
      destruct (ti_list _ Hi p l' Hl') as [_ Hx]. destruct (Hx thr Hin') as [b' Hb']. rewrite Hd in Hb'. injection Hb' as <- <-. congruence.
    + rewrite Edd, lookup_delete_eq. by intros [? ?].
    + intros x. rewrite Epc, lookup_partial_alter, decide_True by done. done.
  - intros t. by rewrite Eos.
Qed.

(** ** The rest *)
Lemma tinit_spec me s r k : thread_inv s -> th_aux s me = (None, r, k) ->
  wp thbreach (thread_init me) s (fun _ s' => thread_inv s' /\ others_th s s' me /\ th_aux s' me = (None, r, k)).
Proof.
  intros Hi Ha. unfold thread_init. wprim. unfold requires. case_bool_decide as Hno; [|cbn; by left]. wprim. eapply wp_Ok; [reflexivity|].
  set (s2 := set_th_children _ s). assert (th_children s2 = <[me := []]> (th_children s)) as Ec by done. split_and!.
  - destruct Hi as [I1 I2 I3 I4 I5]. split; [|exact I2| |exact I4|exact I5].
    + intros thr o Ho. destruct (I1 thr o Ho) as (p&b&l&Hd&Hl&Hst). exists p, b, l. split_and!; [done| |done]. rewrite Ec, lookup_insert_ne; [done|congruence].
    + intros p l. rewrite Ec. intros [[<- <-]|[_ Hl]]%lookup_insert_Some; [|by apply I3]. split; [constructor|set_solver].
  - by apply others_intro.
  - injection Ha as Hpc Hr Hk. unfold th_aux. cbn. by rewrite Hpc, Hr, Hk.
Qed.

Lemma tdeinit_spec me s r k : thread_inv s -> th_aux s me = (None, r, k) ->
  wp thbreach (deinit_section me) s (fun _ s' => thread_inv s' /\ others_th s s' me /\ th_aux s' me = (None, r, k)).
Proof.
  intros Hi Ha. unfold deinit_section. wprim. unfold requires. case_bool_decide as Hl; [|cbn; by left]. wprim.
  unfold thread_deinit, iv_thread_tls_deinit_thread. wbind. wprim. rewrite Hl. wprim. eapply wp_Ok; [reflexivity|]. eapply wp_Ok; [reflexivity|].
  set (s2 := set_th_children _ s). assert (th_children s2 = delete me (th_children s)) as Ec by done. injection Ha as Hpc Hr Hk. split_and!.
  - destruct Hi as [I1 I2 I3 I4 I5]. split; [|exact I2| |exact I4|exact I5].
    + intros thr o Ho. destruct (I1 thr o Ho) as (p&b&l&Hd&Hl'&Hst). exists p, b, l. split_and!; [done| |done]. rewrite Ec, lookup_delete_ne; [done|]. intros <-.
      rewrite Hpc in Hst. cbn in Hst. destruct Hst as [Hin _]. assert (l = []) as -> by congruence. by apply not_elem_of_nil in Hin.
    + intros p l. rewrite Ec. intros [_ Hl']%lookup_delete_Some. by apply I3.
  - by apply others_intro.
  - unfold th_aux. cbn. by rewrite Hpc, Hr, Hk.
Qed.

Lemma list_children_spec me s : thread_inv s -> wp thbreach (inited me;; iv_thread_list_children me) s (fun _ s' => same_threads s s').
Proof.
  intros Hi. unfold iv_thread_list_children, inited. wbind. wprim. unfold requires. case_bool_decide as Hc; [|cbn; by left]. destruct Hc as [l Hl]. eapply wp_Ok; [reflexivity|].
  wprim. rewrite Hl. wprim. unfold iv_thread_get_id. destruct (tk_gettid me (th_w s)) as [tid w'] eqn:E. wrun (tk_kernel_Ok (tk_gettid me) s tid w' E). wprim.
  match goal with |- wp _ _ ?st _ => set (s1 := st) end. assert (same_threads s s1) as H1 by done. clearbody s1.
  assert (forall thr, thr ∈ l -> is_Some (th_objs s !! thr)) as Hobjs.
  { intros thr Hin. apply (ti_dead _ Hi). destruct (ti_list _ Hi me l Hl) as [_ Hx]. destruct (Hx thr Hin) as [b Hb]. by rewrite Hb. }
  clear Hl. revert s1 H1. induction l as [|thr l IH]; intros s1 H1; [by eapply wp_Ok|]. cbn [list_all].
  destruct (Hobjs thr) as [o Ho]; [set_solver|]. assert (th_objs s1 !! thr = Some o) as Ho1 by (destruct H1 as [-> _]; done).
  wrun (th_load_Ok s1 thr o Ho1). wprim. apply IH; [set_solver|done].
Qed.

(** ** A thread that was made *)

(** A thread of the kernel has its memory, and an owner. *)
Lemma os_owner s i e : thread_inv s -> th_os s !! i = Some e -> exists o p b l, th_objs s !! os_arg e = Some o /\ thr_id o = Some i /\
  th_dead s !! os_arg e = Some (p, b) /\ th_children s !! p = Some l /\ os_detached e = false /\
  match about_thr (os_arg e) (th_pc s !! p) with
  | Some (ThAdd _) => os_arg e ∉ l /\ os_posted e = b
  | Some (ThDied _) => os_arg e ∈ l /\ b = false /\ os_posted e = true
  | None => os_arg e ∈ l /\ os_posted e = b
  | _ => False
  end.
Proof.
  intros Hi He. destruct (ti_os _ Hi i e He) as (_&(o&Ho&Hid)&_). destruct (ti_obj _ Hi _ o Ho) as (p&b&l&Hd&Hl&Hst).
  assert (forall b', has_thread s (os_arg e) o b' -> os_detached e = false /\ os_posted e = b') as Hhas.
  { intros b' (i'&e'&Hi'&He'&_&?&?). assert (i' = i) as -> by congruence. assert (e' = e) as -> by congruence. done. }
  exists o, p, b, l. split_and!; [done|done|done|done| |]; destruct (about_thr _ _) as [[t|t|t|t|t]|]; destruct_and?.
  all: match goal with
    | H : forall i e, _ = Some e -> os_arg e <> _ |- _ => by destruct (H i e He eq_refl)
    | H : has_thread _ _ _ _ |- _ => by destruct (Hhas _ H); split_and?
    end.
Qed.
Lemma view_running s me thr b : thread_inv s -> running (th_os s !! me) = Some (thr, b) ->
  exists e, th_os s !! me = Some e /\ os_arg e = thr /\ os_posted e = b /\ os_state e = OsRunning.
Proof. intros Hi H. destruct (th_os s !! me) as [e|]; [|done]. exists e. cbn in H. destruct (os_state e); naive_solver. Qed.

Lemma obj_known s me thr b : thread_inv s -> running (th_os s !! me) = Some (thr, b) -> exists o, th_objs s !! thr = Some o.
Proof. intros Hi H. destruct (view_running s me thr b Hi H) as (e&He&<-&_). destruct (ti_os _ Hi me e He) as (_&(o&Ho&_)&_). by exists o. Qed.

(** The kernel's view of a thread changes. *)
Lemma os_inv s s' me e e' : thread_inv s -> th_os s !! me = Some e -> os_arg e' = os_arg e -> os_detached e' = os_detached e ->
  match os_state e' with OsReady => os_posted e' = false | OsRunning => True | OsExited => os_posted e' = true end ->
  th_objs s' = th_objs s -> th_children s' = th_children s -> th_pc s' = th_pc s -> th_os s' = <[me := e']> (th_os s) ->
  (os_posted e' = os_posted e /\ th_dead s' = th_dead s \/
   os_posted e = false /\ os_posted e' = true /\ exists p b, th_dead s !! os_arg e = Some (p, b) /\ th_dead s' = <[os_arg e := (p, true)]> (th_dead s)) ->
  thread_inv s'.
Proof.
  intros Hi He Ea Edet Hstate E1 E2 E3 E4 Hd. destruct (os_owner s me e Hi He) as (o&p&b&l&Ho&Hid&Hdd&Hl&Hdet&Hst).
  assert (exists b', th_dead s' !! os_arg e = Some (p, b') /\ match about_thr (os_arg e) (th_pc s !! p) with
    | Some (ThAdd _) => os_arg e ∉ l /\ os_posted e' = b' | Some (ThDied _) => os_arg e ∈ l /\ b' = false /\ os_posted e' = true
    | None => os_arg e ∈ l /\ os_posted e' = b' | _ => False end) as (b'&Hd'&Hst').
  { destruct Hd as [[-> ->] | (Hf&->&p'&b0&Hp&->)]; [by exists b|]. exists true. assert (p' = p) as -> by congruence. rewrite lookup_insert_eq. split; [done|].
    destruct (about_thr _ _) as [[t|t|t|t|t]|]; naive_solver congruence. }
  assert (forall t, t <> os_arg e -> th_dead s' !! t = th_dead s !! t) as Hother.
  { intros t Ht. destruct Hd as [[_ ->] | (_&_&p'&b0&_&->)]; [done|by rewrite lookup_insert_ne]. }
  apply (only_thr_inv (os_arg e) p s s' Hi); rewrite ?E1, ?E2, ?E3, ?E4.
  - split; rewrite ?E1, ?E2, ?E3, ?E4; [done|done| |done|by right| |].
    + intros q. exact (children_same s (os_arg e) q Hi).
    + intros i e2 Hne. rewrite lookup_insert_Some. split; [intros [[<- <-]|[_ ?]]; [congruence|done]|]. intros He2. right. split; [congruence|done].
    + intros q b0 Hb0. congruence.
  - intros o' Ho'. assert (o' = o) as -> by congruence. exists p, b', l. rewrite E2, E3. split_and!; [done|done|].
    assert (forall v, os_posted e' = v -> has_thread s' (os_arg e) o v) as Hhas.
    { intros v Hv. exists me, e'. rewrite E4, lookup_insert_eq. split_and!; [done|done|done|congruence|done]. }
    destruct (about_thr _ _) as [[t|t|t|t|t]|]; naive_solver.
  - intros i e2 [[<- <-]|[Hne He2]]%lookup_insert_Some Ha2.
    + destruct (ti_os _ Hi me e He) as (Hm&_). split_and!; [done| |done]. exists o. by rewrite E1, Ea.
    + destruct (ti_os _ Hi i e2 He2) as (Hm&(o2&Ho2&Hi2)&H3). rewrite Ha2, Ho in Ho2. congruence.
  - intros q l' Hl' Hin. destruct (ti_list _ Hi q l' Hl') as [_ Hx]. destruct (Hx _ Hin) as [b0 Hb0]. exists b'. congruence.
  - intros _. by exists o.
  - intros x Hx. destruct (ti_pc _ Hi p x Hx) as [b0 Hb0]. destruct (decide (pc_thr x = os_arg e)) as [-> |Hne]; [by exists b'|]. exists b0. by rewrite Hother.
Qed.

Lemma thread_begin_spec me s : thread_inv s -> th_aux s me = (None, None, None) ->
  wp thbreach (thread_begin me) s (fun m s' => thread_inv s' /\ others_th s s' me /\ th_aux s' me = (None, (fun t => (t, false)) <$> m, None)).
Proof.
  intros Hi Ha. assert (Hx := Ha). injection Hx as Hpc Hr Hk. unfold thread_begin. wprim. destruct (th_os s !! me) as [e|] eqn:He; [|by eapply wp_Ok].
  destruct (os_state e) eqn:Est; [|by eapply wp_Ok|by eapply wp_Ok]. wprim. eapply wp_Ok; [reflexivity|]. pose proof (ti_os _ Hi me e He) as (_&_&Hp). rewrite Est in Hp.
  match goal with |- thread_inv ?st /\ _ => set (s1 := st) end. assert (th_os s1 = <[me := set_os_state OsRunning e]> (th_os s)) as Eos by done. split_and!.
  - apply (os_inv s s1 me e (set_os_state OsRunning e) Hi He); try done. left. done.
  - apply others_intro; [done| |done]. intros t Ht. by rewrite Eos, lookup_insert_ne.
  - unfold th_aux. rewrite Eos, lookup_insert_eq. cbn. by rewrite Hpc, Hk, Hp.
Qed.

Lemma key_destructor_spec me thr s : thread_inv s -> th_aux s me = (None, Some (thr, false), Some thr) ->
  wp thbreach (key_destructor me) s (fun _ s' => thread_inv s' /\ others_th s s' me /\ th_aux s' me = (None, Some (thr, true), None)).
Proof.
  intros Hi Ha. assert (Hx := Ha). injection Hx as Hpc Hr Hk. destruct (view_running s me thr false Hi Hr) as (e&He&Harg&Hp&Hst).
  destruct (os_owner s me e Hi He) as (o&p&b&l&Ho&Hid&Hdd&Hl&Hdet&_). rewrite Harg in Ho, Hdd.
  unfold key_destructor. wprim. rewrite Hk. wprim. unfold iv_thread_destructor. wrun (th_load_Ok (set_th_key (delete me (th_key s)) s) thr o Ho). wprim.
  wbind. eapply wp_mono; [apply line_spec|]. cbv beta. intros _ s1 (E1&E2&E3&E4&E5&E6). cbn in E1, E2, E3, E4, E5, E6.
  wbind. unfold event_post. wprim. rewrite E3, Hdd. do 2 wprim. rewrite E2. cbn [fst]. rewrite Hl. wprim. eapply wp_Ok; [reflexivity|]. eapply wp_Ok; [reflexivity|].
  match goal with |- thread_inv ?st /\ _ => set (s2 := st) end.
  assert (th_os s2 = <[me := set_os_posted true e]> (th_os s)) as Eos.
  { unfold s2. cbn. rewrite E4. apply map_eq. intros i. rewrite lookup_insert, lookup_alter. case_decide as Ei; [|done]. subst i. by rewrite He. }
  split_and!.
  - apply (os_inv s s2 me e (set_os_posted true e) Hi He); try done; [cbn; by rewrite Hst|]. right. split_and!; [done|done|]. exists p, b. by rewrite Harg.
  - apply others_intro; [intros t Ht; unfold s2; cbn; by rewrite E5|intros t Ht; by rewrite Eos, lookup_insert_ne|]. intros t Ht. unfold s2. cbn. rewrite E6. by rewrite lookup_delete_ne.
  - unfold th_aux. rewrite Eos, lookup_insert_eq. cbn. rewrite E5, E6, lookup_delete_eq, Hst, Harg, Hpc. done.
Qed.

Lemma thread_end_spec me thr s : thread_inv s -> th_aux s me = (None, Some (thr, true), None) ->
  wp thbreach (thread_end me) s (fun _ s' => thread_inv s' /\ others_th s s' me /\ th_aux s' me = (None, None, None)).
Proof.
  intros Hi Ha. assert (Hx := Ha). injection Hx as Hpc Hr Hk. destruct (view_running s me thr true Hi Hr) as (e&He&Harg&Hp&Hst).
  destruct (os_owner s me e Hi He) as (o&p&b&l&Ho&Hid&Hdd&Hl&Hdet&_). unfold thread_end. wprim. rewrite He. wprim. rewrite Hdet. eapply wp_Ok; [reflexivity|].
  match goal with |- thread_inv ?st /\ _ => set (s1 := st) end. assert (th_os s1 = <[me := set_os_state OsExited e]> (th_os s)) as Eos by done. split_and!.
  - apply (os_inv s s1 me e (set_os_state OsExited e) Hi He); try done. by left.
  - apply others_intro; [done| |done]. intros t Ht. by rewrite Eos, lookup_insert_ne.
  - unfold th_aux. rewrite Eos, lookup_insert_eq. cbn. by rewrite Hpc, Hk.
Qed.

(** A field of a thread's memory that the invariant does not mention. *)
Lemma tid_inv s s' thr o o' : thread_inv s -> th_objs s !! thr = Some o -> thr_id o' = thr_id o -> th_objs s' = <[thr := o']> (th_objs s) ->
  th_children s' = th_children s -> th_dead s' = th_dead s -> th_os s' = th_os s -> th_pc s' = th_pc s -> thread_inv s'.
Proof.
  intros [I1 I2 I3 I4 I5] Ho Hid E1 E2 E3 E4 E5. split; unfold obj_ok, has_thread, os_ok; rewrite ?E1, ?E2, ?E3, ?E4, ?E5; [| |exact I3| |exact I5].
  - intros t x [[<- <-]|[Hne Hx]]%lookup_insert_Some; [rewrite Hid; exact (I1 thr o Ho)|exact (I1 t x Hx)].
  - intros i e He. destruct (I2 i e He) as (H1&(x&Hx&Hi)&H3). split_and!; [done| |done]. rewrite lookup_insert. case_decide as Et; [|by exists x]. exists o'. subst thr. split; [done|congruence].
  - intros t Ht. rewrite lookup_insert. case_decide; [by eexists|by apply I4].
Qed.
End spec.
