(* ===== verification/ThreadProps.v ===== *)
(** * What holds in every run of threads that make threads *)

From Stdlib Require Import String.
From S2P Require Import Prelude Conc Thread ThreadSpec.

Local Open Scope Z_scope.

Section props.
Context {W : Type} `{!ThreadKernel W, HL : !ThreadLaws W}.
Context (mains : gset loc) (routine : Z -> Z -> list thread_call).
Abbreviation St := (thread_state W).
Implicit Types (s : St) (t me p i : loc) (o : iv_thread) (e : os_thread).
Abbreviation thc := (wpc (thread_inv mains) (th_aux (W := W)) thbreach).
Abbreviation view := (option thread_pc * option (loc * bool) * option loc)%type.

(** ** The programs, one thread at a time *)
Lemma act_thc me {A B} (m : M St A) (k : A -> prog St B) (v : view) (R : A -> view -> Prop) Q :
  (forall s, thread_inv mains s -> th_aux s me = v -> wp thbreach m s (fun a s' => thread_inv mains s' /\ others_th s s' me /\ R a (th_aux s' me))) ->
  (forall a v', R a v' -> thc me (k a) v' Q) -> thc me (a ← act m; k a) v Q.
Proof.
  intros Hm Hk. apply wpc_bind, wpc_act. intros s Hi Ha. eapply wp_mono; [by apply Hm|]. cbv beta. intros a s' (?&Ho&?).
  split_and!; [done|exact Ho|by apply Hk].
Qed.
(** The last action of a program. *)
Lemma end_thc me (m : M St unit) (v v' : view) :
  (forall s, thread_inv mains s -> th_aux s me = v -> wp thbreach m s (fun _ s' => thread_inv mains s' /\ others_th s s' me /\ th_aux s' me = v')) ->
  thc me (act m) v (fun _ l => l = v').
Proof. intros Hm. apply (act_thc me m Ret v (fun _ l => l = v')); [exact Hm|]. by intros a l ->. Qed.
(** What does not concern threads. *)
Lemma quiet_thc me {A B} (m : M St A) (k : A -> prog St B) v Q :
  (forall s, thread_inv mains s -> wp thbreach m s (fun _ s' => same_threads s s')) -> (forall a, thc me (k a) v Q) -> thc me (a ← act m; k a) v Q.
Proof.
  intros Hm Hk. apply (act_thc me m k v (fun _ l => l = v)); [|by intros a ? ->]. intros s Hi Ha. eapply wp_mono; [by apply Hm|]. cbv beta.
  intros _ s' Hs. destruct (same_threads_ok mains s s' Hs Hi) as [? He]. split_and!; [done|by intros t _|by rewrite He].
Qed.
Lemma seq_thc me {A B} (p1 : prog St A) (k : A -> prog St B) v v' Q : thc me p1 v (fun _ l => l = v') -> (forall a, thc me (k a) v' Q) -> thc me (p1 ≫= k) v Q.
Proof. intros H Hk. apply wpc_bind. eapply wpc_mono; [exact H|]. cbv beta. by intros a l ->. Qed.

Lemma create_thc me name start arg r k : thc me (iv_thread_create mains me name start arg) (None, r, k) (fun _ l => l = (None, r, k)).
Proof.
  unfold iv_thread_create. eapply (act_thc me _ _ _ (fun (m : option loc) l => l = (ThNew <$> m, r, k))); [intros s Hi Ha; by apply (thread_new_spec mains me name start arg s r k)|]. cbv beta.
  intros [thr|] ? ->; [|done]. eapply (act_thc me _ _ _ (fun ok l => l = (Some (if ok : bool then ThAdd thr else ThFailed thr), r, k))); [intros s Hi Ha; by apply (thread_start_spec mains me thr s r k)|]. cbv beta. intros [] ? ->.
  - eapply seq_thc; [apply end_thc; intros s Hi Ha; by apply (thread_started_spec mains me thr name s r k)|done].
  - eapply seq_thc; [apply end_thc; intros s Hi Ha; by apply (thread_failed_spec mains me thr name s r k)|done].
Qed.
Lemma call_thc me c r k : thc me (run_thread_call mains me c) (None, r, k) (fun _ l => l = (None, r, k)).
Proof.
  destruct c as [|name start arg|thr| |state|]; cbn [run_thread_call].
  - apply end_thc. intros s Hi Ha. by apply tinit_spec.
  - eapply seq_thc; [apply create_thc|done].
  - eapply (act_thc me _ _ _ (fun b l => l = (if b : bool then Some (ThDied thr) else None, r, k))); [intros s Hi Ha; by apply (take_dead_spec mains me thr s r k)|]. cbv beta. intros [] ? ->; [|done]. unfold iv_thread_died.
    eapply seq_thc; [apply end_thc; intros s Hi Ha; by apply (died_join_spec mains me thr s r k)|]. intros _.
    apply end_thc. intros s Hi Ha. by apply (died_free_spec mains me thr s r k).
  - apply end_thc. intros s Hi Ha. by apply tdeinit_spec.
  - apply (quiet_thc me _ Ret); [|done]. intros s Hi. by eapply wp_Ok.
  - apply (quiet_thc me _ Ret); [|done]. intros s Hi. by apply (list_children_spec mains).
Qed.
Lemma calls_thc me cs r k : thc me (run_thread_calls mains me cs) (None, r, k) (fun _ l => l = (None, r, k)).
Proof. induction cs as [|c cs IH]; [done|]. eapply seq_thc; [apply call_thc|]. by intros _. Qed.

Lemma handler_thc me thr : thc me (iv_thread_handler mains routine me thr) (None, Some (thr, false), None) (fun _ l => l = (None, Some (thr, false), Some thr)).
Proof.
  unfold iv_thread_handler. eapply (act_thc me _ _ _ (fun _ l => l = (None, Some (thr, false), Some thr))).
  { intros s Hi [= Hpc Hr Hk]. eapply wp_Ok; [reflexivity|]. split_and!; [by apply (inv_ext mains s)|apply others_intro; [done|done|]|].
    - intros t Ht. cbn. by rewrite lookup_insert_ne.
    - unfold th_aux. cbn. by rewrite Hpc, Hr, lookup_insert_eq. }
  intros _ ? ->. eapply (act_thc me _ _ _ (fun _ l => l = (None, Some (thr, false), Some thr))).
  { intros s Hi Ha. assert (Hx := Ha). injection Hx as Hpc Hr Hk. destruct (obj_known mains s me thr false Hi Hr) as [o Ho]. unfold iv_thread_get_id.
    destruct (tk_gettid me (th_w s)) as [tid w'] eqn:E. wrun (tk_kernel_Ok (tk_gettid me) s tid w' E). eapply wp_Ok; [by apply (th_upd_Ok _ thr o)|].
    split_and!; [|by apply others_intro|done]. by apply (tid_inv mains s _ thr o (set_thr_tid tid o) Hi Ho). }
  intros _ ? ->. eapply (act_thc me _ _ _ (fun _ l => l = (None, Some (thr, false), Some thr))).
  { intros s Hi Ha. assert (Hx := Ha). injection Hx as Hpc Hr Hk. destruct (obj_known mains s me thr false Hi Hr) as [o Ho]. by eapply wp_Ok; [apply (th_load_Ok s thr o Ho)|]. }
  intros o ? ->. apply calls_thc.
Qed.
Lemma state_destructor_thc me r k : thc me (act (state_destructor me)) (None, r, k) (fun _ l => l = (None, r, k)).
Proof.
  apply end_thc. intros s Hi Ha. unfold state_destructor. wprim. destruct (th_children s !! me); [by apply tdeinit_spec|by eapply wp_Ok].
Qed.
Lemma main_thc me : thc me (thread_main mains routine me) (None, None, None) (fun _ l => l = (None, None, None)).
Proof.
  unfold thread_main. eapply (act_thc me _ _ _ (fun (m : option loc) l => l = (None, (fun t => (t, false)) <$> m, None))); [intros s Hi Ha; by apply (thread_begin_spec mains me s)|]. cbv beta. intros [thr|] ? ->; [|done].
  eapply seq_thc; [apply handler_thc|]. intros _. unfold thread_exit. eapply quiet_thc.
  { intros s Hi. destruct (tk_state_first (th_w s)) as [b w'] eqn:E. eapply wp_Ok; [apply (tk_kernel_Ok _ s b w' E)|done]. }
  assert (thc me (act (key_destructor me)) (None, Some (thr, false), Some thr) (fun _ l => l = (None, Some (thr, true), None))) as Hkey
    by (apply end_thc; intros s Hi Ha; by apply (key_destructor_spec mains me thr s)).
  intros first. eapply (seq_thc me _ _ _ (None, Some (thr, true), None)).
  - destruct first; (eapply seq_thc; [first [exact Hkey|apply state_destructor_thc]|]; intros _; first [exact Hkey|apply state_destructor_thc]).
  - intros _. apply end_thc. intros s Hi Ha. by apply (thread_end_spec mains me thr s).
Qed.

(** ** Runs *)
Definition thread_may_start t (pr : prog St unit) : Prop := exists j, thread_may_begin mains routine t j = Some pr.
Definition thread_reachable (c : St * gmap loc (prog St unit)) : Prop := exists ids w, steps thread_may_start (thread_boot ids w) c.
Abbreviation idle := ((None, None, None) : view).

Lemma thread_start_ok t (pr : prog St unit) : thread_may_start t pr -> thc t pr idle (fun _ l => l = idle).
Proof. intros [[cs|] E]; cbn in E; case_bool_decide; try done; injection E as <-; [apply calls_thc|apply main_thc]. Qed.
Lemma thread_boot_ok ids (w : W) : config_ok (thread_inv (W := W) mains) th_aux idle thbreach (thread_boot ids w).
Proof.
  split; [by split; cbn; try done; intros ? [? ?]|]. intros t pr Ht. cbn in Ht. apply lookup_gset_to_gmap_Some in Ht as [_ <-]. done.
Qed.
Lemma thread_reachable_ok c : thread_reachable c -> config_ok (thread_inv (W := W) mains) th_aux idle thbreach c.
Proof. intros (ids&w&Hs). eapply steps_ok; [exact thread_start_ok|apply thread_boot_ok|exact Hs]. Qed.

(** C10. In every interleaving of the threads of a process that make threads with
    [iv_thread_create], run their event loops and end, no thread's next action is
    undefined: no memory of a thread is used after it was freed or freed twice, no thread is
    joined twice or detached, no event is posted to a thread whose library was torn down,
    and no event is unregistered that is not registered; provided that [iv_event_register]
    succeeds ([tl_event_register]; otherwise [iv_thread_unregistered_post]) and that the
    client calls [iv_deinit] in a thread only once the threads that it made have been
    joined ([deinit_section]; otherwise [iv_thread_detached_post]). *)
Theorem iv_thread_safe s pool t B (m : M St B) (go_on : B -> prog St unit) : thread_reachable (s, pool) -> pool !! t = Some (Act m go_on) ->
  wp thbreach m s (fun _ _ => True).
Proof. intros Hr Hp. exact (config_safe _ _ _ _ (s, pool) t B m go_on (thread_reachable_ok _ Hr) Hp). Qed.

(** C9. From [pthread_create] until it is joined, a thread has an event registered with
    the thread that made it, whose library is initialised, so that this thread's main
    loop does not run out of objects; when it has ended the event is pending, unless the
    handler is about to join it.  When no thread is inside of [iv_thread_create] or
    [iv_thread_died], the memory, the events and the list entries are those of threads
    that exist, one each: once all have been joined nothing is left.  This is under the
    same two provisions as the safety of threads: [iv_event_register] succeeds, and
    [iv_deinit] is called once the threads made were joined. *)
Theorem iv_thread_reference s pool : thread_reachable (s, pool) ->
  (forall i e, th_os s !! i = Some e -> exists p pending l, th_dead s !! os_arg e = Some (p, pending) /\ th_children s !! p = Some l /\
    (os_state e = OsExited -> pending = true \/ th_pc s !! p = Some (ThDied (os_arg e)))) /\
  ((forall t, th_pc s !! t = None) ->
    (forall thr, is_Some (th_objs s !! thr) <-> exists i e, th_os s !! i = Some e /\ os_arg e = thr) /\
    (forall thr p, (exists pending, th_dead s !! thr = Some (p, pending)) <-> exists l, th_children s !! p = Some l /\ thr ∈ l) /\
    (forall i1 i2 e1 e2, th_os s !! i1 = Some e1 -> th_os s !! i2 = Some e2 -> os_arg e1 = os_arg e2 -> i1 = i2) /\
    (th_os s = ∅ -> th_objs s = ∅ /\ th_dead s = ∅)).
Proof.
  intros Hr. pose proof (co_inv _ _ _ _ _ (thread_reachable_ok _ Hr)) as Hi. cbn in Hi. clear Hr. split; [|intros Hpc; split_and!].
  - intros i e He. destruct (os_owner mains s i e Hi He) as (o&p&b&l&Ho&Hid&Hd&Hl&_&Hst). exists p, b, l. split_and!; [done|done|].
    intros Hx. destruct (ti_os _ _ Hi i e He) as (_&_&Hp). rewrite Hx in Hp. rewrite Hp in Hst.
    destruct (th_pc s !! p) as [x|] eqn:Ex; cbn in Hst; [|left; by destruct Hst]. case_decide as Et; [|left; by destruct Hst].
    destruct x as [t|t|t|t|t]; try done; [left; by destruct Hst|right]. cbn in Et. by subst t.
  - intros thr. split.
    + intros [o Ho]. destruct (ti_obj _ _ Hi thr o Ho) as (p&b&l&Hd&Hl&Hst). rewrite Hpc in Hst. destruct Hst as (_&i&e&_&He&Ha&_). by exists i, e.
    + intros (i&e&He&<-). destruct (ti_os _ _ Hi i e He) as (_&(o&Ho&_)&_). by eexists.
  - intros thr p. split.
    + intros [b Hb]. destruct (owned_thr mains s thr p b Hi Hb (Hpc p)) as (o&l&_&Hl&Hin&_). by exists l.
    + intros (l&Hl&Hin). by apply (ti_list _ _ Hi p l Hl).
  - intros i1 i2 e1 e2 H1 H2 E. destruct (ti_os _ _ Hi i1 e1 H1) as (_&(o1&Ho1&Hi1)&_), (ti_os _ _ Hi i2 e2 H2) as (_&(o2&Ho2&Hi2)&_). congruence.
  - intros Hos. assert (th_objs s = ∅) as Ho.
    { apply map_empty. intros thr. destruct (th_objs s !! thr) as [o|] eqn:Ho; [|done]. destruct (ti_obj _ _ Hi thr o Ho) as (p&b&l&Hd&Hl&Hst).
      rewrite Hpc in Hst. destruct Hst as (_&i&e&_&He&_). rewrite Hos in He. done. }
    split; [done|]. apply map_empty. intros thr. destruct (th_dead s !! thr) as [e|] eqn:Hd; [|done]. destruct (ti_dead _ _ Hi thr) as [o Hx]; [by eexists|]. rewrite Ho in Hx. done.
Qed.

Lemma detach_all_frame l s s' : detach_all l s = Ok (tt, s') -> th_objs s' = th_objs s /\ th_children s' = th_children s /\ th_dead s' = th_dead s /\ th_key s' = th_key s.
Proof.
  revert s. induction l as [|thr l IH]; intros s; cbn [detach_all]; [by intros [= <-]|]. intros Hx.
  destruct (bind_Ok_inv _ _ _ _ _ Hx) as (o&s1&H1&Hx1). destruct (bind_Ok_inv _ _ _ _ _ Hx1) as (id&s2&H2&Hx2). destruct (bind_Ok_inv _ _ _ _ _ Hx2) as ([]&s3&H3&Hx3).
  assert (s1 = s) as -> by (revert H1; unfold load_thr; cbv [gets mbind M_bind deref]; destruct (th_objs s !! thr); [by intros [= _ <-]|done]).
  assert (s2 = s) as -> by (revert H2; unfold deref; destruct (thr_id o); [by intros [= _ <-]|done]).
  destruct (IH s3 Hx3) as (->&->&->&->). revert H3. unfold pthr_detach. cbv [gets mbind M_bind]. destruct (th_os s !! id) as [e|]; cbn; [|done].
  destruct (os_detached e); [done|]. destruct (os_state e); by intros [= <-].
Qed.

(** What pthread_detach(3) leaves of a thread: nothing once it has ended. *)
Definition detached (e : os_thread) : option os_thread :=
  match os_state e with OsExited => None | _ => Some (set_os_detached true e) end.
Lemma detach_all_spec l : forall ids s,
  Forall2 (fun thr id => exists o, th_objs s !! thr = Some o /\ thr_id o = Some id) l ids -> NoDup ids ->
  Forall (fun id => exists e, th_os s !! id = Some e /\ os_detached e = false) ids ->
  exists m, detach_all l s = Ok (tt, set_th_os m s) /\
    forall i, m !! i = if decide (i ∈ ids) then th_os s !! i ≫= detached else th_os s !! i.
Proof.
  induction l as [|thr l IH]; intros ids s Hl Hnd Hids; cbn [detach_all].
  { apply Forall2_nil_inv_l in Hl as ->. exists (th_os s). split; [by destruct s|]. intros i. by rewrite decide_False by apply not_elem_of_nil. }
  apply Forall2_cons_inv_l in Hl as (id&ids'&(o&Ho&Hid)&Hl&->). apply NoDup_cons in Hnd as [Hn Hnd].
  apply Forall_cons in Hids as [(e&He&Hd) Hids]. mrun (th_load_Ok s thr o Ho). rewrite Hid. mrun (deref_Some id s).
  set (m1 := partial_alter (fun _ => detached e) id (th_os s)).
  assert (pthr_detach id s = Ok (tt, set_th_os m1 s)) as E.
  { unfold pthr_detach. msimpl. rewrite He. msimpl. rewrite Hd. unfold m1, detached. by destruct (os_state e). }
  mrun E. destruct (IH ids' (set_th_os m1 s)) as (m&Em&Hm); [done|done| |].
  { eapply Forall_impl; [apply (proj2 (Forall_forall _ ids')); intros i Hi; exact (conj Hi (proj1 (Forall_forall _ _) Hids i Hi))|].
    intros i [Hi (e'&He'&Hd')]. exists e'. cbn. unfold m1. rewrite lookup_partial_alter_ne by congruence. done. }
  exists m. split; [exact Em|]. intros i. rewrite Hm. cbn. unfold m1. destruct (decide (i = id)) as [->|Hne].
  - rewrite (decide_False _ _ Hn), (decide_True _ _ (list_elem_of_here id ids')). by rewrite lookup_partial_alter_eq, He.
  - rewrite lookup_partial_alter_ne by done. apply decide_ext. rewrite elem_of_cons. naive_solver.
Qed.
(** [iv_deinit] of a thread whose children were not joined: those that have ended are gone,
    the others are detached, and other threads are left alone.  (What becomes of the events
    of those that still run is [iv_thread_detached_post].) *)
Theorem iv_thread_deinit_detaches me l ids s : th_children s !! me = Some l ->
  Forall2 (fun thr id => exists o, th_objs s !! thr = Some o /\ thr_id o = Some id) l ids -> NoDup ids ->
  Forall (fun id => exists e, th_os s !! id = Some e /\ os_detached e = false) ids ->
  exists s', thread_deinit me s = Ok (tt, s') /\ th_children s' = delete me (th_children s) /\
    forall i, th_os s' !! i = if decide (i ∈ ids) then th_os s !! i ≫= detached else th_os s !! i.
Proof.
  intros Hc Hl Hnd Hids. destruct (detach_all_spec l ids s Hl Hnd Hids) as (m&E&Hm). exists (set_th_children (delete me (th_children s)) (set_th_os m s)).
  split; [|split; [reflexivity|exact Hm]]. unfold thread_deinit, iv_thread_tls_deinit_thread. msimpl. rewrite Hc. msimpl. by rewrite E.
Qed.

Lemma event_post_undef thr s : (forall e : loc * bool, th_dead s !! thr = Some e -> th_children s !! e.1 = None) -> event_post thr s = Undef.
Proof.
  intros H. unfold event_post. msimpl. destruct (th_dead s !! thr) as [e|]; [|done]. msimpl. by rewrite (H e eq_refl).
Qed.
Lemma destructor_undef i thr s : (forall e : loc * bool, th_dead s !! thr = Some e -> th_children s !! e.1 = None) -> iv_thread_destructor i thr s = Undef.
Proof.
  intros H. unfold iv_thread_destructor, load_thr. msimpl. destruct (th_objs s !! thr) as [o|]; [|done]. msimpl.
  destruct (th_debug s); cbn [when]; cbv [fprintf modify mret M_ret]; cbn; by rewrite event_post_undef.
Qed.

(** A thread that calls [iv_deinit] while a thread it made still runs detaches it, but
    its event stays registered with the state that [iv_deinit] frees: when the thread
    ends it posts to freed memory. *)
Theorem iv_thread_detached_post me i thr b s s' : th_dead s !! thr = Some (me, b) -> th_key s !! i = Some thr ->
  thread_deinit me s = Ok (tt, s') -> key_destructor i s' = Undef.
Proof.
  intros Hd Hk Hx. unfold thread_deinit in Hx. destruct (bind_Ok_inv _ _ _ _ _ Hx) as ([]&s1&H1&H2). injection H2 as <-.
  assert (th_objs s1 = th_objs s /\ th_dead s1 = th_dead s /\ th_key s1 = th_key s) as (E1&E2&E3).
  { revert H1. unfold iv_thread_tls_deinit_thread. cbv [gets mbind M_bind]. destruct (th_children s !! me) as [l|]; cbn; [|done]. intros H1. by destruct (detach_all_frame l s s1 H1) as (?&?&?&?). }
  unfold key_destructor. msimpl. cbn. rewrite E3, Hk. msimpl. apply destructor_undef. cbn. rewrite E2, Hd. intros e [= <-]. apply lookup_delete_eq.
Qed.

(** The result of [iv_event_register] is ignored: when it failed, the thread's end posts an
    event that has no owner. *)
Theorem iv_thread_unregistered_post i thr s : th_dead s !! thr = None -> th_key s !! i = Some thr -> key_destructor i s = Undef.
Proof.
  intros Hd Hk. unfold key_destructor. msimpl. rewrite Hk. msimpl. apply destructor_undef. cbn. by rewrite Hd.
Qed.
End props.

(** ** Witnesses *)
#[global] Instance tsim_kernel : ThreadKernel unit := {
  tk_malloc used w := (Some (fresh used), w);
  tk_strdup name w := (Some name, w);
  tk_create used w := (Some (fresh used), w);
  tk_key_create w := (true, w);
  tk_event_register w := (true, w);
  tk_gettid t w := (Zpos t, w);
  tk_state_first w := (true, w) }.
#[global] Instance tsim_laws : ThreadLaws unit.
Proof. split; [intros used w a w' [= <-]; apply is_fresh..|done]. Qed.

(** Thread 1 makes two threads, the first of which makes one itself. *)
Definition demo_routine (start arg : Z) : list thread_call :=
  if start =? 0 then [] else [ThInit; ThCreate "c" 0 0; ThEvent 3; ThEvent 1; ThDeinit].
Definition demo_thread (cs : list (choice thread_job)) := sched_from (thread_may_begin {[1%positive]} demo_routine) cs (thread_boot {[1; 2; 3; 4]}%positive tt).
Lemma demo_thread_reachable cs : thread_reachable {[1%positive]} demo_routine ((demo_thread cs).1, (demo_thread cs).2).
Proof. rewrite <-surjective_pairing. exists {[1; 2; 3; 4]}%positive, tt. apply sched_steps. Qed.
Definition gos (n : nat) (t : loc) : list (choice thread_job) := replicate n (Go t).
Definition thread_first : list (choice thread_job) :=
  Begin 1 (JobCalls [ThInit; ThDebug 1; ThCreate "a" 1 0; ThCreate "b" 0 0; ThList]) :: gos 9 1.
(** The second thread ends; the first runs up to its own [iv_thread_create], the thread
    that makes ends, is joined, the first ends; both are joined. *)
Definition thread_middle : list (choice thread_job) := thread_first ++ Begin 3 JobMain :: gos 8 3.
Definition thread_last : list (choice thread_job) := thread_middle ++
  Begin 2 JobMain :: gos 8 2 ++ Begin 4 JobMain :: gos 8 4 ++ gos 9 2 ++ Begin 1 (JobCalls [ThEvent 1; ThEvent 2; ThDeinit]) :: gos 7 1.

Lemma iv_thread_safe_witness : exists B (m : M (thread_state unit) B) k,
  (demo_thread (take 40 thread_last)).2 !! 2%positive = Some (Act m k) /\ wp thbreach m (demo_thread (take 40 thread_last)).1 (fun _ _ => True).
Proof.
  assert (match (demo_thread (take 40 thread_last)).2 !! 2%positive with Some (Act _ _) => true | _ => false end = true) as Hb by (by vm_compute).
  destruct ((demo_thread (take 40 thread_last)).2 !! 2%positive) as [[a|B m k]|] eqn:E; [discriminate Hb| |discriminate Hb].
  exists B, m, k. split; [reflexivity|]. exact (iv_thread_safe _ _ _ _ 2 B m k (demo_thread_reachable (take 40 thread_last)) E).
Defined.
Lemma iv_thread_reference_witness :
  th_log (demo_thread thread_last).1 = [LineStarted "a"; LineStarted "b"; LineSelf 1; LineChild 0 (Some "a"); LineChild 0 (Some "b");
    LineTerminating (Some "b"); LineStarted "c"; LineTerminating (Some "c"); LineJoined (Some "c"); LineTerminating (Some "a");
    LineJoined (Some "a"); LineJoined (Some "b")] /\
  (th_objs (demo_thread thread_last).1 = ∅ /\ th_dead (demo_thread thread_last).1 = ∅) /\
  exists p pending, th_dead (demo_thread thread_middle).1 !! 2%positive = Some (p, pending) /\ (pending = true \/ th_pc (demo_thread thread_middle).1 !! p = Some (ThDied 2)).
Proof.
  split; [vm_compute; reflexivity|]. split.
  - destruct (iv_thread_reference {[1%positive]} demo_routine _ _ (demo_thread_reachable thread_last)) as [_ H].
    assert (th_pc (demo_thread thread_last).1 = ∅) as E by (vm_compute; reflexivity).
    destruct H as (_&_&_&H); [intros t; rewrite E; apply lookup_empty|]. apply H. vm_compute. reflexivity.
  - destruct (iv_thread_reference {[1%positive]} demo_routine _ _ (demo_thread_reachable thread_middle)) as [H _].
    destruct (H 3%positive (mk_os 2 OsExited false true)) as (p&b&l&Hd&_&Hx); [vm_compute; reflexivity|]. exists p, b. split; [exact Hd|]. by apply Hx.
Defined.
(** Thread 1 tears its library down while the threads 2, which runs, and 3, which has
    ended, were not joined. *)
Lemma iv_thread_deinit_detaches_witness :
  let s := (demo_thread (thread_middle ++ Begin 2 JobMain :: gos 4 2)).1 in
  (os_state <$> th_os s !! 2%positive, os_state <$> th_os s !! 3%positive) = (Some OsRunning, Some OsExited) /\
  exists s', thread_deinit 1 s = Ok (tt, s') /\ th_children s' = delete 1%positive (th_children s) /\
    forall i, th_os s' !! i = if decide (i ∈ [2; 3]%positive) then th_os s !! i ≫= detached else th_os s !! i.
Proof.
  intros s. split; [vm_compute; reflexivity|]. apply (iv_thread_deinit_detaches 1 [1; 2]%positive [2; 3]%positive s).
  - vm_compute. reflexivity.
  - repeat constructor; eexists; (split; [vm_compute; reflexivity|reflexivity]).
  - apply (bool_decide_unpack _). vm_compute. exact I.
  - repeat constructor; eexists; (split; [vm_compute; reflexivity|reflexivity]).
Defined.
Lemma iv_thread_detached_post_witness : exists s',
  thread_deinit 1 (demo_thread (thread_first ++ Begin 2 JobMain :: gos 4 2)).1 = Ok (tt, s') /\ key_destructor 2 s' = Undef.
Proof.
  set (s := (demo_thread (thread_first ++ Begin 2 JobMain :: gos 4 2)).1).
  assert (exists s', thread_deinit 1 s = Ok (tt, s')) as [s' E] by (eexists; vm_compute; reflexivity). exists s'. split; [exact E|].
  apply (iv_thread_detached_post 1 2 1 false s s'); [by vm_compute|by vm_compute|exact E].
Defined.
